(* ===== verification/_CoqProject ===== *)
-Q . S2P
Prelude.v
KString.v
ChainHeap.v
Chain.v
SlChain.v
GenIntrDrv.v
Crc32.v
Image.v
MkImage.v
MkImageMain.v
MkImageProofs.v
MkMulti.v
MkRoundTrip.v
I2cStub.v
I2cTinyUsb.v
Osccal.v
HidKeys.v
Rotary.v
Llctl.v
UsbIss.v
CString.v
StrMap.v
Settings.v
Eeprog.v
HexFile.v
Micronucleus.v
MicronucleusProofs.v
AdavChain.v
RpcResult.v
TaskWorker.v
TaskWorkerProofs.v
TaskWorkerRaces.v
Lang.v
JsonGrammar.v
JsonChecker.v
JsonMachine.v
JsonProofs.v
CxxStd.v
XmppProxy.v
XmppMgr.v
XmppMgrProofs.v
XmppRun.v
XmppRaces.v
I2cAccess.v
Hd44780.v
PcfLcd.v
EvntMgr.v
Json.v
NetServer.v
JsonRpc.v
JsonRpcProofs.v
RpcMgr.v
RpcCalls.v
RpcClient.v
I2cSrv.v
RpcWire.v
I2cRemote.v
