(* ===== verification/Prelude.v ===== *)
(** * A verification of the C code of brbox

    brbox is the software of a small embedded box: kernel modules, command line
    tools, microcontroller firmware, C++ services and the build system that
    puts them in images.  This development models the C parts that carry logic
    of their own and proves what makes them correct.

    ** The parts and where they are modelled

    - The list [chain] of [src/sources/kmods/genintrdrv/kmod/chain.c], a FIFO of
      data pointers under a semaphore, and [sl_chain.c], the same under a
      spinlock ([src/sources/kmods/cmnsrc] has copies of both).  [ChainHeap]
      holds the heap of list holders, the code the two share, and the interface
      [ChainLock] a lock must offer; [Chain] and [SlChain] give the two locks,
      model every function and prove that they implement one abstract queue
      ([Chain.fifo]).
    - The module genintrdrv ([genintrdrv.c], [genintrdrv.h]): user processes
      subscribe through sysfs to interrupts and get signals.  [GenIntrDrv]
      models the sysfs files, the ioctl, the interrupt handler, the tasklet,
      insertion and removal on top of two chains, whose theorems it uses;
      [KString] models the string functions of the kernel it calls.
    - The tool mkimage ([src/sources/utils/brbox-mkimage]), which packs, lists
      and takes apart the update images of the box.  [Crc32] is [crc32.c];
      [Image] is [image.h] with the name tables and the header functions of
      [mkimage.c]; [MkImage] has the functions on files and multi-file images,
      [MkImageMain] the option parser and [main]; [MkImageProofs], [MkMulti] and
      [MkRoundTrip] have the proofs about files, about the layout of multi-file
      images, and about whole runs of the tool.
    - The module i2c-stub, an emulated SMBus, in [I2cStub], and the module
      i2c-tiny-usb, an i2c bus behind a USB device, in [I2cTinyUsb].
    - The firmware of two USB devices on an ATtiny85, a four-key keyboard in
      [HidKeys] and a volume knob in [Rotary]; [Osccal] is the calibration of
      the oscillator, which both have.
    - The tool llctl, which sets the LEDs of a LAN9512, in [Llctl].
    - The module usb-iss, an i2c bus behind a Devantech USB-ISS, in [UsbIss].
    - The library lib-settings, in which the services keep their settings:
      [StrMap] is its hash table ([strmap.cpp]), [Settings] the sections, the
      conversions and the text file ([settings.cpp]), on top of the former's
      theorems.
    - The tool eeprog ([src/sources/utils/eeprog-0.7.6]) in [Eeprog], over an
      interface [SMBus] for the bus and [Eeprom24] for what a chip promises; the
      model of i2c-stub is proved to be an instance.
    - The tool micronucleus ([src/sources/firmware/micronucleus-cmdline]), which
      uploads programs to the firmware's chips: [HexFile] has the parsers of its
      files, [Micronucleus] the protocol and [main], [MicronucleusProofs] what
      ends up in the flash.
    - The library of the services, lib-adav, in its two copies
      ([src/sources/lib/lib-adav-old], which is built, and [lib-adav]).
      [AdavChain] is the class ADGenericChain, the chain under a mutex with
      callbacks; [RpcResult] the result codes and their texts; [TaskWorker] the
      class ADTaskWorker, which runs the tasks that clients push on a thread of
      its own.  The threads take their steps in any order, a step being what
      happens between two points where a lock is taken or given back;
      [TaskWorkerProofs] has the promise to the clients, [TaskWorkerRaces] what
      breaks it.
    - The checker of lib-adav that looks at JSON-RPC requests before they are
      parsed ([ADJsonChecker.cpp], and its use in [ADJsonRpcProxy.cpp]).
      [JsonChecker] is the code with its tables, [Lang] and [JsonGrammar] say
      what a JSON text is, [JsonMachine] is the automaton of the tables without
      the object, and [JsonProofs] puts them together.
    - The chat service xmproxy ([src/sources/services/xmproxy]), with which the
      box is managed over XMPP.  [XmppProxy] is the connection
      ([ADXmppProxy.cpp]: sessions, roster, who may talk and who is an admin);
      [XmppMgr] is [XmppMgr.cpp] with [EvntHandler.cpp] and
      [ADSonOffHttpClient.cpp]: the queue of messages, the command table and
      every command, aliases, subscriptions to events and their files, events of
      other services, starting.  [XmppMgrProofs] says what each command may
      change and answer; [XmppRun] lets the threads take their steps in any
      order, a step being one whole call of the library (a session, a message, a
      change of the roster, a request to subscribe or to unsubscribe), one whole
      call of another service (an event, or a call of [XmppRpc.cpp]) or one round
      of the worker; [XmppRaces] runs it on concrete inputs and shows which orders
      go wrong.
    - More of lib-adav: [I2cAccess] is the class I2CBusAccess, an i2c bus behind
      a device node or behind another service, and the interface [ByteBus] it
      offers to drivers; [PcfLcd] is the driver of the character displays
      ([I2CPcfLcd.cpp]), [Hd44780] the display controller it talks to;
      [EvntMgr] is ADEvntMgr, the events between the services.
    - The JSON-RPC server of lib-adav.  [Json] has the values and, as a class,
      what is relied on of json-c, with an instance; [NetServer] is ADNetServer
      ([ADNetServer.cpp]), the connections and how requests are cut out of what
      they receive; [JsonRpc] is ADJsonRpcProxy and ADJsonRpcMapper, whose three
      threads share the objects of the requests, and [JsonRpcProofs] says what
      they do in whatever order they run.  [RpcMgr] is ADJsonRpcMgr with the
      macros of [ADCommon.hpp] and ADCmnStringProcessor: the 24 calls that every
      service answers; [RpcCalls] has them as calls with typed parameters.
    - The JSON-RPC client of lib-adav in [RpcClient]: ADNetClient and
      ADJsonRpcClient, with its hundred ways of making a request and reading an
      answer, over a class of sockets.  [I2cSrv] is the service i2csrv
      ([src/sources/services/i2csrv]), which offers an i2c bus to other machines.
      [RpcWire] makes a socket of the client out of the server and its threads and
      shows what a call does; [I2cRemote] puts the bus object of [I2cAccess], the
      client, the server, the manager and the service together.
    - [CString] has what the tools in user space use of the standard library for
      strings and numbers, [CxxStd] the string streams, files and maps of the
      standard library of C++.

    ** How the code is modelled

    A C function on a state [S] is a function into [outcome S A] below: it
    returns, exits, faults on a pointer or an index ([Oops]), waits for ever
    ([Blocked]), or a loop did not end in the rounds it was followed
    ([OutOfFuel]).  State is a record of the static variables and of what the
    code sees of the kernel, the files or the device; integers are [Z], cut to
    their width where the code stores them.  What is not in the repository is a
    parameter: the allocator, the processes that are alive, the answers of a USB
    device, what is on the stack where the code reads it uninitialised, the size
    of a [long], the length of a USB frame.  Definitions have the names of the
    functions they model; pieces of a long function are definitions of their
    own, put together as the code does.

    Loops that follow pointers have the size of the heap as fuel, which a
    well-formed list never uses up; loops over strings, buffers and tables have
    their length.  The option parser has the total length of the arguments plus
    their number.  Theorems say that a call returns a result, so running out of
    fuel would falsify them; where the code does run for ever, the theorem is
    about every amount of fuel.

    ** What is proved

    The main theorems, by file; those numbered C1 to C40 in the comments are the
    ones to start with.

    - Chains: both implement one abstract queue in every reachable state, for
      every order of calls that keep what the functions ask of their callers (an
      index in range, a datum that is not queued) and with failing allocation
      ([chain_behaves_as_fifo], [sl_chain_behaves_as_fifo]); what a caller that
      holds the lock may do, and the index function past the end.
    - genintrdrv: delivery of signals, subscription, insertion, removal and an
      invariant of all reachable states ([interrupt_delivery], [subscribe_once],
      [rmmod_frees_everything], [module_keeps_invariant]), and what the code gets
      wrong: the page of sysfs, the tasklet, error paths of insertion.
    - mkimage: the checksum is the shift register of its polynomial and detects
      bursts; headers and name tables; comparison of files; creating, listing,
      querying and extracting images, whole command lines at a time
      ([image_round_trip], [multi_round_trip], [damaged_image_refused]), for
      files below 2 GiB, where the tool's [int]s and one [write] reach
      ([copy_file_too_big]), and for multi-file images whose name has two words,
      since listing one of a single word reads an array that nothing has set
      ([one_word_name_faults]).
    - i2c: the emulated bus answers every request and reads back what was
      written ([stub_bus_answers], [stub_block_round_trip]); what the two USB
      drivers send, how an interpreter of the protocol reads it, which messages
      fit, and what a device leaves behind, which is nothing but a pointer after a
      failed probe of i2c-tiny-usb ([usb_xfer_protocol], [probe_use_disconnect],
      [iss_transfer_means_messages], [iss_probe_disconnect]); eeprog reads back
      the file it has written, on every chip that keeps the interface's promises
      ([eeprog_write_then_read]).
    - lib-settings: the table is a finite map ([strmap_is_finite_map]); settings
      that are saved are loaded again ([settings_round_trip]); loading any text
      ends and stays in its buffers ([settings_open_safe]); setting and getting;
      what happens when memory runs out.
    - lib-adav: the chain is a queue with numbers ([adchain_behaves_as_fifo]);
      with one client every interleaving with the worker is a history of a store
      of tasks ([task_worker_refines_store]) and every task is completed
      ([every_task_completes]); with two clients a result can be lost
      ([two_clients_lose_a_result]), and lib-adav has more races.
    - micronucleus: hex files are read back ([program_file_round_trip]) and any
      file stays in the buffer ([hex_parse_in_bounds]); the upload leaves the
      program and the two jumps in the flash ([write_flash_installs]), from the
      command line on ([tool_uploads_program]).
    - JSON checker: it accepts exactly the texts of the grammar
      ([checker_accepts_json]) and its object keeps its type
      ([checker_stays_typed]); where numbers and characters differ from JSON.
    - xmproxy: every message that is let in is answered, once for each of its
      commands, in the order of arrival ([replies_in_order],
      [everyone_is_answered]); by messages nobody but an admin changes who is let
      in, and otherwise only requests to unsubscribe and the box's own calls do
      ([guests_cannot_manage_buddies]); what a user has set is there after a
      restart ([restart_restores_state]); the result of a task reaches the one
      who asked for it, unless its event comes first
      ([result_reaches_requester], [event_before_entry]).
    - Buses, displays, events of lib-adav: words come back as they were written
      ([wide_round_trip]); whatever the driver is asked, the controller behind
      the expander shows what a board of rows would ([display_is_a_board]); the
      event manager is a hub without pointers as long as its calls do not
      overlap ([evntmgr_refines_hub]), and what happens when they do
      ([cancelled_while_sending]).
    - JSON-RPC: the threads of the server answer like one, in order, up to the
      first answer that releases an object twice, which refusals and results that
      are not objects do, and without such answers they leave nothing unanswered
      ([server_answers_in_order], [send_error_faults],
      [nothing_is_left_unanswered]); requests that arrive together are told apart
      ([requests_are_taken_apart]), except those of the library's own client
      ([second_request_is_lost]); what the manager of a service does with
      a request is the operation it names ([manager_serves_calls]).  An i2c bus
      that is used over the network, with client, server and service in between,
      is the bus of the other machine, but for the width of what is written and
      for arrays, which never get there ([remote_bus_is_the_bus]).
    - Firmware: the calibration finds the best value or hangs; the keyboard's
      reports and its debounce time; the knob's reports.  llctl sets the LEDs.

    ** What is not modelled

    Text that only informs the user, log messages, USB and HID descriptors,
    vendored code (the V-USB driver, the igb driver, lib-onion, libstrophe),
    timers, serial ports and other displays of lib-adav, the
    loop around [select] of its socket server, the command line tools on top of
    its client, the services other than xmproxy and i2csrv, the options of
    services, and the utility usb-relay-ctl.  Of mkimage: how much of its buffer of 1024
    characters the messages take, but for the two about checksums: names of files
    and of the program are taken to fit.  Of xmproxy: the loop of the connection,
    logging out, the ping thread, the AI agent and the packets of the service's
    own JSON-RPC interface; a call and a round of its worker are one step each, though
    the code takes no lock, so that what happens when two of them overlap on a
    container of the C++ library is not covered.

    This file holds what all the others share: outcomes, the state monad with
    its tactics, and machine integers. *)

From stdpp Require Import base list gmap strings numbers.
From Stdlib Require Import ZArith Lia.

Open Scope Z_scope.

(** ** Outcomes and the state monad of the C code

    A C function that works on a state [S] and returns an [A] is modelled as a
    function [M S A].  The outcome says how the call ended: it returned, it
    called [exit], it dereferenced a pointer that is NULL, freed or out of
    bounds, it waits for a lock nobody will release, or the fuel of one of its
    loops ran out. *)
Inductive outcome (S A : Type) : Type :=
| Done (a : A) (s : S)
| Exit (code : Z) (s : S)
| Oops
| Blocked
| OutOfFuel.
Arguments Done {S A} _ _.
Arguments Exit {S A} _ _.
Arguments Oops {S A}.
Arguments Blocked {S A}.
Arguments OutOfFuel {S A}.

Definition M (S A : Type) : Type := S → outcome S A.

#[global] Instance M_ret S : MRet (M S) := λ A a s, Done a s.
#[global] Instance M_bind S : MBind (M S) := λ A B k c s,
  match c s with
  | Done a s' => k a s'
  | Exit code s' => Exit code s'
  | Oops => Oops
  | Blocked => Blocked
  | OutOfFuel => OutOfFuel
  end.

#[global] Instance M_fmap S : FMap (M S) := λ A B f c, c ≫= λ a, mret (f a).

Definition gets {S A} (f : S → A) : M S A := λ s, Done (f s) s.
Definition modify {S} (f : S → S) : M S unit := λ s, Done () (f s).
Definition oops {S A} : M S A := λ _, Oops.
Definition blocked {S A} : M S A := λ _, Blocked.
Definition out_of_fuel {S A} : M S A := λ _, OutOfFuel.
Definition exit_ {S A} (code : Z) : M S A := λ s, Exit code s.

(** A pointer read: [oops] when the cell is not there. *)
Definition of_opt {S A} (o : option A) : M S A :=
  match o with Some a => mret a | None => oops end.

(** Running a computation on a component of a larger state. *)
Definition zoom {S T A} (get : S → T) (put : T → S → S) (c : M T A) : M S A := λ s,
  match c (get s) with
  | Done a t => Done a (put t s)
  | Exit code t => Exit code (put t s)
  | Oops => Oops
  | Blocked => Blocked
  | OutOfFuel => OutOfFuel
  end.

Section monad_lemmas.
Context {S : Type}.

Lemma done_state {A} (a b : A) (s t : S) : Done a s = Done b t → s = t.
Proof. by intros [= _ ->]. Qed.

Lemma bind_done {A B} (k : A → M S B) c s a s' :
  c s = Done a s' → (c ≫= k) s = k a s'.
Proof. intros H. unfold mbind, M_bind. by rewrite H. Qed.

Lemma bind_oops {A B} (k : A → M S B) c s : c s = Oops → (c ≫= k) s = Oops.
Proof. intros H. unfold mbind, M_bind. by rewrite H. Qed.

Lemma fmap_done {A B} (f : A → B) (c : M S A) s a s' : c s = Done a s' → (f <$> c) s = Done (f a) s'.
Proof. intros H. unfold fmap, M_fmap. by rewrite (bind_done _ _ _ _ _ H). Qed.

Lemma bind_ret {A B} (k : A → M S B) a s : (mret a ≫= k) s = k a s.
Proof. done. Qed.

Lemma bind_gets {A B} (f : S → A) (k : A → M S B) s : (gets f ≫= k) s = k (f s) s.
Proof. done. Qed.

Lemma bind_modify {B} (f : S → S) (k : unit → M S B) s : (modify f ≫= k) s = k () (f s).
Proof. done. Qed.

Lemma bind_of_opt {A B} (a : A) (k : A → M S B) s : (of_opt (Some a) ≫= k) s = k a s.
Proof. done. Qed.

Lemma zoom_done {T A} (get : S → T) put (c : M T A) s a t :
  c (get s) = Done a t → zoom get put c s = Done a (put t s).
Proof. intros H. unfold zoom. by rewrite H. Qed.

End monad_lemmas.

(** [msimpl]: run the reads, writes and returns at the head of a block;
    [mstep H]: run the first computation of a block with the equation [H]. *)
Ltac msimpl :=
  repeat (first [rewrite bind_ret | rewrite bind_gets | rewrite bind_modify
                | rewrite bind_of_opt]; cbv beta).
Ltac mstep H := rewrite (bind_done _ _ _ _ _ H); cbv beta.

(** ** Machine integers *)
Definition INT_MAX : Z := 2147483647.
Definition wrapu (w z : Z) : Z := z mod 2 ^ w.
Definition u8 (z : Z) : Z := z mod 256.
Definition u16 (z : Z) : Z := z mod 65536.
Definition u32 (z : Z) : Z := z mod 4294967296.
(** Conversion to a signed 32-bit [int]. *)
Definition int32 (z : Z) : Z := (z + 2147483648) mod 4294967296 - 2147483648.

Lemma u8_range z : 0 ≤ u8 z < 256.
Proof. unfold u8. apply Z.mod_pos_bound. lia. Qed.
Lemma u32_range z : 0 ≤ u32 z < 4294967296.
Proof. unfold u32. apply Z.mod_pos_bound. lia. Qed.
Lemma u8_small z : 0 ≤ z < 256 → u8 z = z.
Proof. intros. unfold u8. by apply Z.mod_small. Qed.
Lemma int32_range z : -2147483648 ≤ int32 z ≤ INT_MAX.
Proof. unfold int32, INT_MAX. assert (H := Z.mod_pos_bound (z + 2147483648) 4294967296). lia. Qed.
Lemma u32_small z : 0 ≤ z < 4294967296 → u32 z = z.
Proof. intros. unfold u32. by apply Z.mod_small. Qed.
Lemma int32_small z : -2147483648 ≤ z ≤ INT_MAX → int32 z = z.
Proof. unfold int32, INT_MAX. intros. rewrite Z.mod_small; lia. Qed.
