(* ===== verification/KString.v ===== *)
(** * Numbers in text

    What the modules use of the kernel's string library: [sscanf] with [%d] and
    literal commas, [simple_strtol] in base 10, [strsep] at a comma, and
    [sprintf] with [%d]; and the proof that what [%d] prints, [%d] reads. *)

From stdpp Require Import base list strings.
From Stdlib Require Import ZArith Lia Ascii String.
From S2P Require Import Prelude.

(** ** Number scanning, as the kernel's [sscanf] and [simple_strtol] do it *)
Definition is_digit (c : ascii) : bool :=
  let n := Z.of_N (N_of_ascii c) in (48 <=? n) && (n <=? 57).
Definition digit_val (c : ascii) : Z := Z.of_N (N_of_ascii c) - 48.
Definition is_space (c : ascii) : bool :=
  let n := Z.of_N (N_of_ascii c) in (n =? 32) || ((9 <=? n) && (n <=? 13)) || (n =? 160).

Fixpoint skip_spaces (s : string) : string :=
  match s with
  | String c s' => if is_space c then skip_spaces s' else s
  | EmptyString => s
  end.

(** The digits at the head of a string, base 10, and what follows them. *)
Fixpoint simple_strtoul (acc : Z) (s : string) : Z * string :=
  match s with
  | String c s' => if is_digit c then simple_strtoul (acc * 10 + digit_val c) s' else (acc, s)
  | EmptyString => (acc, s)
  end.

Definition simple_strtol (s : string) : Z * string :=
  match s with
  | String "-" s' => let '(v, r) := simple_strtoul 0 s' in (- v, r)
  | _ => simple_strtoul 0 s
  end.

(** One [%d] of [sscanf]: [None] when there is no number. *)
Definition scan_d (s : string) : option (Z * string) :=
  let s := skip_spaces s in
  let d := match s with String "-" (String c _) => Some c | String c _ => Some c | _ => None end in
  match d with
  | Some c => if is_digit c then let '(v, r) := simple_strtol s in Some (int32 v, r) else None
  | None => None
  end.

(** One literal [,] of a [sscanf] format. *)
Definition scan_comma (s : string) : option string :=
  match s with String "," r => Some r | _ => None end.

(** [strsep(&end, ",")]: what follows the first comma, NULL when there is none. *)
Fixpoint strsep_comma (s : string) : option string :=
  match s with
  | EmptyString => None
  | String c s' => if Ascii.eqb c "," then Some s' else strsep_comma s'
  end.

(** [sprintf] with [%d]. *)
Definition digit_char (d : Z) : ascii := ascii_of_N (Z.to_N (48 + d)).
Fixpoint put_dec (fuel : nat) (n : Z) (acc : string) : string :=
  let acc := String (digit_char (n mod 10)) acc in
  match fuel with
  | O => acc
  | S fuel => if n <? 10 then acc else put_dec fuel (n / 10) acc
  end.
Definition fmt_u (n : Z) : string := put_dec (Z.to_nat (Z.log2 n)) n "".
Definition fmt_d (n : Z) : string := if n <? 0 then String "-" (fmt_u (- n)) else fmt_u n.

(** ** Concatenation *)
Lemma str_app_nil s : s +:+ "" = s.
Proof. induction s as [|c s IH]; [done|]. change (String c (s +:+ "") = String c s). by rewrite IH. Qed.
Lemma str_app_assoc a b c : a +:+ (b +:+ c) = (a +:+ b) +:+ c.
Proof. induction a as [|x a IH]; [done|].
  change (String x (a +:+ (b +:+ c)) = String x ((a +:+ b) +:+ c)). by rewrite IH. Qed.
Definition strlen (s : string) : Z := Z.of_nat (String.length s).
Lemma strlen_app a b : strlen (a +:+ b) = strlen a + strlen b.
Proof.
  unfold strlen. induction a as [|c a IH]; [done|].
  change (String c a +:+ b) with (String c (a +:+ b)). cbn [String.length]. lia.
Qed.

(** ** What is printed can be read *)
Lemma digit_cases d : 0 ≤ d < 10 →
  d = 0 ∨ d = 1 ∨ d = 2 ∨ d = 3 ∨ d = 4 ∨ d = 5 ∨ d = 6 ∨ d = 7 ∨ d = 8 ∨ d = 9.
Proof. lia. Qed.
Lemma is_digit_char d : 0 ≤ d < 10 → is_digit (digit_char d) = true.
Proof. intros H%digit_cases. naive_solver. Qed.
Lemma digit_val_char d : 0 ≤ d < 10 → digit_val (digit_char d) = d.
Proof. intros H%digit_cases. naive_solver. Qed.
Lemma digit_not_space c : is_digit c = true → is_space c = false.
Proof.
  unfold is_digit, is_space. intros [H1%Z.leb_le H2%Z.leb_le]%andb_prop.
  rewrite !orb_false_iff, andb_false_iff, !Z.eqb_neq, !Z.leb_gt. lia.
Qed.
Lemma digit_not_minus c : is_digit c = true → c ≠ "-"%char.
Proof. by intros H ->. Qed.

Lemma strtoul_put_dec fuel n acc a : 0 ≤ n < 2 ^ (Z.of_nat fuel + 1) →
  ∃ k, simple_strtoul a (put_dec fuel n acc) = simple_strtoul (a * 10 ^ k + n) acc.
Proof.
  revert n acc a. induction fuel as [|fuel IH]; intros n acc a Hn; simpl put_dec.
  - exists 1. rewrite Z.mod_small by (simpl in Hn; lia). simpl.
    rewrite is_digit_char, digit_val_char by (simpl in Hn; lia). do 2 f_equal. 
  - assert (Hm := Z.mod_pos_bound n 10 ltac:(lia)). assert (Hd := Z.div_mod n 10 ltac:(lia)).
    destruct (Z.ltb_spec n 10).
    + exists 1. rewrite Z.mod_small by lia. simpl. rewrite is_digit_char, digit_val_char by lia.
      do 2 f_equal.
    + destruct (IH (n / 10) (String (digit_char (n mod 10)) acc) a) as (k & Hk).
      { rewrite Nat2Z.inj_succ, Z.add_succ_l, Z.pow_succ_r in Hn by lia. lia. }
      rewrite Hk. simpl. rewrite is_digit_char, digit_val_char by lia.
      destruct (Z.le_gt_cases 0 k).
      * exists (k + 1). rewrite Z.pow_add_r by lia. f_equal. lia.
      * exists k. rewrite Z.pow_neg_r by lia. f_equal. lia.
Qed.

Definition no_digit (s : string) : Prop := ∀ c s', s = String c s' → is_digit c = false.

Lemma strtoul_stop v s : no_digit s → simple_strtoul v s = (v, s).
Proof. intros H. destruct s as [|c s]; [done|]. simpl. by rewrite (H c s). Qed.

Lemma put_dec_app fuel n acc s : (put_dec fuel n acc +:+ s) = put_dec fuel n (acc +:+ s).
Proof.
  revert n acc. induction fuel as [|fuel IH]; intros n acc; simpl; [done|].
  destruct (n <? 10); [done|]. by rewrite IH.
Qed.

Lemma put_dec_head fuel n acc : 0 ≤ n → ∃ c s, put_dec fuel n acc = String c s ∧ is_digit c = true.
Proof.
  revert n acc. induction fuel as [|fuel IH]; intros n acc Hn; simpl.
  - eexists _, _. split; [done|]. apply is_digit_char, Z.mod_pos_bound. lia.
  - destruct (n <? 10).
    + eexists _, _. split; [done|]. apply is_digit_char, Z.mod_pos_bound. lia.
    + apply IH. by apply Z.div_pos.
Qed.

Lemma fmt_u_head n s : 0 ≤ n → ∃ c s', fmt_u n +:+ s = String c s' ∧ is_digit c = true.
Proof. intros Hn. unfold fmt_u. rewrite put_dec_app. by apply put_dec_head. Qed.

Lemma strtoul_fmt_u n s : 0 ≤ n → no_digit s → simple_strtoul 0 (fmt_u n +:+ s) = (n, s).
Proof.
  intros Hn Hs. unfold fmt_u. rewrite put_dec_app.
  destruct (strtoul_put_dec (Z.to_nat (Z.log2 n)) n ("" +:+ s) 0) as (k & ->).
  - rewrite Z2Nat.id by apply Z.log2_nonneg. split; [done|].
    destruct (Z.eq_dec n 0) as [->|]; [done|]. rewrite Z.add_1_r. apply Z.log2_spec. lia.
  - rewrite Z.mul_0_l, Z.add_0_l. by apply strtoul_stop.
Qed.

(** [simple_strtol] reads the sign only in front. *)
Lemma strtol_digit c s : is_digit c = true → simple_strtol (String c s) = simple_strtoul 0 (String c s).
Proof.
  intros H. unfold simple_strtol. destruct c as [[] [] [] [] [] [] [] []]; try done; vm_compute in H; discriminate.
Qed.

Lemma strtol_fmt_d n s : no_digit s → simple_strtol (fmt_d n +:+ s) = (n, s).
Proof.
  intros Hs. unfold fmt_d. destruct (Z.ltb_spec n 0).
  - change (String "-" (fmt_u (- n)) +:+ s) with (String "-" (fmt_u (- n) +:+ s)).
    unfold simple_strtol. rewrite strtoul_fmt_u by (done || lia). by rewrite Z.opp_involutive.
  - destruct (fmt_u_head n s) as (c & s' & Hc & Hd); [done|]. rewrite Hc, strtol_digit, <-Hc by done.
    by apply strtoul_fmt_u.
Qed.

Lemma scan_d_number s c s' : s = String c s' → is_digit c = true →
  scan_d s = (let '(v, r) := simple_strtol s in Some (int32 v, r)) ∧
  scan_d (String "-" s) = (let '(v, r) := simple_strtol (String "-" s) in Some (int32 v, r)).
Proof.
  intros -> Hc. split.
  - unfold scan_d. cbn [skip_spaces]. rewrite (digit_not_space _ Hc).
    assert (E : (match String c s' with String "-" (String c _) => Some c | String c _ => Some c
      | _ => None end) = Some c).
    { destruct c as [[] [] [] [] [] [] [] []]; try done; vm_compute in Hc; discriminate. }
    rewrite E. by rewrite Hc.
  - unfold scan_d. change (skip_spaces (String "-" (String c s'))) with (String "-" (String c s')).
    cbv beta iota zeta. by rewrite Hc.
Qed.

(** What [%d] prints, [%d] reads, and it stops where the number ends. *)
Lemma scan_fmt_d n s : -2147483648 ≤ n ≤ INT_MAX → no_digit s → scan_d (fmt_d n +:+ s) = Some (n, s).
Proof.
  intros Hn Hs. assert (Hl := strtol_fmt_d n s Hs). unfold fmt_d in *. destruct (Z.ltb_spec n 0).
  - destruct (fmt_u_head (- n) s) as (c & s' & Hc & Hd); [lia|].
    destruct (scan_d_number _ _ _ Hc Hd) as [_ H1].
    change (String "-" (fmt_u (- n)) +:+ s) with (String "-" (fmt_u (- n) +:+ s)) in *.
    rewrite H1, Hl. by rewrite int32_small.
  - destruct (fmt_u_head n s) as (c & s' & Hc & Hd); [lia|].
    destruct (scan_d_number _ _ _ Hc Hd) as [H1 _]. rewrite H1, Hl. by rewrite int32_small.
Qed.

(** ** Comma-separated lists *)
Fixpoint join_comma (l : list Z) : string :=
  match l with
  | [] => ""
  | [n] => fmt_d n
  | n :: l => fmt_d n +:+ "," +:+ join_comma l
  end.

Lemma strsep_digit c s : is_digit c = true → strsep_comma (String c s) = strsep_comma s.
Proof. intros H. simpl. destruct (Ascii.eqb_spec c ","); [by subst|done]. Qed.

Lemma strsep_put_dec fuel n acc : 0 ≤ n → strsep_comma (put_dec fuel n acc) = strsep_comma acc.
Proof.
  assert (Hd : ∀ m s, strsep_comma (String (digit_char (m mod 10)) s) = strsep_comma s).
  { intros m s. apply strsep_digit, is_digit_char, Z.mod_pos_bound. lia. }
  revert n acc. induction fuel as [|fuel IH]; intros n acc Hn; cbn [put_dec]; [by rewrite Hd|].
  destruct (n <? 10); [by rewrite Hd|]. rewrite IH by (by apply Z.div_pos). by rewrite Hd.
Qed.

Lemma strsep_fmt_d n s : strsep_comma (fmt_d n +:+ s) = strsep_comma s.
Proof.
  assert (Hu : ∀ m, 0 ≤ m → strsep_comma (fmt_u m +:+ s) = strsep_comma s).
  { intros m Hm. unfold fmt_u. rewrite put_dec_app. by apply strsep_put_dec. }
  unfold fmt_d. destruct (Z.ltb_spec n 0); [|by apply Hu].
  change (String "-" (fmt_u (- n)) +:+ s) with (String "-" (fmt_u (- n) +:+ s)).
  change (strsep_comma (fmt_u (- n) +:+ s) = strsep_comma s). apply Hu. lia.
Qed.
