(* ===== verification/ChainHeap.v ===== *)
(** * Linked holders in the kernel heap

    The list code shared by [src/sources/kmods/genintrdrv/kmod/chain.c] (chains
    under a semaphore) and [src/sources/kmods/genintrdrv/kmod/sl_chain.c]
    (chains under a spinlock): [struct chain_holder], the walk to the last
    holder, the search loop, linking at the tail, unlinking a holder, and
    emptying the chain.  The heap is explicit: holders and the objects behind
    the data pointers are finite maps from addresses, and a read or write of
    an address that is not there is an [Oops]. *)

From stdpp Require Import base list gmap.
From Stdlib Require Import ZArith Lia.
From S2P Require Import Prelude.

(** An address; NULL is [None]. *)
Definition loc : Type := positive.
Definition ptr : Type := option loc.

Inductive gfp := GFP_KERNEL | GFP_ATOMIC.

(** [struct chain_holder] of chain.h. *)
Record chain_holder := Holder { pData : ptr; pPrev : ptr; pNext : ptr }.

(** [struct type_chain] and [struct type_sl_chain] of chain.h, with the heap
    they live in.  [L] is the lock (a semaphore, or a spinlock), [A] the type
    of the objects behind the data pointers.  The holder embedded in the
    struct, [base_chain], is the heap cell at the address [base]. *)
Record chain (L A : Type) := Chain {
  base : loc;
  c_size : Z;
  c_peak : Z;
  init_flag : Z;
  clock : L;
  holders : gmap loc chain_holder;
  objs : gmap loc A
}.
Arguments Chain {L A} _ _ _ _ _ _ _.
Arguments base {L A} _.
Arguments c_size {L A} _.
Arguments c_peak {L A} _.
Arguments init_flag {L A} _.
Arguments clock {L A} _.
Arguments holders {L A} _.
Arguments objs {L A} _.

Definition set_size {L A} z (c : chain L A) : chain L A :=
  Chain (base c) z (c_peak c) (init_flag c) (clock c) (holders c) (objs c).
Definition set_peak {L A} z (c : chain L A) : chain L A :=
  Chain (base c) (c_size c) z (init_flag c) (clock c) (holders c) (objs c).
Definition set_init {L A} z (c : chain L A) : chain L A :=
  Chain (base c) (c_size c) (c_peak c) z (clock c) (holders c) (objs c).
Definition set_clock {L A} z (c : chain L A) : chain L A :=
  Chain (base c) (c_size c) (c_peak c) (init_flag c) z (holders c) (objs c).
Definition set_holders {L A} z (c : chain L A) : chain L A :=
  Chain (base c) (c_size c) (c_peak c) (init_flag c) (clock c) z (objs c).
Definition set_objs {L A} z (c : chain L A) : chain L A :=
  Chain (base c) (c_size c) (c_peak c) (init_flag c) (clock c) (holders c) z.

(** What the chains need of a lock: [acquire] yields what the caller keeps
    until it unlocks (nothing for a semaphore, the saved interrupt flags for a
    spinlock), or [None] when the caller would wait for ever; [unlock] gives
    back the state before.  The chain operations are proved against this
    interface. *)
Class ChainLock (L K : Type) := {
  acquire : L → option (K * L);
  unlock : K → L → L;
  lock_free : L → Prop;
  acquire_free l : lock_free l → ∃ k l', acquire l = Some (k, l') ∧ unlock k l' = l
}.

Section code.
Context {L A : Type}.

(** The kernel's allocator: the address and the content of a new holder, or
    NULL.  Where it is used it is assumed to return an unused address. *)
Variable kmalloc : gfp → gmap loc chain_holder → option (loc * chain_holder).

Abbreviation K := (M (chain L A)).

Definition lock_chain `{ChainLock L Key} : K Key := λ c,
  match acquire (clock c) with
  | Some (k, l) => Done k (set_clock l c)
  | None => Blocked
  end.
Definition unlock_chain `{ChainLock L Key} (k : Key) : K unit :=
  modify (λ c, set_clock (unlock k (clock c)) c).

Definition load (l : loc) : K chain_holder := c ← gets holders; of_opt (c !! l).
Definition store (l : loc) (f : chain_holder → chain_holder) : K unit :=
  _ ← load l; modify (λ c, set_holders (alter f l (holders c)) c).
(** [p->f], with [p] possibly NULL. *)
Definition deref (p : ptr) : K loc := of_opt p.

Definition with_pData d (h : chain_holder) := Holder d (pPrev h) (pNext h).
Definition with_pPrev p (h : chain_holder) := Holder (pData h) p (pNext h).
Definition with_pNext n (h : chain_holder) := Holder (pData h) (pPrev h) n.

Definition kfree_holder (l : loc) : K unit :=
  _ ← load l; modify (λ c, set_holders (delete l (holders c)) c).
(** [kfree] of a data pointer: nothing for NULL. *)
Definition kfree_data (p : ptr) : K unit :=
  match p with
  | None => mret ()
  | Some l =>
      c ← gets objs;
      _ ← of_opt (c !! l);
      modify (λ c, set_objs (delete l (objs c)) c)
  end.

(** [while (pHolder->pNext != NULL) pHolder = pHolder->pNext;] *)
Fixpoint find_last (fuel : nat) (pHolder : loc) : K loc :=
  match fuel with
  | O => out_of_fuel
  | S fuel =>
      h ← load pHolder;
      match pNext h with
      | None => mret pHolder
      | Some n => find_last fuel n
      end
  end.

(** [while (pHolder != NULL) { if (custom_func(pHolder->pData, ...) == 0) break;
    pHolder = pHolder->pNext; }]; the callback reads the objects. *)
Fixpoint search (fuel : nat) (custom_func : gmap loc A → ptr → Z) (pHolder : ptr) : K ptr :=
  match pHolder with
  | None => mret None
  | Some l =>
      match fuel with
      | O => out_of_fuel
      | S fuel =>
          h ← load l;
          os ← gets objs;
          if custom_func os (pData h) =? 0 then mret (Some l)
          else search fuel custom_func (pNext h)
      end
  end.

(** Bound of every walk: a chain visits each holder of the heap at most once. *)
Definition walk_fuel (c : chain L A) : nat := S (size (holders c)).

(** Unlinking [pHolder] and freeing it: [pHolder->pPrev->pNext = pHolder->pNext;
    pHolder->pNext->pPrev = pHolder->pPrev;] with the case of the last holder. *)
Definition unlink (pHolder : loc) : K unit :=
  h ← load pHolder;
  match pNext h with
  | Some n =>
      prev ← deref (pPrev h);
      _ ← store prev (with_pNext (Some n));
      h' ← load pHolder;
      next ← deref (pNext h');
      store next (with_pPrev (pPrev h'))
  | None =>
      prev ← deref (pPrev h);
      store prev (with_pNext None)
  end.
Definition unlink_free (pHolder : loc) : K unit :=
  _ ← unlink pHolder;
  _ ← kfree_holder pHolder;
  modify (λ c, set_size (int32 (c_size c - 1)) c).

(** The chain's first holder, [pChain->base_chain.pNext]. *)
Definition first_holder : K ptr :=
  b ← gets base; h ← load b; mret (pNext h).

(** [chain_add] / [sl_chain_add]. *)
Definition add_tail (flags : gfp) (data : ptr) : K Z :=
  hs ← gets holders;
  match kmalloc flags hs with
  | None => mret (-1)
  | Some (new, garbage) =>
      _ ← modify (λ c, set_holders (<[new := garbage]> (holders c)) c);
      _ ← store new (with_pData data);
      fuel ← gets walk_fuel;
      b ← gets base;
      last ← find_last fuel b;
      _ ← store last (with_pNext (Some new));
      _ ← store new (with_pPrev (Some last));
      _ ← store new (with_pNext None);
      _ ← modify (λ c, set_size (int32 (c_size c + 1)) c);
      _ ← modify (λ c, if c_size c >? c_peak c then set_peak (c_size c) c else c);
      mret 0
  end.

(** [chain_remove] / [sl_chain_remove]: removes the oldest element. *)
Definition remove_first : K Z :=
  p ← first_holder;
  match p with
  | None => mret (-1)
  | Some l => _ ← unlink_free l; mret 0
  end.

(** [chain_remove_all] / [sl_chain_remove_all]. *)
Fixpoint remove_all (fuel : nat) : K Z :=
  p ← first_holder;
  match p with
  | None => mret 0
  | Some l =>
      match fuel with
      | O => out_of_fuel
      | S fuel =>
          h ← load l;
          _ ← kfree_data (pData h);
          _ ← remove_first;
          remove_all fuel
      end
  end.

End code.

(** ** Well-formed chains

    [cseg h l ls]: from the holder at [l] on, the heap [h] holds the linked
    list whose holders and data pointers are [ls], each with its [pPrev] link,
    ended by NULL. *)
Fixpoint cseg (h : gmap loc chain_holder) (l : loc) (ls : list (loc * ptr)) : Prop :=
  match ls with
  | [] => ∃ c, h !! l = Some c ∧ pNext c = None
  | (n, d) :: ls' =>
      (∃ c, h !! l = Some c ∧ pNext c = Some n) ∧
      (∃ c, h !! n = Some c ∧ pData c = d ∧ pPrev c = Some l) ∧
      cseg h n ls'
  end.

(** The well-formedness invariant of a chain that holds [ls]. *)
Record chain_rep {L A} (c : chain L A) (ls : list (loc * ptr)) : Prop := ChainRep {
  rep_seg : cseg (holders c) (base c) ls;
  rep_nodup : NoDup (base c :: ls.*1);
  rep_size : c_size c = Z.of_nat (length ls);
  rep_peak : Z.of_nat (length ls) ≤ c_peak c ≤ INT_MAX
}.

(** What an operation on one chain leaves alone: every other allocated cell. *)
Definition unchanged (fp : list loc) (h h' : gmap loc chain_holder) : Prop :=
  ∀ l, l ∉ fp → is_Some (h !! l) → h' !! l = h !! l.

Lemma unchanged_refl fp h : unchanged fp h h.
Proof. by intros l _ _. Qed.

Lemma unchanged_trans fp h1 h2 h3 :
  unchanged fp h1 h2 → unchanged fp h2 h3 → unchanged fp h1 h3.
Proof.
  intros H12 H23 l Hl Hs. rewrite <-(H12 l Hl Hs). apply H23; [done|].
  by rewrite (H12 l Hl Hs).
Qed.

Lemma unchanged_mono fp fp' h h' : fp ⊆ fp' → unchanged fp h h' → unchanged fp' h h'.
Proof. intros Hsub H l Hl. apply H. set_solver. Qed.

Create HintDb chain.
#[export] Hint Resolve unchanged_refl : chain.

Section cseg_lemmas.
Implicit Types (h : gmap loc chain_holder) (ls : list (loc * ptr)).

Lemma cseg_head h l ls : cseg h l ls → ∃ c, h !! l = Some c ∧ pNext c = (head ls.*1).
Proof. destruct ls as [|[n d] ls]; simpl; naive_solver. Qed.

Lemma cseg_lookup h l ls x : cseg h l ls → x ∈ l :: ls.*1 → is_Some (h !! x).
Proof.
  revert l. induction ls as [|[n d] ls IH]; intros l Hc Hx; simpl in *.
  - destruct Hc as (c & Hc & _). apply elem_of_cons in Hx as [->|Hx]; [eauto|].
    by apply elem_of_nil in Hx.
  - destruct Hc as ((c & Hc & _) & _ & Hs).
    apply elem_of_cons in Hx as [->|Hx]; eauto.
Qed.

(** A segment depends on its own cells only, and on nothing of its first cell
    but the link to the next. *)
Lemma cseg_frame h h' l ls :
  (∀ c, h !! l = Some c → ∃ c', h' !! l = Some c' ∧ pNext c' = pNext c) →
  (∀ x, x ∈ ls.*1 → h' !! x = h !! x) →
  cseg h l ls → cseg h' l ls.
Proof.
  revert l. induction ls as [|[n d] ls IH]; intros l Hl Hfr Hc; simpl in *.
  - destruct Hc as (c & Hc & Hn). destruct (Hl c Hc) as (c' & ? & ?). exists c'. by rewrite <-Hn.
  - destruct Hc as ((c & Hc & Hn) & Hd & Hs). split_and!.
    + destruct (Hl c Hc) as (c' & ? & ?). exists c'. by rewrite <-Hn.
    + rewrite Hfr; [done|set_solver].
    + apply IH; [|set_solver|done]. intros c1 Hc1. exists c1.
      rewrite Hfr; [done|set_solver].
Qed.

Lemma cseg_unchanged h h' l ls fp :
  unchanged fp h h' → (∀ x, x ∈ l :: ls.*1 → x ∉ fp) → cseg h l ls → cseg h' l ls.
Proof.
  intros Hu Hd Hc. apply (cseg_frame h); [| |done].
  - intros c Hl. exists c. rewrite (Hu l); [done| |eauto]. apply Hd. set_solver.
  - intros x Hx. apply Hu; [apply Hd; set_solver|].
    eapply cseg_lookup; [done|set_solver].
Qed.

(** The holder before the tail. *)
Definition last_loc (l : loc) (ls : list (loc * ptr)) : loc := default l (last ls.*1).

Lemma last_loc_cons l n d ls : last_loc l ((n, d) :: ls) = last_loc n ls.
Proof. unfold last_loc. rewrite fmap_cons, last_cons. by destruct (last _). Qed.

Lemma last_loc_in l ls : last_loc l ls ∈ l :: ls.*1.
Proof.
  revert l. induction ls as [|[n d] ls IH]; intros l; [set_solver|].
  rewrite last_loc_cons. specialize (IH n). set_solver.
Qed.

(** The cell of the last holder. *)
Lemma cseg_last h l ls : cseg h l ls → ∃ c, h !! last_loc l ls = Some c ∧ pNext c = None.
Proof.
  revert l. induction ls as [|[n d] ls IH]; intros l Hc; [done|].
  rewrite last_loc_cons. apply IH. by destruct Hc as (_ & _ & Hs).
Qed.

(** Linking a new holder behind the last one. *)
Lemma cseg_snoc h l ls new d c :
  new ∉ l :: ls.*1 → NoDup (l :: ls.*1) → cseg h l ls →
  h !! last_loc l ls = Some c →
  cseg (<[new := Holder d (Some (last_loc l ls)) None]>
         (<[last_loc l ls := with_pNext (Some new) c]> h)) l (ls ++ [(new, d)]).
Proof.
  revert l. induction ls as [|[n d'] ls IH]; intros l Hnew Hnd Hc Hlast.
  - unfold last_loc in *; simpl in *. split_and!.
    + exists (with_pNext (Some new) c). by rewrite lookup_insert_ne, lookup_insert_eq by set_solver.
    + eexists. by rewrite lookup_insert_eq.
    + eexists. by rewrite lookup_insert_eq.
  - rewrite last_loc_cons in *. simpl in Hc. destruct Hc as ((c1 & Hc1 & Hn1) & (c2 & Hc2 & Hd2 & Hp2) & Hs).
    assert (Hin := last_loc_in n ls). simpl in *.
    apply NoDup_cons in Hnd as [Hl Hnd]. split_and!.
    + exists c1. rewrite !lookup_insert_ne by set_solver. done.
    + destruct (decide (n = last_loc n ls)) as [E|E].
      * exists (with_pNext (Some new) c). rewrite lookup_insert_ne by set_solver. rewrite <-E.
        rewrite lookup_insert_eq. rewrite <-E, Hc2 in Hlast. by simplify_eq.
      * exists c2. rewrite !lookup_insert_ne by set_solver. done.
    + apply IH; [set_solver|done|done|done].
Qed.

(** The state of the heap after [unlink] of the holder [x] behind [l]. *)
Definition unlinked (h : gmap loc chain_holder) (l x : loc) (ls2 : list (loc * ptr))
  : gmap loc chain_holder :=
  let h1 := alter (with_pNext (head ls2.*1)) l h in
  delete x (match ls2 with [] => h1 | (n, _) :: _ => alter (with_pPrev (Some l)) n h1 end).

Lemma unlinked_unchanged h l x ls2 fp :
  l ∈ fp → x ∈ fp → (∀ y, y ∈ ls2.*1 → y ∈ fp) → unchanged fp h (unlinked h l x ls2).
Proof.
  intros Hl Hx Hy z Hz _. unfold unlinked. rewrite lookup_delete_ne by set_solver.
  destruct ls2 as [|[n d] ls2]; simpl in *; rewrite !lookup_alter_ne by set_solver; done.
Qed.

Lemma unlinked_None h l x ls2 y : h !! y = None → unlinked h l x ls2 !! y = None.
Proof.
  intros Hy. unfold unlinked. destruct (decide (x = y)) as [->|Hne]; [apply lookup_delete_eq|].
  rewrite lookup_delete_ne by done.
  destruct ls2 as [|[n d] ls2]; simpl; by rewrite ?lookup_alter_None.
Qed.

(** Unlinking the holder behind the first cell of a segment. *)
Lemma cseg_unlink_head h l x d ls2 :
  NoDup (l :: x :: ls2.*1) → cseg h l ((x, d) :: ls2) → cseg (unlinked h l x ls2) l ls2.
Proof.
  intros Hnd Hc. simpl in Hc. destruct Hc as ((c1 & Hc1 & Hn1) & _ & Hs).
  apply NoDup_cons in Hnd as [Hl Hnd]. apply NoDup_cons in Hnd as [Hx Hnd].
  unfold unlinked. destruct ls2 as [|[n d'] ls2]; simpl in *.
  - exists (with_pNext None c1). rewrite lookup_delete_ne by set_solver.
    by rewrite lookup_alter_eq, Hc1.
  - destruct Hs as ((cx & Hcx & Hnx) & (cn & Hcn & Hdn & Hpn) & Hs). split_and!.
    + exists (with_pNext (Some n) c1). rewrite lookup_delete_ne by set_solver.
      rewrite lookup_alter_ne by set_solver. by rewrite lookup_alter_eq, Hc1.
    + exists (with_pPrev (Some l) cn). rewrite lookup_delete_ne by set_solver.
      rewrite lookup_alter_eq, lookup_alter_ne by set_solver. by rewrite Hcn.
    + apply (cseg_frame h); [| |done].
      * intros c Hc. exists (with_pPrev (Some l) c). rewrite lookup_delete_ne by set_solver.
        rewrite lookup_alter_eq, lookup_alter_ne by set_solver. by rewrite Hc.
      * intros y Hy. apply NoDup_cons in Hnd as [Hn Hnd].
        rewrite lookup_delete_ne by set_solver. by rewrite !lookup_alter_ne by set_solver.
Qed.

(** Unlinking any holder of a segment. *)
Lemma cseg_unlink h l x d ls1 ls2 :
  NoDup (l :: (ls1 ++ (x, d) :: ls2).*1) → cseg h l (ls1 ++ (x, d) :: ls2) →
  cseg (unlinked h (last_loc l ls1) x ls2) l (ls1 ++ ls2).
Proof.
  revert l. induction ls1 as [|[n d'] ls1 IH]; intros l Hnd Hc.
  - by apply (cseg_unlink_head h l x d).
  - simpl app in *. rewrite last_loc_cons. rewrite fmap_cons in Hnd; simpl in Hnd.
    assert (Hin := last_loc_in n ls1). rewrite fmap_app, fmap_cons in Hnd; simpl in Hnd.
    destruct Hc as ((c1 & Hc1 & Hn1) & (c2 & Hc2 & Hd2 & Hp2) & Hs).
    apply NoDup_cons in Hnd as [Hl Hnd]. split_and!.
    + exists c1. rewrite (unlinked_unchanged h (last_loc n ls1) x ls2 (n :: ls1.*1 ++ x :: ls2.*1));
        [done|set_solver..|eauto].
    + assert (Hn : n ∉ x :: ls2.*1) by (apply NoDup_cons in Hnd as [Hn _]; set_solver).
      destruct (decide (n = last_loc n ls1)) as [E|E].
      * exists (with_pNext (head ls2.*1) c2). rewrite <-E. unfold unlinked.
        rewrite lookup_delete_ne by set_solver. destruct ls2 as [|[m dm] ls2]; simpl in *.
        -- by rewrite lookup_alter_eq, Hc2.
        -- rewrite lookup_alter_ne by set_solver. by rewrite lookup_alter_eq, Hc2.
      * exists c2. unfold unlinked. rewrite lookup_delete_ne by set_solver.
        destruct ls2 as [|[m dm] ls2]; simpl in *; rewrite !lookup_alter_ne by set_solver; done.
    + apply IH; [|done]. rewrite fmap_app, fmap_cons. done.
Qed.

(** What a segment says of the holder in its middle. *)
Lemma cseg_mid h l x d ls1 ls2 :
  cseg h l (ls1 ++ (x, d) :: ls2) →
  h !! x = Some (Holder d (Some (last_loc l ls1)) (head ls2.*1)) ∧
  (∃ c, h !! last_loc l ls1 = Some c ∧ pNext c = Some x).
Proof.
  revert l. induction ls1 as [|[n d'] ls1 IH]; intros l Hc.
  - simpl in Hc. destruct Hc as (Hc1 & ([] & Hx & Hd & Hp) & Hs).
    apply cseg_head in Hs as (c' & Hx' & Hn). unfold last_loc; simpl in *. rewrite Hx in Hx'.
    simplify_eq/=. split; [done|]. naive_solver.
  - rewrite last_loc_cons. apply IH. by destruct Hc as (_ & _ & Hs).
Qed.

End cseg_lemmas.

(** ** The list code meets the invariant *)
Section code_lemmas.
Context {L A : Type}.
Implicit Types (c : chain L A) (ls : list (loc * ptr)).

Lemma load_done c l h : holders c !! l = Some h → load l c = Done h c.
Proof. intros H. unfold load, gets, mbind, M_bind. by rewrite H. Qed.

Lemma store_done c l f : is_Some (holders c !! l) →
  store l f c = Done () (set_holders (alter f l (holders c)) c).
Proof. intros [h H]. unfold store. by mstep (load_done c l h H). Qed.

Lemma first_holder_done c ls : chain_rep c ls → first_holder c = Done (head ls.*1) c.
Proof.
  intros [Hseg _ _ _]. destruct (cseg_head _ _ _ Hseg) as (h & Hh & Hn).
  unfold first_holder. msimpl. mstep (load_done c (base c) h Hh). by rewrite Hn.
Qed.

(** A chain has fewer elements than the heap has cells, so a walk ends. *)
Lemma chain_rep_fuel c ls : chain_rep c ls → (length ls < walk_fuel c)%nat.
Proof.
  intros [Hseg Hnd _ _]. unfold walk_fuel.
  assert (Hsub : list_to_set (base c :: ls.*1) ⊆ dom (holders c)).
  { intros x Hx. apply elem_of_list_to_set in Hx. apply elem_of_dom.
    by apply (cseg_lookup _ (base c) ls). }
  apply subseteq_size in Hsub. rewrite size_list_to_set, size_dom in Hsub by done.
  simpl in Hsub. rewrite length_fmap in Hsub. lia.
Qed.

Lemma find_last_done c l ls fuel : cseg (holders c) l ls → (length ls < fuel)%nat →
  find_last fuel l c = Done (last_loc l ls) c.
Proof.
  revert l fuel. induction ls as [|[n d] ls IH]; intros l [|fuel] Hc Hf; simpl in Hf; try lia.
  - destruct Hc as (h & Hh & Hn). simpl. mstep (load_done c l h Hh). by rewrite Hn.
  - destruct Hc as ((h & Hh & Hn) & _ & Hs). simpl. mstep (load_done c l h Hh). rewrite Hn.
    rewrite last_loc_cons. apply IH; [done|lia].
Qed.

(** The first element whose data pointer satisfies [f]. *)
Definition first_match (f : ptr → Z) (ls : list (loc * ptr)) : option (loc * ptr) :=
  List.find (λ p, f p.2 =? 0) ls.

Lemma search_done c l ls fuel (f : gmap loc A → ptr → Z) :
  cseg (holders c) l ls → (length ls ≤ fuel)%nat →
  search fuel f (head ls.*1) c = Done (fst <$> first_match (f (objs c)) ls) c.
Proof.
  revert l fuel. induction ls as [|[n d] ls IH]; intros l fuel Hc Hf; [by destruct fuel|].
  destruct fuel as [|fuel]; [simpl in Hf; lia|].
  destruct Hc as (_ & ([d' pr nx] & Hn & Hd & Hp) & Hs). simpl in *.
  mstep (load_done c n _ Hn). msimpl. simpl. subst d'.
  destruct (f (objs c) d =? 0); [done|].
  destruct (cseg_head _ _ _ Hs) as (h & Hh & Hnx). rewrite Hn in Hh. simplify_eq/=.
  apply (IH n); [done|lia].
Qed.

Lemma first_match_split f ls x d : first_match f ls = Some (x, d) →
  ∃ ls1 ls2, ls = ls1 ++ (x, d) :: ls2 ∧ f d = 0 ∧ (∀ y e, (y, e) ∈ ls1 → f e ≠ 0).
Proof.
  induction ls as [|[n e] ls IH]; [done|]. simpl. destruct (f e =? 0) eqn:E; intros H.
  - simplify_eq. exists [], ls. apply Z.eqb_eq in E. split_and!; [done..|]. intros y e' Hy. set_solver.
  - destruct (IH H) as (ls1 & ls2 & -> & Hd & Hall). exists ((n, e) :: ls1), ls2.
    split_and!; [done..|]. intros y e' Hy. apply elem_of_cons in Hy as [Hy|Hy].
    + simplify_eq. by apply Z.eqb_neq.
    + by apply (Hall y).
Qed.

(** Unlinking and freeing a holder of a well-formed chain. *)
Lemma unlink_free_done c ls1 x d ls2 : chain_rep c (ls1 ++ (x, d) :: ls2) →
  unlink_free x c = Done () (set_size (int32 (c_size c - 1))
    (set_holders (unlinked (holders c) (last_loc (base c) ls1) x ls2) c)).
Proof.
  intros [Hseg Hnd _ _]. destruct (cseg_mid _ _ _ _ _ _ Hseg) as (Hx & (cl & Hl & _)).
  rewrite fmap_app, fmap_cons in Hnd. simpl in Hnd.
  set (l := last_loc (base c) ls1) in *. assert (Hin := last_loc_in (base c) ls1). fold l in Hin.
  assert (Hlx : l ≠ x /\ x ∉ ls2.*1 /\ (∀ y, y ∈ ls2.*1 → y ≠ l)).
  { rewrite app_comm_cons in Hnd. apply NoDup_app in Hnd as (_ & Hdis & Hnd2).
    apply NoDup_cons in Hnd2 as [? ?]. set_solver. }
  destruct Hlx as (Hlx & Hx2 & Hl2).
  unfold unlink_free, unlinked. destruct ls2 as [|[n dn] ls2]; simpl in *.
  - erewrite bind_done; cycle 1.
    { unfold unlink. mstep (load_done c x _ Hx). simpl. unfold deref. msimpl.
      apply store_done. by rewrite Hl. }
    erewrite bind_done; cycle 1.
    { unfold kfree_holder. erewrite bind_done; [done|]. apply load_done. simpl.
      rewrite lookup_alter_ne by done. apply Hx. }
    done.
  - assert (Hn : is_Some (holders c !! n)).
    { eapply cseg_lookup; [apply Hseg|]. rewrite fmap_app, !fmap_cons. set_solver. }
    erewrite bind_done; cycle 1.
    { unfold unlink. mstep (load_done c x _ Hx). simpl. unfold deref. msimpl.
      erewrite bind_done; [|apply store_done; by rewrite Hl].
      erewrite bind_done; [|apply load_done; simpl; rewrite lookup_alter_ne by done; apply Hx].
      simpl. msimpl. apply store_done. simpl.
      rewrite lookup_alter_ne by set_solver. done. }
    erewrite bind_done; cycle 1.
    { unfold kfree_holder. erewrite bind_done; [done|]. apply load_done. simpl.
      rewrite lookup_alter_ne by set_solver. rewrite lookup_alter_ne by done. apply Hx. }
    done.
Qed.

Lemma unlink_free_rep c ls1 x d ls2 : chain_rep c (ls1 ++ (x, d) :: ls2) →
  chain_rep (set_size (int32 (c_size c - 1))
    (set_holders (unlinked (holders c) (last_loc (base c) ls1) x ls2) c)) (ls1 ++ ls2).
Proof.
  intros [Hseg Hnd Hsz Hpk]. rewrite length_app in *. simpl in *. split; simpl.
  - by apply (cseg_unlink _ _ _ d).
  - rewrite fmap_app, fmap_cons in *. simpl in *.
    eapply sublist_NoDup; [exact Hnd|]. apply sublist_skip, sublist_app; [done|]. by constructor.
  - rewrite length_app. unfold INT_MAX in *. rewrite int32_small; unfold INT_MAX; lia.
  - rewrite length_app. lia.
Qed.

(** Removing the first element. *)
Lemma remove_first_done c x d ls : chain_rep c ((x, d) :: ls) →
  remove_first c = Done 0 (set_size (int32 (c_size c - 1))
    (set_holders (unlinked (holders c) (base c) x ls) c)).
Proof.
  intros Hr. unfold remove_first. mstep (first_holder_done _ _ Hr). simpl.
  mstep (unlink_free_done c [] x d ls Hr). done.
Qed.

Lemma set_objs_rep c ls o : chain_rep c ls → chain_rep (set_objs o c) ls.
Proof. by intros []; split. Qed.
Lemma set_clock_rep c ls k : chain_rep c ls → chain_rep (set_clock k c) ls.
Proof. by intros []; split. Qed.
Lemma set_init_rep c ls z : chain_rep c ls → chain_rep (set_init z c) ls.
Proof. by intros []; split. Qed.

(** The data pointers of a chain can be freed one after the other: each is
    NULL or points to an object, and no object is there twice. *)
Definition owned (o : gmap loc A) (ls : list (loc * ptr)) : Prop :=
  NoDup (omap snd ls) ∧ ∀ l, l ∈ omap snd ls → is_Some (o !! l).

(** The objects left when the data of [ls] are freed. *)
Definition freed (o : gmap loc A) (ls : list (loc * ptr)) : gmap loc A :=
  foldl (λ o p, match p.2 with Some l => delete l o | None => o end) o ls.

Lemma owned_tail o x d ls : owned o ((x, d) :: ls) →
  owned (match d with Some l => delete l o | None => o end) ls.
Proof.
  intros [Hnd Hin]. unfold owned in *. simpl in *. destruct d as [l|]; [|done].
  apply NoDup_cons in Hnd as [Hl Hnd]. split; [done|]. intros y Hy.
  rewrite lookup_delete_ne by set_solver. apply Hin. set_solver.
Qed.

Lemma kfree_data_done c d : (∀ l, d = Some l → is_Some (objs c !! l)) →
  kfree_data d c = Done () (match d with Some l => set_objs (delete l (objs c)) c | None => c end).
Proof.
  intros H. destruct d as [l|]; [|done]. destruct (H l eq_refl) as [o Ho].
  unfold kfree_data. msimpl. rewrite Ho. by msimpl.
Qed.

Lemma owned_snoc o ls x d : owned o ls →
  (∀ l, d = Some l → is_Some (o !! l) ∧ Some l ∉ ls.*2) → owned o (ls ++ [(x, d)]).
Proof.
  intros [Hnd Hin] Hd. split; rewrite omap_app; simpl.
  - apply NoDup_app. split_and!; [done| |destruct d; [apply NoDup_singleton|constructor]].
    intros l Hl. destruct d as [l'|]; [|set_solver]. intros ->%list_elem_of_singleton.
    destruct (Hd l' eq_refl) as [_ Hni]. apply Hni.
    apply list_elem_of_omap in Hl as (p & Hp & Hsnd). apply list_elem_of_fmap. eauto.
  - intros l Hl. apply elem_of_app in Hl as [Hl|Hl]; [auto|]. destruct d as [l'|]; [|set_solver].
    apply list_elem_of_singleton in Hl as ->. by apply Hd.
Qed.

(** Emptying a chain: every datum is freed, every holder too, and nothing of
    the heap outside of the chain is touched. *)
Lemma remove_all_done c ls fuel : chain_rep c ls → owned (objs c) ls → (length ls ≤ fuel)%nat →
  ∃ c', remove_all fuel c = Done 0 c' ∧ chain_rep c' [] ∧ objs c' = freed (objs c) ls ∧
    base c' = base c ∧ c_peak c' = c_peak c ∧ init_flag c' = init_flag c ∧ clock c' = clock c ∧
    unchanged (base c :: ls.*1) (holders c) (holders c') ∧
    (∀ x, x ∈ ls.*1 ∨ holders c !! x = None → holders c' !! x = None).
Proof.
  revert c fuel. induction ls as [|[x d] ls IH]; intros c fuel Hr Ho Hf.
  - exists c. destruct fuel; simpl; mstep (first_holder_done _ _ Hr); simpl;
      split_and!; auto with chain; set_solver.
  - destruct fuel as [|fuel]; [simpl in Hf; lia|]. simpl remove_all.
    mstep (first_holder_done _ _ Hr). simpl.
    destruct (cseg_mid _ _ _ _ [] _ (rep_seg _ _ Hr)) as (Hx & _).
    mstep (load_done _ _ _ Hx). simpl pData.
    assert (Hfree : kfree_data d c = Done () (set_objs (match d with Some l => delete l (objs c)
       | None => objs c end) c)).
    { rewrite kfree_data_done. - by destruct d; [|destruct c].
      - intros l ->. apply Ho. simpl. set_solver. }
    mstep Hfree. set (o1 := match d with Some l => delete l (objs c) | None => objs c end) in *.
    mstep (remove_first_done (set_objs o1 c) x d ls (set_objs_rep _ _ _ Hr)).
    edestruct (IH (set_size (int32 (c_size c - 1)) (set_holders (unlinked (holders c) (base c) x ls)
       (set_objs o1 c))) fuel) as (c' & Hrun & Hr' & Hobj & Hb & Hp & Hi & Hl & Hu & Hnone).
    { apply (unlink_free_rep (set_objs o1 c) [] x d ls). by apply set_objs_rep. }
    { simpl. subst o1. by apply (owned_tail _ x). }
    { simpl in Hf. lia. }
    simpl in *. exists c'. split_and!; try done.
    + eapply unchanged_trans.
      * apply (unlinked_unchanged _ (base c) x ls); set_solver.
      * eapply unchanged_mono; [|exact Hu]. set_solver.
    + intros y Hy. apply Hnone. rewrite elem_of_cons in Hy.
      destruct Hy as [[->|Hy]|Hy]; [right|by left|right].
      * unfold unlinked. apply lookup_delete_eq.
      * by apply unlinked_None.
Qed.

End code_lemmas.

(** Adding at the tail. *)
Section add_lemmas.
Context {L A : Type}.
Variable kmalloc : gfp → gmap loc chain_holder → option (loc * chain_holder).
(** The kernel's allocator returns an address that is not in use. *)
Hypothesis kmalloc_fresh : ∀ flags h l g, kmalloc flags h = Some (l, g) → h !! l = None.
Implicit Types (c : chain L A) (ls : list (loc * ptr)).

Lemma add_tail_fails c flags d : kmalloc flags (holders c) = None →
  add_tail kmalloc flags d c = Done (-1) c.
Proof. intros H. unfold add_tail. msimpl. by rewrite H. Qed.

(** The heap after the new holder [new] is linked behind [last]. *)
Definition linked (h : gmap loc chain_holder) (last new : loc) (d : ptr) :=
  <[new := Holder d (Some last) None]> (alter (with_pNext (Some new)) last h).

Lemma linked_eq h last new d g : new ≠ last →
  alter (with_pNext None) new (alter (with_pPrev (Some last)) new
    (alter (with_pNext (Some new)) last (alter (with_pData d) new (<[new := g]> h)))) =
  linked h last new d.
Proof.
  intros Hne. apply map_eq. intros x. unfold linked. destruct (decide (new = x)) as [->|Hx].
  - rewrite lookup_insert_eq, !lookup_alter_eq, lookup_alter_ne by done.
    by rewrite lookup_alter_eq, lookup_insert_eq.
  - rewrite lookup_insert_ne, !(lookup_alter_ne _ _ new) by done.
    destruct (decide (last = x)) as [->|].
    + rewrite !lookup_alter_eq, lookup_alter_ne by done. by rewrite lookup_insert_ne.
    + rewrite !lookup_alter_ne by done. by rewrite lookup_insert_ne.
Qed.

Lemma alter_insert_found (h : gmap loc chain_holder) l f (x : chain_holder) : h !! l = Some x → alter f l h = <[l := f x]> h.
Proof.
  intros H. apply map_eq. intros y. destruct (decide (l = y)) as [->|].
  - by rewrite lookup_alter_eq, lookup_insert_eq, H.
  - by rewrite lookup_alter_ne, lookup_insert_ne.
Qed.

Lemma linked_unchanged h last new d fp : h !! new = None → last ∈ fp → unchanged fp h (linked h last new d).
Proof.
  intros Hn Hl x Hx [c Hc]. unfold linked. rewrite lookup_insert_ne by congruence.
  by rewrite lookup_alter_ne by set_solver.
Qed.

Lemma add_tail_done c ls flags d new g : chain_rep c ls →
  kmalloc flags (holders c) = Some (new, g) →
  let size' := int32 (c_size c + 1) in
  add_tail kmalloc flags d c = Done 0
    (Chain (base c) size' (if size' >? c_peak c then size' else c_peak c) (init_flag c) (clock c)
       (linked (holders c) (last_loc (base c) ls) new d) (objs c)).
Proof.
  intros Hr Hk size'. assert (Hnew := kmalloc_fresh _ _ _ _ Hk).
  unfold add_tail. msimpl. rewrite Hk. msimpl.
  assert (Hlast := last_loc_in (base c) ls). set (last := last_loc (base c) ls) in *.
  assert (Hnl : ∀ x, x ∈ base c :: ls.*1 → new ≠ x).
  { intros x Hx ->. destruct (cseg_lookup _ _ _ x (rep_seg _ _ Hr) Hx) as [? ?]. congruence. }
  set (c1 := set_holders (<[new := g]> (holders c)) c).
  erewrite bind_done; [|apply store_done; simpl; rewrite lookup_insert_eq; eauto].
  set (c2 := set_holders (alter (with_pData d) new (holders c1)) c1). msimpl.
  assert (Hseg2 : cseg (holders c2) (base c) ls).
  { apply (cseg_frame (holders c)); [| |apply Hr]; simpl.
    - intros c0 Hc0. exists c0. rewrite lookup_alter_ne, lookup_insert_ne; [done|apply Hnl; set_solver..].
    - intros x Hx. rewrite lookup_alter_ne, lookup_insert_ne; [done|apply Hnl; set_solver..]. }
  assert (Hfuel : (length ls < walk_fuel c2)%nat).
  { assert (Hf := chain_rep_fuel c ls Hr). unfold walk_fuel in *. simpl.
    rewrite <-!size_dom, dom_alter_L, dom_insert_L, !size_dom in *.
    assert (size (dom (holders c)) ≤ size ({[new]} ∪ dom (holders c)))%nat as Hle
      by (apply subseteq_size; set_solver).
    rewrite size_dom in Hle. lia. }
  erewrite bind_done; [|apply (find_last_done c2 (base c) ls); [done|done]]. fold last.
  destruct (cseg_lookup _ _ _ last (rep_seg _ _ Hr) Hlast) as [cl Hcl].
  erewrite bind_done; [|apply store_done; simpl; rewrite lookup_alter_ne, lookup_insert_ne by (by apply Hnl); eauto].
  erewrite bind_done; [|apply store_done; simpl; rewrite lookup_alter_ne by (symmetry; by apply Hnl);
     rewrite lookup_alter_eq, lookup_insert_eq; eauto].
  erewrite bind_done; [|apply store_done; simpl; rewrite lookup_alter_eq, lookup_alter_ne by (symmetry; by apply Hnl);
     rewrite lookup_alter_eq, lookup_insert_eq; eauto].
  msimpl. simpl. rewrite linked_eq by (by apply Hnl). fold size'. by destruct (size' >? c_peak c).
Qed.

Lemma add_tail_rep c ls flags d new g : chain_rep c ls → Z.of_nat (length ls) < INT_MAX →
  kmalloc flags (holders c) = Some (new, g) →
  let size' := int32 (c_size c + 1) in
  chain_rep (Chain (base c) size' (if size' >? c_peak c then size' else c_peak c) (init_flag c)
    (clock c) (linked (holders c) (last_loc (base c) ls) new d) (objs c)) (ls ++ [(new, d)]).
Proof.
  intros Hr Hlt Hk size'. assert (Hnew := kmalloc_fresh _ _ _ _ Hk). destruct Hr as [Hseg Hnd Hsz Hpk].
  assert (Hout : new ∉ base c :: ls.*1).
  { intros Hx. destruct (cseg_lookup _ _ _ new Hseg Hx) as [? ?]. congruence. }
  destruct (cseg_last _ _ _ Hseg) as (cl & Hcl & _).
  assert (Hs : size' = Z.of_nat (length ls) + 1).
  { unfold size'. rewrite Hsz, int32_small; lia. }
  split; simpl.
  - unfold linked. rewrite (alter_insert_found _ _ _ cl) by done. by apply cseg_snoc.
  - rewrite fmap_app. simpl. apply NoDup_cons in Hnd as [Hb Hnd]. apply NoDup_cons. split; [set_solver|].
    apply NoDup_app. split_and!; [done|set_solver|]. apply NoDup_singleton.
  - rewrite length_app. simpl. lia.
  - rewrite length_app. simpl. destruct (Z.gtb_spec size' (c_peak c)); lia.
Qed.

End add_lemmas.

(** An allocator that satisfies the assumption: the address after the greatest
    one in use, as long as there are fewer than [cap] holders. *)
Definition bump (h : gmap loc chain_holder) : loc :=
  Pos.succ (map_fold (λ l _ m, Pos.max l m) 1%positive h).
Definition bump_alloc (cap : nat) (flags : gfp) (h : gmap loc chain_holder)
  : option (loc * chain_holder) :=
  if (size h <? cap)%nat then Some (bump h, Holder None None None) else None.

Lemma bump_fresh h : h !! bump h = None.
Proof.
  destruct (h !! bump h) eqn:E; [|done]. exfalso.
  assert (Hmax : ∀ l, is_Some (h !! l) → (l ≤ map_fold (λ l _ m, Pos.max l m) 1 h)%positive).
  { clear. apply (map_fold_weak_ind (λ r h, ∀ l, is_Some (h !! l) → (l ≤ r)%positive)).
    - intros l [? H]. by rewrite lookup_empty in H.
    - intros i x m r Hi IH l Hl. destruct (decide (i = l)) as [->|Hne]; [lia|].
      rewrite lookup_insert_ne in Hl by done. specialize (IH l Hl). lia. }
  specialize (Hmax _ ltac:(eauto)). unfold bump in Hmax. lia.
Qed.

Lemma bump_alloc_fresh cap flags h l g : bump_alloc cap flags h = Some (l, g) → h !! l = None.
Proof. unfold bump_alloc. destruct (_ <? _)%nat; [|done]. intros [= <- <-]. apply bump_fresh. Qed.
