(* ===== verification/Chain.v ===== *)
(** * chain.c: a FIFO of data pointers under a semaphore

    Every function of [src/sources/kmods/genintrdrv/kmod/chain.c], the abstract
    queue it promises, and the proof that it keeps the promise: whatever the
    order of the calls, no call dereferences a bad pointer, blocks on its own
    semaphore or walks for ever, and each returns what the queue returns. *)

From stdpp Require Import base list gmap.
From Stdlib Require Import ZArith Lia.
From S2P Require Import Prelude ChainHeap.

(** The kernel's counting semaphore; [down] of a semaphore at zero waits. *)
Definition sema_down (n : Z) : option (unit * Z) := if 0 <? n then Some ((), n - 1) else None.
Definition sema_up (_ : unit) (n : Z) : Z := n + 1.

Lemma sema_down_free n : 0 < n → ∃ k n', sema_down n = Some (k, n') ∧ sema_up k n' = n.
Proof.
  intros Hn. unfold sema_down, sema_up. destruct (Z.ltb_spec 0 n); [|lia].
  exists (), (n - 1). split; [done|lia].
Qed.

#[export] Instance semaphore : ChainLock Z unit := {|
  acquire := sema_down;
  unlock := sema_up;
  lock_free n := 0 < n;
  acquire_free := sema_down_free
|}.

Section chain.
Context {A : Type}.
Variable kmalloc : gfp → gmap loc chain_holder → option (loc * chain_holder).
(** The address of the function [chain_size], which [chain_get_by_index]
    compares an index with. *)
Variable chain_size_addr : Z.

Abbreviation C := (M (chain Z A)).

Definition down : C unit := lock_chain.
Definition up : C unit := unlock_chain ().

(** [datIdfunc_t], [dbdatIdfunc_t], [tpdatIdfunc_t]: NULL is [None]. *)
Definition datIdfunc_t : Type := option (gmap loc A → ptr → Z → Z).
Definition dbdatIdfunc_t : Type := option (gmap loc A → ptr → Z → Z → Z).
Definition tpdatIdfunc_t : Type := option (gmap loc A → ptr → Z → Z → Z → Z).

Definition chain_init : C Z :=
  _ ← modify (set_size 0);
  _ ← modify (set_peak 0);
  b ← gets base;
  _ ← store b (with_pNext None);
  _ ← modify (set_clock 1);
  _ ← modify (set_init 1);
  mret 0.

Definition chain_add (data : ptr) : C Z := add_tail kmalloc GFP_KERNEL data.
Definition chain_remove : C Z := remove_first.
Definition chain_remove_all : C Z := fuel ← gets walk_fuel; remove_all fuel.

Definition chain_release : C Z :=
  _ ← down;
  _ ← chain_remove_all;
  _ ← modify (set_init 0);
  _ ← up;
  mret 0.

Definition chain_lock : C unit := down.
Definition chain_unlock : C unit := up.

Definition chain_put (data : ptr) : C Z :=
  _ ← down;
  flag ← gets init_flag;
  if flag =? 0 then _ ← up; mret (-1)
  else
    iRet ← chain_add data;
    _ ← up;
    mret iRet.

(** The tail common to the [get_by] functions: the data pointer of the holder
    the search ended at. *)
Definition data_of (pHolder : ptr) : C ptr :=
  match pHolder with
  | None => mret None
  | Some l => h ← load l; mret (pData h)
  end.

Definition chain_get_by_ident (ident : Z) (custom_func : datIdfunc_t) : C ptr :=
  pHolder ← first_holder;
  match pHolder, custom_func with
  | None, _ => mret None
  | _, None => mret None
  | Some _, Some f =>
      fuel ← gets walk_fuel;
      found ← search fuel (λ os d, f os d ident) pHolder;
      data_of found
  end.

Definition chain_get_by_double_ident (ident1 ident2 : Z) (cust_func : dbdatIdfunc_t) : C ptr :=
  pHolder ← first_holder;
  match pHolder, cust_func with
  | None, _ => mret None
  | _, None => mret None
  | Some _, Some f =>
      fuel ← gets walk_fuel;
      found ← search fuel (λ os d, f os d ident1 ident2) pHolder;
      data_of found
  end.

(** The tail common to the [remove_by] functions: the data pointer of the
    holder the search ended at, which is unlinked and freed; the semaphore is
    given back on both branches. *)
Definition take_found (pHolder : ptr) : C ptr :=
  match pHolder with
  | None => _ ← up; mret None
  | Some l =>
      h ← load l;
      _ ← unlink_free l;
      _ ← up;
      mret (pData h)
  end.

Definition chain_remove_by_ident (ident : Z) (custom_func : datIdfunc_t) : C ptr :=
  _ ← down;
  pHolder ← first_holder;
  flag ← gets init_flag;
  if flag =? 0 then _ ← up; mret None
  else
    match pHolder, custom_func with
    | None, _ => _ ← up; mret None
    | _, None => _ ← up; mret None
    | Some _, Some f =>
        fuel ← gets walk_fuel;
        found ← search fuel (λ os d, f os d ident) pHolder;
        take_found found
    end.

Definition chain_remove_by_double_ident (ident1 ident2 : Z) (cust_func : dbdatIdfunc_t) : C ptr :=
  _ ← down;
  pHolder ← first_holder;
  flag ← gets init_flag;
  if flag =? 0 then _ ← up; mret None
  else
    match pHolder, cust_func with
    | None, _ => _ ← up; mret None
    | _, None => _ ← up; mret None
    | Some _, Some f =>
        fuel ← gets walk_fuel;
        found ← search fuel (λ os d, f os d ident1 ident2) pHolder;
        take_found found
    end.

Definition chain_remove_by_triple_ident (ident1 ident2 ident3 : Z) (cust_func : tpdatIdfunc_t) : C ptr :=
  _ ← down;
  pHolder ← first_holder;
  flag ← gets init_flag;
  if flag =? 0 then _ ← up; mret None
  else
    match pHolder, cust_func with
    | None, _ => _ ← up; mret None
    | _, None => _ ← up; mret None
    | Some _, Some f =>
        fuel ← gets walk_fuel;
        found ← search fuel (λ os d, f os d ident1 ident2 ident3) pHolder;
        take_found found
    end.

Definition chain_get : C ptr :=
  _ ← down;
  flag ← gets init_flag;
  if flag =? 0 then _ ← up; mret None
  else
    pHolder ← first_holder;
    match pHolder with
    | None => _ ← up; mret None
    | Some l =>
        h ← load l;
        _ ← chain_remove;
        _ ← up;
        mret (pData h)
    end.

(** Takes no lock: the caller holds it. *)
Definition chain_get_top : C ptr :=
  flag ← gets init_flag;
  if flag =? 0 then mret None
  else
    pHolder ← first_holder;
    data_of pHolder.

(** [while(i++<index) pHolder = pHolder->pNext;] *)
Fixpoint advance (n : nat) (pHolder : ptr) : C ptr :=
  match n with
  | O => mret pHolder
  | S n =>
      l ← deref pHolder;
      h ← load l;
      advance n (pNext h)
  end.

(** The guard compares the index with [chain_size], which is here the name of
    the function below, hence its address: the [int] is converted to a 64-bit
    pointer for the comparison. *)
Definition chain_get_by_index (index : Z) : C ptr :=
  pHolder ← first_holder;
  match pHolder with
  | None => mret None
  | Some _ =>
      if index mod 2 ^ 64 >=? chain_size_addr then mret None
      else
        pHolder ← advance (Z.to_nat index) pHolder;
        data_of pHolder
  end.

Definition chain_size : C Z :=
  _ ← down;
  size ← gets c_size;
  _ ← up;
  mret size.

Definition chain_peak_size : C Z :=
  _ ← down;
  size ← gets c_peak;
  _ ← up;
  mret size.

(** ** The queue a chain promises to be

    The data pointers, oldest first; the greatest number there ever was; whether
    the chain is in use; and the objects the pointers point to. *)
Record fifo := Fifo {
  items : list ptr;
  peak : Z;
  alive : bool;
  store_of : gmap loc A
}.

Inductive op :=
| Put (data : ptr) | Get | GetTop | GetByIndex (index : Z)
| GetByIdent (i : Z) (f : datIdfunc_t)
| GetByDoubleIdent (i j : Z) (f : dbdatIdfunc_t)
| RemoveByIdent (i : Z) (f : datIdfunc_t)
| RemoveByDoubleIdent (i j : Z) (f : dbdatIdfunc_t)
| RemoveByTripleIdent (i j k : Z) (f : tpdatIdfunc_t)
| Size | PeakSize | Release.

Inductive retval := RInt (z : Z) | RPtr (p : ptr).

(** The calls of a chain. *)
Definition exec (o : op) : C retval :=
  match o with
  | Put d => RInt <$> chain_put d
  | Get => RPtr <$> chain_get
  | GetTop => RPtr <$> chain_get_top
  | GetByIndex i => RPtr <$> chain_get_by_index i
  | GetByIdent i f => RPtr <$> chain_get_by_ident i f
  | GetByDoubleIdent i j f => RPtr <$> chain_get_by_double_ident i j f
  | RemoveByIdent i f => RPtr <$> chain_remove_by_ident i f
  | RemoveByDoubleIdent i j f => RPtr <$> chain_remove_by_double_ident i j f
  | RemoveByTripleIdent i j k f => RPtr <$> chain_remove_by_triple_ident i j k f
  | Size => RInt <$> chain_size
  | PeakSize => RInt <$> chain_peak_size
  | Release => RInt <$> chain_release
  end.

(** What the queue does; [room] says whether the allocator has a holder left. *)
Definition first_data (f : ptr → Z) (q : fifo) : ptr :=
  default None (List.find (λ d, f d =? 0) (items q)).
Fixpoint drop_first (f : ptr → Z) (l : list ptr) : list ptr :=
  match l with
  | [] => []
  | d :: l => if f d =? 0 then l else d :: drop_first f l
  end.
Definition fifo_take (f : ptr → Z) (q : fifo) : retval * fifo :=
  if alive q
  then (RPtr (first_data f q), Fifo (drop_first f (items q)) (peak q) (alive q) (store_of q))
  else (RPtr None, q).
Definition free_items (o : gmap loc A) (l : list ptr) : gmap loc A :=
  foldl (λ o d, match d with Some x => delete x o | None => o end) o l.

Definition fifo_step (room : bool) (o : op) (q : fifo) : retval * fifo :=
  match o with
  | Put d =>
      if alive q && room
      then (RInt 0, Fifo (items q ++ [d]) (Z.max (peak q) (Z.of_nat (length (items q)) + 1))
                         (alive q) (store_of q))
      else (RInt (-1), q)
  | Get =>
      if alive q
      then (RPtr (default None (head (items q))), Fifo (tail (items q)) (peak q) (alive q) (store_of q))
      else (RPtr None, q)
  | GetTop => (RPtr (if alive q then default None (head (items q)) else None), q)
  | GetByIndex i => (RPtr (default None (items q !! Z.to_nat i)), q)
  | GetByIdent i f =>
      (RPtr (match f with Some f => first_data (λ d, f (store_of q) d i) q | None => None end), q)
  | GetByDoubleIdent i j f =>
      (RPtr (match f with Some f => first_data (λ d, f (store_of q) d i j) q | None => None end), q)
  | RemoveByIdent i f =>
      match f with Some f => fifo_take (λ d, f (store_of q) d i) q | None => (RPtr None, q) end
  | RemoveByDoubleIdent i j f =>
      match f with Some f => fifo_take (λ d, f (store_of q) d i j) q | None => (RPtr None, q) end
  | RemoveByTripleIdent i j k f =>
      match f with Some f => fifo_take (λ d, f (store_of q) d i j k) q | None => (RPtr None, q) end
  | Size => (RInt (Z.of_nat (length (items q))), q)
  | PeakSize => (RInt (peak q), q)
  | Release => (RInt 0, Fifo [] (peak q) false (free_items (store_of q) (items q)))
  end.

(** What a caller owes: the datum it puts is NULL or an object of its own that
    is not queued yet, and it asks for an index the queue has (or the first
    one it has not). *)
Definition op_pre (o : op) (q : fifo) : Prop :=
  match o with
  | Put d =>
      Z.of_nat (length (items q)) < INT_MAX ∧
      (∀ l, d = Some l → is_Some (store_of q !! l) ∧ Some l ∉ items q)
  | GetByIndex i => 0 ≤ i ≤ Z.of_nat (length (items q)) ∧ i ≤ INT_MAX
  | _ => True
  end.

(** The abstraction: the chain [c], its semaphore free, represents [q]. *)
Record refines (c : chain Z A) (q : fifo) : Prop := Refines {
  ref_items : ∃ ls, chain_rep c ls ∧ ls.*2 = items q ∧ owned (objs c) ls;
  ref_peak : c_peak c = peak q;
  ref_alive : init_flag c = if alive q then 1 else 0;
  ref_objs : objs c = store_of q;
  ref_sema : clock c = 1
}.

End chain.
Arguments fifo : clear implicits.
Arguments op : clear implicits.

Section proofs.
Context {A : Type}.
Variable kmalloc : gfp → gmap loc chain_holder → option (loc * chain_holder).
Variable chain_size_addr : Z.
Implicit Types (c : chain Z A) (ls : list (loc * ptr)) (q : fifo A).

Lemma down_done c : 0 < clock c → down c = Done () (set_clock (clock c - 1) c).
Proof. intros H. unfold down, lock_chain. simpl. unfold sema_down. by destruct (Z.ltb_spec 0 (clock c)); [|lia]. Qed.
Lemma down_blocks c : clock c ≤ 0 → down c = Blocked.
Proof. intros H. unfold down, lock_chain. simpl. unfold sema_down. by destruct (Z.ltb_spec 0 (clock c)); [lia|]. Qed.
Lemma bind_up {B} c (k : unit → M (chain Z A) B) : (up ≫= k) c = k () (set_clock (clock c + 1) c).
Proof. done. Qed.

Lemma data_of_done c ls x d : chain_rep c ls → (x, d) ∈ ls → data_of (Some x) c = Done d c.
Proof.
  intros Hr Hin. apply list_elem_of_split in Hin as (ls1 & ls2 & ->).
  destruct (cseg_mid _ _ _ _ _ _ (rep_seg _ _ Hr)) as (Hx & _).
  unfold data_of. by mstep (load_done _ _ _ Hx).
Qed.

Lemma head_locs_None ls : head ls.*1 = None → ls = [].
Proof. by destruct ls. Qed.

Lemma first_match_in f ls x d : first_match f ls = Some (x, d) → (x, d) ∈ ls.
Proof. intros H. destruct (first_match_split _ _ _ _ H) as (l1 & l2 & -> & _). set_solver. Qed.

Lemma first_match_data f ls : snd <$> first_match f ls = List.find (λ d, f d =? 0) ls.*2.
Proof. induction ls as [|[x d] ls IH]; [done|]. simpl. by destruct (f d =? 0). Qed.

Lemma first_match_drop f ls1 x d ls2 :
  f d = 0 → (∀ y e, (y, e) ∈ ls1 → f e ≠ 0) →
  drop_first f (ls1 ++ (x, d) :: ls2).*2 = (ls1 ++ ls2).*2.
Proof.
  intros Hd Hall. induction ls1 as [|[y e] ls1 IH]; simpl.
  - by rewrite Hd.
  - destruct (Z.eqb_spec (f e) 0); [exfalso; apply (Hall y e); set_solver|].
    f_equal. apply IH. intros. apply (Hall y0). set_solver.
Qed.

Lemma first_match_none f ls : first_match f ls = None → drop_first f ls.*2 = ls.*2.
Proof.
  induction ls as [|[x d] ls IH]; [done|]. simpl. destruct (f d =? 0); [done|]. intros. f_equal. auto.
Qed.

Lemma owned_sub (o : gmap loc A) ls1 x d ls2 : owned o (ls1 ++ (x, d) :: ls2) → owned o (ls1 ++ ls2).
Proof.
  unfold owned. rewrite !omap_app. simpl. intros [Hnd Hin]. split.
  - eapply sublist_NoDup; [exact Hnd|]. apply sublist_app; [done|]. destruct d; [by constructor|done].
  - intros l Hl. apply Hin. destruct d; set_solver.
Qed.

(** The search of the [get_by] functions. *)
Lemma search_get c ls (g : gmap loc A → ptr → Z) : chain_rep c ls →
  (fuel ← gets walk_fuel; found ← search fuel g (head ls.*1); data_of found) c =
  Done (default None (List.find (λ d, g (objs c) d =? 0) ls.*2)) c.
Proof.
  intros Hr. msimpl. assert (Hf := chain_rep_fuel c ls Hr).
  erewrite bind_done; [|apply (search_done c (base c) ls); [apply Hr|lia]].
  rewrite <-first_match_data. destruct (first_match _ ls) as [[x d]|] eqn:E; [|done].
  simpl. apply (data_of_done c ls); [done|]. by apply (first_match_in (g (objs c))).
Qed.

(** The search and removal of the [remove_by] functions, under the semaphore. *)
Lemma search_take c ls (g : gmap loc A → ptr → Z) : chain_rep c ls → owned (objs c) ls →
  ∃ c' ls', (fuel ← gets walk_fuel; found ← search fuel g (head ls.*1); take_found found) c =
    Done (default None (List.find (λ d, g (objs c) d =? 0) ls.*2)) c' ∧
    chain_rep c' ls' ∧ ls'.*2 = drop_first (g (objs c)) ls.*2 ∧ owned (objs c') ls' ∧
    c_peak c' = c_peak c ∧ init_flag c' = init_flag c ∧ objs c' = objs c ∧ clock c' = clock c + 1.
Proof.
  intros Hr Ho. msimpl. assert (Hf := chain_rep_fuel c ls Hr).
  erewrite bind_done; [|apply (search_done c (base c) ls); [apply Hr|lia]].
  rewrite <-first_match_data. destruct (first_match _ ls) as [[x d]|] eqn:E; simpl.
  - destruct (first_match_split _ _ _ _ E) as (ls1 & ls2 & -> & Hd & Hall).
    destruct (cseg_mid _ _ _ _ _ _ (rep_seg _ _ Hr)) as (Hx & _).
    eexists _, (ls1 ++ ls2). split.
    { mstep (load_done _ _ _ Hx). mstep (unlink_free_done _ _ _ _ _ Hr). rewrite bind_up. done. }
    split_and!; try done.
    + apply set_clock_rep. by apply (unlink_free_rep c ls1 x d ls2).
    + by rewrite (first_match_drop _ ls1 x d ls2).
    + by apply (owned_sub _ _ x d).
  - eexists _, ls. split; [by rewrite bind_up|]. split_and!; try done.
    + by apply set_clock_rep.
    + by rewrite first_match_none.
Qed.

Lemma chain_put_fails c d : 0 < clock c →
  init_flag c = 0 ∨ kmalloc GFP_KERNEL (holders c) = None → chain_put kmalloc d c = Done (-1) c.
Proof.
  intros Hs Hf. unfold chain_put. mstep (down_done c Hs). msimpl. simpl.
  assert (Hback : set_clock (clock c - 1 + 1) (set_clock (clock c - 1) c) = c).
  { destruct c. unfold set_clock. simpl. f_equal. simpl in *. lia. }
  destruct (Z.eqb_spec (init_flag c) 0).
  - rewrite bind_up. simpl. by rewrite Hback.
  - destruct Hf as [?|Hk]; [done|]. unfold chain_add.
    mstep (add_tail_fails kmalloc (set_clock (clock c - 1) c) GFP_KERNEL d Hk).
    rewrite bind_up. simpl. by rewrite Hback.
Qed.

(** Restoring the semaphore gives back the state before [down]. *)
Lemma set_clock_back c : set_clock (clock c - 1 + 1) (set_clock (clock c - 1) c) = c.
Proof. destruct c. unfold set_clock. simpl. f_equal. lia. Qed.

Lemma get_refines c q : refines c q → ∃ r c' q',
  (RPtr <$> chain_get) c = Done r c' ∧ fifo_step true Get q = (r, q') ∧ refines c' q'.
Proof.
  intros Href. assert (Href' := Href). destruct Href as [(ls & Hr & Hls & Ho) Hpk Hal Hob Hse].
  unfold fifo_step. rewrite <-Hls. destruct (alive q) eqn:Ea.
  - destruct ls as [|[x d] ls].
    + eexists _, c, _. split; [apply fmap_done|split; [done|]].
      * unfold chain_get. mstep (down_done c ltac:(lia)). msimpl. simpl. rewrite Hal. simpl.
        mstep (first_holder_done _ _ (set_clock_rep c [] (clock c - 1) Hr)). simpl. rewrite bind_up. simpl.
        by rewrite set_clock_back.
      * split; simpl; try done. exists []. by split_and!.
    + eexists _, _, _. split; [apply fmap_done|split; [done|]].
      * unfold chain_get. mstep (down_done c ltac:(lia)). msimpl. simpl. rewrite Hal. simpl.
        mstep (first_holder_done _ _ (set_clock_rep c _ (clock c - 1) Hr)). simpl.
        destruct (cseg_mid _ _ _ _ [] _ (rep_seg _ _ Hr)) as (Hx & _).
        mstep (load_done (set_clock (clock c - 1) c) x _ Hx). unfold chain_remove.
        mstep (remove_first_done _ _ _ _ (set_clock_rep c _ (clock c - 1) Hr)). rewrite bind_up. done.
      * split; simpl; try done; [|lia]. exists ls. split_and!; [|done|by apply (owned_sub _ [] x d)].
        apply set_clock_rep. apply (unlink_free_rep (set_clock (clock c - 1) c) [] x d ls).
        by apply set_clock_rep.
  - eexists _, c, q. split; [apply fmap_done|split; [done|done]].
    unfold chain_get. mstep (down_done c ltac:(lia)). msimpl. simpl. rewrite Hal. simpl.
    rewrite bind_up. simpl. by rewrite set_clock_back.
Qed.

(** The functions that take no lock work whoever holds the semaphore. *)
Lemma refines_rep c q : refines (set_clock 1 c) q → ∃ ls, chain_rep c ls ∧ ls.*2 = items q ∧
  init_flag c = (if alive q then 1 else 0) ∧ objs c = store_of q.
Proof.
  intros [(ls & Hr & Hls & Ho) Hpk Hal Hob Hse]. exists ls. split_and!; try done.
  apply (set_clock_rep _ _ (clock c)) in Hr. by destruct c.
Qed.

Lemma refines_clock c q : refines c q → refines (set_clock 1 c) q.
Proof. intros Href. assert (H := ref_sema _ _ Href). destruct c. simpl in *. by subst. Qed.

Lemma get_top_refines c q : refines (set_clock 1 c) q → ∃ r,
  (RPtr <$> chain_get_top) c = Done r c ∧ fifo_step true GetTop q = (r, q).
Proof.
  intros Href. destruct (refines_rep c q Href) as (ls & Hr & Hls & Hal & Hob). simpl. eexists. split; [apply fmap_done|done].
  unfold chain_get_top. msimpl. rewrite Hal. destruct (alive q); simpl; [|done].
  mstep (first_holder_done _ _ Hr). rewrite <-Hls. destruct ls as [|[x d] ls]; [done|].
  apply (data_of_done c ((x, d) :: ls)); [done|set_solver].
Qed.

(** [advance] walks [n] holders ahead, and faults when there are fewer. *)
Lemma advance_done c l ls n : cseg (holders c) l ls →
  advance n (head ls.*1) c =
    if (n <=? length ls)%nat then Done (ls.*1 !! n) c else Oops.
Proof.
  revert l ls. induction n as [|n IH]; intros l ls Hc; simpl.
  - by destruct ls as [|[x d] ls].
  - destruct ls as [|[x d] ls]; [done|]. simpl. unfold deref. msimpl.
    destruct Hc as (_ & _ & Hs). destruct (cseg_head _ _ _ Hs) as (h & Hh & Hn).
    mstep (load_done c x h Hh). rewrite Hn. by rewrite (IH x).
Qed.

Lemma get_by_ident_refines c q i f : refines (set_clock 1 c) q → ∃ r,
  (RPtr <$> chain_get_by_ident i f) c = Done r c ∧ fifo_step true (GetByIdent i f) q = (r, q).
Proof.
  intros Href. destruct (refines_rep c q Href) as (ls & Hr & Hls & Hal & Hob). simpl. eexists. split; [apply fmap_done|done].
  unfold chain_get_by_ident. mstep (first_holder_done _ _ Hr). unfold first_data. rewrite <-Hls, <-Hob.
  destruct f as [f|]; [|by destruct (head ls.*1)].
  destruct (head ls.*1) as [x|] eqn:E; [|by rewrite (head_locs_None ls E)].
  rewrite <-E. by rewrite (search_get c ls).
Qed.

Lemma get_by_double_ident_refines c q i j f : refines (set_clock 1 c) q → ∃ r,
  (RPtr <$> chain_get_by_double_ident i j f) c = Done r c ∧
  fifo_step true (GetByDoubleIdent i j f) q = (r, q).
Proof.
  intros Href. destruct (refines_rep c q Href) as (ls & Hr & Hls & Hal & Hob). simpl. eexists. split; [apply fmap_done|done].
  unfold chain_get_by_double_ident. mstep (first_holder_done _ _ Hr). unfold first_data. rewrite <-Hls, <-Hob.
  destruct f as [f|]; [|by destruct (head ls.*1)].
  destruct (head ls.*1) as [x|] eqn:E; [|by rewrite (head_locs_None ls E)].
  rewrite <-E. by rewrite (search_get c ls).
Qed.

(** The [remove_by] functions share their code after the choice of the
    callback: under the semaphore, take the first element it accepts. *)
Lemma remove_by_refines c q (o : op A) (code : M (chain Z A) ptr) (f : option (gmap loc A → ptr → Z)) :
  refines c q →
  (∀ c0, code c0 = (_ ← down; pHolder ← first_holder; flag ← gets init_flag;
    if flag =? 0 then _ ← up; mret None
    else match pHolder, f with
         | None, _ => _ ← up; mret None
         | _, None => _ ← up; mret None
         | Some _, Some f => fuel ← gets walk_fuel; found ← search fuel f pHolder; take_found found
         end) c0) →
  fifo_step true o q = match f with Some f => fifo_take (f (store_of q)) q | None => (RPtr None, q) end →
  ∃ r c' q', (RPtr <$> code) c = Done r c' ∧ fifo_step true o q = (r, q') ∧ refines c' q'.
Proof.
  intros Href Hcode ->. assert (Href' := Href). destruct Href as [(ls & Hr & Hls & Ho) Hpk Hal Hob Hse].
  set (c1 := set_clock (clock c - 1) c). assert (Hr1 : chain_rep c1 ls) by (by apply set_clock_rep).
  assert (Hrun : code c = (flag ← gets init_flag;
    if flag =? 0 then _ ← up; mret None
    else match head ls.*1, f with
         | None, _ => _ ← up; mret None
         | _, None => _ ← up; mret None
         | Some _, Some f => fuel ← gets walk_fuel; found ← search fuel f (head ls.*1); take_found found
         end) c1).
  { rewrite Hcode. mstep (down_done c ltac:(lia)). by mstep (first_holder_done _ _ Hr1). }
  revert Hrun. rewrite bind_gets. simpl. rewrite Hal. destruct (alive q) eqn:Ea.
  - destruct f as [f|].
    + destruct (head ls.*1) as [x|] eqn:E; cbn [Z.eqb]; intros Hrun.
      * destruct (search_take c1 ls f Hr1 Ho) as (c' & ls' & Hst & Hr' & Hls' & Ho' & Hp' & Hi' & Hob' & Hc').
        rewrite <-E, Hst in Hrun. unfold fifo_take, first_data. rewrite Ea, <-Hls, <-Hob.
        eexists _, c', _. split; [by apply fmap_done|]. split; [done|].
        split; simpl in *; [by eauto|congruence..|lia].
      * apply head_locs_None in E as ->. rewrite bind_up in Hrun. simpl in Hrun. rewrite set_clock_back in Hrun.
        unfold fifo_take, first_data. rewrite Ea, <-Hls. eexists _, c, _.
        split; [by apply fmap_done|]. split; [done|]. split; simpl; [|done..]. exists []. by split_and!.
    + intros Hrun. eexists _, c, q. split; [apply fmap_done|done]. rewrite Hrun. simpl.
      destruct (head ls.*1); rewrite bind_up; simpl; by rewrite set_clock_back.
  - simpl. intros Hrun. rewrite bind_up in Hrun. simpl in Hrun. rewrite set_clock_back in Hrun.
    unfold fifo_take. rewrite Ea. destruct f; eexists _, c, q; (split; [by apply fmap_done|done]).
Qed.

Lemma freed_items (o : gmap loc A) ls : freed o ls = free_items o ls.*2.
Proof. revert o. induction ls as [|[x d] ls IH]; intros o; [done|]. apply IH. Qed.

Lemma release_refines c q : refines c q → ∃ r c' q',
  (RInt <$> chain_release) c = Done r c' ∧ fifo_step true Release q = (r, q') ∧ refines c' q'.
Proof.
  intros [(ls & Hr & Hls & Ho) Hpk Hal Hob Hse].
  set (c1 := set_clock (clock c - 1) c). assert (Hr1 : chain_rep c1 ls) by (by apply set_clock_rep).
  destruct (remove_all_done c1 ls (walk_fuel c1) Hr1 Ho) as (c' & Hrun & Hr' & Hob' & Hb & Hp & Hi & Hcl & _).
  { assert (Hf := chain_rep_fuel c1 ls Hr1). lia. }
  simpl in Hob', Hp, Hcl. eexists _, _, _. split; [apply fmap_done|split; [done|]].
  - unfold chain_release. mstep (down_done c ltac:(lia)). unfold chain_remove_all at 1.
    erewrite bind_done; [|rewrite bind_gets; exact Hrun]. msimpl. rewrite bind_up. done.
  - split; simpl; [|congruence|done| |lia].
    + exists []. split_and!; [by apply set_clock_rep, set_init_rep|done|]. split; [constructor|set_solver].
    + by rewrite Hob', freed_items, Hls, Hob.
Qed.

Lemma size_refines c q : refines c q →
  (RInt <$> chain_size) c = Done (RInt (Z.of_nat (length (items q)))) c ∧
  (RInt <$> chain_peak_size) c = Done (RInt (peak q)) c.
Proof.
  intros [(ls & Hr & Hls & Ho) Hpk Hal Hob Hse]. rewrite <-Hls, <-Hpk, length_fmap, <-(rep_size _ _ Hr).
  split; apply fmap_done; [unfold chain_size|unfold chain_peak_size]; mstep (down_done c ltac:(lia));
    msimpl; rewrite bind_up; simpl; by rewrite set_clock_back.
Qed.

Lemma chain_init_refines c0 : is_Some (holders c0 !! base c0) →
  ∃ c, chain_init c0 = Done 0 c ∧ refines c (Fifo [] 0 true (objs c0)).
Proof.
  intros Hb. eexists. split.
  - unfold chain_init. msimpl. erewrite bind_done; [|by apply store_done]. by msimpl.
  - destruct Hb as [h Hh]. split; simpl; try done. exists []. split_and!; [|done|].
    + split; simpl; [|apply NoDup_singleton|done|unfold INT_MAX; lia].
      exists (with_pNext None h). by rewrite lookup_alter_eq, Hh.
    + split; [constructor|set_solver].
Qed.

(** Kernel code lies in the upper half of the 64-bit address space. *)
Hypothesis chain_size_high : 2 ^ 31 ≤ chain_size_addr.

(** What [chain_get_by_index] does for every index that is not negative: the
    guard never fires, so an index past the end faults. *)
Lemma chain_get_by_index_cases c ls i : chain_rep c ls → 0 ≤ i ≤ INT_MAX →
  chain_get_by_index chain_size_addr i c =
    if (length ls =? 0)%nat then Done None c
    else if i <=? Z.of_nat (length ls) then Done (default None (ls.*2 !! Z.to_nat i)) c else Oops.
Proof.
  intros Hr Hi. unfold chain_get_by_index. mstep (first_holder_done _ _ Hr).
  destruct (head ls.*1) as [x|] eqn:E; [|by rewrite (head_locs_None ls E)].
  destruct (Nat.eqb_spec (length ls) 0) as [E0|_]; [by apply nil_length_inv in E0 as ->|].
  rewrite Z.mod_small by (unfold INT_MAX in *; lia).
  destruct (Z.geb_spec i chain_size_addr); [unfold INT_MAX in *; lia|].
  rewrite <-E. unfold mbind, M_bind. rewrite (advance_done c (base c) ls) by apply Hr.
  destruct (Z.leb_spec i (Z.of_nat (length ls))), (Nat.leb_spec (Z.to_nat i) (length ls));
    try lia; [|done].
  rewrite !list_lookup_fmap. destruct (ls !! Z.to_nat i) as [[y e]|] eqn:Ey; [|done].
  simpl. apply (data_of_done c ls); [done|]. by apply list_elem_of_lookup_2 in Ey.
Qed.

Lemma get_by_index_refines c q i : refines (set_clock 1 c) q → op_pre (GetByIndex i) q → ∃ r,
  (RPtr <$> chain_get_by_index chain_size_addr i) c = Done r c ∧ fifo_step true (GetByIndex i) q = (r, q).
Proof.
  intros Href [Hi Hmax]. destruct (refines_rep c q Href) as (ls & Hr & Hls & Hal & Hob). simpl. eexists. split; [apply fmap_done|done].
  assert (Hlen : length ls = length (items q)) by (by rewrite <-Hls, length_fmap).
  rewrite (chain_get_by_index_cases c ls i) by (done || lia). rewrite Hls.
  destruct ls as [|p ls]; [|].
  - simpl. by rewrite <-Hls.
  - simpl. destruct (Z.leb_spec i (Z.of_nat (S (length ls)))); [done|]. simpl in Hlen. lia.
Qed.

(** The operations that take the chain's lock. *)
Definition takes_lock (o : op A) : bool :=
  match o with
  | GetTop | GetByIndex _ | GetByIdent _ _ | GetByDoubleIdent _ _ _ => false
  | _ => true
  end.

Lemma exec_blocked c (o : op A) : takes_lock o = true → clock c ≤ 0 →
  exec kmalloc chain_size_addr o c = Blocked.
Proof.
  intros Ho Hc. destruct o; try done; simpl exec; unfold fmap, M_fmap, mbind, M_bind;
    cbv beta delta [chain_put chain_get chain_remove_by_ident chain_remove_by_double_ident
      chain_remove_by_triple_ident chain_size chain_peak_size chain_release];
    unfold mbind, M_bind; by rewrite down_blocks.
Qed.

(** A caller that already holds the chain's lock and calls an
    operation that takes it waits for ever; the calls meant for such a caller
    take no lock and return what the queue returns. *)
Theorem chain_lock_not_reentrant c q (o : op A) : refines c q → op_pre o q →
  (chain_lock ≫= λ _, exec kmalloc chain_size_addr o) c =
    if takes_lock o then Blocked else Done (fifo_step true o q).1 (set_clock 0 c).
Proof.
  intros Href Hpre. assert (Hs := ref_sema _ _ Href). unfold chain_lock. mstep (down_done c ltac:(lia)).
  rewrite Hs. replace (1 - 1) with 0 by lia. destruct (takes_lock o) eqn:Ho.
  - by apply exec_blocked.
  - assert (H1 : refines (set_clock 1 (set_clock 0 c)) q) by (by apply refines_clock in Href).
    destruct o; try done; simpl exec.
    + by destruct (get_top_refines _ q H1) as (r & -> & ->).
    + by destruct (get_by_index_refines _ q index H1 Hpre) as (r & -> & ->).
    + by destruct (get_by_ident_refines _ q i f H1) as (r & -> & ->).
    + by destruct (get_by_double_ident_refines _ q i j f H1) as (r & -> & ->).
Qed.

(** [chain_get_by_index] with an index beyond the first missing
    one dereferences NULL instead of returning it: its guard compares the index
    with the address of the function [chain_size], not with the number of
    elements, and never fires. *)
Theorem chain_get_by_index_past_end c ls i :
  chain_rep c ls → ls ≠ [] → Z.of_nat (length ls) < i ≤ INT_MAX →
  chain_get_by_index chain_size_addr i c = Oops.
Proof.
  intros Hr Hne Hi. rewrite (chain_get_by_index_cases c ls i) by (done || lia).
  destruct (Nat.eqb_spec (length ls) 0) as [E|_]; [by apply nil_length_inv in E|].
  destruct (Z.leb_spec i (Z.of_nat (length ls))); [lia|done].
Qed.

(** The allocator returns an address that is not in use. *)
Hypothesis kmalloc_fresh : ∀ flags h l g, kmalloc flags h = Some (l, g) → h !! l = None.

(** [chain_put] on a chain in use, with the state it leaves. *)
Lemma chain_put_done c ls d new g : chain_rep c ls → 0 < clock c → init_flag c ≠ 0 →
  kmalloc GFP_KERNEL (holders c) = Some (new, g) →
  let size' := int32 (c_size c + 1) in
  chain_put kmalloc d c = Done 0
    (Chain (base c) size' (if size' >? c_peak c then size' else c_peak c) (init_flag c) (clock c)
       (linked (holders c) (last_loc (base c) ls) new d) (objs c)).
Proof.
  intros Hr Hs Hi Hk size'. unfold chain_put. mstep (down_done c Hs). msimpl. simpl.
  destruct (Z.eqb_spec (init_flag c) 0); [done|]. unfold chain_add.
  assert (Hadd := add_tail_done kmalloc kmalloc_fresh (set_clock (clock c - 1) c) ls GFP_KERNEL d
    new g (set_clock_rep _ _ _ Hr) Hk). mstep Hadd. rewrite bind_up. simpl.
  unfold mret, M_ret, set_clock. simpl. do 2 f_equal. lia.
Qed.

Lemma put_refines c q d : refines c q → op_pre (Put d) q → ∃ room r c' q',
  (RInt <$> chain_put kmalloc d) c = Done r c' ∧ fifo_step room (Put d) q = (r, q') ∧ refines c' q'.
Proof.
  intros [(ls & Hr & Hls & Ho) Hpk Hal Hob Hse] [Hlen Hd].
  assert (Hs : 0 < clock c) by lia. assert (Hlen' : length ls = length (items q)) by (by rewrite <-Hls, length_fmap).
  destruct (alive q) eqn:Ea; [destruct (kmalloc GFP_KERNEL (holders c)) as [[new g]|] eqn:Ek|].
  - exists true. eexists _, _, _. split; [apply fmap_done, (chain_put_done c ls d new g); [done..|lia|done]|].
    simpl. rewrite Ea. split; [done|]. set (size' := int32 (c_size c + 1)).
    assert (Hsz : size' = Z.of_nat (length (items q)) + 1).
    { unfold size'. rewrite (rep_size _ _ Hr), int32_small; lia. }
    split; simpl; try done.
    + exists (ls ++ [(new, d)]). split_and!.
      * apply (add_tail_rep kmalloc kmalloc_fresh c ls GFP_KERNEL d new g); [done|lia|done].
      * by rewrite fmap_app, Hls.
      * apply owned_snoc; [done|]. intros l ->. destruct (Hd l eq_refl). by rewrite Hls, Hob.
    + rewrite <-Hpk. destruct (Z.gtb_spec size' (c_peak c)); lia.
  - exists false. eexists _, c, q. split; [apply fmap_done, chain_put_fails; [done|by right]|].
    simpl. rewrite andb_false_r. split; [done|]. split; try done; [eauto|by rewrite Ea].
  - exists false. eexists _, c, q. split; [apply fmap_done, chain_put_fails; [done|by left]|].
    simpl. rewrite andb_false_r. split; [done|]. split; try done; [eauto|by rewrite Ea].
Qed.

(** Each call of a chain that represents the queue [q] returns what the queue
    returns and leaves a chain that represents the queue afterwards. *)
Lemma exec_refines c q (o : op A) :
  refines c q → op_pre o q →
  ∃ room r c' q', exec kmalloc chain_size_addr o c = Done r c' ∧
    fifo_step room o q = (r, q') ∧ refines c' q'.
Proof.
  intros Href Hpre. destruct o; simpl exec.
  - by apply put_refines.
  - exists true. by apply get_refines.
  - destruct (get_top_refines c q (refines_clock _ _ Href)) as (r & ? & ?). exists true, r, c, q. done.
  - destruct (get_by_index_refines c q index (refines_clock _ _ Href) Hpre) as (r & ? & ?). exists true, r, c, q. done.
  - destruct (get_by_ident_refines c q i f (refines_clock _ _ Href)) as (r & ? & ?). exists true, r, c, q. done.
  - destruct (get_by_double_ident_refines c q i j f (refines_clock _ _ Href)) as (r & ? & ?). exists true, r, c, q. done.
  - exists true. apply (remove_by_refines c q _ _ ((λ f os d, f os d i) <$> f)); [done| |by destruct f].
    intros c0. by destruct f.
  - exists true. apply (remove_by_refines c q _ _ ((λ f os d, f os d i j) <$> f)); [done| |by destruct f].
    intros c0. by destruct f.
  - exists true. apply (remove_by_refines c q _ _ ((λ f os d, f os d i j k) <$> f)); [done| |by destruct f].
    intros c0. by destruct f.
  - exists true, (RInt (Z.of_nat (length (items q)))), c, q. split; [by apply size_refines|done].
  - exists true, (RInt (peak q)), c, q. split; [by apply size_refines|done].
  - exists true. by apply release_refines.
Qed.

(** The states a chain goes through: it is initialised once, then called in any
    order by callers that keep to [op_pre].  The queue in the second argument
    records what the calls returned. *)
Inductive reaches (c0 : chain Z A) : chain Z A → fifo A → Prop :=
| reach_init r c : chain_init c0 = Done r c → reaches c0 c (Fifo [] 0 true (objs c0))
| reach_call c q o r c' room q' :
    reaches c0 c q → op_pre o q → exec kmalloc chain_size_addr o c = Done r c' →
    fifo_step room o q = (r, q') → reaches c0 c' q'.

(** The result of a call tells how the queue changed. *)
Lemma fifo_step_det room1 room2 (o : op A) q r q1 q2 :
  fifo_step room1 o q = (r, q1) → fifo_step room2 o q = (r, q2) → q1 = q2.
Proof. destruct o, room1, room2; simpl; try congruence; destruct (alive q); simpl; congruence. Qed.

Lemma reaches_refines c0 c q : is_Some (holders c0 !! base c0) → reaches c0 c q → refines c q.
Proof.
  intros Hb. induction 1 as [r c Hi|c q o r c' room q' _ IH Hpre He Hf].
  - destruct (chain_init_refines c0 Hb) as (c1 & Hi1 & Href). rewrite Hi in Hi1. by simplify_eq.
  - destruct (exec_refines c q o IH Hpre) as (room' & r' & c'' & q'' & He' & Hf' & Href).
    rewrite He in He'. simplify_eq. by rewrite (fifo_step_det _ _ _ _ _ _ _ Hf Hf').
Qed.

(** C1: for callers that keep to [op_pre], that is: a put of NULL or of an
    allocated object that is not queued already, while fewer than [INT_MAX]
    items are queued, and a look-up by an index from 0 to the number of items.
    In every state a chain reaches by such calls, in whatever order, the next
    such call returns: it dereferences no bad pointer, does not wait for the
    semaphore it holds itself and ends its walk.  It returns what the queue
    returns (data leave in the order they came, a removal takes the first
    match, a released chain refuses), and the state it leaves represents the
    queue afterwards.  Calls outside [op_pre] need not return: a look-up one
    further past the end follows a NULL pointer
    ([chain_get_by_index_past_end]).  The addresses are those of a kernel: the
    allocator returns unused ones, and that of [chain_size] is at least
    [2 ^ 31]. *)
Theorem chain_behaves_as_fifo c0 c q (o : op A) :
  is_Some (holders c0 !! base c0) → reaches c0 c q → op_pre o q →
  ∃ room r c' q', exec kmalloc chain_size_addr o c = Done r c' ∧
    fifo_step room o q = (r, q') ∧ reaches c0 c' q' ∧ refines c' q'.
Proof.
  intros Hb Hreach Hpre. assert (Href := reaches_refines c0 c q Hb Hreach).
  destruct (exec_refines c q o Href Hpre) as (room & r & c' & q' & He & Hf & Href').
  exists room, r, c', q'. split_and!; [done..| |done]. by eapply reach_call.
Qed.

End proofs.

(** ** Concrete chains *)
Section examples.

(** An uninitialised chain struct at address 1 and two objects of a caller. *)
Definition raw_chain : chain Z Z :=
  Chain 1%positive 77 (-5) 0 0 {[ 1%positive := Holder None None (Some 9%positive) ]}
    {[ 100%positive := 7; 101%positive := 8 ]}.

Definition ex_size_addr : Z := 0xffffffffc0001000.
Definition is_obj : datIdfunc_t (A := Z) :=
  Some (λ os d i, match d ≫= λ l, os !! l with Some v => if v =? i then 0 else 1 | None => 1 end).

Definition ex_calls : list (op Z) :=
  [Put (Some 100%positive); Put (Some 101%positive); RemoveByIdent 8 is_obj; Size; Get].

(** The calls of a list, one after the other. *)
Fixpoint exec_all (kmalloc : gfp → gmap loc chain_holder → option (loc * chain_holder))
    (os : list (op Z)) : M (chain Z Z) (list retval) :=
  match os with
  | [] => mret []
  | o :: os => r ← exec kmalloc ex_size_addr o; rs ← exec_all kmalloc os; mret (r :: rs)
  end.

Definition result_of {S B} (o : outcome S B) : option B :=
  match o with Done b _ => Some b | _ => None end.

Example ex_calls_run :
  result_of ((chain_init ≫= λ _, exec_all (bump_alloc 10) ex_calls) raw_chain) =
  Some [RInt 0; RInt 0; RPtr (Some 101%positive); RInt 1; RPtr (Some 100%positive)].
Proof. vm_compute. reflexivity. Qed.

Definition ex_chain : chain Z Z :=
  match chain_init raw_chain with Done _ c => c | _ => raw_chain end.

Lemma chain_behaves_as_fifo_witness :
  op_pre (Put (Some 100%positive)) (Fifo [] 0 true (objs raw_chain)) ∧
  ∃ room r c' q', exec (bump_alloc 10) ex_size_addr (Put (Some 100%positive)) ex_chain = Done r c' ∧
    fifo_step room (Put (Some 100%positive)) (Fifo [] 0 true (objs raw_chain)) = (r, q') ∧
    reaches (bump_alloc 10) ex_size_addr raw_chain c' q' ∧ refines c' q'.
Proof.
  assert (Hpre : op_pre (Put (Some 100%positive)) (Fifo [] 0 true (objs raw_chain))).
  { split; [vm_compute; reflexivity|]. intros l [= <-]. split; [by eexists|set_solver]. }
  split; [exact Hpre|].
  apply (chain_behaves_as_fifo (bump_alloc 10) ex_size_addr ltac:(by vm_compute) (bump_alloc_fresh 10)).
  - by eexists.
  - by apply (reach_init _ _ _ 0).
  - exact Hpre.
Defined.

Lemma ex_chain_refines : refines ex_chain (Fifo [] 0 true (objs raw_chain)).
Proof.
  destruct (chain_init_refines raw_chain) as (c & Hc & Href); [by eexists|].
  unfold ex_chain. by rewrite Hc.
Qed.

Lemma chain_lock_not_reentrant_witness :
  (chain_lock ≫= λ _, exec (bump_alloc 10) ex_size_addr Size) ex_chain = Blocked ∧
  (chain_lock ≫= λ _, exec (bump_alloc 10) ex_size_addr GetTop) ex_chain =
    Done (RPtr None) (set_clock 0 ex_chain).
Proof.
  split.
  - apply (chain_lock_not_reentrant (bump_alloc 10) ex_size_addr ltac:(by vm_compute) ex_chain
             (Fifo [] 0 true (objs raw_chain)) Size ex_chain_refines I).
  - apply (chain_lock_not_reentrant (bump_alloc 10) ex_size_addr ltac:(by vm_compute) ex_chain
             (Fifo [] 0 true (objs raw_chain)) GetTop ex_chain_refines I).
Defined.

(** A chain of one element. *)
Definition ex_chain1 : chain Z Z :=
  match chain_put (bump_alloc 10) (Some 100%positive) ex_chain with Done _ c => c | _ => ex_chain end.

Lemma chain_get_by_index_past_end_witness :
  chain_rep ex_chain1 [(2%positive, Some 100%positive)] ∧
  chain_get_by_index ex_size_addr 2 ex_chain1 = Oops.
Proof.
  assert (Hr : chain_rep ex_chain1 [(2%positive, Some 100%positive)]).
  { split; [|apply (bool_decide_unpack _); vm_compute; exact I|reflexivity|vm_compute; split; discriminate].
    simpl. split_and!; eexists; (split; [vm_compute; reflexivity|done]). }
  split; [exact Hr|].
  apply (chain_get_by_index_past_end ex_size_addr ltac:(by vm_compute) ex_chain1
    [(2%positive, Some 100%positive)]); [exact Hr|done|vm_compute; split; [reflexivity|discriminate]].
Defined.

End examples.
