(* ===== verification/SlChain.v ===== *)
(** * sl_chain.c: the chain under a spinlock

    The functions of [src/sources/kmods/genintrdrv/kmod/sl_chain.c].  They are
    meant for interrupt context: the lock is [spin_lock_irqsave], which saves
    the interrupt state in a variable of the caller and switches interrupts
    off, and memory comes from [GFP_ATOMIC].  The theorems: the same queue as
    for [Chain], and after every call the lock is free and the interrupt state
    is what it was. *)

From stdpp Require Import base list gmap.
From Stdlib Require Import ZArith Lia.
From S2P Require Import Prelude ChainHeap Chain.

(** The spinlock and the interrupt state of the processor that runs the code;
    taking a spinlock it holds already, the processor spins for ever. *)
Record spin := Spin { locked : bool; irqs_on : bool }.

Definition spin_lock_irqsave (s : spin) : option (bool * spin) :=
  if locked s then None else Some (irqs_on s, Spin true false).
Definition spin_unlock_irqrestore (flags : bool) (s : spin) : spin := Spin false flags.

Lemma spin_lock_free s : locked s = false → ∃ k s', spin_lock_irqsave s = Some (k, s') ∧
  spin_unlock_irqrestore k s' = s.
Proof.
  intros H. unfold spin_lock_irqsave. rewrite H. exists (irqs_on s), (Spin true false).
  split; [done|]. destruct s. simpl in *. by subst.
Qed.

#[export] Instance spinlock : ChainLock spin bool := {|
  acquire := spin_lock_irqsave;
  unlock := spin_unlock_irqrestore;
  lock_free s := locked s = false;
  acquire_free := spin_lock_free
|}.

Section sl_chain.
Context {A : Type}.
Variable kmalloc : gfp → gmap loc chain_holder → option (loc * chain_holder).

Abbreviation C := (M (chain spin A)).

Definition sl_lock : C bool := lock_chain.
Definition sl_unlock (flags : bool) : C unit := unlock_chain flags.

(** [spin_lock_init] leaves the interrupt state alone. *)
Definition sl_chain_init : C Z :=
  _ ← modify (set_size 0);
  _ ← modify (set_peak 0);
  b ← gets base;
  _ ← store b (with_pNext None);
  _ ← modify (λ c, set_clock (Spin false (irqs_on (clock c))) c);
  _ ← modify (set_init 1);
  mret 0.

Definition sl_chain_add (data : ptr) : C Z := add_tail kmalloc GFP_ATOMIC data.
Definition sl_chain_remove : C Z := remove_first.
Definition sl_chain_remove_all : C Z := fuel ← gets walk_fuel; remove_all fuel.

Definition sl_chain_release : C Z :=
  flags ← sl_lock;
  _ ← sl_chain_remove_all;
  _ ← modify (set_init 0);
  _ ← sl_unlock flags;
  mret 0.

Definition sl_chain_lock : C bool := sl_lock.
Definition sl_chain_unlock (flags : bool) : C unit := sl_unlock flags.

(** Unlike [chain_get_top], takes the lock. *)
Definition sl_chain_get_top : C ptr :=
  flags ← sl_lock;
  init ← gets init_flag;
  if init =? 0 then _ ← sl_unlock flags; mret None
  else
    pHolder ← first_holder;
    match pHolder with
    | None => _ ← sl_unlock flags; mret None
    | Some l => h ← load l; _ ← sl_unlock flags; mret (pData h)
    end.

Definition sl_chain_put (data : ptr) : C Z :=
  flags ← sl_lock;
  init ← gets init_flag;
  if init =? 0 then _ ← sl_unlock flags; mret (-1)
  else
    iRet ← sl_chain_add data;
    _ ← sl_unlock flags;
    mret iRet.

Definition sl_chain_get : C ptr :=
  flags ← sl_lock;
  init ← gets init_flag;
  if init =? 0 then _ ← sl_unlock flags; mret None
  else
    pHolder ← first_holder;
    match pHolder with
    | None => _ ← sl_unlock flags; mret None
    | Some l =>
        h ← load l;
        _ ← sl_chain_remove;
        _ ← sl_unlock flags;
        mret (pData h)
    end.

Definition sl_chain_remove_by_ident (ident : Z) (custom_func : datIdfunc_t (A := A)) : C ptr :=
  flags ← sl_lock;
  pHolder ← first_holder;
  init ← gets init_flag;
  if init =? 0 then _ ← sl_unlock flags; mret None
  else
    match pHolder, custom_func with
    | None, _ => _ ← sl_unlock flags; mret None
    | _, None => _ ← sl_unlock flags; mret None
    | Some _, Some f =>
        fuel ← gets walk_fuel;
        found ← search fuel (λ os d, f os d ident) pHolder;
        match found with
        | None => _ ← sl_unlock flags; mret None
        | Some l =>
            h ← load l;
            _ ← unlink_free l;
            _ ← sl_unlock flags;
            mret (pData h)
        end
    end.

(** Takes no lock: the caller holds it. *)
Definition sl_chain_get_by_double_ident (ident1 ident2 : Z) (cust_func : dbdatIdfunc_t (A := A)) : C ptr :=
  pHolder ← first_holder;
  match pHolder, cust_func with
  | None, _ => mret None
  | _, None => mret None
  | Some _, Some f =>
      fuel ← gets walk_fuel;
      found ← search fuel (λ os d, f os d ident1 ident2) pHolder;
      match found with
      | None => mret None
      | Some l => h ← load l; mret (pData h)
      end
  end.

Definition sl_chain_size : C Z :=
  flags ← sl_lock;
  size ← gets c_size;
  _ ← sl_unlock flags;
  mret size.

Definition sl_chain_peak_size : C Z :=
  flags ← sl_lock;
  size ← gets c_peak;
  _ ← sl_unlock flags;
  mret size.

(** The calls of a spinlock chain; it has fewer than a [Chain]. *)
Inductive sl_op :=
| SlPut (data : ptr) | SlGet | SlGetTop
| SlRemoveByIdent (i : Z) (f : datIdfunc_t (A := A))
| SlGetByDoubleIdent (i j : Z) (f : dbdatIdfunc_t (A := A))
| SlSize | SlPeakSize | SlRelease.

Definition sl_exec (o : sl_op) : C retval :=
  match o with
  | SlPut d => RInt <$> sl_chain_put d
  | SlGet => RPtr <$> sl_chain_get
  | SlGetTop => RPtr <$> sl_chain_get_top
  | SlRemoveByIdent i f => RPtr <$> sl_chain_remove_by_ident i f
  | SlGetByDoubleIdent i j f => RPtr <$> sl_chain_get_by_double_ident i j f
  | SlSize => RInt <$> sl_chain_size
  | SlPeakSize => RInt <$> sl_chain_peak_size
  | SlRelease => RInt <$> sl_chain_release
  end.

(** The same calls of the queue. *)
Definition op_of (o : sl_op) : op A :=
  match o with
  | SlPut d => Put d
  | SlGet => Get
  | SlGetTop => GetTop
  | SlRemoveByIdent i f => RemoveByIdent i f
  | SlGetByDoubleIdent i j f => GetByDoubleIdent i j f
  | SlSize => Size
  | SlPeakSize => PeakSize
  | SlRelease => Release
  end.

(** The chain [c], its lock free and interrupts as [irq] says, represents [q]. *)
Record sl_refines (irq : bool) (c : chain spin A) (q : fifo A) : Prop := SlRefines {
  slref_items : ∃ ls, chain_rep c ls ∧ ls.*2 = items q ∧ owned (objs c) ls;
  slref_peak : c_peak c = peak q;
  slref_alive : init_flag c = if alive q then 1 else 0;
  slref_objs : objs c = store_of q;
  slref_lock : clock c = Spin false irq
}.

End sl_chain.
Arguments sl_op : clear implicits.

Lemma sl_chain_init_refines {A} (c0 : chain spin A) : is_Some (holders c0 !! base c0) →
  ∃ c, sl_chain_init c0 = Done 0 c ∧
    sl_refines (irqs_on (clock c0)) c (Fifo [] 0 true (objs c0)).
Proof.
  intros Hb. eexists. split.
  - unfold sl_chain_init. msimpl. erewrite bind_done; [|by apply store_done]. by msimpl.
  - destruct Hb as [h Hh]. split; simpl; try done. exists []. split_and!; [|done|].
    + split; simpl; [|apply NoDup_singleton|done|unfold INT_MAX; lia].
      exists (with_pNext None h). by rewrite lookup_alter_eq, Hh.
    + split; [constructor|set_solver].
Qed.

Section sl_proofs.
Context {A : Type}.
Variable kmalloc : gfp → gmap loc chain_holder → option (loc * chain_holder).
Hypothesis kmalloc_fresh : ∀ flags h l g, kmalloc flags h = Some (l, g) → h !! l = None.
Implicit Types (c : chain spin A) (ls : list (loc * ptr)) (q : fifo A).

Lemma bind_sl_lock {B} irq c (k : bool → M (chain spin A) B) : clock c = Spin false irq →
  (sl_lock ≫= k) c = k irq (set_clock (Spin true false) c).
Proof. intros H. unfold mbind, M_bind, sl_lock, lock_chain. rewrite H. done. Qed.

Lemma bind_sl_unlock {B} flags c (k : unit → M (chain spin A) B) :
  (sl_unlock flags ≫= k) c = k () (set_clock (Spin false flags) c).
Proof. done. Qed.

Lemma sl_back irq c s : clock c = Spin false irq → set_clock (Spin false irq) (set_clock s c) = c.
Proof. intros H. destruct c. simpl in *. by subst. Qed.

(** Closing the goal of a call that leaves the chain as it was. *)
Ltac sl_unchanged Hl :=
  repeat match goal with c1 := set_clock _ _ |- _ => subst c1 end; simpl; rewrite ?bind_sl_unlock; cbv beta; rewrite ?(sl_back _ _ _ Hl); done.

Lemma sl_put_refines irq c q d : sl_refines irq c q → op_pre (Put d) q → ∃ room r c' q',
  (RInt <$> sl_chain_put kmalloc d) c = Done r c' ∧ fifo_step room (Put d) q = (r, q') ∧
  sl_refines irq c' q'.
Proof.
  intros Href [Hlen Hd]. assert (Href0 := Href). destruct Href as [(ls & Hr & Hls & Ho) Hpk Hal Hob Hl].
  assert (Hlen' : length ls = length (items q)) by (by rewrite <-Hls, length_fmap).
  set (c1 := set_clock (Spin true false) c). assert (Hr1 : chain_rep c1 ls) by (by apply set_clock_rep).
  destruct (alive q) eqn:Ea; [destruct (kmalloc GFP_ATOMIC (holders c)) as [[new g]|] eqn:Ek|].
  - exists true. eexists _, _, _. split.
    { apply fmap_done. unfold sl_chain_put. rewrite (bind_sl_lock irq) by done. msimpl. simpl. rewrite Hal. simpl.
      unfold sl_chain_add. mstep (add_tail_done kmalloc kmalloc_fresh c1 ls GFP_ATOMIC d new g Hr1 Ek).
      rewrite bind_sl_unlock. done. }
    simpl. rewrite Ea. split; [done|]. set (size' := int32 (c_size c + 1)).
    assert (Hsz : size' = Z.of_nat (length (items q)) + 1).
    { unfold size'. rewrite (rep_size _ _ Hr), int32_small; lia. }
    split; simpl; try done.
    + exists (ls ++ [(new, d)]). split_and!.
      * apply set_clock_rep, (add_tail_rep kmalloc kmalloc_fresh c1 ls GFP_ATOMIC d new g); [done|lia|done].
      * by rewrite fmap_app, Hls.
      * apply owned_snoc; [done|]. intros l ->. destruct (Hd l eq_refl). by rewrite Hls, Hob.
    + rewrite <-Hpk. destruct (Z.gtb_spec size' (c_peak c)); lia.
  - exists false. eexists _, c, q. split; [apply fmap_done|split; [by simpl; rewrite andb_false_r|done]].
    unfold sl_chain_put. rewrite (bind_sl_lock irq) by done. msimpl. simpl. rewrite Hal. simpl.
    unfold sl_chain_add. mstep (add_tail_fails kmalloc c1 GFP_ATOMIC d Ek). sl_unchanged Hl.
  - exists false. eexists _, c, q. split; [apply fmap_done|split; [by simpl; rewrite andb_false_r|done]].
    unfold sl_chain_put. rewrite (bind_sl_lock irq) by done. msimpl. simpl. rewrite Hal. sl_unchanged Hl.
Qed.

Lemma sl_get_refines irq c q : sl_refines irq c q → ∃ r c' q',
  (RPtr <$> sl_chain_get) c = Done r c' ∧ fifo_step true Get q = (r, q') ∧ sl_refines irq c' q'.
Proof.
  intros Href. assert (Href0 := Href). destruct Href as [(ls & Hr & Hls & Ho) Hpk Hal Hob Hl].
  set (c1 := set_clock (Spin true false) c). assert (Hr1 : chain_rep c1 ls) by (by apply set_clock_rep).
  unfold fifo_step. rewrite <-Hls.
  assert (Hrun : ∀ r c', (init ← gets init_flag;
    if init =? 0 then _ ← sl_unlock irq; mret None
    else match head ls.*1 with
    | None => _ ← sl_unlock irq; mret None
    | Some l => h ← load l; _ ← sl_chain_remove; _ ← sl_unlock irq; mret (pData h)
    end) c1 = Done r c' → (RPtr <$> sl_chain_get) c = Done (RPtr r) c').
  { intros r c' H. apply fmap_done. unfold sl_chain_get. rewrite (bind_sl_lock irq) by done.
    rewrite bind_gets in *. simpl in *. destruct (init_flag c =? 0); [done|].
    by mstep (first_holder_done _ _ Hr1). }
  rewrite bind_gets in Hrun. simpl in Hrun. rewrite Hal in Hrun. destruct (alive q) eqn:Ea; simpl in Hrun.
  - destruct ls as [|[x d] ls]; simpl in *.
    + eexists _, c, _. split; [apply Hrun; sl_unchanged Hl|]. split; [done|].
      split; simpl; try done. exists []. by split_and!.
    + destruct (cseg_mid _ _ _ _ [] _ (rep_seg _ _ Hr)) as (Hx & _). eexists _, _, _. split; [apply Hrun|split; [done|]].
      * mstep (load_done c1 x _ Hx). unfold sl_chain_remove. mstep (remove_first_done _ _ _ _ Hr1).
        rewrite bind_sl_unlock. done.
      * split; simpl; try done. exists ls. split_and!; [|done|by apply (owned_sub _ [] x d)].
        apply set_clock_rep. by apply (unlink_free_rep c1 [] x d ls).
  - eexists _, c, q. split; [apply Hrun; sl_unchanged Hl|done].
Qed.

Lemma sl_get_top_refines irq c q : sl_refines irq c q → ∃ r,
  (RPtr <$> sl_chain_get_top) c = Done r c ∧ fifo_step true GetTop q = (r, q).
Proof.
  intros [(ls & Hr & Hls & Ho) Hpk Hal Hob Hl]. simpl. eexists. split; [apply fmap_done|done].
  set (c1 := set_clock (Spin true false) c). assert (Hr1 : chain_rep c1 ls) by (by apply set_clock_rep).
  unfold sl_chain_get_top. rewrite (bind_sl_lock irq) by done. msimpl. simpl. rewrite Hal.
  destruct (alive q); simpl; [|sl_unchanged Hl]. fold c1. mstep (first_holder_done _ _ Hr1). rewrite <-Hls.
  destruct ls as [|[x d] ls]; simpl; [sl_unchanged Hl|].
  destruct (cseg_mid _ _ _ _ [] _ (rep_seg _ _ Hr)) as (Hx & _). mstep (load_done c1 x _ Hx). sl_unchanged Hl.
Qed.

Lemma sl_remove_refines irq c q i f : sl_refines irq c q → ∃ r c' q',
  (RPtr <$> sl_chain_remove_by_ident i f) c = Done r c' ∧
  fifo_step true (RemoveByIdent i f) q = (r, q') ∧ sl_refines irq c' q'.
Proof.
  intros Href. assert (Href0 := Href). destruct Href as [(ls & Hr & Hls & Ho) Hpk Hal Hob Hl].
  set (c1 := set_clock (Spin true false) c). assert (Hr1 : chain_rep c1 ls) by (by apply set_clock_rep).
  assert (Hf := chain_rep_fuel c1 ls Hr1).
  assert (Hrun : ∀ r c', (if init_flag c =? 0 then _ ← sl_unlock irq; mret None
    else match head ls.*1, f with
    | None, _ => _ ← sl_unlock irq; mret None
    | _, None => _ ← sl_unlock irq; mret None
    | Some _, Some f =>
        match fst <$> first_match (λ d, f (objs c) d i) ls with
        | None => _ ← sl_unlock irq; mret None
        | Some l => h ← load l; _ ← unlink_free l; _ ← sl_unlock irq; mret (pData h)
        end
    end) c1 = Done r c' → (RPtr <$> sl_chain_remove_by_ident i f) c = Done (RPtr r) c').
  { intros r c' H. apply fmap_done. unfold sl_chain_remove_by_ident. rewrite (bind_sl_lock irq) by done. fold c1.
    mstep (first_holder_done _ _ Hr1). rewrite bind_gets. simpl. destruct (init_flag c =? 0); [done|].
    destruct (head ls.*1) eqn:E; [|done]. destruct f as [f|]; [|done]. rewrite bind_gets, <-E.
    by mstep (search_done c1 (base c) ls (walk_fuel c1) (λ os d, f os d i) (rep_seg _ _ Hr1) ltac:(lia)). }
  unfold fifo_step, fifo_take, first_data. rewrite <-Hls, <-Hob. rewrite Hal in Hrun.
  destruct (alive q) eqn:Ea; simpl in Hrun; cycle 1.
  { eexists _, c, q. split; [apply Hrun; sl_unchanged Hl|]. by destruct f. }
  destruct f as [f|]; cycle 1.
  { eexists _, c, q. split; [apply Hrun; destruct (head ls.*1); sl_unchanged Hl|done]. }
  destruct (head ls.*1) eqn:E; cycle 1.
  { apply head_locs_None in E as ->. eexists _, c, _. split; [apply Hrun; sl_unchanged Hl|]. split; [done|].
    split; simpl; try done. exists []. by split_and!. }
  rewrite <-first_match_data. destruct (first_match _ ls) as [[x d]|] eqn:Em; simpl in Hrun |- *.
  - destruct (first_match_split _ _ _ _ Em) as (ls1 & ls2 & -> & Hd & Hall).
    destruct (cseg_mid _ _ _ _ _ _ (rep_seg _ _ Hr)) as (Hx & _).
    eexists _, _, _. split; [apply Hrun|split; [done|]].
    + mstep (load_done c1 _ _ Hx). mstep (unlink_free_done c1 _ _ _ _ Hr1). rewrite bind_sl_unlock. done.
    + split; simpl; try done. exists (ls1 ++ ls2). split_and!.
      * apply set_clock_rep. by apply (unlink_free_rep c1 ls1 x d ls2).
      * by rewrite (first_match_drop _ ls1 x d ls2).
      * by apply (owned_sub _ _ x d).
  - eexists _, c, _. split; [apply Hrun; sl_unchanged Hl|]. split; [done|].
    split; simpl; try done. exists ls. by rewrite (first_match_none _ ls Em).
Qed.

Lemma sl_get_by_refines irq c q i j f : sl_refines irq c q → ∃ r,
  (RPtr <$> sl_chain_get_by_double_ident i j f) c = Done r c ∧
  fifo_step true (GetByDoubleIdent i j f) q = (r, q).
Proof.
  intros [(ls & Hr & Hls & Ho) Hpk Hal Hob Hl]. simpl. eexists. split; [apply fmap_done|done].
  unfold sl_chain_get_by_double_ident. mstep (first_holder_done _ _ Hr). unfold first_data. rewrite <-Hls, <-Hob.
  destruct f as [f|]; [|by destruct (head ls.*1)].
  destruct (head ls.*1) as [x|] eqn:E; [|by rewrite (head_locs_None ls E)]. msimpl. rewrite <-E.
  assert (Hf := chain_rep_fuel c ls Hr).
  mstep (search_done c (base c) ls (walk_fuel c) (λ os d, f os d i j) (rep_seg _ _ Hr) ltac:(lia)).
  rewrite <-first_match_data. destruct (first_match _ ls) as [[y d]|] eqn:Em; simpl; [|done].
  apply first_match_in, list_elem_of_split in Em as (ls1 & ls2 & ->).
  destruct (cseg_mid _ _ _ _ _ _ (rep_seg _ _ Hr)) as (Hx & _). by mstep (load_done c _ _ Hx).
Qed.

Lemma sl_size_refines irq c q : sl_refines irq c q →
  (RInt <$> sl_chain_size) c = Done (RInt (Z.of_nat (length (items q)))) c ∧
  (RInt <$> sl_chain_peak_size) c = Done (RInt (peak q)) c.
Proof.
  intros [(ls & Hr & Hls & Ho) Hpk Hal Hob Hl]. rewrite <-Hls, <-Hpk, length_fmap, <-(rep_size _ _ Hr).
  split; apply fmap_done; [unfold sl_chain_size|unfold sl_chain_peak_size];
    rewrite (bind_sl_lock irq) by done; msimpl; sl_unchanged Hl.
Qed.

Lemma sl_release_refines irq c q : sl_refines irq c q → ∃ r c' q',
  (RInt <$> sl_chain_release) c = Done r c' ∧ fifo_step true Release q = (r, q') ∧ sl_refines irq c' q'.
Proof.
  intros [(ls & Hr & Hls & Ho) Hpk Hal Hob Hl].
  set (c1 := set_clock (Spin true false) c). assert (Hr1 : chain_rep c1 ls) by (by apply set_clock_rep).
  destruct (remove_all_done c1 ls (walk_fuel c1) Hr1 Ho) as (c' & Hrun & Hr' & Hob' & Hb & Hp & Hi & Hcl & _).
  { assert (Hf := chain_rep_fuel c1 ls Hr1). lia. }
  simpl in Hob', Hp, Hcl. eexists _, _, _. split; [apply fmap_done|split; [done|]].
  - unfold sl_chain_release. rewrite (bind_sl_lock irq) by done. unfold sl_chain_remove_all at 1.
    erewrite bind_done; [|rewrite bind_gets; exact Hrun]. msimpl. rewrite bind_sl_unlock. done.
  - split; simpl; [|congruence|done| |done].
    + exists []. split_and!; [by apply set_clock_rep, set_init_rep|done|]. split; [constructor|set_solver].
    + by rewrite Hob', freed_items, Hls, Hob.
Qed.

Lemma sl_exec_refines irq c q (o : sl_op A) :
  sl_refines irq c q → op_pre (op_of o) q →
  ∃ room r c' q', sl_exec kmalloc o c = Done r c' ∧ fifo_step room (op_of o) q = (r, q') ∧
    sl_refines irq c' q'.
Proof.
  intros Href Hpre. destruct o; simpl sl_exec; simpl op_of in *.
  - by apply sl_put_refines.
  - exists true. by apply sl_get_refines.
  - destruct (sl_get_top_refines irq c q Href) as (r & ? & ?). exists true, r, c, q. done.
  - exists true. by apply sl_remove_refines.
  - destruct (sl_get_by_refines irq c q i j f Href) as (r & ? & ?). exists true, r, c, q. done.
  - exists true, (RInt (Z.of_nat (length (items q)))), c, q. split; [by eapply sl_size_refines|done].
  - exists true, (RInt (peak q)), c, q. split; [by eapply sl_size_refines|done].
  - exists true. by apply sl_release_refines.
Qed.

(** C2: a spinlock chain is the same queue.  [sl_chain_init] makes
    it an empty one.  Each call in a state that represents [q] returns what the
    queue returns, with no fault and no spinning on a lock it holds itself, and
    after it the lock is free and the interrupts are on or off as they were
    before. *)
Theorem sl_chain_behaves_as_fifo :
  (∀ c0, is_Some (holders c0 !! base c0) → ∃ c, sl_chain_init (A := A) c0 = Done 0 c ∧
     sl_refines (irqs_on (clock c0)) c (Fifo [] 0 true (objs c0))) ∧
  (∀ irq c q o, sl_refines irq c q → op_pre (op_of o) q →
     ∃ room r c' q', sl_exec kmalloc o c = Done r c' ∧ fifo_step room (op_of o) q = (r, q') ∧
       sl_refines irq c' q').
Proof. split; [apply sl_chain_init_refines|apply sl_exec_refines]. Qed.

End sl_proofs.

(** ** A concrete spinlock chain, interrupts on *)
Definition raw_sl_chain : chain spin Z :=
  Chain 1%positive 77 (-5) 0 (Spin true true) {[ 1%positive := Holder None None (Some 9%positive) ]}
    {[ 100%positive := 7 ]}.
Definition ex_sl_chain : chain spin Z :=
  match sl_chain_init raw_sl_chain with Done _ c => c | _ => raw_sl_chain end.

Lemma sl_chain_behaves_as_fifo_witness :
  ∃ room r c' q', sl_exec (bump_alloc 10) (SlPut (Some 100%positive)) ex_sl_chain = Done r c' ∧
    fifo_step room (Put (Some 100%positive)) (Fifo [] 0 true (objs raw_sl_chain)) = (r, q') ∧
    sl_refines true c' q'.
Proof.
  destruct (sl_chain_behaves_as_fifo (A := Z) (bump_alloc 10) (bump_alloc_fresh 10)) as [Hinit Hcall].
  apply (Hcall true ex_sl_chain (Fifo [] 0 true (objs raw_sl_chain)) (SlPut (Some 100%positive))).
  - destruct (Hinit raw_sl_chain) as (c & Hc & Href); [by eexists|].
    unfold ex_sl_chain. rewrite Hc. exact Href.
  - split; [vm_compute; reflexivity|]. intros l [= <-]. split; [by eexists|set_solver].
Defined.
