(* ===== verification/GenIntrDrv.v ===== *)
(** * genintrdrv.c: the generic interrupt driver

    The module of [src/sources/kmods/genintrdrv/kmod/genintrdrv.c] and the
    structs of [src/sources/kmods/genintrdrv/include/linux/genintrdrv.h]: user
    processes subscribe through sysfs for an interrupt number, a signal and a
    pid; an interrupt, real or simulated through sysfs, sends the signal to the
    subscribers.  The subscribers and the interrupts to serve are two chains in
    one kernel heap. *)

From stdpp Require Import base list gmap strings.
From Stdlib Require Import ZArith Lia Ascii.
From S2P Require Import Prelude KString ChainHeap Chain.

(** ** Data *)
Record GENINTDRV_SIGINFO := SigInfo { intr : Z; sig : Z; pid : Z; active : Z }.
Record GENINTDRV_IRQINFO := IrqInfo { irqnum : Z; irqsts : Z }.

#[global] Instance siginfo_eq_dec : EqDecision GENINTDRV_SIGINFO.
Proof. solve_decision. Defined.
#[global] Instance irqinfo_eq_dec : EqDecision GENINTDRV_IRQINFO.
Proof. solve_decision. Defined.

(** A signal that was sent: number, receiver, the integer it carries. *)
Record signal := Signal { si_signo : Z; si_pid : Z; si_int : Z }.

(** The variables of the module, the heap its two chains live in, the signals
    it sent, whether the tasklet is scheduled, and what it has registered with
    the kernel.  The [holders] of the two chains are the cells of [heap]. *)
Record drv := Drv {
  debuglogflag : Z;
  interruptflag : Z;
  sigcounter : Z;
  intcounter : Z;
  bhcounter : Z;
  SigList : GENINTDRV_SIGINFO;
  SubscribersList : chain Z GENINTDRV_SIGINFO;
  IRQList : chain Z GENINTDRV_IRQINFO;
  heap : gmap loc chain_holder;
  signals : list signal;
  which_interrupt : Z;
  irq_lock : bool;
  irq_tasklet : bool;
  misc_registered : bool;
  sysfs_kobj : bool
}.

Definition upd_debuglogflag f d := Drv (f (debuglogflag d)) (interruptflag d) (sigcounter d) (intcounter d) (bhcounter d) (SigList d) (SubscribersList d) (IRQList d) (heap d) (signals d) (which_interrupt d) (irq_lock d) (irq_tasklet d) (misc_registered d) (sysfs_kobj d).
Definition upd_interruptflag f d := Drv (debuglogflag d) (f (interruptflag d)) (sigcounter d) (intcounter d) (bhcounter d) (SigList d) (SubscribersList d) (IRQList d) (heap d) (signals d) (which_interrupt d) (irq_lock d) (irq_tasklet d) (misc_registered d) (sysfs_kobj d).
Definition upd_sigcounter f d := Drv (debuglogflag d) (interruptflag d) (f (sigcounter d)) (intcounter d) (bhcounter d) (SigList d) (SubscribersList d) (IRQList d) (heap d) (signals d) (which_interrupt d) (irq_lock d) (irq_tasklet d) (misc_registered d) (sysfs_kobj d).
Definition upd_intcounter f d := Drv (debuglogflag d) (interruptflag d) (sigcounter d) (f (intcounter d)) (bhcounter d) (SigList d) (SubscribersList d) (IRQList d) (heap d) (signals d) (which_interrupt d) (irq_lock d) (irq_tasklet d) (misc_registered d) (sysfs_kobj d).
Definition upd_bhcounter f d := Drv (debuglogflag d) (interruptflag d) (sigcounter d) (intcounter d) (f (bhcounter d)) (SigList d) (SubscribersList d) (IRQList d) (heap d) (signals d) (which_interrupt d) (irq_lock d) (irq_tasklet d) (misc_registered d) (sysfs_kobj d).
Definition upd_SigList f d := Drv (debuglogflag d) (interruptflag d) (sigcounter d) (intcounter d) (bhcounter d) (f (SigList d)) (SubscribersList d) (IRQList d) (heap d) (signals d) (which_interrupt d) (irq_lock d) (irq_tasklet d) (misc_registered d) (sysfs_kobj d).
Definition set_sub (c : chain Z GENINTDRV_SIGINFO) d := Drv (debuglogflag d) (interruptflag d) (sigcounter d) (intcounter d) (bhcounter d) (SigList d) (set_holders ∅ c) (IRQList d) (holders c) (signals d) (which_interrupt d) (irq_lock d) (irq_tasklet d) (misc_registered d) (sysfs_kobj d).
Definition set_irq (c : chain Z GENINTDRV_IRQINFO) d := Drv (debuglogflag d) (interruptflag d) (sigcounter d) (intcounter d) (bhcounter d) (SigList d) (SubscribersList d) (set_holders ∅ c) (holders c) (signals d) (which_interrupt d) (irq_lock d) (irq_tasklet d) (misc_registered d) (sysfs_kobj d).
Definition upd_signals f d := Drv (debuglogflag d) (interruptflag d) (sigcounter d) (intcounter d) (bhcounter d) (SigList d) (SubscribersList d) (IRQList d) (heap d) (f (signals d)) (which_interrupt d) (irq_lock d) (irq_tasklet d) (misc_registered d) (sysfs_kobj d).
Definition set_which_interrupt z d := Drv (debuglogflag d) (interruptflag d) (sigcounter d) (intcounter d) (bhcounter d) (SigList d) (SubscribersList d) (IRQList d) (heap d) (signals d) z (irq_lock d) (irq_tasklet d) (misc_registered d) (sysfs_kobj d).
Definition set_irq_lock b d := Drv (debuglogflag d) (interruptflag d) (sigcounter d) (intcounter d) (bhcounter d) (SigList d) (SubscribersList d) (IRQList d) (heap d) (signals d) (which_interrupt d) b (irq_tasklet d) (misc_registered d) (sysfs_kobj d).
Definition set_irq_tasklet b d := Drv (debuglogflag d) (interruptflag d) (sigcounter d) (intcounter d) (bhcounter d) (SigList d) (SubscribersList d) (IRQList d) (heap d) (signals d) (which_interrupt d) (irq_lock d) b (misc_registered d) (sysfs_kobj d).
Definition set_misc b d := Drv (debuglogflag d) (interruptflag d) (sigcounter d) (intcounter d) (bhcounter d) (SigList d) (SubscribersList d) (IRQList d) (heap d) (signals d) (which_interrupt d) (irq_lock d) (irq_tasklet d) b (sysfs_kobj d).
Definition set_kobj b d := Drv (debuglogflag d) (interruptflag d) (sigcounter d) (intcounter d) (bhcounter d) (SigList d) (SubscribersList d) (IRQList d) (heap d) (signals d) (which_interrupt d) (irq_lock d) (irq_tasklet d) (misc_registered d) b.

(** The chains with the heap they live in. *)
Definition sub_chain (d : drv) : chain Z GENINTDRV_SIGINFO := set_holders (heap d) (SubscribersList d).
Definition irq_chain (d : drv) : chain Z GENINTDRV_IRQINFO := set_holders (heap d) (IRQList d).
Definition on_sub {A} (c : M (chain Z GENINTDRV_SIGINFO) A) : M drv A := zoom sub_chain set_sub c.
Definition on_irq {A} (c : M (chain Z GENINTDRV_IRQINFO) A) : M drv A := zoom irq_chain set_irq c.

(** The return codes of the kernel that the module uses. *)
Definition ENOMEM : Z := 12.
Definition EINVAL : Z := 22.
Definition PAGE_SIZE : Z := 4096.

(** [_IOW('t', 1, genintrdrv_ioctl_inc_t)]: write direction, four bytes of
    payload, type ['t'] (0x74), number 1. *)
Definition GENINTRDRV_IOCTL_INCREMENT : Z :=
  Z.lor (Z.shiftl 1 30) (Z.lor (Z.shiftl 4 16) (Z.lor (Z.shiftl 0x74 8) 1)).

(** ** Chains of entries

    The code that the subscriber list and the interrupt list share. *)
Section entries.
Context {A : Type}.
Variable kmalloc : gfp → gmap loc chain_holder → option (loc * chain_holder).
(** [kmalloc] of an entry: its address and the bytes that were there. *)
Variable kmalloc_entry : gmap loc A → option (loc * A).
Variable chain_size_addr : Z.

Definition load_entry (l : loc) : M (chain Z A) A := os ← gets objs; of_opt (os !! l).
Definition store_entry (l : loc) (f : A → A) : M (chain Z A) unit :=
  _ ← load_entry l; modify (λ c, set_objs (alter f l (objs c)) c).

(** [kmalloc] a copy of an entry and [chain_put] it. *)
Definition add_to_list (copy : A → A) : M (chain Z A) Z :=
  os ← gets objs;
  match kmalloc_entry os with
  | None => mret (-1)
  | Some (pEntry, garbage) =>
      _ ← modify (λ c, set_objs (<[pEntry := garbage]> (objs c)) c);
      _ ← store_entry pEntry copy;
      r ← chain_put kmalloc (Some pEntry);
      if negb (r =? 0) then
        _ ← kfree_data (Some pEntry);
        mret (-1)
      else mret 0
  end.

(** [while(i<size) { pEntry=chain_get_by_index(pChain,i); ... i++; }] of the two
    searches for a duplicate. *)
Fixpoint duplicate_loop (same : A → bool) (n : nat) (i : Z) : M (chain Z A) Z :=
  match n with
  | O => _ ← chain_unlock; mret (-1)
  | S n =>
      p ← chain_get_by_index chain_size_addr i;
      match p with
      | None => _ ← chain_unlock; mret (-1)
      | Some pEntry =>
          e ← load_entry pEntry;
          if same e then _ ← chain_unlock; mret 0 else duplicate_loop same n (i + 1)
      end
  end.
Definition find_duplicate (same : A → bool) : M (chain Z A) Z :=
  size ← chain_size;
  _ ← chain_lock;
  duplicate_loop same (Z.to_nat size) 0.

End entries.

(** ** The functions of the module *)
Section code.
Variable kmalloc : gfp → gmap loc chain_holder → option (loc * chain_holder).
Variable kmalloc_sig : gmap loc GENINTDRV_SIGINFO → option (loc * GENINTDRV_SIGINFO).
Variable kmalloc_irq : gmap loc GENINTDRV_IRQINFO → option (loc * GENINTDRV_IRQINFO).
Variable chain_size_addr : Z.

Definition genintrdrv_open : M drv Z := mret 0.
Definition genintrdrv_close : M drv Z := mret 0.

(** [_IOC_SIZE]: bits 16 to 29 of the command. *)
Definition IOC_SIZE (ioctl_num : Z) : Z := Z.land (Z.shiftr ioctl_num 16) 0x3fff.
(** [sizeof(genintrdrv_ioctl_param_union)]: one [int]. *)
Definition sizeof_param_union : Z := 4.
(** [user_ok n]: the [n] bytes at [ioctl_param] can be read.  The copy is into
    the local [local_param], so more than its size overwrites the stack. *)
Definition genintrdrv_ioctl (user_ok : Z → bool) (ioctl_num : Z) : M drv Z :=
  if negb (user_ok (IOC_SIZE ioctl_num)) then mret (- ENOMEM)
  else if sizeof_param_union <? IOC_SIZE ioctl_num then oops
  else if ioctl_num =? GENINTRDRV_IOCTL_INCREMENT then mret 0
  else mret (- EINVAL).

Definition add_subscriber_to_list (pNewEntry : GENINTDRV_SIGINFO) : M (chain Z GENINTDRV_SIGINFO) Z :=
  add_to_list kmalloc kmalloc_sig
    (λ _, SigInfo (intr pNewEntry) (sig pNewEntry) (pid pNewEntry) (active pNewEntry)).

Definition same_active (i s p : Z) (e : GENINTDRV_SIGINFO) : bool :=
  (intr e =? i) && (sig e =? s) && (pid e =? p) && (active e =? 1).
Definition find_duplicate_entry (i s p : Z) : M (chain Z GENINTDRV_SIGINFO) Z :=
  find_duplicate chain_size_addr (same_active i s p).

(** [alive pid]: whether [pid_task(find_vpid(pid),PIDTYPE_PID)] finds a task.
    The counter is always the module's [sigcounter]. *)
Definition send_signal_to_process (alive : Z → bool) (i s p : Z) : M drv Z :=
  if negb (alive p) then mret (-1)
  else
    _ ← modify (upd_signals (λ l, l ++ [Signal s p i]));
    _ ← modify (upd_sigcounter (λ z, int32 (z + 1)));
    mret 0.

Definition deactivate (e : GENINTDRV_SIGINFO) : GENINTDRV_SIGINFO :=
  SigInfo (intr e) (sig e) (pid e) 0.

(** One round of the loop in [send_signal_to_subscribers]. *)
Definition send_round (alive : Z → bool) (interrupt : Z) (i : Z) : M drv unit :=
  p ← on_sub (chain_get_by_index chain_size_addr i);
  match p with
  | None => mret ()
  | Some pEntry =>
      e ← on_sub (load_entry pEntry);
      if (intr e =? interrupt) && (active e =? 1) then
        r ← send_signal_to_process alive (intr e) (sig e) (pid e);
        if negb (r =? 0) then on_sub (store_entry pEntry deactivate) else mret ()
      else mret ()
  end.
Fixpoint send_loop (alive : Z → bool) (interrupt : Z) (n : nat) (i : Z) : M drv unit :=
  match n with
  | O => mret ()
  | S n => _ ← send_round alive interrupt i; send_loop alive interrupt n (i + 1)
  end.
Definition send_signal_to_subscribers (alive : Z → bool) (interrupt : Z) : M drv unit :=
  size ← on_sub chain_size;
  _ ← on_sub chain_lock;
  _ ← send_loop alive interrupt (Z.to_nat size) 0;
  on_sub chain_unlock.

(** The sysfs handlers.  A [show] yields the text in [buf], one page, and
    returns its length; a [store] reads the text in [buf] and returns [count]. *)
Definition LF : string := String (ascii_of_nat 10) "".
Definition scan1 (buf : string) (old : Z) : Z :=
  match scan_d buf with Some (v, _) => v | None => old end.

Definition debuglogflag_show : M drv string := v ← gets debuglogflag; mret (fmt_d v +:+ LF).
Definition debuglogflag_store (buf : string) (count : Z) : M drv Z :=
  _ ← modify (upd_debuglogflag (scan1 buf)); mret count.
Definition interruptflag_show : M drv string := v ← gets interruptflag; mret (fmt_d v +:+ LF).
Definition interruptflag_store (alive : Z → bool) (buf : string) (count : Z) : M drv Z :=
  _ ← modify (upd_interruptflag (scan1 buf));
  v ← gets interruptflag;
  _ ← send_signal_to_subscribers alive v;
  mret count.

Definition entry_line (e : GENINTDRV_SIGINFO) : string :=
  fmt_d (intr e) +:+ "," +:+ fmt_d (sig e) +:+ "," +:+ fmt_d (pid e) +:+ LF.
(** [strcat(buf,mybuf)]: the text and its final NUL must fit in the page. *)
Definition strcat_page (buf mybuf : string) : M drv string :=
  if PAGE_SIZE <? Z.of_nat (String.length buf + String.length mybuf) + 1 then oops
  else mret (buf +:+ mybuf).
Fixpoint show_loop (n : nat) (i : Z) (buf : string) : M drv string :=
  match n with
  | O => mret buf
  | S n =>
      p ← on_sub (chain_get_by_index chain_size_addr i);
      buf ← match p with
            | None => mret buf
            | Some pEntry =>
                e ← on_sub (load_entry pEntry);
                if active e =? 1 then strcat_page buf (entry_line e) else mret buf
            end;
      show_loop n (i + 1) buf
  end.
Definition intrsubscribe_show : M drv string :=
  size ← on_sub chain_size;
  _ ← on_sub chain_lock;
  buf ← show_loop (Z.to_nat size) 0 "";
  _ ← on_sub chain_unlock;
  mret buf.

(** [sscanf(buf, "%d,%d,%d", &SigList.intr,&SigList.sig,&SigList.pid)]: the
    fields in front of what cannot be read are assigned. *)
Definition scan_siglist (buf : string) (e : GENINTDRV_SIGINFO) : GENINTDRV_SIGINFO :=
  match scan_d buf with
  | None => e
  | Some (i, r) =>
      let e := SigInfo i (sig e) (pid e) (active e) in
      match scan_comma r ≫= scan_d with
      | None => e
      | Some (s, r) =>
          let e := SigInfo (intr e) s (pid e) (active e) in
          match scan_comma r ≫= scan_d with
          | None => e
          | Some (p, _) => SigInfo (intr e) (sig e) p (active e)
          end
      end
  end.
Definition activate (e : GENINTDRV_SIGINFO) : GENINTDRV_SIGINFO :=
  SigInfo (intr e) (sig e) (pid e) 1.
Definition intrsubscribe_store (buf : string) (count : Z) : M drv Z :=
  _ ← modify (upd_SigList (scan_siglist buf));
  e ← gets SigList;
  r ← on_sub (find_duplicate_entry (intr e) (sig e) (pid e));
  _ ← (if negb (r =? 0) then
         _ ← modify (upd_SigList activate);
         e ← gets SigList;
         _ ← on_sub (add_subscriber_to_list e);
         mret ()
       else mret ());
  mret count.

Definition sigcount_show : M drv string :=
  s ← gets sigcounter; i ← gets intcounter; b ← gets bhcounter;
  mret ("sigcount=" +:+ fmt_d s +:+ " intrcount=" +:+ fmt_d i +:+ " bhcount=" +:+ fmt_d b +:+ LF).
Definition sigcount_store (buf : string) (count : Z) : M drv Z :=
  _ ← modify (upd_sigcounter (scan1 buf)); mret count.
Definition activeirq_show : M drv string := mret ("none" +:+ LF).
Definition activeirq_store (buf : string) (count : Z) : M drv Z := mret count.

(** [spin_lock] on the module's [irq_lock]: on one processor a lock that is
    taken stays taken while the caller spins. *)
Definition spin_lock_irq : M drv unit :=
  b ← gets irq_lock; if (b : bool) then blocked else modify (set_irq_lock true).
Definition spin_unlock_irq : M drv unit := modify (set_irq_lock false).

Definition irq_tasklet_bh (alive : Z → bool) : M drv unit :=
  _ ← modify (upd_bhcounter (λ z, int32 (z + 1)));
  _ ← spin_lock_irq;
  w ← gets which_interrupt;
  _ ← send_signal_to_subscribers alive w;
  spin_unlock_irq.

Definition IRQ_HANDLED : Z := 1.
Definition irq_handler (irq : Z) : M drv Z :=
  _ ← modify (upd_intcounter (λ z, int32 (z + 1)));
  _ ← spin_lock_irq;
  _ ← modify (set_which_interrupt irq);
  _ ← spin_unlock_irq;
  _ ← modify (set_irq_tasklet true);
  mret IRQ_HANDLED.

Definition find_duplicate_irq_entry (irq : Z) : M (chain Z GENINTDRV_IRQINFO) Z :=
  find_duplicate chain_size_addr (λ e, irqnum e =? irq).
Definition add_irq_to_list (pNewEntry : GENINTDRV_IRQINFO) : M (chain Z GENINTDRV_IRQINFO) Z :=
  add_to_list kmalloc kmalloc_irq (λ _, IrqInfo (irqnum pNewEntry) (irqsts pNewEntry)).

(** The loop of [scan_cmdline_irqlist]; [n] is how many more rounds the guard
    [if(maxcount++>1023)break;] lets pass. *)
Fixpoint scan_irq_loop (n : nat) (token : string) : M (chain Z GENINTDRV_IRQINFO) unit :=
  let intrnum := int32 (simple_strtol token).1 in
  r ← find_duplicate_irq_entry intrnum;
  _ ← (if negb (r =? 0) then _ ← add_irq_to_list (IrqInfo intrnum 0); mret () else mret ());
  match strsep_comma token, n with
  | Some token, S n => scan_irq_loop n token
  | _, _ => mret ()
  end.
Definition scan_cmdline_irqlist (str : string) : M (chain Z GENINTDRV_IRQINFO) Z :=
  _ ← scan_irq_loop 1024 str; mret 0.

Definition register_irqlist : M drv Z := mret 0.
Definition free_irqlist : M drv Z := mret 0.

(** What the kernel answers the module when it is inserted. *)
Record kernel := Kernel {
  misc_register : Z;
  kobject_create_and_add : bool;
  create_debuglog : Z; create_interrupt : Z; create_subscribe : Z; create_sigcount : Z
}.
Definition genintrdrv_init (k : kernel) (intrlist : string) : M drv Z :=
  if misc_register k <? 0 then mret (misc_register k)
  else
    _ ← modify (set_misc true);
    if negb (kobject_create_and_add k) then mret (- ENOMEM)
    else
      _ ← modify (set_kobj true);
      _ ← on_sub chain_init;
      _ ← on_irq chain_init;
      _ ← on_irq (scan_cmdline_irqlist intrlist);
      _ ← register_irqlist;
      mret (create_sigcount k).
Definition genintrdrv_exit : M drv unit :=
  _ ← free_irqlist;
  _ ← modify (set_kobj false);
  _ ← modify (set_misc false);
  _ ← on_irq chain_release;
  _ ← on_sub chain_release;
  mret ().

(** Every way into the module; the pids alive at the time of the call come
    with the calls that send signals. *)
Inductive call :=
| Open | Close | Ioctl (user_ok : Z → bool) (ioctl_num : Z)
| DebuglogShow | DebuglogStore (buf : string)
| InterruptShow | InterruptStore (alive : Z → bool) (buf : string)
| SubscribeShow | SubscribeStore (buf : string)
| SigcountShow | SigcountStore (buf : string)
| ActiveirqShow | ActiveirqStore (buf : string)
| Irq (irq : Z) | Tasklet (alive : Z → bool).

Definition dispatch (c : call) : M drv Z :=
  match c with
  | Open => genintrdrv_open
  | Close => genintrdrv_close
  | Ioctl ok n => genintrdrv_ioctl ok n
  | DebuglogShow => strlen <$> debuglogflag_show
  | DebuglogStore buf => debuglogflag_store buf (strlen buf)
  | InterruptShow => strlen <$> interruptflag_show
  | InterruptStore alive buf => interruptflag_store alive buf (strlen buf)
  | SubscribeShow => strlen <$> intrsubscribe_show
  | SubscribeStore buf => intrsubscribe_store buf (strlen buf)
  | SigcountShow => strlen <$> sigcount_show
  | SigcountStore buf => sigcount_store buf (strlen buf)
  | ActiveirqShow => strlen <$> activeirq_show
  | ActiveirqStore buf => activeirq_store buf (strlen buf)
  | Irq irq => irq_handler irq
  | Tasklet alive =>
      b ← gets irq_tasklet;
      if (b : bool) then
        _ ← modify (set_irq_tasklet false);
        _ ← irq_tasklet_bh alive;
        mret 0
      else mret 0
  end.

End code.

(** ** Chains that hold entries

    [lists c ls es]: the chain [c] is well-formed, in use, and the objects
    behind its holders [ls] are the entries [es], in that order. *)
Record lists {A} (c : chain Z A) (ls : list (loc * ptr)) (es : list A) : Prop := Lists {
  lists_rep : chain_rep c ls;
  lists_owned : owned (objs c) ls;
  lists_init : init_flag c = 1;
  lists_entries : Forall2 (λ (p : loc * ptr) e, ∃ l, p.2 = Some l ∧ objs c !! l = Some e) ls es
}.

Section entries_proofs.
Context {A : Type}.
Variable kmalloc : gfp → gmap loc chain_holder → option (loc * chain_holder).
Variable kmalloc_entry : gmap loc A → option (loc * A).
Variable chain_size_addr : Z.
Implicit Types (c : chain Z A) (ls : list (loc * ptr)) (es : list A).

Lemma lists_length c ls es : lists c ls es → length ls = length es.
Proof. intros H. exact (Forall2_length _ _ _ (lists_entries _ _ _ H)). Qed.

Lemma lists_bound c ls es : lists c ls es → Z.of_nat (length es) ≤ INT_MAX.
Proof. intros H. rewrite <-(lists_length c ls es H). destruct (rep_peak _ _ (lists_rep _ _ _ H)). lia. Qed.

Lemma lists_clock c ls es k : lists c ls es → lists (set_clock k c) ls es.
Proof. intros []; split; try done. by apply set_clock_rep. Qed.

(** Entries survive what happens elsewhere in the heap. *)
Lemma lists_frame c ls es fp h : lists c ls es → unchanged fp (holders c) h →
  (∀ x, x ∈ base c :: ls.*1 → x ∉ fp) → lists (set_holders h c) ls es.
Proof.
  intros [[] ? ? ?] Hu Hd. split; try done. split; try done. by apply (cseg_unchanged (holders c) _ _ _ fp).
Qed.

Lemma chain_size_done c ls es : lists c ls es → clock c = 1 →
  chain_size c = Done (Z.of_nat (length es)) c.
Proof.
  intros Hl Hc. unfold chain_size. mstep (down_done c ltac:(lia)). msimpl. rewrite bind_up. simpl.
  rewrite set_clock_back, (rep_size _ _ (lists_rep _ _ _ Hl)). by rewrite (lists_length _ _ _ Hl).
Qed.

Lemma load_entry_done c l e : objs c !! l = Some e → load_entry l c = Done e c.
Proof. intros H. unfold load_entry. msimpl. by rewrite H. Qed.

Lemma store_entry_done c l f e : objs c !! l = Some e →
  store_entry l f c = Done () (set_objs (alter f l (objs c)) c).
Proof. intros H. unfold store_entry. by mstep (load_entry_done c l e H). Qed.

Lemma NoDup_omap_lookup {X Y} (f : X → option Y) (l : list X) i j a b y :
  NoDup (omap f l) → l !! i = Some a → l !! j = Some b → f a = Some y → f b = Some y → i = j.
Proof.
  revert i j. induction l as [|z l IH]; intros i j Hnd Hi Hj Ha Hb; [done|].
  assert (Hin : ∀ k w, l !! k = Some w → f w = Some y → y ∈ omap f l).
  { intros k w Hk Hw. apply list_elem_of_omap. exists w. split; [|done]. by eapply list_elem_of_lookup_2. }
  simpl in Hnd. destruct i as [|i], j as [|j]; simplify_eq/=; [done|..].
  - rewrite Ha in Hnd. apply NoDup_cons in Hnd as [Hn _]. exfalso. by eapply Hn, Hin.
  - rewrite Hb in Hnd. apply NoDup_cons in Hnd as [Hn _]. exfalso. by eapply Hn, Hin.
  - f_equal. apply IH; try done. destruct (f z); [|done]. by apply NoDup_cons in Hnd as [_ ?].
Qed.

(** Replacing one entry. *)
Lemma lists_alter c ls es i x l e f : lists c ls es → ls !! i = Some (x, Some l) → es !! i = Some e →
  lists (set_objs (alter f l (objs c)) c) ls (<[i := f e]> es).
Proof.
  intros [Hr [Hnd Hin] Hi He] Hls Hes. split; simpl; [by apply set_objs_rep| |done|].
  - split; [done|]. intros y Hy. destruct (Hin y Hy) as [v Hv].
    destruct (decide (l = y)) as [->|]; [rewrite lookup_alter_eq, Hv|rewrite lookup_alter_ne by done]; eauto.
  - apply Forall2_same_length_lookup. split; [by rewrite length_insert, (Forall2_length _ _ _ He)|].
    intros j [y d] e' Hj He'. simpl. destruct (decide (i = j)) as [<-|Hne].
    + rewrite list_lookup_insert_eq in He' by (by apply lookup_lt_Some in Hes). injection He' as <-. injection (eq_trans (eq_sym Hls) Hj) as <- <-.
      destruct (Forall2_lookup_lr _ _ _ _ _ _ He Hls Hes) as (l' & [= <-] & Hl').
      exists l. split; [done|]. rewrite lookup_alter_eq, Hl'. done.
    + rewrite list_lookup_insert_ne in He' by done.
      destruct (Forall2_lookup_lr _ _ _ _ _ _ He Hj He') as (l' & Hd & Hl'). simpl in Hd. subst d.
      exists l'. split; [done|]. rewrite lookup_alter_ne; [done|]. intros ->.
      apply Hne. by eapply (NoDup_omap_lookup snd ls).
Qed.

(** Reading the entry at an index. *)
Hypothesis chain_size_high : 2 ^ 31 ≤ chain_size_addr.

Lemma lists_get c ls es i e : lists c ls es → es !! i = Some e →
  ∃ x l, ls !! i = Some (x, Some l) ∧ objs c !! l = Some e ∧
    chain_get_by_index chain_size_addr (Z.of_nat i) c = Done (Some l) c.
Proof.
  intros Hl Hi. assert (Hlt := lookup_lt_Some _ _ _ Hi). assert (Hb := lists_bound c ls es Hl).
  assert (Hlen := lists_length c ls es Hl). destruct Hl as [Hr _ _ He].
  destruct (Forall2_lookup_r _ _ _ _ _ He Hi) as ([x d] & Hx & l & Hd & Hobj). simpl in Hd. subst d.
  exists x, l. split_and!; [done..|].
  rewrite (chain_get_by_index_cases chain_size_addr chain_size_high c ls) by (done || lia).
  rewrite Nat2Z.id.
  destruct (Nat.eqb_spec (length ls) 0); [lia|]. destruct (Z.leb_spec (Z.of_nat i) (Z.of_nat (length ls))); [|lia].
  by rewrite list_lookup_fmap, Hx.
Qed.

Lemma duplicate_loop_done c ls es same n i : lists c ls es → clock c = 0 → (i + n = length es)%nat →
  duplicate_loop chain_size_addr same n (Z.of_nat i) c =
    Done (if existsb same (drop i es) then 0 else -1) (set_clock 1 c).
Proof.
  intros Hl Hc. assert (Hup : ∀ r : Z, (_ ← chain_unlock; mret r) c = Done r (set_clock 1 c)).
  { intros r. unfold chain_unlock. rewrite bind_up, Hc. done. }
  revert i. induction n as [|n IH]; intros i Hn; cbn [duplicate_loop].
  - rewrite drop_ge by lia. apply Hup.
  - destruct (lookup_lt_is_Some_2 es i) as [e He]; [lia|].
    destruct (lists_get c ls es i e Hl He) as (x & l & _ & Hobj & Hrun). mstep Hrun.
    mstep (load_entry_done c l e Hobj). rewrite (drop_S _ _ _ He). simpl.
    destruct (same e); [apply Hup|]. simpl. rewrite <-IH by lia. by rewrite Nat2Z.inj_succ.
Qed.

(** The search returns 0 exactly when there is an entry the test accepts. *)
Lemma find_duplicate_done c ls es same : lists c ls es → clock c = 1 →
  find_duplicate chain_size_addr same c = Done (if existsb same es then 0 else -1) c.
Proof.
  intros Hl Hc. unfold find_duplicate. mstep (chain_size_done c ls es Hl Hc). unfold chain_lock.
  mstep (down_done c ltac:(lia)). rewrite Nat2Z.id.
  rewrite (duplicate_loop_done _ ls es same (length es) 0);
    [|by apply lists_clock|simpl; lia|done]. simpl. rewrite drop_0.
  do 2 f_equal. destruct c. simpl in *. by subst.
Qed.

(** The allocators return unused addresses. *)
Hypothesis kmalloc_fresh : ∀ flags h l g, kmalloc flags h = Some (l, g) → h !! l = None.
Hypothesis entry_fresh : ∀ o l g, kmalloc_entry o = Some (l, g) → o !! l = None.

(** Adding an entry: refused when memory is short, and then nothing changed;
    otherwise it is the new last one. *)
Lemma add_to_list_done c ls es copy e : lists c ls es → clock c = 1 → (∀ g, copy g = e) →
  Z.of_nat (length es) < INT_MAX →
  (add_to_list kmalloc kmalloc_entry copy c = Done (-1) c ∧
     (kmalloc_entry (objs c) = None ∨ kmalloc GFP_KERNEL (holders c) = None)) ∨
  (is_Some (kmalloc_entry (objs c)) ∧ is_Some (kmalloc GFP_KERNEL (holders c)) ∧ ∃ c' x l,
     add_to_list kmalloc kmalloc_entry copy c = Done 0 c' ∧
     lists c' (ls ++ [(x, Some l)]) (es ++ [e]) ∧ base c' = base c ∧ clock c' = clock c ∧
     holders c !! x = None ∧ unchanged (base c :: ls.*1) (holders c) (holders c')).
Proof.
  intros Hl Hc Hcopy Hlt. unfold add_to_list. msimpl.
  destruct (kmalloc_entry (objs c)) as [[p g]|] eqn:Ep; [|left; by eauto].
  assert (Hp := entry_fresh _ _ _ Ep). msimpl.
  set (c1 := set_objs (<[p := g]> (objs c)) c).
  assert (Hobj1 : objs c1 !! p = Some g) by (simpl; apply lookup_insert_eq).
  mstep (store_entry_done c1 p copy g Hobj1).
  set (c2 := set_objs (alter copy p (objs c1)) c1).
  assert (Hobj2 : alter copy p (<[p := g]> (objs c)) = <[p := e]> (objs c)).
  { apply map_eq. intros y. destruct (decide (p = y)) as [->|].
    - by rewrite lookup_alter_eq, !lookup_insert_eq, <-(Hcopy g).
    - by rewrite lookup_alter_ne, !lookup_insert_ne. }
  destruct Hl as [Hr Ho Hi He]. assert (Hr2 : chain_rep c2 ls) by (by do 2 apply set_objs_rep).
  destruct (kmalloc GFP_KERNEL (holders c)) as [[x gh]|] eqn:Ek.
  - right. split; [by eauto|]. split; [by eauto|]. 
    assert (Hput := chain_put_done kmalloc kmalloc_fresh c2 ls (Some p) x gh Hr2
       ltac:(simpl; lia) ltac:(simpl; lia) Ek). mstep Hput. simpl.
    eexists _, x, p. split; [done|]. split_and!; try done.
    + assert (Hnp : ∀ q e', q ∈ ls → q.2 = Some p → objs c !! p = Some e' → False) by congruence.
      split; simpl; [|rewrite Hobj2|done|rewrite Hobj2].
      * apply (add_tail_rep kmalloc kmalloc_fresh c2 ls GFP_KERNEL (Some p) x gh); [done| |done].
        rewrite (Forall2_length _ _ _ He). done.
      * apply owned_snoc.
        -- destruct Ho as [Hnd Hin]. split; [done|]. intros y Hy. destruct (Hin y Hy) as [v Hv].
           rewrite lookup_insert_ne; [eauto|congruence].
        -- intros l [= <-]. split; [rewrite lookup_insert_eq; eauto|].
           intros (q & Hq & Hin)%list_elem_of_fmap. apply list_elem_of_lookup in Hin as [j Hj].
           destruct (Forall2_lookup_l _ _ _ _ _ He Hj) as (v & _ & l & Hl & Hv). congruence.
      * apply Forall2_app; [|constructor; [exists p; by rewrite lookup_insert_eq|constructor]].
        eapply Forall2_impl; [exact He|]. intros q v (l & Hl & Hv). exists l. split; [done|].
        rewrite lookup_insert_ne; [done|congruence].
    + by apply (kmalloc_fresh _ _ _ _ Ek).
    + apply (linked_unchanged kmalloc kmalloc_fresh); [by apply (kmalloc_fresh _ _ _ _ Ek)|apply last_loc_in].
  - left. split; [|by right].
    mstep (chain_put_fails kmalloc c2 (Some p) ltac:(simpl; lia) (or_intror Ek)). cbn [negb Z.eqb].
    erewrite bind_done; [|apply kfree_data_done; intros l [= <-]; simpl; rewrite Hobj2, lookup_insert_eq; eauto].
    simpl. unfold mret, M_ret. f_equal. rewrite Hobj2. unfold set_objs. simpl. destruct c. simpl in *.
    by rewrite delete_insert_id.
Qed.

End entries_proofs.

(** ** The state of the driver *)

(** The subscribers are [subs] and the interrupts to serve [irqs]; the two
    chains share no holder, and nobody holds their semaphores. *)
Record drv_rep (d : drv) (ls1 : list (loc * ptr)) (subs : list GENINTDRV_SIGINFO)
    (ls2 : list (loc * ptr)) (irqs : list GENINTDRV_IRQINFO) : Prop := DrvRep {
  rep_subs : lists (sub_chain d) ls1 subs;
  rep_irqs : lists (irq_chain d) ls2 irqs;
  rep_disj : ∀ x, x ∈ base (SubscribersList d) :: ls1.*1 → x ∉ base (IRQList d) :: ls2.*1;
  rep_sema : clock (SubscribersList d) = 1 ∧ clock (IRQList d) = 1;
  rep_heap : holders (SubscribersList d) = ∅ ∧ holders (IRQList d) = ∅
}.

Definition hits (interrupt : Z) (e : GENINTDRV_SIGINFO) : bool :=
  (intr e =? interrupt) && (active e =? 1).
(** What an interrupt sends, and what it makes of the subscriptions. *)
Definition sent (alive : Z → bool) (interrupt : Z) (subs : list GENINTDRV_SIGINFO) : list signal :=
  (λ e, Signal (sig e) (pid e) (intr e)) <$> filter (λ e, hits interrupt e && alive (pid e) = true) subs.
Definition outlived (alive : Z → bool) (interrupt : Z) (e : GENINTDRV_SIGINFO) : GENINTDRV_SIGINFO :=
  if hits interrupt e && negb (alive (pid e)) then deactivate e else e.

(** The state with other objects behind the subscriber chain, [sg] sent and
    counted. *)
Definition delivered (o : gmap loc GENINTDRV_SIGINFO) (sg : list signal) (d : drv) : drv :=
  Drv (debuglogflag d) (interruptflag d) (Nat.iter (length sg) (λ z, int32 (z + 1)) (sigcounter d))
    (intcounter d) (bhcounter d) (SigList d) (set_holders ∅ (set_objs o (SubscribersList d))) (IRQList d)
    (heap d) (signals d ++ sg) (which_interrupt d) (irq_lock d) (irq_tasklet d) (misc_registered d)
    (sysfs_kobj d).

Lemma sent_cons alive interrupt e subs :
  sent alive interrupt (e :: subs) = sent alive interrupt [e] ++ sent alive interrupt subs.
Proof. unfold sent. rewrite <-fmap_app, <-filter_app. done. Qed.

Lemma sub_chain_set c d : sub_chain (set_sub c d) = c.
Proof. by destruct c. Qed.
Lemma irq_chain_set c d : irq_chain (set_irq c d) = c.
Proof. by destruct c. Qed.

Lemma set_sub_id d : holders (SubscribersList d) = ∅ → set_sub (sub_chain d) d = d.
Proof. destruct d as [? ? ? ? ? ? c]. simpl. intros H. unfold set_sub, sub_chain. simpl.
  f_equal. destruct c. simpl in *. by subst. Qed.
Lemma set_irq_id d : holders (IRQList d) = ∅ → set_irq (irq_chain d) d = d.
Proof. destruct d as [? ? ? ? ? ? ? c]. simpl. intros H. unfold set_irq, irq_chain. simpl.
  f_equal. destruct c. simpl in *. by subst. Qed.

Lemma on_sub_done {A} (k : M (chain Z GENINTDRV_SIGINFO) A) d a c :
  k (sub_chain d) = Done a c → on_sub k d = Done a (set_sub c d).
Proof. apply zoom_done. Qed.
Lemma on_irq_done {A} (k : M (chain Z GENINTDRV_IRQINFO) A) d a c :
  k (irq_chain d) = Done a c → on_irq k d = Done a (set_irq c d).
Proof. apply zoom_done. Qed.
(** Reads of the subscriber chain. *)
Lemma on_sub_read {A} (k : M (chain Z GENINTDRV_SIGINFO) A) d a : holders (SubscribersList d) = ∅ →
  k (sub_chain d) = Done a (sub_chain d) → on_sub k d = Done a d.
Proof. intros H Hk. rewrite (on_sub_done _ _ _ _ Hk). by rewrite set_sub_id. Qed.

Lemma delivered_nil d : holders (SubscribersList d) = ∅ → delivered (objs (SubscribersList d)) [] d = d.
Proof.
  destruct d as [? ? ? ? ? ? c]. intros H. unfold delivered. simpl in *. rewrite app_nil_r.
  f_equal. destruct c. simpl in *. by subst.
Qed.

Lemma delivered_one s d : holders (SubscribersList d) = ∅ →
  delivered (objs (SubscribersList d)) [s] d = upd_sigcounter (λ z, int32 (z + 1)) (upd_signals (λ l, l ++ [s]) d).
Proof.
  destruct d as [? ? ? ? ? ? c]. intros H. unfold delivered, upd_signals, upd_sigcounter. simpl in *.
  f_equal. destruct c. simpl in *. by subst.
Qed.

Lemma delivered_objs o d : delivered o [] d = set_sub (set_objs o (sub_chain d)) d.
Proof. unfold delivered, set_sub. by rewrite app_nil_r. Qed.

Lemma delivered_app o1 o2 s1 s2 d : delivered o2 s2 (delivered o1 s1 d) = delivered o2 (s1 ++ s2) d.
Proof.
  unfold delivered. simpl.
  rewrite <-(assoc_L app), length_app, (Nat.add_comm (length s1)), Nat.iter_add. done.
Qed.

Lemma delivered_chain o sg d : sub_chain (delivered o sg d) = set_objs o (sub_chain d).
Proof. done. Qed.

(** ** Facts of the lists *)

Definition key (e : GENINTDRV_SIGINFO) : Z * Z * Z := (intr e, sig e, pid e).

Definition unique (subs : list GENINTDRV_SIGINFO) : Prop :=
  NoDup (key <$> filter (λ e, active e = 1) subs).

Lemma unique_outlived alive interrupt subs : unique subs → unique (outlived alive interrupt <$> subs).
Proof.
  intros H. eapply sublist_NoDup; [exact H|]. clear H. apply fmap_sublist.
  induction subs as [|e subs IH]; [done|]. rewrite fmap_cons, !filter_cons.
  assert (Ho : outlived alive interrupt e = e ∨ (active (outlived alive interrupt e) ≠ 1)).
  { unfold outlived. destruct (hits interrupt e && negb (alive (pid e))); [by right|by left]. }
  destruct Ho as [Ho|Ho].
  - rewrite Ho. case_decide; [by constructor|done].
  - rewrite decide_False by done. case_decide; [by constructor|done].
Qed.

Lemma unique_snoc e subs : unique subs → existsb (same_active (intr e) (sig e) (pid e)) subs = false →
  unique (subs ++ [activate e]).
Proof.
  intros Hu Hn. unfold unique. rewrite filter_app, fmap_app, filter_cons, decide_True by done.
  rewrite filter_nil. simpl. apply NoDup_app. split_and!; [done| |apply NoDup_singleton].
  intros k (e' & -> & [Ha Hin]%list_elem_of_filter)%list_elem_of_fmap Hk%list_elem_of_singleton.
  assert (He : existsb (same_active (intr e) (sig e) (pid e)) subs = true); [|congruence].
  apply existsb_exists. exists e'. split; [by apply list_elem_of_In|].
  unfold key in Hk. simpl in Hk. injection Hk as H1 H2 H3.
  unfold same_active. rewrite H1, H2, H3, Ha. by rewrite !Z.eqb_refl.
Qed.

(** The text of the subscriptions, as [cat subscribe] prints it. *)
Definition listing (subs : list GENINTDRV_SIGINFO) : string :=
  foldr (λ e s, if active e =? 1 then entry_line e +:+ s else s) "" subs.

(** Every listed line takes six bytes at least. *)
Lemma entry_line_length e : 6 ≤ strlen (entry_line e).
Proof.
  assert (Hpos : ∀ n, 1 ≤ strlen (fmt_d n)).
  { intros n. unfold fmt_d, strlen. destruct (Z.ltb_spec n 0); [simpl; lia|].
    destruct (fmt_u_head n "") as (c & s & Hc & _); [done|]. rewrite str_app_nil in Hc. rewrite Hc. simpl. lia. }
  unfold entry_line. rewrite !strlen_app.
  assert (H1 := Hpos (intr e)). assert (H2 := Hpos (sig e)). assert (H3 := Hpos (pid e)).
  change (strlen ",") with 1. change (strlen LF) with 1. lia.
Qed.

Lemma listing_length subs : 6 * Z.of_nat (length (filter (λ e, active e = 1) subs)) ≤ strlen (listing subs).
Proof.
  induction subs as [|e subs IH]; [done|]. cbn [listing foldr]. fold (listing subs).
  rewrite filter_cons. destruct (Z.eqb_spec (active e) 1) as [Ha|Ha].
  - rewrite decide_True by done. rewrite strlen_app. assert (H := entry_line_length e). simpl length. lia.
  - by rewrite decide_False.
Qed.

(** The numbers of a comma-separated list, as far as the loop reads it. *)
Fixpoint irq_numbers (n : nat) (token : string) : list Z :=
  int32 (simple_strtol token).1 ::
  match strsep_comma token, n with
  | Some token, S n => irq_numbers n token
  | _, _ => []
  end.

Definition add_new (irqs : list GENINTDRV_IRQINFO) (k : Z) : list GENINTDRV_IRQINFO :=
  if existsb (λ e, irqnum e =? k) irqs then irqs else irqs ++ [IrqInfo k 0].

Lemma add_new_length irqs k : (length (add_new irqs k) ≤ S (length irqs))%nat.
Proof. unfold add_new. destruct (existsb _ _); [lia|]. rewrite length_app. simpl. lia. Qed.

Lemma add_new_NoDup irqs k : NoDup (irqnum <$> irqs) → NoDup (irqnum <$> add_new irqs k).
Proof.
  intros H. unfold add_new. destruct (existsb _ irqs) eqn:E; [done|]. rewrite fmap_app. simpl.
  apply NoDup_app. split_and!; [done| |apply NoDup_singleton].
  intros x (e & -> & Hin)%list_elem_of_fmap Hx%list_elem_of_singleton.
  assert (He : existsb (λ e, irqnum e =? k) irqs = true); [|congruence].
  apply existsb_exists. exists e. split; [by apply list_elem_of_In|]. rewrite Hx. by apply Z.eqb_refl.
Qed.

Lemma add_new_elem irqs k v : v ∈ irqnum <$> add_new irqs k ↔ v ∈ irqnum <$> irqs ∨ v = k.
Proof.
  unfold add_new. destruct (existsb (λ e, irqnum e =? k) irqs) eqn:E.
  - split; [by left|]. intros [?| ->]; [done|]. apply existsb_exists in E as (e & Hin & <-%Z.eqb_eq).
    apply list_elem_of_fmap. exists e. split; [done|]. by apply list_elem_of_In.
  - rewrite fmap_app, elem_of_app. simpl. by rewrite list_elem_of_singleton.
Qed.

Lemma add_new_all irqs ks v : v ∈ irqnum <$> foldl add_new irqs ks ↔ v ∈ irqnum <$> irqs ∨ v ∈ ks.
Proof.
  revert irqs. induction ks as [|k ks IH]; intros irqs; simpl; [set_solver|].
  rewrite IH, add_new_elem, elem_of_cons. naive_solver.
Qed.

Lemma irq_numbers_join n k l : (length l ≤ k)%nat → (∀ v, v ∈ n :: l → -2147483648 ≤ v ≤ INT_MAX) →
  irq_numbers k (join_comma (n :: l)) = n :: l.
Proof.
  revert n k. induction l as [|m l IH]; intros n k Hk Hv.
  - simpl join_comma. rewrite <-(str_app_nil (fmt_d n)).
    destruct k; cbn [irq_numbers]; rewrite strtol_fmt_d, strsep_fmt_d, int32_small by (done || apply Hv; set_solver);
      done.
  - destruct k as [|k]; [simpl in Hk; lia|].
    change (join_comma (n :: m :: l)) with (fmt_d n +:+ "," +:+ join_comma (m :: l)).
    cbn [irq_numbers]. rewrite strtol_fmt_d by (by intros c s' [= <- <-]). rewrite strsep_fmt_d.
    change (strsep_comma ("," +:+ join_comma (m :: l))) with (Some (join_comma (m :: l))). cbn [fst].
    rewrite int32_small by (apply Hv; set_solver). f_equal.
    apply IH; [simpl in Hk; lia|]. intros v Hin. apply Hv. set_solver.
Qed.

(** [c'] is [c] after elements were added: its other holders are new cells. *)
Record grown {A} (c c' : chain Z A) (ls ls' : list (loc * ptr)) : Prop := Grown {
  grown_base : base c' = base c;
  grown_clock : clock c' = clock c;
  grown_heap : unchanged (base c :: ls.*1) (holders c) (holders c');
  grown_new : ∀ x, x ∈ ls'.*1 → x ∈ ls.*1 ∨ holders c !! x = None
}.

Lemma grown_refl {A} (c : chain Z A) ls : grown c c ls ls.
Proof. split; try done. by left. Qed.

Lemma grown_trans {A} (c1 c2 c3 : chain Z A) ls1 ls2 ls3 es2 : lists c2 ls2 es2 →
  grown c1 c2 ls1 ls2 → grown c2 c3 ls2 ls3 → grown c1 c3 ls1 ls3.
Proof.
  intros Hl [Hb1 Hc1 Hh1 Hn1] [Hb2 Hc2 Hh2 Hn2]. split; [congruence..| |].
  - intros x Hx Hs. rewrite <-(Hh1 x Hx Hs). apply Hh2; [|by rewrite (Hh1 x Hx Hs)].
    rewrite Hb1. intros [->|Hx2]%elem_of_cons; [set_solver|].
    destruct (Hn1 x Hx2) as [?|Hnone]; [set_solver|]. destruct Hs as [? ?]. congruence.
  - intros x Hx. destruct (Hn2 x Hx) as [Hx2|Hnone]; [by apply Hn1|].
    destruct (decide (x ∈ ls1.*1)) as [|Hx1]; [by left|]. right.
    destruct (holders c1 !! x) as [h|] eqn:E; [|done]. exfalso.
    destruct (decide (x = base c1)) as [->|Hne].
    + destruct (cseg_lookup _ _ _ (base c2) (rep_seg _ _ (lists_rep _ _ _ Hl))) as [? ?]; [set_solver|].
      congruence.
    + rewrite (Hh1 x) in Hnone; [congruence|set_solver|eauto].
Qed.

Lemma chain_init_lists {A} (c : chain Z A) : is_Some (holders c !! base c) →
  ∃ c', chain_init c = Done 0 c' ∧ lists c' [] [] ∧ clock c' = 1 ∧ base c' = base c ∧
    unchanged [base c] (holders c) (holders c').
Proof.
  intros Hb. eexists. split.
  { unfold chain_init. msimpl. erewrite bind_done; [|by apply store_done]. by msimpl. }
  destruct Hb as [h Hh]. split_and!; try done.
  - split; [|split; [constructor|set_solver]|done|constructor].
    split; simpl; [|apply NoDup_singleton|done|unfold INT_MAX; lia].
    exists (with_pNext None h). by rewrite lookup_alter_eq, Hh.
  - intros x Hx _. simpl. by rewrite lookup_alter_ne by set_solver.
Qed.

Lemma chain_release_lists {A} (c : chain Z A) ls es : lists c ls es → clock c = 1 →
  ∃ c', chain_release c = Done 0 c' ∧ base c' = base c ∧ objs c' = freed (objs c) ls ∧
    unchanged (base c :: ls.*1) (holders c) (holders c') ∧
    (∀ x, x ∈ ls.*1 ∨ holders c !! x = None → holders c' !! x = None).
Proof.
  intros [Hr Ho Hi He] Hc. set (c1 := set_clock (clock c - 1) c).
  destruct (remove_all_done c1 ls (walk_fuel c1) (set_clock_rep _ _ _ Hr) Ho) as
    (c' & Hrun & _ & Hob & Hb & _ & _ & _ & Hu & Hn).
  { assert (Hf := chain_rep_fuel c1 ls (set_clock_rep _ _ _ Hr)). lia. }
  eexists. split.
  { unfold chain_release. mstep (down_done c ltac:(lia)). unfold chain_remove_all.
    erewrite bind_done; [|rewrite bind_gets; exact Hrun]. msimpl. by rewrite bind_up. }
  by split_and!.
Qed.

Lemma freed_gone {A} (o : gmap loc A) ls l : l ∈ omap snd ls ∨ o !! l = None → freed o ls !! l = None.
Proof.
  revert o. induction ls as [|[x d] ls IH]; intros o Hl; [set_solver|].
  simpl. apply IH. simpl in Hl. destruct d as [l'|]; [|done].
  destruct Hl as [[->|Hl]%elem_of_cons|Hl]; [right; apply lookup_delete_eq|by left|right].
  rewrite lookup_delete_None. by right.
Qed.

Lemma lists_heap {A} (c : chain Z A) ls es : lists c ls es → (length es < size (holders c))%nat.
Proof.
  intros Hl. assert (Hf := chain_rep_fuel c ls (lists_rep _ _ _ Hl)). unfold walk_fuel in Hf.
  rewrite (lists_length _ _ _ Hl) in Hf.
  destruct Hl as [[Hseg Hnd _ _] _ _ He].
  assert (Hsub : list_to_set (C := gset loc) (base c :: ls.*1) ⊆ dom (holders c)).
  { intros x Hx. apply elem_of_list_to_set in Hx. apply elem_of_dom. by apply (cseg_lookup _ (base c) ls). }
  apply subseteq_size in Hsub. rewrite size_list_to_set, size_dom in Hsub by done.
  simpl in Hsub. rewrite length_fmap, (Forall2_length _ _ _ He) in Hsub. lia.
Qed.

Lemma count_up k z : -2147483648 ≤ z → z + Z.of_nat k ≤ INT_MAX →
  Nat.iter k (λ z, int32 (z + 1)) z = z + Z.of_nat k.
Proof.
  intros Hz. induction k as [|k IH]; intros Hk; [simpl; lia|]. rewrite Nat.iter_succ, IH by lia.
  rewrite int32_small; lia.
Qed.

(** A change of the subscriber chain leaves the interrupt chain alone. *)
Lemma drv_rep_set_sub d ls1 subs ls2 irqs c' ls1' subs' : drv_rep d ls1 subs ls2 irqs →
  lists c' ls1' subs' → base c' = base (SubscribersList d) → clock c' = 1 →
  unchanged (base (SubscribersList d) :: ls1.*1) (heap d) (holders c') →
  (∀ x, x ∈ ls1'.*1 → x ∈ ls1.*1 ∨ heap d !! x = None) →
  drv_rep (set_sub c' d) ls1' subs' ls2 irqs.
Proof.
  intros [Hs Hi Hd [Hc1 Hc2] [Hh1 Hh2]] Hl Hb Hc Hu Hx. split; simpl; try done.
  - by destruct c'.
  - change (lists (set_holders (holders c') (irq_chain d)) ls2 irqs).
    apply (lists_frame _ _ _ (base (SubscribersList d) :: ls1.*1)); [done|done|].
    intros x Hx2 Hx1. by apply (Hd x).
  - intros x Hx1 Hx2. rewrite Hb in Hx1. apply elem_of_cons in Hx1 as [->|Hx1];
      [apply (Hd (base (SubscribersList d))); [set_solver|done]|].
    destruct (Hx x Hx1) as [Hx1'|Hn]; [apply (Hd x); [set_solver|done]|].
    destruct (cseg_lookup _ _ _ x (rep_seg _ _ (lists_rep _ _ _ Hi)) Hx2) as [? Hsome].
    simpl in Hsome. congruence.
Qed.

(** ** Interrupts and the listing *)
Section interrupt_proofs.
Variable chain_size_addr : Z.
Hypothesis chain_size_high : 2 ^ 31 ≤ chain_size_addr.

Lemma send_signal_to_process_done alive i s p d : holders (SubscribersList d) = ∅ →
  send_signal_to_process alive i s p d =
    if alive p then Done 0 (delivered (objs (SubscribersList d)) [Signal s p i] d) else Done (-1) d.
Proof. intros H. unfold send_signal_to_process. destruct (alive p); [by rewrite delivered_one|done]. Qed.

Lemma send_round_done alive interrupt d ls subs i e :
  lists (sub_chain d) ls subs → holders (SubscribersList d) = ∅ → subs !! i = Some e →
  ∃ o, send_round chain_size_addr alive interrupt (Z.of_nat i) d = Done () (delivered o (sent alive interrupt [e]) d) ∧
    lists (set_objs o (sub_chain d)) ls (<[i := outlived alive interrupt e]> subs).
Proof.
  intros Hl Hh Hi. destruct (lists_get chain_size_addr chain_size_high _ _ _ _ _ Hl Hi) as (x & l & Hx & Hobj & Hrun).
  unfold send_round. mstep (on_sub_read _ d _ Hh Hrun).
  mstep (on_sub_read _ d _ Hh (load_entry_done _ _ _ Hobj)).
  assert (Hid : lists (set_objs (objs (SubscribersList d)) (sub_chain d)) ls subs) by exact Hl.
  unfold sent, outlived, hits. rewrite filter_cons, filter_nil.
  destruct ((intr e =? interrupt) && (active e =? 1)); cbn [andb].
  - unfold mbind, M_bind. rewrite send_signal_to_process_done by done.
    destruct (alive (pid e)) eqn:Ea; cbn [negb Z.eqb].
    + exists (objs (SubscribersList d)). by rewrite list_insert_id.
    + exists (alter deactivate l (objs (sub_chain d))). split; [|by apply (lists_alter _ _ _ _ x)].
      rewrite (on_sub_done _ _ _ _ (store_entry_done _ _ _ _ Hobj)). by rewrite delivered_objs.
  - exists (objs (SubscribersList d)). rewrite list_insert_id by done. split; [|done]. simpl.
    by rewrite delivered_nil.
Qed.

Lemma send_loop_done alive interrupt ls n i d subs :
  lists (sub_chain d) ls subs → holders (SubscribersList d) = ∅ → (i + n = length subs)%nat →
  ∃ o, send_loop chain_size_addr alive interrupt n (Z.of_nat i) d =
      Done () (delivered o (sent alive interrupt (drop i subs)) d) ∧
    lists (set_objs o (sub_chain d)) ls (take i subs ++ (outlived alive interrupt <$> drop i subs)).
Proof.
  revert i d subs. induction n as [|n IH]; intros i d subs Hl Hh Hn.
  - exists (objs (SubscribersList d)). rewrite drop_ge, take_ge by lia. simpl. rewrite app_nil_r.
    rewrite delivered_nil by done. done.
  - destruct (lookup_lt_is_Some_2 subs i) as [e He]; [lia|].
    destruct (send_round_done alive interrupt d ls subs i e Hl Hh He) as (o & Hrun & Hl').
    destruct (IH (S i) (delivered o (sent alive interrupt [e]) d) (<[i := outlived alive interrupt e]> subs))
      as (o' & Hrun' & Hl''); [done|done|rewrite length_insert; lia|].
    exists o'. assert (Hd : drop (S i) (<[i:=outlived alive interrupt e]> subs) = drop (S i) subs)
      by (rewrite drop_insert_lt; [done|lia]).
    rewrite Hd in Hrun', Hl''. rewrite delivered_app in Hrun'.
    rewrite (drop_S _ _ _ He). split.
    + cbn [send_loop]. mstep Hrun. replace (Z.of_nat i + 1) with (Z.of_nat (S i)) by lia. rewrite Hrun'.
      by rewrite (sent_cons alive interrupt e (drop (S i) subs)).
    + rewrite delivered_chain in Hl''. simpl in Hl''. rewrite fmap_cons.
      rewrite (take_S_r _ _ (outlived alive interrupt e)) in Hl''
        by (rewrite list_lookup_insert_eq; [done|lia]).
      rewrite take_insert_ge, <-(assoc_L app) in Hl'' by lia. exact Hl''.
Qed.

(** Taking and giving back the subscriber chain's semaphore. *)
Lemma sub_lock_done d : clock (SubscribersList d) = 1 →
  on_sub chain_lock d = Done () (set_sub (set_clock 0 (sub_chain d)) d).
Proof.
  intros H. apply on_sub_done. unfold chain_lock. rewrite down_done by (simpl; lia). simpl. by rewrite H.
Qed.

Lemma sub_unlock_done o sg d : clock (SubscribersList d) = 1 →
  on_sub chain_unlock (delivered o sg (set_sub (set_clock 0 (sub_chain d)) d)) = Done () (delivered o sg d).
Proof.
  intros H. erewrite on_sub_done by reflexivity. f_equal. unfold delivered, set_sub, sub_chain. simpl.
  destruct (SubscribersList d). simpl in *. by subst.
Qed.

(** What an interrupt does, real or simulated. *)
Lemma send_signal_done alive interrupt d ls1 subs ls2 irqs : drv_rep d ls1 subs ls2 irqs →
  ∃ o, send_signal_to_subscribers chain_size_addr alive interrupt d =
      Done () (delivered o (sent alive interrupt subs) d) ∧
    drv_rep (delivered o (sent alive interrupt subs) d) ls1 (outlived alive interrupt <$> subs) ls2 irqs.
Proof.
  intros [Hs Hi Hd [Hc1 Hc2] [Hh1 Hh2]].
  destruct (send_loop_done alive interrupt ls1 (length subs) 0 (set_sub (set_clock 0 (sub_chain d)) d) subs)
    as (o & Hrun & Hl); [by apply (lists_clock _ _ _ 0) in Hs|done|done|].
  rewrite drop_0 in Hrun, Hl. simpl in Hl. exists o. split.
  - unfold send_signal_to_subscribers. 
    mstep (on_sub_read _ d _ Hh1 (chain_size_done _ _ _ Hs Hc1)). mstep (sub_lock_done d Hc1).
    rewrite Nat2Z.id. mstep Hrun. by apply sub_unlock_done.
  - split; simpl; try done. apply (lists_clock _ _ _ 1) in Hl. revert Hl. rewrite delivered_chain.
    unfold set_clock, set_objs, set_holders, sub_chain, set_sub. simpl. by rewrite Hc1.
Qed.

Lemma show_loop_done d ls subs n i buf : lists (sub_chain d) ls subs → holders (SubscribersList d) = ∅ →
  (i + n = length subs)%nat → strlen buf < PAGE_SIZE →
  show_loop chain_size_addr n (Z.of_nat i) buf d =
    if strlen (buf +:+ listing (drop i subs)) <? PAGE_SIZE
    then Done (buf +:+ listing (drop i subs)) d else Oops.
Proof.
  intros Hl Hh. revert i buf. induction n as [|n IH]; intros i buf Hn Hb; cbn [show_loop].
  - rewrite drop_ge by lia. simpl. rewrite str_app_nil.
    by destruct (Z.ltb_spec (strlen buf) PAGE_SIZE); [|lia].
  - destruct (lookup_lt_is_Some_2 subs i) as [e He]; [lia|].
    destruct (lists_get chain_size_addr chain_size_high _ _ _ _ _ Hl He) as (x & l & Hx & Hobj & Hrun).
    mstep (on_sub_read _ d _ Hh Hrun). rewrite (drop_S _ _ _ He). cbn [listing foldr].
    fold (listing (drop (S i) subs)).
    replace (Z.of_nat i + 1) with (Z.of_nat (S i)) by lia.
    unfold mbind at 1, M_bind at 1.
    rewrite (bind_done _ _ _ _ _ (on_sub_read _ d _ Hh (load_entry_done _ _ _ Hobj))).
    destruct (active e =? 1); [|apply IH; [lia|done]].
    unfold strcat_page. rewrite str_app_assoc.
    destruct (Z.ltb_spec PAGE_SIZE (Z.of_nat (String.length buf + String.length (entry_line e)) + 1)).
    + rewrite !strlen_app. unfold strlen in *. 
      destruct (Z.ltb_spec (Z.of_nat (String.length buf) + Z.of_nat (String.length (entry_line e)) +
        Z.of_nat (String.length (listing (drop (S i) subs)))) PAGE_SIZE); [lia|done].
    + apply IH; [lia|]. rewrite strlen_app. unfold strlen. lia.
Qed.

(** [cat subscribe]: every active subscription, as long as the text fits. *)
Lemma intrsubscribe_show_done d ls1 subs ls2 irqs : drv_rep d ls1 subs ls2 irqs →
  intrsubscribe_show chain_size_addr d =
    if strlen (listing subs) <? PAGE_SIZE then Done (listing subs) d else Oops.
Proof.
  intros [Hs Hi Hd [Hc1 Hc2] [Hh1 Hh2]]. unfold intrsubscribe_show.
  mstep (on_sub_read _ d _ Hh1 (chain_size_done _ _ _ Hs Hc1)). mstep (sub_lock_done d Hc1).
  rewrite Nat2Z.id. unfold mbind, M_bind.
  assert (Hrun := show_loop_done (set_sub (set_clock 0 (sub_chain d)) d) ls1 subs (length subs) 0 ""
    (lists_clock _ _ _ 0 Hs) eq_refl eq_refl ltac:(by vm_compute)). change (Z.of_nat 0) with 0 in Hrun. rewrite Hrun.
  rewrite drop_0. change ("" +:+ listing subs) with (listing subs).
  destruct (strlen (listing subs) <? PAGE_SIZE); [|done].
  assert (Hu := sub_unlock_done (objs (SubscribersList d)) [] d Hc1).
  rewrite (delivered_nil d Hh1) in Hu. 
  assert (E := delivered_nil (set_sub (set_clock 0 (sub_chain d)) d) eq_refl). simpl in E.
  rewrite E in Hu. by rewrite Hu.
Qed.

(** What the calls leave true: both lists are well-formed, no subscription is
    active twice, no interrupt is listed twice, and [irq_lock] is free. *)
Definition drv_inv (d : drv) : Prop := ∃ ls1 subs ls2 irqs,
  drv_rep d ls1 subs ls2 irqs ∧ unique subs ∧ NoDup (irqnum <$> irqs) ∧ irq_lock d = false.

Lemma send_inv alive interrupt d : drv_inv d →
  ∃ d', send_signal_to_subscribers chain_size_addr alive interrupt d = Done () d' ∧ drv_inv d'.
Proof.
  intros (ls1 & subs & ls2 & irqs & Hrep & Hu & Hn & Hlk).
  destruct (send_signal_done alive interrupt d _ _ _ _ Hrep) as (o & Hrun & Hrep').
  eexists. split; [exact Hrun|]. eexists _, _, _, _. split; [exact Hrep'|].
  split_and!; [by apply unique_outlived|done|done].
Qed.

Definition raised (irq : Z) (d : drv) : drv :=
  set_irq_tasklet true (set_irq_lock false (set_which_interrupt irq (set_irq_lock true
    (upd_intcounter (λ z, int32 (z + 1)) d)))).

Lemma irq_handler_done irq d : irq_lock d = false → irq_handler irq d = Done IRQ_HANDLED (raised irq d).
Proof.
  intros Hlk. unfold irq_handler, spin_lock_irq. unfold mbind, M_bind, gets, modify.
  cbn [irq_lock upd_intcounter]. by rewrite Hlk.
Qed.

Lemma raised_rep irq d ls1 subs ls2 irqs : drv_rep d ls1 subs ls2 irqs → drv_rep (raised irq d) ls1 subs ls2 irqs.
Proof. by intros []; split. Qed.

(** C5: [echo N > interrupt] sends exactly one signal to each live
    process with an active subscription for [N], in the order of subscription,
    carrying [N]; counts them; ends the subscriptions for [N] of processes that
    are gone; and leaves every other subscription alone. *)
Theorem interrupt_delivery alive buf count d ls1 subs ls2 irqs : drv_rep d ls1 subs ls2 irqs →
  let n := scan1 buf (interruptflag d) in
  -2147483648 ≤ sigcounter d → sigcounter d + Z.of_nat (length (sent alive n subs)) ≤ INT_MAX →
  ∃ d', interruptflag_store chain_size_addr alive buf count d = Done count d' ∧
    signals d' = signals d ++ sent alive n subs ∧
    sigcounter d' = sigcounter d + Z.of_nat (length (sent alive n subs)) ∧
    drv_rep d' ls1 (outlived alive n <$> subs) ls2 irqs.
Proof.
  intros Hrep n Hlo Hhi. set (d1 := upd_interruptflag (scan1 buf) d).
  destruct (send_signal_done alive n d1 ls1 subs ls2 irqs) as (o & Hrun & Hrep'); [by destruct Hrep; split|].
  exists (delivered o (sent alive n subs) d1). split_and!; [|done| |done].
  - unfold interruptflag_store. msimpl. fold d1. change (interruptflag d1) with n. by mstep Hrun.
  - by apply count_up.
Qed.

(** [cat subscribe] prints the active subscriptions when they fit
    in the page that sysfs provides, and writes past the page when they do not;
    683 active subscriptions never fit. *)
Theorem subscribe_show_bounds d ls1 subs ls2 irqs : drv_rep d ls1 subs ls2 irqs →
  (strlen (listing subs) < PAGE_SIZE → intrsubscribe_show chain_size_addr d = Done (listing subs) d) ∧
  (683 ≤ Z.of_nat (length (filter (λ e, active e = 1) subs)) → intrsubscribe_show chain_size_addr d = Oops).
Proof.
  intros Hrep. rewrite (intrsubscribe_show_done d ls1 subs ls2 irqs) by done.
  assert (Hl := listing_length subs). unfold PAGE_SIZE.
  split; intros H; destruct (Z.ltb_spec (strlen (listing subs)) 4096); try done; lia.
Qed.

End interrupt_proofs.

(** ** Subscribing *)
Section subscribe_proofs.
Variable kmalloc : gfp → gmap loc chain_holder → option (loc * chain_holder).
Variable kmalloc_sig : gmap loc GENINTDRV_SIGINFO → option (loc * GENINTDRV_SIGINFO).
Variable chain_size_addr : Z.
Hypothesis chain_size_high : 2 ^ 31 ≤ chain_size_addr.
(** The allocators return unused addresses. *)
Hypothesis kmalloc_fresh : ∀ flags h l g, kmalloc flags h = Some (l, g) → h !! l = None.
Hypothesis sig_fresh : ∀ o l g, kmalloc_sig o = Some (l, g) → o !! l = None.

Definition has_memory (d : drv) : bool :=
  bool_decide (is_Some (kmalloc_sig (objs (SubscribersList d)))) &&
  bool_decide (is_Some (kmalloc GFP_KERNEL (heap d))).

(** The subscriptions after [echo ... > subscribe]. *)
Definition subscribed (buf : string) (d : drv) (subs : list GENINTDRV_SIGINFO) : list GENINTDRV_SIGINFO :=
  let e := scan_siglist buf (SigList d) in
  if existsb (same_active (intr e) (sig e) (pid e)) subs then subs
  else if has_memory d then subs ++ [activate e] else subs.

Lemma intrsubscribe_store_done buf count d ls1 subs ls2 irqs : drv_rep d ls1 subs ls2 irqs →
  Z.of_nat (length subs) < INT_MAX →
  ∃ d' ls1', intrsubscribe_store kmalloc kmalloc_sig chain_size_addr buf count d = Done count d' ∧
    drv_rep d' ls1' (subscribed buf d subs) ls2 irqs ∧
    signals d' = signals d ∧ sigcounter d' = sigcounter d ∧ irq_lock d' = irq_lock d.
Proof.
  intros Hrep Hlt. assert (H0 := Hrep). destruct Hrep as [Hs Hi Hd [Hc1 Hc2] [Hh1 Hh2]].
  unfold intrsubscribe_store, subscribed. msimpl. set (e := scan_siglist buf (SigList d)).
  set (d1 := upd_SigList (scan_siglist buf) d). change (SigList d1) with e.
  assert (Hrep1 : drv_rep d1 ls1 subs ls2 irqs) by (by destruct H0; split).
  mstep (on_sub_read _ d1 _ Hh1 (find_duplicate_done chain_size_addr chain_size_high _ ls1 subs
    (same_active (intr e) (sig e) (pid e)) Hs Hc1)).
  destruct (existsb _ subs); cbn [negb Z.eqb].
  { by exists d1, ls1. }
  set (d2 := upd_SigList activate d1). change (SigList d2) with (activate e).
  assert (Hrep2 : drv_rep d2 ls1 subs ls2 irqs) by (by destruct H0; split).
  assert (Hadd := add_to_list_done kmalloc kmalloc_sig kmalloc_fresh sig_fresh (sub_chain d2)
    ls1 subs (λ _, activate e) (activate e) Hs Hc1 (λ _, eq_refl) Hlt).
  unfold has_memory. destruct Hadd as [[Hrun Hno]|(Hy1 & Hy2 & c' & x & l & Hrun & Hl & Hb & Hc & Hx & Hu)].
  - exists d2, ls1. split; [|].
    + msimpl. unfold mbind, M_bind, modify, gets. cbn beta iota. 
      fold d2. change (SigList d2) with (activate e).
      unfold add_subscriber_to_list. change (SigInfo _ _ _ _) with (activate e).
      by rewrite (on_sub_read _ d2 _ Hh1 Hrun).
    + split; [|done]. destruct Hno as [Hno|Hno]; simpl in Hno; rewrite Hno; [done|].
      by rewrite andb_comm.
  - exists (set_sub c' d2), (ls1 ++ [(x, Some l)]). split; [|].
    + msimpl. unfold mbind, M_bind, modify, gets. cbn beta iota. 
      fold d2. change (SigList d2) with (activate e).
      unfold add_subscriber_to_list. change (SigInfo _ _ _ _) with (activate e).
      by rewrite (on_sub_done _ d2 _ _ Hrun).
    + rewrite !bool_decide_true by done. simpl. split; [|done].
      apply (drv_rep_set_sub d2 ls1 subs); try done; [by rewrite Hc|].
      intros y Hy. rewrite fmap_app in Hy. simpl in Hy. apply elem_of_app in Hy as [Hy|Hy]; [by left|].
      apply list_elem_of_singleton in Hy as ->. by right.
Qed.

Lemma unique_subscribed buf d subs : unique subs → unique (subscribed buf d subs).
Proof.
  intros Hu. unfold subscribed. destruct (existsb _ subs) eqn:E; [done|]. destruct (has_memory d); [|done].
  by apply unique_snoc.
Qed.

(** [echo i,s,p > subscribe] adds an active subscription at the
    end of the list when there is none for the triple and there is memory, and
    leaves the list as it is otherwise; repeating it changes nothing; it sends
    no signal. *)
Theorem subscribe_once i s p count d ls1 subs ls2 irqs : drv_rep d ls1 subs ls2 irqs →
  Z.of_nat (length subs) + 1 < INT_MAX →
  (∀ v, v ∈ [i; s; p] → -2147483648 ≤ v ≤ INT_MAX) →
  let buf := entry_line (SigInfo i s p 1) in
  ∃ d' d'' ls1' ls1'' subs',
    intrsubscribe_store kmalloc kmalloc_sig chain_size_addr buf count d = Done count d' ∧
    intrsubscribe_store kmalloc kmalloc_sig chain_size_addr buf count d' = Done count d'' ∧
    subs' = (if existsb (same_active i s p) subs then subs
             else if has_memory d then subs ++ [SigInfo i s p 1] else subs) ∧
    drv_rep d' ls1' subs' ls2 irqs ∧
    (existsb (same_active i s p) subs || has_memory d = true → drv_rep d'' ls1'' subs' ls2 irqs) ∧
    signals d'' = signals d.
Proof.
  intros Hrep Hlt Hv buf.
  assert (Hscan : ∀ e, scan_siglist buf e = SigInfo i s p (active e)).
  { intros e. unfold scan_siglist, buf, entry_line. cbn [intr sig pid].
    assert (Hc : ∀ t, scan_comma ("," +:+ t) = Some t) by done.
    assert (Hstop : ∀ t, no_digit ("," +:+ t)) by (by intros t c s' [= <- <-]).
    rewrite scan_fmt_d, Hc by (done || apply Hv; set_solver). cbn [mbind option_bind].
    rewrite scan_fmt_d, Hc by (done || apply Hv; set_solver). cbn [mbind option_bind].
    by rewrite scan_fmt_d; [|apply Hv; set_solver|by intros c s' [= <- <-]]. }
  destruct (intrsubscribe_store_done buf count d ls1 subs ls2 irqs Hrep) as
    (d' & ls1' & Hrun & Hrep' & Hsig & _); [lia|].
  assert (Hsub : subscribed buf d subs = if existsb (same_active i s p) subs then subs
    else if has_memory d then subs ++ [SigInfo i s p 1] else subs).
  { unfold subscribed. rewrite Hscan. done. }
  destruct (intrsubscribe_store_done buf count d' ls1' (subscribed buf d subs) ls2 irqs Hrep') as
    (d'' & ls1'' & Hrun' & Hrep'' & Hsig' & _).
  { rewrite Hsub. destruct (existsb _ _), (has_memory d); rewrite ?length_app; simpl; lia. }
  exists d', d'', ls1', ls1'', (subscribed buf d subs). split_and!; try done; [|congruence].
  intros Hor. revert Hrep''. unfold subscribed at 1. rewrite Hscan. cbn [intr sig pid].
  assert (He : existsb (same_active i s p) (subscribed buf d subs) = true); [|by rewrite He].
  rewrite Hsub. destruct (existsb (same_active i s p) subs) eqn:E; [done|].
  simpl in Hor. rewrite Hor, existsb_app. simpl. unfold same_active. simpl.
  rewrite !Z.eqb_refl. by rewrite orb_true_r.
Qed.

End subscribe_proofs.

(** ** Insertion and removal of the module *)
(** The module's variables before it is inserted: the two chain structs lie at
    different addresses. *)
Record raw_ok (d : drv) : Prop := RawOk {
  raw_sub : is_Some (heap d !! base (SubscribersList d));
  raw_irq : is_Some (heap d !! base (IRQList d));
  raw_ne : base (SubscribersList d) ≠ base (IRQList d);
  raw_lock : irq_lock d = false
}.

(** C3: removing the module frees every holder and every entry of both
    lists, takes back its registrations and touches no other memory. *)
Theorem rmmod_frees_everything d ls1 subs ls2 irqs : drv_rep d ls1 subs ls2 irqs →
  ∃ d', genintrdrv_exit d = Done () d' ∧ misc_registered d' = false ∧ sysfs_kobj d' = false ∧
    (∀ x, x ∈ ls1.*1 ++ ls2.*1 → heap d' !! x = None) ∧
    (∀ l, l ∈ omap snd ls1 → objs (SubscribersList d') !! l = None) ∧
    (∀ l, l ∈ omap snd ls2 → objs (IRQList d') !! l = None) ∧
    unchanged ((base (SubscribersList d) :: ls1.*1) ++ (base (IRQList d) :: ls2.*1)) (heap d) (heap d').
Proof.
  intros [Hs Hi Hd [Hc1 Hc2] [Hh1 Hh2]]. unfold genintrdrv_exit, free_irqlist. msimpl.
  set (d1 := set_misc false (set_kobj false d)).
  destruct (chain_release_lists (irq_chain d1) ls2 irqs Hi Hc2) as (c2 & Hrun2 & Hb2 & Ho2 & Hu2 & Hn2).
  mstep (on_irq_done _ d1 _ _ Hrun2). set (d2 := set_irq c2 d1).
  assert (Hs2 : lists (sub_chain d2) ls1 subs).
  { change (lists (set_holders (holders c2) (sub_chain d)) ls1 subs).
    by apply (lists_frame _ _ _ (base (IRQList d) :: ls2.*1)). }
  destruct (chain_release_lists (sub_chain d2) ls1 subs Hs2 Hc1) as (c1 & Hrun1 & Hb1 & Ho1 & Hu1 & Hn1).
  mstep (on_sub_done _ d2 _ _ Hrun1). exists (set_sub c1 d2). simpl in *. split_and!; try done.
  - intros x [Hx|Hx]%elem_of_app; apply Hn1; [by left|right; apply Hn2; by left].
  - intros l Hl. rewrite Ho1. apply freed_gone. by left.
  - intros l Hl. rewrite Ho2. apply freed_gone. by left.
  - eapply unchanged_trans; (eapply unchanged_mono; [|eassumption]); set_solver.
Qed.

Section insmod_proofs.
Variable kmalloc : gfp → gmap loc chain_holder → option (loc * chain_holder).
Variable kmalloc_irq : gmap loc GENINTDRV_IRQINFO → option (loc * GENINTDRV_IRQINFO).
Variable chain_size_addr : Z.
Hypothesis chain_size_high : 2 ^ 31 ≤ chain_size_addr.
(** The allocators return unused addresses. *)
Hypothesis kmalloc_fresh : ∀ flags h l g, kmalloc flags h = Some (l, g) → h !! l = None.
Hypothesis irq_fresh : ∀ o l g, kmalloc_irq o = Some (l, g) → o !! l = None.

Definition memory_never_short : Prop :=
  (∀ o, kmalloc_irq o ≠ None) ∧ (∀ h, kmalloc GFP_KERNEL h ≠ None).

Lemma scan_round c ls irqs k : lists c ls irqs → clock c = 1 → Z.of_nat (length irqs) < INT_MAX →
  ∃ c' ls' irqs',
    (∀ rest : M (chain Z GENINTDRV_IRQINFO) unit, (r ← find_duplicate_irq_entry chain_size_addr k;
     _ ← (if negb (r =? 0) then _ ← add_irq_to_list kmalloc kmalloc_irq (IrqInfo k 0); mret () else mret ());
     rest) c = rest c') ∧
    lists c' ls' irqs' ∧ grown c c' ls ls' ∧
    (irqs' = add_new irqs k ∨ irqs' = irqs ∧
      (kmalloc_irq (objs c) = None ∨ kmalloc GFP_KERNEL (holders c) = None)).
Proof.
  intros Hl Hc Hlt. unfold find_duplicate_irq_entry.
  assert (Hdup := find_duplicate_done chain_size_addr chain_size_high c ls irqs (λ e, irqnum e =? k) Hl Hc).
  unfold add_new. destruct (existsb _ irqs).
  { exists c, ls, irqs. split_and!; try done; [intros rest; by mstep Hdup|apply grown_refl|by left]. }
  destruct (add_to_list_done kmalloc kmalloc_irq kmalloc_fresh irq_fresh c ls irqs (λ _, IrqInfo k 0)
    (IrqInfo k 0) Hl Hc (λ _, eq_refl) Hlt) as [[Hrun Hno]|(_ & _ & c' & x & l & Hrun & Hl' & Hb & Hc' & Hx & Hu)];
    unfold add_irq_to_list; cbn [irqnum irqsts].
  - exists c, ls, irqs. split_and!; try done; [|apply grown_refl|by right].
    intros rest. mstep Hdup. cbn [negb Z.eqb]. unfold mbind, M_bind. by rewrite Hrun.
  - exists c', (ls ++ [(x, Some l)]), (irqs ++ [IrqInfo k 0]). split_and!; try done; [| |by left].
    { intros rest. mstep Hdup. cbn [negb Z.eqb]. unfold mbind, M_bind. by rewrite Hrun. }
    split; try done. intros y Hy. rewrite fmap_app in Hy. simpl in Hy.
    apply elem_of_app in Hy as [Hy|Hy%list_elem_of_singleton]; [by left|subst; by right].
Qed.

Lemma scan_irq_loop_done n c ls irqs token : lists c ls irqs → clock c = 1 →
  Z.of_nat (length irqs + n) < INT_MAX → NoDup (irqnum <$> irqs) →
  ∃ c' ls' irqs', scan_irq_loop kmalloc kmalloc_irq chain_size_addr n token c = Done () c' ∧
    lists c' ls' irqs' ∧ grown c c' ls ls' ∧ NoDup (irqnum <$> irqs') ∧
    (memory_never_short → irqs' = foldl add_new irqs (irq_numbers n token)).
Proof.
  revert c ls irqs token. induction n as [|n IH]; intros c ls irqs token Hl Hc Hlt Hnd;
    (destruct (scan_round c ls irqs (int32 (simple_strtol token).1) Hl Hc) as
      (c1 & ls1 & irqs1 & Hrun & Hl1 & Hg & Hres); [lia|]);
    assert (Hnd1 : NoDup (irqnum <$> irqs1))
      by (destruct Hres as [->|[-> _]]; [by apply add_new_NoDup|done]);
    assert (Hmem : memory_never_short → irqs1 = add_new irqs (int32 (simple_strtol token).1))
      by (intros [Hm1 Hm2]; destruct Hres as [?|[_ [Hn|Hn]]]; [done|by destruct (Hm1 (objs c))|by destruct (Hm2 (holders c))]).
  - exists c1, ls1, irqs1. split_and!; try done.
    + cbn [scan_irq_loop]. rewrite Hrun. by destruct (strsep_comma token).
    + intros Hm. rewrite (Hmem Hm). simpl. by destruct (strsep_comma token).
  - cbn [scan_irq_loop irq_numbers]. rewrite Hrun. destruct (strsep_comma token) as [token'|].
    + destruct (IH c1 ls1 irqs1 token') as (c2 & ls2 & irqs2 & Hrun2 & Hl2 & Hg2 & Hnd2 & Hm2);
        [done|by rewrite (grown_clock _ _ _ _ Hg)| |done|].
      { assert (Hlen := add_new_length irqs (int32 (simple_strtol token).1)).
        destruct Hres as [->|[-> _]]; lia. }
      exists c2, ls2, irqs2. split_and!; try done; [exact (grown_trans _ _ _ _ _ _ _ Hl1 Hg Hg2)|].
      intros Hm. rewrite (Hm2 Hm), (Hmem Hm). done.
    + exists c1, ls1, irqs1. split_and!; try done.
Qed.

Lemma genintrdrv_init_done k intrlist d0 : raw_ok d0 → 0 ≤ misc_register k → kobject_create_and_add k = true →
  ∃ d ls2 irqs, genintrdrv_init kmalloc kmalloc_irq chain_size_addr k intrlist d0 = Done (create_sigcount k) d ∧
    drv_rep d [] [] ls2 irqs ∧ irq_lock d = false ∧ NoDup (irqnum <$> irqs) ∧
    (memory_never_short → irqs = foldl add_new [] (irq_numbers 1024 intrlist)).
Proof.
  intros [Hs Hi Hne Hlk] Hm Hk. unfold genintrdrv_init. destruct (Z.ltb_spec (misc_register k) 0); [lia|].
  rewrite Hk. cbn [negb]. msimpl. set (d1 := set_kobj true (set_misc true d0)).
  destruct (chain_init_lists (sub_chain d1) Hs) as (c1 & Hrun1 & Hl1 & Hc1 & Hb1 & Hu1).
  mstep (on_sub_done _ d1 _ _ Hrun1). set (d2 := set_sub c1 d1).
  destruct (chain_init_lists (irq_chain d2)) as (c2 & Hrun2 & Hl2 & Hc2 & Hb2 & Hu2).
  { simpl. rewrite (Hu1 (base (IRQList d0))); [done|set_solver|done]. }
  mstep (on_irq_done _ d2 _ _ Hrun2). set (d3 := set_irq c2 d2).
  assert (Hsub : is_Some (holders c2 !! base c1)).
  { destruct (cseg_lookup _ _ _ (base c1) (rep_seg _ _ (lists_rep _ _ _ Hl1))) as [h Hh]; [by left|].
    exists h. rewrite <-Hh. apply Hu2; [|simpl; eauto]. rewrite Hb1. by intros ?%list_elem_of_singleton. }
  assert (Hrun3 : lists (irq_chain d3) [] []) by (unfold d3; by rewrite irq_chain_set).
  destruct (scan_irq_loop_done 1024 (irq_chain d3) [] [] intrlist Hrun3 Hc2) as
    (c3 & ls2 & irqs & Hrun & Hl3 & Hg & Hnd & Hmem); [by vm_compute|constructor|].
  assert (Hscan : scan_cmdline_irqlist kmalloc kmalloc_irq chain_size_addr intrlist (irq_chain d3) = Done 0 c3)
    by (unfold scan_cmdline_irqlist; by mstep Hrun).
  mstep (on_irq_done _ d3 _ _ Hscan). exists (set_irq c3 d3), ls2, irqs. split; [done|].
  split_and!; [|done..]. destruct Hg as [Hgb Hgc Hgu Hgn]. simpl in *. split; simpl.
  - change (lists (set_holders (holders c3) c1) [] []).
    apply (lists_frame c1 [] [] [base (IRQList d0)]); [done| |].
    + intros x Hx [h Hh]. rewrite (Hgu x); [apply Hu2|..]; try done; [by rewrite Hb2|].
      rewrite (Hu2 x); eauto.
    + intros x Hx Hx'. rewrite Hb1 in Hx. apply list_elem_of_singleton in Hx, Hx'. congruence.
  - by rewrite irq_chain_set.
  - intros x [->|Hx]%elem_of_cons; [|by apply elem_of_nil in Hx]. rewrite Hb1, Hgb, Hb2.
    intros [?|Hx]%elem_of_cons; [done|]. destruct (Hgn _ Hx) as [Hx'|Hn]; [by apply elem_of_nil in Hx'|].
    rewrite Hb1 in Hsub. destruct Hsub as [h Hh]. congruence.
  - by rewrite Hgc.
  - done.
Qed.

(** [insmod genintrdrv.ko intrlist=n1,n2,...] with up to 1025
    numbers leaves a module with no subscriptions whose interrupt list holds
    exactly those numbers, each once. *)
Theorem insmod_irq_list k n l d0 : raw_ok d0 → 0 ≤ misc_register k → kobject_create_and_add k = true →
  memory_never_short → (length l ≤ 1024)%nat → (∀ v, v ∈ n :: l → -2147483648 ≤ v ≤ INT_MAX) →
  ∃ d ls2 irqs,
    genintrdrv_init kmalloc kmalloc_irq chain_size_addr k (join_comma (n :: l)) d0 = Done (create_sigcount k) d ∧
    drv_rep d [] [] ls2 irqs ∧ NoDup (irqnum <$> irqs) ∧ (∀ v, v ∈ irqnum <$> irqs ↔ v ∈ n :: l).
Proof.
  intros Hraw Hm Hk Hmem Hlen Hv.
  destruct (genintrdrv_init_done k (join_comma (n :: l)) d0 Hraw Hm Hk) as
    (d & ls2 & irqs & Hrun & Hrep & _ & Hnd & Hirqs).
  exists d, ls2, irqs. split_and!; try done. intros v. rewrite (Hirqs Hmem), irq_numbers_join by done.
  rewrite add_new_all. set_solver.
Qed.

(** When the kernel refuses the sysfs directory, or the last sysfs
    file, insertion reports the error with the misc device, and in the second
    case the sysfs directory too, still registered; a refusal of one of the
    other sysfs files is not reported. *)
Theorem insmod_errors_leak k intrlist d0 : raw_ok d0 → 0 ≤ misc_register k →
  ∃ d, genintrdrv_init kmalloc kmalloc_irq chain_size_addr k intrlist d0 =
      Done (if kobject_create_and_add k then create_sigcount k else - ENOMEM) d ∧
    misc_registered d = true ∧ (kobject_create_and_add k = true → sysfs_kobj d = true).
Proof.
  intros Hraw Hm. destruct (kobject_create_and_add k) eqn:Hk.
  - destruct (genintrdrv_init_done k intrlist d0 Hraw Hm Hk) as (d & ls2 & irqs & Hrun & _).
    exists d. split; [done|]. revert Hrun. unfold genintrdrv_init.
    destruct (Z.ltb_spec (misc_register k) 0); [lia|]. rewrite Hk. cbn [negb]. msimpl.
    set (d1 := set_kobj true (set_misc true d0)).
    unfold mbind, M_bind, on_sub, on_irq, zoom, register_irqlist, mret, M_ret.
    destruct (chain_init (sub_chain d1)); try done.
    destruct (chain_init (irq_chain _)); try done.
    destruct (scan_cmdline_irqlist _ _ _ _ _); try done. intros [= <-]. done.
  - exists (set_misc true d0). split; [|done]. unfold genintrdrv_init.
    destruct (Z.ltb_spec (misc_register k) 0); [lia|]. rewrite Hk. reflexivity.
Qed.

End insmod_proofs.

(** ** The module at work *)
Section module_proofs.
Variable kmalloc : gfp → gmap loc chain_holder → option (loc * chain_holder).
Variable kmalloc_sig : gmap loc GENINTDRV_SIGINFO → option (loc * GENINTDRV_SIGINFO).
Variable kmalloc_irq : gmap loc GENINTDRV_IRQINFO → option (loc * GENINTDRV_IRQINFO).
Variable chain_size_addr : Z.
Hypothesis chain_size_high : 2 ^ 31 ≤ chain_size_addr.

(** Calls that keep within the memory of the machine and the buffers the
    module writes to. *)
Definition call_ok (d : drv) (c : call) : Prop :=
  match c with
  | SubscribeStore _ => Z.of_nat (size (heap d)) ≤ INT_MAX
  | SubscribeShow => ∀ ls1 subs ls2 irqs, drv_rep d ls1 subs ls2 irqs → strlen (listing subs) < PAGE_SIZE
  | Ioctl ok n => ok (IOC_SIZE n) = true → IOC_SIZE n ≤ sizeof_param_union
  | _ => True
  end.

Lemma tasklet_done alive d ls1 subs ls2 irqs : drv_rep d ls1 subs ls2 irqs → irq_lock d = false →
  irq_tasklet d = true →
  ∃ d', dispatch kmalloc kmalloc_sig chain_size_addr (Tasklet alive) d = Done 0 d' ∧
    signals d' = signals d ++ sent alive (which_interrupt d) subs ∧
    drv_rep d' ls1 (outlived alive (which_interrupt d) <$> subs) ls2 irqs ∧
    irq_tasklet d' = false ∧ irq_lock d' = false.
Proof.
  intros Hrep Hlk Ht.
  set (d1 := set_irq_lock true (upd_bhcounter (λ z, int32 (z + 1)) (set_irq_tasklet false d))).
  destruct (send_signal_done chain_size_addr chain_size_high alive (which_interrupt d) d1 ls1 subs ls2 irqs) as (o & Hrun & Hrep');
    [by destruct Hrep; split|].
  eexists. split_and!.
  - simpl dispatch. msimpl. rewrite Ht. msimpl. unfold irq_tasklet_bh, spin_lock_irq.
    unfold mbind, M_bind, gets, modify. cbn [irq_lock upd_bhcounter set_irq_tasklet]. rewrite Hlk.
    fold d1. change (which_interrupt d1) with (which_interrupt d). rewrite Hrun. reflexivity.
  - done.
  - by destruct Hrep'; split.
  - done.
  - done.
Qed.

(** Two interrupts before the tasklet runs deliver only the second
    one: the handler keeps the number in one variable.  An interrupt inside the
    tasklet's critical section waits for ever for the lock the interrupted
    tasklet holds. *)
Theorem tasklet_shortcomings alive a b d ls1 subs ls2 irqs : drv_rep d ls1 subs ls2 irqs → irq_lock d = false →
  (∃ d', (_ ← irq_handler a; _ ← irq_handler b;
          dispatch kmalloc kmalloc_sig chain_size_addr (Tasklet alive)) d = Done 0 d' ∧
     signals d' = signals d ++ sent alive b subs ∧ irq_tasklet d' = false) ∧
  (_ ← modify (upd_bhcounter (λ z, int32 (z + 1))); _ ← spin_lock_irq; irq_handler a) d = Blocked.
Proof.
  intros Hrep Hlk. split.
  - destruct (tasklet_done alive (raised b (raised a d)) ls1 subs ls2 irqs) as (d' & Hrun & Hsig & _ & Ht & _);
      [by do 2 apply raised_rep|done|done|].
    exists d'. split; [|done]. mstep (irq_handler_done a d Hlk). by mstep (irq_handler_done b (raised a d) eq_refl).
  - unfold irq_handler, spin_lock_irq, mbind, M_bind, gets, modify. simpl. by rewrite Hlk.
Qed.

(** The allocators return unused addresses. *)
Hypothesis kmalloc_fresh : ∀ flags h l g, kmalloc flags h = Some (l, g) → h !! l = None.
Hypothesis sig_fresh : ∀ o l g, kmalloc_sig o = Some (l, g) → o !! l = None.

Lemma dispatch_inv d c : drv_inv d → call_ok d c →
  ∃ r d', dispatch kmalloc kmalloc_sig chain_size_addr c d = Done r d' ∧ drv_inv d'.
Proof.
  intros Hinv Hok. assert (Hinv' := Hinv). destruct Hinv' as (ls1 & subs & ls2 & irqs & Hrep & Hu & Hn & Hlk).
  destruct c; simpl dispatch; simpl in Hok; try (eexists _, _; split; [reflexivity|]; first [exact Hinv|
    exists ls1, subs, ls2, irqs; split_and!; try done; by destruct Hrep; split]).
  - exists (if user_ok (IOC_SIZE ioctl_num) then if ioctl_num =? GENINTRDRV_IOCTL_INCREMENT then 0 else - EINVAL
      else - ENOMEM), d. split; [|done]. unfold genintrdrv_ioctl. destruct (user_ok _) eqn:E; [|done].
    cbn [negb]. destruct (Z.ltb_spec sizeof_param_union (IOC_SIZE ioctl_num)); [specialize (Hok eq_refl); lia|].
    by destruct (_ =? _).
  - unfold interruptflag_store. msimpl.
    destruct (send_inv chain_size_addr chain_size_high alive (scan1 buf (interruptflag d)) (upd_interruptflag (scan1 buf) d)) as (d' & Hrun & Hd').
    { exists ls1, subs, ls2, irqs. split_and!; try done. by destruct Hrep; split. }
    simpl. mstep Hrun. by eexists _, d'.
  - eexists _, d. split; [|done]. apply fmap_done. rewrite (intrsubscribe_show_done chain_size_addr chain_size_high d ls1 subs ls2 irqs) by done.
    specialize (Hok _ _ _ _ Hrep). by destruct (Z.ltb_spec (strlen (listing subs)) PAGE_SIZE); [|lia].
  - destruct (intrsubscribe_store_done kmalloc kmalloc_sig chain_size_addr chain_size_high kmalloc_fresh sig_fresh buf (strlen buf) d ls1 subs ls2 irqs Hrep) as (d' & ls1' & Hrun & Hrep' & _ & _ & Hlk').
    { assert (Hh := lists_heap _ _ _ (rep_subs _ _ _ _ _ Hrep)). simpl in Hh. lia. }
    eexists _, d'. split; [exact Hrun|]. exists ls1', (subscribed kmalloc kmalloc_sig buf d subs), ls2, irqs.
    split_and!; [done|by apply unique_subscribed|done|congruence].
  - eexists _, _. split; [by apply irq_handler_done|]. exists ls1, subs, ls2, irqs.
    split_and!; try done. by apply raised_rep.
  - destruct (irq_tasklet d) eqn:Et.
    + destruct (tasklet_done alive d _ _ _ _ Hrep Hlk Et) as (d' & Hrun & _ & Hrep' & _ & Hlk').
      eexists _, d'. split; [exact Hrun|]. eexists _, _, _, _. split_and!; [done|by apply unique_outlived|done|done].
    + eexists _, d. split; [|done]. msimpl. by rewrite Et.
Qed.

(** The states of an inserted module. *)
Inductive runs : drv → Prop :=
| run_insmod d0 k intrlist r d :
    raw_ok d0 → 0 ≤ misc_register k → kobject_create_and_add k = true →
    genintrdrv_init kmalloc kmalloc_irq chain_size_addr k intrlist d0 = Done r d → runs d
| run_call d c r d' :
    runs d → call_ok d c → dispatch kmalloc kmalloc_sig chain_size_addr c d = Done r d' → runs d'.

Hypothesis irq_fresh : ∀ o l g, kmalloc_irq o = Some (l, g) → o !! l = None.

Lemma runs_inv d : runs d → drv_inv d.
Proof.
  induction 1 as [d0 k il r d Hraw Hm Hk Hrun|d c r d' _ IH Hok Hrun].
  - destruct (genintrdrv_init_done kmalloc kmalloc_irq chain_size_addr chain_size_high kmalloc_fresh irq_fresh k il d0 Hraw Hm Hk) as (d1 & ls2 & irqs & Hrun1 & Hrep & Hlk & Hnd & _).
    rewrite Hrun in Hrun1. injection Hrun1 as -> ->. exists [], [], ls2, irqs. split_and!; try done.
    constructor.
  - destruct (dispatch_inv d c IH Hok) as (r1 & d1 & Hrun1 & Hd1). congruence.
Qed.

(** C4: from insertion on, let calls come in whatever order, as long as each
    is one of [call_ok]: the size field of an ioctl number whose argument the
    user may pass is at most 4, the size of the local it is copied onto; the
    listing of the subscriptions, when it is read, is shorter than a page; and
    at a subscription the list holders in memory are at most [INT_MAX].  Then
    every call returns: it does not fault, does not wait for a lock and ends;
    and after it both lists are well-formed, no subscription is active twice,
    and no interrupt is listed twice.  Outside [call_ok] the module does fault:
    an ioctl with a bigger size field overruns the stack
    ([ioctl_overruns_stack]), and a longer listing runs past its page. *)
Theorem module_keeps_invariant d c : runs d → call_ok d c →
  drv_inv d ∧ ∃ r d', dispatch kmalloc kmalloc_sig chain_size_addr c d = Done r d' ∧ runs d' ∧ drv_inv d'.
Proof.
  intros Hr Hok. assert (Hinv := runs_inv d Hr). split; [done|].
  destruct (dispatch_inv d c Hinv Hok) as (r & d' & Hrun & Hd'). exists r, d'. split_and!; [done| |done].
  by eapply run_call.
Qed.

End module_proofs.


(** The ioctl handler copies as many bytes as the command number
    says onto a local of four bytes: every command with a bigger size field
    overwrites the stack before the command is looked at. *)
Theorem ioctl_overruns_stack ok n d : 
  genintrdrv_ioctl ok n d =
    if negb (ok (IOC_SIZE n)) then Done (-12) d
    else if IOC_SIZE n <=? 4 then Done (if n =? 0x40047401 then 0 else -22) d else Oops.
Proof.
  unfold genintrdrv_ioctl, sizeof_param_union. destruct (ok (IOC_SIZE n)); [|done]. cbn [negb].
  change GENINTRDRV_IOCTL_INCREMENT with 0x40047401.
  destruct (Z.ltb_spec 4 (IOC_SIZE n)), (Z.leb_spec (IOC_SIZE n) 4); try lia; [done|].
  by destruct (n =? 0x40047401).
Qed.

(** ** A concrete module *)
Section examples.

(** An allocator of entries: the address after the greatest one in use. *)
Definition entry_alloc {A} (garbage : A) (o : gmap loc A) : option (loc * A) :=
  Some (Pos.succ (map_fold (λ l _ m, Pos.max l m) 1%positive o), garbage).
(** A holder allocator that is never short. *)
Definition holder_alloc (flags : gfp) (h : gmap loc chain_holder) : option (loc * chain_holder) :=
  Some (bump h, Holder None None None).

Lemma entry_alloc_fresh {A} (garbage : A) o l g : entry_alloc garbage o = Some (l, g) → o !! l = None.
Proof.
  intros [= <- <-]. destruct (o !! _) eqn:E; [|done]. exfalso.
  assert (Hmax : ∀ l, is_Some (o !! l) → (l ≤ map_fold (λ l _ m, Pos.max l m) 1 o)%positive).
  { clear. apply (map_fold_weak_ind (λ r h, ∀ l, is_Some (h !! l) → (l ≤ r)%positive)).
    - intros l [? H]. by rewrite lookup_empty in H.
    - intros i x m r Hi IH l Hl. destruct (decide (i = l)) as [->|Hne]; [lia|].
      rewrite lookup_insert_ne in Hl by done. specialize (IH l Hl). lia. }
  specialize (Hmax _ ltac:(eauto)). lia.
Qed.
Lemma holder_alloc_fresh flags h l g : holder_alloc flags h = Some (l, g) → h !! l = None.
Proof. intros [= <- <-]. apply bump_fresh. Qed.

Definition sig_alloc := entry_alloc (SigInfo (-1) (-1) (-1) (-1)).
Definition irq_alloc := entry_alloc (IrqInfo (-1) (-1)).
Definition size_addr : Z := 0xffffffffc0001000.
Lemma size_addr_high : 2 ^ 31 ≤ size_addr.
Proof. by vm_compute. Qed.

Definition raw_drv : drv :=
  Drv 0 0 0 0 0 (SigInfo 0 0 0 0) (Chain 1%positive 0 0 0 0 ∅ ∅) (Chain 2%positive 0 0 0 0 ∅ ∅)
    {[ 1%positive := Holder None None None; 2%positive := Holder None None None ]} [] (-1) false false false false.
Definition good_kernel : kernel := Kernel 0 true 0 0 0 0.
Lemma raw_drv_ok : raw_ok raw_drv.
Proof. by split; [eexists|eexists| |]. Qed.

(** insmod, two subscriptions (the first twice), and an interrupt. *)
Definition ex_alive (p : Z) : bool := p =? 200.
Definition ex_session : M drv (list signal) :=
  _ ← genintrdrv_init holder_alloc irq_alloc size_addr good_kernel "1,17,4,17";
  _ ← intrsubscribe_store holder_alloc sig_alloc size_addr "5,15,200" 8;
  _ ← intrsubscribe_store holder_alloc sig_alloc size_addr "5,15,200" 8;
  _ ← intrsubscribe_store holder_alloc sig_alloc size_addr "5,10,300" 8;
  _ ← interruptflag_store size_addr ex_alive "5" 1;
  gets signals.
Example ex_session_run :
  match ex_session raw_drv with
  | Done l d => (l, c_size (SubscribersList d), c_size (IRQList d),
      map_to_list (objs (SubscribersList d))) =
      ([Signal 15 200 5], 2, 3, [(3%positive, SigInfo 5 10 300 0); (2%positive, SigInfo 5 15 200 1)])
  | _ => False
  end.
Proof. vm_compute. reflexivity. Qed.

Definition ex_drv : drv :=
  match genintrdrv_init holder_alloc irq_alloc size_addr good_kernel "1,17" raw_drv with
  | Done _ d => d | _ => raw_drv end.
Lemma ex_drv_init : genintrdrv_init holder_alloc irq_alloc size_addr good_kernel "1,17" raw_drv = Done 0 ex_drv.
Proof. vm_compute. reflexivity. Qed.
Lemma ex_drv_rep : ∃ ls2 irqs, drv_rep ex_drv [] [] ls2 irqs.
Proof.
  destruct (genintrdrv_init_done holder_alloc irq_alloc size_addr size_addr_high holder_alloc_fresh
    (entry_alloc_fresh _) good_kernel "1,17" raw_drv raw_drv_ok) as (d & ls2 & irqs & Hrun & Hrep & _); [done|done|].
  exists ls2, irqs. apply (eq_trans (eq_sym ex_drv_init)), done_state in Hrun. by rewrite Hrun.
Qed.

Lemma rmmod_frees_everything_witness : ∃ ls2 irqs, drv_rep ex_drv [] [] ls2 irqs ∧
  ∃ d', genintrdrv_exit ex_drv = Done () d' ∧ ∀ x, x ∈ ls2.*1 → heap d' !! x = None.
Proof.
  destruct ex_drv_rep as (ls2 & irqs & Hrep). exists ls2, irqs. split; [exact Hrep|].
  destruct (rmmod_frees_everything ex_drv [] [] ls2 irqs Hrep) as (d' & Hrun & _ & _ & Hx & _).
  exists d'. split; [exact Hrun|exact Hx].
Defined.

Lemma module_keeps_invariant_witness : runs holder_alloc sig_alloc irq_alloc size_addr ex_drv ∧ drv_inv ex_drv.
Proof.
  assert (Hr : runs holder_alloc sig_alloc irq_alloc size_addr ex_drv).
  { eapply (run_insmod _ _ _ _ raw_drv good_kernel "1,17" 0); [apply raw_drv_ok|done|done|apply ex_drv_init]. }
  split; [exact Hr|].
  apply (module_keeps_invariant holder_alloc sig_alloc irq_alloc size_addr size_addr_high holder_alloc_fresh
    (entry_alloc_fresh _) (entry_alloc_fresh _) ex_drv (Irq 7) Hr I).
Defined.

Lemma interrupt_delivery_witness :
  ∃ d', interruptflag_store size_addr ex_alive "5" 1 ex_drv = Done 1 d' ∧ signals d' = [].
Proof.
  destruct ex_drv_rep as (ls2 & irqs & Hrep).
  destruct (interrupt_delivery size_addr size_addr_high ex_alive "5" 1 ex_drv [] [] ls2 irqs Hrep)
    as (d' & Hrun & Hsig & _); [vm_compute; discriminate|vm_compute; discriminate|].
  exists d'. split; [exact Hrun|exact Hsig].
Defined.

Lemma subscribe_once_witness : ∃ d' d'' : drv,
  intrsubscribe_store holder_alloc sig_alloc size_addr (entry_line (SigInfo 5 15 200 1)) 9 ex_drv = Done 9 d' ∧
  intrsubscribe_store holder_alloc sig_alloc size_addr (entry_line (SigInfo 5 15 200 1)) 9 d' = Done 9 d''.
Proof.
  destruct ex_drv_rep as (ls2 & irqs & Hrep).
  destruct (subscribe_once holder_alloc sig_alloc size_addr size_addr_high holder_alloc_fresh
    (entry_alloc_fresh _) 5 15 200 9 ex_drv [] [] ls2 irqs Hrep) as (d' & d'' & _ & _ & _ & H1 & H2 & _).
  - by vm_compute.
  - intros v Hv. unfold INT_MAX. set_solver by lia.
  - exists d', d''. split; [exact H1|exact H2].
Defined.

Lemma subscribe_show_bounds_witness : intrsubscribe_show size_addr ex_drv = Done "" ex_drv.
Proof.
  destruct ex_drv_rep as (ls2 & irqs & Hrep).
  apply (subscribe_show_bounds size_addr size_addr_high ex_drv [] [] ls2 irqs Hrep). by vm_compute.
Defined.

Lemma tasklet_shortcomings_witness :
  (_ ← modify (upd_bhcounter (λ z, int32 (z + 1))); _ ← spin_lock_irq; irq_handler 3) ex_drv = Blocked.
Proof.
  destruct ex_drv_rep as (ls2 & irqs & Hrep).
  apply (tasklet_shortcomings holder_alloc sig_alloc size_addr size_addr_high ex_alive 3 4 ex_drv [] [] ls2 irqs Hrep).
  reflexivity.
Defined.

Lemma insmod_irq_list_witness : ∃ d ls2 irqs,
  genintrdrv_init holder_alloc irq_alloc size_addr good_kernel (join_comma [1; 17; 1]) raw_drv = Done 0 d ∧
  drv_rep d [] [] ls2 irqs ∧ NoDup (irqnum <$> irqs) ∧ (∀ v, v ∈ irqnum <$> irqs ↔ v ∈ [1; 17; 1]).
Proof.
  apply (insmod_irq_list holder_alloc irq_alloc size_addr size_addr_high holder_alloc_fresh
    (entry_alloc_fresh _) good_kernel 1 [17; 1] raw_drv raw_drv_ok).
  - done.
  - done.
  - by split.
  - simpl. lia.
  - intros v Hv. unfold INT_MAX. set_solver by lia.
Defined.

Lemma insmod_errors_leak_witness : ∃ d,
  genintrdrv_init holder_alloc irq_alloc size_addr (Kernel 0 false 0 0 0 0) "" raw_drv = Done (-12) d ∧
  misc_registered d = true.
Proof.
  destruct (insmod_errors_leak holder_alloc irq_alloc size_addr size_addr_high holder_alloc_fresh
    (entry_alloc_fresh _) (Kernel 0 false 0 0 0 0) "" raw_drv raw_drv_ok) as (d & Hrun & Hm & _); [done|].
  exists d. split; [exact Hrun|exact Hm].
Defined.

End examples.
