(* ===== verification/Crc32.v ===== *)
(** * crc32.c: the checksum of the firmware images

    [src/sources/utils/brbox-mkimage/crc32.c]: the table, the function that
    generates it, and the checksum, unrolled eight bytes at a time; proved equal
    to the bit-by-bit shift register of the polynomial
    x^32+x^26+x^23+x^22+x^16+x^12+x^11+x^10+x^8+x^7+x^5+x^4+x^2+x+1, and to
    detect every change within four consecutive bytes. *)

From stdpp Require Import base list numbers.
From Stdlib Require Import ZArith Lia.
From S2P Require Import Prelude.

(** ** The code *)

(** [p]: the terms of the polynomial, except x^32. *)
Definition p_terms : list Z := [0; 1; 2; 4; 5; 7; 8; 10; 11; 12; 16; 22; 23; 26].
Definition poly : Z := foldl (λ poly n, Z.lor poly (Z.shiftl 1 (31 - n))) 0 p_terms.

(** [c & 1 ? poly ^ (c >> 1) : c >> 1] *)
Definition shift_bit (c : Z) : Z :=
  if Z.land c 1 =? 0 then Z.shiftr c 1 else Z.lxor poly (Z.shiftr c 1).
Definition make_crc_table : list Z := (λ n, Nat.iter 8 shift_bit (Z.of_nat n)) <$> seq 0 256.

Definition crc_table : list Z := [
  0x00000000; 0x77073096; 0xee0e612c; 0x990951ba; 0x076dc419; 0x706af48f;
  0xe963a535; 0x9e6495a3; 0x0edb8832; 0x79dcb8a4; 0xe0d5e91e; 0x97d2d988;
  0x09b64c2b; 0x7eb17cbd; 0xe7b82d07; 0x90bf1d91; 0x1db71064; 0x6ab020f2;
  0xf3b97148; 0x84be41de; 0x1adad47d; 0x6ddde4eb; 0xf4d4b551; 0x83d385c7;
  0x136c9856; 0x646ba8c0; 0xfd62f97a; 0x8a65c9ec; 0x14015c4f; 0x63066cd9;
  0xfa0f3d63; 0x8d080df5; 0x3b6e20c8; 0x4c69105e; 0xd56041e4; 0xa2677172;
  0x3c03e4d1; 0x4b04d447; 0xd20d85fd; 0xa50ab56b; 0x35b5a8fa; 0x42b2986c;
  0xdbbbc9d6; 0xacbcf940; 0x32d86ce3; 0x45df5c75; 0xdcd60dcf; 0xabd13d59;
  0x26d930ac; 0x51de003a; 0xc8d75180; 0xbfd06116; 0x21b4f4b5; 0x56b3c423;
  0xcfba9599; 0xb8bda50f; 0x2802b89e; 0x5f058808; 0xc60cd9b2; 0xb10be924;
  0x2f6f7c87; 0x58684c11; 0xc1611dab; 0xb6662d3d; 0x76dc4190; 0x01db7106;
  0x98d220bc; 0xefd5102a; 0x71b18589; 0x06b6b51f; 0x9fbfe4a5; 0xe8b8d433;
  0x7807c9a2; 0x0f00f934; 0x9609a88e; 0xe10e9818; 0x7f6a0dbb; 0x086d3d2d;
  0x91646c97; 0xe6635c01; 0x6b6b51f4; 0x1c6c6162; 0x856530d8; 0xf262004e;
  0x6c0695ed; 0x1b01a57b; 0x8208f4c1; 0xf50fc457; 0x65b0d9c6; 0x12b7e950;
  0x8bbeb8ea; 0xfcb9887c; 0x62dd1ddf; 0x15da2d49; 0x8cd37cf3; 0xfbd44c65;
  0x4db26158; 0x3ab551ce; 0xa3bc0074; 0xd4bb30e2; 0x4adfa541; 0x3dd895d7;
  0xa4d1c46d; 0xd3d6f4fb; 0x4369e96a; 0x346ed9fc; 0xad678846; 0xda60b8d0;
  0x44042d73; 0x33031de5; 0xaa0a4c5f; 0xdd0d7cc9; 0x5005713c; 0x270241aa;
  0xbe0b1010; 0xc90c2086; 0x5768b525; 0x206f85b3; 0xb966d409; 0xce61e49f;
  0x5edef90e; 0x29d9c998; 0xb0d09822; 0xc7d7a8b4; 0x59b33d17; 0x2eb40d81;
  0xb7bd5c3b; 0xc0ba6cad; 0xedb88320; 0x9abfb3b6; 0x03b6e20c; 0x74b1d29a;
  0xead54739; 0x9dd277af; 0x04db2615; 0x73dc1683; 0xe3630b12; 0x94643b84;
  0x0d6d6a3e; 0x7a6a5aa8; 0xe40ecf0b; 0x9309ff9d; 0x0a00ae27; 0x7d079eb1;
  0xf00f9344; 0x8708a3d2; 0x1e01f268; 0x6906c2fe; 0xf762575d; 0x806567cb;
  0x196c3671; 0x6e6b06e7; 0xfed41b76; 0x89d32be0; 0x10da7a5a; 0x67dd4acc;
  0xf9b9df6f; 0x8ebeeff9; 0x17b7be43; 0x60b08ed5; 0xd6d6a3e8; 0xa1d1937e;
  0x38d8c2c4; 0x4fdff252; 0xd1bb67f1; 0xa6bc5767; 0x3fb506dd; 0x48b2364b;
  0xd80d2bda; 0xaf0a1b4c; 0x36034af6; 0x41047a60; 0xdf60efc3; 0xa867df55;
  0x316e8eef; 0x4669be79; 0xcb61b38c; 0xbc66831a; 0x256fd2a0; 0x5268e236;
  0xcc0c7795; 0xbb0b4703; 0x220216b9; 0x5505262f; 0xc5ba3bbe; 0xb2bd0b28;
  0x2bb45a92; 0x5cb36a04; 0xc2d7ffa7; 0xb5d0cf31; 0x2cd99e8b; 0x5bdeae1d;
  0x9b64c2b0; 0xec63f226; 0x756aa39c; 0x026d930a; 0x9c0906a9; 0xeb0e363f;
  0x72076785; 0x05005713; 0x95bf4a82; 0xe2b87a14; 0x7bb12bae; 0x0cb61b38;
  0x92d28e9b; 0xe5d5be0d; 0x7cdcefb7; 0x0bdbdf21; 0x86d3d2d4; 0xf1d4e242;
  0x68ddb3f8; 0x1fda836e; 0x81be16cd; 0xf6b9265b; 0x6fb077e1; 0x18b74777;
  0x88085ae6; 0xff0f6a70; 0x66063bca; 0x11010b5c; 0x8f659eff; 0xf862ae69;
  0x616bffd3; 0x166ccf45; 0xa00ae278; 0xd70dd2ee; 0x4e048354; 0x3903b3c2;
  0xa7672661; 0xd06016f7; 0x4969474d; 0x3e6e77db; 0xaed16a4a; 0xd9d65adc;
  0x40df0b66; 0x37d83bf0; 0xa9bcae53; 0xdebb9ec5; 0x47b2cf7f; 0x30b5ffe9;
  0xbdbdf21c; 0xcabac28a; 0x53b39330; 0x24b4a3a6; 0xbad03605; 0xcdd70693;
  0x54de5729; 0x23d967bf; 0xb3667a2e; 0xc4614ab8; 0x5d681b02; 0x2a6f2b94;
  0xb40bbe37; 0xc30c8ea1; 0x5a05df1b; 0x2d02ef8d
].

(** [DO1]: the byte at [buf] into the checksum. *)
Definition DO1 (crc b : Z) : Z :=
  Z.lxor (nth (Z.to_nat (Z.land (Z.lxor crc b) 0xff)) crc_table 0) (Z.shiftr crc 8).
Definition DO8 (crc b0 b1 b2 b3 b4 b5 b6 b7 : Z) : Z :=
  DO1 (DO1 (DO1 (DO1 (DO1 (DO1 (DO1 (DO1 crc b0) b1) b2) b3) b4) b5) b6) b7.

(** [while (len >= 8) { DO8(buf); len -= 8; }], [n] rounds. *)
Fixpoint crc_blocks (n : nat) (crc : Z) (buf : list Z) : Z * list Z :=
  match n with
  | O => (crc, buf)
  | S n =>
      match buf with
      | b0 :: b1 :: b2 :: b3 :: b4 :: b5 :: b6 :: b7 :: buf => crc_blocks n (DO8 crc b0 b1 b2 b3 b4 b5 b6 b7) buf
      | _ => (crc, buf)
      end
  end.
(** ... [if (len) do { DO1(buf); } while (--len);] *)
Definition crc_loop (crc : Z) (buf : list Z) : Z :=
  let '(crc, buf) := crc_blocks (length buf / 8)%nat crc buf in foldl DO1 crc buf.
(** [buf] holds the [len] bytes the checksum is computed over. *)
Definition crc32 (crc : Z) (buf : list Z) : Z :=
  Z.lxor (crc_loop (Z.lxor crc 0xffffffff) buf) 0xffffffff.

(** ** The shift register *)
Definition is_byte (b : Z) : Prop := 0 ≤ b < 256.
#[global] Instance is_byte_dec b : Decision (is_byte b).
Proof. unfold is_byte. apply _. Defined.
Definition is_word (w : Z) : Prop := 0 ≤ w < 2 ^ 32.

(** A byte is added to the low end of the register, which is then shifted eight
    times; each bit that leaves adds the polynomial. *)
Definition lfsr_byte (r b : Z) : Z := Nat.iter 8 shift_bit (Z.lxor r b).
Definition lfsr (crc : Z) (buf : list Z) : Z :=
  Z.lxor (foldl lfsr_byte (Z.lxor crc 0xffffffff) buf) 0xffffffff.

(** ** The table *)
Lemma table_generated : crc_table = make_crc_table.
Proof. vm_compute. reflexivity. Qed.

Lemma table_lookup i : 0 ≤ i < 256 → nth (Z.to_nat i) crc_table 0 = Nat.iter 8 shift_bit i.
Proof.
  intros Hi. rewrite table_generated. unfold make_crc_table.
  apply nth_lookup_Some. rewrite list_lookup_fmap, lookup_seq_lt by lia.
  unfold fmap, option_fmap, option_map. by rewrite Nat.add_0_l, Z2Nat.id by lia.
Qed.

(** ** Shifting bits *)
Lemma land_1_odd c : (Z.land c 1 =? 0) = negb (Z.odd c).
Proof. change 1 with (Z.ones 1). rewrite Z.land_ones by lia. rewrite Zmod_odd. by destruct (Z.odd c). Qed.

Lemma shift_bit_alt c : shift_bit c = Z.lxor (if Z.odd c then poly else 0) (Z.shiftr c 1).
Proof. unfold shift_bit. rewrite land_1_odd. by destruct (Z.odd c). Qed.

(** The high bits of the register only move. *)
Lemma shift_bit_high h l k : 0 ≤ k →
  shift_bit (Z.lxor (Z.shiftl h (k + 1)) l) = Z.lxor (Z.shiftl h k) (shift_bit l).
Proof.
  intros Hk. rewrite !shift_bit_alt.
  assert (Hodd : Z.odd (Z.lxor (Z.shiftl h (k + 1)) l) = Z.odd l).
  { rewrite <-!Z.bit0_odd, Z.lxor_spec, Z.shiftl_spec_low by lia. by destruct (Z.testbit l 0). }
  rewrite Hodd, Z.shiftr_lxor, (Z.shiftr_shiftl_l _ _ 1) by lia.
  replace (k + 1 - 1) with k by lia. rewrite <-!Z.lxor_assoc.
  f_equal. apply Z.lxor_comm.
Qed.

Lemma shift_bits_high n h l k : 0 ≤ k →
  Nat.iter n shift_bit (Z.lxor (Z.shiftl h (k + Z.of_nat n)) l) =
  Z.lxor (Z.shiftl h k) (Nat.iter n shift_bit l).
Proof.
  intros Hk. revert l k Hk. induction n as [|n IH]; intros l k Hk.
  - by rewrite Z.add_0_r.
  - rewrite !Nat.iter_succ. replace (k + Z.of_nat (S n)) with ((k + 1) + Z.of_nat n) by lia.
    rewrite IH by lia. by apply shift_bit_high.
Qed.

Lemma split_byte c : c = Z.lxor (Z.shiftl (Z.shiftr c 8) 8) (Z.land c 0xff).
Proof.
  apply Z.bits_inj'. intros n Hn. rewrite Z.lxor_spec, Z.land_spec.
  change 255 with (Z.ones 8). destruct (Z.lt_ge_cases n 8).
  - rewrite Z.shiftl_spec_low, Z.ones_spec_low by lia. by rewrite andb_true_r.
  - rewrite Z.shiftl_spec, Z.shiftr_spec, Z.ones_spec_high by lia.
    replace (n - 8 + 8) with n by lia. by rewrite andb_false_r, xorb_false_r.
Qed.

Lemma byte_shiftr b : is_byte b → Z.shiftr b 8 = 0.
Proof. intros Hb. rewrite Z.shiftr_div_pow2 by lia. apply Z.div_small. exact Hb. Qed.

Lemma land_byte c : is_byte (Z.land c 0xff).
Proof. unfold is_byte. change 255 with (Z.ones 8). rewrite Z.land_ones by lia. by apply Z.mod_pos_bound. Qed.

(** One table step is eight shifts. *)
Lemma DO1_lfsr crc b : is_byte b → DO1 crc b = lfsr_byte crc b.
Proof.
  intros Hb. unfold DO1, lfsr_byte. rewrite table_lookup by apply land_byte.
  rewrite (split_byte (Z.lxor crc b)) at 2.
  assert (H := shift_bits_high 8 (Z.shiftr (Z.lxor crc b) 8) (Z.land (Z.lxor crc b) 255) 0 ltac:(lia)).
  change (0 + Z.of_nat 8) with 8 in H. rewrite H, Z.shiftl_0_r, Z.shiftr_lxor, (byte_shiftr b Hb), Z.lxor_0_r.
  apply Z.lxor_comm.
Qed.

Lemma crc_blocks_foldl n crc buf :
  let '(crc', buf') := crc_blocks n crc buf in foldl DO1 crc' buf' = foldl DO1 crc buf.
Proof.
  revert crc buf. induction n as [|n IH]; intros crc buf; [done|].
  destruct buf as [|b0 [|b1 [|b2 [|b3 [|b4 [|b5 [|b6 [|b7 buf]]]]]]]]; try done.
  specialize (IH (DO8 crc b0 b1 b2 b3 b4 b5 b6 b7) buf). cbn [crc_blocks].
  destruct (crc_blocks n _ buf). rewrite IH. unfold DO8. cbn [foldl]. reflexivity.
Qed.

Lemma crc_loop_foldl crc buf : crc_loop crc buf = foldl DO1 crc buf.
Proof.
  unfold crc_loop. assert (H := crc_blocks_foldl (length buf / 8) crc buf).
  by destruct (crc_blocks _ crc buf).
Qed.

(** C7: the unrolled, table-driven checksum is the bit-by-bit
    shift register of the polynomial, from any start value, on any bytes. *)
Theorem crc32_is_shift_register crc buf : Forall is_byte buf → crc32 crc buf = lfsr crc buf.
Proof.
  intros Hb. unfold crc32, lfsr. rewrite crc_loop_foldl. f_equal. generalize (Z.lxor crc 0xffffffff).
  induction Hb as [|b buf Hb _ IH]; intros r; [done|]. simpl. rewrite DO1_lfsr by done. apply IH.
Qed.

(** The table in the source is the one [make_crc_table]
    generates. *)
Theorem crc_table_is_generated : crc_table = make_crc_table.
Proof. apply table_generated. Qed.

(** A checksum can be continued: the checksum of one buffer is
    the start value for the next. *)
Theorem crc32_continues crc a b : crc32 (crc32 crc a) b = crc32 crc (a ++ b).
Proof.
  unfold crc32. rewrite !crc_loop_foldl, foldl_app. do 2 f_equal.
  rewrite Z.lxor_assoc, Z.lxor_nilpotent. apply Z.lxor_0_r.
Qed.

(** ** What the checksum detects *)
Lemma word_bits w : is_word w ↔ 0 ≤ w ∧ ∀ n, 32 ≤ n → Z.testbit w n = false.
Proof.
  split.
  - intros [H0 H]. split; [done|]. intros n Hn. rewrite <-(Z.mod_small w (2 ^ 32)) by done.
    by apply Z.mod_pow2_bits_high.
  - intros [H0 H]. assert (E : w = w mod 2 ^ 32).
    { apply Z.bits_inj'. intros n Hn. destruct (Z.lt_ge_cases n 32).
      - by rewrite Z.mod_pow2_bits_low.
      - rewrite H, Z.mod_pow2_bits_high by lia. done. }
    rewrite E. by apply Z.mod_pos_bound.
Qed.

Lemma word_lxor a b : is_word a → is_word b → is_word (Z.lxor a b).
Proof.
  rewrite !word_bits. intros [Ha Ha'] [Hb Hb']. split; [by rewrite Z.lxor_nonneg|].
  intros n Hn. by rewrite Z.lxor_spec, Ha', Hb'.
Qed.

Lemma word_shift_bit x : is_word x → is_word (shift_bit x).
Proof.
  intros Hx. rewrite shift_bit_alt. apply word_lxor.
  - by destruct (Z.odd x); vm_compute.
  - rewrite word_bits in *. destruct Hx as [H0 H]. split; [by apply Z.shiftr_nonneg|].
    intros n Hn. rewrite Z.shiftr_spec by lia. apply H. lia.
Qed.

Lemma word_shift_bits n x : is_word x → is_word (Nat.iter n shift_bit x).
Proof. intros Hx. induction n as [|n IH]; [done|]. rewrite Nat.iter_succ. by apply word_shift_bit. Qed.

(** The highest bit tells which bit was shifted out, so nothing is lost. *)
Lemma shift_bit_top x : is_word x → Z.testbit (shift_bit x) 31 = Z.odd x.
Proof.
  intros [_ H]%word_bits. rewrite shift_bit_alt, Z.lxor_spec, Z.shiftr_spec, H by lia.
  by destruct (Z.odd x).
Qed.

Lemma shift_bit_inj x y : is_word x → is_word y → shift_bit x = shift_bit y → x = y.
Proof.
  intros Hx Hy E. assert (Ho : Z.odd x = Z.odd y) by (rewrite <-!shift_bit_top by done; by rewrite E).
  rewrite !shift_bit_alt, Ho in E.
  assert (Hs : Z.shiftr x 1 = Z.shiftr y 1).
  { apply (f_equal (Z.lxor (if Z.odd y then poly else 0))) in E.
    by rewrite <-!Z.lxor_assoc, Z.lxor_nilpotent, !Z.lxor_0_l in E. }
  rewrite <-!Z.div2_spec in Hs. rewrite (Z.div2_odd x), (Z.div2_odd y), Ho. by rewrite Hs.
Qed.

Lemma shift_bits_inj n x y : is_word x → is_word y →
  Nat.iter n shift_bit x = Nat.iter n shift_bit y → x = y.
Proof.
  intros Hx Hy. induction n as [|n IH]; [done|]. rewrite !Nat.iter_succ.
  intros E. apply IH. by apply shift_bit_inj; [apply word_shift_bits..|].
Qed.

(** Bytes as one number, the first in the lowest place. *)
Definition le (u : list Z) : Z := foldr (λ b w, Z.lxor b (Z.shiftl w 8)) 0 u.

Lemma lfsr_bytes u r : foldl lfsr_byte r u = Nat.iter (8 * length u) shift_bit (Z.lxor r (le u)).
Proof.
  revert r. induction u as [|b u IH]; intros r; [by rewrite Z.lxor_0_r|].
  cbn [foldl le foldr]. fold (le u). rewrite IH. unfold lfsr_byte.
  assert (H := shift_bits_high 8 (le u) (Z.lxor r b) 0 ltac:(lia)).
  rewrite Z.shiftl_0_r, (Z.lxor_comm (le u)) in H. change (0 + Z.of_nat 8) with 8 in H. rewrite <-H, <-Nat.iter_add.
  replace (8 * length (b :: u))%nat with (8 * length u + 8)%nat by (cbn [length]; lia).
  f_equal. rewrite Z.lxor_comm, !Z.lxor_assoc. done.
Qed.

Lemma le_cons b u : is_byte b → le (b :: u) = b + 256 * le u.
Proof.
  intros Hb. cbn [le foldr]. fold (le u). rewrite <-Z.add_nocarry_lxor.
  - rewrite Z.shiftl_mul_pow2 by lia. lia.
  - apply Z.bits_inj'. intros n Hn. rewrite Z.land_spec, Z.bits_0.
    destruct (Z.lt_ge_cases n 8); [rewrite Z.shiftl_spec_low by lia; apply andb_false_r|].
    rewrite <-(Z.mod_small b (2 ^ 8)) by exact Hb. by rewrite Z.mod_pow2_bits_high by lia.
Qed.

Lemma le_range u : Forall is_byte u → 0 ≤ le u < 256 ^ Z.of_nat (length u).
Proof.
  induction 1 as [|b u Hb _ IH]; [done|]. rewrite le_cons by done. unfold is_byte in Hb.
  cbn [length]. rewrite Nat2Z.inj_succ, Z.pow_succ_r by lia. lia.
Qed.

Lemma le_inj u v : Forall is_byte u → Forall is_byte v → length u = length v → le u = le v → u = v.
Proof.
  intros Hu. revert v. induction Hu as [|b u Hb _ IH]; intros v Hv Hl E; [by destruct v|].
  destruct v as [|c v]; [done|]. apply Forall_cons_1 in Hv as [Hc Hv]. rewrite !le_cons in E by done.
  unfold is_byte in *. assert (b = c) by lia. subst. f_equal. apply IH; [done|by injection Hl|lia].
Qed.

Lemma lfsr_byte_word r b : is_word r → is_byte b → is_word (lfsr_byte r b).
Proof.
  intros Hr Hb. apply word_shift_bits, word_lxor; [done|]. unfold is_byte, is_word in *. lia.
Qed.

Lemma lfsr_word r u : is_word r → Forall is_byte u → is_word (foldl lfsr_byte r u).
Proof. intros Hr Hu. revert r Hr. induction Hu; intros r Hr; [done|]. simpl. auto using lfsr_byte_word. Qed.

Lemma le_word u : Forall is_byte u → (length u ≤ 4)%nat → is_word (le u).
Proof.
  intros Hu Hl. destruct (le_range u Hu) as [H0 H]. split; [done|].
  apply (Z.lt_le_trans _ _ _ H). change (2 ^ 32) with (256 ^ 4). apply Z.pow_le_mono_r; lia.
Qed.

Lemma lfsr_bytes_inj r u v : is_word r → Forall is_byte u → Forall is_byte v →
  length u = length v → (length u ≤ 4)%nat → foldl lfsr_byte r u = foldl lfsr_byte r v → u = v.
Proof.
  intros Hr Hu Hv Hl H4 E. rewrite !lfsr_bytes, <-Hl in E.
  apply shift_bits_inj in E; [|apply word_lxor; [done|apply le_word; [done|lia]]..].
  apply (f_equal (Z.lxor r)) in E. rewrite <-!Z.lxor_assoc, Z.lxor_nilpotent, !Z.lxor_0_l in E. by apply le_inj.
Qed.

Lemma lfsr_state_inj u r r' : is_word r → is_word r' → Forall is_byte u →
  foldl lfsr_byte r u = foldl lfsr_byte r' u → r = r'.
Proof.
  intros Hr Hr' Hu. revert r r' Hr Hr'. induction Hu as [|b u Hb _ IH]; intros r r' Hr Hr' E; [done|].
  simpl in E. apply IH in E; [|by apply lfsr_byte_word..]. unfold lfsr_byte in E.
  assert (Hw : is_word b) by (unfold is_word, is_byte in *; lia).
  apply shift_bits_inj in E; [|by apply word_lxor..].
  apply (f_equal (λ x, Z.lxor x b)) in E. by rewrite !Z.lxor_assoc, Z.lxor_nilpotent, !Z.lxor_0_r in E.
Qed.

Lemma foldl_DO1 r u : Forall is_byte u → foldl DO1 r u = foldl lfsr_byte r u.
Proof. intros Hu. revert r. induction Hu as [|b u Hb _ IH]; intros r; [done|]. simpl. by rewrite DO1_lfsr. Qed.

(** Two buffers that differ within four consecutive bytes only have different
    checksums. *)
Lemma crc32_burst crc a u v b : is_word crc → Forall is_byte (a ++ u ++ b) → Forall is_byte v →
  length u = length v → (length u ≤ 4)%nat →
  crc32 crc (a ++ u ++ b) = crc32 crc (a ++ v ++ b) → u = v.
Proof.
  intros Hc Hall Hv Hl H4. apply Forall_app in Hall as [Ha [Hu Hb]%Forall_app].
  unfold crc32. rewrite !crc_loop_foldl, !foldl_DO1 by (by rewrite ?Forall_app).
  intros E. apply (f_equal (λ x, Z.lxor x 0xffffffff)) in E.
  rewrite !Z.lxor_assoc, Z.lxor_nilpotent, !Z.lxor_0_r, !foldl_app in E.
  set (r := foldl lfsr_byte (Z.lxor crc 0xffffffff) a) in E.
  assert (Hr : is_word r) by (apply lfsr_word; [by apply word_lxor|done]).
  apply lfsr_state_inj in E; [|by apply lfsr_word..|done]. by apply (lfsr_bytes_inj r).
Qed.

(** C8: any damage within four consecutive bytes is detected: two
    buffers that differ there and nowhere else have different checksums. *)
Theorem crc32_detects_bursts crc a u v b : is_word crc → Forall is_byte (a ++ u ++ b) → Forall is_byte v →
  length u = length v → (length u ≤ 4)%nat → u ≠ v →
  crc32 crc (a ++ u ++ b) ≠ crc32 crc (a ++ v ++ b).
Proof. intros Hc Hall Hv Hl H4 Hne E. by apply Hne, (crc32_burst crc a u v b). Qed.

(** A checksum fits in 32 bits. *)
Lemma crc32_word crc u : is_word crc → Forall is_byte u → is_word (crc32 crc u).
Proof.
  intros Hc Hu. unfold crc32. rewrite crc_loop_foldl, foldl_DO1 by done.
  apply word_lxor; [|done]. apply lfsr_word; [|done]. by apply word_lxor.
Qed.

(** ** Examples *)

(** The check value of CRC-32: the checksum of the digits 1 to 9. *)
Example crc32_check_value : crc32 0 [49; 50; 51; 52; 53; 54; 55; 56; 57] = 0xcbf43926.
Proof. vm_compute. reflexivity. Qed.

Lemma crc32_is_shift_register_witness : crc32 0 [49; 50; 51] = lfsr 0 [49; 50; 51].
Proof. apply crc32_is_shift_register. apply (bool_decide_unpack _). vm_compute. exact I. Defined.

Lemma crc32_detects_bursts_witness : crc32 0 ([1; 2] ++ [3; 4; 5; 6] ++ [7]) ≠ crc32 0 ([1; 2] ++ [0; 0; 0; 1] ++ [7]).
Proof. apply crc32_detects_bursts; [by vm_compute| | |done|simpl; lia|done];
  apply (bool_decide_unpack _); vm_compute; exact I. Defined.
