(* ===== verification/Image.v ===== *)
(** * Images: image.h and the header code of mkimage.c

    The codes and the 64-byte header of
    [src/sources/utils/brbox-mkimage/image.h], the name tables of
    [src/sources/utils/brbox-mkimage/mkimage.c], the look-ups in them, the
    check of a header, and the proof that a header that was written is
    recognised and a damaged one is not. *)

From stdpp Require Import base list strings numbers.
From Stdlib Require Import ZArith Lia Ascii.
From S2P Require Import Prelude KString Crc32.

(** ** Codes *)
Definition IH_OS_INVALID : Z := 0.
Definition IH_OS_OPENBSD : Z := 1.
Definition IH_OS_NETBSD : Z := 2.
Definition IH_OS_FREEBSD : Z := 3.
Definition IH_OS_4_4BSD : Z := 4.
Definition IH_OS_LINUX : Z := 5.
Definition IH_OS_SVR4 : Z := 6.
Definition IH_OS_ESIX : Z := 7.
Definition IH_OS_SOLARIS : Z := 8.
Definition IH_OS_IRIX : Z := 9.
Definition IH_OS_SCO : Z := 10.
Definition IH_OS_DELL : Z := 11.
Definition IH_OS_NCR : Z := 12.
Definition IH_OS_LYNXOS : Z := 13.
Definition IH_OS_VXWORKS : Z := 14.
Definition IH_OS_PSOS : Z := 15.
Definition IH_OS_QNX : Z := 16.
Definition IH_OS_U_BOOT : Z := 17.
Definition IH_OS_RTEMS : Z := 18.
Definition IH_OS_ARTOS : Z := 19.
Definition IH_OS_UNITY : Z := 20.
Definition IH_CPU_INVALID : Z := 0.
Definition IH_CPU_ALPHA : Z := 1.
Definition IH_CPU_ARM : Z := 2.
Definition IH_CPU_I386 : Z := 3.
Definition IH_CPU_IA64 : Z := 4.
Definition IH_CPU_MIPS : Z := 5.
Definition IH_CPU_MIPS64 : Z := 6.
Definition IH_CPU_PPC : Z := 7.
Definition IH_CPU_S390 : Z := 8.
Definition IH_CPU_SH : Z := 9.
Definition IH_CPU_SPARC : Z := 10.
Definition IH_CPU_SPARC64 : Z := 11.
Definition IH_CPU_M68K : Z := 12.
Definition IH_CPU_NIOS : Z := 13.
Definition IH_CPU_MICROBLAZE : Z := 14.
Definition IH_CPU_NIOS2 : Z := 15.
Definition IH_TYPE_INVALID : Z := 0.
Definition IH_TYPE_STANDALONE : Z := 1.
Definition IH_TYPE_KERNEL : Z := 2.
Definition IH_TYPE_RAMDISK : Z := 3.
Definition IH_TYPE_MULTI : Z := 4.
Definition IH_TYPE_FIRMWARE : Z := 5.
Definition IH_TYPE_SCRIPT : Z := 6.
Definition IH_TYPE_FILESYSTEM : Z := 7.
Definition IH_TYPE_UBOOT : Z := 8.
Definition IH_TYPE_BRBOX_PROJ : Z := 9.
Definition IH_TYPE_BRBOX_STTNG : Z := 10.
Definition IH_TYPE_BRBOX_USRDAT : Z := 11.
Definition IH_TYPE_BRBOX_ROOT_BTR : Z := 12.
Definition IH_TYPE_BRBOX_ROOT_RP1 : Z := 13.
Definition IH_TYPE_BRBOX_ROOT_RP2 : Z := 14.
Definition IH_TYPE_BRBOX_ROOT_BBB : Z := 15.
Definition IH_TYPE_BRBOX_ROOT_WDB : Z := 16.
Definition IH_TYPE_BRBOX_ROOT_RP3 : Z := 17.
Definition IH_TYPE_BRBOX_ROOT_RP0 : Z := 18.
Definition IH_TYPE_BRBOX_GLMT300NV2 : Z := 19.
Definition IH_TYPE_BRBOX_GLAR150 : Z := 20.
Definition IH_TYPE_BRBOX_SIGNATURE : Z := 21.
Definition IH_TYPE_BRBOX_HLKRM04 : Z := 22.
Definition IH_COMP_NONE : Z := 0.
Definition IH_COMP_GZIP : Z := 1.
Definition IH_COMP_BZIP2 : Z := 2.
Definition IH_COMP_LZMA2 : Z := 3.
Definition IH_MAGIC : Z := 0x27051956.
Definition IH_NMLEN : Z := 32.

Definition STR_TYPE_BRBOX_PROJ : string := "BrBoxProj".
Definition STR_TYPE_BRBOX_STTNG : string := "BrBoxSttng".
Definition STR_TYPE_BRBOX_USRDAT : string := "BrBoxUsrDt".
Definition STR_TYPE_BRBOX_ROOT_BTR : string := "BrBoxRtBtr".
Definition STR_TYPE_BRBOX_ROOT_RP1 : string := "BrBoxRtRp1".
Definition STR_TYPE_BRBOX_ROOT_RP2 : string := "BrBoxRtRp2".
Definition STR_TYPE_BRBOX_ROOT_BBB : string := "BrBoxRtBbb".
Definition STR_TYPE_BRBOX_ROOT_WDB : string := "BrBoxRtWdb".
Definition STR_TYPE_BRBOX_ROOT_RP3 : string := "BrBoxRtRp3".
Definition STR_TYPE_BRBOX_ROOT_RP0 : string := "BrBoxRtRp0".
Definition STR_TYPE_BRBOX_GLMT300NV2 : string := "BrBoxGl300N".
Definition STR_TYPE_BRBOX_GLAR150 : string := "BrBoxGlA150".
Definition STR_TYPE_BRBOX_SIGNATURE : string := "BrBoxSign".
Definition STR_TYPE_BRBOX_HLKRM04 : string := "BrBoxHlRm04".

(** ** Name tables *)

(** [table_entry_t]; a NULL short name is [None]. *)
Record table_entry := TE { val : Z; sname : option string; lname : string }.
#[global] Instance table_entry_eq_dec : EqDecision table_entry.
Proof. solve_decision. Defined.

Definition arch_name : list table_entry := [
  TE IH_CPU_INVALID None "Invalid CPU";
  TE IH_CPU_ALPHA (Some "alpha") "Alpha";
  TE IH_CPU_ARM (Some "arm") "ARM";
  TE IH_CPU_I386 (Some "x86") "Intel x86";
  TE IH_CPU_IA64 (Some "ia64") "IA64";
  TE IH_CPU_M68K (Some "m68k") "MC68000";
  TE IH_CPU_MICROBLAZE (Some "microblaze") "MicroBlaze";
  TE IH_CPU_MIPS (Some "mips") "MIPS";
  TE IH_CPU_MIPS64 (Some "mips64") "MIPS 64 Bit";
  TE IH_CPU_NIOS (Some "nios") "NIOS";
  TE IH_CPU_NIOS2 (Some "nios2") "NIOS II";
  TE IH_CPU_PPC (Some "ppc") "PowerPC";
  TE IH_CPU_S390 (Some "s390") "IBM S390";
  TE IH_CPU_SH (Some "sh") "SuperH";
  TE IH_CPU_SPARC (Some "sparc") "SPARC";
  TE IH_CPU_SPARC64 (Some "sparc64") "SPARC 64 Bit";
  TE (-1) (Some "") ""
].

Definition os_name : list table_entry := [
  TE IH_OS_INVALID None "Invalid OS";
  TE IH_OS_4_4BSD (Some "4_4bsd") "4_4BSD";
  TE IH_OS_ARTOS (Some "artos") "ARTOS";
  TE IH_OS_DELL (Some "dell") "Dell";
  TE IH_OS_ESIX (Some "esix") "Esix";
  TE IH_OS_FREEBSD (Some "freebsd") "FreeBSD";
  TE IH_OS_IRIX (Some "irix") "Irix";
  TE IH_OS_LINUX (Some "linux") "Linux";
  TE IH_OS_LYNXOS (Some "lynxos") "LynxOS";
  TE IH_OS_NCR (Some "ncr") "NCR";
  TE IH_OS_NETBSD (Some "netbsd") "NetBSD";
  TE IH_OS_OPENBSD (Some "openbsd") "OpenBSD";
  TE IH_OS_PSOS (Some "psos") "pSOS";
  TE IH_OS_QNX (Some "qnx") "QNX";
  TE IH_OS_RTEMS (Some "rtems") "RTEMS";
  TE IH_OS_SCO (Some "sco") "SCO";
  TE IH_OS_SOLARIS (Some "solaris") "Solaris";
  TE IH_OS_SVR4 (Some "svr4") "SVR4";
  TE IH_OS_U_BOOT (Some "u-boot") "U-Boot";
  TE IH_OS_VXWORKS (Some "vxworks") "VxWorks";
  TE (-1) (Some "") ""
].

Definition type_name : list table_entry := [
  TE IH_TYPE_INVALID None "Invalid Image";
  TE IH_TYPE_FILESYSTEM (Some "filesystem") "Filesystem Image";
  TE IH_TYPE_FIRMWARE (Some "firmware") "Firmware";
  TE IH_TYPE_KERNEL (Some "kernel") "Kernel Image";
  TE IH_TYPE_MULTI (Some "multi") "Multi-File Image";
  TE IH_TYPE_RAMDISK (Some "ramdisk") "RAMDisk Image";
  TE IH_TYPE_SCRIPT (Some "script") "Script";
  TE IH_TYPE_STANDALONE (Some "standalone") "Standalone Program";
  TE IH_TYPE_UBOOT (Some "uboot") "U-Boot Image";
  TE IH_TYPE_BRBOX_PROJ (Some STR_TYPE_BRBOX_PROJ) "BrBox Proj Image";
  TE IH_TYPE_BRBOX_STTNG (Some STR_TYPE_BRBOX_STTNG) "BrBox Settng Image";
  TE IH_TYPE_BRBOX_USRDAT (Some STR_TYPE_BRBOX_USRDAT) "BrBox UsrDat Image";
  TE IH_TYPE_BRBOX_ROOT_BTR (Some STR_TYPE_BRBOX_ROOT_BTR) "BrBox RfsBtr Image";
  TE IH_TYPE_BRBOX_ROOT_RP1 (Some STR_TYPE_BRBOX_ROOT_RP1) "BrBox RfsRp1 Image";
  TE IH_TYPE_BRBOX_ROOT_RP2 (Some STR_TYPE_BRBOX_ROOT_RP2) "BrBox RfsRp2 Image";
  TE IH_TYPE_BRBOX_ROOT_BBB (Some STR_TYPE_BRBOX_ROOT_BBB) "BrBox RfsBbb Image";
  TE IH_TYPE_BRBOX_ROOT_WDB (Some STR_TYPE_BRBOX_ROOT_WDB) "BrBox RfsWdb Image";
  TE IH_TYPE_BRBOX_ROOT_RP3 (Some STR_TYPE_BRBOX_ROOT_RP3) "BrBox RfsRp3 Image";
  TE IH_TYPE_BRBOX_ROOT_RP0 (Some STR_TYPE_BRBOX_ROOT_RP0) "BrBox RfsRp0 Image";
  TE IH_TYPE_BRBOX_GLMT300NV2 (Some STR_TYPE_BRBOX_GLMT300NV2) "BrBox Gl300Nv2 Image";
  TE IH_TYPE_BRBOX_GLAR150 (Some STR_TYPE_BRBOX_GLAR150) "BrBox GlAr150 Image";
  TE IH_TYPE_BRBOX_SIGNATURE (Some STR_TYPE_BRBOX_SIGNATURE) "BrBox Sign Image";
  TE IH_TYPE_BRBOX_HLKRM04 (Some STR_TYPE_BRBOX_HLKRM04) "BrBox HlkRm04 Image";
  TE (-1) (Some "") ""
].

Definition comp_name : list table_entry := [
  TE IH_COMP_NONE (Some "none") "uncompressed";
  TE IH_COMP_BZIP2 (Some "bzip2") "bzip2 compressed";
  TE IH_COMP_GZIP (Some "gzip") "gzip compressed";
  TE IH_COMP_LZMA2 (Some "lzma2") "lzma2 compressed";
  TE (-1) (Some "") ""
].

(** [put_table_entry]: the long name of a code. *)
Fixpoint put_table_entry (table : list table_entry) (msg : string) (type : Z) : string :=
  match table with
  | [] => msg
  | t :: table =>
      if val t <? 0 then msg
      else if val t =? type then lname t else put_table_entry table msg type
  end.
Definition put_arch (arch : Z) : string := put_table_entry arch_name "Unknown Architecture" arch.
Definition put_os (os : Z) : string := put_table_entry os_name "Unknown OS" os.
Definition put_type (type : Z) : string := put_table_entry type_name "Unknown Image" type.
Definition put_comp (comp : Z) : string := put_table_entry comp_name "Unknown Compression" comp.

(** [strcasecmp(a,b)==0] *)
Definition tolower (c : ascii) : ascii :=
  let n := N_of_ascii c in if ((65 <=? n) && (n <=? 90))%N then ascii_of_N (n + 32) else c.
Fixpoint strcasecmp_eq (a b : string) : bool :=
  match a, b with
  | EmptyString, EmptyString => true
  | String c a, String d b => Ascii.eqb (tolower c) (tolower d) && strcasecmp_eq a b
  | _, _ => false
  end.

(** [get_table_entry]: the code of a short name, [-1] for an unknown one. *)
Fixpoint get_table_entry (table : list table_entry) (name : string) : Z :=
  match table with
  | [] => -1
  | t :: table =>
      if val t <? 0 then -1
      else if (match sname t with Some s => strcasecmp_eq s name | None => false end) then val t
      else get_table_entry table name
  end.
Definition get_arch (name : string) : Z := get_table_entry arch_name name.
Definition get_comp (name : string) : Z := get_table_entry comp_name name.
Definition get_os (name : string) : Z := get_table_entry os_name name.
Definition get_type (name : string) : Z := get_table_entry type_name name.

Definition get_image_type (image_name : string) : Z :=
  if String.eqb image_name "uboot" then IH_TYPE_UBOOT
  else if String.eqb image_name "kernel" then IH_TYPE_KERNEL
  else if String.eqb image_name "ramdisk" then IH_TYPE_RAMDISK
  else if String.eqb image_name STR_TYPE_BRBOX_PROJ then IH_TYPE_BRBOX_PROJ
  else if String.eqb image_name STR_TYPE_BRBOX_STTNG then IH_TYPE_BRBOX_STTNG
  else if String.eqb image_name STR_TYPE_BRBOX_USRDAT then IH_TYPE_BRBOX_USRDAT
  else if String.eqb image_name STR_TYPE_BRBOX_ROOT_BTR then IH_TYPE_BRBOX_ROOT_BTR
  else if String.eqb image_name STR_TYPE_BRBOX_ROOT_RP1 then IH_TYPE_BRBOX_ROOT_RP1
  else if String.eqb image_name STR_TYPE_BRBOX_ROOT_RP2 then IH_TYPE_BRBOX_ROOT_RP2
  else if String.eqb image_name STR_TYPE_BRBOX_ROOT_BBB then IH_TYPE_BRBOX_ROOT_BBB
  else if String.eqb image_name STR_TYPE_BRBOX_ROOT_WDB then IH_TYPE_BRBOX_ROOT_WDB
  else if String.eqb image_name STR_TYPE_BRBOX_ROOT_RP3 then IH_TYPE_BRBOX_ROOT_RP3
  else if String.eqb image_name STR_TYPE_BRBOX_ROOT_RP0 then IH_TYPE_BRBOX_ROOT_RP0
  else if String.eqb image_name STR_TYPE_BRBOX_GLMT300NV2 then IH_TYPE_BRBOX_GLMT300NV2
  else if String.eqb image_name STR_TYPE_BRBOX_GLAR150 then IH_TYPE_BRBOX_GLAR150
  else if String.eqb image_name STR_TYPE_BRBOX_SIGNATURE then IH_TYPE_BRBOX_SIGNATURE
  else if String.eqb image_name STR_TYPE_BRBOX_HLKRM04 then IH_TYPE_BRBOX_HLKRM04
  else IH_TYPE_INVALID.

(** ** The header

    [image_header_t] as the 64 bytes in memory; all fields of more than a byte
    are in network byte order. *)
Definition HDR : nat := 64.
Definition be32 (b0 b1 b2 b3 : Z) : Z := b0 * 16777216 + b1 * 65536 + b2 * 256 + b3.
(** [ntohl] of the 32-bit field at an offset. *)
Definition get32 (h : list Z) (off : nat) : Z :=
  match drop off h with b0 :: b1 :: b2 :: b3 :: _ => be32 b0 b1 b2 b3 | _ => 0 end.
(** [htonl], as the bytes it stores. *)
Definition put32 (z : Z) : list Z := [u8 (z / 16777216); u8 (z / 65536); u8 (z / 256); u8 z].
Definition get8 (h : list Z) (off : nat) : Z := nth off h 0.

Definition ih_magic h := get32 h 0.
Definition ih_hcrc h := get32 h 4.
Definition ih_time h := get32 h 8.
Definition ih_size h := get32 h 12.
Definition ih_load h := get32 h 16.
Definition ih_ep h := get32 h 20.
Definition ih_dcrc h := get32 h 24.
Definition ih_os h := get8 h 28.
Definition ih_arch h := get8 h 29.
Definition ih_type h := get8 h 30.
Definition ih_comp h := get8 h 31.
Definition ih_name (h : list Z) : list Z := take 32 (drop 32 h).

(** [hdr->ih_hcrc = htonl(0)] *)
Definition clear_hcrc (h : list Z) : list Z := take 4 h ++ [0; 0; 0; 0] ++ drop 8 h.

(** [check_header]: 0 for a good header, -1 otherwise. *)
Definition check_header (h : list Z) : Z :=
  if negb (ih_magic h =? IH_MAGIC) then -1
  else if negb (crc32 0 (clear_hcrc h) =? ih_hcrc h) then -1
  else 0.

(** The header that [main] builds, field by field, over a zeroed one; its own
    checksum is computed last, over the header with the field still zero. *)
Definition strncpy_name (name : list Z) : list Z :=
  let n := take 32 name in n ++ replicate (32 - length n) 0.
Definition header_body (hcrc time size load ep dcrc os arch type comp : Z) (name : list Z) : list Z :=
  put32 IH_MAGIC ++ put32 hcrc ++ put32 time ++ put32 size ++ put32 load ++ put32 ep ++ put32 dcrc ++
  [u8 os; u8 arch; u8 type; u8 comp] ++ strncpy_name name.
Definition build_header (time size load ep dcrc os arch type comp : Z) (name : list Z) : list Z :=
  let checksum := crc32 0 (header_body 0 time size load ep dcrc os arch type comp name) in
  header_body checksum time size load ep dcrc os arch type comp name.

(** ** Properties *)

Lemma be32_put32 z : be32 (u8 (z / 16777216)) (u8 (z / 65536)) (u8 (z / 256)) (u8 z) = u32 z.
Proof.
  assert (H2 : z / 65536 = z / 256 / 256) by (rewrite Z.div_div by lia; done).
  assert (H3 : z / 16777216 = z / 256 / 256 / 256) by (rewrite !Z.div_div by lia; done).
  unfold be32, u8, u32. rewrite H2, H3.
  assert (Hm : z mod 4294967296 = z - 4294967296 * (z / 4294967296)) by (rewrite Z.mod_eq; lia).
  assert (H4 : z / 4294967296 = z / 256 / 256 / 256 / 256) by (rewrite !Z.div_div by lia; done).
  rewrite Hm, H4. generalize (Z.div_mod z 256), (Z.div_mod (z / 256) 256), (Z.div_mod (z / 256 / 256) 256),
    (Z.div_mod (z / 256 / 256 / 256) 256). lia.
Qed.

Lemma be32_inj a0 a1 a2 a3 b0 b1 b2 b3 : is_byte a0 → is_byte a1 → is_byte a2 → is_byte a3 →
  is_byte b0 → is_byte b1 → is_byte b2 → is_byte b3 →
  be32 a0 a1 a2 a3 = be32 b0 b1 b2 b3 → [a0; a1; a2; a3] = [b0; b1; b2; b3].
Proof. unfold is_byte, be32. intros. repeat f_equal; lia. Qed.

Lemma put32_length z : length (put32 z) = 4%nat.
Proof. done. Qed.

Lemma strncpy_length name : length (strncpy_name name) = 32%nat.
Proof. unfold strncpy_name. rewrite length_app, length_replicate, length_take. lia. Qed.

Lemma header_body_length hcrc time size load ep dcrc os arch type comp name :
  length (header_body hcrc time size load ep dcrc os arch type comp name) = HDR.
Proof. unfold header_body. rewrite !length_app, strncpy_length. done. Qed.

Lemma is_byte_u8 z : is_byte (u8 z).
Proof. apply u8_range. Qed.

Lemma header_body_bytes hcrc time size load ep dcrc os arch type comp name : Forall is_byte name →
  Forall is_byte (header_body hcrc time size load ep dcrc os arch type comp name).
Proof.
  intros Hn. unfold header_body, put32, strncpy_name. cbn [app].
  repeat (constructor; [apply is_byte_u8|]). apply Forall_app. split; [by apply Forall_take|].
  apply Forall_replicate. by vm_compute.
Qed.

(** The fields of a header that was built. *)
Lemma header_body_fields hcrc time size load ep dcrc os arch type comp name :
  let h := header_body hcrc time size load ep dcrc os arch type comp name in
  ih_magic h = IH_MAGIC ∧ ih_hcrc h = u32 hcrc ∧ ih_time h = u32 time ∧ ih_size h = u32 size ∧
  ih_load h = u32 load ∧ ih_ep h = u32 ep ∧ ih_dcrc h = u32 dcrc ∧
  ih_os h = u8 os ∧ ih_arch h = u8 arch ∧ ih_type h = u8 type ∧ ih_comp h = u8 comp ∧
  ih_name h = strncpy_name name.
Proof.
  intros h. unfold h, ih_magic, ih_hcrc, ih_time, ih_size, ih_load, ih_ep, ih_dcrc, get32, header_body, put32.
  cbn [app drop]. rewrite !be32_put32. split_and!; try done. unfold ih_name.
  cbn [drop app]. rewrite drop_0. rewrite take_ge; [done|]. by rewrite strncpy_length.
Qed.

Lemma clear_header_body hcrc time size load ep dcrc os arch type comp name :
  clear_hcrc (header_body hcrc time size load ep dcrc os arch type comp name) =
  header_body 0 time size load ep dcrc os arch type comp name.
Proof. done. Qed.

Lemma build_header_ok time size load ep dcrc os arch type comp name : Forall is_byte name →
  check_header (build_header time size load ep dcrc os arch type comp name) = 0.
Proof.
  intros Hn. unfold check_header, build_header.
  destruct (header_body_fields (crc32 0 (header_body 0 time size load ep dcrc os arch type comp name))
    time size load ep dcrc os arch type comp name) as (-> & -> & _).
  rewrite clear_header_body, u32_small; [by rewrite !Z.eqb_refl|].
  apply crc32_word; [done|]. by apply header_body_bytes.
Qed.

(** A header that was built passes [check_header], and its
    fields read back as they were given, cut to their width; the name is cut to
    32 bytes and padded with zeros. *)
Theorem header_round_trip time size load ep dcrc os arch type comp name : Forall is_byte name →
  let h := build_header time size load ep dcrc os arch type comp name in
  length h = HDR ∧ check_header h = 0 ∧ ih_magic h = IH_MAGIC ∧ ih_time h = u32 time ∧
  ih_size h = u32 size ∧ ih_load h = u32 load ∧ ih_ep h = u32 ep ∧ ih_dcrc h = u32 dcrc ∧
  ih_os h = u8 os ∧ ih_arch h = u8 arch ∧ ih_type h = u8 type ∧ ih_comp h = u8 comp ∧
  ih_name h = strncpy_name name.
Proof.
  intros Hn h. split; [apply header_body_length|]. split; [by apply build_header_ok|].
  unfold h, build_header. destruct (header_body_fields (crc32 0 (header_body 0 time size load ep dcrc os arch
    type comp name)) time size load ep dcrc os arch type comp name) as (? & ? & ?). done.
Qed.

Lemma check_header_inv h : check_header h = 0 ↔ ih_magic h = IH_MAGIC ∧ crc32 0 (clear_hcrc h) = ih_hcrc h.
Proof.
  unfold check_header. destruct (Z.eqb_spec (ih_magic h) IH_MAGIC), (Z.eqb_spec (crc32 0 (clear_hcrc h)) (ih_hcrc h));
    simpl; naive_solver.
Qed.

Lemma get32_split a u b : length u = 4%nat → get32 (a ++ u ++ b) (length a) = get32 u 0.
Proof.
  intros Hu. unfold get32. rewrite drop_app_length.
  destruct u as [|? [|? [|? [|? [|]]]]]; done.
Qed.

Lemma get32_inj u v : length u = 4%nat → length v = 4%nat → Forall is_byte u → Forall is_byte v →
  get32 u 0 = get32 v 0 → u = v.
Proof.
  destruct u as [|? [|? [|? [|? [|]]]]], v as [|? [|? [|? [|? [|]]]]]; try done.
  intros _ _ Hu Hv. unfold get32. simpl drop.
  repeat (apply Forall_cons_1 in Hu as [? Hu]). repeat (apply Forall_cons_1 in Hv as [? Hv]).
  by apply be32_inj.
Qed.

(** The header as its magic number, its checksum and the rest. *)
Lemma header_split h : length h = HDR → ∃ m c r, h = m ++ c ++ r ∧ length m = 4%nat ∧ length c = 4%nat ∧
  ih_magic h = get32 m 0 ∧ ih_hcrc h = get32 c 0 ∧ clear_hcrc h = m ++ [0; 0; 0; 0] ++ r.
Proof.
  intros Hl. exists (take 4 h), (take 4 (drop 4 h)), (drop 8 h).
  assert (E : h = take 4 h ++ take 4 (drop 4 h) ++ drop 8 h).
  { rewrite <-(take_drop 4 h) at 1. f_equal. rewrite <-(take_drop 4 (drop 4 h)) at 1. f_equal. by rewrite drop_drop. }
  unfold HDR in Hl. assert (H1 : length (take 4 h) = 4%nat) by (rewrite length_take; lia).
  assert (H2 : length (take 4 (drop 4 h)) = 4%nat) by (rewrite length_take, length_drop; lia).
  split_and!; try done.
  - unfold ih_magic. rewrite E at 1. exact (get32_split [] (take 4 h) _ H1).
  - unfold ih_hcrc. rewrite E at 1.
    assert (G := get32_split (take 4 h) (take 4 (drop 4 h)) (drop 8 h) H2). by rewrite H1 in G.
Qed.

Lemma check_header_parts m c r : length m = 4%nat → length c = 4%nat →
  check_header (m ++ c ++ r) = 0 ↔
  get32 m 0 = IH_MAGIC ∧ crc32 0 (m ++ [0; 0; 0; 0] ++ r) = get32 c 0.
Proof.
  intros Hm Hc. rewrite check_header_inv. unfold ih_magic, ih_hcrc, clear_hcrc.
  rewrite (get32_split [] m (c ++ r) Hm : get32 (m ++ c ++ r) 0 = _).
  assert (G := get32_split m c r Hc). rewrite Hm in G. rewrite G.
  rewrite take_app_le, take_ge by lia. 
  rewrite (drop_app_ge m) by lia. rewrite Hm, (drop_app_ge c) by lia. rewrite Hc. by rewrite drop_0.
Qed.

Lemma check_header_bad h : check_header h ≠ 0 → check_header h = -1.
Proof. unfold check_header. destruct (negb _); [done|]. by destruct (negb _). Qed.

(** Of a good header, with its magic number [m], its checksum [c]
    and the rest [r], no damage to the magic number alone, to the checksum
    alone, or within four consecutive bytes of the rest goes unnoticed. *)
Theorem header_damage_detected m c r : length m = 4%nat → length c = 4%nat → Forall is_byte (m ++ c ++ r) →
  check_header (m ++ c ++ r) = 0 →
  (∀ m', length m' = 4%nat → Forall is_byte m' → m' ≠ m → check_header (m' ++ c ++ r) = -1) ∧
  (∀ c', length c' = 4%nat → Forall is_byte c' → c' ≠ c → check_header (m ++ c' ++ r) = -1) ∧
  (∀ a u v b, r = a ++ u ++ b → length v = length u → (length u ≤ 4)%nat → Forall is_byte v → v ≠ u →
     check_header (m ++ c ++ a ++ v ++ b) = -1).
Proof.
  intros Hm Hc Hb. apply Forall_app in Hb as [Hbm [Hbc Hbr]%Forall_app].
  rewrite check_header_parts by done. intros [Hmag Hcrc]. split_and!.
  - intros m' Hm' Hbm' Hne. apply check_header_bad. rewrite check_header_parts by done. intros [E _].
    apply Hne, get32_inj; [done..|congruence].
  - intros c' Hc' Hbc' Hne. apply check_header_bad. rewrite check_header_parts by done. intros [_ E].
    apply Hne, get32_inj; [done..|congruence].
  - intros a u v b -> Hl H4 Hbv Hne. apply check_header_bad. rewrite check_header_parts by done. intros [_ E].
    apply Hne. symmetry. apply Forall_app in Hbr as [Hba Hbub].
    apply (crc32_burst 0 (m ++ [0; 0; 0; 0] ++ a) u v b); [done| |done|done|done|].
    + rewrite <-!(assoc_L app). repeat (apply Forall_app; split); try done.
      all: try (apply Forall_app in Hbub as [? ?]; done).
      by repeat constructor.
    + rewrite <-!(assoc_L app). by rewrite Hcrc, E.
Qed.

(** ** The tables *)
Definition names_ok (table : list table_entry) (msg : string) : bool :=
  forallb (λ t, (val t <? 0) ||
    (String.eqb (put_table_entry table msg (val t)) (lname t) &&
     match sname t with Some s => get_table_entry table s =? val t | None => true end)) table.

Lemma names_ok_spec table msg t : names_ok table msg = true → t ∈ table → 0 ≤ val t →
  put_table_entry table msg (val t) = lname t ∧ ∀ s, sname t = Some s → get_table_entry table s = val t.
Proof.
  intros H Hin Hv. unfold names_ok in H. rewrite forallb_forall in H.
  specialize (H t (proj1 (list_elem_of_In _ _) Hin)). destruct (Z.ltb_spec (val t) 0); [lia|]. simpl in H.
  apply andb_prop in H as [H1%String.eqb_eq H2]. split; [done|]. intros s Hs. rewrite Hs in H2. by apply Z.eqb_eq.
Qed.

Lemma get_table_entry_case table a b : strcasecmp_eq a b = true → get_table_entry table a = get_table_entry table b.
Proof.
  assert (Hsym : ∀ a b, strcasecmp_eq a b = true → ∀ s, strcasecmp_eq s a = strcasecmp_eq s b).
  { clear. induction a as [|c a IH]; intros [|d b] H s; try done. simpl in H.
    apply andb_prop in H as [E%Ascii.eqb_eq H]. destruct s as [|e s]; [done|]. simpl. by rewrite E, (IH b H s). }
  intros H. induction table as [|t table IH]; [done|]. simpl. destruct (val t <? 0); [done|].
  destruct (sname t) as [s|]; [|done]. by rewrite (Hsym a b H s), IH.
Qed.

(** In each of the four tables, the short name of a code is
    read back as that code, in upper or lower case, and the code is printed
    with its own long name: no entry shadows another. *)
Theorem tables_round_trip t msg : 
  (∀ table, table ∈ [arch_name; os_name; type_name; comp_name] → t ∈ table → 0 ≤ val t →
     put_table_entry table msg (val t) = lname t ∧
     ∀ s name, sname t = Some s → strcasecmp_eq s name = true → get_table_entry table name = val t).
Proof.
  intros table Htab Hin Hv. assert (Hok : names_ok table msg = true).
  { repeat (apply elem_of_cons in Htab as [->|Htab]; [vm_compute; reflexivity|]). by apply elem_of_nil in Htab. }
  destruct (names_ok_spec table msg t Hok Hin Hv) as [H1 H2]. split; [done|].
  intros s name Hs Hcase. rewrite <-(get_table_entry_case table s name Hcase). auto.
Qed.

(** The name look-up of [-q], [-X] and [-H] agrees with the
    table used to create images on every name it knows. *)
Theorem get_image_type_agrees name : get_image_type name ≠ IH_TYPE_INVALID → get_type name = get_image_type name.
Proof.
  unfold get_image_type.
  repeat match goal with |- context [String.eqb name ?s] =>
    destruct (String.eqb_spec name s) as [->|_]; [intros _; vm_compute; reflexivity|] end.
  done.
Qed.

(** ** Examples *)
Lemma header_round_trip_witness :
  let h := build_header 1500000000 5 0x80000000 0x80000040 0xdeadbeef 5 2 9 1 [102; 119] in
  length h = HDR ∧ check_header h = 0 ∧ ih_type h = 9.
Proof.
  destruct (header_round_trip 1500000000 5 0x80000000 0x80000040 0xdeadbeef 5 2 9 1 [102; 119]) as
    (H1 & H2 & _ & _ & _ & _ & _ & _ & _ & _ & H3 & _).
  - apply (bool_decide_unpack _). vm_compute. exact I.
  - split_and!; [exact H1|exact H2|exact H3].
Defined.

Definition ex_header : list Z := Eval vm_compute in build_header 0 5 0 0 0 5 2 9 1 [102; 119].
Lemma header_damage_detected_witness :
  check_header (take 4 ex_header ++ [0; 1; 2; 3] ++ drop 8 ex_header) = -1.
Proof.
  refine (proj1 (proj2 (header_damage_detected (take 4 ex_header) (take 4 (drop 4 ex_header)) (drop 8 ex_header)
    _ _ _ _)) [0; 1; 2; 3] _ _ _).
  - reflexivity.
  - reflexivity.
  - apply (bool_decide_unpack _). vm_compute. exact I.
  - vm_compute. reflexivity.
  - reflexivity.
  - apply (bool_decide_unpack _). vm_compute. exact I.
  - discriminate.
Defined.

Lemma tables_round_trip_witness : get_type "KERNEL" = IH_TYPE_KERNEL.
Proof.
  apply (proj2 (tables_round_trip (TE IH_TYPE_KERNEL (Some "kernel") "Kernel Image") "Unknown Image" type_name
    ltac:(apply (bool_decide_unpack _); vm_compute; exact I)
    ltac:(apply (bool_decide_unpack _); vm_compute; exact I) ltac:(by vm_compute)) "kernel" "KERNEL").
  - reflexivity.
  - reflexivity.
Defined.

Lemma get_image_type_agrees_witness : get_type "BrBoxRtRp1" = IH_TYPE_BRBOX_ROOT_RP1.
Proof. apply (get_image_type_agrees "BrBoxRtRp1"). discriminate. Defined.
