(* ===== verification/MkImage.v ===== *)
(** * mkimage.c: the image tool

    The functions of [src/sources/utils/brbox-mkimage/mkimage.c] that read and
    write files, and [main].  The state is the file system and the bytes
    written to standard output; what goes to standard error is not recorded.
    Writes to a file that could be opened succeed.  A file that is mapped reads
    as zeros between its end and the end of the page, and faults behind it. *)

From stdpp Require Import base list gmap strings numbers.
From Stdlib Require Import ZArith Lia Ascii.
From S2P Require Import Prelude KString Crc32 Image.

Record sys := Sys { files : gmap string (list Z); out : list Z }.
Definition upd_files f (s : sys) : sys := Sys (f (files s)) (out s).
Definition upd_out f (s : sys) : sys := Sys (files s) (f (out s)).

Definition bytes_of (s : string) : list Z := (λ c, Z.of_N (N_of_ascii c)) <$> String.list_ascii_of_string s.
Definition printf (s : string) : M sys unit := modify (upd_out (λ o, o ++ bytes_of s)).
Definition LF : string := String (ascii_of_nat 10) "".

(** [max_len] of the functions that copy and compare: how much they read at
    once. *)
Definition max_len : nat := Z.to_nat 2048.
Lemma max_len_eq : Z.of_nat max_len = 2048.
Proof. done. Qed.
#[global] Opaque max_len.

(** [mmap] of a file: its bytes, and zeros up to the next page boundary. *)
Definition map_file (b : list Z) : list Z := b ++ replicate ((4096 - length b mod 4096) mod 4096)%nat 0.
(** [n] bytes of a mapping at an offset: a fault when they reach behind it. *)
Definition slice (m : list Z) (off n : nat) : option (list Z) :=
  if (off + n <=? length m)%nat then Some (take n (drop off m)) else None.

(** ** The names of images

    The arrays [temp_arr1], [image_name] and [image_ver] of [print_header]: the
    string in each, or [None] while the array has not been written. *)
Record texts := Texts {
  temp_arr1 : option (list Z);
  image_name : option (list Z);
  image_ver : option (list Z)
}.

(** The string in an array of bytes; [None] when no byte of it is 0. *)
Fixpoint c_string (b : list Z) : option (list Z) :=
  match b with
  | [] => None
  | c :: b => if c =? 0 then Some [] else (λ s, c :: s) <$> c_string b
  end.
Definition isspace (c : Z) : bool := (c =? 32) || ((9 <=? c) && (c <=? 13)).
Fixpoint skip_space (s : list Z) : list Z :=
  match s with [] => [] | c :: r => if isspace c then skip_space r else s end.
Fixpoint take_word (s : list Z) : list Z * list Z :=
  match s with
  | [] => ([], [])
  | c :: r => if isspace c then ([], s) else let '(w, r) := take_word r in (c :: w, r)
  end.
(** The words that [n] conversions [%s] of [sscanf] store. *)
Fixpoint sscanf_words (n : nat) (s : list Z) : list (list Z) :=
  match n with
  | O => []
  | S n => match take_word (skip_space s) with ([], _) => [] | (w, r) => w :: sscanf_words n r end
  end.

(** [image_ver[0]='\0'; sscanf(...,"%s %s %s",temp_arr1,image_name,image_ver);]
    and the copies when there was no third word.  A name has 32 bytes at most,
    so that every word fits its array. *)
Definition scan_name (ih_name : list Z) (t : texts) : option texts :=
  s ← c_string ih_name;
  let t := match sscanf_words 3 s with
           | [] => Texts (temp_arr1 t) (image_name t) (Some [])
           | [a] => Texts (Some a) (image_name t) (Some [])
           | [a; b] => Texts (Some a) (Some b) (Some [])
           | a :: b :: c :: _ => Texts (Some a) (Some b) (Some c)
           end in
  match image_ver t with
  | Some [] => name ← image_name t; a ← temp_arr1 t; Some (Texts (Some a) (Some a) (Some name))
  | _ => Some t
  end.

Section code.
(** [sizeof(long)]: 4 with the build's [-m32], 8 on a 64-bit host. *)
Variable sizeof_long : nat.
(** Which files can be opened for writing. *)
Variable writable : string → bool.
(** What the stack holds where the two buffers of a comparison are. *)
Variable stack : list Z * list Z.

Abbreviation IO := (M sys).

(** ** Copying and comparing files *)

(** The loop of [file_copy]: [data] is what is left of the input. *)
Fixpoint copy_loop (fuel : nat) (put : list Z → IO unit) (data : list Z) (total_len len : Z) : IO unit :=
  match fuel with
  | O => out_of_fuel
  | S fuel =>
      let buffer := take max_len data in
      let read_len := Z.of_nat (length buffer) in
      if read_len =? 0 then mret ()
      else if u32 (total_len + read_len) <? len then
        _ ← put buffer;
        copy_loop fuel put (drop max_len data) (u32 (total_len + read_len)) len
      else put (take (Z.to_nat (u32 (len - total_len))) buffer)
  end.
Definition file_copy (inputfile : string) (outputfile : option string) (skip len : Z) : IO Z :=
  outputfile ← of_opt outputfile;
  let out_to_std := String.eqb outputfile "stdout" in
  fs ← gets files;
  let infile := fs !! inputfile in
  _ ← (if out_to_std then mret ()
       else if writable outputfile then modify (upd_files <[outputfile := []]>) else mret ());
  _ ← of_opt infile;
  fs ← gets files;
  data ← of_opt (fs !! inputfile);
  let data := drop (Z.to_nat skip) data in
  let put b := if out_to_std then modify (upd_out (λ o, o ++ b))
               else if writable outputfile
               then modify (upd_files (alter (λ c, c ++ b) outputfile))
               else oops in
  _ ← copy_loop (1 + length data) put data 0 len;
  _ ← (if out_to_std || writable outputfile then mret () else oops);
  mret 0.

(** [fread] into a buffer: what is read replaces its head. *)
Definition fread (buf data : list Z) (n : nat) : list Z * list Z * Z :=
  let r := take n data in (r ++ drop (length r) buf, drop n data, Z.of_nat (length r)).

(** The loop of [file_compare_binary]. *)
Fixpoint compare_binary_loop (fuel : nat) (f1_buff f2_buff data1 data2 : list Z) (i file1_len : Z) : IO Z :=
  if negb (i <? file1_len) then mret 0
  else
    match fuel with
    | O => out_of_fuel
    | S fuel =>
        let '(f1_buff, data1, read_len_f1) := fread f1_buff data1 max_len in
        let '(f2_buff, data2, read_len_f2) := fread f2_buff data2 max_len in
        let read_len_img := if u32 (i + read_len_f1) <? file1_len then 2048 else u32 (file1_len - i) in
        if negb (bool_decide (take (Z.to_nat read_len_img) f1_buff = take (Z.to_nat read_len_img) f2_buff))
           || (read_len_f2 <? read_len_f1) then
          _ ← printf ("file compare failed" +:+ LF);
          mret (-1)
        else compare_binary_loop fuel f1_buff f2_buff data1 data2 (u32 (i + read_len_img)) file1_len
    end.
Definition file_compare_binary (file1 file2 : string) (skip seek file1_len : Z) : IO Z :=
  fs ← gets files;
  match fs !! file1 with
  | None => mret (-1)
  | Some data1 =>
      match fs !! file2 with
      | None => mret (-1)
      | Some data2 =>
          compare_binary_loop (1 + Z.to_nat file1_len) stack.1 stack.2
            (drop (Z.to_nat skip) data1) (drop (Z.to_nat seek) data2) 0 file1_len
      end
  end.

(** The loop of [file_compare]. *)
Fixpoint compare_loop (fuel : nat) (img_buff prj_buff img prj : list Z) (i proj_file_len : Z) : IO Z :=
  if negb (i <? proj_file_len) then mret 0
  else
    match fuel with
    | O => out_of_fuel
    | S fuel =>
        let '(img_buff, img, _) := fread img_buff img max_len in
        let '(prj_buff, prj, read_len_prj) := fread prj_buff prj max_len in
        let read_len_img :=
          if u32 (i + read_len_prj) <? proj_file_len then 2048 else u32 (proj_file_len - i) in
        if negb (bool_decide (take (Z.to_nat read_len_img) img_buff = take (Z.to_nat read_len_img) prj_buff))
        then mret (-1)
        else compare_loop fuel img_buff prj_buff img prj (u32 (i + read_len_img)) proj_file_len
    end.
Definition file_compare (file2 : option string) (file1 : string) (skip proj_file_len : Z) : IO Z :=
  file2 ← of_opt file2;
  fs ← gets files;
  match fs !! file2 with
  | None => mret (-1)
  | Some img =>
      match fs !! file1 with
      | None => mret (-1)
      | Some prj =>
          let '(img_buff, _, img_size) := fread stack.1 img HDR in
          if img_size <? Z.of_nat HDR then mret (-1)
          else if negb (u32 (ih_size img_buff + Z.of_nat HDR) =? proj_file_len) then mret (-1)
          else compare_loop (1 + Z.to_nat proj_file_len) img_buff stack.2 img (drop (Z.to_nat skip) prj) 0 proj_file_len
      end
  end.

(** ** Images of several files

    [m] is the mapped image.  [len_ptr i]: the [unsigned long] at index [i] of
    the table behind the header: whether it is zero, and its [ntohl]. *)
Definition len_ptr (m : list Z) (i : nat) : option (bool * Z) :=
  w ← slice m (HDR + i * sizeof_long) sizeof_long;
  Some (forallb (Z.eqb 0) w, get32 w 0).
(** [for (i=0; len_ptr[i]; ++i) ;] *)
Fixpoint count_ptrs (fuel : nat) (m : list Z) (i : nat) : IO nat :=
  match fuel with
  | O => out_of_fuel
  | S fuel =>
      e ← of_opt (len_ptr m i);
      if (e : bool * Z).1 then mret i else count_ptrs fuel m (1 + i)
  end.
(** [size += 3; size &= ~3;] *)
Definition round_up (size : Z) : Z := Z.land (u32 (size + 3)) (Z.lnot 3).

Inductive TypeAction := compare | extract | query | exthdr | count.

(** The second loop of [extract_file_from_multi]; yields what is returned and
    the number of good images that were passed. *)
Fixpoint extract_loop (fuel : nat) (image_type : Z) (input_file : string) (output_file : option string)
    (m : list Z) (action : TypeAction) (i : nat) (pos : Z) (data : nat) (img_count : Z) : IO (Z * Z) :=
  match fuel with
  | O => out_of_fuel
  | S fuel =>
      e ← of_opt (len_ptr m i);
      if (e : bool * Z).1 then
        mret (match action with count => 0 | _ => -1 end, img_count)
      else
        let size := (e : bool * Z).2 in
        temp_header ← of_opt (slice m data HDR);
        let next img_count :=
          extract_loop fuel image_type input_file output_file m action (1 + i)
            (u32 (pos + round_up size)) (data + Z.to_nat (round_up size)) img_count in
        if check_header temp_header =? 0 then
          if ih_type temp_header =? image_type then
            match action with
            | query => mret (0, img_count)
            | compare => r ← file_compare output_file input_file (u32 (pos + 4)) size; mret (r, img_count)
            | extract => _ ← file_copy input_file output_file (u32 (pos + 4)) size; mret (0, img_count)
            | exthdr => _ ← file_copy input_file output_file (u32 (pos + 4)) (Z.of_nat HDR); mret (0, img_count)
            | count => mret (-1, img_count)
            end
          else next (img_count + 1)
        else next img_count
  end.
Definition extract_file_from_multi (image_type : Z) (input_file : string) (output_file : option string)
    (m : list Z) (action : TypeAction) : IO (Z * Z) :=
  if ih_type m =? IH_TYPE_MULTI then
    ptrs ← count_ptrs (length m) m 0;
    extract_loop (length m) image_type input_file output_file m action 0
      (Z.of_nat (HDR + ptrs * sizeof_long)) (HDR + (ptrs + 1) * sizeof_long) 0
  else mret (-1, 0).

(** The second loop of [extract_file_number]. *)
Fixpoint number_loop (fuel : nat) (image_no : Z) (input_file : string) (output_file : option string)
    (m : list Z) (i : nat) (pos : Z) (data : nat) : IO Z :=
  match fuel with
  | O => out_of_fuel
  | S fuel =>
      e ← of_opt (len_ptr m i);
      if (e : bool * Z).1 then mret (-1)
      else
        let size := (e : bool * Z).2 in
        temp_header ← of_opt (slice m data HDR);
        let next := number_loop fuel image_no input_file output_file m (1 + i)
            (u32 (pos + round_up size)) (data + Z.to_nat (round_up size)) in
        if (check_header temp_header =? 0) && (Z.of_nat i =? image_no) then
          _ ← file_copy input_file output_file (u32 (pos + 4)) size;
          mret 0
        else next
  end.
Definition extract_file_number (image_no : Z) (input_file : string) (output_file : option string)
    (m : list Z) : IO Z :=
  if ih_type m =? IH_TYPE_MULTI then
    ptrs ← count_ptrs (length m) m 0;
    number_loop (length m) image_no input_file output_file m 0
      (Z.of_nat (HDR + ptrs * sizeof_long)) (HDR + (ptrs + 1) * sizeof_long)
  else mret (-1).

(** [print_header_only]: 0 when the header is good; the text is not modelled. *)
Definition print_header_only (h : list Z) : Z := if check_header h =? 0 then 0 else -1.

(** [print_header]: -1 when one of the images of a multi-file image, or of a
    script, is damaged.  The names it prints go through its local arrays, which
    nothing initialises; using one that holds nothing yet is a fault. *)
Fixpoint print_loop (fuel : nat) (m : list Z) (i : nat) (data : nat) (multi_image_result : Z) (t : texts) : IO Z :=
  match fuel with
  | O => out_of_fuel
  | S fuel =>
      e ← of_opt (len_ptr m i);
      if (e : bool * Z).1 then mret multi_image_result
      else
        let size := (e : bool * Z).2 in
        temp_header ← of_opt (slice m data HDR);
        '(r, t) ← (if check_header temp_header =? 0 then
               t ← of_opt (scan_name (ih_name temp_header) t);
               let image_len := u32 (size - Z.of_nat HDR) in
               image ← of_opt (slice m (data + HDR) (Z.to_nat image_len));
               mret (if crc32 0 image =? ih_dcrc temp_header then multi_image_result else -1, t)
             else mret (-1, Texts (temp_arr1 t) (Some (bytes_of "xxxxxxxxx")) (image_ver t)));
        _ ← of_opt (image_name t); (* the line of the image shows both *)
        _ ← of_opt (image_ver t);
        print_loop fuel m (1 + i) (data + Z.to_nat (round_up size)) r t
  end.
Definition print_header (m : list Z) : IO Z :=
  if (ih_type m =? IH_TYPE_MULTI) || (ih_type m =? IH_TYPE_SCRIPT) then
    ptrs ← count_ptrs (length m) m 0;
    print_loop (length m) m 0 (HDR + (ptrs + 1) * sizeof_long) 0 (Texts None None None)
  else mret 0.

Definition TEMP_MTD_FILE : string := "/tmp/temp_mkimage_file".
(** [check_mtdfile]: a failed [open] makes [read] fail.  The header is read
    into the global one; the copy holds the header and the data it announces. *)
Definition check_mtdfile (imagefile : string) : IO Z :=
  fs ← gets files;
  match fs !! imagefile with
  | None => mret (-1)
  | Some b =>
      if (length b <? HDR)%nat then mret (-1)
      else
        let hdr := take HDR b in
        if negb (check_header hdr =? 0) then mret (-1)
        else
          r ← file_copy imagefile (Some TEMP_MTD_FILE) 0 (u32 (ih_size hdr + Z.of_nat HDR));
          if negb (r =? 0) then mret (-1) else mret 0
  end.
End code.
