(* ===== verification/MkImageMain.v ===== *)
(** * mkimage.c: the command line and [main]

    The options of [src/sources/utils/brbox-mkimage/mkimage.c], their parsing
    and the parts of [main]: printing headers, listing and taking apart an
    image, and creating one. *)

From stdpp Require Import base list gmap strings numbers.
From Stdlib Require Import ZArith Lia Ascii.
From S2P Require Import Prelude KString Crc32 Image MkImage.

(** ** Options: the global variables and the locals of [main] that the command
    line sets; a pointer that may be NULL is an [option]. *)
Record opts := Opts {
  lflag : Z;
  dflag : Z;
  eflag : Z;
  vflag : Z;
  xflag : Z;
  opt_os : Z;
  opt_arch : Z;
  opt_type : Z;
  opt_comp : Z;
  addr : Z;
  ep : Z;
  name : option string;
  datafile : option string;
  silent_flag : Z;
  mtd_flag : Z;
  query_file : option string;
  queryflag : Z;
  extract_file : option string;
  xtractflag : Z;
  xtrhdrflag : Z;
  compare_file : option string;
  compareflag : Z;
  skip_value : Z;
  skipflag : Z;
  seek_value : Z;
  seekflag : Z;
  output_file : option string;
  outputfileflag : Z;
  headeronly_flag : Z;
  max_header_counts : Z;
  countimage_flag : Z;
  file_number : Z;
  xtract_file_no_flag : Z
}.

Definition set_lflag (v : Z) (o : opts) : opts :=
  Opts v (dflag o) (eflag o) (vflag o) (xflag o) (opt_os o) (opt_arch o) (opt_type o) (opt_comp o) (addr o) (ep o) (name o) (datafile o) (silent_flag o) (mtd_flag o) (query_file o) (queryflag o) (extract_file o) (xtractflag o) (xtrhdrflag o) (compare_file o) (compareflag o) (skip_value o) (skipflag o) (seek_value o) (seekflag o) (output_file o) (outputfileflag o) (headeronly_flag o) (max_header_counts o) (countimage_flag o) (file_number o) (xtract_file_no_flag o).
Definition set_dflag (v : Z) (o : opts) : opts :=
  Opts (lflag o) v (eflag o) (vflag o) (xflag o) (opt_os o) (opt_arch o) (opt_type o) (opt_comp o) (addr o) (ep o) (name o) (datafile o) (silent_flag o) (mtd_flag o) (query_file o) (queryflag o) (extract_file o) (xtractflag o) (xtrhdrflag o) (compare_file o) (compareflag o) (skip_value o) (skipflag o) (seek_value o) (seekflag o) (output_file o) (outputfileflag o) (headeronly_flag o) (max_header_counts o) (countimage_flag o) (file_number o) (xtract_file_no_flag o).
Definition set_eflag (v : Z) (o : opts) : opts :=
  Opts (lflag o) (dflag o) v (vflag o) (xflag o) (opt_os o) (opt_arch o) (opt_type o) (opt_comp o) (addr o) (ep o) (name o) (datafile o) (silent_flag o) (mtd_flag o) (query_file o) (queryflag o) (extract_file o) (xtractflag o) (xtrhdrflag o) (compare_file o) (compareflag o) (skip_value o) (skipflag o) (seek_value o) (seekflag o) (output_file o) (outputfileflag o) (headeronly_flag o) (max_header_counts o) (countimage_flag o) (file_number o) (xtract_file_no_flag o).
Definition set_vflag (v : Z) (o : opts) : opts :=
  Opts (lflag o) (dflag o) (eflag o) v (xflag o) (opt_os o) (opt_arch o) (opt_type o) (opt_comp o) (addr o) (ep o) (name o) (datafile o) (silent_flag o) (mtd_flag o) (query_file o) (queryflag o) (extract_file o) (xtractflag o) (xtrhdrflag o) (compare_file o) (compareflag o) (skip_value o) (skipflag o) (seek_value o) (seekflag o) (output_file o) (outputfileflag o) (headeronly_flag o) (max_header_counts o) (countimage_flag o) (file_number o) (xtract_file_no_flag o).
Definition set_xflag (v : Z) (o : opts) : opts :=
  Opts (lflag o) (dflag o) (eflag o) (vflag o) v (opt_os o) (opt_arch o) (opt_type o) (opt_comp o) (addr o) (ep o) (name o) (datafile o) (silent_flag o) (mtd_flag o) (query_file o) (queryflag o) (extract_file o) (xtractflag o) (xtrhdrflag o) (compare_file o) (compareflag o) (skip_value o) (skipflag o) (seek_value o) (seekflag o) (output_file o) (outputfileflag o) (headeronly_flag o) (max_header_counts o) (countimage_flag o) (file_number o) (xtract_file_no_flag o).
Definition set_opt_os (v : Z) (o : opts) : opts :=
  Opts (lflag o) (dflag o) (eflag o) (vflag o) (xflag o) v (opt_arch o) (opt_type o) (opt_comp o) (addr o) (ep o) (name o) (datafile o) (silent_flag o) (mtd_flag o) (query_file o) (queryflag o) (extract_file o) (xtractflag o) (xtrhdrflag o) (compare_file o) (compareflag o) (skip_value o) (skipflag o) (seek_value o) (seekflag o) (output_file o) (outputfileflag o) (headeronly_flag o) (max_header_counts o) (countimage_flag o) (file_number o) (xtract_file_no_flag o).
Definition set_opt_arch (v : Z) (o : opts) : opts :=
  Opts (lflag o) (dflag o) (eflag o) (vflag o) (xflag o) (opt_os o) v (opt_type o) (opt_comp o) (addr o) (ep o) (name o) (datafile o) (silent_flag o) (mtd_flag o) (query_file o) (queryflag o) (extract_file o) (xtractflag o) (xtrhdrflag o) (compare_file o) (compareflag o) (skip_value o) (skipflag o) (seek_value o) (seekflag o) (output_file o) (outputfileflag o) (headeronly_flag o) (max_header_counts o) (countimage_flag o) (file_number o) (xtract_file_no_flag o).
Definition set_opt_type (v : Z) (o : opts) : opts :=
  Opts (lflag o) (dflag o) (eflag o) (vflag o) (xflag o) (opt_os o) (opt_arch o) v (opt_comp o) (addr o) (ep o) (name o) (datafile o) (silent_flag o) (mtd_flag o) (query_file o) (queryflag o) (extract_file o) (xtractflag o) (xtrhdrflag o) (compare_file o) (compareflag o) (skip_value o) (skipflag o) (seek_value o) (seekflag o) (output_file o) (outputfileflag o) (headeronly_flag o) (max_header_counts o) (countimage_flag o) (file_number o) (xtract_file_no_flag o).
Definition set_opt_comp (v : Z) (o : opts) : opts :=
  Opts (lflag o) (dflag o) (eflag o) (vflag o) (xflag o) (opt_os o) (opt_arch o) (opt_type o) v (addr o) (ep o) (name o) (datafile o) (silent_flag o) (mtd_flag o) (query_file o) (queryflag o) (extract_file o) (xtractflag o) (xtrhdrflag o) (compare_file o) (compareflag o) (skip_value o) (skipflag o) (seek_value o) (seekflag o) (output_file o) (outputfileflag o) (headeronly_flag o) (max_header_counts o) (countimage_flag o) (file_number o) (xtract_file_no_flag o).
Definition set_addr (v : Z) (o : opts) : opts :=
  Opts (lflag o) (dflag o) (eflag o) (vflag o) (xflag o) (opt_os o) (opt_arch o) (opt_type o) (opt_comp o) v (ep o) (name o) (datafile o) (silent_flag o) (mtd_flag o) (query_file o) (queryflag o) (extract_file o) (xtractflag o) (xtrhdrflag o) (compare_file o) (compareflag o) (skip_value o) (skipflag o) (seek_value o) (seekflag o) (output_file o) (outputfileflag o) (headeronly_flag o) (max_header_counts o) (countimage_flag o) (file_number o) (xtract_file_no_flag o).
Definition set_ep (v : Z) (o : opts) : opts :=
  Opts (lflag o) (dflag o) (eflag o) (vflag o) (xflag o) (opt_os o) (opt_arch o) (opt_type o) (opt_comp o) (addr o) v (name o) (datafile o) (silent_flag o) (mtd_flag o) (query_file o) (queryflag o) (extract_file o) (xtractflag o) (xtrhdrflag o) (compare_file o) (compareflag o) (skip_value o) (skipflag o) (seek_value o) (seekflag o) (output_file o) (outputfileflag o) (headeronly_flag o) (max_header_counts o) (countimage_flag o) (file_number o) (xtract_file_no_flag o).
Definition set_name (v : option string) (o : opts) : opts :=
  Opts (lflag o) (dflag o) (eflag o) (vflag o) (xflag o) (opt_os o) (opt_arch o) (opt_type o) (opt_comp o) (addr o) (ep o) v (datafile o) (silent_flag o) (mtd_flag o) (query_file o) (queryflag o) (extract_file o) (xtractflag o) (xtrhdrflag o) (compare_file o) (compareflag o) (skip_value o) (skipflag o) (seek_value o) (seekflag o) (output_file o) (outputfileflag o) (headeronly_flag o) (max_header_counts o) (countimage_flag o) (file_number o) (xtract_file_no_flag o).
Definition set_datafile (v : option string) (o : opts) : opts :=
  Opts (lflag o) (dflag o) (eflag o) (vflag o) (xflag o) (opt_os o) (opt_arch o) (opt_type o) (opt_comp o) (addr o) (ep o) (name o) v (silent_flag o) (mtd_flag o) (query_file o) (queryflag o) (extract_file o) (xtractflag o) (xtrhdrflag o) (compare_file o) (compareflag o) (skip_value o) (skipflag o) (seek_value o) (seekflag o) (output_file o) (outputfileflag o) (headeronly_flag o) (max_header_counts o) (countimage_flag o) (file_number o) (xtract_file_no_flag o).
Definition set_silent_flag (v : Z) (o : opts) : opts :=
  Opts (lflag o) (dflag o) (eflag o) (vflag o) (xflag o) (opt_os o) (opt_arch o) (opt_type o) (opt_comp o) (addr o) (ep o) (name o) (datafile o) v (mtd_flag o) (query_file o) (queryflag o) (extract_file o) (xtractflag o) (xtrhdrflag o) (compare_file o) (compareflag o) (skip_value o) (skipflag o) (seek_value o) (seekflag o) (output_file o) (outputfileflag o) (headeronly_flag o) (max_header_counts o) (countimage_flag o) (file_number o) (xtract_file_no_flag o).
Definition set_mtd_flag (v : Z) (o : opts) : opts :=
  Opts (lflag o) (dflag o) (eflag o) (vflag o) (xflag o) (opt_os o) (opt_arch o) (opt_type o) (opt_comp o) (addr o) (ep o) (name o) (datafile o) (silent_flag o) v (query_file o) (queryflag o) (extract_file o) (xtractflag o) (xtrhdrflag o) (compare_file o) (compareflag o) (skip_value o) (skipflag o) (seek_value o) (seekflag o) (output_file o) (outputfileflag o) (headeronly_flag o) (max_header_counts o) (countimage_flag o) (file_number o) (xtract_file_no_flag o).
Definition set_query_file (v : option string) (o : opts) : opts :=
  Opts (lflag o) (dflag o) (eflag o) (vflag o) (xflag o) (opt_os o) (opt_arch o) (opt_type o) (opt_comp o) (addr o) (ep o) (name o) (datafile o) (silent_flag o) (mtd_flag o) v (queryflag o) (extract_file o) (xtractflag o) (xtrhdrflag o) (compare_file o) (compareflag o) (skip_value o) (skipflag o) (seek_value o) (seekflag o) (output_file o) (outputfileflag o) (headeronly_flag o) (max_header_counts o) (countimage_flag o) (file_number o) (xtract_file_no_flag o).
Definition set_queryflag (v : Z) (o : opts) : opts :=
  Opts (lflag o) (dflag o) (eflag o) (vflag o) (xflag o) (opt_os o) (opt_arch o) (opt_type o) (opt_comp o) (addr o) (ep o) (name o) (datafile o) (silent_flag o) (mtd_flag o) (query_file o) v (extract_file o) (xtractflag o) (xtrhdrflag o) (compare_file o) (compareflag o) (skip_value o) (skipflag o) (seek_value o) (seekflag o) (output_file o) (outputfileflag o) (headeronly_flag o) (max_header_counts o) (countimage_flag o) (file_number o) (xtract_file_no_flag o).
Definition set_extract_file (v : option string) (o : opts) : opts :=
  Opts (lflag o) (dflag o) (eflag o) (vflag o) (xflag o) (opt_os o) (opt_arch o) (opt_type o) (opt_comp o) (addr o) (ep o) (name o) (datafile o) (silent_flag o) (mtd_flag o) (query_file o) (queryflag o) v (xtractflag o) (xtrhdrflag o) (compare_file o) (compareflag o) (skip_value o) (skipflag o) (seek_value o) (seekflag o) (output_file o) (outputfileflag o) (headeronly_flag o) (max_header_counts o) (countimage_flag o) (file_number o) (xtract_file_no_flag o).
Definition set_xtractflag (v : Z) (o : opts) : opts :=
  Opts (lflag o) (dflag o) (eflag o) (vflag o) (xflag o) (opt_os o) (opt_arch o) (opt_type o) (opt_comp o) (addr o) (ep o) (name o) (datafile o) (silent_flag o) (mtd_flag o) (query_file o) (queryflag o) (extract_file o) v (xtrhdrflag o) (compare_file o) (compareflag o) (skip_value o) (skipflag o) (seek_value o) (seekflag o) (output_file o) (outputfileflag o) (headeronly_flag o) (max_header_counts o) (countimage_flag o) (file_number o) (xtract_file_no_flag o).
Definition set_xtrhdrflag (v : Z) (o : opts) : opts :=
  Opts (lflag o) (dflag o) (eflag o) (vflag o) (xflag o) (opt_os o) (opt_arch o) (opt_type o) (opt_comp o) (addr o) (ep o) (name o) (datafile o) (silent_flag o) (mtd_flag o) (query_file o) (queryflag o) (extract_file o) (xtractflag o) v (compare_file o) (compareflag o) (skip_value o) (skipflag o) (seek_value o) (seekflag o) (output_file o) (outputfileflag o) (headeronly_flag o) (max_header_counts o) (countimage_flag o) (file_number o) (xtract_file_no_flag o).
Definition set_compare_file (v : option string) (o : opts) : opts :=
  Opts (lflag o) (dflag o) (eflag o) (vflag o) (xflag o) (opt_os o) (opt_arch o) (opt_type o) (opt_comp o) (addr o) (ep o) (name o) (datafile o) (silent_flag o) (mtd_flag o) (query_file o) (queryflag o) (extract_file o) (xtractflag o) (xtrhdrflag o) v (compareflag o) (skip_value o) (skipflag o) (seek_value o) (seekflag o) (output_file o) (outputfileflag o) (headeronly_flag o) (max_header_counts o) (countimage_flag o) (file_number o) (xtract_file_no_flag o).
Definition set_compareflag (v : Z) (o : opts) : opts :=
  Opts (lflag o) (dflag o) (eflag o) (vflag o) (xflag o) (opt_os o) (opt_arch o) (opt_type o) (opt_comp o) (addr o) (ep o) (name o) (datafile o) (silent_flag o) (mtd_flag o) (query_file o) (queryflag o) (extract_file o) (xtractflag o) (xtrhdrflag o) (compare_file o) v (skip_value o) (skipflag o) (seek_value o) (seekflag o) (output_file o) (outputfileflag o) (headeronly_flag o) (max_header_counts o) (countimage_flag o) (file_number o) (xtract_file_no_flag o).
Definition set_skip_value (v : Z) (o : opts) : opts :=
  Opts (lflag o) (dflag o) (eflag o) (vflag o) (xflag o) (opt_os o) (opt_arch o) (opt_type o) (opt_comp o) (addr o) (ep o) (name o) (datafile o) (silent_flag o) (mtd_flag o) (query_file o) (queryflag o) (extract_file o) (xtractflag o) (xtrhdrflag o) (compare_file o) (compareflag o) v (skipflag o) (seek_value o) (seekflag o) (output_file o) (outputfileflag o) (headeronly_flag o) (max_header_counts o) (countimage_flag o) (file_number o) (xtract_file_no_flag o).
Definition set_skipflag (v : Z) (o : opts) : opts :=
  Opts (lflag o) (dflag o) (eflag o) (vflag o) (xflag o) (opt_os o) (opt_arch o) (opt_type o) (opt_comp o) (addr o) (ep o) (name o) (datafile o) (silent_flag o) (mtd_flag o) (query_file o) (queryflag o) (extract_file o) (xtractflag o) (xtrhdrflag o) (compare_file o) (compareflag o) (skip_value o) v (seek_value o) (seekflag o) (output_file o) (outputfileflag o) (headeronly_flag o) (max_header_counts o) (countimage_flag o) (file_number o) (xtract_file_no_flag o).
Definition set_seek_value (v : Z) (o : opts) : opts :=
  Opts (lflag o) (dflag o) (eflag o) (vflag o) (xflag o) (opt_os o) (opt_arch o) (opt_type o) (opt_comp o) (addr o) (ep o) (name o) (datafile o) (silent_flag o) (mtd_flag o) (query_file o) (queryflag o) (extract_file o) (xtractflag o) (xtrhdrflag o) (compare_file o) (compareflag o) (skip_value o) (skipflag o) v (seekflag o) (output_file o) (outputfileflag o) (headeronly_flag o) (max_header_counts o) (countimage_flag o) (file_number o) (xtract_file_no_flag o).
Definition set_seekflag (v : Z) (o : opts) : opts :=
  Opts (lflag o) (dflag o) (eflag o) (vflag o) (xflag o) (opt_os o) (opt_arch o) (opt_type o) (opt_comp o) (addr o) (ep o) (name o) (datafile o) (silent_flag o) (mtd_flag o) (query_file o) (queryflag o) (extract_file o) (xtractflag o) (xtrhdrflag o) (compare_file o) (compareflag o) (skip_value o) (skipflag o) (seek_value o) v (output_file o) (outputfileflag o) (headeronly_flag o) (max_header_counts o) (countimage_flag o) (file_number o) (xtract_file_no_flag o).
Definition set_output_file (v : option string) (o : opts) : opts :=
  Opts (lflag o) (dflag o) (eflag o) (vflag o) (xflag o) (opt_os o) (opt_arch o) (opt_type o) (opt_comp o) (addr o) (ep o) (name o) (datafile o) (silent_flag o) (mtd_flag o) (query_file o) (queryflag o) (extract_file o) (xtractflag o) (xtrhdrflag o) (compare_file o) (compareflag o) (skip_value o) (skipflag o) (seek_value o) (seekflag o) v (outputfileflag o) (headeronly_flag o) (max_header_counts o) (countimage_flag o) (file_number o) (xtract_file_no_flag o).
Definition set_outputfileflag (v : Z) (o : opts) : opts :=
  Opts (lflag o) (dflag o) (eflag o) (vflag o) (xflag o) (opt_os o) (opt_arch o) (opt_type o) (opt_comp o) (addr o) (ep o) (name o) (datafile o) (silent_flag o) (mtd_flag o) (query_file o) (queryflag o) (extract_file o) (xtractflag o) (xtrhdrflag o) (compare_file o) (compareflag o) (skip_value o) (skipflag o) (seek_value o) (seekflag o) (output_file o) v (headeronly_flag o) (max_header_counts o) (countimage_flag o) (file_number o) (xtract_file_no_flag o).
Definition set_headeronly_flag (v : Z) (o : opts) : opts :=
  Opts (lflag o) (dflag o) (eflag o) (vflag o) (xflag o) (opt_os o) (opt_arch o) (opt_type o) (opt_comp o) (addr o) (ep o) (name o) (datafile o) (silent_flag o) (mtd_flag o) (query_file o) (queryflag o) (extract_file o) (xtractflag o) (xtrhdrflag o) (compare_file o) (compareflag o) (skip_value o) (skipflag o) (seek_value o) (seekflag o) (output_file o) (outputfileflag o) v (max_header_counts o) (countimage_flag o) (file_number o) (xtract_file_no_flag o).
Definition set_max_header_counts (v : Z) (o : opts) : opts :=
  Opts (lflag o) (dflag o) (eflag o) (vflag o) (xflag o) (opt_os o) (opt_arch o) (opt_type o) (opt_comp o) (addr o) (ep o) (name o) (datafile o) (silent_flag o) (mtd_flag o) (query_file o) (queryflag o) (extract_file o) (xtractflag o) (xtrhdrflag o) (compare_file o) (compareflag o) (skip_value o) (skipflag o) (seek_value o) (seekflag o) (output_file o) (outputfileflag o) (headeronly_flag o) v (countimage_flag o) (file_number o) (xtract_file_no_flag o).
Definition set_countimage_flag (v : Z) (o : opts) : opts :=
  Opts (lflag o) (dflag o) (eflag o) (vflag o) (xflag o) (opt_os o) (opt_arch o) (opt_type o) (opt_comp o) (addr o) (ep o) (name o) (datafile o) (silent_flag o) (mtd_flag o) (query_file o) (queryflag o) (extract_file o) (xtractflag o) (xtrhdrflag o) (compare_file o) (compareflag o) (skip_value o) (skipflag o) (seek_value o) (seekflag o) (output_file o) (outputfileflag o) (headeronly_flag o) (max_header_counts o) v (file_number o) (xtract_file_no_flag o).
Definition set_file_number (v : Z) (o : opts) : opts :=
  Opts (lflag o) (dflag o) (eflag o) (vflag o) (xflag o) (opt_os o) (opt_arch o) (opt_type o) (opt_comp o) (addr o) (ep o) (name o) (datafile o) (silent_flag o) (mtd_flag o) (query_file o) (queryflag o) (extract_file o) (xtractflag o) (xtrhdrflag o) (compare_file o) (compareflag o) (skip_value o) (skipflag o) (seek_value o) (seekflag o) (output_file o) (outputfileflag o) (headeronly_flag o) (max_header_counts o) (countimage_flag o) v (xtract_file_no_flag o).
Definition set_xtract_file_no_flag (v : Z) (o : opts) : opts :=
  Opts (lflag o) (dflag o) (eflag o) (vflag o) (xflag o) (opt_os o) (opt_arch o) (opt_type o) (opt_comp o) (addr o) (ep o) (name o) (datafile o) (silent_flag o) (mtd_flag o) (query_file o) (queryflag o) (extract_file o) (xtractflag o) (xtrhdrflag o) (compare_file o) (compareflag o) (skip_value o) (skipflag o) (seek_value o) (seekflag o) (output_file o) (outputfileflag o) (headeronly_flag o) (max_header_counts o) (countimage_flag o) (file_number o) v.

(** The values at the start. *)
Definition init_opts : opts :=
  Opts 0 0 0 0 0 IH_OS_LINUX IH_CPU_PPC IH_TYPE_KERNEL IH_COMP_GZIP 0 0 (Some "") None 0 0 None 0 None 0 0 None 0 0 0 0 0 None 0 0 0 0 0 0.

(** ** Numbers on the command line *)
Definition hex_val (c : ascii) : option Z :=
  let n := Z.of_N (N_of_ascii c) in
  if (48 <=? n) && (n <=? 57) then Some (n - 48)
  else if (97 <=? n) && (n <=? 102) then Some (n - 87)
  else if (65 <=? n) && (n <=? 70) then Some (n - 55)
  else None.
Fixpoint hex_digits (acc : Z) (s : string) : Z * string :=
  match s with
  | String c s' => match hex_val c with Some d => hex_digits (acc * 16 + d) s' | None => (acc, s) end
  | EmptyString => (acc, s)
  end.
Definition isspace (c : ascii) : bool :=
  let n := Z.of_N (N_of_ascii c) in (n =? 32) || ((9 <=? n) && (n <=? 13)).
Fixpoint skip_white (s : string) : string :=
  match s with String c s' => if isspace c then skip_white s' else s | EmptyString => s end.
Definition sign_of (s : string) : bool * string :=
  match s with String "-" s' => (true, s') | String "+" s' => (false, s') | _ => (false, s) end.

Section code.
Variable sizeof_long : nat.
Variable writable : string → bool.
Variable stack : list Z * list Z.
(** The modification time of the file that is created. *)
Variable st_mtime : Z.

Definition ULONG_MAX : Z := 2 ^ (8 * Z.of_nat sizeof_long) - 1.
(** [strtoul(s, &ptr, 16)]: the value and what [ptr] points to. *)
Definition strtoul16 (s : string) : Z * string :=
  let '(neg, t) := sign_of (skip_white s) in
  let t' := match t with
            | String "0" (String x (String c r)) =>
                if (Ascii.eqb x "x" || Ascii.eqb x "X") && bool_decide (is_Some (hex_val c))
                then String c r else t
            | _ => t
            end in
  match t' with
  | String c _ =>
      match hex_val c with
      | None => (0, s)
      | Some _ =>
          let '(v, r) := hex_digits 0 t' in
          if ULONG_MAX <? v then (ULONG_MAX, r)
          else ((if neg then (- v) mod (ULONG_MAX + 1) else v), r)
      end
  | EmptyString => (0, s)
  end.
(** [atoi]: [strtol] in base 10, cut to an [int]. *)
Definition atoi (s : string) : Z :=
  let '(neg, t) := sign_of (skip_white s) in
  let v := (simple_strtoul 0 t).1 in
  let max := (ULONG_MAX + 1) / 2 in
  int32 (if neg then Z.max (- v) (- max) else Z.min v (max - 1)).

(** ** The loop over the arguments *)

(** Where the parser is: at the start of an argument, with the one it leaves, or
    behind a letter of an option string. *)
Inductive place := Outer (cur : option string) | Inner (s : string).

Definition usage {S A} : M S A := exit_ (-1).

(** [if (--argc <= 0) usage (); ... *++argv]; [rest] is what is behind [argv],
    with the NULL at the end. *)
Definition next_arg (argc : Z) (rest : list (option string)) :
    M opts (option string * list (option string)) :=
  if argc - 1 <=? 0 then usage
  else match rest with [] => oops | a :: rest => mret (a, rest) end.

(** What an option letter does. *)
Inductive letter :=
| Flag (f : opts → opts)                               (* no argument *)
| Ptr (f : option string → opts → opts)                (* keeps the argument *)
| Code (get : string → Z) (f : Z → opts → opts)        (* a name of a table *)
| Hex (f : Z → opts → opts)                            (* [strtoul] in base 16 *)
| Int (f : Z → opts → opts)                            (* [atoi] *)
| Headers                                              (* [-h] *)
| Unknown.
Definition letter_of (c : ascii) : letter :=
  match c with
  | "l"%char => Flag (set_lflag 1)
  | "A"%char => Code get_arch set_opt_arch
  | "C"%char => Code get_comp set_opt_comp
  | "O"%char => Code get_os set_opt_os
  | "T"%char => Code get_type set_opt_type
  | "a"%char => Hex set_addr
  | "d"%char => Ptr (λ a o, set_dflag 1 (set_datafile a o))
  | "e"%char => Hex (λ v o, set_eflag 1 (set_ep v o))
  | "n"%char => Ptr set_name
  | "v"%char => Flag (λ o, set_vflag (vflag o + 1) o)
  | "x"%char => Flag (λ o, set_xflag (xflag o + 1) o)
  | "s"%char => Flag (set_silent_flag 1)
  | "m"%char => Flag (set_mtd_flag 1)
  | "q"%char => Ptr (λ a o, set_queryflag 1 (set_query_file a o))
  | "X"%char => Ptr (λ a o, set_xtractflag 1 (set_extract_file a o))
  | "H"%char => Ptr (λ a o, set_xtrhdrflag 1 (set_extract_file a o))
  | "c"%char => Ptr (λ a o, set_compareflag 1 (set_compare_file a o))
  | "k"%char => Int (λ v o, set_skipflag 1 (set_skip_value v o))
  | "E"%char => Int (λ v o, set_seekflag 1 (set_seek_value v o))
  | "o"%char => Ptr (λ a o, set_outputfileflag 1 (set_output_file a o))
  | "h"%char => Headers
  | "t"%char => Flag (set_countimage_flag 1)
  | "f"%char => Int (λ v o, set_xtract_file_no_flag 1 (set_file_number v o))
  | _ => Unknown
  end.

(** [**argv == '-'] *)
Definition option_letters (a : string) : option string :=
  match a with String c s => if Ascii.eqb c "-" then Some s else None | EmptyString => None end.

Fixpoint parse (fuel : nat) (argc : Z) (rest : list (option string)) (pl : place) : M opts (Z * option string) :=
  match fuel with
  | O => out_of_fuel
  | S fuel =>
      match pl with
      | Outer cur =>
          if negb (0 <? argc - 1) then mret (argc - 1, cur)
          else
            match rest with
            | Some a :: rest =>
                match option_letters a with
                | Some s => parse fuel (argc - 1) rest (Inner s)
                | None => mret (argc - 1, Some a)
                end
            | _ => oops
            end
      | Inner EmptyString => parse fuel argc rest (Outer (Some ""))
      | Inner (String c s) =>
          match letter_of c with
          | Flag f => _ ← modify f; parse fuel argc rest (Inner s)
          | Ptr f =>
              '(a, rest) ← next_arg argc rest;
              _ ← modify (f a);
              parse fuel (argc - 1) rest (Outer a)
          | Code get f =>
              '(a, rest) ← next_arg argc rest;
              a ← of_opt a;
              _ ← modify (f (get a));
              if get a <? 0 then usage else parse fuel (argc - 1) rest (Outer (Some a))
          | Hex f =>
              '(a, rest) ← next_arg argc rest;
              a ← of_opt a;
              _ ← modify (f (u32 (strtoul16 a).1));
              match (strtoul16 a).2 with
              | EmptyString => parse fuel (argc - 1) rest (Outer (Some a))
              | _ => exit_ (-1)
              end
          | Int f =>
              '(a, rest) ← next_arg argc rest;
              a ← of_opt a;
              _ ← modify (f (atoi a));
              parse fuel (argc - 1) rest (Outer (Some a))
          | Headers =>
              (* [argc] is not decremented, and the loop goes on behind the
                 first character of the argument *)
              match rest with
              | Some a :: rest =>
                  _ ← modify (λ o, set_max_header_counts (atoi a) (set_headeronly_flag 1 o));
                  match a with
                  | EmptyString => oops
                  | String _ s => parse fuel argc rest (Inner s)
                  end
              | _ => oops
              end
          | Unknown => usage
          end
      end
  end.
(** [args]: the command line without the name of the program. *)
Definition parse_args (args : list string) : M opts (Z * option string) :=
  parse (S (S (sum_list_with (λ a, 2 + String.length a)%nat args)))
    (1 + Z.of_nat (length args)) ((Some <$> args) ++ [None]) (Outer None).

(** ** Printing headers only: [-h] *)
Fixpoint headers_loop (fuel : nat) (data : list Z) (temp_i max_header_counts result : Z) : Z :=
  match fuel with
  | O => result
  | S fuel =>
      if negb (temp_i <? max_header_counts) then result
      else if (length data <? HDR)%nat then result
      else headers_loop fuel (drop HDR data) (temp_i + 1) max_header_counts
             (Z.lor result (print_header_only (take HDR data)))
  end.
Definition main_headers (o : opts) (argv : option string) : M sys unit :=
  fs ← gets files;
  let data := default [] (argv ≫= λ f, fs !! f) in
  if headers_loop (S (length data)) data 0 (u32 (max_header_counts o)) 0 =? 0 then exit_ 0 else exit_ 1.

(** ** Checks of the options *)
Definition sizeof_header : Z := Z.of_nat HDR.
Definition entry_point (o : opts) : Z :=
  if eflag o =? 0
  then u32 (addr o + if xflag o =? 0 then 0 else sizeof_header)
  else ep o.
Definition main_checks (o : opts) (argc : Z) : M sys unit :=
  if negb (argc =? 1) || (Z.lxor (lflag o) (dflag o) =? 0) then usage
  else if negb (xflag o =? 0) && negb (entry_point o =? (addr o + sizeof_header) mod (ULONG_MAX + 1))
       then exit_ (-1)
  else mret ().

(** [-c] with [-k] or [-E]: compare a file with a place in the image.  [open] of
    NULL or of a file that is not there fails, and then [fstat] too. *)
Definition compare_binary (o : opts) (imagefile : string) : M sys Z :=
  fs ← gets files;
  match compare_file o with
  | None => exit_ (-1)
  | Some f =>
      match fs !! f with
      | None => exit_ (-1)
      | Some b => file_compare_binary stack f imagefile (u32 (skip_value o)) (u32 (seek_value o)) (u32 (Z.of_nat (length b)))
      end
  end.
Definition main_compare_binary (o : opts) (imagefile : string) : M sys unit :=
  if negb (compareflag o =? 0) && ((skipflag o =? 1) || (seekflag o =? 1)) then
    r ← compare_binary o imagefile;
    if negb (r =? 0) then exit_ (-1) else exit_ 0
  else mret ().

(** [-m]: work on a copy of the part of the file that the header announces. *)
Definition main_mtd (o : opts) (imagefile : string) : M sys string :=
  if negb (mtd_flag o =? 0) then
    r ← check_mtdfile writable imagefile;
    if negb (r =? 0) then exit_ (-1) else mret TEMP_MTD_FILE
  else mret imagefile.

(** ** Listing and taking apart: [-l] *)

(** A warning that holds a name given by the user, written to [temp_buffer]
    before it is shown, and the failure behind it: [fixed] is the length of the
    rest of the message. *)
Definition sizeof_temp_buffer : Z := 1024.
Definition warn_and_exit {A} (fixed : Z) (imagefile : string) : M sys A :=
  if fixed + strlen imagefile + 1 <=? sizeof_temp_buffer then exit_ (-1) else oops.

(** The tests on the whole image, from the size of the file to [print_header];
    yields the mapping.  [st_size] is cut to 32 bits for the first test, and
    [len] is an [int] that [crc32] takes as an [unsigned int]. *)
Definition list_checks (imagefile : string) (b : list Z) : M sys (list Z) :=
  let st_size := Z.of_nat (length b) in
  if u32 st_size <? sizeof_header then exit_ (-1)
  else
    let ptr := map_file b in
    let hdr := take HDR ptr in
    if negb (ih_magic hdr =? IH_MAGIC) then exit_ (-1)
    else if negb (crc32 0 (clear_hcrc hdr) =? ih_hcrc hdr) then warn_and_exit 41 imagefile
    else
      let len := int32 (st_size - sizeof_header) in
      if negb (crc32 0 (take (Z.to_nat (u32 len)) (drop HDR b)) =? ih_dcrc hdr) then warn_and_exit 36 imagefile
      else
      r ← print_header sizeof_long ptr;
      if negb (r =? 0) then exit_ (-1) else mret ptr.

Definition when (b : bool) (c : M sys unit) : M sys unit := if b then c else mret ().
Definition failing (r : Z) : M sys unit := if negb (r =? 0) then exit_ (-1) else mret ().

(** [-q] *)
Definition list_query (o : opts) (imagefile : string) (ptr : list Z) : M sys unit :=
  when (negb (queryflag o =? 0)) (
    q ← of_opt (query_file o);
    '(r, _) ← extract_file_from_multi sizeof_long writable stack (get_image_type q) imagefile (output_file o) ptr query;
    failing r).
(** [-X] and [-H] *)
Definition list_extract (o : opts) (imagefile : string) (ptr : list Z) : M sys unit :=
  when (negb (xtractflag o =? 0) || negb (xtrhdrflag o =? 0)) (
    if outputfileflag o =? 0 then exit_ (-1)
    else
      e ← of_opt (extract_file o);
      '(r, _) ← extract_file_from_multi sizeof_long writable stack (get_image_type e) imagefile (output_file o) ptr
        (if negb (xtractflag o =? 0) then extract else exthdr);
      failing r).
(** [-c] *)
Definition list_compare (o : opts) (imagefile : string) (ptr : list Z) : M sys unit :=
  when (negb (compareflag o =? 0)) (
    if (skipflag o =? 1) || (seekflag o =? 1) then
      r ← compare_binary o imagefile; failing r
    else
      fs ← gets files;
      match compare_file o ≫= λ f, fs !! f with
      | None => exit_ (-1)
      | Some b =>
          if (length b <? HDR)%nat then exit_ (-1)
          else
            let t := ih_type (take HDR b) in
            if (t <? IH_TYPE_STANDALONE) || (IH_TYPE_BRBOX_USRDAT <? t) then exit_ (-1)
            else
              '(r, _) ← extract_file_from_multi sizeof_long writable stack t imagefile (compare_file o) ptr compare;
              failing r
      end).
(** [-t] *)
Definition list_count (o : opts) (imagefile : string) (ptr : list Z) : M sys unit :=
  when (negb (countimage_flag o =? 0)) (
    '(r, n) ← extract_file_from_multi sizeof_long writable stack 0 imagefile (output_file o) ptr count;
    if negb (r =? 0) then exit_ (-1)
    else printf ("total images in project file are: " +:+ fmt_d n +:+ LF)).
(** [-f] *)
Definition list_number (o : opts) (imagefile : string) (ptr : list Z) : M sys unit :=
  when (negb (xtract_file_no_flag o =? 0)) (
    r ← extract_file_number sizeof_long writable (file_number o) imagefile (output_file o) ptr;
    if negb (r =? 0) then exit_ (-1)
    else printf ("requested file extracted successfully!" +:+ LF)).

Definition main_list (o : opts) (imagefile : string) : M sys unit :=
  fs ← gets files;
  match fs !! imagefile with
  | None => exit_ (-1)
  | Some b =>
      ptr ← list_checks imagefile b;
      _ ← list_query o imagefile ptr;
      _ ← list_extract o imagefile ptr;
      _ ← list_compare o imagefile ptr;
      _ ← list_count o imagefile ptr;
      _ ← list_number o imagefile ptr;
      _ ← when (negb (mtd_flag o =? 0)) (modify (upd_files (delete TEMP_MTD_FILE)));
      exit_ 0
  end.

(** ** Creating an image *)

(** [write(ifd, ...)] *)
Definition write_image (imagefile : string) (b : list Z) : M sys unit :=
  modify (upd_files (alter (λ c, c ++ b) imagefile)).

(** [write(ifd, ptr, size)] from a mapping, where [size] is an [int] that
    becomes a [size_t]: Linux writes at most [MAX_RW_COUNT] bytes at a time and
    refuses a count that is negative as a [ssize_t].  Yields the result. *)
Definition MAX_RW_COUNT : Z := 0x7ffff000.
Definition write_mapped (imagefile : string) (b : list Z) (size : Z) : M sys Z :=
  if size <? 0 then mret (-1)
  else
    let n := Z.min size MAX_RW_COUNT in
    _ ← write_image imagefile (take (Z.to_nat n) b);
    mret n.

(** The tail is written from the four bytes of an [int]. *)
Definition copy_file (o : opts) (imagefile file : string) (pad : bool) : M sys unit :=
  fs ← gets files;
  match fs !! file with
  | None => exit_ (-1)
  | Some b =>
      if (length b =? 0)%nat then exit_ (-1) (* [mmap] of nothing fails *)
      else
        let xip := negb (xflag o =? 0) in
        let st_size := Z.of_nat (length b) in
        if xip && (u32 st_size <? sizeof_header) then exit_ (-1)
        else if xip && negb (forallb (Z.eqb 0xff) (take HDR b)) then exit_ (-1)
        else
          let offset := if xip then HDR else O in
          let size := int32 (st_size - Z.of_nat offset) in
          n ← write_mapped imagefile (drop offset b) size;
          if negb (n =? size) then exit_ (-1)
          else
            let tail := Z.rem size 4 in
            if pad && negb (tail =? 0) then
              if tail <? 0 then oops else write_image imagefile (replicate (Z.to_nat (4 - tail)) 0)
            else mret ()
  end.

(** The names between the colons of [-d]. *)
Fixpoint split_colon (s : string) : string * option string :=
  match s with
  | EmptyString => ("", None)
  | String ":" s => ("", Some s)
  | String c s => let '(a, r) := split_colon s in (String c a, r)
  end.
Fixpoint data_files (fuel : nat) (s : string) : list string :=
  match fuel with
  | O => []
  | S fuel =>
      let '(file, sep) := split_colon s in
      file :: match sep with Some s => data_files fuel s | None => [] end
  end.

(** The first loop: the table of sizes, each an [unsigned long] whose first
    four bytes are the size in network order, and a zero at the end. *)
Fixpoint write_sizes (imagefile : string) (l : list string) : M sys unit :=
  match l with
  | [] => write_image imagefile (replicate sizeof_long 0)
  | file :: l =>
      fs ← gets files;
      match fs !! file with
      | None => exit_ (-1)
      | Some b =>
          _ ← write_image imagefile (put32 (Z.of_nat (length b)) ++ replicate (sizeof_long - 4) 0);
          write_sizes imagefile l
      end
  end.
(** The second loop: the files, each but the last padded. *)
Fixpoint copy_files (o : opts) (imagefile : string) (l : list string) : M sys unit :=
  match l with
  | [] => mret ()
  | [file] => copy_file o imagefile file false
  | file :: l => _ ← copy_file o imagefile file true; copy_files o imagefile l
  end.

Definition main_data (o : opts) (imagefile : string) : M sys unit :=
  if (opt_type o =? IH_TYPE_MULTI) || (opt_type o =? IH_TYPE_SCRIPT) then
    match datafile o with
    | None => _ ← write_image imagefile (replicate sizeof_long 0); oops
    | Some d =>
        let l := data_files (S (String.length d)) d in
        _ ← write_sizes imagefile l;
        copy_files o imagefile l
    end
  else
    match datafile o with
    | None => exit_ (-1)
    | Some d => copy_file o imagefile d false
    end.

(** The header over the file that was written; [crc32] takes the length as an
    [unsigned int]. *)
Definition finish_image (o : opts) (name : string) (b : list Z) : list Z :=
  let size := Z.of_nat (length b) - sizeof_header in
  build_header st_mtime size (addr o) (entry_point o)
    (crc32 0 (take (Z.to_nat (u32 size)) (drop HDR b))) (opt_os o) (opt_arch o) (opt_type o) (opt_comp o) (bytes_of name) ++ drop HDR b.

Definition main_write (o : opts) (imagefile : string) : M sys unit :=
  if negb (writable imagefile) then exit_ (-1)
  else
    _ ← modify (upd_files <[imagefile := []]>);
    _ ← write_image imagefile (replicate HDR 0);
    _ ← main_data o imagefile;
    fs ← gets files;
    b ← of_opt (fs !! imagefile);
    name ← of_opt (name o);
    let b := finish_image o name b in
    _ ← modify (upd_files <[imagefile := b]>);
    _ ← print_header sizeof_long (map_file b);
    exit_ 0.

(** ** [main] *)
Definition run_main (o : opts) (argc : Z) (argv : option string) : M sys unit :=
  if negb (headeronly_flag o =? 0) then main_headers o argv
  else
    _ ← main_checks o argc;
    imagefile ← of_opt argv;
    _ ← main_compare_binary o imagefile;
    imagefile ← main_mtd o imagefile;
    if negb (lflag o =? 0) then main_list o imagefile else main_write o imagefile.

Definition main (args : list string) : M sys unit := λ s,
  match parse_args args init_opts with
  | Done (argc, argv) o => run_main o argc argv s
  | Exit code _ => Exit code s
  | Oops => Oops
  | Blocked => Blocked
  | OutOfFuel => OutOfFuel
  end.

End code.
