(* ===== verification/MkMulti.v ===== *)
(** * mkimage.c: images of several files

    The layout of a multi-file image, the loops over its table of sizes, and the
    round trip: what [mkimage -T multi] packs, [mkimage -l] accepts and
    [-q], [-X], [-f] and [-t] find, extract and count. *)

From stdpp Require Import base list gmap strings numbers.
From Stdlib Require Import ZArith Lia Ascii.
From S2P Require Import Prelude KString Crc32 Image MkImage MkImageMain MkImageProofs.

(** ** The layout of an image of several files *)
Lemma round_up_eq size : 0 ≤ size → size + 3 < 4294967296 → round_up size = (size + 3) / 4 * 4.
Proof.
  intros H0 H. unfold round_up. rewrite u32_small by lia. change 3 with (Z.ones 2) at 2.
  rewrite <-Z.ldiff_land, Z.ldiff_ones_r by lia.
  rewrite Z.shiftl_mul_pow2, Z.shiftr_div_pow2 by lia. done.
Qed.

Definition pad (b : list Z) : list Z := replicate ((4 - length b mod 4) mod 4)%nat 0.
Fixpoint body (bs : list (list Z)) : list Z :=
  match bs with
  | [] => []
  | [b] => b
  | b :: bs => b ++ pad b ++ body bs
  end.
(** A file that can be part of an image: not empty, and its size fits. *)
Definition fits (b : list Z) : Prop := (0 < length b)%nat ∧ Z.of_nat (length b) + 3 < 4294967296.

Lemma round_up_pad b : fits b → Z.to_nat (round_up (Z.of_nat (length b))) = (length b + length (pad b))%nat.
Proof.
  intros [H0 H]. rewrite round_up_eq by lia. unfold pad. rewrite length_replicate.
  assert (E := Nat.div_mod_eq (length b) 4). assert (Hr := Nat.mod_upper_bound (length b) 4 ltac:(lia)).
  revert E Hr. generalize (length b / 4)%nat. intros q.
  destruct (length b mod 4)%nat as [|[|[|[|r]]]]; intros E Hr; [..|lia];
    match goal with |- context [((4 - ?k) mod 4)%nat] =>
      let v := eval vm_compute in ((4 - k) mod 4)%nat in change ((4 - k) mod 4)%nat with v end; Z.div_mod_to_equations; lia.
Qed.

(** The files from the [i]-th on, as they lie behind the table. *)
Definition offset (bs : list (list Z)) (i : nat) : nat :=
  sum_list_with (λ b, length b + length (pad b))%nat (take i bs).

Lemma offset_S bs i b : bs !! i = Some b → offset bs (S i) = (offset bs i + (length b + length (pad b)))%nat.
Proof.
  intros Hb. unfold offset. rewrite (take_S_r _ _ _ Hb), sum_list_with_app. simpl. lia.
Qed.

Lemma body_length_le bs : (length (body bs) ≤ offset bs (length bs))%nat.
Proof.
  unfold offset. rewrite take_ge by lia. induction bs as [|b bs IH]; [done|]. cbn [sum_list_with].
  destruct bs as [|c bs]; [simpl; lia|]. change (body (b :: c :: bs)) with (b ++ pad b ++ body (c :: bs)).
  rewrite !length_app. lia.
Qed.

Lemma body_split bs i b : bs !! i = Some b →
  ∃ pre z, body bs = pre ++ b ++ z ∧ length pre = offset bs i.
Proof.
  revert i. induction bs as [|c bs IH]; intros i Hb; [done|]. destruct i as [|i].
  - injection Hb as ->. exists []. destruct bs as [|d bs]; [exists []|eexists]; (split; [|done]).
    + simpl. by rewrite app_nil_r.
    + done.
  - simpl in Hb. destruct bs as [|d bs]; [done|].
    destruct (IH i Hb) as (pre & z & Hbody & Hpre). exists (c ++ pad c ++ pre), z. split.
    + change (body (c :: d :: bs)) with (c ++ pad c ++ body (d :: bs)). rewrite Hbody. by rewrite <-!(assoc_L app).
    + rewrite !length_app, Hpre. unfold offset. simpl. lia.
Qed.

(** The table as the loops read it. *)
Lemma slice_at m a b z : m = a ++ b ++ z → slice m (length a) (length b) = Some b.
Proof.
  intros ->. unfold slice. rewrite !length_app.
  destruct (Nat.leb_spec (length a + length b) (length a + (length b + length z))); [|lia].
  by rewrite drop_app_length, take_app_length.
Qed.

Lemma ih_type_take b : (HDR ≤ length b)%nat → ih_type (take HDR b) = ih_type b.
Proof.
  intros Hl. unfold ih_type, get8, HDR in *. rewrite <-(take_drop 64 b) at 2.
  rewrite app_nth1; [done|]. rewrite length_take. lia.
Qed.

Lemma get32_take b off : (off + 4 ≤ HDR)%nat → (HDR ≤ length b)%nat → get32 (take HDR b) off = get32 b off.
Proof.
  intros Ho Hb. unfold get32. rewrite <-(take_drop HDR b) at 2.
  rewrite drop_app_le by (rewrite length_take; lia).
  assert (Hl : (4 ≤ length (drop off (take HDR b)))%nat) by (rewrite length_drop, length_take; lia).
  by destruct (drop off (take HDR b)) as [|? [|? [|? [|? ?]]]]; [simpl in Hl; lia..|].
Qed.

Section layout.
Variable L : nat.
Hypothesis L_long : (4 ≤ L)%nat.

Definition size_entry (b : list Z) : list Z := put32 (Z.of_nat (length b)) ++ replicate (L - 4) 0.
Definition table (bs : list (list Z)) : list Z := concat (size_entry <$> bs) ++ replicate L 0.

Lemma size_entry_length b : length (size_entry b) = L.
Proof. unfold size_entry. rewrite length_app, length_replicate, put32_length. lia. Qed.

Lemma entries_length bs : length (concat (size_entry <$> bs)) = (length bs * L)%nat.
Proof. induction bs as [|b bs IH]; [done|]. cbn [fmap list_fmap concat length].
  rewrite length_app, size_entry_length, IH. lia. Qed.

Lemma table_length bs : length (table bs) = ((length bs + 1) * L)%nat.
Proof. unfold table. rewrite length_app, entries_length, length_replicate. lia. Qed.

Lemma drop_entries bs z i : (i ≤ length bs)%nat →
  drop (i * L) (concat (size_entry <$> bs) ++ z) = concat (size_entry <$> drop i bs) ++ z.
Proof.
  revert bs. induction i as [|i IH]; intros bs Hi; [by rewrite !drop_0|].
  destruct bs as [|b bs]; [simpl in Hi; lia|]. cbn [fmap list_fmap concat drop]. rewrite <-(assoc_L app).
  replace (S i * L)%nat with (length (size_entry b) + i * L)%nat by (rewrite size_entry_length; lia).
  rewrite <-drop_drop, drop_app_length. apply IH. simpl in Hi. lia.
Qed.

Lemma len_ptr_entry h bs z i b : length h = HDR → bs !! i = Some b → fits b →
  len_ptr L (h ++ table bs ++ z) i = Some (false, Z.of_nat (length b)).
Proof.
  intros Hh Hi [H0 Hb]. assert (Hlt := lookup_lt_Some _ _ _ Hi).
  assert (Hs : slice (h ++ table bs ++ z) (HDR + i * L) L = Some (size_entry b)).
  { rewrite <-(size_entry_length b). erewrite <-(slice_at _ (h ++ concat (size_entry <$> take i bs)) (size_entry b)
      (concat (size_entry <$> drop (S i) bs) ++ replicate L 0 ++ z)).
    - f_equal. rewrite length_app, entries_length, length_take, Hh, size_entry_length. unfold HDR. lia.
    - assert (E : concat (size_entry <$> bs) =
        concat (size_entry <$> take i bs) ++ size_entry b ++ concat (size_entry <$> drop (S i) bs)).
      { rewrite <-(take_drop_middle _ _ _ Hi) at 1. rewrite fmap_app, fmap_cons. by rewrite concat_app. }
      unfold table. rewrite E. by rewrite <-!(assoc_L app). }
  unfold len_ptr. rewrite Hs. cbn [mbind option_bind]. unfold size_entry, get32, put32. cbn [app drop].
  rewrite be32_put32, u32_small by lia. do 2 f_equal. cbn [forallb].
  destruct (Z.eqb_spec 0 (u8 (Z.of_nat (length b) / 16777216))) as [E3|]; [|done].
  destruct (Z.eqb_spec 0 (u8 (Z.of_nat (length b) / 65536))) as [E2|]; [|done].
  destruct (Z.eqb_spec 0 (u8 (Z.of_nat (length b) / 256))) as [E1|]; [|done].
  destruct (Z.eqb_spec 0 (u8 (Z.of_nat (length b)))) as [E0|]; [|done]. exfalso.
  assert (E := be32_put32 (Z.of_nat (length b))). rewrite <-E0, <-E1, <-E2, <-E3, u32_small in E by lia.
  unfold be32 in E. lia.
Qed.

Lemma len_ptr_end h bs z : length h = HDR → len_ptr L (h ++ table bs ++ z) (length bs) = Some (true, 0).
Proof.
  intros Hh. assert (Hs : slice (h ++ table bs ++ z) (HDR + length bs * L) L = Some (replicate L 0)).
  { assert (H := slice_at (h ++ table bs ++ z) (h ++ concat (size_entry <$> bs)) (replicate L 0) z).
    rewrite length_app, entries_length, length_replicate, Hh in H. apply H. unfold table. by rewrite <-!(assoc_L app). }
  unfold len_ptr. rewrite Hs. cbn [mbind option_bind]. clear Hs. do 2 f_equal.
  - clear. induction L as [|n IH]; [done|]. exact IH.
  - unfold get32. destruct L as [|[|[|[|n]]]]; try lia. done.
Qed.

(** [for (i=0; len_ptr[i]; ++i) ;] counts the files. *)
Lemma count_ptrs_done h bs z i fuel s : length h = HDR → Forall fits bs → (i ≤ length bs)%nat →
  (length bs - i < fuel)%nat → count_ptrs L fuel (h ++ table bs ++ z) i s = Done (length bs) s.
Proof.
  intros Hh Hb. revert i. induction fuel as [|fuel IH]; intros i Hi Hf; [lia|].
  cbn [count_ptrs]. destruct (decide (i = length bs)) as [->|Hne].
  - rewrite len_ptr_end by done. by msimpl.
  - destruct (lookup_lt_is_Some_2 bs i) as [b Hbi]; [lia|].
    rewrite (len_ptr_entry h bs z i b Hh Hbi) by (by eapply Forall_lookup_1). msimpl. cbn [fst].
    apply IH; lia.
Qed.

(** A file with a good header in front. *)
Definition is_img (b : list Z) : bool := check_header (take HDR b) =? 0.

(** What the loop over the files looks for: the first good image of a type, its
    [pos], and the number of good images before it. *)
Fixpoint walk (t : Z) (bs : list (list Z)) (pos cnt : Z) : option (Z * list Z) * Z :=
  match bs with
  | [] => (None, cnt)
  | b :: bs =>
      let pos' := pos + Z.of_nat (length b + length (pad b)) in
      if is_img b then
        if ih_type b =? t then (Some (pos, b), cnt) else walk t bs pos' (cnt + 1)
      else walk t bs pos' cnt
  end.

Definition act (writable : string → bool) (stack : list Z * list Z) (input_file : string) (output_file : option string)
    (action : TypeAction) (r : option (Z * list Z) * Z) : M sys (Z * Z) :=
  match r.1 with
  | None => mret (match action with count => 0 | _ => -1 end, r.2)
  | Some (pos, b) =>
      match action with
      | query => mret (0, r.2)
      | compare =>
          v ← file_compare stack output_file input_file (u32 (pos + 4)) (Z.of_nat (length b)); mret (v, r.2)
      | extract =>
          _ ← file_copy writable input_file output_file (u32 (pos + 4)) (Z.of_nat (length b)); mret (0, r.2)
      | exthdr => _ ← file_copy writable input_file output_file (u32 (pos + 4)) (Z.of_nat HDR); mret (0, r.2)
      | count => mret (-1, r.2)
      end
  end.

Lemma header_slice h bs z i b : length h = HDR → bs !! i = Some b → (HDR ≤ length b)%nat →
  slice (h ++ table bs ++ body bs ++ z) (HDR + (length bs + 1) * L + offset bs i) HDR = Some (take HDR b).
Proof.
  intros Hh Hi Hb. destruct (body_split bs i b Hi) as (pre & z' & -> & Hpre).
  assert (H := slice_at (h ++ table bs ++ (pre ++ b ++ z') ++ z) (h ++ table bs ++ pre) (take HDR b)
    (drop HDR b ++ z' ++ z)).
  rewrite !length_app, Hh, table_length, Hpre, length_take, Nat.min_l in H by done.
  rewrite Nat.add_assoc in H. apply H.
  rewrite <-!(assoc_L app). do 3 f_equal. rewrite (assoc_L app (take HDR b)), take_drop. done.
Qed.

Lemma extract_loop_done writable stack t input_file output_file action h bs z i cnt fuel s :
  length h = HDR → Forall fits bs → Forall (λ b, (HDR ≤ length b)%nat) bs → (i ≤ length bs)%nat →
  (length bs - i < fuel)%nat →
  Z.of_nat (HDR + length bs * L + offset bs (length bs)) < 4294967296 →
  extract_loop L writable stack fuel t input_file output_file (h ++ table bs ++ body bs ++ z) action i
    (Z.of_nat (HDR + length bs * L + offset bs i)) (HDR + (length bs + 1) * L + offset bs i) cnt s =
  act writable stack input_file output_file action
    (walk t (drop i bs) (Z.of_nat (HDR + length bs * L + offset bs i)) cnt) s.
Proof.
  intros Hh Hfits Hhdr. revert i cnt. induction fuel as [|fuel IH]; intros i cnt Hi Hf Hmax; [lia|].
  cbn [extract_loop]. destruct (decide (i = length bs)) as [->|Hne].
  - rewrite len_ptr_end by done. msimpl. by rewrite drop_ge by lia.
  - destruct (lookup_lt_is_Some_2 bs i) as [b Hbi]; [lia|].
    assert (Hfb := Forall_lookup_1 _ _ _ _ Hfits Hbi). assert (Hhb := Forall_lookup_1 _ _ _ _ Hhdr Hbi). simpl in Hhb.
    rewrite (len_ptr_entry h bs _ i b Hh Hbi Hfb). msimpl. cbn [fst snd].
    rewrite (header_slice h bs z i b Hh Hbi Hhb). msimpl. cbv zeta.
    assert (Hmono : (offset bs (S i) ≤ offset bs (length bs))%nat).
    { unfold offset. rewrite (take_ge bs (length bs)) by lia. rewrite <-(take_drop (S i) bs) at 2.
      rewrite sum_list_with_app. lia. }
    assert (Hstep := offset_S bs i b Hbi). assert (Hru := round_up_pad b Hfb).
    assert (Hrz : round_up (Z.of_nat (length b)) = Z.of_nat (length b + length (pad b))).
    { rewrite <-Hru, Z2Nat.id; [done|]. rewrite round_up_eq by (destruct Hfb; lia).
      apply Z.mul_nonneg_nonneg; [apply Z.div_pos; lia|lia]. }
    assert (Hpos : u32 (Z.of_nat (HDR + length bs * L + offset bs i) + round_up (Z.of_nat (length b))) =
      Z.of_nat (HDR + length bs * L + offset bs (S i))) by (rewrite Hrz, u32_small; lia).
    assert (Hdata : (HDR + (length bs + 1) * L + offset bs i + Z.to_nat (round_up (Z.of_nat (length b))) =
      HDR + (length bs + 1) * L + offset bs (S i))%nat) by lia.
    rewrite Hpos, Hdata. rewrite (drop_S _ _ _ Hbi). cbn [walk].
    change (check_header (take HDR b) =? 0) with (is_img b). rewrite (ih_type_take b Hhb).
    replace (Z.of_nat (HDR + length bs * L + offset bs i) + Z.of_nat (length b + length (pad b)))
      with (Z.of_nat (HDR + length bs * L + offset bs (S i))) by lia.
    destruct (is_img b); [destruct (ih_type b =? t)|]; [done|apply IH; lia|apply IH; lia].
Qed.

(** [extract_file_from_multi] on an image with that layout. *)
Lemma extract_done writable stack t input_file output_file action h bs z s :
  length h = HDR → ih_type h = IH_TYPE_MULTI → Forall fits bs → Forall (λ b, (HDR ≤ length b)%nat) bs →
  Z.of_nat (HDR + length bs * L + offset bs (length bs)) < 4294967296 →
  extract_file_from_multi L writable stack t input_file output_file (h ++ table bs ++ body bs ++ z) action s =
  act writable stack input_file output_file action (walk t bs (Z.of_nat (HDR + length bs * L)) 0) s.
Proof.
  intros Hh Ht Hfits Hhdr Hmax. unfold extract_file_from_multi.
  assert (E : ih_type (h ++ table bs ++ body bs ++ z) = ih_type h).
  { unfold ih_type, get8. rewrite app_nth1; [done|]. rewrite Hh. unfold HDR. lia. }
  rewrite E, Ht. change (IH_TYPE_MULTI =? IH_TYPE_MULTI) with true. cbv iota.
  assert (Hlen : (length bs < length (h ++ table bs ++ body bs ++ z))%nat).
  { rewrite !length_app, table_length. nia. }
  erewrite bind_done; [|apply count_ptrs_done; [done|done|lia|lia]]. cbv beta.
  assert (H := extract_loop_done writable stack t input_file output_file action h bs z 0 0
    (length (h ++ table bs ++ body bs ++ z)) s Hh Hfits Hhdr ltac:(lia) ltac:(lia) Hmax).
  change (offset bs 0) with 0%nat in H. rewrite !Nat.add_0_r, drop_0 in H. exact H.
Qed.

(** The next file's place, for the loops that keep [data] only. *)
Lemma next_data bs i b : bs !! i = Some b → fits b →
  (HDR + (length bs + 1) * L + offset bs i + Z.to_nat (round_up (Z.of_nat (length b))) =
   HDR + (length bs + 1) * L + offset bs (S i))%nat.
Proof. intros Hbi Hfb. rewrite (round_up_pad b Hfb), (offset_S bs i b Hbi). lia. Qed.

Lemma next_pos bs i b : bs !! i = Some b → fits b →
  Z.of_nat (HDR + length bs * L + offset bs (length bs)) < 4294967296 →
  u32 (Z.of_nat (HDR + length bs * L + offset bs i) + round_up (Z.of_nat (length b))) =
  Z.of_nat (HDR + length bs * L + offset bs (S i)).
Proof.
  intros Hbi Hfb Hmax. assert (Hmono : (offset bs (S i) ≤ offset bs (length bs))%nat).
  { unfold offset. rewrite (take_ge bs (length bs)) by lia. rewrite <-(take_drop (S i) bs) at 2.
    rewrite sum_list_with_app. lia. }
  assert (Hrz : round_up (Z.of_nat (length b)) = Z.of_nat (length b + length (pad b))).
  { rewrite <-(round_up_pad b Hfb), Z2Nat.id; [done|]. rewrite round_up_eq by (destruct Hfb; lia).
    apply Z.mul_nonneg_nonneg; [apply Z.div_pos; lia|lia]. }
  rewrite Hrz, u32_small; rewrite (offset_S bs i b Hbi) in *; lia.
Qed.

(** [extract_file_number]: the file of that number, if its header is good. *)
Lemma number_loop_done writable n input_file output_file h bs z i fuel s :
  length h = HDR → Forall fits bs → Forall (λ b, (HDR ≤ length b)%nat) bs → (i ≤ length bs)%nat →
  (length bs - i < fuel)%nat → (Z.of_nat i ≤ n) →
  Z.of_nat (HDR + length bs * L + offset bs (length bs)) < 4294967296 →
  number_loop L writable fuel n input_file output_file (h ++ table bs ++ body bs ++ z) i
    (Z.of_nat (HDR + length bs * L + offset bs i)) (HDR + (length bs + 1) * L + offset bs i) s =
  match bs !! Z.to_nat n with
  | Some b =>
      if is_img b then
        (_ ← file_copy writable input_file output_file
               (u32 (Z.of_nat (HDR + length bs * L + offset bs (Z.to_nat n)) + 4)) (Z.of_nat (length b));
         mret 0) s
      else Done (-1) s
  | None => Done (-1) s
  end.
Proof.
  intros Hh Hfits Hhdr. revert i. induction fuel as [|fuel IH]; intros i Hi Hf Hn Hmax; [lia|].
  cbn [number_loop]. destruct (decide (i = length bs)) as [->|Hne].
  - rewrite len_ptr_end by done. msimpl. cbn [fst]. by rewrite lookup_ge_None_2 by lia.
  - destruct (lookup_lt_is_Some_2 bs i) as [b Hbi]; [lia|].
    assert (Hfb := Forall_lookup_1 _ _ _ _ Hfits Hbi). assert (Hhb := Forall_lookup_1 _ _ _ _ Hhdr Hbi). simpl in Hhb.
    rewrite (len_ptr_entry h bs _ i b Hh Hbi Hfb). msimpl. cbn [fst snd].
    rewrite (header_slice h bs z i b Hh Hbi Hhb). msimpl. cbv zeta.
    rewrite (next_pos bs i b Hbi Hfb Hmax), (next_data bs i b Hbi Hfb).
    change (check_header (take HDR b) =? 0) with (is_img b).
    destruct (Z.eqb_spec (Z.of_nat i) n) as [E|E].
    + subst n. rewrite Nat2Z.id, Hbi. destruct (is_img b); [done|]. cbn [andb].
      assert (Hlast : ∀ f j, (i < j)%nat → (j ≤ length bs)%nat → (length bs - j < f)%nat →
        number_loop L writable f (Z.of_nat i) input_file output_file (h ++ table bs ++ body bs ++ z) j
          (Z.of_nat (HDR + length bs * L + offset bs j)) (HDR + (length bs + 1) * L + offset bs j) s = Done (-1) s).
      { clear -Hh Hfits Hhdr Hmax L_long. intros f. induction f as [|f IHf]; intros j Hij Hj Hjf; [lia|].
        cbn [number_loop]. destruct (decide (j = length bs)) as [->|Hne]; [by rewrite len_ptr_end by done|].
        destruct (lookup_lt_is_Some_2 bs j) as [c Hc]; [lia|].
        assert (Hfc := Forall_lookup_1 _ _ _ _ Hfits Hc). assert (Hhc := Forall_lookup_1 _ _ _ _ Hhdr Hc). simpl in Hhc.
        rewrite (len_ptr_entry h bs _ j c Hh Hc Hfc). msimpl. cbn [fst snd].
        rewrite (header_slice h bs z j c Hh Hc Hhc). msimpl. cbv zeta.
        rewrite (next_pos bs j c Hc Hfc Hmax), (next_data bs j c Hc Hfc).
        destruct (Z.eqb_spec (Z.of_nat j) (Z.of_nat i)); [lia|]. rewrite andb_false_r. apply IHf; lia. }
      apply Hlast; lia.
    + rewrite andb_false_r. apply IH; lia.
Qed.

(** ** Checking the files *)
Definition image_ok (b : list Z) : bool := is_img b && (crc32 0 (drop HDR b) =? ih_dcrc b).

Lemma data_slice h bs z i b : length h = HDR → bs !! i = Some b → (HDR ≤ length b)%nat →
  slice (h ++ table bs ++ body bs ++ z) (HDR + (length bs + 1) * L + offset bs i + HDR)
    (length b - HDR) = Some (drop HDR b).
Proof.
  intros Hh Hi Hb. destruct (body_split bs i b Hi) as (pre & z' & -> & Hpre).
  assert (H := slice_at (h ++ table bs ++ (pre ++ b ++ z') ++ z) (h ++ table bs ++ pre ++ take HDR b) (drop HDR b)
    (z' ++ z)).
  rewrite !length_app, Hh, table_length, Hpre, length_take, Nat.min_l, length_drop in H by done.
  rewrite !Nat.add_assoc in H. apply H. rewrite <-!(assoc_L app). do 3 f_equal.
  rewrite (assoc_L app (take HDR b)), take_drop. done.
Qed.

(** *** The names of the files *)

(** The arrays all hold a string. *)
Definition scanned (t : texts) : Prop := is_Some (temp_arr1 t) ∧ is_Some (image_name t) ∧ is_Some (image_ver t).

(** The name in the header of a file ends within the header. *)
Definition named (b : list Z) : bool := if c_string (ih_name b) is Some _ then true else false.
(** The number of words of the name, up to three. *)
Definition name_words (b : list Z) : nat :=
  match c_string (ih_name b) with Some s => length (sscanf_words 3 s) | None => 0 end.
(** [print_header] can show the names: those of the images end, and the first
    file is an image whose name has two words. *)
Definition printable (bs : list (list Z)) : bool :=
  forallb (λ b, negb (is_img b) || named b) bs &&
  match bs with b :: _ => is_img b && (2 <=? name_words b)%nat | [] => true end.

Lemma scan_name_done b t : named b = true → (2 ≤ name_words b)%nat ∨ scanned t →
  ∃ t', scan_name (ih_name b) t = Some t' ∧ scanned t'.
Proof.
  unfold named, name_words, scan_name, scanned.
  destruct (c_string (ih_name b)) as [s|]; [|done]. intros _ Ht. cbn [mbind option_bind].
  destruct t as [a n v]. cbn [temp_arr1 image_name image_ver] in *.
  destruct (sscanf_words 3 s) as [|w1 [|w2 [|w3 ws]]]; cbn [length image_ver] in *.
  1,2: destruct Ht as [?|([a0 ->] & [n0 ->] & _)]; [lia|]; cbn; eauto.
  - cbn. eauto 10.
  - destruct w3; cbn; eauto 10.
Qed.

(** A name of fewer than two words needs what the arrays do not hold yet. *)
Lemma scan_name_stuck b : (name_words b < 2)%nat → scan_name (ih_name b) (Texts None None None) = None.
Proof.
  unfold name_words, scan_name. destruct (c_string (ih_name b)) as [s|]; [|done]. cbn [mbind option_bind].
  destruct (sscanf_words 3 s) as [|w1 [|w2 ws]]; cbn [length]; [done|done|lia].
Qed.

Lemma ih_name_take b : (HDR ≤ length b)%nat → ih_name (take HDR b) = ih_name b.
Proof. intros Hb. unfold ih_name, HDR in *. by rewrite skipn_firstn_comm, take_take. Qed.

Lemma print_loop_done h bs z i r t fuel s :
  length h = HDR → Forall fits bs → Forall (λ b, (HDR ≤ length b)%nat) bs →
  forallb (λ b, negb (is_img b) || named b) bs = true →
  (∀ b, bs !! i = Some b → scanned t ∨ is_img b = true ∧ (2 ≤ name_words b)%nat) → (i ≤ length bs)%nat →
  (length bs - i < fuel)%nat →
  print_loop L fuel (h ++ table bs ++ body bs ++ z) i (HDR + (length bs + 1) * L + offset bs i) r t s =
  Done (if forallb image_ok (drop i bs) then r else -1) s.
Proof.
  intros Hh Hfits Hhdr Hnames. revert i r t. induction fuel as [|fuel IH]; intros i r t Ht Hi Hf; [lia|].
  cbn [print_loop]. destruct (decide (i = length bs)) as [->|Hne].
  - rewrite len_ptr_end by done. msimpl. by rewrite drop_ge by lia.
  - destruct (lookup_lt_is_Some_2 bs i) as [b Hbi]; [lia|].
    assert (Hfb := Forall_lookup_1 _ _ _ _ Hfits Hbi). assert (Hhb := Forall_lookup_1 _ _ _ _ Hhdr Hbi). simpl in Hhb.
    rewrite (len_ptr_entry h bs _ i b Hh Hbi Hfb). msimpl. cbn [fst snd].
    rewrite (header_slice h bs z i b Hh Hbi Hhb). msimpl. cbv zeta.
    rewrite (next_data bs i b Hbi Hfb), (drop_S _ _ _ Hbi). cbn [forallb].
    change (check_header (take HDR b) =? 0) with (is_img b).
    assert (Hrest : ∀ t' r', scanned t' →
      print_loop L fuel (h ++ table bs ++ body bs ++ z) (1 + i) (HDR + (length bs + 1) * L + offset bs (S i)) r' t' s =
      Done (if forallb image_ok (drop (S i) bs) then r' else -1) s).
    { intros t' r' Ht'. apply IH; [by left|lia|lia]. }
    assert (Hnb : negb (is_img b) || named b = true).
    { rewrite forallb_forall in Hnames. apply Hnames. by eapply list_elem_of_In, list_elem_of_lookup_2. }
    specialize (Ht b Hbi). unfold image_ok at 1. destruct (is_img b); cbn [andb negb orb] in *.
    + rewrite ih_name_take by done.
      destruct (scan_name_done b t Hnb) as (t' & Hscan & Ht'); [by destruct Ht as [?|[_ ?]]; [right|left]|].
      rewrite Hscan. cbn [of_opt]. msimpl.
      assert (Hlen : Z.to_nat (u32 (Z.of_nat (length b) - Z.of_nat HDR)) = (length b - HDR)%nat).
      { destruct Hfb. rewrite u32_small by lia. lia. }
      rewrite Hlen, (data_slice h bs z i b Hh Hbi Hhb).
      unfold ih_dcrc. rewrite (get32_take b 24) by (unfold HDR in *; lia). msimpl.
      rewrite (bind_done _ _ s (if crc32 0 (drop HDR b) =? get32 b 24 then r else -1, t') s) by done.
      assert (Hsc := Ht'). destruct Ht' as (Ha & [n Hn] & [v Hv]). rewrite Hn, Hv. cbn [of_opt]. msimpl.
      rewrite Hrest by done.
      destruct (crc32 0 (drop HDR b) =? get32 b 24); cbn [andb]; [done|]. by destruct (forallb image_ok (drop (S i) bs)).
    + destruct Ht as [(Ha & Hn & [v Hv])|[? _]]; [|done]. msimpl. cbn [image_name image_ver]. rewrite Hv. cbn [of_opt]. msimpl.
      rewrite Hrest by (split_and!; cbn; eauto). by destruct (forallb image_ok (drop (S i) bs)).
Qed.

(** [print_header] on an image with that layout. *)
Lemma print_header_done h bs z s :
  length h = HDR → ih_type h = IH_TYPE_MULTI → Forall fits bs → Forall (λ b, (HDR ≤ length b)%nat) bs →
  printable bs = true →
  print_header L (h ++ table bs ++ body bs ++ z) s = Done (if forallb image_ok bs then 0 else -1) s.
Proof.
  intros Hh Ht Hfits Hhdr [Hnames Hfirst]%andb_prop. unfold print_header.
  assert (E : ih_type (h ++ table bs ++ body bs ++ z) = ih_type h).
  { unfold ih_type, get8. rewrite app_nth1; [done|]. rewrite Hh. unfold HDR. lia. }
  rewrite E, Ht. change ((IH_TYPE_MULTI =? IH_TYPE_MULTI) || (IH_TYPE_MULTI =? IH_TYPE_SCRIPT)) with true. cbv iota.
  assert (Hlen : (length bs < length (h ++ table bs ++ body bs ++ z))%nat).
  { rewrite !length_app, table_length. nia. }
  erewrite bind_done; [|apply count_ptrs_done; [done|done|lia|lia]]. cbv beta.
  assert (H := print_loop_done h bs z 0 0 (Texts None None None)
    (length (h ++ table bs ++ body bs ++ z)) s Hh Hfits Hhdr Hnames).
  change (offset bs 0) with 0%nat in H. rewrite !Nat.add_0_r, drop_0 in H. apply H; [|lia|lia].
  intros b Hb. right. destruct bs as [|b' bs]; [done|]. injection Hb as ->.
  apply andb_prop in Hfirst as [? ?%Nat.leb_le]. done.
Qed.

(** When the first file is an image whose name has fewer than two words,
    [print_header] copies from an array that holds nothing. *)
Lemma print_header_faults h bs z b bs' s : bs = b :: bs' →
  length h = HDR → ih_type h = IH_TYPE_MULTI → Forall fits bs → Forall (λ b, (HDR ≤ length b)%nat) bs →
  is_img b = true → (name_words b < 2)%nat →
  print_header L (h ++ table bs ++ body bs ++ z) s = Oops.
Proof.
  intros Hbs Hh Ht Hfits Hhdr Himg Hw. unfold print_header.
  assert (E : ih_type (h ++ table bs ++ body bs ++ z) = ih_type h).
  { unfold ih_type, get8. rewrite app_nth1; [done|]. rewrite Hh. unfold HDR. lia. }
  rewrite E, Ht. change ((IH_TYPE_MULTI =? IH_TYPE_MULTI) || (IH_TYPE_MULTI =? IH_TYPE_SCRIPT)) with true. cbv iota.
  assert (Hlen : (length bs < length (h ++ table bs ++ body bs ++ z))%nat).
  { rewrite !length_app, table_length. nia. }
  erewrite bind_done; [|apply count_ptrs_done; [done|done|lia|lia]]. cbv beta.
  assert (Hbi : bs !! 0%nat = Some b) by by rewrite Hbs.
  assert (Hfb := Forall_lookup_1 _ _ _ _ Hfits Hbi). assert (Hhb := Forall_lookup_1 _ _ _ _ Hhdr Hbi). simpl in Hhb.
  destruct (length (h ++ table bs ++ body bs ++ z)) as [|fuel]; [lia|]. cbn [print_loop].
  rewrite (len_ptr_entry h bs _ 0 b Hh Hbi Hfb). msimpl. cbn [fst snd].
  assert (Hs := header_slice h bs z 0 b Hh Hbi Hhb). change (offset bs 0) with 0%nat in Hs. rewrite !Nat.add_0_r in Hs.
  rewrite Hs. msimpl. cbv zeta. change (check_header (take HDR b) =? 0) with (is_img b). rewrite Himg.
  rewrite ih_name_take by done. by rewrite scan_name_stuck.
Qed.

End layout.
