(* ===== verification/MkRoundTrip.v ===== *)
(** * mkimage.c: from the command line to the files and back

    Creating an image with [mkimage], listing it and taking it apart with
    [mkimage -l], as whole runs of [main]. *)

From stdpp Require Import base list gmap strings numbers.
From Stdlib Require Import ZArith Lia Ascii.
From S2P Require Import Prelude KString Crc32 Image MkImage MkImageMain MkImageProofs MkMulti.

(** ** Writing the files *)
Section write.
Variable L : nat.
Variable writable : string → bool.
Variable stack : list Z * list Z.
Variable mtime : Z.

(** The files [l] hold [bs], and none of them is the image. *)
Definition hold (s : sys) (img : string) (l : list string) (bs : list (list Z)) : Prop :=
  Forall2 (λ f b, files s !! f = Some b ∧ f ≠ img) l bs.

Lemma hold_append s img l bs c : hold s img l bs → hold (append img c s) img l bs.
Proof.
  unfold hold. intros H. eapply Forall2_impl; [|exact H]. intros f b [Hf Hne]. split; [|done].
  unfold append. simpl. by rewrite lookup_alter_ne.
Qed.

Lemma write_image_done img c s : write_image img c s = Done () (append img c s).
Proof. done. Qed.

Lemma write_sizes_done img l bs s : hold s img l bs →
  write_sizes L img l s = Done () (append img (table L bs) s).
Proof.
  intros H. revert s bs H. induction l as [|f l IH]; intros s bs H; inversion H as [|? b ? bs' [Hf Hne] Hl]; subst.
  - done.
  - cbn [write_sizes]. msimpl. rewrite Hf. mstep (write_image_done img (size_entry L b) s).
    rewrite (IH (append img (size_entry L b) s) bs') by (by apply hold_append). rewrite append_app. do 2 f_equal.
    unfold table. cbn [fmap list_fmap concat]. by rewrite <-(assoc_L app).
Qed.

(** A file that one [write] takes. *)
Definition writes (b : list Z) : Prop := b ≠ [] ∧ Z.of_nat (length b) ≤ MAX_RW_COUNT.

Lemma write_mapped_done img b s : Z.of_nat (length b) ≤ MAX_RW_COUNT →
  write_mapped img b (Z.of_nat (length b)) s = Done (Z.of_nat (length b)) (append img b s).
Proof.
  intros Hb. unfold write_mapped. destruct (Z.ltb_spec (Z.of_nat (length b)) 0); [lia|]. cbv zeta.
  rewrite Z.min_l, Nat2Z.id, take_ge by lia. by mstep (write_image_done img b s).
Qed.

(** A file that one [write] does not take in full ends the program. *)
Lemma copy_file_too_big o img f b pad_it s : files s !! f = Some b → xflag o = 0 →
  MAX_RW_COUNT < Z.of_nat (length b) < 4294967295 → ∃ s', copy_file o img f pad_it s = Exit (-1) s'.
Proof.
  intros Hf Hx Hb. unfold MAX_RW_COUNT in Hb. unfold copy_file. msimpl. rewrite Hf.
  destruct (Nat.eqb_spec (length b) 0) as [E|_]; [lia|]. rewrite Hx. cbn [Z.eqb negb andb]. cbv zeta.
  change (drop 0 b) with b. change (Z.of_nat 0) with 0. rewrite Z.sub_0_r. set (size := int32 (Z.of_nat (length b))).
  assert (Hs : size < -1 ∨ MAX_RW_COUNT < size).
  { unfold size, MAX_RW_COUNT, int32. destruct (Z.lt_ge_cases (Z.of_nat (length b)) 2147483648).
    - right. rewrite Z.mod_small; lia.
    - left. replace (Z.of_nat (length b) + 2147483648) with (Z.of_nat (length b) - 2147483648 + 1 * 4294967296) by lia.
      rewrite Z.mod_add, Z.mod_small; lia. }
  unfold write_mapped, MAX_RW_COUNT in *. destruct (Z.ltb_spec size 0).
  - msimpl. destruct (Z.eqb_spec (-1) size); [lia|]. by eexists.
  - destruct Hs as [?|Hs]; [lia|]. rewrite Z.min_r by lia. rewrite (bind_done _ _ s 2147479552 (append img (take (Z.to_nat 2147479552) b) s)) by done.
    destruct (Z.eqb_spec 2147479552 size); [lia|]. by eexists.
Qed.

Lemma copy_file_done o img f b pad_it s : files s !! f = Some b → writes b → xflag o = 0 →
  copy_file o img f pad_it s = Done () (append img (b ++ if pad_it : bool then pad b else []) s).
Proof.
  intros Hf [Hne Hb] Hx. unfold copy_file. msimpl. rewrite Hf.
  destruct (Nat.eqb_spec (length b) 0) as [E|_]; [by apply nil_length_inv in E|].
  rewrite Hx. cbn [Z.eqb negb andb]. cbv zeta. change (drop 0 b) with b. change (Z.of_nat 0) with 0.
  rewrite Z.sub_0_r, int32_small by (unfold MAX_RW_COUNT, INT_MAX in *; lia).
  mstep (write_mapped_done img b s Hb). rewrite Z.eqb_refl. cbn [negb].
  destruct pad_it; cbn [andb]; [|by rewrite app_nil_r].
  assert (E : Z.rem (Z.of_nat (length b)) 4 = Z.of_nat (length b mod 4)%nat)
    by (rewrite Z.rem_mod_nonneg by lia; symmetry; apply (Nat2Z.inj_mod _ 4)).
  rewrite !E.
  assert (Hr := Nat.mod_upper_bound (length b) 4 ltac:(lia)). unfold pad.
  destruct (length b mod 4)%nat as [|r]; [simpl; by rewrite app_nil_r|].
  destruct (Z.eqb_spec (Z.of_nat (S r)) 0); [lia|]. cbn [negb]. destruct (Z.ltb_spec (Z.of_nat (S r)) 0); [lia|].
  rewrite write_image_done, append_app. do 4 f_equal. f_equal. rewrite Nat.mod_small by lia. lia.
Qed.

Lemma copy_files_done o img l bs s : hold s img l bs → Forall writes bs → xflag o = 0 →
  copy_files o img l s = Done () (append img (body bs) s).
Proof.
  intros H Hb Hx. revert s bs H Hb. induction l as [|f l IH]; intros s bs H Hb;
    inversion H as [|? b ? bs' [Hf Hne] Hl]; subst.
  - by rewrite append_nil.
  - apply Forall_cons_1 in Hb as [Hb Hbs]. destruct l as [|f' l].
    + inversion Hl; subst. cbn [copy_files body]. rewrite (copy_file_done o img f b false) by done. by rewrite app_nil_r.
    + change (copy_files o img (f :: f' :: l)) with (_ ← copy_file o img f true; copy_files o img (f' :: l)).
      mstep (copy_file_done o img f b true s Hf Hb Hx).
      rewrite (IH (append img (b ++ pad b) s) bs') by (done || by apply hold_append).
      rewrite append_app. inversion Hl; subst.
      change (body (b :: y :: l')) with (b ++ pad b ++ body (y :: l')). by rewrite <-(assoc_L app).
Qed.

(** The names between colons. *)
Fixpoint no_colon (s : string) : bool :=
  match s with EmptyString => true | String c s => negb (Ascii.eqb c ":") && no_colon s end.
Fixpoint join_colon (l : list string) : string :=
  match l with
  | [] => ""
  | [f] => f
  | f :: l => f +:+ String ":" (join_colon l)
  end.

Lemma split_colon_char c s : c ≠ ":"%char → split_colon (String c s) =
  let '(a, r) := split_colon s in (String c a, r).
Proof. intros Hc. destruct c as [[] [] [] [] [] [] [] []]; done. Qed.

Lemma split_colon_end f : no_colon f = true → split_colon f = (f, None).
Proof.
  induction f as [|c f IH]; intros H; [done|]. simpl in H. apply andb_prop in H as [Hc H].
  rewrite split_colon_char; [by rewrite IH|]. intros ->. by rewrite Ascii.eqb_refl in Hc.
Qed.
Lemma split_colon_app f s : no_colon f = true → split_colon (f +:+ String ":" s) = (f, Some s).
Proof.
  induction f as [|c f IH]; intros H; [done|]. simpl in H. apply andb_prop in H as [Hc H].
  change (String c f +:+ String ":" s) with (String c (f +:+ String ":" s)).
  rewrite split_colon_char; [by rewrite IH|]. intros ->. by rewrite Ascii.eqb_refl in Hc.
Qed.

Lemma data_files_join l fuel : l ≠ [] → Forall (λ f, no_colon f = true) l → (length l ≤ fuel)%nat →
  data_files fuel (join_colon l) = l.
Proof.
  intros Hne Hc. revert fuel. induction Hc as [|f l Hf Hc IH]; intros fuel Hl; [done|].
  destruct fuel as [|fuel]; [simpl in Hl; lia|]. destruct l as [|f' l].
  - cbn [join_colon data_files]. by rewrite split_colon_end.
  - change (join_colon (f :: f' :: l)) with (f +:+ String ":" (join_colon (f' :: l))).
    cbn [data_files]. rewrite split_colon_app by done. by rewrite IH by (done || simpl in *; lia).
Qed.

Lemma join_colon_length l : (length l ≤ S (String.length (join_colon l)))%nat.
Proof.
  induction l as [|f l IH]; [simpl; lia|]. destruct l as [|f' l]; [simpl; lia|].
  change (join_colon (f :: f' :: l)) with (f +:+ String ":" (join_colon (f' :: l))).
  assert (H := strlen_app f (String ":" (join_colon (f' :: l)))). unfold strlen in H.
  cbn [String.length] in H. simpl length in *. lia.
Qed.

(** ** What [main_write] leaves *)
Lemma lookup_img img s c : files (append img c (upd_files <[img := []]> s)) !! img = Some c.
Proof. rewrite append_insert. simpl. apply lookup_insert_eq. Qed.

Lemma upd_files_insert img a b s :
  upd_files <[img := b]> (upd_files <[img := a]> s) = upd_files <[img := b]> s.
Proof. unfold upd_files. simpl. by rewrite insert_insert_eq. Qed.

(** The image of one file. *)
Definition image_of (o : opts) (nm : string) (d : list Z) : list Z :=
  build_header mtime (Z.of_nat (length d)) (addr o) (entry_point o) (crc32 0 d)
    (opt_os o) (opt_arch o) (opt_type o) (opt_comp o) (bytes_of nm) ++ d.

Lemma finish_image_eq o nm d : Z.of_nat (length d) < 4294967296 →
  finish_image mtime o nm (replicate HDR 0 ++ d) = image_of o nm d.
Proof.
  intros Hd. unfold finish_image, image_of, sizeof_header. rewrite length_app, length_replicate.
  replace (drop HDR (replicate HDR 0 ++ d)) with d by (by rewrite drop_app_ge, length_replicate, Nat.sub_diag by done).
  replace (Z.of_nat (HDR + length d) - Z.of_nat HDR) with (Z.of_nat (length d)) by lia. cbv zeta.
  by rewrite u32_small, Nat2Z.id, take_ge by lia.
Qed.

Lemma main_write_data o img nm d s : writable img = true → name o = Some nm → Z.of_nat (length d) < 4294967296 →
  main_data L o img (upd_files <[img := replicate HDR 0]> s) = Done () (upd_files <[img := replicate HDR 0 ++ d]> s) →
  main_write L writable mtime o img s =
    match print_header L (map_file (image_of o nm d)) (upd_files <[img := image_of o nm d]> s) with
    | Done _ s' => Exit 0 s' | Exit c s' => Exit c s' | Oops => Oops | Blocked => Blocked | OutOfFuel => OutOfFuel
    end.
Proof.
  intros Hw Hn Hlen Hd. unfold main_write. rewrite Hw. cbn [negb]. msimpl.
  mstep (write_image_done img (replicate HDR 0) (upd_files <[img:=[]]> s)).
  rewrite append_insert. cbn [app]. mstep Hd. msimpl.
  cbn [files upd_files]. rewrite lookup_insert_eq. msimpl. rewrite Hn. msimpl. cbv zeta.
  rewrite upd_files_insert, finish_image_eq by done. unfold mbind, M_bind, exit_.
  by destruct (print_header L _ _).
Qed.

End write.

(** ** Command lines *)
Definition not_dash (s : string) : bool := match option_letters s with Some _ => false | None => true end.

Section commands.
Variable L : nat.

Lemma parse_stop fuel argc a rest cur o : 1 < argc → not_dash a = true →
  parse L (S fuel) argc (Some a :: rest) (Outer cur) o = Done (argc - 1, Some a) o.
Proof.
  intros Hargc Ha. cbn [parse]. destruct (Z.ltb_spec 0 (argc - 1)); [|lia]. cbn [negb].
  unfold not_dash in Ha. by destruct (option_letters a).
Qed.

Lemma parse_option fuel argc s rest cur o : 1 < argc →
  parse L (S fuel) argc (Some (String "-" s) :: rest) (Outer cur) o = parse L fuel (argc - 1) rest (Inner s) o.
Proof. intros Hargc. cbn [parse]. by destruct (Z.ltb_spec 0 (argc - 1)); [|lia]. Qed.

Lemma parse_flag fuel argc c s rest o f : letter_of c = Flag f →
  parse L (S fuel) argc rest (Inner (String c s)) o = parse L fuel argc rest (Inner s) (f o).
Proof. intros H. cbn [parse]. by rewrite H. Qed.

Lemma parse_nil fuel argc rest o :
  parse L (S fuel) argc rest (Inner "") o = parse L fuel argc rest (Outer (Some "")) o.
Proof. done. Qed.

Lemma parse_ptr fuel argc c s a rest o f : letter_of c = Ptr f → 1 < argc →
  parse L (S fuel) argc (a :: rest) (Inner (String c s)) o = parse L fuel (argc - 1) rest (Outer a) (f a o).
Proof.
  intros H Hargc. cbn [parse]. rewrite H. unfold next_arg. destruct (Z.leb_spec (argc - 1) 0); [lia|]. done.
Qed.

Lemma parse_code fuel argc c s a rest o get f : letter_of c = Code get f → 1 < argc → 0 ≤ get a →
  parse L (S fuel) argc (Some a :: rest) (Inner (String c s)) o =
  parse L fuel (argc - 1) rest (Outer (Some a)) (f (get a) o).
Proof.
  intros H Hargc Hget. cbn [parse]. rewrite H. unfold next_arg. destruct (Z.leb_spec (argc - 1) 0); [lia|].
  msimpl. cbn [of_opt]. msimpl. by destruct (Z.ltb_spec (get a) 0); [lia|].
Qed.

Lemma parse_args_fuel args n : (n ≤ S (S (sum_list_with (λ a, 2 + String.length a)%nat args)))%nat →
  ∃ k, parse_args L args = parse L (n + k) (1 + Z.of_nat (length args)) ((Some <$> args) ++ [None]) (Outer None).
Proof.
  intros Hn. exists (S (S (sum_list_with (λ a, 2 + String.length a)%nat args)) - n)%nat.
  unfold parse_args. f_equal. lia.
Qed.

(** The options of [mkimage -T type -n name -d data image]. *)
Definition create_opts (t : Z) (nm d : string) : opts :=
  set_dflag 1 (set_datafile (Some d) (set_name (Some nm) (set_opt_type t init_opts))).

Lemma parse_create t nm d img : 0 ≤ get_type t → not_dash img = true →
  parse_args L ["-T"; t; "-n"; nm; "-d"; d; img] init_opts = Done (1, Some img) (create_opts (get_type t) nm d).
Proof.
  intros Ht Hi. destruct (parse_args_fuel ["-T"; t; "-n"; nm; "-d"; d; img] 7) as [k ->].
  { cbn [sum_list_with String.length]. lia. }
  cbn [length fmap list_fmap app Nat.add]. change (1 + Z.of_nat 7) with 8.
  rewrite parse_option, (parse_code _ _ _ _ _ _ _ get_type set_opt_type) by done.
  rewrite parse_option, (parse_ptr _ _ _ _ _ _ _ set_name) by done.
  rewrite parse_option, (parse_ptr _ _ _ _ _ _ _ (λ a o, set_dflag 1 (set_datafile a o))) by done.
  by rewrite parse_stop.
Qed.

(** The options of [mkimage -l image] and [mkimage -l -X type -o out image]. *)
Lemma parse_list img : not_dash img = true →
  parse_args L ["-l"; img] init_opts = Done (1, Some img) (set_lflag 1 init_opts).
Proof.
  intros Hi. destruct (parse_args_fuel ["-l"; img] 4) as [k ->].
  { cbn [sum_list_with String.length]. lia. }
  cbn [length fmap list_fmap app Nat.add]. change (1 + Z.of_nat 2) with 3.
  rewrite parse_option, (parse_flag _ _ _ _ _ _ (set_lflag 1)), parse_nil by done. by rewrite parse_stop.
Qed.

Definition extract_opts (t out : string) : opts :=
  set_outputfileflag 1 (set_output_file (Some out) (set_xtractflag 1 (set_extract_file (Some t) (set_lflag 1 init_opts)))).
Lemma parse_extract t out img : not_dash img = true →
  parse_args L ["-l"; "-X"; t; "-o"; out; img] init_opts = Done (1, Some img) (extract_opts t out).
Proof.
  intros Hi. destruct (parse_args_fuel ["-l"; "-X"; t; "-o"; out; img] 8) as [k ->].
  { cbn [sum_list_with String.length]. lia. }
  cbn [length fmap list_fmap app Nat.add]. change (1 + Z.of_nat 6) with 7.
  rewrite parse_option, (parse_flag _ _ _ _ _ _ (set_lflag 1)), parse_nil by done.
  rewrite parse_option, (parse_ptr _ _ _ _ _ _ _ (λ a o, set_xtractflag 1 (set_extract_file a o))) by done.
  rewrite parse_option, (parse_ptr _ _ _ _ _ _ _ (λ a o, set_outputfileflag 1 (set_output_file a o))) by done.
  by rewrite parse_stop.
Qed.
End commands.

(** ** Listing *)
Section list.
Variable L : nat.
Variable writable : string → bool.
Variable stack : list Z * list Z.
Variable mtime : Z.

Lemma bytes_of_byte s : Forall is_byte (bytes_of s).
Proof.
  unfold bytes_of. apply Forall_fmap. apply Forall_true. intros c. unfold compose, is_byte.
  assert (H := N_ascii_bounded c). lia.
Qed.

(** The header of an image that was created. *)
Definition header_of (o : opts) (nm : string) (d : list Z) : list Z :=
  build_header mtime (Z.of_nat (length d)) (addr o) (entry_point o) (crc32 0 d)
    (opt_os o) (opt_arch o) (opt_type o) (opt_comp o) (bytes_of nm).

Lemma header_of_length o nm d : length (header_of o nm d) = HDR.
Proof. apply header_body_length. Qed.

Lemma header_of_fields o nm d : Forall is_byte d →
  check_header (header_of o nm d) = 0 ∧ ih_dcrc (header_of o nm d) = crc32 0 d ∧ ih_type (header_of o nm d) = u8 (opt_type o).
Proof.
  intros Hd. split; [unfold header_of; apply build_header_ok, bytes_of_byte|].
  unfold header_of, build_header.
  edestruct header_body_fields as (_ & _ & _ & _ & _ & _ & H1 & _ & _ & H2 & _).
  rewrite H1, H2, u32_small; [done|]. by apply crc32_word.
Qed.

(** [map_file] of a header and data. *)
Lemma map_image h d : length h = HDR → ∃ z, map_file (h ++ d) = h ++ d ++ z ∧ take HDR (map_file (h ++ d)) = h.
Proof.
  intros Hh. unfold map_file. eexists. rewrite <-(assoc_L app). split; [done|].
  rewrite <-Hh. by rewrite take_app_length.
Qed.

(** Header and data together are smaller than 4 GiB. *)
Definition small (d : list Z) : Prop := Z.of_nat (HDR + length d) < 4294967296.

(** The sizes that [list_checks] works with are then the real ones. *)
Lemma small_sizes h d : length h = HDR → small d →
  u32 (Z.of_nat (length (h ++ d))) <? sizeof_header = false ∧
  take (Z.to_nat (u32 (int32 (Z.of_nat (length (h ++ d)) - sizeof_header)))) (drop HDR (h ++ d)) = d.
Proof.
  unfold small, sizeof_header. intros Hh Hd. rewrite length_app, Hh. split.
  - rewrite u32_small by lia. apply Z.ltb_ge. lia.
  - assert (Hdrop : drop HDR (h ++ d) = d) by (rewrite <-Hh; apply drop_app_length). rewrite Hdrop.
    replace (Z.of_nat (HDR + length d) - Z.of_nat HDR) with (Z.of_nat (length d)) by lia.
    assert (E : u32 (int32 (Z.of_nat (length d))) = Z.of_nat (length d)).
    { unfold u32, int32. rewrite Zminus_mod_idemp_l, Z.add_simpl_r. apply Z.mod_small. lia. }
    rewrite E, Nat2Z.id. by apply take_ge.
Qed.

Lemma list_checks_done o nm d img r s : Forall is_byte d → small d →
  print_header L (map_file (header_of o nm d ++ d)) s = Done r s →
  list_checks L img (header_of o nm d ++ d) s =
    if r =? 0 then Done (map_file (header_of o nm d ++ d)) s else Exit (-1) s.
Proof.
  intros Hd Hsm Hp. assert (Hl := header_of_length o nm d). unfold list_checks. cbv zeta.
  destruct (small_sizes (header_of o nm d) d Hl Hsm) as [-> ->].
  destruct (map_image (header_of o nm d) d Hl) as (z & _ & Htake). rewrite Htake.
  destruct (header_of_fields o nm d Hd) as ([Hm Hc]%check_header_inv & Hdc & _).
  rewrite Hm, Hc, Z.eqb_refl. cbn [negb]. rewrite Z.eqb_refl. cbn [negb].
  rewrite Hdc, Z.eqb_refl. cbn [negb]. mstep Hp.
  by destruct (r =? 0).
Qed.

(** The way through [main] to the list and to the creation of an image. *)
Lemma run_main_plain o img s : headeronly_flag o = 0 → Z.lxor (lflag o) (dflag o) ≠ 0 → xflag o = 0 →
  compareflag o = 0 → mtd_flag o = 0 →
  run_main L writable stack mtime o 1 (Some img) s =
    (if negb (lflag o =? 0) then main_list L writable stack o img else main_write L writable mtime o img) s.
Proof.
  intros H1 H2 H3 H4 H5. unfold run_main. rewrite H1. cbn [Z.eqb negb].
  assert (Hc : main_checks L o 1 s = Done () s).
  { unfold main_checks. rewrite H3. cbn [Z.eqb Pos.eqb negb orb andb]. apply Z.eqb_neq in H2. by rewrite H2. }
  mstep Hc. cbn [of_opt]. msimpl.
  assert (Hb : main_compare_binary stack o img s = Done () s) by (unfold main_compare_binary; by rewrite H4).
  mstep Hb. unfold main_mtd. rewrite H5. cbn [Z.eqb negb]. by msimpl.
Qed.

(** [mkimage -l] of an image whose files are in order changes nothing and
    succeeds. *)
Lemma main_list_done o nm d img s : Forall is_byte d → small d → not_dash img = true →
  files s !! img = Some (header_of o nm d ++ d) →
  print_header L (map_file (header_of o nm d ++ d)) s = Done 0 s →
  main L writable stack mtime ["-l"; img] s = Exit 0 s.
Proof.
  intros Hd Hsm Hi Hf Hp. unfold main. rewrite parse_list, run_main_plain by done.
  change (negb (lflag (set_lflag 1 init_opts) =? 0)) with true. cbv iota. unfold main_list. msimpl. rewrite Hf.
  mstep (list_checks_done o nm d img 0 s Hd Hsm Hp). done.
Qed.

Lemma main_extract_done o nm d img t out s (r : outcome sys (Z * Z)) : Forall is_byte d → small d → not_dash img = true →
  files s !! img = Some (header_of o nm d ++ d) →
  print_header L (map_file (header_of o nm d ++ d)) s = Done 0 s →
  extract_file_from_multi L writable stack (get_image_type t) img (Some out) (map_file (header_of o nm d ++ d))
    extract s = r →
  main L writable stack mtime ["-l"; "-X"; t; "-o"; out; img] s =
    match r with
    | Done (v, _) s' => Exit (if v =? 0 then 0 else -1) s'
    | Exit c s' => Exit c s' | Oops => Oops | Blocked => Blocked | OutOfFuel => OutOfFuel
    end.
Proof.
  intros Hd Hsm Hi Hf Hp Hr. unfold main. rewrite parse_extract, run_main_plain by done.
  change (negb (lflag (extract_opts t out) =? 0)) with true. cbv iota. unfold main_list. msimpl. rewrite Hf.
  mstep (list_checks_done o nm d img 0 s Hd Hsm Hp).
  change (list_query L writable stack (extract_opts t out) img (map_file (header_of o nm d ++ d)))
    with (mret () : M sys unit). msimpl.
  change (list_extract L writable stack (extract_opts t out) img (map_file (header_of o nm d ++ d)))
    with ('(r, _) ← extract_file_from_multi L writable stack (get_image_type t) img (Some out)
            (map_file (header_of o nm d ++ d)) extract; failing r).
  unfold mbind, M_bind. rewrite Hr. destruct r as [[v n] s'|c s'| | |]; try done.
  unfold failing. by destruct (v =? 0).
Qed.
End list.

(** ** Round trips *)
Section round_trips.
Variable writable : string → bool.
Variable stack : list Z * list Z.
Variable mtime : Z.

Lemma get_type_byte t : 0 ≤ get_type t → u8 (get_type t) = get_type t.
Proof.
  intros H. apply u8_small. split; [done|]. unfold get_type in *.
  assert (Hall : ∀ table, forallb (λ e, val e <? 256) table = true → get_table_entry table t < 256).
  { clear. induction table as [|e table IH]; intros H; [done|]. simpl in H. apply andb_prop in H as [H1%Z.ltb_lt H2].
    simpl. destruct (val e <? 0); [lia|]. destruct (match sname e with Some s => _ | None => _ end); auto. }
  by apply Hall.
Qed.

Lemma plain_header L h z s : length h = HDR → ih_type h ≠ IH_TYPE_MULTI → ih_type h ≠ IH_TYPE_SCRIPT →
  print_header L (h ++ z) s = Done 0 s.
Proof.
  intros Hh H1 H2. unfold print_header.
  assert (E : ih_type (h ++ z) = ih_type h).
  { unfold ih_type, get8. rewrite app_nth1; [done|]. rewrite Hh. unfold HDR. lia. }
  rewrite E. apply Z.eqb_neq in H1, H2. by rewrite H1, H2.
Qed.

Lemma create_plain L t nm d img data s : writable img = true → not_dash img = true → 0 ≤ get_type t →
  get_type t ≠ IH_TYPE_MULTI → get_type t ≠ IH_TYPE_SCRIPT →
  files s !! d = Some data → writes data → d ≠ img → Forall is_byte data →
  let image := header_of mtime (create_opts (get_type t) nm d) nm data ++ data in
  main L writable stack mtime ["-T"; t; "-n"; nm; "-d"; d; img] s = Exit 0 (upd_files <[img := image]> s).
Proof.
  intros Hw Hi Ht Hm Hs Hf Hwr Hd Hb image. unfold main. rewrite parse_create, run_main_plain by done.
  set (o := create_opts (get_type t) nm d). change (negb (lflag o =? 0)) with false. cbv iota.
  rewrite (main_write_data L writable mtime o img nm data).
  - destruct (map_image (header_of mtime o nm data) data (header_of_length mtime o nm data)) as (z & Hz & _).
    change image with (header_of mtime o nm data ++ data).
    change (image_of mtime o nm data) with (header_of mtime o nm data ++ data). rewrite Hz.
    destruct (header_of_fields mtime o nm data Hb) as (_ & _ & Hty).
    rewrite plain_header; [done|apply header_of_length|..]; rewrite Hty; change (opt_type o) with (get_type t);
      by rewrite get_type_byte.
  - done.
  - done.
  - destruct Hwr. unfold MAX_RW_COUNT in *. lia.
  - unfold main_data. change (opt_type o) with (get_type t). apply Z.eqb_neq in Hm, Hs. rewrite Hm, Hs. cbn [orb].
    change (datafile o) with (Some d). cbv iota.
    rewrite (copy_file_done o img d data false); [|by cbn [files upd_files]; rewrite lookup_insert_ne|done|done].
    rewrite app_nil_r. by rewrite append_insert.
Qed.

(** C9: for data of 1 to 0x7ffff000 bytes (2 GiB less a page, what Linux
    writes at once) and a type that is neither [multi] nor [script],
    [mkimage -T type -n name -d data image] writes a header of 64 bytes and the
    data behind it, and [mkimage -l image] accepts it; the type and the data
    read back as they were given.  Of more data the tool writes only a part, or
    nothing, and fails ([copy_file_too_big]). *)
Theorem image_round_trip L t nm d img data s : writable img = true → not_dash img = true → 0 ≤ get_type t →
  get_type t ≠ IH_TYPE_MULTI → get_type t ≠ IH_TYPE_SCRIPT →
  files s !! d = Some data → data ≠ [] → Z.of_nat (length data) ≤ MAX_RW_COUNT → d ≠ img → Forall is_byte data →
  ∃ image, let s1 := upd_files <[img := image]> s in
    main L writable stack mtime ["-T"; t; "-n"; nm; "-d"; d; img] s = Exit 0 s1 ∧
    main L writable stack mtime ["-l"; img] s1 = Exit 0 s1 ∧
    ih_type image = get_type t ∧ drop HDR image = data ∧ check_header (take HDR image) = 0.
Proof.
  intros Hw Hi Ht Hm Hs Hf Hne Hmax Hd Hb. set (o := create_opts (get_type t) nm d).
  destruct (header_of_fields mtime o nm data Hb) as (Hchk & _ & Hty).
  assert (Hl := header_of_length mtime o nm data).
  assert (Hty' : ih_type (header_of mtime o nm data) = get_type t)
    by (rewrite Hty; change (opt_type o) with (get_type t); by apply get_type_byte).
  exists (header_of mtime o nm data ++ data). intros s1. split_and!.
  - by apply create_plain.
  - apply (main_list_done L writable stack mtime o nm data); [done| |done|apply lookup_insert_eq|].
    { unfold small, MAX_RW_COUNT, HDR in *. lia. }
    destruct (map_image (header_of mtime o nm data) data Hl) as (z & -> & _).
    apply plain_header; [done|congruence..].
  - rewrite <-Hty'. unfold ih_type, get8. rewrite app_nth1; [done|]. rewrite Hl. unfold HDR. lia.
  - rewrite <-Hl. apply drop_app_length.
  - rewrite <-Hl at 1. by rewrite take_app_length.
Qed.

(** C10: when the data of a created image, smaller than 4 GiB with its header,
    are damaged within four consecutive bytes, [mkimage -l] refuses the image,
    whatever else is asked of it with [-X].  The name of the image must fit the
    1024 bytes of the warning with its 36 other characters.  Neither bound is
    idle: [len] and the length that [crc32] takes have 32 bits, so that of more
    data only a part would be looked at, and a longer name overruns the
    buffer. *)
Theorem damaged_image_refused L o nm a u v b img t out s : Forall is_byte (a ++ u ++ b) → Forall is_byte v →
  length u = length v → (length u ≤ 4)%nat → u ≠ v → not_dash img = true →
  Z.of_nat (HDR + length (a ++ u ++ b)) < 4294967296 → strlen img < 988 →
  files s !! img = Some (header_of mtime o nm (a ++ u ++ b) ++ a ++ v ++ b) →
  main L writable stack mtime ["-l"; img] s = Exit (-1) s ∧
  main L writable stack mtime ["-l"; "-X"; t; "-o"; out; img] s = Exit (-1) s.
Proof.
  intros Hb Hv Hlen H4 Hne Hi Hsm Hnm Hf. set (h := header_of mtime o nm (a ++ u ++ b)) in *.
  assert (Hl : length h = HDR) by apply header_of_length.
  destruct (header_of_fields mtime o nm (a ++ u ++ b) Hb) as ([Hm Hc]%check_header_inv & Hdc & _). fold h in Hm, Hc, Hdc.
  assert (Hsm' : small (a ++ v ++ b)) by (unfold small in *; rewrite !length_app in *; lia).
  assert (Hchk : list_checks L img (h ++ a ++ v ++ b) s = Exit (-1) s).
  { unfold list_checks. cbv zeta. destruct (small_sizes h (a ++ v ++ b) Hl Hsm') as [-> ->].
    destruct (map_image h (a ++ v ++ b) Hl) as (z & _ & Htake). rewrite Htake.
    rewrite Hm, Hc, Z.eqb_refl. cbn [negb]. rewrite Z.eqb_refl. cbn [negb]. rewrite Hdc.
    destruct (Z.eqb_spec (crc32 0 (a ++ v ++ b)) (crc32 0 (a ++ u ++ b))) as [E|].
    2: { unfold warn_and_exit, sizeof_temp_buffer. cbn [negb]. by destruct (Z.leb_spec (36 + strlen img + 1) 1024); [|lia]. }
    exfalso. apply Hne. by apply (crc32_burst 0 a u v b). }
  unfold main. rewrite parse_list, parse_extract, !run_main_plain by done.
  split; cbn [lflag set_lflag extract_opts set_outputfileflag set_output_file set_xtractflag set_extract_file Z.eqb negb];
    unfold main_list; msimpl; rewrite Hf; unfold mbind, M_bind; by rewrite Hchk.
Qed.

(** ** Images of several files *)
Lemma walk_first t bs1 b bs2 pos cnt : Forall (λ c, is_img c && (ih_type c =? t) = false) bs1 →
  is_img b = true → ih_type b = t →
  ∃ cnt', walk t (bs1 ++ b :: bs2) pos cnt =
    (Some (pos + Z.of_nat (offset (bs1 ++ b :: bs2) (length bs1)), b), cnt').
Proof.
  intros H1 Hb Ht. revert pos cnt. induction H1 as [|c bs1 Hc _ IH]; intros pos cnt.
  - exists cnt. cbn [app walk]. rewrite Hb, Ht, Z.eqb_refl. change (offset (b :: bs2) (length [])) with 0%nat.
    do 3 f_equal. lia.
  - cbn [app walk]. set (pos' := pos + Z.of_nat (length c + length (pad c))).
    assert (E : ∀ k, pos' + Z.of_nat (offset (bs1 ++ b :: bs2) k) = pos + Z.of_nat (offset (c :: bs1 ++ b :: bs2) (S k))).
    { intros k. unfold pos', offset. cbn [take sum_list_with]. lia. }
    destruct (is_img c); [|destruct (IH pos' cnt) as [n ->]; exists n; by rewrite E].
    destruct (ih_type c =? t); [done|]. destruct (IH pos' (cnt + 1)) as [n ->]. exists n. by rewrite E.
Qed.

(** The parts of an image: files that are images themselves. *)
Definition good_part (b : list Z) : Prop :=
  image_ok b = true ∧ (HDR ≤ length b)%nat ∧ Z.of_nat (length b) + 3 < 4294967296 ∧ Forall is_byte b.

Lemma good_parts bs : Forall good_part bs → Forall fits bs ∧ Forall (λ b, (HDR ≤ length b)%nat) bs ∧
  forallb image_ok bs = true ∧ Forall (λ b, b ≠ []) bs ∧ Forall is_byte (body bs).
Proof.
  induction 1 as [|b bs (H1 & H2 & H3 & H4) Hbs IH]; [done|]. destruct IH as (IH1 & IH2 & IH3 & IH4 & IH5).
  unfold HDR in *. split_and!.
  - constructor; [split; lia|done].
  - by constructor.
  - simpl. by rewrite H1.
  - constructor; [|done]. intros ->. simpl in H2. lia.
  - destruct bs as [|c bs]; [done|]. change (body (b :: c :: bs)) with (b ++ pad b ++ body (c :: bs)).
    apply Forall_app. split; [done|]. apply Forall_app. split; [|done]. apply Forall_replicate. done.
Qed.

Lemma table_bytes L bs : Forall is_byte (table L bs).
Proof.
  unfold table. apply Forall_app. split; [|apply Forall_replicate; done].
  induction bs as [|b bs IH]; [done|]. cbn [fmap list_fmap concat]. apply Forall_app. split; [|done].
  unfold size_entry, put32. apply Forall_app. split; [|apply Forall_replicate; done].
  repeat (constructor; [apply is_byte_u8|]). constructor.
Qed.

(** The image that [mkimage -T multi -n nm -d f1:f2:... img] writes. *)
Definition multi_image (L : nat) (nm : string) (l : list string) (bs : list (list Z)) : list Z :=
  header_of mtime (create_opts IH_TYPE_MULTI nm (join_colon l)) nm (table L bs ++ body bs) ++ table L bs ++ body bs.

Section multi.
Variable L : nat.
Hypothesis L_long : (4 ≤ L)%nat.
Variables (img nm : string) (l : list string) (bs : list (list Z)) (s : sys).
Hypothesis img_writable : writable img = true.
Hypothesis img_name : not_dash img = true.
Hypothesis files_there : hold s img l bs.
Hypothesis names_ok : l ≠ [] ∧ Forall (λ f, no_colon f = true) l.
Hypothesis parts_ok : Forall good_part bs.
Hypothesis not_huge : Z.of_nat (HDR + (length bs + 1) * L + offset bs (length bs)) + 2048 ≤ MAX_RW_COUNT.

Lemma multi_map : ∃ h z, multi_image L nm l bs = h ++ table L bs ++ body bs ∧
  map_file (multi_image L nm l bs) = h ++ table L bs ++ body bs ++ z ∧ length h = HDR ∧ ih_type h = IH_TYPE_MULTI.
Proof.
  destruct (good_parts bs parts_ok) as (_ & _ & _ & _ & Hbytes).
  assert (Hb : Forall is_byte (table L bs ++ body bs)) by (apply Forall_app; split; [apply table_bytes|done]).
  set (o := create_opts IH_TYPE_MULTI nm (join_colon l)).
  destruct (header_of_fields mtime o nm _ Hb) as (_ & _ & Hty).
  destruct (map_image (header_of mtime o nm (table L bs ++ body bs)) (table L bs ++ body bs)
    (header_of_length mtime o nm _)) as (z & Hz & _).
  exists (header_of mtime o nm (table L bs ++ body bs)), z. split; [done|].
  change (multi_image L nm l bs) with (header_of mtime o nm (table L bs ++ body bs) ++ table L bs ++ body bs).
  split; [rewrite Hz; by rewrite <-!(assoc_L app)|]. split; [apply header_of_length|done].
Qed.

(** The files take up no more than the image. *)
Lemma multi_sizes : Z.of_nat (length (table L bs ++ body bs)) < 2147483648 ∧ Forall writes bs.
Proof.
  destruct (good_parts bs parts_ok) as (_ & _ & _ & Hne & _). unfold MAX_RW_COUNT in *. split.
  - assert (Hb := body_length_le bs). rewrite length_app, table_length by done. unfold HDR in *. lia.
  - apply Forall_forall. intros b Hb. rewrite Forall_forall in Hne. split; [by apply Hne|]. unfold MAX_RW_COUNT.
    apply list_elem_of_In, list_elem_of_lookup_1 in Hb as [i Hi]. assert (H := offset_S bs i b Hi).
    assert (Hle : (offset bs (S i) ≤ offset bs (length bs))%nat); [|lia].
    unfold offset. rewrite (take_ge bs (length bs)) by lia. rewrite <-(take_drop (S i) bs) at 2.
    rewrite sum_list_with_app. lia.
Qed.
Lemma multi_small : small (table L bs ++ body bs).
Proof. destruct multi_sizes as [H _]. unfold small, HDR in *. lia. Qed.

Lemma multi_run r : let s1 := upd_files <[img := multi_image L nm l bs]> s in
  print_header L (map_file (multi_image L nm l bs)) s1 = r →
  main L writable stack mtime ["-T"; "multi"; "-n"; nm; "-d"; join_colon l; img] s =
    match r with
    | Done _ s' => Exit 0 s' | Exit c s' => Exit c s' | Oops => Oops | Blocked => Blocked | OutOfFuel => OutOfFuel
    end.
Proof.
  intros s1 Hr. unfold s1 in Hr. destruct names_ok as [Hne Hnc]. destruct multi_sizes as [Hsz Hbw].
  unfold main. rewrite parse_create, run_main_plain by done.
  change (get_type "multi") with IH_TYPE_MULTI. set (o := create_opts IH_TYPE_MULTI nm (join_colon l)).
  change (negb (lflag o =? 0)) with false. cbv iota.
  rewrite (main_write_data L writable mtime o img nm (table L bs ++ body bs)); [|done|done|lia|].
  - change (image_of mtime o nm (table L bs ++ body bs)) with (multi_image L nm l bs). by rewrite Hr.
  - unfold main_data. change (opt_type o) with IH_TYPE_MULTI. cbn [Z.eqb Pos.eqb orb IH_TYPE_MULTI].
    change (datafile o) with (Some (join_colon l)). cbv iota zeta.
    rewrite data_files_join by (done || apply join_colon_length).
    assert (Hh : hold (upd_files <[img := replicate HDR 0]> s) img l bs).
    { unfold hold in *. eapply Forall2_impl; [|exact files_there]. intros f b [Hf Hfi].
      split; [|done]. cbn [files upd_files]. by rewrite lookup_insert_ne. }
    mstep (write_sizes_done L img l bs _ Hh).
    rewrite (copy_files_done o img l bs) by (done || by apply hold_append).
    rewrite append_app, append_insert. done.
Qed.

Hypothesis names_shown : printable bs = true.

Lemma multi_print s' : print_header L (map_file (multi_image L nm l bs)) s' = Done 0 s'.
Proof.
  destruct multi_map as (h & z & _ & -> & Hh & Ht). destruct (good_parts bs parts_ok) as (H1 & H2 & H3 & _).
  rewrite print_header_done by done. by rewrite H3.
Qed.

Lemma multi_create :
  main L writable stack mtime ["-T"; "multi"; "-n"; nm; "-d"; join_colon l; img] s =
    Exit 0 (upd_files <[img := multi_image L nm l bs]> s).
Proof. exact (multi_run _ (multi_print _)). Qed.

Lemma multi_list : let s1 := upd_files <[img := multi_image L nm l bs]> s in
  main L writable stack mtime ["-l"; img] s1 = Exit 0 s1.
Proof.
  intros s1. destruct (good_parts bs parts_ok) as (_ & _ & _ & _ & Hbytes).
  apply (main_list_done L writable stack mtime (create_opts IH_TYPE_MULTI nm (join_colon l)) nm (table L bs ++ body bs)).
  - apply Forall_app. split; [apply table_bytes|done].
  - apply multi_small.
  - done.
  - apply lookup_insert_eq.
  - apply multi_print.
Qed.

(** Extraction copies the bytes at [pos + 4]. *)
Lemma multi_extract t out bs1 b bs2 : bs = bs1 ++ b :: bs2 →
  Forall (λ c, ih_type c ≠ get_image_type t) bs1 → ih_type b = get_image_type t →
  out ≠ img → out ≠ "stdout" → writable out = true →
  let s1 := upd_files <[img := multi_image L nm l bs]> s in
  main L writable stack mtime ["-l"; "-X"; t; "-o"; out; img] s1 =
    Exit 0 (upd_files <[out := part (multi_image L nm l bs)
      (Z.of_nat (HDR + length bs * L + offset bs (length bs1)) + 4) (Z.of_nat (length b))]> s1).
Proof.
  intros Hbs Hno Hty Ho Hstd Hw s1. assert (Hnh := not_huge). unfold MAX_RW_COUNT in Hnh.
  destruct (good_parts bs parts_ok) as (H1 & H2 & H3 & _ & Hbytes).
  assert (Hoff : (offset bs (length bs1) ≤ offset bs (length bs))%nat).
  { unfold offset. rewrite (take_ge bs (length bs)) by lia. rewrite <-(take_drop (length bs1) bs) at 2.
    rewrite sum_list_with_app. lia. }
  assert (Hb : good_part b) by (rewrite Hbs in parts_ok; by apply Forall_app in parts_ok as [_ [? _]%Forall_cons_1]).
  assert (Hlen : Z.of_nat (length b) + 2048 < 4294967296).
  { assert (Hin : (length b ≤ offset bs (length bs))%nat); [|lia].
    unfold offset. rewrite (take_ge bs (length bs)) by lia. rewrite Hbs, sum_list_with_app. simpl. lia. }
  rewrite (main_extract_done L writable stack mtime (create_opts IH_TYPE_MULTI nm (join_colon l)) nm
    (table L bs ++ body bs) img t out s1 (Done (0, snd (walk (get_image_type t) bs (Z.of_nat (HDR + length bs * L)) 0))
      (upd_files <[out := part (multi_image L nm l bs)
      (Z.of_nat (HDR + length bs * L + offset bs (length bs1)) + 4) (Z.of_nat (length b))]> s1))); [done|..].
  - apply Forall_app. split; [apply table_bytes|done].
  - apply multi_small.
  - done.
  - apply lookup_insert_eq.
  - apply multi_print.
  - fold (multi_image L nm l bs). destruct multi_map as (h & z & _ & -> & Hh & Ht).
    rewrite extract_done by (done || lia).
    destruct (walk_first (get_image_type t) bs1 b bs2 (Z.of_nat (HDR + length bs * L)) 0) as [n Hwalk].
    { eapply Forall_impl; [|exact Hno]. intros c Hc%Z.eqb_neq. rewrite Hc. by rewrite andb_false_r. }
    { destruct Hb as [Hok _]. unfold image_ok in Hok. by apply andb_prop in Hok as [? _]. }
    { done. }
    rewrite <-Hbs in Hwalk. rewrite Hwalk. unfold act. cbn [fst snd].
    rewrite u32_small by lia. erewrite bind_done.
    2: { rewrite (file_copy_done writable img out (multi_image L nm l bs)); [|apply lookup_insert_eq|lia|lia].
      apply String.eqb_neq in Hstd. rewrite Hstd, Hw. cbn [negb]. apply String.eqb_neq in Ho. by rewrite Ho. }
    unfold mret, M_ret. do 5 f_equal. lia.
Qed.

End multi.

(** C11: with the 32-bit [long] of the project's build, [mkimage -T
    multi -d f1:f2:...] packs image files into one, [mkimage -l] accepts it, and
    [mkimage -l -X type -o out] gives back the first file of that type, byte
    for byte.  The files are good images, smaller than 2 GiB in all; their names
    in the headers end within the header, and that of the first file has at
    least two words: with fewer, [print_header] copies from an array that
    nothing has been written to ([one_word_name_faults]). *)
Theorem multi_round_trip img nm l bs s t out bs1 b bs2 :
  writable img = true → not_dash img = true → hold s img l bs → l ≠ [] ∧ Forall (λ f, no_colon f = true) l →
  Forall good_part bs → Z.of_nat (HDR + (length bs + 1) * 4 + offset bs (length bs)) + 2048 ≤ MAX_RW_COUNT →
  printable bs = true →
  bs = bs1 ++ b :: bs2 → Forall (λ c, ih_type c ≠ get_image_type t) bs1 → ih_type b = get_image_type t →
  out ≠ img → out ≠ "stdout" → writable out = true →
  ∃ image, let s1 := upd_files <[img := image]> s in
    main 4 writable stack mtime ["-T"; "multi"; "-n"; nm; "-d"; join_colon l; img] s = Exit 0 s1 ∧
    main 4 writable stack mtime ["-l"; img] s1 = Exit 0 s1 ∧
    main 4 writable stack mtime ["-l"; "-X"; t; "-o"; out; img] s1 = Exit 0 (upd_files <[out := b]> s1).
Proof.
  intros Hw Hi Hhold Hnames Hparts Hhuge Hpr Hbs Hno Hty Ho Hstd Hwo. exists (multi_image 4 nm l bs). intros s1.
  split_and!.
  - by apply multi_create.
  - by apply multi_list.
  - unfold s1. rewrite (multi_extract 4 ltac:(lia) img nm l bs s Hi Hparts Hhuge Hpr t out bs1 b bs2) by done.
    do 4 f_equal. destruct (multi_map 4 nm l bs Hparts) as (h & z & -> & _ & Hh & _).
    destruct (body_split bs (length bs1) b) as (pre & z' & -> & Hpre);
      [rewrite Hbs; by rewrite list_lookup_middle|].
    unfold part. rewrite Nat2Z.id.
    replace (Z.to_nat (Z.of_nat (HDR + length bs * 4 + offset bs (length bs1)) + 4))
      with (length (h ++ table 4 bs ++ pre)) by (rewrite !length_app, table_length, Hh, Hpre; lia).
    rewrite !(assoc_L app), <-(assoc_L app _ b z'), drop_app_length. apply take_app_length.
Qed.

(** Packing good images of which the first has a name of fewer than two words
    makes [print_header], at the end of [main], use an array that holds
    nothing. *)
Theorem one_word_name_faults img nm l b bs2 s :
  writable img = true → not_dash img = true → hold s img l (b :: bs2) → l ≠ [] ∧ Forall (λ f, no_colon f = true) l →
  Forall good_part (b :: bs2) →
  Z.of_nat (HDR + (length (b :: bs2) + 1) * 4 + offset (b :: bs2) (length (b :: bs2))) + 2048 ≤ MAX_RW_COUNT →
  (name_words b < 2)%nat →
  main 4 writable stack mtime ["-T"; "multi"; "-n"; nm; "-d"; join_colon l; img] s = Oops.
Proof.
  intros Hw Hi Hhold Hnames Hparts Hhuge Hone. set (bs := b :: bs2) in *.
  rewrite (multi_run 4 ltac:(lia) img nm l bs s Hw Hi Hhold Hnames Hparts Hhuge Oops); [done|].
  destruct (multi_map 4 nm l bs Hparts) as (h & z & _ & -> & Hh & Ht).
  destruct (good_parts bs Hparts) as (H1 & H2 & H3 & _). apply (print_header_faults 4 ltac:(lia) h bs z b bs2); try done.
  apply andb_prop in H3 as [H3 _]. unfold image_ok in H3. by apply andb_prop in H3 as [? _].
Qed.

(** Built with a 64-bit [long], the tool still packs and accepts,
    but [-X] copies from four bytes too early: of the first file it delivers
    four zero bytes and then all but the last four of its own, which is no
    image, and reports success. *)
Theorem multi_extract_64bit img nm l b bs2 s t out :
  writable img = true → not_dash img = true → hold s img l (b :: bs2) → l ≠ [] ∧ Forall (λ f, no_colon f = true) l →
  Forall good_part (b :: bs2) →
  Z.of_nat (HDR + (length (b :: bs2) + 1) * 8 + offset (b :: bs2) (length (b :: bs2))) + 2048 ≤ MAX_RW_COUNT →
  printable (b :: bs2) = true →
  ih_type b = get_image_type t → out ≠ img → out ≠ "stdout" → writable out = true →
  let wrong := [0; 0; 0; 0] ++ take (length b - 4) b in
  ∃ image, let s1 := upd_files <[img := image]> s in
    main 8 writable stack mtime ["-T"; "multi"; "-n"; nm; "-d"; join_colon l; img] s = Exit 0 s1 ∧
    main 8 writable stack mtime ["-l"; "-X"; t; "-o"; out; img] s1 = Exit 0 (upd_files <[out := wrong]> s1) ∧
    check_header (take HDR wrong) = -1.
Proof.
  intros Hw Hi Hhold Hnames Hparts Hhuge Hpr Hty Ho Hstd Hwo wrong. set (bs := b :: bs2) in *.
  exists (multi_image 8 nm l bs). intros s1. split_and!.
  - apply multi_create; (done || lia).
  - unfold s1. rewrite (multi_extract 8 ltac:(lia) img nm l bs s Hi Hparts Hhuge Hpr t out [] b bs2) by done.
    do 4 f_equal. destruct (multi_map 8 nm l bs Hparts) as (h & z & -> & _ & Hh & _).
    destruct (body_split bs 0 b) as (pre & z' & -> & Hpre); [done|].
    change (offset bs 0) with 0%nat in Hpre. apply nil_length_inv in Hpre as ->. unfold part. rewrite Nat2Z.id.
    assert (Hb4 : (4 ≤ length b)%nat) by (apply Forall_cons_1 in Hparts as [(_ & ? & _) _]; unfold HDR in *; lia).
    replace (Z.to_nat (Z.of_nat (HDR + length bs * 8 + offset bs (length [])) + 4))
      with (length (h ++ concat (size_entry 8 <$> bs) ++ [0; 0; 0; 0]))
      by (rewrite !length_app, entries_length, Hh by lia; change (offset bs (length [])) with 0%nat; simpl length; lia).
    set (front := h ++ concat (size_entry 8 <$> bs) ++ [0; 0; 0; 0]).
    assert (E : h ++ table 8 bs ++ [] ++ b ++ z' = front ++ [0; 0; 0; 0] ++ b ++ z').
    { unfold table, front. by rewrite <-!(assoc_L app). }
    rewrite E, drop_app_length. unfold wrong. rewrite take_app_ge by (simpl; lia). f_equal.
    change (length [0; 0; 0; 0]) with 4%nat. by rewrite take_app_le by lia.
  - reflexivity.
Qed.

(** On an image with good parts, [-q] finds a type exactly when
    a part has it, [-t] counts the parts, and [-f] n gives back the n-th part,
    counted from 0, and fails when there is none. *)
Theorem multi_query_count_number img nm l bs s t n out :
  Forall good_part bs → Z.of_nat (HDR + (length bs + 1) * 4 + offset bs (length bs)) + 2048 ≤ MAX_RW_COUNT →
  Forall (λ b, ih_type b ≠ 0) bs → 0 ≤ n → out ≠ img → out ≠ "stdout" → writable out = true →
  let image := multi_image 4 nm l bs in let s1 := upd_files <[img := image]> s in
  (∃ k, extract_file_from_multi 4 writable stack t img None (map_file image) query s1 =
     Done (if existsb (λ b, ih_type b =? t) bs then 0 else -1, k) s1) ∧
  extract_file_from_multi 4 writable stack 0 img None (map_file image) count s1 = Done (0, Z.of_nat (length bs)) s1 ∧
  extract_file_number 4 writable n img (Some out) (map_file image) s1 =
    match bs !! Z.to_nat n with
    | Some b => Done 0 (upd_files <[out := b]> s1)
    | None => Done (-1) s1
    end.
Proof.
  intros Hparts Hhuge Htypes Hn Ho Hstd Hw image s1. unfold MAX_RW_COUNT in Hhuge.
  destruct (good_parts bs Hparts) as (H1 & H2 & H3 & _ & _).
  destruct (multi_map 4 nm l bs Hparts) as (h & z & Himg & Hmap & Hh & Ht). unfold image at 1 2 3. rewrite Hmap.
  assert (Hgood : ∀ b, b ∈ bs → is_img b = true).
  { intros b Hb. rewrite forallb_forall in H3. specialize (H3 b (proj1 (list_elem_of_In _ _) Hb)).
    unfold image_ok in H3. by apply andb_prop in H3 as [? _]. }
  split_and!.
  - rewrite extract_done by (done || lia). unfold act.
    assert (Hq : ∀ bs' pos cnt, (∀ b, b ∈ bs' → is_img b = true) →
      bool_decide (is_Some (walk t bs' pos cnt).1) = existsb (λ b, ih_type b =? t) bs').
    { clear. induction bs' as [|b bs' IH]; intros pos cnt Hg; [done|]. cbn [walk existsb].
      rewrite (Hg b) by set_solver. destruct (ih_type b =? t); [done|]. apply IH. set_solver. }
    specialize (Hq bs (Z.of_nat (HDR + length bs * 4)) 0 Hgood). rewrite <-Hq.
    destruct (walk t bs (Z.of_nat (HDR + length bs * 4)) 0) as [[[p b]|] k]; by exists k.
  - rewrite extract_done by (done || lia). unfold act.
    assert (Hc : ∀ bs' pos cnt, (∀ b, b ∈ bs' → is_img b = true ∧ ih_type b ≠ 0) →
      walk 0 bs' pos cnt = (None, cnt + Z.of_nat (length bs'))).
    { clear. induction bs' as [|b bs' IH]; intros pos cnt Hg; [by rewrite Z.add_0_r|]. cbn [walk length].
      destruct (Hg b ltac:(set_solver)) as [-> Hb%Z.eqb_neq]. rewrite Hb, IH by set_solver. f_equal. lia. }
    rewrite Hc; [done|]. intros b Hb. split; [by apply Hgood|]. rewrite Forall_forall in Htypes. by apply Htypes, list_elem_of_In.
  - unfold extract_file_number.
    assert (E : ih_type (h ++ table 4 bs ++ body bs ++ z) = ih_type h).
    { unfold ih_type, get8. rewrite app_nth1; [done|]. rewrite Hh. unfold HDR. lia. }
    rewrite E, Ht. change (IH_TYPE_MULTI =? IH_TYPE_MULTI) with true. cbv iota.
    assert (Hlen : (length bs < length (h ++ table 4 bs ++ body bs ++ z))%nat).
    { rewrite !length_app, table_length by lia. lia. }
    erewrite bind_done; [|apply count_ptrs_done; [lia|done|done|lia|lia]]. cbv beta.
    assert (H := number_loop_done 4 ltac:(lia) writable n img (Some out) h bs z 0
      (length (h ++ table 4 bs ++ body bs ++ z)) s1 Hh H1 H2 ltac:(lia) ltac:(lia) ltac:(lia) ltac:(lia)).
    change (offset bs 0) with 0%nat in H. rewrite !Nat.add_0_r in H. rewrite H. clear H.
    destruct (bs !! Z.to_nat n) as [b|] eqn:Hb; [|done]. rewrite (Hgood b) by (by eapply list_elem_of_lookup_2).
    assert (Hoff : (offset bs (S (Z.to_nat n)) ≤ offset bs (length bs))%nat).
    { unfold offset. rewrite (take_ge bs (length bs)) by lia. rewrite <-(take_drop (S (Z.to_nat n)) bs) at 2.
      rewrite sum_list_with_app. lia. }
    rewrite (offset_S bs _ b Hb) in Hoff.
    erewrite bind_done.
    2: { rewrite (file_copy_done writable img out image); [|apply lookup_insert_eq|lia|lia].
      apply String.eqb_neq in Hstd. rewrite Hstd, Hw. cbn [negb]. apply String.eqb_neq in Ho. by rewrite Ho. }
    unfold mret, M_ret. do 4 f_equal. unfold image. rewrite Himg.
    destruct (body_split bs (Z.to_nat n) b Hb) as (pre & z' & -> & Hpre). unfold part. rewrite Nat2Z.id, u32_small by lia.
    replace (Z.to_nat (Z.of_nat (HDR + length bs * 4 + offset bs (Z.to_nat n)) + 4))
      with (length (h ++ table 4 bs ++ pre)) by (rewrite !length_app, table_length, Hh, Hpre; lia).
    rewrite !(assoc_L app), <-(assoc_L app _ b z'), drop_app_length. apply take_app_length.
Qed.

End round_trips.

(** ** The command line *)
Section command_line.
Variable L : nat.

Definition arg_weight (a : option string) : nat := match a with Some a => 2 + String.length a | None => 0 end.
Definition place_weight (pl : place) : nat := match pl with Inner s => 2 + String.length s | Outer _ => 1 end.

Lemma option_letters_length a s : option_letters a = Some s → String.length a = S (String.length s).
Proof. destruct a as [|c a]; [done|]. simpl. destruct (Ascii.eqb c "-"); [|done]. by intros [= ->]. Qed.

(** Each step of the parser takes a letter or an argument. *)
Lemma parse_ends fuel argc rest pl o :
  (place_weight pl + sum_list_with arg_weight rest < fuel)%nat → parse L fuel argc rest pl o ≠ OutOfFuel.
Proof.
  revert argc rest pl o. induction fuel as [|fuel IH]; intros argc rest pl o Hw; [lia|].
  destruct pl as [cur|[|c s]]; cbn [parse place_weight String.length] in *.
  - destruct (negb (0 <? argc - 1)); [done|]. destruct rest as [|[a|] rest]; try done.
    destruct (option_letters a) as [s|] eqn:E; [|done]. apply option_letters_length in E.
    apply IH. cbn [place_weight sum_list_with arg_weight] in *. lia.
  - apply IH. cbn [place_weight]. lia.
  - unfold mbind, M_bind, modify, next_arg, usage, exit_, oops, of_opt.
    destruct (letter_of c); [apply IH; cbn [place_weight]; lia|..|done].
    all: try (destruct (argc - 1 <=? 0); [done|]).
    all: destruct rest as [|a rest]; cbn [sum_list_with] in *; try done.
    + apply IH. cbn [place_weight]. lia.
    + destruct a as [a|]; [|done]. cbn [mret M_ret]. destruct (get a <? 0); [done|]. apply IH. cbn [place_weight]. lia.
    + destruct a as [a|]; [|done]. cbn [mret M_ret]. destruct (strtoul16 L a) as [v [|d r]]; [|done].
      apply IH. cbn [place_weight]. lia.
    + destruct a as [a|]; [|done]. apply IH. cbn [place_weight]. lia.
    + destruct a as [[|d a]|]; [done| |done]. apply IH. cbn [place_weight arg_weight String.length] in *. lia.
Qed.

(** The parser comes to an end on every command line: it
    returns, reports a usage error or faults. *)
Theorem parse_terminates args o : parse_args L args o ≠ OutOfFuel.
Proof.
  unfold parse_args. apply parse_ends. cbn [place_weight]. rewrite sum_list_with_app.
  assert (E : sum_list_with arg_weight (Some <$> args) = sum_list_with (λ a, 2 + String.length a)%nat args).
  { induction args as [|a args IH]; [done|]. cbn [fmap list_fmap sum_list_with arg_weight]. by rewrite IH. }
  rewrite E. change (sum_list_with arg_weight [None]) with 0%nat. lia.
Qed.

Variable writable : string → bool.
Variable stack : list Z * list Z.
Variable mtime : Z.

Lemma parse_headers fuel argc s a rest o c n : a = String c n →
  parse L (S fuel) argc (Some a :: rest) (Inner (String "h" s)) o =
  parse L fuel argc rest (Inner n) (set_max_header_counts (atoi L a) (set_headeronly_flag 1 o)).
Proof. by intros ->. Qed.

(** [mkimage -h n file] prints headers when [n] is one digit; with
    a number of two digits it ends with the usage message, since the parser goes
    on with the second digit as if it were an option letter. *)
Theorem headers_option_needs_one_digit c d r file s : not_dash file = true → is_digit d = true →
  main L writable stack mtime ["-h"; String c (String d r); file] s = Exit (-1) s ∧
  main L writable stack mtime ["-h"; String c ""; file] s =
    main_headers (set_max_header_counts (atoi L (String c "")) (set_headeronly_flag 1 init_opts)) (Some file) s.
Proof.
  intros Hf Hd. unfold main. split.
  - destruct (parse_args_fuel L ["-h"; String c (String d r); file] 3) as [k ->].
    { cbn [sum_list_with String.length]. lia. }
    cbn [length fmap list_fmap app Nat.add]. change (1 + Z.of_nat 3) with 4.
    rewrite parse_option by done. erewrite parse_headers by done. cbn [parse].
    assert (E : letter_of d = Unknown).
    { destruct d as [[] [] [] [] [] [] [] []]; try done; vm_compute in Hd; discriminate. }
    by rewrite E.
  - destruct (parse_args_fuel L ["-h"; String c ""; file] 4) as [k ->].
    { cbn [sum_list_with String.length]. lia. }
    cbn [length fmap list_fmap app Nat.add]. change (1 + Z.of_nat 3) with 4.
    rewrite parse_option by done. erewrite parse_headers by done. rewrite parse_nil. by rewrite parse_stop.
Qed.

Definition compare_opts (f : string) : opts := set_compareflag 1 (set_compare_file (Some f) (set_lflag 1 init_opts)).
Lemma parse_compare f img : not_dash img = true →
  parse_args L ["-l"; "-c"; f; img] init_opts = Done (1, Some img) (compare_opts f).
Proof.
  intros Hi. destruct (parse_args_fuel L ["-l"; "-c"; f; img] 6) as [k ->].
  { cbn [sum_list_with String.length]. lia. }
  cbn [length fmap list_fmap app Nat.add]. change (1 + Z.of_nat 4) with 5.
  rewrite parse_option, (parse_flag _ _ _ _ _ _ _ (set_lflag 1)), parse_nil by done.
  rewrite parse_option, (parse_ptr _ _ _ _ _ _ _ _ (λ a o, set_compareflag 1 (set_compare_file a o))) by done.
  by rewrite parse_stop.
Qed.

(** [mkimage -l -c file image] refuses every root file system image
    (types 12 to 22), even one that is part of the image, byte for byte. *)
Theorem compare_refuses_root_images o nm d f b img s : Forall is_byte d → small d → not_dash img = true →
  files s !! img = Some (header_of mtime o nm d ++ d) → files s !! f = Some b → (HDR ≤ length b)%nat →
  print_header L (map_file (header_of mtime o nm d ++ d)) s = Done 0 s →
  IH_TYPE_BRBOX_ROOT_BTR ≤ ih_type b →
  main L writable stack mtime ["-l"; "-c"; f; img] s = Exit (-1) s.
Proof.
  intros Hd Hsm Hi Himg Hf Hb Hp Ht. unfold main. rewrite parse_compare by done. unfold run_main.
  set (oc := compare_opts f). change (negb (headeronly_flag oc =? 0)) with false. cbv iota.
  change (main_checks L oc 1) with (mret () : M sys unit). cbn [of_opt]. msimpl.
  change (main_compare_binary stack oc img) with (mret () : M sys unit). msimpl.
  change (main_mtd writable oc img) with (mret img : M sys string). msimpl.
  change (negb (lflag oc =? 0)) with true. cbv iota. unfold main_list. msimpl. rewrite Himg.
  mstep (list_checks_done L mtime o nm d img 0 s Hd Hsm Hp).
  change (list_query L writable stack oc img (map_file (header_of mtime o nm d ++ d))) with (mret () : M sys unit).
  change (list_extract L writable stack oc img (map_file (header_of mtime o nm d ++ d))) with (mret () : M sys unit).
  msimpl. unfold mbind, M_bind.
  assert (E : list_compare L writable stack oc img (map_file (header_of mtime o nm d ++ d)) s = Exit (-1) s).
  { unfold list_compare, oc, when. cbn [compareflag compare_opts set_compareflag Z.eqb negb skipflag seekflag
      set_compare_file set_lflag init_opts Pos.eqb orb compare_file mbind option_bind]. msimpl. cbn [mbind option_bind].
    rewrite Hf. destruct (Nat.ltb_spec (length b) HDR); [lia|]. rewrite ih_type_take by done.
    unfold IH_TYPE_BRBOX_ROOT_BTR, IH_TYPE_BRBOX_USRDAT in *.
    destruct (Z.ltb_spec 11 (ih_type b)); [|lia]. by rewrite orb_true_r. }
  by rewrite E.
Qed.
End command_line.

(** ** Examples *)
Section examples.

Definition ex_part (t : Z) (d : list Z) : list Z :=
  build_header 0 (Z.of_nat (length d)) 0 0 (crc32 0 d) IH_OS_LINUX IH_CPU_ARM t IH_COMP_GZIP (bytes_of "fw 1.0") ++ d.
Definition ex_kernel : list Z := Eval vm_compute in ex_part IH_TYPE_KERNEL [1; 2; 3; 4; 5].
Definition ex_root : list Z := Eval vm_compute in ex_part IH_TYPE_BRBOX_ROOT_RP1 [9; 8; 7].
Definition ex_files : sys := Sys {[ "k" := ex_kernel; "r" := ex_root; "d" := [1; 2; 3] ]} [].
Definition all_writable (_ : string) : bool := true.
Definition no_stack : list Z * list Z := ([], []).

(** Packing two images, listing them, taking one out, and counting. *)
Example ex_multi_run :
  match main 4 all_writable no_stack 7 ["-T"; "multi"; "-n"; "fw"; "-d"; "k:r"; "img"] ex_files with
  | Exit 0 s1 =>
      match main 4 all_writable no_stack 7 ["-l"; "-X"; "BrBoxRtRp1"; "-o"; "out"; "img"] s1 with
      | Exit 0 s2 => files s2 !! "out" = Some ex_root
      | _ => False
      end
  | _ => False
  end.
Proof. vm_compute. reflexivity. Qed.

Lemma ex_kernel_good : good_part ex_kernel.
Proof.
  split_and!; [vm_compute; reflexivity|apply Nat.leb_le; reflexivity|vm_compute; reflexivity|].
  apply (bool_decide_unpack _). vm_compute. exact I.
Qed.
Lemma ex_root_good : good_part ex_root.
Proof.
  split_and!; [vm_compute; reflexivity|apply Nat.leb_le; reflexivity|vm_compute; reflexivity|].
  apply (bool_decide_unpack _). vm_compute. exact I.
Qed.
Lemma ex_parts_good : Forall good_part [ex_kernel; ex_root].
Proof. constructor; [apply ex_kernel_good|]. constructor; [apply ex_root_good|constructor]. Qed.
Lemma ex_hold : hold ex_files "img" ["k"; "r"] [ex_kernel; ex_root].
Proof. repeat constructor; done. Qed.

Lemma image_round_trip_witness : ∃ image, let s1 := upd_files <["img" := image]> ex_files in
  main 4 all_writable no_stack 7 ["-T"; "BrBoxProj"; "-n"; "x"; "-d"; "d"; "img"] ex_files = Exit 0 s1 ∧
  main 4 all_writable no_stack 7 ["-l"; "img"] s1 = Exit 0 s1.
Proof.
  destruct (image_round_trip all_writable no_stack 7 4 "BrBoxProj" "x" "d" "img" [1; 2; 3] ex_files eq_refl eq_refl
    ltac:(vm_compute; discriminate) ltac:(vm_compute; discriminate) ltac:(vm_compute; discriminate) eq_refl
    ltac:(discriminate) ltac:(vm_compute; discriminate) ltac:(discriminate) ltac:(apply (bool_decide_unpack _); vm_compute; exact I)) as
    (image & H1 & H2 & _).
  exists image. split; [exact H1|exact H2].
Defined.

Definition ex_damaged : sys :=
  Sys {[ "img" := header_of 7 (create_opts IH_TYPE_KERNEL "x" "d") "x" ([1] ++ [2; 3] ++ [4]) ++ [1] ++ [0; 0] ++ [4] ]} [].
Lemma damaged_image_refused_witness : main 4 all_writable no_stack 7 ["-l"; "img"] ex_damaged = Exit (-1) ex_damaged.
Proof.
  refine (proj1 (damaged_image_refused all_writable no_stack 7 4 (create_opts IH_TYPE_KERNEL "x" "d") "x"
    [1] [2; 3] [0; 0] [4] "img" "kernel" "out" ex_damaged _ _ eq_refl _ _ eq_refl eq_refl eq_refl _)).
  - apply (bool_decide_unpack _). vm_compute. exact I.
  - apply (bool_decide_unpack _). vm_compute. exact I.
  - simpl. lia.
  - discriminate.
  - apply lookup_insert_eq.
Defined.

Lemma multi_round_trip_witness : ∃ image, let s1 := upd_files <["img" := image]> ex_files in
  main 4 all_writable no_stack 7 ["-T"; "multi"; "-n"; "fw"; "-d"; join_colon ["k"; "r"]; "img"] ex_files = Exit 0 s1 ∧
  main 4 all_writable no_stack 7 ["-l"; "img"] s1 = Exit 0 s1 ∧
  main 4 all_writable no_stack 7 ["-l"; "-X"; "BrBoxRtRp1"; "-o"; "out"; "img"] s1 =
    Exit 0 (upd_files <["out" := ex_root]> s1).
Proof.
  refine (multi_round_trip all_writable no_stack 7 "img" "fw" ["k"; "r"] [ex_kernel; ex_root] ex_files "BrBoxRtRp1"
    "out" [ex_kernel] ex_root [] eq_refl eq_refl ex_hold _ ex_parts_good _ _ eq_refl _ _ _ _ eq_refl).
  - split; [discriminate|]. repeat constructor.
  - vm_compute. discriminate.
  - vm_compute. reflexivity.
  - constructor; [vm_compute; discriminate|constructor].
  - vm_compute. reflexivity.
  - discriminate.
  - discriminate.
Defined.

(** The same with a first file whose name is one word. *)
Definition ex_unnamed : list Z := Eval vm_compute in
  build_header 0 2 0 0 (crc32 0 [1; 2]) IH_OS_LINUX IH_CPU_ARM IH_TYPE_KERNEL IH_COMP_GZIP (bytes_of "fw") ++ [1; 2].
Lemma one_word_name_faults_witness :
  main 4 all_writable no_stack 7 ["-T"; "multi"; "-n"; "fw"; "-d"; join_colon ["k"]; "img"]
    (Sys {[ "k" := ex_unnamed ]} []) = Oops.
Proof.
  refine (one_word_name_faults all_writable no_stack 7 "img" "fw" ["k"] ex_unnamed [] _ eq_refl eq_refl _ _ _ _ _).
  - repeat constructor; done.
  - split; [discriminate|]. repeat constructor.
  - constructor; [|constructor]. split_and!; [vm_compute; reflexivity|apply Nat.leb_le; reflexivity|vm_compute; reflexivity|].
    apply (bool_decide_unpack _). vm_compute. exact I.
  - vm_compute. discriminate.
  - vm_compute. lia.
Defined.

Lemma multi_extract_64bit_witness : ∃ image, let s1 := upd_files <["img" := image]> ex_files in
  main 8 all_writable no_stack 7 ["-T"; "multi"; "-n"; "fw"; "-d"; join_colon ["k"; "r"]; "img"] ex_files = Exit 0 s1 ∧
  main 8 all_writable no_stack 7 ["-l"; "-X"; "kernel"; "-o"; "out"; "img"] s1 =
    Exit 0 (upd_files <["out" := [0; 0; 0; 0] ++ take (length ex_kernel - 4) ex_kernel]> s1) ∧
  check_header (take HDR ([0; 0; 0; 0] ++ take (length ex_kernel - 4) ex_kernel)) = -1.
Proof.
  refine (multi_extract_64bit all_writable no_stack 7 "img" "fw" ["k"; "r"] ex_kernel [ex_root] ex_files "kernel" "out"
    eq_refl eq_refl ex_hold _ ex_parts_good _ _ _ _ _ eq_refl).
  - split; [discriminate|]. repeat constructor.
  - vm_compute. discriminate.
  - vm_compute. reflexivity.
  - vm_compute. reflexivity.
  - discriminate.
  - discriminate.
Defined.

Lemma multi_query_count_number_witness :
  let image := multi_image 7 4 "fw" ["k"; "r"] [ex_kernel; ex_root] in
  let s1 := upd_files <["img" := image]> ex_files in
  extract_file_from_multi 4 all_writable no_stack 0 "img" None (map_file image) count s1 = Done (0, 2) s1 ∧
  extract_file_number 4 all_writable 1 "img" (Some "out") (map_file image) s1 =
    Done 0 (upd_files <["out" := ex_root]> s1).
Proof.
  destruct (multi_query_count_number all_writable no_stack 7 "img" "fw" ["k"; "r"] [ex_kernel; ex_root] ex_files 2 1 "out"
    ex_parts_good ltac:(vm_compute; discriminate) ltac:(repeat constructor; vm_compute; discriminate) ltac:(lia)
    ltac:(discriminate) ltac:(discriminate) eq_refl) as (_ & H2 & H3).
  split; [exact H2|exact H3].
Defined.

Lemma headers_option_needs_one_digit_witness :
  main 4 all_writable no_stack 7 ["-h"; "12"; "img"] ex_files = Exit (-1) ex_files.
Proof.
  apply (headers_option_needs_one_digit 4 all_writable no_stack 7 "1" "2" "" "img" ex_files); reflexivity.
Defined.

Definition ex_root_image : sys := 
  upd_files <["img" := multi_image 7 4 "fw" ["k"; "r"] [ex_kernel; ex_root]]> ex_files.
Lemma compare_refuses_root_images_witness :
  main 4 all_writable no_stack 7 ["-l"; "-c"; "r"; "img"] ex_root_image = Exit (-1) ex_root_image.
Proof.
  apply (compare_refuses_root_images 4 all_writable no_stack 7 (create_opts IH_TYPE_MULTI "fw" "k:r") "fw"
    (table 4 [ex_kernel; ex_root] ++ body [ex_kernel; ex_root]) "r" ex_root "img" ex_root_image).
  - apply (bool_decide_unpack _). vm_compute. exact I.
  - vm_compute. reflexivity.
  - reflexivity.
  - vm_compute. reflexivity.
  - reflexivity.
  - apply Nat.leb_le. reflexivity.
  - vm_compute. reflexivity.
  - vm_compute. discriminate.
Defined.

End examples.
