(* ===== verification/I2cStub.v ===== *)
(** * i2c-stub.c: an emulated SMBus with up to ten register chips

    The whole of [src/sources/kmods/i2c-stub/kmod/i2c-stub.c]: the chips the
    module allocates, the transfer function with its five kinds of transfer,
    loading and unloading.  The theorems: which calls stay inside the chip's
    256 registers and which run past them, and that a block written to a chip
    is read back by block, by byte and through the auto-incrementing pointer,
    with nothing else on the bus changed. *)

From stdpp Require Import base list.
From Stdlib Require Import ZArith Lia.
From S2P Require Import Prelude.

Definition MAX_CHIPS : nat := 10.
Definition I2C_SMBUS_QUICK : Z := 0.
Definition I2C_SMBUS_BYTE : Z := 1.
Definition I2C_SMBUS_BYTE_DATA : Z := 2.
Definition I2C_SMBUS_WORD_DATA : Z := 3.
Definition I2C_SMBUS_I2C_BLOCK_DATA : Z := 8.
Definition I2C_SMBUS_WRITE : Z := 0.
Definition I2C_SMBUS_READ : Z := 1.
Definition I2C_FUNC_SMBUS_QUICK : Z := 0x00010000.
Definition I2C_FUNC_SMBUS_BYTE : Z := 0x00060000.
Definition I2C_FUNC_SMBUS_BYTE_DATA : Z := 0x00180000.
Definition I2C_FUNC_SMBUS_WORD_DATA : Z := 0x00600000.
Definition I2C_FUNC_SMBUS_I2C_BLOCK : Z := 0x0c000000.
Definition ENODEV : Z := 19.
Definition ENOMEM : Z := 12.
Definition EINVAL : Z := 22.
Definition EOPNOTSUPP : Z := 95.

Definition STUB_FUNC : Z :=
  Z.lor (Z.lor (Z.lor (Z.lor I2C_FUNC_SMBUS_QUICK I2C_FUNC_SMBUS_BYTE)
    I2C_FUNC_SMBUS_BYTE_DATA) I2C_FUNC_SMBUS_WORD_DATA) I2C_FUNC_SMBUS_I2C_BLOCK.

Record stub_chip := StubChip { pointer : Z; words : list Z }.

(** The static variables of the module; [adapter] says whether [stub_adapter]
    is registered with the i2c core.  [stub_chips] is [None] while it points
    to no allocated memory. *)
Record stub := Stub {
  chip_addr : list Z;
  functionality : Z;
  stub_chips : option (list stub_chip);
  adapter : bool
}.
Definition set_chips c (s : stub) : stub := Stub (chip_addr s) (functionality s) c (adapter s).
Definition set_adapter b (s : stub) : stub := Stub (chip_addr s) (functionality s) (stub_chips s) b.

Abbreviation T := (M stub).

(** [union i2c_smbus_data] as its 34 bytes: [byte] is the first, [word] the
    first two (little-endian), [block] all of them. *)
Definition data_byte (d : list Z) : Z := nth 0 d 0.
Definition put_byte (v : Z) (d : list Z) : list Z := <[0%nat := v]> d.
Definition data_word (d : list Z) : Z := nth 0 d 0 + 256 * nth 1 d 0.
Definition put_word (v : Z) (d : list Z) : list Z := <[0%nat := v mod 256]> (<[1%nat := v / 256]> d).

(** ** Access to the chips: an index outside the array is no access *)
Definition get_chip (k : nat) : T stub_chip :=
  cs ← gets stub_chips; cs ← of_opt cs; of_opt (cs !! k).
Definition put_chip (k : nat) (c : stub_chip) : T unit :=
  cs ← gets stub_chips; cs ← of_opt cs; _ ← of_opt (cs !! k);
  modify (set_chips (Some (<[k := c]> cs))).
Definition get_word (k : nat) (i : Z) : T Z :=
  c ← get_chip k; of_opt (words c !! Z.to_nat i).
Definition set_word (k : nat) (i v : Z) : T unit :=
  c ← get_chip k; _ ← of_opt (words c !! Z.to_nat i);
  put_chip k (StubChip (pointer c) (<[Z.to_nat i := v]> (words c))).
Definition set_pointer (k : nat) (v : Z) : T unit :=
  c ← get_chip k; put_chip k (StubChip (u8 v) (words c)).
(** [words[i] &= 0xff00; words[i] |= b] *)
Definition set_low (k : nat) (i b : Z) : T unit :=
  w ← get_word k i; set_word k i (Z.land w 0xff00);;
  w ← get_word k i; set_word k i (Z.lor w b).

(** The loop that looks for the chip. *)
Fixpoint search_chip (addrs : list Z) (i : nat) (addr : Z) : option nat :=
  match addrs with
  | [] => None
  | a :: addrs => if a =? 0 then None else if addr =? a then Some i else search_chip addrs (S i) addr
  end.

Fixpoint block_write (n : nat) (i : Z) (k : nat) (command : Z) (data : list Z) : T unit :=
  match n with
  | O => mret ()
  | S n =>
      b ← of_opt (data !! Z.to_nat (1 + i));
      set_low k (command + i) b;; block_write n (i + 1) k command data
  end.
Fixpoint block_read (n : nat) (i : Z) (k : nat) (command : Z) (data : list Z) : T (list Z) :=
  match n with
  | O => mret data
  | S n =>
      w ← get_word k (command + i);
      _ ← of_opt (data !! Z.to_nat (1 + i));
      block_read n (i + 1) k command (<[Z.to_nat (1 + i) := Z.land w 0xff]> data)
  end.

(** The result and the caller's data after the transfer. *)
Definition stub_xfer (addr flags read_write command size : Z) (data : list Z) : T (Z * list Z) :=
  addrs ← gets chip_addr;
  match search_chip (take MAX_CHIPS addrs) 0 addr with
  | None => mret (- ENODEV, data)
  | Some chip =>
      if size =? I2C_SMBUS_QUICK then mret (0, data)
      else if size =? I2C_SMBUS_BYTE then
        if read_write =? I2C_SMBUS_WRITE then
          set_pointer chip command;; mret (0, data)
        else
          c ← get_chip chip; w ← get_word chip (pointer c);
          set_pointer chip (pointer c + 1);; mret (0, put_byte (Z.land w 0xff) data)
      else if size =? I2C_SMBUS_BYTE_DATA then
        data ← (if read_write =? I2C_SMBUS_WRITE then
                  set_low chip command (data_byte data);; mret data
                else
                  w ← get_word chip command; mret (put_byte (Z.land w 0xff) data));
        set_pointer chip (command + 1);; mret (0, data)
      else if size =? I2C_SMBUS_WORD_DATA then
        if read_write =? I2C_SMBUS_WRITE then
          set_word chip command (data_word data);; mret (0, data)
        else
          w ← get_word chip command; mret (0, put_word w data)
      else if size =? I2C_SMBUS_I2C_BLOCK_DATA then
        let len := Z.to_nat (data_byte data) in
        if read_write =? I2C_SMBUS_WRITE then
          block_write len 0 chip command data;; mret (0, data)
        else
          data ← block_read len 0 chip command data; mret (0, data)
      else mret (- EOPNOTSUPP, data)
  end.

Definition stub_func : T Z := f ← gets functionality; mret (Z.land STUB_FUNC f).

(** The range check of the addresses: an error, or how many there are. *)
Fixpoint check_addrs (addrs : list Z) (i : nat) : Z + nat :=
  match addrs with
  | [] => inr i
  | a :: addrs =>
      if a =? 0 then inr i
      else if (a <? 0x03) || (0x77 <? a) then inl (- EINVAL) else check_addrs addrs (S i)
  end.

Definition zero_chip : stub_chip := StubChip 0 (replicate 256 0).

(** [kzalloc_ok] says whether the allocation succeeds, [add_adapter] is what
    [i2c_add_adapter] returns: the kernel's part. *)
Definition i2c_stub_init (kzalloc_ok : bool) (add_adapter : Z) : T Z :=
  addrs ← gets chip_addr;
  if nth 0 addrs 0 =? 0 then mret (- ENODEV)
  else match check_addrs (take MAX_CHIPS addrs) 0 with
  | inl e => mret e
  | inr i =>
      if negb kzalloc_ok then modify (set_chips None);; mret (- ENOMEM)
      else
        modify (set_chips (Some (replicate i zero_chip)));;
        modify (set_adapter (add_adapter =? 0));;
        (if negb (add_adapter =? 0) then modify (set_chips None) else mret ());;
        mret add_adapter
  end.

Definition i2c_stub_exit : T unit := modify (set_adapter false);; modify (set_chips None).

(** ** What the bus promises

    A request as the i2c core passes it on: the core checks nothing but the
    length of a block, which is at most [I2C_SMBUS_BLOCK_MAX]. *)
Definition I2C_SMBUS_BLOCK_MAX : Z := 32.
Record request := Request {
  r_addr : Z; r_flags : Z; r_rw : Z; r_command : Z; r_size : Z; r_data : list Z
}.
Definition transfer (r : request) : T (Z * list Z) :=
  stub_xfer (r_addr r) (r_flags r) (r_rw r) (r_command r) (r_size r) (r_data r).

Definition byte (b : Z) : Prop := 0 ≤ b < 256.
Record data_ok (d : list Z) : Prop := DataOk {
  data_len : length d = 34%nat;
  data_bytes : Forall byte d
}.
Definition request_ok (r : request) : Prop :=
  byte (r_command r) ∧ data_ok (r_data r) ∧
  (r_size r = I2C_SMBUS_I2C_BLOCK_DATA → data_byte (r_data r) ≤ I2C_SMBUS_BLOCK_MAX).

(** The chips an address list stands for, and the chip an address selects. *)
Definition chip_at (s : stub) (addr : Z) : option nat :=
  search_chip (take MAX_CHIPS (chip_addr s)) 0 addr.
Record chip_ok (c : stub_chip) : Prop := ChipOk {
  pointer_ok : byte (pointer c);
  words_len : length (words c) = 256%nat;
  words_ok : Forall (λ w, 0 ≤ w < 65536) (words c)
}.
Definition chips_of (s : stub) : list stub_chip := default [] (stub_chips s).
Record stub_ok (s : stub) : Prop := StubOk {
  chips_there : stub_chips s = Some (chips_of s);
  chips_ok : Forall chip_ok (chips_of s);
  chips_cover : ∀ addr k, chip_at s addr = Some k → (k < length (chips_of s))%nat
}.
Definition upd (k : nat) (c : stub_chip) (s : stub) : stub :=
  set_chips (Some (<[k := c]> (chips_of s))) s.

(** A block transfer that leaves the register file of the chip. *)
Definition overruns (r : request) : bool :=
  (r_size r =? I2C_SMBUS_I2C_BLOCK_DATA) && (256 <? r_command r + data_byte (r_data r)).

(** The states of the loaded module. *)
Inductive bus_states (addrs : list Z) (f : Z) : stub → Prop :=
| bus_loaded s : i2c_stub_init true 0 (Stub addrs f None false) = Done 0 s → bus_states addrs f s
| bus_transfer s r ret d s' : bus_states addrs f s → request_ok r →
    transfer r s = Done (ret, d) s' → bus_states addrs f s'.

(** Putting a byte in the low half of a register. *)
Definition set_lo (b w : Z) : Z := Z.lor (Z.land w 0xff00) b.
Fixpoint write_lows (i : nat) (bs ws : list Z) : list Z :=
  match bs with [] => ws | b :: bs => write_lows (S i) bs (alter (set_lo b) i ws) end.
Fixpoint copy_lows (n : nat) (j i : nat) (ws d : list Z) : list Z :=
  match n with
  | O => d
  | S n => copy_lows n (S j) (S i) ws (<[j := Z.land (ws !!! i) 0xff]> d)
  end.

(** ** Bytes and words *)
Lemma high_byte_bits w n : 0 ≤ n → Z.testbit (Z.land w 0xff00) n =
  Z.testbit w n && bool_decide (8 ≤ n < 16).
Proof.
  intros Hn. rewrite Z.land_spec. f_equal. change 0xff00 with (Z.shiftl (Z.ones 8) 8).
  rewrite Z.shiftl_spec by lia. destruct (decide (8 ≤ n)).
  - rewrite Z.testbit_ones_nonneg by lia. case_bool_decide; lia.
  - rewrite Z.testbit_neg_r by lia. symmetry. apply bool_decide_eq_false. lia.
Qed.

Lemma byte_high_bits b n : byte b → 8 ≤ n → Z.testbit b n = false.
Proof. intros [? ?] ?. eapply (Z.bounded_iff_bits_nonneg 8 b); lia. Qed.

Lemma set_lo_low b w : byte b → Z.land (set_lo b w) 0xff = b.
Proof.
  intros Hb. apply Z.bits_inj'. intros n Hn. unfold set_lo.
  rewrite Z.land_spec, Z.lor_spec, high_byte_bits by done. change 0xff with (Z.ones 8).
  rewrite Z.testbit_ones_nonneg by lia. destruct (Z.ltb_spec n 8).
  - rewrite bool_decide_eq_false_2 by lia. by rewrite andb_false_r, andb_true_r.
  - by rewrite (byte_high_bits b n), andb_false_r by done.
Qed.

Lemma set_lo_high b w : byte b → Z.land (set_lo b w) 0xff00 = Z.land w 0xff00.
Proof.
  intros Hb. apply Z.bits_inj'. intros n Hn. unfold set_lo.
  rewrite !high_byte_bits, Z.lor_spec, high_byte_bits by done. case_bool_decide.
  - rewrite (byte_high_bits b n) by (done || lia). by rewrite !andb_true_r, orb_false_r.
  - by rewrite !andb_false_r.
Qed.

Lemma set_lo_range b w : byte b → 0 ≤ w → 0 ≤ set_lo b w < 65536.
Proof.
  intros Hb Hw. assert (H0 : 0 ≤ set_lo b w).
  { unfold set_lo. apply Z.lor_nonneg. split; [apply Z.land_nonneg; lia | apply Hb]. }
  split; [done|]. apply (Z.bounded_iff_bits_nonneg 16); [lia..|]. intros n Hn. unfold set_lo.
  rewrite Z.lor_spec, high_byte_bits by lia. rewrite (byte_high_bits b n) by (done || lia).
  by rewrite bool_decide_eq_false_2, andb_false_r by lia.
Qed.

Lemma low_byte w : byte (Z.land w 0xff).
Proof. change 0xff with (Z.ones 8). rewrite Z.land_ones by lia. apply Z.mod_pos_bound. lia. Qed.

(** ** The register file *)
Lemma length_write_lows i bs ws : length (write_lows i bs ws) = length ws.
Proof. revert i ws. induction bs as [|b bs IH]; intros i ws; [done|]. simpl. by rewrite IH, length_alter. Qed.

Lemma lookup_write_lows i bs ws j : write_lows i bs ws !! j =
  match (if decide (i ≤ j)%nat then bs !! (j - i)%nat else None) with
  | Some b => set_lo b <$> ws !! j
  | None => ws !! j
  end.
Proof.
  revert i ws. induction bs as [|b bs IH]; intros i ws; simpl; [by case_decide|].
  rewrite IH. destruct (decide (i = j)) as [->|Hij].
  - rewrite decide_False, decide_True, Nat.sub_diag by lia. simpl. by rewrite list_lookup_alter_eq.
  - rewrite list_lookup_alter_ne by done. destruct (decide (S i ≤ j)%nat).
    + rewrite decide_True by lia. by replace (j - i)%nat with (S (j - S i)) by lia.
    + by rewrite decide_False by lia.
Qed.

Lemma write_lows_ok i bs ws : Forall byte bs → Forall (λ w, 0 ≤ w < 65536) ws →
  Forall (λ w, 0 ≤ w < 65536) (write_lows i bs ws).
Proof.
  intros Hb Hw. apply Forall_lookup. intros j w. rewrite lookup_write_lows.
  case_decide; [|exact (Forall_lookup_1 _ _ _ _ Hw)].
  destruct (bs !! (j - i)%nat) as [b|] eqn:E; [|exact (Forall_lookup_1 _ _ _ _ Hw)].
  intros (w' & Hw' & ->)%fmap_Some. apply set_lo_range.
  - exact (Forall_lookup_1 _ _ _ _ Hb E).
  - apply (Forall_lookup_1 _ _ _ _ Hw Hw').
Qed.

Lemma length_copy_lows n j i ws d : length (copy_lows n j i ws d) = length d.
Proof. revert j i d. induction n as [|n IH]; intros j i d; simpl; [done|]. by rewrite IH, length_insert. Qed.

Lemma lookup_copy_lows n j i ws d p : (j + n ≤ length d)%nat → copy_lows n j i ws d !! p =
  if decide (j ≤ p < j + n)%nat then Some (Z.land (ws !!! (i + (p - j))%nat) 0xff) else d !! p.
Proof.
  revert j i d. induction n as [|n IH]; intros j i d Hl; simpl; [by rewrite decide_False by lia|].
  rewrite IH by (rewrite length_insert; lia). destruct (decide (p = j)) as [->|Hpj].
  - rewrite decide_False, decide_True by lia. rewrite list_lookup_insert_eq by lia.
    by rewrite Nat.sub_diag, Nat.add_0_r.
  - rewrite list_lookup_insert_ne by done.
    destruct (decide (S j ≤ p < S j + n)%nat); [rewrite decide_True by lia | by rewrite decide_False by lia].
    by replace (S i + (p - S j))%nat with (i + (p - j))%nat by lia.
Qed.

Lemma copy_lows_ok n j i ws d : (j + n ≤ length d)%nat → Forall byte d → Forall byte (copy_lows n j i ws d).
Proof.
  intros Hl Hd. apply Forall_lookup. intros p b. rewrite lookup_copy_lows by done.
  case_decide; [intros [= <-]; apply low_byte | exact (Forall_lookup_1 _ _ _ _ Hd)].
Qed.

(** ** The accesses *)
Lemma get_chip_done s k c : stub_ok s → chips_of s !! k = Some c → get_chip k s = Done c s.
Proof. intros H Hc. unfold get_chip. msimpl. rewrite (chips_there s H). msimpl. by rewrite Hc. Qed.

Lemma put_chip_done s k c c' : stub_ok s → chips_of s !! k = Some c → put_chip k c' s = Done () (upd k c' s).
Proof.
  intros H Hc. unfold put_chip. msimpl. rewrite (chips_there s H). msimpl. rewrite Hc. by msimpl.
Qed.

Lemma chips_of_upd k c s : chips_of (upd k c s) = <[k := c]> (chips_of s).
Proof. done. Qed.

Lemma upd_ok s k c : stub_ok s → chip_ok c → stub_ok (upd k c s).
Proof.
  intros [Ht Ho Hc] H. split; [done| |].
  - rewrite chips_of_upd. by apply Forall_insert.
  - intros addr k' Hk. rewrite chips_of_upd, length_insert. by apply (Hc addr).
Qed.

Lemma upd_upd s k c c' : upd k c' (upd k c s) = upd k c' s.
Proof. unfold upd, chips_of. simpl. by rewrite list_insert_insert_eq. Qed.

Section chip.
Variables (s : stub) (k : nat) (c : stub_chip).
Hypotheses (Hs : stub_ok s) (Hk : chips_of s !! k = Some c).

Lemma get_word_done i w : words c !! Z.to_nat i = Some w → get_word k i s = Done w s.
Proof. intros Hw. unfold get_word. mstep (get_chip_done _ _ _ Hs Hk). by rewrite Hw. Qed.

Lemma get_word_oops i : words c !! Z.to_nat i = None → get_word k i s = Oops.
Proof. intros Hw. unfold get_word. mstep (get_chip_done _ _ _ Hs Hk). by rewrite Hw. Qed.

Lemma set_word_done i w v : words c !! Z.to_nat i = Some w →
  set_word k i v s = Done () (upd k (StubChip (pointer c) (<[Z.to_nat i := v]> (words c))) s).
Proof.
  intros Hw. unfold set_word. mstep (get_chip_done _ _ _ Hs Hk). rewrite Hw. msimpl.
  by apply (put_chip_done _ _ c).
Qed.

Lemma set_pointer_done v : set_pointer k v s = Done () (upd k (StubChip (u8 v) (words c)) s).
Proof. unfold set_pointer. mstep (get_chip_done _ _ _ Hs Hk). by apply (put_chip_done _ _ c). Qed.

Lemma chip_ok_here : chip_ok c.
Proof. exact (Forall_lookup_1 _ _ _ _ (chips_ok s Hs) Hk). Qed.
End chip.

(** The word-level updates keep a chip well-formed. *)
Lemma with_words_ok c ws : chip_ok c → length ws = 256%nat → Forall (λ w, 0 ≤ w < 65536) ws →
  chip_ok (StubChip (pointer c) ws).
Proof. by intros [? ? ?]. Qed.

Lemma with_pointer_ok c v : chip_ok c → chip_ok (StubChip (u8 v) (words c)).
Proof. intros [? ? ?]. split; [apply u8_range|done..]. Qed.

Lemma word_range c i w : chip_ok c → words c !! i = Some w → 0 ≤ w < 65536.
Proof. intros [_ _ H] Hw. exact (Forall_lookup_1 _ _ _ _ H Hw). Qed.

Lemma chips_upd_same s k c c' : chips_of s !! k = Some c → chips_of (upd k c' s) !! k = Some c'.
Proof. intros Hk. rewrite chips_of_upd. apply list_lookup_insert_eq. by eapply lookup_lt_Some. Qed.

Lemma set_low_done s k c i b : stub_ok s → chips_of s !! k = Some c → byte b → 0 ≤ i < 256 →
  set_low k i b s = Done () (upd k (StubChip (pointer c) (alter (set_lo b) (Z.to_nat i) (words c))) s).
Proof.
  intros Hs Hk Hb Hi. pose proof (chip_ok_here _ _ _ Hs Hk) as Hc.
  destruct (lookup_lt_is_Some_2 (words c) (Z.to_nat i)) as [w Hw]; [rewrite (words_len c Hc); lia|].
  unfold set_low. mstep (get_word_done _ _ _ Hs Hk _ _ Hw).
  mstep (set_word_done _ _ _ Hs Hk i w (Z.land w 0xff00) Hw).
  assert (Hr : 0 ≤ Z.land w 0xff00 < 65536).
  { pose proof (word_range _ _ _ Hc Hw). replace (Z.land w 0xff00) with (set_lo 0 w);
      [apply set_lo_range; unfold byte; lia | unfold set_lo; apply Z.lor_0_r]. }
  set (c1 := StubChip (pointer c) (<[Z.to_nat i := Z.land w 0xff00]> (words c))).
  assert (Hc1 : chip_ok c1).
  { apply with_words_ok; [done | by rewrite length_insert, (words_len c Hc) |].
    apply Forall_insert; [apply Hc|done]. }
  assert (Hs1 : stub_ok (upd k c1 s)) by by apply upd_ok.
  pose proof (chips_upd_same s k c c1 Hk) as Hk1.
  assert (Hw1 : words c1 !! Z.to_nat i = Some (Z.land w 0xff00)).
  { simpl. apply list_lookup_insert_eq. by eapply lookup_lt_Some. }
  mstep (get_word_done _ _ _ Hs1 Hk1 _ _ Hw1).
  rewrite (set_word_done _ _ _ Hs1 Hk1 i _ _ Hw1), upd_upd. simpl. do 3 f_equal.
  rewrite list_insert_insert_eq. apply list_eq. intros j. destruct (decide (j = Z.to_nat i)) as [->|].
  - rewrite list_lookup_insert_eq by (by eapply lookup_lt_Some). by rewrite list_lookup_alter_eq, Hw.
  - by rewrite list_lookup_insert_ne, list_lookup_alter_ne by done.
Qed.

Lemma alter_lo_ok c i b : chip_ok c → byte b → chip_ok (StubChip (pointer c) (alter (set_lo b) i (words c))).
Proof.
  intros Hc Hb. pose proof (write_lows_ok i [b] (words c)) as H. simpl in H.
  apply with_words_ok; [done | by rewrite length_alter, (words_len c Hc) |].
  apply H; [by constructor | apply Hc].
Qed.

(** ** The block loops *)
Lemma upd_self s k c : stub_ok s → chips_of s !! k = Some c → upd k (StubChip (pointer c) (words c)) s = s.
Proof.
  intros Hs Hk. unfold upd. destruct c as [p ws]. simpl. rewrite list_insert_id by done.
  rewrite <- (chips_there s Hs). by destruct s.
Qed.

Section block.
Variables (k : nat) (command : Z).

Lemma block_write_done n i s c d : stub_ok s → chips_of s !! k = Some c → Forall byte d →
  0 ≤ i → 0 ≤ command → (Z.to_nat (1 + i) + n ≤ length d)%nat → command + i + Z.of_nat n ≤ 256 →
  block_write n i k command d s = Done () (upd k (StubChip (pointer c)
    (write_lows (Z.to_nat (command + i)) (take n (drop (Z.to_nat (1 + i)) d)) (words c))) s).
Proof.
  intros Hs Hk Hd. revert i s c Hs Hk. induction n as [|n IH]; intros i s c Hs Hk Hi Hco Hl Hend.
  { simpl. by rewrite upd_self. }
  destruct (lookup_lt_is_Some_2 d (Z.to_nat (1 + i))) as [b Hb]; [lia|].
  pose proof (Forall_lookup_1 _ _ _ _ Hd Hb) as Hbyte. pose proof (chip_ok_here _ _ _ Hs Hk) as Hc.
  cbn [block_write]. rewrite Hb. msimpl. mstep (set_low_done s k c (command + i) b Hs Hk Hbyte ltac:(lia)).
  erewrite IH; [|by apply upd_ok, alter_lo_ok | by eapply chips_upd_same | lia..].
  rewrite upd_upd, (drop_S d b (Z.to_nat (1 + i))) by done. cbn [pointer words take write_lows].
  replace (Z.to_nat (command + (i + 1))) with (S (Z.to_nat (command + i))) by lia.
  by replace (Z.to_nat (1 + (i + 1))) with (S (Z.to_nat (1 + i))) by lia.
Qed.

Lemma block_write_oops n i s c d : stub_ok s → chips_of s !! k = Some c → Forall byte d →
  0 ≤ i → 0 ≤ command → (Z.to_nat (1 + i) + n ≤ length d)%nat → command + i ≤ 256 →
  256 < command + i + Z.of_nat n → block_write n i k command d s = Oops.
Proof.
  intros Hs Hk Hd. revert i s c Hs Hk. induction n as [|n IH]; intros i s c Hs Hk Hi Hco Hl Hin Hout; [lia|].
  destruct (lookup_lt_is_Some_2 d (Z.to_nat (1 + i))) as [b Hb]; [lia|].
  pose proof (Forall_lookup_1 _ _ _ _ Hd Hb) as Hbyte. pose proof (chip_ok_here _ _ _ Hs Hk) as Hc.
  cbn [block_write]. rewrite Hb. msimpl. destruct (decide (command + i = 256)) as [He|].
  - assert (Hno : words c !! Z.to_nat (command + i) = None).
    { apply lookup_ge_None_2. rewrite (words_len c Hc). lia. }
    unfold set_low. unfold mbind, M_bind. by rewrite (get_word_oops _ _ _ Hs Hk _ Hno).
  - mstep (set_low_done s k c (command + i) b Hs Hk Hbyte ltac:(lia)).
    eapply IH; [by apply upd_ok, alter_lo_ok | by eapply chips_upd_same | lia..].
Qed.

Lemma block_read_done n i s c d : stub_ok s → chips_of s !! k = Some c →
  0 ≤ i → 0 ≤ command → (Z.to_nat (1 + i) + n ≤ length d)%nat → command + i + Z.of_nat n ≤ 256 →
  block_read n i k command d s =
    Done (copy_lows n (Z.to_nat (1 + i)) (Z.to_nat (command + i)) (words c) d) s.
Proof.
  intros Hs Hk. pose proof (chip_ok_here _ _ _ Hs Hk) as Hc.
  revert i d. induction n as [|n IH]; intros i d Hi Hco Hl Hend; [done|].
  destruct (lookup_lt_is_Some_2 d (Z.to_nat (1 + i))) as [b Hb]; [lia|].
  destruct (lookup_lt_is_Some_2 (words c) (Z.to_nat (command + i))) as [w Hw];
    [rewrite (words_len c Hc); lia|].
  cbn [block_read]. mstep (get_word_done _ _ _ Hs Hk _ _ Hw). rewrite Hb. msimpl.
  rewrite IH by (rewrite ?length_insert; lia). cbn [copy_lows].
  rewrite (list_lookup_total_correct _ _ _ Hw).
  replace (Z.to_nat (command + (i + 1))) with (S (Z.to_nat (command + i))) by lia.
  by replace (Z.to_nat (1 + (i + 1))) with (S (Z.to_nat (1 + i))) by lia.
Qed.

Lemma block_read_oops n i s c d : stub_ok s → chips_of s !! k = Some c →
  0 ≤ i → 0 ≤ command → (Z.to_nat (1 + i) + n ≤ length d)%nat → command + i ≤ 256 →
  256 < command + i + Z.of_nat n → block_read n i k command d s = Oops.
Proof.
  intros Hs Hk. pose proof (chip_ok_here _ _ _ Hs Hk) as Hc.
  revert i d. induction n as [|n IH]; intros i d Hi Hco Hl Hin Hout; [lia|].
  destruct (lookup_lt_is_Some_2 d (Z.to_nat (1 + i))) as [b Hb]; [lia|].
  cbn [block_read]. destruct (words c !! Z.to_nat (command + i)) as [w|] eqn:Hw.
  - mstep (get_word_done _ _ _ Hs Hk _ _ Hw). rewrite Hb. msimpl.
    apply lookup_lt_Some in Hw. rewrite (words_len c Hc) in Hw. apply IH; rewrite ?length_insert; lia.
  - unfold mbind, M_bind. by rewrite (get_word_oops _ _ _ Hs Hk _ Hw).
Qed.
End block.

(** ** Which chip, and loading the module *)
Lemma check_addrs_search l i n : check_addrs l i = inr n → ∀ addr k j,
  search_chip l j addr = Some k → (k < j + (n - i))%nat.
Proof.
  revert i. induction l as [|a l IH]; intros i; simpl; [done|].
  case_match; [done|]. case_match; [done|]. intros Hn addr k j.
  assert (Hin : (S i ≤ n)%nat).
  { clear IH H H0. revert Hn. generalize (S i). induction l as [|a' l IHl]; simpl; intros m;
      [intros [= ->]; lia|]. do 2 (case_match; [naive_solver lia|]). intros Hm.
    apply IHl in Hm. lia. }
  case_match; [intros [= ->]; lia|]. intros Hk. apply (IH _ Hn) in Hk. lia.
Qed.

Lemma zero_chip_ok : chip_ok zero_chip.
Proof. split; [done | apply length_replicate |]. apply Forall_replicate. lia. Qed.

Lemma init_done addrs f s : i2c_stub_init true 0 (Stub addrs f None false) = Done 0 s →
  stub_ok s ∧ adapter s = true ∧ chip_addr s = addrs ∧
  (∀ k c, chips_of s !! k = Some c → c = zero_chip).
Proof.
  unfold i2c_stub_init. msimpl. cbn [chip_addr]. case_match; [done|].
  destruct (check_addrs _ _) as [e|n] eqn:E.
  - intros He%(f_equal (λ o, if o is Done a _ then a else 0)). cbn in He. subst e.
    exfalso. revert E. generalize (take MAX_CHIPS addrs), 0%nat.
    induction l as [|a l IH]; intros m; simpl; [done|]. do 2 (case_match; [done|]). apply IH.
  - cbn [negb Z.eqb]. msimpl. intros <-%done_state. split_and!; [|done..|].
    + split; [done| |].
      * unfold chips_of. simpl. apply Forall_replicate, zero_chip_ok.
      * intros addr k Hk. unfold chips_of. simpl. rewrite length_replicate.
        apply (check_addrs_search _ _ _ E) in Hk. lia.
    + unfold chips_of. simpl. intros k c [-> _]%lookup_replicate. done.
Qed.

(** ** One transfer *)
Definition supported (size : Z) : bool :=
  (size =? I2C_SMBUS_QUICK) || (size =? I2C_SMBUS_BYTE) || (size =? I2C_SMBUS_BYTE_DATA) ||
  (size =? I2C_SMBUS_WORD_DATA) || (size =? I2C_SMBUS_I2C_BLOCK_DATA).

(** What a transfer that returns leaves: the data union is intact, the bus is
    well formed, and no chip but [k] has changed. *)
Definition returns (k : nat) (s : stub) (ret : Z) (o : outcome stub (Z * list Z)) : Prop :=
  ∃ d s', o = Done (ret, d) s' ∧ data_ok d ∧ stub_ok s' ∧ chip_addr s' = chip_addr s ∧
    functionality s' = functionality s ∧ adapter s' = adapter s ∧
    ∀ j, j ≠ k → chips_of s' !! j = chips_of s !! j.

Lemma returns_same k s ret d : stub_ok s → data_ok d → returns k s ret (Done (ret, d) s).
Proof. intros. by exists d, s. Qed.

Lemma returns_upd k s ret d c : stub_ok s → chip_ok c → data_ok d → returns k s ret (Done (ret, d) (upd k c s)).
Proof.
  intros. exists d, (upd k c s). split_and!; [done..|by apply upd_ok|done|done|done|].
  intros j Hj. rewrite chips_of_upd. by apply list_lookup_insert_ne.
Qed.

Lemma put_byte_ok v d : byte v → data_ok d → data_ok (put_byte v d).
Proof. intros Hv [Hl Hd]. split; [by rewrite <- Hl; apply length_insert | by apply Forall_insert]. Qed.

Lemma data_byte_ok d : data_ok d → byte (data_byte d).
Proof. intros [Hl Hd]. destruct d as [|b d]; [done|]. by apply Forall_cons_1 in Hd as [? _]. Qed.

Lemma put_word_ok v d : 0 ≤ v < 65536 → data_ok d → data_ok (put_word v d).
Proof.
  intros Hv [Hl Hd]. unfold put_word. split; [by rewrite !length_insert|].
  apply Forall_insert; [apply Forall_insert; [done|] | apply Z.mod_pos_bound; lia].
  split; [apply Z.div_pos; lia | apply Z.div_lt_upper_bound; lia].
Qed.

Lemma data_word_range d : data_ok d → 0 ≤ data_word d < 65536.
Proof.
  intros [Hl Hd]. destruct d as [|b [|b' d]]; [done..|]. unfold data_word. simpl.
  apply Forall_cons_1 in Hd as [Hb [Hb' _]%Forall_cons_1]. unfold byte in *. lia.
Qed.

Section one.
Variables (s : stub) (k : nat) (c : stub_chip) (command : Z) (d : list Z).
Hypotheses (Hs : stub_ok s) (Hk : chips_of s !! k = Some c) (Hd : data_ok d) (Hco : byte command).

Lemma register_there i : byte i → ∃ w, words c !! Z.to_nat i = Some w ∧ 0 ≤ w < 65536.
Proof.
  intros [? ?]. pose proof (chip_ok_here _ _ _ Hs Hk) as Hc.
  destruct (lookup_lt_is_Some_2 (words c) (Z.to_nat i)) as [w Hw]; [rewrite (words_len c Hc); lia|].
  exists w. split; [done|]. exact (word_range _ _ _ Hc Hw).
Qed.

Lemma read_byte_done : ∃ w, words c !! Z.to_nat (pointer c) = Some w ∧
  (c ← get_chip k; w ← get_word k (pointer c); set_pointer k (pointer c + 1);;
   mret (0, put_byte (Z.land w 0xff) d)) s =
  Done (0, put_byte (Z.land w 0xff) d) (upd k (StubChip (u8 (pointer c + 1)) (words c)) s).
Proof.
  pose proof (chip_ok_here _ _ _ Hs Hk) as Hc.
  destruct (register_there (pointer c) (pointer_ok c Hc)) as (w & Hw & _). exists w. split; [done|].
  mstep (get_chip_done _ _ _ Hs Hk). mstep (get_word_done _ _ _ Hs Hk _ _ Hw).
  by mstep (set_pointer_done _ _ _ Hs Hk (pointer c + 1)).
Qed.

Lemma block_len_ok : data_byte d ≤ I2C_SMBUS_BLOCK_MAX → (1 + Z.to_nat (data_byte d) ≤ length d)%nat.
Proof. intros Hb. rewrite (data_len d Hd). unfold I2C_SMBUS_BLOCK_MAX in Hb. lia. Qed.

Lemma block_write_returns : data_byte d ≤ I2C_SMBUS_BLOCK_MAX → command + data_byte d ≤ 256 →
  returns k s 0 ((block_write (Z.to_nat (data_byte d)) 0 k command d;; mret (0, d)) s).
Proof.
  intros Hb Hend. pose proof (chip_ok_here _ _ _ Hs Hk) as Hc. pose proof (block_len_ok Hb).
  pose proof (data_byte_ok d Hd) as [? ?]. destruct Hco.
  mstep (block_write_done k command (Z.to_nat (data_byte d)) 0 s c d Hs Hk (data_bytes d Hd)
    ltac:(lia) ltac:(lia) ltac:(simpl; lia) ltac:(lia)).
  apply returns_upd; [done| |done]. apply with_words_ok; [done| |].
  - by rewrite length_write_lows, (words_len c Hc).
  - apply write_lows_ok; [apply Forall_take, Forall_drop, Hd | apply Hc].
Qed.

Lemma block_read_returns : data_byte d ≤ I2C_SMBUS_BLOCK_MAX → command + data_byte d ≤ 256 →
  returns k s 0 ((d' ← block_read (Z.to_nat (data_byte d)) 0 k command d; mret (0, d')) s).
Proof.
  intros Hb Hend. pose proof (block_len_ok Hb). pose proof (data_byte_ok d Hd) as [? ?]. destruct Hco.
  mstep (block_read_done k command (Z.to_nat (data_byte d)) 0 s c d Hs Hk
    ltac:(lia) ltac:(lia) ltac:(simpl; lia) ltac:(lia)).
  apply returns_same; [done|]. split; [by rewrite length_copy_lows, (data_len d Hd)|].
  apply copy_lows_ok; [simpl; lia | apply Hd].
Qed.

Lemma block_overrun : data_byte d ≤ I2C_SMBUS_BLOCK_MAX → 256 < command + data_byte d →
  block_write (Z.to_nat (data_byte d)) 0 k command d s = Oops ∧
  block_read (Z.to_nat (data_byte d)) 0 k command d s = Oops.
Proof.
  intros Hb Hend. pose proof (block_len_ok Hb). pose proof (data_byte_ok d Hd) as [? ?]. destruct Hco.
  split.
  - apply (block_write_oops k command _ 0 s c d Hs Hk (data_bytes d Hd)); simpl; lia.
  - apply (block_read_oops k command _ 0 s c d Hs Hk); simpl; lia.
Qed.

Lemma byte_data_returns rw :
  returns k s 0 ((d' ← (if rw =? I2C_SMBUS_WRITE then set_low k command (data_byte d);; mret d
                        else w ← get_word k command; mret (put_byte (Z.land w 0xff) d));
                  set_pointer k (command + 1);; mret (0, d')) s).
Proof.
  pose proof (chip_ok_here _ _ _ Hs Hk) as Hc. pose proof (data_byte_ok d Hd) as Hb.
  destruct (register_there command Hco) as (w & Hw & Hr). case_match.
  - rewrite (bind_done _ _ s d _ (eq_trans (bind_done _ _ _ _ _ (set_low_done s k c command (data_byte d)
      Hs Hk Hb Hco)) eq_refl)).
    assert (Hc1 := alter_lo_ok c (Z.to_nat command) (data_byte d) Hc Hb).
    mstep (set_pointer_done _ k _ (upd_ok _ k _ Hs Hc1) (chips_upd_same s k c _ Hk) (command + 1)).
    rewrite upd_upd. by apply returns_upd; [|apply with_pointer_ok|].
  - rewrite (bind_done _ _ s (put_byte (Z.land w 0xff) d) s) by by mstep (get_word_done _ _ _ Hs Hk _ _ Hw).
    mstep (set_pointer_done _ _ _ Hs Hk (command + 1)).
    apply returns_upd; [done | by apply with_pointer_ok | apply put_byte_ok; [apply low_byte|done]].
Qed.

Lemma word_data_returns rw :
  returns k s 0 ((if rw =? I2C_SMBUS_WRITE then set_word k command (data_word d);; mret (0, d)
                  else w ← get_word k command; mret (0, put_word w d)) s).
Proof.
  pose proof (chip_ok_here _ _ _ Hs Hk) as Hc. destruct (register_there command Hco) as (w & Hw & Hr).
  case_match.
  - mstep (set_word_done _ _ _ Hs Hk command w (data_word d) Hw).
    apply returns_upd; [done| |done]. apply with_words_ok; [done | by rewrite length_insert, (words_len c Hc) |].
    apply Forall_insert; [apply Hc | by apply data_word_range].
  - mstep (get_word_done _ _ _ Hs Hk _ _ Hw). apply returns_same; [done|]. by apply put_word_ok.
Qed.
End one.

Lemma transfer_outcome s r : stub_ok s → request_ok r →
  match chip_at s (r_addr r) with
  | None => transfer r s = Done (- ENODEV, r_data r) s
  | Some k =>
      if overruns r then transfer r s = Oops
      else returns k s (if supported (r_size r) then 0 else - EOPNOTSUPP) (transfer r s)
  end.
Proof.
  intros Hs (Hco & Hd & Hlen). destruct r as [addr fl rw command size d]; cbn in *.
  unfold transfer, stub_xfer. cbn [r_addr r_flags r_rw r_command r_size r_data]. msimpl. unfold chip_at.
  destruct (search_chip _ _ _) as [k|] eqn:Ek; [|done].
  destruct (lookup_lt_is_Some_2 (chips_of s) k (chips_cover s Hs _ _ Ek)) as [c Hk].
  pose proof (chip_ok_here _ _ _ Hs Hk) as Hc. unfold overruns, supported. cbn [r_size r_command r_data].
  destruct (Z.eqb_spec size I2C_SMBUS_QUICK) as [->|N0]; [by apply returns_same|].
  destruct (Z.eqb_spec size I2C_SMBUS_BYTE) as [->|N1].
  { change (I2C_SMBUS_BYTE =? I2C_SMBUS_I2C_BLOCK_DATA) with false. cbn [andb orb]. case_match.
    - mstep (set_pointer_done _ _ _ Hs Hk command). by apply returns_upd; [|apply with_pointer_ok|].
    - destruct (read_byte_done s k c d Hs Hk) as (w & _ & ->).
      apply returns_upd; [done | by apply with_pointer_ok | apply put_byte_ok; [apply low_byte|done]]. }
  destruct (Z.eqb_spec size I2C_SMBUS_BYTE_DATA) as [->|N2]; [by apply byte_data_returns with c|].
  destruct (Z.eqb_spec size I2C_SMBUS_WORD_DATA) as [->|N3]; [by apply word_data_returns with c|].
  destruct (Z.eqb_spec size I2C_SMBUS_I2C_BLOCK_DATA) as [->|N8]; [|by apply returns_same].
  specialize (Hlen eq_refl). cbn [andb orb]. destruct (Z.ltb_spec 256 (command + data_byte d)).
  - destruct (block_overrun s k c command d Hs Hk Hd Hco Hlen H) as [Hw Hr].
    unfold mbind, M_bind. by case_match; rewrite ?Hw, ?Hr.
  - case_match; [by apply block_write_returns with c | by apply block_read_returns with c].
Qed.

Lemma bus_states_ok addrs f s : bus_states addrs f s → stub_ok s ∧ adapter s = true ∧ chip_addr s = addrs.
Proof.
  induction 1 as [s H|s r ret d s' _ (Hs & Ha & Hc) Hr Ht]; [apply init_done in H; naive_solver|].
  pose proof (transfer_outcome s r Hs Hr) as Ho. destruct (chip_at s (r_addr r)); [|].
  - destruct (overruns r); [congruence|]. destruct Ho as (d' & s1 & Ho & _ & Hs1 & Hc1 & _ & Ha1 & _).
    rewrite Ho in Ht. injection Ht as _ <- <-. split_and!; congruence.
  - rewrite Ho in Ht. by injection Ht as _ _ <-.
Qed.

(** C12: the loaded stub bus answers every request of the i2c core.  In every
    state the module can reach after loading, a request to an address nobody
    configured returns [-ENODEV] and changes nothing; a request to a
    configured address returns 0, or [-EOPNOTSUPP] for a transfer kind the
    stub does not have, with the caller's data still 34 bytes and every other
    chip unchanged, and the module stays in a well-formed state.  The only
    exception is a block transfer that runs past register 255: the code has no
    check, so it accesses memory outside the chip. *)
Theorem stub_bus_answers addrs f s r (Hs : bus_states addrs f s) (Hr : request_ok r) :
  match chip_at s (r_addr r) with
  | None => transfer r s = Done (- ENODEV, r_data r) s
  | Some k =>
      if overruns r then transfer r s = Oops
      else returns k s (if supported (r_size r) then 0 else - EOPNOTSUPP) (transfer r s)
  end.
Proof. apply bus_states_ok in Hs as (Hs & _). by apply transfer_outcome. Qed.

(** ** Round trips *)
Definition block (bs : list Z) : list Z := Z.of_nat (length bs) :: bs ++ replicate (33 - length bs) 0.

(** Reading with [I2C_SMBUS_BYTE], [n] times. *)
Fixpoint read_bytes (addr : Z) (n : nat) (d : list Z) : T (list Z) :=
  match n with
  | O => mret []
  | S n =>
      rd ← transfer (Request addr 0 I2C_SMBUS_READ 0 I2C_SMBUS_BYTE d);
      l ← read_bytes addr n (snd rd); mret (data_byte (snd rd) :: l)
  end.

Lemma block_ok bs : Forall byte bs → (length bs ≤ 32)%nat → data_ok (block bs).
Proof.
  intros Hb Hl. split.
  - simpl. rewrite length_app, length_replicate. lia.
  - constructor; [unfold byte; lia|]. apply Forall_app. split; [done|]. by apply Forall_replicate.
Qed.

Lemma block_payload bs : take (length bs) (drop 1 (block bs)) = bs.
Proof. change (drop 1 (block bs)) with (bs ++ replicate (33 - length bs) 0). by rewrite take_app_length. Qed.

Lemma put_byte_get v d : data_ok d → data_byte (put_byte v d) = v.
Proof. intros [Hl _]. by destruct d. Qed.

Lemma read_bytes_done addr k n bs d s c : stub_ok s → chip_at s addr = Some k → chips_of s !! k = Some c →
  data_ok d → length bs = n → pointer c + Z.of_nat n ≤ 256 →
  (∀ i b, bs !! i = Some b → ∃ w, words c !! (Z.to_nat (pointer c) + i)%nat = Some w ∧ Z.land w 0xff = b) →
  ∃ s', read_bytes addr n d s = Done bs s'.
Proof.
  revert bs d s c. induction n as [|n IH]; intros bs d s c Hs Ha Hk Hd Hl Hend Hbs.
  { destruct bs; [|done]. by exists s. }
  destruct bs as [|b bs]; [done|]. pose proof (chip_ok_here _ _ _ Hs Hk) as Hc.
  destruct (pointer_ok c Hc) as [Hp _]. destruct (read_byte_done s k c d Hs Hk) as (w & Hw & Hread).
  assert (b = Z.land w 0xff) as ->.
  { destruct (Hbs 0%nat b eq_refl) as (w' & Hw' & <-). rewrite Nat.add_0_r in Hw'. congruence. }
  set (c1 := StubChip (u8 (pointer c + 1)) (words c)).
  assert (Hd1 : data_ok (put_byte (Z.land w 0xff) d)) by (apply put_byte_ok; [apply low_byte|done]).
  cbn [read_bytes]. rewrite (bind_done _ _ s (0, put_byte (Z.land w 0xff) d) (upd k c1 s)).
  2: { unfold transfer, stub_xfer. cbn [r_addr r_flags r_rw r_command r_size r_data]. msimpl.
    unfold chip_at in Ha. by rewrite Ha. }
  cbv beta. cbn [snd]. rewrite put_byte_get by done. destruct n as [|n].
  { destruct bs; [|done]. by eexists. }
  assert (Hu : u8 (pointer c + 1) = pointer c + 1) by (apply u8_small; lia).
  destruct (IH bs (put_byte (Z.land w 0xff) d) (upd k c1 s) c1) as [s' Hs']; simpl.
  - apply upd_ok; [done|]. by apply with_pointer_ok.
  - done.
  - by eapply chips_upd_same.
  - done.
  - simpl in Hl. lia.
  - rewrite Hu. lia.
  - intros i b Hb. rewrite Hu. destruct (Hbs (S i) b Hb) as (w' & Hw' & Hl').
    exists w'. split; [|done]. by replace (Z.to_nat (pointer c + 1) + i)%nat with (Z.to_nat (pointer c) + S i)%nat by lia.
  - exists s'. mstep Hs'. done.
Qed.

(** The state after the block was written, and what it is about. *)
Section round_trip.
Variables (s : stub) (addr command : Z) (bs : list Z) (k : nat) (c : stub_chip).
Hypotheses (Hs : stub_ok s) (Ha : chip_at s addr = Some k) (Hk : chips_of s !! k = Some c).
Hypotheses (Hco : byte command) (Hbs : Forall byte bs) (Hlen : (length bs ≤ 32)%nat).
Hypothesis Hend : command + Z.of_nat (length bs) ≤ 256.

Let c' := StubChip (pointer c) (write_lows (Z.to_nat command) bs (words c)).

Lemma written_ok : chip_ok c'.
Proof.
  pose proof (chip_ok_here _ _ _ Hs Hk) as Hc. apply with_words_ok; [done| |].
  - by rewrite length_write_lows, (words_len c Hc).
  - apply write_lows_ok; [done | apply Hc].
Qed.

Lemma written_word i b : bs !! i = Some b → ∃ w w', words c !! (Z.to_nat command + i)%nat = Some w ∧
  words c' !! (Z.to_nat command + i)%nat = Some w' ∧ Z.land w' 0xff = b ∧ Z.land w' 0xff00 = Z.land w 0xff00.
Proof.
  intros Hb. pose proof (chip_ok_here _ _ _ Hs Hk) as Hc. pose proof (Forall_lookup_1 _ _ _ _ Hbs Hb) as Hbb.
  pose proof (lookup_lt_Some _ _ _ Hb). destruct Hco.
  destruct (lookup_lt_is_Some_2 (words c) (Z.to_nat command + i)) as [w Hw]; [rewrite (words_len c Hc); lia|].
  exists w, (set_lo b w). split_and!; [done| |by apply set_lo_low|by apply set_lo_high].
  simpl. rewrite lookup_write_lows, decide_True by lia.
  replace (Z.to_nat command + i - Z.to_nat command)%nat with i by lia. by rewrite Hb, Hw.
Qed.

Lemma untouched_word i : (i < Z.to_nat command ∨ Z.to_nat command + length bs ≤ i)%nat →
  words c' !! i = words c !! i.
Proof.
  intros Hi. simpl. rewrite lookup_write_lows. case_decide; [|done].
  by rewrite (lookup_ge_None_2 bs) by lia.
Qed.

Lemma block_written : transfer (Request addr 0 I2C_SMBUS_WRITE command I2C_SMBUS_I2C_BLOCK_DATA (block bs)) s =
  Done (0, block bs) (upd k c' s).
Proof.
  unfold transfer, stub_xfer. cbn [r_addr r_flags r_rw r_command r_size r_data]. msimpl.
  unfold chip_at in Ha. rewrite Ha. cbn [Z.eqb Pos.eqb I2C_SMBUS_I2C_BLOCK_DATA I2C_SMBUS_QUICK I2C_SMBUS_BYTE
    I2C_SMBUS_BYTE_DATA I2C_SMBUS_WORD_DATA I2C_SMBUS_WRITE].
  change (data_byte (block bs)) with (Z.of_nat (length bs)). rewrite Nat2Z.id. pose proof (block_ok bs Hbs Hlen) as Hd.
  destruct Hco. mstep (block_write_done k command (length bs) 0 s c (block bs) Hs Hk (data_bytes _ Hd)
    ltac:(lia) ltac:(lia) ltac:(rewrite (data_len _ Hd); simpl; lia) ltac:(lia)).
  change (Z.to_nat (1 + 0)) with 1%nat. by rewrite block_payload, Z.add_0_r.
Qed.

Lemma block_reads d : data_ok d → data_byte d = Z.of_nat (length bs) →
  ∃ d', transfer (Request addr 0 I2C_SMBUS_READ command I2C_SMBUS_I2C_BLOCK_DATA d) (upd k c' s) =
    Done (0, d') (upd k c' s) ∧ take (length bs) (drop 1 d') = bs.
Proof.
  intros Hd Hb. pose proof (upd_ok s k c' Hs written_ok) as Hs'. pose proof (chips_upd_same s k c c' Hk) as Hk'.
  destruct Hco. eexists. split.
  - unfold transfer, stub_xfer. cbn [r_addr r_flags r_rw r_command r_size r_data]. msimpl.
    unfold chip_at in Ha. change (chip_addr (upd k c' s)) with (chip_addr s). rewrite Ha.
    cbn [Z.eqb Pos.eqb I2C_SMBUS_I2C_BLOCK_DATA I2C_SMBUS_QUICK I2C_SMBUS_BYTE I2C_SMBUS_BYTE_DATA
      I2C_SMBUS_WORD_DATA I2C_SMBUS_WRITE I2C_SMBUS_READ].
    rewrite Hb, Nat2Z.id. mstep (block_read_done k command (length bs) 0 _ c' d Hs' Hk'
      ltac:(lia) ltac:(lia) ltac:(rewrite (data_len d Hd); simpl; lia) ltac:(lia)). done.
  - change (Z.to_nat (1 + 0)) with 1%nat. rewrite Z.add_0_r. apply list_eq. intros i.
    destruct (bs !! i) as [b|] eqn:E.
    + pose proof (lookup_lt_Some _ _ _ E). rewrite lookup_take, decide_True by done. rewrite lookup_drop.
      rewrite lookup_copy_lows by (rewrite (data_len d Hd); lia). rewrite decide_True by lia.
      destruct (written_word i b E) as (w & w' & _ & Hw' & <- & _).
      replace (Z.to_nat command + (1 + i - 1))%nat with (Z.to_nat command + i)%nat by lia.
      by rewrite (list_lookup_total_correct _ _ _ Hw').
    + apply lookup_ge_None_1 in E. by apply lookup_take_ge.
Qed.

Lemma byte_data_reads i b d : bs !! i = Some b → data_ok d →
  ∃ d' s'', transfer (Request addr 0 I2C_SMBUS_READ (command + Z.of_nat i) I2C_SMBUS_BYTE_DATA d) (upd k c' s) =
    Done (0, d') s'' ∧ data_byte d' = b.
Proof.
  intros Hb Hd. pose proof (upd_ok s k c' Hs written_ok) as Hs'. pose proof (chips_upd_same s k c c' Hk) as Hk'.
  destruct (written_word i b Hb) as (w & w' & _ & Hw' & Hl & _). destruct Hco.
  replace (Z.to_nat command + i)%nat with (Z.to_nat (command + Z.of_nat i)) in Hw' by lia.
  exists (put_byte b d). eexists. split; [|by apply put_byte_get].
  unfold transfer, stub_xfer. cbn [r_addr r_flags r_rw r_command r_size r_data]. msimpl.
  unfold chip_at in Ha. change (chip_addr (upd k c' s)) with (chip_addr s). rewrite Ha.
  cbn [Z.eqb Pos.eqb I2C_SMBUS_QUICK I2C_SMBUS_BYTE I2C_SMBUS_BYTE_DATA I2C_SMBUS_WRITE I2C_SMBUS_READ].
  rewrite (bind_done _ _ _ (put_byte b d) (upd k c' s))
    by (mstep (get_word_done _ _ _ Hs' Hk' _ _ Hw'); by rewrite Hl).
  mstep (set_pointer_done _ _ _ Hs' Hk' (command + Z.of_nat i + 1)). done.
Qed.

Lemma pointer_reads d : data_ok d → ∃ s'',
  (transfer (Request addr 0 I2C_SMBUS_WRITE command I2C_SMBUS_BYTE d);; read_bytes addr (length bs) d) (upd k c' s) =
  Done bs s''.
Proof.
  intros Hd. pose proof (upd_ok s k c' Hs written_ok) as Hs'. pose proof (chips_upd_same s k c c' Hk) as Hk'.
  set (c2 := StubChip (u8 command) (words c')).
  rewrite (bind_done _ _ _ (0, d) (upd k c2 s)).
  2: { unfold transfer, stub_xfer. cbn [r_addr r_flags r_rw r_command r_size r_data]. msimpl.
    unfold chip_at in Ha. change (chip_addr (upd k c' s)) with (chip_addr s). rewrite Ha.
    cbn [Z.eqb Pos.eqb I2C_SMBUS_QUICK I2C_SMBUS_BYTE I2C_SMBUS_WRITE].
    mstep (set_pointer_done _ _ _ Hs' Hk' command). by rewrite upd_upd. }
  cbv beta. assert (Hu : u8 command = command) by by apply u8_small.
  apply (read_bytes_done addr k _ bs d _ c2); simpl.
  - apply upd_ok; [done|]. apply (with_pointer_ok c'), written_ok.
  - done.
  - by eapply chips_upd_same.
  - done.
  - done.
  - by rewrite Hu.
  - intros i b Hb. rewrite Hu. destruct (written_word i b Hb) as (w & w' & _ & Hw' & Hl & _). by exists w'.
Qed.
End round_trip.

(** C13: what is written in a block is read back, however it is read.  On any
    reachable bus, a block of up to 32 bytes written inside the register file
    of a configured chip succeeds; a block read of the same length returns the
    bytes, a byte-data read of each register returns its byte, and so do the
    plain byte reads after the pointer was set to the first register.  The
    high bytes of the registers, the other registers of the chip and all other
    chips are as before. *)
Theorem stub_block_round_trip addrs f s addr command bs k c (Hs : bus_states addrs f s)
    (Ha : chip_at s addr = Some k) (Hk : chips_of s !! k = Some c) (Hco : byte command)
    (Hbs : Forall byte bs) (Hlen : (length bs ≤ 32)%nat)
    (Hend : command + Z.of_nat (length bs) ≤ 256) :
  ∃ s' c', transfer (Request addr 0 I2C_SMBUS_WRITE command I2C_SMBUS_I2C_BLOCK_DATA (block bs)) s =
      Done (0, block bs) s' ∧
    (∀ d, data_ok d → data_byte d = Z.of_nat (length bs) → ∃ d',
      transfer (Request addr 0 I2C_SMBUS_READ command I2C_SMBUS_I2C_BLOCK_DATA d) s' = Done (0, d') s' ∧
      take (length bs) (drop 1 d') = bs) ∧
    (∀ i b d, bs !! i = Some b → data_ok d → ∃ d' s'',
      transfer (Request addr 0 I2C_SMBUS_READ (command + Z.of_nat i) I2C_SMBUS_BYTE_DATA d) s' = Done (0, d') s'' ∧
      data_byte d' = b) ∧
    (∀ d, data_ok d → ∃ s'',
      (transfer (Request addr 0 I2C_SMBUS_WRITE command I2C_SMBUS_BYTE d);; read_bytes addr (length bs) d) s' =
      Done bs s'') ∧
    chips_of s' !! k = Some c' ∧ (∀ j, j ≠ k → chips_of s' !! j = chips_of s !! j) ∧
    (∀ i b, bs !! i = Some b → ∃ w w', words c !! (Z.to_nat command + i)%nat = Some w ∧
      words c' !! (Z.to_nat command + i)%nat = Some w' ∧ Z.land w' 0xff00 = Z.land w 0xff00) ∧
    (∀ i, (i < Z.to_nat command ∨ Z.to_nat command + length bs ≤ i)%nat → words c' !! i = words c !! i).
Proof.
  apply bus_states_ok in Hs as (Hs & _). eexists _, _.
  split_and!; [by eapply block_written | by eapply block_reads | by eapply byte_data_reads | by eapply pointer_reads
    | by eapply chips_upd_same | | | by apply untouched_word].
  - intros j Hj. rewrite chips_of_upd. by apply list_lookup_insert_ne.
  - intros i b Hb. edestruct written_word as (w & w' & ? & ? & _ & ?); [done..|].
    by exists w, w'.
Qed.

(** ** Examples: two chips, at 0x48 and 0x50 *)
Definition ex_addrs : list Z := [0x48; 0x50; 0; 0; 0; 0; 0; 0; 0; 0].
Definition ex_bus : stub := Stub ex_addrs STUB_FUNC (Some [zero_chip; zero_chip]) true.

Lemma ex_bus_loaded : bus_states ex_addrs STUB_FUNC ex_bus.
Proof. apply bus_loaded. reflexivity. Qed.

Lemma data_okb d : length d = 34%nat → forallb (λ b, (0 <=? b) && (b <? 256)) d = true → data_ok d.
Proof.
  intros Hl Hb. split; [done|]. apply Forall_forall. intros b Hin.
  rewrite List.forallb_forall in Hb. apply list_elem_of_In, Hb in Hin.
  unfold byte. destruct (Z.leb_spec 0 b), (Z.ltb_spec b 256); simpl in Hin; done || lia.
Qed.

Lemma stub_bus_answers_witness :
  transfer (Request 0x50 0 I2C_SMBUS_WRITE 250 I2C_SMBUS_I2C_BLOCK_DATA (block [1; 2; 3; 4; 5; 6; 7])) ex_bus = Oops ∧
  returns 1 ex_bus 0
    (transfer (Request 0x50 0 I2C_SMBUS_WRITE 249 I2C_SMBUS_I2C_BLOCK_DATA (block [1; 2; 3; 4; 5; 6; 7])) ex_bus).
Proof.
  split.
  - refine (stub_bus_answers ex_addrs STUB_FUNC ex_bus
      (Request 0x50 0 I2C_SMBUS_WRITE 250 I2C_SMBUS_I2C_BLOCK_DATA (block [1; 2; 3; 4; 5; 6; 7])) ex_bus_loaded _).
    split_and!; [by split | by apply data_okb | done].
  - refine (stub_bus_answers ex_addrs STUB_FUNC ex_bus
      (Request 0x50 0 I2C_SMBUS_WRITE 249 I2C_SMBUS_I2C_BLOCK_DATA (block [1; 2; 3; 4; 5; 6; 7])) ex_bus_loaded _).
    split_and!; [by split | by apply data_okb | done].
Defined.

Lemma stub_block_round_trip_witness : ∃ s',
  transfer (Request 0x50 0 I2C_SMBUS_WRITE 254 I2C_SMBUS_I2C_BLOCK_DATA (block [0xaa; 0xbb])) ex_bus =
    Done (0, block [0xaa; 0xbb]) s' ∧ chips_of s' !! 0%nat = Some zero_chip.
Proof.
  destruct (stub_block_round_trip ex_addrs STUB_FUNC ex_bus 0x50 254 [0xaa; 0xbb] 1 zero_chip ex_bus_loaded)
    as (s' & c' & Hw & _ & _ & _ & _ & Hj & _).
  - reflexivity.
  - reflexivity.
  - by split.
  - apply (bool_decide_unpack _). vm_compute. exact I.
  - simpl. lia.
  - simpl. lia.
  - exists s'. split; [exact Hw|]. exact (Hj 0%nat ltac:(done)).
Defined.
