(* ===== verification/I2cTinyUsb.v ===== *)
(** * i2c-tiny-usb.c: an i2c bus behind a USB device

    The driver [src/sources/kmods/i2c-tiny-usb/kmod/i2c-tiny-usb.c]: i2c
    transfers as USB control requests, the functionality query, attaching and
    detaching a device.  The device itself is a parameter, an arbitrary machine
    that answers control requests.  The theorems: what goes over the wire for a
    transfer and when it counts as done, and that a device that comes and goes
    leaves nothing behind. *)

From stdpp Require Import base list.
From Stdlib Require Import ZArith Lia.
From S2P Require Import Prelude.

Definition CMD_ECHO : Z := 0.
Definition CMD_GET_FUNC : Z := 1.
Definition CMD_SET_DELAY : Z := 2.
Definition CMD_GET_STATUS : Z := 3.
Definition CMD_I2C_IO : Z := 4.
Definition CMD_I2C_IO_BEGIN : Z := 1.
Definition CMD_I2C_IO_END : Z := 2.
Definition STATUS_IDLE : Z := 0.
Definition STATUS_ADDRESS_ACK : Z := 1.
Definition STATUS_ADDRESS_NAK : Z := 2.
Definition I2C_M_RD : Z := 1.
Definition ENOMEM : Z := 12.
Definition EIO : Z := 5.
Definition EREMOTEIO : Z := 121.

(** A control request on endpoint 0, as [usb_read] and [usb_write] make it:
    vendor request to the interface, with the data of an OUT request. *)
Record request := Request {
  dir_in : bool; cmd : Z; value : Z; index : Z; data : list Z; len : Z
}.

Record i2c_msg := I2cMsg { addr : Z; flags : Z; m_len : Z; buf : list Z }.

Section driver.
(** The device: its state, and the answer to a request: what
    [usb_control_msg] returns and the bytes of the data stage. *)
Context {D : Type}.
Variable usb_control_msg : request → D → Z * list Z * D.

(** The driver's side: the device, every request made with its answer, the
    objects the driver has from [kmalloc] and not freed, the references it
    holds on the USB device, the data pointer of the interface and whether its
    adapter is known to the i2c core. *)
Record tiny := Tiny {
  device : D;
  wire : list (request * (Z * list Z));
  kmalloced : Z;
  refs : Z;
  intfdata : bool;
  adapter : bool
}.
Definition set_kmalloced v (s : tiny) := Tiny (device s) (wire s) v (refs s) (intfdata s) (adapter s).
Definition set_refs v (s : tiny) := Tiny (device s) (wire s) (kmalloced s) v (intfdata s) (adapter s).
Definition set_intfdata v (s : tiny) := Tiny (device s) (wire s) (kmalloced s) (refs s) v (adapter s).
Definition set_adapter v (s : tiny) := Tiny (device s) (wire s) (kmalloced s) (refs s) (intfdata s) v.

Abbreviation K := (M tiny).

Definition control (r : request) : K (Z * list Z) := λ s,
  let '(n, bytes, d) := usb_control_msg r (device s) in
  Done (n, bytes) (Tiny d (wire s ++ [(r, (n, bytes))]) (kmalloced s) (refs s) (intfdata s) (adapter s)).

(** [kmalloc]; [ok] says whether there is memory. *)
Definition kmalloc (ok : bool) : K bool :=
  if ok then modify (λ s, set_kmalloced (kmalloced s + 1) s);; mret true else mret false.
Definition kfree : K unit := modify (λ s, set_kmalloced (kmalloced s - 1) s).

(** The result and the caller's buffer after the request. *)
Definition usb_read (c v i : Z) (b : list Z) (n : Z) : K (Z * list Z) :=
  '(r, bytes) ← control (Request true c v i [] n);
  mret (r, take (Z.to_nat n) bytes ++ drop (length (take (Z.to_nat n) bytes)) b).
Definition usb_write (c v i : Z) (b : list Z) (n : Z) : K Z :=
  '(r, _) ← control (Request false c v i (take (Z.to_nat n) b) n); mret r.

Definition io_cmd (i num : Z) : Z :=
  let c := CMD_I2C_IO in
  let c := if i =? 0 then Z.lor c CMD_I2C_IO_BEGIN else c in
  if i =? num - 1 then Z.lor c CMD_I2C_IO_END else c.

(** The loop over the messages; [pstatus] is the byte behind the pointer.  The
    result and the messages, whose buffers a read has filled. *)
Fixpoint xfer_loop (msgs : list i2c_msg) (i num pstatus : Z) : K (Z * list i2c_msg) :=
  match msgs with
  | [] => mret (i, [])
  | pmsg :: msgs =>
      let c := io_cmd i num in
      '(r, b) ← (if negb (Z.land (flags pmsg) I2C_M_RD =? 0) then
                   usb_read c (flags pmsg) (addr pmsg) (buf pmsg) (m_len pmsg)
                 else
                   r ← usb_write c (flags pmsg) (addr pmsg) (buf pmsg) (m_len pmsg); mret (r, buf pmsg));
      let pmsg := I2cMsg (addr pmsg) (flags pmsg) (m_len pmsg) b in
      if negb (r =? m_len pmsg) then mret (- EREMOTEIO, pmsg :: msgs)
      else
        '(r, st) ← usb_read CMD_GET_STATUS 0 0 [pstatus] 1;
        let pstatus := nth 0 st 0 in
        if negb (r =? 1) then mret (- EREMOTEIO, pmsg :: msgs)
        else if pstatus =? STATUS_ADDRESS_NAK then mret (- EREMOTEIO, pmsg :: msgs)
        else '(ret, done) ← xfer_loop msgs (i + 1) num pstatus; mret (ret, pmsg :: done)
  end.

(** [garbage] is what the freshly allocated status byte holds. *)
Definition usb_xfer (mem : bool) (garbage : Z) (msgs : list i2c_msg) : K (Z * list i2c_msg) :=
  ok ← kmalloc mem;
  if negb ok then mret (- ENOMEM, msgs)
  else
    '(ret, msgs) ← xfer_loop msgs 0 (Z.of_nat (length msgs)) garbage;
    kfree;; mret (ret, msgs).

Definition le32 (b : list Z) : Z := nth 0 b 0 + 256 * nth 1 b 0 + 65536 * nth 2 b 0 + 16777216 * nth 3 b 0.

(** [kfree] of the pointer that is NULL frees nothing. *)
Definition usb_func (mem : bool) (garbage : list Z) : K Z :=
  ok ← kmalloc mem;
  if negb ok then mret 0
  else
    '(r, b) ← usb_read CMD_GET_FUNC 0 0 garbage 4;
    kfree;; mret (if negb (r =? 4) then 0 else le32 b).

Definition i2c_tiny_usb_free : K unit := modify (λ s, set_refs (refs s - 1) s);; kfree.

(** [add_ok]: whether the i2c core takes the adapter. *)
Definition i2c_tiny_usb_probe (mem add_ok : bool) (delay : Z) : K Z :=
  ok ← kmalloc mem;
  if negb ok then mret (- ENOMEM)
  else
    modify (λ s, set_refs (refs s + 1) s);;
    modify (set_intfdata true);;
    r ← usb_write CMD_SET_DELAY delay 0 [] 0;
    if negb (r =? 0) then i2c_tiny_usb_free;; mret (- EIO)
    else modify (set_adapter add_ok);; mret 0.

Definition i2c_tiny_usb_disconnect : K unit :=
  modify (set_adapter false);; modify (set_intfdata false);; i2c_tiny_usb_free.
End driver.
Arguments tiny : clear implicits.

(** ** What goes over the wire *)
Definition is_read (m : i2c_msg) : bool := negb (Z.land (flags m) I2C_M_RD =? 0).
Definition io_request (i num : Z) (m : i2c_msg) : request :=
  Request (is_read m) (io_cmd i num) (flags m) (addr m)
    (if is_read m then [] else take (Z.to_nat (m_len m)) (buf m)) (m_len m).
Definition status_request : request := Request true CMD_GET_STATUS 0 0 [] 1.

(** The requests of a whole transfer: the message, then the status. *)
Fixpoint script (msgs : list i2c_msg) (i num : Z) : list request :=
  match msgs with
  | [] => []
  | m :: msgs => io_request i num m :: status_request :: script msgs (i + 1) num
  end.

(** A request that went well: all its bytes, and no NAK when it is a status
    request. *)
Definition good (x : request * (Z * list Z)) : bool :=
  let '(r, (n, bytes)) := x in
  (n =? len r) && negb ((cmd r =? CMD_GET_STATUS) && (nth 0 bytes 0 =? STATUS_ADDRESS_NAK)).

(** The message after a good transfer: a read has the device's bytes. *)
Definition received (m : i2c_msg) (bytes : list Z) : i2c_msg :=
  if is_read m then
    I2cMsg (addr m) (flags m) (m_len m)
      (take (Z.to_nat (m_len m)) bytes ++ drop (length (take (Z.to_nat (m_len m)) bytes)) (buf m))
  else m.
Fixpoint receive (msgs : list i2c_msg) (log : list (request * (Z * list Z))) : list i2c_msg :=
  match msgs, log with
  | m :: msgs, (_, (_, bytes)) :: _ :: log => received m bytes :: receive msgs log
  | _, _ => []
  end.

(** [usb_control_msg] returns an error, or how many bytes it transferred. *)
Definition counts_bytes {D} (ucm : request → D → Z * list Z * D) : Prop :=
  ∀ r d n bytes d', ucm r d = (n, bytes, d') → dir_in r = true → 0 ≤ n → Z.of_nat (length bytes) = n.

(** Only the device and the log of requests differ. *)
Definition only_wire {D} (s s' : tiny D) (new : list (request * (Z * list Z))) : Prop :=
  wire s' = wire s ++ new ∧ kmalloced s' = kmalloced s ∧ refs s' = refs s ∧
  intfdata s' = intfdata s ∧ adapter s' = adapter s.

(** Either the whole script went well, or the transfer stopped at the first
    request that did not. *)
Definition verdict (ret : Z) (msgs msgs' : list i2c_msg) (i num : Z)
    (new : list (request * (Z * list Z))) : Prop :=
  (ret = i + Z.of_nat (length msgs) ∧ new.*1 = script msgs i num ∧ Forall (λ x, good x = true) new ∧
   msgs' = receive msgs new) ∨
  (ret = - EREMOTEIO ∧ new.*1 `prefix_of` script msgs i num ∧
   ∃ pre x, new = pre ++ [x] ∧ Forall (λ x, good x = true) pre ∧ good x = false).

Section proofs.
Context {D : Type}.
Variable ucm : request → D → Z * list Z * D.
Hypothesis Hcount : counts_bytes ucm.

Lemma control_done r s : ∃ n bytes s', control ucm r s = Done (n, bytes) s' ∧
  only_wire s s' [(r, (n, bytes))] ∧ (dir_in r = true → 0 ≤ n → Z.of_nat (length bytes) = n).
Proof.
  unfold control. destruct (ucm r (device s)) as [[n bytes] d] eqn:E. exists n, bytes. eexists.
  split; [reflexivity|]. split; [done|]. by eapply Hcount.
Qed.

Lemma io_cmd_not_status i num : (io_cmd i num =? CMD_GET_STATUS) = false.
Proof. unfold io_cmd. by repeat case_match. Qed.

(** One message, up to its answer. *)
Lemma io_done m i num s : ∃ n bytes s',
  (if negb (Z.land (flags m) I2C_M_RD =? 0) then usb_read ucm (io_cmd i num) (flags m) (addr m) (buf m) (m_len m)
   else r ← usb_write ucm (io_cmd i num) (flags m) (addr m) (buf m) (m_len m); mret (r, buf m)) s =
  Done (n, buf (received m bytes)) s' ∧ only_wire s s' [(io_request i num m, (n, bytes))].
Proof.
  destruct (control_done (io_request i num m) s) as (n & bytes & s' & Hc & Hw & _). exists n, bytes, s'.
  split; [|done]. unfold io_request, received, is_read in *. destruct (negb _).
  - unfold usb_read. by mstep Hc.
  - unfold usb_write. rewrite (bind_done _ _ _ n s'); [done|]. by mstep Hc.
Qed.

Lemma status_done st s : ∃ n bytes s' b, usb_read ucm CMD_GET_STATUS 0 0 [st] 1 s = Done (n, b) s' ∧
  only_wire s s' [(status_request, (n, bytes))] ∧ (n = 1 → nth 0 b 0 = nth 0 bytes 0).
Proof.
  destruct (control_done status_request s) as (n & bytes & s' & Hc & Hw & Hn).
  exists n, bytes, s'. eexists. split; [unfold usb_read; by mstep Hc|]. split; [done|].
  intros ->. specialize (Hn eq_refl ltac:(lia)). by destruct bytes.
Qed.

Lemma only_wire_trans s1 s2 s3 new1 new2 : only_wire s1 s2 new1 → only_wire s2 s3 new2 →
  only_wire (D := D) s1 s3 (new1 ++ new2).
Proof.
  intros (Hw1 & ? & ? & ? & ?) (Hw2 & ? & ? & ? & ?). split_and!; try congruence.
  by rewrite Hw2, Hw1, app_assoc.
Qed.

Lemma stopped msgs i num m pre x ret :
  (pre ++ [x]).*1 `prefix_of` [io_request i num m; status_request] → Forall (λ x, good x = true) pre →
  good x = false → ret = - EREMOTEIO → ∀ msgs', verdict ret (m :: msgs) msgs' i num (pre ++ [x]).
Proof.
  intros Hp Hg Hx -> msgs'. right. split; [done|]. split.
  - cbn [script]. trans [io_request i num m; status_request]; [done|].
    by apply (prefix_app_r _ [io_request i num m; status_request]).
  - by exists pre, x.
Qed.

Lemma xfer_loop_done msgs i num st s : ∃ ret msgs' s' new,
  xfer_loop ucm msgs i num st s = Done (ret, msgs') s' ∧ only_wire s s' new ∧ length msgs' = length msgs ∧
  verdict ret msgs msgs' i num new.
Proof.
  revert i st s. induction msgs as [|m msgs IH]; intros i st s.
  { exists i, [], s, []. split; [done|]. split; [by unfold only_wire; rewrite app_nil_r|]. split; [done|].
    left. cbn. split_and!; [lia|done..]. }
  cbn [xfer_loop]. cbv zeta. destruct (io_done m i num s) as (n & bytes & s1 & Hio & Hw1).
  mstep Hio. cbn [m_len]. assert (Hm : ∀ b, I2cMsg (addr m) (flags m) (m_len m) (buf (received m b)) = received m b).
  { intros b. unfold received. by destruct m, (is_read _). }
  rewrite Hm. destruct (Z.eqb_spec n (m_len m)) as [Hn|Hn]; cbn [negb].
  2: { eexists _, _, s1, _. split; [reflexivity|]. split; [exact Hw1|]. split; [done|].
    apply (stopped msgs i num m []); [by exists [status_request]|done| |done].
    unfold good. cbn [len io_request]. by rewrite (proj2 (Z.eqb_neq _ _) Hn). }
  assert (Hg1 : good (io_request i num m, (n, bytes)) = true).
  { unfold good. cbn [len cmd io_request]. by rewrite io_cmd_not_status, (proj2 (Z.eqb_eq _ _) Hn). }
  destruct (status_done st s1) as (n' & bytes' & s2 & b & Hst & Hw2 & Hb). mstep Hst.
  pose proof (only_wire_trans _ _ _ _ _ Hw1 Hw2) as Hw.
  assert (Hbad : good (status_request, (n', bytes')) = false → verdict (- EREMOTEIO) (m :: msgs)
      (received m bytes :: msgs) i num ([(io_request i num m, (n, bytes))] ++ [(status_request, (n', bytes'))])).
  { intros Hx. by apply stopped; [|constructor| |]. }
  destruct (Z.eqb_spec n' 1) as [->|Hn']; cbn [negb].
  2: { eexists _, _, s2, _. split; [reflexivity|]. split; [exact Hw|]. split; [done|]. apply Hbad.
    unfold good. cbn [len status_request]. by rewrite (proj2 (Z.eqb_neq _ _) Hn'). }
  rewrite (Hb eq_refl). destruct (nth 0 bytes' 0 =? STATUS_ADDRESS_NAK) eqn:Hnak.
  { eexists _, _, s2, _. split; [reflexivity|]. split; [exact Hw|]. split; [done|]. apply Hbad.
    unfold good. cbn [len cmd status_request]. by rewrite Hnak. }
  destruct (IH (i + 1) (nth 0 bytes' 0) s2) as (ret & msgs' & s3 & new & Hl & Hw3 & Hlen & Hv). mstep Hl.
  eexists _, _, s3, _. split; [reflexivity|]. split; [exact (only_wire_trans _ _ _ _ _ Hw Hw3)|].
  split; [cbn; by rewrite Hlen|].
  assert (Hg2 : good (status_request, (1, bytes')) = true) by (unfold good; cbn [len cmd status_request]; by rewrite Hnak).
  destruct Hv as [(-> & Hs & Hg & ->)|(-> & Hp & pre & x & -> & Hg & Hx)].
  - left. split_and!; [cbn [length]; lia|cbn; by rewrite Hs|by repeat constructor|done].
  - right. split; [done|]. split.
    + cbn. by do 2 apply prefix_cons.
    + exists ((io_request i num m, (n, bytes)) :: (status_request, (1, bytes')) :: pre), x.
      split_and!; [done|by repeat constructor|done].
Qed.
End proofs.

(** The transfer protocol.  Whatever the device answers, a transfer ends
    and gives back its memory.  Without memory nothing is sent and the result
    is [-ENOMEM].  Otherwise the requests on the wire are those of the script,
    each message followed by a status request, with the begin flag on the
    first and the end flag on the last message: either all of them, all
    answered in full and without a NAK, and then the result is the number of
    messages and the read messages hold the device's bytes; or those up to the
    first that failed, and then the result is [-EREMOTEIO]. *)
Theorem usb_xfer_protocol {D} (ucm : request → D → Z * list Z * D) (Hcount : counts_bytes ucm)
    mem garbage msgs s :
  if mem : bool then ∃ ret msgs' s' new, usb_xfer ucm mem garbage msgs s = Done (ret, msgs') s' ∧
    only_wire s s' new ∧ length msgs' = length msgs ∧ verdict ret msgs msgs' 0 (Z.of_nat (length msgs)) new
  else usb_xfer ucm mem garbage msgs s = Done (- ENOMEM, msgs) s.
Proof.
  destruct mem; [|done]. unfold usb_xfer, kmalloc. set (s0 := set_kmalloced (kmalloced s + 1) s).
  rewrite (bind_done _ _ s true s0) by done. cbn [negb].
  destruct (xfer_loop_done ucm Hcount msgs 0 (Z.of_nat (length msgs)) garbage s0)
    as (ret & msgs' & s' & new & Hl & (Hw & Hk & Hrest) & Hlen & Hv).
  mstep Hl. unfold kfree. msimpl. eexists _, _, _, new. split; [reflexivity|]. split; [|done].
  split; [exact Hw|]. split; [|exact Hrest]. cbn in *. lia.
Qed.

(** ** A device that comes and goes *)
Inductive use := Xfer (mem : bool) (garbage : Z) (msgs : list i2c_msg) | Func (mem : bool) (garbage : list Z).

Section uses.
Context {D : Type}.
Variable ucm : request → D → Z * list Z * D.

Definition use_device (u : use) : M (tiny D) unit :=
  match u with
  | Xfer mem garbage msgs => usb_xfer ucm mem garbage msgs;; mret ()
  | Func mem garbage => usb_func ucm mem garbage;; mret ()
  end.
Fixpoint use_all (us : list use) : M (tiny D) unit :=
  match us with [] => mret () | u :: us => use_device u;; use_all us end.

(** The memory, references and registrations of the driver. *)
Definition holdings (s : tiny D) : Z * Z * bool * bool := (kmalloced s, refs s, intfdata s, adapter s).

Lemma control_holdings r s : ∃ a s', control ucm r s = Done a s' ∧ holdings s' = holdings s.
Proof. unfold control. destruct (ucm r (device s)) as [[n bytes] d]. by eexists _, _. Qed.

Lemma usb_read_holdings c v i b n s : ∃ a s', usb_read ucm c v i b n s = Done a s' ∧ holdings s' = holdings s.
Proof.
  unfold usb_read. destruct (control_holdings (Request true c v i [] n) s) as ([r bytes] & s' & Hc & Hs).
  mstep Hc. by eexists _, _.
Qed.
Lemma usb_write_holdings c v i b n s : ∃ a s', usb_write ucm c v i b n s = Done a s' ∧ holdings s' = holdings s.
Proof.
  unfold usb_write. destruct (control_holdings (Request false c v i (take (Z.to_nat n) b) n) s)
    as ([r bytes] & s' & Hc & Hs). mstep Hc. by eexists _, _.
Qed.

Lemma xfer_loop_holdings msgs i num st s : ∃ a s', xfer_loop ucm msgs i num st s = Done a s' ∧ holdings s' = holdings s.
Proof.
  revert i st s. induction msgs as [|m msgs IH]; intros i st s; [by eexists _, _|]. cbn [xfer_loop]. cbv zeta.
  assert (Hio : ∃ a s', (if negb (Z.land (flags m) I2C_M_RD =? 0)
    then usb_read ucm (io_cmd i num) (flags m) (addr m) (buf m) (m_len m)
    else r ← usb_write ucm (io_cmd i num) (flags m) (addr m) (buf m) (m_len m); mret (r, buf m)) s = Done a s' ∧
    holdings s' = holdings s).
  { destruct (negb _); [apply usb_read_holdings|].
    destruct (usb_write_holdings (io_cmd i num) (flags m) (addr m) (buf m) (m_len m) s) as (r & s' & Hw & Hs).
    mstep Hw. by eexists _, _. }
  destruct Hio as ([r b] & s1 & Hio & H1). mstep Hio. cbn [m_len].
  destruct (negb (r =? m_len m)); [by eexists _, _|].
  destruct (usb_read_holdings CMD_GET_STATUS 0 0 [st] 1 s1) as ([r' b'] & s2 & Hst & H2). mstep Hst.
  rewrite <- H1, <- H2. destruct (negb (r' =? 1)); [by eexists _, _|]. destruct (_ =? STATUS_ADDRESS_NAK); [by eexists _, _|].
  destruct (IH (i + 1) (nth 0 b' 0) s2) as ([ret done] & s3 & Hl & H3). mstep Hl. by eexists _, _.
Qed.

(** A computation between an allocation and its release changes no holdings. *)
Lemma alloc_free {A B} (mem : bool) (c : M (tiny D) A) (k : A → B) (fail : B) s :
  (∀ s0, ∃ a s', c s0 = Done a s' ∧ holdings s' = holdings s0) →
  ∃ b s', (ok ← kmalloc mem; if negb ok then mret fail else a ← c; kfree;; mret (k a)) s = Done b s' ∧
    holdings s' = holdings s.
Proof.
  intros Hc. destruct mem; [|by eexists _, _]. unfold kmalloc.
  rewrite (bind_done _ _ s true (set_kmalloced (kmalloced s + 1) s)) by done. cbn [negb].
  destruct (Hc (set_kmalloced (kmalloced s + 1) s)) as (a & s' & Ha & Hs). mstep Ha. unfold kfree. msimpl.
  eexists _, _. split; [reflexivity|]. unfold holdings in *. cbn in *. injection Hs as Hk Hr Hi Had.
  rewrite Hr, Hi, Had. repeat f_equal. lia.
Qed.

Lemma use_device_holdings u s : ∃ s', use_device u s = Done () s' ∧ holdings s' = holdings s.
Proof.
  destruct u as [mem garbage msgs|mem garbage]; cbn [use_device].
  - destruct (alloc_free mem (xfer_loop ucm msgs 0 (Z.of_nat (length msgs)) garbage) (λ a, (fst a, snd a))
      (- ENOMEM, msgs) s) as (b & s' & Hx & Hs); [intros; apply xfer_loop_holdings|].
    exists s'. split; [|done]. rewrite (bind_done _ _ s b s'); [done|]. rewrite <- Hx. unfold usb_xfer.
    unfold mbind, M_bind. repeat (case_match; try done).
  - destruct (alloc_free mem (usb_read ucm CMD_GET_FUNC 0 0 garbage 4)
      (λ a, if negb (fst a =? 4) then 0 else le32 (snd a)) 0 s) as (b & s' & Hx & Hs); [intros; apply usb_read_holdings|].
    exists s'. split; [|done]. rewrite (bind_done _ _ s b s'); [done|]. rewrite <- Hx. unfold usb_func.
    unfold mbind, M_bind. repeat (case_match; try done).
Qed.

Lemma use_all_holdings us s : ∃ s', use_all us s = Done () s' ∧ holdings s' = holdings s.
Proof.
  revert s. induction us as [|u us IH]; intros s; [by eexists|]. cbn [use_all].
  destruct (use_device_holdings u s) as (s1 & Hu & H1). mstep Hu.
  destruct (IH s1) as (s2 & Hus & H2). exists s2. split; [done|congruence].
Qed.
End uses.

(** C6: what a probe leaves behind.  A probe ends; when it fails, for want of
    memory or because the device refuses the delay, the driver holds no memory
    and no reference more than before and has registered no adapter.  For want
    of memory it has not touched the interface either; after a refused delay
    the interface's data pointer stays set, although the device it points at
    has been freed.  When the probe succeeds, then after any use of the device,
    whatever it answers, the removal gives back the memory and the reference
    and leaves neither the adapter nor the interface's data pointer. *)
Theorem probe_use_disconnect {D} (ucm : request → D → Z * list Z * D) mem add_ok delay us s :
  ∃ r s1, i2c_tiny_usb_probe ucm mem add_ok delay s = Done r s1 ∧
    (r ≠ 0 → (r = - ENOMEM ∧ s1 = s ∨ r = - EIO ∧ intfdata s1 = true) ∧
       kmalloced s1 = kmalloced s ∧ refs s1 = refs s ∧ adapter s1 = adapter s) ∧
    (r = 0 → adapter s1 = add_ok ∧ ∃ s2, (use_all ucm us;; i2c_tiny_usb_disconnect) s1 = Done () s2 ∧
      holdings s2 = (kmalloced s, refs s, false, false)).
Proof.
  unfold i2c_tiny_usb_probe. destruct mem; [|by eexists _, s; split; [reflexivity|]; split; [naive_solver|]].
  unfold kmalloc. rewrite (bind_done _ _ s true (set_kmalloced (kmalloced s + 1) s)) by done. cbn [negb]. msimpl.
  set (s0 := set_intfdata true _).
  destruct (usb_write_holdings ucm CMD_SET_DELAY delay 0 [] 0 s0) as (r & s1 & Hw & H1). mstep Hw.
  injection H1 as Hk Hr Hi Ha. cbn in Hk, Hr, Hi, Ha. destruct (negb (r =? 0)).
  - unfold i2c_tiny_usb_free, kfree. msimpl. eexists _, _. split; [reflexivity|]. cbn. split; [|done].
    intros _. split_and!; [by right|lia|lia|done].
  - msimpl. eexists _, _. split; [reflexivity|]. split; [done|]. intros _. split; [done|].
    destruct (use_all_holdings ucm us (set_adapter add_ok s1)) as (s2 & Hu & H2). mstep Hu.
    injection H2 as Hk2 Hr2 Hi2 Ha2. unfold i2c_tiny_usb_disconnect, i2c_tiny_usb_free, kfree. msimpl.
    eexists. split; [reflexivity|]. unfold holdings. cbn in *. rewrite Hk2, Hr2, Hk, Hr. repeat f_equal; lia.
Qed.

(** ** Example: a device that acknowledges address 0x50 only *)
Definition ex_device (r : request) (last : Z) : Z * list Z * Z :=
  if cmd r =? CMD_GET_STATUS then
    (1, [if last =? 0x50 then STATUS_ADDRESS_ACK else STATUS_ADDRESS_NAK], last)
  else (Z.max 0 (len r), replicate (Z.to_nat (len r)) 0xab, index r).
Definition ex_tiny : tiny Z := Tiny 0 [] 0 0 true true.

Lemma ex_device_counts : counts_bytes ex_device.
Proof.
  intros r d n bytes d'. unfold ex_device. case_match; intros [= <- <- <-] _ Hn; [done|].
  rewrite length_replicate. lia.
Qed.

Lemma usb_xfer_protocol_witness : ∃ s' new,
  usb_xfer ex_device true 0 [I2cMsg 0x50 0 1 [7]; I2cMsg 0x50 I2C_M_RD 2 [0; 0]] ex_tiny =
    Done (2, [I2cMsg 0x50 0 1 [7]; I2cMsg 0x50 I2C_M_RD 2 [0xab; 0xab]]) s' ∧ only_wire ex_tiny s' new ∧
  (new.*1 = script [I2cMsg 0x50 0 1 [7]; I2cMsg 0x50 I2C_M_RD 2 [0; 0]] 0 2).
Proof.
  destruct (usb_xfer_protocol ex_device ex_device_counts true 0
    [I2cMsg 0x50 0 1 [7]; I2cMsg 0x50 I2C_M_RD 2 [0; 0]] ex_tiny) as (ret & msgs' & s' & new & Hx & Hw & _ & Hv).
  vm_compute in Hx. injection Hx as <- <- <-. eexists _, new. split; [vm_compute; reflexivity|]. split; [exact Hw|].
  destruct Hv as [(_ & H & _)|(H & _)]; [exact H|]. vm_compute in H. discriminate H.
Defined.
