(* ===== verification/Osccal.v ===== *)
(** * Calibration of the ATtiny85's RC oscillator

    [calibrateOscillator], the same function in
    [src/sources/firmware/attiny85-hid/main.c] and
    [src/sources/firmware/attiny85-hid-rotary/main.c]: a binary search over the
    8-bit register OSCCAL, then a look at the two neighbours.  The state is the
    register; how long a USB frame is at a register value,
    [usbMeasureFrameLength], is the hardware's part and a parameter. *)

From stdpp Require Import base list.
From Stdlib Require Import ZArith Lia.
From S2P Require Import Prelude.

(** [int] has 16 bits on this processor. *)
Definition int16 (z : Z) : Z := (z + 32768) mod 65536 - 32768.

(** [(unsigned)(1499 * (double)F_CPU / 10.5e6 + 0.5)] with [F_CPU] 16500000. *)
Definition targetValue : Z := (1499 * 16500000 + 5250000) / 10500000.

Section osccal.
Variable usbMeasureFrameLength : Z → Z.

Fixpoint search_loop (fuel : nat) (trialValue step : Z) : M Z (Z * Z) :=
  match fuel with
  | O => out_of_fuel
  | S fuel =>
      modify (λ _, u8 (trialValue + step));;
      OSCCAL ← gets id;
      let x := int16 (usbMeasureFrameLength OSCCAL) in
      let trialValue := if x <? targetValue then u8 (trialValue + step) else trialValue in
      let step := Z.shiftr step 1 in
      if 0 <? step then search_loop fuel trialValue step else mret (trialValue, x)
  end.

Fixpoint near_loop (fuel : nat) (trialValue optimumValue optimumDev : Z) : M Z Z :=
  match fuel with
  | O => out_of_fuel
  | S fuel =>
      OSCCAL ← gets id;
      if OSCCAL <=? trialValue + 1 then
        let x := int16 (usbMeasureFrameLength OSCCAL - targetValue) in
        let x := if x <? 0 then - x else x in
        let '(optimumValue, optimumDev) :=
          if x <? optimumDev then (OSCCAL, x) else (optimumValue, optimumDev) in
        modify (λ o, u8 (o + 1));; near_loop fuel trialValue optimumValue optimumDev
      else mret optimumValue
  end.

Definition calibrateOscillator (fuel : nat) : M Z unit :=
  '(trialValue, x) ← search_loop fuel 0 128;
  modify (λ _, u8 (trialValue - 1));;
  optimumValue ← near_loop fuel trialValue trialValue x;
  modify (λ _, optimumValue).

End osccal.

(** ** What it finds *)
Definition dev (m : Z → Z) (v : Z) : Z := Z.abs (m v - targetValue).

Lemma int16_small z : -32768 ≤ z < 32768 → int16 z = z.
Proof. intros. unfold int16. rewrite Z.mod_small; lia. Qed.

Lemma target_is : targetValue = 2356.
Proof. reflexivity. Qed.

Definition pick (m : Z → Z) (best : Z * Z) (v : Z) : Z * Z :=
  if dev m v <? snd best then (v, dev m v) else best.

(** The best of three candidates, when the start is worse than one of them. *)
Lemma pick_best m best a b c : dev m b < snd best →
  let r := foldl (pick m) best [a; b; c] in
  (fst r = a ∨ fst r = b ∨ fst r = c) ∧
  dev m (fst r) ≤ dev m a ∧ dev m (fst r) ≤ dev m b ∧ dev m (fst r) ≤ dev m c.
Proof.
  destruct best as [v d]. simpl. intros Hb. unfold pick. simpl.
  repeat (case_match; simpl in *); lia.
Qed.

Section run.
Variable m : Z → Z.
Hypothesis Hrange : ∀ v, 0 ≤ v < 256 → 0 ≤ m v < 32768.

Lemma search_step fuel t st o : 0 ≤ t → 0 ≤ st → t + st < 256 → search_loop m (S fuel) t st o =
  (let t' := if m (t + st) <? targetValue then t + st else t in
   if 0 <? Z.shiftr st 1 then search_loop m fuel t' (Z.shiftr st 1) (t + st)
   else Done (t', m (t + st)) (t + st)).
Proof.
  intros. cbn [search_loop]. msimpl. unfold id. rewrite u8_small by lia.
  rewrite int16_small by (pose proof (Hrange (t + st)); lia). cbv zeta.
  by destruct (0 <? Z.shiftr st 1).
Qed.

(** What the search knows at the end: in the half [h .. h+127] of the register
    it searched, [t] is too slow (or is 0) and everything above it is fast
    enough; [x] is the last measurement. *)
Definition found (h t x : Z) : Prop :=
  h ≤ t < h + 128 ∧ (m t < targetValue ∨ t = 0) ∧ (∀ v, t < v < h + 128 → targetValue ≤ m v) ∧
  ((x = m t ∧ x < targetValue) ∨ (x = m (t + 1) ∧ targetValue ≤ x ∧ t + 1 < h + 128)).

Lemma search_half h k fuel t o : h = 0 ∨ h = 128 →
  (∀ a b, h ≤ a ≤ b → b < h + 128 → m a ≤ m b) →
  (k < fuel)%nat → h ≤ t → t + 2 * 2 ^ Z.of_nat k ≤ h + 128 → (m t < targetValue ∨ t = 0) →
  (∀ v, t + 2 * 2 ^ Z.of_nat k ≤ v < h + 128 → targetValue ≤ m v) →
  ∃ t' x o', search_loop m fuel t (2 ^ Z.of_nat k) o = Done (t', x) o' ∧ found h t' x.
Proof.
  intros Hh Hmono. revert fuel t o. induction k as [|k IH]; intros fuel t o Hf Ht Hend Hlow Hhigh;
    (destruct fuel as [|fuel]; [lia|]).
  - change (2 ^ Z.of_nat 0) with 1 in *. rewrite search_step by lia. cbn.
    eexists _, _, _. split; [reflexivity|]. unfold found. destruct (Z.ltb_spec (m (t + 1)) targetValue).
    + split_and!; [lia..|left; lia| |left; done]. intros v Hv. apply Hhigh. lia.
    + split_and!; [lia..|done| |right; lia]. intros v Hv.
      destruct (decide (v = t + 1)) as [->|]; [done|]. apply Hhigh. lia.
  - rewrite Nat2Z.inj_succ, Z.pow_succ_r in * by lia. set (p := 2 ^ Z.of_nat k) in *.
    assert (Hp : 0 < p) by (apply Z.pow_pos_nonneg; lia).
    assert (Hsh : Z.shiftr (2 * p) 1 = p) by (rewrite Z.shiftr_div_pow2, Z.mul_comm by lia; apply Z.div_mul; lia).
    rewrite search_step by lia. rewrite Hsh. cbv zeta.
    rewrite (proj2 (Z.ltb_lt 0 p)) by lia. destruct (Z.ltb_spec (m (t + 2 * p)) targetValue).
    + apply IH; [lia..|by left|]. intros v Hv. apply Hhigh. lia.
    + apply IH; [lia..|done|]. intros v Hv. destruct (decide (v < t + 2 * (2 * p))); [|apply Hhigh; lia].
      pose proof (Hmono (t + 2 * p) v ltac:(lia) ltac:(lia)). lia.
Qed.

Lemma near_step fuel t ov od o : 0 ≤ o < 255 → near_loop m (S fuel) t ov od o =
  if o <=? t + 1 then near_loop m fuel t (fst (pick m (ov, od) o)) (snd (pick m (ov, od) o)) (o + 1)
  else Done ov o.
Proof.
  intros Ho. cbn [near_loop]. msimpl. unfold id. case_match; [|done].
  pose proof (Hrange o ltac:(lia)) as Hm. rewrite int16_small by (rewrite target_is; lia).
  replace (if m o - targetValue <? 0 then _ else _) with (dev m o)
    by (unfold dev; destruct (Z.ltb_spec (m o - targetValue) 0); lia).
  unfold pick. cbn [snd fst]. destruct (dev m o <? od); msimpl; by rewrite u8_small by lia.
Qed.

Lemma near_three fuel t x : (4 ≤ fuel)%nat → 1 ≤ t ≤ 253 →
  near_loop m fuel t t x (t - 1) = Done (fst (foldl (pick m) (t, x) [t - 1; t; t + 1])) (t + 2).
Proof.
  intros Hf Ht. do 4 (destruct fuel as [|fuel]; [lia|]).
  rewrite near_step by lia. rewrite (proj2 (Z.leb_le _ _)) by lia. replace (t - 1 + 1) with t by lia.
  rewrite near_step by lia. rewrite (proj2 (Z.leb_le _ _)) by lia.
  rewrite near_step by (destruct (decide (t = 253)); lia). rewrite (proj2 (Z.leb_le _ _)) by lia.
  replace (t + 1 + 1) with (t + 2) by lia. destruct (decide (t + 2 = 255)) as [He|].
  - rewrite He. cbn [near_loop]. msimpl. unfold id. rewrite (proj2 (Z.leb_gt _ _)) by lia. cbn [foldl].
    by rewrite <- !surjective_pairing.
  - rewrite near_step by lia. rewrite (proj2 (Z.leb_gt _ _)) by lia. cbn [foldl].
    by rewrite <- !surjective_pairing.
Qed.

Lemma near_for_ever fuel t ov od o : 254 ≤ t → 0 ≤ o < 256 → near_loop m fuel t ov od o = OutOfFuel.
Proof.
  intros Ht. revert ov od o. induction fuel as [|fuel IH]; intros ov od o Ho; [done|].
  cbn [near_loop]. msimpl. unfold id. rewrite (proj2 (Z.leb_le _ _)) by lia. cbv zeta.
  destruct (_ <? od); msimpl; apply IH, u8_range.
Qed.
End run.

(** What the oscillator promises: a frame is counted in an [int], and within
    each half of OSCCAL (bit 7 selects the range) a larger value is not
    slower.  Nothing relates the two halves. *)
Record oscillator (m : Z → Z) : Prop := Oscillator {
  frame_range : ∀ v, 0 ≤ v < 256 → 0 ≤ m v < 32768;
  frame_mono : ∀ h, h = 0 ∨ h = 128 → ∀ a b, h ≤ a ≤ b → b < h + 128 → m a ≤ m b
}.

(** The half the first measurement selects. *)
Definition half (m : Z → Z) : Z := if m 128 <? targetValue then 128 else 0.

Lemma half_cases m : half m = 0 ∨ half m = 128.
Proof. unfold half. case_match; lia. Qed.

Lemma calibration_search_done m fuel o : oscillator m → (8 ≤ fuel)%nat →
  ∃ t x o', search_loop m fuel 0 128 o = Done (t, x) o' ∧ found m (half m) t x.
Proof.
  intros [Hr Hm] Hf. destruct fuel as [|fuel]; [lia|]. rewrite (search_step m Hr) by lia.
  change (0 + 128) with 128. change (Z.shiftr 128 1) with 64. change (0 <? 64) with true. cbv zeta iota.
  unfold half. destruct (Z.ltb_spec (m 128) targetValue).
  - apply (search_half m Hr 128 6); [lia | exact (Hm 128 (or_intror eq_refl)) | lia | lia | done | by left |]. cbn. lia.
  - apply (search_half m Hr 0 6); [lia | exact (Hm 0 (or_introl eq_refl)) | lia | lia | done | by right |]. cbn. lia.
Qed.

(** Where OSCCAL ends.  For an oscillator that gets no slower as OSCCAL
    grows within either half of its range, and whose speed allows the target
    to be bracketed (too slow at 1, fast enough at 254, never below half the
    target), the calibration ends and leaves in OSCCAL a value whose frame
    length is at least as near to the target as that of every value of the
    half the search went into. *)
Theorem calibrate_finds_best m fuel o (Hosc : oscillator m) (Hfuel : (8 ≤ fuel)%nat)
    (Hslow : m 1 < targetValue) (Hfast : targetValue ≤ m 254)
    (Hspan : ∀ v, 1 ≤ v < 256 → targetValue < 2 * m v) :
  ∃ v, calibrateOscillator m fuel o = Done () v ∧ 0 ≤ v < 256 ∧
    ∀ u, half m ≤ u < half m + 128 → dev m v ≤ dev m u.
Proof.
  destruct (calibration_search_done m fuel o Hosc Hfuel) as (t & x & o' & Hs & Hh & Hlow & Hhigh & Hx).
  destruct Hosc as [Hr Hm]. pose proof (half_cases m) as Hcase.
  assert (Ht : 1 ≤ t ≤ 253).
  { destruct Hcase as [E|E]; rewrite E in *.
    - destruct (decide (t = 0)) as [->|]; [|lia]. specialize (Hhigh 1). lia.
    - destruct (decide (t < 254)); [lia|]. pose proof (Hm 128 ltac:(lia) 254 t). lia. }
  assert (Hdev : dev m t < x).
  { unfold dev. specialize (Hspan t). pose proof (Hr t). destruct Hx as [[-> ?]|(-> & ? & ?)]; lia. }
  unfold calibrateOscillator. mstep Hs. msimpl. rewrite u8_small by lia.
  mstep (near_three m Hr fuel t x ltac:(lia) Ht).
  destruct (pick_best m (t, x) (t - 1) t (t + 1) Hdev) as (Hv & Ha & Hb & Hc).
  set (r := foldl (pick m) (t, x) [t - 1; t; t + 1]) in *.
  exists (fst r). split_and!; [done|lia..|]. intros u Hu.
  destruct (decide (u ≤ t)).
  - (* slower than the value found, which is too slow *)
    pose proof (Hm _ Hcase u t ltac:(lia) ltac:(lia)). unfold dev in *. lia.
  - pose proof (Hm _ Hcase (t + 1) u ltac:(lia) ltac:(lia)). pose proof (Hhigh (t + 1)). unfold dev in *. lia.
Qed.

(** An oscillator that is too slow at 254 hangs the device: the search
    ends at 254 or 255, and as OSCCAL is 8 bits wide the loop condition
    [OSCCAL <= trialValue + 1] never becomes false, so no number of rounds is
    enough. *)
Theorem calibrate_hangs m fuel o (Hosc : oscillator m) (Hslow : m 254 < targetValue) :
  calibrateOscillator m fuel o = OutOfFuel.
Proof.
  assert (Hhalf : half m = 128).
  { unfold half. pose proof (frame_mono m Hosc 128 ltac:(lia) 128 254 ltac:(lia) ltac:(lia)).
    rewrite (proj2 (Z.ltb_lt _ _)); lia. }
  destruct (decide (8 ≤ fuel)%nat) as [Hf|Hf].
  - destruct (calibration_search_done m fuel o Hosc Hf) as (t & x & o' & Hs & Hh & Hlow & Hhigh & _).
    rewrite Hhalf in *. assert (254 ≤ t).
    { destruct (decide (254 ≤ t)); [done|]. specialize (Hhigh 254). lia. }
    unfold calibrateOscillator. mstep Hs. msimpl. unfold mbind, M_bind.
    by rewrite near_for_ever by (lia || apply u8_range).
  - unfold calibrateOscillator, mbind, M_bind.
    assert (Hs : ∀ n k t o, (n ≤ k)%nat → search_loop m n t (2 ^ Z.of_nat k) o = OutOfFuel).
    { clear. intros n. induction n as [|n IH]; intros k t o Hk; [done|].
      destruct k as [|k]; [lia|]. cbn [search_loop]. msimpl. cbv zeta.
      rewrite Nat2Z.inj_succ, Z.pow_succ_r, Z.shiftr_div_pow2, Z.mul_comm, Z.div_mul by lia.
      rewrite (proj2 (Z.ltb_lt 0 _)) by (apply Z.pow_pos_nonneg; lia). apply IH. lia. }
    change 128 with (2 ^ Z.of_nat 7). rewrite Hs by lia. done.
Qed.

(** ** Examples: an oscillator of which 100 is the best value, and a slow one *)
Definition ex_osc (v : Z) : Z := 1956 + 4 * v + (if v <? 128 then 0 else 200).
Definition slow_osc (v : Z) : Z := 1500 + v.

Lemma ex_osc_ok : oscillator ex_osc.
Proof. split; unfold ex_osc; intros; repeat case_match; lia. Qed.
Lemma slow_osc_ok : oscillator slow_osc.
Proof. split; unfold slow_osc; intros; lia. Qed.

Lemma calibrate_finds_best_witness : ∃ v, calibrateOscillator ex_osc 8 0 = Done () v ∧ dev ex_osc v = 0.
Proof.
  destruct (calibrate_finds_best ex_osc 8 0 ex_osc_ok (le_n 8) eq_refl ltac:(vm_compute; discriminate))
    as (v & Hc & Hv & Hbest).
  - intros v Hv. unfold ex_osc. rewrite target_is. case_match; lia.
  - exists v. split; [exact Hc|]. specialize (Hbest 100 ltac:(vm_compute; split; [discriminate|reflexivity])).
    change (dev ex_osc 100) with 0 in Hbest. unfold dev in *. lia.
Defined.

Lemma calibrate_hangs_witness : calibrateOscillator slow_osc 1000 0 = OutOfFuel.
Proof. exact (calibrate_hangs slow_osc 1000 0 slow_osc_ok eq_refl). Defined.
