(* ===== verification/HidKeys.v ===== *)
(** * attiny85-hid: a four-key USB keyboard

    The firmware [src/sources/firmware/attiny85-hid/main.c]: sampling the four
    buttons, debouncing, building the 8-byte keyboard report and handing it to
    the USB driver.  The theorems: every report the host gets is exactly the
    state of the debounced buttons, when a report is sent, and how long the
    buttons are not looked at after a change. *)

From stdpp Require Import base list.
From Stdlib Require Import ZArith Lia.
From S2P Require Import Prelude Osccal.

Definition PB0 : Z := 0.
Definition PB1 : Z := 1.
Definition PB2 : Z := 2.
Definition PB5 : Z := 5.
Definition BUTTON_BIT_B1 : Z := PB0.
Definition BUTTON_BIT_B2 : Z := PB1.
Definition BUTTON_BIT_B3 : Z := PB2.
Definition BUTTON_BIT_B4 : Z := PB5.
Definition KEY_UP_ARROW : Z := 0x52.
Definition KEY_DN_ARROW : Z := 0x51.
Definition KEY_ENTER : Z := 0x28.
Definition KEY_ESCAPE : Z := 0x29.
Definition USBRQ_TYPE_MASK : Z := 0x60.
Definition USBRQ_TYPE_CLASS : Z := 0x20.
Definition USBRQ_HID_GET_REPORT : Z := 0x01.
Definition USBRQ_HID_GET_IDLE : Z := 0x02.
Definition USBRQ_HID_SET_IDLE : Z := 0x0a.

(** [_BV] and [bit_is_set] of avr-libc: the bit, not 0 or 1. *)
Definition BV (bit : Z) : Z := Z.shiftl 1 bit.
Definition bit_is_set (sfr bit : Z) : Z := Z.land sfr (BV bit).

(** [buttonState_Bn] and [buttonChanged_Bn]. *)
Record button := Button { buttonState : Z; buttonChanged : Z }.

Inductive msg := ReportBuffer | IdleRate.

(** The static variables, the registers the code writes, how long it waited
    before connecting, and what it gave to [usbSetInterrupt]. *)
Record hid := Hid {
  reportBuffer : list Z;
  idleRate : Z;
  newReport : Z;
  B1 : button; B2 : button; B3 : button; B4 : button;
  debounceTimeIsOver : Z;
  timerCnt : Z;
  usbMsgPtr : option msg;
  OSCCAL : Z; PORTB : Z; TCCR1 : Z;
  waited_ms : Z;
  sent : list (list Z)
}.
Definition set_reportBuffer v h := Hid v (idleRate h) (newReport h) (B1 h) (B2 h) (B3 h) (B4 h) (debounceTimeIsOver h) (timerCnt h) (usbMsgPtr h) (OSCCAL h) (PORTB h) (TCCR1 h) (waited_ms h) (sent h).
Definition set_idleRate v h := Hid (reportBuffer h) v (newReport h) (B1 h) (B2 h) (B3 h) (B4 h) (debounceTimeIsOver h) (timerCnt h) (usbMsgPtr h) (OSCCAL h) (PORTB h) (TCCR1 h) (waited_ms h) (sent h).
Definition set_newReport v h := Hid (reportBuffer h) (idleRate h) v (B1 h) (B2 h) (B3 h) (B4 h) (debounceTimeIsOver h) (timerCnt h) (usbMsgPtr h) (OSCCAL h) (PORTB h) (TCCR1 h) (waited_ms h) (sent h).
Definition set_B1 v h := Hid (reportBuffer h) (idleRate h) (newReport h) v (B2 h) (B3 h) (B4 h) (debounceTimeIsOver h) (timerCnt h) (usbMsgPtr h) (OSCCAL h) (PORTB h) (TCCR1 h) (waited_ms h) (sent h).
Definition set_B2 v h := Hid (reportBuffer h) (idleRate h) (newReport h) (B1 h) v (B3 h) (B4 h) (debounceTimeIsOver h) (timerCnt h) (usbMsgPtr h) (OSCCAL h) (PORTB h) (TCCR1 h) (waited_ms h) (sent h).
Definition set_B3 v h := Hid (reportBuffer h) (idleRate h) (newReport h) (B1 h) (B2 h) v (B4 h) (debounceTimeIsOver h) (timerCnt h) (usbMsgPtr h) (OSCCAL h) (PORTB h) (TCCR1 h) (waited_ms h) (sent h).
Definition set_B4 v h := Hid (reportBuffer h) (idleRate h) (newReport h) (B1 h) (B2 h) (B3 h) v (debounceTimeIsOver h) (timerCnt h) (usbMsgPtr h) (OSCCAL h) (PORTB h) (TCCR1 h) (waited_ms h) (sent h).
Definition set_debounce v h := Hid (reportBuffer h) (idleRate h) (newReport h) (B1 h) (B2 h) (B3 h) (B4 h) v (timerCnt h) (usbMsgPtr h) (OSCCAL h) (PORTB h) (TCCR1 h) (waited_ms h) (sent h).
Definition set_timerCnt v h := Hid (reportBuffer h) (idleRate h) (newReport h) (B1 h) (B2 h) (B3 h) (B4 h) (debounceTimeIsOver h) v (usbMsgPtr h) (OSCCAL h) (PORTB h) (TCCR1 h) (waited_ms h) (sent h).
Definition set_usbMsgPtr v h := Hid (reportBuffer h) (idleRate h) (newReport h) (B1 h) (B2 h) (B3 h) (B4 h) (debounceTimeIsOver h) (timerCnt h) v (OSCCAL h) (PORTB h) (TCCR1 h) (waited_ms h) (sent h).
Definition set_OSCCAL v h := Hid (reportBuffer h) (idleRate h) (newReport h) (B1 h) (B2 h) (B3 h) (B4 h) (debounceTimeIsOver h) (timerCnt h) (usbMsgPtr h) v (PORTB h) (TCCR1 h) (waited_ms h) (sent h).
Definition set_PORTB v h := Hid (reportBuffer h) (idleRate h) (newReport h) (B1 h) (B2 h) (B3 h) (B4 h) (debounceTimeIsOver h) (timerCnt h) (usbMsgPtr h) (OSCCAL h) v (TCCR1 h) (waited_ms h) (sent h).
Definition set_TCCR1 v h := Hid (reportBuffer h) (idleRate h) (newReport h) (B1 h) (B2 h) (B3 h) (B4 h) (debounceTimeIsOver h) (timerCnt h) (usbMsgPtr h) (OSCCAL h) (PORTB h) v (waited_ms h) (sent h).
Definition set_waited_ms v h := Hid (reportBuffer h) (idleRate h) (newReport h) (B1 h) (B2 h) (B3 h) (B4 h) (debounceTimeIsOver h) (timerCnt h) (usbMsgPtr h) (OSCCAL h) (PORTB h) (TCCR1 h) v (sent h).
Definition set_sent v h := Hid (reportBuffer h) (idleRate h) (newReport h) (B1 h) (B2 h) (B3 h) (B4 h) (debounceTimeIsOver h) (timerCnt h) (usbMsgPtr h) (OSCCAL h) (PORTB h) (TCCR1 h) (waited_ms h) v.

(** The values at reset; [OSCCAL] is the factory calibration. *)
Definition reset_hid (osc : Z) : hid :=
  Hid [0; 0; 0; 0; 0; 0; 0; 0] 0 0 (Button 3 0) (Button 3 0) (Button 3 0) (Button 3 0) 1 0 None osc 0 0 0 [].

(** ** The functions *)

(** [tov1] is the overflow flag of timer 1 at the call. *)
Definition timerPoll (tov1 : bool) (h : hid) : hid :=
  if tov1 then
    let h := set_timerCnt (u16 (timerCnt h + 1)) h in
    if 5 <=? timerCnt h then set_debounce 1 (set_timerCnt 0 h) else h
  else h.

(** One of the four blocks of [buildReport]. *)
Definition build_key (get : hid → button) (set : button → hid → hid) (slot : nat) (KEY : Z) (h : hid) : hid :=
  if buttonChanged (get h) =? 1 then
    let key := if negb (buttonState (get h) =? 0) then 0 else KEY in
    let h := set (Button (buttonState (get h)) 0) h in
    set_reportBuffer (<[slot := key]> (reportBuffer h)) h
  else h.

Definition buildReport (h : hid) : hid :=
  if newReport h =? 0 then
    let h := build_key B1 set_B1 2 KEY_UP_ARROW h in
    let h := build_key B2 set_B2 3 KEY_DN_ARROW h in
    let h := build_key B3 set_B3 4 KEY_ENTER h in
    let h := build_key B4 set_B4 5 KEY_ESCAPE h in
    set_newReport 1 h
  else h.

(** One of the four blocks of [checkButtonChange]. *)
Definition check_button (get : hid → button) (set : button → hid → hid) (tempButtonValue : Z) (h : hid) : hid :=
  if negb (tempButtonValue =? buttonState (get h)) then
    set (Button tempButtonValue 1) (set_newReport 0 (set_debounce 0 h))
  else h.

(** [pinb] are the four readings of PINB, one for each button. *)
Definition checkButtonChange (pinb : Z * Z * Z * Z) (h : hid) : hid :=
  let '(p1, p2, p3, p4) := pinb in
  let h := check_button B1 set_B1 (bit_is_set p1 BUTTON_BIT_B1) h in
  let h := check_button B2 set_B2 (bit_is_set p2 BUTTON_BIT_B2) h in
  let h := check_button B3 set_B3 (bit_is_set p3 BUTTON_BIT_B3) h in
  check_button B4 set_B4 (bit_is_set p4 BUTTON_BIT_B4) h.

Definition timerInit (h : hid) : hid := set_TCCR1 0x0b h.

(** The 8 bytes of a setup packet: [bmRequestType], [bRequest], [wValue], .... *)
Definition usbFunctionSetup (data : list Z) (h : hid) : Z * hid :=
  let h := set_usbMsgPtr (Some ReportBuffer) h in
  let bmRequestType := nth 0 data 0 in
  let bRequest := nth 1 data 0 in
  if Z.land bmRequestType USBRQ_TYPE_MASK =? USBRQ_TYPE_CLASS then
    if bRequest =? USBRQ_HID_GET_REPORT then (8, buildReport h)
    else if bRequest =? USBRQ_HID_GET_IDLE then (1, set_usbMsgPtr (Some IdleRate) h)
    else if bRequest =? USBRQ_HID_SET_IDLE then (0, set_idleRate (nth 3 data 0) h)
    else (0, h)
  else (0, h).

Section firmware.
(** The oscillator, and how many rounds the calibration loops are followed. *)
Variable usbMeasureFrameLength : Z → Z.
Variable fuel : nat.

Abbreviation K := (M hid).

Definition usbEventResetReady : K unit :=
  zoom OSCCAL set_OSCCAL (calibrateOscillator usbMeasureFrameLength fuel).

(** What the USB driver calls back while it is polled: [usbFunctionSetup] for
    a setup packet, and the calibration at the end of a bus reset. *)
Inductive callback := Setup (data : list Z) | ResetEnds.
Fixpoint usbPoll (cbs : list callback) : K unit :=
  match cbs with
  | [] => mret ()
  | Setup data :: cbs => modify (λ h, snd (usbFunctionSetup data h));; usbPoll cbs
  | ResetEnds :: cbs => usbEventResetReady;; usbPoll cbs
  end.

(** What one round of the main loop meets. *)
Record input := Input {
  callbacks : list callback;
  pinb : Z * Z * Z * Z;
  usbInterruptIsReady : bool;
  tov1 : bool
}.

Definition usbSetInterrupt (h : hid) : hid := set_sent (sent h ++ [reportBuffer h]) h.

(** The body of the event loop. *)
Definition main_loop (i : input) : K unit :=
  usbPoll (callbacks i);;
  modify (λ h, if debounceTimeIsOver h =? 1 then checkButtonChange (pinb i) h else h);;
  modify (λ h, if usbInterruptIsReady i && (newReport h =? 0) then usbSetInterrupt (buildReport h) else h);;
  modify (timerPoll (tov1 i)).

(** [i = 0; while(--i)] with an 8-bit [i]. *)
Fixpoint disconnect_loop (n : nat) (i : Z) : K unit :=
  match n with
  | O => out_of_fuel
  | S n =>
      let i := u8 (i - 1) in
      if negb (i =? 0) then modify (λ h, set_waited_ms (waited_ms h + 1) h);; disconnect_loop n i
      else mret ()
  end.

(** [main] up to the event loop. *)
Definition main_start : K unit :=
  disconnect_loop 256 0;;
  modify (λ h, set_PORTB (Z.lor (PORTB h) (BV BUTTON_BIT_B1)) h);;
  modify (λ h, set_PORTB (Z.lor (PORTB h) (BV BUTTON_BIT_B2)) h);;
  modify (λ h, set_PORTB (Z.lor (PORTB h) (BV BUTTON_BIT_B3)) h);;
  modify (λ h, set_PORTB (Z.lor (PORTB h) (BV BUTTON_BIT_B4)) h);;
  modify timerInit.

Fixpoint run (inputs : list input) : K unit :=
  match inputs with [] => mret () | i :: inputs => main_loop i;; run inputs end.

(** The states of the running firmware. *)
Inductive running : hid → Prop :=
| running_start osc h : main_start (reset_hid osc) = Done () h → running h
| running_loop i h h' : running h → main_loop i h = Done () h' → running h'.
End firmware.

(** ** What the host is promised *)
Definition key_of (KEY : Z) (b : button) : Z := if buttonState b =? 0 then KEY else 0.

(** The report that describes the buttons: pressed buttons (level 0) are keys. *)
Definition report_of (h : hid) : list Z :=
  [0; 0; key_of KEY_UP_ARROW (B1 h); key_of KEY_DN_ARROW (B2 h);
   key_of KEY_ENTER (B3 h); key_of KEY_ESCAPE (B4 h); 0; 0].
Definition levels (h : hid) : Z * Z * Z * Z :=
  (buttonState (B1 h), buttonState (B2 h), buttonState (B3 h), buttonState (B4 h)).
Definition sampled (p : Z * Z * Z * Z) : Z * Z * Z * Z :=
  let '(p1, p2, p3, p4) := p in
  (bit_is_set p1 BUTTON_BIT_B1, bit_is_set p2 BUTTON_BIT_B2, bit_is_set p3 BUTTON_BIT_B3, bit_is_set p4 BUTTON_BIT_B4).

Definition flag (z : Z) : Prop := z = 0 ∨ z = 1.

(** A slot of the report is right unless its button has a change pending. *)
Definition slot_ok (KEY k : Z) (b : button) : Prop :=
  (buttonChanged b = 0 ∧ k = key_of KEY b) ∨ buttonChanged b = 1.

Record hid_ok (h : hid) : Prop := HidOk {
  buffer_ok : ∃ k1 k2 k3 k4, reportBuffer h = [0; 0; k1; k2; k3; k4; 0; 0] ∧
    slot_ok KEY_UP_ARROW k1 (B1 h) ∧ slot_ok KEY_DN_ARROW k2 (B2 h) ∧
    slot_ok KEY_ENTER k3 (B3 h) ∧ slot_ok KEY_ESCAPE k4 (B4 h);
  newReport_ok : flag (newReport h);
  nothing_pending : newReport h = 1 → buttonChanged (B1 h) = 0 ∧ buttonChanged (B2 h) = 0 ∧
    buttonChanged (B3 h) = 0 ∧ buttonChanged (B4 h) = 0;
  debounce_ok : flag (debounceTimeIsOver h);
  timer_ok : 0 ≤ timerCnt h < 5
}.

Definition is_get_report (cb : callback) : bool :=
  match cb with
  | Setup data => (Z.land (nth 0 data 0) USBRQ_TYPE_MASK =? USBRQ_TYPE_CLASS) &&
      (nth 1 data 0 =? USBRQ_HID_GET_REPORT)
  | ResetEnds => false
  end.

(** The parts of the state the report depends on are the same. *)
Definition same_keys (h h' : hid) : Prop :=
  reportBuffer h' = reportBuffer h ∧ newReport h' = newReport h ∧ B1 h' = B1 h ∧ B2 h' = B2 h ∧
  B3 h' = B3 h ∧ B4 h' = B4 h ∧ debounceTimeIsOver h' = debounceTimeIsOver h ∧
  timerCnt h' = timerCnt h.

Lemma hid_ok_same h h' : same_keys h h' → hid_ok h → hid_ok h'.
Proof.
  intros (Hb & Hn & H1 & H2 & H3 & H4 & Hd & Ht) [? ? ? ? ?].
  split; rewrite ?Hb, ?Hn, ?H1, ?H2, ?H3, ?H4, ?Hd, ?Ht; done.
Qed.

Ltac same_ok := eapply hid_ok_same; [|eassumption]; by repeat split.

(** *** The four functions

    One block of [buildReport] and of [checkButtonChange], for each button. *)
Section blocks.
Variables (buf : list Z) (idle new deb t osc port tc w : Z) (mp : option msg) (sn : list (list Z)).
Variables (b1 b2 b3 b4 : button).

Definition built (slot : nat) (KEY : Z) (b : button) (buf : list Z) : list Z :=
  if buttonChanged b =? 1 then <[slot := key_of KEY b]> buf else buf.
Definition cleared (b : button) : button := if buttonChanged b =? 1 then Button (buttonState b) 0 else b.
Definition seen (v : Z) (b : button) : button := if v =? buttonState b then b else Button v 1.
Definition unless_moved (v : Z) (b : button) (z : Z) : Z := if v =? buttonState b then z else 0.

Lemma build_B1 KEY : build_key B1 set_B1 2 KEY (Hid buf idle new b1 b2 b3 b4 deb t mp osc port tc w sn) =
  Hid (built 2 KEY b1 buf) idle new (cleared b1) b2 b3 b4 deb t mp osc port tc w sn.
Proof.
  unfold build_key, built, cleared, key_of. cbn. destruct (_ =? 1); [|done]. by destruct (_ =? 0).
Qed.
Lemma build_B2 KEY : build_key B2 set_B2 3 KEY (Hid buf idle new b1 b2 b3 b4 deb t mp osc port tc w sn) =
  Hid (built 3 KEY b2 buf) idle new b1 (cleared b2) b3 b4 deb t mp osc port tc w sn.
Proof.
  unfold build_key, built, cleared, key_of. cbn. destruct (_ =? 1); [|done]. by destruct (_ =? 0).
Qed.
Lemma build_B3 KEY : build_key B3 set_B3 4 KEY (Hid buf idle new b1 b2 b3 b4 deb t mp osc port tc w sn) =
  Hid (built 4 KEY b3 buf) idle new b1 b2 (cleared b3) b4 deb t mp osc port tc w sn.
Proof.
  unfold build_key, built, cleared, key_of. cbn. destruct (_ =? 1); [|done]. by destruct (_ =? 0).
Qed.
Lemma build_B4 KEY : build_key B4 set_B4 5 KEY (Hid buf idle new b1 b2 b3 b4 deb t mp osc port tc w sn) =
  Hid (built 5 KEY b4 buf) idle new b1 b2 b3 (cleared b4) deb t mp osc port tc w sn.
Proof.
  unfold build_key, built, cleared, key_of. cbn. destruct (_ =? 1); [|done]. by destruct (_ =? 0).
Qed.
Lemma check_B1 v : check_button B1 set_B1 v (Hid buf idle new b1 b2 b3 b4 deb t mp osc port tc w sn) =
  Hid buf idle (unless_moved v b1 new) (seen v b1) b2 b3 b4 (unless_moved v b1 deb) t mp osc port tc w sn.
Proof. unfold check_button, unless_moved, seen. cbn. by destruct (_ =? _). Qed.
Lemma check_B2 v : check_button B2 set_B2 v (Hid buf idle new b1 b2 b3 b4 deb t mp osc port tc w sn) =
  Hid buf idle (unless_moved v b2 new) b1 (seen v b2) b3 b4 (unless_moved v b2 deb) t mp osc port tc w sn.
Proof. unfold check_button, unless_moved, seen. cbn. by destruct (_ =? _). Qed.
Lemma check_B3 v : check_button B3 set_B3 v (Hid buf idle new b1 b2 b3 b4 deb t mp osc port tc w sn) =
  Hid buf idle (unless_moved v b3 new) b1 b2 (seen v b3) b4 (unless_moved v b3 deb) t mp osc port tc w sn.
Proof. unfold check_button, unless_moved, seen. cbn. by destruct (_ =? _). Qed.
Lemma check_B4 v : check_button B4 set_B4 v (Hid buf idle new b1 b2 b3 b4 deb t mp osc port tc w sn) =
  Hid buf idle (unless_moved v b4 new) b1 b2 b3 (seen v b4) (unless_moved v b4 deb) t mp osc port tc w sn.
Proof. unfold check_button, unless_moved, seen. cbn. by destruct (_ =? _). Qed.
End blocks.

(** After [buildReport] every slot is right, whatever was pending. *)
Lemma built_slot KEY k b : slot_ok KEY k b →
  (if buttonChanged b =? 1 then key_of KEY b else k) = key_of KEY b.
Proof. by intros [[-> ->]| ->]. Qed.

Lemma cleared_done KEY k b : slot_ok KEY k b → buttonChanged (cleared b) = 0 ∧ buttonState (cleared b) = buttonState b.
Proof. unfold cleared. by intros [[E _]|E]; rewrite E. Qed.

Lemma cleared_slot KEY k b : slot_ok KEY k b → slot_ok KEY (key_of KEY b) (cleared b).
Proof.
  intros H. destruct (cleared_done _ _ _ H) as [Hc Hs]. left. split; [done|]. unfold key_of. by rewrite Hs.
Qed.

Lemma insert_if (c : bool) (i : nat) (v : Z) (l : list Z) :
  (if c then <[i := v]> l else l) = <[i := if c then v else nth i l 0]> l.
Proof.
  destruct c; [done|]. revert i. induction l as [|x l IH]; intros [|i]; cbn; [done..|]. by rewrite <- IH.
Qed.

Lemma buildReport_spec h : hid_ok h →
  reportBuffer (buildReport h) = report_of h ∧ newReport (buildReport h) = 1 ∧
  hid_ok (buildReport h) ∧ levels (buildReport h) = levels h ∧
  debounceTimeIsOver (buildReport h) = debounceTimeIsOver h ∧ timerCnt (buildReport h) = timerCnt h ∧
  usbMsgPtr (buildReport h) = usbMsgPtr h ∧ sent (buildReport h) = sent h.
Proof.
  intros Hok. destruct Hok as [(k1 & k2 & k3 & k4 & Hb & H1 & H2 & H3 & H4) Hn Hp Hd Ht].
  destruct h as [buf idle new b1 b2 b3 b4 deb t mp osc port tc w sn]; cbn in *. subst buf.
  unfold buildReport. cbn [newReport]. destruct Hn as [->| ->]; cbn [Z.eqb].
  - cbv zeta. rewrite build_B1, build_B2, build_B3, build_B4. unfold built. rewrite !insert_if. cbn.
    rewrite (built_slot _ _ _ H1), (built_slot _ _ _ H2), (built_slot _ _ _ H3), (built_slot _ _ _ H4).
    pose proof (cleared_done _ _ _ H1) as [Hc1 Hs1]. pose proof (cleared_done _ _ _ H2) as [Hc2 Hs2].
    pose proof (cleared_done _ _ _ H3) as [Hc3 Hs3]. pose proof (cleared_done _ _ _ H4) as [Hc4 Hs4].
    split_and!; [done|done| |unfold levels; cbn; congruence|done..].
    split; cbn; [|by right|done..]. eexists _, _, _, _. split; [reflexivity|].
    split_and!; by eapply cleared_slot.
  - destruct (Hp eq_refl) as (E1 & E2 & E3 & E4).
    destruct H1 as [[_ ->]|], H2 as [[_ ->]|], H3 as [[_ ->]|], H4 as [[_ ->]|]; try congruence.
    split_and!; try done. split; cbn; [|by right|done..].
    eexists _, _, _, _; split; [reflexivity|]. split_and!; by left.
Qed.

(** A button that changes sets the pending flag and starts the debounce time. *)
Definition moved (h : hid) (p : Z * Z * Z * Z) : bool := bool_decide (sampled p ≠ levels h).

Lemma seen_slot KEY k v b : slot_ok KEY k b → slot_ok KEY k (seen v b).
Proof. unfold seen. case_match; [done|]. intros _. by right. Qed.
Lemma seen_state v b : buttonState (seen v b) = v.
Proof. unfold seen. by destruct (Z.eqb_spec v (buttonState b)). Qed.
Lemma unless_moved_flag v b z : flag z → flag (unless_moved v b z).
Proof. unfold unless_moved. case_match; [done|]. by left. Qed.
Lemma unless_moved_1 v b z : unless_moved v b z = 1 → v = buttonState b ∧ z = 1 ∧ seen v b = b.
Proof. unfold unless_moved, seen. by destruct (Z.eqb_spec v (buttonState b)). Qed.

Lemma moved_pending p1 p2 p3 p4 h z :
  unless_moved (bit_is_set p4 BUTTON_BIT_B4) (B4 h) (unless_moved (bit_is_set p3 BUTTON_BIT_B3) (B3 h)
    (unless_moved (bit_is_set p2 BUTTON_BIT_B2) (B2 h) (unless_moved (bit_is_set p1 BUTTON_BIT_B1) (B1 h) z))) =
  if moved h (p1, p2, p3, p4) then 0 else z.
Proof.
  unfold moved, sampled, levels, unless_moved.
  repeat match goal with |- context [?v =? ?s] => destruct (Z.eqb_spec v s) end;
    case_bool_decide as Hm; try done; exfalso; congruence.
Qed.

Lemma checkButtonChange_spec p h : hid_ok h →
  hid_ok (checkButtonChange p h) ∧ levels (checkButtonChange p h) = sampled p ∧
  newReport (checkButtonChange p h) = (if moved h p then 0 else newReport h) ∧
  debounceTimeIsOver (checkButtonChange p h) = (if moved h p then 0 else debounceTimeIsOver h) ∧
  timerCnt (checkButtonChange p h) = timerCnt h ∧ sent (checkButtonChange p h) = sent h.
Proof.
  destruct p as [[[p1 p2] p3] p4]. intros Hok. rewrite <- !moved_pending.
  destruct Hok as [(k1 & k2 & k3 & k4 & Hb & H1 & H2 & H3 & H4) Hn Hp Hd Ht].
  destruct h as [buf idle new b1 b2 b3 b4 deb t mp osc port tc w sn].
  unfold checkButtonChange. cbv zeta. rewrite check_B1, check_B2, check_B3, check_B4. cbn in *.
  split_and!; [|unfold levels; cbn; by rewrite !seen_state|done..]. split; cbn.
  - exists k1, k2, k3, k4. split; [done|]. split_and!; by apply seen_slot.
  - by repeat apply unless_moved_flag.
  - intros (_ & (_ & (_ & (_ & E & ->)%unless_moved_1 & ->)%unless_moved_1 & ->)%unless_moved_1 & ->)%unless_moved_1.
    by apply Hp.
  - by repeat apply unless_moved_flag.
  - done.
Qed.

Lemma timerPoll_spec tov h : hid_ok h →
  hid_ok (timerPoll tov h) ∧ levels (timerPoll tov h) = levels h ∧ newReport (timerPoll tov h) = newReport h ∧
  sent (timerPoll tov h) = sent h ∧ report_of (timerPoll tov h) = report_of h ∧
  reportBuffer (timerPoll tov h) = reportBuffer h ∧
  debounceTimeIsOver (timerPoll tov h) =
    (if tov && (timerCnt h =? 4) then 1 else debounceTimeIsOver h) ∧
  timerCnt (timerPoll tov h) = (if tov then if timerCnt h =? 4 then 0 else timerCnt h + 1 else timerCnt h).
Proof.
  intros [Hb Hn Hp Hd Ht]. unfold timerPoll. destruct tov; [|done]. cbv zeta. cbn [timerCnt set_timerCnt].
  assert (Hu : u16 (timerCnt h + 1) = timerCnt h + 1) by (apply Z.mod_small; lia). rewrite Hu.
  destruct (Z.leb_spec 5 (timerCnt h + 1)), (Z.eqb_spec (timerCnt h) 4); try lia; cbn;
    (split_and!; [|done..]); split; cbn; done || (by right) || lia.
Qed.

Lemma setup_spec data h : hid_ok h → let '(n, h') := usbFunctionSetup data h in
  hid_ok h' ∧ levels h' = levels h ∧ debounceTimeIsOver h' = debounceTimeIsOver h ∧
  timerCnt h' = timerCnt h ∧ sent h' = sent h ∧
  newReport h' = (if is_get_report (Setup data) then 1 else newReport h) ∧
  (is_get_report (Setup data) = true → n = 8 ∧ usbMsgPtr h' = Some ReportBuffer ∧ reportBuffer h' = report_of h).
Proof.
  intros Hok. unfold usbFunctionSetup, is_get_report. cbv zeta.
  assert (Hok' : hid_ok (set_usbMsgPtr (Some ReportBuffer) h)) by same_ok.
  destruct (_ =? USBRQ_TYPE_CLASS); cbn [andb]; [|done].
  destruct (_ =? USBRQ_HID_GET_REPORT).
  - destruct (buildReport_spec _ Hok') as (? & ? & ? & ? & ? & ? & ? & ?). by split_and!.
  - destruct (_ =? USBRQ_HID_GET_IDLE); [|destruct (_ =? USBRQ_HID_SET_IDLE)]; split_and!; try done; same_ok.
Qed.

Section loop.
Variables (m : Z → Z) (fuel : nat).
(** The oscillator can be calibrated. *)
Definition calibrates : Prop := ∀ o, ∃ v, calibrateOscillator m fuel o = Done () v.

Lemma usbPoll_spec cbs h h' : hid_ok h → usbPoll m fuel cbs h = Done () h' →
  hid_ok h' ∧ levels h' = levels h ∧ debounceTimeIsOver h' = debounceTimeIsOver h ∧
  timerCnt h' = timerCnt h ∧ sent h' = sent h ∧
  newReport h' = (if existsb is_get_report cbs then 1 else newReport h).
Proof.
  revert h. induction cbs as [|[data|] cbs IH]; intros h Hok; cbn [usbPoll].
  - by intros <-%done_state.
  - msimpl. pose proof (setup_spec data h Hok) as Hs. destruct (usbFunctionSetup data h) as [n h1].
    destruct Hs as (Hok1 & ? & ? & ? & ? & Hn & _). cbn [snd]. intros (? & ? & ? & ? & ? & Hn')%IH; [|done].
    split_and!; try congruence. cbn [existsb]. rewrite Hn', Hn. by destruct (is_get_report _), (existsb _ _).
  - unfold mbind, M_bind, usbEventResetReady, zoom. destruct (calibrateOscillator m fuel (OSCCAL h)) as [[] v| | | |]; try done.
    intros H%IH; [|same_ok]. done.
Qed.

Lemma usbPoll_done cbs h : calibrates → ∃ h', usbPoll m fuel cbs h = Done () h'.
Proof.
  intros Hcal. revert h. induction cbs as [|[data|] cbs IH]; intros h; cbn [usbPoll].
  - by eexists.
  - msimpl. apply IH.
  - unfold mbind, M_bind, usbEventResetReady, zoom. destruct (Hcal (OSCCAL h)) as [v ->]. apply IH.
Qed.

(** A report is due: none was built since the last change, by the main loop
    or for a GET_REPORT request, or a button has just moved. *)
Definition due (i : input) (h : hid) : bool :=
  ((newReport h =? 0) && negb (existsb is_get_report (callbacks i))) ||
  ((debounceTimeIsOver h =? 1) && moved h (pinb i)).

(** One round of the main loop, as the host and the user see it. *)
Record round (i : input) (h h' : hid) : Prop := Round {
  round_ok : hid_ok h';
  round_levels : levels h' = if debounceTimeIsOver h =? 1 then sampled (pinb i) else levels h;
  round_sent : sent h' = if usbInterruptIsReady i && due i h then sent h ++ [report_of h'] else sent h;
  round_new : newReport h' = if due i h && negb (usbInterruptIsReady i) then 0 else 1;
  round_debounce : debounceTimeIsOver h' = if tov1 i && (timerCnt h =? 4) then 1
    else if (debounceTimeIsOver h =? 1) && negb (moved h (pinb i)) then 1 else 0;
  round_timer : timerCnt h' = if tov1 i then if timerCnt h =? 4 then 0 else timerCnt h + 1 else timerCnt h
}.

Lemma report_levels h h' : levels h' = levels h → report_of h' = report_of h.
Proof. unfold levels, report_of, key_of. by intros [= -> -> -> ->]. Qed.

Lemma flag_eqb z : flag z → (z =? 0) = negb (z =? 1).
Proof. by intros [->| ->]. Qed.

Lemma main_loop_round i h h' : hid_ok h → main_loop m fuel i h = Done () h' → round i h h'.
Proof.
  intros Hok. unfold main_loop, mbind at 1, M_bind at 1.
  destruct (usbPoll m fuel (callbacks i) h) as [[] h1| | | |] eqn:Hpoll; try done.
  destruct (usbPoll_spec _ _ _ Hok Hpoll) as (Hok1 & Hl1 & Hd1 & Ht1 & Hs1 & Hn1). msimpl. intros <-%done_state.
  (* sampling *)
  set (h2 := if debounceTimeIsOver h1 =? 1 then checkButtonChange (pinb i) h1 else h1).
  assert (Hmv : moved h1 (pinb i) = moved h (pinb i)) by (unfold moved; by rewrite Hl1).
  assert (H2 : hid_ok h2 ∧ levels h2 = (if debounceTimeIsOver h =? 1 then sampled (pinb i) else levels h) ∧
    newReport h2 = (if due i h then 0 else 1) ∧
    debounceTimeIsOver h2 = (if (debounceTimeIsOver h =? 1) && negb (moved h (pinb i)) then 1 else 0) ∧
    timerCnt h2 = timerCnt h ∧ sent h2 = sent h).
  { unfold h2, due. rewrite Hd1. destruct (checkButtonChange_spec (pinb i) h1 Hok1) as (Hc & Hl & Hn & Hd & Ht & Hs).
    pose proof (newReport_ok h Hok) as Hf. pose proof (debounce_ok h Hok) as Hf'.
    destruct Hf' as [Ed|Ed]; rewrite Ed in *; cbn [Z.eqb Pos.eqb andb].
    - split_and!; try congruence. rewrite Hn1. by destruct Hf as [->| ->], (existsb _ _).
    - rewrite Hmv in *. split_and!; try congruence.
      + rewrite Hn, Hn1. destruct Hf as [E|E]; rewrite E; by destruct (existsb is_get_report (callbacks i)), (moved h (pinb i)).
      + rewrite Hd, Hd1. by destruct (moved h (pinb i)). }
  destruct H2 as (Hok2 & Hl2 & Hn2 & Hd2 & Ht2 & Hs2).
  (* sending *)
  set (h3 := if usbInterruptIsReady i && (newReport h2 =? 0) then usbSetInterrupt (buildReport h2) else h2).
  assert (H3 : hid_ok h3 ∧ levels h3 = levels h2 ∧ debounceTimeIsOver h3 = debounceTimeIsOver h2 ∧
    timerCnt h3 = timerCnt h2 ∧
    sent h3 = (if usbInterruptIsReady i && due i h then sent h2 ++ [report_of h2] else sent h2) ∧
    newReport h3 = (if due i h && negb (usbInterruptIsReady i) then 0 else 1)).
  { destruct (buildReport_spec h2 Hok2) as (Hb & Hn & Hc & Hl & Hd & Ht & _ & Hs). unfold h3.
    rewrite Hn2. destruct (usbInterruptIsReady i), (due i h); cbn [andb negb Z.eqb]; try done.
    split_and!; [by apply (hid_ok_same (buildReport h2)); [repeat split|]|done..| |done]. cbn. by rewrite Hs, Hb. }
  destruct H3 as (Hok3 & Hl3 & Hd3 & Ht3 & Hs3 & Hn3).
  (* the timer *)
  destruct (timerPoll_spec (tov1 i) h3 Hok3) as (Hok4 & Hl4 & Hn4 & Hs4 & Hr4 & _ & Hd4 & Ht4).
  split; [done|congruence| |congruence| |].
  - rewrite Hs4, Hs3, Hs2, Hr4. by rewrite (report_levels h3 h2).
  - rewrite Hd4, Hd3, Hd2, Ht3, Ht2. done.
  - rewrite Ht4, Ht3, Ht2. done.
Qed.
End loop.

(** *** The running firmware *)
Section firmware_ok.
Variables (m : Z → Z) (fuel : nat).

Lemma started osc h : main_start (reset_hid osc) = Done () h →
  hid_ok h ∧ waited_ms h = 255 ∧ PORTB h = 0x27 ∧ TCCR1 h = 0x0b ∧ sent h = [].
Proof.
  intros H. vm_compute in H. injection H as <-. split_and!; [|reflexivity..].
  split; cbn; [|by left|done|by right|lia]. exists 0, 0, 0, 0. split; [done|]. split_and!; by left.
Qed.

Lemma running_ok h : running m fuel h → hid_ok h.
Proof.
  induction 1 as [osc h H|i h h' _ IH H]; [by apply started in H as [? _]|].
  by apply (round_ok i h h'), (main_loop_round m fuel).
Qed.

Lemma main_loop_done i h : calibrates m fuel → ∃ h', main_loop m fuel i h = Done () h'.
Proof.
  intros Hcal. destruct (usbPoll_done m fuel (callbacks i) h Hcal) as [h1 Hp]. eexists.
  unfold main_loop. mstep Hp. msimpl. done.
Qed.

Definition overflows (inputs : list input) : Z := Z.of_nat (length (filter (λ i, tov1 i = true) inputs)).

Lemma window inputs h h' : hid_ok h → debounceTimeIsOver h = 0 → run m fuel inputs h = Done () h' →
  timerCnt h + overflows inputs ≤ 4 →
  hid_ok h' ∧ levels h' = levels h ∧ debounceTimeIsOver h' = 0 ∧ timerCnt h' = timerCnt h + overflows inputs.
Proof.
  revert h. induction inputs as [|i inputs IH]; intros h Hok Hd; cbn [run].
  { intros <-%done_state. unfold overflows. cbn. intros. split_and!; [done..|lia]. }
  unfold mbind, M_bind. destruct (main_loop m fuel i h) as [[] h1| | | |] eqn:Hm; try done.
  intros Hrun Hov. destruct (main_loop_round m fuel i h h1 Hok Hm) as [Hok1 Hl1 _ _ Hd1 Ht1].
  rewrite Hd in *. unfold overflows in *. rewrite filter_cons in *. cbn [Z.eqb andb] in *.
  destruct (tov1 i); cbn [andb] in *.
  - rewrite decide_True in * by done. cbn [length] in *.
    destruct (Z.eqb_spec (timerCnt h) 4); [lia|].
    destruct (IH h1 Hok1 Hd1 Hrun) as (? & ? & ? & ?); [lia|]. split_and!; [done|congruence|done|lia].
  - rewrite decide_False in * by done.
    destruct (IH h1 Hok1 Hd1 Hrun) as (? & ? & ? & ?); [lia|]. split_and!; [done|congruence|done|lia].
Qed.
End firmware_ok.

(** C14: the reports are exact.  Take any state the running firmware can be
    in, any state of the pins, any requests of the host and any bus resets
    (on an oscillator that can be calibrated).  The next round of the main
    loop ends; it takes over the sampled buttons unless the debounce time is
    running; it sends a report exactly when one is due and the endpoint is
    free, and the report lists exactly the keys of the buttons that are
    pressed.  A report that is due and not sent stays due.  A GET_REPORT
    request is answered with the same eight bytes, and makes the report no
    longer due. *)
Theorem hid_reports_exact m fuel h i (Hrun : running m fuel h) (Hcal : calibrates m fuel) :
  (∃ h', main_loop m fuel i h = Done () h' ∧ round i h h') ∧
  (∀ data n h', is_get_report (Setup data) = true → usbFunctionSetup data h = (n, h') →
    n = 8 ∧ usbMsgPtr h' = Some ReportBuffer ∧ reportBuffer h' = report_of h ∧ newReport h' = 1).
Proof.
  apply running_ok in Hrun. split.
  - destruct (main_loop_done m fuel i h Hcal) as [h' Hm]. exists h'. split; [done|].
    by apply (main_loop_round m fuel).
  - intros data n h' Hg Hs. pose proof (setup_spec data h Hrun) as H. rewrite Hs in H.
    destruct H as (_ & _ & _ & _ & _ & Hn & H). rewrite Hg in Hn. destruct (H Hg) as (? & ? & ?). done.
Qed.

(** The debounce window.  After a change, the buttons are not looked at
    until the timer, which is never restarted, next reaches five: the window
    ends at overflow number [5 - timerCnt] and not before, whatever happens on
    the bus, and until then the buttons' states stay as they are. *)
Theorem debounce_window m fuel h inputs h' (Hrun : running m fuel h) (Hd : debounceTimeIsOver h = 0)
    (Hr : run m fuel inputs h = Done () h') (Hov : timerCnt h + overflows inputs ≤ 4) :
  levels h' = levels h ∧ debounceTimeIsOver h' = 0 ∧
  (∀ i h'', main_loop m fuel i h' = Done () h'' → timerCnt h + overflows inputs = 4 → tov1 i = true →
    levels h'' = levels h ∧ debounceTimeIsOver h'' = 1).
Proof.
  apply running_ok in Hrun. destruct (window m fuel inputs h h' Hrun Hd Hr Hov) as (Hok & Hl & Hd' & Ht).
  split_and!; [done..|]. intros i h'' Hm Hlast Htov.
  destruct (main_loop_round m fuel i h' h'' Hok Hm) as [_ Hl2 _ _ Hd2 _].
  rewrite Hd' in *. rewrite Htov, Ht, Hlast in Hd2.
  change (0 =? 1) with false in Hl2. split; [congruence|done].
Qed.

(** ** Examples *)
Definition idle_pins : Z * Z * Z * Z := (0x27, 0x27, 0x27, 0x27).
Definition up_pins : Z * Z * Z * Z := (0x26, 0x26, 0x26, 0x26).
Definition tick (p : Z * Z * Z * Z) : input := Input [] p true true.
Definition quiet (p : Z * Z * Z * Z) : input := Input [] p true false.

Lemma run_running m fuel inputs h h' : running m fuel h → run m fuel inputs h = Done () h' → running m fuel h'.
Proof.
  revert h. induction inputs as [|i inputs IH]; intros h Hh; cbn [run]; [by intros <-%done_state|].
  unfold mbind, M_bind. destruct (main_loop m fuel i h) as [[] h1| | | |] eqn:Hm; try done.
  apply IH. by eapply running_loop.
Qed.

(** A press of button 1 just before the timer's fifth overflow: the debounce
    time is over after one overflow, not five. *)
Definition late_press : hid := Eval vm_compute in
  match (main_start;; run (λ _, 0) 0 (replicate 9 (tick idle_pins) ++ [quiet up_pins])) (reset_hid 0) with
  | Done _ h => h
  | _ => reset_hid 0
  end.

Definition fresh_hid : hid := Eval vm_compute in
  match main_start (reset_hid 0) with Done _ h => h | _ => reset_hid 0 end.

Lemma fresh_running m fuel : running m fuel fresh_hid.
Proof. apply (running_start m fuel 0). vm_compute. reflexivity. Qed.

Lemma late_press_running m fuel : running m fuel late_press.
Proof.
  apply (run_running m fuel (replicate 9 (tick idle_pins) ++ [quiet up_pins]) fresh_hid); [apply fresh_running|].
  vm_compute. reflexivity.
Qed.

Lemma debounce_can_be_short m fuel : running m fuel late_press ∧ debounceTimeIsOver late_press = 0 ∧
  timerCnt late_press = 4.
Proof. split; [apply late_press_running | done]. Qed.

Lemma ex_osc_calibrates : calibrates ex_osc 9.
Proof. intros o. eexists. vm_compute. reflexivity. Qed.

Lemma hid_reports_exact_witness : ∃ h', main_loop ex_osc 9 (Input [ResetEnds] up_pins true false) late_press = Done () h' ∧
  levels h' = (0, 2, 4, 32).
Proof.
  destruct (hid_reports_exact ex_osc 9 late_press (Input [ResetEnds] up_pins true false)
    (late_press_running _ _) ex_osc_calibrates) as [(h' & Hm & Hr) _].
  exists h'. split; [exact Hm|]. exact (round_levels _ _ _ Hr).
Defined.

Lemma debounce_window_witness : ∃ h', run ex_osc 9 [quiet idle_pins] late_press = Done () h' ∧
  levels h' = (0, 2, 4, 32).
Proof.
  eexists. split; [vm_compute; reflexivity|].
  refine (proj1 (debounce_window ex_osc 9 late_press [quiet idle_pins] _ (late_press_running _ _) eq_refl _ _)).
  - vm_compute. reflexivity.
  - vm_compute. discriminate.
Defined.
