(* ===== verification/Rotary.v ===== *)
(** * attiny85-hid-rotary: a USB volume knob

    The firmware [src/sources/firmware/attiny85-hid-rotary/main.c]: decoding the
    rotary encoder and its switch into volume keys, and sending a report when
    the key has changed.  The theorem says which reports go out for any
    sequence of readings of the pins. *)

From stdpp Require Import base list.
From Stdlib Require Import ZArith Lia.
From S2P Require Import Prelude Osccal.

Definition ENC_SW : Z := 0x01.
Definition ENC_B : Z := 0x04.
Definition ENC_A : Z := 0x20.
Definition VOLUMEMUTE : Z := 0xE2.
Definition VOLUMEUP : Z := 0xE9.
Definition VOLUMEDOWN : Z := 0xEA.
Definition USBRQ_TYPE_MASK : Z := 0x60.
Definition USBRQ_TYPE_CLASS : Z := 0x20.
Definition USBRQ_HID_GET_REPORT : Z := 0x01.
Definition USBRQ_HID_GET_IDLE : Z := 0x02.
Definition USBRQ_HID_SET_IDLE : Z := 0x0a.

Inductive msg := ReportBuffer | IdleRate.

(** The static variables, the registers written, the readings PINB will give,
    how long the code has waited, and what it gave to [usbSetInterrupt]. *)
Record knob := Knob {
  reportBuffer : list Z;
  idleRate : Z;
  currentKey : Z;
  isSwitchPressed : Z;
  usbMsgPtr : option msg;
  OSCCAL : Z;
  PORTB : Z;
  PINB : list Z;
  waited_ms : Z;
  sent : list (list Z)
}.
Definition set_reportBuffer v s := Knob v (idleRate s) (currentKey s) (isSwitchPressed s) (usbMsgPtr s) (OSCCAL s) (PORTB s) (PINB s) (waited_ms s) (sent s).
Definition set_idleRate v s := Knob (reportBuffer s) v (currentKey s) (isSwitchPressed s) (usbMsgPtr s) (OSCCAL s) (PORTB s) (PINB s) (waited_ms s) (sent s).
Definition set_currentKey v s := Knob (reportBuffer s) (idleRate s) v (isSwitchPressed s) (usbMsgPtr s) (OSCCAL s) (PORTB s) (PINB s) (waited_ms s) (sent s).
Definition set_isSwitchPressed v s := Knob (reportBuffer s) (idleRate s) (currentKey s) v (usbMsgPtr s) (OSCCAL s) (PORTB s) (PINB s) (waited_ms s) (sent s).
Definition set_usbMsgPtr v s := Knob (reportBuffer s) (idleRate s) (currentKey s) (isSwitchPressed s) v (OSCCAL s) (PORTB s) (PINB s) (waited_ms s) (sent s).
Definition set_OSCCAL v s := Knob (reportBuffer s) (idleRate s) (currentKey s) (isSwitchPressed s) (usbMsgPtr s) v (PORTB s) (PINB s) (waited_ms s) (sent s).
Definition set_PORTB v s := Knob (reportBuffer s) (idleRate s) (currentKey s) (isSwitchPressed s) (usbMsgPtr s) (OSCCAL s) v (PINB s) (waited_ms s) (sent s).
Definition set_PINB v s := Knob (reportBuffer s) (idleRate s) (currentKey s) (isSwitchPressed s) (usbMsgPtr s) (OSCCAL s) (PORTB s) v (waited_ms s) (sent s).
Definition set_waited_ms v s := Knob (reportBuffer s) (idleRate s) (currentKey s) (isSwitchPressed s) (usbMsgPtr s) (OSCCAL s) (PORTB s) (PINB s) v (sent s).
Definition set_sent v s := Knob (reportBuffer s) (idleRate s) (currentKey s) (isSwitchPressed s) (usbMsgPtr s) (OSCCAL s) (PORTB s) (PINB s) (waited_ms s) v.

Definition reset_knob (osc : Z) : knob := Knob [1; 0; 0] 0 0 0 None osc 0 [] 0 [].

Abbreviation K := (M knob).

Definition _delay_ms (n : Z) : K unit := modify (λ s, set_waited_ms (waited_ms s + n) s).

(** One reading of PINB.  The readings of a round are given; a round that
    wants one more than there are is waiting for the pins. *)
Definition read_pinb : K Z :=
  pins ← gets PINB;
  match pins with
  | [] => blocked
  | p :: pins => modify (set_PINB pins);; mret p
  end.
(** [pin & mask] as a condition. *)
Definition high (p mask : Z) : bool := negb (Z.land p mask =? 0).

(** [while (!(PINB & ENC_A)) _delay_ms(5);] *)
Fixpoint wait_detent (n : nat) : K unit :=
  match n with
  | O => blocked
  | S n => p ← read_pinb; if high p ENC_A then mret () else _delay_ms 5;; wait_detent n
  end.

Definition checkEncoder : K unit :=
  modify (set_currentKey 0);;
  a ← read_pinb;
  if negb (high a ENC_A) then
    b ← read_pinb;
    modify (set_currentKey (if high b ENC_B then VOLUMEUP else VOLUMEDOWN));;
    pins ← gets PINB; wait_detent (S (length pins))
  else
    pressed ← gets isSwitchPressed;
    if pressed =? 0 then
      p ← read_pinb;
      if negb (high p ENC_SW) then
        modify (set_currentKey VOLUMEMUTE);; modify (set_isSwitchPressed 1);; _delay_ms 5
      else mret ()
    else
      p ← read_pinb;
      if high p ENC_SW then modify (set_isSwitchPressed 0);; _delay_ms 5 else mret ().

Definition usbFunctionSetup (data : list Z) (s : knob) : Z * knob :=
  let s := set_usbMsgPtr (Some ReportBuffer) s in
  if Z.land (nth 0 data 0) USBRQ_TYPE_MASK =? USBRQ_TYPE_CLASS then
    if nth 1 data 0 =? USBRQ_HID_GET_REPORT then (3, s)
    else if nth 1 data 0 =? USBRQ_HID_GET_IDLE then (1, set_usbMsgPtr (Some IdleRate) s)
    else if nth 1 data 0 =? USBRQ_HID_SET_IDLE then (0, set_idleRate (nth 3 data 0) s)
    else (0, s)
  else (0, s).

Section firmware.
Variable usbMeasureFrameLength : Z → Z.
Variable fuel : nat.

(** The calibration is the same code as the keyboard's. *)
Definition calibrate : K unit := zoom OSCCAL set_OSCCAL (calibrateOscillator usbMeasureFrameLength fuel).
Definition usbEventResetReady : K unit := calibrate.

(** What the USB driver calls back while it is polled. *)
Inductive callback := Setup (data : list Z) | ResetEnds.
Fixpoint usbPoll (cbs : list callback) : K unit :=
  match cbs with
  | [] => mret ()
  | Setup data :: cbs => modify (λ s, snd (usbFunctionSetup data s));; usbPoll cbs
  | ResetEnds :: cbs => usbEventResetReady;; usbPoll cbs
  end.

(** What one round of the main loop meets: callbacks, the readings of PINB,
    and whether the interrupt endpoint is free. *)
Record input := Input { callbacks : list callback; readings : list Z; usbInterruptIsReady : bool }.

Definition main_loop (i : input) : K unit :=
  usbPoll (callbacks i);;
  modify (set_PINB (readings i));;
  checkEncoder;;
  modify (λ s, if usbInterruptIsReady i && negb (nth 1 (reportBuffer s) 0 =? currentKey s) then
                 let s := set_reportBuffer (<[1%nat := currentKey s]> (reportBuffer s)) s in
                 set_sent (sent s ++ [reportBuffer s]) s
               else s).

Fixpoint disconnect_loop (n : nat) (i : Z) : K unit :=
  match n with
  | O => out_of_fuel
  | S n => let i := u8 (i - 1) in
           if negb (i =? 0) then _delay_ms 1;; disconnect_loop n i else mret ()
  end.

(** [main] up to the event loop. *)
Definition main_start : K unit :=
  disconnect_loop 256 0;;
  modify (λ s, set_PORTB (Z.lor (PORTB s) (Z.lor (Z.lor ENC_A ENC_B) ENC_SW)) s).

Fixpoint run (inputs : list input) : K unit :=
  match inputs with [] => mret () | i :: inputs => main_loop i;; run inputs end.
End firmware.

(** ** Which key a round reads, and which reports go out *)

(** The key of a round and the state of the switch after it, from the first
    two readings. *)
Definition decode (pressed : bool) (a b : Z) : Z * bool :=
  if high a ENC_A then
    if negb pressed && negb (high b ENC_SW) then (VOLUMEMUTE, true)
    else (0, pressed && negb (high b ENC_SW))
  else (if high b ENC_B then VOLUMEUP else VOLUMEDOWN, pressed).

(** The readings of a round let it end: the encoder comes to its detent. *)
Definition settles (pins : list Z) : bool :=
  match pins with
  | a :: b :: pins => high a ENC_A || existsb (λ p, high p ENC_A) pins
  | _ => false
  end.

Definition keys_of_round (pressed : bool) (i : input) : Z * bool :=
  decode pressed (nth 0 (readings i) 0) (nth 1 (readings i) 0).
Fixpoint keys (pressed : bool) (inputs : list input) : list (Z * bool) :=
  match inputs with
  | [] => []
  | i :: inputs => let '(k, pressed) := keys_of_round pressed i in
                   (k, usbInterruptIsReady i) :: keys pressed inputs
  end.

(** The keys that reach the host: those that differ from the last one sent,
    in the rounds in which the endpoint is free. *)
Fixpoint changes (last : Z) (ks : list (Z * bool)) : list Z :=
  match ks with
  | [] => []
  | (k, ready) :: ks => if ready && negb (last =? k) then k :: changes k ks else changes last ks
  end.
Definition report (k : Z) : list Z := [1; k; 0].

(** ** Proofs *)
Definition b2z (b : bool) : Z := if b then 1 else 0.
Record knob_ok (pressed : bool) (k : Z) (s : knob) : Prop := KnobOk {
  report_ok : reportBuffer s = report k;
  switch_ok : isSwitchPressed s = b2z pressed
}.

(** What [checkEncoder] leaves alone. *)
Definition keeps (s s' : knob) : Prop := reportBuffer s' = reportBuffer s ∧ sent s' = sent s.

Lemma read_pinb_done p pins s : PINB s = p :: pins → read_pinb s = Done p (set_PINB pins s).
Proof. intros E. unfold read_pinb. msimpl. by rewrite E. Qed.
Lemma read_pinb_blocked s : PINB s = [] → read_pinb s = Blocked.
Proof. intros E. unfold read_pinb. msimpl. by rewrite E. Qed.

Lemma wait_detent_spec n s : (length (PINB s) < n)%nat →
  if existsb (λ p, high p ENC_A) (PINB s) then
    ∃ s', wait_detent n s = Done () s' ∧ keeps s s' ∧ currentKey s' = currentKey s ∧
      isSwitchPressed s' = isSwitchPressed s
  else wait_detent n s = Blocked.
Proof.
  revert s. induction n as [|n IH]; intros s Hn; [lia|]. cbn [wait_detent].
  destruct (PINB s) as [|p pins] eqn:E; cbn [existsb].
  - unfold mbind, M_bind. by rewrite read_pinb_blocked.
  - mstep (read_pinb_done p pins s E).
    destruct (high p ENC_A); cbn [orb]; [by eexists|]. unfold _delay_ms. msimpl.
    set (s1 := set_waited_ms _ _). specialize (IH s1). simpl in Hn. cbn in IH. specialize (IH ltac:(lia)).
    change (PINB s1) with pins in IH. destruct (existsb _ pins); [|done].
    destruct IH as (s' & Hw & [Hr Hs] & Hc & Hi). exists s'. repeat split; done.
Qed.

Lemma checkEncoder_spec pressed s : isSwitchPressed s = b2z pressed →
  if settles (PINB s) then
    ∃ s', checkEncoder s = Done () s' ∧ keeps s s' ∧
      currentKey s' = fst (decode pressed (nth 0 (PINB s) 0) (nth 1 (PINB s) 0)) ∧
      isSwitchPressed s' = b2z (snd (decode pressed (nth 0 (PINB s) 0) (nth 1 (PINB s) 0)))
  else checkEncoder s = Blocked.
Proof.
  intros Hp. unfold checkEncoder. msimpl. set (s0 := set_currentKey 0 s).
  assert (Hp0 : isSwitchPressed s0 = b2z pressed) by done. unfold settles.
  change (PINB s) with (PINB s0). destruct (PINB s0) as [|a [|b pins]] eqn:E.
  { unfold mbind, M_bind. by rewrite read_pinb_blocked. }
  { mstep (read_pinb_done a [] s0 E). destruct (high a ENC_A); cbn [negb].
    - msimpl. change (isSwitchPressed (set_PINB [] s0)) with (isSwitchPressed s0). rewrite Hp0.
      unfold mbind, M_bind. by destruct pressed; cbn [b2z Z.eqb]; rewrite read_pinb_blocked.
    - unfold mbind, M_bind. by rewrite read_pinb_blocked. }
  mstep (read_pinb_done a (b :: pins) s0 E). cbn [nth]. unfold decode. destruct (high a ENC_A); cbn [negb orb].
  - msimpl. change (isSwitchPressed (set_PINB (b :: pins) s0)) with (isSwitchPressed s0). rewrite Hp0.
    destruct pressed; cbn [b2z Z.eqb negb andb]; mstep (read_pinb_done b pins (set_PINB (b :: pins) s0) eq_refl);
      destruct (high b ENC_SW); cbn [negb fst snd]; eexists; (split; [reflexivity|]); done.
  - mstep (read_pinb_done b pins (set_PINB (b :: pins) s0) eq_refl). msimpl.
    set (s1 := set_currentKey _ _). pose proof (wait_detent_spec (S (length (PINB s1))) s1 ltac:(lia)) as Hw.
    change (PINB s1) with pins in *. destruct (existsb _ pins); [|done].
    destruct Hw as (s' & Hw & [? ?] & Hc & Hi). exists s'. cbn [fst snd]. split_and!; [done|done| |].
    + by rewrite Hc.
    + by rewrite Hi.
Qed.

Section loop.
Variables (m : Z → Z) (fuel : nat).
(** The oscillator can be calibrated. *)
Definition calibrates : Prop := ∀ o, ∃ v, calibrateOscillator m fuel o = Done () v.

Lemma knob_poll_spec cbs s : calibrates → ∃ s', usbPoll m fuel cbs s = Done () s' ∧ keeps s s' ∧
  isSwitchPressed s' = isSwitchPressed s.
Proof.
  intros Hcal. revert s. induction cbs as [|[data|] cbs IH]; intros s; cbn [usbPoll]; [by eexists| |].
  - msimpl. destruct (IH (snd (usbFunctionSetup data s))) as (s' & Hu & [Hr Hs] & Hi). exists s'.
    split; [done|]. rewrite Hi. unfold keeps. rewrite Hr, Hs. unfold usbFunctionSetup. by repeat case_match.
  - unfold mbind, M_bind, usbEventResetReady, calibrate, zoom. destruct (Hcal (OSCCAL s)) as [v ->].
    destruct (IH (set_OSCCAL v s)) as (s' & Hu & Hk & Hi). by exists s'.
Qed.

Lemma main_loop_spec pressed k i s : calibrates → knob_ok pressed k s →
  if settles (readings i) then
    let '(key, pressed') := keys_of_round pressed i in
    let send := usbInterruptIsReady i && negb (k =? key) in
    ∃ s', main_loop m fuel i s = Done () s' ∧ knob_ok pressed' (if send then key else k) s' ∧
      sent s' = sent s ++ (if send then [report key] else [])
  else main_loop m fuel i s = Blocked.
Proof.
  intros Hcal [Hr Hp]. unfold main_loop. destruct (knob_poll_spec (callbacks i) s Hcal) as (s1 & Hu & [Hr1 Hs1] & Hp1).
  mstep Hu. msimpl. set (s2 := set_PINB (readings i) s1).
  assert (Hp2 : isSwitchPressed s2 = b2z pressed) by (change (isSwitchPressed s1 = b2z pressed); congruence).
  pose proof (checkEncoder_spec pressed s2 Hp2) as Hc. change (PINB s2) with (readings i) in Hc.
  destruct (settles (readings i)); [|unfold mbind, M_bind; by rewrite Hc].
  destruct Hc as (s3 & Hc & [Hr3 Hs3] & Hk & Hi). mstep Hc. unfold keys_of_round.
  destruct (decode pressed _ _) as [key pressed']. cbn [fst snd] in *. cbv zeta.
  assert (Hrep : reportBuffer s3 = report k) by (rewrite Hr3; change (reportBuffer s1 = report k); congruence).
  assert (Hsent : sent s3 = sent s) by (rewrite Hs3; exact Hs1).
  unfold modify.
  rewrite Hrep, Hk. change (nth 1 (report k) 0) with k.
  destruct (usbInterruptIsReady i && negb (k =? key)); eexists; (split; [reflexivity|]).
  - split; [by split|]. cbn. by rewrite Hsent.
  - split; [by split|]. by rewrite app_nil_r.
Qed.

Lemma run_spec inputs pressed k s : calibrates → knob_ok pressed k s →
  Forall (λ i, settles (readings i) = true) inputs →
  ∃ s', run m fuel inputs s = Done () s' ∧ sent s' = sent s ++ (report <$> changes k (keys pressed inputs)).
Proof.
  intros Hcal. revert pressed k s. induction inputs as [|i inputs IH]; intros pressed k s Hok Hall.
  { exists s. split; [done|]. cbn. by rewrite app_nil_r. }
  apply Forall_cons_1 in Hall as [Hi Hall]. pose proof (main_loop_spec pressed k i s Hcal Hok) as Hm.
  rewrite Hi in Hm. cbn [run keys]. destruct (keys_of_round pressed i) as [key pressed']. cbv zeta in Hm.
  destruct Hm as (s1 & Hm & Hok1 & Hs1). mstep Hm. cbn [changes].
  destruct (IH _ _ _ Hok1 Hall) as (s' & Hrun & Hs'). exists s'. split; [done|].
  rewrite Hs', Hs1. destruct (usbInterruptIsReady i && negb (k =? key)); cbn; by rewrite <- app_assoc.
Qed.
End loop.

(** ** The reports seen as a sequence *)
Lemma changes_differ last ks i a b : (last :: changes last ks) !! i = Some a →
  (last :: changes last ks) !! S i = Some b → a ≠ b.
Proof.
  revert last i. induction ks as [|[k ready] ks IH]; intros last i; [by destruct i|].
  cbn [changes]. destruct ready; cbn [andb]; [|by apply IH]. destruct (Z.eqb_spec last k) as [->|Hne]; cbn [negb].
  - apply IH.
  - destruct i as [|i]; [|by apply IH]. cbn. by intros [= <-] [= <-].
Qed.

Definition released (i : input) : bool := high (nth 0 (readings i) 0) ENC_A && high (nth 1 (readings i) 0) ENC_SW.

Lemma mute_after_press inputs j : fst <$> keys true inputs !! j = Some VOLUMEMUTE →
  ∃ n i, (n < j)%nat ∧ inputs !! n = Some i ∧ released i = true.
Proof.
  revert j. induction inputs as [|i inputs IH]; intros j; [by destruct j|]. cbn [keys].
  destruct (keys_of_round true i) as [k pressed'] eqn:E. unfold keys_of_round, decode in E. cbn [negb andb] in E.
  destruct j as [|j]; cbn.
  - intros [= ->]. repeat case_match; by injection E.
  - destruct (released i) eqn:Er.
    + intros _. exists 0%nat, i. split_and!; [lia|done..].
    + assert (pressed' = true) as ->.
      { unfold released in Er. destruct (high (nth 0 _ _) _), (high (nth 1 (readings i) 0) ENC_SW); cbn in *; by injection E. }
      intros (n & i' & ? & ? & ?)%IH. exists (S n), i'. split_and!; [lia|done..].
Qed.

Lemma mutes_apart inputs pressed j1 j2 : (j1 < j2)%nat →
  fst <$> keys pressed inputs !! j1 = Some VOLUMEMUTE → fst <$> keys pressed inputs !! j2 = Some VOLUMEMUTE →
  ∃ n i, (j1 < n < j2)%nat ∧ inputs !! n = Some i ∧ released i = true.
Proof.
  revert pressed j1 j2. induction inputs as [|i inputs IH]; intros pressed j1 j2 Hj; [by destruct j1|]. cbn [keys].
  destruct (keys_of_round pressed i) as [k pressed'] eqn:E. destruct j2 as [|j2]; [lia|]. destruct j1 as [|j1]; cbn.
  - intros [= ->] H2. assert (pressed' = true) as ->.
    { unfold keys_of_round, decode in E. repeat case_match; by injection E. }
    apply mute_after_press in H2 as (n & i' & ? & ? & ?). exists (S n), i'. split_and!; [lia..|done|done].
  - intros H1 H2. destruct (IH pressed' j1 j2 ltac:(lia) H1 H2) as (n & i' & ? & ? & ?).
    exists (S n), i'. split_and!; [lia..|done|done].
Qed.

Lemma knob_started osc s : main_start (reset_knob osc) = Done () s →
  knob_ok false 0 s ∧ sent s = [] ∧ waited_ms s = 255 ∧ PORTB s = 0x25.
Proof. intros H. vm_compute in H. injection H as <-. split_and!; [by split|reflexivity..]. Qed.

(** The reports of the volume knob.  From start-up, for any rounds of the
    main loop in which the encoder comes to its next detent (any requests and
    bus resets included), the firmware sends exactly the keys read in the
    rounds whose endpoint is free, without repetitions of the last one sent;
    so no two successive reports are equal.  Between two rounds that read the
    mute key there is one in which the switch was seen released.  If the
    encoder never comes to a detent, the round does not end. *)
Theorem knob_reports m fuel osc inputs s (Hcal : calibrates m fuel)
    (Hstart : main_start (reset_knob osc) = Done () s)
    (Hsettle : Forall (λ i, settles (readings i) = true) inputs) :
  (∃ s', run m fuel inputs s = Done () s' ∧ sent s' = report <$> changes 0 (keys false inputs)) ∧
  (∀ n a b, (0 :: changes 0 (keys false inputs)) !! n = Some a →
    (0 :: changes 0 (keys false inputs)) !! S n = Some b → a ≠ b) ∧
  (∀ j1 j2, (j1 < j2)%nat → fst <$> keys false inputs !! j1 = Some VOLUMEMUTE →
    fst <$> keys false inputs !! j2 = Some VOLUMEMUTE →
    ∃ n i, (j1 < n < j2)%nat ∧ inputs !! n = Some i ∧ released i = true) ∧
  (∀ i, settles (readings i) = false → main_loop m fuel i s = Blocked).
Proof.
  destruct (knob_started osc s Hstart) as (Hok & Hs & _). split_and!.
  - destruct (run_spec m fuel inputs false 0 s Hcal Hok Hsettle) as (s' & Hr & Hs'). exists s'.
    split; [done|]. by rewrite Hs', Hs.
  - apply changes_differ.
  - apply mutes_apart.
  - intros i Hi. pose proof (main_loop_spec m fuel false 0 i s Hcal Hok) as H. by rewrite Hi in H.
Qed.

(** ** Example: two clockwise detents in a row are one key press, and a turn
    while the endpoint is busy is none *)
Definition turn_up (ready : bool) : input := Input [] [0x05; 0x05; 0x05; 0x25] ready.
Definition rest : input := Input [ResetEnds] [0x25; 0x25] true.

Definition started_knob : knob := Eval vm_compute in
  match main_start (reset_knob 0) with Done _ s => s | _ => reset_knob 0 end.

Lemma knob_osc_calibrates : calibrates ex_osc 9.
Proof. intros o. eexists. vm_compute. reflexivity. Qed.

Lemma knob_reports_witness : ∃ s',
  run ex_osc 9 [turn_up true; turn_up true; rest; turn_up false; rest] started_knob = Done () s' ∧
  sent s' = [[1; VOLUMEUP; 0]; [1; 0; 0]].
Proof.
  refine (proj1 (knob_reports ex_osc 9 0 [turn_up true; turn_up true; rest; turn_up false; rest] started_knob
    knob_osc_calibrates _ _)).
  - vm_compute. reflexivity.
  - apply (bool_decide_unpack _). vm_compute. exact I.
Defined.
