(* ===== verification/Llctl.v ===== *)
(** * llctl.c: the LEDs of the LAN9512

    The tool [src/sources/utils/lan9512-blink/llctl.c]: its command line, the
    read-modify-write of the LED configuration register over USB, and what
    that makes of the three LEDs.  The state is the register of the device, what
    was printed, and [cmd_arr]; the rest of USB is a parameter: the devices on
    the busses.  [new_config] is never initialised, so its first value is a
    parameter too. *)

From stdpp Require Import base list strings.
From Stdlib Require Import ZArith Lia Ascii.
From S2P Require Import Prelude MkImageMain.

Open Scope Z_scope.

Definition NET_VENDOR_ID : Z := 0x0424.
Definition NET_PRODUCT_ID : Z := 0xec00.
Definition GPIDX : Z := 0.
Definition DUPIDX : Z := 0.
Definition LNKIDX : Z := 1.
Definition SPDIDX : Z := 2.
Definition DUP_LED : Z := 0x001.
Definition LNK_LED : Z := 0x010.
Definition SPD_LED : Z := 0x100.
Definition DUP_LED_OVR : Z := 0x1.
Definition LNK_LED_OVR : Z := 0x2.
Definition SPD_LED_OVR : Z := 0x4.
Definition DUP_MASK : Z := Z.lor (Z.shiftl DUP_LED 16) (Z.shiftl DUP_LED_OVR 4).
Definition LNK_MASK : Z := Z.lor (Z.shiftl LNK_LED 16) (Z.shiftl LNK_LED_OVR 4).
Definition SPD_MASK : Z := Z.lor (Z.shiftl SPD_LED 16) (Z.shiftl SPD_LED_OVR 4).
Definition MODE_OFF : Z := 0.
Definition MODE_ON : Z := 1.
Definition MODE_STATUS : Z := 2.
Definition MODE_TOGGLE : Z := 3.
Definition MODE_KEEP : Z := 15.
Definition MODE_WRITE : Z := 16.
Definition MODE_READ : Z := 17.
Definition MODE_ERR : Z := -1.

Record lan := Lan {
  config : Z;
  printed : list Z;
  cmd_arr : list Z
}.
Definition set_config v (s : lan) := Lan v (printed s) (cmd_arr s).
Definition set_cmd_arr v (s : lan) := Lan (config s) (printed s) v.
Definition add_printed v (s : lan) := Lan (config s) (printed s ++ [v]) (cmd_arr s).

Abbreviation K := (M lan).

Definition usage {A} : K A := exit_ 1.
Definition show_err {A} : K A := usage.

Definition ledmode (c : ascii) : Z :=
  let mode := MODE_ERR in
  let mode := if Ascii.eqb c "0" then MODE_OFF else mode in
  let mode := if Ascii.eqb c "1" then MODE_ON else mode in
  let mode := if Ascii.eqb c "s" then MODE_STATUS else mode in
  if Ascii.eqb c "t" then MODE_TOGGLE else mode.

(** A write to [cmd_arr[index]]; the array has three elements. *)
Definition put_cmd (index v : Z) : K unit :=
  if (0 <=? index) && (index <? 3) then modify (λ s, set_cmd_arr (<[Z.to_nat index := v]> (cmd_arr s)) s)
  else oops.

Section code.
(** The size of a [long], and the devices on the busses as pairs of vendor and
    product. *)
Variable sizeof_long : nat.
Variable devices : list (Z * Z).
(** What the uninitialised [new_config], and [config] of [get_config], hold. *)
Variables garbage config_garbage : Z.
(** Whether the device answers the control requests; nobody looks. *)
Variables read_ok write_ok : bool.

(** [strtol(s, NULL, 16)]. *)
Definition strtol16 (s : string) : Z :=
  let '(neg, t) := sign_of (skip_white s) in
  let t' := match t with
            | String "0" (String x (String c r)) =>
                if (Ascii.eqb x "x" || Ascii.eqb x "X") && bool_decide (is_Some (hex_val c))
                then String c r else t
            | _ => t
            end in
  let v := (hex_digits 0 t').1 in
  let max := (ULONG_MAX sizeof_long + 1) / 2 in
  if neg then Z.max (- v) (- max) else Z.min v (max - 1).

Definition parse_cmdline (str : string) : K Z :=
  match str with
  | String "r" "" => mret MODE_READ
  | String "w" (String c str) => put_cmd GPIDX (int32 (strtol16 (String c str)));; mret MODE_WRITE
  | String a (String b "") =>
      let index := -1 in
      let index := if Ascii.eqb a "d" then DUPIDX else index in
      let index := if Ascii.eqb a "l" then LNKIDX else index in
      let index := if Ascii.eqb a "f" then SPDIDX else index in
      put_cmd index (ledmode b);; mret index
  | _ => show_err
  end.

Definition get_config (output : bool) : K Z :=
  v ← gets (λ s, if read_ok then config s else config_garbage);
  (if output then modify (add_printed v) else mret ());; mret v.
Definition write_config (v : Z) : K unit := if write_ok then modify (set_config (u32 v)) else mret ().

(** The first matching device.  Without one the function has no return
    statement, and the caller opens whatever it gets. *)
Definition get_usb_device : K unit :=
  if existsb (λ d, (fst d =? NET_VENDOR_ID) && (snd d =? NET_PRODUCT_ID)) devices then mret () else oops.

(** The loop over the arguments.  Reading and writing the raw register end the
    program. *)
Fixpoint args_loop (args : list string) : K unit :=
  match args with
  | [] => mret ()
  | a :: args =>
      res ← parse_cmdline a;
      if res <? 0 then show_err
      else if MODE_WRITE <=? res then
        get_usb_device;;
        (if res =? MODE_READ then get_config true;; mret () else mret ());;
        (if res =? MODE_WRITE then v ← gets (λ s, nth 0 (cmd_arr s) 0); write_config (u32 v) else mret ());;
        exit_ 0
      else args_loop args
  end.

(** One round of the loop over the LEDs. *)
Definition new_led (cmd mask cur : Z) : Z :=
  let c := Z.land cur mask in
  let c := if (cmd =? MODE_TOGGLE) && (c <? 65536) then Z.lxor c (Z.land mask 0xffff) else c in
  let c := if cmd =? MODE_ON then Z.lor (Z.land c (Z.lxor 0xffff0000 mask)) (Z.land mask 0xffff) else c in
  let c := if cmd =? MODE_OFF then Z.land c (Z.lxor (Z.land mask 0xffff) 0xffff) else c in
  if cmd =? MODE_STATUS then
    Z.lor (Z.land c (Z.lxor (Z.land mask 0xffff) 0xffff)) (Z.land mask 0xffff0000)
  else c.

Definition mask_arr : list Z := [DUP_MASK; LNK_MASK; SPD_MASK].
Definition leds_loop (cmds : list Z) (cur : Z) : Z :=
  foldl (λ new cm, Z.lor new (new_led (fst cm) (snd cm) cur)) garbage (zip cmds mask_arr).

(** [args] are the arguments after the program's name. *)
Definition main (args : list string) : K Z :=
  (if (length args <? 1)%nat then show_err else mret ());;
  modify (set_cmd_arr [MODE_KEEP; MODE_KEEP; MODE_KEEP]);;
  args_loop args;;
  get_usb_device;;
  cur_config ← get_config false;
  cmds ← gets cmd_arr;
  write_config (leds_loop cmds cur_config);;
  mret 0.
End code.

(** ** What the LEDs show *)
Inductive led := Off | On | Status.
#[export] Instance led_eq_dec : EqDecision led.
Proof. solve_decision. Defined.

(** LED [i] of a register value: 0 duplex, 1 link, 2 speed. *)
Definition led_of (v i : Z) : led :=
  if Z.testbit v (16 + 4 * i) then Status else if Z.testbit v (4 + i) then On else Off.

Inductive action := SetOff | SetOn | ShowStatus | Toggle.
Definition apply (a : option action) (l : led) : led :=
  match a, l with
  | None, l => l
  | Some SetOff, _ => Off
  | Some SetOn, _ => On
  | Some ShowStatus, _ => Status
  | Some Toggle, Off => On
  | Some Toggle, On => Off
  | Some Toggle, Status => Status
  end.

(** An argument for an LED, as it is typed. *)
Definition action_char (a : action) : ascii :=
  match a with SetOff => "0" | SetOn => "1" | ShowStatus => "s" | Toggle => "t" end.
Definition led_char (i : nat) : ascii := match i with O => "d" | 1%nat => "l" | _ => "f" end.
Definition arg_of (c : nat * action) : string := String (led_char (fst c)) (String (action_char (snd c)) "").

(** The last argument for LED [i] counts. *)
Fixpoint action_for (i : nat) (cs : list (nat * action)) (start : option action) : option action :=
  match cs with
  | [] => start
  | (j, a) :: cs => action_for i cs (if decide (i = j) then Some a else start)
  end.

Definition code (a : option action) : Z :=
  match a with
  | None => MODE_KEEP | Some SetOff => MODE_OFF | Some SetOn => MODE_ON
  | Some ShowStatus => MODE_STATUS | Some Toggle => MODE_TOGGLE
  end.

(** ** The register, LED by LED *)

(** The two bits of LED [i], and what a command makes of them. *)
Definition field (i : Z) (hi lo : bool) : Z :=
  Z.lor (Z.shiftl (Z.b2z hi) (16 + 4 * i)) (Z.shiftl (Z.b2z lo) (4 + i)).
Definition step (a : option action) (hi lo : bool) : bool * bool :=
  match a with
  | None => (hi, lo)
  | Some SetOff => (false, false)
  | Some SetOn => (false, true)
  | Some ShowStatus => (true, false)
  | Some Toggle => (hi, if hi then lo else negb lo)
  end.
Definition mask (i : Z) : Z := field i true true.

Lemma b2z_bit b n : 0 ≤ n → Z.testbit (Z.b2z b) n = b && (n =? 0).
Proof.
  intros Hn. destruct (Z.eqb_spec n 0) as [->|]; [by rewrite Z.b2z_bit0, andb_true_r|].
  rewrite andb_false_r. destruct b; [|apply Z.bits_0]. change (Z.b2z true) with (2 ^ 0). apply Z.pow2_bits_false. lia.
Qed.

Lemma field_bit i hi lo n : 0 ≤ i → 0 ≤ n →
  Z.testbit (field i hi lo) n = hi && (n =? 16 + 4 * i) || lo && (n =? 4 + i).
Proof.
  intros Hi Hn. unfold field. rewrite Z.lor_spec, !Z.shiftl_spec by lia. f_equal.
  - destruct (decide (16 + 4 * i ≤ n)).
    + rewrite b2z_bit by lia. f_equal. destruct (Z.eqb_spec (n - (16 + 4 * i)) 0), (Z.eqb_spec n (16 + 4 * i)); lia.
    + rewrite Z.testbit_neg_r, (proj2 (Z.eqb_neq _ _)), andb_false_r by lia. done.
  - destruct (decide (4 + i ≤ n)).
    + rewrite b2z_bit by lia. f_equal. destruct (Z.eqb_spec (n - (4 + i)) 0), (Z.eqb_spec n (4 + i)); lia.
    + rewrite Z.testbit_neg_r, (proj2 (Z.eqb_neq _ _)), andb_false_r by lia. done.
Qed.

Lemma masked cur i : 0 ≤ i → Z.land cur (mask i) = field i (Z.testbit cur (16 + 4 * i)) (Z.testbit cur (4 + i)).
Proof.
  intros Hi. apply Z.bits_inj'. intros n Hn. unfold mask. rewrite Z.land_spec, !field_bit by done. cbn [andb].
  destruct (Z.eqb_spec n (16 + 4 * i)) as [E|], (Z.eqb_spec n (4 + i)) as [E'|]; [lia| | |];
    rewrite ?E, ?E'; cbn [orb]; by rewrite ?andb_true_r, ?andb_false_r, ?orb_false_r.
Qed.

Definition is_led (i : Z) : Prop := i = 0 ∨ i = 1 ∨ i = 2.

Lemma new_led_field a i cur : is_led i → let '(hi, lo) := step a (Z.testbit cur (16 + 4 * i)) (Z.testbit cur (4 + i)) in
  new_led (code a) (mask i) cur = field i hi lo.
Proof.
  intros Hi. unfold new_led. rewrite masked by (unfold is_led in Hi; lia).
  generalize (Z.testbit cur (16 + 4 * i)), (Z.testbit cur (4 + i)). intros hi lo.
  destruct Hi as [->|[->| ->]], a as [[]|], hi, lo; vm_compute; reflexivity.
Qed.

Section leds.
Variables (a0 a1 a2 : option action) (cur : Z).
Definition act_of (i : Z) : option action := if i =? 0 then a0 else if i =? 1 then a1 else a2.
Definition leds : Z := Z.lor (Z.lor (new_led (code a0) DUP_MASK cur) (new_led (code a1) LNK_MASK cur))
  (new_led (code a2) SPD_MASK cur).

Lemma leds_loop_spec g : leds_loop g (code <$> [a0; a1; a2]) cur = Z.lor g leds.
Proof. unfold leds_loop, leds. cbn. by rewrite !Z.lor_assoc. Qed.

Definition led_bits (i n : Z) : bool :=
  let '(hi, lo) := step (act_of i) (Z.testbit cur (16 + 4 * i)) (Z.testbit cur (4 + i)) in
  hi && (n =? 16 + 4 * i) || lo && (n =? 4 + i).

Lemma leds_bit n : 0 ≤ n → Z.testbit leds n = led_bits 0 n || led_bits 1 n || led_bits 2 n.
Proof.
  intros Hn. unfold leds. rewrite !Z.lor_spec.
  assert (H : ∀ i, is_led i → Z.testbit (new_led (code (act_of i)) (mask i) cur) n = led_bits i n).
  { intros i Hi. pose proof (new_led_field (act_of i) i cur Hi) as H. unfold led_bits.
    destruct (step _ _ _) as [hi lo]. rewrite H. apply field_bit; [unfold is_led in Hi; lia|done]. }
  rewrite <- (H 0), <- (H 1), <- (H 2) by (unfold is_led; lia). done.
Qed.

Lemma led_bits_none i n : n ≠ 16 + 4 * i → n ≠ 4 + i → led_bits i n = false.
Proof.
  intros. unfold led_bits. destruct (step _ _ _) as [hi lo].
  rewrite (proj2 (Z.eqb_neq n (16 + 4 * i))), (proj2 (Z.eqb_neq n (4 + i))) by done. by rewrite !andb_false_r.
Qed.

Lemma led_bits_hi i : 0 ≤ i → led_bits i (16 + 4 * i) =
  fst (step (act_of i) (Z.testbit cur (16 + 4 * i)) (Z.testbit cur (4 + i))).
Proof.
  intros. unfold led_bits. destruct (step _ _ _) as [hi lo].
  rewrite Z.eqb_refl, (proj2 (Z.eqb_neq (16 + 4 * i) (4 + i))) by lia. by rewrite andb_true_r, andb_false_r, orb_false_r.
Qed.

Lemma led_bits_lo i : 0 ≤ i → led_bits i (4 + i) =
  snd (step (act_of i) (Z.testbit cur (16 + 4 * i)) (Z.testbit cur (4 + i))).
Proof.
  intros. unfold led_bits. destruct (step _ _ _) as [hi lo].
  rewrite Z.eqb_refl, (proj2 (Z.eqb_neq (4 + i) (16 + 4 * i))) by lia. by rewrite andb_true_r, andb_false_r.
Qed.

Lemma leds_range : 0 ≤ leds < 2 ^ 32.
Proof.
  assert (H0 : 0 ≤ leds).
  { assert (H : ∀ i, is_led i → 0 ≤ new_led (code (act_of i)) (mask i) cur).
    { intros i Hi. pose proof (new_led_field (act_of i) i cur Hi) as H. destruct (step _ _ _) as [hi lo].
      rewrite H. unfold field. apply Z.lor_nonneg. split; apply Z.shiftl_nonneg; by destruct hi, lo. }
    unfold leds. rewrite !Z.lor_nonneg. split_and!; [exact (H 0 ltac:(unfold is_led; lia))
      | exact (H 1 ltac:(unfold is_led; lia)) | exact (H 2 ltac:(unfold is_led; lia))]. }
  split; [done|]. apply (Z.bounded_iff_bits_nonneg 32); [lia..|]. intros n Hn.
  by rewrite leds_bit, !led_bits_none by lia.
Qed.

Lemma leds_at i n : is_led i → n = 16 + 4 * i ∨ n = 4 + i → Z.testbit leds n = led_bits i n.
Proof.
  intros Hi Hn. rewrite leds_bit by (unfold is_led in Hi; lia).
  destruct Hi as [->|[->| ->]].
  - by rewrite (led_bits_none 1), (led_bits_none 2), !orb_false_r by lia.
  - by rewrite (led_bits_none 0), (led_bits_none 2), orb_false_r by lia.
  - by rewrite (led_bits_none 0), (led_bits_none 1) by lia.
Qed.

Lemma leds_right i : is_led i → led_of leds i = apply (act_of i) (led_of cur i).
Proof.
  intros Hi. unfold led_of. rewrite !(leds_at i) by (done || lia).
  rewrite led_bits_hi, led_bits_lo by (unfold is_led in Hi; lia).
  by destruct (act_of i) as [[]|], (Z.testbit cur (16 + 4 * i)), (Z.testbit cur (4 + i)).
Qed.
End leds.

(** ** The command line *)
Section run.
Variables (L : nat) (devices : list (Z * Z)) (g cg : Z) (rok wok : bool).

Definition with_action (i : nat) (c : nat * action) (a : option action) : option action :=
  if decide (i = fst c) then Some (snd c) else a.

Lemma parse_action c a0 a1 a2 s : (fst c < 3)%nat → cmd_arr s = code <$> [a0; a1; a2] →
  parse_cmdline L (arg_of c) s =
  Done (Z.of_nat (fst c)) (set_cmd_arr (code <$> [with_action 0 c a0; with_action 1 c a1; with_action 2 c a2]) s).
Proof.
  intros Hi Hs. destruct c as [[|[|[|i]]] a]; cbn in Hi; [| | |lia]; destruct s as [cfg pr arr]; cbn in Hs; subst arr;
    destruct a; vm_compute; reflexivity.
Qed.

Lemma args_loop_actions cs a0 a1 a2 s : Forall (λ c, (fst c < 3)%nat) cs → cmd_arr s = code <$> [a0; a1; a2] →
  args_loop L devices cg rok wok (arg_of <$> cs) s =
  Done () (set_cmd_arr (code <$> [action_for 0 cs a0; action_for 1 cs a1; action_for 2 cs a2]) s).
Proof.
  intros Hcs. revert a0 a1 a2 s. induction Hcs as [|[i a] cs Hi Hcs IH]; intros a0 a1 a2 s Hs.
  { destruct s. cbn in *. by subst. }
  cbn [fmap list_fmap args_loop]. mstep (parse_action (i, a) a0 a1 a2 s Hi Hs). cbn [fst] in *.
  rewrite (proj2 (Z.ltb_ge _ _)) by lia. rewrite (proj2 (Z.leb_gt MODE_WRITE _)) by (unfold MODE_WRITE; lia).
  by rewrite (IH (with_action 0 (i, a) a0) (with_action 1 (i, a) a1) (with_action 2 (i, a) a2)) by done.
Qed.
End run.

(** The LEDs end up as asked.  With the device present and answering, any
    non-empty list of LED arguments makes the tool write the bitwise or of the
    uninitialised [new_config] and a value [w].  In [w] every LED is as its
    last argument says: off, on, showing the status, or toggled (an LED that
    shows the status stays so), and an LED without argument is as it was; the
    bits that belong to no LED are zero.  So the result is right when
    [new_config] happens to be zero, and can otherwise not turn off a bit that
    is set there. *)
Theorem llctl_sets_leds L devices g cg cs s (Hg : 0 ≤ g < 2 ^ 32) (Hne : cs ≠ [])
    (Hcs : Forall (λ c, (fst c < 3)%nat) cs)
    (Hdev : existsb (λ d, (fst d =? NET_VENDOR_ID) && (snd d =? NET_PRODUCT_ID)) devices = true) :
  ∃ s' w, main L devices g cg true true (arg_of <$> cs) s = Done 0 s' ∧ printed s' = printed s ∧
    config s' = Z.lor g w ∧
    (∀ i, (i < 3)%nat → led_of w (Z.of_nat i) = apply (action_for i cs None) (led_of (config s) (Z.of_nat i))) ∧
    (∀ n, 0 ≤ n → ¬ (4 ≤ n < 7) → n ≠ 16 → n ≠ 20 → n ≠ 24 → Z.testbit w n = false).
Proof.
  set (w := leds (action_for 0 cs None) (action_for 1 cs None) (action_for 2 cs None) (config s)).
  exists (Lan (Z.lor g w) (printed s) (code <$> [action_for 0 cs None; action_for 1 cs None; action_for 2 cs None])), w.
  assert (Hu : u32 (Z.lor g w) = Z.lor g w).
  { pose proof (leds_range (action_for 0 cs None) (action_for 1 cs None) (action_for 2 cs None) (config s)) as Hw.
    fold w in Hw. apply u32_small. split; [apply Z.lor_nonneg; lia|].
    apply (Z.bounded_iff_bits_nonneg 32); [lia|apply Z.lor_nonneg; lia|]. intros n Hn.
    rewrite Z.lor_spec. apply orb_false_iff. split; apply (Z.bounded_iff_bits_nonneg 32); lia. }
  split_and!; [|done|done| |].
  - unfold main. destruct cs as [|c cs']; [done|]. cbn [fmap list_fmap length Nat.ltb Nat.leb]. msimpl.
    set (s0 := set_cmd_arr _ s). mstep (args_loop_actions L devices cg true true (c :: cs') None None None s0 Hcs eq_refl).
    set (s1 := set_cmd_arr _ s0). rewrite (bind_done _ _ s1 () s1) by (unfold get_usb_device; by rewrite Hdev).
    rewrite (bind_done _ _ s1 (config s) s1) by done. msimpl. unfold write_config. msimpl.
    cbn [cmd_arr set_cmd_arr s1]. rewrite leds_loop_spec. fold w. by rewrite Hu.
  - intros i Hi. unfold w. rewrite leds_right by (unfold is_led; lia).
    by destruct i as [|[|[|i]]]; [| | |lia].
  - intros n Hn N1 N2 N3 N4. unfold w. by rewrite leds_bit, !led_bits_none by lia.
Qed.

(** ** Example: link LED off, speed LED toggled *)
Definition ex_lan : lan := Lan 0x1100040 [] [].
Lemma llctl_sets_leds_witness : ∃ s' w,
  main 4 [(0x1d6b, 2); (0x0424, 0xec00)] 0 0 true true ["l0"; "ft"; "f1"] ex_lan = Done 0 s' ∧
  config s' = Z.lor 0 w ∧ led_of w 1 = Off ∧ led_of w 2 = On.
Proof.
  destruct (llctl_sets_leds 4 [(0x1d6b, 2); (0x0424, 0xec00)] 0 0 [(1%nat, SetOff); (2%nat, Toggle); (2%nat, SetOn)] ex_lan)
    as (s' & w & Hm & _ & Hc & Hl & _).
  - split; [discriminate|reflexivity].
  - discriminate.
  - apply (bool_decide_unpack _). vm_compute. exact I.
  - reflexivity.
  - exists s', w. split; [exact Hm|]. split; [exact Hc|].
    split; [exact (Hl 1%nat ltac:(lia)) | exact (Hl 2%nat ltac:(lia))].
Defined.
