(* ===== verification/UsbIss.v ===== *)
(** * i2c-devantech-iss.c: an i2c bus behind a Devantech USB-ISS

    The driver [src/sources/kmods/usb-iss/kmod/i2c-devantech-iss.c]: i2c
    messages become one command string of at most 60 bytes for the USB device,
    which answers with a status and what it has read.  The device is a
    parameter, a machine with two bulk pipes.  [decode] is a reference
    interpreter of the command strings; the theorems say that the string of a
    transfer means its messages, when a string fits the buffer, what the
    answer becomes, and that a device leaves nothing behind. *)

From stdpp Require Import base list.
From Stdlib Require Import ZArith Lia.
From S2P Require Import Prelude.

Definition ISS_CMD_I2C_DIRECT : Z := 0x57.
Definition ISS_CMD_I2C_INTERNAL : Z := 0x5a.
Definition ISS_I2C_START : Z := 0x01.
Definition ISS_I2C_RESTART : Z := 0x02.
Definition ISS_I2C_STOP : Z := 0x03.
Definition ISS_I2C_NACK : Z := 0x04.
Definition ISS_I2C_READ (n : Z) : Z := 0x20 + n - 1.
Definition ISS_I2C_WRITE (n : Z) : Z := 0x30 + n - 1.
Definition ISS_GET_VERSION : Z := 0x01.
Definition ISS_MODE : Z := 0x02.
Definition ISS_GET_SERIAL : Z := 0x03.
Definition ISS_MODE_I2C_S_20KHZ : Z := 0x20.
Definition ISS_MODE_I2C_S_50KHZ : Z := 0x30.
Definition ISS_MODE_I2C_H_100KHZ : Z := 0x60.
Definition ISS_MODE_I2C_H_400KHZ : Z := 0x70.
Definition ISS_MODE_I2C_H_1000KHZ : Z := 0x80.
Definition ISS_RESP_NACK : Z := 0x00.
Definition ISS_RESP_DEV_ERROR : Z := 0x01.
Definition ISS_MAX_TRANSFER_LEN : Z := 60.

Definition I2C_M_RD : Z := 1.
Definition I2C_M_RECV_LEN : Z := 0x0400.
Definition I2C_SMBUS_BLOCK_MAX : Z := 32.
Definition EIO : Z := 5.
Definition ENXIO : Z := 6.
Definition ENOMEM : Z := 12.
Definition EBUSY : Z := 16.
Definition ENODEV : Z := 19.
Definition EINVAL : Z := 22.
Definition EPROTO : Z := 71.

(** A message: the 16-bit address, flags and length, and the memory behind its
    buffer pointer. *)
Record i2c_msg := I2cMsg { addr : Z; flags : Z; m_len : Z; buf : list Z }.
Definition is_rd (m : i2c_msg) : bool := negb (Z.land (flags m) I2C_M_RD =? 0).
Definition recv_len (m : i2c_msg) : bool := negb (Z.land (flags m) I2C_M_RECV_LEN =? 0).

(** What the driver holds of the kernel: objects from [kzalloc], references on
    the USB device and on the data interface, the claim on the data interface,
    the data pointers of the two interfaces, the adapter in the i2c core. *)
Record held := Held {
  kzalloced : Z; dev_refs : Z; intf_refs : Z; claimed : bool;
  ctl_data : bool; if_data : bool; adapter : bool
}.
Definition nothing : held := Held 0 0 0 false false false false.

Section driver.
(** The device: its state, what a bulk transfer to it returns, and what a bulk
    transfer from it returns with the bytes it delivers. *)
Context {D : Type}.
Variable bulk_out : list Z → D → Z * D.
Variable bulk_in : D → Z * list Z * D.

(** The device, what was sent to it, the buffer of the driver, the module
    parameter, and what is held. *)
Record iss := Iss {
  device : D; sent : list (list Z); buffer : list Z; frequency : Z; kernel : held
}.
Definition set_buffer v (s : iss) := Iss (device s) (sent s) v (frequency s) (kernel s).
Definition set_frequency v (s : iss) := Iss (device s) (sent s) (buffer s) v (kernel s).
Definition set_kernel v (s : iss) := Iss (device s) (sent s) (buffer s) (frequency s) v.

Abbreviation K := (M iss).

(** [dev->buffer[i] = b] and [dev->buffer[i]]; the buffer has 60 bytes. *)
Definition store (i b : Z) : K unit := λ s,
  if (0 <=? i) && (i <? ISS_MAX_TRANSFER_LEN)
  then Done () (set_buffer (<[Z.to_nat i := u8 b]> (buffer s)) s) else Oops.
Definition fetch (i : Z) : K Z := λ s,
  if 0 <=? i then of_opt (buffer s !! Z.to_nat i) s else Oops.
(** [dev->buffer[len++] = b]. *)
Definition emit (len b : Z) : K Z := store len b;; mret (len + 1).

(** ** The USB layer *)
Definition usb_send (len : Z) : K Z := λ s,
  let out := take (Z.to_nat len) (buffer s) in
  let '(r, d) := bulk_out out (device s) in
  Done r (Iss d (sent s ++ [out]) (buffer s) (frequency s) (kernel s)).
(** The bytes go to the start of the buffer; the result and [actual]. *)
Definition usb_receive : K (Z * Z) := λ s,
  let '(r, bytes, d) := bulk_in (device s) in
  Done (r, Z.of_nat (length bytes))
    (Iss d (sent s) (bytes ++ drop (length bytes) (buffer s)) (frequency s) (kernel s)).

Definition devantech_usb_transfer (len : Z) : K Z :=
  if (len <=? 0) || (ISS_MAX_TRANSFER_LEN <? len) then mret (- EINVAL)
  else
    ret ← usb_send len;
    if ret =? 0 then
      '(ret, actual) ← usb_receive;
      mret (if (ret =? 0) && (0 <? actual) then actual else ret)
    else mret ret.

Definition devantech_set_speed (speed : Z) : K Z :=
  store 0 ISS_CMD_I2C_INTERNAL;; store 1 ISS_MODE;; store 2 speed;; store 3 0x04;;
  ret ← devantech_usb_transfer 4;
  if ret <? 0 then mret ret
  else b ← fetch 0; mret (if b =? 0 then - EINVAL else 0).

Definition devantech_fw_version : K unit :=
  store 0 ISS_CMD_I2C_INTERNAL;; store 1 ISS_GET_VERSION;;
  devantech_usb_transfer 2;; mret ().

Definition devantech_get_serial : K unit :=
  store 0 ISS_CMD_I2C_INTERNAL;; store 1 ISS_GET_SERIAL;;
  ret ← devantech_usb_transfer 2;
  if 8 <=? ret then store ret 0 else mret ().

(** The speed byte and the frequency it stands for. *)
Definition select_speed (frequency : Z) : Z * Z :=
  if 1000000 <=? frequency then (ISS_MODE_I2C_H_1000KHZ, 1000000)
  else if 400000 <=? frequency then (ISS_MODE_I2C_H_400KHZ, 400000)
  else if (100000 <=? frequency) || (frequency =? 0) then (ISS_MODE_I2C_H_100KHZ, 100000)
  else if 50000 <=? frequency then (ISS_MODE_I2C_S_50KHZ, 50000)
  else (ISS_MODE_I2C_S_20KHZ, 20000).

Definition devantech_init : K Z :=
  f ← gets frequency;
  modify (set_frequency (select_speed f).2);;
  devantech_fw_version;;
  devantech_get_serial;;
  devantech_set_speed (select_speed f).1.

(** ** The i2c layer *)

(** [while (rlen > 16)]: the index and what is left to read. *)
Fixpoint read_loop (fuel : nat) (len rlen : Z) : K (Z * Z) :=
  match fuel with
  | O => out_of_fuel
  | S fuel =>
      if 16 <? rlen then len ← emit len (ISS_I2C_READ 16); read_loop fuel len (rlen - 16)
      else mret (len, rlen)
  end.

Definition read_msg (pmsg : i2c_msg) (len : Z) : K Z :=
  len ← emit len (ISS_I2C_WRITE 1);
  len ← emit len (Z.lor (Z.shiftl (addr pmsg) 1) 1);
  if recv_len pmsg then
    len ← emit len (ISS_I2C_READ 16);
    len ← emit len (ISS_I2C_READ 16);
    len ← emit len ISS_I2C_NACK;
    emit len (ISS_I2C_READ 1)
  else
    let rlen := m_len pmsg in
    let rlen := if ISS_MAX_TRANSFER_LEN - 8 <? rlen then ISS_MAX_TRANSFER_LEN - 8 else rlen in
    '(len, rlen) ← read_loop 4 len rlen;
    len ← (if 1 <? rlen then emit len (ISS_I2C_READ (rlen - 1)) else mret len);
    len ← emit len ISS_I2C_NACK;
    emit len (ISS_I2C_READ 1).

(** [for (j = 0; j < clen; j++)], [j] counted down by [n]. *)
Fixpoint data_loop (b : list Z) (n : nat) (pos len : Z) : K Z :=
  match n with
  | O => mret len
  | S n => c ← of_opt (b !! Z.to_nat pos); len ← emit len c; data_loop b n (pos + 1) len
  end.

(** The chunks of a write; [None] is the jump to [error] with [-EINVAL]. *)
Fixpoint write_loop (fuel : nat) (pmsg : i2c_msg) (rlen len : Z) : K (option Z) :=
  if rlen <? m_len pmsg then
    match fuel with
    | O => out_of_fuel
    | S fuel =>
        let clen := Z.min (m_len pmsg - rlen) 16 in
        if ISS_MAX_TRANSFER_LEN - 2 <? len + clen then mret None
        else
          len ← emit len (ISS_I2C_WRITE clen);
          len ← data_loop (buf pmsg) (Z.to_nat clen) rlen len;
          write_loop fuel pmsg (rlen + 16) len
    end
  else mret (Some len).

Definition write_msg (pmsg : i2c_msg) (len : Z) : K (option Z) :=
  len ← emit len (ISS_I2C_WRITE 1);
  len ← emit len (Z.shiftl (addr pmsg) 1);
  write_loop (Z.to_nat (m_len pmsg)) pmsg 0 len.

Fixpoint msgs_loop (msgs : list i2c_msg) (i len : Z) : K (option Z) :=
  match msgs with
  | [] => mret (Some len)
  | pmsg :: msgs =>
      len ← (if negb (i =? 0) then emit len ISS_I2C_RESTART else mret len);
      r ← (if is_rd pmsg then Some <$> read_msg pmsg len else write_msg pmsg len);
      match r with
      | None => mret None
      | Some len => msgs_loop msgs (i + 1) len
      end
  end.

(** [pmsg->buf[i] = dev->buffer[i + 2]]; the memory behind the pointer. *)
Fixpoint copy_loop (n : nat) (i : Z) (b : list Z) : K (list Z) :=
  match n with
  | O => mret b
  | S n =>
      c ← fetch (i + 2);
      if i <? Z.of_nat (length b) then copy_loop n (i + 1) (<[Z.to_nat i := c]> b) else oops
  end.

(** The checks of the answer: the error the transfer returns, if any. *)
Definition answer_error (ret : Z) : K (option Z) :=
  if ret <? 0 then mret (Some ret)
  else if ret <? 2 then mret (Some (- EIO))
  else
    b0 ← fetch 0;
    if b0 =? ISS_RESP_NACK then
      b1 ← fetch 1; mret (Some (if b1 =? ISS_RESP_DEV_ERROR then - ENXIO else - EIO))
    else mret None.

(** What was read goes to [pmsg], the last message: the result and the
    message. *)
Definition take_answer (ret : Z) (pmsg : i2c_msg) : K (Z * i2c_msg) :=
  if is_rd pmsg then
    if recv_len pmsg then
      rlen ← fetch 2;
      if (rlen =? 0) || (I2C_SMBUS_BLOCK_MAX <? rlen) || (ret - 2 <? rlen) then mret (- EPROTO, pmsg)
      else
        let len := u16 (m_len pmsg + rlen) in
        b ← copy_loop (Z.to_nat len) 0 (buf pmsg);
        mret (0, I2cMsg (addr pmsg) (flags pmsg) len b)
    else
      b ← copy_loop (Z.to_nat (ret - 2)) 0 (buf pmsg);
      mret (0, I2cMsg (addr pmsg) (flags pmsg) (m_len pmsg) b)
  else mret (0, pmsg).

(** [pmsg] is NULL when there is no message. *)
Definition devantech_usb_xfer (msgs : list i2c_msg) : K (Z * list i2c_msg) :=
  len ← emit 0 ISS_CMD_I2C_DIRECT;
  len ← emit len ISS_I2C_START;
  r ← msgs_loop msgs 0 len;
  match r with
  | None => mret (- EINVAL, msgs)
  | Some len =>
      len ← emit len ISS_I2C_STOP;
      ret ← devantech_usb_transfer len;
      err ← answer_error ret;
      match err, last msgs with
      | Some e, _ => mret (e, msgs)
      | None, None => oops
      | None, Some pmsg =>
          '(ret, pmsg) ← take_answer ret pmsg;
          mret (ret, <[pred (length msgs) := pmsg]> msgs)
      end
  end.

Definition I2C_FUNC_I2C : Z := 0x00000001.
Definition I2C_FUNC_SMBUS_EMUL : Z := 0x0eff0008.
Definition I2C_FUNC_SMBUS_READ_BLOCK_DATA : Z := 0x01000000.
Definition I2C_FUNC_SMBUS_BLOCK_PROC_CALL : Z := 0x00008000.
Definition devantech_usb_func : Z :=
  Z.lor (Z.lor (Z.lor I2C_FUNC_I2C I2C_FUNC_SMBUS_EMUL) I2C_FUNC_SMBUS_READ_BLOCK_DATA)
    I2C_FUNC_SMBUS_BLOCK_PROC_CALL.

(** ** The device layer *)
Definition on_kernel (f : held → held) : K unit := modify (λ s, set_kernel (f (kernel s)) s).
Definition add_kzalloced n h := Held (kzalloced h + n) (dev_refs h) (intf_refs h) (claimed h) (ctl_data h) (if_data h) (adapter h).
Definition add_dev_refs n h := Held (kzalloced h) (dev_refs h + n) (intf_refs h) (claimed h) (ctl_data h) (if_data h) (adapter h).
Definition add_intf_refs n h := Held (kzalloced h) (dev_refs h) (intf_refs h + n) (claimed h) (ctl_data h) (if_data h) (adapter h).
Definition set_claimed v h := Held (kzalloced h) (dev_refs h) (intf_refs h) v (ctl_data h) (if_data h) (adapter h).
Definition set_ctl_data v h := Held (kzalloced h) (dev_refs h) (intf_refs h) (claimed h) v (if_data h) (adapter h).
Definition set_if_data v h := Held (kzalloced h) (dev_refs h) (intf_refs h) (claimed h) (ctl_data h) v (adapter h).
Definition set_adapter v h := Held (kzalloced h) (dev_refs h) (intf_refs h) (claimed h) (ctl_data h) (if_data h) v.

Definition devantech_iss_free : K unit := on_kernel (add_dev_refs (-1));; on_kernel (add_kzalloced (-1)).

(** What the probe finds: memory, whether it is called for interface 0, the
    data interface, whether that is taken, its endpoints, and what claiming it
    and adding the adapter return. *)
Record probe_env := ProbeEnv {
  mem : bool; on_control : bool; has_data_if : bool; busy : bool; bNumEndpoints : Z;
  claim_ret : Z; add_ret : Z
}.

(** [usb_driver_claim_interface] also sets the data pointer of the interface. *)
Definition usb_driver_claim_interface (e : probe_env) : K Z :=
  if claim_ret e <? 0 then mret (claim_ret e)
  else on_kernel (set_claimed true);; on_kernel (set_if_data true);; mret (claim_ret e).
Definition i2c_add_adapter (e : probe_env) : K Z :=
  if add_ret e <? 0 then mret (add_ret e) else on_kernel (set_adapter true);; mret (add_ret e).
Definition error_put (ret : Z) : K Z :=
  on_kernel (add_intf_refs (-1));; devantech_iss_free;; mret ret.
Definition error_release (ret : Z) : K Z :=
  on_kernel (set_ctl_data false);; on_kernel (set_if_data false);; on_kernel (set_claimed false);;
  error_put ret.

Definition devantech_iss_probe (e : probe_env) : K Z :=
  if negb (mem e) then mret (- ENOMEM)
  else
    on_kernel (add_kzalloced 1);;
    modify (set_buffer (replicate 60 0));;
    on_kernel (add_dev_refs 1);;
    if negb (on_control e) then devantech_iss_free;; mret (- ENODEV)
    else if negb (has_data_if e) then devantech_iss_free;; mret (- ENODEV)
    else if busy e then devantech_iss_free;; mret (- EBUSY)
    else if bNumEndpoints e <? 2 then devantech_iss_free;; mret (- EINVAL)
    else
      on_kernel (add_intf_refs 1);;
      ret ← usb_driver_claim_interface e;
      if ret <? 0 then error_put ret
      else
        on_kernel (set_ctl_data true);;
        ret ← devantech_init;
        if ret <? 0 then error_release ret
        else
          ret ← i2c_add_adapter e;
          if ret <? 0 then error_release ret else mret 0.

Definition devantech_iss_disconnect (bInterfaceNumber : Z) : K unit :=
  if negb (bInterfaceNumber =? 0) then mret ()
  else
    h ← gets kernel;
    if negb (ctl_data h) then oops
    else
      on_kernel (set_adapter false);; on_kernel (set_ctl_data false);; on_kernel (set_if_data false);;
      on_kernel (set_claimed false);; on_kernel (add_intf_refs (-1));; devantech_iss_free.
End driver.
Arguments iss : clear implicits.

(** ** A reference interpreter of command strings

    What a string does on the bus, byte by byte: [BRead ack] reads a byte and
    acknowledges it or not.  [pend] data bytes of a write are still to come;
    [nack] says that the last byte of the next read is not acknowledged. *)
Inductive bus := BStart | BRestart | BStop | BWrite (b : Z) | BRead (ack : bool).

Fixpoint decode_ops (pend : nat) (nack : bool) (l : list Z) : option (list bus) :=
  match l with
  | [] => match pend with O => Some [] | S _ => None end
  | b :: l =>
      match pend with
      | S p => cons (BWrite b) <$> decode_ops p nack l
      | O =>
          if b =? 0x01 then cons BStart <$> decode_ops 0 nack l
          else if b =? 0x02 then cons BRestart <$> decode_ops 0 nack l
          else if b =? 0x03 then cons BStop <$> decode_ops 0 nack l
          else if b =? 0x04 then decode_ops 0 true l
          else if (0x20 <=? b) && (b <? 0x30) then
            app (replicate (Z.to_nat (b - 0x20)) (BRead true) ++ [BRead (negb nack)]) <$> decode_ops 0 false l
          else if (0x30 <=? b) && (b <? 0x40) then decode_ops (Z.to_nat (b - 0x30 + 1)) nack l
          else None
      end
  end.
Definition decode (l : list Z) : option (list bus) :=
  match l with
  | c :: l => if c =? 0x57 then decode_ops 0 false l else None
  | [] => None
  end.

(** What a message is on the bus: the address byte, then its data, or as many
    reads as asked for (but at least one, and at most what the driver reads at
    once) of which the last is not acknowledged. *)
Definition reads (m : i2c_msg) : nat :=
  if recv_len m then 33 else Z.to_nat (Z.max 1 (Z.min (m_len m) 52)).
Definition bus_msg (m : i2c_msg) : list bus :=
  if is_rd m then
    BWrite (u8 (2 * addr m + 1)) :: replicate (pred (reads m)) (BRead true) ++ [BRead false]
  else BWrite (u8 (2 * addr m)) :: (BWrite <$> take (Z.to_nat (m_len m)) (buf m)).
Fixpoint bus_rest (msgs : list i2c_msg) : list bus :=
  match msgs with
  | [] => [BStop]
  | m :: msgs => BRestart :: bus_msg m ++ bus_rest msgs
  end.
Definition bus_of (msgs : list i2c_msg) : list bus :=
  match msgs with [] => [BStart; BStop] | m :: msgs => BStart :: bus_msg m ++ bus_rest msgs end.

(** ** The command string of a list of messages *)
Fixpoint chunks (fuel : nat) (data : list Z) : list Z :=
  match fuel, data with
  | S fuel, _ :: _ =>
      ISS_I2C_WRITE (Z.of_nat (length (take 16 data))) :: take 16 data ++ chunks fuel (drop 16 data)
  | _, _ => []
  end.
Definition read_cmds (n : Z) : list Z :=
  replicate (Z.to_nat ((n - 1) / 16)) (ISS_I2C_READ 16) ++
  (if 1 <? n - 16 * ((n - 1) / 16) then [ISS_I2C_READ (n - 16 * ((n - 1) / 16) - 1)] else []) ++
  [ISS_I2C_NACK; ISS_I2C_READ 1].
Definition msg_cmds (m : i2c_msg) : list Z :=
  if is_rd m then
    ISS_I2C_WRITE 1 :: u8 (2 * addr m + 1) ::
    (if recv_len m then [ISS_I2C_READ 16; ISS_I2C_READ 16; ISS_I2C_NACK; ISS_I2C_READ 1]
     else read_cmds (Z.max 1 (Z.min (m_len m) 52)))
  else
    ISS_I2C_WRITE 1 :: u8 (2 * addr m) ::
    chunks (Z.to_nat (m_len m)) (take (Z.to_nat (m_len m)) (buf m)).
Fixpoint msgs_cmds (i : Z) (msgs : list i2c_msg) : list Z :=
  match msgs with
  | [] => []
  | m :: msgs => (if i =? 0 then [] else [ISS_I2C_RESTART]) ++ msg_cmds m ++ msgs_cmds (i + 1) msgs
  end.
Definition cmds (msgs : list i2c_msg) : list Z :=
  [ISS_CMD_I2C_DIRECT; ISS_I2C_START] ++ msgs_cmds 0 msgs ++ [ISS_I2C_STOP].

(** Messages as the i2c core hands them over: 16-bit lengths, bytes, and a
    buffer that holds what a write sends. *)
Definition msg_ok (m : i2c_msg) : Prop :=
  0 ≤ m_len m < 65536 ∧ m_len m ≤ Z.of_nat (length (buf m)) ∧ Forall (λ b, 0 ≤ b < 256) (buf m).

Lemma decode_read n nack l : 1 ≤ n ≤ 16 →
  decode_ops 0 nack (ISS_I2C_READ n :: l) =
  app (replicate (Z.to_nat (n - 1)) (BRead true) ++ [BRead (negb nack)]) <$> decode_ops 0 false l.
Proof.
  intros Hn. unfold ISS_I2C_READ. cbn [decode_ops].
  repeat (case_match; try lia). do 4 f_equal. lia.
Qed.

Lemma decode_write n nack l : 1 ≤ n ≤ 16 →
  decode_ops 0 nack (ISS_I2C_WRITE n :: l) = decode_ops (Z.to_nat n) nack l.
Proof.
  intros Hn. unfold ISS_I2C_WRITE. cbn [decode_ops].
  repeat (case_match; try lia). f_equal. lia.
Qed.

Lemma decode_data d nack l : decode_ops (length d) nack (d ++ l) = app (BWrite <$> d) <$> decode_ops 0 nack l.
Proof.
  induction d as [|b d IH]; cbn [length app decode_ops fmap list_fmap].
  - by destruct (decode_ops 0 nack l).
  - rewrite IH. by destruct (decode_ops 0 nack l).
Qed.

Lemma decode_chunks fuel d l : (length d ≤ fuel)%nat →
  decode_ops 0 false (chunks fuel d ++ l) = app (BWrite <$> d) <$> decode_ops 0 false l.
Proof.
  revert d. induction fuel as [|fuel IH]; intros d Hd.
  - destruct d; [|simpl in Hd; lia]. simpl. by destruct (decode_ops 0 false l).
  - destruct d as [|b d]; [simpl; by destruct (decode_ops 0 false l)|].
    cbn [chunks]. set (d' := b :: d) in *. cbn [app].
    assert (1 ≤ Z.of_nat (length (take 16 d')) ≤ 16) by (rewrite length_take; subst d'; cbn [length]; lia).
    rewrite decode_write by done. rewrite Nat2Z.id, <-app_assoc, decode_data, IH.
    + rewrite <-option_fmap_compose. rewrite <-(take_drop 16 d') at 3.
      rewrite fmap_app. destruct (decode_ops 0 false l); simpl; [|done]. by rewrite app_assoc.
    + rewrite length_drop. subst d'. simpl in *. lia.
Qed.

Lemma decode_reads16 k l :
  decode_ops 0 false (replicate k (ISS_I2C_READ 16) ++ l) =
  app (replicate (16 * k) (BRead true)) <$> decode_ops 0 false l.
Proof.
  induction k as [|k IH].
  - simpl. by destruct (decode_ops 0 false l).
  - cbn [replicate app]. rewrite decode_read, IH by lia. rewrite <-option_fmap_compose.
    replace (16 * S k)%nat with (15 + (1 + 16 * k))%nat by lia.
    by destruct (decode_ops 0 false l).
Qed.

Lemma decode_nack_read l :
  decode_ops 0 false (ISS_I2C_NACK :: ISS_I2C_READ 1 :: l) = cons (BRead false) <$> decode_ops 0 false l.
Proof. change (decode_ops 0 true (ISS_I2C_READ 1 :: l) = cons (BRead false) <$> decode_ops 0 false l). by rewrite decode_read by lia. Qed.

Lemma decode_read_cmds n l : 1 ≤ n →
  decode_ops 0 false (read_cmds n ++ l) =
  app (replicate (Z.to_nat (n - 1)) (BRead true) ++ [BRead false]) <$> decode_ops 0 false l.
Proof.
  intros Hn. unfold read_cmds. rewrite <-!app_assoc, decode_reads16.
  pose proof (Z.div_mod (n - 1) 16 ltac:(lia)). pose proof (Z.mod_pos_bound (n - 1) 16 ltac:(lia)).
  pose proof (Z.div_pos (n - 1) 16 ltac:(lia) ltac:(lia)).
  set (q := (n - 1) / 16) in *. set (r := n - 16 * q).
  assert (1 ≤ r ≤ 16) by lia.
  assert (Hn1 : Z.to_nat (n - 1) = (16 * Z.to_nat q + Z.to_nat (r - 1))%nat) by lia.
  destruct (Z.ltb_spec 1 r).
  - cbn [app]. rewrite decode_read by lia.
    rewrite decode_nack_read, <-!option_fmap_compose.
    destruct (decode_ops 0 false l); [|done]. cbn [fmap option_fmap option_map compose]. f_equal.
    rewrite Hn1, replicate_add, <-!app_assoc. f_equal.
    replace (Z.to_nat (r - 1)) with (Z.to_nat (r - 1 - 1) + 1)%nat by lia.
    by rewrite replicate_add, <-!app_assoc.
  - cbn [app]. rewrite decode_nack_read, <-!option_fmap_compose.
    destruct (decode_ops 0 false l); [|done]. cbn [fmap option_fmap option_map compose]. f_equal.
    replace (Z.to_nat (r - 1)) with 0%nat in Hn1 by lia.
    by rewrite Hn1, Nat.add_0_r, <-app_assoc.
Qed.

Lemma decode_byte b l : decode_ops 0 false (ISS_I2C_WRITE 1 :: b :: l) = cons (BWrite b) <$> decode_ops 0 false l.
Proof. rewrite decode_write by lia. done. Qed.

Lemma decode_msg m l : decode_ops 0 false (msg_cmds m ++ l) = app (bus_msg m) <$> decode_ops 0 false l.
Proof.
  unfold msg_cmds, bus_msg. destruct (is_rd m); cbn [app]; rewrite decode_byte.
  - unfold reads. destruct (recv_len m).
    + cbn [app]. rewrite !decode_read, decode_nack_read, <-!option_fmap_compose by lia.
      by destruct (decode_ops 0 false l).
    + rewrite decode_read_cmds by lia. rewrite <-option_fmap_compose.
      replace (pred (Z.to_nat _)) with (Z.to_nat (Z.max 1 (Z.min (m_len m) 52) - 1)) by lia.
      by destruct (decode_ops 0 false l).
  - rewrite decode_chunks by (rewrite length_take; lia). rewrite <-option_fmap_compose.
    by destruct (decode_ops 0 false l).
Qed.

Lemma decode_rest i msgs : i ≠ 0 → 0 ≤ i →
  decode_ops 0 false (msgs_cmds i msgs ++ [ISS_I2C_STOP]) = Some (bus_rest msgs).
Proof.
  revert i. induction msgs as [|m msgs IH]; intros i Hi Hp; [done|].
  cbn [msgs_cmds bus_rest]. destruct (Z.eqb_spec i 0); [done|].
  rewrite <-!app_assoc. change (cons BRestart <$> decode_ops 0 false (msg_cmds m ++ msgs_cmds (i + 1) msgs ++ [ISS_I2C_STOP]) = Some (BRestart :: bus_msg m ++ bus_rest msgs)).
  rewrite decode_msg, IH by lia. done.
Qed.

(** The command string of a transfer means its messages. *)
Lemma decode_cmds msgs : decode (cmds msgs) = Some (bus_of msgs).
Proof.
  unfold cmds. change (decode ([ISS_CMD_I2C_DIRECT; ISS_I2C_START] ++ msgs_cmds 0 msgs ++ [ISS_I2C_STOP]))
    with (cons BStart <$> decode_ops 0 false (msgs_cmds 0 msgs ++ [ISS_I2C_STOP])).
  destruct msgs as [|m msgs]; [done|]. cbn [msgs_cmds bus_of]. change (0 =? 0) with true.
  cbn [app]. rewrite <-app_assoc, decode_msg, decode_rest by lia. done.
Qed.

(** ** The driver sends that string *)
Section encoding.
Context {D : Type}.
Implicit Types s : iss D.

(** The state in which the first bytes of the buffer are [acc]. *)
Definition filled (acc : list Z) s : iss D := set_buffer (acc ++ drop (length acc) (buffer s)) s.

Lemma emit_filled s acc b : length (buffer s) = 60%nat → (length acc < 60)%nat →
  emit (Z.of_nat (length acc)) b (filled acc s) =
  Done (Z.of_nat (length (acc ++ [u8 b]))) (filled (acc ++ [u8 b]) s).
Proof.
  intros Hb Hl. unfold emit, store, ISS_MAX_TRANSFER_LEN.
  destruct (Z.ltb_spec (Z.of_nat (length acc)) 60); [|lia].
  destruct (Z.leb_spec 0 (Z.of_nat (length acc))); [|lia]. cbn [andb].
  unfold mbind, M_bind. f_equal; [rewrite length_app; simpl; lia|].
  unfold filled, set_buffer. simpl. f_equal.
  rewrite Nat2Z.id, insert_app_r_alt by lia. rewrite Nat.sub_diag, length_app, <-app_assoc. f_equal.
  destruct (drop (length acc) (buffer s)) as [|x l] eqn:E.
  { apply (f_equal length) in E. rewrite length_drop in E. simpl in E. lia. }
  simpl. f_equal. rewrite <-drop_drop, E. done.
Qed.

Lemma emit_full s len b : 60 ≤ len → emit len b s = Oops.
Proof.
  intros. unfold emit, store, ISS_MAX_TRANSFER_LEN, mbind, M_bind.
  destruct (Z.ltb_spec len 60); [lia|]. by rewrite andb_false_r.
Qed.

Lemma bind_emit_full {B} (k : Z → M (iss D) B) s len b : 60 ≤ len → (emit len b ≫= k) s = Oops.
Proof. intros. unfold mbind, M_bind. by rewrite emit_full. Qed.

(** The next byte goes into the buffer. *)
Lemma bind_emit {B} (k : Z → M (iss D) B) s acc b : length (buffer s) = 60%nat → (length acc < 60)%nat →
  (emit (Z.of_nat (length acc)) b ≫= k) (filled acc s) =
  k (Z.of_nat (length (acc ++ [u8 b]))) (filled (acc ++ [u8 b]) s).
Proof. intros. by rewrite (bind_done _ _ _ _ _ (emit_filled s acc b ltac:(done) ltac:(done))). Qed.

Lemma read_loop_filled fuel s acc n : length (buffer s) = 60%nat →
  1 ≤ n → (n - 1) / 16 < Z.of_nat fuel → Z.of_nat (length acc) + (n - 1) / 16 ≤ 60 →
  read_loop fuel (Z.of_nat (length acc)) n (filled acc s) =
  let acc' := acc ++ replicate (Z.to_nat ((n - 1) / 16)) (ISS_I2C_READ 16) in
  Done (Z.of_nat (length acc'), n - 16 * ((n - 1) / 16)) (filled acc' s).
Proof.
  intros Hb. revert acc n. induction fuel as [|fuel IH]; intros acc n Hn Hf Hl.
  { pose proof (Z.div_pos (n - 1) 16). lia. }
  cbn [read_loop]. destruct (Z.ltb_spec 16 n).
  - assert (E : (n - 1) / 16 = (n - 16 - 1) / 16 + 1).
    { replace (n - 1) with (n - 16 - 1 + 1 * 16) by lia. rewrite Z.div_add; lia. }
    pose proof (Z.div_pos (n - 16 - 1) 16 ltac:(lia) ltac:(lia)).
    rewrite bind_emit by (done || lia). change (u8 (ISS_I2C_READ 16)) with (ISS_I2C_READ 16).
    rewrite IH by (try rewrite length_app; simpl; lia). rewrite E. cbv zeta.
    replace (Z.to_nat ((n - 16 - 1) / 16 + 1)) with (S (Z.to_nat ((n - 16 - 1) / 16))) by lia.
    cbn [replicate]. rewrite <-!app_assoc. cbn [app]. do 2 f_equal; lia.
  - rewrite Z.div_small by lia. cbv zeta. change (replicate (Z.to_nat 0) (ISS_I2C_READ 16)) with (@nil Z).
    rewrite app_nil_r. replace (n - 16 * 0) with n by lia. done.
Qed.

Lemma address_byte a : u8 (Z.shiftl a 1) = u8 (2 * a) ∧ u8 (Z.lor (Z.shiftl a 1) 1) = u8 (2 * a + 1).
Proof.
  rewrite Z.shiftl_mul_pow2, Z.mul_comm by lia. change (2 ^ 1) with 2. split; [done|]. f_equal.
  assert (H : Z.land (2 * a) 1 = 0).
  { apply Z.bits_inj'. intros n Hn. rewrite Z.land_spec, Z.bits_0.
    destruct (decide (n = 0)) as [->|]; [by rewrite Z.testbit_even_0|].
    by rewrite (Z.bits_above_log2 1), andb_false_r by (simpl; lia). }
  by rewrite (Z.add_nocarry_lxor _ _ H), (Z.lxor_lor _ _ H).
Qed.

(** What the driver reads of a message: at least one byte, at most 52. *)
Definition clipped (m : i2c_msg) : Z := Z.max 1 (Z.min (m_len m) 52).

Lemma clipped_range m : 1 ≤ clipped m ≤ 52 ∧ 0 ≤ (clipped m - 1) / 16 < 4 ∧
  1 ≤ clipped m - 16 * ((clipped m - 1) / 16) ≤ 16.
Proof.
  assert (H : 1 ≤ clipped m ≤ 52) by (unfold clipped; lia).
  pose proof (Z.div_mod (clipped m - 1) 16 ltac:(lia)). pose proof (Z.mod_pos_bound (clipped m - 1) 16 ltac:(lia)).
  lia.
Qed.

Lemma read_loop_clipped s acc m : length (buffer s) = 60%nat → 0 ≤ m_len m →
  Z.of_nat (length acc) + (clipped m - 1) / 16 ≤ 60 →
  read_loop 4 (Z.of_nat (length acc))
    (if ISS_MAX_TRANSFER_LEN - 8 <? m_len m then ISS_MAX_TRANSFER_LEN - 8 else m_len m) (filled acc s) =
  let acc' := acc ++ replicate (Z.to_nat ((clipped m - 1) / 16)) (ISS_I2C_READ 16) in
  Done (Z.of_nat (length acc'), if m_len m =? 0 then 0 else clipped m - 16 * ((clipped m - 1) / 16))
    (filled acc' s).
Proof.
  intros Hb Hm Hl. change (ISS_MAX_TRANSFER_LEN - 8) with 52. pose proof (clipped_range m).
  destruct (Z.eqb_spec (m_len m) 0) as [E|E].
  - unfold clipped. rewrite E. cbv zeta. rewrite app_nil_r. done.
  - replace (if 52 <? m_len m then 52 else m_len m) with (clipped m)
      by (unfold clipped; destruct (Z.ltb_spec 52 (m_len m)); lia).
    apply read_loop_filled; lia.
Qed.

Lemma read_rest_filled s acc m : length (buffer s) = 60%nat → (length acc < 60)%nat →
  let r := clipped m - 16 * ((clipped m - 1) / 16) in
  let r' := if m_len m =? 0 then 0 else r in
  (if 1 <? r' then emit (Z.of_nat (length acc)) (ISS_I2C_READ (r' - 1)) else mret (Z.of_nat (length acc)))
    (filled acc s) =
  let acc' := acc ++ (if 1 <? r then [ISS_I2C_READ (r - 1)] else []) in
  Done (Z.of_nat (length acc')) (filled acc' s).
Proof.
  intros Hb Hl r r'. destruct (clipped_range m) as (_ & _ & Hr). fold r in Hr.
  unfold r'. destruct (Z.eqb_spec (m_len m) 0) as [E|E].
  - subst r. unfold clipped. rewrite E. cbv zeta. simpl. by rewrite app_nil_r.
  - destruct (Z.ltb_spec 1 r); cbv zeta.
    + rewrite emit_filled by (done || lia).
      by rewrite (u8_small (ISS_I2C_READ (r - 1))) by (unfold ISS_I2C_READ; lia).
    + by rewrite app_nil_r.
Qed.

Lemma read_msg_filled s acc m : length (buffer s) = 60%nat → is_rd m = true → 0 ≤ m_len m →
  (length acc + length (msg_cmds m) ≤ 60)%nat →
  read_msg m (Z.of_nat (length acc)) (filled acc s) =
  Done (Z.of_nat (length (acc ++ msg_cmds m))) (filled (acc ++ msg_cmds m) s).
Proof.
  intros Hb Hr Hm Hl. unfold msg_cmds in *. rewrite Hr in *. unfold read_msg.
  cbn [length] in Hl. destruct (address_byte (addr m)) as [_ Ea].
  rewrite bind_emit by (done || lia). rewrite bind_emit by (done || (rewrite length_app; simpl; lia)).
  rewrite Ea. change (u8 (ISS_I2C_WRITE 1)) with (ISS_I2C_WRITE 1). rewrite <-app_assoc. cbn [app].
  destruct (recv_len m).
  { rewrite !bind_emit by (done || (rewrite ?length_app; simpl in *; lia)).
    rewrite emit_filled by (done || (rewrite ?length_app; simpl in *; lia)).
    by rewrite <-!app_assoc. }
  fold (clipped m) in *. set (acc1 := acc ++ _).
  assert (Hl1 : length acc1 = (length acc + 2)%nat) by (subst acc1; rewrite length_app; done).
  unfold read_cmds in Hl. rewrite !length_app, length_replicate in Hl. cbn [length] in Hl.
  pose proof (clipped_range m).
  rewrite (bind_done _ _ _ _ _ (read_loop_clipped s acc1 m Hb Hm ltac:(lia))). cbv beta zeta iota.
  set (acc2 := acc1 ++ _).
  assert (Hl2 : Z.of_nat (length acc2) = Z.of_nat (length acc1) + (clipped m - 1) / 16).
  { subst acc2. rewrite length_app, length_replicate. lia. }
  rewrite (bind_done _ _ _ _ _ (read_rest_filled s acc2 m Hb ltac:(lia))). cbv beta zeta.
  set (acc3 := acc2 ++ _).
  assert (Hl3 : (length acc3 + 2 ≤ 60)%nat) by (subst acc3; rewrite length_app; lia).
  rewrite bind_emit by (done || lia). rewrite emit_filled by (done || (rewrite length_app; simpl; lia)).
  subst acc3 acc2 acc1. unfold read_cmds. by rewrite <-!app_assoc.
Qed.

Lemma data_loop_filled s b n pos acc : length (buffer s) = 60%nat → Forall (λ b, 0 ≤ b < 256) b →
  (pos + n ≤ length b)%nat → (length acc + n ≤ 60)%nat →
  data_loop b n (Z.of_nat pos) (Z.of_nat (length acc)) (filled acc s) =
  let acc' := acc ++ take n (drop pos b) in Done (Z.of_nat (length acc')) (filled acc' s).
Proof.
  intros Hb Hf. revert pos acc. induction n as [|n IH]; intros pos acc Hp Hl; cbn [data_loop].
  { cbv zeta. rewrite take_0, app_nil_r. done. }
  destruct (lookup_lt_is_Some_2 b pos ltac:(lia)) as [c Hc].
  pose proof (Forall_lookup_1 _ _ _ _ Hf Hc) as Hr. simpl in Hr.
  rewrite Nat2Z.id, Hc, bind_of_opt, bind_emit by (done || lia).
  replace (Z.of_nat pos + 1) with (Z.of_nat (S pos)) by lia.
  rewrite IH by (try rewrite length_app; simpl; lia). cbv zeta.
  rewrite (drop_S _ _ _ Hc), u8_small by done. cbn [take]. by rewrite <-app_assoc.
Qed.

Lemma chunks_nil fuel : chunks fuel [] = [].
Proof. by destruct fuel. Qed.

Lemma take_its_length {A} k (l : list A) : take (length (take k l)) l = take k l.
Proof.
  rewrite length_take. destruct (decide (k ≤ length l)%nat); [by rewrite Nat.min_l|].
  rewrite !take_ge by lia. done.
Qed.

(** A chunk goes into the buffer when it leaves room for the STOP. *)
Lemma chunk_step s m fuel rlen acc : length (buffer s) = 60%nat → msg_ok m → Z.of_nat rlen < m_len m →
  let chunk := take 16 (drop rlen (take (Z.to_nat (m_len m)) (buf m))) in
  (length acc + length chunk ≤ 58)%nat →
  write_loop (S fuel) m (Z.of_nat rlen) (Z.of_nat (length acc)) (filled acc s) =
  let acc' := acc ++ ISS_I2C_WRITE (Z.of_nat (length chunk)) :: chunk in
  write_loop fuel m (Z.of_nat (rlen + 16)) (Z.of_nat (length acc')) (filled acc' s).
Proof.
  intros Hb (H1 & H2 & H3) Hr chunk Hl.
  assert (Hc : Z.of_nat (length chunk) = Z.min (m_len m - Z.of_nat rlen) 16).
  { subst chunk. rewrite length_take, length_drop, length_take. lia. }
  cbn [write_loop]. destruct (Z.ltb_spec (Z.of_nat rlen) (m_len m)); [|lia]. cbv zeta.
  rewrite <-Hc. unfold ISS_MAX_TRANSFER_LEN.
  destruct (Z.ltb_spec (60 - 2) (Z.of_nat (length acc) + Z.of_nat (length chunk))); [lia|].
  rewrite bind_emit by (done || lia). rewrite u8_small by (unfold ISS_I2C_WRITE; lia). rewrite Nat2Z.id.
  rewrite (bind_done _ _ _ _ _ (data_loop_filled s (buf m) (length chunk) rlen
    (acc ++ [ISS_I2C_WRITE (Z.of_nat (length chunk))]) Hb H3
    ltac:(lia) ltac:(rewrite length_app; simpl; lia))). cbv beta zeta.
  replace (Z.of_nat rlen + 16) with (Z.of_nat (rlen + 16)) by lia.
  replace (take (length chunk) (drop rlen (buf m))) with chunk; [by rewrite <-app_assoc|].
  subst chunk. rewrite skipn_firstn_comm, take_take. symmetry. apply take_its_length.
Qed.

Lemma write_loop_end s m fuel rlen len : m_len m ≤ rlen → write_loop fuel m rlen len s = Done (Some len) s.
Proof. intros H. destruct fuel; cbn [write_loop]; destruct (Z.ltb_spec rlen (m_len m)); (done || lia). Qed.

Lemma write_loop_filled s m fuel rlen acc : length (buffer s) = 60%nat → msg_ok m →
  m_len m ≤ Z.of_nat (rlen + fuel) →
  let rest := chunks fuel (drop rlen (take (Z.to_nat (m_len m)) (buf m))) in
  (length acc + length rest ≤ 59)%nat →
  write_loop fuel m (Z.of_nat rlen) (Z.of_nat (length acc)) (filled acc s) =
  Done (Some (Z.of_nat (length (acc ++ rest)))) (filled (acc ++ rest) s).
Proof.
  intros Hb Hm. revert rlen acc. induction fuel as [|fuel IH]; intros rlen acc Hf rest Hl.
  { rewrite write_loop_end by lia. subst rest. cbn [chunks]. by rewrite app_nil_r. }
  destruct (decide (m_len m ≤ Z.of_nat rlen)) as [He|He].
  { rewrite write_loop_end by lia. subst rest.
    rewrite drop_ge by (rewrite length_take; lia). by rewrite chunks_nil, app_nil_r. }
  subst rest. destruct (drop rlen _) as [|x l] eqn:E.
  { apply (f_equal length) in E. destruct Hm. rewrite length_drop, length_take in E. simpl in E. lia. }
  rewrite <-E in *. assert (Hch : chunks (S fuel) (drop rlen (take (Z.to_nat (m_len m)) (buf m))) =
    (ISS_I2C_WRITE (Z.of_nat (length (take 16 (drop rlen (take (Z.to_nat (m_len m)) (buf m)))))) ::
     take 16 (drop rlen (take (Z.to_nat (m_len m)) (buf m)))) ++
    chunks fuel (drop (rlen + 16) (take (Z.to_nat (m_len m)) (buf m)))).
  { rewrite <-drop_drop. rewrite E at 1. cbn [chunks app]. by rewrite E. }
  rewrite Hch in *. rewrite length_app in Hl. cbn [length] in Hl.
  rewrite chunk_step by (done || lia). cbv zeta.
  rewrite IH by (try rewrite length_app; cbn [length]; lia). by rewrite <-!app_assoc.
Qed.

Lemma write_msg_filled s acc m : length (buffer s) = 60%nat → is_rd m = false → msg_ok m →
  (length acc + length (msg_cmds m) ≤ 59)%nat →
  write_msg m (Z.of_nat (length acc)) (filled acc s) =
  Done (Some (Z.of_nat (length (acc ++ msg_cmds m)))) (filled (acc ++ msg_cmds m) s).
Proof.
  intros Hb Hr Hm Hl. unfold msg_cmds in *. rewrite Hr in *. unfold write_msg.
  cbn [length] in Hl. destruct (address_byte (addr m)) as [Ea _].
  rewrite bind_emit by (done || lia). rewrite bind_emit by (done || (rewrite length_app; simpl; lia)).
  rewrite Ea. change (u8 (ISS_I2C_WRITE 1)) with (ISS_I2C_WRITE 1). rewrite <-app_assoc. cbn [app].
  pose proof Hm as (? & ? & ?).
  rewrite (write_loop_filled s m _ 0) by (done || (rewrite ?length_app, ?drop_0; cbn [length]; lia)).
  rewrite drop_0. by rewrite <-app_assoc.
Qed.

Lemma msgs_loop_step s m msgs i acc : length (buffer s) = 60%nat → msg_ok m →
  let part := (if i =? 0 then [] else [ISS_I2C_RESTART]) ++ msg_cmds m in
  (length acc + length part ≤ 59)%nat →
  msgs_loop (m :: msgs) i (Z.of_nat (length acc)) (filled acc s) =
  msgs_loop msgs (i + 1) (Z.of_nat (length (acc ++ part))) (filled (acc ++ part) s).
Proof.
  intros Hb Hm part Hl. subst part. rewrite length_app in Hl. cbn [msgs_loop].
  set (pre := if i =? 0 then [] else [ISS_I2C_RESTART]) in *.
  assert (E : (if negb (i =? 0) then emit (Z.of_nat (length acc)) ISS_I2C_RESTART else mret (Z.of_nat (length acc)))
     (filled acc s) = Done (Z.of_nat (length (acc ++ pre))) (filled (acc ++ pre) s)).
  { subst pre. destruct (i =? 0); cbn [negb]; [by rewrite app_nil_r|]. by rewrite emit_filled by (done || simpl in Hl; lia). }
  mstep E. clear E. rewrite app_assoc.
  assert (E : (if is_rd m then Some <$> read_msg m (Z.of_nat (length (acc ++ pre))) else write_msg m (Z.of_nat (length (acc ++ pre))))
    (filled (acc ++ pre) s) =
    Done (Some (Z.of_nat (length ((acc ++ pre) ++ msg_cmds m)))) (filled ((acc ++ pre) ++ msg_cmds m) s)).
  { destruct (is_rd m) eqn:Er.
    - apply (fmap_done Some). apply read_msg_filled; [done|done|apply Hm|rewrite length_app; lia].
    - apply write_msg_filled; [done|done|done|rewrite length_app; lia]. }
  by mstep E.
Qed.

Lemma msgs_loop_filled s msgs i acc : length (buffer s) = 60%nat → Forall msg_ok msgs →
  (length acc + length (msgs_cmds i msgs) ≤ 59)%nat →
  msgs_loop msgs i (Z.of_nat (length acc)) (filled acc s) =
  Done (Some (Z.of_nat (length (acc ++ msgs_cmds i msgs)))) (filled (acc ++ msgs_cmds i msgs) s).
Proof.
  intros Hb. revert i acc. induction msgs as [|m msgs IH]; intros i acc Hm Hl; cbn [msgs_cmds] in *.
  { by rewrite app_nil_r. }
  inversion Hm as [|? ? Hm1 Hm2]; subst. rewrite !length_app in Hl.
  rewrite msgs_loop_step by (done || (rewrite length_app; lia)).
  rewrite IH by (done || (rewrite !length_app; lia)). by rewrite <-!app_assoc.
Qed.

(** A write that does not fit is refused. *)
Lemma write_loop_refuses s m fuel rlen acc : length (buffer s) = 60%nat → msg_ok m →
  m_len m ≤ Z.of_nat (rlen + fuel) → (length acc ≤ 59)%nat →
  (59 < length acc + length (chunks fuel (drop rlen (take (Z.to_nat (m_len m)) (buf m)))))%nat →
  ∃ acc', write_loop fuel m (Z.of_nat rlen) (Z.of_nat (length acc)) (filled acc s) = Done None (filled acc' s).
Proof.
  intros Hb Hm. revert rlen acc. induction fuel as [|fuel IH]; intros rlen acc Hf Ha Hl.
  { cbn [chunks length] in Hl. lia. }
  set (data := take (Z.to_nat (m_len m)) (buf m)) in *.
  destruct (drop rlen data) as [|x l] eqn:E; [rewrite chunks_nil in Hl; simpl in Hl; lia|].
  assert (Hr : Z.of_nat rlen < m_len m).
  { apply (f_equal length) in E. subst data. rewrite length_drop, length_take in E. simpl in E. lia. }
  cbn [chunks length] in Hl. rewrite length_app, <-E in Hl.
  destruct (decide (length acc + length (take 16 (drop rlen data)) ≤ 58)%nat) as [Hc|Hc].
  - rewrite chunk_step by (done || lia). cbv zeta. apply IH; rewrite ?length_app; cbn [length]; [lia| |]; fold data; [lia|].
    fold data. rewrite <-drop_drop. lia.
  - cbn [write_loop]. destruct (Z.ltb_spec (Z.of_nat rlen) (m_len m)); [|lia]. cbv zeta.
    assert (Hk : Z.of_nat (length (take 16 (drop rlen data))) = Z.min (m_len m - Z.of_nat rlen) 16).
    { destruct Hm. subst data. rewrite length_take, length_drop, length_take. lia. }
    rewrite <-Hk. unfold ISS_MAX_TRANSFER_LEN.
    destruct (Z.ltb_spec (60 - 2) (Z.of_nat (length acc) + Z.of_nat (length (take 16 (drop rlen data))))); [|lia].
    by exists acc.
Qed.
End encoding.

(** ** Transfers *)
Section transfers.
Context {D : Type}.
Variable bulk_out : list Z → D → Z * D.
Variable bulk_in : D → Z * list Z * D.
Implicit Types s : iss D.

Abbreviation xfer := (devantech_usb_xfer bulk_out bulk_in).

(** What follows once the command string is in the buffer. *)
Definition exchange (msgs : list i2c_msg) : M (iss D) (Z * list i2c_msg) :=
  ret ← devantech_usb_transfer bulk_out bulk_in (Z.of_nat (length (cmds msgs)));
  err ← answer_error ret;
  match err, last msgs with
  | Some e, _ => mret (e, msgs)
  | None, None => oops
  | None, Some pmsg =>
      '(ret, pmsg) ← take_answer ret pmsg;
      mret (ret, <[pred (length msgs) := pmsg]> msgs)
  end.

Lemma xfer_sends s msgs : length (buffer s) = 60%nat → Forall msg_ok msgs →
  (length (cmds msgs) ≤ 60)%nat → xfer msgs s = exchange msgs (filled (cmds msgs) s).
Proof.
  intros Hb Hm Hl. unfold devantech_usb_xfer. replace s with (filled [] s) at 1 by (by destruct s).
  unfold cmds in Hl. rewrite !length_app in Hl. cbn [length] in Hl.
  etransitivity; [apply (bind_emit _ s []); [done|simpl; lia]|].
  rewrite bind_emit by (done || simpl; lia).
  change (([] ++ [u8 ISS_CMD_I2C_DIRECT]) ++ [u8 ISS_I2C_START]) with [ISS_CMD_I2C_DIRECT; ISS_I2C_START].
  rewrite (bind_done _ _ _ _ _ (msgs_loop_filled s msgs 0 [ISS_CMD_I2C_DIRECT; ISS_I2C_START] Hb Hm
    ltac:(simpl; lia))). cbv beta iota.
  rewrite bind_emit by (done || (rewrite length_app; simpl; lia)).
  change (u8 ISS_I2C_STOP) with ISS_I2C_STOP. rewrite <-app_assoc. done.
Qed.

Lemma take_filled acc s : take (length acc) (buffer (filled acc s)) = acc.
Proof. unfold filled. simpl. by rewrite take_app_length. Qed.

Lemma transfer_answer s msgs d1 r bytes d2 :
  (length (cmds msgs) ≤ 60)%nat →
  bulk_out (cmds msgs) (device s) = (0, d1) → bulk_in d1 = (r, bytes, d2) →
  devantech_usb_transfer bulk_out bulk_in (Z.of_nat (length (cmds msgs))) (filled (cmds msgs) s) =
  Done (if (r =? 0) && (0 <? Z.of_nat (length bytes)) then Z.of_nat (length bytes) else r)
    (Iss d2 (sent s ++ [cmds msgs]) (bytes ++ drop (length bytes) (buffer (filled (cmds msgs) s)))
       (frequency s) (kernel s)).
Proof.
  intros Hl Ho Hi. assert (0 < length (cmds msgs))%nat by (unfold cmds; simpl; lia).
  unfold devantech_usb_transfer, ISS_MAX_TRANSFER_LEN.
  destruct (Z.leb_spec (Z.of_nat (length (cmds msgs))) 0); [lia|].
  destruct (Z.ltb_spec 60 (Z.of_nat (length (cmds msgs)))); [lia|]. cbn [orb].
  assert (E : usb_send bulk_out (Z.of_nat (length (cmds msgs))) (filled (cmds msgs) s) =
    Done 0 (Iss d1 (sent s ++ [cmds msgs]) (buffer (filled (cmds msgs) s)) (frequency s) (kernel s))).
  { unfold usb_send. rewrite Nat2Z.id, take_filled.
    change (device (filled (cmds msgs) s)) with (device s). by rewrite Ho. }
  mstep E. change (0 =? 0) with true. cbv iota.
  unfold usb_receive, mbind, M_bind. cbn [device]. by rewrite Hi.
Qed.

Lemma iss_copy_loop_done s n i b : (i + n ≤ length b)%nat → (i + n + 2 ≤ length (buffer s))%nat →
  copy_loop n (Z.of_nat i) b s =
  Done (take i b ++ take n (drop (i + 2) (buffer s)) ++ drop (i + n) b) s.
Proof.
  revert i b. induction n as [|n IH]; intros i b Hb Hs; cbn [copy_loop].
  { rewrite take_0, Nat.add_0_r. cbn [app]. by rewrite take_drop. }
  destruct (lookup_lt_is_Some_2 (buffer s) (i + 2) ltac:(lia)) as [c Hc].
  assert (E : fetch (Z.of_nat i + 2) s = Done c s).
  { unfold fetch. destruct (Z.leb_spec 0 (Z.of_nat i + 2)); [|lia].
    replace (Z.to_nat (Z.of_nat i + 2)) with (i + 2)%nat by lia. by rewrite Hc. }
  mstep E. destruct (Z.ltb_spec (Z.of_nat i) (Z.of_nat (length b))); [|lia].
  replace (Z.of_nat i + 1) with (Z.of_nat (S i)) by lia. rewrite Nat2Z.id.
  rewrite IH by (rewrite ?length_insert; lia). f_equal.
  rewrite (drop_S _ _ _ Hc). cbn [take app]. rewrite drop_insert_lt by lia.
  rewrite (take_S_r (<[i:=c]> b) i c) by (rewrite list_lookup_insert_eq; [done|lia]).
  rewrite take_insert_ge by lia. rewrite <-app_assoc. cbn [app]. by replace (i + S n)%nat with (S i + n)%nat by lia.
Qed.

(** What a transfer returns for an answer of status, error code and data, and
    what becomes of the last message. *)
Definition reply (st e : Z) (data : list Z) (m : i2c_msg) : Z * i2c_msg :=
  if st =? ISS_RESP_NACK then (if e =? ISS_RESP_DEV_ERROR then - ENXIO else - EIO, m)
  else if negb (is_rd m) then (0, m)
  else if recv_len m then
    let n := nth 0 data 0 in
    if (n =? 0) || (32 <? n) then (- EPROTO, m)
    else let k := Z.to_nat (1 + n) in
      (0, I2cMsg (addr m) (flags m) (1 + n) (take k data ++ drop k (buf m)))
  else (0, I2cMsg (addr m) (flags m) (m_len m) (data ++ drop (length data) (buf m))).

(** The device sends what was asked for: not more than the buffer of the last
    message holds, and the 33 bytes of a block read. *)
Definition asked (m : i2c_msg) (data : list Z) : Prop :=
  is_rd m = true →
  if recv_len m then m_len m = 1 ∧ length data = 33%nat ∧ (33 ≤ length (buf m))%nat ∧ Forall (λ b, 0 ≤ b < 256) data
  else (length data ≤ length (buf m))%nat.

Lemma fetch_done s i b : buffer s !! i = Some b → fetch (Z.of_nat i) s = Done b s.
Proof.
  intros H. unfold fetch. destruct (Z.leb_spec 0 (Z.of_nat i)); [|lia]. by rewrite Nat2Z.id, H.
Qed.

Lemma take_answer_done s st e data rest m : buffer s = (st :: e :: data) ++ rest → asked m data →
  st ≠ 0 → length (buffer s) = 60%nat →
  take_answer (2 + Z.of_nat (length data)) m s = Done (reply st e data m) s.
Proof.
  intros Hb Ha Hst Hl. unfold take_answer, reply, ISS_RESP_NACK, asked in *.
  destruct (Z.eqb_spec st 0) as [?|_]; [done|]. destruct (is_rd m); [|done]. specialize (Ha eq_refl). cbn [negb].
  assert (Hd : drop 2 (buffer s) = data ++ rest) by (by rewrite Hb). destruct (recv_len m).
  - destruct Ha as (Hm & Hlen & Hbuf & Hr). destruct data as [|n data]; [done|].
    assert (E : fetch 2 s = Done n s) by (apply (fetch_done s 2); by rewrite Hb).
    mstep E. cbn [nth]. pose proof (Forall_inv Hr) as Hn. simpl in Hn.
    destruct (Z.ltb_spec (2 + Z.of_nat (length (n :: data)) - 2) n) as [Hx|Hx].
    { destruct (Z.ltb_spec I2C_SMBUS_BLOCK_MAX n) as [Hy|Hy]; [|unfold I2C_SMBUS_BLOCK_MAX in *; lia].
      change (32 <? n) with (I2C_SMBUS_BLOCK_MAX <? n). destruct (Z.ltb_spec I2C_SMBUS_BLOCK_MAX n); [|lia].
      by rewrite !orb_true_r. }
    rewrite orb_false_r. change I2C_SMBUS_BLOCK_MAX with 32.
    destruct ((n =? 0) || (32 <? n)) eqn:En; [done|]. apply orb_false_iff in En as [E0 E32].
    apply Z.eqb_neq in E0. apply Z.ltb_ge in E32. rewrite Hm. unfold u16. rewrite Z.mod_small by lia.
    rewrite (bind_done _ _ _ _ _ (iss_copy_loop_done s (Z.to_nat (1 + n)) 0 (buf m) ltac:(lia) ltac:(lia))).
    rewrite take_0. cbn [app]. change (0 + 2)%nat with 2%nat. rewrite Hd.
    rewrite take_app_le by lia. done.
  - replace (2 + Z.of_nat (length data) - 2) with (Z.of_nat (length data)) by lia. rewrite Nat2Z.id.
    assert (length data + 2 ≤ 60)%nat by (rewrite <-Hl, Hb, length_app; simpl; lia).
    rewrite (bind_done _ _ _ _ _ (iss_copy_loop_done s (length data) 0 (buf m) ltac:(lia) ltac:(lia))).
    rewrite take_0. cbn [app]. change (0 + 2)%nat with 2%nat. rewrite Hd.
    by rewrite take_app_length.
Qed.

Lemma exchange_done s msgs m d1 st e data d2 : length (buffer s) = 60%nat →
  (length (cmds (msgs ++ [m])) ≤ 60)%nat →
  bulk_out (cmds (msgs ++ [m])) (device s) = (0, d1) →
  bulk_in d1 = (0, st :: e :: data, d2) → (length data ≤ 58)%nat → asked m data →
  ∃ b, length b = 60%nat ∧ exchange (msgs ++ [m]) (filled (cmds (msgs ++ [m])) s) =
    Done ((reply st e data m).1, msgs ++ [(reply st e data m).2])
      (Iss d2 (sent s ++ [cmds (msgs ++ [m])]) b (frequency s) (kernel s)).
Proof.
  intros Hb Hl Ho Hi Hd Ha. set (all := msgs ++ [m]) in *. unfold exchange.
  rewrite (bind_done _ _ _ _ _ (transfer_answer s all d1 0 _ d2 Hl Ho Hi)). cbv beta.
  set (b := (st :: e :: data) ++ _). exists b.
  assert (Hlb : length b = 60%nat).
  { subst b. unfold filled, set_buffer. cbn [buffer]. rewrite !length_app, !length_drop, !length_app, !length_drop.
    cbn [length]. lia. }
  split; [done|]. set (s1 := Iss d2 _ b _ _).
  replace (Z.of_nat (length (st :: e :: data))) with (2 + Z.of_nat (length data)) by (cbn [length]; lia).
  assert (E0 : fetch 0 s1 = Done st s1) by (apply (fetch_done s1 0); done).
  assert (E1 : fetch 1 s1 = Done e s1) by (apply (fetch_done s1 1); done).
  unfold answer_error. destruct (Z.ltb_spec (2 + Z.of_nat (length data)) 0); [lia|].
  destruct (Z.ltb_spec (2 + Z.of_nat (length data)) 2); [lia|].
  unfold mbind at 1, M_bind at 1. rewrite (bind_done _ _ _ _ _ E0). cbv beta.
  destruct (Z.eqb_spec st ISS_RESP_NACK) as [Hz|Hz].
  - rewrite (bind_done _ _ _ _ _ E1). unfold mret, M_ret. cbv beta. cbn [reply].
    unfold reply. destruct (Z.eqb_spec st ISS_RESP_NACK); [done|lia].
  - unfold mret at 1, M_ret at 1. subst all. rewrite last_snoc.
    rewrite (bind_done _ _ _ _ _ (take_answer_done s1 st e data _ m eq_refl Ha Hz Hlb)).
    destruct (reply st e data m) as [r m']. cbn [fst snd]. unfold mret, M_ret. f_equal. f_equal.
    rewrite length_app, Nat.add_1_r. cbn [pred]. rewrite insert_app_r_alt by lia.
    by rewrite Nat.sub_diag.
Qed.
End transfers.

(** C18: a transfer whose command string fits the buffer sends exactly that
    string, which the reference interpreter reads as the messages on the bus:
    start, each message with its address byte, its bytes or its reads with the
    last not acknowledged, restarts between and a stop.  The result and the
    received bytes are those of the device's answer, NACK and protocol errors
    included; nothing else of the driver changes. *)
Theorem iss_transfer_means_messages {D} bulk_out bulk_in (s : iss D) msgs m d1 st e data d2 :
  length (buffer s) = 60%nat → Forall msg_ok (msgs ++ [m]) →
  (length (cmds (msgs ++ [m])) ≤ 60)%nat →
  bulk_out (cmds (msgs ++ [m])) (device s) = (0, d1) →
  bulk_in d1 = (0, st :: e :: data, d2) → (length data ≤ 58)%nat → asked m data →
  decode (cmds (msgs ++ [m])) = Some (bus_of (msgs ++ [m])) ∧
  ∃ b, length b = 60%nat ∧ devantech_usb_xfer bulk_out bulk_in (msgs ++ [m]) s =
    Done ((reply st e data m).1, msgs ++ [(reply st e data m).2])
      (Iss d2 (sent s ++ [cmds (msgs ++ [m])]) b (frequency s) (kernel s)).
Proof.
  intros. split; [apply decode_cmds|]. rewrite xfer_sends by done. by apply (exchange_done _ _ _ _ _ d1).
Qed.

(** A device that echoes nothing: it takes every string, and answers the one
    read of the witness. *)
Definition toy_state : iss (list Z) := Iss [] [] (replicate 60 0) 100000 nothing.
Definition toy_out (l : list Z) (d : list Z) : Z * list Z := (0, l).
Definition toy_in (d : list Z) : Z * list Z * list Z := (0, [255; 0; 7; 8; 9], []).
Lemma iss_transfer_means_messages_witness :
  decode (cmds [I2cMsg 80 0 1 [16]; I2cMsg 80 1 3 [0; 0; 0]]) =
    Some [BStart; BWrite 160; BWrite 16; BRestart; BWrite 161; BRead true; BRead true; BRead false; BStop] ∧
  ∃ b, length b = 60%nat ∧
    devantech_usb_xfer toy_out toy_in [I2cMsg 80 0 1 [16]; I2cMsg 80 1 3 [0; 0; 0]] toy_state =
    Done (0, [I2cMsg 80 0 1 [16]; I2cMsg 80 1 3 [7; 8; 9]])
      (Iss [] [[0x57; 1; 0x30; 160; 0x30; 16; 2; 0x30; 161; 0x21; 4; 0x20; 3]] b 100000 nothing).
Proof.
  apply (iss_transfer_means_messages toy_out toy_in toy_state [I2cMsg 80 0 1 [16]] (I2cMsg 80 1 3 [0; 0; 0])
    (cmds [I2cMsg 80 0 1 [16]; I2cMsg 80 1 3 [0; 0; 0]]) 255 0 [7; 8; 9] []); try reflexivity.
  - repeat constructor; simpl; lia.
  - cbv. lia.
  - simpl. lia.
  - intros _. simpl. lia.
Defined.

(** ** What fits *)
Lemma length_chunks fuel d : (length d ≤ fuel)%nat →
  Z.of_nat (length (chunks fuel d)) = Z.of_nat (length d) + (Z.of_nat (length d) + 15) / 16.
Proof.
  revert d. induction fuel as [|fuel IH]; intros d Hd.
  { destruct d; [done|simpl in Hd; lia]. }
  destruct d as [|b d]; [done|]. cbn [chunks]. set (d' := b :: d) in *.
  assert (1 ≤ length d')%nat by (subst d'; simpl; lia).
  cbn [length]. rewrite length_app, Nat2Z.inj_succ, Nat2Z.inj_add, IH by (rewrite length_drop; lia).
  rewrite length_take, length_drop. destruct (decide (length d' ≤ 16)%nat).
  - rewrite Nat.min_r by lia. replace (length d' - 16)%nat with 0%nat by lia.
    assert ((Z.of_nat (length d') + 15) / 16 = 1) as ->
      by (symmetry; apply (Z.div_unique _ 16 1 (Z.of_nat (length d') - 1)); lia).
    change ((Z.of_nat 0 + 15) / 16) with 0. lia.
  - rewrite Nat.min_l by lia. rewrite Nat2Z.inj_sub by lia.
    replace (Z.of_nat (length d') + 15) with (Z.of_nat (length d') - Z.of_nat 16 + 15 + 1 * 16) by lia.
    rewrite Z.div_add by lia. lia.
Qed.

Lemma length_write_cmds m : is_rd m = false → msg_ok m →
  Z.of_nat (length (msg_cmds m)) = 2 + m_len m + (m_len m + 15) / 16.
Proof.
  intros Hr (H1 & H2 & H3). unfold msg_cmds. rewrite Hr. cbn [length].
  rewrite !Nat2Z.inj_succ, length_chunks by (rewrite length_take; lia).
  rewrite length_take_le by lia. rewrite Z2Nat.id by lia. lia.
Qed.

Lemma length_read_cmds m : is_rd m = true → (4 ≤ length (msg_cmds m) ≤ 8)%nat.
Proof.
  intros Hr. unfold msg_cmds. rewrite Hr. destruct (recv_len m); [simpl; lia|].
  unfold read_cmds. fold (clipped m). pose proof (clipped_range m).
  cbn [length]. rewrite !length_app, length_replicate. cbn [length]. destruct (1 <? _); cbn [length]; lia.
Qed.

Lemma single_fits m : msg_ok m → is_rd m = true ∨ m_len m ≤ 51 → (length (cmds [m]) ≤ 60)%nat.
Proof.
  intros Hm H. unfold cmds. cbn [msgs_cmds]. change (0 =? 0) with true. rewrite !length_app. cbn [length].
  destruct (is_rd m) eqn:Hr; [pose proof (length_read_cmds m Hr); lia|].
  destruct H as [?|H]; [done|]. pose proof (length_write_cmds m Hr Hm).
  assert ((m_len m + 15) / 16 < 5) by (apply Z.div_lt_upper_bound; lia). lia.
Qed.

Section limits.
Context {D : Type}.
Variable bulk_out : list Z → D → Z * D.
Variable bulk_in : D → Z * list Z * D.
Implicit Types s : iss D.

Lemma xfer_head s msgs : length (buffer s) = 60%nat →
  ∃ k, (∀ st, k None st = Done (- EINVAL, msgs) st) ∧
    devantech_usb_xfer bulk_out bulk_in msgs s =
    (msgs_loop msgs 0 2 ≫= k) (filled [ISS_CMD_I2C_DIRECT; ISS_I2C_START] s).
Proof.
  intros Hb. eexists. split; [|unfold devantech_usb_xfer; replace s with (filled [] s) at 1 by (by destruct s);
    etransitivity; [apply (bind_emit _ s []); [done|simpl; lia]|];
    rewrite bind_emit by (done || simpl; lia); reflexivity]. done.
Qed.

Lemma write_msg_refuses s acc m : length (buffer s) = 60%nat → msg_ok m → is_rd m = false →
  (length acc ≤ 57)%nat → (59 < length acc + length (msg_cmds m))%nat →
  ∃ acc', write_msg m (Z.of_nat (length acc)) (filled acc s) = Done None (filled acc' s).
Proof.
  intros Hb Hm Hr Ha Hl. unfold msg_cmds in Hl. rewrite Hr in Hl. cbn [length] in Hl. unfold write_msg.
  rewrite !bind_emit by (done || (rewrite ?length_app; simpl; lia)).
  apply (write_loop_refuses s m _ 0 ((acc ++ [_]) ++ [_])); try done; rewrite ?length_app; cbn [length];
    rewrite ?drop_0; destruct Hm; lia.
Qed.

Lemma read_msg_overruns s acc m : length (buffer s) = 60%nat → (58 ≤ length acc ≤ 60)%nat →
  read_msg m (Z.of_nat (length acc)) (filled acc s) = Oops.
Proof.
  intros Hb Ha. unfold read_msg.
  destruct (decide (length acc = 60)%nat); [by rewrite bind_emit_full by lia|].
  rewrite bind_emit by (done || lia).
  destruct (decide (length acc = 59)%nat); [by rewrite bind_emit_full by (rewrite length_app; simpl; lia)|].
  rewrite bind_emit by (done || (rewrite length_app; simpl; lia)).
  set (acc' := (acc ++ _) ++ _). assert (Hl : Z.of_nat (length acc') = 60) by (subst acc'; rewrite !length_app; simpl; lia).
  rewrite Hl. set (st := filled acc' s). destruct (recv_len m); [by rewrite bind_emit_full|].
  cbv zeta. set (rl := if _ <? _ then _ else _).
  cbn [read_loop]. destruct (16 <? rl); [unfold mbind, M_bind; by rewrite emit_full|].
  rewrite bind_ret. destruct (1 <? rl); [unfold mbind, M_bind; by rewrite emit_full|].
  rewrite bind_ret. by rewrite bind_emit_full.
Qed.
End limits.

(** One message at a time is safe: a read always fits the buffer, a write
    fits up to 51 bytes, and a longer write is refused with [-EINVAL] before
    anything is sent. *)
Theorem iss_single_message_bounds {D} bulk_out bulk_in (s : iss D) m :
  length (buffer s) = 60%nat → msg_ok m →
  if is_rd m || (m_len m <=? 51) then (length (cmds [m]) ≤ 60)%nat
  else ∃ b, devantech_usb_xfer bulk_out bulk_in [m] s = Done (- EINVAL, [m]) (set_buffer b s).
Proof.
  intros Hb Hm. destruct (is_rd m) eqn:Hr; [apply single_fits; auto|].
  destruct (Z.leb_spec (m_len m) 51) as [H|H]; cbn [orb]; [apply single_fits; auto|].
  destruct (xfer_head bulk_out bulk_in s [m] Hb) as (k & Hk & ->).
  assert (4 ≤ (m_len m + 15) / 16) by (apply Z.div_le_lower_bound; lia).
  pose proof (length_write_cmds m Hr Hm).
  destruct (write_msg_refuses s [ISS_CMD_I2C_DIRECT; ISS_I2C_START] m Hb Hm Hr ltac:(simpl; lia)
    ltac:(simpl; lia)) as (acc' & E). exists (acc' ++ drop (length acc') (buffer s)).
  cbn [msgs_loop]. rewrite Hr. change (negb (0 =? 0)) with false. cbv iota.
  unfold mbind, M_bind. cbn [length] in E. change (Z.of_nat 2) with 2 in E.
  unfold mret at 1, M_ret at 1. rewrite E. apply Hk.
Qed.

Lemma iss_single_message_bounds_witness :
  ∃ b, devantech_usb_xfer toy_out toy_in [I2cMsg 80 0 52 (replicate 52 1)] toy_state =
    Done (- EINVAL, [I2cMsg 80 0 52 (replicate 52 1)]) (set_buffer b toy_state).
Proof.
  apply (iss_single_message_bounds toy_out toy_in toy_state (I2cMsg 80 0 52 (replicate 52 1))); [done|].
  split; [simpl; lia|]. split; [simpl; lia|]. apply Forall_replicate. lia.
Defined.

(** Messages are not checked together: a write of 49 to 51 bytes followed
    by any read stores past the end of the buffer. *)
Theorem iss_write_read_overruns {D} bulk_out bulk_in (s : iss D) w r msgs :
  length (buffer s) = 60%nat → msg_ok w → is_rd w = false → 49 ≤ m_len w ≤ 51 → is_rd r = true →
  devantech_usb_xfer bulk_out bulk_in (w :: r :: msgs) s = Oops.
Proof.
  intros Hb Hw Hrw Hlen Hrr. destruct (xfer_head bulk_out bulk_in s (w :: r :: msgs) Hb) as (k & _ & ->).
  assert (Hd : (m_len w + 15) / 16 = 4).
  { symmetry. apply (Z.div_unique _ 16 4 (m_len w + 15 - 64)); lia. }
  pose proof (length_write_cmds w Hrw Hw) as Hl. rewrite Hd in Hl.
  unfold mbind, M_bind. change 2 with (Z.of_nat (length [ISS_CMD_I2C_DIRECT; ISS_I2C_START])) at 1.
  rewrite msgs_loop_step by (done || (simpl; lia)).
  change (if 0 =? 0 then [] else [ISS_I2C_RESTART]) with (@nil Z). cbn [app].
  set (acc := ISS_CMD_I2C_DIRECT :: _).
  assert (Ha : Z.of_nat (length acc) = m_len w + 8) by (subst acc; cbn [length]; lia).
  cbn [msgs_loop]. rewrite Hrr. change (negb (0 + 1 =? 0)) with true. cbv iota.
  rewrite bind_emit by (done || lia). unfold fmap, M_fmap, mbind, M_bind.
  rewrite read_msg_overruns; [done|done|]. rewrite length_app. simpl length at 2 4. lia.
Qed.

Lemma iss_write_read_overruns_witness :
  devantech_usb_xfer toy_out toy_in [I2cMsg 80 0 50 (replicate 50 1); I2cMsg 80 1 1 [0]] toy_state = Oops.
Proof.
  apply (iss_write_read_overruns toy_out toy_in toy_state (I2cMsg 80 0 50 (replicate 50 1)) (I2cMsg 80 1 1 [0]) []);
    [done| |done|simpl; lia|done].
  split; [simpl; lia|]. split; [simpl; lia|]. apply Forall_replicate. lia.
Defined.

(** ** A device comes and goes *)

(** What is documented of [usb_bulk_msg]: it returns zero or an error.  The
    answers leave a byte for the NUL after the serial number. *)
Definition usb_documented {D} (bulk_out : list Z → D → Z * D) (bulk_in : D → Z * list Z * D) : Prop :=
  (∀ l d, (bulk_out l d).1 ≤ 0) ∧ (∀ d, (bulk_in d).1.1 ≤ 0 ∧ (length (bulk_in d).1.2 ≤ 59)%nat).

Section coming_and_going.
Context {D : Type}.
Variable bulk_out : list Z → D → Z * D.
Variable bulk_in : D → Z * list Z * D.
Hypothesis Husb : usb_documented bulk_out bulk_in.
Implicit Types s : iss D.

(** Only the device and the buffer change, and [new] was sent. *)
Definition talked s s' (new : list (list Z)) : Prop :=
  sent s' = sent s ++ new ∧ frequency s' = frequency s ∧ kernel s' = kernel s ∧ length (buffer s') = 60%nat.

Lemma iss_store_done s i b : 0 ≤ i < 60 → store i b s = Done () (set_buffer (<[Z.to_nat i := u8 b]> (buffer s)) s).
Proof.
  intros H. unfold store, ISS_MAX_TRANSFER_LEN.
  destruct (Z.leb_spec 0 i); [|lia]. destruct (Z.ltb_spec i 60); [|lia]. done.
Qed.

Lemma transfer_talks s len : length (buffer s) = 60%nat → 0 < len ≤ 60 →
  ∃ r s', devantech_usb_transfer bulk_out bulk_in len s = Done r s' ∧
    talked s s' [take (Z.to_nat len) (buffer s)] ∧ r ≤ 59.
Proof.
  intros Hb Hl. destruct Husb as [Ho Hi]. unfold devantech_usb_transfer, ISS_MAX_TRANSFER_LEN.
  destruct (Z.leb_spec len 0); [lia|]. destruct (Z.ltb_spec 60 len); [lia|]. cbn [orb].
  unfold usb_send, usb_receive, mbind, M_bind.
  specialize (Ho (take (Z.to_nat len) (buffer s)) (device s)).
  destruct (bulk_out _ (device s)) as [r d1]. cbn [fst] in Ho.
  destruct (Z.eqb_spec r 0); [|exists r; eexists; by repeat split; try lia].
  cbn [device]. specialize (Hi d1). destruct (bulk_in d1) as [[r' bytes] d2]. cbn [fst snd] in Hi.
  eexists. eexists. split; [reflexivity|]. split.
  - repeat split. cbn [buffer]. rewrite length_app, length_drop. lia.
  - destruct (_ && _); lia.
Qed.

Lemma first_bytes a b (l : list Z) : (2 ≤ length l)%nat → take 2 (<[1%nat:=b]> (<[0%nat:=a]> l)) = [a; b].
Proof. destruct l as [|? [|? ?]]; simpl; [lia|lia|done]. Qed.

Lemma first_bytes4 a b c d (l : list Z) : (4 ≤ length l)%nat →
  take 4 (<[3%nat:=d]> (<[2%nat:=c]> (<[1%nat:=b]> (<[0%nat:=a]> l)))) = [a; b; c; d].
Proof. destruct l as [|? [|? [|? [|? ?]]]]; simpl; (lia || done). Qed.

Lemma fw_version_talks s : length (buffer s) = 60%nat →
  ∃ s', devantech_fw_version bulk_out bulk_in s = Done () s' ∧ talked s s' [[ISS_CMD_I2C_INTERNAL; ISS_GET_VERSION]].
Proof.
  intros Hb. unfold devantech_fw_version. unfold mbind at 1, M_bind at 1. rewrite iss_store_done by lia.
  unfold mbind at 1, M_bind at 1. rewrite iss_store_done by lia.
  set (s1 := set_buffer _ _). assert (Hb1 : length (buffer s1) = 60%nat) by (simpl; by rewrite !length_insert).
  destruct (transfer_talks s1 2 Hb1 ltac:(lia)) as (r & s' & E & Ht & _). mstep E.
  exists s'. split; [done|]. revert Ht. unfold s1. simpl.
  by rewrite first_bytes by lia.
Qed.

Lemma get_serial_talks s : length (buffer s) = 60%nat →
  ∃ s', devantech_get_serial bulk_out bulk_in s = Done () s' ∧ talked s s' [[ISS_CMD_I2C_INTERNAL; ISS_GET_SERIAL]].
Proof.
  intros Hb. unfold devantech_get_serial. unfold mbind at 1, M_bind at 1. rewrite iss_store_done by lia.
  unfold mbind at 1, M_bind at 1. rewrite iss_store_done by lia.
  set (s1 := set_buffer _ _). assert (Hb1 : length (buffer s1) = 60%nat) by (simpl; by rewrite !length_insert).
  destruct (transfer_talks s1 2 Hb1 ltac:(lia)) as (r & s' & E & Ht & Hr). mstep E.
  assert (Ht' : talked s s' [[ISS_CMD_I2C_INTERNAL; ISS_GET_SERIAL]]).
  { revert Ht. unfold s1. simpl. by rewrite first_bytes by lia. }
  destruct (Z.leb_spec 8 r); [|by exists s'].
  rewrite iss_store_done by lia. eexists. split; [reflexivity|]. destruct Ht' as (? & ? & ? & ?).
  repeat split; try done. simpl. by rewrite length_insert.
Qed.

Lemma set_speed_talks s speed : length (buffer s) = 60%nat → 0 ≤ speed < 256 →
  ∃ r s', devantech_set_speed bulk_out bulk_in speed s = Done r s' ∧
    talked s s' [[ISS_CMD_I2C_INTERNAL; ISS_MODE; speed; 4]] ∧ r ≤ 0.
Proof.
  intros Hb Hs. unfold devantech_set_speed.
  do 4 (unfold mbind at 1, M_bind at 1; rewrite iss_store_done by lia).
  set (s1 := set_buffer _ _). assert (Hb1 : length (buffer s1) = 60%nat) by (simpl; by rewrite !length_insert).
  destruct (transfer_talks s1 4 Hb1 ltac:(lia)) as (r & s' & E & Ht & _). mstep E.
  assert (Ht' : talked s s' [[ISS_CMD_I2C_INTERNAL; ISS_MODE; speed; 4]]).
  { assert (Eb : take (Z.to_nat 4) (buffer s1) = [ISS_CMD_I2C_INTERNAL; ISS_MODE; u8 speed; 4])
      by (apply first_bytes4; lia).
    by rewrite Eb, u8_small in Ht. }
  destruct (Z.ltb_spec r 0); [exists r, s'; split; [done|split; [done|lia]]|].
  pose proof Ht' as (_ & _ & _ & Hl). destruct (buffer s') as [|b0 rest] eqn:Eb; [done|].
  assert (Ef : fetch 0 s' = Done b0 s') by (apply (fetch_done s' 0); by rewrite Eb).
  mstep Ef. eexists. exists s'. split; [reflexivity|]. split; [done|]. destruct (b0 =? 0); done.
Qed.

Lemma init_talks s : length (buffer s) = 60%nat →
  ∃ r s', devantech_init bulk_out bulk_in s = Done r s' ∧ r ≤ 0 ∧ kernel s' = kernel s ∧
    frequency s' = (select_speed (frequency s)).2 ∧
    sent s' = sent s ++ [[ISS_CMD_I2C_INTERNAL; ISS_GET_VERSION]; [ISS_CMD_I2C_INTERNAL; ISS_GET_SERIAL];
      [ISS_CMD_I2C_INTERNAL; ISS_MODE; (select_speed (frequency s)).1; 4]].
Proof.
  intros Hb. unfold devantech_init. rewrite bind_gets, bind_modify.
  destruct (fw_version_talks (set_frequency (select_speed (frequency s)).2 s) Hb) as (s1 & E1 & F1 & G1 & H1 & L1).
  mstep E1. destruct (get_serial_talks s1 L1) as (s2 & E2 & F2 & G2 & H2 & L2). mstep E2.
  assert (Hs : 0 ≤ (select_speed (frequency s)).1 < 256) by (unfold select_speed; repeat case_match; cbv; split; congruence).
  destruct (set_speed_talks s2 _ L2 Hs) as (r & s3 & E3 & (F3 & G3 & H3 & L3) & Hr).
  exists r, s3. split; [done|]. split; [done|]. rewrite H3, H2, H1, G3, G2, G1, F3, F2, F1. simpl.
  by rewrite <-!app_assoc.
Qed.
End coming_and_going.

(** A probe that fails, at whatever step, leaves nothing of the driver in
    the kernel; a probe that succeeds has asked for version and serial number,
    has set the speed selected for the module's frequency and registered the
    adapter, and a disconnect of the control interface, with one of the data
    interface before it, then leaves nothing either. *)
Theorem iss_probe_disconnect {D} bulk_out bulk_in (s : iss D) e :
  usb_documented bulk_out bulk_in → kernel s = nothing →
  ∃ r s', devantech_iss_probe bulk_out bulk_in e s = Done r s' ∧ r ≤ 0 ∧
    if r <? 0 then kernel s' = nothing
    else adapter (kernel s') = true ∧ frequency s' = (select_speed (frequency s)).2 ∧
      sent s' = sent s ++ [[ISS_CMD_I2C_INTERNAL; ISS_GET_VERSION]; [ISS_CMD_I2C_INTERNAL; ISS_GET_SERIAL];
        [ISS_CMD_I2C_INTERNAL; ISS_MODE; (select_speed (frequency s)).1; 4]] ∧
      ∃ s'', (devantech_iss_disconnect 1;; devantech_iss_disconnect 0) s' = Done () s'' ∧ kernel s'' = nothing.
Proof.
  intros Husb Hk. unfold devantech_iss_probe.
  destruct (mem e); cbn [negb]; [|by exists (- ENOMEM), s].
  destruct s as [d w b f h]. cbn [kernel] in Hk. subst h.
  unfold on_kernel. rewrite !bind_modify.
  destruct (on_control e); cbn [negb]; [|by exists (- ENODEV); eexists].
  destruct (has_data_if e); cbn [negb]; [|by exists (- ENODEV); eexists].
  destruct (busy e); [by exists (- EBUSY); eexists|].
  destruct (bNumEndpoints e <? 2); [by exists (- EINVAL); eexists|].
  rewrite !bind_modify. unfold usb_driver_claim_interface.
  destruct (Z.ltb_spec (claim_ret e) 0) as [Hc|Hc].
  { rewrite bind_ret. cbv beta. destruct (Z.ltb_spec (claim_ret e) 0); [|lia].
    exists (claim_ret e). eexists. split; [reflexivity|]. split; [lia|].
    destruct (Z.ltb_spec (claim_ret e) 0); [done|lia]. }
  set (claim := (on_kernel _;; _)). set (s0 := set_kernel _ _).
  assert (E : claim s0 = Done (claim_ret e) (Iss d w (replicate 60 0) f (Held 1 1 1 true false true false))) by done.
  mstep E. destruct (Z.ltb_spec (claim_ret e) 0); [lia|]. rewrite bind_modify.
  set (s1 := set_kernel _ _). destruct (init_talks bulk_out bulk_in Husb s1 eq_refl) as (r & s2 & E2 & Hr & Hk2 & Hf2 & Hs2).
  mstep E2. cbn in Hk2, Hf2, Hs2. destruct s2 as [d2 w2 b2 f2 h2]. cbn [kernel frequency sent] in Hk2, Hf2, Hs2. subst h2.
  destruct (Z.ltb_spec r 0) as [Hr0|Hr0].
  { exists r. eexists. split; [reflexivity|]. split; [lia|]. destruct (Z.ltb_spec r 0); [done|lia]. }
  unfold i2c_add_adapter. destruct (Z.ltb_spec (add_ret e) 0) as [Ha|Ha].
  { rewrite bind_ret. cbv beta. destruct (Z.ltb_spec (add_ret e) 0); [|lia].
    exists (add_ret e). eexists. split; [reflexivity|]. split; [lia|].
    destruct (Z.ltb_spec (add_ret e) 0); [done|lia]. }
  set (add := (on_kernel _;; _)).
  assert (E3 : add (Iss d2 w2 b2 f2 (Held 1 1 1 true true true false)) =
    Done (add_ret e) (Iss d2 w2 b2 f2 (Held 1 1 1 true true true true))) by done.
  mstep E3. destruct (Z.ltb_spec (add_ret e) 0); [lia|].
  exists 0. eexists. split; [reflexivity|]. split; [lia|]. split; [done|]. split; [done|]. split; [done|].
  by eexists.
Qed.

Lemma iss_probe_disconnect_witness :
  ∃ r s', devantech_iss_probe toy_out toy_in (ProbeEnv true true true false 2 0 0) toy_state = Done r s' ∧ r ≤ 0 ∧
    if r <? 0 then kernel s' = nothing
    else adapter (kernel s') = true ∧ frequency s' = 100000 ∧
      sent s' = [[0x5a; 1]; [0x5a; 3]; [0x5a; 2; 0x60; 4]] ∧
      ∃ s'', (devantech_iss_disconnect 1;; devantech_iss_disconnect 0) s' = Done () s'' ∧ kernel s'' = nothing.
Proof.
  apply (iss_probe_disconnect toy_out toy_in toy_state (ProbeEnv true true true false 2 0 0)); [|done].
  split; intros; simpl; lia.
Defined.


(** ** Two reads in one transfer *)
Lemma copy_loop_overruns {D} (s : iss D) n i b : (i ≤ length b < i + n)%nat → (i + n + 2 ≤ length (buffer s))%nat →
  copy_loop n (Z.of_nat i) b s = Oops.
Proof.
  revert i b. induction n as [|n IH]; intros i b Hb Hs; [lia|]. cbn [copy_loop].
  destruct (lookup_lt_is_Some_2 (buffer s) (i + 2) ltac:(lia)) as [c Hc].
  replace (Z.of_nat i + 2) with (Z.of_nat (i + 2)) by lia. mstep (fetch_done s _ _ Hc).
  destruct (Z.ltb_spec (Z.of_nat i) (Z.of_nat (length b))); [|done].
  replace (Z.of_nat i + 1) with (Z.of_nat (S i)) by lia. apply IH; rewrite ?length_insert; lia.
Qed.

(** The answer to a transfer with a read before the last one has the bytes of
    both, and all of them are copied to the buffer of the last: past its end as
    soon as there are more than it holds. *)
Theorem iss_reads_overrun {D} bulk_out bulk_in (s : iss D) msgs m d1 st e data d2 :
  length (buffer s) = 60%nat → Forall msg_ok (msgs ++ [m]) → (length (cmds (msgs ++ [m])) ≤ 60)%nat →
  is_rd m = true → recv_len m = false →
  bulk_out (cmds (msgs ++ [m])) (device s) = (0, d1) →
  bulk_in d1 = (0, st :: e :: data, d2) → st ≠ 0 → (length (buf m) < length data ≤ 58)%nat →
  devantech_usb_xfer bulk_out bulk_in (msgs ++ [m]) s = Oops.
Proof.
  intros Hb Hm Hl Hr Hrl Ho Hi Hst Hd. rewrite xfer_sends by done. set (all := msgs ++ [m]) in *. unfold exchange.
  rewrite (bind_done _ _ _ _ _ (transfer_answer bulk_out bulk_in s all d1 0 _ d2 Hl Ho Hi)). cbv beta.
  set (b := (st :: e :: data) ++ _). set (s1 := Iss d2 _ b _ _).
  assert (Hlb : length b = 60%nat).
  { subst b. unfold filled, set_buffer. cbn [buffer]. rewrite !length_app, !length_drop, !length_app, !length_drop.
    cbn [length]. lia. }
  change (if _ && _ then ?x else _) with x.
  replace (Z.of_nat (length (st :: e :: data))) with (2 + Z.of_nat (length data)) by (cbn [length]; lia).
  unfold answer_error. destruct (Z.ltb_spec (2 + Z.of_nat (length data)) 0); [lia|].
  destruct (Z.ltb_spec (2 + Z.of_nat (length data)) 2); [lia|].
  unfold mbind at 1, M_bind at 1. rewrite (bind_done _ _ _ _ _ (fetch_done s1 0 st eq_refl)). cbv beta.
  destruct (Z.eqb_spec st ISS_RESP_NACK) as [Hz|Hz]; [done|].
  unfold mret at 1, M_ret at 1. subst all. rewrite last_snoc.
  unfold take_answer. rewrite Hr, Hrl.
  replace (2 + Z.of_nat (length data) - 2) with (Z.of_nat (length data)) by lia. rewrite Nat2Z.id.
  unfold mbind, M_bind. rewrite (copy_loop_overruns s1 (length data) 0); [done|lia|]. cbn [buffer s1]. lia.
Qed.
