(* ===== verification/CString.v ===== *)
(** * Strings of the C programs in user space

    C strings as lists of characters, and what the tools use of the standard
    library to read numbers: [strtol] with any base, and with base 0 the
    prefixes 0x and 0. *)

From Stdlib Require Import ZArith Lia Ascii String.
From stdpp Require Import base list strings.
From S2P Require Import Prelude.

(** A C string: the characters before its NUL. *)
Abbreviation cstr := (list ascii).
Definition strlen (s : cstr) : Z := Z.of_nat (length s).
Definition str (s : string) : cstr := list_ascii_of_string s.
Definition code (c : ascii) : Z := Z.of_N (N_of_ascii c).
Definition char (z : Z) : ascii := ascii_of_N (Z.to_N z).

Definition is_space (c : ascii) : bool := (code c =? 32) || ((9 <=? code c) && (code c <=? 13)).
Fixpoint skip_spaces (s : cstr) : cstr :=
  match s with c :: s' => if is_space c then skip_spaces s' else s | [] => [] end.

(** The value of a digit in the largest base. *)
Definition digit_of (c : ascii) : option Z :=
  let n := code c in
  if (48 <=? n) && (n <=? 57) then Some (n - 48)
  else if (97 <=? n) && (n <=? 122) then Some (n - 87)
  else if (65 <=? n) && (n <=? 90) then Some (n - 55)
  else None.
Definition digit_in (base : Z) (c : ascii) : option Z :=
  match digit_of c with Some d => if d <? base then Some d else None | None => None end.
(** The digits at the head of a string: their value, and what follows. *)
Fixpoint digits (base acc : Z) (s : cstr) : Z * cstr :=
  match s with
  | c :: s' => match digit_in base c with Some d => digits base (acc * base + d) s' | None => (acc, s) end
  | [] => (acc, [])
  end.

(** The base and the digits after a sign: 0x only when a digit follows it. *)
Definition strip_prefix (base : Z) (s : cstr) : Z * cstr :=
  match s with
  | c :: x :: d :: s' =>
      if ((base =? 0) || (base =? 16)) && (code c =? 48) && ((code x =? 120) || (code x =? 88)) &&
         bool_decide (is_Some (digit_in 16 d))
      then (16, d :: s')
      else (if base =? 0 then (if code c =? 48 then 8 else 10) else base, s)
  | c :: _ => (if base =? 0 then (if code c =? 48 then 8 else 10) else base, s)
  | [] => (if base =? 0 then 10 else base, [])
  end.

Definition sign (s : cstr) : bool * cstr :=
  match s with
  | c :: s' => if code c =? 45 then (true, s') else if code c =? 43 then (false, s') else (false, s)
  | [] => (false, [])
  end.

(** [strtol]: the value, limited to the range of [long], and the end pointer,
    which is the string itself when there is no number. *)
Definition strtol (long_bits base : Z) (s : cstr) : Z * cstr :=
  let '(neg, s1) := sign (skip_spaces s) in
  let '(b, s2) := strip_prefix base s1 in
  match s2 with
  | c :: _ =>
      match digit_in b c with
      | None => (0, s)
      | Some _ =>
          let '(v, rest) := digits b 0 s2 in
          (Z.max (- 2 ^ (long_bits - 1)) (Z.min (if neg : bool then - v else v) (2 ^ (long_bits - 1) - 1)), rest)
      end
  | [] => (0, s)
  end.

(** ** Printing in hexadecimal: [%.nx] *)
Definition hex_digit (d : Z) : ascii := char (if d <? 10 then 48 + d else 87 + d).
Fixpoint hex_digits (fuel : nat) (n : Z) (acc : cstr) : cstr :=
  match fuel with
  | O => acc
  | S fuel => let acc := hex_digit (n mod 16) :: acc in if n <? 16 then acc else hex_digits fuel (n / 16) acc
  end.
(** A 32-bit number with at least [w] digits. *)
Definition fmt_x (w : nat) (n : Z) : cstr :=
  let s := hex_digits 8 (u32 n) [] in replicate (w - length s) (char 48) ++ s.

Lemma code_range c : 0 ≤ code c < 256.
Proof. unfold code. pose proof (N_ascii_bounded c). lia. Qed.
Lemma code_char z : 0 ≤ z < 256 → code (char z) = z.
Proof. intros. unfold code, char. rewrite N_ascii_embedding by lia. lia. Qed.
Lemma char_code c : char (code c) = c.
Proof. unfold code, char. rewrite N2Z.id. apply ascii_N_embedding. Qed.

(** A hexadecimal number that is printed is read back. *)
Lemma digit_in_hex d : 0 ≤ d < 16 → digit_in 16 (hex_digit d) = Some d.
Proof.
  intros Hd. unfold digit_in, digit_of, hex_digit. destruct (Z.ltb_spec d 10).
  - rewrite code_char by lia. destruct (Z.leb_spec 48 (48 + d)); [|lia]. destruct (Z.leb_spec (48 + d) 57); [|lia].
    cbn [andb]. replace (48 + d - 48) with d by lia. destruct (Z.ltb_spec d 16); [done|lia].
  - rewrite code_char by lia. destruct (Z.leb_spec (87 + d) 57); [lia|]. rewrite andb_false_r.
    destruct (Z.leb_spec 97 (87 + d)); [|lia]. destruct (Z.leb_spec (87 + d) 122); [|lia].
    cbn [andb]. replace (87 + d - 87) with d by lia. destruct (Z.ltb_spec d 16); [done|lia].
Qed.
