(* ===== verification/StrMap.v ===== *)
(** * strmap.cpp: the hash table of strings under the settings

    [src/sources/lib/lib-settings/src/strmap.cpp]: buckets of key and value
    strings, found by a hash of the key.  Every function is modelled, with
    allocation that may fail at each call and the size of each value's memory,
    so that a copy past its end would show.  The theorems: a type invariant that
    every operation keeps, and that the table is a finite map whose operations
    are those of [gmap], with the memory it holds accounted for. *)

From Stdlib Require Import ZArith Lia Ascii String.
From stdpp Require Import base list gmap strings.
From S2P Require Import Prelude CString.

(** ** Memory: the outcomes of the next allocations, after which all succeed,
    and the number of blocks in use. *)
Record mem := Mem { answers : list bool; live : Z }.
Definition malloc : M mem bool := λ s,
  match answers s with
  | [] => Done true (Mem [] (live s + 1))
  | b :: rest => Done b (Mem rest (if b then live s + 1 else live s))
  end.
(** A block that moves stays one block. *)
Definition realloc : M mem bool := λ s,
  match answers s with [] => Done true s | b :: rest => Done b (Mem rest (live s)) end.
Definition free : M mem unit := modify (λ s, Mem (answers s) (live s - 1)).

Record Pair := MkPair { key : cstr; value : cstr; value_size : Z }.
Record Bucket := MkBucket { count : Z; pairs : list Pair }.
Record StrMap := MkStrMap { map_count : Z; buckets : list Bucket }.

(** [strcpy] into a block of [size] bytes. *)
Definition strcpy {T} (size : Z) (s : cstr) : M T cstr :=
  if strlen s <? size then mret s else oops.

Section strmap.
(** The platform: the value of a [char] as an [int], which is signed or not, and
    the width of [unsigned long]. *)
Variable char_val : ascii → Z.
Variable long_bits : Z.

Definition hash (s : cstr) : Z :=
  foldl (λ h c, wrapu long_bits (h * 32 + h + char_val c)) 5381 s.

(** The index of a key's bucket; a table with no buckets divides by zero. *)
Definition bucket_index {T} (map : StrMap) (k : cstr) : M T nat :=
  if map_count map =? 0 then oops else mret (Z.to_nat (hash k mod map_count map)).

(** [get_pair]: which pair of the bucket has the key; [n] rounds are left. *)
Fixpoint pair_loop {T} (n : nat) (ps : list Pair) (i : nat) (k : cstr) : M T (option nat) :=
  match n with
  | O => mret None
  | S n =>
      match ps with
      | [] => oops
      | p :: ps => if decide (key p = k) then mret (Some i) else pair_loop n ps (S i) k
      end
  end.
Definition get_pair {T} (b : Bucket) (k : cstr) : M T (option nat) :=
  if count b =? 0 then mret None else pair_loop (Z.to_nat (count b)) (pairs b) 0 k.

Definition sm_new (capacity : Z) : M mem (option StrMap) :=
  ok ← malloc;
  if negb ok then mret None
  else
    ok ← malloc;
    if negb ok then free;; mret None
    else mret (Some (MkStrMap capacity (replicate (Z.to_nat capacity) (MkBucket 0 [])))).

(** [sm_delete]: the inner and the outer loop.  [free] of the pointer of an
    empty bucket, which is NULL, does nothing. *)
Fixpoint delete_pairs (m : nat) (ps : list Pair) : M mem unit :=
  match m with
  | O => mret ()
  | S m => match ps with [] => oops | _ :: ps => free;; free;; delete_pairs m ps end
  end.
Fixpoint delete_buckets (n : nat) (bs : list Bucket) : M mem unit :=
  match n with
  | O => mret ()
  | S n =>
      match bs with
      | [] => oops
      | b :: bs =>
          delete_pairs (Z.to_nat (count b)) (pairs b);;
          (match pairs b with [] => mret () | _ => free end);;
          delete_buckets n bs
      end
  end.
Definition sm_delete (map : option StrMap) : M mem unit :=
  match map with
  | None => mret ()
  | Some map => delete_buckets (Z.to_nat (map_count map)) (buckets map);; free;; free
  end.

(** The result and what is copied to [out_buf], which is NULL or has
    [n_out_buf] bytes. *)
Definition sm_get {T} (map : option StrMap) (k : option cstr) (out_buf : bool) (n_out_buf : Z) :
    M T (Z * option cstr) :=
  match map, k with
  | Some map, Some k =>
      index ← bucket_index map k;
      bucket ← of_opt (buckets map !! index);
      pair ← get_pair bucket k;
      match pair with
      | None => mret (0, None)
      | Some j =>
          p ← of_opt (pairs bucket !! j);
          if negb out_buf && (n_out_buf =? 0) then mret (int32 (strlen (value p) + 1), None)
          else if negb out_buf then mret (0, None)
          else if n_out_buf <=? strlen (value p) then mret (0, None)
          else v ← strcpy n_out_buf (value p); mret (1, Some v)
      end
  | _, _ => mret (0, None)
  end.

Definition sm_exists {T} (map : option StrMap) (k : option cstr) : M T Z :=
  match map, k with
  | Some map, Some k =>
      index ← bucket_index map k;
      bucket ← of_opt (buckets map !! index);
      pair ← get_pair bucket k;
      mret (match pair with None => 0 | Some _ => 1 end)
  | _, _ => mret 0
  end.

Definition set_bucket (map : StrMap) (index : nat) (b : Bucket) : StrMap :=
  MkStrMap (map_count map) (<[index := b]> (buckets map)).

(** An existing pair gets the value, in its block when that is large enough. *)
Definition replace_value (p : Pair) (v : cstr) : M mem (option Pair) :=
  let value_len := u32 (strlen v) in
  if strlen (value p) <? value_len then
    ok ← realloc;
    if negb ok then mret None
    else v ← strcpy (u32 (value_len + 1)) v; mret (Some (MkPair (key p) v (u32 (value_len + 1))))
  else v ← strcpy (value_size p) v; mret (Some (MkPair (key p) v (value_size p))).

(** Room for one more pair in the bucket. *)
Definition grow_bucket (b : Bucket) : M mem bool := if count b =? 0 then malloc else realloc.

(** A new pair at the end of the bucket. *)
Definition append_pair (b : Bucket) (k v : cstr) : M mem (option Bucket) :=
  let key_len := u32 (strlen k) in
  let value_len := u32 (strlen v) in
  new_key ← malloc;
  if negb new_key then mret None
  else
    new_value ← malloc;
    if negb new_value then free;; mret None
    else
      ok ← grow_bucket b;
      if negb ok then free;; free;; mret None
      else
        k ← strcpy (u32 (key_len + 1)) k;
        v ← strcpy (u32 (value_len + 1)) v;
        mret (Some (MkBucket (count b + 1)
          (take (Z.to_nat (count b)) (pairs b) ++ [MkPair k v (u32 (value_len + 1))]))).

Definition sm_put (map : option StrMap) (k v : option cstr) : M mem (Z * option StrMap) :=
  match map, k, v with
  | Some map, Some k, Some v =>
      index ← bucket_index map k;
      bucket ← of_opt (buckets map !! index);
      pair ← get_pair bucket k;
      match pair with
      | Some j =>
          p ← of_opt (pairs bucket !! j);
          r ← replace_value p v;
          match r with
          | None => mret (0, Some map)
          | Some p => mret (1, Some (set_bucket map index (MkBucket (count bucket) (<[j := p]> (pairs bucket)))))
          end
      | None =>
          r ← append_pair bucket k v;
          match r with
          | None => mret (0, Some map)
          | Some b => mret (1, Some (set_bucket map index b))
          end
      end
  | _, _, _ => mret (0, map)
  end.

(** The loops over all pairs, in [sm_get_count] and [sm_enum]. *)
Fixpoint count_pairs {T} (m : nat) (n : Z) : M T Z :=
  match m with O => mret n | S m => count_pairs m (u32 (n + 1)) end.
Fixpoint count_loop {T} (n : nat) (bs : list Bucket) (acc : Z) : M T Z :=
  match n with
  | O => mret acc
  | S n => match bs with [] => oops | b :: bs => acc ← count_pairs (Z.to_nat (count b)) acc; count_loop n bs acc end
  end.
Definition sm_get_count {T} (map : option StrMap) : M T Z :=
  match map with
  | None => mret 0
  | Some map => n ← count_loop (Z.to_nat (map_count map)) (buckets map) 0; mret (int32 n)
  end.

Fixpoint enum_pairs {T} (f : cstr → cstr → M T unit) (m : nat) (ps : list Pair) : M T unit :=
  match m with
  | O => mret ()
  | S m => match ps with [] => oops | p :: ps => f (key p) (value p);; enum_pairs f m ps end
  end.
Fixpoint enum_loop {T} (f : cstr → cstr → M T unit) (n : nat) (bs : list Bucket) : M T unit :=
  match n with
  | O => mret ()
  | S n => match bs with [] => oops | b :: bs => enum_pairs f (Z.to_nat (count b)) (pairs b);; enum_loop f n bs end
  end.
Definition sm_enum {T} (map : option StrMap) (enum_func : option (cstr → cstr → M T unit)) : M T Z :=
  match map, enum_func with
  | Some map, Some f => enum_loop f (Z.to_nat (map_count map)) (buckets map);; mret 1
  | _, _ => mret 0
  end.
End strmap.

(** ** A list of keyed items as a finite map *)
Section keyed.
Context {A K V : Type} `{Countable K} (f : A → K * V).

Lemma keyed_lookup (l : list A) j x : NoDup ((λ x, (f x).1) <$> l) → l !! j = Some x →
  (list_to_map (f <$> l) : gmap K V) !! (f x).1 = Some (f x).2.
Proof.
  intros Hn Hj. apply elem_of_list_to_map_1; [by rewrite <-list_fmap_compose|].
  rewrite <-surjective_pairing. by apply list_elem_of_fmap_2, (list_elem_of_lookup_2 l j).
Qed.

Lemma keyed_absent (l : list A) k : k ∉ (λ x, (f x).1) <$> l → (list_to_map (f <$> l) : gmap K V) !! k = None.
Proof. intros Hk. apply not_elem_of_list_to_map_1. by rewrite <-list_fmap_compose. Qed.

(** An item replaced by one with the same key. *)
Lemma keyed_update (l : list A) j x x' : NoDup ((λ x, (f x).1) <$> l) → l !! j = Some x → (f x').1 = (f x).1 →
  (list_to_map (f <$> <[j := x']> l) : gmap K V) = <[(f x).1 := (f x').2]> (list_to_map (f <$> l)).
Proof.
  intros Hn Hj Hk. assert (Hlt : (j < length l)%nat) by (by eapply lookup_lt_Some).
  assert (Hn' : NoDup ((λ x, (f x).1) <$> <[j := x']> l)).
  { rewrite list_fmap_insert, Hk, list_insert_id; [done|]. by rewrite list_lookup_fmap, Hj. }
  apply map_eq. intros k. destruct (decide (k = (f x).1)) as [->|Hne].
  { rewrite lookup_insert_eq, <-Hk. apply (keyed_lookup _ j); [done|]. by apply list_lookup_insert_eq. }
  rewrite lookup_insert_ne by done. rewrite insert_take_drop by done.
  rewrite <-(take_drop_middle l j x Hj) at 3. rewrite !fmap_app, !list_to_map_app, !lookup_union. f_equal.
  cbn [fmap list_fmap list_to_map foldr]. rewrite Hk, !lookup_insert_ne by done. done.
Qed.

(** A new item at the end. *)
Lemma keyed_snoc (l : list A) x : (f x).1 ∉ (λ x, (f x).1) <$> l →
  (list_to_map (f <$> l ++ [x]) : gmap K V) = <[(f x).1 := (f x).2]> (list_to_map (f <$> l)).
Proof.
  intros Hx. apply map_eq. intros k. rewrite fmap_app, list_to_map_app, lookup_union. cbn.
  destruct (decide (k = (f x).1)) as [->|].
  - by rewrite !lookup_insert_eq, keyed_absent by done.
  - rewrite !lookup_insert_ne, lookup_empty by done. by destruct (_ !! k).
Qed.
End keyed.

(** ** What a table holds *)
Definition entry (p : Pair) : cstr * cstr := (key p, value p).
Definition entries (m : StrMap) : list (cstr * cstr) := buckets m ≫= λ b, entry <$> pairs b.
(** The finite map a table stands for. *)
Definition contents (m : StrMap) : gmap cstr cstr := list_to_map (entries m).
(** The blocks of memory it uses. *)
Definition bucket_blocks (b : Bucket) : Z :=
  match pairs b with [] => 0 | ps => 1 + 2 * Z.of_nat (length ps) end.
Definition buckets_blocks (bs : list Bucket) : Z := foldr (λ b n, bucket_blocks b + n) 0 bs.
Definition blocks (m : StrMap) : Z := 2 + buckets_blocks (buckets m).

(** Strings whose length and NUL an [unsigned int] can count. *)
Definition short (s : cstr) : Prop := strlen s + 1 < 4294967296.

Lemma bucket_blocks_alt b : bucket_blocks b =
  2 * Z.of_nat (length (pairs b)) + (if Z.of_nat (length (pairs b)) =? 0 then 0 else 1).
Proof. unfold bucket_blocks. destruct (pairs b); [done|]. cbn [length]. destruct (Z.eqb_spec (Z.of_nat (S (length l))) 0); lia. Qed.

Lemma buckets_blocks_insert bs i b b' : bs !! i = Some b →
  buckets_blocks (<[i := b']> bs) = buckets_blocks bs - bucket_blocks b + bucket_blocks b'.
Proof.
  revert i. induction bs as [|x bs IH]; intros [|i] H; simplify_eq/=; [lia|]. rewrite IH by done. lia.
Qed.

Lemma buckets_blocks_empty n : buckets_blocks (replicate n (MkBucket 0 [])) = 0.
Proof. induction n; simpl; [done|]. rewrite IHn. done. Qed.

Lemma malloc_cases s : ∃ b s', malloc s = Done b s' ∧ live s' = live s + (if b then 1 else 0) ∧
  answers s' `suffix_of` answers s ∧ (b = false → false ∈ answers s).
Proof.
  destruct s as [[|b rest] l]; unfold malloc; simpl.
  - exists true. eexists. by repeat split.
  - exists b. eexists. split; [done|]. simpl. split; [by destruct b; lia|].
    split; [by apply suffix_cons_r|]. intros ->. by left.
Qed.

Lemma realloc_cases s : ∃ b s', realloc s = Done b s' ∧ live s' = live s ∧
  answers s' `suffix_of` answers s ∧ (b = false → false ∈ answers s).
Proof.
  destruct s as [[|b rest] l]; unfold realloc; simpl.
  - exists true. eexists. by repeat split.
  - exists b. eexists. split; [done|]. simpl. split; [done|].
    split; [by apply suffix_cons_r|]. intros ->. by left.
Qed.

Lemma suffix_elem_of (l1 l2 : list bool) x : l1 `suffix_of` l2 → x ∈ l1 → x ∈ l2.
Proof. intros [k ->] H. set_solver. Qed.

Lemma strcpy_done {T} size s (st : T) : strlen s < size → strcpy size s st = Done s st.
Proof. intros. unfold strcpy. destruct (Z.ltb_spec (strlen s) size); [done|lia]. Qed.

Section theory.
Variable char_val : ascii → Z.
Variable long_bits : Z.
Abbreviation hash := (hash char_val long_bits).
Definition idx (n : Z) (k : cstr) : nat := Z.to_nat (hash k mod n).

(** The type invariant: the count is the length of the array, a key is there
    once and in its bucket, and a value fits its memory; there is at least one
    bucket. *)
Definition bucket_ok (n : Z) (i : nat) (b : Bucket) : Prop :=
  count b = Z.of_nat (length (pairs b)) ∧ NoDup (key <$> pairs b) ∧
  Forall (λ p, idx n (key p) = i ∧ strlen (value p) < value_size p) (pairs b).
Definition wf (m : StrMap) : Prop :=
  0 < map_count m ∧ length (buckets m) = Z.to_nat (map_count m) ∧
  ∀ i b, buckets m !! i = Some b → bucket_ok (map_count m) i b.

Lemma wf_bucket m k : wf m →
  ∃ b, buckets m !! idx (map_count m) k = Some b ∧ bucket_ok (map_count m) (idx (map_count m) k) b.
Proof.
  intros (Hn & Hl & Hb). assert (idx (map_count m) k < length (buckets m))%nat as Hi.
  { rewrite Hl. unfold idx. pose proof (Z.mod_pos_bound (hash k) (map_count m) Hn). lia. }
  apply lookup_lt_is_Some_2 in Hi as [b Hi]. exists b. auto.
Qed.

Lemma pair_loop_spec {T} ps i k (s : T) : ∃ r, pair_loop (length ps) ps i k s = Done r s ∧
  match r with
  | Some j => ∃ p j', j = (i + j')%nat ∧ ps !! j' = Some p ∧ key p = k
  | None => k ∉ key <$> ps
  end.
Proof.
  revert i. induction ps as [|p ps IH]; intros i; cbn [length pair_loop].
  { exists None. split; [done|]. simpl. set_solver. }
  destruct (decide (key p = k)) as [E|E].
  { exists (Some i). split; [done|]. exists p, 0%nat. split; [lia|done]. }
  destruct (IH (S i)) as (r & -> & H). exists r. split; [done|]. destruct r as [j|].
  - destruct H as (q & j' & -> & Hj & Hk). exists q, (S j'). split; [lia|done].
  - rewrite fmap_cons. set_solver.
Qed.

Lemma get_pair_spec {T} b k (s : T) : count b = Z.of_nat (length (pairs b)) →
  ∃ r, get_pair b k s = Done r s ∧
  match r with
  | Some j => ∃ p, pairs b !! j = Some p ∧ key p = k
  | None => k ∉ key <$> pairs b
  end.
Proof.
  intros Hc. unfold get_pair. destruct (Z.eqb_spec (count b) 0) as [E|E].
  { exists None. split; [done|]. destruct (pairs b); [simpl; set_solver|simpl in Hc; lia]. }
  rewrite Hc, Nat2Z.id. destruct (pair_loop_spec (pairs b) 0 k s) as (r & -> & H).
  exists r. split; [done|]. destruct r as [j|]; [|done]. destruct H as (p & j' & -> & ? & ?). by exists p.
Qed.

(** *** The map of a bucket and the map of the table *)
Definition bucket_map (b : Bucket) : gmap cstr cstr := list_to_map (entry <$> pairs b).

Lemma entry_keys ps : (entry <$> ps).*1 = key <$> ps.
Proof. rewrite <-list_fmap_compose. done. Qed.

Lemma bucket_map_Some b k p j : NoDup (key <$> pairs b) → pairs b !! j = Some p → key p = k →
  bucket_map b !! k = Some (value p).
Proof. intros Hn Hj <-. by apply (keyed_lookup entry _ j). Qed.
Lemma bucket_map_None b k : k ∉ key <$> pairs b → bucket_map b !! k = None.
Proof. intros H. by apply (keyed_absent entry). Qed.

Lemma bucket_map_elsewhere n i b k : bucket_ok n i b → idx n k ≠ i → bucket_map b !! k = None.
Proof.
  intros (_ & _ & Hf) Hk. apply bucket_map_None. intros (p & -> & Hp)%list_elem_of_fmap.
  rewrite Forall_forall in Hf. destruct (Hf p Hp). done.
Qed.

Lemma lookup_buckets n bs off k : (∀ i b, bs !! i = Some b → bucket_ok n (off + i) b) →
  (off ≤ idx n k)%nat →
  (list_to_map (bs ≫= λ b, entry <$> pairs b) : gmap cstr cstr) !! k =
  bs !! (idx n k - off)%nat ≫= λ b, bucket_map b !! k.
Proof.
  revert off. induction bs as [|b bs IH]; intros off Hok Hoff; [done|].
  cbn [mbind list_bind]. rewrite list_to_map_app. fold (bucket_map b).
  pose proof (Hok 0%nat b eq_refl) as Hb. rewrite Nat.add_0_r in Hb.
  assert (Hok' : ∀ i b, bs !! i = Some b → bucket_ok n (S off + i) b).
  { intros i b' Hi. rewrite Nat.add_succ_comm. by apply (Hok (S i)). }
  destruct (decide (idx n k = off)) as [E|E].
  - rewrite E, Nat.sub_diag. cbn. destruct (bucket_map b !! k) as [v|] eqn:Ev.
    { by apply lookup_union_Some_l. }
    rewrite lookup_union_r by done. apply not_elem_of_list_to_map_1.
    intros ((k' & v) & -> & Hin)%list_elem_of_fmap. simpl in E.
    apply list_elem_of_bind in Hin as (b' & Hin & Hb').
    apply list_elem_of_lookup_1 in Hb' as [i Hi]. destruct (Hok' i b' Hi) as (_ & _ & Hf).
    apply list_elem_of_fmap in Hin as (p & [= -> ->] & Hp).
    rewrite Forall_forall in Hf. destruct (Hf p Hp) as [H _]. lia.
  - rewrite lookup_union_r by (by eapply bucket_map_elsewhere).
    rewrite (IH (S off)) by (done || lia).
    by replace (idx n k - off)%nat with (S (idx n k - S off)) by lia.
Qed.

Lemma contents_lookup m k b : wf m → buckets m !! idx (map_count m) k = Some b →
  contents m !! k = bucket_map b !! k.
Proof.
  intros (_ & _ & Hok) Hb. unfold contents, entries. rewrite (lookup_buckets (map_count m) _ 0) by (done || lia).
  by rewrite Nat.sub_0_r, Hb.
Qed.

(** *** Finding a key *)
Lemma find_step {T} m k (s : T) : wf m → ∃ b r,
  bucket_index char_val long_bits m k s = Done (idx (map_count m) k) s ∧
  buckets m !! idx (map_count m) k = Some b ∧ bucket_ok (map_count m) (idx (map_count m) k) b ∧
  get_pair b k s = Done r s ∧
  match r with
  | Some j => ∃ p, pairs b !! j = Some p ∧ key p = k ∧ contents m !! k = Some (value p)
  | None => k ∉ key <$> pairs b ∧ contents m !! k = None
  end.
Proof.
  intros Hm. destruct (wf_bucket m k Hm) as (b & Hb & Hok).
  pose proof Hok as (Hc & Hn & Hf). destruct (get_pair_spec b k s Hc) as (r & Hr & Hspec).
  exists b, r. split.
  { unfold bucket_index. destruct Hm as (Hm & _). destruct (Z.eqb_spec (map_count m) 0); [lia|done]. }
  split; [done|]. split; [done|]. split; [done|]. rewrite (contents_lookup m k b Hm Hb).
  destruct r as [j|]; [|split; [done|by apply bucket_map_None]].
  destruct Hspec as (p & Hp & Hk). exists p. split; [done|]. split; [done|]. by eapply bucket_map_Some.
Qed.

Lemma sm_exists_spec {T} m k (s : T) : wf m →
  sm_exists char_val long_bits (Some m) (Some k) s = Done (if contents m !! k then 1 else 0) s.
Proof.
  intros Hm. destruct (find_step m k s Hm) as (b & r & Ei & Eb & _ & Eg & Hr). unfold sm_exists.
  mstep Ei. rewrite Eb, bind_of_opt. mstep Eg. destruct r as [j|].
  - by destruct Hr as (p & _ & _ & ->).
  - by destruct Hr as (_ & ->).
Qed.

Lemma sm_get_spec {T} m k n (s : T) : wf m →
  sm_get char_val long_bits (Some m) (Some k) true n s =
  Done (match contents m !! k with
        | Some v => if strlen v <? n then (1, Some v) else (0, None)
        | None => (0, None)
        end) s.
Proof.
  intros Hm. destruct (find_step m k s Hm) as (b & r & Ei & Eb & _ & Eg & Hr). unfold sm_get.
  mstep Ei. rewrite Eb, bind_of_opt. mstep Eg. destruct r as [j|].
  - destruct Hr as (p & -> & _ & ->). rewrite bind_of_opt. cbn [negb andb]. unfold strcpy.
    destruct (Z.leb_spec n (strlen (value p))), (Z.ltb_spec (strlen (value p)) n); (lia || done).
  - by destruct Hr as (_ & ->).
Qed.

Lemma sm_get_size_spec {T} m k (s : T) : wf m →
  sm_get char_val long_bits (Some m) (Some k) false 0 s =
  Done (match contents m !! k with Some v => int32 (strlen v + 1) | None => 0 end, None) s.
Proof.
  intros Hm. destruct (find_step m k s Hm) as (b & r & Ei & Eb & _ & Eg & Hr). unfold sm_get.
  mstep Ei. rewrite Eb, bind_of_opt. mstep Eg. destruct r as [j|].
  - by destruct Hr as (p & -> & _ & ->).
  - by destruct Hr as (_ & ->).
Qed.

(** *** Changing a bucket *)
Lemma set_bucket_wf m i b : wf m → bucket_ok (map_count m) i b → wf (set_bucket m i b).
Proof.
  intros (Hn & Hl & Hok) Hb. split; [done|]. split; [simpl; by rewrite length_insert|].
  intros j c Hj. simpl in Hj. destruct (decide (i = j)) as [<-|].
  - destruct (decide (i < length (buckets m))%nat).
    + rewrite list_lookup_insert_eq in Hj by done. by simplify_eq.
    + rewrite list_insert_ge in Hj by lia. by apply Hok.
  - rewrite list_lookup_insert_ne in Hj by done. by apply Hok.
Qed.

Lemma set_bucket_contents m k v b b' : wf m → buckets m !! idx (map_count m) k = Some b →
  bucket_ok (map_count m) (idx (map_count m) k) b' →
  (∀ k', bucket_map b' !! k' = <[k := v]> (bucket_map b) !! k') →
  contents (set_bucket m (idx (map_count m) k) b') = <[k := v]> (contents m).
Proof.
  intros Hm Hb Hok Hmap. apply map_eq. intros k'.
  set (i := idx (map_count m) k) in *. set (i' := idx (map_count m) k').
  assert (Hi : (i < length (buckets m))%nat) by (by eapply lookup_lt_Some).
  assert (Hm' : wf (set_bucket m i b')) by (by apply set_bucket_wf).
  destruct (decide (i' = i)) as [E|E].
  - rewrite (contents_lookup (set_bucket m i b') k' b' Hm').
    2:{ simpl. fold i'. rewrite E. by apply list_lookup_insert_eq. }
    rewrite Hmap. destruct (decide (k' = k)) as [->|].
    + by rewrite !lookup_insert_eq.
    + rewrite !lookup_insert_ne by done. symmetry. apply contents_lookup; [done|]. fold i'. by rewrite E.
  - rewrite lookup_insert_ne by (intros ->; by apply E).
    destruct (wf_bucket m k' Hm) as (c & Hc & _). fold i' in Hc.
    rewrite (contents_lookup m k' c Hm Hc). apply contents_lookup; [done|].
    simpl. fold i'. by rewrite list_lookup_insert_ne.
Qed.

Lemma bucket_replace n i b j p p' : bucket_ok n i b → pairs b !! j = Some p → key p' = key p →
  strlen (value p') < value_size p' →
  let b' := MkBucket (count b) (<[j := p']> (pairs b)) in
  bucket_ok n i b' ∧ bucket_blocks b' = bucket_blocks b ∧
  ∀ k', bucket_map b' !! k' = <[key p := value p']> (bucket_map b) !! k'.
Proof.
  intros (Hc & Hn & Hf) Hj Hk Hv b'. pose proof (Forall_lookup_1 _ _ _ _ Hf Hj) as [Hi _].
  assert (Hb' : bucket_ok n i b').
  { split; [simpl; by rewrite length_insert|]. split.
    - simpl. rewrite list_fmap_insert, Hk, list_insert_id; [done|]. by rewrite list_lookup_fmap, Hj.
    - apply Forall_insert; [done|]. by rewrite Hk. }
  split; [done|]. split.
  { rewrite !bucket_blocks_alt. subst b'. cbn [pairs]. by rewrite length_insert. }
  intros k'. f_equal. by apply (keyed_update entry).
Qed.

Lemma bucket_append n b k v size : bucket_ok n (idx n k) b → k ∉ key <$> pairs b → strlen v < size →
  let b' := MkBucket (count b + 1) (take (Z.to_nat (count b)) (pairs b) ++ [MkPair k v size]) in
  bucket_ok n (idx n k) b' ∧
  bucket_blocks b' = bucket_blocks b + 2 + (if count b =? 0 then 1 else 0) ∧
  ∀ k', bucket_map b' !! k' = <[k := v]> (bucket_map b) !! k'.
Proof.
  intros (Hc & Hn & Hf) Hk Hv b'. subst b'. rewrite Hc, Nat2Z.id, firstn_all. split; [split; [|split]|split].
  - simpl. rewrite length_app. simpl. lia.
  - simpl. rewrite fmap_app. apply NoDup_app. split; [done|]. split; [|apply NoDup_singleton]. set_solver.
  - simpl. apply Forall_app. split; [done|]. by constructor.
  - rewrite !bucket_blocks_alt. cbn [pairs]. rewrite length_app. cbn [length].
    destruct (Z.eqb_spec (Z.of_nat (length (pairs b) + 1)) 0), (Z.eqb_spec (Z.of_nat (length (pairs b))) 0); lia.
  - intros k'. f_equal. by apply (keyed_snoc entry).
Qed.

(** *** The two ways of putting a value *)
Lemma replace_value_spec p v s : strlen (value p) < value_size p → short v → ∃ r s',
  replace_value p v s = Done r s' ∧ live s' = live s ∧ answers s' `suffix_of` answers s ∧
  match r with
  | Some p' => key p' = key p ∧ value p' = v ∧ strlen v < value_size p'
  | None => false ∈ answers s
  end.
Proof.
  intros Hp Hv. unfold replace_value, short, u32 in *.
  assert (0 ≤ strlen v) by (unfold strlen; lia). rewrite (Z.mod_small (strlen v)), Z.mod_small by lia.
  destruct (Z.ltb_spec (strlen (value p)) (strlen v)).
  - destruct (realloc_cases s) as (b & s' & E & Hl & Ha & Hf). mstep E. destruct b; cbn [negb].
    + rewrite (bind_done _ _ _ _ _ (strcpy_done (strlen v + 1) v s' ltac:(lia))).
      eexists. exists s'. split; [reflexivity|]. split; [done|]. split; [done|]. simpl. split_and!; [done..|lia].
    + exists None, s'. split; [done|]. auto.
  - rewrite (bind_done _ _ _ _ _ (strcpy_done (value_size p) v s ltac:(lia))).
    eexists. exists s. split; [reflexivity|]. split; [done|]. split; [done|]. simpl. split_and!; [done..|lia].
Qed.

Lemma grow_bucket_cases b s : ∃ ok s', grow_bucket b s = Done ok s' ∧
  live s' = live s + (if ok && (count b =? 0) then 1 else 0) ∧
  answers s' `suffix_of` answers s ∧ (ok = false → false ∈ answers s).
Proof.
  unfold grow_bucket. destruct (count b =? 0).
  - destruct (malloc_cases s) as (ok & s' & ? & ? & ? & ?). exists ok, s'. by rewrite andb_true_r.
  - destruct (realloc_cases s) as (ok & s' & ? & ? & ? & ?). exists ok, s'. rewrite andb_false_r, Z.add_0_r. auto.
Qed.

Lemma append_pair_spec b k v s : short k → short v → ∃ r s',
  append_pair b k v s = Done r s' ∧ answers s' `suffix_of` answers s ∧
  match r with
  | Some b' => b' = MkBucket (count b + 1) (take (Z.to_nat (count b)) (pairs b) ++ [MkPair k v (strlen v + 1)]) ∧
      live s' = live s + 2 + (if count b =? 0 then 1 else 0)
  | None => live s' = live s ∧ false ∈ answers s
  end.
Proof.
  intros Hk Hv. unfold append_pair, short, u32 in *.
  assert (0 ≤ strlen v ∧ 0 ≤ strlen k) by (unfold strlen; lia).
  rewrite (Z.mod_small (strlen v)), (Z.mod_small (strlen k)), !Z.mod_small by lia.
  destruct (malloc_cases s) as (b1 & s1 & E1 & L1 & A1 & F1). mstep E1.
  destruct b1; cbn [negb]; [|exists None, s1; split_and!; auto; lia].
  destruct (malloc_cases s1) as (b2 & s2 & E2 & L2 & A2 & F2). mstep E2.
  assert (A12 : answers s2 `suffix_of` answers s) by (by etrans).
  destruct b2; cbn [negb].
  2:{ eexists None, _. split; [reflexivity|]. simpl. split; [done|]. split; [lia|].
      eapply suffix_elem_of; [apply A1|auto]. }
  destruct (grow_bucket_cases b s2) as (b3 & s3 & E3 & L3 & A3 & F3). mstep E3.
  assert (A13 : answers s3 `suffix_of` answers s) by (by etrans).
  destruct b3; cbn [negb andb] in *.
  2:{ eexists None, _. split; [reflexivity|]. simpl. split; [done|]. split; [lia|].
      eapply suffix_elem_of; [apply A12|auto]. }
  rewrite (bind_done _ _ _ _ _ (strcpy_done (strlen k + 1) k s3 ltac:(lia))).
  rewrite (bind_done _ _ _ _ _ (strcpy_done (strlen v + 1) v s3 ltac:(lia))).
  eexists. exists s3. split; [reflexivity|]. split; [done|]. split; [done|]. lia.
Qed.

Lemma sm_put_spec m k v s : wf m → short k → short v → ∃ r m' s',
  sm_put char_val long_bits (Some m) (Some k) (Some v) s = Done (r, Some m') s' ∧
  wf m' ∧ live s' - blocks m' = live s - blocks m ∧ answers s' `suffix_of` answers s ∧
  map_count m' = map_count m ∧
  (r = 1 ∧ contents m' = <[k := v]> (contents m) ∨ r = 0 ∧ m' = m ∧ false ∈ answers s).
Proof.
  intros Hm Hk Hv. destruct (find_step m k s Hm) as (b & r & Ei & Eb & Hok & Eg & Hr). unfold sm_put.
  mstep Ei. rewrite Eb, bind_of_opt. mstep Eg. destruct r as [j|].
  - destruct Hr as (p & Hj & Hkp & Hc). rewrite Hj, bind_of_opt.
    pose proof Hok as (_ & _ & Hf). pose proof (Forall_lookup_1 _ _ _ _ Hf Hj) as [_ Hpv].
    destruct (replace_value_spec p v s Hpv Hv) as (r & s' & E & Hl & Ha & Hr). mstep E.
    destruct r as [p'|]; [|exists 0, m, s'; split_and!; auto; lia].
    destruct Hr as (Hk' & Hv' & Hs'). subst v.
    destruct (bucket_replace _ _ b j p p' Hok Hj Hk' Hs') as (Hok' & Hbl & Hmap).
    eexists 1, _, s'. split; [reflexivity|]. split; [by apply set_bucket_wf|]. split.
    { unfold blocks, set_bucket. simpl. rewrite (buckets_blocks_insert _ _ _ _ Eb), Hbl. lia. }
    split; [done|]. split; [done|]. left. split; [done|].
    apply (set_bucket_contents m k _ b); try done. by rewrite <-Hkp.
  - destruct Hr as (Hnk & _). destruct (append_pair_spec b k v s Hk Hv) as (r & s' & E & Ha & Hr). mstep E.
    destruct r as [b'|]; [|destruct Hr; exists 0, m, s'; split_and!; auto; lia].
    destruct Hr as [-> Hl].
    destruct (bucket_append (map_count m) b k v (strlen v + 1) Hok Hnk ltac:(lia)) as (Hok' & Hbl & Hmap).
    eexists 1, _, s'. split; [reflexivity|]. split; [by apply set_bucket_wf|]. split.
    { unfold blocks, set_bucket. simpl. rewrite (buckets_blocks_insert _ _ _ _ Eb), Hbl. lia. }
    split; [done|]. split; [done|]. left. split; [done|]. by apply (set_bucket_contents m k _ b).
Qed.

(** *** Enumerating: the callback on each entry in turn. *)
Definition visit {T} (f : cstr → cstr → M T unit) (l : list (cstr * cstr)) : M T unit :=
  foldr (λ e c, f e.1 e.2;; c) (mret ()) l.

Lemma enum_pairs_spec {T} f ps (s : T) :
  enum_pairs f (length ps) ps s = visit f (entry <$> ps) s.
Proof.
  revert s. induction ps as [|p ps IH]; intros s; [done|]. cbn [length enum_pairs fmap list_fmap visit foldr].
  unfold mbind, M_bind. cbn [entry fst snd]. unfold entry. simpl.
  destruct (f (key p) (value p) s); first [done|apply IH].
Qed.

Lemma foldr_seq_app {T} (f : cstr → cstr → M T unit) l1 l2 s :
  visit f (l1 ++ l2) s =
  (visit f l1;; visit f l2) s.
Proof.
  revert s. induction l1 as [|e l1 IH]; intros s; [done|]. cbn [app visit foldr]. fold (visit f (l1 ++ l2)). fold (visit f l1). unfold mbind, M_bind in *.
  destruct (f e.1 e.2 s); first [done|apply IH].
Qed.

Lemma sm_enum_spec {T} m (f : cstr → cstr → M T unit) s : wf m →
  sm_enum (Some m) (Some f) s = (visit f (entries m);; mret 1) s.
Proof.
  intros (Hn & Hl & Hok). unfold sm_enum. rewrite <-Hl. unfold entries.
  assert (E : ∀ bs s, (∀ i b, bs !! i = Some b → count b = Z.of_nat (length (pairs b))) →
    enum_loop f (length bs) bs s =
    visit f (bs ≫= λ b, entry <$> pairs b) s).
  { clear. induction bs as [|b bs IH]; intros s Hc; [done|]. cbn [length enum_loop mbind list_bind].
    rewrite foldr_seq_app. rewrite (Hc 0%nat b eq_refl), Nat2Z.id. unfold mbind, M_bind. rewrite enum_pairs_spec.
    destruct (visit f (entry <$> pairs b) s); try done. apply IH. intros i b' Hi. by apply (Hc (S i)). }
  unfold mbind at 1, M_bind at 1. rewrite E by (intros i b Hi; apply (Hok i b Hi)). done.
Qed.

Lemma entries_NoDup m : wf m → NoDup (entries m).*1.
Proof.
  intros (_ & _ & Hok). unfold entries.
  assert (E : ∀ n bs off, (∀ i b, bs !! i = Some b → bucket_ok n (off + i) b) →
    NoDup (bs ≫= λ b, entry <$> pairs b).*1).
  { clear. intros n bs. induction bs as [|b bs IH]; intros off Hok; [apply NoDup_nil_2|].
    cbn [mbind list_bind]. rewrite fmap_app. apply NoDup_app.
    pose proof (Hok 0%nat b eq_refl) as (_ & Hn & Hf). rewrite entry_keys. split; [done|]. split.
    - intros k Hk Hk'. apply list_elem_of_fmap in Hk as (p & -> & Hp). rewrite Forall_forall in Hf.
      destruct (Hf p Hp) as [H1 _]. apply list_elem_of_fmap in Hk' as ((k' & v) & E & Hin).
      apply list_elem_of_bind in Hin as (b' & Hin & Hb').
      apply list_elem_of_lookup_1 in Hb' as [i Hi]. destruct (Hok (S i) b' Hi) as (_ & _ & Hf').
      apply list_elem_of_fmap in Hin as (q & [= -> ->] & Hq). rewrite Forall_forall in Hf'.
      destruct (Hf' q Hq) as [H2 _]. simpl in E. rewrite <-E in H2. lia.
    - apply (IH (S off)). intros i b' Hi. rewrite Nat.add_succ_comm. by apply (Hok (S i)). }
  by apply (E (map_count m) _ 0%nat).
Qed.

Lemma entries_contents m : wf m → entries m ≡ₚ map_to_list (contents m).
Proof. intros H. unfold contents. rewrite map_to_list_to_map by (by apply entries_NoDup). done. Qed.

Lemma size_contents m : wf m → size (contents m) = length (entries m).
Proof. intros H. rewrite entries_contents by done. by rewrite length_map_to_list. Qed.

Lemma count_pairs_spec {T} m n (s : T) : 0 ≤ n → n + Z.of_nat m < 4294967296 →
  count_pairs m n s = Done (n + Z.of_nat m) s.
Proof.
  revert n. induction m as [|m IH]; intros n Hn Hm; cbn [count_pairs]; [by rewrite Z.add_0_r|].
  unfold u32. rewrite Z.mod_small by lia. rewrite IH by lia. f_equal. lia.
Qed.

Lemma sm_get_count_spec {T} m (s : T) : wf m → Z.of_nat (size (contents m)) ≤ INT_MAX →
  sm_get_count (Some m) s = Done (Z.of_nat (size (contents m))) s.
Proof.
  intros Hm. rewrite size_contents by done. destruct Hm as (Hn & Hl & Hok). unfold INT_MAX. intros Hc.
  unfold sm_get_count. rewrite <-Hl. unfold entries in *.
  assert (E : ∀ bs n, (∀ i b, bs !! i = Some b → count b = Z.of_nat (length (pairs b))) → 0 ≤ n →
    n + Z.of_nat (length (bs ≫= λ b, entry <$> pairs b)) < 4294967296 →
    count_loop (length bs) bs n s = Done (n + Z.of_nat (length (bs ≫= λ b, entry <$> pairs b))) s).
  { clear. induction bs as [|b bs IH]; intros n Hc Hn Hs; [simpl; by rewrite Z.add_0_r|].
    cbn [length count_loop mbind list_bind] in *. rewrite length_app, length_fmap in *.
    rewrite (Hc 0%nat b eq_refl), Nat2Z.id.
    rewrite (bind_done _ _ _ _ _ (count_pairs_spec (length (pairs b)) n s Hn ltac:(lia))).
    rewrite IH; [f_equal; lia|intros i b' Hi; by apply (Hc (S i))|lia|lia]. }
  rewrite (bind_done _ _ _ _ _ (E (buckets m) 0 ltac:(intros i b Hi; apply (Hok i b Hi)) ltac:(lia) ltac:(lia))).
  rewrite int32_small by (unfold INT_MAX; lia). done.
Qed.

(** *** Making and deleting a table *)
Lemma delete_pairs_spec ps s : delete_pairs (length ps) ps s =
  Done () (Mem (answers s) (live s - 2 * Z.of_nat (length ps))).
Proof.
  revert s. induction ps as [|p ps IH]; intros s; cbn [length delete_pairs].
  { destruct s. unfold mret, M_ret. f_equal. f_equal. simpl. lia. }
  unfold free. rewrite !bind_modify, IH. cbn [answers live]. do 2 f_equal. lia.
Qed.

Lemma sm_delete_spec m s : wf m → sm_delete (Some m) s = Done () (Mem (answers s) (live s - blocks m)).
Proof.
  intros (Hn & Hl & Hok). unfold sm_delete. rewrite <-Hl. unfold blocks.
  assert (E : ∀ bs s, (∀ i b, bs !! i = Some b → count b = Z.of_nat (length (pairs b))) →
    delete_buckets (length bs) bs s = Done () (Mem (answers s) (live s - buckets_blocks bs))).
  { clear. induction bs as [|b bs IH]; intros s Hc; cbn [length delete_buckets].
    { destruct s. unfold mret, M_ret. do 2 f_equal. simpl. lia. }
    rewrite (Hc 0%nat b eq_refl), Nat2Z.id. mstep (delete_pairs_spec (pairs b) s). 
    change (buckets_blocks (b :: bs)) with (bucket_blocks b + buckets_blocks bs). unfold bucket_blocks.
    assert (Hc' : ∀ i b, bs !! i = Some b → count b = Z.of_nat (length (pairs b))) by (intros i; apply (Hc (S i))).
    destruct (pairs b) as [|p ps].
    - rewrite bind_ret, IH by done. cbn [answers live length]. do 2 f_equal. lia.
    - unfold free. rewrite bind_modify, IH by done. cbn [answers live]. do 2 f_equal. lia. }
  rewrite (bind_done _ _ _ _ _ (E (buckets m) s ltac:(intros i b Hi; apply (Hok i b Hi)))).
  unfold free. rewrite bind_modify. unfold modify. simpl. do 2 f_equal. lia.
Qed.

Definition empty_map (n : Z) : StrMap := MkStrMap n (replicate (Z.to_nat n) (MkBucket 0 [])).

Lemma empty_map_wf n : 0 < n → wf (empty_map n).
Proof.
  intros Hn. split; [done|]. split; [apply length_replicate|]. intros i b Hi.
  apply lookup_replicate in Hi as [-> _]. split; [done|]. split; [apply NoDup_nil_2|done].
Qed.

Lemma empty_map_contents n : contents (empty_map n) = ∅.
Proof.
  unfold contents, entries, empty_map. simpl. replace (_ ≫= _) with (@nil (cstr * cstr)); [done|].
  induction (Z.to_nat n); simpl; auto.
Qed.

Lemma sm_new_spec n s : 0 < n → ∃ r s', sm_new n s = Done r s' ∧ answers s' `suffix_of` answers s ∧
  match r with
  | Some m => m = empty_map n ∧ live s' = live s + blocks m
  | None => live s' = live s ∧ false ∈ answers s
  end.
Proof.
  intros Hn. unfold sm_new. destruct (malloc_cases s) as (b1 & s1 & E1 & L1 & A1 & F1). mstep E1.
  destruct b1; cbn [negb]; [|exists None, s1; split_and!; auto; lia].
  destruct (malloc_cases s1) as (b2 & s2 & E2 & L2 & A2 & F2). mstep E2.
  assert (A12 : answers s2 `suffix_of` answers s) by (by etrans).
  destruct b2; cbn [negb].
  - eexists. exists s2. split; [reflexivity|]. split; [done|]. split; [done|].
    unfold blocks, empty_map. simpl. rewrite buckets_blocks_empty. lia.
  - eexists None, _. split; [reflexivity|]. simpl. split; [done|]. split; [lia|].
    eapply suffix_elem_of; [apply A1|auto].
Qed.
End theory.

(** ** Sequences of calls *)
Inductive sm_op := OPut (k v : cstr) | OGet (k : cstr) (n : Z) | OExists (k : cstr) | OCount | OEnum.
Inductive sm_answer := AInt (r : Z) | AGet (r : Z) (v : option cstr) | AList (l : list (cstr * cstr)).

(** A callback that writes down what it is called with. *)
Definition collect (k v : cstr) : M (list (cstr * cstr)) unit := modify (λ l, l ++ [(k, v)]).

Section calls.
Variable char_val : ascii → Z.
Variable long_bits : Z.

Definition call (op : sm_op) (m : StrMap) : M mem (sm_answer * StrMap) :=
  match op with
  | OPut k v =>
      '(r, m') ← sm_put char_val long_bits (Some m) (Some k) (Some v);
      m' ← of_opt m'; mret (AInt r, m')
  | OGet k n => '(r, v) ← sm_get char_val long_bits (Some m) (Some k) true n; mret (AGet r v, m)
  | OExists k => r ← sm_exists char_val long_bits (Some m) (Some k); mret (AInt r, m)
  | OCount => r ← sm_get_count (Some m); mret (AInt r, m)
  | OEnum => λ s, match sm_enum (Some m) (Some collect) [] with
                  | Done _ l => Done (AList l, m) s
                  | _ => Oops
                  end
  end.
Fixpoint calls (ops : list sm_op) (m : StrMap) : M mem (list sm_answer * StrMap) :=
  match ops with
  | [] => mret ([], m)
  | op :: ops => '(a, m) ← call op m; '(rest, m) ← calls ops m; mret (a :: rest, m)
  end.
End calls.

(** The same calls on a finite map; [fails] says whether memory may run out. *)
Inductive map_call (fails : Prop) : sm_op → gmap cstr cstr → sm_answer → gmap cstr cstr → Prop :=
| map_put g k v : map_call fails (OPut k v) g (AInt 1) (<[k := v]> g)
| map_put_fails g k v : fails → map_call fails (OPut k v) g (AInt 0) g
| map_get g k n v : g !! k = Some v → strlen v < n → map_call fails (OGet k n) g (AGet 1 (Some v)) g
| map_get_long g k n v : g !! k = Some v → n ≤ strlen v → map_call fails (OGet k n) g (AGet 0 None) g
| map_get_none g k n : g !! k = None → map_call fails (OGet k n) g (AGet 0 None) g
| map_exists g k : map_call fails (OExists k) g (AInt (if g !! k then 1 else 0)) g
| map_count_ g : map_call fails OCount g (AInt (Z.of_nat (size g))) g
| map_enum g l : l ≡ₚ map_to_list g → map_call fails OEnum g (AList l) g.
Inductive map_calls (fails : Prop) : list sm_op → gmap cstr cstr → list sm_answer → gmap cstr cstr → Prop :=
| map_calls_nil g : map_calls fails [] g [] g
| map_calls_cons op ops a rest g g' g'' :
    map_call fails op g a g' → map_calls fails ops g' rest g'' → map_calls fails (op :: ops) g (a :: rest) g''.

Definition op_short (op : sm_op) : Prop := match op with OPut k v => short k ∧ short v | _ => True end.

Section refinement.
Variable char_val : ascii → Z.
Variable long_bits : Z.

Lemma visit_collect l acc : visit collect l acc = Done () (acc ++ l).
Proof.
  revert acc. induction l as [|[k v] l IH]; intros acc; [cbn; by rewrite app_nil_r|].
  change (visit collect ((k, v) :: l) acc) with (visit collect l (acc ++ [(k, v)])).
  rewrite IH. by rewrite <-app_assoc.
Qed.

Lemma call_spec op m s : wf char_val long_bits m → op_short op → Z.of_nat (size (contents m)) ≤ INT_MAX →
  ∃ a m' s', call char_val long_bits op m s = Done (a, m') s' ∧ wf char_val long_bits m' ∧
    live s' - blocks m' = live s - blocks m ∧ answers s' `suffix_of` answers s ∧
    map_call (false ∈ answers s) op (contents m) a (contents m').
Proof.
  intros Hm Hop Hsz. destruct op as [k v|k n|k| |]; cbn [call].
  - destruct Hop. destruct (sm_put_spec char_val long_bits m k v s) as (r & m' & s' & E & Hw & Hl & Ha & _ & Hr); [done..|].
    mstep E. exists (AInt r), m', s'. split; [done|]. split; [done|]. split; [done|]. split; [done|].
    destruct Hr as [[-> ->]|(-> & -> & Hf)]; by constructor.
  - rewrite (bind_done _ _ _ _ _ (sm_get_spec char_val long_bits m k n s Hm)).
    destruct (contents m !! k) as [v|] eqn:E; [destruct (Z.ltb_spec (strlen v) n)|];
      (eexists _, m, s; split; [reflexivity|]; split_and!; [done..|by econstructor]).
  - rewrite (bind_done _ _ _ _ _ (sm_exists_spec char_val long_bits m k s Hm)).
    eexists _, m, s. split; [reflexivity|]. split_and!; [done..|]. constructor.
  - rewrite (bind_done _ _ _ _ _ (sm_get_count_spec char_val long_bits m s Hm Hsz)).
    eexists _, m, s. split; [reflexivity|]. split_and!; [done..|]. constructor.
  - rewrite (sm_enum_spec char_val long_bits) by done. mstep (visit_collect (entries m) []).
    eexists _, m, s. split; [reflexivity|]. split_and!; [done..|]. constructor.
    by apply (entries_contents char_val long_bits).
Qed.

Lemma map_call_size fails op g a g' : map_call fails op g a g' → (size g' ≤ S (size g))%nat.
Proof.
  destruct 1; try lia. rewrite map_size_insert. destruct (_ !! k); simpl; lia.
Qed.

Lemma map_call_weaken (P Q : Prop) op g a g' : (P → Q) → map_call P op g a g' → map_call Q op g a g'.
Proof.
  intros HPQ. destruct 1;
    eauto using map_put, map_put_fails, map_get, map_get_long, map_get_none, map_exists, map_count_, map_enum.
Qed.
Lemma map_calls_weaken (P Q : Prop) ops g l g' : (P → Q) → map_calls P ops g l g' → map_calls Q ops g l g'.
Proof. intros HPQ. induction 1; econstructor; eauto using map_call_weaken. Qed.

Lemma calls_spec ops m s : wf char_val long_bits m → Forall op_short ops →
  Z.of_nat (size (contents m)) + Z.of_nat (length ops) ≤ INT_MAX →
  ∃ l m' s', calls char_val long_bits ops m s = Done (l, m') s' ∧ wf char_val long_bits m' ∧
    live s' - blocks m' = live s - blocks m ∧ map_calls (false ∈ answers s) ops (contents m) l (contents m').
Proof.
  revert m s. induction ops as [|op ops IH]; intros m s Hm Hops Hsz.
  { exists [], m, s. split_and!; [done..|constructor]. }
  inversion Hops; subst. cbn [length calls] in *.
  destruct (call_spec op m s) as (a & m1 & s1 & E & Hw & Hl & Ha & Hc); [done|done|lia|].
  mstep E. pose proof (map_call_size _ _ _ _ _ Hc).
  destruct (IH m1 s1) as (l & m2 & s2 & E2 & Hw2 & Hl2 & Hc2); [done|done|lia|].
  mstep E2. eexists _, m2, s2. split; [reflexivity|]. split; [done|]. split; [lia|].
  econstructor; [done|]. eapply map_calls_weaken; [|done]. by apply suffix_elem_of.
Qed.
End refinement.

(** C15: a table is a finite map: any sequence of calls on a new table, with
    memory running out at any of them, gives the answers of the same calls on
    a finite map (where [put] may only fail, and then changes nothing, when an
    allocation fails), keeps the type invariant, uses exactly the memory of
    its entries, and deleting the table gives all of it back. *)
Theorem strmap_is_finite_map char_val long_bits capacity ops s m s1 :
  0 < capacity → Forall op_short ops → Z.of_nat (length ops) ≤ INT_MAX →
  sm_new capacity s = Done (Some m) s1 →
  ∃ l m' s', calls char_val long_bits ops m s1 = Done (l, m') s' ∧ wf char_val long_bits m' ∧
    map_calls (false ∈ answers s1) ops ∅ l (contents m') ∧ live s' = live s + blocks m' ∧
    ∃ s'', sm_delete (Some m') s' = Done () s'' ∧ live s'' = live s.
Proof.
  intros Hc Hops Hlen Hnew. destruct (sm_new_spec capacity s Hc) as (r & s1' & E & Ha & Hr).
  rewrite E in Hnew. simplify_eq. destruct Hr as [-> Hl].
  pose proof (empty_map_contents capacity) as He.
  destruct (calls_spec char_val long_bits ops (empty_map capacity) s1) as (l & m' & s' & Er & Hw & Hl' & Hm);
    [by apply empty_map_wf|done|rewrite He, map_size_empty; lia|].
  exists l, m', s'. rewrite He in Hm. split_and!; [done..|lia|].
  eexists. split; [by apply (sm_delete_spec char_val long_bits)|]. simpl. lia.
Qed.

Lemma strmap_is_finite_map_witness :
  ∃ l m' s', calls (λ c, Z.of_N (N_of_ascii c)) 32
      [OPut (str "speed") (str "100"); OPut (str "speed") (str "10"); OGet (str "speed") 3; OCount]
      (empty_map 2) (Mem [true; true; true; false] 2) = Done (l, m') s' ∧
    wf (λ c, Z.of_N (N_of_ascii c)) 32 m' ∧
    map_calls (false ∈ [true; true; true; false])
      [OPut (str "speed") (str "100"); OPut (str "speed") (str "10"); OGet (str "speed") 3; OCount] ∅ l (contents m') ∧
    live s' = 0 + blocks m' ∧ ∃ s'', sm_delete (Some m') s' = Done () s'' ∧ live s'' = 0.
Proof.
  apply (strmap_is_finite_map (λ c, Z.of_N (N_of_ascii c)) 32 2
    [OPut (str "speed") (str "100"); OPut (str "speed") (str "10"); OGet (str "speed") 3; OCount]
    (Mem [true; true; true; true; true; false] 0) (empty_map 2) (Mem [true; true; true; false] 2)).
  - lia.
  - repeat constructor; unfold short, strlen, str; simpl; lia.
  - unfold INT_MAX. simpl. lia.
  - reflexivity.
Defined.
