(* ===== verification/Settings.v ===== *)
(** * settings.cpp: sections of keys and values, and their text file

    [src/sources/lib/lib-settings/src/settings.cpp], the store in which the
    services of the box keep their settings: named sections, each a string
    table of [StrMap], with setting, getting, conversion to numbers, and saving
    to and loading from a text file.  The theorems: saving and loading gives
    the same settings back; setting and getting; what loading accepts; and what
    the code gets wrong when memory runs out. *)

From Stdlib Require Import ZArith Lia Ascii String.
From stdpp Require Import base list gmap strings.
From S2P Require Import Prelude CString StrMap.

Definition MAX_KEYCHARS : Z := 256.
Definition MAX_VALUECHARS : Z := 256.
Definition MAX_LINECHARS : Z := MAX_KEYCHARS + MAX_VALUECHARS + 10.
Definition COMMENT_CHAR : ascii := "#".
Definition SECTION_START_CHAR : ascii := "[".
Definition SECTION_END_CHAR : ascii := "]".
Definition KEY_VALUE_SEPARATOR_CHAR : ascii := "=".
Definition DEFAULT_STRMAP_CAPACITY : Z := 256.
Definition NL : ascii := "010".
Definition NUL : ascii := "000".

Record Section_ := MkSection { name : cstr; map : StrMap }.
(** The array of sections, and whether its memory has been freed while the
    object still points to it. *)
Record Settings := MkSettings { sections : list Section_; sections_freed : bool }.
Record ParseState := MkParseState { current_section : cstr; has_section : bool }.
Inductive ConvertMode := CONVERT_MODE_INT | CONVERT_MODE_LONG | CONVERT_MODE_DOUBLE.

(** ** Lines *)
Definition is_blank_char (c : ascii) : bool :=
  bool_decide (c = " "%char) || bool_decide (c = "009"%char) ||
  bool_decide (c = "013"%char) || bool_decide (c = NL).

Fixpoint skip_blanks (s : cstr) : cstr :=
  match s with c :: s' => if is_blank_char c then skip_blanks s' else s | [] => [] end.
(** Going back from the last character, the string reversed; before the first
    character is not the string's memory. *)
Fixpoint back_over_blanks {T} (r : cstr) : M T cstr :=
  match r with
  | c :: r' => if is_blank_char c then back_over_blanks r' else mret r
  | [] => oops
  end.
Definition trim_str {T} (s : cstr) : M T cstr :=
  let s0 := skip_blanks s in
  match s0 with
  | [] => mret []
  | _ => r ← back_over_blanks (rev s0); mret (rev r)
  end.

Definition is_blank_str (s : cstr) : bool := forallb is_blank_char s.
Definition is_comment_str (s : cstr) : bool :=
  match s with c :: _ => bool_decide (c = COMMENT_CHAR) | [] => false end.
(** Walking to the first character [d]: is there one? *)
Definition has_char (d : ascii) (s : cstr) : bool := existsb (λ c, bool_decide (c = d)) s.
Definition starts_with (d : ascii) (s : cstr) : bool :=
  match s with c :: _ => bool_decide (c = d) | [] => false end.
Definition is_section_str (s : cstr) : bool :=
  if negb (starts_with SECTION_START_CHAR s) then false else has_char SECTION_END_CHAR s.
Definition is_key_value_str (s : cstr) : bool :=
  if starts_with KEY_VALUE_SEPARATOR_CHAR s then false else has_char KEY_VALUE_SEPARATOR_CHAR s.
Definition is_key_without_value_str (s : cstr) : bool :=
  if starts_with KEY_VALUE_SEPARATOR_CHAR s then false else negb (has_char KEY_VALUE_SEPARATOR_CHAR s).

(** Copying characters to a buffer of [n] bytes up to one where [stop] holds:
    what is copied and what is left, or [None] when the buffer is too small. *)
Fixpoint copy_until (stop : ascii → bool) (s : cstr) (count n : Z) : option (cstr * cstr) :=
  match s with
  | [] => if count =? n then None else Some ([], [])
  | c :: s' =>
      if stop c then (if count =? n then None else Some ([], s))
      else if count =? n then None
      else '(w, r) ← copy_until stop s' (count + 1) n; Some (c :: w, r)
  end.

Definition get_section_from_str (s : cstr) (n : Z) : option cstr :=
  '(w, _) ← copy_until (λ c, bool_decide (c = SECTION_END_CHAR)) (drop 1 s) 0 n; Some w.

(** Zero, or the key and the value. *)
Definition get_key_value_from_str {T} (s : cstr) (n1 n2 : Z) : M T (option (cstr * cstr)) :=
  match copy_until (λ c, bool_decide (c = KEY_VALUE_SEPARATOR_CHAR)) s 0 n1 with
  | None => mret None
  | Some (k, rest) =>
      r ← back_over_blanks (rev k);
      match copy_until (λ _, false) (skip_blanks (drop 1 rest)) 0 n2 with
      | None => mret None
      | Some (v, _) => mret (Some (rev r, v))
      end
  end.

Definition get_key_without_value_from_str (s : cstr) (n : Z) : option cstr :=
  '(w, _) ← copy_until (λ _, false) s 0 n; Some w.

(** The next token and what is left. *)
Definition get_token (s : cstr) (delim : ascii) : option (cstr * cstr) :=
  match s with
  | [] => None
  | _ => '(w, r) ← copy_until (λ c, bool_decide (c = delim)) s 0 (-1); Some (w, drop 1 r)
  end.

(** ** The standard library: [atoi] and [atol] through [strtol] in base 10, and
    [fgets]. *)
Definition atol (long_bits : Z) (s : cstr) : Z := (strtol long_bits 10 s).1.

(** At most [n] characters, up to a newline: what is read and what is left. *)
Fixpoint read_line (n : nat) (f : cstr) : cstr * cstr :=
  match n, f with
  | S n, c :: f => if bool_decide (c = NL) then ([c], f) else let '(l, r) := read_line n f in (c :: l, r)
  | _, _ => ([], f)
  end.
Definition fgets (n : Z) (f : cstr) : option (cstr * cstr) :=
  match f with [] => None | _ => Some (read_line (Z.to_nat (n - 1)) f) end.
(** The C string in a buffer ends at the first NUL. *)
Fixpoint c_str (l : cstr) : cstr :=
  match l with c :: l => if bool_decide (c = NUL) then [] else c :: c_str l | [] => [] end.

Section settings.
Variable char_val : ascii → Z.
Variable long_bits : Z.
(** Floating-point numbers and their reading. *)
Variable double : Type.
Variable atof : cstr → double.

(** [get_section]: the index of the section with the name; [NULL] has none. *)
Fixpoint section_loop (l : list Section_) (i : nat) (n : cstr) : option nat :=
  match l with
  | [] => None
  | s :: l => if decide (name s = n) then Some i else section_loop l (S i) n
  end.
Definition get_section {T} (st : Settings) (n : option cstr) : M T (option nat) :=
  match n with
  | None => mret None
  | Some n => if sections_freed st then oops else mret (section_loop (sections st) 0 n)
  end.

Definition settings_new : M mem (option Settings) :=
  ok ← malloc; mret (if ok : bool then Some (MkSettings [] false) else None).

(** The array is NULL as long as there is no section. *)
Fixpoint delete_loop (l : list Section_) : M mem unit :=
  match l with
  | [] => mret ()
  | s :: l => sm_delete (Some (map s));; free;; delete_loop l
  end.
Definition settings_delete (st : option Settings) : M mem unit :=
  match st with
  | None => mret ()
  | Some st =>
      if sections_freed st then oops
      else
        delete_loop (sections st);;
        (match sections st with [] => mret () | _ => free end);;
        free
  end.

Definition settings_get {T} (st : option Settings) (section k : option cstr) (out_buf : bool) (n_out_buf : Z) :
    M T (Z * option cstr) :=
  match st with
  | None => mret (0, None)
  | Some st =>
      s ← get_section st section;
      match s with
      | None => mret (0, None)
      | Some i => s ← of_opt (sections st !! i); sm_get char_val long_bits (Some (map s)) k out_buf n_out_buf
      end
  end.

(** [free(s)] of the new last section after a failure: the block itself when it
    is the only one, else a pointer into the block. *)
Definition free_last (st : Settings) : M mem Settings :=
  match sections st with
  | [] => free;; mret (MkSettings [] true)
  | _ => oops
  end.

(** A new section at the end: the array grows, then the table, then the name. *)
Definition add_section (st : Settings) (section : cstr) : M mem (option nat * Settings) :=
  ok ← (match sections st with [] => malloc | _ => realloc end);
  if negb ok then mret (None, st)
  else
    m ← sm_new DEFAULT_STRMAP_CAPACITY;
    match m with
    | None => st ← free_last st; mret (None, st)
    | Some m =>
        ok ← malloc;
        if negb ok then sm_delete (Some m);; st ← free_last st; mret (None, st)
        else mret (Some (length (sections st)), MkSettings (sections st ++ [MkSection section m]) false)
    end.

Definition put_in (st : Settings) (i : nat) (k v : cstr) : M mem (Z * Settings) :=
  s ← of_opt (sections st !! i);
  '(r, m) ← sm_put char_val long_bits (Some (map s)) (Some k) (Some v);
  m ← of_opt m;
  mret (r, MkSettings (<[i := MkSection (name s) m]> (sections st)) (sections_freed st)).

Definition settings_set (st : Settings) (section k v : option cstr) : M mem (Z * Settings) :=
  match section, k, v with
  | Some section, Some k, Some v =>
      if strlen section =? 0 then mret (0, st)
      else
        s ← get_section st (Some section);
        match s with
        | Some i => put_in st i k v
        | None =>
            '(s, st) ← add_section st section;
            match s with
            | None => mret (0, st)
            | Some i => put_in st i k v
            end
        end
  | _, _, _ => mret (0, st)
  end.

Definition settings_section_get_count {T} (st : option Settings) (section : option cstr) : M T Z :=
  match st with
  | None => mret 0
  | Some st =>
      s ← get_section st section;
      match s with
      | None => mret 0
      | Some i => s ← of_opt (sections st !! i); sm_get_count (Some (map s))
      end
  end.
Definition settings_section_enum {T} (st : option Settings) (section : option cstr)
    (enum_func : option (cstr → cstr → M T unit)) : M T Z :=
  match st with
  | None => oops
  | Some st =>
      s ← get_section st section;
      match s with
      | None => mret 0
      | Some i => s ← of_opt (sections st !! i); sm_enum (Some (map s)) enum_func
      end
  end.

(** ** Conversions: the result and what is stored through the pointer. *)
Inductive converted := VInt (z : Z) | VLong (z : Z) | VDouble (d : double).
Definition convert (mode : ConvertMode) (v : cstr) : converted :=
  match mode with
  | CONVERT_MODE_INT => VInt (int32 (atol long_bits v))
  | CONVERT_MODE_LONG => VLong (atol long_bits v)
  | CONVERT_MODE_DOUBLE => VDouble (atof v)
  end.
Definition get_converted_value {T} (st : option Settings) (section k : option cstr) (mode : ConvertMode) :
    M T (Z * option converted) :=
  '(r, v) ← settings_get st section k true MAX_VALUECHARS;
  if r =? 0 then mret (0, None)
  else v ← of_opt v; mret (1, Some (convert mode v)).
Definition settings_get_int {T} st section k : M T (Z * option converted) :=
  get_converted_value st section k CONVERT_MODE_INT.
Definition settings_get_long {T} st section k : M T (Z * option converted) :=
  get_converted_value st section k CONVERT_MODE_LONG.
Definition settings_get_double {T} st section k : M T (Z * option converted) :=
  get_converted_value st section k CONVERT_MODE_DOUBLE.

(** The first [n_out] tokens; a token is cut off before the count is checked. *)
Fixpoint tuple_loop (fuel : nat) (v : cstr) (delim : ascii) (mode : ConvertMode) (count n_out : Z) : list converted :=
  match fuel with
  | O => []
  | S fuel =>
      match get_token v delim with
      | None => []
      | Some (token, v) =>
          if count <? n_out then convert mode token :: tuple_loop fuel v delim mode (count + 1) n_out else []
      end
  end.
Definition get_converted_tuple {T} (st : option Settings) (section k : option cstr) (delim : ascii)
    (mode : ConvertMode) (out : bool) (n_out : Z) : M T (Z * list converted) :=
  if negb out then mret (0, [])
  else if n_out =? 0 then mret (0, [])
  else
    '(r, v) ← settings_get st section k true MAX_VALUECHARS;
    if r =? 0 then mret (0, [])
    else v ← of_opt v; mret (1, tuple_loop (S (length v)) v delim mode 0 n_out).
Definition settings_get_int_tuple {T} st section k out n_out : M T (Z * list converted) :=
  get_converted_tuple st section k "," CONVERT_MODE_INT out n_out.
Definition settings_get_long_tuple {T} st section k out n_out : M T (Z * list converted) :=
  get_converted_tuple st section k "," CONVERT_MODE_LONG out n_out.
Definition settings_get_double_tuple {T} st section k out n_out : M T (Z * list converted) :=
  get_converted_tuple st section k "," CONVERT_MODE_DOUBLE out n_out.

(** ** The file *)
Definition parse_str (st : Settings) (s : cstr) (ps : ParseState) : M mem (Z * Settings * ParseState) :=
  match s with
  | [] => mret (1, st, ps)
  | _ =>
    if is_blank_str s then mret (1, st, ps)
    else if is_comment_str s then mret (1, st, ps)
    else if is_section_str s then
      match get_section_from_str s MAX_LINECHARS with
      | None => mret (0, st, ps)
      | Some b =>
          if MAX_LINECHARS <? strlen b + 1 then mret (0, st, ps)
          else mret (1, st, MkParseState b true)
      end
    else if is_key_value_str s then
      kv ← get_key_value_from_str s MAX_LINECHARS MAX_LINECHARS;
      match kv with
      | None => mret (0, st, ps)
      | Some (k, v) =>
          if negb (has_section ps) then mret (0, st, ps)
          else
            '(r, st) ← settings_set st (Some (current_section ps)) (Some k) (Some v);
            mret (r, st, ps)
      end
    else if is_key_without_value_str s then
      match get_key_without_value_from_str s MAX_LINECHARS with
      | None => mret (0, st, ps)
      | Some k =>
          if negb (has_section ps) then mret (0, st, ps)
          else
            '(r, st) ← settings_set st (Some (current_section ps)) (Some k) (Some []);
            mret (r, st, ps)
      end
    else mret (0, st, ps)
  end.

(** Every round takes at least one character from the file. *)
Fixpoint open_loop (fuel : nat) (f : cstr) (st : Settings) (ps : ParseState) : M mem (option Settings) :=
  match fuel with
  | O => out_of_fuel
  | S fuel =>
      match fgets MAX_LINECHARS f with
      | None => mret (Some st)
      | Some (buf, f) =>
          trimmed ← trim_str (c_str buf);
          '(r, st, ps) ← parse_str st trimmed ps;
          if r =? 0 then mret None else open_loop fuel f st ps
      end
  end.
(** [f] is what is in the stream; [None] is a NULL stream. *)
Definition settings_open (f : option cstr) : M mem (option Settings) :=
  match f with
  | None => mret None
  | Some f =>
      st ← settings_new;
      match st with
      | None => mret None
      | Some st => open_loop (S (length f)) f st (MkParseState [] false)
      end
  end.

(** Writing to a stream; [sprintf] into a buffer of 522 bytes. *)
Definition fputs (s : cstr) : M cstr unit := modify (λ f, f ++ s).
Definition sprintf (s : cstr) : M cstr cstr := if strlen s <? MAX_LINECHARS then mret s else oops.
Definition enum_map (k v : cstr) : M cstr unit :=
  if (strlen k <? MAX_KEYCHARS) && (strlen v <? MAX_VALUECHARS) then
    buf ← sprintf (k ++ [" "%char; KEY_VALUE_SEPARATOR_CHAR; " "%char] ++ v ++ [NL]); fputs buf
  else mret ().
Fixpoint save_loop (l : list Section_) : M cstr unit :=
  match l with
  | [] => mret ()
  | s :: l =>
      buf ← sprintf ([SECTION_START_CHAR] ++ name s ++ [SECTION_END_CHAR; NL]);
      fputs buf;;
      sm_enum (Some (map s)) (Some enum_map);;
      fputs [NL];;
      save_loop l
  end.
Definition settings_save (st : option Settings) (stream : bool) : M cstr Z :=
  match st with
  | None => mret 0
  | Some st =>
      if negb stream then mret 0
      else if sections_freed st then oops
      else save_loop (sections st);; mret 1
  end.
End settings.

(** ** What the settings hold *)
Definition section_entry (s : Section_) : cstr * gmap cstr cstr := (name s, contents (map s)).
(** The settings as a finite map of sections. *)
Definition view (st : Settings) : gmap cstr (gmap cstr cstr) := list_to_map (section_entry <$> sections st).
Definition value_of (st : Settings) (section k : cstr) : option cstr := view st !! section ≫= (!!) k.
Definition sections_blocks (l : list Section_) : Z := foldr (λ s n, blocks (map s) + 1 + n) 0 l.
Definition settings_blocks (st : Settings) : Z :=
  1 + match sections st with [] => 0 | _ => 1 end + sections_blocks (sections st).

Lemma sections_blocks_insert l i s m : l !! i = Some s →
  sections_blocks (<[i := MkSection (name s) m]> l) = sections_blocks l - blocks (map s) + blocks m.
Proof.
  revert i. induction l as [|x l IH]; intros [|i] H; simplify_eq/=; [lia|]. rewrite IH by done. lia.
Qed.
Lemma sections_blocks_app l s : sections_blocks (l ++ [s]) = sections_blocks l + blocks (map s) + 1.
Proof. induction l as [|x l IH]; simpl; lia. Qed.

Section theory.
Variable char_val : ascii → Z.
Variable long_bits : Z.
Abbreviation swf_map := (wf char_val long_bits).

(** The invariant: the array is there, no two sections have the same name, no
    name is empty, and every table is well-formed. *)
Definition swf (st : Settings) : Prop :=
  sections_freed st = false ∧ NoDup (name <$> sections st) ∧
  Forall (λ s, name s ≠ [] ∧ swf_map (map s)) (sections st).

Lemma section_loop_spec l i n :
  match section_loop l i n with
  | Some j => ∃ s j', j = (i + j')%nat ∧ l !! j' = Some s ∧ name s = n
  | None => n ∉ name <$> l
  end.
Proof.
  revert i. induction l as [|s l IH]; intros i; cbn [section_loop]; [set_solver|].
  destruct (decide (name s = n)) as [E|E]; [exists s, 0%nat; split; [lia|done]|].
  specialize (IH (S i)). destruct (section_loop l (S i) n) as [j|].
  - destruct IH as (s' & j' & -> & Hj & Hn). exists s', (S j'). split; [lia|done].
  - rewrite fmap_cons. set_solver.
Qed.

Lemma get_section_spec {T} st n (s : T) : swf st → ∃ r, get_section st (Some n) s = Done r s ∧
  match r with
  | Some j => ∃ x, sections st !! j = Some x ∧ name x = n ∧ swf_map (map x) ∧ view st !! n = Some (contents (map x))
  | None => n ∉ name <$> sections st ∧ view st !! n = None
  end.
Proof.
  intros (Hf & Hn & Hw). unfold get_section. rewrite Hf. eexists. split; [reflexivity|].
  pose proof (section_loop_spec (sections st) 0 n) as H. destruct (section_loop (sections st) 0 n) as [j|].
  - destruct H as (x & j' & -> & Hj & Hx). exists x. split; [done|]. split; [done|].
    split; [apply (Forall_lookup_1 _ _ _ _ Hw Hj)|]. subst n. by apply (keyed_lookup section_entry _ j').
  - split; [done|]. by apply (keyed_absent section_entry).
Qed.

Lemma put_in_spec st i x k v s : swf st → sections st !! i = Some x → short k → short v → ∃ r st' s',
  put_in char_val long_bits st i k v s = Done (r, st') s' ∧ swf st' ∧
  name <$> sections st' = name <$> sections st ∧
  live s' - settings_blocks st' = live s - settings_blocks st ∧ answers s' `suffix_of` answers s ∧
  (r = 1 ∧ view st' = <[name x := <[k := v]> (contents (map x))]> (view st) ∨
   r = 0 ∧ st' = st ∧ false ∈ answers s).
Proof.
  intros (Hf & Hn & Hw) Hi Hk Hv. unfold put_in. rewrite Hi, bind_of_opt.
  pose proof (Forall_lookup_1 _ _ _ _ Hw Hi) as [Hne Hm].
  destruct (sm_put_spec char_val long_bits (map x) k v s Hm Hk Hv) as (r & m' & s' & E & Hm' & Hl & Ha & _ & Hr).
  mstep E. rewrite bind_of_opt. set (x' := MkSection (name x) m').
  assert (Hnames : name <$> <[i := x']> (sections st) = name <$> sections st).
  { rewrite list_fmap_insert. apply list_insert_id. by rewrite list_lookup_fmap, Hi. }
  eexists r, _, s'. split; [reflexivity|]. split; [split; [done|split]|split; [done|split; [|split; [done|]]]].
  - cbn [sections]. by rewrite Hnames.
  - cbn [sections]. by apply Forall_insert.
  - unfold settings_blocks. cbn [sections]. unfold x'. rewrite (sections_blocks_insert _ _ _ _ Hi).
    destruct (sections st) as [|y l] eqn:El; [done|]. destruct i; cbn; lia.
  - destruct Hr as [[-> Hc]|(-> & -> & Hfa)].
    + left. split; [done|]. unfold view. cbn [sections].
      rewrite (keyed_update section_entry _ _ x) by done. cbn. by rewrite Hc.
    + right. split; [done|]. split; [|done]. destruct st as [l fr]. cbn in *. f_equal.
      rewrite list_insert_id; [done|]. unfold x'. by destruct x.
Qed.

(** With memory, a new section is added at the end, empty. *)
Lemma add_section_spec st n s : swf st → n ≠ [] → n ∉ name <$> sections st → answers s = [] →
  let st' := MkSettings (sections st ++ [MkSection n (empty_map DEFAULT_STRMAP_CAPACITY)]) false in
  ∃ s', add_section st n s = Done (Some (length (sections st)), st') s' ∧ answers s' = [] ∧ swf st' ∧
    live s' - settings_blocks st' = live s - settings_blocks st.
Proof.
  intros (Hf & Hn & Hw) Hne Hnew Ha st'. destruct s as [a l]. cbn in Ha. subst a. unfold add_section.
  assert (E : (match sections st with [] => malloc | _ => realloc end) (Mem [] l) =
    Done true (Mem [] (l + match sections st with [] => 1 | _ => 0 end))).
  { destruct (sections st); cbn; [done|]. by rewrite Z.add_0_r. }
  mstep E. cbn [negb].
  assert (E2 : sm_new DEFAULT_STRMAP_CAPACITY (Mem [] (l + match sections st with [] => 1 | _ => 0 end)) =
    Done (Some (empty_map DEFAULT_STRMAP_CAPACITY)) (Mem [] (l + match sections st with [] => 1 | _ => 0 end + 1 + 1))) by done.
  mstep E2. eexists. split; [reflexivity|]. split; [done|]. split; [split; [done|split]|].
  - cbn. rewrite fmap_app. apply NoDup_app. split; [done|]. split; [set_solver|apply NoDup_singleton].
  - cbn. apply Forall_app. split; [done|]. constructor; [|done]. split; [done|]. by apply empty_map_wf.
  - unfold settings_blocks. cbn [sections st' live]. rewrite sections_blocks_app. cbn [map].
    assert (blocks (empty_map DEFAULT_STRMAP_CAPACITY) = 2) as -> by done.
    destruct (sections st); cbn; lia.
Qed.

Lemma view_add_section st n : n ∉ name <$> sections st →
  view (MkSettings (sections st ++ [MkSection n (empty_map DEFAULT_STRMAP_CAPACITY)]) false) = <[n := ∅]> (view st).
Proof.
  intros Hn. unfold view. cbn [sections]. rewrite (keyed_snoc section_entry) by done. cbn [section_entry fst snd].
  unfold section_entry at 1 2. cbn [fst snd name map]. by rewrite empty_map_contents.
Qed.

(** Setting a value, with memory. *)
Lemma settings_set_spec st n k v s : swf st → n ≠ [] → short k → short v → answers s = [] → ∃ st' s',
  settings_set char_val long_bits st (Some n) (Some k) (Some v) s = Done (1, st') s' ∧ swf st' ∧ answers s' = [] ∧
  view st' = <[n := <[k := v]> (default ∅ (view st !! n))]> (view st) ∧
  name <$> sections st' = (if decide (n ∈ name <$> sections st) then name <$> sections st else (name <$> sections st) ++ [n]) ∧
  live s' - settings_blocks st' = live s - settings_blocks st.
Proof.
  intros Hst Hn Hk Hv Ha. unfold settings_set.
  destruct (Z.eqb_spec (strlen n) 0) as [E|_]; [destruct n; [done|unfold strlen in E; simpl in E; lia]|].
  destruct (get_section_spec st n s Hst) as (r & E & Hr). mstep E. destruct r as [j|].
  - destruct Hr as (x & Hj & Hx & _ & Hview). destruct (put_in_spec st j x k v s Hst Hj Hk Hv)
      as (r & st' & s' & Ep & Hst' & Hnames & Hl & Has & Hr).
    exists st', s'. rewrite Ep. rewrite Ha in *. apply suffix_nil_inv in Has.
    destruct Hr as [[-> Hv']|(_ & _ & Hfa)]; [|set_solver]. split_and!; try done.
    + rewrite Hview. cbn. by rewrite <-Hx.
    + destruct (decide _) as [|Hno]; [done|]. destruct Hno. subst n. apply list_elem_of_fmap_2. by eapply list_elem_of_lookup_2.
  - destruct Hr as [Hno Hview]. destruct (add_section_spec st n s Hst Hn Hno Ha) as (s1 & E1 & Ha1 & Hst1 & Hl1).
    mstep E1. set (st1 := MkSettings _ _) in *. set (x := MkSection n (empty_map DEFAULT_STRMAP_CAPACITY)).
    assert (Hj : sections st1 !! length (sections st) = Some x) by (apply list_lookup_middle; done).
    destruct (put_in_spec st1 _ x k v s1 Hst1 Hj Hk Hv) as (r & st' & s' & Ep & Hst' & Hnames & Hl & Has & Hr).
    exists st', s'. rewrite Ep. rewrite Ha1 in *. apply suffix_nil_inv in Has.
    destruct Hr as [[-> Hv']|(_ & _ & Hfa)]; [|set_solver]. split_and!; try done.
    + rewrite Hv', Hview. unfold st1, x. rewrite view_add_section by done.
      rewrite insert_insert_eq. cbn [name map]. by rewrite empty_map_contents.
    + destruct (decide _); [done|]. rewrite Hnames. unfold st1. cbn. by rewrite fmap_app.
    + lia.
Qed.
End theory.

(** ** Text: trimming, copying, reading lines *)

(** Text with a first and a last character that are not blank. *)
Definition ends_ok (a : cstr) : Prop :=
  ∃ c d, head a = Some c ∧ last a = Some d ∧ is_blank_char c = false ∧ is_blank_char d = false.

Definition ends_okb (a : cstr) : bool :=
  match head a, last a with
  | Some c, Some d => negb (is_blank_char c) && negb (is_blank_char d)
  | _, _ => false
  end.
Lemma ends_okb_spec a : ends_okb a = true ↔ ends_ok a.
Proof.
  unfold ends_okb. split.
  - destruct (head a) as [c|] eqn:Eh; [|done]. destruct (last a) as [d|] eqn:El; [|done].
    intros [H1%negb_true_iff H2%negb_true_iff]%andb_true_iff. by exists c, d.
  - intros (c & d & -> & -> & -> & ->). done.
Qed.
#[global] Instance ends_ok_dec a : Decision (ends_ok a).
Proof. refine (cast_if (decide (ends_okb a = true))); by rewrite <-ends_okb_spec. Defined.

Section text.
Context {T : Type}.
Implicit Types s : T.

Lemma back_over_blanks_app r1 c r2 s : Forall (λ c, is_blank_char c = true) r1 → is_blank_char c = false →
  back_over_blanks (r1 ++ c :: r2) s = Done (c :: r2) s.
Proof.
  intros H Hc. induction H as [|x r1 Hx H IH]; cbn [app back_over_blanks]; [by rewrite Hc|]. by rewrite Hx.
Qed.

(** Going back over the blanks at the end of a text that starts with something
    else. *)
Lemma back_over_blanks_total a c s : head a = Some c → is_blank_char c = false →
  ∃ t, back_over_blanks (rev a) s = Done (rev t) s ∧ ends_ok t ∧ head t = Some c ∧ (length t ≤ length a)%nat.
Proof.
  revert a. induction a as [|d a IH] using rev_ind; [done|]. intros Hh Hc.
  rewrite rev_app_distr. cbn [rev app back_over_blanks]. destruct (is_blank_char d) eqn:Ed.
  - destruct a as [|x a]; [simpl in Hh; congruence|]. destruct (IH Hh Hc) as (t & E & Ht & Hc' & Hl).
    exists t. rewrite E. split_and!; try done. rewrite length_app. lia.
  - exists (a ++ [d]). split; [by rewrite rev_app_distr|]. split; [|done]. exists c, d. split_and!; try done.
    by rewrite last_snoc.
Qed.

Lemma skip_blanks_spec l : skip_blanks l = [] ∨
  ∃ c, head (skip_blanks l) = Some c ∧ is_blank_char c = false.
Proof.
  induction l as [|c l IH]; [by left|]. cbn [skip_blanks]. destruct (is_blank_char c) eqn:E; [done|].
  right. by exists c.
Qed.
Lemma length_skip_blanks l : (length (skip_blanks l) ≤ length l)%nat.
Proof. induction l as [|c l IH]; [done|]. cbn [skip_blanks]. destruct (is_blank_char c); cbn [length]; lia. Qed.

(** Trimming never leaves the string, whatever is in it. *)
Lemma trim_str_total l s : ∃ t, trim_str l s = Done t s ∧ (t = [] ∨ ends_ok t) ∧ (length t ≤ length l)%nat.
Proof.
  unfold trim_str. pose proof (length_skip_blanks l). destruct (skip_blanks_spec l) as [->|(c & Hh & Hc)].
  { exists []. split_and!; [done|by left|simpl; lia]. }
  destruct (back_over_blanks_total _ c s Hh Hc) as (t & E & Ht & _ & Hl).
  exists t. destruct (skip_blanks l) as [|x l'] eqn:El; [done|]. rewrite (bind_done _ _ _ _ _ E), rev_involutive.
  split_and!; [done|by right|lia].
Qed.

(** A text with blanks behind it. *)
Lemma back_over_blanks_ends a b s : ends_ok a → Forall (λ c, is_blank_char c = true) b →
  back_over_blanks (rev (a ++ b)) s = Done (rev a) s.
Proof.
  intros (c & d & _ & Hl & _ & Hd) Hb. apply last_Some in Hl as [l ->].
  rewrite !rev_app_distr. apply back_over_blanks_app; [|done]. by apply Forall_rev.
Qed.

Lemma skip_blanks_ends a b : ends_ok a → skip_blanks (a ++ b) = a ++ b.
Proof. intros (c & d & Hh & _ & Hc & _). destruct a; [done|]. simpl in *. simplify_eq. by rewrite Hc. Qed.

Lemma trim_str_ends a b s : ends_ok a → Forall (λ c, is_blank_char c = true) b → trim_str (a ++ b) s = Done a s.
Proof.
  intros Ha Hb. unfold trim_str. rewrite skip_blanks_ends by done.
  destruct (a ++ b) as [|x l] eqn:E.
  - destruct Ha as (c & d & Hh & _). destruct a; [done|discriminate].
  - rewrite <-E. mstep (back_over_blanks_ends a b s Ha Hb). by rewrite rev_involutive.
Qed.
End text.

Lemma copy_until_stop stop l c r count n : Forall (λ x, stop x = false) l → stop c = true →
  0 ≤ count → count + Z.of_nat (length l) < n → copy_until stop (l ++ c :: r) count n = Some (l, c :: r).
Proof.
  intros Hl Hc. revert count. induction Hl as [|x l Hx Hl IH]; intros count H0 Hn; cbn [app copy_until length] in *.
  - rewrite Hc. destruct (Z.eqb_spec count n); [lia|done].
  - rewrite Hx. destruct (Z.eqb_spec count n); [lia|]. rewrite IH by lia. done.
Qed.

Lemma copy_until_end stop l count n : Forall (λ x, stop x = false) l →
  0 ≤ count → count + Z.of_nat (length l) < n → copy_until stop l count n = Some (l, []).
Proof.
  intros Hl. revert count. induction Hl as [|x l Hx Hl IH]; intros count H0 Hn; cbn [copy_until length] in *.
  - destruct (Z.eqb_spec count n); [lia|done].
  - rewrite Hx. destruct (Z.eqb_spec count n); [lia|]. rewrite IH by lia. done.
Qed.

(** What is copied, and what is left, are pieces of the string. *)
Lemma copy_until_split stop l count n w r : copy_until stop l count n = Some (w, r) → l = w ++ r.
Proof.
  revert count w r. induction l as [|x l IH]; intros count w r H; cbn [copy_until] in H.
  - destruct (count =? n); by simplify_eq.
  - destruct (stop x); [destruct (count =? n); by simplify_eq|]. destruct (count =? n); [done|].
    destruct (copy_until stop l (count + 1) n) as [[w' r']|] eqn:E; simplify_eq/=. f_equal. by apply (IH (count + 1)).
Qed.

Lemma not_in_stop (c : ascii) l : c ∉ l → Forall (λ x, bool_decide (x = c) = false) l.
Proof. intros H. apply Forall_forall. intros x Hx. apply bool_decide_eq_false_2. intros ->. done. Qed.

Lemma read_line_spec l rest n : NL ∉ l → (length l < n)%nat → read_line n (l ++ NL :: rest) = (l ++ [NL], rest).
Proof.
  revert n. induction l as [|c l IH]; intros [|n] Hl Hn; cbn [length app read_line] in *; try lia.
  - done.
  - apply not_elem_of_cons in Hl as [H1 H2]. rewrite bool_decide_eq_false_2 by congruence.
    by rewrite IH by (done || lia).
Qed.

Lemma c_str_id l : NUL ∉ l → c_str l = l.
Proof.
  induction l as [|c l IH]; [done|]. intros [H1 H2]%not_elem_of_cons. cbn [c_str].
  rewrite bool_decide_eq_false_2 by congruence. by rewrite IH.
Qed.
Lemma length_c_str l : (length (c_str l) ≤ length l)%nat.
Proof. induction l as [|c l IH]; [done|]. cbn [c_str]. destruct (bool_decide _); cbn [length]; lia. Qed.

Lemma read_line_length n f : (0 < n)%nat → f ≠ [] → let '(l, r) := read_line n f in
  (length l ≤ n)%nat ∧ (length r < length f)%nat.
Proof.
  revert f. induction n as [|n IH]; intros f Hn Hf; [lia|]. destruct f as [|c f]; [done|]. cbn [read_line length].
  destruct (bool_decide _); [cbn [length]; lia|]. destruct n as [|n].
  { destruct f; cbn [read_line length]; lia. }
  destruct f as [|c' f]; [cbn [read_line length]; lia|].
  specialize (IH (c' :: f) ltac:(lia) ltac:(done)). destruct (read_line (S n) (c' :: f)) as [l r]. cbn [length] in *. lia.
Qed.

(** ** What can be saved and loaded *)
Definition name_ok (n : cstr) : Prop :=
  n ≠ [] ∧ SECTION_END_CHAR ∉ n ∧ NL ∉ n ∧ NUL ∉ n ∧ strlen n ≤ 518.
Definition key_ok (k : cstr) : Prop :=
  ends_ok k ∧ head k ≠ Some COMMENT_CHAR ∧ head k ≠ Some SECTION_START_CHAR ∧
  KEY_VALUE_SEPARATOR_CHAR ∉ k ∧ NL ∉ k ∧ NUL ∉ k ∧ strlen k < MAX_KEYCHARS.
Definition value_ok (v : cstr) : Prop :=
  (v = [] ∨ ends_ok v) ∧ NL ∉ v ∧ NUL ∉ v ∧ strlen v < MAX_VALUECHARS.

#[global] Instance name_ok_dec n : Decision (name_ok n).
Proof. unfold name_ok. apply _. Defined.
#[global] Instance key_ok_dec k : Decision (key_ok k).
Proof. unfold key_ok. apply _. Defined.
#[global] Instance value_ok_dec v : Decision (value_ok v).
Proof. unfold value_ok. apply _. Defined.

Definition section_line (n : cstr) : cstr := [SECTION_START_CHAR] ++ n ++ [SECTION_END_CHAR].
Definition entry_line (e : cstr * cstr) : cstr :=
  e.1 ++ [" "%char; KEY_VALUE_SEPARATOR_CHAR; " "%char] ++ e.2.

Section lines.
Variable char_val : ascii → Z.
Variable long_bits : Z.
Abbreviation parse_str := (parse_str char_val long_bits).
Abbreviation settings_set := (settings_set char_val long_bits).

Lemma not_blank_str a : ends_ok a → is_blank_str a = false.
Proof. intros (c & d & Hh & _ & Hc & _). destruct a; [done|]. simpl in *. simplify_eq. by rewrite Hc. Qed.

Lemma starts_with_false d a : head a ≠ Some d → starts_with d a = false.
Proof. destruct a as [|c a]; [done|]. intros H. apply bool_decide_eq_false_2. intros ->. done. Qed.

Lemma has_char_true d a : d ∈ a → has_char d a = true.
Proof. intros H. apply existsb_exists. exists d. split; [by apply list_elem_of_In|]. by apply bool_decide_eq_true_2. Qed.

Lemma parse_section n st ps s : name_ok n →
  parse_str st (section_line n) ps s = Done (1, st, MkParseState n true) s.
Proof.
  intros (Hne & Hend & _ & _ & Hl). unfold Settings.parse_str, section_line. cbn [app].
  change (is_blank_str (SECTION_START_CHAR :: n ++ [SECTION_END_CHAR])) with false.
  change (is_comment_str (SECTION_START_CHAR :: n ++ [SECTION_END_CHAR])) with false.
  assert (is_section_str (SECTION_START_CHAR :: n ++ [SECTION_END_CHAR]) = true) as ->.
  { unfold is_section_str. cbn [starts_with]. rewrite bool_decide_eq_true_2 by done. cbn [negb].
    apply has_char_true. set_solver. }
  unfold get_section_from_str. cbn [skipn]. rewrite drop_0. unfold strlen in Hl.
  change MAX_LINECHARS with 522. rewrite copy_until_stop; [|by apply not_in_stop|by apply bool_decide_eq_true_2|lia|lia].
  cbn [mbind option_bind]. unfold strlen. destruct (Z.ltb_spec 522 (Z.of_nat (length n) + 1)); [lia|done].
Qed.

(** The trimmed line of an entry. *)
Definition entry_str (k v : cstr) : cstr :=
  k ++ [" "%char; KEY_VALUE_SEPARATOR_CHAR] ++ (if decide (v = []) then [] else " "%char :: v).

Lemma entry_trimmed k v {T} (s : T) : key_ok k → value_ok v → trim_str (entry_line (k, v) ++ [NL]) s = Done (entry_str k v) s.
Proof.
  intros (Hk & _) (Hv & _). unfold entry_line, entry_str. cbn [fst snd].
  assert (Hblank : ∀ b, b ⊆ [" "%char; NL] → Forall (λ c, is_blank_char c = true) b).
  { intros b Hb. apply Forall_forall. intros x Hx. specialize (Hb x Hx). set_unfold in Hb. by destruct Hb as [->|[->|[]]]. }
  destruct (decide (v = [])) as [->|Hne].
  - replace ((k ++ [" "%char; KEY_VALUE_SEPARATOR_CHAR; " "%char] ++ []) ++ [NL])
      with ((k ++ [" "%char; KEY_VALUE_SEPARATOR_CHAR] ++ []) ++ [" "%char; NL]) by (by rewrite <-!app_assoc).
    apply trim_str_ends; [|apply Hblank; done].
    destruct Hk as (c & d & Hh & Hl & Hc & Hd). destruct k as [|x k]; [done|]. simpl in Hh. simplify_eq.
    exists c, KEY_VALUE_SEPARATOR_CHAR. split_and!; try done.
    rewrite app_nil_r. change [" "%char; KEY_VALUE_SEPARATOR_CHAR] with ([" "%char] ++ [KEY_VALUE_SEPARATOR_CHAR]).
    by rewrite app_assoc, last_snoc.
  - replace ((k ++ [" "%char; KEY_VALUE_SEPARATOR_CHAR; " "%char] ++ v) ++ [NL])
      with ((k ++ [" "%char; KEY_VALUE_SEPARATOR_CHAR] ++ " "%char :: v) ++ [NL]) by (by rewrite <-!app_assoc).
    apply trim_str_ends; [|apply Hblank; set_solver].
    destruct Hv as [?|(c' & d' & _ & Hl' & _ & Hd')]; [done|].
    destruct Hk as (c & d & Hh & Hl & Hc & Hd). destruct k as [|x k]; [done|]. simpl in Hh. simplify_eq.
    exists c, d'. split_and!; try done. apply last_Some in Hl' as [l ->].
    change ([" "%char; KEY_VALUE_SEPARATOR_CHAR] ++ " "%char :: l ++ [d'])
      with ([" "%char; KEY_VALUE_SEPARATOR_CHAR; " "%char] ++ (l ++ [d'])). rewrite !app_assoc. by rewrite last_snoc.
Qed.

Lemma parse_entry k v st ps s : key_ok k → value_ok v → has_section ps = true →
  parse_str st (entry_str k v) ps s =
  ('(r, st) ← settings_set st (Some (current_section ps)) (Some k) (Some v); mret (r, st, ps)) s.
Proof.
  intros (Hk & Hcom & Hsec & Hsep & _ & _ & Hkl) (Hv & _ & _ & Hvl) Hps.
  unfold strlen, MAX_KEYCHARS, MAX_VALUECHARS in *.
  set (w := if decide (v = []) then [] else " "%char :: v).
  assert (Estr : entry_str k v = (k ++ [" "%char]) ++ KEY_VALUE_SEPARATOR_CHAR :: w) by (unfold entry_str; by rewrite <-app_assoc).
  pose proof Hk as (c & d & Hh & _ & Hc & _). destruct k as [|x k]; [done|]. simpl in Hh. simplify_eq.
  assert (Hhead : head (entry_str (c :: k) v) = Some c) by done.
  rewrite Estr in *. set (str := (_ ++ _) ++ _) in *.
  assert (Enil : ∀ A (a b : A), (match str with [] => a | _ => b end) = b) by done.
  unfold Settings.parse_str. rewrite Enil.
  assert (is_blank_str str = false) as -> by (unfold is_blank_str, str; cbn; by rewrite Hc).
  assert (is_comment_str str = false) as -> by (apply (starts_with_false COMMENT_CHAR); by rewrite Hhead).
  assert (is_section_str str = false) as ->.
  { unfold is_section_str. by rewrite starts_with_false by (by rewrite Hhead). }
  assert (is_key_value_str str = true) as ->.
  { unfold is_key_value_str. rewrite starts_with_false by (rewrite Hhead; set_solver). apply has_char_true. set_solver. }
  unfold get_key_value_from_str. unfold str. change MAX_LINECHARS with 522.
  rewrite copy_until_stop; [|apply not_in_stop; set_solver|by apply bool_decide_eq_true_2|lia|
    rewrite length_app; cbn [length] in *; lia].
  assert (Hb : Forall (λ c, is_blank_char c = true) [" "%char]) by (by constructor).
  assert (Ew : skip_blanks (drop 1 (KEY_VALUE_SEPARATOR_CHAR :: w)) = v).
  { cbn [skipn]. rewrite drop_0. unfold w. destruct (decide (v = [])) as [->|]; [done|]. cbn.
    destruct Hv as [?|Hv]; [done|]. rewrite <-(app_nil_r v). by rewrite skip_blanks_ends. }
  rewrite Ew, copy_until_end; [|by apply Forall_true|lia|lia].
  unfold mbind at 1, M_bind at 1. rewrite (bind_done _ _ _ _ _ (back_over_blanks_ends (c :: k) [" "%char] s Hk Hb)).
  cbn beta. rewrite rev_involutive, Hps. done.
Qed.

(** *** The loop over the lines *)
Abbreviation open_loop := (open_loop char_val long_bits).

Lemma open_step fuel l rest st ps s t st' ps' s' : NL ∉ l → NUL ∉ l → (length l ≤ 520)%nat →
  trim_str (l ++ [NL]) s = Done t s → parse_str st t ps s = Done (1, st', ps') s' →
  open_loop (S fuel) (l ++ NL :: rest) st ps s = open_loop fuel rest st' ps' s'.
Proof.
  intros Hnl Hnul Hlen Ht Hp. cbn [Settings.open_loop]. unfold fgets.
  destruct (l ++ NL :: rest) as [|x y] eqn:E; [by destruct l|]. rewrite <-E.
  change (Z.to_nat (MAX_LINECHARS - 1)) with 521%nat. rewrite read_line_spec by (done || lia).
  rewrite c_str_id by (set_unfold; intros [?|[?|[]]]; done).
  mstep Ht. mstep Hp. done.
Qed.

Lemma key_ok_short k : key_ok k → short k.
Proof. intros (_ & _ & _ & _ & _ & _ & H). unfold short, MAX_KEYCHARS in *. lia. Qed.
Lemma value_ok_short v : value_ok v → short v.
Proof. intros (_ & _ & _ & H). unfold short, MAX_VALUECHARS in *. lia. Qed.

Lemma entry_line_ok k v : key_ok k → value_ok v →
  NL ∉ entry_line (k, v) ∧ NUL ∉ entry_line (k, v) ∧ (length (entry_line (k, v)) ≤ 520)%nat.
Proof.
  intros (_ & _ & _ & _ & Hk1 & Hk2 & Hk3) (_ & Hv1 & Hv2 & Hv3). unfold entry_line. cbn [fst snd].
  unfold strlen, MAX_KEYCHARS, MAX_VALUECHARS in *. rewrite !length_app. cbn [length].
  split_and!; [| |lia]; set_unfold; naive_solver.
Qed.

(** Lines of entries, in a section [n]. *)
Definition entries_text (es : list (cstr * cstr)) : cstr := es ≫= λ e, entry_line e ++ [NL].
Definition put_all (es : list (cstr * cstr)) (g : gmap cstr cstr) : gmap cstr cstr :=
  foldl (λ g e, <[e.1 := e.2]> g) g es.
Definition entry_ok (e : cstr * cstr) : Prop := key_ok e.1 ∧ value_ok e.2.
#[local] Instance entry_ok_dec e : Decision (entry_ok e).
Proof. unfold entry_ok. apply _. Defined.

Lemma open_entries es n fuel rest st s : swf char_val long_bits st → answers s = [] → n ≠ [] → Forall entry_ok es →
  (length (entries_text es ++ rest) < fuel)%nat → ∃ fuel' st' s',
    open_loop fuel (entries_text es ++ rest) st (MkParseState n true) s =
    open_loop fuel' rest st' (MkParseState n true) s' ∧ (length rest < fuel')%nat ∧
    swf char_val long_bits st' ∧ answers s' = [] ∧
    (es = [] ∧ st' = st ∨
     view st' = <[n := put_all es (default ∅ (view st !! n))]> (view st) ∧
     name <$> sections st' =
       (if decide (n ∈ name <$> sections st) then name <$> sections st else (name <$> sections st) ++ [n])) ∧
    live s' - settings_blocks st' = live s - settings_blocks st.
Proof.
  revert fuel st s. induction es as [|[k v] es IH]; intros fuel st s Hst Ha Hn Hes Hf.
  { exists fuel, st, s. split_and!; auto. }
  inversion Hes as [|? ? [Hk Hv] Hes']; subst. cbn [fst snd] in Hk, Hv.
  destruct (entry_line_ok k v Hk Hv) as (L1 & L2 & L3).
  assert (Etext : entries_text ((k, v) :: es) ++ rest = entry_line (k, v) ++ NL :: entries_text es ++ rest).
  { unfold entries_text. cbn. by rewrite <-!app_assoc. }
  rewrite Etext in *. destruct fuel as [|fuel]; [lia|].
  destruct (settings_set_spec char_val long_bits st n k v s Hst Hn (key_ok_short k Hk) (value_ok_short v Hv) Ha)
    as (st1 & s1 & E1 & Hst1 & Ha1 & Hv1 & Hn1 & Hl1).
  rewrite (open_step fuel _ _ st (MkParseState n true) s (entry_str k v) st1 (MkParseState n true) s1);
    [|done|done|done|by apply entry_trimmed|].
  2:{ rewrite parse_entry by done. cbn [current_section]. by mstep E1. }
  rewrite length_app in Hf. cbn [length] in Hf.
  destruct (IH fuel st1 s1 Hst1 Ha1 Hn Hes' ltac:(lia)) as (fuel' & st' & s' & -> & Hf' & Hst' & Ha' & Hview & Hl).
  exists fuel', st', s'. split_and!; try done; [|lia]. right. cbn [put_all foldl fst snd].
  destruct Hview as [[-> ->]|[Hview Hnames]]; [done|].
  rewrite Hview, Hnames, Hv1, Hn1, lookup_insert_eq, insert_insert_eq. cbn [default]. split; [done|].
  destruct (decide (n ∈ name <$> sections st)) as [Hin|Hin].
  - by rewrite decide_True.
  - rewrite decide_True; [done|]. set_solver.
Qed.

Lemma put_all_union es g : NoDup es.*1 → put_all es g = list_to_map es ∪ g.
Proof.
  revert g. induction es as [|[k v] es IH]; intros g Hn; [cbn; by rewrite (left_id_L ∅ (∪))|].
  cbn [put_all foldl fst snd]. fold (put_all es (<[k:=v]> g)). inversion Hn; subst. rewrite IH by done.
  cbn [list_to_map foldr fst snd]. rewrite <-insert_union_r by (by apply not_elem_of_list_to_map_1).
  by rewrite <-insert_union_l.
Qed.

(** *** Whole files *)
Definition section_text (x : Section_) : cstr :=
  section_line (name x) ++ [NL] ++ entries_text (entries (map x)) ++ [NL].
Definition file_text (l : list Section_) : cstr := l ≫= section_text.
(** A section that comes back: not empty, and with names, keys and values the
    text can hold. *)
Definition section_ok (x : Section_) : Prop :=
  name_ok (name x) ∧ entries (map x) ≠ [] ∧ Forall entry_ok (entries (map x)) ∧ wf char_val long_bits (map x).

Lemma section_line_ok n : name_ok n →
  NL ∉ section_line n ∧ NUL ∉ section_line n ∧ (length (section_line n) ≤ 520)%nat ∧
  ∀ {T} (s : T), trim_str (section_line n ++ [NL]) s = Done (section_line n) s.
Proof.
  intros (_ & _ & H1 & H2 & H3). unfold section_line, strlen in *. rewrite !length_app. cbn [length].
  split; [set_unfold; naive_solver|]. split; [set_unfold; naive_solver|]. split; [lia|]. intros T s.
  apply trim_str_ends; [|by constructor]. exists SECTION_START_CHAR, SECTION_END_CHAR. split_and!; try done.
  by rewrite app_assoc, last_snoc.
Qed.

Lemma open_section x fuel rest st ps s : swf char_val long_bits st → answers s = [] → section_ok x →
  name x ∉ name <$> sections st → (length (section_text x ++ rest) < fuel)%nat → ∃ fuel' st' s',
    open_loop fuel (section_text x ++ rest) st ps s = open_loop fuel' rest st' (MkParseState (name x) true) s' ∧
    (length rest < fuel')%nat ∧ swf char_val long_bits st' ∧ answers s' = [] ∧
    view st' = <[name x := contents (map x)]> (view st) ∧
    name <$> sections st' = (name <$> sections st) ++ [name x] ∧
    live s' - settings_blocks st' = live s - settings_blocks st.
Proof.
  intros Hst Ha (Hname & Hne & Hes & Hw) Hnew Hf. destruct (section_line_ok _ Hname) as (L1 & L2 & L3 & L4).
  assert (Etext : section_text x ++ rest = section_line (name x) ++ NL :: entries_text (entries (map x)) ++ NL :: rest).
  { unfold section_text. by rewrite <-!app_assoc. }
  rewrite Etext in *. destruct fuel as [|fuel]; [lia|].
  rewrite (open_step fuel _ _ st ps s _ st (MkParseState (name x) true) s L1 L2 L3 (L4 _ s)) by (by apply parse_section).
  rewrite length_app in Hf. cbn [length] in Hf. pose proof Hname as (Hn0 & _).
  destruct (open_entries (entries (map x)) (name x) fuel (NL :: rest) st s Hst Ha Hn0 Hes ltac:(lia))
    as (fuel1 & st1 & s1 & -> & Hf1 & Hst1 & Ha1 & Hview & Hl). destruct fuel1 as [|fuel1]; [lia|].
  pose proof (open_step fuel1 [] rest st1 (MkParseState (name x) true) s1 [] st1 (MkParseState (name x) true) s1
    ltac:(set_solver) ltac:(set_solver) ltac:(cbn [length]; lia) eq_refl eq_refl) as E0.
  cbn [app] in E0. rewrite E0. clear E0.
  exists fuel1, st1, s1. cbn [length] in Hf1. destruct Hview as [[? _]|[Hview Hnames]]; [done|].
  rewrite decide_False in Hnames by done.
  assert (view st !! name x = None) as E by (by apply (keyed_absent section_entry)).
  rewrite E in Hview. cbn [default] in Hview. 
  rewrite put_all_union, (right_id_L ∅ (∪)) in Hview by (by eapply entries_NoDup).
  split_and!; try done. lia.
Qed.

Lemma open_file l done fuel st ps s : swf char_val long_bits st → answers s = [] → Forall section_ok l →
  view st = list_to_map (section_entry <$> done) → name <$> sections st = name <$> done →
  NoDup (name <$> done ++ l) → (length (file_text l) < fuel)%nat → ∃ st' s',
    open_loop fuel (file_text l) st ps s = Done (Some st') s' ∧ swf char_val long_bits st' ∧
    view st' = list_to_map (section_entry <$> done ++ l) ∧ name <$> sections st' = name <$> done ++ l ∧
    live s' - settings_blocks st' = live s - settings_blocks st.
Proof.
  revert done fuel st ps s. induction l as [|x l IH]; intros done fuel st ps s Hst Ha Hl Hview Hnames Hnd Hf.
  { destruct fuel; [lia|]. exists st, s. rewrite app_nil_r. by split_and!. }
  inversion Hl as [|? ? Hx Hl']; subst. change (file_text (x :: l)) with (section_text x ++ file_text l) in *.
  assert (Hnew : name x ∉ name <$> done).
  { rewrite fmap_app in Hnd. apply NoDup_app in Hnd as (_ & Hnd & _). intros Hin. apply (Hnd _ Hin). rewrite fmap_cons. set_solver. }
  destruct (open_section x fuel (file_text l) st ps s Hst Ha Hx ltac:(by rewrite Hnames) Hf)
    as (fuel1 & st1 & s1 & -> & Hf1 & Hst1 & Ha1 & Hview1 & Hnames1 & Hl1).
  destruct (IH (done ++ [x]) fuel1 st1 (MkParseState (name x) true) s1) as (st' & s' & E & Hst' & Hv' & Hn' & Hlv); try done.
  - rewrite Hview1, Hview. by rewrite (keyed_snoc section_entry) by done.
  - rewrite Hnames1, Hnames. by rewrite fmap_app.
  - by rewrite <-app_assoc.
  - rewrite <-app_assoc in Hv', Hn'. exists st', s'. split_and!; try done. lia.
Qed.

(** *** Saving *)
Lemma enum_map_spec k v f : strlen k < MAX_KEYCHARS → strlen v < MAX_VALUECHARS →
  enum_map k v f = Done () (f ++ entry_line (k, v) ++ [NL]).
Proof.
  intros Hk Hv. unfold enum_map. destruct (Z.ltb_spec (strlen k) MAX_KEYCHARS); [|lia].
  destruct (Z.ltb_spec (strlen v) MAX_VALUECHARS); [|lia]. cbn [andb]. unfold sprintf.
  unfold strlen, MAX_KEYCHARS, MAX_VALUECHARS in *. change MAX_LINECHARS with 522.
  rewrite ?length_app. cbn [length]. rewrite ?length_app. cbn [length].
  match goal with |- context [Z.ltb ?a ?b] => destruct (Z.ltb_spec a b); [|lia] end.
  unfold fputs. rewrite bind_ret. unfold modify, entry_line. cbn [fst snd]. by rewrite <-!app_assoc.
Qed.

Lemma visit_enum_map es f : Forall entry_ok es → visit enum_map es f = Done () (f ++ entries_text es).
Proof.
  intros Hes. revert f. induction Hes as [|[k v] es [Hk Hv] Hes IH]; intros f; [cbn; by rewrite app_nil_r|].
  cbn [fst snd] in Hk, Hv. change (visit enum_map ((k, v) :: es) f) with ((enum_map k v;; visit enum_map es) f).
  rewrite (bind_done _ _ _ _ _ (enum_map_spec k v f ltac:(apply Hk) ltac:(apply Hv))), IH.
  unfold entries_text. cbn. by rewrite <-!app_assoc.
Qed.

Lemma save_loop_spec l f : Forall section_ok l → save_loop l f = Done () (f ++ file_text l).
Proof.
  intros Hl. revert f. induction Hl as [|x l (Hn & _ & Hes & Hw) Hl IH]; intros f; cbn [save_loop]; [by rewrite app_nil_r|].
  pose proof Hn as (_ & _ & _ & _ & Hlen). unfold sprintf.
  assert (strlen ([SECTION_START_CHAR] ++ name x ++ [SECTION_END_CHAR; NL]) < MAX_LINECHARS).
  { unfold strlen in *. rewrite !length_app. cbn [length]. change MAX_LINECHARS with 522. lia. }
  match goal with |- context [Z.ltb ?a ?b] => destruct (Z.ltb_spec a b); [|lia] end.
  rewrite bind_ret. assert (Ep : ∀ b f, fputs b f = Done () (f ++ b)) by done.
  mstep (Ep ([SECTION_START_CHAR] ++ name x ++ [SECTION_END_CHAR; NL]) f).
  assert (E : ∀ f, sm_enum (Some (map x)) (Some enum_map) f = Done 1 (f ++ entries_text (entries (map x)))).
  { intros f'. rewrite (sm_enum_spec char_val long_bits) by done. by mstep (visit_enum_map _ f' Hes). }
  mstep (E (f ++ [SECTION_START_CHAR] ++ name x ++ [SECTION_END_CHAR; NL])).
  rewrite (bind_done _ _ _ _ _ (Ep _ _)), IH. f_equal.
  change (file_text (x :: l)) with (section_text x ++ file_text l). unfold section_text, section_line.
  cbn [app]. by repeat (rewrite <-!app_assoc; cbn [app]).
Qed.
End lines.

(** C16: what is saved is loaded again: settings whose sections have entries, and
    whose names, keys and values are of the form the text can hold, are written
    without fault, and loading the text succeeds with the same sections in the
    same order and the same values; the loaded object uses the memory of its
    sections and no other. *)
Theorem settings_round_trip char_val long_bits st s :
  sections_freed st = false → NoDup (name <$> sections st) → Forall (section_ok char_val long_bits) (sections st) →
  answers s = [] →
  ∃ text st' s', settings_save (Some st) true [] = Done 1 text ∧
    settings_open char_val long_bits (Some text) s = Done (Some st') s' ∧
    name <$> sections st' = name <$> sections st ∧ view st' = view st ∧
    swf char_val long_bits st' ∧ live s' = live s + settings_blocks st'.
Proof.
  intros Hf Hn Hok Ha. destruct s as [a lv]. cbn in Ha. subst a.
  set (st0 := MkSettings [] false). assert (Hst0 : swf char_val long_bits st0) by (split_and!; [done|apply NoDup_nil_2|done]).
  destruct (open_file char_val long_bits (sections st) [] (S (length (file_text (sections st)))) st0 (MkParseState [] false)
    (Mem [] (lv + 1))) as (st' & s' & E & Hst' & Hv & Hnames & Hl); try done; [lia|].
  exists (file_text (sections st)), st', s'. split_and!; try done.
  - unfold settings_save. cbn [negb]. rewrite Hf. by mstep (save_loop_spec char_val long_bits (sections st) [] Hok).
  - change (settings_blocks st0) with 1 in Hl. cbn [live] in *. lia.
Qed.

(** An object with two sections, one of them with an empty value. *)
Definition ascii_val (c : ascii) : Z := Z.of_N (N_of_ascii c).
Definition sample_table (es : list (cstr * cstr)) : StrMap :=
  match foldl (λ m e, match sm_put ascii_val 32 m (Some e.1) (Some e.2) (Mem [] 0) with
                      | Done (_, m) _ => m | _ => None end) (Some (empty_map 4)) es with
  | Some m => m | None => empty_map 4 end.
Definition sample : Settings :=
  MkSettings [MkSection (str "net") (sample_table [(str "ip", str "10.0.0.1"); (str "name", [])]);
              MkSection (str "log level") (sample_table [(str "a key", str "a value")])] false.

Lemma sample_table_wf es : Forall (λ e, short e.1 ∧ short e.2) es → wf ascii_val 32 (sample_table es).
Proof.
  intros Hes. unfold sample_table.
  assert (H : ∀ m, wf ascii_val 32 m → ∃ m', foldl (λ m e,
    match sm_put ascii_val 32 m (Some e.1) (Some e.2) (Mem [] 0) with
    | Done (_, m) _ => m | _ => None end) (Some m) es = Some m' ∧ wf ascii_val 32 m').
  { induction Hes as [|[k v] es [Hk Hv] Hes IH]; intros m Hm; [by exists m|]. cbn [foldl].
    destruct (sm_put_spec _ _ m k v (Mem [] 0) Hm Hk Hv) as (r & m' & s' & E & Hm' & _).
    cbn [fst snd] in *. rewrite E. by apply IH. }
  destruct (H (empty_map 4)) as (m' & -> & Hm'); [by apply empty_map_wf|done].
Qed.

Lemma section_ok_check n es :
  bool_decide (name_ok n ∧ entries (sample_table es) ≠ [] ∧ Forall (λ e, key_ok e.1 ∧ value_ok e.2) (entries (sample_table es)) ∧
    Forall (λ e, (length e.1 < 256)%nat ∧ (length e.2 < 256)%nat) es) = true →
  section_ok ascii_val 32 (MkSection n (sample_table es)).
Proof.
  intros H%bool_decide_eq_true. destruct H as (H1 & H2 & H3 & H4). split_and!; try done.
  apply sample_table_wf. eapply Forall_impl; [apply H4|]. intros [a b]. unfold short, strlen. simpl. lia.
Qed.

Lemma sample_ok : Forall (section_ok ascii_val 32) (sections sample).
Proof. repeat apply Forall_cons_2; [| |apply Forall_nil_2]; apply section_ok_check; by vm_compute. Qed.

Lemma settings_round_trip_witness :
  ∃ text st' s', settings_save (Some sample) true [] = Done 1 text ∧
    settings_open ascii_val 32 (Some text) (Mem [] 7) = Done (Some st') s' ∧
    name <$> sections st' = [str "net"; str "log level"] ∧ view st' = view sample ∧
    swf ascii_val 32 st' ∧ live s' = 7 + settings_blocks st'.
Proof.
  apply (settings_round_trip ascii_val 32 sample (Mem [] 7)); [done| |apply sample_ok|done].
  apply (bool_decide_unpack _). by vm_compute.
Defined.

(** ** Setting and getting *)
Section get_set.
Variable char_val : ascii → Z.
Variable long_bits : Z.

Lemma settings_get_spec {T} st n k size (s : T) : swf char_val long_bits st →
  settings_get char_val long_bits (Some st) (Some n) (Some k) true size s =
  Done (match value_of st n k with
        | Some v => if strlen v <? size then (1, Some v) else (0, None)
        | None => (0, None)
        end) s.
Proof.
  intros Hst. unfold settings_get, value_of. destruct (get_section_spec char_val long_bits st n s Hst) as (r & E & Hr).
  mstep E. destruct r as [j|].
  - destruct Hr as (x & -> & _ & Hw & ->). rewrite bind_of_opt. cbn. by apply sm_get_spec.
  - by destruct Hr as [_ ->].
Qed.

Lemma settings_set_total st n k v s : swf char_val long_bits st → short k → short v → answers s = [] → ∃ r st' s',
  settings_set char_val long_bits st (Some n) (Some k) (Some v) s = Done (r, st') s' ∧
  swf char_val long_bits st' ∧ answers s' = [] ∧ live s' - settings_blocks st' = live s - settings_blocks st.
Proof.
  intros Hst Hk Hv Ha. destruct (decide (n = [])) as [->|Hn].
  - exists 0, st, s. by split_and!.
  - destruct (settings_set_spec char_val long_bits st n k v s Hst Hn Hk Hv Ha) as (st' & s' & E & ? & ? & _ & _ & ?).
    by exists 1, st', s'.
Qed.

(** *** Parsing never leaves its buffers *)
Lemma copy_until_head stop c a n w r : stop c = false → copy_until stop (c :: a) 0 n = Some (w, r) → head w = Some c.
Proof.
  intros Hc H. cbn [copy_until] in H. rewrite Hc in H. destruct (0 =? n); [done|].
  destruct (copy_until stop a (0 + 1) n) as [[w' r']|]; by simplify_eq/=.
Qed.

Lemma key_value_total {T} t c (s : T) : head t = Some c → is_blank_char c = false → c ≠ KEY_VALUE_SEPARATOR_CHAR →
  (length t ≤ 521)%nat → ∃ r, get_key_value_from_str t MAX_LINECHARS MAX_LINECHARS s = Done r s ∧
  match r with Some (k, v) => short k ∧ short v | None => True end.
Proof.
  intros Hh Hb Hc Hl. unfold get_key_value_from_str. destruct t as [|x t]; [done|]. simpl in Hh. simplify_eq.
  destruct (copy_until _ (c :: t) 0 MAX_LINECHARS) as [[k rest]|] eqn:E; [|by exists None].
  pose proof (copy_until_head _ c t _ k rest (bool_decide_eq_false_2 _ Hc) E) as Hk.
  pose proof (copy_until_split _ _ _ _ _ _ E) as Es. apply (f_equal length) in Es. rewrite length_app in Es.
  destruct (back_over_blanks_total k c s Hk Hb) as (k' & Ek & _ & _ & Hlk). mstep Ek. cbv beta.
  pose proof (length_skip_blanks (drop 1 rest)) as Hsk. rewrite length_drop in Hsk.
  destruct (copy_until (λ _, false) _ 0 MAX_LINECHARS) as [[v rest']|] eqn:Ev; [|by exists None].
  pose proof (copy_until_split _ _ _ _ _ _ Ev) as Ev'. apply (f_equal length) in Ev'. rewrite length_app in Ev'.
  eexists. split; [reflexivity|]. rewrite rev_involutive. unfold short, strlen. lia.
Qed.

Lemma parse_str_total st t ps s : swf char_val long_bits st → answers s = [] → t = [] ∨ ends_ok t → (length t ≤ 521)%nat →
  ∃ r st' ps' s', parse_str char_val long_bits st t ps s = Done (r, st', ps') s' ∧ swf char_val long_bits st' ∧
    answers s' = [] ∧ live s' - settings_blocks st' = live s - settings_blocks st.
Proof.
  intros Hst Ha Ht Hl. destruct Ht as [->|(c & d & Hh & _ & Hc & _)]; [by exists 1, st, ps, s|].
  assert (Hskip : ∃ r st' ps' s', Done (0, st, ps) s = Done (r, st', ps') s' ∧ swf char_val long_bits st' ∧
    answers s' = [] ∧ live s' - settings_blocks st' = live s - settings_blocks st) by (by exists 0, st, ps, s).
  assert (Hset : ∀ k v, short k → short v → ∃ r st' ps' s',
    ('(r, st) ← settings_set char_val long_bits st (Some (current_section ps)) (Some k) (Some v); mret (r, st, ps)) s =
    Done (r, st', ps') s' ∧ swf char_val long_bits st' ∧
    answers s' = [] ∧ live s' - settings_blocks st' = live s - settings_blocks st).
  { intros k v Hk Hv. destruct (settings_set_total st (current_section ps) k v s Hst Hk Hv Ha) as (r & st' & s' & E & H).
    exists r, st', ps, s'. split; [|done]. by mstep E. }
  destruct t as [|x t]; [done|]. simpl in Hh. simplify_eq. unfold parse_str. set (t' := c :: t) in *.
  destruct (is_blank_str t'); [by exists 1, st, ps, s|]. destruct (is_comment_str t'); [by exists 1, st, ps, s|].
  destruct (is_section_str t').
  { destruct (get_section_from_str t' MAX_LINECHARS) as [b|]; [|done].
    destruct (_ <? _); [done|]. by exists 1, st, (MkParseState b true), s. }
  destruct (is_key_value_str t') eqn:Ekv.
  { assert (Hne : c ≠ KEY_VALUE_SEPARATOR_CHAR).
    { intros ->. unfold is_key_value_str, t' in Ekv. cbn [starts_with] in Ekv. by rewrite bool_decide_eq_true_2 in Ekv. }
    destruct (key_value_total t' c s eq_refl Hc Hne Hl) as (r & E & Hr). mstep E. destruct r as [[k v]|]; [|done].
    destruct (has_section ps); [|done]. destruct Hr. by apply Hset. }
  destruct (is_key_without_value_str t'); [|done]. unfold get_key_without_value_from_str.
  destruct (copy_until _ t' 0 MAX_LINECHARS) as [[k r]|] eqn:E; [|done].
  pose proof (copy_until_split _ _ _ _ _ _ E) as Es. apply (f_equal length) in Es. rewrite length_app in Es.
  cbn [mbind option_bind]. destruct (has_section ps); [|done]. apply Hset; unfold short, strlen; simpl; lia.
Qed.

Lemma open_loop_total fuel f st ps s : swf char_val long_bits st → answers s = [] → (length f < fuel)%nat →
  ∃ r st' s', open_loop char_val long_bits fuel f st ps s = Done r s' ∧ swf char_val long_bits st' ∧
    (r = Some st' ∨ r = None) ∧ live s' - settings_blocks st' = live s - settings_blocks st.
Proof.
  revert f st ps s. induction fuel as [|fuel IH]; intros f st ps s Hst Ha Hf; [lia|]. cbn [open_loop]. unfold fgets.
  destruct f as [|c f]; [exists (Some st), st, s; auto|].
  pose proof (read_line_length (Z.to_nat (MAX_LINECHARS - 1)) (c :: f) ltac:(cbv; lia) ltac:(done)) as Hr.
  destruct (read_line _ (c :: f)) as [l rest]. destruct Hr as [Hl Hrest]. pose proof (length_c_str l).
  destruct (trim_str_total (c_str l) s) as (t & Et & Hends & Hlt). mstep Et.
  change (Z.to_nat (MAX_LINECHARS - 1)) with 521%nat in Hl.
  destruct (parse_str_total st t ps s Hst Ha Hends ltac:(lia)) as (r & st1 & ps1 & s1 & Ep & Hst1 & Ha1 & Hl1).
  mstep Ep. destruct (r =? 0); [exists None, st1, s1; auto|].
  destruct (IH rest st1 ps1 s1 Hst1 Ha1 ltac:(lia)) as (r' & st' & s' & -> & Hst' & Hr' & Hl').
  exists r', st', s'. split_and!; try done. lia.
Qed.

Lemma settings_blocks_pos st : swf char_val long_bits st → 0 < settings_blocks st.
Proof.
  intros (_ & _ & Hw). assert (0 ≤ sections_blocks (sections st)).
  { clear. induction (sections st) as [|x l IH]; cbn [sections_blocks foldr]; [done|].
    fold (sections_blocks l). assert (0 ≤ blocks (map x)); [|lia]. unfold blocks.
    assert (0 ≤ buckets_blocks (buckets (map x))); [|lia].
    induction (buckets (map x)) as [|b bs IHb]; cbn [buckets_blocks foldr]; [done|].
    fold (buckets_blocks bs). rewrite bucket_blocks_alt. destruct (_ =? 0); lia. }
  unfold settings_blocks. destruct (sections st); lia.
Qed.
End get_set.

(** C17: loading any text whatever ends, without reading or writing outside a
    buffer: it gives a well-formed object that uses the memory of its sections,
    or NULL, and then the memory of what had been read is lost. *)
Theorem settings_open_safe char_val long_bits f s : answers s = [] →
  ∃ r s', settings_open char_val long_bits (Some f) s = Done r s' ∧
    match r with
    | Some st => swf char_val long_bits st ∧ live s' = live s + settings_blocks st
    | None => live s < live s'
    end.
Proof.
  intros Ha. destruct s as [a lv]. cbn in Ha. subst a. unfold settings_open.
  set (st0 := MkSettings [] false). assert (Hst0 : swf char_val long_bits st0) by (split_and!; [done|apply NoDup_nil_2|done]).
  destruct (open_loop_total char_val long_bits (S (length f)) f st0 (MkParseState [] false) (Mem [] (lv + 1)) Hst0 eq_refl
    ltac:(lia)) as (r & st' & s' & E & Hst' & Hr & Hl).
  change (settings_blocks st0) with 1 in Hl. cbn [live] in *. pose proof (settings_blocks_pos _ _ _ Hst').
  exists r, s'. split; [exact E|]. destruct Hr as [-> | ->]; [split; [done|lia]|lia].
Qed.

Lemma settings_open_safe_witness :
  ∃ r s', settings_open ascii_val 32 (Some (str "key = value without a section")) (Mem [] 0) = Done r s' ∧
    match r with
    | Some st => swf ascii_val 32 st ∧ live s' = 0 + settings_blocks st
    | None => 0 < live s'
    end.
Proof. apply (settings_open_safe ascii_val 32 (str "key = value without a section") (Mem [] 0)). reflexivity. Defined.

(** A value that is set is the one that is got, by every later [get] with a
    buffer that is large enough, and no other value changes. *)
Theorem settings_set_get char_val long_bits st n k v s :
  swf char_val long_bits st → n ≠ [] → short k → short v → answers s = [] →
  ∃ st' s', settings_set char_val long_bits st (Some n) (Some k) (Some v) s = Done (1, st') s' ∧
    swf char_val long_bits st' ∧
    (∀ size, strlen v < size →
      settings_get char_val long_bits (Some st') (Some n) (Some k) true size s' = Done (1, Some v) s') ∧
    (∀ n' k' size, (n', k') ≠ (n, k) →
      settings_get char_val long_bits (Some st') (Some n') (Some k') true size s' =
      settings_get char_val long_bits (Some st) (Some n') (Some k') true size s').
Proof.
  intros Hst Hn Hk Hv Ha.
  destruct (settings_set_spec char_val long_bits st n k v s Hst Hn Hk Hv Ha) as (st' & s' & E & Hst' & _ & Hview & _).
  exists st', s'. split; [done|]. split; [done|]. split.
  - intros size Hsz. rewrite settings_get_spec by done. unfold value_of. rewrite Hview, lookup_insert_eq. cbn.
    rewrite lookup_insert_eq. destruct (Z.ltb_spec (strlen v) size); [done|lia].
  - intros n' k' size Hne. rewrite settings_get_spec by done.
    rewrite settings_get_spec by done.
    assert (value_of st' n' k' = value_of st n' k') as ->; [|done]. unfold value_of. rewrite Hview.
    destruct (decide (n' = n)) as [->|]; [|by rewrite lookup_insert_ne]. rewrite lookup_insert_eq. cbn.
    rewrite lookup_insert_ne by congruence. destruct (view st !! n); [done|]. cbn. by rewrite lookup_empty.
Qed.

Lemma settings_set_get_witness :
  ∃ st' s', settings_set ascii_val 32 (MkSettings [] false) (Some (str "net")) (Some (str "ip")) (Some (str "10.0.0.2"))
      (Mem [] 0) = Done (1, st') s' ∧ swf ascii_val 32 st' ∧
    (∀ size, strlen (str "10.0.0.2") < size →
      settings_get ascii_val 32 (Some st') (Some (str "net")) (Some (str "ip")) true size s' =
      Done (1, Some (str "10.0.0.2")) s') ∧
    (∀ n' k' size, (n', k') ≠ (str "net", str "ip") →
      settings_get ascii_val 32 (Some st') (Some n') (Some k') true size s' =
      settings_get ascii_val 32 (Some (MkSettings [] false)) (Some n') (Some k') true size s').
Proof.
  apply (settings_set_get ascii_val 32 (MkSettings [] false) (str "net") (str "ip") (str "10.0.0.2") (Mem [] 0)).
  - split_and!; [done|apply NoDup_nil_2|done].
  - done.
  - unfold short, strlen. simpl. lia.
  - unfold short, strlen. simpl. lia.
  - done.
Defined.

(** When there is memory for the array of sections but not for the table of
    a new section, [settings_set] frees a pointer into the array, unless the
    section is the first; then it frees the array itself and returns 0, and
    every later use of the object, even deleting it, is of freed memory. *)
Theorem settings_set_out_of_memory char_val long_bits st n k v rest lv :
  swf char_val long_bits st → n ≠ [] → n ∉ name <$> sections st →
  match sections st with
  | [] => ∃ st' s',
      settings_set char_val long_bits st (Some n) (Some k) (Some v) (Mem (true :: false :: rest) lv) = Done (0, st') s' ∧
      (∀ n' k' size s, settings_get char_val long_bits (Some st') (Some n') (Some k') true size s = @Oops mem _) ∧
      (∀ f, settings_save (Some st') true f = Oops) ∧ (∀ s, settings_delete (Some st') s = Oops)
  | _ => settings_set char_val long_bits st (Some n) (Some k) (Some v) (Mem (true :: false :: rest) lv) = Oops
  end.
Proof.
  intros Hst Hn Hnew. set (s := Mem _ _).
  assert (E : settings_set char_val long_bits st (Some n) (Some k) (Some v) s =
    ('(i, st) ← add_section st n; match i with None => mret (0, st) | Some i => put_in char_val long_bits st i k v end) s).
  { unfold settings_set. destruct (Z.eqb_spec (strlen n) 0) as [E|_];
      [destruct n; [done|unfold strlen in E; simpl in E; lia]|].
    destruct (get_section_spec char_val long_bits st n s Hst) as (r & E & Hr). mstep E. destruct r as [j|]; [|done].
    destruct Hr as (x & Hj & <- & _). destruct Hnew. apply list_elem_of_fmap_2. by eapply list_elem_of_lookup_2. }
  rewrite E. unfold add_section. destruct (sections st) as [|x l] eqn:El.
  - exists (MkSettings [] true). eexists. split; [|done].
    unfold mbind, M_bind, malloc, sm_new. cbn. unfold mbind, M_bind, malloc. cbn. unfold free_last. rewrite El. reflexivity.
  - unfold mbind, M_bind, realloc, sm_new. cbn. unfold mbind, M_bind, malloc. cbn. unfold free_last. by rewrite El.
Qed.

Lemma settings_set_out_of_memory_witness :
  ∃ st' s',
    settings_set ascii_val 32 (MkSettings [] false) (Some (str "net")) (Some (str "ip")) (Some [])
      (Mem [true; false] 1) = Done (0, st') s' ∧
    (∀ n' k' size s, settings_get ascii_val 32 (Some st') (Some n') (Some k') true size s = @Oops mem _) ∧
    (∀ f, settings_save (Some st') true f = Oops) ∧ (∀ s, settings_delete (Some st') s = Oops).
Proof.
  apply (settings_set_out_of_memory ascii_val 32 (MkSettings [] false) (str "net") (str "ip") [] [] 1).
  - split_and!; [done|apply NoDup_nil_2|done].
  - done.
  - apply not_elem_of_nil.
Defined.
