(* ===== verification/Eeprog.v ===== *)
(** * eeprog: reading and writing a 24Cxx EEPROM

    The tool [src/sources/utils/eeprog-0.7.6]: [24cXX.c] accesses the chip
    with SMBus requests, [eeprog.c] has the command line, reading and writing.
    (The directory eeprog-0.7.6-tear12 has the same code.)  The bus is an
    interface, [SMBus]; what a chip promises is another, [Eeprom24], for which
    the theorems about the tool are proved.  The i2c-stub module, as modelled in
    [I2cStub], is one such bus and chip. *)

From Stdlib Require Import ZArith Lia Ascii String.
From stdpp Require Import base list strings.
From S2P Require Import Prelude CString I2cStub.

Definition EEPROM_TYPE_UNKNOWN : Z := 0.
Definition EEPROM_TYPE_8BIT_ADDR : Z := 1.
Definition EEPROM_TYPE_16BIT_ADDR : Z := 2.
Record eeprom := Eeprom {
  e_dev : option cstr; e_addr : Z; e_fd : Z; e_type : Z; write_cycle_time : Z
}.

Definition I2C_FUNC_SMBUS_READ_BYTE : Z := 0x00020000.
Definition I2C_FUNC_SMBUS_WRITE_BYTE : Z := 0x00040000.
Definition I2C_FUNC_SMBUS_READ_BYTE_DATA : Z := 0x00080000.
Definition I2C_FUNC_SMBUS_WRITE_BYTE_DATA : Z := 0x00100000.
Definition I2C_FUNC_SMBUS_READ_WORD_DATA : Z := 0x00200000.
Definition I2C_FUNC_SMBUS_WRITE_WORD_DATA : Z := 0x00400000.

(** ** The bus: the ioctl I2C_SMBUS on the open device, with direction,
    command, size and the 34 bytes of the data union (the result, and the data
    after it), and the functionality it reports. *)
Class SMBus (B : Type) := {
  i2c_smbus_access : Z → Z → Z → list Z → M B (Z * list Z);
  i2c_funcs : B → Z
}.

Section chip.
Context {B : Type} `{SMBus B}.
(** What is on the stack where a data union lies. *)
Variable junk : list Z.

(** *** The inline functions of i2c-dev.h *)
Definition i2c_smbus_read_byte : M B Z :=
  '(r, data) ← i2c_smbus_access I2C_SMBUS_READ 0 I2C_SMBUS_BYTE junk;
  mret (if negb (r =? 0) then -1 else Z.land 0x0FF (data_byte data)).
Definition i2c_smbus_write_byte (value : Z) : M B Z :=
  '(r, _) ← i2c_smbus_access I2C_SMBUS_WRITE value I2C_SMBUS_BYTE junk; mret r.
Definition i2c_smbus_write_byte_data (command value : Z) : M B Z :=
  '(r, _) ← i2c_smbus_access I2C_SMBUS_WRITE command I2C_SMBUS_BYTE_DATA (put_byte value junk); mret r.
Definition i2c_smbus_write_word_data (command value : Z) : M B Z :=
  '(r, _) ← i2c_smbus_access I2C_SMBUS_WRITE command I2C_SMBUS_WORD_DATA (put_word value junk); mret r.

(** *** 24cXX.c *)
Definition i2c_write_1b (buf : Z) : M B Z := i2c_smbus_write_byte buf.
Definition i2c_write_2b (buf0 buf1 : Z) : M B Z := i2c_smbus_write_byte_data buf0 buf1.
Definition i2c_write_3b (buf0 buf1 buf2 : Z) : M B Z :=
  i2c_smbus_write_word_data buf0 (Z.lor (Z.shiftl buf2 8) buf1).

Definition eeprom_read_current_byte (e : eeprom) : M B Z := i2c_smbus_read_byte.
(** [mem_addr] is a 16-bit parameter. *)
Definition eeprom_read_byte (e : eeprom) (mem_addr : Z) : M B Z :=
  let mem_addr := u16 mem_addr in
  r ← (if e_type e =? EEPROM_TYPE_8BIT_ADDR then Some <$> i2c_write_1b (Z.land mem_addr 0xff)
       else if e_type e =? EEPROM_TYPE_16BIT_ADDR then
         Some <$> i2c_write_2b (Z.land (Z.shiftr mem_addr 8) 0xff) (Z.land mem_addr 0xff)
       else mret None);
  match r with
  | None => mret (-1)
  | Some r => if r <? 0 then mret r else i2c_smbus_read_byte
  end.
Definition eeprom_write_byte (e : eeprom) (mem_addr data : Z) : M B Z :=
  let mem_addr := u16 mem_addr in
  let data := u8 data in
  if e_type e =? EEPROM_TYPE_8BIT_ADDR then i2c_write_2b (Z.land mem_addr 0xff) data
  else if e_type e =? EEPROM_TYPE_16BIT_ADDR then
    i2c_write_3b (Z.land (Z.shiftr mem_addr 8) 0xff) (Z.land mem_addr 0xff) data
  else mret (-1).
End chip.

(** ** The tool *)

(** What it sees of the system: the environment variables, which files exist,
    can be read (with their content) and created, whether standard input and
    the input are terminals, and what opening the device returns. *)
Record env := Env {
  getenv_dev : option cstr;
  getenv_addr : option cstr;
  stat_ok : cstr → bool;
  read_file : cstr → option (list Z);
  can_create : cstr → bool;
  stdin : list Z;
  tty_stdin : bool;
  tty_input : bool;
  open_fd : cstr → Z;
  funcs_ret : Z;
  slave_ret : Z → Z
}.

Section tool.
Context {B : Type} `{SMBus B}.
Variable junk : list Z.
Variable long_bits : Z.

(** The bus, and what has been written to the output. *)
Record world := World { bus : B; out : list ascii }.
Abbreviation W := (M world).
Definition on_bus {A} (c : M B A) : W A := zoom bus (λ b w, World b (out w)) c.
Definition put (s : list ascii) : W unit := modify (λ w, World (bus w) (out w ++ s)).
(** [die_if] and [usage_if]. *)
Definition die_if3 (b : bool) (code : Z) : W unit := if b then exit_ code else mret ().
Definition die_if (b : bool) : W unit := die_if3 b 1.
Definition usage_if (b : bool) : W unit := if b then exit_ 1 else mret ().

(** The result, and what is stored through [paddr] and [psize]. *)
Definition parse_arg_str (arg : cstr) : Z * option Z * option Z :=
  match arg with
  | [] => (-1, None, None)
  | _ =>
      let '(v, rest) := strtol long_bits 0 arg in
      let out_paddr := u32 v in
      match rest with
      | [] => (1, Some (int32 out_paddr), None)
      | c :: rest =>
          if negb (bool_decide (c = ":"%char)) then (-1, None, None)
          else match rest with
          | [] => (-1, None, None)
          | _ =>
              let '(v, rest) := strtol long_bits 0 rest in
              match rest with
              | [] => (2, Some (int32 out_paddr), Some (int32 (u32 v)))
              | _ => (-1, None, None)
              end
          end
      end
  end.
(** [arg[0]] of a NULL pointer is a fault. *)
Definition parse_arg (arg : option cstr) : W (Z * option Z * option Z) :=
  arg ← of_opt arg; mret (parse_arg_str arg).

(** [for(i = 0; i < size; ++i, ++addr)]; [n] rounds are left. *)
Fixpoint read_loop (n : nat) (e : eeprom) (i addr hex : Z) : W unit :=
  match n with
  | O => mret ()
  | S n =>
      ch ← on_bus (eeprom_read_byte junk e addr);
      die_if (ch <? 0);;
      (if negb (hex =? 0) then
         (if i mod 16 =? 0 then put ([char 10; " "%char] ++ fmt_x 4 addr ++ str "|  ")
          else if i mod 8 =? 0 then put (str "  ") else mret ());;
         put (fmt_x 2 ch ++ str " ")
       else put [char ch]);;
      read_loop n e (i + 1) (addr + 1) hex
  end.
Definition read_from_eeprom (e : eeprom) (addr size hex : Z) : W Z :=
  read_loop (Z.to_nat size) e 0 addr hex;;
  (if negb (hex =? 0) then put [char 10; char 10] else mret ());;
  mret 0.

Fixpoint write_to_eeprom (e : eeprom) (fp : list Z) (addr : Z) : W Z :=
  match fp with
  | [] => mret 0
  | c :: fp =>
      r ← on_bus (eeprom_write_byte junk e addr c);
      die_if (negb (r =? 0));;
      write_to_eeprom e fp (addr + 1)
  end.

Definition CHECK_I2C_FUNC (var label : Z) : W unit := if Z.land var label =? 0 then exit_ 1 else mret ().
Definition eeprom_open (v : env) (dev_fqn : cstr) (addr type wct : Z) : W (Z * eeprom) :=
  let e := Eeprom None 0 0 0 0 in
  let fd := open_fd v dev_fqn in
  if fd <=? 0 then mret (-1, e)
  else if funcs_ret v <? 0 then mret (-1, e)
  else
    funcs ← gets (λ w, i2c_funcs (bus w));
    CHECK_I2C_FUNC funcs I2C_FUNC_SMBUS_READ_BYTE;;
    CHECK_I2C_FUNC funcs I2C_FUNC_SMBUS_WRITE_BYTE;;
    CHECK_I2C_FUNC funcs I2C_FUNC_SMBUS_READ_BYTE_DATA;;
    CHECK_I2C_FUNC funcs I2C_FUNC_SMBUS_WRITE_BYTE_DATA;;
    CHECK_I2C_FUNC funcs I2C_FUNC_SMBUS_READ_WORD_DATA;;
    CHECK_I2C_FUNC funcs I2C_FUNC_SMBUS_WRITE_WORD_DATA;;
    if slave_ret v addr <? 0 then mret (-1, e)
    else mret (0, Eeprom (Some dev_fqn) addr fd type wct).
Definition eeprom_close (e : eeprom) : Z * eeprom :=
  (0, Eeprom None (e_addr e) (-1) EEPROM_TYPE_UNKNOWN (write_cycle_time e)).

(** *** [getopt] with the option string of [main] *)
Definition takes_arg (c : ascii) : option bool :=
  if bool_decide (c ∈ str "1rwtio") then Some true
  else if bool_decide (c ∈ str "8fqhxd") then Some false else None.
(** The options of one argument; the last may want the next argument. *)
Fixpoint cluster (s : cstr) : list (ascii * option cstr) * option ascii :=
  match s with
  | [] => ([], None)
  | c :: s =>
      match takes_arg c with
      | None => let '(l, w) := cluster s in (("?"%char, None) :: l, w)
      | Some false => let '(l, w) := cluster s in ((c, None) :: l, w)
      | Some true => match s with [] => ([], Some c) | _ => ([(c, Some s)], None) end
      end
  end.
(** All options in their order, and the operands. *)
Fixpoint getopt (args : list cstr) : list (ascii * option cstr) * list cstr :=
  match args with
  | [] => ([], [])
  | a :: args =>
      match a with
      | d :: c :: s =>
          if negb (bool_decide (d = "-"%char)) then let '(l, o) := getopt args in (l, a :: o)
          else if bool_decide (a = str "--") then ([], args)
          else
            let '(l, want) := cluster (c :: s) in
            match want with
            | None => let '(l', o) := getopt args in (l ++ l', o)
            | Some c =>
                match args with
                | [] => (l ++ [("?"%char, None)], [])
                | v :: args => let '(l', o) := getopt args in (l ++ (c, Some v) :: l', o)
                end
            end
      | _ => let '(l, o) := getopt args in (l, a :: o)
      end
  end.

Record opts := Opts {
  op : option ascii; arg : option cstr; o_type : Z; want_hex : Z; dummy : Z; force : Z;
  wct : Z; input_file : option cstr; output_file : option cstr
}.
Definition init_opts : opts := Opts None None 0 0 0 0 0 None None.
Definition set_type v o := Opts (op o) (arg o) v (want_hex o) (dummy o) (force o) (wct o) (input_file o) (output_file o).
Definition set_hex v o := Opts (op o) (arg o) (o_type o) v (dummy o) (force o) (wct o) (input_file o) (output_file o).
Definition set_dummy v o := Opts (op o) (arg o) (o_type o) (want_hex o) v (force o) (wct o) (input_file o) (output_file o).
Definition set_force v o := Opts (op o) (arg o) (o_type o) (want_hex o) (dummy o) v (wct o) (input_file o) (output_file o).
Definition set_wct v o := Opts (op o) (arg o) (o_type o) (want_hex o) (dummy o) (force o) v (input_file o) (output_file o).
Definition set_input v o := Opts (op o) (arg o) (o_type o) (want_hex o) (dummy o) (force o) (wct o) v (output_file o).
Definition set_output v o := Opts (op o) (arg o) (o_type o) (want_hex o) (dummy o) (force o) (wct o) (input_file o) v.
Definition set_op c a o := Opts c a (o_type o) (want_hex o) (dummy o) (force o) (wct o) (input_file o) (output_file o).

Definition option_step (x : ascii * option cstr) (o : opts) : W opts :=
  let '(c, optarg) := x in
  if bool_decide (c = "1"%char) then
    usage_if (negb (bool_decide (optarg = Some (str "6"))));;
    die_if (negb (o_type o =? 0));;
    mret (set_type EEPROM_TYPE_16BIT_ADDR o)
  else if bool_decide (c = "x"%char) then mret (set_hex (want_hex o + 1) o)
  else if bool_decide (c = "d"%char) then mret (set_dummy (dummy o + 1) o)
  else if bool_decide (c = "8"%char) then
    die_if (negb (o_type o =? 0));; mret (set_type EEPROM_TYPE_8BIT_ADDR o)
  else if bool_decide (c = "f"%char) then mret (set_force (force o + 1) o)
  else if bool_decide (c = "q"%char) then mret o
  else if bool_decide (c = "h"%char) then usage_if true;; mret o
  else if bool_decide (c = "t"%char) then
    '(r, v, _) ← parse_arg optarg;
    let t := default (wct o) v in
    die_if (negb (r =? 1) || (t <? 0));; mret (set_wct t o)
  else if bool_decide (c = "i"%char) then mret (set_input optarg o)
  else if bool_decide (c = "o"%char) then mret (set_output optarg o)
  else die_if (bool_decide (op o ≠ None));; mret (set_op (Some c) optarg o).
Fixpoint option_loop (l : list (ascii * option cstr)) (o : opts) : W opts :=
  match l with [] => mret o | x :: l => o ← option_step x o; option_loop l o end.

(** The device and the i2c address, from the operands or the environment. *)
Definition operands (v : env) (l : list cstr) : W (option cstr * option cstr) :=
  match l with
  | [] => mret (getenv_dev v, getenv_addr v)
  | [a] => mret (if stat_ok v a then (Some a, getenv_addr v) else (getenv_dev v, Some a))
  | [d; a] => mret (Some d, Some a)
  | _ => usage_if true;; mret (None, None)
  end.

(** What is done once the arguments are known; [memaddr] and [size] as parsed. *)
Definition run (v : env) (o : opts) (device : cstr) (i2c_addr memaddr size : Z) : W Z :=
  if negb (dummy o =? 0) then mret 0
  else
    input ← (match input_file o with
             | Some f => die_if (bool_decide (read_file v f = None));; of_opt (read_file v f)
             | None => mret (stdin v) end);
    (match output_file o with Some f => die_if (negb (can_create v f)) | None => mret () end);;
    '(r, e) ← eeprom_open v device i2c_addr (if o_type o =? 0 then EEPROM_TYPE_8BIT_ADDR else o_type o) (wct o);
    die_if3 (r <? 0) 2;;
    (if bool_decide (op o = Some "r"%char) then
       (if force o =? 0 then die_if (negb (tty_stdin v)) else mret ());;
       read_from_eeprom e memaddr size (want_hex o);; mret ()
     else if bool_decide (op o = Some "w"%char) then
       (if force o =? 0 then die_if (tty_input v);; die_if (negb (tty_stdin v)) else mret ());;
       write_to_eeprom e input memaddr;; mret ()
     else usage_if true);;
    mret 0.

(** [memaddr] is not initialised before [parse_arg]. *)
Definition main (v : env) (garbage : Z) (args : list cstr) : W Z :=
  let '(l, rest) := getopt args in
  o ← option_loop l init_opts;
  usage_if (bool_decide (op o = None));;
  '(device, i2c_addr_s) ← operands v rest;
  usage_if (bool_decide (device = None) || bool_decide (i2c_addr_s = None));;
  device ← of_opt device;
  '(r, a, _) ← parse_arg i2c_addr_s;
  let i2c_addr := default garbage a in
  die_if (negb (r =? 1) || (i2c_addr <? 0));;
  '(ret, m, s) ← parse_arg (arg o);
  let memaddr := default garbage m in
  let size := default 1 s in
  die_if (bool_decide (op o = Some "r"%char) && ((ret =? -1) || (memaddr <? 0) || (size <? 0)));;
  die_if (bool_decide (op o = Some "w"%char) && (negb (ret =? 1) || (memaddr <? 0)));;
  run v o device i2c_addr memaddr size.
End tool.
Arguments world : clear implicits.

(** ** What a 24Cxx chip promises

    In the mode [type] the tool addresses [span type] bytes.  The requests it
    makes: storing a byte, setting the chip's address counter, and reading the
    byte the counter points to. *)
Definition span (type : Z) : Z := if type =? EEPROM_TYPE_8BIT_ADDR then 256 else 65536.

Section requests.
Context {B : Type} `{SMBus B}.
Definition store_request (type a v : Z) (d : list Z) : M B (Z * list Z) :=
  if type =? EEPROM_TYPE_8BIT_ADDR then
    i2c_smbus_access I2C_SMBUS_WRITE a I2C_SMBUS_BYTE_DATA (put_byte v d)
  else i2c_smbus_access I2C_SMBUS_WRITE (a / 256) I2C_SMBUS_WORD_DATA (put_word (256 * v + a mod 256) d).
Definition seek_request (type a : Z) (d : list Z) : M B (Z * list Z) :=
  if type =? EEPROM_TYPE_8BIT_ADDR then i2c_smbus_access I2C_SMBUS_WRITE a I2C_SMBUS_BYTE d
  else i2c_smbus_access I2C_SMBUS_WRITE (a / 256) I2C_SMBUS_BYTE_DATA (put_byte (a mod 256) d).
Definition fetch_request (d : list Z) : M B (Z * list Z) :=
  i2c_smbus_access I2C_SMBUS_READ 0 I2C_SMBUS_BYTE d.
End requests.

(** The state has cells and a counter; [chip_inv] holds of the states of a
    working chip.  It reports every function the tool asks for. *)
Class Eeprom24 (B : Type) `{SMBus B} (type : Z) := {
  chip_inv : B → Prop;
  cell : B → Z → Z;
  counter : B → Z;
  type_known : type = EEPROM_TYPE_8BIT_ADDR ∨ type = EEPROM_TYPE_16BIT_ADDR;
  has_funcs b : chip_inv b → Z.land (i2c_funcs b) 0x007e0000 = 0x007e0000;
  cell_byte b a : chip_inv b → 0 ≤ a < span type → byte (cell b a);
  store_law b a v d : chip_inv b → 0 ≤ a < span type → byte v → data_ok d →
    ∃ d' b', store_request type a v d b = Done (0, d') b' ∧ chip_inv b' ∧
      ∀ a', 0 ≤ a' < span type → cell b' a' = if a' =? a then v else cell b a';
  seek_law b a d : chip_inv b → 0 ≤ a < span type → data_ok d →
    ∃ d' b', seek_request type a d b = Done (0, d') b' ∧ chip_inv b' ∧ counter b' = a ∧
      ∀ a', 0 ≤ a' < span type → cell b' a' = cell b a';
  fetch_law b d : chip_inv b → 0 ≤ counter b < span type → data_ok d →
    ∃ d' b', fetch_request d b = Done (0, d') b' ∧ chip_inv b' ∧ data_byte d' = cell b (counter b) ∧
      ∀ a', 0 ≤ a' < span type → cell b' a' = cell b a'
}.

(** ** The tool on any such chip *)
Lemma low8 a : Z.land a 0xff = a mod 256.
Proof. change 0xff with (Z.ones 8). by rewrite Z.land_ones by lia. Qed.

Lemma split_addr a : Z.land (Z.shiftr (u16 a) 8) 0xff = (a mod 65536) / 256 ∧
  Z.land (u16 a) 0xff = (a mod 65536) mod 256 ∧ (a mod 65536) mod 256 = a mod 256.
Proof.
  unfold u16. rewrite !low8, Z.shiftr_div_pow2 by lia. change (2 ^ 8) with 256.
  pose proof (Z.mod_pos_bound a 65536 ltac:(lia)).
  assert (a mod 65536 / 256 < 256) by (apply Z.div_lt_upper_bound; lia).
  pose proof (Z.div_pos (a mod 65536) 256 ltac:(lia) ltac:(lia)).
  rewrite (Z.mod_small (a mod 65536 / 256)) by lia. split; [done|]. split; [done|].
  rewrite <-Znumtheory.Zmod_div_mod; [done|lia|lia|]. by exists 256.
Qed.

Lemma word_of v lo : byte v → 0 ≤ lo < 256 → Z.lor (Z.shiftl v 8) lo = 256 * v + lo.
Proof.
  intros [? ?] Hlo. rewrite Z.shiftl_mul_pow2 by lia. change (2 ^ 8) with 256. rewrite (Z.mul_comm v).
  assert (Hl : Z.land (256 * v) lo = 0).
  { apply Z.bits_inj'. intros n Hn. rewrite Z.land_spec, Z.bits_0. change 256 with (2 ^ 8).
    destruct (decide (n < 8)).
    - rewrite Z.mul_comm, Z.mul_pow2_bits_low by lia. done.
    - assert (Z.testbit lo n = false) as -> by (eapply (Z.bounded_iff_bits_nonneg 8 lo); lia). by rewrite andb_false_r. }
  by rewrite (Z.add_nocarry_lxor _ _ Hl), (Z.lxor_lor _ _ Hl).
Qed.

(** What a whole write leaves in the cells: byte after byte, the address modulo
    what the mode can address. *)
Fixpoint burn (type : Z) (data : list Z) (addr : Z) (f : Z → Z) : Z → Z :=
  match data with
  | [] => f
  | v :: data => burn type data (addr + 1) (λ a, if a =? addr mod span type then v else f a)
  end.

Lemma burn_ext type data addr f g : (∀ a, 0 ≤ a < span type → f a = g a) →
  ∀ a, 0 ≤ a < span type → burn type data addr f a = burn type data addr g a.
Proof.
  revert addr f g. induction data as [|v data IH]; intros addr f g Hfg; [done|]. cbn [burn]. apply IH.
  intros a Ha. by rewrite Hfg.
Qed.

(** A cell that the rest of a write does not reach. *)
Lemma burn_other type data addr f a :
  (∀ i, 0 ≤ i < Z.of_nat (length data) → a ≠ (addr + i) mod span type) → burn type data addr f a = f a.
Proof.
  revert addr f. induction data as [|v data IH]; intros addr f H; [done|]. cbn [burn length] in *.
  rewrite IH.
  - destruct (Z.eqb_spec a (addr mod span type)) as [E|]; [|done]. exfalso. apply (H 0); [lia|]. by rewrite Z.add_0_r.
  - intros i Hi. specialize (H (i + 1)). rewrite <-Z.add_assoc, (Z.add_comm 1). apply H. lia.
Qed.

Lemma mod_apart s a i j : 0 < s → 0 ≤ i < j → j - i < s → (a + i) mod s ≠ (a + j) mod s.
Proof.
  intros Hs Hij Hd E. assert (((a + j) - (a + i)) mod s = 0) as Hz.
  { rewrite Zminus_mod, E, Z.sub_diag. by rewrite Z.mod_0_l by lia. }
  replace (a + j - (a + i)) with (j - i) in Hz by lia. rewrite Z.mod_small in Hz by lia. lia.
Qed.

(** What was written is there, as long as it is not more than the mode can
    address. *)
Lemma burn_at type data addr f i v : 0 < span type → Z.of_nat (length data) ≤ span type → data !! i = Some v →
  burn type data addr f ((addr + Z.of_nat i) mod span type) = v.
Proof.
  intros Hs. revert addr f i. induction data as [|w data IH]; intros addr f i Hl Hi; [done|].
  cbn [burn length] in *. destruct i as [|i].
  - cbn in Hi. simplify_eq. rewrite Z.add_0_r. rewrite burn_other.
    + by rewrite Z.eqb_refl.
    + intros i Hi. pose proof (mod_apart (span type) addr 0 (1 + i) Hs ltac:(lia) ltac:(lia)) as Hne.
      rewrite Z.add_0_r in Hne. by rewrite <-Z.add_assoc.
  - cbn in Hi. replace (addr + Z.of_nat (S i)) with (addr + 1 + Z.of_nat i) by lia. apply IH; [lia|done].
Qed.

Section any_chip.
Context {B : Type} `{!SMBus B} (type : Z) `{!Eeprom24 B type}.
Variable junk : list Z.
Variable long_bits : Z.
Hypothesis junk_ok : data_ok junk.
Abbreviation cell := (cell (B := B) (type := type)).
Abbreviation counter := (counter (B := B) (type := type)).
Abbreviation chip_inv := (chip_inv (B := B) (type := type)).

Lemma span_pos : 0 < span type.
Proof. unfold span. by destruct (type =? EEPROM_TYPE_8BIT_ADDR). Qed.

(** The tool's access functions make the chip's requests. *)
Lemma write_byte_spec e addr v b : e_type e = type → chip_inv b → byte v →
  ∃ b', eeprom_write_byte junk e addr v b = Done 0 b' ∧ chip_inv b' ∧
    ∀ a', 0 ≤ a' < span type → cell b' a' = if a' =? addr mod span type then v else cell b a'.
Proof.
  intros Ht Hb Hv. pose proof (Z.mod_pos_bound addr (span type) span_pos) as Ha.
  destruct (store_law b (addr mod span type) v junk Hb Ha Hv junk_ok) as (d' & b' & E & Hb' & Hc).
  exists b'. split; [|done]. revert E. unfold eeprom_write_byte, store_request, span. rewrite Ht.
  destruct (split_addr addr) as (E1 & E2 & E3). rewrite (u8_small v) by done.
  destruct type_known as [Hty|Hty]; rewrite Hty.
  - change (EEPROM_TYPE_8BIT_ADDR =? EEPROM_TYPE_8BIT_ADDR) with true. cbv iota. rewrite E2, E3.
    intros E. unfold i2c_write_2b, i2c_smbus_write_byte_data. by mstep E.
  - change (EEPROM_TYPE_16BIT_ADDR =? EEPROM_TYPE_8BIT_ADDR) with false.
    change (EEPROM_TYPE_16BIT_ADDR =? EEPROM_TYPE_16BIT_ADDR) with true. cbv iota. rewrite E1, E2, E3.
    intros E. unfold i2c_write_3b, i2c_smbus_write_word_data.
    rewrite word_of by (done || (apply Z.mod_pos_bound; lia)). by mstep E.
Qed.

Lemma read_byte_spec e addr b : e_type e = type → chip_inv b →
  ∃ b', eeprom_read_byte junk e addr b = Done (cell b (addr mod span type)) b' ∧ chip_inv b' ∧
    ∀ a', 0 ≤ a' < span type → cell b' a' = cell b a'.
Proof.
  intros Ht Hb. pose proof (Z.mod_pos_bound addr (span type) span_pos) as Ha.
  destruct (seek_law b (addr mod span type) junk Hb Ha junk_ok) as (d1 & b1 & E1 & Hb1 & Hp & Hc1).
  destruct (fetch_law b1 junk Hb1 ltac:(by rewrite Hp) junk_ok) as (d2 & b2 & E2 & Hb2 & Hd & Hc2).
  exists b2. split; [|split; [done|intros a' Ha'; by rewrite Hc2, Hc1]].
  rewrite Hp, Hc1 in Hd by done.
  assert (Er : i2c_smbus_read_byte junk b1 = Done (cell b (addr mod span type)) b2).
  { unfold i2c_smbus_read_byte. unfold fetch_request in E2. mstep E2. cbn [negb]. rewrite Hd, Z.land_comm, low8.
    change (negb (0 =? 0)) with false. cbv iota. rewrite Z.mod_small by (by apply cell_byte). done. }
  revert Er E1. generalize (cell b (addr mod span type)) as c. intros c Er. clear -Ht Er Eeprom25.
  unfold eeprom_read_byte, seek_request, span. rewrite Ht. destruct (split_addr addr) as (A1 & A2 & A3).
  assert (Hgo : ∀ cmd : M B Z, cmd b = Done 0 b1 →
    (r ← (Some <$> cmd); match r with None => mret (-1) | Some r => if r <? 0 then mret r else i2c_smbus_read_byte junk end) b =
    Done c b2).
  { intros cmd Ec. by rewrite (bind_done _ _ _ _ _ (fmap_done Some cmd b 0 b1 Ec)). }
  destruct type_known as [Hty|Hty]; rewrite Hty in *.
  - change (EEPROM_TYPE_8BIT_ADDR =? EEPROM_TYPE_8BIT_ADDR) with true in *. cbv iota. rewrite A2, A3.
    intros E. apply Hgo. unfold i2c_write_1b, i2c_smbus_write_byte. by mstep E.
  - change (EEPROM_TYPE_16BIT_ADDR =? EEPROM_TYPE_8BIT_ADDR) with false in *.
    change (EEPROM_TYPE_16BIT_ADDR =? EEPROM_TYPE_16BIT_ADDR) with true. cbv iota. rewrite A1, A2, A3.
    intros E. apply Hgo. unfold i2c_write_2b, i2c_smbus_write_byte_data. by mstep E.
Qed.

(** Writing a file and reading it. *)
Lemma write_file_spec e data addr b o : e_type e = type → chip_inv b → Forall byte data →
  ∃ b', write_to_eeprom junk e data addr (World b o) = Done 0 (World b' o) ∧ chip_inv b' ∧
    ∀ a', 0 ≤ a' < span type → cell b' a' = burn type data addr (cell b) a'.
Proof.
  intros Ht. revert addr b. induction data as [|v data IH]; intros addr b Hb Hd; [by exists b|].
  apply Forall_cons in Hd as [Hv Hd]. cbn [write_to_eeprom burn].
  destruct (write_byte_spec e addr v b Ht Hb Hv) as (b1 & E & Hb1 & Hc1).
  assert (Ez : on_bus (eeprom_write_byte junk e addr v) (World b o) = Done 0 (World b1 o)).
  { unfold on_bus, zoom. cbn [bus]. by rewrite E. }
  mstep Ez. unfold die_if, die_if3. cbn [negb Z.eqb]. rewrite bind_ret.
  destruct (IH (addr + 1) b1 Hb1 Hd) as (b' & -> & Hb' & Hc'). exists b'. split; [done|]. split; [done|].
  intros a' Ha'. rewrite Hc' by done. apply burn_ext; [|done]. intros a Ha. by rewrite Hc1.
Qed.

(** The bytes of the cells from [addr] on. *)
Definition cells (b : B) (addr : Z) (n : nat) : list Z := (λ i, cell b ((addr + Z.of_nat i) mod span type)) <$> seq 0 n.

Lemma cells_S b b1 addr n : (∀ a', 0 ≤ a' < span type → cell b1 a' = cell b a') →
  cells b addr (S n) = cell b (addr mod span type) :: cells b1 (addr + 1) n.
Proof.
  intros Hc. unfold cells. cbn [seq]. rewrite <-fmap_S_seq, fmap_cons, Z.add_0_r, <-list_fmap_compose. f_equal.
  apply list_fmap_ext. intros j x _. cbn [compose].
  rewrite Hc by (apply Z.mod_pos_bound, span_pos). do 2 f_equal. lia.
Qed.

Lemma read_loop_spec e n i addr b o : e_type e = type → chip_inv b →
  ∃ b', read_loop junk n e i addr 0 (World b o) = Done () (World b' (o ++ (char <$> cells b addr n))) ∧ chip_inv b' ∧
    ∀ a', 0 ≤ a' < span type → cell b' a' = cell b a'.
Proof.
  intros Ht. revert i addr b o. induction n as [|n IH]; intros i addr b o Hb.
  { exists b. cbn. by rewrite app_nil_r. }
  cbn [read_loop]. destruct (read_byte_spec e addr b Ht Hb) as (b1 & E & Hb1 & Hc1).
  pose proof (Z.mod_pos_bound addr (span type) span_pos) as Ha.
  pose proof (cell_byte b _ Hb Ha) as Hcb. unfold byte in Hcb.
  assert (Ez : on_bus (eeprom_read_byte junk e addr) (World b o) = Done (cell b (addr mod span type)) (World b1 o)).
  { unfold on_bus, zoom. cbn [bus]. by rewrite E. }
  mstep Ez. unfold die_if, die_if3. destruct (Z.ltb_spec (cell b (addr mod span type)) 0); [lia|].
  rewrite bind_ret. change (negb (0 =? 0)) with false. cbv iota. unfold put. rewrite bind_modify. cbn [bus out].
  destruct (IH (i + 1) (addr + 1) b1 (o ++ [char (cell b (addr mod span type))]) Hb1) as (b' & -> & Hb' & Hc').
  exists b'. split; [|split; [done|intros a' Ha'; by rewrite Hc', Hc1]].
  rewrite <-app_assoc. by rewrite (cells_S b b1 addr n Hc1).
Qed.

Lemma check_func b label o : chip_inv b → Z.land 0x007e0000 label = label → (label =? 0) = false →
  CHECK_I2C_FUNC (i2c_funcs b) label (World b o) = Done () (World b o).
Proof.
  intros Hb Hm Hl. unfold CHECK_I2C_FUNC. assert (Z.land (i2c_funcs b) label = label) as ->.
  { rewrite <-Hm at 1. rewrite Z.land_assoc, has_funcs by done. done. }
  by rewrite Hl.
Qed.

Lemma eeprom_open_spec v dev a w b o : chip_inv b → 0 < open_fd v dev → 0 ≤ funcs_ret v → 0 ≤ slave_ret v a →
  eeprom_open v dev a type w (World b o) = Done (0, Eeprom (Some dev) a (open_fd v dev) type w) (World b o).
Proof.
  intros Hb H1 H2 H3. unfold eeprom_open. destruct (Z.leb_spec (open_fd v dev) 0); [lia|].
  destruct (Z.ltb_spec (funcs_ret v) 0); [lia|]. rewrite bind_gets. cbn [bus].
  mstep (check_func b I2C_FUNC_SMBUS_READ_BYTE o Hb eq_refl eq_refl).
  mstep (check_func b I2C_FUNC_SMBUS_WRITE_BYTE o Hb eq_refl eq_refl).
  mstep (check_func b I2C_FUNC_SMBUS_READ_BYTE_DATA o Hb eq_refl eq_refl).
  mstep (check_func b I2C_FUNC_SMBUS_WRITE_BYTE_DATA o Hb eq_refl eq_refl).
  mstep (check_func b I2C_FUNC_SMBUS_READ_WORD_DATA o Hb eq_refl eq_refl).
  mstep (check_func b I2C_FUNC_SMBUS_WRITE_WORD_DATA o Hb eq_refl eq_refl).
  destruct (Z.ltb_spec (slave_ret v a) 0); [lia|done].
Qed.

(** The environment of a run that can get at the chip. *)
Definition env_ok (v : env) (dev : cstr) (a : Z) : Prop :=
  0 < open_fd v dev ∧ 0 ≤ funcs_ret v ∧ 0 ≤ slave_ret v a.

Lemma run_write v o dev a memaddr size data f b w : chip_inv b → env_ok v dev a → o_type o = type →
  dummy o = 0 → force o ≠ 0 → op o = Some "w"%char → input_file o = Some f → output_file o = None →
  read_file v f = Some data → Forall byte data →
  ∃ b', run junk v o dev a memaddr size (World b w) = Done 0 (World b' w) ∧ chip_inv b' ∧
    ∀ a', 0 ≤ a' < span type → cell b' a' = burn type data memaddr (cell b) a'.
Proof.
  intros Hb (H1 & H2 & H3) Ht Hdum Hfor Hop Hin Hout Hread Hd. unfold run.
  rewrite Hdum, Hin, Hout, Hread, Hop, Ht. change (negb (0 =? 0)) with false. cbv iota.
  assert (Hne : (type =? 0) = false).
  { destruct type_known as [E|E]; rewrite E; done. }
  rewrite Hne. rewrite bool_decide_eq_false_2 by done. cbn [die_if die_if3].
  assert (E0 : (die_if false;; of_opt (Some data)) (World b w) = Done data (World b w)) by done.
  mstep E0. rewrite bind_ret. mstep (eeprom_open_spec v dev a (wct o) b w Hb H1 H2 H3).
  change (0 <? 0) with false. cbn [die_if3]. rewrite bind_ret.
  rewrite bool_decide_eq_true_2 by done.
  destruct (Z.eqb_spec (force o) 0); [done|].
  set (e := Eeprom _ _ _ _ _). destruct (write_file_spec e data memaddr b w eq_refl Hb Hd) as (b' & E & Hb' & Hc).
  exists b'. split; [|done]. unfold mbind at 1, M_bind at 1. rewrite bind_ret. by mstep E.
Qed.

Lemma run_read v o dev a memaddr size b w : chip_inv b → env_ok v dev a → o_type o = type →
  dummy o = 0 → force o ≠ 0 → want_hex o = 0 → op o = Some "r"%char → input_file o = None → output_file o = None →
  ∃ b', run junk v o dev a memaddr size (World b w) =
    Done 0 (World b' (w ++ (char <$> cells b memaddr (Z.to_nat size)))) ∧ chip_inv b' ∧
    ∀ a', 0 ≤ a' < span type → cell b' a' = cell b a'.
Proof.
  intros Hb (H1 & H2 & H3) Ht Hdum Hfor Hhex Hop Hin Hout. unfold run.
  rewrite Hdum, Hin, Hout, Hop, Ht. change (negb (0 =? 0)) with false. cbv iota.
  assert (Hne : (type =? 0) = false).
  { destruct type_known as [E|E]; rewrite E; done. }
  rewrite Hne. rewrite !bind_ret. mstep (eeprom_open_spec v dev a (wct o) b w Hb H1 H2 H3).
  change (0 <? 0) with false. cbn [die_if3]. rewrite bind_ret. rewrite bool_decide_eq_true_2 by done.
  destruct (Z.eqb_spec (force o) 0); [done|].
  set (e := Eeprom _ _ _ _ _).
  destruct (read_loop_spec e (Z.to_nat size) 0 memaddr b w eq_refl Hb) as (b' & E & Hb' & Hc).
  exists b'. split; [|done]. rewrite Hhex.
  assert (Er : read_from_eeprom junk e memaddr size 0 (World b w) =
    Done 0 (World b' (w ++ (char <$> cells b memaddr (Z.to_nat size))))).
  { unfold read_from_eeprom. by mstep E. }
  unfold mbind at 1, M_bind at 1. rewrite bind_ret. by mstep Er.
Qed.

Lemma cells_burnt b b' data addr : Z.of_nat (length data) ≤ span type →
  (∀ a', 0 ≤ a' < span type → cell b' a' = burn type data addr (cell b) a') →
  cells b' addr (length data) = data.
Proof.
  intros Hl Hc. apply list_eq. intros i. unfold cells. rewrite list_lookup_fmap.
  destruct (decide (i < length data)%nat) as [Hi|Hi].
  - destruct (lookup_lt_is_Some_2 data i Hi) as [v Hv]. rewrite Hv. rewrite lookup_seq_lt by done. cbn.
    rewrite Hc by (apply Z.mod_pos_bound, span_pos). by rewrite (burn_at type data addr _ i v span_pos Hl Hv).
  - rewrite lookup_seq_ge by lia. cbn. symmetry. apply lookup_ge_None_2. lia.
Qed.
End any_chip.

(** ** Command lines *)
Lemma getopt_operand a args : head a ≠ Some "-"%char →
  getopt (a :: args) = let '(l, o) := getopt args in (l, a :: o).
Proof.
  intros Ha. cbn [getopt]. destruct a as [|d [|c s]]; [done|done|].
  rewrite bool_decide_eq_false_2 by (intros ->; by apply Ha). done.
Qed.

(** The option that selects the mode. *)
Definition mode_arg (type : Z) : cstr := if type =? EEPROM_TYPE_8BIT_ADDR then str "-8" else str "-16".
Definition mode_option (type : Z) : ascii * option cstr :=
  if type =? EEPROM_TYPE_8BIT_ADDR then ("8"%char, None) else ("1"%char, Some (str "6")).

Lemma getopt_flag c args : takes_arg c = Some false →
  getopt (["-"%char; c] :: args) = let '(l, o) := getopt args in ((c, None) :: l, o).
Proof.
  intros Hc. cbn [getopt]. rewrite bool_decide_eq_true_2 by done. cbn [negb cluster]. rewrite Hc.
  rewrite bool_decide_eq_false_2; [by destruct (getopt args)|]. intros [= ->]. by vm_compute in Hc.
Qed.
Lemma getopt_value c v args : takes_arg c = Some true →
  getopt (["-"%char; c] :: v :: args) = let '(l, o) := getopt args in ((c, Some v) :: l, o).
Proof.
  intros Hc. cbn [getopt]. rewrite bool_decide_eq_true_2 by done. cbn [negb cluster]. rewrite Hc.
  rewrite bool_decide_eq_false_2; [by destruct (getopt args)|]. intros [= ->]. by vm_compute in Hc.
Qed.
Lemma getopt_unknown c args : takes_arg c = None → c ≠ "-"%char →
  getopt (["-"%char; c] :: args) = let '(l, o) := getopt args in (("?"%char, None) :: l, o).
Proof.
  intros Hc Hne. cbn [getopt]. rewrite bool_decide_eq_true_2 by done. cbn [negb cluster]. rewrite Hc.
  rewrite bool_decide_eq_false_2; [by destruct (getopt args)|]. by intros [= ->].
Qed.
Lemma getopt_16 args :
  getopt (str "-16" :: args) = let '(l, o) := getopt args in (("1"%char, Some (str "6")) :: l, o).
Proof. done. Qed.
Lemma getopt_mode type args :
  getopt (mode_arg type :: args) = let '(l, o) := getopt args in (mode_option type :: l, o).
Proof.
  unfold mode_arg, mode_option. destruct (type =? EEPROM_TYPE_8BIT_ADDR); [by apply getopt_flag|apply getopt_16].
Qed.

Lemma getopt_write type w f dev a : head dev ≠ Some "-"%char → head a ≠ Some "-"%char →
  getopt [mode_arg type; str "-w"; w; str "-f"; str "-i"; f; dev; a] =
  ([mode_option type; ("w"%char, Some w); ("f"%char, None); ("i"%char, Some f)], [dev; a]).
Proof.
  intros Hd Ha. rewrite getopt_mode. unfold str. cbn [list_ascii_of_string].
  by rewrite getopt_value, getopt_flag, getopt_value, !getopt_operand.
Qed.

Lemma getopt_read type r dev a : head dev ≠ Some "-"%char → head a ≠ Some "-"%char →
  getopt [mode_arg type; str "-r"; r; str "-f"; dev; a] =
  ([mode_option type; ("r"%char, Some r); ("f"%char, None)], [dev; a]).
Proof.
  intros Hd Ha. rewrite getopt_mode. unfold str. cbn [list_ascii_of_string].
  by rewrite getopt_value, getopt_flag, !getopt_operand.
Qed.

Section command_lines.
Context {B : Type} `{!SMBus B} (type : Z) `{!Eeprom24 B type}.
Variable junk : list Z.
Variable long_bits : Z.
Hypothesis junk_ok : data_ok junk.
Abbreviation main := (main junk long_bits).
Abbreviation parse := (parse_arg_str long_bits).

(** From the options to the work: the arguments are numbers. *)
Lemma main_runs v g args l o dev a i2c arg_s ret m sz (w : world B) :
  getopt args = (l, [dev; a]) → option_loop long_bits l init_opts w = Done o w →
  parse a = (1, Some i2c, None) → 0 ≤ i2c → arg o = Some arg_s → parse arg_s = (ret, Some m, sz) → 0 ≤ m →
  (op o = Some "w"%char ∧ ret = 1 ∨ op o = Some "r"%char ∧ ret ≠ -1 ∧ 0 ≤ default 1 sz) →
  main v g args w = run junk v o dev i2c m (default 1 sz) w.
Proof.
  intros Hg Hl Ha Hi Harg Hm Hm0 Hop. unfold Eeprog.main. rewrite Hg. mstep Hl.
  assert (Hne : bool_decide (op o = None) = false) by (apply bool_decide_eq_false_2; destruct Hop as [[-> _]|[-> _]]; done).
  rewrite Hne. cbn [usage_if operands]. rewrite !bind_ret. rewrite (bool_decide_eq_false_2 (Some dev = None)), (bool_decide_eq_false_2 (Some a = None)) by done. cbn [orb usage_if].
  rewrite bind_ret, bind_of_opt. unfold parse_arg.
  assert (Ep : ∀ s r, parse s = r → (arg ← of_opt (Some s); mret (parse arg)) w = Done r w) by (by intros s r <-).
  assert (Ed : ∀ A (k : unit → M (world B) A) c, c = false → (die_if c ≫= k) w = k () w) by (by intros A k c ->).
  mstep (Ep a _ Ha). cbn [from_option id]. rewrite Ed by (destruct (Z.ltb_spec i2c 0); [lia|done]).
  rewrite Harg. mstep (Ep arg_s _ Hm). cbn [from_option id].
  destruct (Z.ltb_spec m 0); [lia|].
  destruct Hop as [[-> ->]|(-> & Hret & Hsz)]; (rewrite !Ed; [done|..]); try done.
  - destruct (Z.eqb_spec ret (-1)); [done|]. destruct (Z.ltb_spec (default 1 sz) 0); [lia|]. by rewrite andb_false_r.
Qed.

Lemma options_write w_s f (w : world B) :
  option_loop long_bits [mode_option type; ("w"%char, Some w_s); ("f"%char, None); ("i"%char, Some f)] init_opts w =
  Done (Opts (Some "w"%char) (Some w_s) type 0 0 1 0 (Some f) None) w.
Proof.
  unfold mode_option. destruct type_known as [Ht|Ht]; rewrite Ht; done.
Qed.
Lemma options_read r_s (w : world B) :
  option_loop long_bits [mode_option type; ("r"%char, Some r_s); ("f"%char, None)] init_opts w =
  Done (Opts (Some "r"%char) (Some r_s) type 0 0 1 0 None None) w.
Proof.
  unfold mode_option. destruct type_known as [Ht|Ht]; rewrite Ht; done.
Qed.

Lemma write_then_read v g dev a i2c w_s r_s f memaddr data b o :
  chip_inv (type := type) b → env_ok v dev i2c → read_file v f = Some data → Forall byte data →
  Z.of_nat (length data) ≤ span type → 0 ≤ memaddr → 0 ≤ i2c →
  head dev ≠ Some "-"%char → head a ≠ Some "-"%char → parse a = (1, Some i2c, None) →
  parse w_s = (1, Some memaddr, None) → parse r_s = (2, Some memaddr, Some (Z.of_nat (length data))) →
  ∃ b' b'',
    main v g [mode_arg type; str "-w"; w_s; str "-f"; str "-i"; f; dev; a] (World b o) = Done 0 (World b' o) ∧
    main v g [mode_arg type; str "-r"; r_s; str "-f"; dev; a] (World b' o) =
      Done 0 (World b'' (o ++ (char <$> data))) ∧ chip_inv (type := type) b''.
Proof.
  intros Hb Henv Hf Hd Hlen Hm Hi Hdev Ha Hpa Hpw Hpr.
  destruct (run_write type junk junk_ok v (Opts (Some "w"%char) (Some w_s) type 0 0 1 0 (Some f) None) dev i2c memaddr 1 data f b o)
    as (b' & E1 & Hb' & Hc'); try done.
  destruct (run_read type junk junk_ok v (Opts (Some "r"%char) (Some r_s) type 0 0 1 0 None None) dev i2c memaddr
    (Z.of_nat (length data)) b' o) as (b'' & E2 & Hb'' & _); try done.
  rewrite Nat2Z.id, (cells_burnt type b b' data memaddr Hlen Hc') in E2.
  exists b', b''. split; [|split; [|done]].
  - rewrite <-E1. apply (main_runs v g _ _ _ dev a i2c w_s 1 memaddr None _ (getopt_write type w_s f dev a Hdev Ha)
      (options_write w_s f _)); try done. by left.
  - rewrite <-E2. apply (main_runs v g _ _ _ dev a i2c r_s 2 memaddr (Some (Z.of_nat (length data))) _
      (getopt_read type r_s dev a Hdev Ha) (options_read r_s _)); try done. right. split_and!; try done. cbn. lia.
Qed.
End command_lines.

(** ** The i2c-stub module is such a chip

    An address of the emulated bus, in the mode with 8-bit addresses: the low
    bytes of the 256 registers are the cells. *)
Section stub.
Variable addr : Z.

#[local] Instance stub_bus : SMBus stub := {|
  i2c_smbus_access rw command size data :=
    '(r, d) ← stub_xfer addr 0 rw command size data; mret (if r <? 0 then -1 else r, d);
  i2c_funcs s := Z.land STUB_FUNC (functionality s)
|}.

Definition stub_cell (s : stub) (a : Z) : Z :=
  match chip_at s addr with
  | Some k => match chips_of s !! k with Some c => Z.land (words c !!! Z.to_nat a) 0xff | None => 0 end
  | None => 0
  end.
Definition stub_counter (s : stub) : Z :=
  match chip_at s addr with
  | Some k => match chips_of s !! k with Some c => pointer c | None => 0 end
  | None => 0
  end.
Definition stub_inv (s : stub) : Prop :=
  stub_ok s ∧ is_Some (chip_at s addr) ∧ Z.land (functionality s) 0x007e0000 = 0x007e0000.

Lemma stub_chip_there s : stub_inv s → ∃ k c, chip_at s addr = Some k ∧ chips_of s !! k = Some c ∧ chip_ok c ∧
  (∀ a, stub_cell s a = Z.land (words c !!! Z.to_nat a) 0xff) ∧ stub_counter s = pointer c.
Proof.
  intros (Hs & [k Hk] & _). destruct (lookup_lt_is_Some_2 (chips_of s) k (chips_cover s Hs _ _ Hk)) as [c Hc].
  exists k, c. split_and!; [done|done|by apply (chip_ok_here s k c)| |].
  - intros a. unfold stub_cell. by rewrite Hk, Hc.
  - unfold stub_counter. by rewrite Hk, Hc.
Qed.

(** Updating the chip keeps the invariant, and the cells are the new chip's. *)
Lemma stub_upd s k c c' : stub_inv s → chip_at s addr = Some k → chips_of s !! k = Some c → chip_ok c' →
  stub_inv (upd k c' s) ∧ (∀ a, stub_cell (upd k c' s) a = Z.land (words c' !!! Z.to_nat a) 0xff) ∧
  stub_counter (upd k c' s) = pointer c'.
Proof.
  intros (Hs & Hat & Hf) Hk Hc Hc'. assert (Hk' : chip_at (upd k c' s) addr = Some k) by done.
  pose proof (chips_upd_same s k c c' Hc) as Hcc. split; [split; [by apply upd_ok|split; [by rewrite Hk'|done]]|].
  split; [intros a; unfold stub_cell; by rewrite Hk', Hcc|unfold stub_counter; by rewrite Hk', Hcc].
Qed.

Lemma stub_store s a v d : stub_inv s → 0 ≤ a < 256 → byte v → data_ok d →
  ∃ d' s', store_request EEPROM_TYPE_8BIT_ADDR a v d s = Done (0, d') s' ∧ stub_inv s' ∧
    ∀ a', 0 ≤ a' < 256 → stub_cell s' a' = if a' =? a then v else stub_cell s a'.
Proof.
  intros Hi Ha Hv Hd. destruct (stub_chip_there s Hi) as (k & c & Hk & Hc & Hok & Hcell & _). pose proof Hi as (Hs & _).
  unfold store_request. change (EEPROM_TYPE_8BIT_ADDR =? EEPROM_TYPE_8BIT_ADDR) with true. cbv iota.
  unfold i2c_smbus_access, stub_bus. unfold stub_xfer. unfold chip_at in Hk.
  assert (Hb : data_byte (put_byte v d) = v) by (by apply put_byte_get).
  assert (Hc1 := alter_lo_ok c (Z.to_nat a) v Hok Hv). set (c1 := StubChip _ _) in Hc1.
  assert (Hc2 : chip_ok (StubChip (u8 (a + 1)) (words c1))) by (by apply with_pointer_ok).
  destruct (stub_upd s k c _ Hi Hk Hc Hc2) as (Hi' & Hcell' & _).
  exists (put_byte v d), (upd k (StubChip (u8 (a + 1)) (words c1)) s). split; [|split; [done|]].
  - unfold mbind at 1, M_bind at 1. rewrite bind_gets, Hk.
    cbn [Z.eqb Pos.eqb I2C_SMBUS_QUICK I2C_SMBUS_BYTE I2C_SMBUS_BYTE_DATA I2C_SMBUS_WRITE].
    rewrite (bind_done _ _ s (put_byte v d) (upd k c1 s))
      by (rewrite Hb; by mstep (set_low_done s k c a v Hs Hc Hv Ha)).
    mstep (set_pointer_done _ k _ (upd_ok _ k _ Hs Hc1) (chips_upd_same s k c _ Hc) (a + 1)). by rewrite upd_upd.
  - intros a' Ha'. rewrite Hcell', Hcell. cbn [words]. unfold c1. cbn [words].
    destruct (lookup_lt_is_Some_2 (words c) (Z.to_nat a')) as [w Hw]; [rewrite (words_len c Hok); lia|].
    destruct (Z.eqb_spec a' a) as [->|Hne].
    + rewrite (list_lookup_total_correct _ _ (set_lo v w)); [by apply set_lo_low|]. by rewrite list_lookup_alter_eq, Hw.
    + rewrite !list_lookup_total_alt, list_lookup_alter_ne by lia. done.
Qed.

Lemma stub_seek s a d : stub_inv s → 0 ≤ a < 256 → data_ok d →
  ∃ d' s', seek_request EEPROM_TYPE_8BIT_ADDR a d s = Done (0, d') s' ∧ stub_inv s' ∧ stub_counter s' = a ∧
    ∀ a', 0 ≤ a' < 256 → stub_cell s' a' = stub_cell s a'.
Proof.
  intros Hi Ha Hd. destruct (stub_chip_there s Hi) as (k & c & Hk & Hc & Hok & Hcell & _). pose proof Hi as (Hs & _).
  destruct (stub_upd s k c _ Hi Hk Hc (with_pointer_ok c a Hok)) as (Hi' & Hcell' & Hp).
  exists d, (upd k (StubChip (u8 a) (words c)) s). split; [|split; [done|split]].
  - unfold seek_request. change (EEPROM_TYPE_8BIT_ADDR =? EEPROM_TYPE_8BIT_ADDR) with true. cbv iota.
    unfold i2c_smbus_access, stub_bus, stub_xfer. unfold chip_at in Hk.
    unfold mbind at 1, M_bind at 1. rewrite bind_gets, Hk.
    cbn [Z.eqb Pos.eqb I2C_SMBUS_QUICK I2C_SMBUS_BYTE I2C_SMBUS_WRITE].
    by mstep (set_pointer_done _ _ _ Hs Hc a).
  - rewrite Hp. cbn. by apply u8_small.
  - intros a' _. by rewrite Hcell', Hcell.
Qed.

Lemma stub_fetch s d : stub_inv s → data_ok d →
  ∃ d' s', fetch_request d s = Done (0, d') s' ∧ stub_inv s' ∧ data_byte d' = stub_cell s (stub_counter s) ∧
    ∀ a', 0 ≤ a' < 256 → stub_cell s' a' = stub_cell s a'.
Proof.
  intros Hi Hd. destruct (stub_chip_there s Hi) as (k & c & Hk & Hc & Hok & Hcell & Hcnt). pose proof Hi as (Hs & _).
  destruct (stub_upd s k c _ Hi Hk Hc (with_pointer_ok c (pointer c + 1) Hok)) as (Hi' & Hcell' & _).
  destruct (read_byte_done s k c d Hs Hc) as (w & Hw & E).
  exists (put_byte (Z.land w 0xff) d), (upd k (StubChip (u8 (pointer c + 1)) (words c)) s). split; [|split; [done|split]].
  - unfold fetch_request, i2c_smbus_access, stub_bus, stub_xfer. unfold chip_at in Hk.
    unfold mbind at 1, M_bind at 1. rewrite bind_gets, Hk.
    cbn [Z.eqb Pos.eqb I2C_SMBUS_QUICK I2C_SMBUS_BYTE I2C_SMBUS_WRITE I2C_SMBUS_READ].
    rewrite E. done.
  - rewrite Hcnt, Hcell, put_byte_get by done. f_equal. symmetry. by apply list_lookup_total_correct.
  - intros a' _. by rewrite Hcell', Hcell.
Qed.

#[local] Instance stub_eeprom : Eeprom24 stub EEPROM_TYPE_8BIT_ADDR.
Proof.
  refine {| chip_inv := stub_inv; cell := stub_cell; counter := stub_counter |}.
  - by left.
  - intros s (_ & _ & Hf). cbn [i2c_funcs stub_bus]. rewrite <-Z.land_assoc, Hf. done.
  - intros s a Hi _. destruct (stub_chip_there s Hi) as (k & c & _ & _ & _ & -> & _). apply low_byte.
  - intros. by apply stub_store.
  - intros. by apply stub_seek.
  - intros s d Hi _ Hd. by apply stub_fetch.
Defined.

(** Of the states of the loaded module, when it was loaded with the address and
    all the functions. *)
Lemma stub_states_inv addrs f s : bus_states addrs f s → is_Some (chip_at s addr) →
  Z.land (functionality s) 0x007e0000 = 0x007e0000 → stub_inv s.
Proof. intros Hs Hk Hf. destruct (bus_states_ok _ _ _ Hs) as (? & _). by split_and!. Qed.
End stub.

(** C19: writing a file and reading it back with two command lines gives the
    file, for every chip that keeps the promises of [Eeprom24], in either mode,
    for every start address and every content that is not larger than what the
    mode can address (also when the address runs over its end). *)
Theorem eeprog_write_then_read {B} `{!SMBus B} type `{!Eeprom24 B type} junk long_bits v g
    dev a i2c w_s r_s f memaddr data b o :
  data_ok junk → chip_inv (type := type) b → env_ok v dev i2c → read_file v f = Some data → Forall byte data →
  Z.of_nat (length data) ≤ span type → 0 ≤ memaddr → 0 ≤ i2c →
  head dev ≠ Some "-"%char → head a ≠ Some "-"%char → parse_arg_str long_bits a = (1, Some i2c, None) →
  parse_arg_str long_bits w_s = (1, Some memaddr, None) →
  parse_arg_str long_bits r_s = (2, Some memaddr, Some (Z.of_nat (length data))) →
  ∃ b' b'',
    main junk long_bits v g [mode_arg type; str "-w"; w_s; str "-f"; str "-i"; f; dev; a] (World b o) =
      Done 0 (World b' o) ∧
    main junk long_bits v g [mode_arg type; str "-r"; r_s; str "-f"; dev; a] (World b' o) =
      Done 0 (World b'' (o ++ (char <$> data))) ∧ chip_inv (type := type) b''.
Proof. intros. by apply (write_then_read type junk long_bits ltac:(done) v g dev a i2c w_s r_s f memaddr data b o). Qed.

(** On the emulated bus with a chip at 0x50, from address 0xfe over the end. *)
Definition ex_env : env :=
  Env None None (λ _, false) (λ _, Some [1; 2; 3; 255]) (λ _, false) [] false false (λ _, 3) 0 (λ _, 0).
Lemma eeprog_write_then_read_witness : ∃ b' b'',
  @main stub (stub_bus 0x50) (replicate 34 0) 64 ex_env 0
    [str "-8"; str "-w"; str "0xfe"; str "-f"; str "-i"; str "in"; str "/dev/i2c-0"; str "0x50"] (World ex_bus []) =
    Done 0 (World b' []) ∧
  @main stub (stub_bus 0x50) (replicate 34 0) 64 ex_env 0
    [str "-8"; str "-r"; str "0xfe:4"; str "-f"; str "/dev/i2c-0"; str "0x50"] (World b' []) =
    Done 0 (World b'' (char <$> [1; 2; 3; 255])) ∧ stub_inv 0x50 b''.
Proof.
  apply (@eeprog_write_then_read stub (stub_bus 0x50) EEPROM_TYPE_8BIT_ADDR (stub_eeprom 0x50) (replicate 34 0) 64 ex_env 0
    (str "/dev/i2c-0") (str "0x50") 0x50 (str "0xfe") (str "0xfe:4") (str "in") 0xfe [1; 2; 3; 255] ex_bus []).
  - apply data_okb; by vm_compute.
  - apply (stub_states_inv 0x50 ex_addrs STUB_FUNC ex_bus ex_bus_loaded); [|done]. by exists 1%nat.
  - repeat split; simpl; lia.
  - done.
  - repeat (apply Forall_cons_2; [unfold byte; lia|]). apply Forall_nil_2.
  - change (4 ≤ 256). lia.
  - lia.
  - lia.
  - done.
  - done.
  - by vm_compute.
  - by vm_compute.
  - by vm_compute.
Defined.

Lemma burn_app type l1 l2 addr f :
  burn type (l1 ++ l2) addr f = burn type l2 (addr + Z.of_nat (length l1)) (burn type l1 addr f).
Proof.
  revert addr f. induction l1 as [|v l1 IH]; intros addr f; [simpl; by rewrite Z.add_0_r|].
  cbn [app burn length]. rewrite IH. f_equal. lia.
Qed.

(** In the mode with 8-bit addresses, which the tool offers for chips up to
    2048 bytes, only 256 bytes are ever addressed: a longer file is written
    without an error over its own beginning. *)
Theorem eeprog_8bit_overwrites {B} `{!SMBus B} `{!Eeprom24 B EEPROM_TYPE_8BIT_ADDR} junk e data memaddr b (o : list ascii) :
  data_ok junk → chip_inv (type := EEPROM_TYPE_8BIT_ADDR) b → e_type e = EEPROM_TYPE_8BIT_ADDR → Forall byte data →
  (256 < length data ≤ 512)%nat →
  ∃ b', write_to_eeprom junk e data memaddr (World b o) = Done 0 (World b' o) ∧
    ∀ i v, data !! (256 + i)%nat = Some v →
      cell (type := EEPROM_TYPE_8BIT_ADDR) b' ((memaddr + Z.of_nat i) mod 256) = v.
Proof.
  intros Hj Hb He Hd Hl. destruct (write_file_spec EEPROM_TYPE_8BIT_ADDR junk Hj e data memaddr b o He Hb Hd) as (b' & E & _ & Hc).
  exists b'. split; [done|]. intros i v Hi. rewrite Hc by (apply Z.mod_pos_bound; done).
  rewrite <-(take_drop 256 data), burn_app, length_take_le by lia.
  replace ((memaddr + Z.of_nat i) mod 256) with
    ((memaddr + Z.of_nat 256 + Z.of_nat i) mod span EEPROM_TYPE_8BIT_ADDR).
  - apply burn_at; [done|rewrite length_drop; change (span EEPROM_TYPE_8BIT_ADDR) with 256; lia|]. by rewrite lookup_drop.
  - change (span EEPROM_TYPE_8BIT_ADDR) with 256. replace (memaddr + Z.of_nat 256 + Z.of_nat i) with (memaddr + Z.of_nat i + 1 * 256) by lia.
    by rewrite Z.mod_add.
Qed.

Lemma eeprog_8bit_overwrites_witness :
  ∃ b', @write_to_eeprom stub (stub_bus 0x50) (replicate 34 0) (Eeprom None 0x50 3 1 0) (replicate 256 7 ++ [9]) 0
      (World ex_bus []) = Done 0 (World b' []) ∧
    ∀ i v, (replicate 256 7 ++ [9]) !! (256 + i)%nat = Some v → stub_cell 0x50 b' ((0 + Z.of_nat i) mod 256) = v.
Proof.
  apply (@eeprog_8bit_overwrites stub (stub_bus 0x50) (stub_eeprom 0x50) (replicate 34 0) (Eeprom None 0x50 3 1 0)
    (replicate 256 7 ++ [9]) 0 ex_bus []).
  - apply data_okb; by vm_compute.
  - apply (stub_states_inv 0x50 ex_addrs STUB_FUNC ex_bus ex_bus_loaded); [|done]. by exists 1%nat.
  - done.
  - apply Forall_app. split; [apply Forall_replicate; unfold byte; lia|apply Forall_singleton; unfold byte; lia].
  - rewrite length_app, length_replicate. simpl. lia.
Defined.

(** An option the tool does not know is taken for an operation without an
    argument: with a device and an address, the run ends in a fault on a NULL
    pointer, not with the usage text. *)
Theorem eeprog_unknown_option_faults {B} `{!SMBus B} junk long_bits v g c dev a i2c (w : world B) :
  takes_arg c = None → c ≠ "-"%char → head dev ≠ Some "-"%char → head a ≠ Some "-"%char →
  parse_arg_str long_bits a = (1, Some i2c, None) → 0 ≤ i2c →
  main junk long_bits v g [["-"%char; c]; dev; a] w = Oops.
Proof.
  intros Hc Hm Hd Ha Hp Hi.
  assert (Hg : getopt [["-"%char; c]; dev; a] = ([("?"%char, None)], [dev; a])).
  { by rewrite getopt_unknown, !getopt_operand. }
  unfold main. rewrite Hg.
  assert (Ho : option_loop long_bits [("?"%char, None)] init_opts w =
    Done (set_op (Some "?"%char) None init_opts) w) by done.
  assert (Eu : ∀ A (k : unit → M (world B) A) c, c = false → (usage_if c ≫= k) w = k () w) by (by intros A k c' ->).
  mstep Ho. rewrite Eu by (by apply bool_decide_eq_false_2). cbn [operands]. rewrite bind_ret. cbv beta iota.
  rewrite Eu by (apply orb_false_iff; split; by apply bool_decide_eq_false_2). rewrite bind_of_opt. unfold parse_arg.
  assert (Ep : (arg ← of_opt (Some a); mret (parse_arg_str long_bits arg)) w = Done (1, Some i2c, None) w)
    by (rewrite bind_of_opt; by rewrite Hp).
  mstep Ep. cbn [from_option id]. destruct (Z.ltb_spec i2c 0); [lia|]. done.
Qed.

Lemma eeprog_unknown_option_faults_witness :
  @main stub (stub_bus 0x50) (replicate 34 0) 64 ex_env 0 [str "-z"; str "/dev/i2c-0"; str "0x50"] (World ex_bus []) = Oops.
Proof.
  apply (@eeprog_unknown_option_faults stub (stub_bus 0x50) (replicate 34 0) 64 ex_env 0 "z"%char
    (str "/dev/i2c-0") (str "0x50") 0x50); done.
Defined.
