(* ===== verification/HexFile.v ===== *)
(** * The files the micronucleus tool uploads

    [parseIntelHex] and [parseRaw] of
    [src/sources/firmware/micronucleus-cmdline/micronucleus.c], which read a
    program into the global buffer.  A file is the list of characters that are
    still to be read. *)

From Stdlib Require Import ZArith Lia Ascii String.
From stdpp Require Import base list gmap strings.
From S2P Require Import Prelude CString.

(** [unsigned char dataBuffer[65536 + 256]] *)
Definition BUFFER_SIZE : nat := Z.to_nat (65536 + 256).

(** What the parsers work on: the rest of the file, the buffer, the two
    addresses behind the pointers, and the lines a checksum warning was printed
    for. *)
Record parser := Parser {
  input : cstr;
  buffer : list Z;
  startAddr : Z;
  endAddr : Z;
  warnings : list (Z * Z)
}.
Definition set_input f (p : parser) : parser := Parser f (buffer p) (startAddr p) (endAddr p) (warnings p).
Definition set_buffer b (p : parser) : parser := Parser (input p) b (startAddr p) (endAddr p) (warnings p).
Definition set_addrs s e (p : parser) : parser := Parser (input p) (buffer p) s e (warnings p).
Definition set_warnings w (p : parser) : parser := Parser (input p) (buffer p) (startAddr p) (endAddr p) w.

Definition EOF : Z := -1.
Definition COLON : Z := 58.

Definition getc : M parser Z :=
  f ← gets input;
  match f with
  | [] => mret EOF
  | c :: f => modify (set_input f);; mret (code c)
  end.

(** [buffer[i] = d]: a store outside the array is a fault. *)
Definition store_byte (i d : Z) : M parser unit :=
  b ← gets buffer;
  if (0 <=? i) && (i <? Z.of_nat (length b)) then modify (set_buffer (<[Z.to_nat i := u8 d]> b)) else oops.

Fixpoint until_colon (fuel : nat) : M parser Z :=
  match fuel with
  | O => out_of_fuel
  | S fuel =>
      character ← getc;
      if negb (character =? COLON) && negb (character =? EOF) then until_colon fuel else mret character
  end.
Definition parseUntilColon : M parser Z := f ← gets input; until_colon (S (length f)).

(** The characters put into [temp]; at the end of the file [EOF], as a [char]. *)
Fixpoint getcs (n : nat) : M parser cstr :=
  match n with
  | O => mret []
  | S n => c ← getc; temp ← getcs n; mret (char (u8 c) :: temp)
  end.
(** A C string ends at the first NUL. *)
Fixpoint until_nul (s : cstr) : cstr :=
  match s with c :: s => if code c =? 0 then [] else c :: until_nul s | [] => [] end.
(** At most eight digits fit [char temp[9]]; the numbers are far below the range
    of [long], so its width does not matter. *)
Definition hex_value (temp : cstr) : Z := int32 (strtol 32 16 (until_nul temp)).1.
Definition parseHex (num_digits : nat) : M parser Z :=
  if (8 <? num_digits)%nat then oops else temp ← getcs num_digits; mret (hex_value temp).

Fixpoint data_loop (n : nat) (address sum : Z) : M parser (Z * Z) :=
  match n with
  | O => mret (address, sum)
  | S n => d ← parseHex 2; store_byte address d;; data_loop n (address + 1) (sum + d)
  end.

(** The body of the loop, after a colon was found. *)
Definition hex_line : M parser unit :=
  lineLen ← parseHex 2;
  base ← parseHex 4;
  segment ← parseHex 2;
  if negb (segment =? 0) then mret ()
  else
    '(address, sum) ← data_loop (Z.to_nat lineLen) base (lineLen + Z.shiftr base 8 + base + segment);
    checksum ← parseHex 2;
    (if negb (Z.land (sum + checksum) 0xff =? 0) then modify (λ p, set_warnings (warnings p ++ [(base, address)]) p) else mret ());;
    modify (λ p, set_addrs (if base <? startAddr p then base else startAddr p)
                           (if endAddr p <? address then address else endAddr p) p).

Fixpoint hex_loop (fuel : nat) : M parser unit :=
  c ← parseUntilColon;
  if negb (c =? COLON) then mret ()
  else match fuel with O => out_of_fuel | S fuel => hex_line;; hex_loop fuel end.

Section files.
(** What [fopen] finds under a name, and what comes from standard input. *)
Variable fopen : cstr → option cstr.
Variable stdin : cstr.

Definition open_input (name : cstr) : option cstr := if decide (name = str "-") then Some stdin else fopen name.

(** The names are pointers: [main] passes NULL when no file was given. *)
Definition parseIntelHex (hexfile : option cstr) : M parser Z :=
  name ← of_opt hexfile;
  match open_input name with
  | None => mret 1
  | Some f => modify (set_input f);; hex_loop (length f);; mret 0
  end.

(** The loop of [parseRaw]; [i] is how far [data_buffer] has moved. *)
Fixpoint raw_loop (fuel : nat) (i : Z) : M parser unit :=
  byte ← getc;
  if byte =? EOF then mret ()
  else
    match fuel with
    | O => out_of_fuel
    | S fuel => store_byte i byte;; modify (λ p, set_addrs (startAddr p) (endAddr p + 1) p);; raw_loop fuel (i + 1)
    end.
Definition parseRaw (filename : option cstr) : M parser Z :=
  name ← of_opt filename;
  match open_input name with
  | None => mret 1
  | Some f => modify (set_input f);; modify (set_addrs 0 0);; raw_loop (length f) 0;; mret 0
  end.
End files.

(** ** Reading characters *)
Definition pad (n : nat) (f : cstr) : cstr := take n (f ++ replicate n (char 255)).

Lemma getc_run p : getc p = match input p with [] => Done EOF p | c :: f => Done (code c) (set_input f p) end.
Proof. unfold getc. rewrite bind_gets. by destruct (input p). Qed.

Lemma pad_cons n c f : pad (S n) (c :: f) = c :: pad n f.
Proof.
  unfold pad. cbn [take app]. rewrite !take_app, !take_replicate. do 3 f_equal; lia.
Qed.
Lemma pad_nil n : pad (S n) [] = char 255 :: pad n [].
Proof. done. Qed.
Lemma pad_app s n f : length s = n → pad n (s ++ f) = s.
Proof. intros <-. unfold pad. by rewrite <-app_assoc, take_app_length. Qed.
Lemma length_pad n f : length (pad n f) = n.
Proof. unfold pad. rewrite length_take, length_app, length_replicate. lia. Qed.
Lemma pad_in n f c : c ∈ pad n f → c ∈ f ∨ c = char 255.
Proof.
  unfold pad. intros Hc. apply elem_of_take in Hc as (k & Hk & _). apply list_elem_of_lookup_2 in Hk.
  apply elem_of_app in Hk as [?|Hk]; [by left|right]. by apply elem_of_replicate in Hk as [-> _].
Qed.

Lemma set_input_id p : set_input (input p) p = p.
Proof. by destruct p. Qed.
Lemma u8_code c : char (u8 (code c)) = c.
Proof. unfold u8. rewrite Z.mod_small by apply code_range. apply char_code. Qed.

Lemma getcs_run n p : getcs n p = Done (pad n (input p)) (set_input (drop n (input p)) p).
Proof.
  revert p. induction n as [|n IH]; intros p; [by destruct p|]. cbn [getcs].
  destruct p as [[|c f] b s e w]; unfold mbind, M_bind; rewrite getc_run; cbn [input].
  - rewrite IH, pad_nil. cbn [input set_input]. by rewrite !drop_nil.
  - rewrite IH, pad_cons. cbn [input set_input drop]. by rewrite u8_code.
Qed.

Lemma parseHex_run n p : (n ≤ 8)%nat →
  parseHex n p = Done (hex_value (pad n (input p))) (set_input (drop n (input p)) p).
Proof.
  intros Hn. unfold parseHex. destruct (Nat.ltb_spec 8 n); [lia|]. by rewrite (bind_done _ _ _ _ _ (getcs_run n p)).
Qed.

(** The rest of a file after the next colon, if there is one. *)
Fixpoint after_colon (f : cstr) : option cstr :=
  match f with [] => None | c :: f => if code c =? COLON then Some f else after_colon f end.

Lemma until_colon_run fuel p : (length (input p) < fuel)%nat →
  until_colon fuel p = match after_colon (input p) with
    | Some f => Done COLON (set_input f p)
    | None => Done EOF (set_input [] p)
    end.
Proof.
  revert p. induction fuel as [|fuel IH]; intros p Hf; [lia|]. cbn [until_colon]. unfold mbind, M_bind.
  rewrite getc_run. destruct p as [[|c f] b s e w]; cbn [input after_colon] in *; [done|].
  pose proof (code_range c). destruct (Z.eqb_spec (code c) COLON) as [->|Hc]; [done|].
  destruct (Z.eqb_spec (code c) EOF) as [E|_]; [unfold EOF in E; lia|]. cbn [negb andb].
  rewrite IH by (cbn in *; lia). done.
Qed.
Lemma parseUntilColon_run p : parseUntilColon p = match after_colon (input p) with
    | Some f => Done COLON (set_input f p)
    | None => Done EOF (set_input [] p)
    end.
Proof. unfold parseUntilColon. rewrite bind_gets. apply until_colon_run. lia. Qed.

Lemma after_colon_length f f' : after_colon f = Some f' → (length f' < length f)%nat.
Proof.
  induction f as [|c f IH]; [done|]. cbn. destruct (code c =? COLON); [intros [= ->]; lia|]. intros H. specialize (IH H). lia.
Qed.
Lemma after_colon_in f f' c : after_colon f = Some f' → c ∈ f' → c ∈ f.
Proof.
  induction f as [|c' f IH]; [done|]. cbn. destruct (code c' =? COLON); [intros [= ->]; set_solver|]. set_solver.
Qed.

Lemma store_byte_run i d p : 0 ≤ i < Z.of_nat (length (buffer p)) →
  store_byte i d p = Done () (set_buffer (<[Z.to_nat i := u8 d]> (buffer p)) p).
Proof.
  intros Hi. unfold store_byte. rewrite bind_gets. destruct (Z.leb_spec 0 i); [|lia].
  destruct (Z.ltb_spec i (Z.of_nat (length (buffer p)))); [done|lia].
Qed.

(** ** Files made of records *)
Definition hex_char (upper : bool) (d : Z) : ascii := char (if d <? 10 then 48 + d else if upper then 55 + d else 87 + d).
Definition hex_byte (upper : bool) (b : Z) : cstr := [hex_char upper (b / 16); hex_char upper (b mod 16)].
Definition hex_word (upper : bool) (w : Z) : cstr := hex_byte upper (w / 256) ++ hex_byte upper (w mod 256).

(** The checksum that makes all bytes of a record add up to zero. *)
Definition record_sum (address : Z) (data : list Z) : Z :=
  Z.of_nat (length data) + address / 256 + address mod 256 + foldr Z.add 0 data.
(** A data record, as programs write it. *)
Definition hex_record (upper : bool) (r : Z * list Z) : cstr :=
  char COLON :: hex_byte upper (Z.of_nat (length r.2)) ++ hex_word upper r.1 ++ hex_byte upper 0 ++
  (r.2 ≫= hex_byte upper) ++ hex_byte upper ((- record_sum r.1 r.2) mod 256).
(** A record of another type, such as the last one, [:00000001FF]. *)
Definition other_record (upper : bool) (segment : Z) (rest : cstr) : cstr :=
  char COLON :: hex_byte upper 0 ++ hex_word upper 0 ++ hex_byte upper segment ++ rest.
Definition eol : cstr := [char 13; char 10].
Definition hex_file (upper : bool) (rs : list (Z * list Z)) : cstr :=
  (rs ≫= λ r, hex_record upper r ++ eol) ++ other_record upper 1 (hex_byte upper 255) ++ eol.

Definition record_ok (r : Z * list Z) : Prop :=
  0 ≤ r.1 < 65536 ∧ (length r.2 < 256)%nat ∧ Forall (λ b, 0 ≤ b < 256) r.2.

(** The effect of a record on a buffer: its bytes are put at its address. *)
Definition put_record (b : list Z) (r : Z * list Z) : list Z := list_inserts (Z.to_nat r.1) r.2 b.

Lemma digit_hex_char upper d : 0 ≤ d < 16 → digit_in 16 (hex_char upper d) = Some d.
Proof.
  intros Hd. assert (H : forallb (λ n, if digit_in 16 (hex_char upper (Z.of_nat n)) is Some x then x =? Z.of_nat n else false) (seq 0 16) = true)
    by (destruct upper; vm_compute; reflexivity).
  rewrite List.forallb_forall in H. specialize (H (Z.to_nat d)). rewrite Z2Nat.id in H by lia.
  assert (Hin : List.In (Z.to_nat d) (seq 0 16)) by (apply List.in_seq; lia). specialize (H Hin).
  destruct (digit_in 16 (hex_char upper d)); [|done]. f_equal. by apply Z.eqb_eq.
Qed.

(** Characters that are digits, for [strtol]. *)
Definition digits_of (s : cstr) (ds : list Z) : Prop := Forall2 (λ c d, digit_in 16 c = Some d) s ds.

Lemma digit_range b c d : digit_in b c = Some d → 0 ≤ d < b.
Proof.
  unfold digit_in, digit_of. repeat case_match; intros; simplify_eq; 
  repeat match goal with H : (_ && _) = true |- _ => apply andb_prop in H as [? ?] | H : (_ <=? _) = true |- _ => apply Z.leb_le in H | H : (_ <? _) = true |- _ => apply Z.ltb_lt in H end; lia.
Qed.
Lemma digit_code c d : digit_in 16 c = Some d → 48 ≤ code c ≤ 57 ∨ 97 ≤ code c ≤ 102 ∨ 65 ≤ code c ≤ 70.
Proof.
  unfold digit_in, digit_of. repeat case_match; intros; simplify_eq;
  repeat match goal with H : (_ && _) = true |- _ => apply andb_prop in H as [? ?] | H : (_ <=? _) = true |- _ => apply Z.leb_le in H | H : (_ <? _) = true |- _ => apply Z.ltb_lt in H end; lia.
Qed.

Lemma until_nul_digits s ds : digits_of s ds → until_nul s = s.
Proof.
  induction 1 as [|c d s ds Hc _ IH]; [done|]. simpl. apply digit_code in Hc.
  destruct (Z.eqb_spec (code c) 0); [lia|]. by rewrite IH.
Qed.
Lemma digits_run s ds : digits_of s ds → ∀ acc, digits 16 acc s = (foldl (λ a d, a * 16 + d) acc ds, []).
Proof. induction 1 as [|c d s ds Hc _ IH]; intros acc; [done|]. simpl. by rewrite Hc, IH. Qed.

Lemma digits_value s ds : digits_of s ds → (0 < length ds)%nat → (length ds ≤ 4)%nat → hex_value s = foldl (λ a d, a * 16 + d) 0 ds.
Proof.
  intros Hs Hl Hl4. unfold hex_value. rewrite (until_nul_digits _ _ Hs). unfold strtol.
  assert (Hv : 0 ≤ foldl (λ a d, a * 16 + d) 0 ds < 65536).
  { assert (Hd : Forall (λ d, 0 ≤ d < 16) ds).
    { clear -Hs. induction Hs as [|c d s ds Hc _ IH]; constructor; [by apply digit_range in Hc|done]. }
    destruct ds as [|d1 [|d2 [|d3 [|d4 [|]]]]]; simpl in *; try lia; repeat (apply Forall_cons in Hd as [? Hd]); lia. }
  destruct Hs as [|c d s ds Hc Hs]; [done|].
  assert (Hcc := digit_code _ _ Hc).
  assert (Hsk : skip_spaces (c :: s) = c :: s).
  { simpl. unfold is_space. destruct (Z.eqb_spec (code c) 32); [lia|]. destruct (Z.leb_spec (code c) 13); [lia|].
    by rewrite andb_false_r. }
  rewrite Hsk. unfold sign. destruct (Z.eqb_spec (code c) 45); [lia|]. destruct (Z.eqb_spec (code c) 43); [lia|].
  assert (Hst : strip_prefix 16 (c :: s) = (16, c :: s)).
  { unfold strip_prefix. destruct Hs as [|x dx s ds Hx Hs]; [done|]. destruct Hs as [|y dy s ds Hy Hs]; [done|].
    apply digit_code in Hx. destruct (Z.eqb_spec (code x) 120); [lia|]. destruct (Z.eqb_spec (code x) 88); [lia|].
    by rewrite !andb_false_r. }
  rewrite Hst, Hc. rewrite (digits_run (c :: s) (d :: ds)) by (by constructor). cbn [fst].
  rewrite Z.min_l by lia. rewrite Z.max_r by lia. apply int32_small. unfold INT_MAX. lia.
Qed.

Lemma nibbles b : 0 ≤ b < 256 → 0 ≤ b / 16 < 16 ∧ 0 ≤ b mod 16 < 16 ∧ b / 16 * 16 + b mod 16 = b.
Proof.
  intros Hb. split_and!; [apply Z.div_pos; lia|apply Z.div_lt_upper_bound; lia|apply Z.mod_pos_bound; lia..|].
  rewrite Z.mul_comm. symmetry. by apply Z.div_mod.
Qed.
Lemma bytes_of w : 0 ≤ w < 65536 → 0 ≤ w / 256 < 256 ∧ 0 ≤ w mod 256 < 256 ∧ w / 256 * 256 + w mod 256 = w.
Proof.
  intros Hb. split_and!; [apply Z.div_pos; lia|apply Z.div_lt_upper_bound; lia|apply Z.mod_pos_bound; lia..|].
  rewrite Z.mul_comm. symmetry. by apply Z.div_mod.
Qed.

Lemma hex_byte_digits upper b : 0 ≤ b < 256 → digits_of (hex_byte upper b) [b / 16; b mod 16].
Proof. intros (? & ? & _)%nibbles. repeat constructor; by apply digit_hex_char. Qed.
Lemma hex_byte_value upper b : 0 ≤ b < 256 → hex_value (hex_byte upper b) = b.
Proof.
  intros Hb. rewrite (digits_value _ _ (hex_byte_digits upper b Hb)) by (simpl; lia).
  destruct (nibbles b Hb) as (_ & _ & H). cbn [foldl]. generalize dependent (b / 16). intros. lia.
Qed.
Lemma hex_word_value upper w : 0 ≤ w < 65536 → hex_value (hex_word upper w) = w.
Proof.
  intros Hw. destruct (bytes_of w Hw) as (Hh & Hl & H).
  assert (Hd : digits_of (hex_word upper w) ([w / 256 / 16; (w / 256) mod 16] ++ [w mod 256 / 16; (w mod 256) mod 16]))
    by (apply Forall2_app; by apply hex_byte_digits).
  rewrite (digits_value _ _ Hd) by (simpl; lia). cbn [foldl app].
  destruct (nibbles _ Hh) as (_ & _ & H1). destruct (nibbles _ Hl) as (_ & _ & H2). lia.
Qed.

(** ** Records *)
Lemma parse_byte upper v f p : 0 ≤ v < 256 → parseHex 2 (set_input (hex_byte upper v ++ f) p) = Done v (set_input f p).
Proof. intros Hv. rewrite parseHex_run by lia. cbn [input set_input]. by rewrite pad_app, hex_byte_value. Qed.
Lemma parse_word upper v f p : 0 ≤ v < 65536 → parseHex 4 (set_input (hex_word upper v ++ f) p) = Done v (set_input f p).
Proof. intros Hv. rewrite parseHex_run by lia. cbn [input set_input]. by rewrite pad_app, hex_word_value. Qed.

Lemma list_inserts_step (i : nat) d ds (b : list Z) : (i < length b)%nat →
  list_inserts i (d :: ds) b = list_inserts (S i) ds (<[i := d]> b).
Proof. intros Hi. simpl. by rewrite list_insert_inserts_lt by lia. Qed.

Lemma data_run upper ds : ∀ address sum f p, Forall (λ b, 0 ≤ b < 256) ds → 0 ≤ address →
  address + Z.of_nat (length ds) ≤ Z.of_nat (length (buffer p)) →
  data_loop (length ds) address sum (set_input ((ds ≫= hex_byte upper) ++ f) p) =
  Done (address + Z.of_nat (length ds), sum + foldr Z.add 0 ds)
    (set_input f (set_buffer (list_inserts (Z.to_nat address) ds (buffer p)) p)).
Proof.
  induction ds as [|d ds IH]; intros address sum f p Hds Ha Hlen.
  - cbn in *. rewrite !Z.add_0_r. by destruct p.
  - apply Forall_cons in Hds as [Hd Hds]. cbn [length data_loop]. cbn [length] in Hlen.
    rewrite bind_cons, <-app_assoc. mstep (parse_byte upper d ((ds ≫= hex_byte upper) ++ f) p Hd).
    assert (Hst : 0 ≤ address < Z.of_nat (length (buffer (set_input ((ds ≫= hex_byte upper) ++ f) p)))) by (cbn; lia).
    mstep (store_byte_run address d _ Hst).
    change (set_buffer (<[Z.to_nat address:=u8 d]> (buffer (set_input ((ds ≫= hex_byte upper) ++ f) p))) (set_input ((ds ≫= hex_byte upper) ++ f) p))
      with (set_input ((ds ≫= hex_byte upper) ++ f) (set_buffer (<[Z.to_nat address:=u8 d]> (buffer p)) p)).
    rewrite IH by (done || cbn; rewrite ?length_insert; lia).
    unfold u8. rewrite Z.mod_small by done. cbn [set_input set_buffer buffer input].
    rewrite list_inserts_step by lia. rewrite Z2Nat.inj_add by lia. rewrite Nat.add_1_r.
    destruct p. cbn. f_equal. f_equal; lia.
Qed.

(** The parser after a record. *)
Definition take_record (p : parser) (r : Z * list Z) : parser :=
  set_addrs (Z.min r.1 (startAddr p)) (Z.max (endAddr p) (r.1 + Z.of_nat (length r.2)))
    (set_buffer (put_record (buffer p) r) p).

Lemma checksum_zero s : Z.land (s + (- s) mod 256) 0xff = 0.
Proof.
  change 0xff with (Z.ones 8). rewrite Z.land_ones by lia. change (2 ^ 8) with 256.
  rewrite Zplus_mod_idemp_r, Z.add_opp_diag_r. done.
Qed.
Lemma checksum_sum l a d : Z.land (l + Z.shiftr a 8 + a + 0 + d + (- (l + a / 256 + a mod 256 + d)) mod 256) 0xff = 0.
Proof.
  rewrite Z.shiftr_div_pow2 by lia. change (2 ^ 8) with 256.
  change 0xff with (Z.ones 8). rewrite Z.land_ones by lia. change (2 ^ 8) with 256.
  rewrite Zplus_mod_idemp_r.
  replace (l + a / 256 + a + 0 + d + - (l + a / 256 + a mod 256 + d)) with (a - a mod 256) by lia.
  replace (a - a mod 256) with (a / 256 * 256); [by rewrite Z.mod_mul|]. rewrite (Z.div_mod a 256) at 2 by lia. lia.
Qed.

Lemma line_run upper r f p : record_ok r → length (buffer p) = BUFFER_SIZE →
  hex_line (set_input (drop 1 (hex_record upper r) ++ f) p) = Done () (set_input f (take_record p r)).
Proof.
  intros (Ha & Hl & Hd) Hb. destruct r as [a ds]. unfold hex_record. cbn [fst snd drop] in *. rewrite drop_0, <-!app_assoc.
  unfold hex_line. assert (Hn : 0 ≤ Z.of_nat (length ds) < 256) by lia. mstep (parse_byte upper _ (hex_word upper a ++ hex_byte upper 0 ++ (ds ≫= hex_byte upper) ++ hex_byte upper ((- record_sum a ds) mod 256) ++ f) p Hn).
  mstep (parse_word upper a (hex_byte upper 0 ++ (ds ≫= hex_byte upper) ++ hex_byte upper ((- record_sum a ds) mod 256) ++ f) p Ha).
  assert (H0 : 0 ≤ 0 < 256) by lia. mstep (parse_byte upper 0 ((ds ≫= hex_byte upper) ++ hex_byte upper ((- record_sum a ds) mod 256) ++ f) p H0).
  cbn [negb Z.eqb]. rewrite Nat2Z.id.
  assert (Hroom : a + Z.of_nat (length ds) ≤ Z.of_nat (length (buffer p))) by (rewrite Hb; unfold BUFFER_SIZE; lia).
  mstep (data_run upper ds a (Z.of_nat (length ds) + Z.shiftr a 8 + a + 0) (hex_byte upper ((- record_sum a ds) mod 256) ++ f) p Hd (proj1 Ha) Hroom).
  assert (Hsum : 0 ≤ (- record_sum a ds) mod 256 < 256) by (apply Z.mod_pos_bound; lia).
  mstep (parse_byte upper _ f (set_buffer (list_inserts (Z.to_nat a) ds (buffer p)) p) Hsum).
  unfold record_sum. rewrite checksum_sum. cbn [Z.eqb negb]. rewrite bind_ret. unfold modify, take_record, put_record. f_equal.
  destruct p as [f0 b s e w]. cbv [set_addrs set_input set_buffer startAddr endAddr buffer warnings input]. cbn [fst snd]. f_equal.
  - destruct (Z.ltb_spec a s); lia.
  - destruct (Z.ltb_spec e (a + Z.of_nat (length ds))); lia.
Qed.

(** Text without a colon is skipped. *)
Definition no_colon (f : cstr) : Prop := Forall (λ c, code c ≠ COLON) f.
Lemma after_no_colon s f : no_colon s → after_colon (s ++ f) = after_colon f.
Proof. induction 1 as [|c s Hc _ IH]; [done|]. cbn. destruct (Z.eqb_spec (code c) COLON); [done|exact IH]. Qed.
Lemma after_colon_here s f : after_colon (char COLON :: s ++ f) = Some (s ++ f).
Proof. done. Qed.

Lemma hex_loop_next fuel p f : after_colon (input p) = Some f →
  hex_loop (S fuel) p = (hex_line;; hex_loop fuel) (set_input f p).
Proof. intros H. cbn [hex_loop]. unfold mbind at 1, M_bind at 1. by rewrite parseUntilColon_run, H. Qed.
Lemma hex_loop_end fuel p : after_colon (input p) = None → hex_loop fuel p = Done () (set_input [] p).
Proof. intros H. destruct fuel; cbn [hex_loop]; unfold mbind at 1, M_bind at 1; by rewrite parseUntilColon_run, H. Qed.

Lemma put_record_length b r : length (put_record b r) = length b.
Proof. apply length_inserts. Qed.
Lemma take_record_length p r : length (buffer (take_record p r)) = length (buffer p).
Proof. apply put_record_length. Qed.

Lemma records_run upper rs : ∀ fuel s f p, Forall record_ok rs → length (buffer p) = BUFFER_SIZE → no_colon s →
  input p = s ++ (rs ≫= λ r, hex_record upper r ++ eol) ++ f → (length rs ≤ fuel)%nat →
  ∃ s', no_colon s' ∧ hex_loop fuel p = hex_loop (fuel - length rs) (set_input (s' ++ f) (foldl take_record p rs)).
Proof.
  induction rs as [|r rs IH]; intros fuel s f p Hok Hb Hs Hp Hf.
  - exists s. split; [done|]. cbn in Hp. rewrite Nat.sub_0_r. cbn [foldl]. rewrite <-Hp. by rewrite set_input_id.
  - destruct fuel as [|fuel]; [cbn in Hf; lia|]. apply Forall_cons in Hok as [Hr Hok].
    set (rest := eol ++ (rs ≫= λ r, hex_record upper r ++ eol) ++ f).
    assert (Hin : input p = s ++ char COLON :: (drop 1 (hex_record upper r) ++ rest)).
    { rewrite Hp, bind_cons. unfold rest. by rewrite <-!app_assoc. }
    rewrite (hex_loop_next fuel p (drop 1 (hex_record upper r) ++ rest)) by (by rewrite Hin, after_no_colon).
    mstep (line_run upper r rest p Hr Hb).
    destruct (IH fuel eol f (set_input rest (take_record p r)) Hok) as (s' & Hs' & Hrun).
    + rewrite <-Hb. apply (take_record_length p r).
    + by repeat constructor.
    + done.
    + cbn in Hf. lia.
    + exists s'. split; [done|]. cbn [length Nat.sub foldl].
      assert (Hset : ∀ rs g p, foldl take_record (set_input g p) rs = set_input g (foldl take_record p rs)).
      { clear. induction rs as [|r rs IH]; intros g p; [done|]. cbn [foldl]. by rewrite <-IH. }
      rewrite Hrun. by rewrite Hset.
Qed.

(** The last record of a file, which is not data, and nothing after it. *)
Lemma last_record_run upper s fuel p : no_colon s →
  hex_loop (S fuel) (set_input (s ++ other_record upper 1 (hex_byte upper 255) ++ eol) p) = Done () (set_input [] p).
Proof.
  intros Hs. unfold other_record.
  set (f1 := (hex_byte upper 255 ++ eol)).
  rewrite (hex_loop_next fuel _ (hex_byte upper 0 ++ hex_word upper 0 ++ hex_byte upper 1 ++ f1)).
  2: { cbn [input set_input]. rewrite after_no_colon by done. rewrite <-app_comm_cons. unfold f1. by rewrite <-!app_assoc. }
  change (set_input ?a (set_input ?b p)) with (set_input a p).
  assert (H0 : 0 ≤ 0 < 256) by lia. assert (H1 : 0 ≤ 1 < 256) by lia. assert (Hw : 0 ≤ 0 < 65536) by lia.
  assert (Hline : hex_line (set_input (hex_byte upper 0 ++ hex_word upper 0 ++ hex_byte upper 1 ++ f1) p) = Done () (set_input f1 p)).
  { unfold hex_line. mstep (parse_byte upper 0 (hex_word upper 0 ++ hex_byte upper 1 ++ f1) p H0).
    mstep (parse_word upper 0 (hex_byte upper 1 ++ f1) p Hw). by mstep (parse_byte upper 1 f1 p H1). }
  mstep Hline. rewrite hex_loop_end; [done|]. cbn [input set_input]. by destruct upper.
Qed.

(** A program as records of [k] bytes, one after the other. *)
Fixpoint records_of (fuel k : nat) (address : Z) (data : list Z) : list (Z * list Z) :=
  match fuel, data with
  | S fuel, _ :: _ => (address, take k data) :: records_of fuel k (address + Z.of_nat k) (drop k data)
  | _, _ => []
  end.
Definition program_file (upper : bool) (k : nat) (data : list Z) : cstr :=
  hex_file upper (records_of (length data) k 0 data).

Lemma records_ok fuel k : (0 < k < 256)%nat → ∀ a data, 0 ≤ a → a + Z.of_nat (length data) ≤ 65536 →
  Forall (λ b, 0 ≤ b < 256) data → Forall record_ok (records_of fuel k a data).
Proof.
  intros Hk. induction fuel as [|fuel IH]; intros a data Ha Hl Hd; [by destruct data|].
  destruct data as [|d data]; [done|]. cbn [records_of]. constructor.
  - split_and!; cbn [fst snd length] in *; [lia|lia|rewrite length_take; lia|by apply Forall_take].
  - destruct (decide (length (d :: data) ≤ k)%nat) as [Hle|Hle].
    + rewrite drop_ge by done. by destruct fuel.
    + apply IH; [lia|rewrite length_drop; lia|by apply Forall_drop].
Qed.

Lemma records_put fuel k : (0 < k)%nat → ∀ a data p, (length data ≤ fuel)%nat → 0 ≤ a → data ≠ [] → endAddr p ≤ a →
  foldl take_record p (records_of fuel k a data) =
  set_addrs (Z.min a (startAddr p)) (a + Z.of_nat (length data)) (set_buffer (list_inserts (Z.to_nat a) data (buffer p)) p).
Proof.
  intros Hk. induction fuel as [|fuel IH]; intros a data p Hf Ha Hd He; [by destruct data; cbn in *; [|lia]|].
  destruct data as [|d data]; [done|]. set (ds := d :: data) in *. cbn [records_of]. unfold ds at 1. fold ds. cbn [foldl].
  destruct (decide (length ds ≤ k)%nat) as [Hle|Hle].
  - rewrite drop_ge, take_ge by done. assert (Hnil : records_of fuel k (a + Z.of_nat k) [] = []) by (by destruct fuel). rewrite Hnil.
    unfold take_record, put_record. cbn [foldl fst snd]. by rewrite Z.max_r by lia.
  - assert (Hlt : length (take k ds) = k) by (rewrite length_take; lia).
    rewrite IH; [|rewrite length_drop; lia|lia| |].
    + unfold take_record, put_record. destruct p as [f b s e w]. cbv [set_addrs set_buffer startAddr endAddr buffer warnings input].
      cbn [fst snd]. f_equal; [|lia|rewrite length_drop; lia].
      rewrite <-(take_drop k ds) at 3. rewrite list_inserts_app_l, Hlt. f_equal. lia.
    + intros E. apply (f_equal length) in E. rewrite length_drop in E. change (length (@nil Z)) with 0%nat in E. lia.
    + cbn. rewrite Hlt. lia.
Qed.

Definition fresh_parser : parser := Parser [] (replicate BUFFER_SIZE 255) 1 0 [].

Lemma inserts_front data n : (length data ≤ n)%nat → list_inserts 0 data (replicate n 255) = data ++ replicate (n - length data) 255.
Proof.
  intros Hn. replace n with (length data + (n - length data))%nat at 1 by lia. rewrite replicate_add.
  apply list_inserts_0_r. by rewrite length_replicate.
Qed.

(** A file of data records: the parser stores each record's bytes at its
    address, in the order of the file, keeps the lowest and the highest address,
    warns of nothing, and ignores the closing record. *)
Lemma parse_records fopen stdin name upper rs p : fopen name = Some (hex_file upper rs) → name ≠ str "-" →
  Forall record_ok rs → length (buffer p) = BUFFER_SIZE →
  parseIntelHex fopen stdin (Some name) p = Done 0 (set_input [] (foldl take_record p rs)).
Proof.
  intros Hf Hn Hok Hb. unfold parseIntelHex. rewrite bind_of_opt. unfold open_input. rewrite decide_False, Hf by done.
  rewrite bind_modify. set (f := hex_file upper rs).
  assert (Hlen : ∃ n, length f = (length rs + S n)%nat).
  { assert (Hl : (length rs ≤ length (rs ≫= λ r, hex_record upper r ++ eol))%nat).
    { clear. induction rs as [|r rs IH]; [done|]. rewrite bind_cons, length_app.
      assert (1 ≤ length (hex_record upper r ++ eol))%nat by (unfold hex_record; cbn [length app]; lia). cbn [length]. lia. }
    unfold f, hex_file. rewrite length_app. revert Hl. generalize (length (rs ≫= λ r, hex_record upper r ++ eol)). intros m Hl.
    cbn [length app other_record]. 
    match goal with |- ∃ n, (m + S ?q = _)%nat => exists (m - length rs + q)%nat; lia end. }
  destruct Hlen as [n Hlen].
  destruct (records_run upper rs (length f) [] (other_record upper 1 (hex_byte upper 255) ++ eol) (set_input f p) Hok) as (s' & Hs' & Hrun);
    [done|constructor|done|lia|].
  rewrite Hlen in Hrun at 2. replace (length rs + S n - length rs)%nat with (S n) in Hrun by lia.
  assert (Hset : foldl take_record (set_input f p) rs = set_input f (foldl take_record p rs)).
  { clear. generalize f. revert p. induction rs as [|r rs IH]; intros p g; [done|]. cbn [foldl]. by rewrite <-IH. }
  rewrite Hset in Hrun. rewrite last_record_run in Hrun by done. by mstep Hrun.
Qed.

Lemma program_read fopen stdin name upper k data n p : fopen name = Some (program_file upper k data) → name ≠ str "-" →
  (0 < k < 256)%nat → (0 < length data)%nat → Z.of_nat (length data) ≤ 65536 → Forall (λ b, 0 ≤ b < 256) data →
  buffer p = replicate n 255 → n = BUFFER_SIZE → startAddr p = 1 → endAddr p = 0 →
  parseIntelHex fopen stdin (Some name) p =
  Done 0 (Parser [] (data ++ replicate (n - length data) 255) 0 (Z.of_nat (length data)) (warnings p)).
Proof.
  intros Hf Hn Hk Hl Hl2 Hd Hb Hbn Hs He.
  assert (Hok : Forall record_ok (records_of (length data) k 0 data)) by (by apply records_ok).
  rewrite (parse_records fopen stdin name upper _ p Hf Hn Hok) by (by rewrite Hb, length_replicate).
  rewrite records_put; [|lia|done|lia|intros ->; cbn in Hl; lia|lia]. rewrite Hb, Hs.
  assert (length data ≤ n)%nat by (subst n; unfold BUFFER_SIZE; lia).
  change (Z.to_nat 0) with 0%nat. rewrite inserts_front by done. done.
Qed.

(** C24: a program that is written to an Intel hex file, with any number of
    bytes per line and either case of digits, is read back: the buffer holds the
    program and then 0xFF, from address 0 to its length, and there is no
    warning. *)
Theorem program_file_round_trip fopen stdin name upper k data : fopen name = Some (program_file upper k data) → name ≠ str "-" →
  (0 < k < 256)%nat → (0 < length data)%nat → Z.of_nat (length data) ≤ 65536 → Forall (λ b, 0 ≤ b < 256) data →
  parseIntelHex fopen stdin (Some name) fresh_parser =
  Done 0 (Parser [] (data ++ replicate (BUFFER_SIZE - length data) 255) 0 (Z.of_nat (length data)) []).
Proof. intros. by apply (program_read fopen stdin name upper k data BUFFER_SIZE fresh_parser). Qed.

(** ** Any file at all *)
Definition no_minus (f : cstr) : Prop := Forall (λ c, code c ≠ 45) f.

Lemma digits_bound s : ∀ acc v r, 0 ≤ acc → digits 16 acc s = (v, r) → 0 ≤ v < (acc + 1) * 16 ^ Z.of_nat (length s).
Proof.
  induction s as [|c s IH]; intros acc v r Ha; cbn [digits length].
  - intros [= <- <-]. simpl. lia.
  - rewrite Nat2Z.inj_succ, Z.pow_succ_r by lia. assert (0 < 16 ^ Z.of_nat (length s)) by lia.
    destruct (digit_in 16 c) as [d|] eqn:E; [|intros [= <- <-]; nia].
    apply digit_range in E. intros H'. apply IH in H'; [nia|lia].
Qed.
Lemma skip_spaces_sub s : ∃ s1, s = s1 ++ skip_spaces s.
Proof.
  induction s as [|c s [s1 IH]]; [by exists []|]. cbn. destruct (is_space c); [|by exists []]. exists (c :: s1). cbn. by f_equal.
Qed.
Lemma until_nul_sub s : ∃ s2, s = until_nul s ++ s2.
Proof. induction s as [|c s [s2 IH]]; [by exists []|]. cbn. destruct (code c =? 0); [by exists (c :: s)|]. exists s2. cbn. by f_equal. Qed.

(** What is read in up to four characters without a minus sign. *)
Lemma hex_value_bound s : no_minus s → (length s ≤ 4)%nat → 0 ≤ hex_value s < 16 ^ Z.of_nat (length s).
Proof.
  intros Hm Hl. unfold hex_value. destruct (until_nul_sub s) as [s2 Hs2]. destruct (skip_spaces_sub (until_nul s)) as [s1 Hs1].
  set (t := skip_spaces (until_nul s)) in *.
  assert (Hlt : (length t ≤ length s)%nat) by (rewrite Hs2, Hs1, !length_app; lia).
  assert (Hmt : no_minus t). { unfold no_minus in *. rewrite Hs2, Hs1 in Hm. by apply Forall_app in Hm as [[_ ?]%Forall_app _]. }
  assert (Hpow : ∀ n, (n ≤ length s)%nat → 16 ^ Z.of_nat n ≤ 16 ^ Z.of_nat (length s) ≤ 65536).
  { intros n Hn. split; [apply Z.pow_le_mono_r; lia|]. change 65536 with (16 ^ 4). apply Z.pow_le_mono_r; lia. }
  assert (Hzero : 0 ≤ int32 0 < 16 ^ Z.of_nat (length s)) by (split; [done|apply Z.pow_pos_nonneg; lia]).
  unfold strtol. fold t. destruct (sign t) as [neg u] eqn:Es.
  assert (neg = false ∧ (length u ≤ length t)%nat) as [-> Hlu].
  { unfold sign in Es. destruct t as [|c t']; [by injection Es as <- <-|]. apply Forall_cons in Hmt as [Hc _].
    destruct (Z.eqb_spec (code c) 45); [done|]. destruct (code c =? 43); injection Es as <- <-; cbn; split; lia || done. }
  destruct (strip_prefix 16 u) as [b w] eqn:Ep.
  assert (b = 16 ∧ (length w ≤ length u)%nat) as [-> Hlw].
  { unfold strip_prefix in Ep. destruct u as [|c [|x [|d u]]]; simpl in Ep; try (injection Ep as <- <-; cbn; lia).
    destruct (_ && _); injection Ep as <- <-; cbn; lia. }
  destruct w as [|c w]; [done|]. destruct (digit_in 16 c); [|done]. destruct (digits 16 0 (c :: w)) as [v r] eqn:Ed.
  apply digits_bound in Ed; [|lia]. assert (Hw := Hpow (length (c :: w)) ltac:(lia)). cbn [fst]. rewrite Z.mul_1_l in Ed.
  assert (Hv : 0 ≤ v < 16 ^ Z.of_nat (length s)) by lia.
  rewrite Z.min_l, Z.max_r by (change (2 ^ (32 - 1)) with 2147483648; lia). rewrite int32_small by (unfold INT_MAX; lia). done.
Qed.

Lemma parse_any n f p : no_minus f → (n ≤ 4)%nat →
  ∃ v, parseHex n (set_input f p) = Done v (set_input (drop n f) p) ∧ 0 ≤ v < 16 ^ Z.of_nat n ∧ no_minus (drop n f).
Proof.
  intros Hm Hn. eexists. split; [apply (parseHex_run n (set_input f p)); lia|]. split; [|by apply Forall_drop].
  rewrite <-(length_pad n f) at 3. apply hex_value_bound; [|by rewrite length_pad].
  apply Forall_forall. intros c [Hc| ->]%pad_in; [|done]. by apply (proj1 (Forall_forall _ _) Hm).
Qed.

(** What the parser keeps on any file without a minus sign: it stays in the
    buffer, and what it has stored lies between the two addresses. *)
Record parser_ok (p : parser) : Prop := ParserOk {
  ok_input : no_minus (input p);
  ok_length : length (buffer p) = BUFFER_SIZE;
  ok_start : 0 ≤ startAddr p;
  ok_end : endAddr p ≤ 65535 + 255;
  ok_within : ∀ i b, buffer p !! i = Some b → b ≠ 255 → startAddr p ≤ Z.of_nat i < endAddr p
}.

Lemma data_any n : ∀ address sum f p, no_minus f → 0 ≤ address → address + Z.of_nat n ≤ Z.of_nat (length (buffer p)) →
  ∃ sum' f' b, data_loop n address sum (set_input f p) = Done (address + Z.of_nat n, sum') (set_input f' (set_buffer b p)) ∧
    no_minus f' ∧ (length f' ≤ length f)%nat ∧ length b = length (buffer p) ∧
    (∀ i, ¬ (address ≤ Z.of_nat i < address + Z.of_nat n) → b !! i = buffer p !! i).
Proof.
  induction n as [|n IH]; intros address sum f p Hm Ha Hl.
  - exists sum, f, (buffer p). cbn. rewrite Z.add_0_r. split_and!; [by destruct p|done..].
  - cbn [data_loop]. destruct (parse_any 2 f p Hm ltac:(lia)) as (d & Hd & _ & Hm2). mstep Hd.
    assert (Hst : 0 ≤ address < Z.of_nat (length (buffer (set_input (drop 2 f) p)))) by (cbn [buffer set_input]; lia).
    mstep (store_byte_run address d _ Hst). set (b1 := <[Z.to_nat address := u8 d]> (buffer p)).
    destruct (IH (address + 1) (sum + d) (drop 2 f) (set_buffer b1 p) Hm2) as (sum' & f' & b & Hrun & Hf & Hfl & Hbl & Hb).
    { lia. } { cbn [buffer set_buffer]. unfold b1. rewrite length_insert. lia. }
    exists sum', f', b. split; [|split_and!; [done| | |]].
    + change (set_buffer _ (set_input (drop 2 f) p)) with (set_input (drop 2 f) (set_buffer b1 p)).
      rewrite Hrun. f_equal. f_equal; lia.
    + rewrite length_drop in Hfl. lia.
    + rewrite Hbl. apply length_insert.
    + intros i Hi. rewrite Hb by lia. cbn [buffer set_buffer]. apply list_lookup_insert_ne. lia.
Qed.

Lemma line_any p : parser_ok p → ∃ p', hex_line p = Done () p' ∧ parser_ok p' ∧ (length (input p') ≤ length (input p))%nat.
Proof.
  intros [Hm Hl Hs He Hw].
  enough (H : ∃ p', hex_line (set_input (input p) p) = Done () p' ∧ parser_ok p' ∧ (length (input p') ≤ length (input p))%nat)
    by (by rewrite set_input_id in H).
  set (f0 := input p) in *. unfold hex_line.
  destruct (parse_any 2 f0 p Hm ltac:(lia)) as (n & Hn & Hnb & Hm1). mstep Hn.
  destruct (parse_any 4 _ p Hm1 ltac:(lia)) as (a & Ha & Hab & Hm2). mstep Ha.
  destruct (parse_any 2 _ p Hm2 ltac:(lia)) as (g & Hg & _ & Hm3). mstep Hg.
  rewrite !drop_drop in *. destruct (negb (g =? 0)).
  - eexists. split; [done|]. split; [by split|]. cbn [input set_input]. rewrite length_drop. lia.
  - change (16 ^ Z.of_nat 2) with 256 in Hnb. change (16 ^ Z.of_nat 4) with 65536 in Hab.
    assert (Hroom : a + Z.of_nat (Z.to_nat n) ≤ Z.of_nat (length (buffer p))) by (rewrite Hl; unfold BUFFER_SIZE; lia).
    destruct (data_any (Z.to_nat n) a (n + Z.shiftr a 8 + a + g) _ p Hm3 ltac:(lia) Hroom) as (sum & f & b & Hrun & Hf & Hfl & Hbl & Hb).
    mstep Hrun. destruct (parse_any 2 f (set_buffer b p) Hf ltac:(lia)) as (c & Hc & _ & Hm4). mstep Hc.
    rewrite Z2Nat.id in * by lia. set (w := if negb _ then _ else _).
    assert (Hw' : ∃ p4, w (set_input (drop 2 f) (set_buffer b p)) = Done () p4 ∧ input p4 = drop 2 f ∧ buffer p4 = b ∧
      startAddr p4 = startAddr p ∧ endAddr p4 = endAddr p).
    { unfold w. destruct (negb _); by eexists. }
    destruct Hw' as (p4 & Hp4 & Hi4 & Hb4 & Hs4 & He4). mstep Hp4. eexists. split; [done|]. split.
    + split; cbn [set_addrs input buffer startAddr endAddr]; rewrite ?Hi4, ?Hb4, ?Hs4, ?He4; [done|by rewrite Hbl| | |].
      * destruct (a <? startAddr p); lia.
      * destruct (endAddr p <? a + n); lia.
      * intros i x Hx Hne. destruct (decide (a ≤ Z.of_nat i < a + n)) as [Hr|Hr].
        -- destruct (Z.ltb_spec a (startAddr p)), (Z.ltb_spec (endAddr p) (a + n)); lia.
        -- rewrite Hb in Hx by lia. specialize (Hw i x Hx Hne).
           destruct (Z.ltb_spec a (startAddr p)), (Z.ltb_spec (endAddr p) (a + n)); lia.
    + cbn [set_addrs input]. rewrite Hi4, length_drop. rewrite length_drop in Hfl. lia.
Qed.

Lemma loop_any fuel : ∀ p, parser_ok p → (length (input p) ≤ fuel)%nat → ∃ p', hex_loop fuel p = Done () p' ∧ parser_ok p'.
Proof.
  induction fuel as [|fuel IH]; intros p Hp Hf; destruct (after_colon (input p)) as [f|] eqn:E.
  - apply after_colon_length in E. lia.
  - rewrite hex_loop_end by done. eexists. split; [done|]. destruct Hp. split; try done. constructor.
  - assert (Hlen := after_colon_length _ _ E). rewrite (hex_loop_next _ _ f E).
    destruct (line_any (set_input f p)) as (p' & Hrun & Hp' & Hl').
    { destruct Hp as [Hm ? ? ? ?]. split; try done. apply Forall_forall. intros c Hc.
      apply (proj1 (Forall_forall _ _) Hm). by eapply after_colon_in. }
    mstep Hrun. apply IH; [done|]. cbn in Hl'. lia.
  - rewrite hex_loop_end by done. eexists. split; [done|]. destruct Hp. split; try done. constructor.
Qed.

(** C25: the parser stays in its buffer.  Any file at all, as long as it
    has no minus sign, is parsed to its end without a store outside the buffer,
    and the bytes it changed lie between the two addresses it reports. *)
Theorem hex_parse_in_bounds fopen stdin name f : (if decide (name = str "-") then Some stdin else fopen name) = Some f →
  no_minus f → ∃ p, parseIntelHex fopen stdin (Some name) fresh_parser = Done 0 p ∧
    length (buffer p) = BUFFER_SIZE ∧ 0 ≤ startAddr p ∧ endAddr p ≤ 65535 + 255 ∧
    (∀ i b, buffer p !! i = Some b → b ≠ 255 → startAddr p ≤ Z.of_nat i < endAddr p).
Proof.
  intros Hf Hm. unfold parseIntelHex. rewrite bind_of_opt. unfold open_input. rewrite Hf, bind_modify.
  destruct (loop_any (length f) (set_input f fresh_parser)) as (p & Hrun & [? ? ? ? ?]); [|done|].
  - split; [exact Hm|apply (length_replicate BUFFER_SIZE 255)|done|cbn; lia|]. intros i b Hb Hne. destruct Hne.
    apply lookup_replicate in Hb as [-> _]. done.
  - mstep Hrun. exists p. by split_and!.
Qed.

(** A minus sign in an address field: the record goes to a negative
    address, and the byte is stored in front of the buffer. *)
Theorem minus_sign_underruns fopen stdin name p : fopen name = Some (str ":01-00100FFFF") → name ≠ str "-" →
  parseIntelHex fopen stdin (Some name) p = Oops.
Proof.
  intros Hf Hn. unfold parseIntelHex. rewrite bind_of_opt. unfold open_input. rewrite decide_False, Hf by done.
  destruct p as [f b s e w]. vm_compute. reflexivity.
Qed.

(** ** Raw files *)
Lemma raw_run fuel : ∀ i f p, (length f ≤ fuel)%nat → 0 ≤ i → i + Z.of_nat (length f) ≤ Z.of_nat (length (buffer p)) →
  raw_loop fuel i (set_input f p) = Done () (set_input [] (set_addrs (startAddr p) (endAddr p + Z.of_nat (length f))
    (set_buffer (list_inserts (Z.to_nat i) (code <$> f) (buffer p)) p))).
Proof.
  induction fuel as [|fuel IH]; intros i f p Hf Hi Hl; (destruct f as [|c f]; cbn [length] in *; [|try lia]);
    cbn [raw_loop]; unfold mbind at 1, M_bind at 1; rewrite getc_run; cbn [input set_input].
  1, 2: cbn; rewrite Z.add_0_r; by destruct p.
  pose proof (code_range c). destruct (Z.eqb_spec (code c) EOF) as [E|_]; [unfold EOF in E; lia|].
  assert (Hst : 0 ≤ i < Z.of_nat (length (buffer (set_input f p)))) by (cbn [buffer set_input]; lia).
  change (set_input f (set_input (c :: f) p)) with (set_input f p).
  mstep (store_byte_run i (code c) _ Hst). rewrite bind_modify.
  set (b1 := <[Z.to_nat i := u8 (code c)]> (buffer (set_input f p))).
  change (raw_loop fuel (i + 1) (set_input f (set_addrs (startAddr p) (endAddr p + 1) (set_buffer b1 p))) =
    Done () (set_input [] (set_addrs (startAddr p) (endAddr p + Z.of_nat (S (length f))) (set_buffer (list_inserts (Z.to_nat i) (code <$> c :: f) (buffer p)) p)))).
  rewrite IH; [|lia|lia|cbn [buffer set_addrs set_buffer]; unfold b1; rewrite length_insert; cbn [buffer set_input]; lia].
  cbn [set_input set_addrs set_buffer buffer startAddr endAddr fmap list_fmap]. unfold b1. cbn [buffer set_input].
  unfold u8. rewrite Z.mod_small by done. rewrite list_inserts_step by lia. rewrite Z2Nat.inj_add by lia. rewrite Nat.add_1_r.
  do 2 f_equal. unfold set_addrs. cbn. f_equal. lia.
Qed.

Lemma raw_overrun fuel : ∀ i f p, (length f ≤ fuel)%nat → 0 ≤ i ≤ Z.of_nat (length (buffer p)) →
  Z.of_nat (length (buffer p)) < i + Z.of_nat (length f) → raw_loop fuel i (set_input f p) = Oops.
Proof.
  induction fuel as [|fuel IH]; intros i f p Hf Hi Hl; (destruct f as [|c f]; cbn [length] in *; [lia|try lia]).
  cbn [raw_loop]; unfold mbind at 1, M_bind at 1; rewrite getc_run; cbn [input set_input].
  pose proof (code_range c). destruct (Z.eqb_spec (code c) EOF) as [E|_]; [unfold EOF in E; lia|].
  change (set_input f (set_input (c :: f) p)) with (set_input f p).
  destruct (decide (i < Z.of_nat (length (buffer p)))) as [Hlt|Hge].
  - assert (Hst : 0 ≤ i < Z.of_nat (length (buffer (set_input f p)))) by (cbn [buffer set_input]; lia).
    mstep (store_byte_run i (code c) _ Hst). rewrite bind_modify.
    set (b1 := <[Z.to_nat i := u8 (code c)]> (buffer (set_input f p))).
    change (raw_loop fuel (i + 1) (set_input f (set_addrs (startAddr p) (endAddr p + 1) (set_buffer b1 p))) = Oops).
    assert (Hb1 : length b1 = length (buffer p)) by (unfold b1; by rewrite length_insert).
    apply IH; cbn [buffer set_addrs set_buffer]; rewrite ?Hb1; lia.
  - unfold store_byte, mbind at 1, M_bind at 1, gets. unfold mbind at 1, M_bind at 1. cbn [buffer set_input].
    destruct (Z.ltb_spec i (Z.of_nat (length (buffer p)))); [lia|]. by rewrite andb_false_r.
Qed.

(** A raw file is read byte for byte when it fits the buffer; a
    larger one is stored past its end. *)
Theorem raw_file_exact fopen stdin name f : fopen name = Some f → name ≠ str "-" →
  parseRaw fopen stdin (Some name) fresh_parser =
  (if decide (length f ≤ BUFFER_SIZE)%nat
   then Done 0 (Parser [] ((code <$> f) ++ replicate (BUFFER_SIZE - length f) 255) 0 (Z.of_nat (length f)) [])
   else Oops).
Proof.
  intros Hf Hn. unfold parseRaw. rewrite bind_of_opt. unfold open_input. rewrite decide_False, Hf by done. rewrite !bind_modify.
  change (set_addrs 0 0 (set_input f fresh_parser)) with (set_input f (set_addrs 0 0 fresh_parser)).
  assert (Hlen : length (buffer (set_addrs 0 0 fresh_parser)) = BUFFER_SIZE) by (apply (length_replicate BUFFER_SIZE 255)).
  case_decide as Hfit.
  - mstep (raw_run (length f) 0 f (set_addrs 0 0 fresh_parser) ltac:(done) ltac:(lia) ltac:(rewrite Hlen; lia)).
    change (buffer (set_addrs 0 0 fresh_parser)) with (replicate BUFFER_SIZE 255). change (Z.to_nat 0) with 0%nat.
    rewrite inserts_front by (by rewrite length_fmap). rewrite length_fmap. done.
  - rewrite (bind_oops _ _ _ (raw_overrun (length f) 0 f (set_addrs 0 0 fresh_parser) ltac:(done) ltac:(rewrite Hlen; lia) ltac:(rewrite Hlen; lia))).
    done.
Qed.

(** ** Concrete files *)
Definition one_file (name text f : cstr) : option cstr := if decide (f = name) then Some text else None.
Definition demo_name : cstr := str "main.hex".
Definition demo_program : list Z := [12; 192; 24; 149; 255; 0; 18; 52; 86; 120].

Lemma program_file_round_trip_witness :
  program_file true 8 demo_program = str ":080000000CC01895FF0012343A" ++ eol ++ str ":02000800567828" ++ eol ++ str ":00000001FF" ++ eol ∧
  parseIntelHex (one_file demo_name (program_file true 8 demo_program)) [] (Some demo_name) fresh_parser =
  Done 0 (Parser [] (demo_program ++ replicate (BUFFER_SIZE - 10) 255) 0 10 []).
Proof.
  split; [vm_compute; reflexivity|].
  apply (program_file_round_trip (one_file demo_name (program_file true 8 demo_program)) [] demo_name true 8 demo_program);
    [reflexivity|discriminate|lia|cbn; lia|cbn; lia|unfold demo_program; repeat constructor; lia].
Defined.

Lemma hex_parse_in_bounds_witness :
  ∃ p, parseIntelHex (λ _, Some (str "no hex at all :zz:FF 0xG:")) [] (Some demo_name) fresh_parser = Done 0 p ∧
    length (buffer p) = BUFFER_SIZE.
Proof.
  destruct (hex_parse_in_bounds (λ _, Some (str "no hex at all :zz:FF 0xG:")) [] demo_name (str "no hex at all :zz:FF 0xG:")) as (p & Hp & Hl & _).
  - reflexivity.
  - unfold no_minus. repeat constructor; discriminate.
  - exists p. split; [exact Hp|exact Hl].
Defined.

Lemma minus_sign_underruns_witness :
  parseIntelHex (λ _, Some (str ":01-00100FFFF")) [] (Some demo_name) fresh_parser = Oops.
Proof. apply minus_sign_underruns; [reflexivity|discriminate]. Defined.

Lemma raw_file_exact_witness :
  parseRaw (λ _, Some (str "AB")) [] (Some demo_name) fresh_parser =
  Done 0 (Parser [] ([65; 66] ++ replicate (BUFFER_SIZE - 2) 255) 0 2 []).
Proof.
  rewrite (raw_file_exact (λ _, Some (str "AB")) [] demo_name (str "AB")); [|reflexivity|discriminate].
  rewrite decide_True by (unfold BUFFER_SIZE; cbn [length str list_ascii_of_string]; lia). reflexivity.
Defined.
