(* ===== verification/Micronucleus.v ===== *)
(** * The upload tool micronucleus

    [micronucleus_lib.c] and [main] of [micronucleus.c] in
    [src/sources/firmware/micronucleus-cmdline]: the tool finds a bootloader on
    the USB, erases the chip and writes a program to it page by page, with the
    reset vectors changed so that the bootloader starts first.

    The USB is arbitrary: what libusb answers may depend on the time and on
    every request sent before. *)

From Stdlib Require Import ZArith Lia Ascii String.
From stdpp Require Import base list gmap strings.
From S2P Require Import Prelude CString HexFile.

Definition MICRONUCLEUS_VENDOR_ID : Z := 0x16D0.
Definition MICRONUCLEUS_PRODUCT_ID : Z := 0x0753.
Definition MICRONUCLEUS_MAX_MAJOR_VERSION : Z := 2.

(** A vendor request on the control endpoint; the timeout is always the same. *)
Record usb_request := Request {
  dir_in : bool;
  bRequest : Z;
  wValue : Z;
  wIndex : Z;
  payload : list Z;
  wLength : Z
}.
Record device_descriptor := Descriptor { idVendor : Z; idProduct : Z; bcdDevice : Z }.

(** What the tool has done to the outside: the milliseconds it has slept, the
    requests it has sent, and what it holds of the heap and of libusb. *)
Record world := World {
  slept : Z;
  sent : list usb_request;
  allocated : Z;
  opened : Z;
  device_lists : Z;
  contexts : Z
}.
Definition hold (a o l c : Z) (w : world) : world :=
  World (slept w) (sent w) (allocated w + a) (opened w + o) (device_lists w + l) (contexts w + c).
Definition delay (ms : Z) : M world unit :=
  modify (λ w, World (slept w + ms) (sent w) (allocated w) (opened w) (device_lists w) (contexts w)).
Definition log_request (r : usb_request) (w : world) : world :=
  World (slept w) (sent w ++ [r]) (allocated w) (opened w) (device_lists w) (contexts w).

Record micronucleus := Nucleus {
  major : Z;
  minor : Z;
  flash_size : Z;
  page_size : Z;
  bootloader_start : Z;
  pages : Z;
  write_sleep : Z;
  erase_sleep : Z;
  signature1 : Z;
  signature2 : Z
}.

(** [abort], as a failed [assert] calls it. *)
Definition SIGABRT_EXIT : Z := 134.

Section code.
(** libusb: [libusb_init], the devices it lists ([None]: no descriptor), and
    what it answers to opening a device and to a request. *)
Variable libusb_init : world → Z.
Variable libusb_get_device_list : world → Z * list (option device_descriptor).
Variable libusb_open : world → nat → Z.
Variable answer : world → usb_request → Z * list Z.

Definition libusb_control_transfer (r : usb_request) : M world (Z * list Z) :=
  a ← gets (λ w, answer w r); modify (log_request r);; mret a.
(** A request to the device without data. *)
Definition vendor_out (req value index : Z) : M world Z :=
  '(res, _) ← libusb_control_transfer (Request false req value index [] 0); mret res.

(** *** micronucleus_connect *)
(** [flash_size], [page_size] and [pages] from the answer of the device. *)
Definition page_count (b0 b1 b2 : Z) : M world (Z * Z) :=
  let flash := Z.shiftl b0 8 + b1 in
  if b2 =? 0 then oops
  else let n := flash / b2 in mret (flash, if n * b2 <? flash then n + 1 else n).

Definition read_info (vmajor vminor fast_mode : Z) : M world (option micronucleus) :=
  if 2 <=? vmajor then
    '(res, b) ← libusb_control_transfer (Request true 0 0 0 [] 6);
    if res <? 0 then mret None
    else if res <? 6 then exit_ SIGABRT_EXIT
    else
      b0 ← of_opt (b !! 0%nat); b1 ← of_opt (b !! 1%nat); b2 ← of_opt (b !! 2%nat);
      b3 ← of_opt (b !! 3%nat); b4 ← of_opt (b !! 4%nat); b5 ← of_opt (b !! 5%nat);
      '(flash, n) ← page_count b0 b1 b2;
      let ws := if (2 <=? vmajor) && (fast_mode =? 0) then Z.land b3 127 + 2 else Z.land b3 127 in
      let es := if negb (Z.land b3 128 =? 0) then ws * n / 4 else ws * n in
      mret (Some (Nucleus vmajor vminor flash b2 (n * b2) n ws es b4 b5))
  else
    '(res, b) ← libusb_control_transfer (Request true 0 0 0 [] 4);
    if res <? 0 then mret None
    else if res <? 4 then exit_ SIGABRT_EXIT
    else
      b0 ← of_opt (b !! 0%nat); b1 ← of_opt (b !! 1%nat); b2 ← of_opt (b !! 2%nat); b3 ← of_opt (b !! 3%nat);
      '(flash, n) ← page_count b0 b1 b2;
      let ws := Z.land b3 127 in
      mret (Some (Nucleus vmajor vminor flash b2 (n * b2) n ws (ws * n) 0 0)).

(** The loop over the devices: [None] is [return NULL] from inside it. *)
Fixpoint device_loop (fast_mode : Z) (i : nat) (devs : list (option device_descriptor)) : M world (option (option micronucleus)) :=
  match devs with
  | [] => mret (Some None)
  | None :: devs => device_loop fast_mode (S i) devs
  | Some desc :: devs =>
      if (idVendor desc =? MICRONUCLEUS_VENDOR_ID) && (idProduct desc =? MICRONUCLEUS_PRODUCT_ID) then
        modify (hold 1 0 0 0);;
        let vmajor := Z.land (Z.shiftr (bcdDevice desc) 8) 0xFF in
        let vminor := Z.land (bcdDevice desc) 0xFF in
        if MICRONUCLEUS_MAX_MAJOR_VERSION <? vmajor then mret None
        else
          r ← gets (λ w, libusb_open w i);
          if r <? 0 then mret None
          else
            modify (hold 0 1 0 0);;
            n ← read_info vmajor vminor fast_mode;
            mret (match n with None => None | Some n => Some (Some n) end)
      else device_loop fast_mode (S i) devs
  end.

Definition micronucleus_connect (fast_mode : Z) : M world (option micronucleus) :=
  r ← gets libusb_init;
  if r <? 0 then mret None
  else
    modify (hold 0 0 0 1);;
    '(n, devs) ← gets libusb_get_device_list;
    if n <? 0 then mret None
    else
      modify (hold 0 0 1 0);;
      nucleus ← device_loop fast_mode 0 devs;
      match nucleus with
      | None => mret None
      | Some nucleus => modify (hold 0 0 (-1) 0);; mret nucleus
      end.

(** *** micronucleus_eraseFlash *)
(** How often the loop runs that counts to one in steps of 0.01. *)
Variable erase_rounds : Z.
Definition micronucleus_eraseFlash (d : micronucleus) : M world Z :=
  res ← vendor_out 2 0 0;
  delay (erase_rounds * (erase_sleep d / 100));;
  mret (if (res =? -5) || (res =? -34) || (res =? -84) then 1 else res).

(** *** micronucleus_writeFlash *)
(** The page buffer is on the stack: [page_stack n] is what [n] bytes of it hold
    to begin with, [reset_stack] the uninitialised [userReset]. *)
Variable page_stack : nat → list Z.
Variable reset_stack : Z.

Definition page_get (b : list Z) (i : Z) : M world Z := if 0 <=? i then of_opt (b !! Z.to_nat i) else oops.
Definition page_set (b : list Z) (i v : Z) : M world (list Z) :=
  if (0 <=? i) && (i <? Z.of_nat (length b)) then mret (<[Z.to_nat i := u8 v]> b) else oops.
(** Two bytes of a word, low byte first. *)
Definition page_set_word (b : list Z) (i v : Z) : M world (list Z) :=
  b ← page_set b i (Z.land v 0xff); page_set b (i + 1) (Z.land (Z.shiftr v 8) 0xff).

(** The bytes of the program, and 0xFF after its end. *)
Fixpoint fill_page (program : list Z) (program_size address : Z) (n : nat) (page_address : Z) (b : list Z) (containsdata : Z) : M world (list Z * Z) :=
  match n with
  | O => mret (b, containsdata)
  | S n =>
      if program_size <? u32 (address + page_address) then
        b ← page_set b page_address 0xFF; fill_page program program_size address n (page_address + 1) b containsdata
      else
        v ← page_get program (u32 (address + page_address));
        b ← page_set b page_address v; fill_page program program_size address n (page_address + 1) b 1
  end.

(** The first page: the destination of the program's reset vector, if it is a
    jump, and the page with a jump to the bootloader in its place. *)
Definition patch_first (d : micronucleus) (b : list Z) : M world (option (list Z * Z)) :=
  b1 ← page_get b 1; b0 ← page_get b 0; b3 ← page_get b 3; b2 ← page_get b 2;
  let word0 := b1 * 0x100 + b0 in
  let word1 := b3 * 0x100 + b2 in
  match (if word0 =? 0x940c then Some word1
         else if Z.land word0 0xf000 =? 0xc000 then Some (Z.land word0 0x0fff - 0 + 1) else None) with
  | None => mret None
  | Some userReset =>
      if 0x2000 <? bootloader_start d then
        b ← page_set_word b 0 0x940c; b ← page_set_word b 2 (bootloader_start d); mret (Some (b, userReset))
      else
        b ← page_set_word b 0 (Z.lor 0xc000 (Z.land (u32 (bootloader_start d / 2 - 1)) 0x0fff)); mret (Some (b, userReset))
  end.

(** The last page: a jump to the program at its end. *)
Definition patch_last (d : micronucleus) (address userReset : Z) (b : list Z) : M world (list Z) :=
  let user_reset_addr := u32 (pages d * page_size d - 4) in
  let at_ := u32 (user_reset_addr - address) in
  if 0x2000 <? user_reset_addr then
    b ← page_set_word b at_ 0x940c; page_set_word b (u32 (at_ + 2)) userReset
  else page_set_word b at_ (Z.lor 0xc000 (Z.land (u32 (userReset - user_reset_addr / 2 - 1)) 0x0fff)).

(** The page in words, two in a request: [None] is [return -1]. *)
Fixpoint send_words (n : nat) (i : Z) (page_length : Z) (b : list Z) : M world (option unit) :=
  match n with
  | O => mret (Some ())
  | S n =>
      if i <? page_length then
        b1 ← page_get b (i + 1); b0 ← page_get b (i + 0); b3 ← page_get b (i + 3); b2 ← page_get b (i + 2);
        res ← vendor_out 3 (Z.shiftl b1 8 + Z.shiftl b0 0) (Z.shiftl b3 8 + Z.shiftl b2 0);
        if negb (res =? 0) then mret None else send_words n (i + 4) page_length b
      else mret (Some ())
  end.
Definition send_page (d : micronucleus) (page_length address : Z) (b : list Z) : M world (option unit) :=
  if major d =? 1 then
    libusb_control_transfer (Request false 1 page_length address (take (Z.to_nat page_length) b) page_length);; mret (Some ())
  else if 2 <=? major d then
    res ← vendor_out 1 page_length address;
    if negb (res =? 0) then mret None else send_words (Z.to_nat page_length) 0 page_length b
  else mret (Some ()).

(** The body of the loop over the pages; [page_length], the buffer and
    [userReset] live across the pages. *)
Definition last_page (d : micronucleus) (address : Z) : bool := u32 (bootloader_start d - page_size d) <=? address.
Definition write_page (d : micronucleus) (program : list Z) (program_size address page_length : Z) (b : list Z) (userReset : Z) :
    M world (option (Z * list Z * Z)) :=
  if (major d =? 1) && (minor d <=? 2) && (page_size d =? 0) then oops
  else
    let page_length :=
      if (major d =? 1) && (minor d <=? 2) && (address / page_size d =? u32 (pages d - 1)) then u8 (flash_size d mod page_size d) else page_length in
    '(b, contains) ← fill_page program program_size address (Z.to_nat page_length) 0 b 0;
    p ← (if (2 <=? major d) && (address =? 0) then patch_first d b else mret (Some (b, userReset)));
    match p with
    | None => mret None
    | Some (b, userReset) =>
        b ← (if (2 <=? major d) && last_page d address then patch_last d address userReset b else mret b);
        let contains := if last_page d address then 1 else contains in
        r ← (if negb (contains =? 0) then
               r ← send_page d page_length address b;
               match r with None => mret None | Some _ => delay (write_sleep d);; mret (Some ()) end
             else mret (Some ()));
        mret (match r with None => None | Some _ => Some (page_length, b, userReset) end)
    end.

Fixpoint page_loop (fuel : nat) (d : micronucleus) (program : list Z) (program_size address page_length : Z) (b : list Z) (userReset : Z) : M world Z :=
  if address <? flash_size d then
    match fuel with
    | O => out_of_fuel
    | S fuel =>
        r ← write_page d program program_size address page_length b userReset;
        match r with
        | None => mret (-1)
        | Some (page_length, b, userReset) => page_loop fuel d program program_size (u32 (address + page_size d)) page_length b userReset
        end
    end
  else mret 0.

Definition micronucleus_writeFlash (d : micronucleus) (program_size : Z) (program : list Z) : M world Z :=
  let page_length := u8 (page_size d) in
  page_loop (Z.to_nat (flash_size d)) d program program_size 0 page_length (page_stack (Z.to_nat page_length)) reset_stack.

Definition micronucleus_startApp (d : micronucleus) : M world Z :=
  res ← vendor_out 4 0 0; mret (if negb (res =? 0) then -1 else 0).
Definition micronucleus_disconnect (d : micronucleus) : M world unit := modify (hold (-1) (-1) 0 (-1)).

(** *** main *)
(** Files, standard input and the clock, in seconds. *)
Variable fopen : cstr → option cstr.
Variable stdin : cstr.
Variable time : world → Z.

Inductive file_kind := FILE_TYPE_INTEL_HEX | FILE_TYPE_RAW.
#[export] Instance file_kind_eq_dec : EqDecision file_kind.
Proof. solve_decision. Defined.

Record options := Options { run : bool; file_type : file_kind; erase_only : bool; fast_mode : Z; timeout : Z; file : option cstr }.
Definition default_options : options := Options false FILE_TYPE_INTEL_HEX false 0 0 None.

(** [sscanf(s, "%d", &timeout)] *)
Definition scan_int (s : cstr) : option Z :=
  let '(v, rest) := strtol 64 10 s in if decide (rest = s) then None else Some (int32 v).

(** The loop over [argv]; past its end is NULL.  [inr] is the value [main]
    returns with. *)
Fixpoint parse_args (argv : list cstr) (o : options) : M world (options + Z) :=
  match argv with
  | [] => mret (inl o)
  | a :: argv =>
      if decide (a = str "--run") then parse_args argv (Options true (file_type o) (erase_only o) (fast_mode o) (timeout o) (file o))
      else if decide (a = str "--type") then
        match argv with
        | [] => oops
        | t :: argv =>
            if decide (t = str "intel-hex") then parse_args argv (Options (run o) FILE_TYPE_INTEL_HEX (erase_only o) (fast_mode o) (timeout o) (file o))
            else if decide (t = str "raw") then parse_args argv (Options (run o) FILE_TYPE_RAW (erase_only o) (fast_mode o) (timeout o) (file o))
            else mret (inr 1)
        end
      else if decide (a = str "--help" ∨ a = str "-h") then mret (inr 0)
      else if decide (a = str "--dump-progress" ∨ a = str "--no-ansi") then parse_args argv o
      else if decide (a = str "--fast-mode") then parse_args argv (Options (run o) (file_type o) (erase_only o) 1 (timeout o) (file o))
      else if decide (a = str "--erase-only") then parse_args argv (Options (run o) (file_type o) true (fast_mode o) (timeout o) (file o))
      else if decide (a = str "--timeout") then
        match argv with
        | [] => oops
        | t :: argv =>
            match scan_int t with
            | None => mret (inr 1)
            | Some z => parse_args argv (Options (run o) (file_type o) (erase_only o) (fast_mode o) z (file o))
            end
        end
      else parse_args argv (Options (run o) (file_type o) (erase_only o) (fast_mode o) (timeout o) (Some a))
  end.

Definition CONNECT_WAIT : Z := 250.

(** [while (my_device == NULL)], followed for [fuel] rounds. *)
Fixpoint wait_loop (fuel : nat) (fast timeout start_time : Z) : M world (option micronucleus) :=
  match fuel with
  | O => out_of_fuel
  | S fuel =>
      delay 100;;
      my_device ← micronucleus_connect fast;
      current_time ← gets time;
      if negb (timeout =? 0) && (start_time + timeout <? current_time) then mret my_device
      else match my_device with Some d => mret (Some d) | None => wait_loop fuel fast timeout start_time end
  end.
Fixpoint reconnect_loop (fuel : nat) (fast : Z) : M world micronucleus :=
  match fuel with
  | O => out_of_fuel
  | S fuel =>
      delay 100;;
      my_device ← micronucleus_connect fast;
      match my_device with Some d => mret d | None => reconnect_loop fuel fast end
  end.

(** The parsers work on their own state; the buffer is filled with 0xFF first.
    The result is the buffer and [endAddress], or that [main] returns 1. *)
Definition load_file (o : options) (d : micronucleus) : M world (option (list Z * Z)) := λ w,
  match (match file_type o with
         | FILE_TYPE_INTEL_HEX => parseIntelHex fopen stdin (file o)
         | FILE_TYPE_RAW => parseRaw fopen stdin (file o)
         end) fresh_parser with
  | Done r p =>
      Done (if negb (r =? 0) then None
            else if endAddr p <=? startAddr p then None
            else if flash_size d <? u32 (endAddr p) then None
            else Some (buffer p, endAddr p)) w
  | Exit code _ => Exit code w
  | Oops => Oops
  | Blocked => Blocked
  | OutOfFuel => OutOfFuel
  end.

(** From the connection on: erase, reconnect if the device is lost, write,
    start. *)
Definition upload (fuel : nat) (o : options) (d : micronucleus) : M world Z :=
  (if fast_mode o =? 0 then delay CONNECT_WAIT else mret ());;
  l ← (if erase_only o then mret (Some ([], 0)) else load_file o d);
  match l with
  | None => mret 1
  | Some (program, endAddress) =>
      res ← micronucleus_eraseFlash d;
      if negb (res =? 0) && negb (res =? 1) then mret 1
      else
        d ← (if res =? 1 then micronucleus_disconnect d;; delay CONNECT_WAIT;; reconnect_loop fuel (fast_mode o) else mret d);
        res ← (if erase_only o then mret 0 else micronucleus_writeFlash d (u32 endAddress) program);
        if negb (res =? 0) then mret 1
        else
          res ← (if run o then micronucleus_startApp d else mret 0);
          if negb (res =? 0) then mret 1
          else micronucleus_disconnect d;; mret 0
  end.

(** [argv] without the name of the program. *)
Definition main (fuel : nat) (argv : list cstr) : M world Z :=
  r ← parse_args argv default_options;
  match r with
  | inr code => mret code
  | inl o =>
      match argv with
      | [] => mret 1
      | _ =>
          start_time ← gets time;
          my_device ← wait_loop fuel (fast_mode o) (timeout o) start_time;
          match my_device with
          | None => mret 1
          | Some d => upload fuel o d
          end
      end
  end.

End code.
