(* ===== verification/MicronucleusProofs.v ===== *)
(** * What micronucleus writes into the chip

    The theorems of [Micronucleus]: the requests of an upload, read as a
    bootloader reads them, leave the program in the flash, a jump to the
    bootloader at its start and a jump to the program at its end. *)

From Stdlib Require Import ZArith Lia Ascii String.
From stdpp Require Import base list gmap strings.
From S2P Require Import Prelude CString HexFile Micronucleus.

(** ** What the requests mean to the bootloader
    Request 1 starts a page at an address, with its data in protocol version 1;
    in version 2 each request 3 brings four bytes. *)
Definition page : Type := Z * list Z.
Definition flush (p : option page) : list page := match p with Some p => [p] | None => [] end.
Fixpoint pages_of (current : option page) (reqs : list usb_request) : list page :=
  match reqs with
  | [] => flush current
  | r :: reqs =>
      if bRequest r =? 1 then flush current ++ pages_of (Some (wIndex r, payload r)) reqs
      else if bRequest r =? 3 then
        pages_of ((λ p : page, (p.1, p.2 ++ [wValue r mod 256; wValue r / 256; wIndex r mod 256; wIndex r / 256])) <$> current) reqs
      else pages_of current reqs
  end.
(** The byte at an address of a flash that was erased and then written. *)
Definition page_byte (a : Z) (p : page) (rest : Z) : Z :=
  if (p.1 <=? a) && (a <? p.1 + Z.of_nat (length p.2)) then p.2 !!! Z.to_nat (a - p.1) else rest.
Definition flash_byte (ps : list page) (a : Z) : Z := foldr (page_byte a) 255 ps.

(** The word at a byte address, and where a jump there leads, for a chip with
    [W] words of flash, at which the program counter wraps. *)
Definition word_at (flash : Z → Z) (a : Z) : Z := flash (a + 1) * 256 + flash a.
Definition jump_target (W : Z) (flash : Z → Z) (a : Z) : option Z :=
  if word_at flash a =? 0x940c then Some (word_at flash (a + 2) mod W)
  else if Z.land (word_at flash a) 0xf000 =? 0xc000 then Some ((a / 2 + 1 + Z.land (word_at flash a) 0x0fff) mod W)
  else None.

(** ** Steps of the tool *)
(** From [w] to [w'] the requests [reqs] were sent, and nothing was acquired or
    released. *)
Record sends (reqs : list usb_request) (w w' : world) : Prop := Sends {
  sends_reqs : sent w' = sent w ++ reqs;
  sends_allocated : allocated w' = allocated w;
  sends_opened : opened w' = opened w;
  sends_lists : device_lists w' = device_lists w;
  sends_contexts : contexts w' = contexts w
}.
Lemma sends_nil w : sends [] w w.
Proof. split; [by rewrite app_nil_r|done..]. Qed.
Lemma sends_app r1 r2 w w1 w2 : sends r1 w w1 → sends r2 w1 w2 → sends (r1 ++ r2) w w2.
Proof. intros [H1 ? ? ? ?] [H2 ? ? ? ?]. split; [by rewrite H2, H1, app_assoc|congruence..]. Qed.
Lemma delay_run ms w : ∃ w', delay ms w = Done () w' ∧ sends [] w w'.
Proof. eexists. split; [done|]. split; [by rewrite app_nil_r|done..]. Qed.

Section upload.
Variable answer : world → usb_request → Z * list Z.
(** The device accepts every request. *)
Hypothesis accepts : ∀ w r, dir_in r = false → (answer w r).1 = 0.
Abbreviation out := (Request false).

Lemma vendor_out_run req v i w : ∃ w', vendor_out answer req v i w = Done 0 w' ∧ sends [out req v i [] 0] w w'.
Proof.
  unfold vendor_out, libusb_control_transfer. assert (Ha := accepts w (out req v i [] 0) eq_refl).
  destruct (answer w (out req v i [] 0)) as [res b] eqn:E. simpl in Ha. subst res.
  exists (log_request (out req v i [] 0) w). split; [|by split].
  unfold mbind, M_bind, gets, modify, mret, M_ret. by rewrite E.
Qed.

(** *** A page of data *)
Definition byte_at (program : list Z) (size a : Z) : Z := if size <? a then 255 else program !!! Z.to_nat a.
Definition page_bytes (program : list Z) (size address : Z) (n : nat) : list Z :=
  (λ i, byte_at program size (address + Z.of_nat i)) <$> seq 0 n.

(** A program, in a buffer that is longer: the byte after its end is read too. *)
Definition program_ok (program : list Z) (size : Z) : Prop :=
  0 ≤ size < Z.of_nat (length program) ∧ Forall (λ b, 0 ≤ b < 256) program.

Lemma byte_at_range program size a : program_ok program size → 0 ≤ a → 0 ≤ byte_at program size a < 256.
Proof.
  intros [Hs Hb] Ha. unfold byte_at. destruct (Z.ltb_spec size a); [lia|].
  apply (proj1 (Forall_forall _ _) Hb). apply list_elem_of_lookup_total_2. lia.
Qed.

Lemma page_get_run b i w : 0 ≤ i < Z.of_nat (length b) → page_get b i w = Done (b !!! Z.to_nat i) w.
Proof.
  intros Hi. unfold page_get. destruct (Z.leb_spec 0 i); [|lia]. by rewrite (list_lookup_lookup_total_lt b) by lia.
Qed.
Lemma page_set_run b i v w : 0 ≤ i < Z.of_nat (length b) → page_set b i v w = Done (<[Z.to_nat i := u8 v]> b) w.
Proof.
  intros Hi. unfold page_set. destruct (Z.leb_spec 0 i); [|lia]. by destruct (Z.ltb_spec i (Z.of_nat (length b))); [|lia].
Qed.

Lemma fill_run program size address n : program_ok program size → 0 ≤ address → ∀ pa b c w,
  length b = (pa + n)%nat → address + Z.of_nat (pa + n) < 2 ^ 32 →
  fill_page program size address n (Z.of_nat pa) b c w =
  Done (take pa b ++ ((λ i, byte_at program size (address + Z.of_nat i)) <$> seq pa n),
        if decide (n = 0%nat) then c else if address + Z.of_nat pa <=? size then 1 else c) w.
Proof.
  intros Hok Ha. induction n as [|n IH]; intros pa b c w Hb Hw; cbn [fill_page].
  - rewrite Nat.add_0_r in Hb. by rewrite <-Hb, firstn_all, app_nil_r.
  - assert (Hu : u32 (address + Z.of_nat pa) = address + Z.of_nat pa) by (unfold u32; apply Z.mod_small; lia). rewrite Hu.
    assert (Hr := byte_at_range program size (address + Z.of_nat pa) Hok ltac:(lia)).
    assert (Hset : ∀ v b', b' = <[pa := v]> b → v = byte_at program size (address + Z.of_nat pa) →
      take (S pa) b' ++ ((λ i, byte_at program size (address + Z.of_nat i)) <$> seq (S pa) n) =
      take pa b ++ ((λ i, byte_at program size (address + Z.of_nat i)) <$> seq pa (S n))).
    { intros v b' -> ->. cbn [seq fmap list_fmap]. rewrite (take_S_r _ _ (byte_at program size (address + Z.of_nat pa))).
      - rewrite take_insert_ge by lia. by rewrite <-app_assoc.
      - apply list_lookup_insert_eq. lia. }
    replace (Z.of_nat pa + 1) with (Z.of_nat (S pa)) by lia.
    destruct (Z.ltb_spec size (address + Z.of_nat pa)) as [Hlt|Hge].
    + mstep (page_set_run b (Z.of_nat pa) 0xFF w ltac:(lia)). rewrite Nat2Z.id.
      rewrite IH by (rewrite ?length_insert; lia). rewrite (Hset _ _ eq_refl); [|unfold byte_at; by destruct (Z.ltb_spec size (address + Z.of_nat pa)); [|lia]].
      f_equal. f_equal. destruct (Z.leb_spec (address + Z.of_nat pa) size); [lia|].
      destruct (Z.leb_spec (address + Z.of_nat (S pa)) size); [lia|]. by case_decide.
    + destruct Hok as [Hs Hbytes]. mstep (page_get_run program (address + Z.of_nat pa) w ltac:(lia)).
      mstep (page_set_run b (Z.of_nat pa) (program !!! Z.to_nat (address + Z.of_nat pa)) w ltac:(lia)). rewrite Nat2Z.id.
      assert (Hv : program !!! Z.to_nat (address + Z.of_nat pa) = byte_at program size (address + Z.of_nat pa)).
      { unfold byte_at. by destruct (Z.ltb_spec size (address + Z.of_nat pa)); [lia|]. }
      rewrite IH by (rewrite ?length_insert; lia). rewrite Hv. unfold u8. rewrite Z.mod_small by done. rewrite (Hset _ _ eq_refl eq_refl).
      f_equal. f_equal. destruct (Z.leb_spec (address + Z.of_nat pa) size); [|lia]. destruct (decide (n = 0%nat)); [done|].
      by destruct (address + Z.of_nat (S pa) <=? size).
Qed.

(** *** The vectors *)
Definition lo (v : Z) : Z := v mod 256.
Definition hi (v : Z) : Z := v / 256 mod 256.
Definition put_word (b : list Z) (i : nat) (v : Z) : list Z := <[S i := hi v]> (<[i := lo v]> b).

Lemma set_word_run b i v w : 0 ≤ i → i + 1 < Z.of_nat (length b) → page_set_word b i v w = Done (put_word b (Z.to_nat i) v) w.
Proof.
  intros Hi Hl. unfold page_set_word. mstep (page_set_run b i (Z.land v 0xff) w ltac:(lia)).
  rewrite page_set_run by (rewrite ?length_insert; lia). f_equal. unfold put_word. rewrite Z2Nat.inj_add by lia. rewrite Nat.add_1_r.
  change 0xff with (Z.ones 8). rewrite !Z.land_ones by lia. rewrite Z.shiftr_div_pow2 by lia. change (2 ^ 8) with 256.
  unfold u8. by rewrite !Z.mod_mod by lia.
Qed.

(** The destination of the jump a program starts with. *)
Definition reset_target (b : list Z) : option Z :=
  let word0 := (b !!! 1%nat) * 256 + b !!! 0%nat in
  if word0 =? 0x940c then Some ((b !!! 3%nat) * 256 + b !!! 2%nat)
  else if Z.land word0 0xf000 =? 0xc000 then Some (Z.land word0 0x0fff + 1) else None.
Definition boot_rjmp (d : micronucleus) : Z := Z.lor 0xc000 (Z.land (bootloader_start d / 2 - 1) 0x0fff).
Definition with_boot_jump (d : micronucleus) (b : list Z) : list Z :=
  if 0x2000 <? bootloader_start d then put_word (put_word b 0 0x940c) 2 (bootloader_start d) else put_word b 0 (boot_rjmp d).

Lemma land_u32 z : Z.land (u32 z) 0x0fff = Z.land z 0x0fff.
Proof.
  change 0x0fff with (Z.ones 12). rewrite !Z.land_ones by lia. unfold u32.
  change 4294967296 with (2 ^ 12 * 2 ^ 20). rewrite Z.rem_mul_r by lia. rewrite Z.mul_comm, Z_mod_plus_full. by rewrite Z.mod_mod by lia.
Qed.

Lemma length_put_word b i v : length (put_word b i v) = length b.
Proof. unfold put_word. by rewrite !length_insert. Qed.

Lemma patch_first_run d b r w : (4 ≤ length b)%nat → reset_target b = Some r →
  patch_first d b w = Done (Some (with_boot_jump d b, r)) w.
Proof.
  intros Hl Hr. unfold patch_first. mstep (page_get_run b 1 w ltac:(lia)). mstep (page_get_run b 0 w ltac:(lia)).
  mstep (page_get_run b 3 w ltac:(lia)). mstep (page_get_run b 2 w ltac:(lia)).
  change (Z.to_nat 1) with 1%nat. change (Z.to_nat 0) with 0%nat. change (Z.to_nat 3) with 3%nat. change (Z.to_nat 2) with 2%nat.
  rewrite Z.sub_0_r. unfold reset_target in Hr. rewrite Hr. unfold with_boot_jump, boot_rjmp. rewrite land_u32.
  destruct (0x2000 <? bootloader_start d).
  - mstep (set_word_run b 0 0x940c w ltac:(lia) ltac:(lia)).
    by mstep (set_word_run (put_word b 0 0x940c) 2 (bootloader_start d) w ltac:(lia) ltac:(rewrite length_put_word; lia)).
  - by mstep (set_word_run b 0 (Z.lor 0xc000 (Z.land (bootloader_start d / 2 - 1) 0x0fff)) w ltac:(lia) ltac:(lia)).
Qed.

(** *** A device of protocol version 2 *)
Record device_ok (d : micronucleus) : Prop := DeviceOk {
  dev_major : 2 ≤ major d;
  dev_page : 4 ≤ page_size d < 256 ∧ page_size d mod 4 = 0;
  dev_pages : 2 ≤ pages d;
  dev_boot : bootloader_start d = pages d * page_size d;
  dev_flash : (pages d - 1) * page_size d < flash_size d ≤ pages d * page_size d ∧ flash_size d < 65536
}.

Definition user_addr (d : micronucleus) : Z := pages d * page_size d - 4.
Definition user_rjmp (d : micronucleus) (r : Z) : Z := Z.lor 0xc000 (Z.land (r - user_addr d / 2 - 1) 0x0fff).
Definition with_user_jump (d : micronucleus) (r : Z) (b : list Z) : list Z :=
  let i := Z.to_nat (page_size d - 4) in
  if 0x2000 <? user_addr d then put_word (put_word b i 0x940c) (i + 2) r else put_word b i (user_rjmp d r).

Lemma device_bounds d : device_ok d → 0 ≤ (pages d - 1) * page_size d < 65536 ∧ pages d * page_size d < 65536 + 256 ∧
  0 < page_size d ∧ pages d * page_size d = (pages d - 1) * page_size d + page_size d.
Proof. intros [? [? ?] ? ? [? ?]]. nia. Qed.

Lemma u32_id z : 0 ≤ z < 2 ^ 32 → u32 z = z.
Proof. intros. unfold u32. by apply Z.mod_small. Qed.

Lemma patch_last_run d r b w : device_ok d → length b = Z.to_nat (page_size d) →
  patch_last d ((pages d - 1) * page_size d) r b w = Done (with_user_jump d r b) w.
Proof.
  intros Hd Hl. destruct (device_bounds d Hd) as (Hb1 & Hb2 & Hb3 & Hb4). assert (H4 := proj1 (dev_page d Hd)).
  unfold patch_last. rewrite (u32_id (pages d * page_size d - 4)) by lia. fold (user_addr d).
  assert (Hat : user_addr d - (pages d - 1) * page_size d = page_size d - 4) by (unfold user_addr; lia).
  rewrite Hat, (u32_id (page_size d - 4)) by lia. unfold with_user_jump, user_rjmp. rewrite land_u32.
  destruct (0x2000 <? user_addr d).
  - mstep (set_word_run b (page_size d - 4) 0x940c w ltac:(lia) ltac:(lia)). rewrite u32_id by lia.
    rewrite set_word_run by (rewrite ?length_put_word; lia). by rewrite Z2Nat.inj_add by lia.
  - by rewrite set_word_run by lia.
Qed.

(** *** Sending a page *)
Fixpoint word_requests (b : list Z) : list usb_request :=
  match b with
  | b0 :: b1 :: b2 :: b3 :: b => out 3 (b1 * 256 + b0) (b3 * 256 + b2) [] 0 :: word_requests b
  | _ => []
  end.
Definition page_requests (address : Z) (b : list Z) : list usb_request :=
  out 1 (Z.of_nat (length b)) address [] 0 :: word_requests b.

Lemma send_words_run m : ∀ n done b w, (m ≤ n)%nat → length b = (4 * m)%nat → Z.of_nat (length (done ++ b)) < 2 ^ 32 →
  ∃ w', send_words answer n (Z.of_nat (length done)) (Z.of_nat (length (done ++ b))) (done ++ b) w = Done (Some ()) w' ∧
    sends (word_requests b) w w'.
Proof.
  induction m as [|m IH]; intros n dn b w Hn Hb Hl.
  - destruct b; [|done]. exists w. split; [|apply sends_nil]. rewrite app_nil_r. destruct n; [done|]. cbn [send_words].
    by rewrite Z.ltb_irrefl.
  - destruct b as [|b0 [|b1 [|b2 [|b3 b]]]]; try (cbn in Hb; lia). destruct n as [|n]; [lia|]. cbn [send_words].
    set (full := dn ++ b0 :: b1 :: b2 :: b3 :: b) in *.
    assert (Hlen : length full = (length dn + (4 + length b))%nat) by (unfold full; by rewrite length_app).
    destruct (Z.ltb_spec (Z.of_nat (length dn)) (Z.of_nat (length full))); [|lia].
    assert (Hget : ∀ k v, (k < 4)%nat → [b0; b1; b2; b3] !! k = Some v → page_get full (Z.of_nat (length dn) + Z.of_nat k) w = Done v w).
    { intros k v Hk Hv. rewrite page_get_run by lia. f_equal. rewrite <-Nat2Z.inj_add, Nat2Z.id. unfold full.
      rewrite lookup_total_app_r by lia. replace (length dn + k - length dn)%nat with k by lia. apply list_lookup_total_correct.
      change (b0 :: b1 :: b2 :: b3 :: b) with ([b0; b1; b2; b3] ++ b). by apply lookup_app_l_Some. }
    mstep (Hget 1%nat b1 ltac:(lia) eq_refl). mstep (Hget 0%nat b0 ltac:(lia) eq_refl).
    mstep (Hget 3%nat b3 ltac:(lia) eq_refl). mstep (Hget 2%nat b2 ltac:(lia) eq_refl).
    rewrite !Z.shiftl_mul_pow2 by lia. rewrite !Z.mul_1_r. change (2 ^ 8) with 256.
    destruct (vendor_out_run 3 (b1 * 256 + b0) (b3 * 256 + b2) w) as (w1 & Hrun & Hs). mstep Hrun.
    destruct (IH n (dn ++ [b0; b1; b2; b3]) b w1 ltac:(lia) ltac:(cbn in Hb; lia)) as (w2 & Hrun2 & Hs2).
    { rewrite <-app_assoc. exact Hl. }
    exists w2. split; [|by apply (sends_app _ _ _ _ _ Hs Hs2)].
    rewrite <-app_assoc in Hrun2. change ([b0; b1; b2; b3] ++ b) with (b0 :: b1 :: b2 :: b3 :: b) in Hrun2. fold full in Hrun2.
    rewrite length_app in Hrun2. rewrite <-Hrun2. cbn [negb Z.eqb length]. by rewrite Nat2Z.inj_add.
Qed.

Lemma send_page_run d address b w : device_ok d → length b = Z.to_nat (page_size d) →
  ∃ w', send_page answer d (page_size d) address b w = Done (Some ()) w' ∧ sends (page_requests address b) w w'.
Proof.
  intros Hd Hb. destruct Hd as [Hm [Hp H4] ? ? ?]. unfold send_page. destruct (Z.eqb_spec (major d) 1); [lia|].
  destruct (Z.leb_spec 2 (major d)); [|lia]. assert (Hl : page_size d = Z.of_nat (length b)) by lia.
  destruct (vendor_out_run 1 (page_size d) address w) as (w1 & Hrun & Hs). mstep Hrun. cbn [negb Z.eqb].
  assert (Hdiv : page_size d = 4 * (page_size d / 4)) by (apply Z_div_exact_full_2; lia).
  destruct (send_words_run (Z.to_nat (page_size d / 4)) (Z.to_nat (page_size d)) [] b w1) as (w2 & Hrun2 & Hs2); [lia|lia|cbn; lia|].
  cbn [app length] in Hrun2. rewrite <-Hl in Hrun2. exists w2. split; [exact Hrun2|].
  assert (Ha := sends_app _ _ _ _ _ Hs Hs2). unfold page_requests. by rewrite <-Hl.
Qed.

(** *** The loop over the pages *)
Definition raw_page (d : micronucleus) (program : list Z) (size k : Z) : list Z :=
  page_bytes program size (k * page_size d) (Z.to_nat (page_size d)).
Definition page_image (d : micronucleus) (program : list Z) (size r k : Z) : list Z :=
  let b := raw_page d program size k in
  let b := if k =? 0 then with_boot_jump d b else b in
  if k =? pages d - 1 then with_user_jump d r b else b.
(** A page is written when the program reaches it, and the last one always. *)
Definition written (d : micronucleus) (size k : Z) : bool := (k * page_size d <=? size) || (k =? pages d - 1).

Lemma length_raw_page d program size k : length (raw_page d program size k) = Z.to_nat (page_size d).
Proof. unfold raw_page, page_bytes. by rewrite length_fmap, length_seq. Qed.
Lemma length_boot_jump d b : length (with_boot_jump d b) = length b.
Proof. unfold with_boot_jump. case_match; by rewrite ?length_put_word. Qed.
Lemma length_user_jump d r b : length (with_user_jump d r b) = length b.
Proof. unfold with_user_jump. case_match; by rewrite ?length_put_word. Qed.
Lemma length_page_image d program size r k : length (page_image d program size r k) = Z.to_nat (page_size d).
Proof.
  unfold page_image. rewrite <-(length_raw_page d program size k).
  repeat case_match; by rewrite ?length_user_jump, ?length_boot_jump.
Qed.

(** A program that does not start with a jump is refused at its first page. *)
Lemma patch_first_none d b w : (4 ≤ length b)%nat → reset_target b = None → patch_first d b w = Done None w.
Proof.
  intros Hl Hr. unfold patch_first. mstep (page_get_run b 1 w ltac:(lia)). mstep (page_get_run b 0 w ltac:(lia)).
  mstep (page_get_run b 3 w ltac:(lia)). mstep (page_get_run b 2 w ltac:(lia)).
  change (Z.to_nat 1) with 1%nat. change (Z.to_nat 0) with 0%nat. change (Z.to_nat 3) with 3%nat. change (Z.to_nat 2) with 2%nat.
  rewrite Z.sub_0_r. unfold reset_target in Hr. by rewrite Hr.
Qed.
Lemma write_flash_refuses d program size page_stack reset_stack w : device_ok d → program_ok program size →
  reset_target (raw_page d program size 0) = None → length (page_stack (Z.to_nat (page_size d))) = Z.to_nat (page_size d) →
  micronucleus_writeFlash answer page_stack reset_stack d size program w = Done (-1) w.
Proof.
  intros Hd Hprog Hr Hst. destruct (device_bounds d Hd) as (Hb1 & Hb2 & Hb3 & Hb4). destruct (dev_page d Hd) as [Hp _].
  destruct (dev_flash d Hd) as [Hf _]. assert (Hn := dev_pages d Hd). assert (Hm := dev_major d Hd).
  unfold micronucleus_writeFlash, u8. rewrite Z.mod_small by lia. destruct (Z.to_nat (flash_size d)) as [|fuel] eqn:Efuel; [nia|].
  cbn [page_loop]. destruct (Z.ltb_spec 0 (flash_size d)); [|nia]. rewrite (bind_done _ _ w None w); [done|].
  unfold write_page. destruct (Z.eqb_spec (major d) 1); [lia|]. cbn [andb].
  mstep (fill_run program size 0 (Z.to_nat (page_size d)) Hprog ltac:(lia) 0 (page_stack (Z.to_nat (page_size d))) 0 w Hst ltac:(lia)).
  rewrite take_0. cbn [app]. change ((λ i, byte_at program size (0 + Z.of_nat i)) <$> seq 0 (Z.to_nat (page_size d))) with (raw_page d program size 0).
  destruct (Z.leb_spec 2 (major d)); [|lia]. cbn [andb Z.eqb].
  by mstep (patch_first_none d (raw_page d program size 0) w ltac:(rewrite length_raw_page; lia) Hr).
Qed.

Variables (d : micronucleus) (program : list Z) (size r : Z).
Hypothesis Hd : device_ok d.
Hypothesis Hprog : program_ok program size.
Hypothesis Hreset : reset_target (raw_page d program size 0) = Some r.

Definition page_sent (k : Z) : list usb_request :=
  if written d size k then page_requests (k * page_size d) (page_image d program size r k) else [].

Lemma last_page_run k : 0 ≤ k < pages d → last_page d (k * page_size d) = (k =? pages d - 1).
Proof.
  intros Hk. destruct (device_bounds d Hd) as (Hb1 & Hb2 & Hb3 & Hb4). unfold last_page. rewrite (dev_boot d Hd).
  rewrite u32_id by lia. destruct (Z.eqb_spec k (pages d - 1)) as [->|Hne]; [apply Z.leb_le; lia|apply Z.leb_gt; nia].
Qed.

Lemma page_step k b ur w : 0 ≤ k < pages d → length b = Z.to_nat (page_size d) → (k = 0 ∨ ur = r) →
  ∃ w', write_page answer d program size (k * page_size d) (page_size d) b ur w =
    Done (Some (page_size d, page_image d program size r k, r)) w' ∧ sends (page_sent k) w w'.
Proof.
  intros Hk Hb Hur. destruct (device_bounds d Hd) as (Hb1 & Hb2 & Hb3 & Hb4).
  assert (Hm := dev_major d Hd). destruct (dev_page d Hd) as [Hps _].
  assert (Haddr : 0 ≤ k * page_size d ≤ (pages d - 1) * page_size d) by nia.
  unfold write_page. destruct (Z.eqb_spec (major d) 1); [lia|]. cbn [andb].
  assert (Hfill := fill_run program size (k * page_size d) (Z.to_nat (page_size d)) Hprog ltac:(lia) 0 b 0 w Hb ltac:(lia)).
  mstep Hfill. rewrite take_0. cbn [app]. rewrite decide_False by lia. rewrite Z.add_0_r.
  change ((λ i, byte_at program size (k * page_size d + Z.of_nat i)) <$> seq 0 (Z.to_nat (page_size d))) with (raw_page d program size k).
  destruct (Z.leb_spec 2 (major d)); [|lia]. rewrite last_page_run by done. cbn [andb].
  set (b1 := if k =? 0 then with_boot_jump d (raw_page d program size k) else raw_page d program size k).
  assert (Hl1 : length b1 = Z.to_nat (page_size d)).
  { unfold b1. destruct (k =? 0); by rewrite ?length_boot_jump, length_raw_page. }
  assert (Hfirst : (if k * page_size d =? 0 then patch_first d (raw_page d program size k) else mret (Some (raw_page d program size k, ur))) w =
    Done (Some (b1, r)) w).
  { unfold b1. destruct (Z.eqb_spec k 0) as [->|Hk0].
    - rewrite Z.mul_0_l. cbn [Z.eqb]. apply patch_first_run; [rewrite length_raw_page; lia|done].
    - destruct (Z.eqb_spec (k * page_size d) 0); [nia|]. by destruct Hur as [?| ->]. }
  mstep Hfirst.
  assert (Hlast : (if k =? pages d - 1 then patch_last d (k * page_size d) r b1 else mret b1) w = Done (page_image d program size r k) w).
  { unfold page_image. fold b1. destruct (Z.eqb_spec k (pages d - 1)) as [->|]; [by apply patch_last_run|done]. }
  mstep Hlast. unfold page_sent, written. set (c := if k =? pages d - 1 then 1 else _).
  assert (Hc : negb (c =? 0) = (k * page_size d <=? size) || (k =? pages d - 1)).
  { unfold c. destruct (k =? pages d - 1); [by rewrite orb_true_r|]. rewrite orb_false_r. by destruct (k * page_size d <=? size). }
  rewrite Hc. destruct (_ || _).
  - destruct (send_page_run d (k * page_size d) (page_image d program size r k) w Hd (length_page_image _ _ _ _ _)) as (w1 & Hrun & Hs).
    rewrite (bind_done _ _ w (Some ()) (World (slept w1 + write_sleep d) (sent w1) (allocated w1) (opened w1) (device_lists w1) (contexts w1))).
    + eexists. split; [done|]. destruct Hs. by split.
    + by mstep Hrun.
  - eexists. split; [done|apply sends_nil].
Qed.

Lemma loop_run n : ∀ k b ur w, 0 ≤ k → Z.of_nat n = pages d - k → length b = Z.to_nat (page_size d) → (k = 0 ∨ ur = r) →
  ∀ fuel, (n ≤ fuel)%nat →
  ∃ w', page_loop answer fuel d program size (k * page_size d) (page_size d) b ur w = Done 0 w' ∧
    sends ((seqZ k (Z.of_nat n)) ≫= page_sent) w w'.
Proof.
  destruct (device_bounds d Hd) as (Hb1 & Hb2 & Hb3 & Hb4). destruct (dev_flash d Hd) as [Hf _].
  induction n as [|n IH]; intros k b ur w Hk Hn Hb Hur fuel Hfuel.
  - assert (k = pages d) as -> by lia. exists w. split; [|apply sends_nil].
    destruct fuel; cbn [page_loop]; (destruct (Z.ltb_spec (pages d * page_size d) (flash_size d)); [lia|done]).
  - destruct fuel as [|fuel]; [lia|]. cbn [page_loop].
    assert (k * page_size d ≤ (pages d - 1) * page_size d) by nia.
    destruct (Z.ltb_spec (k * page_size d) (flash_size d)); [|lia].
    destruct (page_step k b ur w ltac:(lia) Hb Hur) as (w1 & Hrun & Hs). mstep Hrun.
    rewrite u32_id by nia. replace (k * page_size d + page_size d) with ((k + 1) * page_size d) by lia.
    destruct (IH (k + 1) (page_image d program size r k) r w1 ltac:(lia) ltac:(lia) (length_page_image _ _ _ _ _) ltac:(by right) fuel ltac:(lia))
      as (w2 & Hrun2 & Hs2).
    exists w2. split; [exact Hrun2|]. replace (seqZ k (Z.of_nat (S n))) with (k :: seqZ (k + 1) (Z.of_nat n)).
    + rewrite bind_cons. exact (sends_app _ _ _ _ _ Hs Hs2).
    + rewrite (seqZ_cons k (Z.of_nat (S n))) by lia. do 2 f_equal; lia.
Qed.

Variable page_stack : nat → list Z.
Variable reset_stack : Z.
Hypothesis stack_length : ∀ n, length (page_stack n) = n.

Definition upload_requests : list usb_request := seqZ 0 (pages d) ≫= page_sent.

Lemma write_flash_run w : ∃ w', micronucleus_writeFlash answer page_stack reset_stack d size program w = Done 0 w' ∧ sends upload_requests w w'.
Proof.
  destruct (device_bounds d Hd) as (Hb1 & Hb2 & Hb3 & Hb4). destruct (dev_page d Hd) as [Hp _]. destruct (dev_flash d Hd) as [Hf _].
  assert (Hn := dev_pages d Hd). unfold micronucleus_writeFlash, u8. rewrite Z.mod_small by lia.
  destruct (loop_run (Z.to_nat (pages d)) 0 (page_stack (Z.to_nat (page_size d))) reset_stack w) with (fuel := Z.to_nat (flash_size d)) as (w' & Hrun & Hs);
    [lia|lia|apply stack_length|by left|nia|].
  rewrite Z2Nat.id in Hs by lia. exists w'. by split.
Qed.

(** *** The flash after the upload *)
Definition is_byte (b : Z) : Prop := 0 ≤ b < 256.
Lemma lo_byte v : is_byte (lo v).
Proof. apply Z.mod_pos_bound. lia. Qed.
Lemma hi_byte v : is_byte (hi v).
Proof. apply Z.mod_pos_bound. lia. Qed.
Lemma put_word_bytes b i v : Forall is_byte b → Forall is_byte (put_word b i v).
Proof. intros Hb. unfold put_word. apply Forall_insert; [apply Forall_insert; [done|apply lo_byte]|apply hi_byte]. Qed.
Lemma raw_page_bytes k : 0 ≤ k → Forall is_byte (raw_page d program size k).
Proof.
  intros Hk. destruct (device_bounds d Hd) as (_ & _ & Hp & _). unfold raw_page, page_bytes. apply Forall_forall.
  intros x Hx. apply list_elem_of_fmap in Hx as (i & -> & _). apply byte_at_range; [done|nia].
Qed.
Lemma page_image_bytes k : 0 ≤ k → Forall is_byte (page_image d program size r k).
Proof.
  intros Hk. assert (Hr := raw_page_bytes k Hk). unfold page_image, with_user_jump, with_boot_jump.
  repeat case_match; repeat apply put_word_bytes; done.
Qed.

Lemma pages_of_words m : ∀ a acc b rest, length b = (4 * m)%nat → Forall is_byte b →
  pages_of (Some (a, acc)) (word_requests b ++ rest) = pages_of (Some (a, acc ++ b)) rest.
Proof.
  induction m as [|m IH]; intros a acc b rest Hl Hb.
  - destruct b; [|done]. by rewrite app_nil_r.
  - destruct b as [|b0 [|b1 [|b2 [|b3 b]]]]; try (cbn in Hl; lia).
    repeat (apply Forall_cons in Hb as [? Hb]). cbn [word_requests app pages_of bRequest Z.eqb Pos.eqb fmap option_fmap option_map fst snd].
    unfold is_byte in *. cbn [wValue wIndex].
    assert (Hw : ∀ x y, 0 ≤ x < 256 → (y * 256 + x) mod 256 = x ∧ (y * 256 + x) / 256 = y).
    { intros x y Hx. rewrite Z.add_comm, Z_mod_plus_full, Z.div_add by lia. by rewrite Z.mod_small, Z.div_small. }
    destruct (Hw b0 b1) as [-> ->]; [done|]. destruct (Hw b2 b3) as [-> ->]; [done|].
    rewrite IH by (done || cbn in Hl; lia). by rewrite <-app_assoc.
Qed.

Definition written_pages (k n : Z) : list page :=
  seqZ k n ≫= λ k, if written d size k then [(k * page_size d, page_image d program size r k)] else [].

Lemma pages_of_upload n : ∀ k cur, 0 ≤ k →
  pages_of cur (seqZ k (Z.of_nat n) ≫= page_sent) = flush cur ++ written_pages k (Z.of_nat n).
Proof.
  destruct (dev_page d Hd) as [Hp H4]. induction n as [|n IH]; intros k cur Hk.
  - change (seqZ k (Z.of_nat 0)) with (@nil Z). by rewrite app_nil_r.
  - unfold written_pages. rewrite seqZ_cons by lia. rewrite !bind_cons.
    replace (Z.pred (Z.of_nat (S n))) with (Z.of_nat n) by lia. unfold page_sent at 1. destruct (written d size k); [|by apply IH; lia].
    unfold page_requests. rewrite <-app_comm_cons. cbn [pages_of bRequest Z.eqb wIndex payload Pos.eqb].
    rewrite (pages_of_words (Z.to_nat (page_size d / 4))).
    + cbn [app]. rewrite IH by lia. done.
    + rewrite length_page_image. assert (page_size d = 4 * (page_size d / 4)) by (apply Z_div_exact_full_2; lia). lia.
    + by apply page_image_bytes.
Qed.

Lemma one_page_byte k a x : 0 ≤ a → foldr (page_byte a) x (if written d size k then [(k * page_size d, page_image d program size r k)] else []) =
  if (a / page_size d =? k) && written d size k then page_image d program size r k !!! Z.to_nat (a mod page_size d) else x.
Proof.
  destruct (dev_page d Hd) as [Hp _]. intros Ha.
  assert (Hdm := Z.div_mod a (page_size d) ltac:(lia)). assert (Hm := Z.mod_pos_bound a (page_size d) ltac:(lia)).
  destruct (written d size k); [|by rewrite andb_false_r]. rewrite andb_true_r. cbn [foldr]. unfold page_byte. cbn [fst snd].
  rewrite length_page_image, Z2Nat.id by lia. destruct (Z.eqb_spec (a / page_size d) k) as [<-|Hne].
  - destruct (Z.leb_spec (a / page_size d * page_size d) a); [|nia].
    destruct (Z.ltb_spec a (a / page_size d * page_size d + page_size d)); [|nia]. cbn [andb]. f_equal. f_equal. nia.
  - destruct (Z.leb_spec (k * page_size d) a), (Z.ltb_spec a (k * page_size d + page_size d)); try done. exfalso. apply Hne. nia.
Qed.

Lemma written_byte n : ∀ k a, 0 ≤ k → 0 ≤ a →
  flash_byte (written_pages k (Z.of_nat n)) a =
  if (k <=? a / page_size d) && (a / page_size d <? k + Z.of_nat n) && written d size (a / page_size d)
  then page_image d program size r (a / page_size d) !!! Z.to_nat (a mod page_size d) else 255.
Proof.
  induction n as [|n IH]; intros k a Hk Ha.
  - change (written_pages k (Z.of_nat 0)) with (@nil page). rewrite Z.add_0_r.
    destruct (Z.leb_spec k (a / page_size d)), (Z.ltb_spec (a / page_size d) k); try done. lia.
  - assert (Hcons : flash_byte (written_pages k (Z.of_nat (S n))) a =
      foldr (page_byte a) (flash_byte (written_pages (k + 1) (Z.of_nat n)) a)
        (if written d size k then [(k * page_size d, page_image d program size r k)] else [])).
    { unfold written_pages. rewrite seqZ_cons by lia. rewrite bind_cons. unfold flash_byte. rewrite foldr_app.
      by replace (Z.pred (Z.of_nat (S n))) with (Z.of_nat n) by lia. }
    rewrite Hcons, one_page_byte, IH by lia. destruct (Z.eqb_spec (a / page_size d) k) as [Hak|Hne]; cbn [andb].
    + rewrite Hak. destruct (Z.leb_spec (k + 1) k); [lia|]. destruct (Z.leb_spec k k); [|lia].
      by destruct (Z.ltb_spec k (k + Z.of_nat (S n))); [|lia].
    + replace (k + 1 + Z.of_nat n) with (k + Z.of_nat (S n)) by lia.
      destruct (Z.leb_spec (k + 1) (a / page_size d)), (Z.leb_spec k (a / page_size d)); try done; lia.
Qed.

Definition flash_after : Z → Z := flash_byte (pages_of None upload_requests).

Lemma flash_after_byte a : 0 ≤ a < pages d * page_size d →
  flash_after a = if written d size (a / page_size d) then page_image d program size r (a / page_size d) !!! Z.to_nat (a mod page_size d) else 255.
Proof.
  intros Ha. destruct (device_bounds d Hd) as (_ & _ & Hp & _). assert (Hn := dev_pages d Hd).
  unfold flash_after, upload_requests. replace (pages d) with (Z.of_nat (Z.to_nat (pages d))) by lia.
  rewrite pages_of_upload by lia. cbn [flush app]. rewrite written_byte by lia.
  assert (0 ≤ a / page_size d) by (apply Z.div_pos; lia). assert (a / page_size d < pages d) by (apply Z.div_lt_upper_bound; lia).
  destruct (Z.leb_spec 0 (a / page_size d)); [|lia]. by destruct (Z.ltb_spec (a / page_size d) (0 + Z.of_nat (Z.to_nat (pages d)))); [|lia].
Qed.

(** *** The vectors in the flash *)
Lemma put_word_total b i v j : (S i < length b)%nat →
  put_word b i v !!! j = if decide (j = S i) then hi v else if decide (j = i) then lo v else b !!! j.
Proof.
  intros Hi. unfold put_word. destruct (decide (j = S i)) as [->|H1].
  - apply list_lookup_total_insert_eq. by rewrite length_insert; lia.
  - rewrite list_lookup_total_insert_ne by done. destruct (decide (j = i)) as [->|H2].
    + apply list_lookup_total_insert_eq. lia.
    + by rewrite list_lookup_total_insert_ne.
Qed.

(** The bytes of the two jumps. *)
Definition boot_bytes : Z := if 0x2000 <? bootloader_start d then 4 else 2.
Definition user_bytes : Z := if 0x2000 <? user_addr d then 4 else 2.
Definition in_vector (a : Z) : bool := (a <? boot_bytes) || ((user_addr d <=? a) && (a <? user_addr d + user_bytes)).

Lemma boot_jump_total b j : (4 ≤ length b)%nat → with_boot_jump d b !!! j =
  if 0x2000 <? bootloader_start d then
    (if decide (j = 0%nat) then lo 0x940c else if decide (j = 1%nat) then hi 0x940c else
     if decide (j = 2%nat) then lo (bootloader_start d) else if decide (j = 3%nat) then hi (bootloader_start d) else b !!! j)
  else (if decide (j = 0%nat) then lo (boot_rjmp d) else if decide (j = 1%nat) then hi (boot_rjmp d) else b !!! j).
Proof.
  intros Hl. unfold with_boot_jump. destruct (0x2000 <? bootloader_start d);
    rewrite !put_word_total by (rewrite ?length_put_word; lia); repeat case_decide; subst; done.
Qed.
Lemma user_jump_total b j : length b = Z.to_nat (page_size d) → with_user_jump d r b !!! j =
  let i := Z.to_nat (page_size d - 4) in
  if 0x2000 <? user_addr d then
    (if decide (j = i) then lo 0x940c else if decide (j = S i) then hi 0x940c else
     if decide (j = S (S i)) then lo r else if decide (j = S (S (S i))) then hi r else b !!! j)
  else (if decide (j = i) then lo (user_rjmp d r) else if decide (j = S i) then hi (user_rjmp d r) else b !!! j).
Proof.
  intros Hl. destruct (dev_page d Hd) as [Hp _]. unfold with_user_jump. cbv zeta. set (i := Z.to_nat (page_size d - 4)).
  assert (Hi : (S (S (S i)) < length b)%nat) by (unfold i; lia). replace (i + 2)%nat with (S (S i)) by lia.
  destruct (0x2000 <? user_addr d);
    rewrite !put_word_total by (rewrite ?length_put_word; lia); repeat case_decide; subst; try done; lia.
Qed.

Lemma raw_page_total k a : 0 ≤ a → a / page_size d = k → raw_page d program size k !!! Z.to_nat (a mod page_size d) = byte_at program size a.
Proof.
  intros Ha <-. destruct (dev_page d Hd) as [Hp _].
  assert (Hdm := Z.div_mod a (page_size d) ltac:(lia)). assert (Hm := Z.mod_pos_bound a (page_size d) ltac:(lia)).
  unfold raw_page, page_bytes. apply list_lookup_total_correct. rewrite list_lookup_fmap, lookup_seq_lt by lia.
  cbn. do 2 f_equal. lia.
Qed.

Lemma page_index a k j : a = k * page_size d + j → 0 ≤ j < page_size d → a / page_size d = k ∧ a mod page_size d = j.
Proof.
  intros -> Hj. rewrite (Z.add_comm (k * page_size d) j), Z_mod_plus_full, Z.div_add by lia.
  by rewrite Z.div_small, Z.mod_small.
Qed.

(** Outside the two jumps the flash holds the program and 0xFF after it. *)
Lemma flash_is_program a : 0 ≤ a < pages d * page_size d → in_vector a = false → flash_after a = byte_at program size a.
Proof.
  intros Ha Hv. destruct (dev_page d Hd) as [Hp _]. assert (Hn := dev_pages d Hd). rewrite flash_after_byte by done.
  set (k := a / page_size d). assert (Hdm := Z.div_mod a (page_size d) ltac:(lia)). assert (Hm := Z.mod_pos_bound a (page_size d) ltac:(lia)).
  fold k in Hdm. apply orb_false_iff in Hv as [Hv1 Hv2]. apply Z.ltb_ge in Hv1.
  assert (Hraw := raw_page_total k a ltac:(lia) eq_refl).
  destruct (written d size k) eqn:Hw.
  - unfold page_image. set (b1 := if k =? 0 then _ else _).
    assert (Hb1 : length b1 = Z.to_nat (page_size d) ∧ b1 !!! Z.to_nat (a mod page_size d) = byte_at program size a).
    { unfold b1. destruct (Z.eqb_spec k 0) as [Hk|_]; [|by rewrite length_raw_page]. rewrite length_boot_jump, length_raw_page. split; [done|].
      rewrite boot_jump_total by (rewrite length_raw_page; lia). unfold boot_bytes in Hv1. rewrite Hraw.
      destruct (0x2000 <? bootloader_start d); rewrite !decide_False by nia; done. }
    destruct Hb1 as [Hl1 Hb1]. destruct (Z.eqb_spec k (pages d - 1)) as [Hk|_]; [|done].
    rewrite user_jump_total by done. cbv zeta. rewrite Hb1. unfold user_bytes, user_addr in *.
    assert (Hne : ∀ i, 0 ≤ i < (if 0x2000 <? pages d * page_size d - 4 then 4 else 2) → Z.to_nat (a mod page_size d) ≠ (Z.to_nat (page_size d - 4) + Z.to_nat i)%nat).
    { intros i Hi E. assert (E' : a = pages d * page_size d - 4 + i) by nia. 
      destruct (Z.leb_spec (pages d * page_size d - 4) a), (Z.ltb_spec a (pages d * page_size d - 4 + (if 0x2000 <? pages d * page_size d - 4 then 4 else 2))); done || lia. }
    destruct (0x2000 <? pages d * page_size d - 4).
    + assert (H0 := Hne 0 ltac:(lia)). assert (H1 := Hne 1 ltac:(lia)). assert (H2 := Hne 2 ltac:(lia)). assert (H3 := Hne 3 ltac:(lia)).
      rewrite !decide_False by lia. done.
    + assert (H0 := Hne 0 ltac:(lia)). assert (H1 := Hne 1 ltac:(lia)). rewrite !decide_False by lia. done.
  - unfold written in Hw. apply orb_false_iff in Hw as [Hw _]. apply Z.leb_gt in Hw. unfold byte_at.
    destruct (Z.ltb_spec size a); [done|nia].
Qed.

Lemma boot_flash a : 0 ≤ a < 4 → flash_after a = with_boot_jump d (raw_page d program size 0) !!! Z.to_nat a.
Proof.
  intros Ha. destruct (dev_page d Hd) as [Hp _]. assert (Hn := dev_pages d Hd). rewrite flash_after_byte by nia.
  destruct (page_index a 0 a) as [-> ->]; [lia..|]. destruct Hprog as [Hs _].
  unfold written. rewrite Z.mul_0_l. destruct (Z.leb_spec 0 size); [|lia]. cbn [orb]. unfold page_image. rewrite Z.eqb_refl.
  destruct (Z.eqb_spec 0 (pages d - 1)); [lia|done].
Qed.
Lemma user_flash i : 0 ≤ i < 4 → flash_after (user_addr d + i) =
  with_user_jump d r (raw_page d program size (pages d - 1)) !!! (Z.to_nat (page_size d - 4) + Z.to_nat i)%nat.
Proof.
  intros Hi. destruct (dev_page d Hd) as [Hp _]. assert (Hn := dev_pages d Hd). unfold user_addr. rewrite flash_after_byte by nia.
  destruct (page_index (pages d * page_size d - 4 + i) (pages d - 1) (page_size d - 4 + i)) as [-> ->]; [lia..|].
  unfold written. rewrite Z.eqb_refl, orb_true_r. unfold page_image. rewrite Z.eqb_refl.
  destruct (Z.eqb_spec (pages d - 1) 0); [lia|]. f_equal. lia.
Qed.

Lemma lo_hi_word v : 0 ≤ v < 65536 → hi v * 256 + lo v = v.
Proof.
  intros Hv. unfold hi, lo. destruct (bytes_of v Hv) as (Hh & _ & E). rewrite (Z.mod_small (v / 256)) by lia. lia.
Qed.

(** An [rjmp]. *)
Definition rjmp (x : Z) : Z := Z.lor 0xc000 (Z.land x 0x0fff).
Lemma rjmp_word x : 0 ≤ rjmp x < 65536 ∧ Z.land (rjmp x) 0xf000 = 0xc000 ∧ Z.land (rjmp x) 0x0fff = x mod 4096.
Proof.
  assert (Hl : Z.land x 0x0fff = x mod 4096) by (change 0x0fff with (Z.ones 12); by rewrite Z.land_ones by lia).
  assert (Hm := Z.mod_pos_bound x 4096 ltac:(lia)). unfold rjmp. split_and!.
  - apply Z.lor_nonneg. rewrite Hl. lia.
  - assert (H := Z.add_lor_land 0xc000 (Z.land x 0x0fff)). assert (0 ≤ Z.land 0xc000 (Z.land x 0x0fff)) by (apply Z.land_nonneg; lia). lia.
  - rewrite Z.land_lor_distr_l, <-Z.land_assoc. change (Z.land 0x0fff 0xf000) with 0. by rewrite Z.land_0_r, Z.lor_0_r.
  - rewrite Z.land_lor_distr_l, <-Z.land_assoc. change (Z.land 0x0fff 0x0fff) with 0x0fff. change (Z.land 0xc000 0x0fff) with 0. by rewrite Hl.
Qed.
Lemma jump_rjmp W flash a x : word_at flash a = rjmp x → (W | 4096) → jump_target W flash a = Some ((a / 2 + 1 + x) mod W).
Proof.
  intros Hw HW. destruct (rjmp_word x) as (Hr & Hf & Hk). unfold jump_target. rewrite Hw.
  destruct (Z.eqb_spec (rjmp x) 0x940c) as [E|_]; [by rewrite E in Hf|]. rewrite Hf, Hk. cbn [Z.eqb Pos.eqb]. f_equal.
  rewrite (Zplus_mod (a / 2 + 1)), Z.mod_mod_divide by done. by rewrite <-Zplus_mod.
Qed.
Lemma jump_jmp W flash a x : word_at flash a = 0x940c → word_at flash (a + 2) = x → jump_target W flash a = Some (x mod W).
Proof. intros Hw <-. unfold jump_target. by rewrite Hw. Qed.

(** The program's own vector. *)
Lemma program_jump W : (W | 4096) → jump_target W (byte_at program size) 0 = Some (r mod W) ∧ 0 ≤ r < 65536.
Proof.
  intros HW. destruct (dev_page d Hd) as [Hp _].
  assert (Hb : ∀ a, 0 ≤ a < 4 → raw_page d program size 0 !!! Z.to_nat a = byte_at program size a).
  { intros a Ha. destruct (page_index a 0 a) as [H1 H2]; [lia..|]. rewrite <-(raw_page_total 0 a) by lia. by rewrite H2. }
  assert (Hr : ∀ a, 0 ≤ a → 0 ≤ byte_at program size a < 256) by (intros; by apply byte_at_range).
  assert (H0 := Hb 0 ltac:(lia)). assert (H1 := Hb 1 ltac:(lia)). assert (H2 := Hb 2 ltac:(lia)). assert (H3 := Hb 3 ltac:(lia)).
  change (Z.to_nat 0) with 0%nat in H0. change (Z.to_nat 1) with 1%nat in H1. change (Z.to_nat 2) with 2%nat in H2. change (Z.to_nat 3) with 3%nat in H3.
  assert (R0 := Hr 0 ltac:(lia)). assert (R1 := Hr 1 ltac:(lia)). assert (R2 := Hr 2 ltac:(lia)). assert (R3 := Hr 3 ltac:(lia)).
  clear Hb Hr. unfold reset_target in Hreset. rewrite H0, H1, H2, H3 in Hreset. unfold jump_target, word_at. cbn [Z.add Pos.add Pos.add_carry Pos.succ].
  destruct (_ =? 0x940c); [injection Hreset as <-; split; [done|lia]|]. destruct (_ =? 0xc000); [|done]. injection Hreset as <-.
  split; [by rewrite Z.add_comm|]. change 0x0fff with (Z.ones 12). rewrite Z.land_ones by lia.
  assert (Hm := Z.mod_pos_bound (byte_at program size 1 * 256 + byte_at program size 0) (2 ^ 12) ltac:(lia)). lia.
Qed.

Lemma boot_word : bootloader_start d ≤ 0x2000 → word_at flash_after 0 = rjmp (bootloader_start d / 2 - 1).
Proof.
  intros Hb. destruct (dev_page d Hd) as [Hp _]. unfold word_at. rewrite !boot_flash by lia.
  rewrite !boot_jump_total by (rewrite length_raw_page; lia). destruct (Z.ltb_spec 0x2000 (bootloader_start d)); [lia|].
  cbn -[hi lo boot_rjmp]. change (boot_rjmp d) with (rjmp (bootloader_start d / 2 - 1)). apply lo_hi_word, rjmp_word.
Qed.
Lemma user_word : bootloader_start d ≤ 0x2000 → word_at flash_after (user_addr d) = rjmp (r - user_addr d / 2 - 1).
Proof.
  intros Hb. destruct (dev_page d Hd) as [Hp _]. unfold word_at. rewrite <-(Z.add_0_r (user_addr d)) at 2. rewrite !user_flash by lia.
  rewrite !user_jump_total by apply length_raw_page. rewrite (dev_boot d Hd) in Hb. cbv zeta.
  destruct (Z.ltb_spec 0x2000 (user_addr d)) as [Hu|_]; [unfold user_addr in Hu; lia|].
  rewrite !(decide_False (P := _ + Z.to_nat 1 = _)%nat) by lia. rewrite !decide_True by lia.
  change (user_rjmp d r) with (rjmp (r - user_addr d / 2 - 1)). apply lo_hi_word, rjmp_word.
Qed.

(** C26: writing a program to a chip of protocol version 2 that accepts
    every request.  The call returns 0; the requests it sent, read as the
    bootloader reads them, leave the program in the flash and 0xFF after it,
    apart from the two jumps; and on a chip whose program counter wraps at [W]
    words, up to 8 KB, the reset vector leads to the bootloader, and the jump at
    the end of the last page to where the program's own reset vector leads. *)
Theorem write_flash_installs W w : (W | 4096) → bootloader_start d ≤ 0x2000 →
  ∃ w', micronucleus_writeFlash answer page_stack reset_stack d size program w = Done 0 w' ∧
    sent w' = sent w ++ upload_requests ∧
    let flash := flash_byte (pages_of None upload_requests) in
    (∀ a, 0 ≤ a < bootloader_start d → in_vector a = false → flash a = byte_at program size a) ∧
    jump_target W flash 0 = Some ((bootloader_start d / 2) mod W) ∧
    jump_target W flash (user_addr d) = jump_target W (byte_at program size) 0.
Proof.
  intros HW Hb. destruct (write_flash_run w) as (w' & Hrun & Hs). exists w'. split; [done|split; [apply Hs|]].
  change (flash_byte (pages_of None upload_requests)) with flash_after. cbv zeta. split_and!.
  - intros a Ha. rewrite (dev_boot d Hd) in Ha. by apply flash_is_program.
  - rewrite (jump_rjmp W flash_after 0 _ (boot_word Hb) HW). do 2 f_equal. change (0 / 2) with 0. lia.
  - rewrite (jump_rjmp W flash_after _ _ (user_word Hb) HW). rewrite (proj1 (program_jump W HW)). do 2 f_equal. lia.
Qed.

(** With more than 8 KB in front of the bootloader the reset vector
    becomes a [jmp], whose operand should be a word address but is the byte
    address of the bootloader: the chip does not start in the bootloader. *)
Theorem large_flash_misses_bootloader W w : 0x2000 < bootloader_start d < 65536 → bootloader_start d < 2 * W →
  ∃ w', micronucleus_writeFlash answer page_stack reset_stack d size program w = Done 0 w' ∧
    sent w' = sent w ++ upload_requests ∧
    jump_target W (flash_byte (pages_of None upload_requests)) 0 = Some (bootloader_start d mod W) ∧
    bootloader_start d mod W ≠ bootloader_start d / 2.
Proof.
  intros Hb HbW. destruct (write_flash_run w) as (w' & Hrun & Hs). exists w'. split; [done|split; [apply Hs|]].
  change (flash_byte (pages_of None upload_requests)) with flash_after.
  destruct (dev_page d Hd) as [Hp H4]. destruct (device_bounds d Hd) as (_ & _ & _ & _). split.
  - apply jump_jmp; unfold word_at; rewrite ?(Z.add_0_l 1), ?(Z.add_0_l 2); cbn [Z.add Pos.add Pos.succ]; rewrite !boot_flash by lia;
      rewrite !boot_jump_total by (rewrite length_raw_page; lia); (destruct (Z.ltb_spec 0x2000 (bootloader_start d)); [|lia]).
    + reflexivity.
    + cbn -[hi lo]. apply lo_hi_word. lia.
  - intros E. assert (Hdm := Z.div_mod (bootloader_start d) W ltac:(lia)).
    assert (Hq : 0 ≤ bootloader_start d / W < 2) by (split; [apply Z.div_pos; lia|apply Z.div_lt_upper_bound; lia]).
    assert (Hm := Z.mod_pos_bound (bootloader_start d) W ltac:(lia)). assert (Hd2 := Z.div_mod (bootloader_start d) 2 ltac:(lia)).
    assert (Hm2 : bootloader_start d mod 2 = 0).
    { rewrite (dev_boot d Hd). rewrite (Z_div_exact_full_2 (page_size d) 4) by lia.
      replace (pages d * (4 * (page_size d / 4))) with (pages d * 2 * (page_size d / 4) * 2) by lia. apply Z.mod_mul. lia. }
    assert (bootloader_start d / W = 0 ∨ bootloader_start d / W = 1) as [E1|E1] by lia;
      rewrite E1 in Hdm; lia.
Qed.
End upload.

(** ** Whole runs of the tool *)
Section tool.
Variable libusb_init : world → Z.
Variable libusb_get_device_list : world → Z * list (option device_descriptor).
Variable libusb_open : world → nat → Z.
Variable answer : world → usb_request → Z * list Z.
Variable erase_rounds : Z.
Variable page_stack : nat → list Z.
Variable reset_stack : Z.
Variable fopen : cstr → option cstr.
Variable stdin : cstr.
Variable time : world → Z.
Abbreviation connect := (micronucleus_connect libusb_init libusb_get_device_list libusb_open answer).
Abbreviation tool := (main libusb_init libusb_get_device_list libusb_open answer erase_rounds page_stack reset_stack fopen stdin time).

(** A bootloader of protocol version 2 on the bus: what libusb lists, and the
    six bytes the device describes itself with. *)
Variables (before after : list (option device_descriptor)) (desc : device_descriptor) (b0 b1 b2 b3 b4 b5 : Z).
Definition other_device (o : option device_descriptor) : Prop :=
  match o with None => True | Some e => ¬ (idVendor e = MICRONUCLEUS_VENDOR_ID ∧ idProduct e = MICRONUCLEUS_PRODUCT_ID) end.
Record plugged_in : Prop := PluggedIn {
  usb_init : ∀ w, 0 ≤ libusb_init w;
  usb_list : ∀ w, libusb_get_device_list w = (Z.of_nat (length (before ++ Some desc :: after)), before ++ Some desc :: after);
  usb_before : Forall other_device before;
  usb_id : idVendor desc = MICRONUCLEUS_VENDOR_ID ∧ idProduct desc = MICRONUCLEUS_PRODUCT_ID;
  usb_version : Z.land (Z.shiftr (bcdDevice desc) 8) 0xFF = 2;
  usb_open : ∀ w i, 0 ≤ libusb_open w i;
  usb_info : ∀ w r, dir_in r = true → answer w r = (6, [b0; b1; b2; b3; b4; b5]);
  usb_accepts : ∀ w r, dir_in r = false → (answer w r).1 = 0
}.
Hypothesis Husb : plugged_in.

Definition info_request : usb_request := Request true 0 0 0 [] 6.
(** The device as the tool sees it. *)
Definition found (fast : Z) : micronucleus :=
  let flash := b0 * 256 + b1 in
  let n := if flash / b2 * b2 <? flash then flash / b2 + 1 else flash / b2 in
  let ws := if fast =? 0 then Z.land b3 127 + 2 else Z.land b3 127 in
  Nucleus 2 (Z.land (bcdDevice desc) 0xFF) flash b2 (n * b2) n ws (if negb (Z.land b3 128 =? 0) then ws * n / 4 else ws * n) b4 b5.

(** [w'] is [w] after requests, holding [n] devices more. *)
Record holding (n : Z) (reqs : list usb_request) (w w' : world) : Prop := Holding {
  held_reqs : sent w' = sent w ++ reqs;
  held_allocated : allocated w' = allocated w + n;
  held_opened : opened w' = opened w + n;
  held_lists : device_lists w' = device_lists w;
  held_contexts : contexts w' = contexts w + n
}.
Lemma holding_app n m r1 r2 w w1 w2 : holding n r1 w w1 → holding m r2 w1 w2 → holding (n + m) (r1 ++ r2) w w2.
Proof. intros [H1 ? ? ? ?] [H2 ? ? ? ?]. split; [by rewrite H2, H1, app_assoc|lia..]. Qed.
Lemma holding_sends r w w' : sends r w w' → holding 0 r w w'.
Proof. intros [? ? ? ? ?]. split; [done|lia..]. Qed.

Lemma skip_others fast i l w : Forall other_device l → ∀ l', device_loop libusb_open answer fast i (l ++ l') w =
  device_loop libusb_open answer fast (i + length l) l' w.
Proof.
  intros Hl l'. revert i. induction Hl as [|o l Ho _ IH]; intros i; [by rewrite Nat.add_0_r|].
  cbn [app device_loop length]. rewrite Nat.add_succ_r, <-Nat.add_succ_l. rewrite <-IH.
  destruct o as [e|]; [|done]. destruct (Z.eqb_spec (idVendor e) MICRONUCLEUS_VENDOR_ID), (Z.eqb_spec (idProduct e) MICRONUCLEUS_PRODUCT_ID);
    cbn [andb]; try done. by destruct Ho.
Qed.

Lemma read_info_run vminor fast w : b2 ≠ 0 → vminor = Z.land (bcdDevice desc) 0xFF →
  ∃ w', read_info answer 2 vminor fast w = Done (Some (found fast)) w' ∧ sends [info_request] w w'.
Proof.
  intros Hb2 ->. exists (log_request info_request w). split; [|by split].
  unfold read_info. change (2 <=? 2) with true. cbv iota.
  assert (Hct : libusb_control_transfer answer (Request true 0 0 0 [] 6) w = Done (6, [b0; b1; b2; b3; b4; b5]) (log_request info_request w)).
  { unfold libusb_control_transfer. rewrite bind_gets, bind_modify. by rewrite (usb_info Husb) by done. }
  mstep Hct. change (6 <? 0) with false. change (6 <? 6) with false. cbv iota. cbn [lookup list_lookup].
  rewrite !bind_of_opt. unfold page_count. destruct (Z.eqb_spec b2 0); [done|].
  rewrite Z.shiftl_mul_pow2 by lia. change (2 ^ 8) with 256. cbn [andb]. done.
Qed.

Lemma connect_run fast w : b2 ≠ 0 → ∃ w', connect fast w = Done (Some (found fast)) w' ∧ holding 1 [info_request] w w'.
Proof.
  intros Hb2. unfold micronucleus_connect. rewrite bind_gets. assert (Hi := usb_init Husb w).
  destruct (Z.ltb_spec (libusb_init w) 0); [lia|]. rewrite bind_modify, bind_gets. rewrite (usb_list Husb).
  destruct (Z.ltb_spec (Z.of_nat (length (before ++ Some desc :: after))) 0); [lia|]. rewrite bind_modify.
  set (w1 := hold 0 0 1 0 (hold 0 0 0 1 w)).
  assert (Hloop : ∃ w2, device_loop libusb_open answer fast 0 (before ++ Some desc :: after) w1 = Done (Some (Some (found fast))) w2 ∧
    sends [info_request] (hold 1 1 0 0 w1) w2).
  { rewrite skip_others by apply Husb. cbn [device_loop]. destruct (usb_id Husb) as [-> ->]. rewrite !Z.eqb_refl. cbn [andb].
    rewrite bind_modify. rewrite (usb_version Husb). change (MICRONUCLEUS_MAX_MAJOR_VERSION <? 2) with false. cbv iota.
    rewrite bind_gets. assert (Ho := usb_open Husb (hold 1 0 0 0 w1) (0 + length before)%nat).
    destruct (Z.ltb_spec (libusb_open (hold 1 0 0 0 w1) (0 + length before)) 0); [lia|]. rewrite bind_modify.
    destruct (read_info_run (Z.land (bcdDevice desc) 0xFF) fast (hold 0 1 0 0 (hold 1 0 0 0 w1)) Hb2 eq_refl) as (w2 & Hrun & Hs).
    mstep Hrun. exists w2. split; [done|]. destruct Hs as [? Ha Hop Hl Hc]. split; cbn in *; try done; lia. }
  destruct Hloop as (w2 & Hrun & [Hr Ha Ho Hl Hc]). mstep Hrun. rewrite bind_modify. eexists. split; [done|].
  split; cbn in *; try done; lia.
Qed.

Definition no_option (name : cstr) : Prop :=
  name ∉ [str "--run"; str "--type"; str "--help"; str "-h"; str "--dump-progress"; str "--no-ansi"; str "--fast-mode";
    str "--erase-only"; str "--timeout"].
Definition upload_options (name : cstr) : options := Options false FILE_TYPE_INTEL_HEX false 0 0 (Some name).

Lemma parse_name name w : no_option name → parse_args [name] default_options w = Done (inl (upload_options name)) w.
Proof.
  unfold no_option. intros Hn. rewrite !not_elem_of_cons in Hn. cbn [parse_args].
  rewrite !decide_False by tauto. done.
Qed.

(** The buffer after a program was loaded. *)
Definition loaded (data : list Z) : list Z := data ++ replicate (BUFFER_SIZE - length data) 255.
Lemma loaded_ok data : (0 < length data)%nat → Z.of_nat (length data) ≤ 65536 → Forall (λ b, 0 ≤ b < 256) data →
  program_ok (loaded data) (Z.of_nat (length data)).
Proof.
  intros Hl Hl2 Hd. unfold loaded. split.
  - rewrite length_app, length_replicate. unfold BUFFER_SIZE. lia.
  - apply Forall_app. split; [done|]. apply Forall_replicate. lia.
Qed.
Lemma byte_at_loaded data a : 0 ≤ a → Z.of_nat (length data) ≤ 65536 →
  byte_at (loaded data) (Z.of_nat (length data)) a = default 255 (data !! Z.to_nat a).
Proof.
  intros Ha Hl. unfold byte_at, loaded. destruct (Z.ltb_spec (Z.of_nat (length data)) a).
  - by rewrite lookup_ge_None_2 by lia.
  - destruct (decide (a = Z.of_nat (length data))) as [->|].
    + rewrite Nat2Z.id, lookup_ge_None_2 by done. rewrite lookup_total_app_r by done. rewrite Nat.sub_diag.
      apply lookup_total_replicate_2. unfold BUFFER_SIZE. lia.
    + rewrite lookup_total_app_l by lia. destruct (lookup_lt_is_Some_2 data (Z.to_nat a)) as [x Hx]; [lia|].
      rewrite Hx. by apply list_lookup_total_correct.
Qed.

Lemma load_run upper k data name w : name ≠ str "-" → fopen name = Some (program_file upper k data) → (0 < k < 256)%nat →
  (0 < length data)%nat → Z.of_nat (length data) ≤ flash_size (found 0) → flash_size (found 0) < 65536 → Forall (λ b, 0 ≤ b < 256) data →
  load_file fopen stdin (upload_options name) (found 0) w = Done (Some (loaded data, Z.of_nat (length data))) w.
Proof.
  intros Hn Hf Hk Hl Hfs Hfl Hd. unfold load_file. cbn [upload_options file_type file].
  rewrite (program_read fopen stdin name upper k data BUFFER_SIZE fresh_parser) by (done || lia). cbn [negb Z.eqb endAddr startAddr buffer].
  rewrite u32_id by lia. destruct (Z.leb_spec (Z.of_nat (length data)) 0); [lia|].
  by destruct (Z.ltb_spec (flash_size (found 0)) (Z.of_nat (length data))); [lia|].
Qed.

Definition erase_request : usb_request := Request false 2 0 0 [] 0.
Lemma erase_run d w : ∃ w', micronucleus_eraseFlash answer erase_rounds d w = Done 0 w' ∧ sends [erase_request] w w'.
Proof.
  unfold micronucleus_eraseFlash. destruct (vendor_out_run answer (usb_accepts Husb) 2 0 0 w) as (w1 & Hrun & Hs). mstep Hrun.
  destruct (delay_run (erase_rounds * (erase_sleep d / 100)) w1) as (w2 & Hrun2 & Hs2). mstep Hrun2.
  exists w2. split; [done|exact (sends_app _ _ _ _ _ Hs Hs2)].
Qed.

(** Up to the connection: the options, and the first round of the wait loop. *)
Lemma tool_connects fuel name w : b2 ≠ 0 → no_option name → (0 < fuel)%nat →
  ∃ w', holding 1 [info_request] w w' ∧ tool fuel [name] w =
    upload libusb_init libusb_get_device_list libusb_open answer erase_rounds page_stack reset_stack fopen stdin fuel
      (upload_options name) (found 0) w'.
Proof.
  intros Hb2 Hno Hfuel. unfold main. mstep (parse_name name w Hno). rewrite bind_gets. destruct fuel as [|fuel]; [lia|].
  destruct (delay_run 100 w) as (w1 & Hrun1 & Hs1). destruct (connect_run 0 w1 Hb2) as (w2 & Hrun2 & Hs2).
  exists w2. split; [by apply (holding_app 0 1 [] _ w w1 w2); [apply holding_sends|]|].
  cbn [wait_loop upload_options fast_mode timeout]. rewrite (bind_done _ _ w (Some (found 0)) w2); [done|].
  mstep Hrun1. mstep Hrun2. by rewrite bind_gets.
Qed.

(** *** The whole run *)
Hypothesis stack_length : ∀ n, length (page_stack n) = n.

(** The requests of an upload: the device is asked what it is, erased, and
    written. *)
Definition run_requests (program : list Z) (size r : Z) : list usb_request :=
  [info_request; erase_request] ++ upload_requests (found 0) program size r.

(** Up to the write: what is left of [main] is the write and the disconnection. *)
Definition after_erase (data : list Z) : M world Z :=
  res ← micronucleus_writeFlash answer page_stack reset_stack (found 0) (Z.of_nat (length data)) (loaded data);
  if negb (res =? 0) then mret 1 else micronucleus_disconnect (found 0);; mret 0.

Lemma tool_erases upper k data name fuel w : no_option name → name ≠ str "-" →
  fopen name = Some (program_file upper k data) → (0 < k < 256)%nat → (0 < length data)%nat →
  Forall (λ b, 0 ≤ b < 256) data → Z.of_nat (length data) ≤ flash_size (found 0) → device_ok (found 0) → (0 < fuel)%nat →
  ∃ w', holding 1 [info_request; erase_request] w w' ∧ tool fuel [name] w = after_erase data w'.
Proof.
  intros Hno Hn Hf Hk Hl Hb Hfs Hdev Hfuel. destruct (dev_page _ Hdev) as [Hp _]. destruct (dev_flash _ Hdev) as [_ Hf16].
  destruct (tool_connects fuel name w ltac:(change b2 with (page_size (found 0)); lia) Hno Hfuel) as (w1 & Hh1 & Hrun). rewrite Hrun.
  destruct (delay_run CONNECT_WAIT w1) as (w2 & Hrun2 & Hs2). destruct (erase_run (found 0) w2) as (w3 & Hrun3 & Hs3).
  exists w3. split; [exact (holding_app 1 0 _ _ _ _ _ Hh1 (holding_sends _ _ _ (sends_app _ _ _ _ _ Hs2 Hs3)))|].
  unfold upload. cbn [upload_options fast_mode erase_only run]. mstep Hrun2. mstep (load_run upper k data name w2 Hn Hf Hk Hl Hfs Hf16 Hb).
  mstep Hrun3. cbn [negb Z.eqb andb]. rewrite bind_ret. rewrite u32_id by lia. unfold after_erase.
  unfold mbind, M_bind. destruct (micronucleus_writeFlash _ _ _ _ _ _ w3) as [res w4| | | |]; [|done..].
  by destruct (negb (res =? 0)).
Qed.

(** C27: a program in an Intel HEX file is uploaded by [micronucleus file],
    whatever its records' length and case, to the first bootloader of protocol
    version 2 on the bus: the tool ends with 0 in the first round of its wait
    loop, it holds no memory, device or context of libusb afterwards, and what
    the bootloader received is the program, 0xFF after it, and the two jumps. *)
Theorem tool_uploads_program upper k data name r fuel w : no_option name → name ≠ str "-" →
  fopen name = Some (program_file upper k data) → (0 < k < 256)%nat → (0 < length data)%nat →
  Forall (λ b, 0 ≤ b < 256) data → Z.of_nat (length data) ≤ flash_size (found 0) → device_ok (found 0) →
  reset_target (raw_page (found 0) (loaded data) (Z.of_nat (length data)) 0) = Some r → (0 < fuel)%nat →
  ∃ w', tool fuel [name] w = Done 0 w' ∧ holding 0 (run_requests (loaded data) (Z.of_nat (length data)) r) w w' ∧
    ∀ a, 0 ≤ a < bootloader_start (found 0) → in_vector (found 0) a = false →
      flash_byte (pages_of None (run_requests (loaded data) (Z.of_nat (length data)) r)) a = default 255 (data !! Z.to_nat a).
Proof.
  intros Hno Hn Hf Hk Hl Hb Hfs Hdev Hr Hfuel. destruct (dev_page _ Hdev) as [Hp _].
  destruct (dev_flash _ Hdev) as [_ Hf16]. assert (Hok := loaded_ok data Hl ltac:(lia) Hb).
  destruct (tool_erases upper k data name fuel w Hno Hn Hf Hk Hl Hb Hfs Hdev Hfuel) as (w3 & Hh & Hrun). rewrite Hrun.
  destruct (write_flash_run answer (usb_accepts Husb) (found 0) (loaded data) _ r Hdev Hok Hr page_stack reset_stack stack_length w3)
    as (w4 & Hrun4 & Hs4). unfold after_erase. mstep Hrun4. cbn [negb Z.eqb].
  unfold micronucleus_disconnect. rewrite bind_modify. eexists. split; [done|split].
  - destruct (holding_app 1 0 _ _ _ _ _ Hh (holding_sends _ _ _ Hs4)) as [? ? ? ? ?]. split; cbn; [done|lia..].
  - intros a Ha Hv. change (flash_after (found 0) (loaded data) (Z.of_nat (length data)) r a = default 255 (data !! Z.to_nat a)).
    rewrite (dev_boot _ Hdev) in Ha. rewrite flash_is_program by done. apply byte_at_loaded; lia.
Qed.

(** The reset vector is looked at only after the chip is erased.  For a
    program that does not start with a jump the tool ends with 1, after the
    program that was in the chip is gone and nothing was written; it does not
    close the device. *)
Theorem no_jump_erases_only upper k data name fuel w : no_option name → name ≠ str "-" →
  fopen name = Some (program_file upper k data) → (0 < k < 256)%nat → (0 < length data)%nat →
  Forall (λ b, 0 ≤ b < 256) data → Z.of_nat (length data) ≤ flash_size (found 0) → device_ok (found 0) →
  reset_target (raw_page (found 0) (loaded data) (Z.of_nat (length data)) 0) = None → (0 < fuel)%nat →
  ∃ w', tool fuel [name] w = Done 1 w' ∧ holding 1 [info_request; erase_request] w w'.
Proof.
  intros Hno Hn Hf Hk Hl Hb Hfs Hdev Hr Hfuel. destruct (dev_page _ Hdev) as [Hp _].
  destruct (dev_flash _ Hdev) as [_ Hf16]. assert (Hok := loaded_ok data Hl ltac:(lia) Hb).
  destruct (tool_erases upper k data name fuel w Hno Hn Hf Hk Hl Hb Hfs Hdev Hfuel) as (w3 & Hh & Hrun). rewrite Hrun.
  unfold after_erase. mstep (write_flash_refuses answer (found 0) (loaded data) (Z.of_nat (length data)) page_stack reset_stack w3 Hdev Hok Hr
    (stack_length (Z.to_nat (page_size (found 0))))). exists w3. by split.
Qed.
End tool.

(** ** A Digispark on the bus
    An ATtiny85 with 6650 bytes for programs in pages of 64 bytes. *)
Definition demo_desc : device_descriptor := Descriptor MICRONUCLEUS_VENDOR_ID MICRONUCLEUS_PRODUCT_ID 0x0200.
Definition demo_list : list (option device_descriptor) := [None; Some (Descriptor 0x1d6b 2 0)] ++ Some demo_desc :: [].
Definition demo_answer (w : world) (q : usb_request) : Z * list Z :=
  if dir_in q then (6, [0x19; 0xFA; 64; 10; 0; 0]) else (0, []).
Definition demo_found : micronucleus := found demo_desc 0x19 0xFA 64 10 0 0 0.
Definition demo_stack (n : nat) : list Z := replicate n 170.
Definition demo_world : world := World 0 [] 0 0 0 0.

Lemma demo_stack_length n : length (demo_stack n) = n.
Proof. apply length_replicate. Qed.
Lemma demo_accepts w q : dir_in q = false → (demo_answer w q).1 = 0.
Proof. unfold demo_answer. by intros ->. Qed.
Lemma demo_device : device_ok demo_found.
Proof. split; vm_compute; repeat split; congruence. Qed.
Lemma demo_plugged : plugged_in (λ _, 0) (λ _, (3, demo_list)) (λ _ _, 0) demo_answer
  [None; Some (Descriptor 0x1d6b 2 0)] [] demo_desc 0x19 0xFA 64 10 0 0.
Proof.
  split; try done.
  - repeat constructor. intros [H _]. discriminate H.
  - unfold demo_answer. by intros w q ->.
  - apply demo_accepts.
Qed.
Lemma demo_name_no_option : no_option demo_name.
Proof. apply (bool_decide_unpack (no_option demo_name)). vm_compute. exact I. Qed.
Lemma demo_program_ok : program_ok (loaded demo_program) 10.
Proof. apply (loaded_ok demo_program); [cbn; lia..|]. unfold demo_program. repeat constructor; lia. Qed.

Lemma write_flash_installs_witness :
  ∃ w', micronucleus_writeFlash demo_answer demo_stack 0 demo_found 10 (loaded demo_program) demo_world = Done 0 w' ∧
    sent w' = upload_requests demo_found (loaded demo_program) 10 13 ∧
    jump_target 4096 (flash_byte (pages_of None (upload_requests demo_found (loaded demo_program) 10 13))) 0 = Some 3328.
Proof.
  destruct (write_flash_installs demo_answer demo_accepts demo_found (loaded demo_program) 10 13 demo_device demo_program_ok
    ltac:(vm_compute; reflexivity) demo_stack 0 demo_stack_length 4096 demo_world) as (w' & Hrun & Hs & _ & Hj & _).
  - by exists 1.
  - vm_compute. congruence.
  - exists w'. split; [exact Hrun|split; [exact Hs|exact Hj]].
Defined.

(** The same chip with 16 KB: the bootloader is at byte 15360, word 7680. *)
Definition large_found : micronucleus := Nucleus 2 0 15360 64 15360 240 12 2880 0 0.
Lemma large_device : device_ok large_found.
Proof. split; vm_compute; repeat split; congruence. Qed.
Lemma large_flash_misses_bootloader_witness :
  ∃ w', micronucleus_writeFlash demo_answer demo_stack 0 large_found 10 (loaded demo_program) demo_world = Done 0 w' ∧
    jump_target 8192 (flash_byte (pages_of None (upload_requests large_found (loaded demo_program) 10 13))) 0 = Some 7168.
Proof.
  destruct (large_flash_misses_bootloader demo_answer demo_accepts large_found (loaded demo_program) 10 13 large_device demo_program_ok
    ltac:(vm_compute; reflexivity) demo_stack 0 demo_stack_length 8192 demo_world) as (w' & Hrun & _ & Hj & _).
  - vm_compute. split; congruence.
  - vm_compute. congruence.
  - exists w'. split; [exact Hrun|exact Hj].
Defined.

Lemma tool_uploads_program_witness :
  ∃ w', main (λ _, 0) (λ _, (3, demo_list)) (λ _ _, 0) demo_answer 100 demo_stack 0
      (one_file demo_name (program_file true 8 demo_program)) [] (λ _, 0) 1 [demo_name] demo_world = Done 0 w' ∧
    length (sent w') = 36%nat ∧ opened w' = 0 ∧ contexts w' = 0 ∧ allocated w' = 0.
Proof.
  destruct (tool_uploads_program (λ _, 0) (λ _, (3, demo_list)) (λ _ _, 0) demo_answer 100 demo_stack 0
    (one_file demo_name (program_file true 8 demo_program)) [] (λ _, 0) [None; Some (Descriptor 0x1d6b 2 0)] [] demo_desc 0x19 0xFA 64 10 0 0
    demo_plugged demo_stack_length true 8 demo_program demo_name 13 1 demo_world) as (w' & Hrun & [Hs Ha Ho _ Hc] & _).
  - exact demo_name_no_option.
  - discriminate.
  - reflexivity.
  - lia.
  - cbn. lia.
  - unfold demo_program. repeat constructor; lia.
  - vm_compute. congruence.
  - exact demo_device.
  - vm_compute. reflexivity.
  - lia.
  - exists w'. split; [exact Hrun|]. rewrite Hs, Ho, Hc, Ha. split; [vm_compute; reflexivity|repeat split].
Defined.

(** A program of data only. *)
Definition demo_data : list Z := [1; 2; 3; 4].
Lemma no_jump_erases_only_witness :
  ∃ w', main (λ _, 0) (λ _, (3, demo_list)) (λ _ _, 0) demo_answer 100 demo_stack 0
      (one_file demo_name (program_file true 8 demo_data)) [] (λ _, 0) 1 [demo_name] demo_world = Done 1 w' ∧
    sent w' = [info_request; erase_request] ∧ opened w' = 1.
Proof.
  destruct (no_jump_erases_only (λ _, 0) (λ _, (3, demo_list)) (λ _ _, 0) demo_answer 100 demo_stack 0
    (one_file demo_name (program_file true 8 demo_data)) [] (λ _, 0) [None; Some (Descriptor 0x1d6b 2 0)] [] demo_desc 0x19 0xFA 64 10 0 0
    demo_plugged demo_stack_length true 8 demo_data demo_name 1 demo_world) as (w' & Hrun & [Hs _ Ho _ _]).
  - exact demo_name_no_option.
  - discriminate.
  - reflexivity.
  - lia.
  - cbn. lia.
  - unfold demo_data. repeat constructor; lia.
  - vm_compute. congruence.
  - exact demo_device.
  - vm_compute. reflexivity.
  - lia.
  - exists w'. split; [exact Hrun|split; [exact Hs|exact Ho]].
Defined.
