(* ===== verification/AdavChain.v ===== *)
(** * ADGenericChain: the queue the services are built on

    Every member function of the class ADGenericChain of lib-adav: a FIFO of
    data pointers under a POSIX mutex, with a helper object whose callbacks
    identify and free the elements.  The links are the ones of [ChainHeap].

    The repository has two copies of the library.
    [src/sources/lib/lib-adav-old], the one the build uses, and
    [src/sources/lib/lib-adav], which differ in where the functions that remove
    by identity read the first holder: after they have taken the mutex, or
    before.  The theorems: with nobody in between, both are a queue, and the
    only call that can fault is one that frees an element twice; the copy that
    is built is one also when other threads get in between, and the other one
    follows a holder that may have been freed. *)

From stdpp Require Import base list gmap.
From Stdlib Require Import ZArith Lia.
From S2P Require Import Prelude ChainHeap Chain.

(** A default POSIX mutex: taking it while it is held waits. *)
Definition mutex_lock (held : bool) : option (unit * bool) := if held then None else Some ((), true).
Definition mutex_unlock (_ : unit) (_ : bool) : bool := false.

Lemma mutex_lock_free held : held = false → ∃ k held', mutex_lock held = Some (k, held') ∧
  mutex_unlock k held' = held.
Proof. intros ->. by exists (), true. Qed.

#[export] Instance mutex : ChainLock bool unit := {|
  acquire := mutex_lock;
  unlock := mutex_unlock;
  lock_free held := held = false;
  acquire_free := mutex_lock_free
|}.

(** [class ADChainConsumer]: the callbacks get the identity of the chain that
    calls; the first two only read the element, the third may free what the
    element owns ([None]: it frees what is not there). *)
Record ADChainConsumer (A : Type) := Consumer {
  cb_identify : Z → gmap loc A → ptr → Z → Z;
  cb_double_identify : Z → gmap loc A → ptr → Z → Z → Z;
  cb_free : Z → gmap loc A → ptr → option (gmap loc A)
}.
Arguments Consumer {A} _ _ _.
Arguments cb_identify {A} _ _ _ _ _.
Arguments cb_double_identify {A} _ _ _ _ _ _.
Arguments cb_free {A} _ _ _ _.

(** The two copies of the library: lib-adav-old, which is built, and lib-adav. *)
Inductive revision := AdavOld | Adav.

(** The members of [ADGenericChain] and of its base [ADChainProducer]. *)
Record ADGenericChain (A : Type) := AD {
  core : chain bool A;
  disable_autoremove : Z;
  ident_generator : Z;
  pConsumer : option (ADChainConsumer A);
  id : Z
}.
Arguments AD {A} _ _ _ _ _.
Arguments core {A} _.
Arguments disable_autoremove {A} _.
Arguments ident_generator {A} _.
Arguments pConsumer {A} _.
Arguments id {A} _.

Definition set_core {A} c (d : ADGenericChain A) : ADGenericChain A :=
  AD c (disable_autoremove d) (ident_generator d) (pConsumer d) (id d).
Definition set_disable {A} z (d : ADGenericChain A) : ADGenericChain A :=
  AD (core d) z (ident_generator d) (pConsumer d) (id d).
Definition set_ident {A} z (d : ADGenericChain A) : ADGenericChain A :=
  AD (core d) (disable_autoremove d) z (pConsumer d) (id d).
Definition set_consumer {A} p (d : ADGenericChain A) : ADGenericChain A :=
  AD (core d) (disable_autoremove d) (ident_generator d) p (id d).

Section code.
Context {A : Type}.
(** [malloc(sizeof(struct chain_holder))] *)
Variable malloc : gmap loc chain_holder → option (loc * chain_holder).

Abbreviation D := (M (ADGenericChain A)).

Definition on_core {B} (c : M (chain bool A) B) : D B := zoom core set_core c.

Definition SEMA_LOCK : D unit := on_core lock_chain.
Definition SEMA_UNLOCK : D unit := on_core (unlock_chain ()).

(** The members of [ADChainProducer]. *)
Definition identify_chain_element (d : ADGenericChain A) (os : gmap loc A) (element : ptr) (ident : Z) : Z :=
  match pConsumer d with Some c => cb_identify c (id d) os element ident | None => -1 end.
Definition double_identify_chain_element (d : ADGenericChain A) (os : gmap loc A) (element : ptr) (ident1 ident2 : Z) : Z :=
  match pConsumer d with Some c => cb_double_identify c (id d) os element ident1 ident2 | None => -1 end.
Definition free_chain_element_data (element : ptr) : D unit :=
  p ← gets pConsumer;
  i ← gets id;
  match p with
  | Some c => on_core (os ← gets objs; os' ← of_opt (cb_free c i os element); modify (set_objs os'))
  | None => mret ()
  end.
Definition is_helper_attached (d : ADGenericChain A) : Z :=
  match pConsumer d with None => -1 | Some _ => 0 end.
Definition attach_helper (c : ADChainConsumer A) : D Z :=
  p ← gets pConsumer;
  match p with
  | None => modify (set_consumer (Some c));; gets id
  | Some _ => mret (-1)
  end.

(** The constructor, on the memory [raw] the object is made in; [IDGenerator]
    is the counter of the base class, and the second result its new value. *)
Definition ADGenericChain_new (raw : chain bool A) (IDGenerator : Z) : outcome (chain bool A) (ADGenericChain A * Z) :=
  (_ ← modify (set_peak 0);
   _ ← modify (set_size 0);
   b ← gets base;
   _ ← store b (with_pNext None);
   _ ← modify (set_clock false);
   _ ← modify (set_init 1);
   c ← gets (λ c, c);
   mret (AD c 0 0 None IDGenerator, int32 (IDGenerator + 1))) raw.

Definition chain_lock : D unit := SEMA_LOCK.
Definition chain_unlock : D unit := SEMA_UNLOCK.

Definition chain_add (data : ptr) : D Z := on_core (add_tail (λ _, malloc) GFP_KERNEL data).

Definition chain_put (data : ptr) : D Z :=
  SEMA_LOCK;;
  flag ← on_core (gets init_flag);
  if flag =? 0 then SEMA_UNLOCK;; mret (-1)
  else iRet ← chain_add data; SEMA_UNLOCK;; mret iRet.

(** [if(pHolder==NULL) return NULL; else return pHolder->pData;] *)
Definition holder_data (pHolder : ptr) : D ptr :=
  match pHolder with
  | None => mret None
  | Some l => h ← on_core (load l); mret (pData h)
  end.

(** The bodies of the two [get_by] functions, which differ in the callback. *)
Definition get_by (match_ : ADGenericChain A → gmap loc A → ptr → Z) : D ptr :=
  pHolder ← on_core first_holder;
  match pHolder with
  | None => mret None
  | Some _ =>
      d ← gets (λ d, d);
      if negb (is_helper_attached d =? 0) then mret None
      else
        fuel ← gets (walk_fuel ∘ core);
        found ← on_core (search fuel (match_ d) pHolder);
        holder_data found
  end.
Definition chain_get_by_ident (ident : Z) : D ptr :=
  get_by (λ d os e, identify_chain_element d os e ident).
Definition chain_get_by_double_ident (ident1 ident2 : Z) : D ptr :=
  get_by (λ d os e, double_identify_chain_element d os e ident1 ident2).

(** The two [remove_by] functions under the mutex; [pHolder] is the local that
    was initialised with [base_chain.pNext]. *)
Definition remove_by_body (match_ : ADGenericChain A → gmap loc A → ptr → Z) (pHolder : ptr) : D ptr :=
  flag ← on_core (gets init_flag);
  if flag =? 0 then SEMA_UNLOCK;; mret None
  else
    match pHolder with
    | None => SEMA_UNLOCK;; mret None
    | Some _ =>
        d ← gets (λ d, d);
        if negb (is_helper_attached d =? 0) then SEMA_UNLOCK;; mret None
        else
          fuel ← gets (walk_fuel ∘ core);
          found ← on_core (search fuel (match_ d) pHolder);
          match found with
          | None => SEMA_UNLOCK;; mret None
          | Some l =>
              h ← on_core (load l);
              on_core (unlink_free l);;
              SEMA_UNLOCK;;
              mret (pData h)
          end
    end.
Definition remove_by_locked match_ (pHolder : ptr) : D ptr := SEMA_LOCK;; remove_by_body match_ pHolder.
(** The local is initialised before [SEMA_LOCK] in lib-adav, after it in
    lib-adav-old. *)
Definition remove_by (rev : revision) match_ : D ptr :=
  match rev with
  | Adav => pHolder ← on_core first_holder; remove_by_locked match_ pHolder
  | AdavOld => SEMA_LOCK;; pHolder ← on_core first_holder; remove_by_body match_ pHolder
  end.
Definition match_ident (ident : Z) (d : ADGenericChain A) (os : gmap loc A) (e : ptr) : Z :=
  identify_chain_element d os e ident.
Definition match_double_ident (ident1 ident2 : Z) (d : ADGenericChain A) (os : gmap loc A) (e : ptr) : Z :=
  double_identify_chain_element d os e ident1 ident2.
Definition chain_remove_by_ident (rev : revision) (ident : Z) : D ptr := remove_by rev (match_ident ident).
Definition chain_remove_by_double_ident (rev : revision) (ident1 ident2 : Z) : D ptr :=
  remove_by rev (match_double_ident ident1 ident2).

(** [while(i++<index) pHolder = pHolder->pNext;] *)
Fixpoint next_holder (n : nat) (pHolder : ptr) : M (chain bool A) ptr :=
  match n with
  | O => mret pHolder
  | S n => l ← deref pHolder; h ← load l; next_holder n (pNext h)
  end.
Definition chain_get_by_index (index : Z) : D ptr :=
  pHolder ← on_core first_holder;
  match pHolder with
  | None => mret None
  | Some _ =>
      size ← on_core (gets c_size);
      if size <=? index then mret None
      else
        pHolder ← on_core (next_holder (Z.to_nat index) pHolder);
        holder_data pHolder
  end.

Definition chain_remove : D Z := on_core remove_first.
Definition remove : D Z := on_core remove_first.

Definition chain_get : D ptr :=
  SEMA_LOCK;;
  flag ← on_core (gets init_flag);
  if flag =? 0 then SEMA_UNLOCK;; mret None
  else
    pHolder ← on_core first_holder;
    match pHolder with
    | None => SEMA_UNLOCK;; mret None
    | Some l =>
        h ← on_core (load l);
        chain_remove;;
        SEMA_UNLOCK;;
        mret (pData h)
    end.

Definition get_top : D ptr :=
  flag ← on_core (gets init_flag);
  if flag =? 0 then mret None
  else pHolder ← on_core first_holder; holder_data pHolder.

Definition get_chain_size : D Z :=
  SEMA_LOCK;; size ← on_core (gets c_size); SEMA_UNLOCK;; mret size.

Definition chain_generate_ident : D Z :=
  SEMA_LOCK;;
  modify (λ d, set_ident (int32 (ident_generator d + 1)) d);;
  ident ← gets ident_generator;
  SEMA_UNLOCK;;
  mret ident.

(** [base_chain.pNext->pData = NULL;] after the element was freed, in
    lib-adav-old only. *)
Definition forget_data (rev : revision) (l : loc) : D unit :=
  match rev with AdavOld => on_core (store l (with_pData None)) | Adav => mret () end.

Fixpoint remove_all_loop (rev : revision) (fuel : nat) : D Z :=
  p ← on_core first_holder;
  match p with
  | None => mret 0
  | Some l =>
      match fuel with
      | O => out_of_fuel
      | S fuel =>
          dis ← gets disable_autoremove;
          (if dis =? 0 then
             h ← on_core (load l);
             free_chain_element_data (pData h);;
             on_core (kfree_data (pData h));;
             forget_data rev l
           else mret ());;
          remove;;
          remove_all_loop rev fuel
      end
  end.
Definition remove_all (rev : revision) : D Z := fuel ← gets (walk_fuel ∘ core); remove_all_loop rev fuel.

Definition ADGenericChain_delete (rev : revision) : D Z :=
  SEMA_LOCK;; remove_all rev;; on_core (modify (set_init 0));; SEMA_UNLOCK;; mret 0.
Definition chain_empty (rev : revision) : D Z :=
  SEMA_LOCK;; remove_all rev;; modify (set_ident 0);; SEMA_UNLOCK;; mret 0.

Definition disable_auto_remove : D Z := modify (set_disable 1);; mret 0.
Definition enable_auto_remove : D Z := modify (set_disable 0);; mret 0.

End code.

(** ** The queue the class promises *)
Record adq (A : Type) := Adq {
  q_items : list ptr;
  q_peak : Z;
  q_alive : bool;
  q_objs : gmap loc A;
  q_ident : Z;
  q_disable : Z;
  q_helper : option (ADChainConsumer A);
  q_id : Z
}.
Arguments Adq {A} _ _ _ _ _ _ _ _.
Arguments q_items {A} _.
Arguments q_peak {A} _.
Arguments q_alive {A} _.
Arguments q_objs {A} _.
Arguments q_ident {A} _.
Arguments q_disable {A} _.
Arguments q_helper {A} _.
Arguments q_id {A} _.

Section spec.
Context {A : Type}.
Implicit Types q : adq A.

Definition q_set_items l q : adq A :=
  Adq l (q_peak q) (q_alive q) (q_objs q) (q_ident q) (q_disable q) (q_helper q) (q_id q).
Definition q_set_objs o q : adq A :=
  Adq (q_items q) (q_peak q) (q_alive q) o (q_ident q) (q_disable q) (q_helper q) (q_id q).

Definition q_match (q : adq A) (f : ADChainConsumer A → Z → gmap loc A → ptr → Z) : option (ptr → Z) :=
  (λ c, f c (q_id q) (q_objs q)) <$> q_helper q.
Definition q_first (f : option (ptr → Z)) (l : list ptr) : ptr :=
  match f with Some f => default None (List.find (λ e, f e =? 0) l) | None => None end.
Definition q_drop (f : option (ptr → Z)) (l : list ptr) : list ptr :=
  match f with Some f => drop_first f l | None => l end.

(** Freeing the elements one after the other, what each owns first. *)
Definition free_element (h : option (ADChainConsumer A)) (i : Z) (os : gmap loc A) (e : ptr) : option (gmap loc A) :=
  os ← match h with Some c => cb_free c i os e | None => Some os end;
  match e with
  | None => Some os
  | Some l => _ ← os !! l; Some (delete l os)
  end.
Fixpoint free_elements (h : option (ADChainConsumer A)) (i : Z) (os : gmap loc A) (l : list ptr) : option (gmap loc A) :=
  match l with
  | [] => Some os
  | e :: l => os ← free_element h i os e; free_elements h i os l
  end.
Definition emptied q : option (adq A) :=
  (λ os, q_set_items [] (q_set_objs os q)) <$>
    (if q_disable q =? 0 then free_elements (q_helper q) (q_id q) (q_objs q) (q_items q) else Some (q_objs q)).

Inductive ad_op :=
| AdPut (data : ptr) | AdGet | AdTop | AdByIndex (index : Z)
| AdByIdent (i : Z) | AdByDouble (i j : Z)
| AdRemoveByIdent (i : Z) | AdRemoveByDouble (i j : Z)
| AdSize | AdGenerate | AdRemoveAll | AdEmpty | AdDelete
| AdDisable | AdEnable | AdAttach (c : ADChainConsumer A).

Definition takes_lock (o : ad_op) : bool :=
  match o with
  | AdPut _ | AdGet | AdRemoveByIdent _ | AdRemoveByDouble _ _ | AdSize | AdGenerate | AdEmpty | AdDelete => true
  | _ => false
  end.

(** The calls on the queue: [room] says whether there is memory for a holder;
    [None] is a fault, an element that is freed and is not there. *)
Definition adq_step (room : bool) (o : ad_op) q : option (retval * adq A) :=
  match o with
  | AdPut e =>
      Some (if q_alive q && room
            then (RInt 0, Adq (q_items q ++ [e]) (Z.max (q_peak q) (Z.of_nat (length (q_items q)) + 1))
                   (q_alive q) (q_objs q) (q_ident q) (q_disable q) (q_helper q) (q_id q))
            else (RInt (-1), q))
  | AdGet =>
      Some (if q_alive q then (RPtr (default None (head (q_items q))), q_set_items (tail (q_items q)) q)
            else (RPtr None, q))
  | AdTop => Some (RPtr (if q_alive q then default None (head (q_items q)) else None), q)
  | AdByIndex i => Some (RPtr (default None (q_items q !! Z.to_nat i)), q)
  | AdByIdent i => Some (RPtr (q_first (q_match q (λ c n os e, cb_identify c n os e i)) (q_items q)), q)
  | AdByDouble i j =>
      Some (RPtr (q_first (q_match q (λ c n os e, cb_double_identify c n os e i j)) (q_items q)), q)
  | AdRemoveByIdent i =>
      let f := q_match q (λ c n os e, cb_identify c n os e i) in
      Some (if q_alive q then (RPtr (q_first f (q_items q)), q_set_items (q_drop f (q_items q)) q)
            else (RPtr None, q))
  | AdRemoveByDouble i j =>
      let f := q_match q (λ c n os e, cb_double_identify c n os e i j) in
      Some (if q_alive q then (RPtr (q_first f (q_items q)), q_set_items (q_drop f (q_items q)) q)
            else (RPtr None, q))
  | AdSize => Some (RInt (Z.of_nat (length (q_items q))), q)
  | AdGenerate =>
      let n := int32 (q_ident q + 1) in
      Some (RInt n, Adq (q_items q) (q_peak q) (q_alive q) (q_objs q) n (q_disable q) (q_helper q) (q_id q))
  | AdRemoveAll => (λ q', (RInt 0, q')) <$> emptied q
  | AdEmpty =>
      (λ q', (RInt 0, Adq (q_items q') (q_peak q') (q_alive q') (q_objs q') 0 (q_disable q') (q_helper q') (q_id q')))
        <$> emptied q
  | AdDelete =>
      (λ q', (RInt 0, Adq (q_items q') (q_peak q') false (q_objs q') (q_ident q') (q_disable q') (q_helper q') (q_id q')))
        <$> emptied q
  | AdDisable =>
      Some (RInt 0, Adq (q_items q) (q_peak q) (q_alive q) (q_objs q) (q_ident q) 1 (q_helper q) (q_id q))
  | AdEnable =>
      Some (RInt 0, Adq (q_items q) (q_peak q) (q_alive q) (q_objs q) (q_ident q) 0 (q_helper q) (q_id q))
  | AdAttach c =>
      Some (match q_helper q with
            | None => (RInt (q_id q),
                Adq (q_items q) (q_peak q) (q_alive q) (q_objs q) (q_ident q) (q_disable q) (Some c) (q_id q))
            | Some _ => (RInt (-1), q)
            end)
  end.

Definition ad_pre (o : ad_op) q : Prop :=
  match o with AdPut _ => Z.of_nat (length (q_items q)) < INT_MAX | _ => True end.

(** The object [d], its mutex held or not as [lk] says, represents [q]. *)
Record adref (lk : bool) (d : ADGenericChain A) q : Prop := AdRef {
  adref_items : ∃ ls, chain_rep (core d) ls ∧ ls.*2 = q_items q;
  adref_peak : c_peak (core d) = q_peak q;
  adref_alive : init_flag (core d) = if q_alive q then 1 else 0;
  adref_objs : objs (core d) = q_objs q;
  adref_lock : clock (core d) = lk;
  adref_ident : ident_generator d = q_ident q;
  adref_disable : disable_autoremove d = q_disable q;
  adref_helper : pConsumer d = q_helper q;
  adref_id : id d = q_id q
}.

End spec.
Arguments ad_op : clear implicits.

Definition ad_exec {A} malloc (rev : revision) (o : ad_op A) : M (ADGenericChain A) retval :=
  match o with
  | AdPut e => RInt <$> chain_put malloc e
  | AdGet => RPtr <$> chain_get
  | AdTop => RPtr <$> get_top
  | AdByIndex i => RPtr <$> chain_get_by_index i
  | AdByIdent i => RPtr <$> chain_get_by_ident i
  | AdByDouble i j => RPtr <$> chain_get_by_double_ident i j
  | AdRemoveByIdent i => RPtr <$> chain_remove_by_ident rev i
  | AdRemoveByDouble i j => RPtr <$> chain_remove_by_double_ident rev i j
  | AdSize => RInt <$> get_chain_size
  | AdGenerate => RInt <$> chain_generate_ident
  | AdRemoveAll => RInt <$> remove_all rev
  | AdEmpty => RInt <$> chain_empty rev
  | AdDelete => RInt <$> ADGenericChain_delete rev
  | AdDisable => RInt <$> disable_auto_remove
  | AdEnable => RInt <$> enable_auto_remove
  | AdAttach c => RInt <$> attach_helper c
  end.

(** ** The class is that queue *)
Section proofs.
Context {A : Type}.
Implicit Types (d : ADGenericChain A) (q : adq A) (ls : list (loc * ptr)).

Lemma on_core_done {B} (c : M (chain bool A) B) d b t :
  c (core d) = Done b t → on_core c d = Done b (set_core t d).
Proof. intros H. unfold on_core, zoom. by rewrite H. Qed.
Lemma set_core_id d : set_core (core d) d = d.
Proof. by destruct d. Qed.
Lemma on_core_read {B} (c : M (chain bool A) B) d b : c (core d) = Done b (core d) → on_core c d = Done b d.
Proof. intros H. by rewrite (on_core_done _ _ _ _ H), set_core_id. Qed.
Lemma on_core_gets {B} (f : chain bool A → B) d : on_core (gets f) d = Done (f (core d)) d.
Proof. by apply on_core_read. Qed.
Lemma bind_on_core_gets {B E} (f : chain bool A → B) (k : B → M (ADGenericChain A) E) d :
  (on_core (gets f) ≫= k) d = k (f (core d)) d.
Proof. by rewrite (bind_done _ _ _ _ _ (on_core_gets f d)). Qed.

(** The mutex. *)
Definition with_lock (b : bool) d : ADGenericChain A := set_core (set_clock b (core d)) d.

Lemma sema_lock_done d : clock (core d) = false → SEMA_LOCK d = Done () (with_lock true d).
Proof. intros H. apply on_core_done. unfold lock_chain. rewrite H. done. Qed.
Lemma sema_lock_blocks d : clock (core d) = true → SEMA_LOCK d = Blocked.
Proof. intros H. unfold SEMA_LOCK, on_core, zoom, lock_chain. by rewrite H. Qed.
Lemma sema_unlock_done d : SEMA_UNLOCK d = Done () (with_lock false d).
Proof. done. Qed.

Lemma with_lock_ref b lk d q : adref lk d q → adref b (with_lock b d) q.
Proof. intros [(ls & Hr & Hi) ????????]. split; simpl; try done. exists ls. split; [by apply set_clock_rep|done]. Qed.

(** Bodies under the mutex: taking it, what is done, giving it back. *)
Lemma locked_body {B} (body : M (ADGenericChain A) B) d q b d1 q1 : adref false d q →
  body (with_lock true d) = Done b d1 → adref false d1 q1 →
  (SEMA_LOCK;; body) d = Done b d1 ∧ adref false d1 q1.
Proof. intros Hd Hb H1. split; [|done]. mstep (sema_lock_done d (adref_lock _ _ _ Hd)). done. Qed.
Lemma bind_unlock {B} (k : unit → M (ADGenericChain A) B) d :
  (SEMA_UNLOCK ≫= k) d = k () (with_lock false d).
Proof. done. Qed.
Lemma unlock_ret {B} (b : B) lk d q : adref lk d q →
  ∃ d', (SEMA_UNLOCK;; mret b) d = Done b d' ∧ adref false d' q.
Proof. intros H. eexists. split; [done|]. by eapply with_lock_ref. Qed.

Lemma first_holder_ref lk d q ls : adref lk d q → chain_rep (core d) ls →
  on_core first_holder d = Done (head ls.*1) d.
Proof. intros H Hr. apply on_core_read. by apply first_holder_done. Qed.

Lemma holder_data_done d ls x e : chain_rep (core d) ls → (x, e) ∈ ls → holder_data (Some x) d = Done e d.
Proof.
  intros Hr Hin. apply list_elem_of_split in Hin as (ls1 & ls2 & ->).
  destruct (cseg_mid _ _ _ _ _ _ (rep_seg _ _ Hr)) as (Hx & _).
  unfold holder_data. by mstep (on_core_read _ _ _ (load_done _ _ _ Hx)).
Qed.

(** The links determine the list. *)
Lemma cseg_unique h l ls ls' : cseg h l ls → cseg h l ls' → ls = ls'.
Proof.
  revert l ls'. induction ls as [|[n e] ls IH]; intros l [|[n' e'] ls']; simpl; [done|naive_solver..|].
  intros ((c & Hc & Hn) & (c1 & Hc1 & He & _) & Hs) ((c' & Hc' & Hn') & (c1' & Hc1' & He' & _) & Hs').
  simplify_eq. f_equal. by eapply IH.
Qed.
Lemma chain_rep_unique {L} (c : chain L A) ls ls' : chain_rep c ls → chain_rep c ls' → ls = ls'.
Proof. intros [] []. by eapply cseg_unique. Qed.

Lemma items_locs_None ls q : ls.*2 = q_items q → head ls.*1 = None → q_items q = [].
Proof. intros <- H. by rewrite (head_locs_None ls H). Qed.

(** Searching with the helper's callback. *)
Definition callback_is (m : ADGenericChain A → gmap loc A → ptr → Z)
  (f : ADChainConsumer A → Z → gmap loc A → ptr → Z) : Prop :=
  ∀ d c, pConsumer d = Some c → ∀ os e, m d os e = f c (id d) os e.

Lemma search_ref lk d q ls m f c fuel : adref lk d q → chain_rep (core d) ls → callback_is m f →
  pConsumer d = Some c → (length ls ≤ fuel)%nat →
  on_core (search fuel (m d) (head ls.*1)) d = Done (fst <$> first_match (f c (id d) (objs (core d))) ls) d.
Proof.
  intros H Hr Hm Hc Hf. apply on_core_read.
  rewrite (search_done (core d) (base (core d)) ls fuel (m d) (rep_seg _ _ Hr) Hf). f_equal. f_equal.
  clear -Hm Hc. induction ls as [|[x e] ls IH]; [done|]. simpl. rewrite (Hm d c Hc).
  by destruct (f c (id d) (objs (core d)) e =? 0).
Qed.

Lemma q_match_some d q lk f c : adref lk d q → pConsumer d = Some c →
  q_match q f = Some (f c (id d) (objs (core d))).
Proof. intros H Hc. unfold q_match. by rewrite <-(adref_helper _ _ _ H), Hc, (adref_id _ _ _ H), (adref_objs _ _ _ H). Qed.
Lemma q_match_none d q lk f : adref lk d q → pConsumer d = None → q_match q f = None.
Proof. intros H Hc. unfold q_match. by rewrite <-(adref_helper _ _ _ H), Hc. Qed.

Lemma walk_fuel_ref lk d q ls : adref lk d q → chain_rep (core d) ls → (length ls ≤ walk_fuel (core d))%nat.
Proof. intros H Hr. assert (Hf := chain_rep_fuel (core d) ls Hr). lia. Qed.

Lemma get_by_ref lk d q m f : adref lk d q → callback_is m f →
  get_by m d = Done (q_first (q_match q f) (q_items q)) d.
Proof.
  intros H Hm. destruct (adref_items _ _ _ H) as (ls & Hr & Hi). unfold get_by.
  mstep (first_holder_ref _ _ _ _ H Hr). destruct (head ls.*1) as [x|] eqn:E; cycle 1.
  { rewrite (items_locs_None ls q Hi E). unfold q_first. by destruct (q_match q f). }
  rewrite bind_gets. unfold is_helper_attached. destruct (pConsumer d) as [c|] eqn:Ec; simpl; cycle 1.
  { by rewrite (q_match_none d q lk f H Ec). }
  rewrite bind_gets, <-E. simpl.
  mstep (search_ref lk d q ls m f c (walk_fuel (core d)) H Hr Hm Ec (walk_fuel_ref lk d q ls H Hr)).
  rewrite (q_match_some d q lk f c H Ec). simpl. rewrite <-Hi, <-first_match_data.
  destruct (first_match _ ls) as [[y e]|] eqn:Ef; [|done]. simpl.
  apply (holder_data_done d ls); [done|]. by eapply first_match_in.
Qed.

(** The abstract state after an element has been unlinked. *)
Lemma unlinked_ref lk d q ls1 x e ls2 : adref lk d q → chain_rep (core d) (ls1 ++ (x, e) :: ls2) →
  ∃ d', on_core (unlink_free x) d = Done () d' ∧ adref lk d' (q_set_items (ls1 ++ ls2).*2 q).
Proof.
  intros H Hr. eexists. split; [apply on_core_done, (unlink_free_done _ _ _ _ _ Hr)|].
  destruct H as [_ ????????]. split; simpl; try done. exists (ls1 ++ ls2). split; [|done].
  by apply (unlink_free_rep _ ls1 x e ls2).
Qed.

Lemma q_set_items_id q l : l = q_items q → q_set_items l q = q.
Proof. intros ->. by destruct q. Qed.

Lemma remove_by_ref d q m f ls : adref false d q → callback_is m f → chain_rep (core d) ls →
  ∃ d', remove_by_locked m (head ls.*1) d =
    Done (if q_alive q then q_first (q_match q f) (q_items q) else None) d' ∧
    adref false d' (if q_alive q then q_set_items (q_drop (q_match q f) (q_items q)) q else q).
Proof.
  intros H Hm Hr. assert (Hl := with_lock_ref true _ _ _ H). set (d1 := with_lock true d) in *.
  assert (Hr1 : chain_rep (core d1) ls) by (by apply set_clock_rep).
  destruct (adref_items _ _ _ H) as (ls' & Hr' & Hi).
  assert (ls' = ls) as -> by (by eapply chain_rep_unique).
  unfold remove_by_locked. mstep (sema_lock_done d (adref_lock _ _ _ H)). unfold remove_by_body. rewrite bind_on_core_gets. fold d1.
  rewrite (adref_alive _ _ _ Hl). destruct (q_alive q); simpl; [|by eapply unlock_ret].
  destruct (head ls.*1) as [x|] eqn:E; cycle 1.
  { rewrite (items_locs_None ls q Hi E). rewrite q_set_items_id by
      (rewrite (items_locs_None ls q Hi E); unfold q_drop; by destruct (q_match q f)).
    unfold q_first. destruct (q_match q f); by eapply unlock_ret. }
  rewrite bind_gets. unfold is_helper_attached. destruct (pConsumer d1) as [c|] eqn:Ec; simpl; cycle 1.
  { rewrite (q_match_none d1 q true f Hl Ec). simpl. rewrite (q_set_items_id q) by done. by eapply unlock_ret. }
  rewrite bind_gets, <-E. cbn [compose].
  mstep (search_ref true d1 q ls m f c (walk_fuel (core d1)) Hl Hr1 Hm Ec (walk_fuel_ref true d1 q ls Hl Hr1)).
  rewrite (q_match_some d1 q true f c Hl Ec). simpl. rewrite <-Hi, <-first_match_data.
  destruct (first_match _ ls) as [[y e]|] eqn:Ef; simpl; cycle 1.
  { rewrite first_match_none by done. rewrite q_set_items_id by done. by eapply unlock_ret. }
  destruct (first_match_split _ _ _ _ Ef) as (ls1 & ls2 & -> & Hd & Hall).
  destruct (cseg_mid _ _ _ _ _ _ (rep_seg _ _ Hr1)) as (Hx & _).
  mstep (on_core_read _ _ _ (load_done (core d1) _ _ Hx)).
  destruct (unlinked_ref true d1 q ls1 y e ls2 Hl Hr1) as (d2 & Hun & H2). mstep Hun.
  rewrite (first_match_drop _ ls1 y e ls2) by done. by eapply unlock_ret.
Qed.

Lemma next_holder_done (c : chain bool A) l ls n : cseg (holders c) l ls → (n < length ls)%nat →
  next_holder n (head ls.*1) c = Done (ls.*1 !! n) c.
Proof.
  revert l ls. induction n as [|n IH]; intros l [|[x e] ls] Hc Hn; simpl in Hn; try lia; [done|].
  simpl. unfold deref. msimpl. destruct Hc as (_ & _ & Hs). destruct (cseg_head _ _ _ Hs) as (h & Hh & Hx).
  mstep (load_done c x h Hh). rewrite Hx. apply (IH x); [done|lia].
Qed.

Lemma by_index_ref lk d q i : adref lk d q →
  chain_get_by_index i d = Done (default None (q_items q !! Z.to_nat i)) d.
Proof.
  intros H. destruct (adref_items _ _ _ H) as (ls & Hr & Hi). unfold chain_get_by_index.
  mstep (first_holder_ref _ _ _ _ H Hr). rewrite <-Hi. destruct (head ls.*1) as [x|] eqn:E; cycle 1.
  { by rewrite (head_locs_None ls E). }
  rewrite bind_on_core_gets, (rep_size _ _ Hr). assert (0 < length ls)%nat by (destruct ls; [done|simpl; lia]).
  destruct (Z.leb_spec (Z.of_nat (length ls)) i) as [Hb|Hb].
  { rewrite (lookup_ge_None_2 ls.*2); [done|]. rewrite length_fmap. lia. }
  assert (Hn : (Z.to_nat i < length ls)%nat) by lia. rewrite <-E.
  mstep (on_core_read _ _ _ (next_holder_done (core d) _ ls _ (rep_seg _ _ Hr) Hn)).
  destruct (lookup_lt_is_Some_2 ls _ Hn) as [[y e] Hy]. rewrite !list_lookup_fmap, Hy. simpl.
  apply (holder_data_done d ls); [done|]. by eapply list_elem_of_lookup_2.
Qed.

Lemma get_top_ref lk d q : adref lk d q →
  get_top d = Done (if q_alive q then default None (head (q_items q)) else None) d.
Proof.
  intros H. destruct (adref_items _ _ _ H) as (ls & Hr & Hi). unfold get_top.
  rewrite bind_on_core_gets, (adref_alive _ _ _ H). destruct (q_alive q); simpl; [|done].
  mstep (first_holder_ref _ _ _ _ H Hr). rewrite <-Hi. destruct ls as [|[x e] ls]; [done|].
  apply (holder_data_done d ((x, e) :: ls)); [done|set_solver].
Qed.

Lemma remove_first_ref lk d q x e ls : adref lk d q → chain_rep (core d) ((x, e) :: ls) →
  ∃ d', on_core remove_first d = Done 0 d' ∧ adref lk d' (q_set_items ls.*2 q) ∧ chain_rep (core d') ls.
Proof.
  intros H Hr. eexists. split; [apply on_core_done, (remove_first_done _ _ _ _ Hr)|].
  assert (Hr' := unlink_free_rep _ [] x e ls Hr). destruct H as [_ ????????].
  split; [|done]. split; simpl; try done. by exists ls.
Qed.

Lemma chain_get_ref d q : adref false d q →
  ∃ d', chain_get d = Done (if q_alive q then default None (head (q_items q)) else None) d' ∧
    adref false d' (if q_alive q then q_set_items (tail (q_items q)) q else q).
Proof.
  intros H. assert (Hl := with_lock_ref true _ _ _ H). set (d1 := with_lock true d) in *.
  destruct (adref_items _ _ _ Hl) as (ls & Hr & Hi). unfold chain_get.
  mstep (sema_lock_done d (adref_lock _ _ _ H)). rewrite bind_on_core_gets. fold d1.
  rewrite (adref_alive _ _ _ Hl). destruct (q_alive q); simpl; [|by eapply unlock_ret].
  mstep (first_holder_ref _ _ _ _ Hl Hr). rewrite <-Hi. destruct ls as [|[x e] ls]; simpl.
  { rewrite q_set_items_id by done. by eapply unlock_ret. }
  destruct (cseg_mid _ _ _ _ [] _ (rep_seg _ _ Hr)) as (Hx & _).
  mstep (on_core_read _ _ _ (load_done (core d1) x _ Hx)).
  destruct (remove_first_ref true d1 q x e ls Hl Hr) as (d2 & Hrm & H2 & _).
  unfold chain_remove. mstep Hrm. by eapply unlock_ret.
Qed.

(** Emptying: each element is freed, what it owns first, and its holder
    unlinked. *)
Definition free_code (l : loc) : M (ADGenericChain A) unit :=
  h ← on_core (load l); free_chain_element_data (pData h);; on_core (kfree_data (pData h)).

Lemma set_objs_ref lk d q os : adref lk d q → adref lk (set_core (set_objs os (core d)) d) (q_set_objs os q).
Proof. intros [(ls & Hr & Hi) ????????]. split; simpl; try done. exists ls. split; [by apply set_objs_rep|done]. Qed.

Lemma free_code_ref lk d q x e ls : adref lk d q → chain_rep (core d) ((x, e) :: ls) →
  free_code x d =
    match free_element (q_helper q) (q_id q) (q_objs q) e with
    | Some os => Done () (set_core (set_objs os (core d)) d)
    | None => Oops
    end.
Proof.
  intros H Hr. destruct (cseg_mid _ _ _ _ [] _ (rep_seg _ _ Hr)) as (Hx & _).
  unfold free_code. mstep (on_core_read _ _ _ (load_done (core d) x _ Hx)). simpl.
  unfold free_chain_element_data, free_element. rewrite <-(adref_helper _ _ _ H), <-(adref_id _ _ _ H), <-(adref_objs _ _ _ H).
  destruct d as [[b sz pk ini ck hs os] dis idg con i]. simpl in *. destruct con as [c|]; simpl.
  - unfold kfree_data, on_core, zoom, mbind, M_bind, gets, of_opt, modify. simpl.
    destruct (cb_free c i os e) as [os'|]; [|done]. simpl.
    destruct e as [l|]; [|done]. simpl. by destruct (os' !! l).
  - unfold kfree_data, on_core, zoom, mbind, M_bind, gets, of_opt, modify. simpl.
    destruct e as [l|]; [|done]. simpl. by destruct (os !! l).
Qed.

Lemma free_then l (k1 : M (ADGenericChain A) unit) {B} (k3 : unit → M (ADGenericChain A) B) d :
  ((h ← on_core (load l); free_chain_element_data (pData h);; on_core (kfree_data (pData h));; k1) ≫= k3) d =
  (free_code l;; k1;; k3 ()) d.
Proof.
  unfold free_code, mbind, M_bind. destruct (on_core (load l) d) as [h d1| | | |]; try done.
  destruct (free_chain_element_data (pData h) d1) as [[] d2| | | |]; try done.
  destruct (on_core (kfree_data (pData h)) d2) as [[] d3| | | |]; try done.
  by destruct (k1 d3) as [[] d4| | | |].
Qed.

Lemma emptied_nil q : q_items q = [] → emptied q = Some q.
Proof. intros H. unfold emptied. destruct q as [it pk al os idt dis h i]. simpl in *. subst. by destruct (dis =? 0). Qed.
Lemma emptied_cons q e l : q_items q = e :: l →
  emptied q = if q_disable q =? 0
    then free_element (q_helper q) (q_id q) (q_objs q) e ≫= λ os, emptied (q_set_items l (q_set_objs os q))
    else emptied (q_set_items l q).
Proof.
  intros H. unfold emptied. destruct q as [it pk al os idt dis h i]. simpl in *. subst.
  destruct (dis =? 0); [|done]. simpl. by destruct (free_element h i os e).
Qed.

Lemma forget_data_ref rev lk d q x e ls : adref lk d q → chain_rep (core d) ((x, e) :: ls) →
  ∃ d' e' q', forget_data rev x d = Done () d' ∧ adref lk d' q' ∧ chain_rep (core d') ((x, e') :: ls) ∧
    q_set_items ls.*2 q' = q_set_items ls.*2 q.
Proof.
  intros H Hr. destruct rev; [|by exists d, e, q].
  destruct Hr as [Hseg Hnd Hsz Hpk]. destruct (cseg_mid _ _ _ _ [] _ Hseg) as (Hx & _).
  set (c' := set_holders (alter (with_pData None) x (holders (core d))) (core d)).
  assert (Hr' : chain_rep c' ((x, None) :: ls)).
  { split; try done. simpl in *. apply NoDup_cons in Hnd as [Hb Hnd]. apply NoDup_cons in Hnd as [Hxn Hnd].
    destruct Hseg as ((c0 & Hc0 & Hn0) & _ & Hs). split_and!.
    - exists c0. rewrite lookup_alter_ne by set_solver. done.
    - eexists. rewrite lookup_alter_eq, Hx. done.
    - apply (cseg_frame (holders (core d))); [| |done].
      + intros c1 Hc1. exists (with_pData None c1). by rewrite lookup_alter_eq, Hc1.
      + intros y Hy. rewrite lookup_alter_ne; [done|]. by intros ->. }
  exists (set_core c' d), None, (q_set_items (None :: ls.*2) q). split_and!; [|split|done|done].
  - apply on_core_done. unfold forget_data. apply store_done. by eexists.
  - exists ((x, None) :: ls). done.
  - apply H. - apply H. - apply H. - apply H. - apply H. - apply H. - apply H. - apply H.
Qed.

Lemma remove_all_loop_ref rev lk d q ls fuel : adref lk d q → chain_rep (core d) ls → ls.*2 = q_items q →
  (length ls ≤ fuel)%nat →
  match emptied q with
  | Some q' => ∃ d', remove_all_loop rev fuel d = Done 0 d' ∧ adref lk d' q'
  | None => remove_all_loop rev fuel d = Oops
  end.
Proof.
  revert d q ls. induction fuel as [|fuel IH]; intros d q ls H Hr Hi Hf.
  all: simpl remove_all_loop; rewrite (bind_done _ _ _ _ _ (first_holder_ref _ _ _ _ H Hr)).
  all: destruct ls as [|[x e] ls]; simpl in Hf; [rewrite emptied_nil by done; by exists d|try lia].
  simpl. rewrite bind_gets, (adref_disable _ _ _ H), (emptied_cons q e ls.*2) by done.
  destruct (q_disable q =? 0).
  - rewrite (free_then x). assert (Hfree := free_code_ref lk d q x e ls H Hr).
    destruct (free_element _ _ _ e) as [os|]; simpl; cycle 1.
    { unfold mbind, M_bind. by rewrite Hfree. }
    mstep Hfree. set (d1 := set_core (set_objs os (core d)) d).
    assert (Hr1 : chain_rep (core d1) ((x, e) :: ls)) by (by apply set_objs_rep).
    destruct (forget_data_ref rev lk d1 _ x e ls (set_objs_ref _ _ _ os H) Hr1) as (d2 & e2 & q2 & Hfg & H2 & Hr2 & Hq2).
    mstep Hfg. destruct (remove_first_ref lk d2 q2 x e2 ls H2 Hr2) as (d3 & Hrm & H3 & Hr3). rewrite Hq2 in H3.
    unfold remove. rewrite (bind_done _ _ _ _ _ Hrm). by apply (IH d3 _ ls); [..|lia].
  - rewrite bind_ret. destruct (remove_first_ref lk d q x e ls H Hr) as (d2 & Hrm & H2 & Hr2).
    unfold remove. rewrite (bind_done _ _ _ _ _ Hrm). by apply (IH d2 _ ls); [..|lia].
Qed.

Lemma remove_all_ref rev lk d q : adref lk d q →
  match emptied q with
  | Some q' => ∃ d', remove_all rev d = Done 0 d' ∧ adref lk d' q'
  | None => remove_all rev d = Oops
  end.
Proof.
  intros H. destruct (adref_items _ _ _ H) as (ls & Hr & Hi). unfold remove_all. rewrite bind_gets.
  apply (remove_all_loop_ref rev lk d q ls); [done..|]. by apply (walk_fuel_ref lk d q).
Qed.

Lemma locked_remove_all_ref rev (after : ADGenericChain A → ADGenericChain A) (qafter : adq A → adq A)
    (k : M (ADGenericChain A) unit) d q : adref false d q →
  (∀ d', k d' = Done () (after d')) → (∀ d' q', adref true d' q' → adref true (after d') (qafter q')) →
  match emptied q with
  | Some q' => ∃ d', (SEMA_LOCK;; remove_all rev;; k;; SEMA_UNLOCK;; mret 0) d = Done 0 d' ∧ adref false d' (qafter q')
  | None => (SEMA_LOCK;; remove_all rev;; k;; SEMA_UNLOCK;; mret 0) d = Oops
  end.
Proof.
  intros H Hk Hq. assert (Hl := with_lock_ref true _ _ _ H). set (d1 := with_lock true d) in *.
  assert (Hrm := remove_all_ref rev true d1 q Hl).
  rewrite (bind_done _ _ _ _ _ (sema_lock_done d (adref_lock _ _ _ H))). fold d1.
  destruct (emptied q) as [q'|]; [destruct Hrm as (d2 & Hrm & H2)|unfold mbind, M_bind; by rewrite Hrm].
  mstep Hrm. mstep (Hk d2). eapply unlock_ret. by apply Hq.
Qed.

Variable malloc : gmap loc chain_holder → option (loc * chain_holder).
Hypothesis malloc_fresh : ∀ h l g, malloc h = Some (l, g) → h !! l = None.

Definition has_room d : bool := match malloc (holders (core d)) with Some _ => true | None => false end.

Lemma chain_put_ref d q e : adref false d q → Z.of_nat (length (q_items q)) < INT_MAX →
  ∃ r d' q', chain_put malloc e d = Done r d' ∧ adq_step (has_room d) (AdPut e) q = Some (RInt r, q') ∧ adref false d' q'.
Proof.
  intros H Hlen. assert (Hl := with_lock_ref true _ _ _ H). set (d1 := with_lock true d) in *.
  assert (Hroom : has_room d = match malloc (holders (core d1)) with Some _ => true | None => false end) by done.
  destruct (adref_items _ _ _ Hl) as (ls & Hr & Hi). unfold chain_put.
  rewrite (bind_done _ _ _ _ _ (sema_lock_done d (adref_lock _ _ _ H))), bind_on_core_gets. fold d1.
  rewrite (adref_alive _ _ _ Hl). simpl adq_step. destruct (q_alive q) eqn:Ea; simpl; cycle 1.
  { destruct (unlock_ret (-1) true d1 q Hl) as (d' & Hu & H'). by exists (-1), d', q. }
  unfold chain_add. destruct (malloc (holders (core d1))) as [[new g]|] eqn:Em; cycle 1.
  { mstep (on_core_read _ _ _ (add_tail_fails (λ _, malloc) (core d1) GFP_KERNEL e Em)).
    destruct (unlock_ret (-1) true d1 q Hl) as (d' & Hu & H'). exists (-1), d', q. by rewrite Hroom. }
  assert (Hfr : ∀ (f : gfp) h l g, (λ _ : gfp, malloc) f h = Some (l, g) → h !! l = None) by eauto.
  mstep (on_core_done _ _ _ _ (add_tail_done (λ _, malloc) Hfr (core d1) ls GFP_KERNEL e new g Hr Em)).
  assert (Hrep := add_tail_rep (λ _, malloc) Hfr (core d1) ls GFP_KERNEL e new g Hr).
  assert (Hlen' : length ls = length (q_items q)) by (by rewrite <-Hi, length_fmap).
  assert (Hsz : int32 (c_size (core d1) + 1) = Z.of_nat (length (q_items q)) + 1).
  { rewrite (rep_size _ _ Hr), int32_small; lia. }
  rewrite Hroom. eexists _, _, _. split; [done|split; [done|]].
  apply (with_lock_ref false true). destruct Hl as [_ Hpk ???????]. split; simpl; try done.
  - exists (ls ++ [(new, e)]). split; [apply Hrep; [lia|done]|]. by rewrite fmap_app, Hi.
  - simpl in *. rewrite Hsz, <-Hpk. destruct (Z.gtb_spec (Z.of_nat (length (q_items q)) + 1) (c_peak (core d))); lia.
  - simpl in *. by rewrite Ea in *.
Qed.

Lemma lock_blocks {B} (k : unit → M (ADGenericChain A) B) d : clock (core d) = true → (SEMA_LOCK ≫= k) d = Blocked.
Proof. intros H. unfold mbind, M_bind. by rewrite sema_lock_blocks. Qed.

Lemma ad_exec_blocks rev d q o : adref true d q → takes_lock o = true → ad_exec malloc rev o d = Blocked.
Proof.
  intros H Ho. assert (Hc := adref_lock _ _ _ H). destruct (adref_items _ _ _ H) as (ls & Hr & _).
  assert (Hfm : ∀ B E (f : B → E) (c : M (ADGenericChain A) B), c d = Blocked → (f <$> c) d = Blocked).
  { intros B E f c Hb. unfold fmap, M_fmap, mbind, M_bind. by rewrite Hb. }
  destruct o; try done; apply Hfm; try by apply lock_blocks.
  all: unfold chain_remove_by_ident, chain_remove_by_double_ident; destruct rev; [by apply lock_blocks|].
  all: unfold remove_by; rewrite (bind_done _ _ _ _ _ (first_holder_ref _ _ _ _ H Hr)); by apply lock_blocks.
Qed.

Lemma chain_new_ref raw i : is_Some (holders raw !! base raw) →
  ∃ d c, ADGenericChain_new raw i = Done (d, int32 (i + 1)) c ∧
    adref false d (Adq [] 0 true (objs raw) 0 0 None i).
Proof.
  intros [h Hh]. eexists _, _. split.
  - unfold ADGenericChain_new. msimpl. erewrite bind_done; [|apply store_done; by eexists]. by msimpl.
  - split; simpl; try done. exists []. split; [|done].
    split; simpl; [|apply NoDup_singleton|done|unfold INT_MAX; lia].
    exists (with_pNext None h). by rewrite lookup_alter_eq, Hh.
Qed.

(** The [remove_by] functions with nobody between the read and the mutex. *)
Lemma remove_by_call rev d q m f : adref false d q → callback_is m f →
  ∃ d', remove_by rev m d =
    Done (if q_alive q then q_first (q_match q f) (q_items q) else None) d' ∧
    adref false d' (if q_alive q then q_set_items (q_drop (q_match q f) (q_items q)) q else q).
Proof.
  intros H Hm. destruct (adref_items _ _ _ H) as (ls & Hr & Hi).
  destruct (remove_by_ref d q m f ls H Hm Hr) as (d' & Hrun & H'). exists d'. split; [|done]. rewrite <-Hrun.
  destruct rev; simpl; [|by rewrite (bind_done _ _ _ _ _ (first_holder_ref _ _ _ _ H Hr))].
  unfold remove_by_locked. rewrite !(bind_done _ _ _ _ _ (sema_lock_done d (adref_lock _ _ _ H))).
  assert (Hr1 : chain_rep (core (with_lock true d)) ls) by (by apply set_clock_rep).
  by rewrite (bind_done _ _ _ _ _ (first_holder_ref true _ q ls (with_lock_ref true _ _ _ H) Hr1)).
Qed.

Lemma callback_ident i : callback_is (match_ident (A := A) i) (λ c n os e, cb_identify c n os e i).
Proof. intros d c Hc os e. unfold match_ident, identify_chain_element. by rewrite Hc. Qed.
Lemma callback_double i j : callback_is (match_double_ident (A := A) i j) (λ c n os e, cb_double_identify c n os e i j).
Proof. intros d c Hc os e. unfold match_double_ident, double_identify_chain_element. by rewrite Hc. Qed.

(** What a call returns, and the state it leaves, in terms of the queue. *)
Definition call_refines (rev : revision) (room : bool) (o : ad_op A) lk d q : Prop :=
  match adq_step room o q with
  | Some (r, q') => ∃ d', ad_exec malloc rev o d = Done r d' ∧ adref lk d' q'
  | None => ad_exec malloc rev o d = Oops
  end.

Lemma unlocked_refines rev lk d q o : adref lk d q → takes_lock o = false → call_refines rev true o lk d q.
Proof.
  intros H Ho. destruct o as [e| | |i|i|i j|i|i j| | | | | | | |c]; try done; unfold call_refines; simpl.
  - exists d. split; [|done]. by apply fmap_done, (get_top_ref lk).
  - exists d. split; [|done]. by apply fmap_done, (by_index_ref lk).
  - exists d. split; [|done]. by apply fmap_done, (get_by_ref lk), callback_ident.
  - exists d. split; [|done]. by apply fmap_done, (get_by_ref lk), callback_double.
  - assert (Hrm := remove_all_ref rev lk d q H). destruct (emptied q) as [q'|]; simpl.
    + destruct Hrm as (d' & Hrm & H'). exists d'. split; [by apply fmap_done|done].
    + unfold fmap, M_fmap, mbind, M_bind. by rewrite Hrm.
  - eexists. split; [done|]. destruct H. by split.
  - eexists. split; [done|]. destruct H. by split.
  - assert (Hh := adref_helper _ _ _ H). rewrite <-Hh. destruct (pConsumer d) as [c0|] eqn:Ec.
    + exists d. split; [|done]. apply fmap_done. unfold attach_helper. by rewrite bind_gets, Ec.
    + rewrite <-(adref_id _ _ _ H). eexists. split; [apply fmap_done; unfold attach_helper; by rewrite bind_gets, Ec|].
      destruct H. by split.
Qed.

Lemma locked_refines rev d q o : adref false d q → ad_pre o q → takes_lock o = true →
  ∃ room, call_refines rev room o false d q.
Proof.
  intros H Hp Ho. unfold call_refines.
  destruct o as [e| | |i|i|i j|i|i j| | | | | | | |c]; try done; [|exists true..]; simpl ad_exec.
  - destruct (chain_put_ref d q e H Hp) as (r & d' & q' & Hrun & Hs & H'). exists (has_room d). rewrite Hs.
    exists d'. split; [by apply fmap_done|done].
  - destruct (chain_get_ref d q H) as (d' & Hrun & H'). simpl.
    destruct (q_alive q); exists d'; (split; [by apply fmap_done|done]).
  - destruct (remove_by_call rev d q _ _ H (callback_ident i)) as (d' & Hrun & H'). simpl.
    destruct (q_alive q); exists d'; (split; [by apply fmap_done|done]).
  - destruct (remove_by_call rev d q _ _ H (callback_double i j)) as (d' & Hrun & H'). simpl.
    destruct (q_alive q); exists d'; (split; [by apply fmap_done|done]).
  - simpl. destruct (adref_items _ _ _ H) as (ls & Hr & Hi). rewrite <-Hi, length_fmap, <-(rep_size _ _ Hr).
    eexists. split; [|by apply (with_lock_ref false true), (with_lock_ref true false), H].
    apply fmap_done. unfold get_chain_size. by mstep (sema_lock_done d (adref_lock _ _ _ H)).
  - simpl. rewrite <-(adref_ident _ _ _ H). eexists. split.
    + apply fmap_done. unfold chain_generate_ident. by mstep (sema_lock_done d (adref_lock _ _ _ H)).
    + apply (with_lock_ref false true). assert (Hl := with_lock_ref true _ _ _ H). destruct Hl. by split.
  - simpl. assert (Hrm := locked_remove_all_ref rev (set_ident 0)
      (λ q', Adq (q_items q') (q_peak q') (q_alive q') (q_objs q') 0 (q_disable q') (q_helper q') (q_id q'))
      (modify (set_ident 0)) d q H ltac:(done) ltac:(intros ?? []; by split)).
    destruct (emptied q) as [q'|]; simpl; [destruct Hrm as (d' & Hrm & H'); exists d'; split; [by apply fmap_done|done]|].
    unfold fmap, M_fmap, mbind, M_bind. unfold chain_empty. by rewrite Hrm.
  - simpl. assert (Hrm := locked_remove_all_ref rev (λ d', set_core (set_init 0 (core d')) d')
      (λ q', Adq (q_items q') (q_peak q') false (q_objs q') (q_ident q') (q_disable q') (q_helper q') (q_id q'))
      (on_core (modify (set_init 0))) d q H ltac:(done)
      ltac:(intros ?? [(ls & Hr & Hi) ????????]; split; try done; exists ls; split; [by apply set_init_rep|done])).
    destruct (emptied q) as [q'|]; simpl; [destruct Hrm as (d' & Hrm & H'); exists d'; split; [by apply fmap_done|done]|].
    unfold fmap, M_fmap, mbind, M_bind. unfold ADGenericChain_delete. by rewrite Hrm.
Qed.

(** C23: [ADGenericChain] is a queue.  The constructor makes an empty one.
    With the mutex free, every call returns what the queue returns and leaves
    an object that represents the queue's next state, with the mutex free
    again; it faults exactly when the queue says so, when an element is freed
    that is not there.  The calls that take no mutex do the same whoever holds
    it, and the others wait while it is held. *)
Theorem adchain_behaves_as_fifo :
  (∀ raw i, is_Some (holders raw !! base raw) → ∃ d c, ADGenericChain_new raw i = Done (d, int32 (i + 1)) c ∧
     adref false d (Adq [] 0 true (objs raw) 0 0 None i)) ∧
  (∀ rev d q o, adref false d q → ad_pre o q → ∃ room, call_refines rev room o false d q) ∧
  (∀ rev d q o, adref true d q →
     if takes_lock o then ad_exec malloc rev o d = Blocked else call_refines rev true o true d q).
Proof.
  split; [apply chain_new_ref|split].
  - intros rev d q o H Hp. destruct (takes_lock o) eqn:Eo; [by apply locked_refines|].
    exists true. by apply unlocked_refines.
  - intros rev d q o H. destruct (takes_lock o) eqn:Eo; [by eapply ad_exec_blocks|by apply unlocked_refines].
Qed.

(** *** The read before the mutex *)
Lemma chain_get_frees d q x e ls : adref false d q → q_alive q = true → chain_rep (core d) ((x, e) :: ls) →
  ∃ d', chain_get d = Done e d' ∧ adref false d' (q_set_items ls.*2 q) ∧ holders (core d') !! x = None.
Proof.
  intros H Ha Hr. destruct (chain_get_ref d q H) as (d' & Hrun & H'). rewrite Ha in *.
  destruct (adref_items _ _ _ H) as (ls' & Hr' & Hi). assert (ls' = (x, e) :: ls) as -> by (by eapply chain_rep_unique).
  rewrite <-Hi in *. exists d'. split; [done|split; [done|]]. revert Hrun.
  assert (Hr1 : chain_rep (core (with_lock true d)) ((x, e) :: ls)) by (by apply set_clock_rep).
  unfold chain_get. rewrite (bind_done _ _ _ _ _ (sema_lock_done d (adref_lock _ _ _ H))), bind_on_core_gets. simpl.
  rewrite (adref_alive _ _ _ H), Ha. simpl.
  mstep (on_core_read _ _ _ (first_holder_done (core (with_lock true d)) _ Hr1)). simpl.
  destruct (cseg_mid _ _ _ _ [] _ (rep_seg _ _ Hr1)) as (Hx & _).
  mstep (on_core_read _ _ _ (load_done _ x _ Hx)). unfold chain_remove.
  mstep (on_core_done _ _ _ _ (remove_first_done _ _ _ _ Hr1)). rewrite bind_unlock. intros [= <-]. simpl.
  apply lookup_delete_eq.
Qed.

Lemma stale_search_faults d q m x : adref false d q → q_alive q = true → is_Some (q_helper q) →
  holders (core d) !! x = None → remove_by_locked m (Some x) d = Oops.
Proof.
  intros H Ha [c Hc] Hx. unfold remove_by_locked, remove_by_body.
  rewrite (bind_done _ _ _ _ _ (sema_lock_done d (adref_lock _ _ _ H))), bind_on_core_gets. simpl.
  rewrite (adref_alive _ _ _ H), Ha. simpl. rewrite bind_gets. unfold is_helper_attached. simpl.
  rewrite (adref_helper _ _ _ H), Hc. simpl. rewrite bind_gets. unfold walk_fuel. cbn [search compose].
  unfold mbind, M_bind, on_core, zoom, load, gets, mbind, M_bind. simpl. by rewrite Hx.
Qed.

Lemma remove_by_null d q m : adref false d q → ∃ d', remove_by_locked m None d = Done None d' ∧ adref false d' q.
Proof.
  intros H. assert (Hl := with_lock_ref true _ _ _ H). unfold remove_by_locked, remove_by_body.
  rewrite (bind_done _ _ _ _ _ (sema_lock_done d (adref_lock _ _ _ H))), bind_on_core_gets.
  destruct (init_flag _ =? 0); by eapply unlock_ret.
Qed.

(** In lib-adav the functions that remove by identity read the first
    holder before they take the mutex ([remove_by Adav]).  When another thread takes that element with
    [chain_get] in between, the search then starts in the holder that was freed
    and faults, whatever is looked for; when the queue was empty at the read and
    another thread has put an element since, the call finds nothing. *)
Theorem remove_by_read_before_lock d q m :
  adref false d q → q_alive q = true → is_Some (q_helper q) →
  ∃ pHolder, on_core first_holder d = Done pHolder d ∧
  (q_items q ≠ [] → ∃ e d1, chain_get d = Done e d1 ∧ remove_by_locked m pHolder d1 = Oops) ∧
  (q_items q = [] → ∀ e d1, chain_put malloc e d = Done 0 d1 →
     ∃ d2 q2, remove_by_locked m pHolder d1 = Done None d2 ∧ adref false d2 q2 ∧ q_items q2 = [e]).
Proof.
  intros H Ha Hh. destruct (adref_items _ _ _ H) as (ls & Hr & Hi).
  exists (head ls.*1). split; [by eapply first_holder_ref|]. destruct ls as [|[x e0] ls]; simpl in Hi |- *; rewrite <-Hi; split; [done| | |done].
  - intros _ e d1 Hput. destruct (chain_put_ref d q e H) as (r & d' & q' & Hrun & Hs & H').
    { rewrite <-Hi. simpl. unfold INT_MAX. lia. }
    rewrite Hput in Hrun. simplify_eq. simpl in Hs. rewrite Ha in Hs. destruct (has_room d); simplify_eq/=.
    destruct (remove_by_null d' _ m H') as (d2 & Hrm & H2). exists d2. eexists. split; [done|split; [done|]].
    simpl. by rewrite <-Hi.
  - intros _. destruct (chain_get_frees d q x e0 ls H Ha Hr) as (d1 & Hget & H1 & Hx).
    exists e0, d1. split; [done|]. by apply (stale_search_faults d1 _ m x H1).
Qed.
End proofs.

(** ** A concrete object *)
Definition raw_ad : chain bool Z :=
  Chain 1%positive 77 (-5) 0 true {[ 1%positive := Holder None None (Some 9%positive) ]}
    {[ 100%positive := 7; 101%positive := 8 ]}.
Definition value_helper : ADChainConsumer Z := Consumer
  (λ _ os e i, match e with Some l => if decide (os !! l = Some i) then 0 else -1 | None => -1 end)
  (λ _ _ _ _ _, -1) (λ _ os _, Some os).
Definition ad_malloc (h : gmap loc chain_holder) : option (loc * chain_holder) := bump_alloc 10 GFP_KERNEL h.
Lemma ad_malloc_fresh h l g : ad_malloc h = Some (l, g) → h !! l = None.
Proof. apply bump_alloc_fresh. Qed.

Definition done_state_or {S A} (s0 : S) (o : outcome S A) : S := match o with Done _ s => s | _ => s0 end.
Definition ex_ad0 : ADGenericChain Z :=
  match ADGenericChain_new raw_ad 3 with Done (d, _) _ => d | _ => AD raw_ad 0 0 None 0 end.
(** A helper is attached and two elements are put. *)
Definition ex_ad : ADGenericChain Z :=
  done_state_or ex_ad0 ((ad_exec ad_malloc AdavOld (AdAttach value_helper);; ad_exec ad_malloc AdavOld (AdPut (Some 100%positive));;
    ad_exec ad_malloc AdavOld (AdPut (Some 101%positive))) ex_ad0).
Definition ex_adq : adq Z :=
  Adq [Some 100%positive; Some 101%positive] 2 true (objs raw_ad) 0 0 (Some value_helper) 3.

Lemma ex_ad_ref : adref false ex_ad ex_adq.
Proof.
  split; try reflexivity.
  eexists [(2%positive, Some 100%positive); (3%positive, Some 101%positive)]. split; [|reflexivity].
  split; [|by vm_compute; repeat constructor; set_solver|reflexivity|vm_compute; split; intros; discriminate].
  vm_compute. split_and!; eexists; split_and!; reflexivity.
Qed.

Lemma adchain_behaves_as_fifo_witness :
  ∃ room, call_refines ad_malloc AdavOld room (AdRemoveByIdent 8) false ex_ad ex_adq.
Proof.
  apply (proj1 (proj2 (adchain_behaves_as_fifo (A := Z) ad_malloc ad_malloc_fresh)) AdavOld ex_ad ex_adq (AdRemoveByIdent 8) ex_ad_ref I).
Defined.

Lemma remove_by_read_before_lock_witness :
  ∃ pHolder, on_core first_holder ex_ad = Done pHolder ex_ad ∧
    ∃ e d1, chain_get ex_ad = Done e d1 ∧ remove_by_locked (match_ident 8) pHolder d1 = Oops.
Proof.
  destruct (remove_by_read_before_lock ad_malloc ad_malloc_fresh ex_ad ex_adq (match_ident 8) ex_ad_ref
    eq_refl ltac:(by eexists)) as (p & Hp & Hs & _).
  exists p. split; [exact Hp|]. apply Hs. discriminate.
Defined.
