(* ===== verification/RpcResult.v ===== *)
(** * The result codes of the services

    [RPC_SRV_RESULT] of [src/sources/lib/lib-adav-old/include/ADCommon.hpp], which
    every service returns to its clients as text, and the conversions of
    [src/sources/lib/lib-adav-old/src/ADCmnStringProcessor.cpp]. *)

From stdpp Require Import base list strings.
From Stdlib Require Import ZArith Lia.
From S2P Require Import Prelude.

Inductive RPC_SRV_RESULT :=
| RPC_SRV_RESULT_SUCCESS
| RPC_SRV_RESULT_FAIL
| RPC_SRV_RESULT_IN_PROG
| RPC_SRV_RESULT_BUSY
| RPC_SRV_RESULT_NOT_STARTED
| RPC_SRV_RESULT_TIMEOUT
| RPC_SRV_RESULT_ARG_ERROR
| RPC_SRV_RESULT_MEM_ERROR
| RPC_SRV_RESULT_BUS_ERROR
| RPC_SRV_RESULT_ACTION_NOT_ALLOWED
| RPC_SRV_RESULT_DEV_NOT_ACCESSIBLE
| RPC_SRV_RESULT_FILE_NOT_FOUND
| RPC_SRV_RESULT_FEATURE_NOT_AVAILABLE
| RPC_SRV_RESULT_FEATURE_UNSUPPORTED
| RPC_SRV_RESULT_TASK_ID_NOT_FOUND
| RPC_SRV_RESULT_VALUE_OUT_OF_RANGE
| RPC_SRV_RESULT_FILE_OPEN_ERR
| RPC_SRV_RESULT_FILE_READ_ERR
| RPC_SRV_RESULT_FILE_WRITE_ERR
| RPC_SRV_RESULT_FILE_SAME
| RPC_SRV_RESULT_FILE_DIFFERENT
| RPC_SRV_RESULT_HOST_NOT_REACHABLE_ERR
| RPC_SRV_RESULT_RESEND
| RPC_SRV_RESULT_CS_EXPOSURE_ERR
| RPC_SRV_RESULT_CS_I2C_ERR
| RPC_SRV_RESULT_ITEM_NOT_FOUND
| RPC_SRV_RESULT_FILE_ERROR
| RPC_SRV_RESULT_DEVINFO_ERROR
| RPC_SRV_RESULT_FILE_EMPTY
| RPC_SRV_RESULT_ITEM_DUPLICATE_FOUND
| RPC_SRV_RESULT_UNKNOWN_COMMAND
| RPC_SRV_RESULT_DEVNODE_ACCERR
| RPC_SRV_RESULT_DEVNODE_OPENERR
| RPC_SRV_RESULT_OFFLINE_NODE
| RPC_SRV_RESULT_UNKNOWN
| RPC_SRV_RESULT_NONE.

#[export] Instance RPC_SRV_RESULT_eq_dec : EqDecision RPC_SRV_RESULT.
Proof. solve_decision. Defined.

(** The enumerators in their order: position [i] has the value [i]. *)
Definition results : list RPC_SRV_RESULT :=
  [RPC_SRV_RESULT_SUCCESS; RPC_SRV_RESULT_FAIL; RPC_SRV_RESULT_IN_PROG; RPC_SRV_RESULT_BUSY;
   RPC_SRV_RESULT_NOT_STARTED; RPC_SRV_RESULT_TIMEOUT; RPC_SRV_RESULT_ARG_ERROR; RPC_SRV_RESULT_MEM_ERROR;
   RPC_SRV_RESULT_BUS_ERROR; RPC_SRV_RESULT_ACTION_NOT_ALLOWED; RPC_SRV_RESULT_DEV_NOT_ACCESSIBLE;
   RPC_SRV_RESULT_FILE_NOT_FOUND; RPC_SRV_RESULT_FEATURE_NOT_AVAILABLE; RPC_SRV_RESULT_FEATURE_UNSUPPORTED;
   RPC_SRV_RESULT_TASK_ID_NOT_FOUND; RPC_SRV_RESULT_VALUE_OUT_OF_RANGE; RPC_SRV_RESULT_FILE_OPEN_ERR;
   RPC_SRV_RESULT_FILE_READ_ERR; RPC_SRV_RESULT_FILE_WRITE_ERR; RPC_SRV_RESULT_FILE_SAME;
   RPC_SRV_RESULT_FILE_DIFFERENT; RPC_SRV_RESULT_HOST_NOT_REACHABLE_ERR; RPC_SRV_RESULT_RESEND;
   RPC_SRV_RESULT_CS_EXPOSURE_ERR; RPC_SRV_RESULT_CS_I2C_ERR; RPC_SRV_RESULT_ITEM_NOT_FOUND;
   RPC_SRV_RESULT_FILE_ERROR; RPC_SRV_RESULT_DEVINFO_ERROR;
   RPC_SRV_RESULT_FILE_EMPTY; RPC_SRV_RESULT_ITEM_DUPLICATE_FOUND; RPC_SRV_RESULT_UNKNOWN_COMMAND;
   RPC_SRV_RESULT_DEVNODE_ACCERR; RPC_SRV_RESULT_DEVNODE_OPENERR; RPC_SRV_RESULT_OFFLINE_NODE;
   RPC_SRV_RESULT_UNKNOWN; RPC_SRV_RESULT_NONE].
Definition result_code (r : RPC_SRV_RESULT) : nat := default 0%nat (fst <$> list_find (r =.) results).

(** [STR_RPC_SRV_RESULT_STRING_TABLE]; the last entry of the source's table is
    the empty string. *)
Definition rpc_server_result_table : list string :=
  ["Success"; "Fail"; "InProgress"; "Busy"; "NotStarted"; "Timeout"; "ArgError"; "MemError"; "BusError";
   "ActionBlocked"; "DeviceError"; "FileNotFound"; "FeatureNotAvailable"; "UnsupportedFeature";
   "taskIDNotFound"; "valueOutOfRange"; "FileOpenErr"; "FileReadErr"; "FileWriteErr"; "FileSame";
   "FileNotSame"; "HostUnreachable"; "resend"; "csExposureError"; "csI2CErr"; "ItemNotFound"; "FileError";
   "DevInfoErr"; "FileEmpty"; "DuplicateItem"; "UnknownCmd"; "DevNodeAccErr"; "DevNodeOpenErr"; "OfflineNode";
   "Unknown"; "none"; ""].

(** [string_to_enum]: the first position below [max_enum_value] with the text,
    or [max_enum_value]; an entry past the end of the table is a fault. *)
Fixpoint enum_loop (fuel : nat) (string_table : list string) (s : string) (index max_enum_value : Z) : M unit Z :=
  if index <? max_enum_value then
    match fuel with
    | O => out_of_fuel
    | S fuel =>
        e ← of_opt (string_table !! Z.to_nat index);
        if decide (e = s) then mret index else enum_loop fuel string_table s (index + 1) max_enum_value
    end
  else mret max_enum_value.
Definition string_to_enum (string_table : list string) (s : string) (max_enum_value : Z) : M unit Z :=
  enum_loop (Z.to_nat max_enum_value) string_table s 0 max_enum_value.

Definition convert_server_result_to_string (result : RPC_SRV_RESULT) : M unit string :=
  if decide (result_code RPC_SRV_RESULT_NONE ≤ result_code result)%nat
  then of_opt (rpc_server_result_table !! result_code RPC_SRV_RESULT_UNKNOWN)
  else of_opt (rpc_server_result_table !! result_code result).

(** The loop of [convert_string_to_server_result] over [i]. *)
Fixpoint result_loop (n i : nat) (result_string : string) : M unit RPC_SRV_RESULT :=
  match n with
  | O => mret RPC_SRV_RESULT_UNKNOWN
  | S n =>
      e ← of_opt (rpc_server_result_table !! i);
      if decide (result_string = e) then of_opt (results !! i) else result_loop n (S i) result_string
  end.
Definition convert_string_to_server_result (result_string : string) : M unit RPC_SRV_RESULT :=
  result_loop (result_code RPC_SRV_RESULT_NONE) 0 result_string.

(** The conversions keep no state; [lift] uses them in code that does. *)
Definition lift {S A} (c : M unit A) : M S A := λ s,
  match c () with Done a _ => Done a s | Exit z _ => Exit z s | Oops => Oops | Blocked => Blocked | OutOfFuel => OutOfFuel end.

(** [char result_string[512]], the buffer the callers pass. *)
Definition RESULT_STRING_LEN : nat := 512.

(** Every text the conversion writes fits the callers' buffer. *)
Lemma result_string_fits r t u : convert_server_result_to_string r u = Done t u → (String.length t < RESULT_STRING_LEN)%nat.
Proof. destruct r; intros [= <-]; vm_compute; lia. Qed.

Lemma enum_loop_run fuel tbl s i max : (0 ≤ i ≤ max) → (Z.to_nat (max - i) ≤ fuel)%nat → max ≤ Z.of_nat (length tbl) →
  ∃ r, enum_loop fuel tbl s i max () = Done r () ∧ i ≤ r ≤ max ∧
    (r < max → tbl !! Z.to_nat r = Some s) ∧ (∀ j, i ≤ j < r → tbl !! Z.to_nat j ≠ Some s).
Proof.
  revert i. induction fuel as [|fuel IH]; intros i Hi Hf Hm; simpl; destruct (Z.ltb_spec i max); try lia.
  - exists max. split_and!; [done|lia..|]. intros. lia.
  - destruct (lookup_lt_is_Some_2 tbl (Z.to_nat i) ltac:(lia)) as [e He]. rewrite He, bind_of_opt.
    destruct (decide (e = s)) as [->|Hne].
    + exists i. split_and!; [done|lia..|done|]. intros. lia.
    + destruct (IH (i + 1)) as (r & Hr & Hb & Hlt & Hall); [lia..|]. exists r. split_and!; [done|lia..|done|].
      intros j Hj. destruct (decide (j = i)) as [->|]; [congruence|]. apply Hall. lia.
  - exists max. split_and!; [done|lia..|]. intros. lia.
Qed.

(** [string_to_enum] over a table of at least [max] entries: the first position
    with the text, [max] when there is none. *)
Theorem string_to_enum_first tbl s max : 0 ≤ max ≤ Z.of_nat (length tbl) →
  ∃ r, string_to_enum tbl s max () = Done r () ∧ 0 ≤ r ≤ max ∧
    (r < max → tbl !! Z.to_nat r = Some s) ∧ (∀ j, 0 ≤ j < r → tbl !! Z.to_nat j ≠ Some s).
Proof. intros H. apply enum_loop_run; lia. Qed.

(** The texts of the result codes.  Every code the services use is
    sent as a text that is read back as the same code, the two sentinels are
    sent as Unknown, a text that is none of the table's first 35 is read as
    Unknown, and no text is longer than the buffers it is written into. *)
Theorem result_text_round_trip r u :
  (∃ t, convert_server_result_to_string r u = Done t u ∧ (String.length t < RESULT_STRING_LEN)%nat ∧
     convert_string_to_server_result t u =
       Done (if decide (r = RPC_SRV_RESULT_NONE) then RPC_SRV_RESULT_UNKNOWN else r) u) ∧
  (∀ t, t ∉ take 35 rpc_server_result_table → convert_string_to_server_result t u = Done RPC_SRV_RESULT_UNKNOWN u).
Proof.
  split.
  - destruct r; eexists; (split; [reflexivity|split; [vm_compute; lia|reflexivity]]).
  - intros t Ht. unfold convert_string_to_server_result.
    change (result_code RPC_SRV_RESULT_NONE) with 35%nat.
    assert (Hall : ∀ n i, (i + n ≤ 35)%nat → result_loop n i t u = Done RPC_SRV_RESULT_UNKNOWN u).
    { induction n as [|n IH]; intros i Hi; [done|]. simpl.
      destruct (lookup_lt_is_Some_2 rpc_server_result_table i) as [e He]; [simpl; lia|]. rewrite He, bind_of_opt.
      destruct (decide (t = e)) as [->|]; [|apply IH; lia]. destruct Ht.
      apply (list_elem_of_lookup_2 _ i). rewrite lookup_take_lt by lia. done. }
    apply Hall. lia.
Qed.

Lemma result_text_round_trip_witness : "Garbage" ∉ take 35 rpc_server_result_table ∧
  convert_string_to_server_result "Garbage" () = Done RPC_SRV_RESULT_UNKNOWN ().
Proof.
  assert (H : "Garbage" ∉ take 35 rpc_server_result_table) by (refine (proj1 (bool_decide_eq_true _) _); vm_compute; reflexivity).
  split; [exact H|]. apply (proj2 (result_text_round_trip RPC_SRV_RESULT_FAIL ())). exact H.
Defined.
