(* ===== verification/TaskWorker.v ===== *)
(** * ADTaskWorker: the background tasks of the services

    The class ADTaskWorker with the worker thread of the class ADThread, in the
    two copies of the library, [src/sources/lib/lib-adav-old], which is built,
    and [src/sources/lib/lib-adav].  A service pushes a task and gets its number
    at once; the worker thread takes the tasks from one [ADGenericChain] and
    runs them; a second chain holds a record per task, from which clients read
    the outcome.

    Client threads and the worker thread run at the same time.  What one thread
    does between two points where it takes or gives back a mutex or a semaphore
    is one step; a step relation lets the threads take their steps in any
    order. *)

From stdpp Require Import base list gmap strings.
From Stdlib Require Import ZArith Lia.
From S2P Require Import Prelude ChainHeap Chain AdavChain RpcResult.

Inductive WORK_CMD_AFTER_DONE :=
| WORK_CMD_AFTER_DONE_PRESERVE | WORK_CMD_AFTER_DONE_DELETE | WORK_CMD_AFTER_DONE_UNKNOWN | WORK_CMD_AFTER_DONE_NONE.
#[export] Instance WORK_CMD_AFTER_DONE_eq_dec : EqDecision WORK_CMD_AFTER_DONE.
Proof. solve_decision. Defined.

Record WORK_CMD_TASK := Task {
  taskID : Z;
  percent_complete : Z;
  command : Z;
  taskSts : RPC_SRV_RESULT;
  done_action : WORK_CMD_AFTER_DONE;
  pWorkData : ptr
}.

Record WORK_CMD_TASK_IN_PROG := InProg {
  ip_taskID : Z;
  ip_percent_complete : Z;
  ip_command : Z;
  ip_taskSts : RPC_SRV_RESULT;
  task_err_message : string
}.
Definition set_done (r : RPC_SRV_RESULT) (o : WORK_CMD_TASK_IN_PROG) : WORK_CMD_TASK_IN_PROG :=
  InProg (ip_taskID o) 100 (ip_command o) r (task_err_message o).

(** The memory behind the first chain: tasks, and the data of the callers. *)
Inductive cell := OTask (t : WORK_CMD_TASK) | OData.

(** The members of [ADTaskWorker]; of its thread, the state and the semaphore;
    and the events that were sent to the service's own port. *)
Record worker := Worker {
  work_chain : ADGenericChain cell;
  work_inprog_chain : ADGenericChain WORK_CMD_TASK_IN_PROG;
  thread_active : bool;
  one_shot_sema : Z;
  notified : list (Z * RPC_SRV_RESULT)
}.
Definition set_work c (s : worker) : worker := Worker c (work_inprog_chain s) (thread_active s) (one_shot_sema s) (notified s).
Definition set_inprog c (s : worker) : worker := Worker (work_chain s) c (thread_active s) (one_shot_sema s) (notified s).
Definition set_active b (s : worker) : worker := Worker (work_chain s) (work_inprog_chain s) b (one_shot_sema s) (notified s).
Definition set_sema z (s : worker) : worker := Worker (work_chain s) (work_inprog_chain s) (thread_active s) z (notified s).

Definition set_notified l (s : worker) : worker := Worker (work_chain s) (work_inprog_chain s) (thread_active s) (one_shot_sema s) l.

(** Objects made with [new] and removed with [delete]. *)
Section objects.
Context {A : Type}.
Definition load_obj (l : loc) : M (ADGenericChain A) A := on_core (os ← gets objs; of_opt (os !! l)).
Definition store_obj (l : loc) (a : A) : M (ADGenericChain A) unit :=
  on_core (os ← gets objs; _ ← of_opt (os !! l); modify (set_objs (<[l := a]> os))).
Definition OBJECT_MEM_NEW (new : gmap loc A → loc * A) : M (ADGenericChain A) loc :=
  on_core (os ← gets objs; modify (set_objs (<[(new os).1 := (new os).2]> os));; mret (new os).1).
Definition OBJ_MEM_DELETE (p : ptr) : M (ADGenericChain A) unit := on_core (kfree_data p).
End objects.

Definition on_work {B} (c : M (ADGenericChain cell) B) : M worker B := zoom work_chain set_work c.
Definition on_inprog {B} (c : M (ADGenericChain WORK_CMD_TASK_IN_PROG) B) : M worker B := zoom work_inprog_chain set_inprog c.

(** ** The callbacks
    The two chains share one helper, which tells them apart by the identity
    they call with. *)
Section callbacks.
Variables work_chain_id work_inprog_chain_id : Z.

Definition identify_inprog (call_from : Z) (os : gmap loc WORK_CMD_TASK_IN_PROG) (element : ptr) (ident : Z) : Z :=
  if call_from =? work_inprog_chain_id then
    match element ≫= (os !!.) with
    | Some o => if ip_taskID o =? ident then 0 else -1
    | None => -1
    end
  else -1.
(** [delete pPtr->pWorkData] for an element of the first chain. *)
Definition free_work (call_from : Z) (os : gmap loc cell) (element : ptr) : option (gmap loc cell) :=
  if call_from =? work_chain_id then
    match element ≫= (os !!.) with
    | Some (OTask t) =>
        match pWorkData t with
        | None => Some os
        | Some p => _ ← os !! p; Some (delete p os)
        end
    | _ => None
    end
  else Some os.

(** A task of the first chain; lib-adav identifies none. *)
Definition identify_work (rev : revision) (call_from : Z) (os : gmap loc cell) (element : ptr) (ident : Z) : Z :=
  match rev with
  | Adav => -1
  | AdavOld =>
      if call_from =? work_chain_id then
        match element ≫= (os !!.) with
        | Some (OTask t) => if taskID t =? ident then 0 else -1
        | _ => -1
        end
      else -1
  end.

Definition work_helper (rev : revision) : ADChainConsumer cell := Consumer (identify_work rev) (λ _ _ _ _ _, 0) free_work.
Definition inprog_helper : ADChainConsumer WORK_CMD_TASK_IN_PROG :=
  Consumer identify_inprog (λ _ _ _ _ _, 0) (λ _ os _, Some os).
End callbacks.

Section code.
Variable rev : revision.
(** The allocators: holders of the two chains, and [new] of the two structs,
    which yields an address and what happens to be there. *)
Variable malloc_w malloc_i : gmap loc chain_holder → option (loc * chain_holder).
Variable new_task : gmap loc cell → loc * WORK_CMD_TASK.
Variable new_inprog : gmap loc WORK_CMD_TASK_IN_PROG → loc * WORK_CMD_TASK_IN_PROG.
(** The service's [run_work]: what it returns for a command and its data, and
    what it does to the memory. *)
Variable consumer_run_work : Z → ptr → gmap loc cell → RPC_SRV_RESULT * gmap loc cell.

(** [wakeup_thread] of a monoshot thread, and [sem_wait]. *)
Definition sem_post : M worker unit := modify (λ s, set_sema (one_shot_sema s + 1) s).
Definition sem_wait : M worker unit :=
  n ← gets one_shot_sema; if 0 <? n then modify (set_sema (n - 1)) else blocked.

(** *** push_task, step by step *)
(** Two objects, and a number of the second chain. *)
Definition push_new : M worker (loc * loc * Z) :=
  work_obj ← on_work (OBJECT_MEM_NEW (λ os, ((new_task os).1, OTask (new_task os).2)));
  work_inprog_obj ← on_inprog (OBJECT_MEM_NEW new_inprog);
  taskID ← on_inprog chain_generate_ident;
  mret (work_obj, work_inprog_obj, taskID).
(** The objects are filled in and the task is put. *)
Definition push_work (work_cmd : Z) (data : ptr) (done : WORK_CMD_AFTER_DONE) (work_obj work_inprog_obj : loc) (id : Z) : M worker Z :=
  on_work (store_obj work_obj (OTask (Task id 0 work_cmd RPC_SRV_RESULT_IN_PROG done data)));;
  on_inprog (store_obj work_inprog_obj (InProg id 0 work_cmd RPC_SRV_RESULT_IN_PROG EmptyString));;
  on_work (chain_put malloc_w (Some work_obj)).
Definition push_work_failed (work_obj work_inprog_obj : loc) : M worker Z :=
  on_work (OBJ_MEM_DELETE (Some work_obj));; on_inprog (OBJ_MEM_DELETE (Some work_inprog_obj));; mret (-1).
Definition push_inprog (work_inprog_obj : loc) : M worker Z :=
  on_inprog (chain_put malloc_i (Some work_inprog_obj)).
(** The record does not fit: the task is taken out again and deleted; in
    lib-adav the oldest one. *)
Definition push_inprog_failed (work_inprog_obj : loc) (id : Z) : M worker Z :=
  work_obj ← on_work (match rev with AdavOld => chain_remove_by_ident AdavOld id | Adav => chain_get end);
  on_work (OBJ_MEM_DELETE work_obj);;
  on_inprog (OBJ_MEM_DELETE (Some work_inprog_obj));;
  mret (-1).

Definition push_task (work_cmd : Z) (data : ptr) (done : WORK_CMD_AFTER_DONE) : M worker (Z * Z) :=
  '(work_obj, work_inprog_obj, id) ← push_new;
  r ← push_work work_cmd data done work_obj work_inprog_obj id;
  if negb (r =? 0) then r ← push_work_failed work_obj work_inprog_obj; mret (r, id)
  else
    r ← push_inprog work_inprog_obj;
    if negb (r =? 0) then r ← push_inprog_failed work_inprog_obj id; mret (r, id)
    else sem_post;; mret (0, id).

(** *** get_task_status, step by step *)
(** Under the mutex of the second chain: the status when the task is unknown
    or not finished. *)
Definition status_look (id : Z) : M worker (option RPC_SRV_RESULT) :=
  on_inprog (
    chain_lock;;
    work_inprog_obj ← chain_get_by_ident id;
    match work_inprog_obj with
    | None => chain_unlock;; mret (Some RPC_SRV_RESULT_TASK_ID_NOT_FOUND)
    | Some l =>
        o ← load_obj l;
        chain_unlock;;
        mret (if decide (ip_taskSts o = RPC_SRV_RESULT_IN_PROG) then Some RPC_SRV_RESULT_IN_PROG else None)
    end).
(** What is done with the record that was removed. *)
Definition read_removed (work_inprog_obj : ptr) : M (ADGenericChain WORK_CMD_TASK_IN_PROG) RPC_SRV_RESULT :=
  match work_inprog_obj with
  | None => mret RPC_SRV_RESULT_MEM_ERROR
  | Some l =>
      o ← load_obj l;
      OBJ_MEM_DELETE (Some l);;
      mret (if decide (ip_taskSts o = RPC_SRV_RESULT_SUCCESS) then RPC_SRV_RESULT_SUCCESS else ip_taskSts o)
  end.
(** [chain_remove_by_ident] is one step in lib-adav-old; in lib-adav it reads
    the first holder, and then takes the mutex. *)
Definition status_take (id : Z) : M worker RPC_SRV_RESULT :=
  on_inprog (chain_remove_by_ident AdavOld id ≫= read_removed).
Definition status_peek : M worker ptr := on_inprog (on_core first_holder).
Definition status_remove (id : Z) (pHolder : ptr) : M worker RPC_SRV_RESULT :=
  on_inprog (remove_by_locked (match_ident id) pHolder ≫= read_removed).

(** What is returned is always [RPC_SRV_RESULT_SUCCESS]; the result here is what
    is stored in [*taskSts]. *)
Definition get_task_status (id : Z) : M worker RPC_SRV_RESULT :=
  r ← status_look id;
  match r with
  | Some v => mret v
  | None =>
      match rev with
      | AdavOld => status_take id
      | Adav => pHolder ← status_peek; status_remove id pHolder
      end
  end.

Definition reset_task_id_and_chain : M worker RPC_SRV_RESULT :=
  on_inprog (chain_empty rev);; mret RPC_SRV_RESULT_SUCCESS.
Definition is_command_in_progress (cmd : Z) : M worker Z := mret 0.

(** *** The worker thread, step by step *)
Definition work_get : M worker ptr := on_work chain_get.
(** [run_work(work_obj->command,work_obj->pWorkData)] *)
Definition work_run (work_obj : loc) : M worker (WORK_CMD_TASK * RPC_SRV_RESULT) :=
  on_work (
    c ← load_obj work_obj;
    match c with
    | OTask t =>
        os ← on_core (gets objs);
        on_core (modify (set_objs (consumer_run_work (command t) (pWorkData t) os).2));;
        mret (t, (consumer_run_work (command t) (pWorkData t) os).1)
    | OData => oops
    end).
(** [chain_lock ... chain_unlock] around the update of the record. *)
Definition report_preserve (id : Z) (r : RPC_SRV_RESULT) : M worker unit :=
  on_inprog (
    chain_lock;;
    work_inprog_obj ← chain_get_by_ident id;
    (match work_inprog_obj with
     | None => mret ()
     | Some l => o ← load_obj l; store_obj l (set_done r o)
     end);;
    chain_unlock).
(** The record of a task whose outcome nobody wants; in lib-adav the oldest
    record. *)
Definition report_delete (id : Z) : M worker unit :=
  on_inprog (
    work_inprog_obj ← (match rev with AdavOld => chain_remove_by_ident AdavOld id | Adav => chain_get end);
    OBJ_MEM_DELETE work_inprog_obj).
(** [NOTIFY_EVENT] of lib-adav-old, which sends the number and the result to
    the service itself. *)
Definition notify_event (id : Z) (r : RPC_SRV_RESULT) : M worker unit :=
  match rev with AdavOld => modify (λ s, set_notified (notified s ++ [(id, r)]) s) | Adav => mret () end.
(** The field [resp_type] of lib-adav-old is never set to the value that would
    change [done_action] here. *)
Definition work_report (work_obj : loc) (t : WORK_CMD_TASK) (r : RPC_SRV_RESULT) : M worker unit :=
  (if decide (done_action t = WORK_CMD_AFTER_DONE_PRESERVE) then report_preserve (taskID t) r;; notify_event (taskID t) r
   else report_delete (taskID t));;
  on_work (OBJ_MEM_DELETE (Some work_obj)).

Definition monoshot_callback_function : M worker Z :=
  work_obj ← work_get;
  match work_obj with
  | None => mret 0
  | Some l => '(t, r) ← work_run l; work_report l t r;; mret 0
  end.

(** [my_thread_func] of a monoshot thread, [n] rounds of it. *)
Fixpoint my_thread_func (n : nat) : M worker unit :=
  match n with
  | O => mret ()
  | S n =>
      a ← gets thread_active;
      if (a : bool) then sem_wait;; monoshot_callback_function;; my_thread_func n else mret ()
  end.

(** *** Constructor and destructor *)
(** On the memory of the two chains; [IDGenerator] numbers the chains. *)
Definition ADTaskWorker_new (raw_w : chain bool cell) (raw_i : chain bool WORK_CMD_TASK_IN_PROG) (IDGenerator : Z) : option worker :=
  match ADGenericChain_new raw_w IDGenerator with
  | Done (w, g) _ =>
      match ADGenericChain_new raw_i g with
      | Done (i, _) _ =>
          match attach_helper (inprog_helper (id i)) i, attach_helper (work_helper (id w) rev) w with
          | Done _ i, Done _ w => Some (Worker w i true 0 [])
          | _, _ => None
          end
      | _ => None
      end
  | _ => None
  end.
(** The destructor of lib-adav, while the thread waits in [sem_wait]: the thread
    is released, runs the callback once more and ends.  (The [stop_thread] of
    lib-adav-old also cancels the thread, at whatever point it has reached.)  Then the chains are emptied, by this
    destructor and by those of the members. *)
Definition ADTaskWorker_delete : M worker unit :=
  modify (set_active false);;
  sem_post;;
  sem_wait;; monoshot_callback_function;;
  on_work (remove_all Adav);;
  on_inprog (remove_all Adav);;
  on_inprog (ADGenericChain_delete Adav);;
  on_work (ADGenericChain_delete Adav);;
  mret ().

(** ** Threads *)
Inductive client_pc :=
| CIdle
| CPushWork (cmd : Z) (data : ptr) (done : WORK_CMD_AFTER_DONE) (w i : loc) (id : Z)
| CPushInprog (cmd : Z) (data : ptr) (done : WORK_CMD_AFTER_DONE) (w i : loc) (id : Z)
| CPushWake (cmd : Z) (data : ptr) (done : WORK_CMD_AFTER_DONE) (id : Z)
| CStatusPeek (id : Z)
| CStatusRemove (id : Z) (pHolder : ptr).

Inductive worker_pc :=
| WWait
| WGet
| WRun (l : loc)
| WReport (l : loc) (t : WORK_CMD_TASK) (r : RPC_SRV_RESULT).

Inductive call := PushTask (cmd : Z) (data : ptr) (done : WORK_CMD_AFTER_DONE) | GetTaskStatus (id : Z).

(** What the outside sees: a call that returned, or a task that was run. *)
Inductive event :=
| EvPush (cmd : Z) (data : ptr) (done : WORK_CMD_AFTER_DONE) (r id : Z)
| EvStatus (id : Z) (v : RPC_SRV_RESULT)
| EvRan (id : Z) (r : RPC_SRV_RESULT).

(** A client's next step; an idle client starts the call [c]. *)
Definition client_step (c : call) (pc : client_pc) : M worker (client_pc * option event) :=
  match pc with
  | CIdle =>
      match c with
      | PushTask cmd data done => '(w, i, id) ← push_new; mret (CPushWork cmd data done w i id, None)
      | GetTaskStatus id =>
          r ← status_look id;
          mret (match r with Some v => (CIdle, Some (EvStatus id v)) | None => (CStatusPeek id, None) end)
      end
  | CPushWork cmd data done w i id =>
      r ← push_work cmd data done w i id;
      if negb (r =? 0) then r ← push_work_failed w i; mret (CIdle, Some (EvPush cmd data done r id))
      else mret (CPushInprog cmd data done w i id, None)
  | CPushInprog cmd data done w i id =>
      r ← push_inprog i;
      if negb (r =? 0) then r ← push_inprog_failed i id; mret (CIdle, Some (EvPush cmd data done r id))
      else mret (CPushWake cmd data done id, None)
  | CPushWake cmd data done id => sem_post;; mret (CIdle, Some (EvPush cmd data done 0 id))
  | CStatusPeek id =>
      match rev with
      | AdavOld => v ← status_take id; mret (CIdle, Some (EvStatus id v))
      | Adav => p ← status_peek; mret (CStatusRemove id p, None)
      end
  | CStatusRemove id p => v ← status_remove id p; mret (CIdle, Some (EvStatus id v))
  end.

(** The worker thread's next step. *)
Definition worker_step (pc : worker_pc) : M worker (worker_pc * option event) :=
  match pc with
  | WWait => sem_wait;; mret (WGet, None)
  | WGet => p ← work_get; mret (match p with Some l => WRun l | None => WWait end, None)
  | WRun l => '(t, r) ← work_run l; mret (WReport l t r, Some (EvRan (taskID t) r))
  | WReport l t r => work_report l t r;; mret (WWait, None)
  end.

Record config := Config { shared : worker; clients : list client_pc; wthread : worker_pc; trace : list event }.

Definition snoc_event (tr : list event) (e : option event) : list event :=
  match e with Some e => tr ++ [e] | None => tr end.

(** One step of one thread: client [k], or the worker; the clients make the
    calls that are [allowed]. *)
Variable allowed : call → Prop.
Inductive thread_step : config → config → Prop :=
| step_client s cs wp tr k pc c s' pc' e :
    allowed c → cs !! k = Some pc → client_step c pc s = Done (pc', e) s' →
    thread_step (Config s cs wp tr) (Config s' (<[k := pc']> cs) wp (snoc_event tr e))
| step_worker s cs wp tr s' wp' e :
    worker_step wp s = Done (wp', e) s' →
    thread_step (Config s cs wp tr) (Config s' cs wp' (snoc_event tr e)).

(** A thread whose next step is a fault. *)
Definition faulty (g : config) : Prop :=
  (∃ k pc c, allowed c ∧ clients g !! k = Some pc ∧ client_step c pc (shared g) = Oops) ∨
  worker_step (wthread g) (shared g) = Oops.

End code.
