(* ===== verification/TaskWorkerProofs.v ===== *)
(** * What the background tasks promise

    The theorems of [TaskWorker]: with one client thread beside the worker
    thread, whatever the order of the steps, the calls see a simple store of
    tasks, and every task is completed.  In lib-adav-old this holds for all
    calls and also when memory is short; in lib-adav only for tasks whose
    outcome is kept, and with enough memory. *)

From stdpp Require Import base list gmap strings sorting.
From Stdlib Require Import ZArith Lia.
From S2P Require Import Prelude ChainHeap Chain AdavChain RpcResult TaskWorker.

Lemma fmap_done_inv {S A B} (f : A → B) (c : M S A) s b s' :
  (f <$> c) s = Done b s' → ∃ a, c s = Done a s' ∧ b = f a.
Proof.
  unfold fmap, M_fmap, mbind, M_bind. destruct (c s) as [a s1| | | |]; try done.
  intros [= <- <-]. by exists a.
Qed.

(** ** A chain and the objects it holds *)
Section view.
Context {A : Type}.
Variables (h : ADChainConsumer A) (i : Z).
Implicit Types (d : ADGenericChain A) (l : list (loc * A)) (os : gmap loc A).

(** The chain [d] holds the objects [l] in this order; [os] is the memory, [n]
    the last number given out. *)
Definition holds (lk : bool) d (n : Z) l os : Prop :=
  (∃ pk, adref lk d (Adq (Some <$> l.*1) pk true os n 0 (Some h) i)) ∧
  NoDup l.*1 ∧ (∀ x a, (x, a) ∈ l → os !! x = Some a).

Lemma holds_objs lk d n l os : holds lk d n l os → objs (core d) = os.
Proof. intros [[pk H] _]. apply (adref_objs _ _ _ H). Qed.

Lemma holds_put (malloc : gmap loc chain_holder → option (loc * chain_holder)) d n l os x a :
  (∀ hs (y : loc) g, malloc hs = Some (y, g) → hs !! y = None) → has_room malloc d = true →
  holds false d n l os → os !! x = Some a → x ∉ l.*1 → Z.of_nat (length l) < INT_MAX →
  ∃ d', chain_put malloc (Some x) d = Done 0 d' ∧ holds false d' n (l ++ [(x, a)]) os.
Proof.
  intros Hfr Hroom [[pk H] [Hnd Hl]] Hx Hnew Hlen.
  destruct (chain_put_ref malloc Hfr d _ (Some x) H) as (r & d' & q' & Hrun & Hs & H').
  { simpl. by rewrite length_fmap, length_fmap. }
  rewrite Hroom in Hs. simplify_eq/=. exists d'. split; [done|]. split_and!.
  - eexists. by rewrite fmap_app, fmap_app.
  - rewrite fmap_app. apply NoDup_app. split_and!; [done|set_solver|apply NoDup_singleton].
  - intros y b Hy. apply elem_of_app in Hy as [Hy|Hy]; [by apply Hl|]. set_solver.
Qed.

Lemma holds_put_fails (malloc : gmap loc chain_holder → option (loc * chain_holder)) d n l os x :
  (∀ hs (y : loc) g, malloc hs = Some (y, g) → hs !! y = None) → has_room malloc d = false →
  holds false d n l os → Z.of_nat (length l) < INT_MAX →
  ∃ d', chain_put malloc (Some x) d = Done (-1) d' ∧ holds false d' n l os.
Proof.
  intros Hfr Hno [[pk H] [Hnd Hl]] Hlen.
  destruct (chain_put_ref malloc Hfr d _ (Some x) H) as (r & d' & q' & Hrun & Hs & H').
  { simpl. by rewrite length_fmap, length_fmap. }
  rewrite Hno in Hs. simplify_eq/=. exists d'. split; [done|]. split; [by exists pk|done].
Qed.

Lemma holds_get d n l os : holds false d n l os →
  ∃ d', chain_get d = Done (head l.*1) d' ∧ holds false d' n (tail l) os.
Proof.
  intros [[pk H] [Hnd Hl]]. destruct (chain_get_ref d _ H) as (d' & Hrun & H'). simpl in *.
  exists d'. split; [rewrite Hrun; by destruct l as [|[x a] l]|]. split_and!.
  - exists pk. by destruct l as [|[x a] l].
  - destruct l as [|[x a] l]; [done|]. by apply NoDup_cons in Hnd as [_ ?].
  - intros y b Hy. apply Hl. destruct l; [done|]. set_solver.
Qed.

Lemma holds_generate d n l os : holds false d n l os →
  ∃ d', chain_generate_ident d = Done (int32 (n + 1)) d' ∧ holds false d' (int32 (n + 1)) l os.
Proof.
  intros [[pk H] Hl]. destruct (locked_refines (λ _, None) ltac:(done) AdavOld d _ AdGenerate H I eq_refl) as (room & d' & Hrun & H').
  exists d'. split; [|split; [|done]].
  - by destruct (fmap_done_inv _ _ _ _ _ Hrun) as (a & Ha & [= ->]).
  - exists pk. done.
Qed.

(** Steps on the objects alone. *)
Lemma with_objs lk d n l os os' : holds lk d n l os → (∀ x a, (x, a) ∈ l → os' !! x = Some a) →
  holds lk (set_core (set_objs os' (core d)) d) n l os'.
Proof. intros [[pk H] [Hnd Hl]] Hl'. split_and!; [|done|done]. exists pk. apply (set_objs_ref _ _ _ os' H). Qed.

Lemma holds_load lk d n l os x a : holds lk d n l os → os !! x = Some a → load_obj x d = Done a d.
Proof.
  intros H Hx. apply on_core_read. unfold gets, mbind, M_bind, of_opt. by rewrite (holds_objs _ _ _ _ _ H), Hx.
Qed.

Lemma holds_new lk d n l os new : holds lk d n l os → os !! (new os).1 = None →
  ∃ d', OBJECT_MEM_NEW new d = Done (new os).1 d' ∧ holds lk d' n l (<[(new os).1 := (new os).2]> os) ∧ (new os).1 ∉ l.*1.
Proof.
  intros H Hn. assert (Ho := holds_objs _ _ _ _ _ H). eexists. split; [|split].
  - apply on_core_done. rewrite bind_gets, Ho. done.
  - apply (with_objs _ _ _ _ _ _ H). intros x a Hx. destruct H as [_ [_ Hl]].
    rewrite lookup_insert_ne; [by apply Hl|]. intros <-. specialize (Hl _ _ Hx). congruence.
  - intros Hin. apply list_elem_of_fmap in Hin as ([x a] & Hx & Hin). simpl in *.
    destruct H as [_ [_ Hl]]. specialize (Hl _ _ Hin). rewrite Hx in Hn. congruence.
Qed.

Lemma holds_store_local lk d n l os x a b : holds lk d n l os → os !! x = Some a → x ∉ l.*1 →
  ∃ d', store_obj x b d = Done () d' ∧ holds lk d' n l (<[x := b]> os).
Proof.
  intros H Hx Hnew. assert (Ho := holds_objs _ _ _ _ _ H). eexists. split.
  - apply on_core_done. rewrite bind_gets, Ho, Hx. done.
  - apply (with_objs _ _ _ _ _ _ H). intros y c Hy. destruct H as [_ [_ Hl]].
    rewrite lookup_insert_ne; [by apply Hl|]. intros <-. apply Hnew, list_elem_of_fmap. by exists (x, c).
Qed.

Lemma holds_delete lk d n l os x a : holds lk d n l os → os !! x = Some a → x ∉ l.*1 →
  ∃ d', OBJ_MEM_DELETE (Some x) d = Done () d' ∧ holds lk d' n l (delete x os).
Proof.
  intros H Hx Hnew. assert (Ho := holds_objs _ _ _ _ _ H). eexists. split.
  - apply on_core_done. unfold kfree_data. rewrite bind_gets, Ho, Hx. done.
  - rewrite Ho. apply (with_objs _ _ _ _ _ _ H). intros y c Hy. destruct H as [_ [_ Hl]].
    rewrite lookup_delete_ne; [by apply Hl|]. intros <-. apply Hnew, list_elem_of_fmap. by exists (x, c).
Qed.

Lemma holds_lock d n l os : holds false d n l os → chain_lock d = Done () (with_lock true d) ∧ holds true (with_lock true d) n l os.
Proof.
  intros [[pk H] Hl]. split; [by apply sema_lock_done, (adref_lock _ _ _ H)|]. split; [|done].
  exists pk. by apply (with_lock_ref true false).
Qed.
Lemma holds_unlock lk d n l os : holds lk d n l os → chain_unlock d = Done () (with_lock false d) ∧ holds false (with_lock false d) n l os.
Proof. intros [[pk H] Hl]. split; [done|]. split; [|done]. exists pk. by apply (with_lock_ref false lk). Qed.

(** The update of an object the chain holds. *)
Lemma holds_store lk d n l1 x a l2 os b : holds lk d n (l1 ++ (x, a) :: l2) os →
  ∃ d', store_obj x b d = Done () d' ∧ holds lk d' n (l1 ++ (x, b) :: l2) (<[x := b]> os) ∧
    base (core d') = base (core d) ∧ holders (core d') = holders (core d).
Proof.
  intros H. assert (Ho := holds_objs _ _ _ _ _ H). destruct H as [[pk H] [Hnd Hl]].
  assert (Hx : os !! x = Some a) by (apply Hl; set_solver).
  exists (set_core (set_objs (<[x := b]> os) (core d)) d). split; [|split; [split_and!|done]].
  - apply on_core_done. rewrite bind_gets, Ho, Hx. done.
  - exists pk. rewrite fmap_app, fmap_cons in *. apply (set_objs_ref _ _ _ (<[x := b]> os) H).
  - by rewrite fmap_app, fmap_cons in *.
  - intros y c Hy. rewrite fmap_app, fmap_cons in Hnd. apply NoDup_app in Hnd as (Hnd1 & Hd & Hnd2).
    apply NoDup_cons in Hnd2 as [Hx2 Hnd2]. simpl in *.
    apply elem_of_app in Hy as [Hy|Hy]; [|apply elem_of_cons in Hy as [Hy|Hy]].
    + rewrite lookup_insert_ne; [apply Hl; set_solver|]. intros <-.
      apply (Hd x); [|set_solver]. apply list_elem_of_fmap. by exists (x, c).
    + simplify_eq. by rewrite lookup_insert_eq.
    + rewrite lookup_insert_ne; [apply Hl; set_solver|]. intros <-.
      apply Hx2, list_elem_of_fmap. by exists (x, c).
Qed.

Lemma holds_sub lk d n l1 x a l2 os pk :
  holds lk d n (l1 ++ (x, a) :: l2) os →
  ∀ d', adref lk d' (Adq (Some <$> (l1 ++ l2).*1) pk true os n 0 (Some h) i) → holds lk d' n (l1 ++ l2) os.
Proof.
  intros [_ [Hnd Hl]] d' H'. split_and!; [by exists pk| |].
  - rewrite fmap_app, fmap_cons in Hnd. rewrite fmap_app. eapply sublist_NoDup; [exact Hnd|].
    apply sublist_app; [done|]. by constructor.
  - intros y c Hy. apply Hl. set_solver.
Qed.

Lemma removed_loc lk d n l1 x a l2 os : holds lk d n (l1 ++ (x, a) :: l2) os →
  os !! x = Some a ∧ x ∉ (l1 ++ l2).*1.
Proof.
  intros [_ [Hnd Hl]]. split; [apply Hl; set_solver|].
  rewrite fmap_app, fmap_cons in Hnd. apply NoDup_app in Hnd as (_ & Hd & Hnd).
  apply NoDup_cons in Hnd as [Hx2 _]. rewrite fmap_app. intros [Hin|Hin]%elem_of_app; [|done].
  apply (Hd x Hin). set_solver.
Qed.
End view.

(** The first holder, as the next call of lib-adav's [chain_remove_by_ident]
    would read it. *)
Definition peeked {A} (d : ADGenericChain A) (p : ptr) : Prop := on_core first_holder d = Done p d.

Lemma peeked_frame {A} (d d' : ADGenericChain A) p : base (core d') = base (core d) → holders (core d') = holders (core d) →
  peeked d p → peeked d' p.
Proof.
  unfold peeked, on_core, zoom, first_holder, load, mbind, M_bind, gets. intros -> ->.
  destruct (holders (core d) !! base (core d)) as [x|]; simpl; [|done]. intros H. injection H as <- _.
  unfold set_core. by destruct d'.
Qed.

(** ** Elements found by their number *)
Section keys.
Context {A : Type}.
Variable key : A → option Z.
Implicit Types l : list (loc * A).

Definition find_key (k : Z) l : option (loc * A) := List.find (λ p, bool_decide (key p.2 = Some k)) l.

Lemma find_key_split k l x a : find_key k l = Some (x, a) →
  key a = Some k ∧ ∃ l1 l2, l = l1 ++ (x, a) :: l2 ∧ (∀ p, p ∈ l1 → key p.2 ≠ Some k).
Proof.
  unfold find_key. induction l as [|p l IH]; [done|]. cbn [List.find]. case_bool_decide as Hp.
  - intros [= ->]. split; [done|]. exists [], l. split; [done|]. set_solver.
  - intros H. destruct (IH H) as (Ho & l1 & l2 & -> & Hl). split; [done|]. exists (p :: l1), l2. set_solver.
Qed.
Lemma find_key_none k l : (∀ p, p ∈ l → key p.2 ≠ Some k) → find_key k l = None.
Proof.
  unfold find_key. induction l as [|p l IH]; [done|]. intros H. cbn [List.find].
  rewrite bool_decide_eq_false_2 by (apply H; set_solver). apply IH. set_solver.
Qed.
Lemma find_key_here k l1 x a l2 : key a = Some k → (∀ p, p ∈ l1 → key p.2 ≠ Some k) →
  find_key k (l1 ++ (x, a) :: l2) = Some (x, a).
Proof.
  intros Ha. unfold find_key. induction l1 as [|p l1 IH]; intros H; cbn [app List.find].
  - by rewrite bool_decide_eq_true_2.
  - rewrite bool_decide_eq_false_2 by (apply H; set_solver). apply IH. set_solver.
Qed.

End keys.

Section idents.
Context {A : Type}.
Variables (h : ADChainConsumer A) (i : Z) (key : A → option Z).
(** The callback accepts an element by its number. *)
Hypothesis key_ok : ∀ os x a k, os !! x = Some a →
  (cb_identify h i os (Some x) k =? 0) = bool_decide (key a = Some k).
Implicit Types (d : ADGenericChain A) (l : list (loc * A)).

Lemma ident_first lk d n l os k : holds h i lk d n l os →
  chain_get_by_ident k d = Done (fst <$> find_key key k l) d.
Proof.
  intros [[pk H] [_ Hl]]. change (chain_get_by_ident (A := A) k) with (get_by (A := A) (match_ident k)).
  rewrite (get_by_ref lk d _ _ _ H (callback_ident k)). f_equal. simpl. clear H.
  induction l as [|[x o] l IH]; [done|]. unfold find_key in *. rewrite !fmap_cons. cbn [List.find fst].
  rewrite (key_ok os x o) by (apply Hl; set_solver). cbn [snd].
  destruct (bool_decide (key o = Some k)); [done|]. apply IH. intros. apply Hl. set_solver.
Qed.

Lemma holds_peek d n l os lk : holds h i lk d n l os → ∃ p, peeked d p.
Proof.
  intros [[pk H] _]. destruct (adref_items _ _ _ H) as (ls & Hr & _). eexists. by apply (first_holder_ref lk d _ ls H).
Qed.
Lemma ident_drop os k l1 x a l2 : key a = Some k → (∀ p, p ∈ l1 → key p.2 ≠ Some k) →
  (∀ y b, (y, b) ∈ l1 ++ (x, a) :: l2 → os !! y = Some b) →
  drop_first (λ e, cb_identify h i os e k) (Some <$> (l1 ++ (x, a) :: l2).*1) = Some <$> (l1 ++ l2).*1 ∧
  default None (List.find (λ e, cb_identify h i os e k =? 0) (Some <$> (l1 ++ (x, a) :: l2).*1)) = Some x.
Proof.
  intros Ha. induction l1 as [|[y b] l1 IH]; intros Hne Hl.
  - cbn [app]. rewrite !fmap_cons. cbn [drop_first List.find fst].
    rewrite (key_ok os x a) by (apply Hl; set_solver). by rewrite bool_decide_eq_true_2.
  - rewrite <-!app_comm_cons, !fmap_cons. cbn [drop_first List.find fst].
    rewrite (key_ok os y b) by (apply Hl; set_solver).
    rewrite bool_decide_eq_false_2 by (apply (Hne (y, b)); set_solver).
    destruct IH as [IH1 IH2]; [set_solver| |by rewrite IH1].
    intros z c Hz. apply Hl. set_solver.
Qed.

(** Removing an element by its number: in one step, or after a peek that still
    holds. *)
Lemma take_ident d n l1 x a l2 os k : holds h i false d n (l1 ++ (x, a) :: l2) os →
  key a = Some k → (∀ p, p ∈ l1 → key p.2 ≠ Some k) →
  ∃ d', chain_remove_by_ident AdavOld k d = Done (Some x) d' ∧ holds h i false d' n (l1 ++ l2) os.
Proof.
  intros Hh Ha Hne. assert (Hh' := Hh). destruct Hh' as [[pk H] [Hnd Hl]].
  destruct (remove_by_call AdavOld d _ _ _ H (callback_ident k)) as (d' & Hrun & H').
  destruct (ident_drop os k l1 x a l2 Ha Hne Hl) as [Hd Hf].
  exists d'. cbn [q_alive q_items q_match q_helper q_first q_drop fmap option_fmap option_map q_id q_objs] in *.
  rewrite Hf in Hrun. rewrite Hd in H'. split; [exact Hrun|]. by apply (holds_sub h i _ d _ _ x a _ _ pk).
Qed.
Lemma remove_peeked d n l1 x a l2 os k p : holds h i false d n (l1 ++ (x, a) :: l2) os →
  key a = Some k → (∀ p, p ∈ l1 → key p.2 ≠ Some k) → peeked d p →
  ∃ d', remove_by_locked (match_ident k) p d = Done (Some x) d' ∧ holds h i false d' n (l1 ++ l2) os.
Proof.
  intros Hh Ha Hne Hp. assert (Hh' := Hh). destruct Hh' as [[pk H] [Hnd Hl]]. destruct (adref_items _ _ _ H) as (ls & Hr & Hi).
  assert (p = head ls.*1) as ->.
  { unfold peeked in Hp. rewrite (first_holder_ref _ _ _ _ H Hr) in Hp. by injection Hp. }
  destruct (remove_by_ref d _ _ _ ls H (callback_ident k) Hr) as (d' & Hrun & H').
  destruct (ident_drop os k l1 x a l2 Ha Hne Hl) as [Hd Hf].
  exists d'. cbn [q_alive q_items q_match q_helper q_first q_drop fmap option_fmap option_map q_id q_objs] in *.
  rewrite Hf in Hrun. rewrite Hd in H'. split; [exact Hrun|]. by apply (holds_sub h i _ d _ _ x a _ _ pk).
Qed.

End idents.

(** ** The records *)
Section records.
Variable iid : Z.
Implicit Types (d : ADGenericChain WORK_CMD_TASK_IN_PROG) (l : list (loc * WORK_CMD_TASK_IN_PROG)).
Abbreviation ih := (inprog_helper iid).

Definition rec_key (o : WORK_CMD_TASK_IN_PROG) : option Z := Some (ip_taskID o).
Definition rid (p : loc * WORK_CMD_TASK_IN_PROG) : Z := ip_taskID p.2.
Definition find_rec (n : Z) l : option (loc * WORK_CMD_TASK_IN_PROG) := find_key rec_key n l.

Lemma rec_key_ok os x o k : os !! x = Some o →
  (cb_identify ih iid os (Some x) k =? 0) = bool_decide (rec_key o = Some k).
Proof.
  intros Hx. simpl. unfold identify_inprog, rec_key. rewrite Z.eqb_refl. simpl. rewrite Hx.
  destruct (Z.eqb_spec (ip_taskID o) k); [by rewrite bool_decide_eq_true_2 by congruence|].
  by rewrite bool_decide_eq_false_2 by congruence.
Qed.
Lemma rid_key p k : rid p = k ↔ rec_key p.2 = Some k.
Proof. unfold rid, rec_key. naive_solver. Qed.

Lemma find_rec_none n l : n ∉ rid <$> l → find_rec n l = None.
Proof.
  intros H. apply find_key_none. intros p Hp Hk. apply H, list_elem_of_fmap. exists p. split; [|done].
  symmetry. by apply rid_key.
Qed.
Lemma nodup_rec_split l1 x o l2 : NoDup (rid <$> l1 ++ (x, o) :: l2) → ∀ p, p ∈ l1 ++ l2 → rid p ≠ ip_taskID o.
Proof.
  rewrite fmap_app, fmap_cons. intros Hnd. apply NoDup_app in Hnd as (_ & Hd & Hn2). apply NoDup_cons in Hn2 as [Hn2 _].
  unfold rid in *. simpl in *. intros p [Hp|Hp]%elem_of_app E.
  - apply (Hd (ip_taskID o)); [|by apply elem_of_cons; left]. apply list_elem_of_fmap. by exists p.
  - apply Hn2. apply list_elem_of_fmap. by exists p.
Qed.
Lemma before_rec l1 x o l2 : NoDup (rid <$> l1 ++ (x, o) :: l2) → ∀ p, p ∈ l1 → rec_key p.2 ≠ Some (ip_taskID o).
Proof.
  intros Hnd p Hp Hk. apply (nodup_rec_split l1 x o l2 Hnd p); [apply elem_of_app; by left|]. by apply rid_key.
Qed.
Lemma find_rec_in l x o : NoDup (rid <$> l) → (x, o) ∈ l → find_rec (ip_taskID o) l = Some (x, o).
Proof.
  intros Hnd Hin. apply list_elem_of_split in Hin as (l1 & l2 & ->).
  apply find_key_here; [done|]. by eapply before_rec.
Qed.

Lemma look_step d n l os k : holds ih iid false d n l os →
  ∃ d', (chain_lock;;
    work_inprog_obj ← chain_get_by_ident k;
    match work_inprog_obj with
    | None => chain_unlock;; mret (Some RPC_SRV_RESULT_TASK_ID_NOT_FOUND)
    | Some l =>
        o ← load_obj l;
        chain_unlock;;
        mret (if decide (ip_taskSts o = RPC_SRV_RESULT_IN_PROG) then Some RPC_SRV_RESULT_IN_PROG else None)
    end) d =
    Done (match find_rec k l with
          | None => Some RPC_SRV_RESULT_TASK_ID_NOT_FOUND
          | Some (_, o) => if decide (ip_taskSts o = RPC_SRV_RESULT_IN_PROG) then Some RPC_SRV_RESULT_IN_PROG else None
          end) d' ∧ holds ih iid false d' n l os.
Proof.
  intros H. destruct (holds_lock _ _ _ _ _ _ H) as [Hlk H1]. rewrite (bind_done _ _ _ _ _ Hlk).
  rewrite (bind_done _ _ _ _ _ (ident_first ih iid rec_key rec_key_ok _ _ _ _ _ k H1)). fold (find_rec k l).
  destruct (holds_unlock _ _ _ _ _ _ _ H1) as [Hul H2]. eexists. split; [|exact H2].
  destruct (find_rec k l) as [[x o]|] eqn:E; simpl.
  - destruct (find_key_split _ _ _ _ _ E) as (_ & l1 & l2 & -> & _).
    assert (Hx : os !! x = Some o) by (apply H; set_solver).
    rewrite (bind_done _ _ _ _ _ (holds_load _ _ _ _ _ _ _ _ _ H1 Hx)). by rewrite (bind_done _ _ _ _ _ Hul).
  - by rewrite (bind_done _ _ _ _ _ Hul).
Qed.

Lemma report_step d n l1 x o l2 os r : holds ih iid false d n (l1 ++ (x, o) :: l2) os →
  NoDup (rid <$> l1 ++ (x, o) :: l2) →
  ∃ d', (chain_lock;;
    work_inprog_obj ← chain_get_by_ident (ip_taskID o);
    (match work_inprog_obj with
     | None => mret ()
     | Some l => o ← load_obj l; store_obj l (set_done r o)
     end);;
    chain_unlock) d = Done () d' ∧
    holds ih iid false d' n (l1 ++ (x, set_done r o) :: l2) (<[x := set_done r o]> os) ∧
    (∀ p, peeked d p → peeked d' p).
Proof.
  intros H Hnd. destruct (holds_lock _ _ _ _ _ _ H) as [Hlk H1]. rewrite (bind_done _ _ _ _ _ Hlk).
  rewrite (bind_done _ _ _ _ _ (ident_first ih iid rec_key rec_key_ok _ _ _ _ _ (ip_taskID o) H1)).
  fold (find_rec (ip_taskID o) (l1 ++ (x, o) :: l2)). rewrite (find_rec_in _ x o Hnd) by set_solver. simpl.
  assert (Hx : os !! x = Some o) by (apply H; set_solver).
  destruct (holds_store _ _ _ _ _ _ _ _ _ _ (set_done r o) H1) as (d2 & Hst & H2 & Hb & Hh).
  destruct (holds_unlock _ _ _ _ _ _ _ H2) as [Hul H3]. eexists. split; [|split; [exact H3|]].
  - rewrite (bind_done _ _ _ () d2); [done|]. by rewrite (bind_done _ _ _ _ _ (holds_load _ _ _ _ _ _ _ _ _ H1 Hx)).
  - intros p. by apply peeked_frame.
Qed.

Lemma read_removed_done d n l os x o : holds ih iid false d n l os → os !! x = Some o → x ∉ l.*1 →
  ∃ d', read_removed (Some x) d = Done (ip_taskSts o) d' ∧ holds ih iid false d' n l (delete x os).
Proof.
  intros H Hx Hn. destruct (holds_delete _ _ _ _ _ _ _ _ _ H Hx Hn) as (d2 & Hdel & H2). exists d2. split; [|done].
  unfold read_removed. rewrite (bind_done _ _ _ _ _ (holds_load _ _ _ _ _ _ _ _ _ H Hx)).
  rewrite (bind_done _ _ _ _ _ Hdel). destruct (decide _) as [->|]; done.
Qed.

(** Reading a result: the record is taken out and deleted. *)
Lemma take_step d n l1 x o l2 os : holds ih iid false d n (l1 ++ (x, o) :: l2) os → NoDup (rid <$> l1 ++ (x, o) :: l2) →
  ∃ d', (chain_remove_by_ident AdavOld (ip_taskID o) ≫= read_removed) d = Done (ip_taskSts o) d' ∧
    holds ih iid false d' n (l1 ++ l2) (delete x os).
Proof.
  intros H Hnd. destruct (removed_loc _ _ _ _ _ _ _ _ _ _ H) as [Hx Hxn].
  destruct (take_ident ih iid rec_key rec_key_ok d n l1 x o l2 os (ip_taskID o) H eq_refl (before_rec l1 x o l2 Hnd)) as (d1 & Hrm & H1).
  rewrite (bind_done _ _ _ _ _ Hrm). by apply (read_removed_done d1 n (l1 ++ l2) os).
Qed.
Lemma remove_step d n l1 x o l2 os p : holds ih iid false d n (l1 ++ (x, o) :: l2) os →
  NoDup (rid <$> l1 ++ (x, o) :: l2) → peeked d p →
  ∃ d', (remove_by_locked (match_ident (ip_taskID o)) p ≫= read_removed) d = Done (ip_taskSts o) d' ∧
    holds ih iid false d' n (l1 ++ l2) (delete x os).
Proof.
  intros H Hnd Hp. destruct (removed_loc _ _ _ _ _ _ _ _ _ _ H) as [Hx Hxn].
  destruct (remove_peeked ih iid rec_key rec_key_ok d n l1 x o l2 os (ip_taskID o) p H eq_refl (before_rec l1 x o l2 Hnd) Hp) as (d1 & Hrm & H1).
  rewrite (bind_done _ _ _ _ _ Hrm). by apply (read_removed_done d1 n (l1 ++ l2) os).
Qed.
(** Deleting the record of a task whose outcome nobody wants. *)
Lemma drop_step d n l1 x o l2 os : holds ih iid false d n (l1 ++ (x, o) :: l2) os → NoDup (rid <$> l1 ++ (x, o) :: l2) →
  ∃ d', (p ← chain_remove_by_ident AdavOld (ip_taskID o); OBJ_MEM_DELETE p) d = Done () d' ∧
    holds ih iid false d' n (l1 ++ l2) (delete x os).
Proof.
  intros H Hnd. destruct (removed_loc _ _ _ _ _ _ _ _ _ _ H) as [Hx Hxn].
  destruct (take_ident ih iid rec_key rec_key_ok d n l1 x o l2 os (ip_taskID o) H eq_refl (before_rec l1 x o l2 Hnd)) as (d1 & Hrm & H1).
  rewrite (bind_done _ _ _ _ _ Hrm). by apply (holds_delete _ _ _ _ _ _ _ x o H1 Hx Hxn).
Qed.
End records.

(** ** The store of tasks the clients see *)
Inductive tstate :=
| Pending (cmd : Z) (data : ptr) (done : WORK_CMD_AFTER_DONE)
| Ran (done : WORK_CMD_AFTER_DONE) (r : RPC_SRV_RESULT).
Abbreviation PRESERVE := WORK_CMD_AFTER_DONE_PRESERVE.

Section promise.
Variable rev : revision.
Variable malloc_w malloc_i : gmap loc chain_holder → option (loc * chain_holder).
Variable new_task : gmap loc cell → loc * WORK_CMD_TASK.
Variable new_inprog : gmap loc WORK_CMD_TASK_IN_PROG → loc * WORK_CMD_TASK_IN_PROG.
Variable consumer_run_work : Z → ptr → gmap loc cell → RPC_SRV_RESULT * gmap loc cell.

(** The last number given out, and the tasks whose outcome was not read yet. *)
Definition tstore : Type := Z * gmap Z tstate.

Definition is_pending (T : gmap Z tstate) (k : Z) : Prop := ∃ cmd data done, T !! k = Some (Pending cmd data done).

(** What a call may return, and in which order the tasks run: a task gets the
    next number and starts out pending, unless the push fails; the oldest
    pending task is the one that is run; a status call says that the task is in
    progress, or takes out the result of its run, or says that there is no such
    task, also when nobody wanted the outcome. *)
Inductive store_step : tstore → event → tstore → Prop :=
| push_ok n T cmd data done :
    store_step (n, T) (EvPush cmd data done 0 (n + 1)) (n + 1, <[n + 1 := Pending cmd data done]> T)
| push_failed n T cmd data done : store_step (n, T) (EvPush cmd data done (-1) (n + 1)) (n + 1, T)
| ran_oldest n T k cmd data done os :
    T !! k = Some (Pending cmd data done) → (∀ j, is_pending T j → k ≤ j) →
    store_step (n, T) (EvRan k (consumer_run_work cmd data os).1) (n, <[k := Ran done (consumer_run_work cmd data os).1]> T)
| status_unknown n T k : T !! k = None → store_step (n, T) (EvStatus k RPC_SRV_RESULT_TASK_ID_NOT_FOUND) (n, T)
| status_in_progress n T k x : T !! k = Some x → store_step (n, T) (EvStatus k RPC_SRV_RESULT_IN_PROG) (n, T)
| status_dropped n T k done r : T !! k = Some (Ran done r) → done ≠ PRESERVE →
    store_step (n, T) (EvStatus k RPC_SRV_RESULT_TASK_ID_NOT_FOUND) (n, T)
| status_done n T k r : T !! k = Some (Ran PRESERVE r) → r ≠ RPC_SRV_RESULT_IN_PROG →
    store_step (n, T) (EvStatus k r) (n, delete k T).

Inductive store_run : list event → tstore → Prop :=
| run_nil : store_run [] (0, ∅)
| run_snoc tr e st st' : store_run tr st → store_step st e st' → store_run (tr ++ [e]) st'.

(** The calls the promise is about: in lib-adav-old all of them, in lib-adav
    those whose outcome is kept. *)
Definition done_ok (done : WORK_CMD_AFTER_DONE) : Prop := rev = Adav → done = PRESERVE.
Definition call_ok (c : call) : Prop :=
  match c with PushTask _ _ done => done_ok done | GetTaskStatus _ => True end.

Hypothesis malloc_w_fresh : ∀ h l g, malloc_w h = Some (l, g) → h !! l = None.
Hypothesis malloc_i_fresh : ∀ h l g, malloc_i h = Some (l, g) → h !! l = None.
(** In lib-adav there has to be memory for the records. *)
Hypothesis malloc_i_room : rev = Adav → ∀ h, is_Some (malloc_i h).
Hypothesis new_task_fresh : ∀ os, os !! (new_task os).1 = None.
Hypothesis new_inprog_fresh : ∀ os, os !! (new_inprog os).1 = None.
(** The service leaves the tasks alone. *)
Hypothesis run_work_keeps : ∀ cmd p os l t, os !! l = Some (OTask t) →
  (consumer_run_work cmd p os).2 !! l = Some (OTask t).

(** *** The invariant *)
Abbreviation tasks := (list (loc * WORK_CMD_TASK)).
Abbreviation recs_t := (list (loc * WORK_CMD_TASK_IN_PROG)).
Definition cells (l : tasks) : list (loc * cell) := (λ p, (p.1, OTask p.2)) <$> l.
Definition new_task_of (n cmd : Z) (data : ptr) (done : WORK_CMD_AFTER_DONE) : WORK_CMD_TASK :=
  Task (n + 1) 0 cmd RPC_SRV_RESULT_IN_PROG done data.
Definition new_rec_of (n cmd : Z) : WORK_CMD_TASK_IN_PROG :=
  InProg (n + 1) 0 cmd RPC_SRV_RESULT_IN_PROG EmptyString.

(** The number of a push under way is given out already. *)
Definition numbered (pc : client_pc) (n : Z) : Z :=
  match pc with CPushWork _ _ _ _ _ _ | CPushInprog _ _ _ _ _ _ | CPushWake _ _ _ _ => n + 1 | _ => n end.
(** The task that is queued and has not been announced to the worker. *)
Definition half_task (pc : client_pc) (n : Z) (half : tasks) : Prop :=
  match pc with
  | CPushInprog cmd data done w _ _ => half = [(w, new_task_of n cmd data done)] ∧ done_ok done
  | CPushWake cmd data done _ => (∃ w, half = [(w, new_task_of n cmd data done)]) ∧ done_ok done
  | _ => half = []
  end.
(** The tasks that have a record. *)
Definition recorded (pc : client_pc) (n : Z) (T : gmap Z tstate) : gmap Z tstate :=
  match pc with CPushWake cmd data done _ => <[n + 1 := Pending cmd data done]> T | _ => T end.

(** The task the worker holds, before and after its run. *)
Definition worker_holds (wp : worker_pc) (osw : gmap loc cell) (locs : list loc) (running : tasks) : Prop :=
  match wp with
  | WWait | WGet => running = []
  | WRun l => ∃ t, running = [(l, t)] ∧ osw !! l = Some (OTask t) ∧ l ∉ locs
  | WReport l t _ => running = [] ∧ osw !! l = Some (OTask t) ∧ l ∉ locs
  end.
Definition worker_loc (wp : worker_pc) : option loc :=
  match wp with WRun l | WReport l _ _ => Some l | _ => None end.
Definition reporting (wp : worker_pc) : option Z :=
  match wp with WReport _ t _ => Some (taskID t) | _ => None end.

Definition ready_to_read (wp : worker_pc) (T : gmap Z tstate) (k : Z) : Prop :=
  ∃ r, T !! k = Some (Ran PRESERVE r) ∧ r ≠ RPC_SRV_RESULT_IN_PROG ∧ reporting wp ≠ Some k.

Definition client_knows (pc : client_pc) (wp : worker_pc) (n : Z) (T : gmap Z tstate) (d : ADGenericChain WORK_CMD_TASK_IN_PROG)
    (osw : gmap loc cell) (osi : gmap loc WORK_CMD_TASK_IN_PROG) (locs : list loc) (recs : recs_t) : Prop :=
  match pc with
  | CIdle => True
  | CPushWork cmd data done w i k =>
      done_ok done ∧ k = n + 1 ∧ (∃ t, osw !! w = Some (OTask t)) ∧ w ∉ locs ∧ worker_loc wp ≠ Some w ∧
      is_Some (osi !! i) ∧ i ∉ recs.*1
  | CPushInprog cmd data done w i k => k = n + 1 ∧ osi !! i = Some (new_rec_of n cmd) ∧ i ∉ recs.*1 ∧ worker_loc wp ≠ Some w
  | CPushWake cmd data done k => k = n + 1
  | CStatusPeek k => ready_to_read wp T k
  | CStatusRemove k p => ready_to_read wp T k ∧ rev = Adav ∧ peeked d p
  end.

(** What a record says of a task; a task whose outcome nobody wants loses its
    record when the worker is done with it. *)
Definition shows (wp : worker_pc) (k : Z) (x : tstate) (v : RPC_SRV_RESULT) : Prop :=
  match x with
  | Pending _ _ _ => v = RPC_SRV_RESULT_IN_PROG
  | Ran done r => if decide (reporting wp = Some k) then v = RPC_SRV_RESULT_IN_PROG else done = PRESERVE ∧ v = r
  end.
Definition dropped (wp : worker_pc) (k : Z) (x : tstate) : Prop :=
  match x with Pending _ _ _ => False | Ran done _ => done ≠ PRESERVE ∧ reporting wp ≠ Some k end.

Record inv (wid iid : Z) (s : worker) (pc : client_pc) (wp : worker_pc) (n : Z) (T : gmap Z tstate)
    (ready half running : tasks) (recs : recs_t) (osw : gmap loc cell)
    (osi : gmap loc WORK_CMD_TASK_IN_PROG) : Prop := Inv {
  inv_n : 0 ≤ n;
  inv_work : holds (work_helper wid rev) wid false (work_chain s) 0 (cells (ready ++ half)) osw;
  inv_inprog : holds (inprog_helper iid) iid false (work_inprog_chain s) (numbered pc n) recs osi;
  inv_half : half_task pc n half;
  inv_running : worker_holds wp osw (ready ++ half).*1 running;
  inv_sema : one_shot_sema s + (match wp with WGet => 1 | _ => 0 end) = Z.of_nat (length ready) ∧ 0 ≤ one_shot_sema s;
  inv_len : Z.of_nat (length ready) ≤ n ∧ Z.of_nat (length recs) ≤ (match pc with CPushWake _ _ _ _ => n + 1 | _ => n end);
  inv_order : StronglySorted (λ t u, taskID t < taskID u) (running ++ ready).*2;
  inv_pending : ∀ k cmd data done, T !! k = Some (Pending cmd data done) ↔
    ∃ l t, (l, t) ∈ running ++ ready ∧ taskID t = k ∧ command t = cmd ∧ pWorkData t = data ∧ done_action t = done;
  inv_allowed : ∀ l t, (l, t) ∈ running ++ ready → done_ok (done_action t);
  inv_report : match wp with
    | WReport _ t r => T !! taskID t = Some (Ran (done_action t) r) ∧ done_ok (done_action t)
    | _ => True end;
  inv_range : ∀ k, is_Some (T !! k) → 1 ≤ k ≤ n;
  inv_nodup : NoDup (rid <$> recs);
  inv_recs : ∀ k x, recorded pc n T !! k = Some x → k ∈ rid <$> recs ∨ dropped wp k x;
  inv_shows : ∀ l o, (l, o) ∈ recs → ∃ x, recorded pc n T !! ip_taskID o = Some x ∧ shows wp (ip_taskID o) x (ip_taskSts o);
  inv_client : client_knows pc wp n T (work_inprog_chain s) osw osi (ready ++ half).*1 recs
}.

Definition good (wid iid : Z) (s : worker) (pc : client_pc) (wp : worker_pc) (st : tstore) : Prop :=
  ∃ ready half running recs osw osi, inv wid iid s pc wp st.1 st.2 ready half running recs osw osi.

Definition opt_step (st : tstore) (e : option event) (st' : tstore) : Prop :=
  match e with Some e => store_step st e st' | None => st' = st end.

(** *** Steps of the worker *)
Lemma on_work_done {B} (c : M (ADGenericChain cell) B) s b d : c (work_chain s) = Done b d → on_work c s = Done b (set_work d s).
Proof. intros H. unfold on_work, zoom. by rewrite H. Qed.
Lemma on_inprog_done {B} (c : M (ADGenericChain WORK_CMD_TASK_IN_PROG) B) s b d :
  c (work_inprog_chain s) = Done b d → on_inprog c s = Done b (set_inprog d s).
Proof. intros H. unfold on_inprog, zoom. by rewrite H. Qed.

Lemma wait_step wid iid s pc st : good wid iid s pc WWait st → 0 < one_shot_sema s →
  ∃ s', sem_wait s = Done () s' ∧ good wid iid s' pc WGet st.
Proof.
  intros (ready & half & running & recs & osw & osi & H) Hs. eexists. split.
  - unfold sem_wait. rewrite bind_gets. destruct (Z.ltb_spec 0 (one_shot_sema s)); [|lia]. done.
  - exists ready, half, running, recs, osw, osi. destruct H. split; try done. simpl in *. lia.
Qed.

Lemma cells_locs (l : tasks) : (cells l).*1 = l.*1.
Proof. unfold cells. rewrite <-list_fmap_compose. done. Qed.

Lemma get_step wid iid s pc st : good wid iid s pc WGet st →
  ∃ l s', work_get s = Done (Some l) s' ∧ good wid iid s' pc (WRun l) st.
Proof.
  intros (ready & half & running & recs & osw & osi & H). destruct H.
  destruct ready as [|[l t] ready]; [simpl in *; lia|].
  simpl in inv_running0. subst running. destruct (holds_get _ _ _ _ _ _ inv_work0) as (d & Hrun & Hd). simpl in Hrun, Hd.
  assert (Hl : osw !! l = Some (OTask t)) by (apply inv_work0; set_solver).
  assert (Hnd : l ∉ (ready ++ half).*1).
  { destruct inv_work0 as [_ [Hnd _]]. rewrite cells_locs in Hnd. simpl in Hnd. by apply NoDup_cons in Hnd as [? _]. }
  exists l, (set_work d s). split; [by apply on_work_done|].
  exists ready, half, [(l, t)], recs, osw, osi. split; try done; simpl in *.
  - by exists t.
  - lia.
  - lia.
  - destruct pc; try done.
    + destruct inv_client0 as (?&?&?&?&?&?&?). split_and!; try done; set_solver.
    + destruct inv_client0 as (?&?&?&?). split_and!; try done. intros [= ->]. destruct inv_half0 as [-> _].
      apply Hnd. rewrite fmap_app. set_solver.
Qed.

Lemma sorted_head_least (l : loc) (t : WORK_CMD_TASK) (ready : tasks) u v :
  StronglySorted (λ t u, taskID t < taskID u) ((l, t) :: ready).*2 → (u, v) ∈ ready → taskID t < taskID v.
Proof.
  intros Hs Hin. rewrite fmap_cons in Hs. apply StronglySorted_inv in Hs as [_ Hs].
  rewrite Forall_forall in Hs. apply Hs. apply list_elem_of_fmap. by exists (u, v).
Qed.

(** The memory after a run: the tasks are where they were. *)
Lemma run_holds wid d l osw cmd data : holds (work_helper wid rev) wid false d 0 (cells l) osw →
  holds (work_helper wid rev) wid false (set_core (set_objs (consumer_run_work cmd data osw).2 (core d)) d) 0 (cells l)
    (consumer_run_work cmd data osw).2.
Proof.
  intros H. apply (with_objs _ _ _ _ _ _ _ _ H). intros x a Hx. assert (Ho := proj2 (proj2 H) x a Hx).
  unfold cells in Hx. apply list_elem_of_fmap in Hx as ([y t] & [= -> ->] & _). by apply run_work_keeps.
Qed.

Lemma recorded_old pc n T k : k ≤ n → recorded pc n T !! k = T !! k.
Proof. intros Hk. destruct pc; simpl; try done. rewrite lookup_insert_ne by lia. done. Qed.
(** Changing the state of an old task. *)
Lemma recorded_insert pc n T k x j : k ≤ n → recorded pc n (<[k := x]> T) !! j = if decide (j = k) then Some x else recorded pc n T !! j.
Proof.
  intros Hk. destruct (decide (j = k)) as [->|Hj]; [by rewrite recorded_old, lookup_insert_eq by done|].
  destruct pc; simpl; rewrite ?lookup_insert_ne by done; try done.
  destruct (decide (j = n + 1)) as [->|]; [by rewrite !lookup_insert_eq|].
  rewrite lookup_insert_ne by done. by rewrite !lookup_insert_ne by done.
Qed.

Lemma ready_to_read_run wp T k c d dn r j l t : T !! k = Some (Pending c d dn) → taskID t = k →
  ready_to_read wp T j → ready_to_read (WReport l t r) (<[k := Ran dn r]> T) j.
Proof.
  intros Hk Ht (r' & Hr & Hne & _). assert (Hjk : k ≠ j) by congruence. exists r'.
  rewrite lookup_insert_ne by done. split_and!; try done. simpl. congruence.
Qed.

Lemma run_step wid iid s pc st l : good wid iid s pc (WRun l) st →
  ∃ t r s' st', work_run consumer_run_work l s = Done (t, r) s' ∧
    store_step st (EvRan (taskID t) r) st' ∧ good wid iid s' pc (WReport l t r) st'.
Proof.
  destruct st as [n T]. intros (ready & half & running & recs & osw & osi & H). destruct H. simpl in *.
  destruct inv_running0 as (t & -> & Hl & Hnl).
  set (run := consumer_run_work (command t) (pWorkData t) osw).
  assert (Hk : T !! taskID t = Some (Pending (command t) (pWorkData t) (done_action t))).
  { apply inv_pending0. exists l, t. set_solver. }
  assert (Hkn : taskID t ≤ n) by (apply inv_range0; by rewrite Hk).
  assert (Hleast : ∀ u v, (u, v) ∈ ready → taskID t < taskID v) by (intros u v; by apply (sorted_head_least l t ready)).
  exists t, run.1. eexists _, (n, <[taskID t := Ran (done_action t) run.1]> T). split; [|split].
  - apply on_work_done. rewrite (bind_done _ _ _ _ _ (holds_load _ _ _ _ _ _ _ _ _ inv_work0 Hl)).
    rewrite bind_on_core_gets, (holds_objs _ _ _ _ _ _ _ inv_work0). done.
  - apply (ran_oldest n T (taskID t) (command t) (pWorkData t) (done_action t) osw); [done|].
    intros j (cmd & data & dn & Hj). apply inv_pending0 in Hj as (u & v & Hin & <- & _).
    apply elem_of_cons in Hin as [Hin|Hin]; [by simplify_eq|]. specialize (Hleast _ _ Hin). lia.
  - exists ready, half, [], recs, run.2, osi. split; try done; simpl in *.
    + by apply run_holds.
    + split_and!; [done| |done]. by apply run_work_keeps.
    + by apply StronglySorted_inv in inv_order0 as [? _].
    + intros j cmd data dn. destruct (decide (j = taskID t)) as [->|Hj].
      * rewrite lookup_insert_eq. split; [done|]. intros (u & v & Hin & Hid & _). specialize (Hleast _ _ Hin). lia.
      * rewrite lookup_insert_ne by done. rewrite inv_pending0. split; intros (u & v & Hin & Hid & ?).
        -- apply elem_of_cons in Hin as [Hin|Hin]; [by simplify_eq|]. by exists u, v.
        -- exists u, v. set_solver.
    + intros u v Hin. apply (inv_allowed0 u v). set_solver.
    + rewrite lookup_insert_eq. split; [done|]. apply (inv_allowed0 l t). set_solver.
    + intros j. rewrite lookup_insert_is_Some'. intros [<-|Hj]; [by apply inv_range0; rewrite Hk|by apply inv_range0].
    + intros j x. rewrite recorded_insert by done. case_decide as Hj.
      * intros [= <-]. subst j. left. destruct (inv_recs0 (taskID t) (Pending (command t) (pWorkData t) (done_action t))) as [?|[]]; [|done].
        by rewrite recorded_old.
      * intros Hx. destruct (inv_recs0 j x Hx) as [?|Hd]; [by left|right]. destruct x as [|dn r0]; [done|].
        simpl in *. split; [apply Hd|]. congruence.
    + intros x o Hin. destruct (inv_shows0 x o Hin) as (y & Hy & Hsh). rewrite recorded_insert by done. case_decide as Hj.
      * eexists. split; [done|]. simpl. rewrite decide_True by congruence.
        rewrite Hj, recorded_old, Hk in Hy by done. by simplify_eq.
      * exists y. split; [done|]. destruct y as [|dn r0]; [done|]. simpl in *. by rewrite decide_False by congruence.
    + destruct pc as [|cmd data dn w i j|cmd data dn w i j|cmd data dn j|j|j p]; simpl in *; try done.
      * destruct inv_client0 as (? & ? & (u & Hu) & ? & ? & ? & ?). split_and!; try done. exists u. by apply run_work_keeps.
      * by eapply (ready_to_read_run (WRun l)).
      * destruct inv_client0 as [? ?]. split; [|done]. by eapply (ready_to_read_run (WRun l)).
Qed.

Lemma delete_holds wid d l osw x t : holds (work_helper wid rev) wid false d 0 (cells l) osw → osw !! x = Some (OTask t) → x ∉ l.*1 →
  ∃ d', OBJ_MEM_DELETE (Some x) d = Done () d' ∧ holds (work_helper wid rev) wid false d' 0 (cells l) (delete x osw).
Proof. intros H Hx Hn. apply (holds_delete _ _ _ _ _ _ _ _ _ H Hx). by rewrite cells_locs. Qed.

Lemma not_reporting_read wp T k : ready_to_read wp T k → ready_to_read WWait T k.
Proof. intros (r & ? & ? & _). by exists r. Qed.

(** What the worker's report does to the record of the task. *)
Lemma report_record iid s n l1 x o l2 osi t r : holds (inprog_helper iid) iid false (work_inprog_chain s) n (l1 ++ (x, o) :: l2) osi →
  NoDup (rid <$> l1 ++ (x, o) :: l2) → taskID t = ip_taskID o → done_ok (done_action t) →
  ∃ di nt recs' osi', (if decide (done_action t = PRESERVE) then report_preserve (taskID t) r;; notify_event rev (taskID t) r
     else report_delete rev (taskID t)) s = Done () (set_notified nt (set_inprog di s)) ∧
    holds (inprog_helper iid) iid false di n recs' osi' ∧
    recs' = (if decide (done_action t = PRESERVE) then l1 ++ (x, set_done r o) :: l2 else l1 ++ l2) ∧
    (∀ y, y ≠ x → osi' !! y = osi !! y) ∧ (done_action t = PRESERVE → is_Some (osi' !! x)) ∧
    (rev = Adav → ∀ p, peeked (work_inprog_chain s) p → peeked di p).
Proof.
  intros H Hnd Ht Hok. case_decide as Hp.
  - destruct (report_step iid _ _ l1 x o l2 osi r H Hnd) as (di & Hrep & Hdi & Hpk).
    exists di, (match rev with AdavOld => notified s ++ [(taskID t, r)] | Adav => notified s end).
    eexists _, _. split; [|split; [exact Hdi|split_and!; [done| |by rewrite lookup_insert_eq|by intros _]]].
    + unfold report_preserve. rewrite Ht. rewrite (bind_done _ _ _ _ _ (on_inprog_done _ s _ _ Hrep)).
      unfold notify_event. destruct rev; by destruct s.
    + intros y Hy. by rewrite lookup_insert_ne.
  - assert (rev = AdavOld) as Hrev. { destruct rev eqn:E; [done|]. destruct Hp. by apply Hok. }
    destruct (drop_step iid _ _ l1 x o l2 osi H Hnd) as (di & Hrep & Hdi).
    exists di, (notified s). eexists _, _. split; [|split; [exact Hdi|split_and!; [done| |done|by rewrite Hrev]]].
    + unfold report_delete. rewrite Hrev, Ht. rewrite (on_inprog_done _ s _ _ Hrep). by destruct s.
    + intros y Hy. by rewrite lookup_delete_ne.
Qed.

Lemma report_recs l1 x o l2 (b : bool) r : NoDup (rid <$> l1 ++ (x, o) :: l2) →
  ∀ recs', recs' = (if b then l1 ++ (x, set_done r o) :: l2 else l1 ++ l2) →
  NoDup (rid <$> recs') ∧ (length recs' ≤ length (l1 ++ (x, o) :: l2))%nat ∧
  (∀ j, j ∈ rid <$> l1 ++ (x, o) :: l2 → j ∈ rid <$> recs' ∨ (j = ip_taskID o ∧ b = false)) ∧
  (∀ y p, (y, p) ∈ recs' → ((y, p) ∈ l1 ++ (x, o) :: l2 ∧ ip_taskID p ≠ ip_taskID o) ∨ (b = true ∧ p = set_done r o)) ∧
  (∀ y, y ∉ (l1 ++ (x, o) :: l2).*1 → y ∉ recs'.*1 ∧ y ≠ x).
Proof.
  intros Hnd recs' ->. assert (Hrid := nodup_rec_split l1 x o l2 Hnd).
  assert (Hold : ∀ y p, (y, p) ∈ l1 ++ l2 → (y, p) ∈ l1 ++ (x, o) :: l2 ∧ ip_taskID p ≠ ip_taskID o).
  { intros y p Hin. split; [set_solver|]. by apply (Hrid (y, p)). }
  destruct b; split_and!.
  - by rewrite fmap_app, fmap_cons in *.
  - by rewrite !length_app.
  - intros j Hj. left. by rewrite fmap_app, fmap_cons in *.
  - intros y p Hin. apply elem_of_app in Hin as [Hin|[Hin|Hin]%elem_of_cons].
    + left. apply Hold. set_solver.
    + right. by injection Hin.
    + left. apply Hold. set_solver.
  - intros y. rewrite !fmap_app, !fmap_cons. set_solver.
  - eapply sublist_NoDup; [exact Hnd|]. rewrite !fmap_app, fmap_cons. apply sublist_app; [done|]. by constructor.
  - rewrite !length_app. simpl. lia.
  - intros j. rewrite !fmap_app, fmap_cons. unfold rid at 2. simpl. set_solver.
  - intros y p Hin. left. by apply Hold.
  - intros y. rewrite !fmap_app, !fmap_cons. set_solver.
Qed.

Lemma report_client wp l t r pc n T di di' osw osi osi' locs (recs recs' : recs_t) x :
  wp = WReport l t r → client_knows pc wp n T di osw osi locs recs →
  (∀ y, y ∉ recs.*1 → y ∉ recs'.*1 ∧ y ≠ x) → (∀ y, y ≠ x → osi' !! y = osi !! y) →
  (rev = Adav → ∀ p, peeked di p → peeked di' p) →
  client_knows pc WWait n T di' (delete l osw) osi' locs recs'.
Proof.
  intros -> H Hn Hos Hpk. destruct pc; simpl in *; try done.
  - destruct H as (? & ? & (u & Hu) & ? & Hw & Hi & Hin). destruct (Hn _ Hin) as [? ?]. split_and!; try done.
    + exists u. rewrite lookup_delete_ne; [done|]. intros ->. by apply Hw.
    + by rewrite Hos.
  - destruct H as (? & ? & Hin & ?). destruct (Hn _ Hin) as [? ?]. split_and!; try done. by rewrite Hos.
  - by eapply not_reporting_read.
  - destruct H as (? & Hr & ?). split_and!; [by eapply not_reporting_read|done|]. by apply Hpk.
Qed.

Lemma report_ok wid iid s pc st l t r : good wid iid s pc (WReport l t r) st →
  ∃ s', work_report rev l t r s = Done () s' ∧ good wid iid s' pc WWait st ∧ one_shot_sema s' = one_shot_sema s.
Proof.
  destruct st as [n T]. intros (ready & half & running & recs & osw & osi & H). destruct H. simpl in *.
  destruct inv_running0 as (-> & Hl & Hnl). destruct inv_report0 as [HT Hp].
  assert (Hkn : 1 ≤ taskID t ≤ n) by (apply inv_range0; by rewrite HT).
  destruct (inv_recs0 (taskID t) (Ran (done_action t) r)) as [Hin|[_ []]]; [by rewrite recorded_old by lia| |done].
  apply list_elem_of_fmap in Hin as ([x o] & Ho & Hin). unfold rid in Ho. simpl in Ho.
  apply list_elem_of_split in Hin as (l1 & l2 & ->).
  destruct (report_record iid s _ l1 x o l2 osi t r inv_inprog0 inv_nodup0 Ho Hp) as (di & nt & recs' & osi' & Hrep & Hdi & Hrecs' & Hosi & Hosx & Hpk).
  destruct (delete_holds wid (work_chain s) _ osw l t inv_work0 Hl Hnl) as (dw & Hdel & Hdw).
  destruct (report_recs l1 x o l2 (bool_decide (done_action t = PRESERVE)) r inv_nodup0 recs') as (Hnd' & Hlen' & Hin' & Hsub & Hlocs).
  { rewrite Hrecs'. case_decide; [by rewrite bool_decide_eq_true_2|by rewrite bool_decide_eq_false_2]. }
  exists (set_work dw (set_notified nt (set_inprog di s))). split; [|split; [|done]].
  { unfold work_report. rewrite (bind_done _ _ _ _ _ Hrep). by apply on_work_done. }
  exists ready, half, [], recs', (delete l osw), osi'. split; try done; simpl in *.
  - lia.
  - intros j y Hj. destruct (inv_recs0 j y Hj) as [Hjin|Hd].
    + destruct (Hin' j Hjin) as [?|[-> Hb]]; [by left|right]. rewrite <-Ho, recorded_old, HT in Hj by lia. simplify_eq/=.
      by apply bool_decide_eq_false_1 in Hb.
    + right. destruct y as [|dn r']; [done|]. simpl in *. naive_solver.
  - intros y p Hyp. destruct (Hsub y p Hyp) as [[Hy Hne]|[Hb ->]].
    + destruct (inv_shows0 y p Hy) as (z & Hz & Hsh). exists z. split; [done|]. destruct z as [|dn r']; [done|].
      simpl in *. by rewrite decide_False in Hsh by congruence.
    + apply bool_decide_eq_true_1 in Hb. exists (Ran (done_action t) r). simpl.
      rewrite <-Ho, recorded_old, HT by lia. done.
  - by eapply report_client.
Qed.

(** *** Steps of the client *)
Lemma worker_holds_sub wp osw osw' locs locs' running :
  (∀ l t, worker_loc wp = Some l → osw !! l = Some (OTask t) → osw' !! l = Some (OTask t)) →
  (∀ l, worker_loc wp = Some l → l ∉ locs → l ∉ locs') →
  worker_holds wp osw locs running → worker_holds wp osw' locs' running.
Proof. intros Hs Hl. destruct wp; simpl in *; try done; naive_solver. Qed.

Lemma worker_loc_live wp osw locs running l :
  worker_holds wp osw locs running → worker_loc wp = Some l → is_Some (osw !! l) ∧ l ∉ locs.
Proof. destruct wp; simpl; naive_solver. Qed.

Lemma task_old wid iid s pc wp n T ready half running recs osw osi l t :
  inv wid iid s pc wp n T ready half running recs osw osi → (l, t) ∈ running ++ ready → taskID t ≤ n.
Proof.
  intros H Hin. destruct H. apply inv_range0.
  by rewrite (proj2 (inv_pending0 (taskID t) (command t) (pWorkData t) (done_action t))) by (by exists l, t).
Qed.

Lemma push_new_ok wid iid s wp st cmd data dn : good wid iid s CIdle wp st → st.1 < INT_MAX → done_ok dn →
  ∃ w i s', push_new new_task new_inprog s = Done (w, i, st.1 + 1) s' ∧
    good wid iid s' (CPushWork cmd data dn w i (st.1 + 1)) wp st.
Proof.
  destruct st as [n T]. intros (ready & half & running & recs & osw & osi & H) Hn Hdn. destruct H. simpl in *. subst half.
  set (newt := λ os : gmap loc cell, ((new_task os).1, OTask (new_task os).2)).
  destruct (holds_new _ _ _ _ _ _ _ newt inv_work0) as (dw & Hw & Hdw & Hwn); [apply new_task_fresh|].
  destruct (holds_new _ _ _ _ _ _ _ new_inprog inv_inprog0) as (di & Hi & Hdi & Hin); [apply new_inprog_fresh|].
  destruct (holds_generate _ _ _ _ _ _ Hdi) as (dg & Hg & Hdg). rewrite int32_small in Hg, Hdg by lia.
  set (w := (new_task osw).1). set (i := (new_inprog osi).1). rewrite cells_locs in Hwn.
  assert (Hwfr : osw !! w = None) by apply new_task_fresh.
  exists w, i, (set_inprog dg (set_work dw s)). split.
  { unfold push_new. fold newt. rewrite (bind_done _ _ _ _ _ (on_work_done _ _ _ _ Hw)).
    rewrite (bind_done _ _ _ i _ (on_inprog_done _ (set_work dw s) _ _ Hi)).
    rewrite (bind_done _ _ _ _ _ (on_inprog_done _ (set_inprog di (set_work dw s)) _ _ Hg)). done. }
  exists ready, [], running, recs, (<[w := OTask (new_task osw).2]> osw), (<[i := (new_inprog osi).2]> osi).
  split; try done; simpl in *.
  - eapply worker_holds_sub; [|by intros l _|done]. intros l t _ Hl. rewrite lookup_insert_ne; [done|]. by intros <-; rewrite Hwfr in Hl.
  - split_and!; try done.
    + eexists. by rewrite lookup_insert_eq.
    + intros Hwl. destruct (worker_loc_live _ _ _ _ _ inv_running0 Hwl) as [[? Hs] _]. congruence.
    + rewrite lookup_insert_eq. eauto.
Qed.

(** After a push that failed everything is as before, apart from the number. *)
Lemma failed_push_good wid iid s s' pc wp n T ready half running recs osw osi osw' osi' w :
  inv wid iid s pc wp n T ready half running recs osw osi →
  (match pc with CPushWork _ _ _ _ _ _ | CPushInprog _ _ _ _ _ _ => True | _ => False end) →
  holds (work_helper wid rev) wid false (work_chain s') 0 (cells ready) osw' →
  holds (inprog_helper iid) iid false (work_inprog_chain s') (n + 1) recs osi' →
  (∀ l t, l ≠ w → osw !! l = Some t → osw' !! l = Some t) → worker_loc wp ≠ Some w →
  one_shot_sema s' = one_shot_sema s → good wid iid s' CIdle wp (n + 1, T).
Proof.
  intros H Hpc Hw Hi Hosw Hwl Hs. exists ready, [], running, recs, osw', osi'. destruct H.
  assert (Hrec : recorded pc n T = T) by (by destruct pc). assert (Hlen : Z.of_nat (length recs) ≤ n) by (destruct inv_len0; by destruct pc).
  split; try done; simpl in *; try lia.
  - by rewrite app_nil_r.
  - eapply worker_holds_sub; [| |done].
    + intros l t Hl Ht. apply Hosw; [congruence|done].
    + intros l _. rewrite app_nil_r, fmap_app. set_solver.
  - intros k Hk. apply inv_range0 in Hk. lia.
  - by rewrite <-Hrec.
  - by rewrite <-Hrec.
Qed.

Lemma push_work_ok wid iid s wp st cmd data dn w i : st.1 < INT_MAX →
  good wid iid s (CPushWork cmd data dn w i (st.1 + 1)) wp st →
  ∃ r s', push_work malloc_w cmd data dn w i (st.1 + 1) s = Done r s' ∧
    if r =? 0 then good wid iid s' (CPushInprog cmd data dn w i (st.1 + 1)) wp st
    else ∃ s'', push_work_failed w i s' = Done (-1) s'' ∧ good wid iid s'' CIdle wp (st.1 + 1, st.2).
Proof.
  destruct st as [n T]. intros Hn (ready & half & running & recs & osw & osi & H). assert (H0 := H). destruct H. simpl in *. subst half.
  rewrite app_nil_r in *. destruct inv_client0 as (Hdn & _ & (t0 & Hw) & Hwn & Hwl & [o0 Hi] & Hin).
  set (t := new_task_of n cmd data dn). set (o := new_rec_of n cmd).
  destruct (holds_store_local _ _ _ _ _ _ _ _ _ (OTask t) inv_work0 Hw) as (d1 & H1 & Hd1); [by rewrite cells_locs|].
  destruct (holds_store_local _ _ _ _ _ _ _ _ _ o inv_inprog0 Hi Hin) as (d2 & H2 & Hd2).
  assert (Hput : ∀ r d3, chain_put malloc_w (Some w) d1 = Done r d3 →
    push_work malloc_w cmd data dn w i (n + 1) s = Done r (set_work d3 (set_inprog d2 (set_work d1 s)))).
  { intros r d3 H3. unfold push_work. rewrite (bind_done _ _ _ _ _ (on_work_done _ _ _ _ H1)).
    rewrite (bind_done _ _ _ _ _ (on_inprog_done _ (set_work d1 s) _ _ H2)).
    by apply (on_work_done _ (set_inprog d2 (set_work d1 s))). }
  assert (Hlen : Z.of_nat (length (cells ready)) < INT_MAX) by (unfold cells; rewrite length_fmap; lia).
  destruct (has_room malloc_w d1) eqn:Hroom.
  - destruct (holds_put _ _ malloc_w d1 0 _ _ w (OTask t) malloc_w_fresh Hroom Hd1) as (d3 & H3 & Hd3);
      [by rewrite lookup_insert_eq|by rewrite cells_locs|done|].
    eexists _, _. split; [by apply Hput|]. simpl.
    exists ready, [(w, t)], running, recs, (<[w := OTask t]> osw), (<[i := o]> osi). split; try done; simpl in *.
    + unfold cells in *. by rewrite fmap_app.
    + eapply worker_holds_sub; [| |done].
      * intros l u Hl Hu. by rewrite lookup_insert_ne by congruence.
      * intros l Hl. rewrite fmap_app, not_elem_of_app. intros ?. split; [done|]. simpl. rewrite list_elem_of_singleton. congruence.
    + split_and!; try done. by rewrite lookup_insert_eq.
  - destruct (holds_put_fails _ _ malloc_w d1 0 _ _ w malloc_w_fresh Hroom Hd1 Hlen) as (d3 & H3 & Hd3).
    eexists _, _. split; [by apply Hput|]. simpl.
    destruct (delete_holds wid d3 ready _ w t Hd3) as (d4 & H4 & Hd4); [by rewrite lookup_insert_eq|done|].
    destruct (holds_delete _ _ _ _ _ _ _ i o Hd2) as (d5 & H5 & Hd5); [by rewrite lookup_insert_eq|done|].
    eexists. split.
    + unfold push_work_failed. rewrite (bind_done _ _ _ _ _ (on_work_done _ (set_work d3 (set_inprog d2 (set_work d1 s))) _ _ H4)).
      by rewrite (bind_done _ _ _ _ _ (on_inprog_done _ (set_work d4 (set_work d3 (set_inprog d2 (set_work d1 s)))) _ _ H5)).
    + eapply (failed_push_good wid iid s _ _ wp n T ready [] running recs osw osi _ _ w H0); [done|exact Hd4|exact Hd5| |done|done].
      intros l u Hl Hu. by rewrite lookup_delete_ne, lookup_insert_ne.
Qed.

Definition cell_key (c : cell) : option Z := match c with OTask t => Some (taskID t) | OData => None end.
Lemma cell_key_ok wid os x c k : os !! x = Some c →
  (cb_identify (work_helper wid AdavOld) wid os (Some x) k =? 0) = bool_decide (cell_key c = Some k).
Proof.
  intros Hx. simpl. rewrite Z.eqb_refl. simpl. rewrite Hx. destruct c as [t|]; [|done]. simpl.
  destruct (Z.eqb_spec (taskID t) k); [by rewrite bool_decide_eq_true_2 by congruence|by rewrite bool_decide_eq_false_2 by congruence].
Qed.

Lemma room_adav (d : ADGenericChain WORK_CMD_TASK_IN_PROG) : rev = Adav → has_room malloc_i d = true.
Proof. intros Hr. unfold has_room. by destruct (malloc_i_room Hr (holders (core d))) as [? ->]. Qed.

Lemma push_inprog_ok wid iid s wp st cmd data dn w i : st.1 < INT_MAX →
  good wid iid s (CPushInprog cmd data dn w i (st.1 + 1)) wp st →
  ∃ r s', push_inprog malloc_i i s = Done r s' ∧
    if r =? 0 then good wid iid s' (CPushWake cmd data dn (st.1 + 1)) wp st
    else ∃ s'', push_inprog_failed rev i (st.1 + 1) s' = Done (-1) s'' ∧ good wid iid s'' CIdle wp (st.1 + 1, st.2).
Proof.
  destruct st as [n T]. intros Hn (ready & half & running & recs & osw & osi & H). assert (H0 := H). destruct H. simpl in *.
  destruct inv_half0 as [-> Hdn]. destruct inv_client0 as (_ & Hi & Hin & Hwl). set (o := new_rec_of n cmd) in *.
  set (t := new_task_of n cmd data dn) in *. destruct (has_room malloc_i (work_inprog_chain s)) eqn:Hroom.
  - destruct (holds_put _ _ malloc_i _ _ _ _ i o malloc_i_fresh Hroom inv_inprog0 Hi Hin) as (d & H1 & Hd); [lia|].
    exists 0, (set_inprog d s). split; [by apply on_inprog_done|]. simpl.
    exists ready, [(w, t)], running, (recs ++ [(i, o)]), osw, osi. split; try done; simpl in *.
    + split; [by exists w|done].
    + rewrite length_app. simpl. lia.
    + rewrite fmap_app. apply NoDup_app. split_and!; [done| |apply NoDup_singleton].
      intros k Hk Hk'. apply list_elem_of_fmap in Hk as ([x o'] & -> & Hx). apply inv_shows0 in Hx as (y & Hy & _).
      assert (1 ≤ ip_taskID o' ≤ n) by (apply inv_range0; by rewrite Hy). unfold rid in Hk'. simpl in Hk'. set_unfold in Hk'. lia.
    + intros k x Hk. rewrite fmap_app, elem_of_app. apply lookup_insert_Some in Hk as [[<- <-]|[Hne Hk]].
      * left. right. simpl. set_solver.
      * destruct (inv_recs0 k x Hk); auto.
    + intros x o' Hx. apply elem_of_app in Hx as [Hx|Hx].
      * destruct (inv_shows0 x o' Hx) as (y & Hy & Hsh). assert (1 ≤ ip_taskID o' ≤ n) by (apply inv_range0; by rewrite Hy).
        exists y. by rewrite lookup_insert_ne by lia.
      * apply list_elem_of_singleton in Hx. injection Hx as -> ->. eexists. by rewrite lookup_insert_eq.
  - assert (Hrev : rev = AdavOld). { assert (Hr := room_adav (work_inprog_chain s)). destruct rev; [done|]. by rewrite Hr in Hroom. }
    destruct (holds_put_fails _ _ malloc_i _ _ _ _ i malloc_i_fresh Hroom inv_inprog0) as (d & H1 & Hd); [lia|].
    exists (-1), (set_inprog d s). split; [by apply on_inprog_done|]. simpl.
    assert (Hcells : cells (ready ++ [(w, t)]) = cells ready ++ (w, OTask t) :: []) by (unfold cells; by rewrite fmap_app).
    rewrite Hcells in inv_work0.
    destruct (removed_loc _ _ _ _ _ _ _ _ _ _ inv_work0) as [Hw Hwn].
    assert (Hold : ∀ p, p ∈ cells ready → cell_key p.2 ≠ Some (taskID t)).
    { intros p Hp [= E]. apply list_elem_of_fmap in Hp as ([l u] & -> & Hu). simpl in E.
      assert (taskID u ≤ n) by (eapply (task_old _ _ _ _ _ _ _ _ _ _ _ _ _ l); [exact H0|set_solver]). injection E. simpl. lia. }
    assert (Htake := take_ident (work_helper wid AdavOld) wid cell_key (cell_key_ok wid)). rewrite <-Hrev in Htake.
    destruct (Htake _ _ (cells ready) w (OTask t) [] osw (taskID t) inv_work0 eq_refl Hold) as (d2 & H2 & Hd2).
    rewrite app_nil_r in Hd2, Hwn. rewrite cells_locs in Hwn.
    destruct (delete_holds wid d2 ready osw w t Hd2 Hw Hwn) as (d3 & H3 & Hd3).
    destruct (holds_delete _ _ _ _ _ _ _ i o Hd Hi Hin) as (d4 & H4 & Hd4).
    eexists. split.
    + unfold push_inprog_failed. rewrite Hrev in *.
      rewrite (bind_done _ _ _ _ _ (on_work_done _ (set_inprog d s) _ _ H2)).
      rewrite (bind_done _ _ _ _ _ (on_work_done _ (set_work d2 (set_inprog d s)) _ _ H3)).
      by rewrite (bind_done _ _ _ _ _ (on_inprog_done _ (set_work d3 (set_work d2 (set_inprog d s))) _ _ H4)).
    + eapply (failed_push_good wid iid s _ _ wp n T ready _ running recs osw osi _ _ w H0); [done|exact Hd3|exact Hd4| |done|done].
      intros l u Hl Hu. by rewrite lookup_delete_ne.
Qed.

Lemma push_wake_ok wid iid s wp st cmd data dn : good wid iid s (CPushWake cmd data dn (st.1 + 1)) wp st →
  ∃ s' st', sem_post s = Done () s' ∧ store_step st (EvPush cmd data dn 0 (st.1 + 1)) st' ∧
    good wid iid s' CIdle wp st'.
Proof.
  destruct st as [n T]. intros (ready & half & running & recs & osw & osi & H). assert (H0 := H). destruct H. simpl in *.
  destruct inv_half0 as [[w ->] Hdn]. eexists _, _. split; [done|]. split; [apply push_ok|].
  set (t := new_task_of n cmd data dn) in *. assert (Hnew : T !! (n + 1) = None).
  { destruct (T !! (n + 1)) eqn:E; [|done]. assert (1 ≤ n + 1 ≤ n) by (apply inv_range0; by rewrite E). lia. }
  assert (Hlt : ∀ l u, (l, u) ∈ running ++ ready → taskID u ≤ n) by (intros l u; by apply (task_old _ _ _ _ _ _ _ _ _ _ _ _ _ l u H0)).
  exists (ready ++ [(w, t)]), [], running, recs, osw, osi. split; try done; simpl in *.
  - lia.
  - by rewrite app_nil_r.
  - by rewrite app_nil_r.
  - rewrite length_app. simpl. lia.
  - rewrite length_app. simpl. lia.
  - rewrite app_assoc, fmap_app. apply StronglySorted_app. split_and!; [|done|by repeat constructor].
    intros u v Hu Hv. apply list_elem_of_fmap in Hu as ([l u'] & -> & Hu). apply list_elem_of_singleton in Hv as ->.
    simpl. specialize (Hlt l u' Hu). lia.
  - intros k c d dn'. destruct (decide (k = n + 1)) as [->|Hk].
    + rewrite lookup_insert_eq. split.
      * intros [= <- <- <-]. exists w, t. split_and!; [set_solver|done..].
      * intros (l & u & Hin & Hid & <- & <- & <-). rewrite app_assoc in Hin. apply elem_of_app in Hin as [Hin|Hin].
        -- specialize (Hlt l u Hin). lia.
        -- apply list_elem_of_singleton in Hin. by injection Hin as -> ->.
    + rewrite lookup_insert_ne by done. rewrite inv_pending0. split; intros (l & u & Hin & Hid & ?).
      * exists l, u. rewrite app_assoc. split; [apply elem_of_app; by left|done].
      * exists l, u. split; [|done]. rewrite app_assoc in Hin. apply elem_of_app in Hin as [Hin|Hin]; [done|].
        apply list_elem_of_singleton in Hin. injection Hin as -> ->. simpl in Hid. lia.
  - intros l u Hin. rewrite app_assoc in Hin. apply elem_of_app in Hin as [Hin|Hin]; [by eapply inv_allowed0|].
    apply list_elem_of_singleton in Hin. by injection Hin as -> ->.
  - destruct wp; try done. destruct inv_report0 as [HT ?]. split; [|done]. rewrite lookup_insert_ne; [done|].
    intros E. rewrite <-E, Hnew in HT. done.
  - intros k. rewrite lookup_insert_is_Some'. intros [<-|Hk]; [lia|]. apply inv_range0 in Hk. lia.
Qed.

Lemma status_look_ok wid iid s wp st k : good wid iid s CIdle wp st →
  ∃ r s', status_look k s = Done r s' ∧
    match r with
    | Some v => ∃ st', store_step st (EvStatus k v) st' ∧ good wid iid s' CIdle wp st'
    | None => good wid iid s' (CStatusPeek k) wp st
    end.
Proof.
  destruct st as [n T]. intros (ready & half & running & recs & osw & osi & H). destruct H. simpl in *.
  destruct (look_step iid _ _ _ _ k inv_inprog0) as (d & Hrun & Hd).
  eexists _, (set_inprog d s). split; [by apply on_inprog_done|].
  assert (Hgood : ∀ pc, pc = CIdle ∨ pc = CStatusPeek k → client_knows pc wp n T d osw osi (ready ++ half).*1 recs →
    good wid iid (set_inprog d s) pc wp (n, T)).
  { intros pc Hpc Hcl. exists ready, half, running, recs, osw, osi. destruct Hpc as [-> | ->]; split; done. }
  destruct (find_rec k recs) as [[x o]|] eqn:E.
  - destruct (find_key_split _ _ _ _ _ E) as ([= Ho] & l1 & l2 & Hsp & _).
    assert (Hin : (x, o) ∈ recs) by (rewrite Hsp; set_solver).
    destruct (inv_shows0 x o Hin) as (y & Hy & Hsh). rewrite Ho in Hy, Hsh.
    destruct (decide (ip_taskSts o = RPC_SRV_RESULT_IN_PROG)) as [Hs|Hs].
    + exists (n, T). split; [by apply (status_in_progress n T k y)|]. apply Hgood; [by left|done].
    + apply Hgood; [by right|]. destruct y as [c dt dn|dn r]; simpl in *; [done|]. exists r.
      destruct (decide (reporting wp = Some k)) as [Hrp|Hrp]; [done|]. destruct Hsh as [-> <-]. done.
  - exists (n, T). split; [|apply Hgood; [by left|done]]. destruct (T !! k) as [y|] eqn:ET; [|by apply status_unknown].
    destruct (inv_recs0 k y ET) as [Hin|Hd'].
    + apply list_elem_of_fmap in Hin as ([x o] & -> & Hin). assert (Hf := find_rec_in recs x o inv_nodup0 Hin). unfold rid in E. simpl in E. congruence.
    + destruct y as [|dn r]; [done|]. destruct Hd' as [Hdn _]. by apply (status_dropped n T k dn r).
Qed.

Lemma status_peek_ok wid iid s wp st k : rev = Adav → good wid iid s (CStatusPeek k) wp st →
  ∃ p, status_peek s = Done p s ∧ good wid iid s (CStatusRemove k p) wp st.
Proof.
  destruct st as [n T]. intros Hrev (ready & half & running & recs & osw & osi & H). destruct H. simpl in *.
  destruct (holds_peek _ _ _ _ _ _ _ inv_inprog0) as [p Hp]. exists p. split.
  - unfold status_peek, on_inprog, zoom. rewrite Hp. by destruct s.
  - exists ready, half, running, recs, osw, osi. by split.
Qed.

(** The state after a record was read and removed. *)
Lemma record_read wid iid s d pc wp n T ready half running l1 x o l2 osw osi k r :
  inv wid iid s pc wp n T ready half running (l1 ++ (x, o) :: l2) osw osi → recorded pc n T = T → half = [] → numbered pc n = n →
  T !! k = Some (Ran PRESERVE r) → reporting wp ≠ Some k → ip_taskID o = k →
  holds (inprog_helper iid) iid false d n (l1 ++ l2) (delete x osi) →
  good wid iid (set_inprog d s) CIdle wp (n, delete k T).
Proof.
  intros H Hrec -> Hnum Hr Hrep Ho Hd. destruct H. rewrite Hrec in *.
  assert (Hsub : ∀ y, y ∈ l1 ++ l2 ↔ y ∈ l1 ++ (x, o) :: l2 ∧ rid y ≠ k).
  { intros y. assert (Hne := nodup_rec_split l1 x o l2 inv_nodup0). split.
    - intros Hy. split; [set_solver|]. rewrite <-Ho. by apply Hne.
    - intros [Hy Hk]. apply elem_of_app in Hy as [Hy|[->|Hy]%elem_of_cons]; [set_solver| |set_solver]. done. }
  exists ready, [], running, (l1 ++ l2), osw, (delete x osi). split; try done; simpl in *.
  - assert (length (l1 ++ l2) ≤ length (l1 ++ (x, o) :: l2))%nat by (rewrite !length_app; simpl; lia).
    destruct inv_len0 as [? Hlen]. split; [done|]. destruct pc; simpl in Hnum; lia.
  - intros j c dt dn. destruct (decide (j = k)) as [->|Hj]; [|rewrite lookup_delete_ne by done; apply inv_pending0].
    rewrite lookup_delete_eq. split; [done|]. intros Hx. apply inv_pending0 in Hx. congruence.
  - destruct wp; try done. destruct inv_report0 as [HT ?]. split; [|done]. rewrite lookup_delete_ne; [done|].
    intros E. apply Hrep. simpl. by rewrite E.
  - intros j Hj. apply inv_range0. apply lookup_delete_is_Some in Hj. tauto.
  - rewrite fmap_app in *. rewrite fmap_cons in inv_nodup0. eapply sublist_NoDup; [exact inv_nodup0|].
    apply sublist_app; [done|]. by constructor.
  - intros j y Hj. apply lookup_delete_Some in Hj as [Hjk Hj]. destruct (inv_recs0 j y Hj) as [Hin|?]; [left|by right].
    apply list_elem_of_fmap in Hin as (p & -> & Hp). apply list_elem_of_fmap. exists p. split; [done|]. apply Hsub. by split.
  - intros y o' Hin'. apply Hsub in Hin' as [Hin' Hk']. destruct (inv_shows0 y o' Hin') as (z & Hz & Hsh). exists z.
    split; [|done]. rewrite lookup_delete_ne; [done|]. by intros ->.
Qed.

(** The record that a client that waits for it is about to remove. *)
Lemma ready_record wid iid s pc wp n T ready half running recs osw osi k :
  inv wid iid s pc wp n T ready half running recs osw osi → recorded pc n T = T → ready_to_read wp T k →
  ∃ r l1 x o l2, T !! k = Some (Ran PRESERVE r) ∧ r ≠ RPC_SRV_RESULT_IN_PROG ∧ reporting wp ≠ Some k ∧
    recs = l1 ++ (x, o) :: l2 ∧ ip_taskID o = k ∧ ip_taskSts o = r.
Proof.
  intros H Hrec (r & Hr & Hne & Hrep). destruct H. rewrite Hrec in *.
  destruct (inv_recs0 k _ Hr) as [Hin|[]]; [|done].
  apply list_elem_of_fmap in Hin as ([x o] & -> & Hin). destruct (inv_shows0 x o Hin) as (y & Hy & Hsh).
  unfold rid in *. simpl in *. rewrite Hr in Hy. simplify_eq/=. rewrite decide_False in Hsh by done.
  apply list_elem_of_split in Hin as (l1 & l2 & ->). exists r, l1, x, o, l2. by destruct Hsh.
Qed.

Lemma status_take_ok wid iid s wp st k : good wid iid s (CStatusPeek k) wp st →
  ∃ v s', status_take k s = Done v s' ∧ st.2 !! k = Some (Ran PRESERVE v) ∧ v ≠ RPC_SRV_RESULT_IN_PROG ∧
    good wid iid s' CIdle wp (st.1, delete k st.2).
Proof.
  destruct st as [n T]. intros (ready & half & running & recs & osw & osi & H). simpl in *.
  assert (Hcl := inv_client _ _ _ _ _ _ _ _ _ _ _ _ _ H). simpl in Hcl.
  destruct (ready_record _ _ _ _ _ _ _ _ _ _ _ _ _ k H eq_refl Hcl) as (r & l1 & x & o & l2 & Hr & Hne & Hrep & -> & Ho & Hs).
  assert (H0 := H). destruct H. simpl in *. subst half.
  destruct (take_step iid _ _ l1 x o l2 osi inv_inprog0 inv_nodup0) as (d & Hrun & Hd). rewrite Ho, Hs in Hrun.
  exists r, (set_inprog d s). split; [by apply on_inprog_done|]. split; [done|split; [done|]].
  by apply (record_read wid iid s d (CStatusPeek k) wp n T ready [] running l1 x o l2 osw osi k r).
Qed.

Lemma status_remove_ok wid iid s wp st k p : good wid iid s (CStatusRemove k p) wp st →
  ∃ v s', status_remove k p s = Done v s' ∧ st.2 !! k = Some (Ran PRESERVE v) ∧ v ≠ RPC_SRV_RESULT_IN_PROG ∧
    good wid iid s' CIdle wp (st.1, delete k st.2).
Proof.
  destruct st as [n T]. intros (ready & half & running & recs & osw & osi & H). simpl in *.
  assert (Hcl := inv_client _ _ _ _ _ _ _ _ _ _ _ _ _ H). simpl in Hcl. destruct Hcl as (Hcl & _ & Hp).
  destruct (ready_record _ _ _ _ _ _ _ _ _ _ _ _ _ k H eq_refl Hcl) as (r & l1 & x & o & l2 & Hr & Hne & Hrep & -> & Ho & Hs).
  assert (H0 := H). destruct H. simpl in *. subst half.
  destruct (remove_step iid _ _ l1 x o l2 osi p inv_inprog0 inv_nodup0 Hp) as (d & Hrun & Hd). rewrite Ho, Hs in Hrun.
  exists r, (set_inprog d s). split; [by apply on_inprog_done|]. split; [done|split; [done|]].
  by apply (record_read wid iid s d (CStatusRemove k p) wp n T ready [] running l1 x o l2 osw osi k r).
Qed.

(** *** Every step of either thread *)
Abbreviation cstep := (client_step rev malloc_w malloc_i new_task new_inprog).
Abbreviation wstep := (worker_step rev consumer_run_work).
Abbreviation tstep := (thread_step rev malloc_w malloc_i new_task new_inprog consumer_run_work call_ok).

Lemma client_ok wid iid s pc wp st c : good wid iid s pc wp st → call_ok c → st.1 < INT_MAX →
  ∃ pc' e s' st', cstep c pc s = Done (pc', e) s' ∧ opt_step st e st' ∧ good wid iid s' pc' wp st'.
Proof.
  intros H Hc Hn. assert (Hk : ∃ T d osw osi locs recs, client_knows pc wp st.1 T d osw osi locs recs).
  { destruct H as (? & ? & ? & ? & ? & ? & H). by do 6 eexists; apply (inv_client _ _ _ _ _ _ _ _ _ _ _ _ _ H). }
  destruct Hk as (? & ? & ? & ? & ? & ? & Hk). destruct pc as [|cmd data dn w i k|cmd data dn w i k|cmd data dn k|k|k p]; simpl in *.
  - destruct c as [cmd data dn|k]; simpl in Hc.
    + destruct (push_new_ok wid iid s wp st cmd data dn H Hn Hc) as (w & i & s' & Hrun & H').
      rewrite (bind_done _ _ _ _ _ Hrun). by eexists _, None, s', st.
    + destruct (status_look_ok wid iid s wp st k H) as (r & s' & Hrun & H'). rewrite (bind_done _ _ _ _ _ Hrun).
      destruct r as [v|]; [destruct H' as (st' & Hst & H')|].
      * by eexists _, (Some (EvStatus k v)), s', st'.
      * by eexists _, None, s', st.
  - destruct Hk as (_ & -> & _). destruct (push_work_ok wid iid s wp st cmd data dn w i Hn H) as (r & s' & Hrun & H').
    rewrite (bind_done _ _ _ _ _ Hrun). destruct (r =? 0); simpl; [by eexists _, None, s', st|].
    destruct H' as (s'' & Hrun' & H'). rewrite (bind_done _ _ _ _ _ Hrun'). eexists _, (Some _), s'', _.
    split; [done|split; [|exact H']]. destruct st. apply push_failed.
  - destruct Hk as [-> _]. destruct (push_inprog_ok wid iid s wp st cmd data dn w i Hn H) as (r & s' & Hrun & H').
    rewrite (bind_done _ _ _ _ _ Hrun). destruct (r =? 0); simpl; [by eexists _, None, s', st|].
    destruct H' as (s'' & Hrun' & H'). rewrite (bind_done _ _ _ _ _ Hrun'). eexists _, (Some _), s'', _.
    split; [done|split; [|exact H']]. destruct st. apply push_failed.
  - subst k. destruct (push_wake_ok wid iid s wp st cmd data dn H) as (s' & st' & Hrun & Hst & H').
    rewrite (bind_done _ _ _ _ _ Hrun). by eexists _, (Some _), s', st'.
  - destruct (status_take_ok wid iid s wp st k H) as (v & s' & Hrun & HT & Hv & H').
    assert (Hpeek := λ Hr, status_peek_ok wid iid s wp st k Hr H). destruct rev.
    + rewrite (bind_done _ _ _ _ _ Hrun). eexists _, (Some _), s', _. split; [done|split; [|exact H']].
      destruct st as [n T]. by apply status_done.
    + destruct (Hpeek eq_refl) as (p & Hp & H1). rewrite (bind_done _ _ _ _ _ Hp). by eexists _, None, s, st.
  - destruct (status_remove_ok wid iid s wp st k p H) as (v & s' & Hrun & HT & Hv & H').
    rewrite (bind_done _ _ _ _ _ Hrun). eexists _, (Some _), s', _. split; [done|split; [|exact H']].
    destruct st as [n T]. by apply status_done.
Qed.

Lemma good_sema wid iid s pc wp st : good wid iid s pc wp st → 0 ≤ one_shot_sema s.
Proof. intros (? & ? & ? & ? & ? & ? & H). by destruct (inv_sema _ _ _ _ _ _ _ _ _ _ _ _ _ H). Qed.

(** The steps the worker has left: four for a task, three of them after the
    semaphore. *)
Definition remaining (wp : worker_pc) (s : worker) : nat :=
  4 * Z.to_nat (one_shot_sema s) + match wp with WWait => 0 | WGet => 3 | WRun _ => 2 | WReport _ _ _ => 1 end.

Lemma on_work_sema {B} (c : M (ADGenericChain cell) B) s b s' : on_work c s = Done b s' → one_shot_sema s' = one_shot_sema s.
Proof. unfold on_work, zoom. destruct (c (work_chain s)); try done. by intros [= _ <-]. Qed.

Lemma worker_ok wid iid s pc wp st : good wid iid s pc wp st →
  (wp = WWait ∧ one_shot_sema s = 0 ∧ wstep wp s = Blocked) ∨
  ∃ wp' e s' st', wstep wp s = Done (wp', e) s' ∧ opt_step st e st' ∧ good wid iid s' pc wp' st' ∧
    remaining wp s = S (remaining wp' s').
Proof.
  intros H. assert (Hs := good_sema _ _ _ _ _ _ H). destruct wp as [| |l|l t r]; simpl.
  - destruct (decide (one_shot_sema s = 0)) as [E|E].
    + left. split_and!; [done..|]. unfold sem_wait, mbind, M_bind, gets, mbind, M_bind. by rewrite E.
    + right. destruct (wait_step wid iid s pc st H ltac:(lia)) as (s' & Hrun & H'). rewrite (bind_done _ _ _ _ _ Hrun).
      eexists _, None, s', st. split_and!; [done..|]. unfold sem_wait in Hrun. rewrite bind_gets in Hrun.
      destruct (Z.ltb_spec 0 (one_shot_sema s)); [|lia]. injection Hrun as <-. unfold remaining. simpl. lia.
  - right. destruct (get_step wid iid s pc st H) as (l & s' & Hrun & H'). rewrite (bind_done _ _ _ _ _ Hrun).
    eexists _, None, s', st. split_and!; [done..|]. unfold remaining. rewrite (on_work_sema _ _ _ _ Hrun). lia.
  - right. destruct (run_step wid iid s pc st l H) as (t & r & s' & st' & Hrun & Hst & H').
    rewrite (bind_done _ _ _ _ _ Hrun). eexists _, (Some _), s', st'. split_and!; [done..|].
    unfold remaining. rewrite (on_work_sema _ _ _ _ Hrun). lia.
  - right. destruct (report_ok wid iid s pc st l t r H) as (s' & Hrun & H' & Hse). rewrite (bind_done _ _ _ _ _ Hrun).
    eexists _, None, s', st. split_and!; [done..|]. unfold remaining. rewrite Hse. lia.
Qed.

(** What holds in every state that is reached. *)
Definition ok_config (wid iid : Z) (g : config) : Prop :=
  ∃ pc st, clients g = [pc] ∧ good wid iid (shared g) pc (wthread g) st ∧ store_run (trace g) st ∧
    st.1 ≤ Z.of_nat (length (trace g)).

Lemma opt_store tr st e st' : store_run tr st → opt_step st e st' → store_run (snoc_event tr e) st'.
Proof. intros Htr He. destruct e as [e|]; simpl in *; [by eapply run_snoc|by subst]. Qed.
Lemma opt_numbers tr st e st' : st.1 ≤ Z.of_nat (length tr) → opt_step st e st' → st'.1 ≤ Z.of_nat (length (snoc_event tr e)).
Proof.
  intros Hn He. destruct e as [e|]; simpl in *; [|by subst]. rewrite length_app. simpl. destruct He; simpl in *; lia.
Qed.

Lemma step_ok wid iid g g' : ok_config wid iid g → Z.of_nat (length (trace g)) < INT_MAX → tstep g g' → ok_config wid iid g'.
Proof.
  intros (pc & st & Hc & H & Htr & Hn) Hlen Hstep.
  destruct Hstep as [s cs wp tr k pc0 c s' pc' e Hal Hk Hrun|s cs wp tr s' wp' e Hrun]; simpl in *; subst cs.
  - destruct k; [|done]. simpl in Hk. simplify_eq.
    destruct (client_ok wid iid s pc0 wp st c H Hal ltac:(lia)) as (pc1 & e1 & s1 & st1 & Hrun1 & He & H1).
    rewrite Hrun in Hrun1. simplify_eq. exists pc1, st1.
    split_and!; [done..|by eapply opt_store|by eapply opt_numbers].
  - destruct (worker_ok wid iid s pc wp st H) as [(? & ? & Hb)|(wp1 & e1 & s1 & st1 & Hrun1 & He & H1 & _)]; [congruence|].
    rewrite Hrun in Hrun1. simplify_eq. exists pc, st1. split_and!; [done..|by eapply opt_store|by eapply opt_numbers].
Qed.

Lemma trace_grows g g' : tstep g g' → (length (trace g) ≤ length (trace g'))%nat.
Proof.
  destruct 1 as [s cs wp tr k pc c s' pc' e|s cs wp tr s' wp' e]; simpl; destruct e; simpl; rewrite ?length_app; lia.
Qed.

Lemma reach_ok wid iid g0 g : ok_config wid iid g0 → rtc tstep g0 g → Z.of_nat (length (trace g)) < INT_MAX →
  ok_config wid iid g.
Proof.
  intros H0 Hr. revert g Hr.
  apply (rtc_ind_r (λ g, Z.of_nat (length (trace g)) < INT_MAX → ok_config wid iid g) g0); [done|].
  intros g1 g2 Hr Hs IH Hlen.
  assert (Hg := trace_grows _ _ Hs). eapply step_ok; [apply IH; lia|lia|done].
Qed.

Lemma new_holds {A} (h : ADChainConsumer A) raw i : is_Some (holders raw !! base raw) →
  ∃ d c r d', ADGenericChain_new raw i = Done (d, int32 (i + 1)) c ∧ id d = i ∧
    attach_helper h d = Done r d' ∧ holds h i false d' 0 [] (objs raw).
Proof.
  intros Hb. destruct (chain_new_ref raw i Hb) as (d & c & Hnew & Hd).
  assert (Hh := adref_helper _ _ _ Hd). simpl in Hh. exists d, c, (id d), (set_consumer (Some h) d).
  split_and!; [done|apply (adref_id _ _ _ Hd)| |split; [|split; [constructor|by intros x a ?%elem_of_nil]]].
  - unfold attach_helper. by rewrite bind_gets, Hh.
  - exists 0. destruct Hd. by split.
Qed.

Lemma init_ok raw_w raw_i gen : is_Some (holders raw_w !! base raw_w) → is_Some (holders raw_i !! base raw_i) →
  ∃ s, ADTaskWorker_new rev raw_w raw_i gen = Some s ∧ ok_config gen (int32 (gen + 1)) (Config s [CIdle] WWait []).
Proof.
  intros Hw Hi. destruct (new_holds (work_helper gen rev) raw_w gen Hw) as (dw & cw & rw & dw' & Hnw & Hidw & Haw & Hdw).
  destruct (new_holds (inprog_helper (int32 (gen + 1))) raw_i (int32 (gen + 1)) Hi) as (di & ci & ri & di' & Hni & Hidi & Hai & Hdi).
  exists (Worker dw' di' true 0 []). unfold ADTaskWorker_new. rewrite Hnw, Hni, Hidw, Hidi, Hai, Haw. split; [done|].
  exists CIdle, (0, ∅). split_and!; [done| |constructor|done].
  exists [], [], [], [], (objs raw_w), (objs raw_i). split; try done; simpl.
  - constructor.
  - intros k c d dn. split; [done|]. intros (l & t & Hin & _). by apply elem_of_nil in Hin.
  - intros l t Hin. by apply elem_of_nil in Hin.
  - intros k [x Hx]. done.
  - constructor.
  - intros l o Hin. by apply elem_of_nil in Hin.
Qed.

(** C20: the background tasks with one client thread beside the worker
    thread; in lib-adav-old, which is what the services are built with, for all
    calls, also when memory is short; in lib-adav for tasks whose outcome is
    kept.  In every state that any interleaving of the two threads can reach:
    no thread faults; the client's next step never waits, and the worker waits
    only when it has nothing to do; and what the calls returned and the runs
    that took place are a history of the store of tasks: numbers are given out
    in turn, the tasks run in this order, each once, and a status call tells the
    task's own result, once. *)
Theorem task_worker_refines_store raw_w raw_i gen :
  is_Some (holders raw_w !! base raw_w) → is_Some (holders raw_i !! base raw_i) →
  ∃ s0, ADTaskWorker_new rev raw_w raw_i gen = Some s0 ∧
  ∀ g, rtc tstep (Config s0 [CIdle] WWait []) g → Z.of_nat (length (trace g)) < INT_MAX →
    ¬ faulty rev malloc_w malloc_i new_task new_inprog consumer_run_work call_ok g ∧
    (∃ st, store_run (trace g) st) ∧
    (∀ c, call_ok c → ∃ pc pc' e s', clients g = [pc] ∧ cstep c pc (shared g) = Done (pc', e) s') ∧
    (wstep (wthread g) (shared g) = Blocked → wthread g = WWait ∧ one_shot_sema (shared g) = 0).
Proof.
  intros Hw Hi. destruct (init_ok raw_w raw_i gen Hw Hi) as (s0 & Hnew & Hok). exists s0. split; [done|].
  intros g Hr Hlen. destruct (reach_ok _ _ _ g Hok Hr Hlen) as (pc & st & Hc & H & Htr & Hn).
  assert (Hb : st.1 < INT_MAX) by lia. split_and!.
  - intros [(k & pc0 & c & Hal & Hk & Hf)|Hf].
    + rewrite Hc in Hk. destruct k; [|done]. simpl in Hk. simplify_eq.
      destruct (client_ok _ _ _ _ _ _ c H Hal Hb) as (? & ? & ? & ? & Hrun & _). congruence.
    + destruct (worker_ok _ _ _ _ _ _ H) as [(? & ? & ?)|(? & ? & ? & ? & ? & _)]; congruence.
  - by exists st.
  - intros c Hal. destruct (client_ok _ _ _ _ _ _ c H Hal Hb) as (pc' & e & s' & ? & Hrun & _). by exists pc, pc', e, s'.
  - intros Hblk. destruct (worker_ok _ _ _ _ _ _ H) as [(? & ? & ?)|(? & ? & ? & ? & ? & _)]; [done|congruence].
Qed.

(** *** Progress of the worker *)
Inductive wsteps : nat → config → config → Prop :=
| wsteps_O g : wsteps 0 g g
| wsteps_S n s cs wp tr s' wp' e g :
    wstep wp s = Done (wp', e) s' → wsteps n (Config s' cs wp' (snoc_event tr e)) g →
    wsteps (S n) (Config s cs wp tr) g.

Lemma worker_drains wid iid n s pc wp st tr : good wid iid s pc wp st → store_run tr st → remaining wp s = n →
  ∃ s' st' evs, wsteps n (Config s [pc] wp tr) (Config s' [pc] WWait (tr ++ evs)) ∧ one_shot_sema s' = 0 ∧
    good wid iid s' pc WWait st' ∧ store_run (tr ++ evs) st'.
Proof.
  revert s wp st tr. induction n as [|n IH]; intros s wp st tr H Htr Hrem; assert (Hs := good_sema _ _ _ _ _ _ H).
  - unfold remaining in Hrem. destruct wp; try lia. exists s, st, []. rewrite app_nil_r. split_and!; [constructor|lia|done..].
  - destruct (worker_ok _ _ _ _ _ _ H) as [(-> & Hz & _)|(wp1 & e & s1 & st1 & Hrun & He & H1 & Hr)].
    + unfold remaining in Hrem. rewrite Hz in Hrem. done.
    + assert (Htr1 := opt_store tr st e st1 Htr He).
      destruct (IH s1 wp1 st1 (snoc_event tr e) H1 Htr1 ltac:(lia)) as (s' & st' & evs & Hst & Hz & H' & Htr').
      assert (Heq : snoc_event tr e ++ evs = tr ++ (from_option (λ e, [e]) [] e ++ evs)).
      { destruct e; simpl; [by rewrite <-app_assoc|done]. }
      rewrite Heq in *. exists s', st'. eexists. split_and!; [|done..]. by eapply wsteps_S.
Qed.

(** A status call for a task that has been run: its result, or nothing when
    nobody wanted it. *)
Lemma status_of_ran wid iid s st k dn r : good wid iid s CIdle WWait st → st.2 !! k = Some (Ran dn r) → r ≠ RPC_SRV_RESULT_IN_PROG →
  ∃ s', get_task_status rev k s = Done (if decide (dn = PRESERVE) then r else RPC_SRV_RESULT_TASK_ID_NOT_FOUND) s'.
Proof.
  destruct st as [n T]. simpl. intros H HT Hr.
  assert (Hlook : ∃ v s1, status_look k s = Done v s1 ∧
    match v with Some v => dn ≠ PRESERVE ∧ v = RPC_SRV_RESULT_TASK_ID_NOT_FOUND
    | None => dn = PRESERVE ∧ good wid iid s1 (CStatusPeek k) WWait (n, T) end).
  { destruct (status_look_ok wid iid s WWait (n, T) k H) as (v & s1 & Hrun & Hv). exists v, s1. split; [done|].
    destruct v as [v|].
    - destruct H as (ready & half & running & recs & osw & osi & H). destruct H. simpl in *.
      destruct (look_step iid _ _ _ _ k inv_inprog0) as (d & Hrun1 & _).
      assert (Hrun2 := on_inprog_done _ s _ _ Hrun1). unfold status_look in Hrun. rewrite Hrun in Hrun2. injection Hrun2 as Hv2 _.
      assert (Hin := inv_recs0 k (Ran dn r) HT). destruct (find_rec k recs) as [[x o]|] eqn:E.
      + exfalso. destruct (find_key_split _ _ _ _ _ E) as ([= Ho] & l1 & l2 & Hsp & _).
        destruct (inv_shows0 x o) as (y & Hy & Hsh); [rewrite Hsp; set_solver|]. rewrite Ho, HT in Hy. simplify_eq/=.
        rewrite decide_False in Hv2; [done|]. by destruct Hsh as [_ ->].
      + destruct Hin as [Hin|[Hd _]]; [exfalso|split; [done|congruence]].
        apply list_elem_of_fmap in Hin as ([x o] & -> & Hin). assert (Hf := find_rec_in recs x o inv_nodup0 Hin).
        unfold rid in E. simpl in E. congruence.
    - split; [|done]. destruct Hv as (? & ? & ? & ? & ? & ? & Hv). assert (Hc := inv_client _ _ _ _ _ _ _ _ _ _ _ _ _ Hv).
      destruct Hc as (r' & Hr' & _). simpl in Hr'. congruence. }
  destruct Hlook as (v & s1 & Hlook & Hv). unfold get_task_status. rewrite (bind_done _ _ _ _ _ Hlook).
  destruct v as [v|]; destruct Hv as [Hdn Hv]; [rewrite decide_False, Hv by done; by eexists|]. rewrite decide_True by done.
  destruct (status_take_ok wid iid s1 WWait (n, T) k Hv) as (v & s2 & Hrm & HTv & _).
  assert (Hpeek := λ Hr, status_peek_ok wid iid s1 WWait (n, T) k Hr Hv).
  assert (Hrem := λ p, status_remove_ok wid iid s1 WWait (n, T) k p). simpl in HTv. destruct rev.
  - exists s2. congruence.
  - destruct (Hpeek eq_refl) as (p & Hp & H2). rewrite (bind_done _ _ _ _ _ Hp).
    destruct (Hrem p H2) as (v' & s3 & Hrm' & HTv' & _). simpl in HTv'.
    exists s3. congruence.
Qed.

(** Once the worker waits for work, no task the clients were told of is pending. *)
Lemma drained_no_pending wid iid s st k x : good wid iid s CIdle WWait st → one_shot_sema s = 0 → st.2 !! k = Some x →
  ∃ dn r, x = Ran dn r.
Proof.
  destruct st as [n T]. intros (ready & half & running & recs & osw & osi & H) Hz Hk. destruct H. simpl in *.
  destruct x as [cmd data dn|dn r]; [|by exists dn, r]. apply inv_pending0 in Hk as (l & t & Hin & _).
  subst running. destruct ready; [|simpl in *; lia]. by apply elem_of_nil in Hin.
Qed.

(** C21: every task is completed.  From every state that is reached
    with the client between two calls, the worker thread alone comes to rest
    after the steps it has left, four for each task; then every task whose
    result the client has not read has been run, and the next status call for it
    returns the result of that run (unless that result itself says in
    progress), or, for a task that was to be deleted when done, that there is no
    such task. *)
Theorem every_task_completes raw_w raw_i gen :
  is_Some (holders raw_w !! base raw_w) → is_Some (holders raw_i !! base raw_i) →
  ∃ s0, ADTaskWorker_new rev raw_w raw_i gen = Some s0 ∧
  ∀ s wp tr, rtc tstep (Config s0 [CIdle] WWait []) (Config s [CIdle] wp tr) → Z.of_nat (length tr) < INT_MAX →
    ∃ s' evs st', wsteps (remaining wp s) (Config s [CIdle] wp tr) (Config s' [CIdle] WWait (tr ++ evs)) ∧
      store_run (tr ++ evs) st' ∧
      ∀ k, is_Some (st'.2 !! k) → ∃ dn r, st'.2 !! k = Some (Ran dn r) ∧
        (r ≠ RPC_SRV_RESULT_IN_PROG → ∃ s'',
          get_task_status rev k s' = Done (if decide (dn = PRESERVE) then r else RPC_SRV_RESULT_TASK_ID_NOT_FOUND) s'').
Proof.
  intros Hw Hi. destruct (init_ok raw_w raw_i gen Hw Hi) as (s0 & Hnew & Hok). exists s0. split; [done|].
  intros s wp tr Hr Hlen. destruct (reach_ok _ _ _ _ Hok Hr Hlen) as (pc & st & [= <-] & H & Htr & Hn). simpl in *.
  destruct (worker_drains _ _ _ s CIdle wp st tr H Htr eq_refl) as (s' & st' & evs & Hst & Hz & H' & Htr').
  exists s', evs, st'. split_and!; [done..|]. intros k [x Hx].
  destruct (drained_no_pending _ _ s' st' k x H' Hz Hx) as (dn & r & ->). exists dn, r. split; [done|]. intros Hrn.
  by apply (status_of_ran _ _ s' st' k dn r H' Hx Hrn).
Qed.
End promise.
