(* ===== verification/TaskWorkerRaces.v ===== *)
(** * Where the background tasks go wrong

    The conditions of [TaskWorkerProofs] are needed.  In both copies of the
    library two clients can push at the same time so that a task is run before
    its record exists.  In lib-adav a task whose outcome nobody wants takes the
    record of another one with it; a status query that overlaps with the end of
    such a task faults; and without memory for a record the push throws away a
    task that is not its own. *)

From stdpp Require Import base list gmap strings.
From Stdlib Require Import ZArith Lia.
From S2P Require Import Prelude ChainHeap Chain AdavChain RpcResult TaskWorker TaskWorkerProofs.

(** ** A concrete memory and service *)
Definition room_malloc (h : gmap loc chain_holder) : option (loc * chain_holder) := Some (fresh (dom h), Holder None None None).
Definition some_task (os : gmap loc cell) : loc * WORK_CMD_TASK :=
  (fresh (dom os), Task 0 0 0 RPC_SRV_RESULT_NONE WORK_CMD_AFTER_DONE_NONE None).
Definition some_inprog (os : gmap loc WORK_CMD_TASK_IN_PROG) : loc * WORK_CMD_TASK_IN_PROG :=
  (fresh (dom os), InProg 0 0 0 RPC_SRV_RESULT_NONE EmptyString).
(** The service deletes its data and succeeds. *)
Definition service_run (cmd : Z) (data : ptr) (os : gmap loc cell) : RPC_SRV_RESULT * gmap loc cell :=
  (RPC_SRV_RESULT_SUCCESS,
   match data with
   | Some l => match os !! l with Some OData => delete l os | _ => os end
   | None => os
   end).

Lemma room_malloc_fresh h l g : room_malloc h = Some (l, g) → h !! l = None.
Proof. intros [= <- <-]. apply not_elem_of_dom. apply is_fresh. Qed.
Lemma no_room_needed : AdavOld = Adav → ∀ h, is_Some (room_malloc h).
Proof. intros _ h. by eexists. Qed.
Lemma some_task_fresh os : os !! (some_task os).1 = None.
Proof. apply not_elem_of_dom. apply is_fresh. Qed.
Lemma some_inprog_fresh os : os !! (some_inprog os).1 = None.
Proof. apply not_elem_of_dom. apply is_fresh. Qed.
Lemma service_run_keeps cmd p os l t : os !! l = Some (OTask t) → (service_run cmd p os).2 !! l = Some (OTask t).
Proof.
  intros Hl. unfold service_run. destruct p as [p|]; [|done]. simpl.
  destruct (os !! p) as [[]|] eqn:E; try done. rewrite lookup_delete_ne; [done|]. by intros ->; rewrite Hl in E.
Qed.

Definition raw_chain {A} : chain bool A :=
  Chain 1%positive 0 0 0 true {[ 1%positive := Holder None None None ]} ∅.
Definition start (rev : revision) : worker :=
  from_option (λ s, s) (Worker (AD raw_chain 0 0 None 0) (AD raw_chain 0 0 None 0) false 0 []) (ADTaskWorker_new rev raw_chain raw_chain 0).

(** ** Schedules *)
Inductive turn := Client (k : nat) (c : call) | WorkerTurn.

Section schedule.
Variable rev : revision.
Variable malloc_i : gmap loc chain_holder → option (loc * chain_holder).

Definition take_turn (t : turn) (g : config) : option config :=
  match t with
  | Client k c =>
      pc ← clients g !! k;
      match client_step rev room_malloc malloc_i some_task some_inprog c pc (shared g) with
      | Done (pc', e) s' => Some (Config s' (<[k := pc']> (clients g)) (wthread g) (snoc_event (trace g) e))
      | _ => None
      end
  | WorkerTurn =>
      match worker_step rev service_run (wthread g) (shared g) with
      | Done (wp', e) s' => Some (Config s' (clients g) wp' (snoc_event (trace g) e))
      | _ => None
      end
  end.
Fixpoint schedule (l : list turn) (g : config) : option config :=
  match l with
  | [] => Some g
  | t :: l => g ← take_turn t g; schedule l g
  end.

Definition turn_allowed (allowed : call → Prop) (t : turn) : Prop :=
  match t with Client _ c => allowed c | WorkerTurn => True end.

Lemma schedule_reaches allowed l g g' : Forall (turn_allowed allowed) l → schedule l g = Some g' →
  rtc (thread_step rev room_malloc malloc_i some_task some_inprog service_run allowed) g g'.
Proof.
  intros Hl. revert g. induction Hl as [|t l Ht Hl IH]; intros g; simpl; [by intros [= ->]|].
  destruct (take_turn t g) as [g1|] eqn:E; [|done]. simpl. intros Hs. eapply rtc_l; [|by apply IH].
  destruct t as [k c|]; simpl in E.
  - destruct g as [s cs wp tr]. simpl in *. destruct (cs !! k) as [pc|] eqn:Ek; [|done]. simpl in E.
    destruct (client_step _ _ _ _ _ c pc s) as [[pc' e] s1| | | |] eqn:Er; try done. injection E as <-.
    by eapply step_client.
  - destruct g as [s cs wp tr]. simpl in *.
    destruct (worker_step _ _ wp s) as [[wp' e] s1| | | |] eqn:Er; try done. injection E as <-. by apply step_worker.
Qed.
End schedule.

Definition push (done : WORK_CMD_AFTER_DONE) (k : nat) (cmd : Z) : list turn :=
  replicate 4 (Client k (PushTask cmd None done)).
Definition keep := WORK_CMD_AFTER_DONE_PRESERVE.
Definition drop_it := WORK_CMD_AFTER_DONE_DELETE.
Definition one_client (rev : revision) : config := Config (start rev) [CIdle] WWait [].
Definition two_clients (rev : revision) : config := Config (start rev) [CIdle; CIdle] WWait [].

(** A status query that overlaps with the end of a task whose
    outcome nobody wants.  With a single client: its first task has been run and
    it asks for the result; between the client's look at the record and its
    removal the worker finishes the second task and takes the first record; the
    client then follows the freed holder. *)
Theorem status_query_race_faults :
  ∃ g, rtc (thread_step Adav room_malloc room_malloc some_task some_inprog service_run (λ _, True)) (one_client Adav) g ∧
    clients g = [CStatusRemove 1 (Some 2%positive)] ∧
    faulty Adav room_malloc room_malloc some_task some_inprog service_run (λ _, True) g.
Proof.
  set (l := push keep 0 7 ++ replicate 4 WorkerTurn ++ push drop_it 0 8 ++ replicate 3 WorkerTurn ++
    replicate 2 (Client 0 (GetTaskStatus 1)) ++ [WorkerTurn]).
  destruct (schedule Adav room_malloc l (one_client Adav)) as [g|] eqn:E; [|by vm_compute in E].
  exists g. split; [apply (schedule_reaches _ room_malloc _ l); [by repeat constructor|done]|].
  vm_compute in E. injection E as <-. split; [reflexivity|]. left.
  eexists 0%nat, _, (GetTaskStatus 1). split_and!; [done|reflexivity|]. vm_compute. reflexivity.
Qed.

(** A state at rest: the clients between two calls, nothing for the worker. *)
Definition at_rest (g : config) : Prop :=
  Forall (.= CIdle) (clients g) ∧ wthread g = WWait ∧ one_shot_sema (shared g) = 0.

(** C22: two clients that push at the same time, nothing else: the
    worker can take and run the first task before its record is queued.  Both
    pushes succeed, the task runs once, and at the end, with everything at
    rest, its status is in progress and stays so. *)
Theorem two_clients_lose_a_result :
  ∃ g, rtc (thread_step AdavOld room_malloc room_malloc some_task some_inprog service_run (call_ok Adav)) (two_clients AdavOld) g ∧
    at_rest g ∧
    trace g = [EvPush 8 None keep 0 2; EvRan 1 RPC_SRV_RESULT_SUCCESS; EvPush 7 None keep 0 1; EvRan 2 RPC_SRV_RESULT_SUCCESS] ∧
    get_task_status AdavOld 1 (shared g) = Done RPC_SRV_RESULT_IN_PROG (shared g).
Proof.
  set (l := replicate 2 (Client 0 (PushTask 7 None keep)) ++ push keep 1 8 ++ replicate 4 WorkerTurn ++
    replicate 2 (Client 0 (PushTask 7 None keep)) ++ replicate 4 WorkerTurn).
  destruct (schedule AdavOld room_malloc l (two_clients AdavOld)) as [g|] eqn:E; [|by vm_compute in E].
  exists g. split; [apply (schedule_reaches _ room_malloc _ l); [by repeat constructor|done]|].
  vm_compute in E. injection E as <-. split_and!; [split_and!; [by repeat constructor|done|done]|done|].
  vm_compute. reflexivity.
Qed.

(** Room for the base holder and [n] records. *)
Definition scarce_malloc (n : nat) (h : gmap loc chain_holder) : option (loc * chain_holder) :=
  if (size h <? S n)%nat then room_malloc h else None.

(** No memory for the second record, a single client and no worker
    step in between.  The failed push deletes the task of the first push, which
    had succeeded, and leaves its own: the call that failed is the one that is
    run, and the task that was accepted never is. *)
Theorem failed_push_drops_another_task :
  ∃ g, rtc (thread_step Adav room_malloc (scarce_malloc 1) some_task some_inprog service_run (call_ok Adav)) (one_client Adav) g ∧
    at_rest g ∧
    trace g = [EvPush 7 None keep 0 1; EvPush 8 None keep (-1) 2; EvRan 2 RPC_SRV_RESULT_SUCCESS] ∧
    get_task_status Adav 1 (shared g) = Done RPC_SRV_RESULT_IN_PROG (shared g).
Proof.
  set (l := push keep 0 7 ++ replicate 3 (Client 0 (PushTask 8 None keep)) ++ replicate 4 WorkerTurn).
  destruct (schedule Adav (scarce_malloc 1) l (one_client Adav)) as [g|] eqn:E; [|by vm_compute in E].
  exists g. split; [apply (schedule_reaches _ _ _ l); [by repeat constructor|done]|].
  vm_compute in E. injection E as <-. split_and!; [split_and!; [by repeat constructor|done|done]|done|].
  vm_compute. reflexivity.
Qed.

(** ** A task that is deleted when it is done *)
Section deleted.
Variable consumer_run_work : Z → ptr → gmap loc cell → RPC_SRV_RESULT * gmap loc cell.
Hypothesis run_work_keeps : ∀ cmd p os l t, os !! l = Some (OTask t) →
  (consumer_run_work cmd p os).2 !! l = Some (OTask t).
Variables wid iid : Z.

Lemma status_look_holds s n recs osi k : holds (inprog_helper iid) iid false (work_inprog_chain s) n recs osi →
  ∃ s', status_look k s = Done (match find_rec k recs with
    | None => Some RPC_SRV_RESULT_TASK_ID_NOT_FOUND
    | Some (_, o) => if decide (ip_taskSts o = RPC_SRV_RESULT_IN_PROG) then Some RPC_SRV_RESULT_IN_PROG else None
    end) s'.
Proof.
  intros H. destruct (look_step iid _ _ _ _ k H) as (d & Hrun & _). eexists. by apply (on_inprog_done _ s).
Qed.

(** The worker runs a task whose outcome nobody wants while the
    queue of records starts with the record of another task.  It is that record
    it deletes: a status call for the other task, finished or not, no longer
    finds it, and the record of the task that was run stays in progress. *)
Theorem delete_removes_oldest_record s n m w t W osw x o recs osi :
  holds (work_helper wid Adav) wid false (work_chain s) n (cells ((w, t) :: W)) osw →
  holds (inprog_helper iid) iid false (work_inprog_chain s) m ((x, o) :: recs) osi →
  NoDup (rid <$> (x, o) :: recs) →
  done_action t ≠ WORK_CMD_AFTER_DONE_PRESERVE →
  ∃ s', monoshot_callback_function Adav consumer_run_work s = Done 0 s' ∧
    (∃ s2, get_task_status Adav (ip_taskID o) s' = Done RPC_SRV_RESULT_TASK_ID_NOT_FOUND s2) ∧
    (∀ y p, (y, p) ∈ recs → ip_taskSts p = RPC_SRV_RESULT_IN_PROG →
       ∃ s2, get_task_status Adav (ip_taskID p) s' = Done RPC_SRV_RESULT_IN_PROG s2).
Proof.
  intros Hw Hi Hnd Hdel. destruct (holds_get _ _ _ _ _ _ Hw) as (d1 & H1 & Hd1). simpl in H1, Hd1.
  assert (Ht : osw !! w = Some (OTask t)) by (apply Hw; set_solver).
  assert (Hwn : w ∉ W.*1).
  { destruct Hw as [_ [Hnw _]]. rewrite cells_locs in Hnw. simpl in Hnw. by apply NoDup_cons in Hnw as [? _]. }
  set (run := consumer_run_work (command t) (pWorkData t) osw).
  set (d2 := set_core (set_objs run.2 (core d1)) d1).
  assert (Hd2 : holds (work_helper wid Adav) wid false d2 n (cells W) run.2).
  { apply (with_objs _ _ _ _ _ _ _ _ Hd1). intros y a Hy. assert (Ho := proj2 (proj2 Hd1) y a Hy).
    unfold cells in Hy. apply list_elem_of_fmap in Hy as ([z u] & [= -> ->] & _). by apply run_work_keeps. }
  destruct (holds_get _ _ _ _ _ _ Hi) as (e1 & He1 & Hde1). simpl in He1, Hde1.
  assert (Hx : osi !! x = Some o) by (apply Hi; set_solver).
  assert (Hxn : x ∉ recs.*1). { destruct Hi as [_ [Hni _]]. simpl in Hni. by apply NoDup_cons in Hni as [? _]. }
  destruct (holds_delete _ _ _ _ _ _ _ _ _ Hde1 Hx Hxn) as (e2 & He2 & Hde2).
  assert (Ht2 : run.2 !! w = Some (OTask t)) by (by apply run_work_keeps).
  assert (Hwc : w ∉ (cells W).*1) by (by rewrite cells_locs).
  destruct (holds_delete _ _ _ _ _ _ _ _ _ Hd2 Ht2 Hwc) as (d3 & H3 & Hd3).
  exists (set_work d3 (set_inprog e2 (set_work d2 (set_work d1 s)))). split; [|split].
  - unfold monoshot_callback_function, work_get. rewrite (bind_done _ _ _ _ _ (on_work_done _ s _ _ H1)).
    rewrite (bind_done _ _ _ (t, run.1) (set_work d2 (set_work d1 s))).
    + unfold work_report. rewrite decide_False by done. rewrite (bind_done _ _ _ () (set_work d3 (set_inprog e2 (set_work d2 (set_work d1 s))))); [done|].
      rewrite (bind_done _ _ _ () (set_inprog e2 (set_work d2 (set_work d1 s)))).
      * by apply (on_work_done _ (set_inprog e2 (set_work d2 (set_work d1 s)))).
      * apply (on_inprog_done _ (set_work d2 (set_work d1 s))). by rewrite (bind_done _ _ _ _ _ He1).
    + apply (on_work_done _ (set_work d1 s)).
      rewrite (bind_done _ _ _ _ _ (holds_load _ _ _ _ _ _ _ _ _ Hd1 Ht)).
      rewrite bind_on_core_gets, (holds_objs _ _ _ _ _ _ _ Hd1). done.
  - destruct (status_look_holds (set_work d3 (set_inprog e2 (set_work d2 (set_work d1 s)))) m recs _ (ip_taskID o) Hde2) as (s2 & Hs2).
    exists s2. unfold get_task_status. rewrite (bind_done _ _ _ _ _ Hs2).
    rewrite (find_rec_none (ip_taskID o) recs); [done|]. rewrite fmap_cons in Hnd. by apply NoDup_cons in Hnd as [? _].
  - intros y p Hp Hsts.
    destruct (status_look_holds (set_work d3 (set_inprog e2 (set_work d2 (set_work d1 s)))) m recs _ (ip_taskID p) Hde2) as (s2 & Hs2).
    exists s2. unfold get_task_status. rewrite (bind_done _ _ _ _ _ Hs2).
    rewrite fmap_cons in Hnd. apply NoDup_cons in Hnd as [_ Hnd]. rewrite (find_rec_in recs y p Hnd Hp).
    by rewrite decide_True.
Qed.
End deleted.

(** ** The theorems of [TaskWorkerProofs] on the concrete memory *)
Definition two_pushes : list turn := push keep 0 7 ++ push drop_it 0 8.
Definition both_done : list turn :=
  two_pushes ++ replicate 8 WorkerTurn ++ replicate 2 (Client 0 (GetTaskStatus 1)) ++ [Client 0 (GetTaskStatus 2)].
Definition after_turns (l : list turn) : config :=
  from_option (λ g, g) (one_client AdavOld) (schedule AdavOld room_malloc l (one_client AdavOld)).
Lemma both_done_reached :
  rtc (thread_step AdavOld room_malloc room_malloc some_task some_inprog service_run (call_ok AdavOld)) (one_client AdavOld) (after_turns both_done).
Proof. apply (schedule_reaches _ room_malloc _ both_done); [by repeat constructor|vm_compute; reflexivity]. Qed.
Lemma two_pushes_reached :
  rtc (thread_step AdavOld room_malloc room_malloc some_task some_inprog service_run (call_ok AdavOld)) (one_client AdavOld) (after_turns two_pushes).
Proof. apply (schedule_reaches _ room_malloc _ two_pushes); [by repeat constructor|vm_compute; reflexivity]. Qed.

Lemma task_worker_refines_store_witness :
  trace (after_turns both_done) =
    [EvPush 7 None keep 0 1; EvPush 8 None drop_it 0 2; EvRan 1 RPC_SRV_RESULT_SUCCESS; EvRan 2 RPC_SRV_RESULT_SUCCESS;
     EvStatus 1 RPC_SRV_RESULT_SUCCESS; EvStatus 2 RPC_SRV_RESULT_TASK_ID_NOT_FOUND] ∧
  ∃ st, store_run service_run (trace (after_turns both_done)) st.
Proof.
  split; [vm_compute; reflexivity|].
  destruct (task_worker_refines_store AdavOld room_malloc room_malloc some_task some_inprog service_run
    room_malloc_fresh room_malloc_fresh no_room_needed some_task_fresh some_inprog_fresh service_run_keeps
    raw_chain raw_chain 0) as (s0 & Hs0 & H); [by eexists|by eexists|].
  assert (s0 = start AdavOld) as -> by (unfold start; rewrite Hs0; reflexivity).
  apply (H (after_turns both_done) both_done_reached). vm_compute. reflexivity.
Defined.

Lemma every_task_completes_witness :
  ∃ s' evs st', wsteps AdavOld service_run 8 (after_turns two_pushes) (Config s' [CIdle] WWait (trace (after_turns two_pushes) ++ evs)) ∧
    store_run service_run (trace (after_turns two_pushes) ++ evs) st'.
Proof.
  destruct (every_task_completes AdavOld room_malloc room_malloc some_task some_inprog service_run
    room_malloc_fresh room_malloc_fresh no_room_needed some_task_fresh some_inprog_fresh service_run_keeps
    raw_chain raw_chain 0) as (s0 & Hs0 & H); [by eexists|by eexists|].
  assert (s0 = start AdavOld) as -> by (unfold start; rewrite Hs0; reflexivity).
  assert (Heq : Config (shared (after_turns two_pushes)) [CIdle] (wthread (after_turns two_pushes)) (trace (after_turns two_pushes)) =
    after_turns two_pushes) by (vm_compute; reflexivity).
  destruct (H (shared (after_turns two_pushes)) (wthread (after_turns two_pushes)) (trace (after_turns two_pushes)))
    as (s' & evs & st' & Hw & Hst & _).
  - rewrite Heq. exact two_pushes_reached.
  - vm_compute. reflexivity.
  - exists s', evs, st'. rewrite Heq in Hw. split; [exact Hw|exact Hst].
Defined.

(** A kept task that was run, and a task to be deleted that is queued. *)
Definition before_delete : worker :=
  shared (from_option (λ g, g) (one_client Adav) (schedule Adav room_malloc (push keep 0 7 ++ replicate 4 WorkerTurn ++ push drop_it 0 8) (one_client Adav))).
Definition kept_rec : WORK_CMD_TASK_IN_PROG := InProg 1 100 7 RPC_SRV_RESULT_SUCCESS EmptyString.
Definition drop_rec_of : WORK_CMD_TASK_IN_PROG := InProg 2 0 8 RPC_SRV_RESULT_IN_PROG EmptyString.
Definition drop_task : WORK_CMD_TASK := Task 2 0 8 RPC_SRV_RESULT_IN_PROG drop_it None.
Lemma before_delete_work :
  holds (work_helper 0 Adav) 0 false (work_chain before_delete) 0 (cells [(1%positive, drop_task)]) {[ 1%positive := OTask drop_task ]}.
Proof.
  split; [|split; [by repeat constructor; set_solver|]].
  - exists 1. split; try reflexivity. exists [(2%positive, Some 1%positive)]. split; [|reflexivity].
    split; [|by vm_compute; repeat constructor; set_solver|reflexivity|vm_compute; split; intros; discriminate].
    vm_compute. split_and!; eexists; split_and!; reflexivity.
  - intros x a Hin. apply list_elem_of_singleton in Hin. injection Hin as -> ->. reflexivity.
Qed.
Lemma before_delete_inprog :
  holds (inprog_helper 1) 1 false (work_inprog_chain before_delete) 2 [(1%positive, kept_rec); (2%positive, drop_rec_of)]
    {[ 1%positive := kept_rec; 2%positive := drop_rec_of ]}.
Proof.
  split; [|split; [by repeat constructor; set_solver|]].
  - exists 2. split; try reflexivity. exists [(2%positive, Some 1%positive); (3%positive, Some 2%positive)]. split; [|reflexivity].
    split; [|by vm_compute; repeat constructor; set_solver|reflexivity|vm_compute; split; intros; discriminate].
    vm_compute. split_and!; eexists; split_and!; reflexivity.
  - intros x a Hin. apply elem_of_cons in Hin as [Hin|Hin]; [|apply list_elem_of_singleton in Hin];
      injection Hin as -> ->; reflexivity.
Qed.

Lemma delete_removes_oldest_record_witness :
  ∃ s', monoshot_callback_function Adav service_run before_delete = Done 0 s' ∧
    (∃ s2, get_task_status Adav 1 s' = Done RPC_SRV_RESULT_TASK_ID_NOT_FOUND s2) ∧
    (∃ s2, get_task_status Adav 2 s' = Done RPC_SRV_RESULT_IN_PROG s2).
Proof.
  destruct (delete_removes_oldest_record service_run service_run_keeps 0 1 before_delete 0 2 1%positive drop_task []
    {[ 1%positive := OTask drop_task ]} 1%positive kept_rec [(2%positive, drop_rec_of)]
    {[ 1%positive := kept_rec; 2%positive := drop_rec_of ]} before_delete_work before_delete_inprog
    ltac:(repeat constructor; vm_compute; set_solver) ltac:(discriminate)) as (s' & Hrun & Hnf & Hip).
  exists s'. split; [exact Hrun|split; [exact Hnf|]].
  apply (Hip 2%positive drop_rec_of); [apply list_elem_of_singleton; reflexivity|reflexivity].
Defined.
