(* ===== verification/Lang.v ===== *)
(** * Languages

    Sets of texts, with the combinators of grammars and their derivatives:
    what is left of a text after its first character.  A recogniser is compared
    with a grammar one character at a time. *)

From Stdlib Require Import ZArith Lia Ascii String.
From stdpp Require Import base list gmap strings.
From S2P Require Import Prelude CString.

Definition lang : Type := cstr → Prop.
Declare Scope lang_scope.
Delimit Scope lang_scope with lang.
Bind Scope lang_scope with lang.

(** Two languages are the same when they have the same texts. *)
#[export] Instance lang_equiv : Equiv lang := λ L M, ∀ s, L s ↔ M s.
#[export] Instance lang_equivalence : Equivalence (≡@{lang}).
Proof.
  split; [done|intros L M H s; symmetry; apply H|intros L M N H1 H2 s; by rewrite (H1 s), (H2 s)].
Qed.

Definition none : lang := λ _, False.
Definition eps : lang := λ s, s = [].
(** One character of a kind. *)
Definition one (p : ascii → bool) : lang := λ s, ∃ c, s = [c] ∧ p c = true.
Definition cat (L M : lang) : lang := λ s, ∃ a b, s = a ++ b ∧ L a ∧ M b.
#[export] Instance lang_union : Union lang := λ L M s, L s ∨ M s.
Inductive star (L : lang) : lang :=
  | star_nil : star L []
  | star_app a b : L a → star L b → star L (a ++ b).
Notation "L ⋅ M" := (cat L M) (at level 39, right associativity) : lang_scope.
Open Scope lang_scope.

Definition is_char (x : Z) : ascii → bool := λ c, code c =? x.

#[export] Instance cat_proper : Proper ((≡) ==> (≡) ==> (≡)) cat.
Proof.
  intros L L' HL M M' HM s. split; intros (a & b & -> & Ha & Hb); exists a, b;
    (split; [done|split; [by apply HL|by apply HM]]).
Qed.
#[export] Instance union_lang_proper : Proper ((≡) ==> (≡) ==> (≡@{lang})) (∪).
Proof. intros L L' HL M M' HM s. unfold union, lang_union. by rewrite (HL s), (HM s). Qed.
#[export] Instance member_proper : Proper ((≡@{lang}) ==> eq ==> iff) (λ L s, L s).
Proof. intros L L' HL s ? <-. apply HL. Qed.

(** ** Equations *)
Lemma cat_assoc L M N : (L ⋅ M) ⋅ N ≡ L ⋅ M ⋅ N.
Proof.
  intros s. split.
  - intros (? & c & -> & (a & b & -> & Ha & Hb) & Hc). exists a, (b ++ c). rewrite app_assoc.
    split_and!; [done..|]. by exists b, c.
  - intros (a & ? & -> & Ha & (b & c & -> & Hb & Hc)). exists (a ++ b), c. rewrite app_assoc.
    split_and!; [done|by exists a, b|done].
Qed.
Lemma cat_eps_l L : eps ⋅ L ≡ L.
Proof. intros s. split; [by intros (a & b & -> & -> & Hb)|]. intros Hs. by exists [], s. Qed.
Lemma cat_eps_r L : L ⋅ eps ≡ L.
Proof.
  intros s. split; [intros (a & b & -> & Ha & ->); by rewrite app_nil_r|]. intros Hs. exists s, []. by rewrite app_nil_r.
Qed.
Lemma cat_union_l L M N : (L ∪ M) ⋅ N ≡ L ⋅ N ∪ M ⋅ N.
Proof.
  intros s. split.
  - intros (a & b & -> & [Ha|Ha] & Hb); [left|right]; by exists a, b.
  - intros [(a & b & -> & Ha & Hb)|(a & b & -> & Ha & Hb)]; exists a, b; split_and!; try done; [by left|by right].
Qed.
Lemma cat_union_r L M N : L ⋅ (M ∪ N) ≡ L ⋅ M ∪ L ⋅ N.
Proof.
  intros s. split.
  - intros (a & b & -> & Ha & [Hb|Hb]); [left|right]; by exists a, b.
  - intros [(a & b & -> & Ha & Hb)|(a & b & -> & Ha & Hb)]; exists a, b; split_and!; try done; [by left|by right].
Qed.
Lemma cat_none_l L : none ⋅ L ≡ none.
Proof. intros s. split; [by intros (? & ? & _ & [] & _)|done]. Qed.
Lemma star_unfold L : star L ≡ eps ∪ L ⋅ star L.
Proof.
  intros s. split.
  - destruct 1 as [|a b Ha Hb]; [by left|right; by exists a, b].
  - intros [->|(a & b & -> & Ha & Hb)]; [constructor|by constructor].
Qed.
Lemma star_star L : star L ⋅ star L ≡ star L.
Proof.
  intros s. split.
  - intros (a & b & -> & Ha & Hb). induction Ha as [|a a' ? _ IH]; [done|]. rewrite <-app_assoc. by constructor.
  - intros Hs. exists [], s. split_and!; [done|constructor|done].
Qed.
(** ** The first character
    What a language says of the empty text and of a text with a first
    character, for the combinations that occur. *)
Lemma in_union L M s : (L ∪ M) s ↔ L s ∨ M s.
Proof. done. Qed.
Lemma in_cat_assoc L M N s : ((L ⋅ M) ⋅ N) s ↔ (L ⋅ M ⋅ N) s.
Proof. apply cat_assoc. Qed.
Lemma in_cat_eps L s : (eps ⋅ L) s ↔ L s.
Proof. apply cat_eps_l. Qed.
Lemma in_cat_union L M N s : ((L ∪ M) ⋅ N) s ↔ (L ⋅ N) s ∨ (M ⋅ N) s.
Proof. apply cat_union_l. Qed.
Lemma one_cons p L c s : (one p ⋅ L) (c :: s) ↔ p c = true ∧ L s.
Proof.
  split.
  - intros (a & b & E & (x & -> & Hp) & Hb). injection E as <- <-. done.
  - intros [Hp Hs]. exists [c], s. split_and!; [done|by exists c|done].
Qed.
Lemma one_nil p L : ¬ (one p ⋅ L) [].
Proof. by intros (a & b & E & (x & -> & _) & _). Qed.
Lemma star_one_cons p L c s : (star (one p) ⋅ L) (c :: s) ↔ (p c = true ∧ (star (one p) ⋅ L) s) ∨ L (c :: s).
Proof.
  assert (H := cat_proper _ _ (star_unfold (one p)) L L (reflexivity L) (c :: s)). rewrite H.
  rewrite in_cat_union, in_cat_eps, in_cat_assoc, one_cons. tauto.
Qed.
Lemma star_cat_nil L M : (star L ⋅ M) [] ↔ M [].
Proof.
  split.
  - intros (a & b & E & _ & Hb). destruct a, b; try done.
  - intros H. exists [], []. split_and!; [done|constructor|done].
Qed.

(** A text followed by more. *)
Lemma in_cat L M a b : L a → M b → (L ⋅ M) (a ++ b).
Proof. intros Ha Hb. by exists a, b. Qed.

(** Rewriting a language before another one. *)
Lemma cat_cong_l L L' M s : L ≡ L' → (L ⋅ M) s ↔ (L' ⋅ M) s.
Proof. intros H. by apply cat_proper. Qed.

Lemma eqv {L M : lang} : L ≡ M → ∀ s, L s ↔ M s.
Proof. done. Qed.
Lemma ws_union_cons p L M c s :
  (star (one p) ⋅ (L ∪ M)) (c :: s) ↔ (p c = true ∧ (star (one p) ⋅ (L ∪ M)) s) ∨ L (c :: s) ∨ M (c :: s).
Proof. by rewrite star_one_cons, in_union. Qed.
Lemma cat_nil L M : (L ⋅ M) [] ↔ L [] ∧ M [].
Proof.
  split; [|by intros [H1 H2]; exists [], []]. intros (a & b & E & Ha & Hb). by destruct a, b.
Qed.
Lemma one_no_nil p : ¬ one p [].
Proof. by intros (c & ? & _). Qed.
