(* ===== verification/JsonGrammar.v ===== *)
(** * A grammar of JSON texts

    What the checker of [JsonChecker] is compared with.  The grammar takes the
    language of numbers as a parameter: [json_number] is the one of RFC 8259,
    [checker_number] the one that [ADJsonChecker.cpp] has.  A text is indexed by
    how deep its arrays and objects may be nested. *)

From Stdlib Require Import ZArith Lia Ascii String.
From stdpp Require Import base list gmap strings.
From S2P Require Import Prelude CString Lang.

Definition is_ws (c : ascii) : bool := is_char 32 c || is_char 9 c || is_char 10 c || is_char 13 c.
Definition is_dec (c : ascii) : bool := (48 <=? code c) && (code c <=? 57).
Definition is_dec19 (c : ascii) : bool := (49 <=? code c) && (code c <=? 57).
Definition is_hex (c : ascii) : bool :=
  is_dec c || ((65 <=? code c) && (code c <=? 70)) || ((97 <=? code c) && (code c <=? 102)).
Definition is_e (c : ascii) : bool := is_char 101 c || is_char 69 c.
Definition is_sign (c : ascii) : bool := is_char 43 c || is_char 45 c.
(** The characters of a string that stand for themselves. *)
Definition is_plain (c : ascii) : bool := (32 <=? code c) && negb (is_char 34 c) && negb (is_char 92 c).
(** What may follow a backslash, apart from [u]: a quote, a
    backslash, a slash, or one of bfnrt. *)
Definition is_escaped (c : ascii) : bool :=
  is_char 34 c || is_char 92 c || is_char 47 c || is_char 98 c || is_char 102 c || is_char 110 c || is_char 114 c || is_char 116 c.

Definition ws : lang := star (one is_ws).
Definition decs : lang := star (one is_dec).

(** Strings; a string body ends with the closing quote. *)
Definition hex4 : lang := one is_hex ⋅ one is_hex ⋅ one is_hex ⋅ one is_hex.
Definition escape : lang := one is_escaped ∪ one (is_char 117) ⋅ hex4.
Definition string_char : lang := one is_plain ∪ one (is_char 92) ⋅ escape.
Definition string_body : lang := star string_char ⋅ one (is_char 34).
Definition json_string : lang := one (is_char 34) ⋅ string_body.

(** Numbers. *)
Definition exp_digits : lang := one is_dec ⋅ decs.
Definition exp_rest : lang := (eps ∪ one is_sign) ⋅ exp_digits.
Definition exponent : lang := one is_e ⋅ exp_rest.
Definition fraction_exponent : lang := (eps ∪ one (is_char 46) ⋅ one is_dec ⋅ decs) ⋅ (eps ∪ exponent).
Definition json_number : lang :=
  (eps ∪ one (is_char 45)) ⋅ (one (is_char 48) ∪ one is_dec19 ⋅ decs) ⋅ fraction_exponent.

(** The checker allows a fraction without digits, and no exponent right after a
    single zero. *)
Definition frac_rest : lang := decs ⋅ (eps ∪ exponent).
Definition zero_rest : lang := eps ∪ one (is_char 46) ⋅ frac_rest.
Definition int_rest : lang := decs ⋅ (eps ∪ one (is_char 46) ⋅ frac_rest ∪ exponent).
Definition unsigned_number : lang := one (is_char 48) ⋅ zero_rest ∪ one is_dec19 ⋅ int_rest.
Definition checker_number : lang := (eps ∪ one (is_char 45)) ⋅ unsigned_number.

(** A word, character by character. *)
Fixpoint word (s : cstr) : lang := match s with [] => eps | c :: s => one (is_char (code c)) ⋅ word s end.

Section grammar.
Variable number : lang.

Inductive value : nat → lang :=
  | value_string n s : json_string s → value n s
  | value_number n s : number s → value n s
  | value_true n s : word (str "true") s → value n s
  | value_false n s : word (str "false") s → value n s
  | value_null n s : word (str "null") s → value n s
  | value_array n s : arr_body n s → value (S n) (char 91 :: s)
  | value_object n s : obj_body n s → value (S n) (char 123 :: s)
(** An array after its bracket, and after one of its elements. *)
with arr_body : nat → lang :=
  | arr_empty n w : ws w → arr_body n (w ++ [char 93])
  | arr_full n w v t : ws w → value n v → arr_tail n t → arr_body n (w ++ v ++ t)
with arr_tail : nat → lang :=
  | arr_end n w : ws w → arr_tail n (w ++ [char 93])
  | arr_next n w w' v t : ws w → ws w' → value n v → arr_tail n t → arr_tail n (w ++ [char 44] ++ w' ++ v ++ t)
(** An object after its brace, and after one of its members. *)
with obj_body : nat → lang :=
  | obj_empty n w : ws w → obj_body n (w ++ [char 125])
  | obj_full n s : members n s → obj_body n s
with members : nat → lang :=
  | member n w k w1 w2 v t : ws w → json_string k → ws w1 → ws w2 → value n v → obj_tail n t →
      members n (w ++ k ++ w1 ++ [char 58] ++ w2 ++ v ++ t)
with obj_tail : nat → lang :=
  | obj_end n w : ws w → obj_tail n (w ++ [char 125])
  | obj_next n w t : ws w → members n t → obj_tail n (w ++ [char 44] ++ t).

(** A text is an array or an object. *)
Definition compound (n : nat) : lang :=
  match n with O => none | S n => one (is_char 91) ⋅ arr_body n ∪ one (is_char 123) ⋅ obj_body n end.
Definition json_text (n : nat) : lang := ws ⋅ compound n ⋅ ws.

(** ** The grammar as equations *)
Lemma one_char z L s : 0 ≤ z < 256 → (one (is_char z) ⋅ L) s ↔ ∃ t, s = char z :: t ∧ L t.
Proof.
  intros Hz. split.
  - intros (a & b & -> & (c & -> & Hc) & Hb). exists b. split; [|done]. apply Z.eqb_eq in Hc. rewrite <-Hc. by rewrite char_code.
  - intros (t & -> & Ht). apply one_cons. split; [|done]. unfold is_char. by rewrite code_char, Z.eqb_refl.
Qed.
Lemma one_char_end z : 0 ≤ z < 256 → one (is_char z) [char z].
Proof. intros Hz. exists (char z). split; [done|]. unfold is_char. by rewrite code_char, Z.eqb_refl. Qed.
Lemma one_char_inv z s : 0 ≤ z < 256 → one (is_char z) s → s = [char z].
Proof. intros Hz (c & -> & Hc). apply Z.eqb_eq in Hc. rewrite <-Hc. by rewrite char_code. Qed.

Lemma value_eq n : value n ≡
  json_string ∪ number ∪ word (str "true") ∪ word (str "false") ∪ word (str "null") ∪ compound n.
Proof.
  intros s. rewrite !in_union. split.
  - destruct 1 as [| | | | |n s Hs|n s Hs]; try tauto; right; [left|right]; apply one_char; (lia || by exists s).
  - intros [[[[[H|H]|H]|H]|H]|H]; [by constructor..|]. destruct n as [|n]; [done|].
    destruct H as [H|H]; apply one_char in H as (t & -> & Ht); try lia; by constructor.
Qed.

Lemma arr_body_eq n : arr_body n ≡ ws ⋅ (one (is_char 93) ∪ value n ⋅ arr_tail n).
Proof.
  intros s. split.
  - destruct 1 as [n w Hw|n w v t Hw Hv Ht]; apply in_cat; try done; [left; by apply one_char_end|right; by apply in_cat].
  - intros (w & b & -> & Hw & [Hb|(v & t & -> & Hv & Ht)]); [apply one_char_inv in Hb as ->; [by constructor|lia]|by constructor].
Qed.
Lemma arr_tail_eq n : arr_tail n ≡ ws ⋅ (one (is_char 93) ∪ one (is_char 44) ⋅ ws ⋅ value n ⋅ arr_tail n).
Proof.
  intros s. split.
  - destruct 1 as [n w Hw|n w w' v t Hw Hw' Hv Ht]; apply in_cat; try done; [left; by apply one_char_end|right].
    apply in_cat; [by apply one_char_end|]. by repeat apply in_cat.
  - intros (w & b & -> & Hw & [Hb|(d & b' & -> & Hd & (w' & b'' & -> & Hw' & (v & t & -> & Hv & Ht)))]).
    + apply one_char_inv in Hb as ->; [by constructor|lia].
    + apply one_char_inv in Hd as ->; [by constructor|lia].
Qed.
Lemma members_eq n : members n ≡ ws ⋅ json_string ⋅ ws ⋅ one (is_char 58) ⋅ ws ⋅ value n ⋅ obj_tail n.
Proof.
  intros s. split.
  - destruct 1 as [n w k w1 w2 v t Hw Hk Hw1 Hw2 Hv Ht]. do 3 (apply in_cat; [done|]). apply in_cat; [by apply one_char_end|]. by repeat apply in_cat.
  - intros (w & ? & -> & Hw & (k & ? & -> & Hk & (w1 & ? & -> & Hw1 & (d & ? & -> & Hd & (w2 & ? & -> & Hw2 & (v & t & -> & Hv & Ht)))))).
    apply one_char_inv in Hd as ->; [by constructor|lia].
Qed.
Lemma obj_body_eq n : obj_body n ≡ ws ⋅ (one (is_char 125) ∪ json_string ⋅ ws ⋅ one (is_char 58) ⋅ ws ⋅ value n ⋅ obj_tail n).
Proof.
  rewrite cat_union_r, <-members_eq. intros s. split.
  - destruct 1 as [n w Hw|n s Hs]; [left; by apply in_cat; [|apply one_char_end]|by right].
  - intros [(w & b & -> & Hw & Hb)|Hs]; [apply one_char_inv in Hb as ->; [by constructor|lia]|by constructor].
Qed.
Lemma obj_tail_eq n : obj_tail n ≡ ws ⋅ (one (is_char 125) ∪ one (is_char 44) ⋅ members n).
Proof.
  intros s. split.
  - destruct 1 as [n w Hw|n w t Hw Ht]; apply in_cat; try done; [left; by apply one_char_end|right].
    by apply in_cat; [apply one_char_end|].
  - intros (w & b & -> & Hw & [Hb|(d & t & -> & Hd & Ht)]).
    + apply one_char_inv in Hb as ->; [by constructor|lia].
    + apply one_char_inv in Hd as ->; [by constructor|lia].
Qed.

(** The same, with more after it, and associated to the right. *)
Lemma value_cat n K : value n ⋅ K ≡
  one (is_char 34) ⋅ string_body ⋅ K ∪ number ⋅ K ∪ word (str "true") ⋅ K ∪ word (str "false") ⋅ K ∪ word (str "null") ⋅ K ∪ compound n ⋅ K.
Proof. rewrite value_eq, !cat_union_l. unfold json_string. by rewrite cat_assoc. Qed.
Lemma arr_body_cat n K : arr_body n ⋅ K ≡ ws ⋅ (one (is_char 93) ⋅ K ∪ value n ⋅ arr_tail n ⋅ K).
Proof. by rewrite arr_body_eq, !cat_assoc, cat_union_l, !cat_assoc. Qed.
Lemma arr_tail_cat n K : arr_tail n ⋅ K ≡ ws ⋅ (one (is_char 93) ⋅ K ∪ one (is_char 44) ⋅ ws ⋅ value n ⋅ arr_tail n ⋅ K).
Proof. by rewrite arr_tail_eq at 1; rewrite !cat_assoc, cat_union_l, !cat_assoc. Qed.
Lemma members_cat n K : members n ⋅ K ≡
  ws ⋅ one (is_char 34) ⋅ string_body ⋅ ws ⋅ one (is_char 58) ⋅ ws ⋅ value n ⋅ obj_tail n ⋅ K.
Proof. rewrite members_eq. unfold json_string. by rewrite !cat_assoc. Qed.
Lemma obj_body_cat n K : obj_body n ⋅ K ≡
  ws ⋅ (one (is_char 125) ⋅ K ∪ one (is_char 34) ⋅ string_body ⋅ ws ⋅ one (is_char 58) ⋅ ws ⋅ value n ⋅ obj_tail n ⋅ K).
Proof. rewrite obj_body_eq. unfold json_string. by rewrite !cat_assoc, cat_union_l, !cat_assoc. Qed.
Lemma obj_tail_cat n K : obj_tail n ⋅ K ≡ ws ⋅ (one (is_char 125) ⋅ K ∪ one (is_char 44) ⋅ members n ⋅ K).
Proof. by rewrite obj_tail_eq, !cat_assoc, cat_union_l, !cat_assoc. Qed.

(** And by their first character. *)
Lemma value_cons n K c s : (value n ⋅ K) (c :: s) ↔
  (is_char 34 c = true ∧ (string_body ⋅ K) s) ∨ (number ⋅ K) (c :: s) ∨ (word (str "true") ⋅ K) (c :: s) ∨
  (word (str "false") ⋅ K) (c :: s) ∨ (word (str "null") ⋅ K) (c :: s) ∨ (compound n ⋅ K) (c :: s).
Proof. rewrite (eqv (value_cat n K)), !in_union, one_cons. tauto. Qed.
Lemma compound_cons n K c s : (compound (S n) ⋅ K) (c :: s) ↔
  (is_char 91 c = true ∧ (arr_body n ⋅ K) s) ∨ (is_char 123 c = true ∧ (obj_body n ⋅ K) s).
Proof. cbn [compound]. by rewrite in_cat_union, !in_cat_assoc, !one_cons. Qed.
Lemma arr_body_cons n K c s : (arr_body n ⋅ K) (c :: s) ↔
  (is_ws c = true ∧ (arr_body n ⋅ K) s) ∨ (is_char 93 c = true ∧ K s) ∨ (value n ⋅ arr_tail n ⋅ K) (c :: s).
Proof. rewrite !(eqv (arr_body_cat n K)). unfold ws. by rewrite ws_union_cons, one_cons. Qed.
Lemma arr_tail_cons n K c s : (arr_tail n ⋅ K) (c :: s) ↔
  (is_ws c = true ∧ (arr_tail n ⋅ K) s) ∨ (is_char 93 c = true ∧ K s) ∨
  (is_char 44 c = true ∧ (ws ⋅ value n ⋅ arr_tail n ⋅ K) s).
Proof. rewrite (eqv (arr_tail_cat n K) (c :: s)), (eqv (arr_tail_cat n K) s). unfold ws at 1 3. by rewrite ws_union_cons, !one_cons. Qed.
Lemma members_cons n K c s : (members n ⋅ K) (c :: s) ↔
  (is_ws c = true ∧ (members n ⋅ K) s) ∨
  (is_char 34 c = true ∧ (string_body ⋅ ws ⋅ one (is_char 58) ⋅ ws ⋅ value n ⋅ obj_tail n ⋅ K) s).
Proof. rewrite !(eqv (members_cat n K)). unfold ws at 1 4. by rewrite star_one_cons, one_cons. Qed.
Lemma obj_body_cons n K c s : (obj_body n ⋅ K) (c :: s) ↔
  (is_ws c = true ∧ (obj_body n ⋅ K) s) ∨ (is_char 125 c = true ∧ K s) ∨
  (is_char 34 c = true ∧ (string_body ⋅ ws ⋅ one (is_char 58) ⋅ ws ⋅ value n ⋅ obj_tail n ⋅ K) s).
Proof. rewrite !(eqv (obj_body_cat n K)). unfold ws at 1 4. by rewrite ws_union_cons, !one_cons. Qed.
Lemma obj_tail_cons n K c s : (obj_tail n ⋅ K) (c :: s) ↔
  (is_ws c = true ∧ (obj_tail n ⋅ K) s) ∨ (is_char 125 c = true ∧ K s) ∨ (is_char 44 c = true ∧ (members n ⋅ K) s).
Proof. rewrite !(eqv (obj_tail_cat n K)). unfold ws. by rewrite ws_union_cons, !one_cons. Qed.
End grammar.

(** Strings and numbers, likewise. *)
Lemma string_body_cat K : string_body ⋅ K ≡
  one (is_char 34) ⋅ K ∪ one is_plain ⋅ string_body ⋅ K ∪ one (is_char 92) ⋅ escape ⋅ string_body ⋅ K.
Proof.
  assert (H : string_body ≡ one (is_char 34) ∪ one is_plain ⋅ string_body ∪ one (is_char 92) ⋅ escape ⋅ string_body).
  { unfold string_body at 1. rewrite star_unfold, cat_union_l, cat_eps_l, cat_assoc. fold string_body.
    unfold string_char. rewrite cat_union_l, cat_assoc. intros s. rewrite !in_union. tauto. }
  by rewrite H at 1; rewrite !cat_union_l, !cat_assoc.
Qed.
Lemma escape_cat K : escape ⋅ K ≡ one is_escaped ⋅ K ∪ one (is_char 117) ⋅ one is_hex ⋅ one is_hex ⋅ one is_hex ⋅ one is_hex ⋅ K.
Proof. unfold escape, hex4. by rewrite cat_union_l, !cat_assoc. Qed.
Lemma checker_number_cat K : checker_number ⋅ K ≡ unsigned_number ⋅ K ∪ one (is_char 45) ⋅ unsigned_number ⋅ K.
Proof. unfold checker_number. by rewrite !cat_union_l, cat_eps_l, !cat_assoc. Qed.
Lemma unsigned_cat K : unsigned_number ⋅ K ≡ one (is_char 48) ⋅ zero_rest ⋅ K ∪ one is_dec19 ⋅ int_rest ⋅ K.
Proof. unfold unsigned_number. by rewrite cat_union_l, !cat_assoc. Qed.
Lemma zero_rest_cat K : zero_rest ⋅ K ≡ K ∪ one (is_char 46) ⋅ frac_rest ⋅ K.
Proof. unfold zero_rest. by rewrite cat_union_l, cat_eps_l, !cat_assoc. Qed.
Lemma decs_cat K : decs ⋅ K ≡ K ∪ one is_dec ⋅ decs ⋅ K.
Proof. unfold decs at 1. by rewrite star_unfold, cat_union_l, cat_eps_l, cat_assoc. Qed.
Lemma exponent_cat K : exponent ⋅ K ≡ one is_e ⋅ exp_rest ⋅ K.
Proof. unfold exponent. by rewrite cat_assoc. Qed.
Lemma frac_rest_cat K : frac_rest ⋅ K ≡ one is_dec ⋅ frac_rest ⋅ K ∪ K ∪ one is_e ⋅ exp_rest ⋅ K.
Proof.
  unfold frac_rest at 1. rewrite cat_assoc, decs_cat, cat_union_l, cat_eps_l, exponent_cat.
  unfold frac_rest. rewrite cat_assoc, cat_union_l, cat_eps_l, exponent_cat. intros s. rewrite !in_union. tauto.
Qed.
Lemma int_rest_cat K : int_rest ⋅ K ≡
  one is_dec ⋅ int_rest ⋅ K ∪ K ∪ one (is_char 46) ⋅ frac_rest ⋅ K ∪ one is_e ⋅ exp_rest ⋅ K.
Proof.
  unfold int_rest at 1. rewrite cat_assoc, decs_cat, !cat_union_l, cat_eps_l, exponent_cat, cat_assoc.
  unfold int_rest. rewrite cat_assoc, !cat_union_l, cat_eps_l, exponent_cat, cat_assoc. intros s. rewrite !in_union. tauto.
Qed.
Lemma exp_digits_cat K : exp_digits ⋅ K ≡ one is_dec ⋅ decs ⋅ K.
Proof. unfold exp_digits. by rewrite cat_assoc. Qed.
Lemma exp_rest_cat K : exp_rest ⋅ K ≡ one is_dec ⋅ decs ⋅ K ∪ one is_sign ⋅ exp_digits ⋅ K.
Proof. unfold exp_rest. by rewrite cat_assoc, cat_union_l, cat_eps_l, exp_digits_cat. Qed.

Lemma ws_cons K c s : (ws ⋅ K) (c :: s) ↔ (is_ws c = true ∧ (ws ⋅ K) s) ∨ K (c :: s).
Proof. apply star_one_cons. Qed.
Lemma ws_end_cons c s : ws (c :: s) ↔ is_ws c = true ∧ ws s.
Proof.
  rewrite <-(eqv (cat_eps_r ws) (c :: s)), <-(eqv (cat_eps_r ws) s), ws_cons.
  split; [by intros [?|?]|by left].
Qed.
Lemma word_cons x w K c s : (word (x :: w) ⋅ K) (c :: s) ↔ is_char (code x) c = true ∧ (word w ⋅ K) s.
Proof. cbn [word]. by rewrite in_cat_assoc, one_cons. Qed.
Lemma string_body_cons K c s : (string_body ⋅ K) (c :: s) ↔ (is_char 34 c = true ∧ K s) ∨
  (is_plain c = true ∧ (string_body ⋅ K) s) ∨ (is_char 92 c = true ∧ (escape ⋅ string_body ⋅ K) s).
Proof. rewrite (eqv (string_body_cat K) (c :: s)), !in_union, !one_cons. tauto. Qed.
Lemma escape_cons K c s : (escape ⋅ K) (c :: s) ↔ (is_escaped c = true ∧ K s) ∨
  (is_char 117 c = true ∧ (one is_hex ⋅ one is_hex ⋅ one is_hex ⋅ one is_hex ⋅ K) s).
Proof. by rewrite (eqv (escape_cat K) (c :: s)), !in_union, !one_cons. Qed.
Lemma unsigned_cons K c s : (unsigned_number ⋅ K) (c :: s) ↔
  (is_char 48 c = true ∧ (zero_rest ⋅ K) s) ∨ (is_dec19 c = true ∧ (int_rest ⋅ K) s).
Proof. by rewrite (eqv (unsigned_cat K) (c :: s)), !in_union, !one_cons. Qed.
Lemma checker_number_cons K c s : (checker_number ⋅ K) (c :: s) ↔
  (is_char 48 c = true ∧ (zero_rest ⋅ K) s) ∨ (is_dec19 c = true ∧ (int_rest ⋅ K) s) ∨
  (is_char 45 c = true ∧ (unsigned_number ⋅ K) s).
Proof. rewrite (eqv (checker_number_cat K) (c :: s)), in_union, one_cons, unsigned_cons. tauto. Qed.
Lemma zero_rest_cons K c s : (zero_rest ⋅ K) (c :: s) ↔ K (c :: s) ∨ (is_char 46 c = true ∧ (frac_rest ⋅ K) s).
Proof. by rewrite (eqv (zero_rest_cat K) (c :: s)), in_union, one_cons. Qed.
Lemma decs_cons K c s : (decs ⋅ K) (c :: s) ↔ K (c :: s) ∨ (is_dec c = true ∧ (decs ⋅ K) s).
Proof. by rewrite (eqv (decs_cat K) (c :: s)), in_union, one_cons. Qed.
Lemma frac_rest_cons K c s : (frac_rest ⋅ K) (c :: s) ↔
  K (c :: s) ∨ (is_dec c = true ∧ (frac_rest ⋅ K) s) ∨ (is_e c = true ∧ (exp_rest ⋅ K) s).
Proof. rewrite (eqv (frac_rest_cat K) (c :: s)), !in_union, !one_cons. tauto. Qed.
Lemma int_rest_cons K c s : (int_rest ⋅ K) (c :: s) ↔ K (c :: s) ∨ (is_dec c = true ∧ (int_rest ⋅ K) s) ∨
  (is_char 46 c = true ∧ (frac_rest ⋅ K) s) ∨ (is_e c = true ∧ (exp_rest ⋅ K) s).
Proof. rewrite (eqv (int_rest_cat K) (c :: s)), !in_union, !one_cons. tauto. Qed.
Lemma exp_digits_cons K c s : (exp_digits ⋅ K) (c :: s) ↔ is_dec c = true ∧ (decs ⋅ K) s.
Proof. by rewrite (eqv (exp_digits_cat K) (c :: s)), one_cons. Qed.
Lemma exp_rest_cons K c s : (exp_rest ⋅ K) (c :: s) ↔
  (is_dec c = true ∧ (decs ⋅ K) s) ∨ (is_sign c = true ∧ (exp_digits ⋅ K) s).
Proof. by rewrite (eqv (exp_rest_cat K) (c :: s)), in_union, !one_cons. Qed.
Lemma fraction_exponent_cons K c s : (fraction_exponent ⋅ K) (c :: s) ↔
  (is_char 46 c = true ∧ (one is_dec ⋅ decs ⋅ (eps ∪ exponent) ⋅ K) s) ∨ K (c :: s) ∨ (is_e c = true ∧ (exp_rest ⋅ K) s).
Proof.
  unfold fraction_exponent. rewrite in_cat_assoc, in_cat_union, in_cat_eps, in_cat_union, in_cat_eps, !in_cat_assoc, !one_cons.
  rewrite (eqv (exponent_cat K)), one_cons. rewrite (eqv (cat_assoc (one is_dec) decs _) s). tauto.
Qed.
Lemma json_number_cons K c s : (json_number ⋅ K) (c :: s) ↔
  (is_char 48 c = true ∧ (fraction_exponent ⋅ K) s) ∨ (is_dec19 c = true ∧ (decs ⋅ fraction_exponent ⋅ K) s) ∨
  (is_char 45 c = true ∧ ((one (is_char 48) ∪ one is_dec19 ⋅ decs) ⋅ fraction_exponent ⋅ K) s).
Proof.
  unfold json_number. rewrite in_cat_assoc, in_cat_union, in_cat_eps, one_cons, in_cat_assoc, in_cat_union, in_cat_assoc, !one_cons.
  rewrite (eqv (cat_assoc (one (is_char 48) ∪ one is_dec19 ⋅ decs) _ _) s). tauto.
Qed.

#[export] Hint Rewrite one_cons word_cons string_body_cons escape_cons unsigned_cons checker_number_cons zero_rest_cons decs_cons
  frac_rest_cons int_rest_cons exp_digits_cons exp_rest_cons : first_char.
Lemma word_nil K s : (word [] ⋅ K) s ↔ K s.
Proof. apply in_cat_eps. Qed.
#[export] Hint Rewrite word_nil : first_char.
