(* ===== verification/JsonChecker.v ===== *)
(** * The JSON checker of the services

    [src/sources/lib/lib-adav-old/src/ADJsonChecker.cpp], a pushdown automaton
    that looks at a text one character at a time, and its use by
    [ADJsonRpcProxy::json_checker_function] on the requests that clients send.
    The specification is the grammar of [JsonGrammar]; [JsonProofs] proves that the automaton
    accepts exactly its texts. *)

From Stdlib Require Import ZArith Lia Ascii String.
From stdpp Require Import base list gmap strings.
From S2P Require Import Prelude CString Lang.

(** ** The tables *)
Inductive classes :=
  | C_SPACE | C_WHITE | C_LCURB | C_RCURB | C_LSQRB | C_RSQRB | C_COLON | C_COMMA | C_QUOTE | C_BACKS
  | C_SLASH | C_PLUS | C_MINUS | C_POINT | C_ZERO | C_DIGIT | C_LOW_A | C_LOW_B | C_LOW_C | C_LOW_D
  | C_LOW_E | C_LOW_F | C_LOW_L | C_LOW_N | C_LOW_R | C_LOW_S | C_LOW_T | C_LOW_U | C_ABCDF | C_E
  | C_ETC.
Inductive states :=
  | GO | OK | OB | KE | CO | VA | AR | ST | ES | U1 | U2 | U3 | U4 | MI | ZE
  | IN | FR | E1 | E2 | E3 | T1 | T2 | T3 | F1 | F2 | F3 | F4 | N1 | N2 | N3.
Inductive modes := MODE_ARRAY | MODE_DONE | MODE_KEY | MODE_OBJECT.
#[export] Instance classes_eq_dec : EqDecision classes.
Proof. solve_decision. Defined.
#[export] Instance states_eq_dec : EqDecision states.
Proof. solve_decision. Defined.
#[export] Instance modes_eq_dec : EqDecision modes.
Proof. solve_decision. Defined.

(** The class of each ASCII character; [None] is the error code [__]. *)
Definition ascii_class : list (option classes) :=
  [None; None; None; None; None; None; None; None;
   None; Some C_WHITE; Some C_WHITE; None; None; Some C_WHITE; None; None;
   None; None; None; None; None; None; None; None;
   None; None; None; None; None; None; None; None;
   Some C_SPACE; Some C_ETC; Some C_QUOTE; Some C_ETC; Some C_ETC; Some C_ETC; Some C_ETC; Some C_ETC;
   Some C_ETC; Some C_ETC; Some C_ETC; Some C_PLUS; Some C_COMMA; Some C_MINUS; Some C_POINT; Some C_SLASH;
   Some C_ZERO; Some C_DIGIT; Some C_DIGIT; Some C_DIGIT; Some C_DIGIT; Some C_DIGIT; Some C_DIGIT; Some C_DIGIT;
   Some C_DIGIT; Some C_DIGIT; Some C_COLON; Some C_ETC; Some C_ETC; Some C_ETC; Some C_ETC; Some C_ETC;
   Some C_ETC; Some C_ABCDF; Some C_ABCDF; Some C_ABCDF; Some C_ABCDF; Some C_E; Some C_ABCDF; Some C_ETC;
   Some C_ETC; Some C_ETC; Some C_ETC; Some C_ETC; Some C_ETC; Some C_ETC; Some C_ETC; Some C_ETC;
   Some C_ETC; Some C_ETC; Some C_ETC; Some C_ETC; Some C_ETC; Some C_ETC; Some C_ETC; Some C_ETC;
   Some C_ETC; Some C_ETC; Some C_ETC; Some C_LSQRB; Some C_BACKS; Some C_RSQRB; Some C_ETC; Some C_ETC;
   Some C_ETC; Some C_LOW_A; Some C_LOW_B; Some C_LOW_C; Some C_LOW_D; Some C_LOW_E; Some C_LOW_F; Some C_ETC;
   Some C_ETC; Some C_ETC; Some C_ETC; Some C_ETC; Some C_LOW_L; Some C_ETC; Some C_LOW_N; Some C_ETC;
   Some C_ETC; Some C_ETC; Some C_LOW_R; Some C_LOW_S; Some C_LOW_T; Some C_LOW_U; Some C_ETC; Some C_ETC;
   Some C_ETC; Some C_ETC; Some C_ETC; Some C_LCURB; Some C_ETC; Some C_RCURB; Some C_ETC; Some C_ETC].

(** An entry of the table is a state, or the negative number of an action;
    [__] is [-1]. *)
Inductive entry := Goto (s : states) | Action (n : Z).
Coercion Goto : states >-> entry.
Coercion Action : Z >-> entry.
Definition __ : entry := -1.
(** A row of the table. *)
Notation "{{ x , .. , y }}" := (@cons entry x .. (@cons entry y (@nil entry)) ..).
Definition state_transition_table : list (list entry) := [
  (* GO *) {{GO, GO, -6, __, -5, __, __, __, __, __, __, __, __, __, __, __, __, __, __, __, __, __, __, __, __, __, __, __, __, __, __}};
  (* OK *) {{OK, OK, __, -8, __, -7, __, -3, __, __, __, __, __, __, __, __, __, __, __, __, __, __, __, __, __, __, __, __, __, __, __}};
  (* OB *) {{OB, OB, __, -9, __, __, __, __, ST, __, __, __, __, __, __, __, __, __, __, __, __, __, __, __, __, __, __, __, __, __, __}};
  (* KE *) {{KE, KE, __, __, __, __, __, __, ST, __, __, __, __, __, __, __, __, __, __, __, __, __, __, __, __, __, __, __, __, __, __}};
  (* CO *) {{CO, CO, __, __, __, __, -2, __, __, __, __, __, __, __, __, __, __, __, __, __, __, __, __, __, __, __, __, __, __, __, __}};
  (* VA *) {{VA, VA, -6, __, -5, __, __, __, ST, __, __, __, MI, __, ZE, IN, __, __, __, __, __, F1, __, N1, __, __, T1, __, __, __, __}};
  (* AR *) {{AR, AR, -6, __, -5, -7, __, __, ST, __, __, __, MI, __, ZE, IN, __, __, __, __, __, F1, __, N1, __, __, T1, __, __, __, __}};
  (* ST *) {{ST, __, ST, ST, ST, ST, ST, ST, -4, ES, ST, ST, ST, ST, ST, ST, ST, ST, ST, ST, ST, ST, ST, ST, ST, ST, ST, ST, ST, ST, ST}};
  (* ES *) {{__, __, __, __, __, __, __, __, ST, ST, ST, __, __, __, __, __, __, ST, __, __, __, ST, __, ST, ST, __, ST, U1, __, __, __}};
  (* U1 *) {{__, __, __, __, __, __, __, __, __, __, __, __, __, __, U2, U2, U2, U2, U2, U2, U2, U2, __, __, __, __, __, __, U2, U2, __}};
  (* U2 *) {{__, __, __, __, __, __, __, __, __, __, __, __, __, __, U3, U3, U3, U3, U3, U3, U3, U3, __, __, __, __, __, __, U3, U3, __}};
  (* U3 *) {{__, __, __, __, __, __, __, __, __, __, __, __, __, __, U4, U4, U4, U4, U4, U4, U4, U4, __, __, __, __, __, __, U4, U4, __}};
  (* U4 *) {{__, __, __, __, __, __, __, __, __, __, __, __, __, __, ST, ST, ST, ST, ST, ST, ST, ST, __, __, __, __, __, __, ST, ST, __}};
  (* MI *) {{__, __, __, __, __, __, __, __, __, __, __, __, __, __, ZE, IN, __, __, __, __, __, __, __, __, __, __, __, __, __, __, __}};
  (* ZE *) {{OK, OK, __, -8, __, -7, __, -3, __, __, __, __, __, FR, __, __, __, __, __, __, __, __, __, __, __, __, __, __, __, __, __}};
  (* IN *) {{OK, OK, __, -8, __, -7, __, -3, __, __, __, __, __, FR, IN, IN, __, __, __, __, E1, __, __, __, __, __, __, __, __, E1, __}};
  (* FR *) {{OK, OK, __, -8, __, -7, __, -3, __, __, __, __, __, __, FR, FR, __, __, __, __, E1, __, __, __, __, __, __, __, __, E1, __}};
  (* E1 *) {{__, __, __, __, __, __, __, __, __, __, __, E2, E2, __, E3, E3, __, __, __, __, __, __, __, __, __, __, __, __, __, __, __}};
  (* E2 *) {{__, __, __, __, __, __, __, __, __, __, __, __, __, __, E3, E3, __, __, __, __, __, __, __, __, __, __, __, __, __, __, __}};
  (* E3 *) {{OK, OK, __, -8, __, -7, __, -3, __, __, __, __, __, __, E3, E3, __, __, __, __, __, __, __, __, __, __, __, __, __, __, __}};
  (* T1 *) {{__, __, __, __, __, __, __, __, __, __, __, __, __, __, __, __, __, __, __, __, __, __, __, __, T2, __, __, __, __, __, __}};
  (* T2 *) {{__, __, __, __, __, __, __, __, __, __, __, __, __, __, __, __, __, __, __, __, __, __, __, __, __, __, __, T3, __, __, __}};
  (* T3 *) {{__, __, __, __, __, __, __, __, __, __, __, __, __, __, __, __, __, __, __, __, OK, __, __, __, __, __, __, __, __, __, __}};
  (* F1 *) {{__, __, __, __, __, __, __, __, __, __, __, __, __, __, __, __, F2, __, __, __, __, __, __, __, __, __, __, __, __, __, __}};
  (* F2 *) {{__, __, __, __, __, __, __, __, __, __, __, __, __, __, __, __, __, __, __, __, __, __, F3, __, __, __, __, __, __, __, __}};
  (* F3 *) {{__, __, __, __, __, __, __, __, __, __, __, __, __, __, __, __, __, __, __, __, __, __, __, __, __, F4, __, __, __, __, __}};
  (* F4 *) {{__, __, __, __, __, __, __, __, __, __, __, __, __, __, __, __, __, __, __, __, OK, __, __, __, __, __, __, __, __, __, __}};
  (* N1 *) {{__, __, __, __, __, __, __, __, __, __, __, __, __, __, __, __, __, __, __, __, __, __, __, __, __, __, __, N2, __, __, __}};
  (* N2 *) {{__, __, __, __, __, __, __, __, __, __, __, __, __, __, __, __, __, __, __, __, __, __, N3, __, __, __, __, __, __, __, __}};
  (* N3 *) {{__, __, __, __, __, __, __, __, __, __, __, __, __, __, __, __, __, __, __, __, __, __, OK, __, __, __, __, __, __, __, __}}
].

Definition class_index (c : classes) : nat :=
  match c with
  | C_SPACE => 0%nat | C_WHITE => 1%nat | C_LCURB => 2%nat | C_RCURB => 3%nat | C_LSQRB => 4%nat | C_RSQRB => 5%nat | C_COLON => 6%nat | C_COMMA => 7%nat
  | C_QUOTE => 8%nat | C_BACKS => 9%nat | C_SLASH => 10%nat | C_PLUS => 11%nat | C_MINUS => 12%nat | C_POINT => 13%nat | C_ZERO => 14%nat | C_DIGIT => 15%nat
  | C_LOW_A => 16%nat | C_LOW_B => 17%nat | C_LOW_C => 18%nat | C_LOW_D => 19%nat | C_LOW_E => 20%nat | C_LOW_F => 21%nat | C_LOW_L => 22%nat | C_LOW_N => 23%nat
  | C_LOW_R => 24%nat | C_LOW_S => 25%nat | C_LOW_T => 26%nat | C_LOW_U => 27%nat | C_ABCDF => 28%nat | C_E => 29%nat | C_ETC => 30%nat
  end.
Definition state_index (s : states) : nat :=
  match s with
  | GO => 0%nat | OK => 1%nat | OB => 2%nat | KE => 3%nat | CO => 4%nat | VA => 5%nat | AR => 6%nat | ST => 7%nat | ES => 8%nat | U1 => 9%nat
  | U2 => 10%nat | U3 => 11%nat | U4 => 12%nat | MI => 13%nat | ZE => 14%nat | IN => 15%nat | FR => 16%nat | E1 => 17%nat | E2 => 18%nat | E3 => 19%nat
  | T1 => 20%nat | T2 => 21%nat | T3 => 22%nat | F1 => 23%nat | F2 => 24%nat | F3 => 25%nat | F4 => 26%nat | N1 => 27%nat | N2 => 28%nat | N3 => 29%nat
  end.

(** ** The checker
    The object a checker is: [stack] is its array of [depth] modes, of which
    the elements up to [top] are in use. *)
Record JSON_checker := Checker { state : states; depth : Z; top : Z; stack : list modes }.
Definition set_state (s : states) (jc : JSON_checker) : JSON_checker := Checker s (depth jc) (top jc) (stack jc).
Definition set_top (t : Z) (jc : JSON_checker) : JSON_checker := Checker (state jc) (depth jc) t (stack jc).
Definition set_stack (l : list modes) (jc : JSON_checker) : JSON_checker := Checker (state jc) (depth jc) (top jc) l.

(** The heap holds the object, or nothing before it is made and after it is
    freed. *)
Definition deref : M (option JSON_checker) JSON_checker := h ← gets id; of_opt h.
Definition update (f : JSON_checker → JSON_checker) : M (option JSON_checker) unit := jc ← deref; modify (λ _, Some (f jc)).

Definition reject : M (option JSON_checker) bool := deref;; modify (λ _, None);; mret false.

Definition top_mode (jc : JSON_checker) : option modes := if 0 <=? top jc then stack jc !! Z.to_nat (top jc) else None.

Definition push (mode : modes) : M (option JSON_checker) bool :=
  update (λ jc, set_top (top jc + 1) jc);;
  jc ← deref;
  if depth jc <=? top jc then mret false
  else if (0 <=? top jc) && (top jc <? Z.of_nat (length (stack jc)))
  then update (set_stack (<[Z.to_nat (top jc) := mode]> (stack jc)));; mret true
  else oops.

Definition pop (mode : modes) : M (option JSON_checker) bool :=
  jc ← deref;
  if top jc <? 0 then mret false
  else
    m ← of_opt (top_mode jc);
    if decide (m = mode) then update (set_top (top jc - 1));; mret true else mret false.

(** [calloc] fills the stack with zeroes, which are [MODE_ARRAY]; memory is not
    checked for and taken to be there. *)
Definition new_JSON_checker (d : Z) : M (option JSON_checker) unit :=
  modify (λ _, Some (Checker GO d (-1) (replicate (Z.to_nat d) MODE_ARRAY)));;
  push MODE_DONE;;
  mret ().

Definition char_class (next_char : Z) : option classes :=
  if 128 <=? next_char then Some C_ETC else mjoin (ascii_class !! Z.to_nat next_char).
Definition next_entry (s : states) (c : classes) : option entry :=
  row ← state_transition_table !! state_index s; row !! class_index c.

(** The actions; [state] is what the action ends with. *)
Definition ok_or_reject (b : bool) (s : states) : M (option JSON_checker) bool :=
  if b then update (set_state s);; mret true else reject.
Definition flip (old new : modes) : M (option JSON_checker) bool := b ← pop old; if b : bool then push new else mret false.
Definition action (n : Z) : M (option JSON_checker) bool :=
  if n =? -9 then b ← pop MODE_KEY; ok_or_reject b OK
  else if n =? -8 then b ← pop MODE_OBJECT; ok_or_reject b OK
  else if n =? -7 then b ← pop MODE_ARRAY; ok_or_reject b OK
  else if n =? -6 then b ← push MODE_KEY; ok_or_reject b OB
  else if n =? -5 then b ← push MODE_ARRAY; ok_or_reject b AR
  else if n =? -4 then
    jc ← deref; m ← of_opt (top_mode jc);
    match m with
    | MODE_KEY => ok_or_reject true CO
    | MODE_ARRAY | MODE_OBJECT => ok_or_reject true OK
    | MODE_DONE => reject
    end
  else if n =? -3 then
    jc ← deref; m ← of_opt (top_mode jc);
    match m with
    | MODE_OBJECT => b ← flip MODE_OBJECT MODE_KEY; ok_or_reject b KE
    | MODE_ARRAY => ok_or_reject true VA
    | _ => reject
    end
  else if n =? -2 then b ← flip MODE_KEY MODE_OBJECT; ok_or_reject b VA
  else reject.

Definition JSON_checker_char (next_char : Z) : M (option JSON_checker) bool :=
  if next_char <? 0 then reject
  else
    match char_class next_char with
    | None => reject
    | Some next_class =>
        jc ← deref;
        next_state ← of_opt (next_entry (state jc) next_class);
        match next_state with
        | Goto s => update (set_state s);; mret true
        | Action n => action n
        end
    end.

Definition JSON_checker_done : M (option JSON_checker) bool :=
  jc ← deref;
  result ← (if decide (state jc = OK) then pop MODE_DONE else mret false);
  reject;;
  mret result.

(** ** [ADJsonRpcProxy::json_checker_function] *)
Section proxy.
(** Whether [char] is signed: it is on x86 and MIPS, and is not on ARM. *)
Variable char_signed : bool.
Definition char_value (c : ascii) : Z := if char_signed then (if code c <? 128 then code c else code c - 256) else code c.

(** [true] when the loop ended, [false] when a character was refused. *)
Fixpoint check_loop (s : cstr) : M (option JSON_checker) bool :=
  match s with
  | [] => mret true
  | c :: s =>
      if char_value c <=? 0 then mret true
      else b ← JSON_checker_char (char_value c); if b : bool then check_loop s else mret false
  end.
Definition CHECKER_DEPTH : Z := 20.
Definition json_checker_function (s : cstr) : M (option JSON_checker) Z :=
  new_JSON_checker CHECKER_DEPTH;;
  b ← check_loop s;
  if negb b then mret (-1)
  else b ← JSON_checker_done; if negb b then mret (-1) else mret 0.
End proxy.
