(* ===== verification/JsonMachine.v ===== *)
(** * The automaton of the JSON checker and its grammar

    The transition table of [JsonChecker] on states and stacks.  To each state
    and stack belongs a language, the ways to complete the text; one step of the
    automaton is one character of the languages.  [JsonProofs] goes from here to
    the C code. *)

From Stdlib Require Import ZArith Lia Ascii String.
From stdpp Require Import base list gmap strings.
From S2P Require Import Prelude CString Lang JsonGrammar JsonChecker.

(** ** Characters and their classes *)
Definition class_of (c : ascii) : option classes := char_class (code c).
Definition in_classes (l : list classes) (k : option classes) : bool :=
  match k with Some k => existsb (λ x, Nat.eqb (class_index x) (class_index k)) l | None => false end.

Definition dec_classes : list classes := [C_ZERO; C_DIGIT].
Definition hex_classes : list classes :=
  [C_ZERO; C_DIGIT; C_LOW_A; C_LOW_B; C_LOW_C; C_LOW_D; C_LOW_E; C_LOW_F; C_ABCDF; C_E].
Definition escaped_classes : list classes :=
  [C_QUOTE; C_BACKS; C_SLASH; C_LOW_B; C_LOW_F; C_LOW_N; C_LOW_R; C_LOW_T].
Definition plain_class (k : option classes) : bool :=
  match k with Some C_QUOTE | Some C_BACKS | Some C_WHITE | None => false | _ => true end.

(** Statements about every character, by looking at all of them. *)
Ltac each_char := let c := fresh in intros c; destruct c as [[] [] [] [] [] [] [] []]; vm_compute; reflexivity.

Lemma ws_class : ∀ c, is_ws c = in_classes [C_SPACE; C_WHITE] (class_of c).
Proof. each_char. Qed.
Lemma dec_class : ∀ c, is_dec c = in_classes dec_classes (class_of c).
Proof. each_char. Qed.
Lemma dec19_class : ∀ c, is_dec19 c = in_classes [C_DIGIT] (class_of c).
Proof. each_char. Qed.
Lemma hex_class : ∀ c, is_hex c = in_classes hex_classes (class_of c).
Proof. each_char. Qed.
Lemma e_class : ∀ c, is_e c = in_classes [C_LOW_E; C_E] (class_of c).
Proof. each_char. Qed.
Lemma sign_class : ∀ c, is_sign c = in_classes [C_PLUS; C_MINUS] (class_of c).
Proof. each_char. Qed.
Lemma plain_class_of : ∀ c, is_plain c = plain_class (class_of c).
Proof. each_char. Qed.
Lemma escaped_class : ∀ c, is_escaped c = in_classes escaped_classes (class_of c).
Proof. each_char. Qed.
(** The classes with one character. *)
Definition lone_classes : list (Z * classes) :=
  [(123, C_LCURB); (125, C_RCURB); (91, C_LSQRB); (93, C_RSQRB); (58, C_COLON); (44, C_COMMA); (34, C_QUOTE); (92, C_BACKS);
   (45, C_MINUS); (46, C_POINT); (48, C_ZERO); (97, C_LOW_A); (101, C_LOW_E); (102, C_LOW_F); (108, C_LOW_L); (110, C_LOW_N);
   (114, C_LOW_R); (115, C_LOW_S); (116, C_LOW_T); (117, C_LOW_U)].
Lemma lone_class x k : (x, k) ∈ lone_classes → ∀ c, is_char x c = in_classes [k] (class_of c).
Proof.
  intros Hin. assert (H : ∀ c, forallb (λ p, Bool.eqb (is_char p.1 c) (in_classes [p.2] (class_of c))) lone_classes = true) by each_char.
  intros c. specialize (H c). rewrite forallb_forall in H. apply list_elem_of_In in Hin. apply Bool.eqb_prop. exact (H _ Hin).
Qed.

(** ** The automaton on states and stacks
    The used part of the stack is a list with the top first. *)
Section machine.
Variable room : nat.

Definition step_action (n : Z) (st : list modes) : option (states * list modes) :=
  match st with
  | [] => None
  | m :: st' =>
      if n =? -9 then match m with MODE_KEY => Some (OK, st') | _ => None end
      else if n =? -8 then match m with MODE_OBJECT => Some (OK, st') | _ => None end
      else if n =? -7 then match m with MODE_ARRAY => Some (OK, st') | _ => None end
      else if n =? -6 then if decide (length st < room)%nat then Some (OB, MODE_KEY :: st) else None
      else if n =? -5 then if decide (length st < room)%nat then Some (AR, MODE_ARRAY :: st) else None
      else if n =? -4 then
        match m with MODE_KEY => Some (CO, st) | MODE_ARRAY | MODE_OBJECT => Some (OK, st) | MODE_DONE => None end
      else if n =? -3 then
        match m with MODE_OBJECT => Some (KE, MODE_KEY :: st') | MODE_ARRAY => Some (VA, st) | _ => None end
      else if n =? -2 then match m with MODE_KEY => Some (VA, MODE_OBJECT :: st') | _ => None end
      else None
  end.
Definition step (q : states) (st : list modes) (k : option classes) : option (states * list modes) :=
  k ← k; e ← next_entry q k;
  match e with Goto q' => Some (q', st) | Action n => step_action n st end.

Fixpoint accepts (q : states) (st : list modes) (s : cstr) : bool :=
  match s with
  | [] => bool_decide (q = OK ∧ head st = Some MODE_DONE)
  | c :: s => match step q st (class_of c) with Some (q', st') => accepts q' st' s | None => false end
  end.

(** *** What the stack says in each state *)
Fixpoint nested (st : list modes) : bool :=
  match st with
  | [MODE_DONE] => true
  | MODE_ARRAY :: st | MODE_OBJECT :: st => nested st
  | _ => false
  end.
Definition inside (st : list modes) : bool := match st with MODE_ARRAY :: st | MODE_OBJECT :: st => nested st | _ => false end.
Definition at_key (st : list modes) : bool := match st with MODE_KEY :: st => nested st | _ => false end.
Definition typed (q : states) (st : list modes) : bool :=
  bool_decide (length st ≤ room)%nat &&
  match q with
  | GO => bool_decide (st = [MODE_DONE])
  | OK => nested st
  | OB | KE | CO => at_key st
  | AR => match st with MODE_ARRAY :: st => nested st | _ => false end
  | ST | ES | U1 | U2 | U3 | U4 => inside st || at_key st
  | _ => inside st
  end.

(** The stack fits the state, whatever comes. *)
Lemma step_type q st k q' st' : typed q st = true → step q st k = Some (q', st') → typed q' st' = true.
Proof.
  unfold typed. rewrite !andb_true_iff, !bool_decide_eq_true. intros [Hl Ht] Hs. unfold step in Hs. destruct k as [k|]; [|done].
  assert (Hn : ∀ l, inside l = true → nested l = true) by (intros [|[] l]; done).
  destruct q, k; cbn in Hs; try discriminate Hs; unfold step_action in Hs;
    try apply bool_decide_eq_true in Ht; destruct st as [|[] st]; cbn in Ht, Hs; try discriminate; simplify_eq;
    repeat (case_decide; try discriminate Hs); simplify_eq; rewrite ?orb_false_r in *; (split; [cbn in *; lia|by cbn; rewrite ?orb_false_r]).
Qed.

(** *** How a text can be completed
    After a value, in each state, and in the states of a number or a word. *)
Definition number := checker_number.
Definition left_ (st : list modes) : nat := room - length st.
Fixpoint after (st : list modes) : lang :=
  match st with
  | MODE_DONE :: _ => ws
  | MODE_ARRAY :: st' => arr_tail number (left_ st) ⋅ after st'
  | MODE_OBJECT :: st' => obj_tail number (left_ st) ⋅ after st'
  | _ => none
  end.
Definition value_after (st : list modes) : lang := ws ⋅ value number (left_ st) ⋅ after st.
Definition colon_after (st : list modes) : lang :=
  match st with MODE_KEY :: st => ws ⋅ one (is_char 58) ⋅ value_after (MODE_OBJECT :: st) | _ => none end.
Definition after_string (st : list modes) : lang :=
  match st with MODE_KEY :: _ => colon_after st | _ => after st end.

Definition lang_of (q : states) (st : list modes) : lang :=
  match q with
  | GO => ws ⋅ compound number (left_ st) ⋅ after st
  | OK => after st
  | OB => match st with MODE_KEY :: st' => obj_body number (left_ st) ⋅ after st' | _ => none end
  | KE => match st with MODE_KEY :: st' => members number (left_ st) ⋅ after st' | _ => none end
  | CO => colon_after st
  | VA => value_after st
  | AR => match st with MODE_ARRAY :: st' => arr_body number (left_ st) ⋅ after st' | _ => none end
  | ST => string_body ⋅ after_string st
  | ES => escape ⋅ string_body ⋅ after_string st
  | U1 => one is_hex ⋅ one is_hex ⋅ one is_hex ⋅ one is_hex ⋅ string_body ⋅ after_string st
  | U2 => one is_hex ⋅ one is_hex ⋅ one is_hex ⋅ string_body ⋅ after_string st
  | U3 => one is_hex ⋅ one is_hex ⋅ string_body ⋅ after_string st
  | U4 => one is_hex ⋅ string_body ⋅ after_string st
  | MI => unsigned_number ⋅ after st
  | ZE => zero_rest ⋅ after st
  | IN => int_rest ⋅ after st
  | FR => frac_rest ⋅ after st
  | E1 => exp_rest ⋅ after st
  | E2 => exp_digits ⋅ after st
  | E3 => decs ⋅ after st
  | T1 => word (str "rue") ⋅ after st
  | T2 => word (str "ue") ⋅ after st
  | T3 => word (str "e") ⋅ after st
  | F1 => word (str "alse") ⋅ after st
  | F2 => word (str "lse") ⋅ after st
  | F3 => word (str "se") ⋅ after st
  | F4 => word (str "e") ⋅ after st
  | N1 => word (str "ull") ⋅ after st
  | N2 => word (str "ll") ⋅ after st
  | N3 => word (str "l") ⋅ after st
  end.

(** The first character after a value, and of a value. *)
Lemma after_cons m st c s : after (m :: st) (c :: s) ↔
  match m with
  | MODE_DONE => is_ws c = true ∧ after (m :: st) s
  | MODE_ARRAY => (is_ws c = true ∧ after (m :: st) s) ∨ (is_char 93 c = true ∧ after st s) ∨
      (is_char 44 c = true ∧ lang_of VA (m :: st) s)
  | MODE_OBJECT => (is_ws c = true ∧ after (m :: st) s) ∨ (is_char 125 c = true ∧ after st s) ∨
      (is_char 44 c = true ∧ lang_of KE (MODE_KEY :: st) s)
  | MODE_KEY => False
  end.
Proof.
  destruct m; cbn [after lang_of].
  - by rewrite arr_tail_cons.
  - apply ws_end_cons.
  - done.
  - by rewrite obj_tail_cons.
Qed.

(** A character alone in its class. *)
Definition lone (x : Z) (c : ascii) : bool :=
  match List.find (λ p, p.1 =? x) lone_classes with Some (_, k) => in_classes [k] (class_of c) | None => is_char x c end.
Lemma lone_eq x c : is_char x c = lone x c.
Proof.
  unfold lone. destruct (List.find _ _) as [[y k]|] eqn:E; [|done]. apply List.find_some in E as [Hi Hy].
  cbn in Hy. apply Z.eqb_eq in Hy as ->. apply lone_class. by apply list_elem_of_In.
Qed.

(** One step of the automaton is one character of the languages. *)
Definition next (q : states) (st : list modes) (c : ascii) (s : cstr) : Prop :=
  match step q st (class_of c) with Some (q', st') => lang_of q' st' s | None => False end.

Ltac classify c :=
  rewrite ?ws_class, ?dec_class, ?dec19_class, ?hex_class, ?e_class, ?sign_class, ?plain_class_of, ?escaped_class, ?lone_eq;
  unfold next, step, lone; destruct (class_of c) as [[]|]; cbn -[lang_of after left_ decide word]; cbn [lang_of str list_ascii_of_string]; repeat case_decide; cbn [lang_of]; intuition (try discriminate).

Lemma next_OK m st c s : nested (m :: st) = true → after (m :: st) (c :: s) ↔ next OK (m :: st) c s.
Proof. intros Hn. destruct m; [| |done|]; rewrite after_cons; classify c. Qed.
Ltac token m c := intros Hn; cbn [lang_of after_string colon_after str list_ascii_of_string]; autorewrite with first_char; destruct m; try done;
  cbn [after_string colon_after]; rewrite ?after_cons; classify c.
Ltac each_state Hq := repeat (apply elem_of_cons in Hq as [->|Hq]); [..|by apply elem_of_nil in Hq].

Lemma next_number q m st c s : q ∈ [MI; ZE; IN; FR; E1; E2; E3] → inside (m :: st) = true →
  lang_of q (m :: st) (c :: s) ↔ next q (m :: st) c s.
Proof. intros Hq. each_state Hq; token m c. Qed.
Lemma next_word q m st c s : q ∈ [T1; T2; T3; F1; F2; F3; F4; N1; N2; N3] → inside (m :: st) = true →
  lang_of q (m :: st) (c :: s) ↔ next q (m :: st) c s.
Proof. intros Hq. each_state Hq; token m c. Qed.
Lemma next_string q m st c s : q ∈ [ST; ES; U1; U2; U3; U4] → inside (m :: st) || at_key (m :: st) = true →
  lang_of q (m :: st) (c :: s) ↔ next q (m :: st) c s.
Proof. intros Hq. each_state Hq; token m c. Qed.

(** Brackets: there must be room on the stack. *)
Lemma compound_starts st K c s : (compound number (left_ st) ⋅ K) (c :: s) ↔ (length st < room)%nat ∧
  ((is_char 91 c = true ∧ (arr_body number (left_ (MODE_ARRAY :: st)) ⋅ K) s) ∨
   (is_char 123 c = true ∧ (obj_body number (left_ (MODE_KEY :: st)) ⋅ K) s)).
Proof.
  unfold left_. cbn [length]. destruct (decide (length st < room)%nat).
  - replace (room - length st)%nat with (S (room - S (length st))) by lia. rewrite compound_cons. tauto.
  - replace (room - length st)%nat with 0%nat by lia. cbn [compound]. rewrite (eqv (cat_none_l K)). unfold none. tauto.
Qed.
Lemma value_starts st c s K : (value number (left_ st) ⋅ K) (c :: s) ↔
  (is_char 34 c = true ∧ (string_body ⋅ K) s) ∨
  (is_char 48 c = true ∧ (zero_rest ⋅ K) s) ∨ (is_dec19 c = true ∧ (int_rest ⋅ K) s) ∨
  (is_char 45 c = true ∧ (unsigned_number ⋅ K) s) ∨
  (is_char 116 c = true ∧ (word (str "rue") ⋅ K) s) ∨ (is_char 102 c = true ∧ (word (str "alse") ⋅ K) s) ∨
  (is_char 110 c = true ∧ (word (str "ull") ⋅ K) s) ∨
  (length st < room)%nat ∧
  ((is_char 91 c = true ∧ (arr_body number (left_ (MODE_ARRAY :: st)) ⋅ K) s) ∨
   (is_char 123 c = true ∧ (obj_body number (left_ (MODE_KEY :: st)) ⋅ K) s)).
Proof.
  rewrite value_cons, compound_starts. change number with checker_number. cbn [str list_ascii_of_string].
  autorewrite with first_char. cbn [code N_of_ascii]. tauto.
Qed.

Lemma next_VA m st c s : inside (m :: st) = true → lang_of VA (m :: st) (c :: s) ↔ next VA (m :: st) c s.
Proof. intros Hn. cbn [lang_of]. unfold value_after. rewrite ws_cons, value_starts. destruct m; try done; classify c. Qed.
Lemma next_AR st c s : lang_of AR (MODE_ARRAY :: st) (c :: s) ↔ next AR (MODE_ARRAY :: st) c s.
Proof. cbn [lang_of]. rewrite arr_body_cons, value_starts. classify c. Qed.
Lemma next_GO c s : lang_of GO [MODE_DONE] (c :: s) ↔ next GO [MODE_DONE] c s.
Proof. cbn [lang_of]. rewrite ws_cons, compound_starts. classify c. Qed.
Lemma next_OB st c s : lang_of OB (MODE_KEY :: st) (c :: s) ↔ next OB (MODE_KEY :: st) c s.
Proof. cbn [lang_of]. rewrite obj_body_cons. classify c. Qed.
Lemma next_KE st c s : lang_of KE (MODE_KEY :: st) (c :: s) ↔ next KE (MODE_KEY :: st) c s.
Proof. cbn [lang_of]. rewrite members_cons. classify c. Qed.
Lemma next_CO st c s : lang_of CO (MODE_KEY :: st) (c :: s) ↔ next CO (MODE_KEY :: st) c s.
Proof. cbn [lang_of colon_after]. rewrite ws_cons, one_cons. classify c. Qed.

Lemma next_char q st c s : typed q st = true → lang_of q st (c :: s) ↔ next q st c s.
Proof.
  unfold typed. rewrite andb_true_iff. intros [_ Ht]. destruct st as [|m st].
  { by destruct q. }
  destruct q; try (apply next_number; [set_solver|done]); try (apply next_word; [set_solver|done]); try (apply next_string; [set_solver|done]).
  - apply bool_decide_eq_true in Ht as [= -> ->]. apply next_GO.
  - by apply next_OK.
  - destruct m; try done. apply next_OB.
  - destruct m; try done. apply next_KE.
  - destruct m; try done. apply next_CO.
  - by apply next_VA.
  - destruct m; try done. apply next_AR.
Qed.

(** The end of the text. *)
Lemma one_cat_nil p L : (one p ⋅ L) [] ↔ False.
Proof. split; [apply one_nil|done]. Qed.
Lemma one_nil_iff p : one p [] ↔ False.
Proof. split; [apply one_no_nil|done]. Qed.
Ltac at_end := unfold ws; rewrite ?cat_nil, ?star_cat_nil, ?cat_nil, ?in_union, ?cat_nil, ?one_nil_iff.

Lemma string_body_nil : ¬ string_body [].
Proof. unfold string_body. at_end. tauto. Qed.
Lemma compound_nil n : ¬ compound number n [].
Proof. destruct n as [|n]; [by intros []|]. cbn [compound]. at_end. tauto. Qed.
Lemma body_nil n : ¬ arr_tail number n [] ∧ ¬ obj_tail number n [] ∧ ¬ obj_body number n [] ∧ ¬ members number n [].
Proof.
  rewrite (eqv (arr_tail_eq number n)), (eqv (obj_tail_eq number n)), (eqv (obj_body_eq number n)), (eqv (members_eq number n)).
  unfold json_string. at_end. tauto.
Qed.
Lemma after_nil st : inside st = true → ¬ after st [].
Proof. destruct st as [|[] st]; try done; intros _; cbn [after]; rewrite cat_nil; intros [H _]; by apply body_nil in H. Qed.
Lemma lang_nil q st : typed q st = true → lang_of q st [] ↔ q = OK ∧ head st = Some MODE_DONE.
Proof.
  unfold typed. rewrite andb_true_iff. intros [_ Ht]. assert (Hin := after_nil st).
  assert (Hs := string_body_nil). assert (Hc := compound_nil (left_ st)). assert (Hb := body_nil (left_ st)).
  split; [|intros [-> Hh]; destruct st as [|m st]; [done|]; injection Hh as ->; cbn; constructor].
  destruct q; cbn [lang_of]; unfold value_after; rewrite ?cat_nil; intros H;
    try (exfalso; destruct_and?; first [by apply Hc|by apply Hs|by apply (Hin Ht)]);
    destruct st as [|[] st]; try done; try (exfalso; by apply (Hin Ht)); exfalso; revert H; cbn [colon_after]; rewrite ?cat_nil.
  - tauto.
  - tauto.
  - at_end. tauto.
  - rewrite (eqv (arr_body_eq number _)). at_end. tauto.
Qed.

(** The automaton accepts exactly the completions that belong to its state. *)
Lemma accepts_lang s : ∀ q st, typed q st = true → accepts q st s = true ↔ lang_of q st s.
Proof.
  induction s as [|c s IH]; intros q st Ht; cbn [accepts].
  - rewrite bool_decide_eq_true. by rewrite lang_nil.
  - rewrite next_char by done. unfold next. destruct (step q st (class_of c)) as [[q' st']|] eqn:E; [|by split].
    apply IH. by eapply step_type.
Qed.
End machine.
