(* ===== verification/JsonProofs.v ===== *)
(** * The JSON checker accepts its grammar

    The C code of [JsonChecker] carries out the automaton of [JsonMachine], so
    it accepts exactly the texts of [JsonGrammar]; and its object is always
    freed. *)

From Stdlib Require Import ZArith Lia Ascii String.
From stdpp Require Import base list gmap strings.
From S2P Require Import Prelude CString Lang JsonGrammar JsonChecker JsonMachine.

Lemma deref_bind {A} (k : JSON_checker → M (option JSON_checker) A) jc : (deref ≫= k) (Some jc) = k jc (Some jc).
Proof. done. Qed.
Lemma update_bind {A} f (k : unit → M (option JSON_checker) A) jc : (update f ≫= k) (Some jc) = k () (Some (f jc)).
Proof. done. Qed.
Lemma reject_run jc : reject (Some jc) = Done false None.
Proof. done. Qed.
Lemma ok_run b q jc : ok_or_reject b q (Some jc) = if b : bool then Done true (Some (set_state q jc)) else Done false None.
Proof. by destruct b. Qed.

Section checker.
Variable room : nat.
Hypothesis Hroom : (0 < room)%nat.
Abbreviation step := (step room).

(** The object stands for a state and a stack. *)
Record stands (jc : JSON_checker) (q : states) (st : list modes) : Prop := Stands {
  st_state : state jc = q;
  st_depth : depth jc = Z.of_nat room;
  st_length : length (stack jc) = room;
  st_top : top jc = Z.of_nat (length st) - 1;
  st_stack : take (length st) (stack jc) = reverse st
}.

Lemma stands_state jc q st q' : stands jc q st → stands (set_state q' jc) q' st.
Proof. intros [? ? ? ? ?]. by split. Qed.

Lemma top_mode_run jc q m st : stands jc q (m :: st) → top_mode jc = Some m ∧ top jc <? 0 = false.
Proof.
  intros [_ _ Hl Ht Hs]. cbn [length] in *. unfold top_mode. rewrite Ht.
  replace (Z.of_nat (S (length st)) - 1) with (Z.of_nat (length st)) by lia.
  destruct (Z.leb_spec 0 (Z.of_nat (length st))); [|lia]. split; [|apply Z.ltb_ge; lia]. rewrite Nat2Z.id.
  rewrite <-(lookup_take_lt (stack jc) (S (length st))) by lia. rewrite Hs, reverse_cons, lookup_app_r by (rewrite length_reverse; lia).
  by rewrite length_reverse, Nat.sub_diag.
Qed.

Lemma stands_pop jc q m st : stands jc q (m :: st) → stands (set_top (top jc - 1) jc) q st.
Proof.
  intros [? ? ? Ht Hs]. cbn [length] in *. split; cbn; [done|done|done|lia|].
  assert (H := f_equal (take (length st)) Hs). rewrite take_take, Nat.min_l in H by lia. rewrite H, reverse_cons.
  rewrite take_app_le by (rewrite length_reverse; lia). by rewrite <-(length_reverse st), firstn_all.
Qed.
Lemma pop_run jc q m m' st : stands jc q (m :: st) →
  pop m' (Some jc) = if decide (m = m') then Done true (Some (set_top (top jc - 1) jc)) else Done false (Some jc).
Proof.
  intros H. destruct (top_mode_run _ _ _ _ H) as [Hm Ht]. unfold pop. rewrite deref_bind, Ht, Hm, bind_of_opt.
  case_decide; [by rewrite update_bind|done].
Qed.

(** Pushing moves [top] even when there is no room. *)
Lemma push_run jc q st m : stands jc q st →
  if decide (length st < room)%nat then ∃ jc', push m (Some jc) = Done true (Some jc') ∧ stands jc' q (m :: st)
  else ∃ jc', push m (Some jc) = Done false (Some jc').
Proof.
  intros [Hq Hd Hl Ht Hs]. unfold push. rewrite update_bind, deref_bind. cbn [depth top set_top stack]. rewrite Hd, Ht, Hl.
  replace (Z.of_nat (length st) - 1 + 1) with (Z.of_nat (length st)) by lia. case_decide as Hlt.
  - destruct (Z.leb_spec (Z.of_nat room) (Z.of_nat (length st))); [lia|].
    destruct (Z.leb_spec 0 (Z.of_nat (length st))); [|lia]. destruct (Z.ltb_spec (Z.of_nat (length st)) (Z.of_nat room)); [|lia].
    cbn [andb]. rewrite update_bind. eexists. split; [done|]. rewrite Nat2Z.id.
    split; cbn [state depth stack top set_stack set_top length]; [done|done|by rewrite length_insert|lia|]. rewrite reverse_cons, <-Hs.
    rewrite (take_S_r _ _ m) by (apply list_lookup_insert_eq; lia). by rewrite take_insert_ge by lia.
  - destruct (Z.leb_spec (Z.of_nat room) (Z.of_nat (length st))); [|lia]. by eexists.
Qed.

(** What a call does to an object that stands for a state and a stack. *)
Definition follows (r : outcome (option JSON_checker) bool) (next : option (states * list modes)) : Prop :=
  match next with
  | Some (q, st) => ∃ jc, r = Done true (Some jc) ∧ stands jc q st
  | None => r = Done false None
  end.

Lemma follows_pop jc q m m' st q' : stands jc q (m :: st) →
  follows ((b ← pop m'; ok_or_reject b q') (Some jc)) (if decide (m = m') then Some (q', st) else None).
Proof.
  intros H. unfold mbind, M_bind. rewrite (pop_run _ _ _ _ _ H). case_decide; [|done].
  eexists. split; [done|]. eapply stands_state. by eapply stands_pop.
Qed.
Lemma follows_push jc q st m q' : stands jc q st →
  follows ((b ← push m; ok_or_reject b q') (Some jc)) (if decide (length st < room)%nat then Some (q', m :: st) else None).
Proof.
  intros H. assert (Hp := push_run jc q st m H). unfold mbind, M_bind. case_decide.
  - destruct Hp as (jc' & -> & Hs). eexists. split; [done|]. by eapply stands_state.
  - by destruct Hp as (jc' & ->).
Qed.
Lemma follows_flip jc q m st old new q' : (length (m :: st) ≤ room)%nat → stands jc q (m :: st) →
  follows ((b ← flip old new; ok_or_reject b q') (Some jc)) (if decide (m = old) then Some (q', new :: st) else None).
Proof.
  intros Hr H. unfold flip, mbind, M_bind. rewrite (pop_run _ _ _ _ _ H). case_decide; [|done].
  assert (Hp := push_run _ _ _ new (stands_pop _ _ _ _ H)). rewrite decide_True in Hp by (cbn in Hr; lia).
  destruct Hp as (jc' & -> & Hs). eexists. split; [done|]. by eapply stands_state.
Qed.

Lemma action_run n jc q m st : (length (m :: st) ≤ room)%nat → stands jc q (m :: st) →
  follows (action n (Some jc)) (step_action room n (m :: st)).
Proof.
  intros Hr H. unfold action, step_action. destruct (top_mode_run _ _ _ _ H) as [Hm _].
  destruct (n =? -9); [assert (Hf := follows_pop _ _ _ MODE_KEY _ OK H); by destruct m|].
  destruct (n =? -8); [assert (Hf := follows_pop _ _ _ MODE_OBJECT _ OK H); by destruct m|].
  destruct (n =? -7); [assert (Hf := follows_pop _ _ _ MODE_ARRAY _ OK H); by destruct m|].
  destruct (n =? -6); [by apply (follows_push jc q)|].
  destruct (n =? -5); [by apply (follows_push jc q)|].
  destruct (n =? -4).
  { rewrite deref_bind, Hm, bind_of_opt. destruct m; try done; eexists; (split; [done|by eapply stands_state]). }
  destruct (n =? -3).
  { rewrite deref_bind, Hm, bind_of_opt. assert (Hf := follows_flip _ _ _ _ MODE_OBJECT MODE_KEY KE Hr H).
    destruct m; try done; eexists; (split; [done|by eapply stands_state]). }
  destruct (n =? -2); [assert (Hf := follows_flip _ _ _ _ MODE_KEY MODE_OBJECT VA Hr H); by destruct m|done].
Qed.

Lemma next_entry_some q k : is_Some (next_entry q k).
Proof. destruct q, k; by eexists. Qed.

Lemma char_run n jc q m st : 0 ≤ n → (length (m :: st) ≤ room)%nat → stands jc q (m :: st) →
  follows (JSON_checker_char n (Some jc)) (step q (m :: st) (char_class n)).
Proof.
  intros Hn Hr H. unfold JSON_checker_char, step, JsonMachine.step. destruct (Z.ltb_spec n 0); [lia|].
  destruct (char_class n) as [k|]; [|done]. rewrite deref_bind, (st_state _ _ _ H).
  destruct (next_entry_some q k) as [e He]. rewrite He, bind_of_opt. cbn [mbind option_bind]. rewrite He. cbn [mbind option_bind].
  destruct e as [q'|a]; [|by eapply action_run]. rewrite update_bind. eexists. split; [done|by eapply stands_state].
Qed.

Lemma new_run w : ∃ jc, new_JSON_checker (Z.of_nat room) w = Done () (Some jc) ∧ stands jc GO [MODE_DONE].
Proof.
  unfold new_JSON_checker. rewrite bind_modify, Nat2Z.id.
  assert (H0 : stands (Checker GO (Z.of_nat room) (-1) (replicate room MODE_ARRAY)) GO []).
  { split; cbn; try done. apply length_replicate. }
  assert (Hp := push_run _ _ _ MODE_DONE H0). rewrite decide_True in Hp by (cbn; lia). destruct Hp as (jc & Hrun & Hs).
  exists jc. split; [by mstep Hrun|done].
Qed.
Lemma done_run jc q m st : stands jc q (m :: st) →
  JSON_checker_done (Some jc) = Done (bool_decide (q = OK ∧ m = MODE_DONE)) None.
Proof.
  intros H. unfold JSON_checker_done. rewrite deref_bind, (st_state _ _ _ H). case_decide as Hq.
  - unfold mbind at 1, M_bind. rewrite (pop_run _ _ _ _ _ H). case_decide as Hm.
    + by rewrite bool_decide_eq_true_2.
    + rewrite bool_decide_eq_false_2 by tauto. done.
  - rewrite bind_ret, bool_decide_eq_false_2 by tauto. done.
Qed.

(** *** The object is well typed *)
Definition well_typed (jc : JSON_checker) : Prop := ∃ q st, stands jc q st ∧ typed room q st = true.

Lemma typed_stack q st : typed room q st = true → ∃ m st', st = m :: st' ∧ (length st ≤ room)%nat.
Proof.
  unfold typed. rewrite andb_true_iff, bool_decide_eq_true. intros [Hl Ht]. destruct st as [|m st]; [|by exists m, st].
  by destruct q.
Qed.

(** C29: the type of a checker object: its fields stand for a state and a stack
    that fit each other, the stack within its array.  A new object is well
    typed; a call with any character returns true and leaves it well typed, or
    returns false and has freed it; and asking for the result returns and frees
    it.  No access to the stack is out of bounds. *)
Theorem checker_stays_typed :
  (∃ jc, new_JSON_checker (Z.of_nat room) None = Done () (Some jc) ∧ well_typed jc) ∧
  (∀ jc n, well_typed jc →
    (∃ jc', JSON_checker_char n (Some jc) = Done true (Some jc') ∧ well_typed jc') ∨ JSON_checker_char n (Some jc) = Done false None) ∧
  (∀ jc, well_typed jc → ∃ b, JSON_checker_done (Some jc) = Done b None).
Proof.
  split_and!.
  - destruct (new_run None) as (jc & Hrun & Hs). exists jc. split; [done|]. exists GO, [MODE_DONE]. split; [done|].
    unfold typed. rewrite bool_decide_eq_true_2 by (cbn; lia). done.
  - intros jc n (q & st & Hs & Ht). destruct (typed_stack q st Ht) as (m & st' & -> & Hr).
    destruct (Z.ltb_spec n 0) as [Hn|Hn]; [right; unfold JSON_checker_char; by destruct (Z.ltb_spec n 0); [|lia]|].
    assert (H := char_run n jc q m st' Hn Hr Hs). destruct (step q (m :: st') (char_class n)) as [[q2 st2]|] eqn:E; [left|by right].
    destruct H as (jc' & Hrun & Hs'). exists jc'. split; [done|]. exists q2, st2. split; [done|]. by eapply step_type.
  - intros jc (q & st & Hs & Ht). destruct (typed_stack q st Ht) as (m & st' & -> & _). eexists. by eapply done_run.
Qed.

(** *** A whole text *)
Section text.
Variable char_signed : bool.
(** What the proxy shows the checker: it stops at a character that is not
    positive, which with signed characters is every one that is not ASCII. *)
Fixpoint seen (s : cstr) : cstr :=
  match s with c :: s => if char_value char_signed c <=? 0 then [] else c :: seen s | [] => [] end.

Definition verdict (b : bool) : M (option JSON_checker) Z :=
  if negb b then mret (-1) else b ← JSON_checker_done; if negb b then mret (-1) else mret 0.

Lemma value_code c : 0 < char_value char_signed c → char_value char_signed c = code c.
Proof. unfold char_value. assert (H := code_range c). destruct char_signed, (Z.ltb_spec (code c) 128); lia. Qed.

Lemma loop_accepts s : ∀ jc q st, stands jc q st → typed room q st = true →
  (check_loop char_signed s ≫= verdict) (Some jc) = Done (if accepts room q st (seen s) then 0 else -1) None.
Proof.
  induction s as [|c s IH]; intros jc q st Hs Ht; destruct (typed_stack q st Ht) as (m & st' & -> & Hr); cbn [check_loop seen accepts].
  - rewrite bind_ret. unfold verdict. cbn [negb]. unfold mbind, M_bind. rewrite (done_run _ _ _ _ Hs). cbn [accepts head].
    rewrite (bool_decide_ext (q = OK ∧ m = MODE_DONE) (q = OK ∧ Some m = Some MODE_DONE)) by naive_solver. by destruct (bool_decide _).
  - destruct (Z.leb_spec (char_value char_signed c) 0) as [Hc|Hc].
    + rewrite bind_ret. unfold verdict. cbn [negb]. unfold mbind, M_bind. rewrite (done_run _ _ _ _ Hs). cbn [accepts head].
      rewrite (bool_decide_ext (q = OK ∧ m = MODE_DONE) (q = OK ∧ Some m = Some MODE_DONE)) by naive_solver. by destruct (bool_decide _).
    + assert (H := char_run (char_value char_signed c) jc q m st' ltac:(lia) Hr Hs). rewrite value_code in H by done.
      cbn [accepts]. unfold class_of. unfold mbind at 1 2, M_bind. rewrite value_code by done. fold (@mbind (M (option JSON_checker)) _).
      destruct (step q (m :: st') (char_class (code c))) as [[q2 st2]|] eqn:E.
      * destruct H as (jc' & -> & Hs'). apply (IH jc' q2 st2 Hs'). by eapply step_type.
      * by rewrite H.
Qed.
End text.
End checker.

(** The check of a text, which the claim below and the server's proofs use. *)
Lemma checker_run char_signed s :
  json_checker_function char_signed s None = Done (if accepts 20 GO [MODE_DONE] (seen char_signed s) then 0 else -1) None.
Proof.
  destruct (new_run 20 ltac:(lia) None) as (jc & Hrun & Hs). unfold json_checker_function. change CHECKER_DEPTH with (Z.of_nat 20). mstep Hrun.
  exact (loop_accepts 20 ltac:(lia) char_signed s jc GO [MODE_DONE] Hs eq_refl).
Qed.
Lemma accepts_json s : accepts 20 GO [MODE_DONE] s = true ↔ json_text checker_number 19 s.
Proof. exact (accepts_lang 20 s GO [MODE_DONE] eq_refl). Qed.
Lemma seen_ascii char_signed s : Forall (λ c, 0 < code c < 128) s → seen char_signed s = s.
Proof.
  induction 1 as [|c s Hc _ IH]; [done|]. cbn [seen]. unfold char_value. rewrite IH.
  by destruct char_signed, (Z.ltb_spec (code c) 128), (Z.leb_spec (code c) 0); try lia; destruct (Z.leb_spec (code c - 256) 0); try lia.
Qed.

(** C28: the check of a request accepts exactly the JSON texts that are nested
    at most 19 deep, with the checker's own idea of a number, of what it is
    shown of the request; it always returns, and always frees its object. *)
Theorem checker_accepts_json char_signed s :
  ∃ r, json_checker_function char_signed s None = Done r None ∧ (r = 0 ∨ r = -1) ∧
    (r = 0 ↔ json_text checker_number 19 (seen char_signed s)).
Proof.
  eexists. split; [apply checker_run|]. rewrite <-accepts_json. by destruct (accepts _ _ _ _); split; auto.
Qed.

(** *** Where the checker is not a checker of JSON *)
(** Where [char] is signed the check ends at the first character that is
    not ASCII: whatever comes after it, a request is accepted exactly when
    what comes before it is. *)
Theorem signed_char_hides_rest s c t : Forall (λ c, 0 < code c < 128) s → 128 ≤ code c →
  json_checker_function true (s ++ c :: t) None = json_checker_function true s None.
Proof.
  intros Hs Hc. unfold json_checker_function. unfold mbind, M_bind. destruct (new_JSON_checker CHECKER_DEPTH None) as [u w| | | |]; [|done..].
  assert (H : check_loop true (s ++ c :: t) w = check_loop true s w); [|by rewrite H]. revert w.
  induction Hs as [|x s Hx _ IH]; intros w; cbn [app check_loop].
  - unfold char_value. assert (Hr := code_range c). destruct (Z.ltb_spec (code c) 128); [lia|].
    by destruct (Z.leb_spec (code c - 256) 0); [|lia].
  - destruct (char_value true x <=? 0); [done|]. unfold mbind, M_bind. destruct (JSON_checker_char _ w) as [[]| | | |]; done.
Qed.

(** A character is not of a kind it is said to be. *)
Ltac wrong_char := match goal with H : _ = true |- _ => vm_compute in H; discriminate H end.
Lemma no_point_in_json n : ¬ json_text json_number n (str "[1.]").
Proof.
  unfold json_text. cbn [str list_ascii_of_string]. rewrite ws_cons. destruct n as [|n].
  - cbn [compound]. rewrite (eqv (cat_none_l ws)). intros [[H _]|[]]. wrong_char.
  - rewrite compound_cons, arr_body_cons, value_cons. cbn [str list_ascii_of_string]. rewrite !word_cons, json_number_cons.
    assert (Hc : ∀ K, ¬ (compound json_number n ⋅ K) (char 49 :: [char 46; char 93])).
    { intros K. destruct n; [intros H; by apply (cat_none_l K) in H|]. rewrite compound_cons. intros [[H _]|[H _]]; wrong_char. }
    specialize (Hc (arr_tail json_number n ⋅ ws)). rewrite decs_cons, fraction_exponent_cons, arr_tail_cons, one_cons.
    change (char 49) with ("1"%char) in Hc. change (char 46) with ("."%char) in Hc. change (char 93) with ("]"%char) in Hc. intuition (try wrong_char).
Qed.
Lemma zero_e_in_json : json_text json_number 1 (str "[0e1]").
Proof.
  unfold json_text. cbn [str list_ascii_of_string]. apply ws_cons. right. apply compound_cons. left. split; [done|].
  apply arr_body_cons. right. right. apply value_cons. right. left. apply json_number_cons. left. split; [done|].
  apply fraction_exponent_cons. right. right. split; [done|]. apply exp_rest_cons. left. split; [done|].
  apply decs_cons. left. apply arr_tail_cons. right. left. split; [done|]. constructor.
Qed.

(** The numbers of the checker are not those of JSON: an exponent right
    after a zero is refused, and a point without digits behind it accepted. *)
Theorem checker_numbers_differ char_signed :
  (json_text json_number 1 (str "[0e1]") ∧ json_checker_function char_signed (str "[0e1]") None = Done (-1) None) ∧
  (json_checker_function char_signed (str "[1.]") None = Done 0 None ∧ ∀ n, ¬ json_text json_number n (str "[1.]")).
Proof.
  split; (split; [|]); [exact zero_e_in_json|destruct char_signed; vm_compute; reflexivity|destruct char_signed; vm_compute; reflexivity|].
  intros n. apply no_point_in_json.
Qed.

(** ** Examples *)
Example request_accepted :
  json_checker_function false (str "{ " ++ char 34 :: str "a" ++ char 34 :: str " : [1, -2.5e3, true, {}] }") None = Done 0 None.
Proof. vm_compute. reflexivity. Qed.
Example nesting_19 : json_checker_function false (replicate 19 (char 91) ++ replicate 19 (char 93)) None = Done 0 None ∧
  json_checker_function false (replicate 20 (char 91) ++ replicate 20 (char 93)) None = Done (-1) None.
Proof. vm_compute. done. Qed.
Lemma signed_char_hides_rest_witness :
  json_checker_function true (str "[]" ++ char 195 :: str "no JSON") None = Done 0 None.
Proof.
  rewrite (signed_char_hides_rest (str "[]") (char 195) (str "no JSON")).
  - vm_compute. reflexivity.
  - repeat constructor.
  - vm_compute. congruence.
Defined.
Lemma checker_stays_typed_witness :
  ∃ jc, new_JSON_checker 20 None = Done () (Some jc) ∧ well_typed 20 jc.
Proof. destruct (checker_stays_typed 20 ltac:(lia)) as [H _]. exact H. Defined.
