(* ===== verification/CxxStd.v ===== *)
(** * What the services use of the C++ standard library

    Strings are the lists of characters of [CString].  A [stringstream] or a file
    that is read is the characters that are left; [>>] takes a word and [getline]
    what comes before a delimiter.  [std::map<string,string>] is a list of pairs
    in the order of the keys, which is the order in which it is walked. *)

From Stdlib Require Import ZArith Lia Ascii String Sorted.
From stdpp Require Import base list sorting gmap strings.
From S2P Require Import Prelude CString.

(** ** Characters *)

(** [::tolower] in the locale of a program that sets none. *)
Definition tolower (c : ascii) : ascii := if (65 <=? code c) && (code c <=? 90) then char (code c + 32) else c.
(** [transform(s.begin(), s.end(), s.begin(), ::tolower)] *)
Definition lower (s : cstr) : cstr := map tolower s.

Definition NL : ascii := char 10.
Definition EQ : ascii := char 61.
Definition SEMI : ascii := char 59.
Definition BLANK : ascii := char 32.
#[global] Arguments NL : simpl never.
#[global] Arguments EQ : simpl never.
#[global] Arguments SEMI : simpl never.
#[global] Arguments BLANK : simpl never.

(** ** Streams *)

(** Up to the first character with the property, and what follows from it on. *)
Fixpoint break (p : ascii → bool) (s : cstr) : cstr * cstr :=
  match s with
  | [] => ([], [])
  | c :: s' => if p c then ([], s) else let '(a, b) := break p s' in (c :: a, b)
  end.

(** [stream >> w] for a [w] that was empty: the word, and what is left. *)
Definition get_word (s : cstr) : cstr * cstr := break is_space (skip_spaces s).
(** [getline(stream, s, d)] for an [s] that was empty: the line, and what is left
    after the delimiter, which is taken out. *)
Definition getline (d : ascii) (s : cstr) : cstr * cstr :=
  let '(a, b) := break (λ c, bool_decide (c = d)) s in (a, drop 1 b).

(** [while( ss.good() ) { getline( ss, substr, d ); … }]: the stream is good
    after a delimiter, even the last one. *)
Fixpoint split (d : ascii) (s : cstr) : list cstr :=
  match s with
  | [] => [[]]
  | c :: s' =>
      if decide (c = d) then [] :: split d s'
      else match split d s' with l :: ls => (c :: l) :: ls | [] => [[c]] end
  end.
(** [while (std::getline(infile, line))]: a line that is empty counts only when
    it ends with a newline. *)
Fixpoint file_lines (s : cstr) : list cstr :=
  match s with
  | [] => []
  | c :: s' =>
      if decide (c = NL) then [] :: file_lines s'
      else match file_lines s' with l :: ls => (c :: l) :: ls | [] => [[c]] end
  end.
(** The same with another delimiter: [while (getline(f, s, d))]. *)
Fixpoint fields (d : ascii) (s : cstr) : list cstr :=
  match s with
  | [] => []
  | c :: s' =>
      if decide (c = d) then [] :: fields d s'
      else match fields d s' with l :: ls => (c :: l) :: ls | [] => [[c]] end
  end.
(** [while (ss >> buf)]: the words of a text. *)
Fixpoint words_of (fuel : nat) (s : cstr) : list cstr :=
  match fuel with
  | O => []
  | S fuel => let '(w, r) := get_word s in match w with [] => [] | _ => w :: words_of fuel r end
  end.
Definition words (s : cstr) : list cstr := words_of (S (length s)) s.

(** [s.erase(0, s.find_first_not_of(" \t\n\r\f\v"))] *)
Definition trim_front (s : cstr) : cstr := skip_spaces s.

(** ** Numbers: [atoi], [%d] and [to_string] *)

(** glibc's [atoi] cuts the result of [strtol] to an [int]. *)
Definition atoi (long_bits : Z) (s : cstr) : Z := int32 (strtol long_bits 10 s).1.

(** [sscanf] with [%lu]: [None] when there is no number and the variable
    keeps what it had. *)
Definition sscanf_lu (long_bits : Z) (s : cstr) : option Z :=
  let '(neg, t) := sign (skip_spaces s) in
  match t with
  | c :: _ =>
      match digit_in 10 c with
      | None => None
      | Some _ =>
          let n := (digits 10 0 t).1 in
          Some (if 2 ^ long_bits <=? n then 2 ^ long_bits - 1 else if neg : bool then - n mod 2 ^ long_bits else n)
      end
  | [] => None
  end.

Fixpoint dec_digits (fuel : nat) (n : Z) (acc : cstr) : cstr :=
  match fuel with
  | O => acc
  | S fuel => if n <? 10 then char (48 + n) :: acc else dec_digits fuel (n / 10) (char (48 + n mod 10) :: acc)
  end.
Definition dec (n : Z) : cstr := if n <? 0 then char 45 :: dec_digits 20 (- n) [] else dec_digits 20 n [].

(** ** [std::map] with strings as keys *)

(** The order of [std::string]: characters count as unsigned. *)
Fixpoint str_ltb (s t : cstr) : bool :=
  match s, t with
  | _, [] => false
  | [], _ => true
  | a :: s, b :: t => (code a <? code b) || ((code a =? code b) && str_ltb s t)
  end.
Definition str_lt (s t : cstr) : Prop := str_ltb s t = true.

Section map.
Context {V : Type}.
Abbreviation strmap := (list (cstr * V)).

Fixpoint map_find (k : cstr) (m : strmap) : option V :=
  match m with [] => None | (k', v) :: m => if decide (k = k') then Some v else map_find k m end.
(** [m[k] = v] *)
Fixpoint map_set (k : cstr) (v : V) (m : strmap) : strmap :=
  match m with
  | [] => [(k, v)]
  | (k', v') :: m' =>
      if decide (k = k') then (k, v) :: m'
      else if str_ltb k k' then (k, v) :: m else (k', v') :: map_set k v m'
  end.
(** [m.erase(m.find(k))] *)
Fixpoint map_erase (k : cstr) (m : strmap) : strmap :=
  match m with [] => [] | (k', v) :: m => if decide (k = k') then m else (k', v) :: map_erase k m end.

Definition map_sorted (m : strmap) : Prop := StronglySorted (λ x y, str_lt x.1 y.1) m.
End map.

(** ** Lemmas on the order and on maps *)
Lemma code_inj a b : code a = code b → a = b.
Proof. intros H. rewrite <-(char_code a), <-(char_code b). by f_equal. Qed.
Lemma str_lt_cons a b s t : str_lt (a :: s) (b :: t) ↔ code a < code b ∨ (a = b ∧ str_lt s t).
Proof.
  unfold str_lt. cbn. rewrite orb_true_iff, andb_true_iff, Z.ltb_lt, Z.eqb_eq. naive_solver (eauto using code_inj).
Qed.
Lemma str_lt_irrefl s : ¬ str_lt s s.
Proof. induction s as [|a s IH]; [done|]. rewrite str_lt_cons. intros [|[_ ?]]; [lia|done]. Qed.
Lemma str_lt_trans s t u : str_lt s t → str_lt t u → str_lt s u.
Proof.
  revert t u. induction s as [|a s IH]; intros [|b t] [|c u]; try done.
  rewrite !str_lt_cons. intros [|[-> ?]] [|[-> ?]]; [left; lia|left; lia|left; lia|right]. naive_solver.
Qed.
Lemma str_lt_total s t : str_lt s t ∨ s = t ∨ str_lt t s.
Proof.
  revert t. induction s as [|a s IH]; intros [|b t]; try (by left); try (by right; left); try (by right; right).
  rewrite !str_lt_cons. destruct (Z.lt_trichotomy (code a) (code b)) as [?|[H|?]]; [tauto| |tauto].
  apply code_inj in H as ->. destruct (IH t) as [?|[->|?]]; naive_solver.
Qed.
#[export] Instance str_lt_strict : StrictOrder str_lt.
Proof. split; [exact str_lt_irrefl|exact str_lt_trans]. Qed.
#[export] Instance str_lt_dec s t : Decision (str_lt s t) := decide (str_ltb s t = true).

Section map_lemmas.
Context {V : Type}.
Implicit Types (m : list (cstr * V)) (k : cstr).

Lemma find_set k k' v m : map_find k (map_set k' v m) = if decide (k = k') then Some v else map_find k m.
Proof.
  induction m as [|[k1 v1] m IH]; cbn; [by repeat case_decide|].
  destruct (decide (k' = k1)) as [<-|Hne]; cbn; [by case_decide|].
  destruct (str_ltb k' k1); cbn; [by repeat case_decide|].
  destruct (decide (k = k1)) as [->|?]; [|exact IH]. by rewrite decide_False.
Qed.
Lemma find_below k m : Forall (λ x, str_lt k x.1) m → map_find k m = None.
Proof.
  induction 1 as [|[k1 v1] m H _ IH]; [done|]. cbn in *. case_decide; [subst; by apply str_lt_irrefl in H|done].
Qed.
Lemma find_erase k k' m : map_sorted m → map_find k (map_erase k' m) = if decide (k = k') then None else map_find k m.
Proof.
  induction 1 as [|[k1 v1] m Hs IH Hf]; cbn; [by case_decide|].
  destruct (decide (k' = k1)) as [->|Hne].
  - destruct (decide (k = k1)) as [->|]; [by apply find_below|done].
  - cbn. destruct (decide (k = k1)) as [->|]; [by rewrite decide_False by congruence|done].
Qed.
Lemma set_keys (P : cstr → Prop) k v m : P k → Forall (λ x, P x.1) m → Forall (λ x, P x.1) (map_set k v m).
Proof. intros Hk. induction 1 as [|[k1 v1] m ? ? IH]; cbn; repeat (case_decide || case_match); by repeat constructor. Qed.
Lemma set_Forall (P : cstr * V → Prop) k v m : P (k, v) → Forall P m → Forall P (map_set k v m).
Proof.
  intros Hk Hm. induction Hm as [|[k1 v1] m Hx Hm IH]; cbn; [by constructor|].
  case_decide; [by constructor|]. destruct (str_ltb k k1); [constructor; [done|]|]; by constructor.
Qed.
Lemma set_sorted k v m : map_sorted m → map_sorted (map_set k v m).
Proof.
  induction 1 as [|[k1 v1] m Hs IH Hf]; cbn; [by repeat constructor|].
  case_decide; subst; [by constructor|]. destruct (str_ltb k k1) eqn:E.
  - constructor; [by constructor|]. constructor; [done|]. eapply Forall_impl; [exact Hf|]. intros x ?. by eapply str_lt_trans.
  - constructor; [done|]. apply (set_keys (str_lt k1)); [|done]. cbn.
    destruct (str_lt_total k k1) as [?|[?|?]]; [|done..]. unfold str_lt in *. congruence.
Qed.
Lemma erase_subset (P : cstr * V → Prop) k m : Forall P m → Forall P (map_erase k m).
Proof. induction 1 as [|[k1 v1] m ? ? IH]; cbn; [done|]. case_decide; [done|by constructor]. Qed.
Lemma erase_sorted k m : map_sorted m → map_sorted (map_erase k m).
Proof.
  induction 1 as [|[k1 v1] m Hs IH Hf]; cbn; [constructor|]. case_decide; [done|]. constructor; [done|]. by apply erase_subset.
Qed.

(** Two maps with the same lookups are the same. *)
Lemma strmap_ext m1 m2 : map_sorted m1 → map_sorted m2 → (∀ k, map_find k m1 = map_find k m2) → m1 = m2.
Proof.
  intros H1. revert m2. induction H1 as [|[k1 v1] m1 Hs1 IH Hf1]; intros m2 H2 E.
  - destruct H2 as [|[k2 v2] m2 _ _]; [done|]. specialize (E k2). cbn in E. by rewrite decide_True in E.
  - destruct H2 as [|[k2 v2] m2 Hs2 Hf2].
    { specialize (E k1). cbn in E. by rewrite decide_True in E. }
    assert (k1 = k2) as ->.
    { destruct (str_lt_total k1 k2) as [Hl|[?|Hl]]; [exfalso|done|exfalso].
      - specialize (E k1). rewrite (find_below k1 ((k2, v2) :: m2)) in E; [cbn in E; by rewrite decide_True in E|].
        constructor; [done|]. eapply Forall_impl; [exact Hf2|]. intros x ?. by eapply str_lt_trans.
      - specialize (E k2). rewrite (find_below k2 ((k1, v1) :: m1)) in E; [cbn in E; by rewrite decide_True in E|].
        constructor; [done|]. eapply Forall_impl; [exact Hf1|]. intros x ?. by eapply str_lt_trans. }
    assert (E2 := E k2). cbn in E2. rewrite !decide_True in E2 by done. injection E2 as ->. f_equal. apply IH; [done|].
    intros k. specialize (E k). cbn in E. case_decide; [|done]. subst. by rewrite !find_below.
Qed.

Lemma set_comm k1 v1 k2 v2 m : map_sorted m → k1 ≠ k2 → map_set k1 v1 (map_set k2 v2 m) = map_set k2 v2 (map_set k1 v1 m).
Proof.
  intros Hm Hne. apply strmap_ext; [by do 2 apply set_sorted..|]. intros k. rewrite !find_set. repeat case_decide; congruence.
Qed.
Lemma set_erase k v m : map_sorted m → map_set k v (map_erase k m) = map_set k v m.
Proof.
  intros Hm. apply strmap_ext; [apply set_sorted; by apply erase_sorted|by apply set_sorted|].
  intros k'. rewrite !find_set, find_erase by done. by repeat case_decide.
Qed.

(** A map is what comes out when its entries are set one by one. *)
Lemma set_last k v m : map_sorted m → Forall (λ x, str_lt x.1 k) m → map_set k v m = m ++ [(k, v)].
Proof.
  intros _. induction 1 as [|[k1 v1] m Hk _ IH]; [done|]. cbn in *. rewrite IH. case_decide.
  { subst. by apply str_lt_irrefl in Hk. }
  destruct (str_ltb k k1) eqn:E; [|done]. exfalso. apply (str_lt_irrefl k). by eapply str_lt_trans.
Qed.
Lemma rebuild_app m0 m : map_sorted (m0 ++ m) → foldl (λ a x, map_set x.1 x.2 a) m0 m = m0 ++ m.
Proof.
  revert m0. induction m as [|[k v] m IH]; intros m0 H; [by rewrite app_nil_r|]. cbn.
  assert (H0 := H). unfold map_sorted in H0. apply StronglySorted_app in H0 as (Hx & H0 & _).
  rewrite set_last; [|done|].
  - rewrite IH; [by rewrite <-app_assoc|]. by rewrite <-app_assoc.
  - apply Forall_forall. intros x Hin. apply (Hx x (k, v) Hin). by left.
Qed.
Lemma rebuild m : map_sorted m → foldl (λ a x, map_set x.1 x.2 a) [] m = m.
Proof. by apply (rebuild_app []). Qed.
End map_lemmas.

(** ** Lemmas on streams *)
Lemma break_spec p s a b : break p s = (a, b) → s = a ++ b ∧ Forall (λ c, p c = false) a ∧ (∀ c b', b = c :: b' → p c = true).
Proof.
  revert a b. induction s as [|c s IH]; cbn; intros a b; [intros [= <- <-]; by repeat split|].
  destruct (p c) eqn:E; [intros [= <- <-]; split; [done|]; split; [done|]; by intros c' b' [= <- <-]|].
  destruct (break p s) as [a' b'] eqn:Eb. intros [= <- <-]. destruct (IH _ _ eq_refl) as (-> & ? & ?).
  split; [done|]. split; [by constructor|done].
Qed.
Lemma break_app p a b : Forall (λ c, p c = false) a → (∀ c b', b = c :: b' → p c = true) → break p (a ++ b) = (a, b).
Proof.
  intros Ha Hb. induction Ha as [|c a Hc _ IH]; cbn; [|by rewrite Hc, IH].
  destruct b as [|c b]; [done|]. cbn. by rewrite (Hb c b eq_refl).
Qed.

Lemma getline_delim d a b : d ∉ a → getline d (a ++ d :: b) = (a, b).
Proof.
  intros Hd. unfold getline. rewrite break_app; [done| |].
  - apply Forall_forall. intros c Hc. apply bool_decide_eq_false. intros ->. done.
  - intros c b' [= <- <-]. by apply bool_decide_eq_true.
Qed.
Lemma getline_all d a : d ∉ a → getline d a = (a, []).
Proof.
  intros Hd. unfold getline. rewrite <-(app_nil_r a) at 1. rewrite break_app; [done| |done].
  apply Forall_forall. intros c Hc. apply bool_decide_eq_false. intros ->. done.
Qed.
Lemma getline_no_delim d s : d ∉ (getline d s).1.
Proof.
  unfold getline. destruct (break _ s) as [a b] eqn:E. apply break_spec in E as (_ & Ha & _). cbn. intros Hin.
  rewrite Forall_forall in Ha. specialize (Ha d Hin). by apply bool_decide_eq_false in Ha.
Qed.
Lemma getline_incl d s : (getline d s).1 ⊆ s ∧ (getline d s).2 ⊆ s.
Proof.
  unfold getline. destruct (break _ s) as [a b] eqn:E. apply break_spec in E as (-> & _). cbn.
  split; [set_solver|]. intros c Hc. apply elem_of_app. right. rewrite <-(take_drop 1 b). apply elem_of_app. by right.
Qed.

Lemma skip_spaces_suffix s : ∃ p, s = p ++ skip_spaces s.
Proof.
  induction s as [|c s [p IH]]; [by exists []|]. cbn. destruct (is_space c); [|by exists []].
  exists (c :: p). cbn. by rewrite <-IH.
Qed.
Lemma skip_spaces_incl s : skip_spaces s ⊆ s.
Proof. destruct (skip_spaces_suffix s) as [p Hp]. rewrite Hp at 2. set_solver. Qed.
Lemma get_word_incl s : (get_word s).1 ⊆ s ∧ (get_word s).2 ⊆ s.
Proof.
  unfold get_word. destruct (break is_space (skip_spaces s)) as [a b] eqn:E. apply break_spec in E as (E & _). cbn.
  assert (H := skip_spaces_incl s). rewrite E in H. set_solver.
Qed.
Lemma get_word_word s : Forall (λ c, is_space c = false) (get_word s).1.
Proof. unfold get_word. destruct (break _ _) as [a b] eqn:E. by apply break_spec in E as (_ & ? & _). Qed.
(** What is left after a word begins with white space. *)
Lemma get_word_rest s c r : (get_word s).2 = c :: r → is_space c = true.
Proof. unfold get_word. destruct (break _ _) as [a b] eqn:E. apply break_spec in E as (_ & _ & Hb). by apply Hb. Qed.

Lemma get_word_app w r : w ≠ [] → Forall (λ c, is_space c = false) w → (∀ c r', r = c :: r' → is_space c = true) → get_word (w ++ r) = (w, r).
Proof.
  intros Hw Hf Hr. unfold get_word. destruct w as [|c w]; [done|]. cbn [app skip_spaces].
  inversion Hf; subst. rewrite H1. apply (break_app is_space (c :: w) r); done.
Qed.
Lemma get_word_blank r : get_word (BLANK :: r) = get_word r.
Proof. done. Qed.

Lemma split_not_nil d s : split d s ≠ [].
Proof. destruct s as [|c s]; cbn; [done|]. case_decide; [done|]. by destruct (split d s). Qed.
Lemma split_no_delim d s : d ∉ s → split d s = [s].
Proof.
  induction s as [|c s IH]; cbn; [done|]. intros H. rewrite decide_False by set_solver. by rewrite IH by set_solver.
Qed.

Lemma file_lines_line l t : NL ∉ l → file_lines (l ++ NL :: t) = l :: file_lines t.
Proof.
  induction l as [|c l IH]; cbn; intros H; [done|]. destruct (decide (c = NL)) as [->|]; [set_solver|]. by rewrite IH by set_solver.
Qed.
Lemma fields_delim d l t : d ∉ l → fields d (l ++ d :: t) = l :: fields d t.
Proof.
  induction l as [|a l IH]; intros H; cbn [app fields]; [by rewrite decide_True|].
  apply not_elem_of_cons in H as [H1 H2]. rewrite decide_False by done. by rewrite IH.
Qed.
Lemma fields_all d l : d ∉ l → l ≠ [] → fields d l = [l].
Proof.
  induction l as [|a l IH]; intros H Hn; [done|]. apply not_elem_of_cons in H as [H1 H2]. cbn [fields].
  rewrite decide_False by done. destruct l as [|b l]; [done|]. by rewrite IH.
Qed.
Lemma file_lines_app ls t : Forall (λ l, NL ∉ l) ls → file_lines (concat (map (λ l, l ++ [NL]) ls) ++ t) = ls ++ file_lines t.
Proof.
  induction 1 as [|l ls Hl _ IH]; [done|]. cbn [map concat]. rewrite <-!app_assoc.
  etransitivity; [by apply (file_lines_line l)|]. cbn [app]. f_equal. exact IH.
Qed.
Lemma file_lines_no_nl s : Forall (λ l, NL ∉ l) (file_lines s).
Proof.
  induction s as [|c s IH]; cbn; [done|]. case_decide; [by constructor; [set_solver|]|].
  destruct (file_lines s) as [|l ls]; [constructor; [set_solver|done]|]. inversion IH; subst. constructor; [set_solver|done].
Qed.

(** ** Lemmas on numbers *)
Lemma digit_in_dec d : 0 ≤ d < 10 → digit_in 10 (char (48 + d)) = Some d.
Proof. intros. assert (d = 0 ∨ d = 1 ∨ d = 2 ∨ d = 3 ∨ d = 4 ∨ d = 5 ∨ d = 6 ∨ d = 7 ∨ d = 8 ∨ d = 9) as Hd by lia. naive_solver. Qed.
Lemma digits_dec fuel n acc a : 0 ≤ n < 10 ^ Z.of_nat fuel →
  ∃ k, 0 ≤ k ∧ digits 10 a (dec_digits fuel n acc) = digits 10 (a * 10 ^ k + n) acc.
Proof.
  revert n acc a. induction fuel as [|fuel IH]; intros n acc a Hn; [cbn in Hn; exists 0; cbn; split; [done|f_equal; lia]|].
  cbn [dec_digits]. destruct (Z.ltb_spec n 10).
  - exists 1. split; [done|]. cbn [digits]. rewrite digit_in_dec by lia. f_equal; lia.
  - replace (10 ^ Z.of_nat (S fuel)) with (10 * 10 ^ Z.of_nat fuel) in Hn by (rewrite Nat2Z.inj_succ, Z.pow_succ_r by lia; lia).
    destruct (IH (n / 10) (char (48 + n mod 10) :: acc) a) as (k & Hk & ->).
    { split; [apply Z.div_pos; lia|]. apply Z.div_lt_upper_bound; lia. }
    exists (k + 1). split; [lia|]. cbn [digits]. rewrite digit_in_dec by (apply Z.mod_pos_bound; lia). f_equal.
    rewrite Z.pow_add_r by lia. assert (H' := Z.div_mod n 10). lia.
Qed.
Lemma dec_digits_head fuel n acc : 0 ≤ n < 10 ^ Z.of_nat (S fuel) → ∃ d s, 0 ≤ d < 10 ∧ dec_digits (S fuel) n acc = char (48 + d) :: s.
Proof.
  revert n acc. induction fuel as [|fuel IH]; intros n acc Hn.
  - cbn in Hn. exists n, acc. split; [lia|]. cbn [dec_digits]. by rewrite (proj2 (Z.ltb_lt n 10)) by lia.
  - cbn [dec_digits]. destruct (Z.ltb_spec n 10); [exists n, acc; split; [lia|done]|]. apply IH.
    replace (10 ^ Z.of_nat (S (S fuel))) with (10 * 10 ^ Z.of_nat (S fuel)) in Hn by (rewrite (Nat2Z.inj_succ (S fuel)), Z.pow_succ_r by lia; lia).
    split; [apply Z.div_pos; lia|]. apply Z.div_lt_upper_bound; lia.
Qed.
Lemma dec_digits_not_space fuel n acc : 0 ≤ n → Forall (λ c, is_space c = false) acc → Forall (λ c, is_space c = false) (dec_digits fuel n acc).
Proof.
  revert n acc. induction fuel as [|fuel IH]; intros n acc Hn Ha; [done|]. cbn [dec_digits].
  assert (Hd : ∀ d, 0 ≤ d < 10 → is_space (char (48 + d)) = false).
  { intros d Hd. assert (d = 0 ∨ d = 1 ∨ d = 2 ∨ d = 3 ∨ d = 4 ∨ d = 5 ∨ d = 6 ∨ d = 7 ∨ d = 8 ∨ d = 9) as Hd' by lia. naive_solver. }
  destruct (Z.ltb_spec n 10); [constructor; [apply Hd; lia|done]|].
  apply IH; [apply Z.div_pos; lia|]. constructor; [apply Hd, Z.mod_pos_bound; lia|done].
Qed.
Lemma dec_not_space n : Forall (λ c, is_space c = false) (dec n).
Proof. unfold dec. destruct (Z.ltb_spec n 0); [constructor; [done|]|]; apply dec_digits_not_space; (lia || done). Qed.
Lemma dec_not_nil n : -2147483648 ≤ n ≤ INT_MAX → dec n ≠ [].
Proof.
  unfold INT_MAX. intros. unfold dec. destruct (Z.ltb_spec n 0); [done|].
  destruct (dec_digits_head 19 n []) as (d & s & _ & E); [|by rewrite E].
  change (10 ^ Z.of_nat 20) with 100000000000000000000. lia.
Qed.

Lemma strip_prefix_10 s : strip_prefix 10 s = (10, s).
Proof. by destruct s as [|c [|x [|d s]]]. Qed.
Lemma digit_char d : 0 ≤ d < 10 →
  is_space (char (48 + d)) = false ∧ code (char (48 + d)) =? 45 = false ∧ code (char (48 + d)) =? 43 = false.
Proof.
  intros. assert (d = 0 ∨ d = 1 ∨ d = 2 ∨ d = 3 ∨ d = 4 ∨ d = 5 ∨ d = 6 ∨ d = 7 ∨ d = 8 ∨ d = 9) as Hd' by lia.
  destruct_or! Hd'; subst; vm_compute; done.
Qed.

(** Reading the digits of a number that an [int] can hold. *)
Lemma strtol_digits long_bits n : 32 ≤ long_bits → 0 ≤ n ≤ 2147483648 →
  ∃ c s, dec_digits 20 n [] = c :: s ∧ is_space c = false ∧ code c =? 45 = false ∧ code c =? 43 = false ∧
    is_Some (digit_in 10 c) ∧ digits 10 0 (c :: s) = (n, []).
Proof.
  intros Hl Hn. assert (n < 10 ^ 20) by (change (10 ^ 20) with 100000000000000000000; lia).
  destruct (dec_digits_head 19 n []) as (d & s & Hd & E); [by split; [lia|]|].
  destruct (digits_dec 20 n [] 0) as (k & _ & Ek); [by split; [lia|]|].
  exists (char (48 + d)), s. rewrite E in Ek. destruct (digit_char d Hd) as (H1 & H2 & H3).
  split_and!; [exact E|exact H1|exact H2|exact H3|rewrite digit_in_dec by done; by eexists|]. by rewrite Ek.
Qed.

Lemma atoi_dec long_bits n : 32 ≤ long_bits → -2147483648 ≤ n ≤ INT_MAX → atoi long_bits (dec n) = n.
Proof.
  intros Hl Hn. unfold atoi. rewrite <-(int32_small n) at 2 by done. f_equal.
  assert (Hp : 2 ^ 31 ≤ 2 ^ (long_bits - 1)) by (apply Z.pow_le_mono_r; lia). change (2 ^ 31) with 2147483648 in Hp.
  unfold INT_MAX in Hn. destruct (strtol_digits long_bits (Z.abs n)) as (c & s & E & H1 & H2 & H3 & [d Hd] & Ed); [done|lia|].
  unfold strtol, dec. destruct (Z.ltb_spec n 0).
  - replace (- n) with (Z.abs n) by lia. rewrite E. cbn [skip_spaces]. change (is_space (char 45)) with false. cbv iota.
    cbn [sign]. change (code (char 45) =? 45) with true. cbv iota. rewrite strip_prefix_10, Hd, Ed. cbn [fst]. lia.
  - replace n with (Z.abs n) at 1 by lia. rewrite E. cbn [skip_spaces]. rewrite H1. cbn [sign]. rewrite H2, H3.
    rewrite strip_prefix_10, Hd, Ed. cbn [fst]. lia.
Qed.
