(* ===== verification/XmppProxy.v ===== *)
(** * The connection of the chat service

    The class ADXmppProxy of [src/sources/services/xmproxy/srv/src/ADXmppProxy.cpp]
    between the library gloox, which speaks XMPP, and the class XmppMgr.  gloox is
    not in the repository: its client object is a number, its roster a list of
    addresses with their presence, and what it is told to send a list of
    actions.  Objects of the library that belong to a client, such as the
    sessions kept in [mySessions], are freed with it. *)

From Stdlib Require Import ZArith Lia Ascii String Sorted.
From stdpp Require Import base list sorting gmap strings.
From S2P Require Import Prelude CString CxxStd.

(** What the service tells gloox to do. *)
Inductive xmpp_action :=
| Send (to body : cstr)
| SendEvent (to body subject : cstr)
| Subscribe (jid : cstr)
| Unsubscribe (jid : cstr).
#[export] Instance xmpp_action_eq_dec : EqDecision xmpp_action.
Proof. solve_decision. Defined.

Record ADXmppProxy := MkProxy {
  j : option Z;                      (* the [Client], numbered in the order of creation *)
  clients : Z;                       (* how many there have been *)
  iConnect : bool;
  AdminBuddy : cstr;
  BkupAdminBuddy : cstr;
  AcceptBuddyList : list cstr;
  mySessions : list (cstr * Z);      (* sessions with the client they belong to *)
  roster : list (cstr * Z);          (* addresses and their presence, kept by gloox *)
  actions : list xmpp_action         (* what gloox was told, in order *)
}.
Definition set_j v p := MkProxy v (clients p) (iConnect p) (AdminBuddy p) (BkupAdminBuddy p) (AcceptBuddyList p) (mySessions p) (roster p) (actions p).
Definition set_clients v p := MkProxy (j p) v (iConnect p) (AdminBuddy p) (BkupAdminBuddy p) (AcceptBuddyList p) (mySessions p) (roster p) (actions p).
Definition set_iConnect v p := MkProxy (j p) (clients p) v (AdminBuddy p) (BkupAdminBuddy p) (AcceptBuddyList p) (mySessions p) (roster p) (actions p).
Definition set_AdminBuddy v p := MkProxy (j p) (clients p) (iConnect p) v (BkupAdminBuddy p) (AcceptBuddyList p) (mySessions p) (roster p) (actions p).
Definition set_BkupAdminBuddy v p := MkProxy (j p) (clients p) (iConnect p) (AdminBuddy p) v (AcceptBuddyList p) (mySessions p) (roster p) (actions p).
Definition set_AcceptBuddyList v p := MkProxy (j p) (clients p) (iConnect p) (AdminBuddy p) (BkupAdminBuddy p) v (mySessions p) (roster p) (actions p).
Definition set_mySessions v p := MkProxy (j p) (clients p) (iConnect p) (AdminBuddy p) (BkupAdminBuddy p) (AcceptBuddyList p) v (roster p) (actions p).
Definition set_roster v p := MkProxy (j p) (clients p) (iConnect p) (AdminBuddy p) (BkupAdminBuddy p) (AcceptBuddyList p) (mySessions p) v (actions p).
Definition set_actions v p := MkProxy (j p) (clients p) (iConnect p) (AdminBuddy p) (BkupAdminBuddy p) (AcceptBuddyList p) (mySessions p) (roster p) v.

(** [ADXmppProxy::ADXmppProxy] *)
Definition ADXmppProxy_new : ADXmppProxy := MkProxy None 0 false [] [] [] [] [] [].

Abbreviation PM := (M ADXmppProxy).

Definition act (a : xmpp_action) : PM unit := modify (λ p, set_actions (actions p ++ [a]) p).

(** [j->…]: the client, which must be there. *)
Definition client : PM Z := g ← gets j; of_opt g.
(** A session is used: gone with its client, it must not be. *)
Definition use_session (g : Z) : PM unit := c ← gets j; if decide (c = Some g) then mret () else oops.

(** ** Connecting: [connect] up to its loop, and after it *)
Definition connect_begin (adminbuddy bkupadminbuddy : cstr) : PM unit :=
  c ← gets j;
  match c with
  | Some _ => mret ()
  | None =>
      modify (λ p, set_BkupAdminBuddy bkupadminbuddy (set_AdminBuddy adminbuddy p));;
      modify (λ p, set_roster [] (set_clients (clients p + 1) (set_j (Some (clients p)) p)))
  end.
(** [delete( j ); j=NULL;] *)
Definition connect_end : PM unit := modify (λ p, set_j None p).
Definition onConnect : PM unit := modify (set_iConnect true).
Definition onDisconnect : PM unit := modify (set_iConnect false).

(** ** Messages *)
Definition handleMessageSession (bare : cstr) : PM unit :=
  c ← gets j;
  match c with
  | None => mret ()
  | Some g => modify (λ p, set_mySessions (map_set bare g (mySessions p)) p)
  end.

Definition send_reply (reply sender : cstr) : PM Z :=
  c ← gets j;
  match c with
  | None => mret (-1)
  | Some _ =>
      s ← gets mySessions;
      match map_find sender s with
      | Some g => use_session g;; act (Send sender reply);; mret 0
      | None => mret (-1)
      end
  end.

Definition in_roster (address : cstr) (r : list (cstr * Z)) : bool := bool_decide (address ∈ r.*1).

Definition SendMessageToBuddy (address body subject : cstr) : PM bool :=
  up ← gets iConnect;
  if negb up then mret false
  else
    client;;
    r ← gets roster;
    if in_roster address r then
      s ← gets mySessions;
      match map_find address s with
      | Some g => use_session g
      | None => mret ()
      end;;
      act (SendEvent address body subject);;
      mret true
    else mret false.

Definition IsMyBuddy (buddyaddress : cstr) : PM bool :=
  up ← gets iConnect;
  if negb up then mret false
  else client;; r ← gets roster; mret (in_roster buddyaddress r).

(** ** Buddies *)
Definition lines_text (l : list cstr) : cstr := concat (map (λ a, a ++ [NL]) l).
Definition get_buddy_list (returnval : cstr) : PM cstr :=
  client;; r ← gets roster; mret (returnval ++ lines_text r.*1).
Definition get_accept_buddy_list (returnval : cstr) : PM cstr :=
  l ← gets AcceptBuddyList; mret (returnval ++ lines_text l).

Definition accept_buddy (buddy : cstr) : PM Z :=
  l ← gets AcceptBuddyList;
  if bool_decide (buddy ∈ l) then mret 0
  else modify (λ p, set_AcceptBuddyList (AcceptBuddyList p ++ [buddy]) p);; mret 0.
(** [AcceptBuddyList.erase] of the first that [std::find] finds. *)
Fixpoint erase_first (b : cstr) (l : list cstr) : list cstr :=
  match l with [] => [] | x :: l => if decide (x = b) then l else x :: erase_first b l end.
Definition remove_buddy (buddy : cstr) : PM Z :=
  l ← gets AcceptBuddyList;
  if bool_decide (buddy ∈ l) then modify (λ p, set_AcceptBuddyList (erase_first buddy (AcceptBuddyList p)) p);; mret 0
  else mret (-1).

Definition is_admin (p : ADXmppProxy) (user : cstr) : bool := bool_decide (user = AdminBuddy p ∨ user = BkupAdminBuddy p).
Definition is_admin_user (user : cstr) : PM bool := gets (λ p, is_admin p user).

Definition subscribe_buddy (buddy : cstr) : PM Z := client;; act (Subscribe buddy);; mret 0.
Definition unsubscribe_buddy (buddy : cstr) : PM Z := client;; act (Unsubscribe buddy);; mret 0.
(** [getRosterItem(id)->online()]: the item must be there. *)
Definition get_buddy_online_state (buddy : cstr) : PM Z :=
  client;; r ← gets roster;
  i ← of_opt (list_find (λ x, x.1 = buddy) r);
  mret (i.2).2.

(** A request to be allowed to see the presence of this account. *)
Definition handleSubscriptionRequest (bare : cstr) : PM bool :=
  a ← is_admin_user bare;
  if a : bool then mret true
  else l ← gets AcceptBuddyList; mret (bool_decide (bare ∈ l)).
Definition handleUnsubscriptionRequest (bare : cstr) : PM bool := remove_buddy bare;; mret true.

(** Whether a request is let through: [receive_request] up to its callback. *)
Definition authorized (sender : cstr) : PM bool :=
  a ← is_admin_user sender;
  if a : bool then mret true
  else client;; r ← gets roster; mret (in_roster sender r).
