(* ===== verification/XmppMgr.v ===== *)
(** * The chat service

    The class XmppMgr of [src/sources/services/xmproxy/srv/src/XmppMgr.cpp]: it takes
    commands that buddies send as chat messages, expands aliases, asks the other
    services over JSON-RPC, and answers; and the class EvntHandler
    ([EvntHandler.cpp]), which gets the events of the other services.  [XmppProxy]
    has the connection.

    What the other services answer, what names resolve to and what a sonoff device
    sends is given by functions of what was asked before.  Answers are texts that
    fit the buffers they are put in.  Log messages are not modelled, and neither is
    the answer of the AI agent, a parameter.  [XmppMgrProofs] has the theorems. *)

From Stdlib Require Import ZArith Lia Ascii String Sorted.
From stdpp Require Import base list sorting gmap strings.
From S2P Require Import Prelude CString RpcResult CxxStd XmppProxy.

(** ** Data: [XmppMgr.h] *)
Inductive EXMPP_CMD_TYPES :=
| EXMPP_CMD_SMS_DELETE_ALL | EXMPP_CMD_SMS_DELETE | EXMPP_CMD_SMS_GET | EXMPP_CMD_SMS_SEND
| EXMPP_CMD_SMS_LIST_UPDATE | EXMPP_CMD_SMS_GET_TOTAL | EXMPP_CMD_FMW_GET_VERSION | EXMPP_CMD_FMW_UPDATE
| EXMPP_CMD_FMW_UPDATE_STS | EXMPP_CMD_FMW_UPDATE_RES | EXMPP_CMD_FMW_REBOOT | EXMPP_CMD_FMW_UPTIME
| EXMPP_CMD_FMW_HOSTNAME | EXMPP_CMD_FMW_GET_MYIP | EXMPP_CMD_FMW_RESET_HOSTNAME | EXMPP_CMD_DIAL_VOICE
| EXMPP_CMD_DIAL_USSD | EXMPP_CMD_GET_USSD | EXMPP_CMD_DEBUG_LOG_STS | EXMPP_CMD_GSM_MODEM_IDENT
| EXMPP_CMD_LOG_UPDATE | EXMPP_CMD_LOG_COUNT | EXMPP_CMD_LOG_MSG | EXMPP_CMD_FMW_GET_LOCALIP
| EXMPP_CMD_FMW_POWEROFF | EXMPP_CMD_GPIO | EXMPP_CMD_GSM_EVENT_NOTIFY | EXMPP_CMD_GPIO_EVENT_NOTIFY
| EXMPP_CMD_ALIAS | EXMPP_CMD_SLEEP | EXMPP_CMD_ACCOUNT | EXMPP_CMD_BOTNAME | EXMPP_CMD_BUDDY_LIST
| EXMPP_CMD_SHELLCMD | EXMPP_CMD_SHELLCMD_RESP | EXMPP_CMD_DEVIDENT | EXMPP_CMD_SHUTDOWN | EXMPP_CMD_SONOFF
| EXMPP_CMD_DISPCLEAR | EXMPP_CMD_DISPPRINT | EXMPP_CMD_DISPBKLT | EXMPP_CMD_SHELLCMD_TRIG
| EXMPP_CMD_BUDDY_ADD | EXMPP_CMD_BUDDY_REMOVE | EXMPP_CMD_BUDDY_SUBSCRIBE | EXMPP_CMD_BUDDY_UNSUBSCRIBE
| EXMPP_CMD_ACCEPT_BUDDY_LIST | EXMPP_CMD_RELAY_MESSAGE | EXMPP_CMD_UNKNOWN | EXMPP_CMD_NONE.
#[export] Instance EXMPP_CMD_TYPES_eq_dec : EqDecision EXMPP_CMD_TYPES.
Proof. solve_decision. Defined.

Record XmppCmdEntry := MkCmdEntry { cmdMsg : cstr; sender : cstr }.

Inductive EXMPP_EVNT_TYPES := EXMPP_EVNT_GSM | EXMPP_EVNT_GPIO | EXMPP_EVNT_UNKNOWN | EXMPP_EVNT_NONE.
#[export] Instance EXMPP_EVNT_TYPES_eq_dec : EqDecision EXMPP_EVNT_TYPES.
Proof. solve_decision. Defined.
(** [EXMPP_EVNT_TYPES_TABL] *)
Definition evnt_type_name (t : EXMPP_EVNT_TYPES) : cstr :=
  match t with
  | EXMPP_EVNT_GSM => str "gsm" | EXMPP_EVNT_GPIO => str "gpio"
  | EXMPP_EVNT_UNKNOWN => str "unknown" | EXMPP_EVNT_NONE => str "none"
  end.

Record AyncEventEntry := MkAsync { taskID : Z; srvPort : Z; xmppTID : Z; to : cstr }.
Definition FindAsyncEventEntry (tid port : Z) (e : AyncEventEntry) : bool := (taskID e =? tid) && (srvPort e =? port).

Record EventSubscrEntry := MkSubscr { subscriber : cstr; m_EvntType : EXMPP_EVNT_TYPES; m_EvntArg : Z; m_Status : bool }.
Definition FindEventSubscrEntry (Addr : cstr) (Arg : Z) (EvntType : EXMPP_EVNT_TYPES) (pEntry : EventSubscrEntry) : bool :=
  match m_EvntType pEntry with
  | EXMPP_EVNT_GSM => bool_decide (subscriber pEntry = Addr ∧ m_EvntType pEntry = EvntType)
  | EXMPP_EVNT_GPIO => bool_decide (subscriber pEntry = Addr ∧ m_EvntArg pEntry = Arg ∧ m_EvntType pEntry = EvntType)
  | _ => false
  end.

Inductive EXMPP_USER_ACCESS_TYPES :=
| EXMPP_USER_ACCESS_ADMIN | EXMPP_USER_ACCESS_READWRITE | EXMPP_USER_ACCESS_READONLY
| EXMPP_USER_ACCESS_UNKNOWN | EXMPP_USER_ACCESS_NONE.
Record XMPROXY_CMD_TABLE := MkCmd {
  cmdsts : bool; cmd : EXMPP_CMD_TYPES; cmd_name : cstr; cmd_arg : cstr; cmdaccess : EXMPP_USER_ACCESS_TYPES
}.
Definition row b c (n a : string) acc := MkCmd b c (str n) (str a) acc.
Definition xmproxy_cmd_table : list XMPROXY_CMD_TABLE := [
  row true EXMPP_CMD_GSM_MODEM_IDENT "gsmcheck" "" EXMPP_USER_ACCESS_READWRITE;
  row true EXMPP_CMD_SMS_LIST_UPDATE "smsupdate" "" EXMPP_USER_ACCESS_READWRITE;
  row true EXMPP_CMD_SMS_GET_TOTAL "smstotal" "" EXMPP_USER_ACCESS_READWRITE;
  row true EXMPP_CMD_SMS_GET "smsget" "<zero_index_msg>" EXMPP_USER_ACCESS_READWRITE;
  row true EXMPP_CMD_SMS_DELETE_ALL "smsdeleteall" "" EXMPP_USER_ACCESS_READWRITE;
  row true EXMPP_CMD_SMS_SEND "smssend" "<phone-num> <msg>" EXMPP_USER_ACCESS_READWRITE;
  row true EXMPP_CMD_DIAL_VOICE "dialvoice" "<phone-num>" EXMPP_USER_ACCESS_READWRITE;
  row true EXMPP_CMD_DIAL_USSD "dialussd" "<ussd-code>" EXMPP_USER_ACCESS_READWRITE;
  row true EXMPP_CMD_GET_USSD "readussd" "" EXMPP_USER_ACCESS_READWRITE;
  row true EXMPP_CMD_FMW_GET_VERSION "version" "" EXMPP_USER_ACCESS_READWRITE;
  row true EXMPP_CMD_FMW_UPDATE "sysupdate" "" EXMPP_USER_ACCESS_READWRITE;
  row true EXMPP_CMD_FMW_REBOOT "reboot" "" EXMPP_USER_ACCESS_READWRITE;
  row true EXMPP_CMD_FMW_POWEROFF "poweroff" "" EXMPP_USER_ACCESS_READWRITE;
  row true EXMPP_CMD_FMW_UPTIME "uptime" "" EXMPP_USER_ACCESS_READWRITE;
  row true EXMPP_CMD_FMW_HOSTNAME "hostname" "[name]" EXMPP_USER_ACCESS_READWRITE;
  row true EXMPP_CMD_FMW_RESET_HOSTNAME "resethostname" "" EXMPP_USER_ACCESS_READWRITE;
  row true EXMPP_CMD_FMW_GET_MYIP "publicip" "" EXMPP_USER_ACCESS_READWRITE;
  row true EXMPP_CMD_FMW_GET_LOCALIP "localip" "" EXMPP_USER_ACCESS_READWRITE;
  row false EXMPP_CMD_DEBUG_LOG_STS "logsts" "" EXMPP_USER_ACCESS_READWRITE;
  row false EXMPP_CMD_LOG_UPDATE "logupdate" "" EXMPP_USER_ACCESS_READWRITE;
  row false EXMPP_CMD_LOG_COUNT "logcount" "" EXMPP_USER_ACCESS_READWRITE;
  row false EXMPP_CMD_LOG_MSG "logmsg" "<zero_index_lineNum>" EXMPP_USER_ACCESS_READWRITE;
  row true EXMPP_CMD_GPIO "gpio" "<gpio_num> [sts(0/1)]" EXMPP_USER_ACCESS_READWRITE;
  row true EXMPP_CMD_GSM_EVENT_NOTIFY "eventgsm" "<sts[0/1]>" EXMPP_USER_ACCESS_READWRITE;
  row true EXMPP_CMD_GPIO_EVENT_NOTIFY "eventgpio" "<gpio_num> [sts(0/1)]" EXMPP_USER_ACCESS_READWRITE;
  row true EXMPP_CMD_ALIAS "alias" "name=cmd" EXMPP_USER_ACCESS_READWRITE;
  row true EXMPP_CMD_SLEEP "sleep" "<seconds>" EXMPP_USER_ACCESS_READWRITE;
  row true EXMPP_CMD_ACCOUNT "account" "" EXMPP_USER_ACCESS_READWRITE;
  row true EXMPP_CMD_BOTNAME "botname" "[name]" EXMPP_USER_ACCESS_READWRITE;
  row true EXMPP_CMD_BUDDY_LIST "buddylist" "" EXMPP_USER_ACCESS_READWRITE;
  row true EXMPP_CMD_SHELLCMD "shellcmd" "<command>" EXMPP_USER_ACCESS_READWRITE;
  row true EXMPP_CMD_SHELLCMD_RESP "shellcmdresp" "" EXMPP_USER_ACCESS_READWRITE;
  row true EXMPP_CMD_SHELLCMD_TRIG "shellcmdtrig" "<command>" EXMPP_USER_ACCESS_READWRITE;
  row true EXMPP_CMD_DEVIDENT "identify" "" EXMPP_USER_ACCESS_READWRITE;
  row true EXMPP_CMD_SHUTDOWN "xmpshutdown" "" EXMPP_USER_ACCESS_ADMIN;
  row true EXMPP_CMD_SONOFF "sonoff" "<ip/hostname> [sts(on/off/toggle)]" EXMPP_USER_ACCESS_READWRITE;
  row true EXMPP_CMD_DISPCLEAR "dispclear" "" EXMPP_USER_ACCESS_READWRITE;
  row true EXMPP_CMD_DISPPRINT "display" "<line1/line2/line3..]> <message>" EXMPP_USER_ACCESS_READWRITE;
  row true EXMPP_CMD_DISPBKLT "dispbklt" "<sts[on/off]>" EXMPP_USER_ACCESS_READWRITE;
  row true EXMPP_CMD_BUDDY_ADD "acceptbuddy" "[buddyID]" EXMPP_USER_ACCESS_ADMIN;
  row true EXMPP_CMD_BUDDY_REMOVE "rejectbuddy" "[buddyID]" EXMPP_USER_ACCESS_ADMIN;
  row true EXMPP_CMD_BUDDY_SUBSCRIBE "subscribe" "[buddyID]" EXMPP_USER_ACCESS_ADMIN;
  row true EXMPP_CMD_BUDDY_UNSUBSCRIBE "unsubscribe" "[buddyID]" EXMPP_USER_ACCESS_ADMIN;
  row true EXMPP_CMD_ACCEPT_BUDDY_LIST "acceptbuddylist" "" EXMPP_USER_ACCESS_READWRITE;
  row true EXMPP_CMD_RELAY_MESSAGE "relaymsg" "<buddyID> <message>" EXMPP_USER_ACCESS_ADMIN
].

(** What the service asks of others, in order: connections and requests of
    JSON-RPC, pauses, name lookups and the requests of a sonoff device. *)
Inductive rpc_arg := ArgString (s : cstr) | ArgInt (n : Z).
Inductive request :=
| Connect (port : Z)
| Call (method : cstr) (params : list (cstr * rpc_arg))
| Usleep (usec : Z)
| Resolve (host : cstr)
| HttpConnect (ip : cstr)
| HttpGet (path : cstr).

Definition ADCMN_PORT_SYSMGR : Z := 40001.
Definition ADCMN_PORT_GPIOCTL : Z := 40003.
Definition ADCMN_PORT_BBOXSMS : Z := 40004.
Definition ADCMN_PORT_XMPROXY : Z := 40005.
Definition BRBOX_SYS_CONFIG_FILE_PATH : cstr := str "/etc/sysconfig.txt".
Definition GITHUB_FMW_DOWNLOAD_FOLDER : cstr := str "http://github.com/hackboxguy/downloads/raw/master/".
Definition SHELLCMD_RESP_FILE_PATH : cstr := str "/tmp/shellcmd.resp".
Definition SHELLCMD_RESP_MAX_FILE_SIZE : Z := 1300.

(** The object, with the semaphore of its worker thread, the command table, the
    flags of the event handler, the files, and the requests so far. *)
Record XmppMgr := MkXmppMgr {
  XmppTaskIDCounter : Z;
  LastFmwUpdateTaskID : Z;
  processCmd : list XmppCmdEntry;
  AsyncTaskList : list AyncEventEntry;
  XmppUserName : cstr;
  XmppUserPw : cstr;
  XmppAdminBuddy : cstr;
  XmppBkupAdminBuddy : cstr;
  XmppBotName : cstr;
  XmppBotNameFilePath : cstr;
  XmppNetInterface : cstr;
  AiAgentUrl : cstr;
  XmppProxy : ADXmppProxy;
  AliasListFile : cstr;
  AliasList : list (cstr * cstr);
  UpdateUrlFile : cstr;
  EventSubscrListFile : cstr;
  myEventList : list EventSubscrEntry;
  ResponseMsg : cstr;
  one_shot_sema : Z;  (* XmppCmdProcessThread *)
  cmd_table : list XMPROXY_CMD_TABLE;  (* [xmproxy_cmd_table] *)
  sysmgrEventActive : bool;
  bboxSmsEventActive : bool;
  gpioEventActive : bool;
  files : list (cstr * cstr);  (* paths and contents *)
  requests : list request
}.
Definition set_XmppTaskIDCounter v m := MkXmppMgr v (LastFmwUpdateTaskID m) (processCmd m) (AsyncTaskList m) (XmppUserName m) (XmppUserPw m) (XmppAdminBuddy m) (XmppBkupAdminBuddy m) (XmppBotName m) (XmppBotNameFilePath m) (XmppNetInterface m) (AiAgentUrl m) (XmppProxy m) (AliasListFile m) (AliasList m) (UpdateUrlFile m) (EventSubscrListFile m) (myEventList m) (ResponseMsg m) (one_shot_sema m) (cmd_table m) (sysmgrEventActive m) (bboxSmsEventActive m) (gpioEventActive m) (files m) (requests m).
Definition set_LastFmwUpdateTaskID v m := MkXmppMgr (XmppTaskIDCounter m) v (processCmd m) (AsyncTaskList m) (XmppUserName m) (XmppUserPw m) (XmppAdminBuddy m) (XmppBkupAdminBuddy m) (XmppBotName m) (XmppBotNameFilePath m) (XmppNetInterface m) (AiAgentUrl m) (XmppProxy m) (AliasListFile m) (AliasList m) (UpdateUrlFile m) (EventSubscrListFile m) (myEventList m) (ResponseMsg m) (one_shot_sema m) (cmd_table m) (sysmgrEventActive m) (bboxSmsEventActive m) (gpioEventActive m) (files m) (requests m).
Definition set_processCmd v m := MkXmppMgr (XmppTaskIDCounter m) (LastFmwUpdateTaskID m) v (AsyncTaskList m) (XmppUserName m) (XmppUserPw m) (XmppAdminBuddy m) (XmppBkupAdminBuddy m) (XmppBotName m) (XmppBotNameFilePath m) (XmppNetInterface m) (AiAgentUrl m) (XmppProxy m) (AliasListFile m) (AliasList m) (UpdateUrlFile m) (EventSubscrListFile m) (myEventList m) (ResponseMsg m) (one_shot_sema m) (cmd_table m) (sysmgrEventActive m) (bboxSmsEventActive m) (gpioEventActive m) (files m) (requests m).
Definition set_AsyncTaskList v m := MkXmppMgr (XmppTaskIDCounter m) (LastFmwUpdateTaskID m) (processCmd m) v (XmppUserName m) (XmppUserPw m) (XmppAdminBuddy m) (XmppBkupAdminBuddy m) (XmppBotName m) (XmppBotNameFilePath m) (XmppNetInterface m) (AiAgentUrl m) (XmppProxy m) (AliasListFile m) (AliasList m) (UpdateUrlFile m) (EventSubscrListFile m) (myEventList m) (ResponseMsg m) (one_shot_sema m) (cmd_table m) (sysmgrEventActive m) (bboxSmsEventActive m) (gpioEventActive m) (files m) (requests m).
Definition set_XmppUserName v m := MkXmppMgr (XmppTaskIDCounter m) (LastFmwUpdateTaskID m) (processCmd m) (AsyncTaskList m) v (XmppUserPw m) (XmppAdminBuddy m) (XmppBkupAdminBuddy m) (XmppBotName m) (XmppBotNameFilePath m) (XmppNetInterface m) (AiAgentUrl m) (XmppProxy m) (AliasListFile m) (AliasList m) (UpdateUrlFile m) (EventSubscrListFile m) (myEventList m) (ResponseMsg m) (one_shot_sema m) (cmd_table m) (sysmgrEventActive m) (bboxSmsEventActive m) (gpioEventActive m) (files m) (requests m).
Definition set_XmppUserPw v m := MkXmppMgr (XmppTaskIDCounter m) (LastFmwUpdateTaskID m) (processCmd m) (AsyncTaskList m) (XmppUserName m) v (XmppAdminBuddy m) (XmppBkupAdminBuddy m) (XmppBotName m) (XmppBotNameFilePath m) (XmppNetInterface m) (AiAgentUrl m) (XmppProxy m) (AliasListFile m) (AliasList m) (UpdateUrlFile m) (EventSubscrListFile m) (myEventList m) (ResponseMsg m) (one_shot_sema m) (cmd_table m) (sysmgrEventActive m) (bboxSmsEventActive m) (gpioEventActive m) (files m) (requests m).
Definition set_XmppAdminBuddy v m := MkXmppMgr (XmppTaskIDCounter m) (LastFmwUpdateTaskID m) (processCmd m) (AsyncTaskList m) (XmppUserName m) (XmppUserPw m) v (XmppBkupAdminBuddy m) (XmppBotName m) (XmppBotNameFilePath m) (XmppNetInterface m) (AiAgentUrl m) (XmppProxy m) (AliasListFile m) (AliasList m) (UpdateUrlFile m) (EventSubscrListFile m) (myEventList m) (ResponseMsg m) (one_shot_sema m) (cmd_table m) (sysmgrEventActive m) (bboxSmsEventActive m) (gpioEventActive m) (files m) (requests m).
Definition set_XmppBkupAdminBuddy v m := MkXmppMgr (XmppTaskIDCounter m) (LastFmwUpdateTaskID m) (processCmd m) (AsyncTaskList m) (XmppUserName m) (XmppUserPw m) (XmppAdminBuddy m) v (XmppBotName m) (XmppBotNameFilePath m) (XmppNetInterface m) (AiAgentUrl m) (XmppProxy m) (AliasListFile m) (AliasList m) (UpdateUrlFile m) (EventSubscrListFile m) (myEventList m) (ResponseMsg m) (one_shot_sema m) (cmd_table m) (sysmgrEventActive m) (bboxSmsEventActive m) (gpioEventActive m) (files m) (requests m).
Definition set_XmppBotName v m := MkXmppMgr (XmppTaskIDCounter m) (LastFmwUpdateTaskID m) (processCmd m) (AsyncTaskList m) (XmppUserName m) (XmppUserPw m) (XmppAdminBuddy m) (XmppBkupAdminBuddy m) v (XmppBotNameFilePath m) (XmppNetInterface m) (AiAgentUrl m) (XmppProxy m) (AliasListFile m) (AliasList m) (UpdateUrlFile m) (EventSubscrListFile m) (myEventList m) (ResponseMsg m) (one_shot_sema m) (cmd_table m) (sysmgrEventActive m) (bboxSmsEventActive m) (gpioEventActive m) (files m) (requests m).
Definition set_XmppBotNameFilePath v m := MkXmppMgr (XmppTaskIDCounter m) (LastFmwUpdateTaskID m) (processCmd m) (AsyncTaskList m) (XmppUserName m) (XmppUserPw m) (XmppAdminBuddy m) (XmppBkupAdminBuddy m) (XmppBotName m) v (XmppNetInterface m) (AiAgentUrl m) (XmppProxy m) (AliasListFile m) (AliasList m) (UpdateUrlFile m) (EventSubscrListFile m) (myEventList m) (ResponseMsg m) (one_shot_sema m) (cmd_table m) (sysmgrEventActive m) (bboxSmsEventActive m) (gpioEventActive m) (files m) (requests m).
Definition set_XmppNetInterface v m := MkXmppMgr (XmppTaskIDCounter m) (LastFmwUpdateTaskID m) (processCmd m) (AsyncTaskList m) (XmppUserName m) (XmppUserPw m) (XmppAdminBuddy m) (XmppBkupAdminBuddy m) (XmppBotName m) (XmppBotNameFilePath m) v (AiAgentUrl m) (XmppProxy m) (AliasListFile m) (AliasList m) (UpdateUrlFile m) (EventSubscrListFile m) (myEventList m) (ResponseMsg m) (one_shot_sema m) (cmd_table m) (sysmgrEventActive m) (bboxSmsEventActive m) (gpioEventActive m) (files m) (requests m).
Definition set_AiAgentUrl v m := MkXmppMgr (XmppTaskIDCounter m) (LastFmwUpdateTaskID m) (processCmd m) (AsyncTaskList m) (XmppUserName m) (XmppUserPw m) (XmppAdminBuddy m) (XmppBkupAdminBuddy m) (XmppBotName m) (XmppBotNameFilePath m) (XmppNetInterface m) v (XmppProxy m) (AliasListFile m) (AliasList m) (UpdateUrlFile m) (EventSubscrListFile m) (myEventList m) (ResponseMsg m) (one_shot_sema m) (cmd_table m) (sysmgrEventActive m) (bboxSmsEventActive m) (gpioEventActive m) (files m) (requests m).
Definition set_XmppProxy v m := MkXmppMgr (XmppTaskIDCounter m) (LastFmwUpdateTaskID m) (processCmd m) (AsyncTaskList m) (XmppUserName m) (XmppUserPw m) (XmppAdminBuddy m) (XmppBkupAdminBuddy m) (XmppBotName m) (XmppBotNameFilePath m) (XmppNetInterface m) (AiAgentUrl m) v (AliasListFile m) (AliasList m) (UpdateUrlFile m) (EventSubscrListFile m) (myEventList m) (ResponseMsg m) (one_shot_sema m) (cmd_table m) (sysmgrEventActive m) (bboxSmsEventActive m) (gpioEventActive m) (files m) (requests m).
Definition set_AliasListFile v m := MkXmppMgr (XmppTaskIDCounter m) (LastFmwUpdateTaskID m) (processCmd m) (AsyncTaskList m) (XmppUserName m) (XmppUserPw m) (XmppAdminBuddy m) (XmppBkupAdminBuddy m) (XmppBotName m) (XmppBotNameFilePath m) (XmppNetInterface m) (AiAgentUrl m) (XmppProxy m) v (AliasList m) (UpdateUrlFile m) (EventSubscrListFile m) (myEventList m) (ResponseMsg m) (one_shot_sema m) (cmd_table m) (sysmgrEventActive m) (bboxSmsEventActive m) (gpioEventActive m) (files m) (requests m).
Definition set_AliasList v m := MkXmppMgr (XmppTaskIDCounter m) (LastFmwUpdateTaskID m) (processCmd m) (AsyncTaskList m) (XmppUserName m) (XmppUserPw m) (XmppAdminBuddy m) (XmppBkupAdminBuddy m) (XmppBotName m) (XmppBotNameFilePath m) (XmppNetInterface m) (AiAgentUrl m) (XmppProxy m) (AliasListFile m) v (UpdateUrlFile m) (EventSubscrListFile m) (myEventList m) (ResponseMsg m) (one_shot_sema m) (cmd_table m) (sysmgrEventActive m) (bboxSmsEventActive m) (gpioEventActive m) (files m) (requests m).
Definition set_UpdateUrlFile v m := MkXmppMgr (XmppTaskIDCounter m) (LastFmwUpdateTaskID m) (processCmd m) (AsyncTaskList m) (XmppUserName m) (XmppUserPw m) (XmppAdminBuddy m) (XmppBkupAdminBuddy m) (XmppBotName m) (XmppBotNameFilePath m) (XmppNetInterface m) (AiAgentUrl m) (XmppProxy m) (AliasListFile m) (AliasList m) v (EventSubscrListFile m) (myEventList m) (ResponseMsg m) (one_shot_sema m) (cmd_table m) (sysmgrEventActive m) (bboxSmsEventActive m) (gpioEventActive m) (files m) (requests m).
Definition set_EventSubscrListFile v m := MkXmppMgr (XmppTaskIDCounter m) (LastFmwUpdateTaskID m) (processCmd m) (AsyncTaskList m) (XmppUserName m) (XmppUserPw m) (XmppAdminBuddy m) (XmppBkupAdminBuddy m) (XmppBotName m) (XmppBotNameFilePath m) (XmppNetInterface m) (AiAgentUrl m) (XmppProxy m) (AliasListFile m) (AliasList m) (UpdateUrlFile m) v (myEventList m) (ResponseMsg m) (one_shot_sema m) (cmd_table m) (sysmgrEventActive m) (bboxSmsEventActive m) (gpioEventActive m) (files m) (requests m).
Definition set_myEventList v m := MkXmppMgr (XmppTaskIDCounter m) (LastFmwUpdateTaskID m) (processCmd m) (AsyncTaskList m) (XmppUserName m) (XmppUserPw m) (XmppAdminBuddy m) (XmppBkupAdminBuddy m) (XmppBotName m) (XmppBotNameFilePath m) (XmppNetInterface m) (AiAgentUrl m) (XmppProxy m) (AliasListFile m) (AliasList m) (UpdateUrlFile m) (EventSubscrListFile m) v (ResponseMsg m) (one_shot_sema m) (cmd_table m) (sysmgrEventActive m) (bboxSmsEventActive m) (gpioEventActive m) (files m) (requests m).
Definition set_ResponseMsg v m := MkXmppMgr (XmppTaskIDCounter m) (LastFmwUpdateTaskID m) (processCmd m) (AsyncTaskList m) (XmppUserName m) (XmppUserPw m) (XmppAdminBuddy m) (XmppBkupAdminBuddy m) (XmppBotName m) (XmppBotNameFilePath m) (XmppNetInterface m) (AiAgentUrl m) (XmppProxy m) (AliasListFile m) (AliasList m) (UpdateUrlFile m) (EventSubscrListFile m) (myEventList m) v (one_shot_sema m) (cmd_table m) (sysmgrEventActive m) (bboxSmsEventActive m) (gpioEventActive m) (files m) (requests m).
Definition set_one_shot_sema v m := MkXmppMgr (XmppTaskIDCounter m) (LastFmwUpdateTaskID m) (processCmd m) (AsyncTaskList m) (XmppUserName m) (XmppUserPw m) (XmppAdminBuddy m) (XmppBkupAdminBuddy m) (XmppBotName m) (XmppBotNameFilePath m) (XmppNetInterface m) (AiAgentUrl m) (XmppProxy m) (AliasListFile m) (AliasList m) (UpdateUrlFile m) (EventSubscrListFile m) (myEventList m) (ResponseMsg m) v (cmd_table m) (sysmgrEventActive m) (bboxSmsEventActive m) (gpioEventActive m) (files m) (requests m).
Definition set_cmd_table v m := MkXmppMgr (XmppTaskIDCounter m) (LastFmwUpdateTaskID m) (processCmd m) (AsyncTaskList m) (XmppUserName m) (XmppUserPw m) (XmppAdminBuddy m) (XmppBkupAdminBuddy m) (XmppBotName m) (XmppBotNameFilePath m) (XmppNetInterface m) (AiAgentUrl m) (XmppProxy m) (AliasListFile m) (AliasList m) (UpdateUrlFile m) (EventSubscrListFile m) (myEventList m) (ResponseMsg m) (one_shot_sema m) v (sysmgrEventActive m) (bboxSmsEventActive m) (gpioEventActive m) (files m) (requests m).
Definition set_sysmgrEventActive v m := MkXmppMgr (XmppTaskIDCounter m) (LastFmwUpdateTaskID m) (processCmd m) (AsyncTaskList m) (XmppUserName m) (XmppUserPw m) (XmppAdminBuddy m) (XmppBkupAdminBuddy m) (XmppBotName m) (XmppBotNameFilePath m) (XmppNetInterface m) (AiAgentUrl m) (XmppProxy m) (AliasListFile m) (AliasList m) (UpdateUrlFile m) (EventSubscrListFile m) (myEventList m) (ResponseMsg m) (one_shot_sema m) (cmd_table m) v (bboxSmsEventActive m) (gpioEventActive m) (files m) (requests m).
Definition set_bboxSmsEventActive v m := MkXmppMgr (XmppTaskIDCounter m) (LastFmwUpdateTaskID m) (processCmd m) (AsyncTaskList m) (XmppUserName m) (XmppUserPw m) (XmppAdminBuddy m) (XmppBkupAdminBuddy m) (XmppBotName m) (XmppBotNameFilePath m) (XmppNetInterface m) (AiAgentUrl m) (XmppProxy m) (AliasListFile m) (AliasList m) (UpdateUrlFile m) (EventSubscrListFile m) (myEventList m) (ResponseMsg m) (one_shot_sema m) (cmd_table m) (sysmgrEventActive m) v (gpioEventActive m) (files m) (requests m).
Definition set_gpioEventActive v m := MkXmppMgr (XmppTaskIDCounter m) (LastFmwUpdateTaskID m) (processCmd m) (AsyncTaskList m) (XmppUserName m) (XmppUserPw m) (XmppAdminBuddy m) (XmppBkupAdminBuddy m) (XmppBotName m) (XmppBotNameFilePath m) (XmppNetInterface m) (AiAgentUrl m) (XmppProxy m) (AliasListFile m) (AliasList m) (UpdateUrlFile m) (EventSubscrListFile m) (myEventList m) (ResponseMsg m) (one_shot_sema m) (cmd_table m) (sysmgrEventActive m) (bboxSmsEventActive m) v (files m) (requests m).
Definition set_files v m := MkXmppMgr (XmppTaskIDCounter m) (LastFmwUpdateTaskID m) (processCmd m) (AsyncTaskList m) (XmppUserName m) (XmppUserPw m) (XmppAdminBuddy m) (XmppBkupAdminBuddy m) (XmppBotName m) (XmppBotNameFilePath m) (XmppNetInterface m) (AiAgentUrl m) (XmppProxy m) (AliasListFile m) (AliasList m) (UpdateUrlFile m) (EventSubscrListFile m) (myEventList m) (ResponseMsg m) (one_shot_sema m) (cmd_table m) (sysmgrEventActive m) (bboxSmsEventActive m) (gpioEventActive m) v (requests m).
Definition set_requests v m := MkXmppMgr (XmppTaskIDCounter m) (LastFmwUpdateTaskID m) (processCmd m) (AsyncTaskList m) (XmppUserName m) (XmppUserPw m) (XmppAdminBuddy m) (XmppBkupAdminBuddy m) (XmppBotName m) (XmppBotNameFilePath m) (XmppNetInterface m) (AiAgentUrl m) (XmppProxy m) (AliasListFile m) (AliasList m) (UpdateUrlFile m) (EventSubscrListFile m) (myEventList m) (ResponseMsg m) (one_shot_sema m) (cmd_table m) (sysmgrEventActive m) (bboxSmsEventActive m) (gpioEventActive m) (files m) v.

(** [XmppMgr::XmppMgr] on given files; the worker thread is started. *)
Definition XmppMgr_new (fs : list (cstr * cstr)) : XmppMgr :=
  MkXmppMgr 0 0 [] [] [] [] [] [] [] [] [] [] ADXmppProxy_new [] [] [] [] [] [] 0 xmproxy_cmd_table false false false fs [].

Abbreviation XM := (M XmppMgr).
Definition on_proxy {A} (c : PM A) : XM A := zoom XmppProxy set_XmppProxy c.

(** ** Small pieces *)
Definition first_line (path : cstr) : XM cstr := fs ← gets files; mret (default [] ((λ c, (getline NL c).1) <$> map_find path fs)).
Definition cmd_and_arg (msg : cstr) : cstr * cstr := let '(c, r) := get_word msg in (c, (get_word r).1).
Definition cmd_and_two (msg : cstr) : cstr * cstr * cstr :=
  let '(c, r) := get_word msg in let '(a, r) := get_word r in (c, a, (get_word r).1).
Definition cmd_and_rest (msg : cstr) : cstr * cstr := let '(c, r) := get_word msg in (c, (getline NL r).1).
Definition cmd_arg_rest (msg : cstr) : cstr * cstr * cstr :=
  let '(c, r) := get_word msg in let '(a, r) := get_word r in (c, a, (getline NL r).1).
Definition empty (s : cstr) : bool := match s with [] => true | _ => false end.
Definition DOLLAR : ascii := char 36.
Definition task_id (n : Z) : cstr := str "taskID=" ++ dec n.
Definition resTbl (r : RPC_SRV_RESULT) : XM cstr := t ← of_opt (rpc_server_result_table !! result_code r); mret (str t).
Definition response (result returnval : cstr) : cstr := str "return=" ++ result ++ str " : " ++ str "result=" ++ returnval.
(** [msg.find(pat) != std::string::npos] *)
Fixpoint contains (pat s : cstr) : bool :=
  bool_decide (pat `prefix_of` s) || match s with [] => false | _ :: s => contains pat s end.

(** ** The command table *)
Definition gsm_command (c : EXMPP_CMD_TYPES) : bool :=
  match c with
  | EXMPP_CMD_GSM_MODEM_IDENT | EXMPP_CMD_SMS_LIST_UPDATE | EXMPP_CMD_SMS_GET_TOTAL | EXMPP_CMD_SMS_GET | EXMPP_CMD_SMS_DELETE_ALL
  | EXMPP_CMD_SMS_SEND | EXMPP_CMD_DIAL_VOICE | EXMPP_CMD_DIAL_USSD | EXMPP_CMD_GET_USSD | EXMPP_CMD_GSM_EVENT_NOTIFY => true
  | _ => false
  end.
Definition openwrt_command (c : EXMPP_CMD_TYPES) : bool :=
  match c with
  | EXMPP_CMD_GPIO | EXMPP_CMD_GPIO_EVENT_NOTIFY | EXMPP_CMD_FMW_HOSTNAME | EXMPP_CMD_FMW_RESET_HOSTNAME
  | EXMPP_CMD_FMW_POWEROFF | EXMPP_CMD_SHUTDOWN => true
  | _ => false
  end.
Definition set_group (group : EXMPP_CMD_TYPES → bool) (sts : bool) (t : XMPROXY_CMD_TABLE) : XMPROXY_CMD_TABLE :=
  if group (cmd t) && cmdsts t then MkCmd sts (cmd t) (cmd_name t) (cmd_arg t) (cmdaccess t) else t.
Definition SetUSBGsmSts (sts : bool) : XM unit := modify (λ m, set_cmd_table (map (set_group gsm_command sts) (cmd_table m)) m).
Definition SetOpenWrtCmdGroupSts (sts : bool) : XM unit :=
  modify (λ m, set_cmd_table (map (set_group openwrt_command sts) (cmd_table m)) m).

Definition print_help : XM cstr :=
  t ← gets cmd_table;
  mret (concat (map (λ e, cmd_name e ++ str " " ++ cmd_arg e ++ [NL]) (List.filter cmdsts t))).

Fixpoint resolve_loop (c : cstr) (t : list XMPROXY_CMD_TABLE) : EXMPP_CMD_TYPES :=
  match t with
  | [] => EXMPP_CMD_UNKNOWN
  | e :: t => if negb (cmdsts e) then resolve_loop c t else if decide (c = cmd_name e) then cmd e else resolve_loop c t
  end.
Definition ResolveCmdStr (msg : cstr) : XM EXMPP_CMD_TYPES :=
  t ← gets cmd_table; mret (resolve_loop (lower (get_word msg).1) t).

(** ** Tasks that other services run *)
(** [remove_if] takes out every entry of that task. *)
Definition AccessAsyncTaskList_insert (tid port : Z) (s : cstr) : XM Z :=
  modify (λ m, set_XmppTaskIDCounter (int32 (XmppTaskIDCounter m + 1)) m);;
  n ← gets XmppTaskIDCounter;
  modify (λ m, set_AsyncTaskList (AsyncTaskList m ++ [MkAsync tid port n s]) m);;
  mret n.
Definition AccessAsyncTaskList_find (tid port : Z) : XM (option (Z * cstr)) :=
  l ← gets AsyncTaskList;
  match List.find (FindAsyncEventEntry tid port) l with
  | None => mret None
  | Some e =>
      modify (λ m, set_AsyncTaskList (List.filter (λ e, negb (FindAsyncEventEntry tid port e)) (AsyncTaskList m)) m);;
      mret (Some (xmppTID e, to e))
  end.

Definition RpcResponseCallback (taskRes : cstr) (taskID : Z) (dest : cstr) : XM RPC_SRV_RESULT :=
  on_proxy (send_reply (response taskRes (task_id taskID)) dest);;
  mret RPC_SRV_RESULT_SUCCESS.
Definition RpcResponseCallback_code (taskRes : RPC_SRV_RESULT) (taskID : Z) (dest : cstr) : XM RPC_SRV_RESULT :=
  result ← resTbl taskRes;
  on_proxy (send_reply (response result (task_id taskID)) dest);;
  mret RPC_SRV_RESULT_SUCCESS.

(** ** Arguments that name an alias *)
Definition xpand (m : list (cstr * cstr)) (arg : cstr) : cstr :=
  match arg with
  | c :: a => if decide (c = DOLLAR) then default (lower a) (map_find (lower a) m) else arg
  | [] => []
  end.
Definition xpandarg (arg : cstr) : XM cstr := m ← gets AliasList; mret (xpand m arg).
Definition xpandargs (arg : cstr) : XM cstr := m ← gets AliasList; mret (concat (map (λ t, xpand m t ++ str " ") (words arg))).

(** ** Files *)
(** What is outside the service: the size of [long], which files can be written,
    the answers to what it asks after what it has asked before, and the AI. *)
Class Services := MkServices {
  long_bits : Z;
  can_write : cstr → bool;
  rpc_server_connect : list request → Z → bool;
  rpc_answer : list request → cstr → list (cstr * rpc_arg) → RPC_SRV_RESULT * cstr;
  gethostbyname : list request → cstr → option cstr;
  http_connect : list request → cstr → bool;
  http_body : list request → cstr;
  generate_ai_response : cstr → cstr
}.
Section service.
Context {sv : Services}.

Abbreviation atoi := (atoi long_bits).

(** [ofstream] opened for appending, and truncated. *)
Definition append_file (path text : cstr) : XM unit :=
  if can_write path then modify (λ m, set_files (map_set path (default [] (map_find path (files m)) ++ text) (files m)) m) else mret ().
Definition write_file (path text : cstr) : XM unit :=
  if can_write path then modify (λ m, set_files (map_set path text (files m)) m) else mret ().

(** *** Aliases *)
Definition alias_entry (line : cstr) : cstr * cstr := let '(c, r) := getline EQ line in (c, (getline EQ r).1).
Definition alias_line (x : cstr * cstr) : cstr := x.1 ++ [EQ] ++ x.2 ++ [NL].
Definition load_aliases (text : cstr) (m : list (cstr * cstr)) : list (cstr * cstr) :=
  foldl (λ m x, map_set x.1 x.2 m) m (map alias_entry (file_lines text)).
Definition LoadAliasList (listFile : cstr) : XM RPC_SRV_RESULT :=
  if empty listFile then mret RPC_SRV_RESULT_FAIL
  else
    fs ← gets files;
    modify (λ m, set_AliasList (load_aliases (default [] (map_find listFile fs)) (AliasList m)) m);;
    mret RPC_SRV_RESULT_SUCCESS.
Definition ExtendAliasList (listFile key val : cstr) : XM RPC_SRV_RESULT :=
  if empty listFile then mret RPC_SRV_RESULT_FAIL
  else append_file listFile (alias_line (key, val));; mret RPC_SRV_RESULT_SUCCESS.
Definition RewriteAliasList (listFile : cstr) : XM RPC_SRV_RESULT :=
  if empty listFile then mret RPC_SRV_RESULT_FAIL
  else
    m ← gets AliasList;
    write_file listFile (concat (map alias_line m));;
    mret RPC_SRV_RESULT_SUCCESS.

(** The name and the value of [alias name=value]. *)
Definition alias_key (c : cstr) : cstr := trim_front (getline NL (get_word c).2).1.
Definition proc_cmd_alias (msg : cstr) : XM (RPC_SRV_RESULT * cstr) :=
  if decide (msg = str "Alias" ∨ msg = str "alias") then
    m ← gets AliasList;
    mret (RPC_SRV_RESULT_SUCCESS, [NL] ++ concat (map alias_line m))
  else
    let '(c, value) := alias_entry msg in
    let key := alias_key c in
    path ← gets AliasListFile;
    if empty value then
      modify (λ m, set_AliasList (map_erase key (AliasList m)) m);;
      RewriteAliasList path;;
      mret (RPC_SRV_RESULT_SUCCESS, [])
    else
      m ← gets AliasList;
      match map_find key m with
      | Some _ =>
          modify (λ m, set_AliasList (map_set key value (map_erase key (AliasList m))) m);;
          RewriteAliasList path;;
          mret (RPC_SRV_RESULT_SUCCESS, [])
      | None =>
          modify (λ m, set_AliasList (map_set key value (AliasList m)) m);;
          ExtendAliasList path key value;;
          mret (RPC_SRV_RESULT_SUCCESS, [])
      end.

(** *** Subscriptions to events *)
Definition evnt_line (e : EventSubscrEntry) : cstr :=
  subscriber e ++ [BLANK] ++ evnt_type_name (m_EvntType e) ++ [BLANK] ++ dec (m_EvntArg e) ++ [NL].
Definition evnt_entry (line : cstr) : option EventSubscrEntry :=
  let '(addr, type, arg) := cmd_and_two line in
  let io := atoi arg in
  if decide (type = evnt_type_name EXMPP_EVNT_GSM) then Some (MkSubscr addr EXMPP_EVNT_GSM io true)
  else if decide (type = evnt_type_name EXMPP_EVNT_GPIO) then Some (MkSubscr addr EXMPP_EVNT_GPIO io true)
  else None.
Definition load_events (text : cstr) : list EventSubscrEntry := omap evnt_entry (file_lines text).
Definition LoadEventSubscrList (listFile : cstr) : XM RPC_SRV_RESULT :=
  if empty listFile then mret RPC_SRV_RESULT_FAIL
  else
    fs ← gets files;
    modify (λ m, set_myEventList (myEventList m ++ load_events (default [] (map_find listFile fs))) m);;
    mret RPC_SRV_RESULT_SUCCESS.
Definition ExtendEventSubscrList (listFile addr : cstr) (type : EXMPP_EVNT_TYPES) (arg : Z) : XM RPC_SRV_RESULT :=
  if empty listFile then mret RPC_SRV_RESULT_FAIL
  else append_file listFile (evnt_line (MkSubscr addr type arg true));; mret RPC_SRV_RESULT_SUCCESS.
Definition RewriteEventSubscrList (listFile : cstr) : XM RPC_SRV_RESULT :=
  if empty listFile then mret RPC_SRV_RESULT_FAIL
  else
    l ← gets myEventList;
    write_file listFile (concat (map evnt_line (List.filter m_Status l)));;
    mret RPC_SRV_RESULT_SUCCESS.

(** The first entry that [find_if] finds is given another status. *)
Fixpoint set_status (p : EventSubscrEntry → bool) (sts : bool) (l : list EventSubscrEntry) : list EventSubscrEntry :=
  match l with
  | [] => []
  | e :: l => if p e then MkSubscr (subscriber e) (m_EvntType e) (m_EvntArg e) sts :: l else e :: set_status p sts l
  end.
(** The part that [proc_cmd_event_gsm] and [proc_cmd_event_gpio] share. *)
Definition event_status (s : cstr) (type : EXMPP_EVNT_TYPES) (io : Z) : XM (RPC_SRV_RESULT * cstr) :=
  l ← gets myEventList;
  mret (RPC_SRV_RESULT_SUCCESS,
    match List.find (FindEventSubscrEntry s io type) l with Some e => if m_Status e then str "1" else str "0" | None => str "0" end).
Definition event_set (s : cstr) (type : EXMPP_EVNT_TYPES) (io : Z) (arg : cstr) : XM (RPC_SRV_RESULT * cstr) :=
  l ← gets myEventList;
  path ← gets EventSubscrListFile;
  match List.find (FindEventSubscrEntry s io type) l with
  | Some _ =>
      modify (λ m, set_myEventList (set_status (FindEventSubscrEntry s io type) (bool_decide (arg = str "1")) (myEventList m)) m);;
      RewriteEventSubscrList path;;
      mret (RPC_SRV_RESULT_SUCCESS, [])
  | None =>
      if decide (arg = str "1") then
        modify (λ m, set_myEventList (myEventList m ++ [MkSubscr s type io true]) m);;
        ExtendEventSubscrList path s type io;;
        mret (RPC_SRV_RESULT_SUCCESS, [])
      else mret (RPC_SRV_RESULT_SUCCESS, [])
  end.
Definition proc_cmd_event_gsm (msg s : cstr) : XM (RPC_SRV_RESULT * cstr) :=
  let '(c, arg) := cmd_and_arg msg in
  if empty c then mret (RPC_SRV_RESULT_UNKNOWN_COMMAND, [])
  else if empty arg then event_status s EXMPP_EVNT_GSM 0 else event_set s EXMPP_EVNT_GSM 0 arg.
Definition proc_cmd_event_gpio (msg s : cstr) : XM (RPC_SRV_RESULT * cstr) :=
  let '(c, arg, val) := cmd_and_two msg in
  if empty c then mret (RPC_SRV_RESULT_UNKNOWN_COMMAND, [])
  else if empty arg then mret (RPC_SRV_RESULT_ARG_ERROR, [])
  else
    arg ← xpandarg arg;
    let io := atoi arg in
    if empty val then event_status s EXMPP_EVNT_GPIO io
    else val ← xpandarg val; event_set s EXMPP_EVNT_GPIO io val.

(** The loop over copies of the entries. *)
Fixpoint gpio_loop (evntArg : Z) (l : list EventSubscrEntry) : XM unit :=
  match l with
  | [] => mret ()
  | e :: l =>
      (if bool_decide (m_EvntType e = EXMPP_EVNT_GPIO ∧ m_EvntArg e = evntArg ∧ m_Status e = true)
       then on_proxy (SendMessageToBuddy (subscriber e) (str "eventgpio " ++ dec evntArg) (str "event"));; mret ()
       else mret ());;
      gpio_loop evntArg l
  end.
Definition GpioEventCallback (evntNum evntArg : Z) : XM RPC_SRV_RESULT :=
  l ← gets myEventList; gpio_loop evntArg l;; mret RPC_SRV_RESULT_SUCCESS.

(** ** Requests to other services *)
Definition ask (r : request) : XM (list request) :=
  h ← gets requests; modify (λ m, set_requests (requests m ++ [r]) m);; mret h.
Definition connect (port : Z) : XM bool := h ← ask (Connect port); mret (rpc_server_connect h port).
Definition call (method : string) (params : list (string * rpc_arg)) : XM (RPC_SRV_RESULT * cstr) :=
  let ps := map (λ x, (str x.1, x.2)) params in
  h ← ask (Call (str method) ps); mret (rpc_answer h (str method) ps).
(** A connection to a service, or the result that says there is none. *)
Definition with_client (port : Z) (c : XM (RPC_SRV_RESULT * cstr)) : XM (RPC_SRV_RESULT * cstr) :=
  ok ← connect port;
  if ok : bool then c else mret (RPC_SRV_RESULT_HOST_NOT_REACHABLE_ERR, []).
(** A request whose answer is only a result. *)
Definition call_result (method : string) (params : list (string * rpc_arg)) : XM (RPC_SRV_RESULT * cstr) :=
  a ← call method params; mret (a.1, []).
(** A request whose work goes on after the answer, which has the number of the
    task: [AccessAsyncTaskList] gives it a number of this service. *)
Definition in_progress (a : RPC_SRV_RESULT * cstr) (port : Z) (s : cstr) : XM (RPC_SRV_RESULT * cstr) :=
  xmptid ← (if decide (a.1 = RPC_SRV_RESULT_IN_PROG) then AccessAsyncTaskList_insert (atoi a.2) port s else mret (-1));
  mret (a.1, task_id xmptid).
Definition async_call (port : Z) (method : string) (params : list (string * rpc_arg)) (s : cstr) : XM (RPC_SRV_RESULT * cstr) :=
  with_client port (a ← call method params; in_progress a port s).

(** *** Short messages and calls *)
Definition proc_cmd_sms_deleteall (s : cstr) := async_call ADCMN_PORT_BBOXSMS "delete_all_sms" [] s.
Definition proc_cmd_sms_delete : XM (RPC_SRV_RESULT * cstr) := mret (RPC_SRV_RESULT_FEATURE_NOT_AVAILABLE, []).
Definition proc_cmd_sms_get (msg : cstr) : XM (RPC_SRV_RESULT * cstr) :=
  let '(c, arg) := cmd_and_arg msg in
  if empty c then mret (RPC_SRV_RESULT_UNKNOWN_COMMAND, [])
  else if empty arg then mret (RPC_SRV_RESULT_ARG_ERROR, [])
  else
    arg ← xpandarg arg;
    with_client ADCMN_PORT_BBOXSMS (call "get_sms" [("index", ArgInt (atoi arg))]).
Definition proc_cmd_sms_send (msg s : cstr) : XM (RPC_SRV_RESULT * cstr) :=
  let '(c, dest, text) := cmd_arg_rest msg in
  if empty c then mret (RPC_SRV_RESULT_UNKNOWN_COMMAND, [])
  else if empty dest then mret (RPC_SRV_RESULT_ARG_ERROR, [])
  else
    dest ← xpandarg dest;
    if empty text then mret (RPC_SRV_RESULT_ARG_ERROR, [])
    else
      text ← xpandargs text;
      async_call ADCMN_PORT_BBOXSMS "send_sms" [("destination", ArgString dest); ("message", ArgString text)] s.
Definition proc_cmd_sms_list_update (s : cstr) := async_call ADCMN_PORT_BBOXSMS "update_sms_list" [] s.
Definition proc_cmd_sms_get_total := with_client ADCMN_PORT_BBOXSMS (call "get_total_sms" []).
Definition proc_cmd_dial_voice (msg : cstr) (rpc_cmd : string) (s : cstr) : XM (RPC_SRV_RESULT * cstr) :=
  let '(c, dest) := cmd_and_arg msg in
  if empty c then mret (RPC_SRV_RESULT_UNKNOWN_COMMAND, [])
  else if empty dest then mret (RPC_SRV_RESULT_ARG_ERROR, [])
  else
    dest ← xpandarg dest;
    async_call ADCMN_PORT_BBOXSMS rpc_cmd [("destination", ArgString dest)] s.
Definition proc_cmd_get_ussd := with_client ADCMN_PORT_BBOXSMS (call "get_ussd" []).
Definition proc_cmd_gsm_modem_identify (s : cstr) := async_call ADCMN_PORT_BBOXSMS "identify_dev" [] s.

(** *** The system *)
Definition proc_cmd_fmw_get_version := with_client ADCMN_PORT_SYSMGR (call "get_fmw_version" [("module", ArgString (str "current"))]).
Definition update_url (line customurl : cstr) : cstr :=
  if empty customurl then GITHUB_FMW_DOWNLOAD_FOLDER ++ line ++ str ".uimg" else customurl.
Definition proc_cmd_fmw_update (msg s : cstr) : XM (RPC_SRV_RESULT * cstr) :=
  if empty (get_word msg).1 then mret (RPC_SRV_RESULT_UNKNOWN_COMMAND, [])
  else
    line ← first_line BRBOX_SYS_CONFIG_FILE_PATH;
    if empty line then mret (RPC_SRV_RESULT_FAIL, [])
    else
      file ← gets UpdateUrlFile;
      customurl ← (if empty file then mret [] else first_line file);
      with_client ADCMN_PORT_SYSMGR (
        a ← call "download_ftp_file" [("srcaddr", ArgString (update_url line customurl));
                                      ("targetpath", ArgString (str "/tmp/uBrBoxRoot.uimg"))];
        if decide (a.1 = RPC_SRV_RESULT_IN_PROG) then
          a ← call "firmware_update" [("module", ArgString (str "project")); ("filepath", ArgString (str "/tmp/uBrBoxRoot.uimg"))];
          modify (set_LastFmwUpdateTaskID (atoi a.2));;
          in_progress a ADCMN_PORT_SYSMGR s
        else mret (a.1, [])).
Definition proc_cmd_fmw_update_sts : XM (RPC_SRV_RESULT * cstr) :=
  with_client ADCMN_PORT_SYSMGR (
    a ← call "get_async_task" [];
    if decide (a.1 = RPC_SRV_RESULT_SUCCESS) then mret (a.1, if decide (a.2 = str "none") then str "Idle" else str "Busy")
    else mret a).
Definition proc_cmd_fmw_update_res : XM (RPC_SRV_RESULT * cstr) :=
  ok ← connect ADCMN_PORT_SYSMGR;
  if ok : bool then
    n ← gets LastFmwUpdateTaskID;
    call "get_rpc_req_status" [("taskId", ArgString (dec n))]
  else mret (RPC_SRV_RESULT_HOST_NOT_REACHABLE_ERR, []).
Definition proc_cmd_fmw_reboot (s : cstr) :=
  async_call ADCMN_PORT_SYSMGR "set_device_operation" [("operation", ArgString (str "reboot"))] s.
Definition proc_cmd_fmw_poweroff (s : cstr) :=
  async_call ADCMN_PORT_SYSMGR "set_device_operation" [("operation", ArgString (str "standby"))] s.
(** The answer's text is the one of the parameter uptime. *)
Definition proc_cmd_fmw_uptime : XM (RPC_SRV_RESULT * cstr) :=
  with_client ADCMN_PORT_SYSMGR (a ← call "get_load_info" []; mret (a.1, dec (Z.quot (atoi a.2) 3600) ++ str " Hours")).
Definition proc_cmd_fmw_get_hostname := with_client ADCMN_PORT_SYSMGR (call "get_hostname" []).
Definition proc_cmd_fmw_set_hostname (msg : cstr) : XM (RPC_SRV_RESULT * cstr) :=
  let '(c, arg) := cmd_and_arg msg in
  if empty c then mret (RPC_SRV_RESULT_UNKNOWN_COMMAND, [])
  else if empty arg then mret (RPC_SRV_RESULT_ARG_ERROR, [])
  else with_client ADCMN_PORT_SYSMGR (call_result "set_hostname" [("hostname", ArgString arg)]).
(** The argument is expanded to choose between the two, and again not expanded
    in [proc_cmd_fmw_set_hostname]. *)
Definition proc_cmd_fmw_hostname (msg : cstr) : XM (RPC_SRV_RESULT * cstr) :=
  let '(c, arg) := cmd_and_arg msg in
  if empty c then mret (RPC_SRV_RESULT_UNKNOWN_COMMAND, [])
  else
    arg ← xpandarg arg;
    if empty arg then proc_cmd_fmw_get_hostname else proc_cmd_fmw_set_hostname msg.
Definition proc_cmd_fmw_get_myip := with_client ADCMN_PORT_SYSMGR (call "get_my_public_ip" []).
Definition ip_of (iface : cstr) := call "get_ip_addr" [("iface", ArgString iface)].
Definition proc_cmd_fmw_get_localip : XM (RPC_SRV_RESULT * cstr) :=
  with_client ADCMN_PORT_SYSMGR (
    iface ← gets XmppNetInterface;
    if empty iface then
      a ← ip_of (str "eth0");
      if decide (a.1 = RPC_SRV_RESULT_SUCCESS) then mret a
      else
        a ← ip_of (str "eth1");
        if decide (a.1 = RPC_SRV_RESULT_SUCCESS) then mret a else ip_of (str "ppp0")
    else ip_of iface).
Definition proc_cmd_fmw_set_default_hostname := with_client ADCMN_PORT_SYSMGR (call_result "set_default_hostname" []).
Definition proc_cmd_logsts (msg : cstr) : XM (RPC_SRV_RESULT * cstr) :=
  let '(c, port, log) := cmd_and_two msg in
  if empty c then mret (RPC_SRV_RESULT_UNKNOWN_COMMAND, [])
  else if empty port then mret (RPC_SRV_RESULT_ARG_ERROR, [])
  else if empty log then with_client (atoi port) (call "get_debug_logging" [])
  else with_client (atoi port) (call_result "set_debug_logging" [("status", ArgString log)]).
Definition proc_cmd_log_list_update (s : cstr) := async_call ADCMN_PORT_SYSMGR "update_loglist" [] s.
Definition proc_cmd_log_get_count := with_client ADCMN_PORT_SYSMGR (call "get_log_count" []).
Definition proc_cmd_log_get_line (msg : cstr) : XM (RPC_SRV_RESULT * cstr) :=
  let '(c, arg) := cmd_and_arg msg in
  if empty c then mret (RPC_SRV_RESULT_UNKNOWN_COMMAND, [])
  else if empty arg then mret (RPC_SRV_RESULT_ARG_ERROR, [])
  else with_client ADCMN_PORT_SYSMGR (call "get_log_line" [("index", ArgInt (atoi arg))]).
Definition proc_cmd_gpio (msg : cstr) : XM (RPC_SRV_RESULT * cstr) :=
  let '(c, arg, arg2) := cmd_and_two msg in
  if empty c then mret (RPC_SRV_RESULT_UNKNOWN_COMMAND, [])
  else if empty arg then mret (RPC_SRV_RESULT_ARG_ERROR, [])
  else
    arg ← xpandarg arg;
    if empty arg2 then with_client ADCMN_PORT_GPIOCTL (call "gpio_get" [("addr", ArgInt (atoi arg))])
    else
      arg2 ← xpandarg arg2;
      with_client ADCMN_PORT_GPIOCTL (call_result "gpio_set" [("addr", ArgInt (atoi arg)); ("data", ArgInt (atoi arg2))]).
Definition proc_cmd_shellcmd (msg s : cstr) (cmdtype : EXMPP_CMD_TYPES) : XM (RPC_SRV_RESULT * cstr) :=
  let '(c, arg) := cmd_and_rest msg in
  if empty c then mret (RPC_SRV_RESULT_UNKNOWN_COMMAND, [])
  else if empty arg then mret (RPC_SRV_RESULT_ARG_ERROR, [])
  else
    arg ← xpandargs arg;
    async_call ADCMN_PORT_SYSMGR (if decide (cmdtype = EXMPP_CMD_SHELLCMD_TRIG) then "run_shellcmdtrig" else "run_shellcmd")
      [("command", ArgString arg)] s.
Definition proc_cmd_shellcmdresp : XM (RPC_SRV_RESULT * cstr) :=
  fs ← gets files;
  match map_find SHELLCMD_RESP_FILE_PATH fs with
  | None => mret (RPC_SRV_RESULT_FILE_OPEN_ERR, [])
  | Some text =>
      if SHELLCMD_RESP_MAX_FILE_SIZE <? strlen text then mret (RPC_SRV_RESULT_VALUE_OUT_OF_RANGE, [])
      else mret (RPC_SRV_RESULT_SUCCESS, text)
  end.
Definition proc_cmd_devident (s : cstr) := async_call ADCMN_PORT_SYSMGR "device_identify" [] s.
Definition proc_cmd_xmpshutdown (s : cstr) := async_call ADCMN_PORT_XMPROXY "trigger_shutdown" [] s.
Definition proc_cmd_disp_clear := with_client ADCMN_PORT_SYSMGR (call_result "display_clear" []).
Definition proc_cmd_disp_print (msg : cstr) : XM (RPC_SRV_RESULT * cstr) :=
  let '(c, arg, arg2) := cmd_arg_rest msg in
  if empty c then mret (RPC_SRV_RESULT_UNKNOWN_COMMAND, [])
  else if empty arg then mret (RPC_SRV_RESULT_ARG_ERROR, [])
  else
    arg ← xpandarg arg;
    if empty arg2 then with_client ADCMN_PORT_SYSMGR (call "display_print" [("line", ArgInt (atoi arg))])
    else
      arg2 ← xpandarg arg2;
      with_client ADCMN_PORT_SYSMGR (call_result "display_print" [("line", ArgString arg); ("msg", ArgString arg2)]).
Definition proc_cmd_get_display_backlight := with_client ADCMN_PORT_SYSMGR (call "display_backlight_get" []).
Definition proc_cmd_set_display_backlight (msg : cstr) : XM (RPC_SRV_RESULT * cstr) :=
  let '(c, arg) := cmd_and_arg msg in
  if empty c then mret (RPC_SRV_RESULT_UNKNOWN_COMMAND, [])
  else if empty arg then mret (RPC_SRV_RESULT_ARG_ERROR, [])
  else
    arg ← xpandarg arg;
    with_client ADCMN_PORT_SYSMGR (call_result "display_backlight_set" [("status", ArgString arg)]).
Definition proc_cmd_disp_backlight (msg : cstr) : XM (RPC_SRV_RESULT * cstr) :=
  let '(c, arg) := cmd_and_arg msg in
  if empty c then mret (RPC_SRV_RESULT_UNKNOWN_COMMAND, [])
  else if empty arg then proc_cmd_get_display_backlight else proc_cmd_set_display_backlight msg.

(** [sec * 1000 * 1000] in the arithmetic of [int], which gcc wraps around, and
    [useconds_t] is unsigned. *)
Definition proc_cmd_sleep (msg : cstr) : XM (RPC_SRV_RESULT * cstr) :=
  let '(c, arg) := cmd_and_arg msg in
  if empty c then mret (RPC_SRV_RESULT_UNKNOWN_COMMAND, [])
  else if empty arg then mret (RPC_SRV_RESULT_ARG_ERROR, [])
  else
    arg ← xpandarg arg;
    ask (Usleep (u32 (atoi arg * 1000 * 1000)));;
    mret (RPC_SRV_RESULT_SUCCESS, []).

(** *** Names *)
Definition proc_cmd_account_name : XM (RPC_SRV_RESULT * cstr) :=
  u ← gets XmppUserName; mret (RPC_SRV_RESULT_SUCCESS, if empty u then str "none" else u).
Definition proc_cmd_bot_name (msg : cstr) : XM (RPC_SRV_RESULT * cstr) :=
  let '(c, arg) := cmd_and_rest msg in
  if empty c then mret (RPC_SRV_RESULT_UNKNOWN_COMMAND, [])
  else if empty arg then n ← gets XmppBotName; mret (RPC_SRV_RESULT_SUCCESS, if empty n then str "none" else n)
  else
    arg ← xpandarg arg;
    modify (set_XmppBotName arg);;
    path ← gets XmppBotNameFilePath;
    (if empty path then mret () else write_file path (arg ++ [NL]));;
    mret (RPC_SRV_RESULT_SUCCESS, []).
Definition SetBotNameFilePath (filepath : cstr) : XM unit :=
  modify (set_XmppBotNameFilePath filepath);;
  if empty filepath then mret ()
  else
    fs ← gets files;
    match map_find filepath fs with Some text => modify (set_XmppBotName (getline NL text).1) | None => mret () end.

(** *** The sonoff relay: also [ADSonOffHttpClient.cpp] *)
Inductive SONOFF_STATE := SONOFF_STATE_OFF | SONOFF_STATE_ON | SONOFF_STATE_UNKNOWN | SONOFF_STATE_NONE.
(** The sixth word of the first 100 characters of the body. *)
Definition get_sonoff_state : XM (RPC_SRV_RESULT * SONOFF_STATE) :=
  h ← ask (HttpGet (str "/cm?cmnd=Power%20"));
  let arg6 := default [] (words (take 100 (http_body h)) !! 5%nat) in
  mret (RPC_SRV_RESULT_SUCCESS,
    if decide (arg6 = str "ON") then SONOFF_STATE_ON else if decide (arg6 = str "OFF") then SONOFF_STATE_OFF else SONOFF_STATE_UNKNOWN).
Definition sonoff_set (path : string) : XM (RPC_SRV_RESULT * cstr) := ask (HttpGet (str path));; mret (RPC_SRV_RESULT_SUCCESS, []).
Definition with_sonoff (ip : cstr) (c : XM (RPC_SRV_RESULT * cstr)) : XM (RPC_SRV_RESULT * cstr) :=
  h ← ask (HttpConnect ip);
  if http_connect h ip then c else mret (RPC_SRV_RESULT_HOST_NOT_REACHABLE_ERR, []).
Definition hostname_to_ip (hostname : cstr) : XM (option cstr) := h ← ask (Resolve hostname); mret (gethostbyname h hostname).
Definition proc_cmd_sonoff (msg : cstr) : XM (RPC_SRV_RESULT * cstr) :=
  let '(c, arg, arg2) := cmd_and_two msg in
  if empty c then mret (RPC_SRV_RESULT_UNKNOWN_COMMAND, [])
  else if empty arg then mret (RPC_SRV_RESULT_ARG_ERROR, [])
  else
    arg ← xpandarg arg;
    if empty arg2 then
      ip ← hostname_to_ip arg;
      match ip with
      | None => mret (RPC_SRV_RESULT_FAIL, [])
      | Some ip =>
          with_sonoff ip (
            a ← get_sonoff_state;
            mret (a.1, match a.2 with SONOFF_STATE_ON => str "on" | SONOFF_STATE_OFF => str "off" | _ => str "unknown" end))
      end
    else
      arg2 ← xpandarg arg2;
      ip ← hostname_to_ip arg;
      match ip with
      | None => mret (RPC_SRV_RESULT_FAIL, [])
      | Some ip =>
          if decide (arg2 = str "on") then with_sonoff ip (sonoff_set "/cm?cmnd=Power%20On")
          else if decide (arg2 = str "off") then with_sonoff ip (sonoff_set "/cm?cmnd=Power%20off")
          else if decide (arg2 = str "toggle") then with_sonoff ip (sonoff_set "/cm?cmnd=Power%20TOGGLE")
          else mret (RPC_SRV_RESULT_ARG_ERROR, [])
      end.

(** ** Buddies: commands of the admin *)
Definition proc_cmd_buddy_list : XM (RPC_SRV_RESULT * cstr) :=
  t ← on_proxy (get_buddy_list [NL]); mret (RPC_SRV_RESULT_SUCCESS, t).
Definition proc_cmd_accept_buddy_list : XM (RPC_SRV_RESULT * cstr) :=
  t ← on_proxy (get_accept_buddy_list [NL]); mret (RPC_SRV_RESULT_SUCCESS, t).
(** What the four commands on a buddy's address have in common: only an admin,
    and the rest of the line without its blanks. *)
Definition buddy_command (msg s : cstr) (k : cstr → XM RPC_SRV_RESULT) : XM (RPC_SRV_RESULT * cstr) :=
  admin ← on_proxy (is_admin_user s);
  if negb admin then mret (RPC_SRV_RESULT_ACTION_NOT_ALLOWED, [])
  else
    let '(c, arg) := cmd_and_rest msg in
    if empty c then mret (RPC_SRV_RESULT_UNKNOWN_COMMAND, [])
    else if empty arg then mret (RPC_SRV_RESULT_ARG_ERROR, [])
    else
      arg ← xpandarg arg;
      r ← k (List.filter (λ c, negb (bool_decide (c = BLANK))) arg);
      mret (r, []).
Definition proc_cmd_buddy_add (msg s : cstr) :=
  buddy_command msg s (λ b, on_proxy (accept_buddy b);; mret RPC_SRV_RESULT_SUCCESS).
Definition proc_cmd_buddy_remove (msg s : cstr) :=
  buddy_command msg s (λ b, r ← on_proxy (remove_buddy b); mret (if r =? 0 then RPC_SRV_RESULT_SUCCESS else RPC_SRV_RESULT_ITEM_NOT_FOUND)).
Definition proc_cmd_buddy_subscribe (msg s : cstr) :=
  buddy_command msg s (λ b, on_proxy (subscribe_buddy b);; mret RPC_SRV_RESULT_SUCCESS).
Definition proc_cmd_buddy_unsubscribe (msg s : cstr) :=
  buddy_command msg s (λ b, on_proxy (unsubscribe_buddy b);; mret RPC_SRV_RESULT_SUCCESS).

Definition proc_cmd_send_message (dest message subject : cstr) : XM RPC_SRV_RESULT :=
  b ← on_proxy (IsMyBuddy dest);
  if negb b then mret RPC_SRV_RESULT_ACTION_NOT_ALLOWED
  else
    o ← on_proxy (get_buddy_online_state dest);
    if o =? 0 then mret RPC_SRV_RESULT_OFFLINE_NODE
    else
      r ← on_proxy (SendMessageToBuddy dest message subject);
      mret (if r : bool then RPC_SRV_RESULT_SUCCESS else RPC_SRV_RESULT_FAIL).
Definition proc_cmd_relay_message (msg s : cstr) : XM (RPC_SRV_RESULT * cstr) :=
  admin ← on_proxy (is_admin_user s);
  if negb admin then mret (RPC_SRV_RESULT_ACTION_NOT_ALLOWED, [])
  else
    let '(c, arg, arg2) := cmd_arg_rest msg in
    if empty c then mret (RPC_SRV_RESULT_UNKNOWN_COMMAND, [])
    else if empty arg then mret (RPC_SRV_RESULT_ARG_ERROR, [])
    else
      arg ← xpandarg arg;
      if empty arg2 then mret (RPC_SRV_RESULT_ARG_ERROR, [])
      else
        arg2 ← xpandarg arg2;
        r ← proc_cmd_send_message arg arg2 (str "message");
        mret (r, []).
(** Over JSON-RPC, from the box itself. *)
Definition proc_cmd_subscribe_message (dest : cstr) : XM RPC_SRV_RESULT :=
  r ← on_proxy (subscribe_buddy dest); mret (if r =? 0 then RPC_SRV_RESULT_SUCCESS else RPC_SRV_RESULT_FAIL).
Definition proc_cmd_add_buddy (dest : cstr) : XM RPC_SRV_RESULT :=
  r ← on_proxy (accept_buddy dest); mret (if r =? 0 then RPC_SRV_RESULT_SUCCESS else RPC_SRV_RESULT_FAIL).

(** ** The worker thread *)
Definition run_switch (c : EXMPP_CMD_TYPES) (msg s : cstr) : XM (RPC_SRV_RESULT * cstr) :=
  match c with
  | EXMPP_CMD_SMS_DELETE_ALL => proc_cmd_sms_deleteall s
  | EXMPP_CMD_SMS_DELETE => proc_cmd_sms_delete
  | EXMPP_CMD_SMS_GET => proc_cmd_sms_get msg
  | EXMPP_CMD_SMS_SEND => proc_cmd_sms_send msg s
  | EXMPP_CMD_SMS_LIST_UPDATE => proc_cmd_sms_list_update s
  | EXMPP_CMD_SMS_GET_TOTAL => proc_cmd_sms_get_total
  | EXMPP_CMD_FMW_GET_VERSION => proc_cmd_fmw_get_version
  | EXMPP_CMD_FMW_UPDATE => proc_cmd_fmw_update msg s
  | EXMPP_CMD_FMW_UPDATE_STS => proc_cmd_fmw_update_sts
  | EXMPP_CMD_FMW_UPDATE_RES => proc_cmd_fmw_update_res
  | EXMPP_CMD_FMW_REBOOT => proc_cmd_fmw_reboot s
  | EXMPP_CMD_FMW_POWEROFF => proc_cmd_fmw_poweroff s
  | EXMPP_CMD_FMW_UPTIME => proc_cmd_fmw_uptime
  | EXMPP_CMD_FMW_HOSTNAME => proc_cmd_fmw_hostname msg
  | EXMPP_CMD_FMW_GET_MYIP => proc_cmd_fmw_get_myip
  | EXMPP_CMD_FMW_RESET_HOSTNAME => proc_cmd_fmw_set_default_hostname
  | EXMPP_CMD_DIAL_VOICE => proc_cmd_dial_voice msg "dial_voice" s
  | EXMPP_CMD_DIAL_USSD => proc_cmd_dial_voice msg "dial_ussd" s
  | EXMPP_CMD_GET_USSD => proc_cmd_get_ussd
  | EXMPP_CMD_DEBUG_LOG_STS => proc_cmd_logsts msg
  | EXMPP_CMD_GSM_MODEM_IDENT => proc_cmd_gsm_modem_identify s
  | EXMPP_CMD_LOG_UPDATE => proc_cmd_log_list_update s
  | EXMPP_CMD_LOG_COUNT => proc_cmd_log_get_count
  | EXMPP_CMD_LOG_MSG => proc_cmd_log_get_line msg
  | EXMPP_CMD_FMW_GET_LOCALIP => proc_cmd_fmw_get_localip
  | EXMPP_CMD_GPIO => proc_cmd_gpio msg
  | EXMPP_CMD_GSM_EVENT_NOTIFY => proc_cmd_event_gsm msg s
  | EXMPP_CMD_GPIO_EVENT_NOTIFY => proc_cmd_event_gpio msg s
  | EXMPP_CMD_SLEEP => proc_cmd_sleep msg
  | EXMPP_CMD_ACCOUNT => proc_cmd_account_name
  | EXMPP_CMD_BOTNAME => proc_cmd_bot_name msg
  | EXMPP_CMD_BUDDY_LIST => proc_cmd_buddy_list
  | EXMPP_CMD_SHELLCMD => proc_cmd_shellcmd msg s EXMPP_CMD_SHELLCMD
  | EXMPP_CMD_SHELLCMD_RESP => proc_cmd_shellcmdresp
  | EXMPP_CMD_SHELLCMD_TRIG => proc_cmd_shellcmd msg s EXMPP_CMD_SHELLCMD_TRIG
  | EXMPP_CMD_DEVIDENT => proc_cmd_devident s
  | EXMPP_CMD_SHUTDOWN => proc_cmd_xmpshutdown s
  | EXMPP_CMD_SONOFF => proc_cmd_sonoff msg
  | EXMPP_CMD_DISPCLEAR => proc_cmd_disp_clear
  | EXMPP_CMD_DISPPRINT => proc_cmd_disp_print msg
  | EXMPP_CMD_DISPBKLT => proc_cmd_disp_backlight msg
  | EXMPP_CMD_BUDDY_ADD => proc_cmd_buddy_add msg s
  | EXMPP_CMD_BUDDY_REMOVE => proc_cmd_buddy_remove msg s
  | EXMPP_CMD_BUDDY_SUBSCRIBE => proc_cmd_buddy_subscribe msg s
  | EXMPP_CMD_BUDDY_UNSUBSCRIBE => proc_cmd_buddy_unsubscribe msg s
  | EXMPP_CMD_ACCEPT_BUDDY_LIST => proc_cmd_accept_buddy_list
  | EXMPP_CMD_RELAY_MESSAGE => proc_cmd_relay_message msg s
  | EXMPP_CMD_ALIAS | EXMPP_CMD_UNKNOWN | EXMPP_CMD_NONE => mret (RPC_SRV_RESULT_UNKNOWN_COMMAND, [])
  end.

(** The reply to a command. *)
Definition answer (a : RPC_SRV_RESULT * cstr) (s : cstr) : XM unit :=
  result ← resTbl a.1;
  on_proxy (send_reply (response result a.2) s);;
  mret ().
(** One round of the inner loop of [monoshot_callback_function]. *)
Definition run_part (s part : cstr) : XM unit :=
  c ← ResolveCmdStr part;
  a ← run_switch c part s;
  answer a s.
Fixpoint run_parts (s : cstr) (parts : list cstr) : XM unit :=
  match parts with [] => mret () | p :: parts => run_part s p;; run_parts s parts end.

(** The commands a message stands for: its alias if it is one, cut at the
    semicolons, and every piece that is an alias cut again. *)
Definition expand (m : list (cstr * cstr)) (msg : cstr) : list cstr :=
  let msg := default msg (map_find msg m) in
  concat (map (λ p, match map_find p m with Some v => split SEMI v | None => [p] end) (split SEMI msg)).
Definition is_alias_command (msg : cstr) : bool :=
  bool_decide ((get_word msg).1 = str "Alias" ∨ (get_word msg).1 = str "alias").
Definition pop_front : XM unit := modify (λ m, set_processCmd (drop 1 (processCmd m)) m).

(** One round of the outer loop; whether the function goes on. *)
Definition process_front (c : XmppCmdEntry) : XM bool :=
  if is_alias_command (cmdMsg c) then
    a ← proc_cmd_alias (cmdMsg c);
    answer a (sender c);;
    pop_front;;
    mret false
  else
    m ← gets AliasList;
    run_parts (sender c) (expand m (lower (cmdMsg c)));;
    pop_front;;
    mret true.
Fixpoint monoshot_loop (fuel : nat) : XM unit :=
  q ← gets processCmd;
  match q, fuel with
  | [], _ => mret ()
  | _, O => out_of_fuel
  | c :: _, S fuel => go ← process_front c; if go : bool then monoshot_loop fuel else mret ()
  end.
(** The queue as it is when the thread wakes up bounds the rounds. *)
Definition monoshot_callback_function : XM unit := q ← gets processCmd; monoshot_loop (length q).

(** ** The thread of the connection *)
Definition wakeup_thread : XM unit := modify (λ m, set_one_shot_sema (one_shot_sema m + 1) m).
Definition onXmppMessage (msg s : cstr) : XM unit :=
  if decide (msg = str "Echo" ∨ msg = str "echo") then on_proxy (send_reply msg s);; mret ()
  else if decide (msg = str "Help" ∨ msg = str "help") then h ← print_help; on_proxy (send_reply h s);; mret ()
  else if contains (str "return=") msg then modify (set_ResponseMsg msg)
  else
    url ← gets AiAgentUrl;
    if negb (empty url) then on_proxy (send_reply (generate_ai_response msg) s);; mret ()
    else
      modify (λ m, set_processCmd (processCmd m ++ [MkCmdEntry msg s]) m);;
      wakeup_thread.
(** [ADXmppProxy::receive_request], and [handleMessage], which calls it. *)
Definition receive_request (req s : cstr) : XM Z :=
  ok ← on_proxy (authorized s);
  if ok : bool then onXmppMessage req s;; mret 0 else mret (-1).
Definition handleMessage (body s : cstr) : XM unit := if empty body then mret () else receive_request body s;; mret ().

(** [XmppMgr::SendMessage]: to nobody in particular. *)
Definition SendMessage (msg : cstr) : XM RPC_SRV_RESULT := on_proxy (send_reply msg []);; mret RPC_SRV_RESULT_SUCCESS.

(** ** The thread of JSON-RPC: [EvntHandler::ReceiveEvent] *)
Definition ADLIB_EVENT_NUM_INPROG_DONE : Z := 0.
Definition ADLIB_EVENT_NUM_SHUT_DOWN : Z := 1.
Definition ADLIB_EVENT_NUM_END : Z := 5.
Definition ReceiveEvent (cltToken evntNum evntArg : Z) : XM unit :=
  (if (cltToken =? ADCMN_PORT_SYSMGR) && (evntNum =? ADLIB_EVENT_NUM_SHUT_DOWN) then modify (set_sysmgrEventActive false) else mret ());;
  (if (cltToken =? ADCMN_PORT_BBOXSMS) && (evntNum =? ADLIB_EVENT_NUM_SHUT_DOWN) then modify (set_bboxSmsEventActive false) else mret ());;
  (if (cltToken =? ADCMN_PORT_GPIOCTL) && (evntNum =? ADLIB_EVENT_NUM_SHUT_DOWN) then modify (set_gpioEventActive false) else mret ());;
  if evntNum =? ADLIB_EVENT_NUM_INPROG_DONE then
    e ← AccessAsyncTaskList_find evntArg cltToken;
    match e with
    | None => mret ()
    | Some (xmpTID, dest) =>
        ok ← connect cltToken;
        if ok : bool then
          a ← call "get_rpc_req_status" [("taskId", ArgString (dec evntArg))];
          RpcResponseCallback a.2 xmpTID dest;;
          mret ()
        else mret ()
    end
  else if (cltToken =? ADCMN_PORT_GPIOCTL) && (evntNum =? ADLIB_EVENT_NUM_END) then GpioEventCallback evntNum evntArg;; mret ()
  else mret ().

(** ** Starting *)
(** [getline] on a file that may have come to its end, and then leaves the line
    as it was. *)
Definition std_getline (f : option cstr) (line : cstr) : cstr * option cstr :=
  match f with
  | None => (line, None)
  | Some s => let '(a, b) := break (λ c, bool_decide (c = NL)) s in (a, match b with [] => None | _ :: r => Some r end)
  end.
Definition second_word (line : cstr) : cstr := (cmd_and_arg line).2.
(** A value that [>>] does not find is left as it is. *)
Definition read_word (line old : cstr) : cstr := if empty (second_word line) then old else second_word line.
Definition Start (accountFilePath : cstr) : XM RPC_SRV_RESULT :=
  if empty accountFilePath then mret RPC_SRV_RESULT_FAIL
  else
    path ← gets AliasListFile; LoadAliasList path;;
    path ← gets EventSubscrListFile; LoadEventSubscrList path;;
    fs ← gets files;
    let '(line, f) := std_getline (map_find accountFilePath fs) [] in
    if empty line then mret RPC_SRV_RESULT_FAIL
    else
      modify (λ m, set_XmppUserName (read_word line (XmppUserName m)) m);;
      user ← gets XmppUserName;
      if empty user then mret RPC_SRV_RESULT_FAIL
      else
        let '(line, f) := std_getline f line in
        if empty line then mret RPC_SRV_RESULT_FAIL
        else
          modify (λ m, set_XmppUserPw (read_word line (XmppUserPw m)) m);;
          pw ← gets XmppUserPw;
          if empty pw then mret RPC_SRV_RESULT_FAIL
          else
            let '(line, f) := std_getline f line in
            modify (λ m, set_XmppAdminBuddy (if empty line then [] else read_word line (XmppAdminBuddy m)) m);;
            let '(line, f) := std_getline f line in
            modify (λ m, set_XmppBkupAdminBuddy (if empty line then [] else read_word line (XmppBkupAdminBuddy m)) m);;
            mret RPC_SRV_RESULT_SUCCESS.
(** What the thread that [Start] starts calls when it logs in. *)
Definition login : XM unit :=
  a ← gets XmppAdminBuddy; b ← gets XmppBkupAdminBuddy; on_proxy (connect_begin a b).
End service.
