(* ===== verification/XmppRun.v ===== *)
(** * The chat service at work

    The threads of the service during one connection: gloox delivers messages,
    requests to subscribe and to unsubscribe, and changes of the roster; the worker
    thread runs the commands; and JSON-RPC delivers events and the calls of
    XmppRpc.cpp that accept a buddy, subscribe to one or send him a message.  A step
    is one whole call of gloox or of JSON-RPC, or one whole round of the worker's
    loop, and they come in any order.  [processCmd], [mySessions], [AcceptBuddyList]
    and [myEventList] are containers of the C++ library that the threads share
    without a lock (XmppMgr.cpp 250, 287 and 303), so that calls which overlap on
    one of them have no defined behaviour: the theorems are about runs in which
    none do.  The answers and the events of a task, which the program means to come
    in either order, are compared in [event_before_entry].  The two calls about the
    state of the connection are not steps: [get_online_status] changes nothing, and
    [set_online_status] ends the connection or waits for the next. *)

From Stdlib Require Import ZArith Lia Ascii String Sorted.
From stdpp Require Import base list sorting gmap strings.
From S2P Require Import Prelude CString RpcResult CxxStd XmppProxy XmppMgr XmppMgrProofs.

(** Whether the worker thread waits for its semaphore or runs
    [monoshot_callback_function]. *)
Inductive worker := Waiting | Running.
#[export] Instance worker_eq_dec : EqDecision worker.
Proof. solve_decision. Defined.

Inductive op :=
| OpSession (bare : cstr)
| OpMessage (body s : cstr)
| OpRoster (r : list (cstr * Z))
| OpSubscription (bare : cstr)
| OpUnsubscription (bare : cstr)
| OpEvent (cltToken evntNum evntArg : Z)
| OpSendMessage (dest message : cstr)
| OpSubscribe (dest : cstr)
| OpAcceptBuddy (dest : cstr)
| OpWake
| OpRound.

(** An operation, the state it found, and what gloox was told by it. *)
Record event := Ev { ev_state : XmppMgr; ev_op : op; ev_out : list xmpp_action }.

(** What the service is told to send by a step. *)
Definition told (m n : XmppMgr) (out : list xmpp_action) : Prop := actions (XmppProxy n) = actions (XmppProxy m) ++ out.

Section run.
Context {sv : Services}.

(** The calls of XmppRpc.cpp: the text that comes with the last two is not used, and
    what is printed and the pause before it are left out. *)
Definition process_set_send_message (dest message : cstr) : XM RPC_SRV_RESULT := proc_cmd_send_message dest message (str "message").
Definition process_set_subscribe_message (dest : cstr) : XM RPC_SRV_RESULT := proc_cmd_subscribe_message dest.
Definition process_set_accept_buddy (dest : cstr) : XM RPC_SRV_RESULT := proc_cmd_add_buddy dest.

(** gloox opens a session before it delivers a message of it. *)
Inductive step : XmppMgr * worker → event → XmppMgr * worker → Prop :=
| step_session m n w bare out :
    on_proxy (handleMessageSession bare) m = Done () n → told m n out →
    step (m, w) (Ev m (OpSession bare) out) (n, w)
| step_message m n w body s out :
    with_session s m → handleMessage body s m = Done () n → told m n out →
    step (m, w) (Ev m (OpMessage body s) out) (n, w)
| step_roster m w r :
    step (m, w) (Ev m (OpRoster r) []) (set_XmppProxy (set_roster r (XmppProxy m)) m, w)
| step_event m n w clt num arg out :
    ReceiveEvent clt num arg m = Done () n → told m n out →
    step (m, w) (Ev m (OpEvent clt num arg) out) (n, w)
| step_subscription m n w bare b out :
    on_proxy (handleSubscriptionRequest bare) m = Done b n → told m n out →
    step (m, w) (Ev m (OpSubscription bare) out) (n, w)
| step_unsubscription m n w bare b out :
    on_proxy (handleUnsubscriptionRequest bare) m = Done b n → told m n out →
    step (m, w) (Ev m (OpUnsubscription bare) out) (n, w)
| step_send_message m n w dest message r out :
    process_set_send_message dest message m = Done r n → told m n out →
    step (m, w) (Ev m (OpSendMessage dest message) out) (n, w)
| step_subscribe m n w dest r out :
    process_set_subscribe_message dest m = Done r n → told m n out →
    step (m, w) (Ev m (OpSubscribe dest) out) (n, w)
| step_accept_buddy m n w dest r out :
    process_set_accept_buddy dest m = Done r n → told m n out →
    step (m, w) (Ev m (OpAcceptBuddy dest) out) (n, w)
| step_wake m :
    0 < one_shot_sema m →
    step (m, Waiting) (Ev m OpWake []) (set_one_shot_sema (one_shot_sema m - 1) m, Running)
| step_rest m :
    processCmd m = [] →
    step (m, Running) (Ev m OpRound []) (m, Waiting)
| step_round m n c q go out :
    processCmd m = c :: q → process_front c m = Done go n → told m n out →
    step (m, Running) (Ev m OpRound out) (n, if go : bool then Running else Waiting).

Inductive exec : XmppMgr * worker → list event → XmppMgr * worker → Prop :=
| exec_nil x : exec x [] x
| exec_snoc x tr y e z : exec x tr y → step y e z → exec x (tr ++ [e]) z.

(** A message that gets to the queue: of one who may talk to the service, and not
    one that is answered at once. *)
Definition may_talk (m : XmppMgr) (s : cstr) : bool := is_admin (XmppProxy m) s || in_roster s (roster (XmppProxy m)).
Definition queued (m : XmppMgr) (body : cstr) : bool :=
  negb (bool_decide (body = str "Echo" ∨ body = str "echo")) && negb (bool_decide (body = str "Help" ∨ body = str "help")) &&
  negb (contains (str "return=") body) && empty (AiAgentUrl m).
Definition accepted (m : XmppMgr) (body s : cstr) : bool := negb (empty body) && may_talk m s && queued m body.
Definition arrival (e : event) : list XmppCmdEntry :=
  match ev_op e with OpMessage body s => if accepted (ev_state e) body s then [MkCmdEntry body s] else [] | _ => [] end.
Definition arrivals (tr : list event) : list XmppCmdEntry := concat (map arrival tr).

(** The messages that the worker has worked on, with the states it found, and
    the replies it has sent. *)
Definition work (e : event) : list (XmppMgr * XmppCmdEntry) :=
  match ev_op e, processCmd (ev_state e) with OpRound, c :: _ => [(ev_state e, c)] | _, _ => [] end.
Definition answered (tr : list event) : list (XmppMgr * XmppCmdEntry) := concat (map work tr).
Definition worker_replies (tr : list event) : list xmpp_action :=
  concat (map (λ e, match ev_op e with OpRound => replies (ev_out e) | _ => [] end) tr).

(** The replies to a message with given results. *)
Definition replies_to (x : XmppMgr * XmppCmdEntry) (rs : list (RPC_SRV_RESULT * cstr)) : list xmpp_action :=
  map (λ a, Send (sender x.2) (reply_text a)) rs.

Definition worker_op (e : event) : bool := match ev_op e with OpWake | OpRound => true | _ => false end.
Definition is_running (w : worker) : Z := match w with Running => 1 | Waiting => 0 end.

(** The service at the beginning of a connection: nothing to do. *)
Record idle (m : XmppMgr) : Prop := Idle { id_up : up m; id_queue : processCmd m = []; id_sema : one_shot_sema m = 0 }.

Hypothesis Hlong : 32 ≤ long_bits.

(** The wake-ups that are left suffice for the messages that are left, and the
    senders of all of them have a session. *)
Record inv (x : XmppMgr * worker) : Prop := Inv {
  in_up : up x.1;
  in_sema : 0 ≤ one_shot_sema x.1;
  in_work : Z.of_nat (length (processCmd x.1)) ≤ one_shot_sema x.1 + is_running x.2;
  in_sessions : Forall (λ c, with_session (sender c) x.1) (processCmd x.1)
}.

(** ** What the other threads do *)

(** A reply, or news of a GPIO pin to one who has subscribed. *)
Definition harmless (a : xmpp_action) : Prop :=
  (∃ t r, a = Send t r) ∨ (∃ t n, a = SendEvent t (str "eventgpio " ++ dec n) (str "event")).

(** A step of a thread that is not the worker: [accepts] is what happens to the list
    of buddies to accept, and what gloox is told is [ok]. *)
Record beside_of (ok : xmpp_action → Prop) (accepts : list cstr → list cstr) (q : list XmppCmdEntry) (m n : XmppMgr) : Prop := Beside {
  be_up : up m → up n;
  be_admin : AdminBuddy (XmppProxy n) = AdminBuddy (XmppProxy m) ∧ BkupAdminBuddy (XmppProxy n) = BkupAdminBuddy (XmppProxy m);
  be_accept : AcceptBuddyList (XmppProxy n) = accepts (AcceptBuddyList (XmppProxy m));
  be_session : ∀ s, with_session s m → with_session s n;
  be_queue : processCmd n = processCmd m ++ q;
  be_sema : one_shot_sema n = one_shot_sema m + Z.of_nat (length q);
  be_saved : saved m → saved n;
  be_told : ∃ out, told m n out ∧ Forall ok out
}.
Abbreviation beside := (beside_of harmless (λ l, l)).
Lemma beside_weaken ok accepts q m n : (∀ a, harmless a → ok a) → accepts (AcceptBuddyList (XmppProxy m)) = AcceptBuddyList (XmppProxy m) →
  beside q m n → beside_of ok accepts q m n.
Proof.
  intros Hok Ha [? ? Hb ? ? ? ? (out & T & F)]. split; try done; [by rewrite Ha|]. exists out. split; [done|].
  eapply Forall_impl; [exact F|]. exact Hok.
Qed.
Lemma told_refl m : told m m [].
Proof. unfold told. by rewrite app_nil_r. Qed.
Lemma told_trans m n o l1 l2 : told m n l1 → told n o l2 → told m o (l1 ++ l2).
Proof. unfold told. intros H1 H2. by rewrite H2, H1, app_assoc. Qed.
Lemma beside_refl m : beside [] m m.
Proof. split; try done; [by rewrite app_nil_r|cbn; lia|]. exists []. split; [apply told_refl|done]. Qed.
Lemma beside_trans q m n o : beside [] m n → beside q n o → beside q m o.
Proof.
  intros [? [] ? ? Q1 S1 ? (l1 & T1 & F1)] [? [] ? ? Q2 S2 ? (l2 & T2 & F2)]. split; auto.
  - split; congruence.
  - congruence.
  - by rewrite Q2, Q1, <-app_assoc.
  - rewrite S2, S1. cbn. lia.
  - exists (l1 ++ l2). split; [by eapply told_trans|by apply Forall_app].
Qed.
(** A change to none of the parts that matter here. *)
Lemma beside_aside m n : XmppProxy n = XmppProxy m → processCmd n = processCmd m → one_shot_sema n = one_shot_sema m →
  (saved m → saved n) → beside [] m n.
Proof.
  intros E1 E2 E3 Hs. split.
  - unfold up. by rewrite E1.
  - by rewrite E1.
  - by rewrite E1.
  - intros s. unfold with_session. by rewrite E1.
  - by rewrite E2, app_nil_r.
  - rewrite E3. cbn. lia.
  - exact Hs.
  - exists []. split; [|done]. unfold told. by rewrite E1, app_nil_r.
Qed.
(** gloox is told something. *)
Lemma beside_act m a : harmless a → beside [] m (set_XmppProxy (set_actions (actions (XmppProxy m) ++ [a]) (XmppProxy m)) m).
Proof. intros Ha. split; try done; [by rewrite app_nil_r|cbn; lia|by intros []|]. exists [a]. by split; [|constructor]. Qed.

Lemma reply_beside t s m : up m → ∃ r n, on_proxy (send_reply t s) m = Done r n ∧ beside [] m n.
Proof.
  intros (g & Hg & Hf). destruct (map_find s (mySessions (XmppProxy m))) as [g'|] eqn:Es.
  - eexists 0, _. split; [apply zoom_done, (send_reply_run _ g); [done..|by exists g']|]. apply beside_act. left. by eexists _, _.
  - exists (-1), m. split; [|apply beside_refl]. unfold on_proxy, zoom, send_reply. rewrite bind_gets, Hg, bind_gets, Es. by destruct m.
Qed.
Lemma authorized_run s m : up m → on_proxy (authorized s) m = Done (may_talk m s) m.
Proof.
  intros (g & Hg & _). unfold on_proxy, zoom, authorized, is_admin_user, may_talk. rewrite bind_gets.
  destruct (is_admin (XmppProxy m) s); cbn [orb]; [by destruct m|].
  rewrite (bind_done _ _ _ _ _ (client_run _ _ Hg)). by destruct m.
Qed.

Lemma on_message_beside body s m : up m →
  ∃ n, onXmppMessage body s m = Done () n ∧ beside (if queued m body then [MkCmdEntry body s] else []) m n.
Proof.
  intros Hu. unfold onXmppMessage, queued. destruct (decide (body = str "Echo" ∨ body = str "echo")) as [He|He].
  { rewrite (bool_decide_eq_true_2 _ He). destruct (reply_beside body s m Hu) as (r & n & E & B). exists n. by mstep E. }
  rewrite (bool_decide_eq_false_2 _ He). destruct (decide (body = str "Help" ∨ body = str "help")) as [Hh|Hh].
  { rewrite (bool_decide_eq_true_2 _ Hh). assert (∃ h, print_help m = Done h m) as [h Eh] by by eexists. mstep Eh.
    destruct (reply_beside h s m Hu) as (r & n & E & B). exists n. by mstep E. }
  rewrite (bool_decide_eq_false_2 _ Hh). cbn [negb andb]. destruct (contains _ body); cbn [negb andb].
  { eexists. split; [done|]. apply beside_aside; try done. by intros []. }
  msimpl. destruct (empty (AiAgentUrl m)); cbn [negb].
  - eexists. split; [done|]. split; try done; [by intros []|]. exists []. split; [|done]. unfold told. cbn. by rewrite app_nil_r.
  - destruct (reply_beside (generate_ai_response body) s m Hu) as (r & n & E & B). exists n. by mstep E.
Qed.
Lemma message_beside body s m : up m →
  ∃ n, handleMessage body s m = Done () n ∧ beside (if accepted m body s then [MkCmdEntry body s] else []) m n.
Proof.
  intros Hu. unfold handleMessage, accepted. destruct (empty body); cbn [negb andb]; [exists m; split; [done|apply beside_refl]|].
  unfold receive_request. destruct (may_talk m s) eqn:Ea; cbn [andb].
  - destruct (on_message_beside body s m Hu) as (n & E & B). exists n. split; [|exact B].
    erewrite bind_done; [done|]. mstep (authorized_run s m Hu). rewrite Ea. by mstep E.
  - exists m. split; [|apply beside_refl]. erewrite bind_done; [done|]. mstep (authorized_run s m Hu). by rewrite Ea.
Qed.

(** The events of the other services. *)
Lemma send_event_beside t n m : up m →
  ∃ r m', on_proxy (SendMessageToBuddy t (str "eventgpio " ++ dec n) (str "event")) m = Done r m' ∧ beside [] m m'.
Proof.
  intros (g & Hg & Hf). assert (E := send_event_run _ g t (str "eventgpio " ++ dec n) (str "event") Hg Hf). destruct (_ && _).
  - eexists true, _. split; [by apply zoom_done|]. apply beside_act. right. by eexists _, _.
  - exists false, m. split; [|apply beside_refl]. unfold on_proxy, zoom. rewrite E. by destruct m.
Qed.
Lemma gpio_beside arg l m : up m → ∃ n, gpio_loop arg l m = Done () n ∧ beside [] m n.
Proof.
  revert m. induction l as [|e l IH]; intros m Hu; [exists m; split; [done|apply beside_refl]|]. cbn [gpio_loop].
  destruct (bool_decide _).
  - destruct (send_event_beside (subscriber e) arg m Hu) as (r & n & E & B). destruct (IH n) as (o & Eo & Bo); [by apply B|].
    exists o. split; [|by eapply beside_trans]. erewrite bind_done; [exact Eo|]. by mstep E.
  - msimpl. by apply IH.
Qed.

Lemma saved_aside m n : AliasListFile n = AliasListFile m → EventSubscrListFile n = EventSubscrListFile m →
  XmppBotNameFilePath n = XmppBotNameFilePath m → AliasList n = AliasList m → myEventList n = myEventList m →
  XmppBotName n = XmppBotName m → files n = files m → saved m → saved n.
Proof. intros E1 E2 E3 E4 E5 E6 E7 []. unfold content in *. split; unfold content; rewrite ?E1, ?E2, ?E3, ?E4, ?E5, ?E6, ?E7; done. Qed.
Ltac unsaved := apply beside_aside; [done..|by apply saved_aside].

Lemma flag_beside (b : bool) f m : (∀ m, beside [] m (f m)) → ∃ n, (if b then modify f else mret ()) m = Done () n ∧ beside [] m n.
Proof. intros Hf. destruct b; [by exists (f m)|exists m; split; [done|apply beside_refl]]. Qed.
Lemma find_beside tid port m : ∃ r n, AccessAsyncTaskList_find tid port m = Done r n ∧ beside [] m n.
Proof.
  unfold AccessAsyncTaskList_find. msimpl. destruct (List.find _ _); [|exists None, m; split; [done|apply beside_refl]].
  msimpl. eexists _, _. split; [done|]. unsaved.
Qed.
Lemma ask_beside r m : ∃ h n, ask r m = Done h n ∧ beside [] m n.
Proof. unfold ask. msimpl. eexists _, _. split; [done|]. unsaved. Qed.
Lemma task_done_beside clt arg tid dest m : up m →
  ∃ n, (ok ← connect clt;
        if ok : bool then a ← call "get_rpc_req_status" [("taskId", ArgString (dec arg))]; RpcResponseCallback a.2 tid dest;; mret ()
        else mret ()) m = Done () n ∧ beside [] m n.
Proof.
  intros Hu. destruct (ask_beside (Connect clt) m) as (h & m1 & E1 & B1).
  assert (Ec : connect clt m = Done (rpc_server_connect h clt) m1) by (unfold connect; by mstep E1). mstep Ec.
  destruct (rpc_server_connect h clt); [|by exists m1].
  destruct (ask_beside (Call (str "get_rpc_req_status") [(str "taskId", ArgString (dec arg))]) m1) as (h2 & m2 & E2 & B2).
  assert (Ea : ∃ a, call "get_rpc_req_status" [("taskId", ArgString (dec arg))] m1 = Done a m2) by (eexists; unfold call; cbn; by mstep E2).
  destruct Ea as [a Ea]. mstep Ea.
  destruct (reply_beside (response a.2 (task_id tid)) dest m2) as (r & m3 & E3 & B3); [by apply B2, B1|].
  exists m3. split; [erewrite bind_done; [done|]; unfold RpcResponseCallback; by mstep E3|].
  eapply beside_trans; [exact B1|]. by eapply beside_trans.
Qed.
Lemma event_beside clt num arg m : up m → ∃ n, ReceiveEvent clt num arg m = Done () n ∧ beside [] m n.
Proof.
  intros Hu. unfold ReceiveEvent.
  destruct (flag_beside ((clt =? ADCMN_PORT_SYSMGR) && (num =? ADLIB_EVENT_NUM_SHUT_DOWN)) (set_sysmgrEventActive false) m) as (m1 & E1 & B1); [intros; unsaved|].
  mstep E1.
  destruct (flag_beside ((clt =? ADCMN_PORT_BBOXSMS) && (num =? ADLIB_EVENT_NUM_SHUT_DOWN)) (set_bboxSmsEventActive false) m1) as (m2 & E2 & B2); [intros; unsaved|].
  mstep E2.
  destruct (flag_beside ((clt =? ADCMN_PORT_GPIOCTL) && (num =? ADLIB_EVENT_NUM_SHUT_DOWN)) (set_gpioEventActive false) m2) as (m3 & E3 & B3); [intros; unsaved|].
  mstep E3. assert (B : beside [] m m3) by (eapply beside_trans; [exact B1|]; by eapply beside_trans). clear B1 B2 B3 E1 E2 E3.
  assert (Hu3 : up m3) by by apply B. destruct (num =? ADLIB_EVENT_NUM_INPROG_DONE).
  - destruct (find_beside arg clt m3) as (r & m4 & E4 & B4). mstep E4. destruct r as [[tid dest]|]; [|exists m4; split; [done|by eapply beside_trans]].
    destruct (task_done_beside clt arg tid dest m4) as (n & En & Bn); [by apply B4|]. exists n. split; [exact En|].
    eapply beside_trans; [exact B|]. by eapply beside_trans.
  - destruct (_ && _); [|by exists m3]. unfold GpioEventCallback. destruct (gpio_beside arg (myEventList m3) m3 Hu3) as (n & En & Bn).
    exists n. split; [|by eapply beside_trans]. erewrite bind_done; [done|]. rewrite bind_gets. by mstep En.
Qed.

Lemma session_beside bare m : up m → ∃ n, on_proxy (handleMessageSession bare) m = Done () n ∧ beside [] m n ∧ actions (XmppProxy n) = actions (XmppProxy m).
Proof.
  intros (g & Hg & Hf). eexists. split; [apply zoom_done; unfold handleMessageSession; rewrite bind_gets, Hg; done|]. split; [|done].
  split; try done; [| |by rewrite app_nil_r|cbn; lia|by intros []|].
  - intros _. exists g. split; [done|]. by apply set_Forall.
  - intros s. unfold with_session. cbn. rewrite find_set. case_decide; [by eexists|done].
  - exists []. split; [|done]. unfold told. cbn. by rewrite app_nil_r.
Qed.
Lemma roster_beside r m : beside [] m (set_XmppProxy (set_roster r (XmppProxy m)) m).
Proof. split; try done; [by rewrite app_nil_r|cbn; lia|by intros []|]. exists []. split; [|done]. unfold told. cbn. by rewrite app_nil_r. Qed.

(** Requests about the presence of this account: who may see it, and who no longer
    wants to. *)
Definition may_subscribe (p : ADXmppProxy) (bare : cstr) : bool := is_admin p bare || bool_decide (bare ∈ AcceptBuddyList p).
Lemma subscription_run bare m : on_proxy (handleSubscriptionRequest bare) m = Done (may_subscribe (XmppProxy m) bare) m.
Proof.
  unfold on_proxy, zoom, handleSubscriptionRequest, is_admin_user, may_subscribe. rewrite bind_gets. destruct (is_admin _ _); by destruct m.
Qed.
Lemma erase_absent b l : b ∉ l → erase_first b l = l.
Proof.
  induction l as [|x l IH]; cbn; [done|]. intros [Hx Hl]%not_elem_of_cons. rewrite decide_False by done. by rewrite IH.
Qed.
Lemma beside_accepts f m : beside_of harmless f [] m (set_XmppProxy (set_AcceptBuddyList (f (AcceptBuddyList (XmppProxy m))) (XmppProxy m)) m).
Proof. split; try done; [by rewrite app_nil_r|cbn; lia|by intros []|]. exists []. split; [|done]. unfold told. cbn. by rewrite app_nil_r. Qed.
Lemma on_proxy_reads {A} (c : PM A) a m : c (XmppProxy m) = Done a (XmppProxy m) → on_proxy c m = Done a m.
Proof. intros E. unfold on_proxy. rewrite (zoom_done XmppProxy set_XmppProxy _ _ _ _ E). by destruct m. Qed.
Lemma set_accept_same p : set_AcceptBuddyList (AcceptBuddyList p) p = p.
Proof. by destruct p. Qed.
Lemma remove_buddy_run b p : ∃ r, remove_buddy b p = Done r (set_AcceptBuddyList (erase_first b (AcceptBuddyList p)) p).
Proof.
  unfold remove_buddy. rewrite bind_gets. case_bool_decide as H; [by eexists|]. rewrite erase_absent, set_accept_same by done. by eexists.
Qed.
Lemma unsubscription_beside bare m : ∃ b n, on_proxy (handleUnsubscriptionRequest bare) m = Done b n ∧ beside_of harmless (erase_first bare) [] m n.
Proof.
  destruct (remove_buddy_run bare (XmppProxy m)) as [r E]. eexists true, _. split; [|apply (beside_accepts (erase_first bare))].
  apply zoom_done. unfold handleUnsubscriptionRequest. by mstep E.
Qed.
(** [accept_buddy] on the list. *)
Definition accept_once (b : cstr) (l : list cstr) : list cstr := if bool_decide (b ∈ l) then l else l ++ [b].
Lemma accept_buddy_run b p : accept_buddy b p = Done 0 (set_AcceptBuddyList (accept_once b (AcceptBuddyList p)) p).
Proof. unfold accept_buddy, accept_once. rewrite bind_gets. case_bool_decide; [by rewrite set_accept_same|done]. Qed.
Lemma accept_beside dest m : ∃ r n, process_set_accept_buddy dest m = Done r n ∧ beside_of harmless (accept_once dest) [] m n.
Proof.
  eexists _, _. split; [|apply (beside_accepts (accept_once dest))]. unfold process_set_accept_buddy, proc_cmd_add_buddy.
  by erewrite bind_done by (apply zoom_done, accept_buddy_run).
Qed.
(** Calls of the box itself that make the service talk to somebody. *)
Lemma subscribe_beside dest m : up m → ∃ r n, process_set_subscribe_message dest m = Done r n ∧ beside_of (λ a, a = Subscribe dest) (λ l, l) [] m n.
Proof.
  intros (g & Hg & _). eexists _, _. split.
  - unfold process_set_subscribe_message, proc_cmd_subscribe_message. erewrite bind_done; [done|]. apply zoom_done. unfold subscribe_buddy. by mstep (client_run _ g Hg).
  - split; try done; [by rewrite app_nil_r|cbn; lia|by intros []|]. eexists. split; [done|by constructor].
Qed.
Lemma send_beside dest t m : up m → ∃ r n, process_set_send_message dest t m = Done r n ∧
  beside_of (λ a, a = SendEvent dest t (str "message")) (λ l, l) [] m n.
Proof.
  intros Hu. destruct (buddy_message_run dest t (str "message") m Hu) as (r & n & E & [-> | ->]); eexists _, _; (split; [exact E|]).
  - split; try done; [by rewrite app_nil_r|cbn; lia|]. exists []. split; [apply told_refl|done].
  - split; try done; [by rewrite app_nil_r|cbn; lia|by intros []|]. eexists. split; [done|by constructor].
Qed.

(** What a step that is not the worker's does to the list of buddies to accept, and
    what gloox may be told by it. *)
Definition accept_change (l : list cstr) (e : event) : list cstr :=
  match ev_op e with OpUnsubscription bare => erase_first bare l | OpAcceptBuddy dest => accept_once dest l | _ => l end.
Definition allowed (e : event) (a : xmpp_action) : Prop :=
  harmless a ∨
  match ev_op e with
  | OpSendMessage dest message => a = SendEvent dest message (str "message")
  | OpSubscribe dest => a = Subscribe dest
  | _ => False
  end.
Abbreviation beside_step e := (beside_of (allowed e) (λ l, accept_change l e) (arrival e)).
Lemma beside_allowed e accepts q m n : (∀ l, accept_change l e = accepts l) → arrival e = q →
  beside_of harmless accepts q m n → beside_step e m n.
Proof.
  intros Hc <- [? ? Hb ? ? ? ? (out & T & F)]. split; try done; [by rewrite Hb, Hc|]. exists out. split; [done|].
  eapply Forall_impl; [exact F|]. by left.
Qed.

(** A step of another thread. *)
Lemma other_step x e y : inv x → step x e y → worker_op e = false →
  beside_step e x.1 y.1 ∧ y.2 = x.2 ∧ told x.1 y.1 (ev_out e) ∧ Forall (λ c, with_session (sender c) x.1) (arrival e).
Proof.
  intros [Hu _ _ _]. destruct 1 as [m n w bare out E T|m n w body s out Hs E T|m w r|m n w clt num arg out E T|m n w bare b out E T|m n w bare b out E T
    |m n w dest t r out E T|m n w dest r out E T|m n w dest r out E T|m|m|m n c q go out]; try done; intros _; cbn [fst snd ev_out] in *.
  - destruct (session_beside bare m Hu) as (n' & E' & B & _). rewrite E in E'. injection E' as <-. split; [by eapply beside_allowed, B|done].
  - destruct (message_beside body s m Hu) as (n' & E' & B). rewrite E in E'. injection E' as <-. split; [by eapply beside_allowed, B|].
    split; [done|]. split; [done|]. unfold arrival. cbn. destruct (accepted _ _ _); by repeat constructor.
  - split; [by eapply beside_allowed, roster_beside|]. split; [done|]. split; [|done]. unfold told. cbn. by rewrite app_nil_r.
  - destruct (event_beside clt num arg m Hu) as (n' & E' & B). rewrite E in E'. injection E' as <-. split; [by eapply beside_allowed, B|done].
  - rewrite subscription_run in E. injection E as _ <-. split; [by eapply beside_allowed, beside_refl|done].
  - destruct (unsubscription_beside bare m) as (b' & n' & E' & B). rewrite E in E'. injection E' as _ <-. split; [by eapply beside_allowed, B|done].
  - destruct (send_beside dest t m Hu) as (r' & n' & E' & B). rewrite E in E'. injection E' as _ <-. split; [|done].
    destruct B as [? ? ? ? ? ? ? (l & T' & F)]. split; try done. exists l. split; [done|]. eapply Forall_impl; [exact F|]. by right.
  - destruct (subscribe_beside dest m Hu) as (r' & n' & E' & B). rewrite E in E'. injection E' as _ <-. split; [|done].
    destruct B as [? ? ? ? ? ? ? (l & T' & F)]. split; try done. exists l. split; [done|]. eapply Forall_impl; [exact F|]. by right.
  - destruct (accept_beside dest m) as (r' & n' & E' & B). rewrite E in E'. injection E' as _ <-. split; [by eapply beside_allowed, B|done].
Qed.

(** A round of the worker on a message. *)
Lemma round_step m e n w : inv (m, Running) → step (m, Running) e (n, w) → ev_op e = OpRound → ∀ c q, processCmd m = c :: q →
  ∃ rs, length rs = commands m (cmdMsg c) ∧
    served (is_admin (XmppProxy m) (sender c)) (person (sender c) ∧ NL ∉ cmdMsg c) (sender c) (map reply_text rs) m n ∧
    processCmd n = q ∧ told m n (ev_out e) ∧ ev_state e = m.
Proof.
  intros [Hu _ _ Hs] Hst Hop c q Hq. cbn [fst] in *. rewrite Hq in Hs. inversion Hs as [|? ? Hc Hcs]; subst.
  inversion Hst; subst; try done; [congruence|].
  match goal with H1 : processCmd m = ?c0 :: ?q0, H2 : process_front ?c0 m = _ |- _ => assert (c0 = c ∧ q0 = q) as [-> ->] by (split; congruence); rename H2 into E end.
  destruct (front_served Hlong _ c m Hu eq_refl Hc) as (rs & n' & E' & Hl & Sv & Qn). rewrite E in E'. injection E' as _ <-.
  exists rs. split_and!; [done|done|by rewrite Qn, Hq|done|done].
Qed.

(** ** Steps and runs *)
Lemma ev_state_step x e y : step x e y → ev_state e = x.1.
Proof. by destruct 1. Qed.

Inductive kind (x : XmppMgr * worker) (e : event) (y : XmppMgr * worker) : Prop :=
| kind_other : worker_op e = false → beside_step e x.1 y.1 → y.2 = x.2 → told x.1 y.1 (ev_out e) →
    Forall (λ c, with_session (sender c) x.1) (arrival e) → kind x e y
| kind_wake : ev_op e = OpWake → 0 < one_shot_sema x.1 → x.2 = Waiting → ev_out e = [] →
    y = (set_one_shot_sema (one_shot_sema x.1 - 1) x.1, Running) → kind x e y
| kind_rest : ev_op e = OpRound → processCmd x.1 = [] → x.2 = Running → ev_out e = [] → y = (x.1, Waiting) → kind x e y
| kind_round c q rs : ev_op e = OpRound → processCmd x.1 = c :: q → x.2 = Running →
    length rs = commands x.1 (cmdMsg c) →
    served (is_admin (XmppProxy x.1) (sender c)) (person (sender c) ∧ NL ∉ cmdMsg c) (sender c) (map reply_text rs) x.1 y.1 →
    processCmd y.1 = q → told x.1 y.1 (ev_out e) → kind x e y.
Lemma step_kind x e y : inv x → step x e y → kind x e y.
Proof.
  intros Hi Hst. destruct (worker_op e) eqn:Hw.
  2: { destruct (other_step x e y Hi Hst Hw) as (B & ? & ? & ?). by apply kind_other. }
  destruct x as [m w], y as [n w']. unfold worker_op in Hw. destruct (ev_op e) eqn:Ho; try done.
  - inversion Hst; subst; cbn in Ho; try done. by apply kind_wake.
  - destruct (processCmd m) as [|c q] eqn:Hq.
    + inversion Hst; subst; cbn in Ho; try done; [by apply kind_rest|congruence].
    + assert (w = Running) as -> by (inversion Hst; subst; cbn in Ho; done).
      destruct (round_step m e n w' Hi Hst Ho c q Hq) as (rs & Hl & Sv & Qn & T & _). by eapply kind_round.
Qed.

Lemma step_inv x e y : inv x → step x e y → inv y.
Proof.
  intros Hi Hst. destruct (step_kind x e y Hi Hst) as [Hw B Hy T Hc|Ho Hp Hx Hout ->|Ho Hq Hx Hout ->|c q rs Ho Hq Hx Hl Sv Qn T]; destruct Hi as [Hu Hs Hwk Hss].
  - split; [by apply B|rewrite (be_sema _ _ _ _ _ B); lia| |].
    + rewrite (be_sema _ _ _ _ _ B), (be_queue _ _ _ _ _ B), Hy, length_app. lia.
    + rewrite (be_queue _ _ _ _ _ B). apply Forall_app. split; (eapply Forall_impl; [eassumption|]); intros ?; apply (be_session _ _ _ _ _ B).
  - rewrite Hx in Hwk. split; cbn in *; [exact Hu|lia|lia|exact Hss].
  - split; cbn in *; [exact Hu|exact Hs|rewrite Hq; cbn; lia|exact Hss].
  - rewrite Hx, Hq in Hwk. cbn in Hwk. rewrite Hq in Hss. inversion Hss; subst. split.
    + by eapply served_up.
    + by rewrite (se_sema _ _ _ _ _ _ Sv).
    + rewrite (se_sema _ _ _ _ _ _ Sv). destruct y.2; cbn; lia.
    + eapply Forall_impl; [eassumption|]. intros ?. by eapply served_session.
Qed.
Lemma idle_inv m : idle m → inv (m, Waiting).
Proof. intros [Hu Hq Hs]. split; cbn; [done|lia|by rewrite Hq, Hs|by rewrite Hq]. Qed.
Lemma exec_inv x tr y : exec x tr y → inv x → inv y.
Proof. induction 1 as [x|x tr y e z He IH Hst]; intros Hi; [done|]. exact (step_inv y e z (IH Hi) Hst). Qed.

(** *** The order of messages and replies *)
Lemma work_op e : worker_op e = false → work e = [].
Proof. unfold worker_op, work. by destruct (ev_op e). Qed.
Lemma arrival_worker e : worker_op e = true → arrival e = [].
Proof. unfold worker_op, arrival. by destruct (ev_op e). Qed.
Lemma step_fifo x e y : inv x → step x e y → (work e).*2 ++ processCmd y.1 = processCmd x.1 ++ arrival e.
Proof.
  intros Hi Hst. assert (Hes := ev_state_step _ _ _ Hst).
  destruct (step_kind x e y Hi Hst) as [Hw B Hy T Hc|Ho Hp Hx Hout ->|Ho Hq Hx Hout ->|c q rs Ho Hq Hx Hl Sv Qn T].
  - rewrite work_op by done. by rewrite (be_queue _ _ _ _ _ B).
  - rewrite arrival_worker by (unfold worker_op; by rewrite Ho). unfold work. rewrite Ho. by rewrite app_nil_r.
  - rewrite arrival_worker by (unfold worker_op; by rewrite Ho). unfold work. rewrite Ho, Hes. cbn. by rewrite Hq.
  - rewrite arrival_worker by (unfold worker_op; by rewrite Ho). unfold work. rewrite Ho, Hes, Hq. cbn. by rewrite Qn, app_nil_r.
Qed.
Lemma concat_snoc {A B} (f : A → list B) l x : concat (map f (l ++ [x])) = concat (map f l) ++ f x.
Proof. rewrite map_app, concat_app. cbn. by rewrite app_nil_r. Qed.
Lemma exec_fifo x tr y : exec x tr y → inv x → (answered tr).*2 ++ processCmd y.1 = processCmd x.1 ++ arrivals tr.
Proof.
  induction 1 as [x|x tr y e z He IH Hst]; intros Hi; [by rewrite app_nil_r|].
  unfold answered, arrivals. rewrite !concat_snoc, fmap_app, <-app_assoc.
  rewrite (step_fifo y e z) by (done || by eapply exec_inv). rewrite app_assoc. fold (answered tr). rewrite IH by done. by rewrite <-app_assoc.
Qed.

Lemma told_replies admin ok s rs m n out : served admin ok s rs m n → told m n out → replies out = map (Send s) rs.
Proof. intros [_ (acts & Ha & Hr) _ _ _ _] T. unfold told in T. rewrite T in Ha. by apply app_inv_head in Ha as ->. Qed.
Lemma step_replies x e y : inv x → step x e y →
  ∃ rss, Forall2 (λ w rs, length rs = commands w.1 (cmdMsg w.2)) (work e) rss ∧
    worker_replies [e] = concat (zip_with replies_to (work e) rss).
Proof.
  intros Hi Hst. assert (Hes := ev_state_step _ _ _ Hst). unfold worker_replies. cbn [map concat]. rewrite app_nil_r.
  destruct (step_kind x e y Hi Hst) as [Hw B Hy T Hc|Ho Hp Hx Hout ->|Ho Hq Hx Hout ->|c q rs Ho Hq Hx Hl Sv Qn T].
  - exists []. rewrite work_op by done. split; [done|]. unfold worker_op in Hw. by destruct (ev_op e).
  - exists []. unfold work. by rewrite Ho.
  - exists []. unfold work. by rewrite Ho, Hes, Hq, Hout.
  - exists [rs]. unfold work. rewrite Ho, Hes, Hq. split; [by repeat constructor|]. cbn. rewrite app_nil_r.
    rewrite (told_replies _ _ _ _ _ _ _ Sv T). unfold replies_to. by rewrite map_map.
Qed.
Lemma exec_replies x tr y : exec x tr y → inv x →
  ∃ rss, Forall2 (λ w rs, length rs = commands w.1 (cmdMsg w.2)) (answered tr) rss ∧
    worker_replies tr = concat (zip_with replies_to (answered tr) rss).
Proof.
  induction 1 as [x|x tr y e z He IH Hst]; intros Hi; [by exists []|]. destruct (IH Hi) as (rss & HF & Hr).
  destruct (step_replies y e z) as (rss' & HF' & Hr'); [by eapply exec_inv|done|].
  exists (rss ++ rss'). unfold answered. rewrite concat_snoc. fold (answered tr). split; [by apply Forall2_app|].
  unfold worker_replies. rewrite concat_snoc. fold (worker_replies tr). rewrite Hr.
  rewrite zip_with_app by by eapply Forall2_length. rewrite concat_app. f_equal. rewrite <-Hr'. unfold worker_replies. cbn. by rewrite app_nil_r.
Qed.

(** When an operation may be called: a message by one with a session, the semaphore
    when it has been posted, and a round when the worker runs. *)
Definition may_happen (x : XmppMgr * worker) (o : op) : Prop :=
  match o with
  | OpMessage _ s => with_session s x.1
  | OpWake => x.2 = Waiting ∧ 0 < one_shot_sema x.1
  | OpRound => x.2 = Running
  | _ => True
  end.
Lemma told_beside ok f q m n : beside_of ok f q m n → ∃ out, told m n out.
Proof. intros B. destruct (be_told _ _ _ _ _ B) as (out & T & _). by exists out. Qed.
(** No operation faults. *)
Lemma step_can x o : inv x → may_happen x o → ∃ e y, ev_op e = o ∧ step x e y.
Proof.
  destruct x as [m w]. intros [Hu Hs _ Hss] Hm. destruct o; cbn in Hm.
  - destruct (session_beside bare m Hu) as (n & E & B & _). destruct (told_beside _ _ _ _ _ B) as [out T].
    eexists (Ev m _ out), _. split; [done|by eapply step_session].
  - destruct (message_beside body s m Hu) as (n & E & B). destruct (told_beside _ _ _ _ _ B) as [out T].
    eexists (Ev m _ out), _. split; [done|by eapply step_message].
  - eexists (Ev m _ []), _. split; [done|apply step_roster].
  - exists (Ev m (OpSubscription bare) []), (m, w). split; [done|]. eapply step_subscription; [apply subscription_run|apply told_refl].
  - destruct (unsubscription_beside bare m) as (b & n & E & B). destruct (told_beside _ _ _ _ _ B) as [out T].
    eexists (Ev m _ out), _. split; [done|by eapply step_unsubscription].
  - destruct (event_beside cltToken evntNum evntArg m Hu) as (n & E & B). destruct (told_beside _ _ _ _ _ B) as [out T].
    eexists (Ev m _ out), _. split; [done|by eapply step_event].
  - destruct (send_beside dest message m Hu) as (r & n & E & B). destruct (told_beside _ _ _ _ _ B) as [out T].
    eexists (Ev m _ out), _. split; [done|by eapply step_send_message].
  - destruct (subscribe_beside dest m Hu) as (r & n & E & B). destruct (told_beside _ _ _ _ _ B) as [out T].
    eexists (Ev m _ out), _. split; [done|by eapply step_subscribe].
  - destruct (accept_beside dest m) as (r & n & E & B). destruct (told_beside _ _ _ _ _ B) as [out T].
    eexists (Ev m _ out), _. split; [done|by eapply step_accept_buddy].
  - destruct Hm as [-> Hm]. eexists (Ev m _ []), _. split; [done|by apply step_wake].
  - subst w. destruct (processCmd m) as [|c q] eqn:Hq; [eexists (Ev m _ []), _; split; [done|by apply step_rest]|].
    cbn in Hss. rewrite Hq in Hss. inversion Hss; subst. destruct (front_served Hlong _ c m Hu eq_refl) as (rs & n & E & _ & Sv & _); [done|].
    destruct (se_actions _ _ _ _ _ _ Sv) as (out & T & _). eexists (Ev m _ out), _. split; [done|by eapply step_round].
Qed.

(** C30: messages are answered in the order of their arrival: at any time, in any
    run of the threads from an idle service on in which no two calls overlap, the
    messages that were let through are those the worker has answered, followed by
    those in the queue; each was answered to its sender with one reply for each
    command it stood for when its turn came, which is at least one; and every
    operation that may be called then returns. *)
Theorem replies_in_order m0 tr m w : idle m0 → exec (m0, Waiting) tr (m, w) →
  arrivals tr = (answered tr).*2 ++ processCmd m ∧
  (∃ rss, Forall2 (λ x rs, length rs = commands x.1 (cmdMsg x.2) ∧ (0 < length rs)%nat) (answered tr) rss ∧
    worker_replies tr = concat (zip_with replies_to (answered tr) rss)) ∧
  (∀ o, may_happen (m, w) o → ∃ e y, ev_op e = o ∧ step (m, w) e y).
Proof.
  intros Hm He. apply idle_inv in Hm as Hi. split; [|split].
  - assert (Hf := exec_fifo _ _ _ He Hi). cbn [fst] in Hf. by rewrite (id_queue _ Hm) in Hf.
  - destruct (exec_replies _ _ _ He Hi) as (rss & HF & Hr). exists rss. split; [|exact Hr].
    eapply Forall2_impl; [exact HF|]. intros x rs ->. split; [done|apply commands_pos].
  - intros o. apply step_can. by eapply exec_inv.
Qed.

(** *** Coming to rest *)
Definition todo (x : XmppMgr * worker) : Z :=
  2 * one_shot_sema x.1 + 2 * Z.of_nat (length (processCmd x.1)) + is_running x.2.

Lemma exec_cons x e y tr z : step x e y → exec y tr z → exec x (e :: tr) z.
Proof.
  intros Hst He. induction He as [y|y tr z e' z' He IH Hst']; [apply (exec_snoc x [] x e y); [constructor|done]|].
  change (e :: tr ++ [e']) with ((e :: tr) ++ [e']). eapply exec_snoc; [by apply IH|done].
Qed.
Lemma exec_app x tr y tr' z : exec x tr y → exec y tr' z → exec x (tr ++ tr') z.
Proof.
  intros He He'. induction He' as [|y tr' z e z' He' IH Hst]; [by rewrite app_nil_r|]. rewrite app_assoc. eapply exec_snoc; [by apply IH|done].
Qed.

Lemma worker_step x e y : inv x → step x e y → worker_op e = true → todo y < todo x.
Proof.
  intros Hi Hst Hw. unfold todo. destruct (step_kind x e y Hi Hst) as [Hw'|Ho Hp Hx Hout ->|Ho Hq Hx Hout ->|c q rs Ho Hq Hx Hl Sv Qn T].
  - congruence.
  - rewrite Hx. cbn. lia.
  - rewrite Hx. cbn. lia.
  - rewrite Hx, Hq, Qn, (se_sema _ _ _ _ _ _ Sv). cbn [is_running length]. destruct y.2; cbn [is_running]; lia.
Qed.
Lemma worker_can x : inv x → (x.2 = Waiting ∧ one_shot_sema x.1 = 0) ∨ ∃ e y, step x e y ∧ worker_op e = true.
Proof.
  destruct x as [m w]. intros [Hu Hs Hwk Hss]. cbn [fst snd] in *. destruct w.
  - destruct (Z.eq_dec (one_shot_sema m) 0); [by left|]. right. eexists _, _. split; [apply step_wake; lia|done].
  - right. destruct (step_can (m, Running) OpRound) as (e & y & Ho & Hst); [done..|]. exists e, y. unfold worker_op. by rewrite Ho.
Qed.
Lemma worker_bound x tr y : exec x tr y → inv x → forallb worker_op tr = true → todo y + Z.of_nat (length tr) ≤ todo x.
Proof.
  induction 1 as [x|x tr y e z He IH Hst]; intros Hi Hw; [cbn; lia|]. rewrite forallb_app in Hw. apply andb_prop in Hw as [Hw1 Hw2]. cbn in Hw2.
  rewrite andb_true_r in Hw2. assert (H1 := IH Hi Hw1). assert (H2 := worker_step y e z (exec_inv _ _ _ He Hi) Hst Hw2). rewrite length_app. cbn. lia.
Qed.
Lemma todo_nonneg x : inv x → 0 ≤ todo x.
Proof. intros [_ Hs _ _]. unfold todo. destruct x.2; cbn; lia. Qed.
Lemma worker_rests x : inv x → ∃ tr n, exec x tr (n, Waiting) ∧ forallb worker_op tr = true ∧ idle n.
Proof.
  intros Hi. assert (Hb := todo_nonneg x Hi). remember (Z.to_nat (todo x)) as k eqn:Hk. revert x Hi Hb Hk.
  induction (lt_wf k) as [k _ IH]. intros x Hi Hb ->. destruct (worker_can x Hi) as [[Hw Hs]|(e & y & Hst & Hw)].
  - exists [], x.1. destruct x as [m w]. cbn in *. subst. split; [constructor|]. split; [done|]. destruct Hi as [Hu _ Hwk _]. cbn in *.
    split; [done|destruct (processCmd m); [done|cbn in Hwk; lia]|done].
  - assert (Hlt := worker_step x e y Hi Hst Hw). assert (Hi' := step_inv x e y Hi Hst). assert (Hb' := todo_nonneg y Hi').
    destruct (IH (Z.to_nat (todo y)) ltac:(lia) y Hi' Hb' eq_refl) as (tr & n & He & Hf & Hn).
    exists (e :: tr), n. split; [by eapply exec_cons|]. split; [cbn; by rewrite Hw, Hf|done].
Qed.
Lemma answered_app tr tr' : answered (tr ++ tr') = answered tr ++ answered tr'.
Proof. unfold answered. by rewrite map_app, concat_app. Qed.
Lemma arrivals_worker tr : forallb worker_op tr = true → arrivals tr = [].
Proof.
  induction tr as [|e tr IH]; [done|]. cbn. intros [Hw Hf]%andb_prop. unfold arrivals in *. cbn. by rewrite arrival_worker, IH.
Qed.

(** C31: whatever has happened, the worker thread alone comes to rest, after at
    most as many steps as there are wake-ups and messages left, twice, and one; and then
    the queue is empty, no wake-up is left, and every message that was let through
    has been answered, in order.  A command alias ends the worker's function
    early, but leaves the wake-up for the next message. *)
Theorem everyone_is_answered m0 tr m w : idle m0 → exec (m0, Waiting) tr (m, w) →
  (∀ tr' y, exec (m, w) tr' y → forallb worker_op tr' = true → Z.of_nat (length tr') ≤ todo (m, w)) ∧
  ∃ tr' n, exec (m, w) tr' (n, Waiting) ∧ forallb worker_op tr' = true ∧ idle n ∧ (answered (tr ++ tr')).*2 = arrivals tr.
Proof.
  intros Hm He. assert (Hi := exec_inv _ _ _ He (idle_inv _ Hm)). split.
  - intros tr' y He' Hf. assert (H := worker_bound _ _ _ He' Hi Hf). assert (H' := todo_nonneg y (exec_inv _ _ _ He' Hi)). lia.
  - destruct (worker_rests _ Hi) as (tr' & n & He' & Hf & Hn). exists tr', n. split_and!; [done..|].
    assert (Hfifo := exec_fifo _ _ _ (exec_app _ _ _ _ _ He He') (idle_inv _ Hm)). cbn [fst] in Hfifo.
    rewrite (id_queue _ Hn), app_nil_r, (id_queue _ Hm) in Hfifo. rewrite Hfifo. unfold arrivals. rewrite map_app, concat_app.
    fold (arrivals tr) (arrivals tr'). by rewrite (arrivals_worker tr'), app_nil_r.
Qed.

(** *** Who may do what *)
Definition by_guests (p : ADXmppProxy) (tr : list event) : Prop :=
  Forall (λ e, match ev_op e with OpMessage _ s => is_admin p s = false | _ => True end) tr.

Lemma told_unique m n l l' : told m n l → told m n l' → l = l'.
Proof. unfold told. intros H1 H2. rewrite H1 in H2. by apply app_inv_head in H2. Qed.
Lemma is_admin_same p q s : AdminBuddy q = AdminBuddy p → BkupAdminBuddy q = BkupAdminBuddy p → is_admin q s = is_admin p s.
Proof. intros H1 H2. unfold is_admin. by rewrite H1, H2. Qed.

Lemma guest_run x tr y : exec x tr y → inv x → by_guests (XmppProxy x.1) tr →
  Forall (λ c, is_admin (XmppProxy x.1) (sender c) = false) (processCmd x.1) →
  (AdminBuddy (XmppProxy y.1) = AdminBuddy (XmppProxy x.1) ∧ BkupAdminBuddy (XmppProxy y.1) = BkupAdminBuddy (XmppProxy x.1)) ∧
  Forall (λ c, is_admin (XmppProxy x.1) (sender c) = false) (processCmd y.1) ∧
  AcceptBuddyList (XmppProxy y.1) = fold_left accept_change tr (AcceptBuddyList (XmppProxy x.1)) ∧
  Forall (λ e, Forall (allowed e) (ev_out e)) tr.
Proof.
  induction 1 as [x|x tr y e z He IH Hst]; intros Hi Hg Hq; [done|]. apply Forall_app in Hg as [Hg Hge]. inversion Hge as [|? ? Hge' _]; subst.
  destruct (IH Hi Hg Hq) as ([Ha Hb] & Hq' & Hl & Hh). assert (Hi' := exec_inv _ _ _ He Hi). rewrite fold_left_app, Forall_app, <-Hl. cbn [fold_left].
  destruct (step_kind y e z Hi' Hst) as [Hw B Hy T Hc|Ho Hp Hx Hout ->|Ho Hqe Hx Hout ->|c q rs Ho Hqe Hx Hlen Sv Qn T].
  - destruct (be_admin _ _ _ _ _ B) as [Ha' Hb']. destruct (be_told _ _ _ _ _ B) as (out & T' & Hh').
    rewrite <-(told_unique _ _ _ _ T T') in Hh'. split; [by rewrite Ha', Hb'|]. split; [|split; [by rewrite (be_accept _ _ _ _ _ B)|by repeat constructor]].
    rewrite (be_queue _ _ _ _ _ B). apply Forall_app. split; [done|]. unfold arrival. destruct (ev_op e); try done. case_match; by repeat constructor.
  - unfold accept_change. rewrite Ho. split_and!; [done..|]. constructor; [by rewrite Hout|done].
  - unfold accept_change. rewrite Ho. split_and!; [done..|]. constructor; [by rewrite Hout|done].
  - rewrite Hqe in Hq'. inversion Hq' as [|? ? Hc Hcs]; subst.
    rewrite <-(is_admin_same _ (XmppProxy y.1)) in Hc by done. rewrite Hc in Sv. assert (Hpr := se_proxy _ _ _ _ _ _ Sv eq_refl).
    unfold accept_change. rewrite Hpr, Ho. cbn. split_and!; [done..|]. constructor; [|done].
    unfold told in T. rewrite Hpr in T. apply app_inv_head in T as <-. apply Forall_forall. intros a Hin%list_elem_of_fmap.
    destruct Hin as (r & -> & _). left. left. by eexists _, _.
Qed.

(** C32: as long as no message comes from the admin or the backup admin, the list
    of buddies to accept is the one at the beginning, less those who asked to
    unsubscribe and with those whom the box itself accepted by the JSON-RPC call,
    in the order of these calls; a request to subscribe is granted to the admins
    and to who is in that list; and gloox is told nothing but replies, the news of
    pins that buddies have subscribed to, and by the calls of JSON-RPC the message
    or the subscription they ask for: no message makes the service accept,
    subscribe, unsubscribe or pass on messages, by whatever aliases.  And a message
    from somebody who is not in the roster changes nothing. *)
Theorem guests_cannot_manage_buddies m0 tr m w : idle m0 → exec (m0, Waiting) tr (m, w) → by_guests (XmppProxy m0) tr →
  AcceptBuddyList (XmppProxy m) = fold_left accept_change tr (AcceptBuddyList (XmppProxy m0)) ∧
  (∀ bare, on_proxy (handleSubscriptionRequest bare) m =
     Done (is_admin (XmppProxy m0) bare || bool_decide (bare ∈ fold_left accept_change tr (AcceptBuddyList (XmppProxy m0)))) m) ∧
  Forall (λ e, Forall (allowed e) (ev_out e)) tr ∧
  (∀ body s, may_talk m s = false → handleMessage body s m = Done () m).
Proof.
  intros Hm He Hg. assert (Hi := idle_inv _ Hm).
  destruct (guest_run _ _ _ He Hi Hg) as ([Ha Hb] & _ & Hl & Hh); [cbn; by rewrite (id_queue _ Hm)|]. cbn [fst] in *. split_and!; [done| |done|].
  - intros bare. rewrite subscription_run, <-Hl. unfold may_subscribe. by rewrite (is_admin_same (XmppProxy m0)).
  - intros body s Hs. unfold handleMessage. destruct (empty body); [done|]. unfold receive_request.
    erewrite bind_done; [done|]. mstep (authorized_run s m (in_up _ (exec_inv _ _ _ He Hi))). by rewrite Hs.
Qed.

(** *** What a restart finds *)

(** What [main] sets before it starts the service. *)
Definition configure (alias bot evnt : cstr) : XM unit :=
  modify (set_AliasListFile alias);; SetBotNameFilePath bot;; modify (set_EventSubscrListFile evnt).

(** Messages of one line, from addresses without white space. *)
Definition plain (e : event) : Prop := match ev_op e with OpMessage body s => NL ∉ body ∧ person s | _ => True end.

Lemma saved_run x tr y : exec x tr y → inv x → Forall plain tr → Forall (λ c, person (sender c) ∧ NL ∉ cmdMsg c) (processCmd x.1) →
  saved x.1 → saved y.1 ∧ Forall (λ c, person (sender c) ∧ NL ∉ cmdMsg c) (processCmd y.1).
Proof.
  induction 1 as [x|x tr y e z He IH Hst]; intros Hi Hg Hq Hs; [done|]. apply Forall_app in Hg as [Hg Hge]. inversion Hge as [|? ? Hge' _]; subst.
  destruct (IH Hi Hg Hq Hs) as (Hs' & Hq'). assert (Hi' := exec_inv _ _ _ He Hi).
  destruct (step_kind y e z Hi' Hst) as [Hw B Hy T Hc|Ho Hp Hx Hout ->|Ho Hqe Hx Hout ->|c q rs Ho Hqe Hx Hlen Sv Qn T].
  - split; [by apply B|]. rewrite (be_queue _ _ _ _ _ B). apply Forall_app. split; [done|]. unfold arrival, plain in *.
    destruct (ev_op e); try done. destruct Hge'. case_match; [|done]. constructor; [done|constructor].
  - split; [|done]. cbn. by apply (saved_aside y.1).
  - done.
  - rewrite Hqe in Hq'. inversion Hq' as [|? ? Hc Hcs]; subst. split; [|done]. by apply (se_saved _ _ _ _ _ _ Sv).
Qed.

Lemma load_alias_run path m : path ≠ [] →
  LoadAliasList path m = Done RPC_SRV_RESULT_SUCCESS (set_AliasList (load_aliases (content path m) (AliasList m)) m).
Proof. by destruct path. Qed.
Lemma load_event_run path m : path ≠ [] →
  LoadEventSubscrList path m = Done RPC_SRV_RESULT_SUCCESS (set_myEventList (myEventList m ++ load_events (content path m)) m).
Proof. by destruct path. Qed.
Lemma bot_path_run path m : path ≠ [] → XmppBotName m = [] →
  ∃ n, SetBotNameFilePath path m = Done () n ∧ XmppBotName n = (getline NL (content path m)).1 ∧ files n = files m ∧
    AliasListFile n = AliasListFile m ∧ AliasList n = AliasList m ∧ myEventList n = myEventList m.
Proof.
  intros Hp Hb. unfold SetBotNameFilePath, content. msimpl. destruct path; [done|]. cbn [empty]. msimpl. cbn.
  destruct (map_find _ _); by eexists.
Qed.
(** What [Start] does after the lists are loaded leaves them alone. *)
Definition same_lists (m n : XmppMgr) : Prop :=
  AliasList n = AliasList m ∧ myEventList n = myEventList m ∧ XmppBotName n = XmppBotName m.
Lemma start_run account m : account ≠ [] → AliasListFile m ≠ [] → EventSubscrListFile m ≠ [] →
  ∃ r n, Start account m = Done r n ∧ AliasList n = load_aliases (content (AliasListFile m) m) (AliasList m) ∧
    myEventList n = myEventList m ++ load_events (content (EventSubscrListFile m) m) ∧ XmppBotName n = XmppBotName m.
Proof.
  intros Hac Ha He. unfold Start. destruct account as [|a account]; [done|]. cbn [empty]. rewrite bind_gets.
  mstep (load_alias_run _ m Ha). rewrite bind_gets. erewrite bind_done by by apply load_event_run.
  match goal with |- context [_ (set_myEventList ?l ?m0)] => set (m1 := set_myEventList l m0) end.
  enough (∀ c : XM RPC_SRV_RESULT, (∃ r n, c m1 = Done r n ∧ same_lists m1 n) → ∃ r n, c m1 = Done r n ∧
    AliasList n = load_aliases (content (AliasListFile m) m) (AliasList m) ∧
    myEventList n = myEventList m ++ load_events (content (EventSubscrListFile m) m) ∧ XmppBotName n = XmppBotName m) as Hen.
  - apply Hen. clear Hen. rewrite bind_gets. destruct (std_getline _ _) as [line f]. destruct (empty line); [by eexists _, _|]. msimpl.
    destruct (empty _); [by eexists _, _|]. destruct (std_getline f line) as [line2 f2]. destruct (empty line2); [by eexists _, _|]. msimpl.
    destruct (empty _); [by eexists _, _|]. destruct (std_getline f2 line2) as [line3 f3]. msimpl. destruct (std_getline f3 line3) as [line4 f4].
    by eexists _, _.
  - intros c (r & n & E & E1 & E2 & E3). exists r, n. rewrite E1, E2, E3. done.
Qed.

(** C33: what the service keeps in its files is what it has in memory: after any
    run of the threads with messages of one line, a service that is configured
    with the same paths and started on the files as they are then has the same
    aliases, the subscriptions that are switched on, in the same order, and the
    same name. *)
Theorem restart_restores_state m0 tr m w account : idle m0 → saved m0 → exec (m0, Waiting) tr (m, w) → Forall plain tr → account ≠ [] →
  ∃ r n, (configure (AliasListFile m) (XmppBotNameFilePath m) (EventSubscrListFile m);; Start account) (XmppMgr_new (files m)) = Done r n ∧
    AliasList n = AliasList m ∧ myEventList n = List.filter m_Status (myEventList m) ∧ XmppBotName n = XmppBotName m.
Proof.
  intros Hm Hs He Hp Hac. destruct (saved_run _ _ _ He (idle_inv _ Hm) Hp) as [Hsv _]; [cbn; by rewrite (id_queue _ Hm)|done|]. cbn [fst] in Hsv.
  destruct (bot_path_run (XmppBotNameFilePath m) (set_AliasListFile (AliasListFile m) (XmppMgr_new (files m)))) as (n & En & Eb & Ef & Ea & El & Ee);
    [apply Hsv|done|].
  assert (Ec : configure (AliasListFile m) (XmppBotNameFilePath m) (EventSubscrListFile m) (XmppMgr_new (files m)) =
    Done () (set_EventSubscrListFile (EventSubscrListFile m) n)) by (unfold configure; msimpl; by mstep En).
  mstep Ec. destruct (start_run account (set_EventSubscrListFile (EventSubscrListFile m) n) Hac) as (r & o & Eo & E1 & E2 & E3);
    [cbn; rewrite Ea; apply Hsv|apply Hsv|].
  exists r, o. split; [exact Eo|]. unfold content in *. cbn in *. rewrite Ef, Ea, El, Ee, Eb in *. cbn in *.
  split; [rewrite E1; apply Hsv|]. split; [rewrite E2; apply Hsv|rewrite E3; apply Hsv].
Qed.
End run.
