(* ===== verification/XmppRaces.v ===== *)
(** * Results of tasks, and where the chat service fails

    The result of a task that another service runs is sent to the one who asked
    for it, under the number it was told ([result_reaches_requester]), unless it comes too
    early ([event_before_entry]) or after a reconnect ([stale_session_faults]).  The
    examples run the model on concrete inputs. *)

From Stdlib Require Import ZArith Lia Ascii String Sorted.
From stdpp Require Import base list sorting gmap strings.
From S2P Require Import Prelude CString RpcResult CxxStd XmppProxy XmppMgr XmppMgrProofs XmppRun.

(** ** Running the steps *)
Section runner.
Context {sv : Services}.

(** One operation, carried out. *)
Definition finish (m : XmppMgr) (o : op) (n : XmppMgr) (w : worker) : option (event * (XmppMgr * worker)) :=
  let out := drop (length (actions (XmppProxy m))) (actions (XmppProxy n)) in
  if decide (actions (XmppProxy n) = actions (XmppProxy m) ++ out) then Some (Ev m o out, (n, w)) else None.
Definition do_op (x : XmppMgr * worker) (o : op) : option (event * (XmppMgr * worker)) :=
  let '(m, w) := x in
  match o with
  | OpSession bare => match on_proxy (handleMessageSession bare) m with Done () n => finish m o n w | _ => None end
  | OpMessage body s =>
      match map_find s (mySessions (XmppProxy m)), handleMessage body s m with Some _, Done () n => finish m o n w | _, _ => None end
  | OpRoster r => Some (Ev m o [], (set_XmppProxy (set_roster r (XmppProxy m)) m, w))
  | OpSubscription bare => match on_proxy (handleSubscriptionRequest bare) m with Done _ n => finish m o n w | _ => None end
  | OpUnsubscription bare => match on_proxy (handleUnsubscriptionRequest bare) m with Done _ n => finish m o n w | _ => None end
  | OpEvent clt num arg => match ReceiveEvent clt num arg m with Done () n => finish m o n w | _ => None end
  | OpSendMessage dest t => match process_set_send_message dest t m with Done _ n => finish m o n w | _ => None end
  | OpSubscribe dest => match process_set_subscribe_message dest m with Done _ n => finish m o n w | _ => None end
  | OpAcceptBuddy dest => match process_set_accept_buddy dest m with Done _ n => finish m o n w | _ => None end
  | OpWake =>
      match w with
      | Waiting => if 0 <? one_shot_sema m then Some (Ev m o [], (set_one_shot_sema (one_shot_sema m - 1) m, Running)) else None
      | Running => None
      end
  | OpRound =>
      match w, processCmd m with
      | Waiting, _ => None
      | Running, [] => Some (Ev m o [], (m, Waiting))
      | Running, c :: _ => match process_front c m with Done go n => finish m o n (if go : bool then Running else Waiting) | _ => None end
      end
  end.
Fixpoint do_ops (x : XmppMgr * worker) (os : list op) : option (list event * (XmppMgr * worker)) :=
  match os with
  | [] => Some ([], x)
  | o :: os =>
      match do_op x o with
      | Some (e, y) => match do_ops y os with Some (tr, z) => Some (e :: tr, z) | None => None end
      | None => None
      end
  end.

Lemma finish_told m o n w e y : finish m o n w = Some (e, y) → ∃ out, told m n out ∧ e = Ev m o out ∧ y = (n, w).
Proof. unfold finish. case_decide as H; [|done]. intros [= <- <-]. by eexists. Qed.
Lemma do_op_step x o e y : do_op x o = Some (e, y) → step x e y.
Proof.
  destruct x as [m w]. unfold do_op. destruct o; intros H; repeat case_match; simplify_eq.
  - apply finish_told in H as (out & T & -> & ->). by constructor.
  - apply finish_told in H as (out & T & -> & ->). constructor; [by eexists|done..].
  - constructor.
  - apply finish_told in H as (out & T & -> & ->). by eapply step_subscription.
  - apply finish_told in H as (out & T & -> & ->). by eapply step_unsubscription.
  - apply finish_told in H as (out & T & -> & ->). by constructor.
  - apply finish_told in H as (out & T & -> & ->). by eapply step_send_message.
  - apply finish_told in H as (out & T & -> & ->). by eapply step_subscribe.
  - apply finish_told in H as (out & T & -> & ->). by eapply step_accept_buddy.
  - constructor. by apply Z.ltb_lt.
  - by constructor.
  - apply finish_told in H as (out & T & -> & ->). by eapply (step_round _ _ _ _ true).
  - apply finish_told in H as (out & T & -> & ->). by eapply (step_round _ _ _ _ false).
Qed.
Lemma do_ops_exec x os tr y : do_ops x os = Some (tr, y) → exec x tr y.
Proof.
  revert x tr. induction os as [|o os IH]; cbn; intros x tr; [intros [= <- <-]; constructor|].
  destruct (do_op x o) as [[e z]|] eqn:E; [|done]. destruct (do_ops z os) as [[tr' u]|] eqn:E2; [|done]. intros [= <- <-].
  eapply exec_cons; [by eapply do_op_step|by apply IH].
Qed.
End runner.

(** ** A concrete service *)
#[export] Instance demo : Services := MkServices 32 (λ _, true) (λ _ _, true) (λ _ _ _, (RPC_SRV_RESULT_IN_PROG, str "7"))
  (λ _ _, None) (λ _ _, true) (λ _, []) (λ s, s).
Definition bob : cstr := str "bob@x.org".
Definition boss : cstr := str "boss@x.org".
Definition demo_proxy : ADXmppProxy := MkProxy (Some 0) 1 true boss boss [] [] [(bob, 1)] [].
Definition demo_mgr : XmppMgr :=
  set_XmppBotNameFilePath (str "/bot") (set_EventSubscrListFile (str "/evt") (set_AliasListFile (str "/ali")
    (set_XmppProxy demo_proxy (XmppMgr_new [])))).
Definition amy : cstr := str "amy@x.org".
Definition tom : cstr := str "tom@x.org".
(** Bob names two commands, uses the name, subscribes to a pin, and an event of
    the pin comes; the box accepts Amy and Tom, Tom unsubscribes, and Bob and Amy
    hear from the box. *)
Definition demo_ops : list op :=
  [OpSession bob; OpMessage (str "alias both=uptime;reboot") bob; OpWake; OpMessage (str "both") bob; OpRound; OpWake; OpRound;
   OpMessage (str "eventgpio 3 1") bob; OpRound; OpEvent ADCMN_PORT_GPIOCTL ADLIB_EVENT_NUM_END 3;
   OpAcceptBuddy tom; OpAcceptBuddy amy; OpUnsubscription tom; OpSubscription amy; OpSendMessage bob (str "hi"); OpSubscribe amy].
Definition demo_run : list event * (XmppMgr * worker) := default ([], (demo_mgr, Waiting)) (do_ops (demo_mgr, Waiting) demo_ops).
Lemma demo_exec : exec (demo_mgr, Waiting) demo_run.1 (demo_run.2.1, demo_run.2.2).
Proof. apply (do_ops_exec _ demo_ops). vm_compute. reflexivity. Qed.
Lemma demo_idle : idle demo_mgr.
Proof. split; [by exists 0|done|done]. Qed.
Lemma demo_saved : saved demo_mgr.
Proof. split; try done; constructor. Qed.
Lemma demo_plain : Forall plain demo_run.1.
Proof.
  assert (H : Forall (λ e, match ev_op e with
    | OpMessage body s => forallb (λ c, negb (code c =? 10)) body && negb (empty s) && forallb (λ c, negb (is_space c)) s = true | _ => True end) demo_run.1)
    by (vm_compute; repeat constructor).
  eapply Forall_impl; [exact H|]. intros [m o out]. unfold plain. cbn. destruct o; try done. intros [[Hb Hn]%andb_prop Hw]%andb_prop.
  rewrite forallb_forall in Hb, Hw. split; [|split].
  - intros Hin%list_elem_of_In. by apply Hb in Hin.
  - by destruct s.
  - apply Forall_forall. intros c Hc%list_elem_of_In. by apply Hw, negb_true_iff in Hc.
Qed.
Lemma demo_guests : by_guests (XmppProxy demo_mgr) demo_run.1.
Proof. vm_compute. repeat constructor. Qed.

(** What gloox is told: the reply to alias, two replies to both, one to eventgpio,
    the event, and what the box asked for; and who is to be accepted in the end. *)
Example demo_told : concat (map ev_out demo_run.1) =
  [Send bob (str "return=Success : result="); Send bob (str "return=InProgress : result=0 Hours");
   Send bob (str "return=InProgress : result=taskID=1"); Send bob (str "return=Success : result=");
   SendEvent bob (str "eventgpio 3") (str "event"); SendEvent bob (str "hi") (str "message"); Subscribe amy] ∧
  AcceptBuddyList (XmppProxy demo_run.2.1) = [amy].
Proof. split; vm_compute; reflexivity. Qed.

(** ** The results of tasks *)
Section tasks.
Context {sv : Services}.
Hypothesis Hlong : 32 ≤ long_bits.

Definition no_entry (tid port : Z) (l : list AyncEventEntry) : Prop := Forall (λ e, FindAsyncEventEntry tid port e = false) l.
Lemma find_past tid port l e r : no_entry tid port l → FindAsyncEventEntry tid port e = true →
  List.find (FindAsyncEventEntry tid port) (l ++ e :: r) = Some e.
Proof. intros Hl He. induction Hl as [|x l Hx _ IH]; cbn; [by rewrite He|by rewrite Hx]. Qed.
Lemma find_nothing tid port l : no_entry tid port l → List.find (FindAsyncEventEntry tid port) l = None.
Proof. induction 1 as [|x l Hx _ IH]; cbn; [done|by rewrite Hx]. Qed.
Lemma filter_no_entry tid port l : no_entry tid port (List.filter (λ e, negb (FindAsyncEventEntry tid port e)) l).
Proof.
  induction l as [|e l IH]; [constructor|]. cbn. destruct (FindAsyncEventEntry tid port e) eqn:E; cbn; [done|by constructor].
Qed.
Lemma entry_found tid port k s : FindAsyncEventEntry tid port (MkAsync tid port k s) = true.
Proof. unfold FindAsyncEventEntry. cbn. by rewrite !Z.eqb_refl. Qed.
(** The event that a task is done is nothing but that. *)
Lemma done_event clt tid : ReceiveEvent clt ADLIB_EVENT_NUM_INPROG_DONE tid =
  (mret ();; mret ();; mret ();;
   e ← AccessAsyncTaskList_find tid clt;
   match e with
   | None => mret ()
   | Some (xmpTID, dest) =>
       ok ← connect clt;
       if ok : bool then
         a ← call "get_rpc_req_status" [("taskId", ArgString (dec tid))];
         RpcResponseCallback a.2 xmpTID dest;; mret ()
       else mret ()
   end).
Proof. unfold ReceiveEvent. cbn [Z.eqb ADLIB_EVENT_NUM_INPROG_DONE ADLIB_EVENT_NUM_SHUT_DOWN]. by rewrite !andb_false_r. Qed.

(** What the other service says about a task. *)
Definition task_status (tid port : Z) (m : XmppMgr) : cstr :=
  (rpc_answer (requests m ++ [Connect port]) (str "get_rpc_req_status") [(str "taskId", ArgString (dec tid))]).2.

Lemma find_run tid port e l1 l2 m : AsyncTaskList m = l1 ++ e :: l2 → no_entry tid port l1 → FindAsyncEventEntry tid port e = true →
  AccessAsyncTaskList_find tid port m =
  Done (Some (xmppTID e, to e)) (set_AsyncTaskList (List.filter (λ e, negb (FindAsyncEventEntry tid port e)) (AsyncTaskList m)) m).
Proof. intros Hl Hn He. assert (E := find_past tid port l1 e l2 Hn He). rewrite <-Hl in E. unfold AccessAsyncTaskList_find. msimpl. by rewrite E. Qed.
Lemma find_none_run tid port m : no_entry tid port (AsyncTaskList m) → AccessAsyncTaskList_find tid port m = Done None m.
Proof. intros Hn. unfold AccessAsyncTaskList_find. msimpl. by rewrite find_nothing. Qed.
Lemma rpc_connect_run port m : connect port m = Done (rpc_server_connect (requests m) port) (set_requests (requests m ++ [Connect port]) m).
Proof. done. Qed.
Lemma call_run meth ps m : let ps' := map (λ x, (str x.1, x.2)) ps in
  call meth ps m = Done (rpc_answer (requests m) (str meth) ps') (set_requests (requests m ++ [Call (str meth) ps']) m).
Proof. done. Qed.
Lemma reply_run t s m : up m → with_session s m →
  on_proxy (send_reply t s) m = Done 0 (set_XmppProxy (set_actions (actions (XmppProxy m) ++ [Send s t]) (XmppProxy m)) m).
Proof. intros (g & Hg & Hf) Hs. apply (zoom_done XmppProxy set_XmppProxy). by apply (send_reply_run _ g). Qed.

(** The number of a task, told to the one who has asked for it, comes back with the
    result of that task, to the same person, whatever other tasks were added in
    the meantime; and the entry is gone. *)
Theorem result_reaches_requester tid port s m : -2147483648 ≤ tid ≤ INT_MAX → no_entry tid port (AsyncTaskList m) →
  ∃ k m1, in_progress (RPC_SRV_RESULT_IN_PROG, dec tid) port s m = Done (RPC_SRV_RESULT_IN_PROG, task_id k) m1 ∧
    ∀ m2 later, up m2 → with_session s m2 → AsyncTaskList m2 = AsyncTaskList m1 ++ later →
      rpc_server_connect (requests m2) port = true →
      ∃ n, ReceiveEvent port ADLIB_EVENT_NUM_INPROG_DONE tid m2 = Done () n ∧
        actions (XmppProxy n) = actions (XmppProxy m2) ++ [Send s (response (task_status tid port m2) (task_id k))] ∧
        no_entry tid port (AsyncTaskList n).
Proof.
  intros Ht Hno. exists (int32 (XmppTaskIDCounter m + 1)). eexists. split.
  { unfold in_progress. cbn [fst snd]. rewrite decide_True by done. rewrite atoi_dec by done. by unfold AccessAsyncTaskList_insert. }
  intros m2 later Hu Hs Hl Hc. cbn [AsyncTaskList set_AsyncTaskList set_XmppTaskIDCounter] in Hl. rewrite <-app_assoc in Hl. cbn [app] in Hl.
  rewrite done_event. msimpl. mstep (find_run tid port _ _ _ m2 Hl Hno (entry_found _ _ _ _)). cbn [xmppTID to].
  erewrite bind_done by apply rpc_connect_run. cbn [requests set_AsyncTaskList set_requests]. rewrite Hc.
  erewrite bind_done by apply call_run. unfold RpcResponseCallback.
  eexists. split; [|split].
  - erewrite bind_done; [done|]. by erewrite bind_done by by apply reply_run.
  - done.
  - apply filter_no_entry.
Qed.

(** The answer that a task has been started and the event that it is done come by
    different threads.  When the event is first, it finds no entry and nobody is
    told; the entry that is made then stays. *)
Theorem event_before_entry tid port s m : -2147483648 ≤ tid ≤ INT_MAX → no_entry tid port (AsyncTaskList m) →
  ReceiveEvent port ADLIB_EVENT_NUM_INPROG_DONE tid m = Done () m ∧
  ∃ a n, in_progress (RPC_SRV_RESULT_IN_PROG, dec tid) port s m = Done a n ∧
    AsyncTaskList n = AsyncTaskList m ++ [MkAsync tid port (XmppTaskIDCounter n) s] ∧ XmppProxy n = XmppProxy m.
Proof.
  intros Ht Hno. split.
  - rewrite done_event. msimpl. by mstep (find_none_run tid port m Hno).
  - eexists _, _. split.
    { unfold in_progress. cbn [fst snd]. rewrite decide_True by done. rewrite atoi_dec by done. by unfold AccessAsyncTaskList_insert. }
    done.
Qed.

(** ** Sessions of a client that is gone *)
Definition reconnect : XM unit :=
  on_proxy onDisconnect;; on_proxy connect_end;; login;; on_proxy onConnect.

Lemma stale_reply t s p g g' : j p = Some g' → map_find s (mySessions p) = Some g → g ≠ g' → send_reply t s p = Oops.
Proof.
  intros Hj Hs Hne. unfold send_reply. rewrite bind_gets, Hj, bind_gets, Hs. apply bind_oops. unfold use_session.
  rewrite bind_gets, Hj. by rewrite decide_False by congruence.
Qed.

(** After a reconnect, the result of a task for somebody who has not written since
    is sent through a session that was freed with the old client. *)
Theorem stale_session_faults m s t k g : j (XmppProxy m) = Some g → g < clients (XmppProxy m) →
  map_find s (mySessions (XmppProxy m)) = Some g →
  ∃ n, reconnect m = Done () n ∧ RpcResponseCallback t k s n = Oops.
Proof.
  intros Hj Hg Hs. eexists. split; [done|]. unfold RpcResponseCallback. apply bind_oops. unfold on_proxy, zoom.
  rewrite (stale_reply _ s _ g (clients (XmppProxy m))); [done|done|exact Hs|lia].
Qed.
End tasks.

(** ** Examples: what the comments promise and the code does not do *)

(** [hostname $name]: the alias decides between reading and setting, but the name
    that is set is not expanded. *)
Definition with_alias (k v : string) : XmppMgr := set_AliasList [(str k, str v)] demo_mgr.
Example hostname_not_expanded : ∃ a n, proc_cmd_fmw_hostname (str "hostname $me") (with_alias "me" "pi") = Done a n ∧
  requests n = [Connect ADCMN_PORT_SYSMGR; Call (str "set_hostname") [(str "hostname", ArgString (str "$me"))]].
Proof. eexists _, _. split; vm_compute; reflexivity. Qed.
(** [acceptbuddy $friend]: the argument still has its blank in front. *)
Example buddy_not_expanded : ∃ a n, proc_cmd_buddy_add (str "acceptbuddy $friend") boss (with_alias "friend" "amy@x.org") = Done a n ∧
  AcceptBuddyList (XmppProxy n) = [str "$friend"].
Proof. eexists _, _. split; vm_compute; reflexivity. Qed.
(** A name with a capital letter is kept, but messages are looked up in small letters. *)
Example capital_alias_lost : ∃ tr m w,
  do_ops (demo_mgr, Waiting) [OpSession bob; OpMessage (str "alias Up=uptime") bob; OpWake; OpRound; OpMessage (str "Up") bob; OpWake; OpRound] =
    Some (tr, (m, w)) ∧
  AliasList m = [(str "Up", str "uptime")] ∧
  worker_replies tr = [Send bob (str "return=Success : result="); Send bob (str "return=UnknownCmd : result=")].
Proof. eexists _, _, _. split; [|split]; vm_compute; reflexivity. Qed.
(** [xmpshutdown] is marked as a command of the admin, but Bob may use it. *)
Example anyone_shuts_down : ∃ n, run_part bob (str "xmpshutdown") (set_XmppProxy (set_mySessions [(bob, 0)] demo_proxy) demo_mgr) = Done () n ∧
  requests n = [Connect ADCMN_PORT_XMPROXY; Call (str "trigger_shutdown") []].
Proof. eexists. split; vm_compute; reflexivity. Qed.
(** A newline in a value becomes another alias after a restart. *)
Example newline_alias : ∃ a n, proc_cmd_alias (str "alias a=uptime" ++ NL :: str "reboot") demo_mgr = Done a n ∧
  AliasList n = [(str "a", str "uptime" ++ NL :: str "reboot")] ∧
  load_aliases (content (str "/ali") n) [] = [(str "a", str "uptime"); (str "reboot", [])].
Proof. eexists _, _. split; [|split]; vm_compute; reflexivity. Qed.
(** An account file of two lines without a newline at the end makes the password
    the address of both admins. *)
Example password_as_admin : ∃ r n,
  Start (str "/acc") (XmppMgr_new [(str "/acc", str "user: me@x.org" ++ NL :: str "pw: secret")]) = Done r n ∧
  XmppUserPw n = str "secret" ∧ XmppAdminBuddy n = str "secret" ∧ XmppBkupAdminBuddy n = str "secret".
Proof. eexists _, _. split; [|split; [|split]]; vm_compute; reflexivity. Qed.
(** 4295 seconds are a pause of less than one: the product of an [int] overflows. *)
Example sleep_overflows : ∃ a n, proc_cmd_sleep (str "sleep 4295") demo_mgr = Done a n ∧ requests n = [Usleep 32704].
Proof. eexists _, _. split; vm_compute; reflexivity. Qed.

(** ** The theorems on the concrete service *)
Lemma demo_long : 32 ≤ @long_bits demo.
Proof. done. Qed.
Lemma replies_in_order_witness : idle demo_mgr ∧ exec (demo_mgr, Waiting) demo_run.1 (demo_run.2.1, demo_run.2.2) ∧
  arrivals demo_run.1 = (answered demo_run.1).*2 ++ processCmd demo_run.2.1 ∧
  (∃ rss, Forall2 (λ x rs, length rs = commands x.1 (cmdMsg x.2) ∧ (0 < length rs)%nat) (answered demo_run.1) rss ∧
    worker_replies demo_run.1 = concat (zip_with replies_to (answered demo_run.1) rss)) ∧
  (∀ o, may_happen (demo_run.2.1, demo_run.2.2) o → ∃ e y, ev_op e = o ∧ step (demo_run.2.1, demo_run.2.2) e y).
Proof.
  split; [exact demo_idle|]. split; [exact demo_exec|].
  exact (replies_in_order demo_long demo_mgr demo_run.1 demo_run.2.1 demo_run.2.2 demo_idle demo_exec).
Defined.
Lemma everyone_is_answered_witness : idle demo_mgr ∧ exec (demo_mgr, Waiting) demo_run.1 (demo_run.2.1, demo_run.2.2) ∧
  ∃ tr' n, exec (demo_run.2.1, demo_run.2.2) tr' (n, Waiting) ∧ forallb worker_op tr' = true ∧ idle n ∧
    (answered (demo_run.1 ++ tr')).*2 = arrivals demo_run.1.
Proof.
  split; [exact demo_idle|]. split; [exact demo_exec|].
  exact (proj2 (everyone_is_answered demo_long demo_mgr demo_run.1 demo_run.2.1 demo_run.2.2 demo_idle demo_exec)).
Defined.
Lemma guests_cannot_manage_buddies_witness : by_guests (XmppProxy demo_mgr) demo_run.1 ∧
  exec (demo_mgr, Waiting) demo_run.1 (demo_run.2.1, demo_run.2.2) ∧
  AcceptBuddyList (XmppProxy demo_run.2.1) = fold_left accept_change demo_run.1 (AcceptBuddyList (XmppProxy demo_mgr)) ∧
  (∀ bare, on_proxy (handleSubscriptionRequest bare) demo_run.2.1 =
     Done (is_admin (XmppProxy demo_mgr) bare || bool_decide (bare ∈ fold_left accept_change demo_run.1 (AcceptBuddyList (XmppProxy demo_mgr)))) demo_run.2.1) ∧
  Forall (λ e, Forall (allowed e) (ev_out e)) demo_run.1 ∧
  (∀ body s, may_talk demo_run.2.1 s = false → handleMessage body s demo_run.2.1 = Done () demo_run.2.1).
Proof.
  split; [exact demo_guests|]. split; [exact demo_exec|].
  exact (guests_cannot_manage_buddies demo_long demo_mgr demo_run.1 demo_run.2.1 demo_run.2.2 demo_idle demo_exec demo_guests).
Defined.
Lemma restart_restores_state_witness : saved demo_mgr ∧ exec (demo_mgr, Waiting) demo_run.1 (demo_run.2.1, demo_run.2.2) ∧
  Forall plain demo_run.1 ∧
  ∃ r n, (configure (AliasListFile demo_run.2.1) (XmppBotNameFilePath demo_run.2.1) (EventSubscrListFile demo_run.2.1);; Start (str "/acc"))
           (XmppMgr_new (files demo_run.2.1)) = Done r n ∧
    AliasList n = AliasList demo_run.2.1 ∧ myEventList n = List.filter m_Status (myEventList demo_run.2.1) ∧ XmppBotName n = XmppBotName demo_run.2.1.
Proof.
  split; [exact demo_saved|]. split; [exact demo_exec|]. split; [exact demo_plain|].
  refine (restart_restores_state demo_long demo_mgr demo_run.1 demo_run.2.1 demo_run.2.2 (str "/acc") demo_idle demo_saved demo_exec demo_plain _). done.
Defined.
