(* ===== verification/I2cAccess.v ===== *)
(** * The i2c bus as the services see it

    The class I2CBusAccess of lib-adav ([I2CBusAccess.cpp]), from which the
    drivers of the services' i2c devices are derived: the bus is a device node of
    the kernel, or the JSON-RPC server of another machine.  What the object asks
    of the kernel and of the server is a list; their answers are arbitrary
    functions of it.  The end of the file has the interface [ByteBus] that a
    driver of a device relies on, and proves that this class keeps it. *)

From Stdlib Require Import ZArith Lia Ascii String.
From stdpp Require Import base list strings.
From S2P Require Import Prelude CString CxxStd RpcResult.

(** ** Data *)

Inductive ADLIB_DEV_CONN_TYPE :=
| ADLIB_DEV_CONN_TYPE_DEVNODE | ADLIB_DEV_CONN_TYPE_NETWORK | ADLIB_DEV_CONN_TYPE_UNKNOWN | ADLIB_DEV_CONN_TYPE_NONE.
#[export] Instance ADLIB_DEV_CONN_TYPE_eq_dec : EqDecision ADLIB_DEV_CONN_TYPE.
Proof. solve_decision. Defined.

Definition ENOENT : Z := 2.
Definition EACCES : Z := 13.
Definition ENOTDIR : Z := 20.

(** What was asked and answered: [ioctl] with [I2C_SLAVE] and [I2C_SMBUS],
    [read], [write], [close], and the calls of the RPC client. *)
Inductive smbus_req := SmbusRead | SmbusWrite (value : Z).
Inductive io :=
| IoSlave (addr r : Z)
| IoSmbus (x : smbus_req) (r : Z)
| IoRead (len r : Z)
| IoWrite (data : list Z) (r : Z)
| IoClose
| RpcGet (method : cstr) (addr : Z) (r : RPC_SRV_RESULT)
| RpcSet (method : cstr) (addr data : Z) (r : RPC_SRV_RESULT)
| RpcDisconnect.

(** The object.  [ConnType] is not initialised when neither way of opening
    works. *)
Record I2CBusAccess := MkBus {
  fd : Z;
  DevOpened : RPC_SRV_RESULT;
  ConnType : option ADLIB_DEV_CONN_TYPE;
  IpAddr : cstr;
  Port : Z;
  ios : list io
}.
Definition set_ios v b := MkBus (fd b) (DevOpened b) (ConnType b) (IpAddr b) (Port b) v.

(** The kernel and the network.  [stat_mode_chr] is what [S_ISCHR] says of the
    buffer after [stat], whose result is not looked at; [open_dev] gives the
    descriptor and the value of [errno] after the call. *)
Class Kernel := MkKernel {
  k_long_bits : Z;
  stat_mode_chr : cstr → bool;
  open_dev : cstr → Z * Z;
  net_connect : cstr → Z → bool;
  ioctl_slave : Z → list io → Z → Z;
  ioctl_smbus : Z → list io → smbus_req → Z * Z;
  read_fd : Z → list io → Z → Z * list Z;
  write_fd : Z → list io → list Z → Z;
  rpc_get : list io → cstr → Z → RPC_SRV_RESULT * cstr;
  rpc_set : list io → cstr → Z → Z → RPC_SRV_RESULT
}.

Abbreviation BM := (M I2CBusAccess).

(** ** Names of devices *)

Definition isdigit (c : ascii) : bool := (48 <=? code c) && (code c <=? 57).
Definition is_number (s : cstr) : bool := match s with [] => false | _ => forallb isdigit s end.

(** [inet_pton] for IPv4: four numbers up to 255, without leading zeros. *)
Definition COLON : ascii := char 58.
Definition DOT : ascii := char 46.
#[global] Arguments COLON : simpl never.
#[global] Arguments DOT : simpl never.
Definition octet (s : cstr) : bool :=
  is_number s && ((digits 10 0 s).1 <=? 255) && match s with c :: _ :: _ => negb (code c =? 48) | _ => true end.
Definition validateIpAddress (ipAddress : cstr) : bool :=
  match split DOT ipAddress with [a; b; c; d] => octet a && octet b && octet c && octet d | _ => false end.

Section bus.
Context {kernel : Kernel}.

(** The result, the port and the address of a name like [port:ip]. *)
Definition is_it_network_node (devnode : cstr) : RPC_SRV_RESULT * Z * cstr :=
  let none := str "none" in
  match fields COLON devnode with
  | [] | _ :: _ :: _ :: _ => (RPC_SRV_RESULT_FAIL, -1, none)
  | str1 :: rest =>
      let str2 := match rest with [s] => s | _ => str "127.0.0.1" end in
      let port :=
        if is_number str1 then Some (CxxStd.atoi k_long_bits str1)
        else if is_number str2 then Some (CxxStd.atoi k_long_bits str2) else None in
      match port with
      | None => (RPC_SRV_RESULT_FAIL, -1, none)
      | Some port =>
          if validateIpAddress str1 then (RPC_SRV_RESULT_SUCCESS, port, str1)
          else if validateIpAddress str2 then (RPC_SRV_RESULT_SUCCESS, port, str2)
          else (RPC_SRV_RESULT_FAIL, port, none)
      end
  end.
Definition is_it_device_node (devnode : cstr) : RPC_SRV_RESULT :=
  if stat_mode_chr devnode then RPC_SRV_RESULT_SUCCESS else RPC_SRV_RESULT_FAIL.

(** [I2CBusAccess::I2CBusAccess]: [errno] is looked at whether or not [open]
    has failed. *)
Definition I2CBusAccess_new (garbage : Z) (DevNode : cstr) : I2CBusAccess :=
  if decide (is_it_device_node DevNode = RPC_SRV_RESULT_SUCCESS) then
    let '(d, errno) := open_dev DevNode in
    if (errno =? ENOENT) || (errno =? ENOTDIR) then MkBus d RPC_SRV_RESULT_FILE_NOT_FOUND None [] garbage []
    else if errno =? EACCES then MkBus d RPC_SRV_RESULT_DEVNODE_ACCERR None [] garbage []
    else MkBus d RPC_SRV_RESULT_SUCCESS (Some ADLIB_DEV_CONN_TYPE_DEVNODE) [] garbage []
  else
    let '(r, port, ip) := is_it_network_node DevNode in
    if decide (r = RPC_SRV_RESULT_SUCCESS) then
      if net_connect ip port then MkBus garbage RPC_SRV_RESULT_SUCCESS (Some ADLIB_DEV_CONN_TYPE_NETWORK) ip port []
      else MkBus garbage RPC_SRV_RESULT_HOST_NOT_REACHABLE_ERR None ip port []
    else MkBus garbage RPC_SRV_RESULT_FAIL None ip port [].

Definition log (x : io) : BM unit := modify (λ b, set_ios (ios b ++ [x]) b).

Definition I2CBusAccess_delete : BM unit :=
  b ← gets id;
  if decide (DevOpened b = RPC_SRV_RESULT_SUCCESS) then
    if decide (ConnType b = Some ADLIB_DEV_CONN_TYPE_DEVNODE) then log IoClose
    else if decide (ConnType b = Some ADLIB_DEV_CONN_TYPE_NETWORK) then log RpcDisconnect else mret ()
  else mret ().

(** ** Access *)

Definition SetSlaveAddr (addr : Z) : BM RPC_SRV_RESULT :=
  b ← gets id;
  let r := ioctl_slave (fd b) (ios b) addr in
  log (IoSlave addr r);;
  mret (if r <? 0 then RPC_SRV_RESULT_BUS_ERROR else RPC_SRV_RESULT_SUCCESS).

Definition i2c_smbus_access (x : smbus_req) : BM (Z * Z) :=
  b ← gets id;
  let a := ioctl_smbus (fd b) (ios b) x in
  log (IoSmbus x a.1);; mret a.
Definition i2c_smbus_read_byte : BM Z :=
  a ← i2c_smbus_access SmbusRead;
  mret (if negb (a.1 =? 0) then -1 else Z.land 0xff a.2).
Definition i2c_smbus_write_byte (value : Z) : BM Z :=
  a ← i2c_smbus_access (SmbusWrite value); mret (int32 a.1).

(** The guards that all accesses start with; [dev] and [net] are the two
    branches on the kind of the connection. *)
Definition opened {A} (fail : RPC_SRV_RESULT → A) (dev net : BM A) : BM A :=
  b ← gets id;
  if negb (bool_decide (DevOpened b = RPC_SRV_RESULT_SUCCESS)) then mret (fail (DevOpened b))
  else if decide (ConnType b = Some ADLIB_DEV_CONN_TYPE_DEVNODE) then dev
  else if decide (ConnType b = Some ADLIB_DEV_CONN_TYPE_NETWORK) then net
  else mret (fail RPC_SRV_RESULT_FAIL).
Definition with_slave {A} (fail : RPC_SRV_RESULT → A) (addr : Z) (c : BM A) : BM A :=
  ret ← SetSlaveAddr (u8 addr);
  if decide (ret = RPC_SRV_RESULT_SUCCESS) then c else mret (fail ret).
Definition no_data (r : RPC_SRV_RESULT) : RPC_SRV_RESULT * option Z := (r, None).

(** The value read, when [*data] is written. *)
Definition net_get (method : string) (addr bits : Z) : BM (RPC_SRV_RESULT * option Z) :=
  b ← gets id;
  let '(r, t) := rpc_get (ios b) (str method) (int32 addr) in
  log (RpcGet (str method) (int32 addr) r);;
  mret (r, if decide (r = RPC_SRV_RESULT_SUCCESS) then Some (CxxStd.atoi k_long_bits t mod 2 ^ bits) else None).
Definition net_set (method : string) (addr data : Z) : BM RPC_SRV_RESULT :=
  b ← gets id;
  let r := rpc_set (ios b) (str method) (int32 addr) (int32 data) in
  log (RpcSet (str method) (int32 addr) (int32 data) r);; mret r.

Definition read_byte (addr : Z) : BM (RPC_SRV_RESULT * option Z) :=
  opened no_data
    (with_slave no_data addr (
       smret ← i2c_smbus_read_byte;
       mret (if smret <? 0 then no_data RPC_SRV_RESULT_FILE_READ_ERR else (RPC_SRV_RESULT_SUCCESS, Some (u8 smret)))))
    (net_get "read_byte" addr 8).
Definition write_byte (addr data : Z) : BM RPC_SRV_RESULT :=
  opened id
    (with_slave id addr (
       smret ← i2c_smbus_write_byte data;
       mret (if negb (smret =? 0) then RPC_SRV_RESULT_FILE_WRITE_ERR else RPC_SRV_RESULT_SUCCESS)))
    (net_set "write_byte" addr data).

(** [I2C_READ] and [I2C_WRITE] of the whole length. *)
Definition i2c_read (len : Z) : BM (option (list Z)) :=
  b ← gets id;
  let '(n, buff) := read_fd (fd b) (ios b) len in
  log (IoRead len n);;
  mret (if n =? len then Some buff else None).
Definition i2c_write (data : list Z) : BM RPC_SRV_RESULT :=
  b ← gets id;
  let n := write_fd (fd b) (ios b) data in
  log (IoWrite data n);;
  mret (if n =? Z.of_nat (length data) then RPC_SRV_RESULT_SUCCESS else RPC_SRV_RESULT_FILE_WRITE_ERR).

(** The bytes of a word, the high one first. *)
Definition word_bytes (n : nat) (data : Z) : list Z := map (λ i, Z.land (Z.shiftr data (8 * Z.of_nat (n - 1 - i))) 0xff) (seq 0 n).
Definition bytes_word (buff : list Z) : Z := foldl (λ v b, Z.lor (Z.shiftl v 8) b) 0 buff.
Definition read_wide (n : nat) (method : string) (addr : Z) : BM (RPC_SRV_RESULT * option Z) :=
  opened no_data
    (with_slave no_data addr (
       buff ← i2c_read (Z.of_nat n);
       mret match buff with None => no_data RPC_SRV_RESULT_FILE_READ_ERR | Some buff => (RPC_SRV_RESULT_SUCCESS, Some (bytes_word buff)) end))
    (net_get method addr (8 * Z.of_nat n)).
Definition write_wide (n : nat) (method : string) (addr data : Z) : BM RPC_SRV_RESULT :=
  opened id (with_slave id addr (i2c_write (word_bytes n data))) (net_set method addr data).
Definition read_word (addr : Z) := read_wide 2 "read_word" addr.
Definition write_word (addr data : Z) := write_wide 2 "write_word" addr data.
Definition read_dword (addr : Z) := read_wide 4 "read_dword" addr.
Definition write_dword (addr data : Z) := write_wide 4 "write_dword" addr data.

(** Arrays go to the descriptor whatever the kind of the connection. *)
Definition if_opened {A} (fail : RPC_SRV_RESULT → A) (c : BM A) : BM A :=
  b ← gets id;
  if negb (bool_decide (DevOpened b = RPC_SRV_RESULT_SUCCESS)) then mret (fail (DevOpened b)) else c.
Definition write_array (addr : Z) (data : list Z) : BM RPC_SRV_RESULT := if_opened id (with_slave id addr (i2c_write data)).
Definition read_array (addr len : Z) : BM (RPC_SRV_RESULT * option (list Z)) :=
  if_opened (λ r, (r, None)) (with_slave (λ r, (r, None)) addr (
    buff ← i2c_read len;
    mret match buff with None => (RPC_SRV_RESULT_FILE_READ_ERR, None) | Some buff => (RPC_SRV_RESULT_SUCCESS, Some buff) end)).
End bus.

(** ** What a driver relies on *)

(** [wire] is what the devices have been sent, with their addresses. *)
Class ByteBus (S : Type) := MkByteBus {
  bus_write : Z → Z → M S RPC_SRV_RESULT;
  wire : S → list (Z * Z);
  answers : S → Z → Prop;
  silent : S → Z → Prop;
  bus_write_ok s a d : answers s a → 0 ≤ a < 128 → 0 ≤ d < 256 → ∃ t,
    bus_write a d s = Done RPC_SRV_RESULT_SUCCESS t ∧ wire t = wire s ++ [(a, d)] ∧
    (∀ b, answers s b → answers t b) ∧ (∀ b, silent s b → silent t b);
  bus_write_silent s a d : silent s a → 0 ≤ a < 128 → 0 ≤ d < 256 → ∃ r t,
    bus_write a d s = Done r t ∧ r ≠ RPC_SRV_RESULT_SUCCESS ∧ wire t = wire s ∧
    (∀ b, answers s b → answers t b) ∧ (∀ b, silent s b → silent t b)
}.

(** What the device at an address has been sent. *)
Definition sent (a : Z) (w : list (Z * Z)) : list Z := omap (λ x, if decide (x.1 = a) then Some x.2 else None) w.
Lemma sent_snoc a w b d : sent a (w ++ [(b, d)]) = sent a w ++ if decide (b = a) then [d] else [].
Proof. unfold sent. rewrite omap_app. f_equal. cbn. by case_decide. Qed.

(** The selected address and what was sent, from the record of the calls. *)
Definition io_step (x : option Z * list (Z * Z)) (e : io) : option Z * list (Z * Z) :=
  let '(slave, w) := x in
  match e with
  | IoSlave a r => (if r <? 0 then slave else Some a, w)
  | IoSmbus (SmbusWrite v) r =>
      match slave with Some a => (slave, if r =? 0 then w ++ [(a, v)] else w) | None => x end
  | IoWrite data r =>
      match slave with
      | Some a => (slave, if r =? Z.of_nat (length data) then w ++ map (pair a) data else w)
      | None => x
      end
  | RpcSet m a d r => (slave, if decide (m = str "write_byte" ∧ r = RPC_SRV_RESULT_SUCCESS) then w ++ [(a, d)] else w)
  | _ => x
  end.
Definition io_run (l : list io) : option Z * list (Z * Z) := foldl io_step (None, []) l.
Definition slave_of (l : list io) : option Z := (io_run l).1.

Section byte_bus.
Context {kernel : Kernel}.

(** A device that acknowledges, and one that is not there. *)
Definition acks (b : I2CBusAccess) (a : Z) (yes : bool) : Prop :=
  DevOpened b = RPC_SRV_RESULT_SUCCESS ∧
  match ConnType b with
  | Some ADLIB_DEV_CONN_TYPE_DEVNODE =>
      (∀ h, 0 ≤ ioctl_slave (fd b) h a) ∧
      (∀ h v, slave_of h = Some a → (ioctl_smbus (fd b) h (SmbusWrite v)).1 = if yes then 0 else -1)
  | Some ADLIB_DEV_CONN_TYPE_NETWORK =>
      ∀ h v, rpc_set h (str "write_byte") a v = if yes then RPC_SRV_RESULT_SUCCESS else RPC_SRV_RESULT_BUS_ERROR
  | _ => False
  end.

Lemma io_run_snoc l e : io_run (l ++ [e]) = io_step (io_run l) e.
Proof. unfold io_run. by rewrite foldl_snoc. Qed.
Lemma acks_ios b a y l : acks (set_ios l b) a y ↔ acks b a y.
Proof. done. Qed.
Lemma slave_run b a : 0 ≤ ioctl_slave (fd b) (ios b) a → 0 ≤ a < 128 →
  let l := ios b ++ [IoSlave a (ioctl_slave (fd b) (ios b) a)] in
  SetSlaveAddr a b = Done RPC_SRV_RESULT_SUCCESS (set_ios l b) ∧ slave_of l = Some a ∧ (io_run l).2 = (io_run (ios b)).2.
Proof.
  intros Hr Ha l. subst l. unfold SetSlaveAddr, log. msimpl. unfold slave_of, id. rewrite io_run_snoc. destruct (io_run (ios b)) as [sl w].
  cbn [io_step fst snd]. destruct (Z.ltb_spec (ioctl_slave (fd b) (ios b) a) 0); [lia|done].
Qed.
Lemma smbus_run b v a : slave_of (ios b) = Some a →
  let r := (ioctl_smbus (fd b) (ios b) (SmbusWrite v)).1 in
  let l := ios b ++ [IoSmbus (SmbusWrite v) r] in
  i2c_smbus_write_byte v b = Done (int32 r) (set_ios l b) ∧
  (io_run l).2 = (io_run (ios b)).2 ++ if r =? 0 then [(a, v)] else [].
Proof.
  intros Hs r l. subst r l. unfold i2c_smbus_write_byte, i2c_smbus_access, log. split; [done|].
  rewrite io_run_snoc. unfold slave_of in Hs. destruct (io_run (ios b)) as [sl w]. cbn in Hs. subst sl. cbn [io_step snd].
  case_match; by rewrite ?app_nil_r.
Qed.

Lemma write_byte_run b a d y : acks b a y → 0 ≤ a < 128 → 0 ≤ d < 256 → ∃ r l,
  write_byte a d b = Done r (set_ios l b) ∧ (r = RPC_SRV_RESULT_SUCCESS ↔ y = true) ∧
  (io_run l).2 = (io_run (ios b)).2 ++ if y then [(a, d)] else [].
Proof.
  intros [Ho Ha] Ha0 Hd. unfold write_byte, opened. rewrite bind_gets. cbn [id].
  rewrite bool_decide_eq_true_2 by done. cbn [negb].
  assert (Hu : u8 a = a) by (apply Z.mod_small; lia).
  assert (Hi : ∀ z, 0 ≤ z < 256 → int32 z = z) by (intros; unfold int32; rewrite Z.mod_small; lia).
  destruct (ConnType b) as [[]|] eqn:Hc; try done.
  - destruct Ha as [Hs Hw]. rewrite decide_True by done. unfold with_slave. rewrite Hu.
    destruct (slave_run b a (Hs _) Ha0) as (Hset & Hsl & Hw0). mstep Hset. rewrite decide_True by done.
    destruct (smbus_run (set_ios (ios b ++ [IoSlave a (ioctl_slave (fd b) (ios b) a)]) b) d a Hsl) as (Hsm & Hw1).
    cbn [fd ios set_ios] in Hsm, Hw1. mstep Hsm. rewrite Hw in Hw1 |- * by done. rewrite Hw0 in Hw1.
    eexists _, _. split_and!; [reflexivity|destruct y; by vm_compute|rewrite Hw1; by destruct y].
  - rewrite decide_False by done. rewrite decide_True by done. unfold net_set, log. msimpl. rewrite !Hi by lia. rewrite Ha.
    eexists _, _. split_and!; [reflexivity|by destruct y|]. rewrite io_run_snoc. destruct (io_run (ios b)) as [sl w]. cbn [io_step snd].
    destruct y; [by rewrite decide_True|]. rewrite decide_False by naive_solver. by rewrite app_nil_r.
Qed.

#[export] Program Instance bus_access_bytes : ByteBus I2CBusAccess :=
  MkByteBus _ write_byte (λ b, (io_run (ios b)).2) (λ b a, acks b a true) (λ b a, acks b a false) _ _.
Next Obligation.
  intros b a d Ha Ha0 Hd. destruct (write_byte_run b a d true Ha Ha0 Hd) as (r & l & Hr & Hs & Hw).
  eexists. split_and!; [rewrite Hr; f_equal; by apply Hs|done|done|done].
Qed.
Next Obligation.
  intros b a d Ha Ha0 Hd. destruct (write_byte_run b a d false Ha Ha0 Hd) as (r & l & Hr & Hs & Hw). rewrite app_nil_r in Hw.
  eexists _, _. split_and!; [done|naive_solver|done|done|done].
Qed.

(** ** Names and words *)

Lemma split_length d s : length (split d s) = S (length (List.filter (λ c, bool_decide (c = d)) s)).
Proof.
  induction s as [|c s IH]; [done|]. cbn [split List.filter]. destruct (decide (c = d)) as [->|Hc].
  - rewrite bool_decide_eq_true_2 by done. cbn [length]. by rewrite IH.
  - rewrite bool_decide_eq_false_2 by done. destruct (split d s) as [|l ls]; [done|]. cbn [length] in *. done.
Qed.
Lemma number_chars s c : is_number s = true → c ∈ s → isdigit c = true.
Proof.
  unfold is_number. destruct s; [done|]. intros H Hc. apply (proj1 (forallb_forall _ _) H). by apply list_elem_of_In.
Qed.
Lemma number_not_in s c : isdigit c = false → is_number s = true → c ∉ s.
Proof. intros Hc Hs Hin. by rewrite (number_chars _ _ Hs Hin) in Hc. Qed.
Lemma number_not_ip s : is_number s = true → validateIpAddress s = false.
Proof.
  intros Hs. unfold validateIpAddress. rewrite split_no_delim; [done|]. by apply number_not_in.
Qed.
Lemma ip_not_number s : validateIpAddress s = true → is_number s = false ∧ COLON ∉ s ∧ s ≠ [].
Proof.
  intros Hv. split_and!.
  - destruct (is_number s) eqn:Hn; [|done]. by rewrite number_not_ip in Hv.
  - intros Hin. unfold validateIpAddress in Hv.
    assert (Hc : ∃ l, l ∈ split DOT s ∧ COLON ∈ l).
    { clear Hv. induction s as [|c s IH]; [by apply elem_of_nil in Hin|]. cbn [split].
      destruct (decide (c = DOT)) as [->|Hc].
      - apply elem_of_cons in Hin as [Hin|Hin]; [by vm_compute in Hin|]. destruct (IH Hin) as (l & ? & ?). exists l.
        split; [by right|done].
      - apply elem_of_cons in Hin as [<-|Hin].
        + destruct (split DOT s) as [|l ls]; eexists; (split; [by left|by left]).
        + destruct (IH Hin) as (l & Hl & Hlc). destruct (split DOT s) as [|l' ls]; [by apply elem_of_nil in Hl|].
          apply elem_of_cons in Hl as [->|Hl]; [exists (c :: l'); split; [by left|by right]|exists l; split; [by right|done]]. }
    destruct Hc as (l & Hl & Hlc). assert (Ho : octet l = true).
    { destruct (split DOT s) as [|a [|b [|c [|d [|]]]]]; try done. rewrite !andb_true_iff in Hv.
      rewrite !elem_of_cons in Hl. destruct Hl as [->|[->|[->|[->|Hl]]]]; [naive_solver..|by apply elem_of_nil in Hl]. }
    unfold octet in Ho. rewrite !andb_true_iff in Ho. destruct Ho as [[Ho _] _]. by apply (number_not_in l COLON).
  - by intros ->.
Qed.

(** A server is named by its port, or by port and address in either order. *)
Theorem node_names port ip : is_number port = true → validateIpAddress ip = true →
  let p := CxxStd.atoi k_long_bits port in
  is_it_network_node (port ++ COLON :: ip) = (RPC_SRV_RESULT_SUCCESS, p, ip) ∧
  is_it_network_node (ip ++ COLON :: port) = (RPC_SRV_RESULT_SUCCESS, p, ip) ∧
  is_it_network_node port = (RPC_SRV_RESULT_SUCCESS, p, str "127.0.0.1").
Proof.
  intros Hp Hi p. destruct (ip_not_number ip Hi) as (Hn & Hc & Hne).
  assert (Hpc : COLON ∉ port) by by apply number_not_in. assert (port ≠ []) by by intros ->.
  pose proof (number_not_ip port Hp) as Hpi. unfold is_it_network_node.
  rewrite !fields_delim, !fields_all by done. cbv zeta. rewrite Hp, Hn, Hi, Hpi. done.
Qed.

Lemma bytes_word_app l b : bytes_word (l ++ [b]) = Z.lor (Z.shiftl (bytes_word l) 8) b.
Proof. unfold bytes_word. by rewrite foldl_snoc. Qed.
Lemma word_bytes_S n v : word_bytes (S n) v = word_bytes n (Z.shiftr v 8) ++ [Z.land v 0xff].
Proof.
  unfold word_bytes. rewrite seq_S, map_app. cbn [map Nat.add]. f_equal.
  - apply map_ext_in. intros i Hi%in_seq. rewrite Z.shiftr_shiftr by lia. do 2 f_equal. lia.
  - replace (S n - 1 - n)%nat with 0%nat by lia. by rewrite Z.shiftr_0_r.
Qed.
Lemma word_round_trip n v : bytes_word (word_bytes n v) = v mod 2 ^ (8 * Z.of_nat n).
Proof.
  revert v. induction n as [|n IH]; intros v; [by rewrite Z.mod_1_r|]. rewrite word_bytes_S, bytes_word_app, IH.
  apply Z.bits_inj'. intros i Hi. rewrite Z.lor_spec, Z.land_spec. rewrite Z.shiftl_spec by done.
  change 0xff with (Z.ones 8). destruct (decide (i < 8)).
  - rewrite (Z.testbit_neg_r _ (i - 8)) by lia. rewrite Z.ones_spec_low, andb_true_r by lia.
    rewrite Z.mod_pow2_bits_low by lia. done.
  - rewrite Z.ones_spec_high, andb_false_r, orb_false_r by lia. destruct (decide (i < 8 * Z.of_nat (S n))).
    + rewrite !Z.mod_pow2_bits_low by lia. rewrite Z.shiftr_spec by lia. f_equal. lia.
    + by rewrite !Z.mod_pow2_bits_high by lia.
Qed.
Lemma word_bytes_length n v : length (word_bytes n v) = n.
Proof. unfold word_bytes. by rewrite length_map, length_seq. Qed.

Lemma opened_dev {A} fail (dev net : M I2CBusAccess A) b :
  DevOpened b = RPC_SRV_RESULT_SUCCESS → ConnType b = Some ADLIB_DEV_CONN_TYPE_DEVNODE → opened fail dev net b = dev b.
Proof.
  intros Ho Hc. unfold opened. rewrite bind_gets. cbn [id]. rewrite bool_decide_eq_true_2 by done. cbn [negb].
  by rewrite decide_True.
Qed.

(** A word or a double word that is written to a chip that keeps what it gets is
    read back, cut to its width. *)
Theorem wide_round_trip n m m' a v b : DevOpened b = RPC_SRV_RESULT_SUCCESS → ConnType b = Some ADLIB_DEV_CONN_TYPE_DEVNODE →
  0 ≤ a < 128 → (∀ h, 0 ≤ ioctl_slave (fd b) h a) →
  (∀ h data, write_fd (fd b) h data = Z.of_nat (length data)) →
  (∀ h data k r, read_fd (fd b) (h ++ [IoWrite data k; IoSlave a r]) (Z.of_nat (length data)) = (Z.of_nat (length data), data)) →
  ∃ b', (write_wide n m a v;; read_wide n m' a) b =
    Done (RPC_SRV_RESULT_SUCCESS, Some (v mod 2 ^ (8 * Z.of_nat n))) b'.
Proof.
  intros Ho Hc Ha Hs Hw Hr. unfold write_wide, read_wide.
  assert (Hu : u8 a = a) by (apply u8_small; lia).
  set (b1 := set_ios (ios b ++ [IoSlave a (ioctl_slave (fd b) (ios b) a)]) b).
  set (l := word_bytes n v). set (b2 := set_ios (ios b1 ++ [IoWrite l (Z.of_nat (length l))]) b1).
  assert (Hw1 : opened id (with_slave id a (i2c_write l)) (net_set m a v) b = Done RPC_SRV_RESULT_SUCCESS b2).
  { rewrite opened_dev by done. unfold with_slave. rewrite Hu. mstep (proj1 (slave_run b a (Hs _) Ha)).
    rewrite decide_True by done. unfold i2c_write, log. msimpl. unfold id. rewrite !Hw, Z.eqb_refl. done. }
  mstep Hw1. rewrite opened_dev by done. unfold with_slave. rewrite Hu. mstep (proj1 (slave_run b2 a (Hs _) Ha)).
  rewrite decide_True by done. set (b3 := set_ios _ b2).
  assert (Hr3 : ∃ b4, i2c_read (Z.of_nat n) b3 = Done (Some l) b4).
  { unfold i2c_read, log. msimpl. unfold id. replace (ios b3) with (ios b1 ++ [IoWrite l (Z.of_nat (length l)); IoSlave a (ioctl_slave (fd b2) (ios b2) a)]).
    - replace (Z.of_nat n) with (Z.of_nat (length l)) by (unfold l; by rewrite word_bytes_length).
      change (fd b3) with (fd b). rewrite Hr, Z.eqb_refl, bind_modify. by eexists.
    - subst b3 b2. cbn [ios set_ios]. by rewrite <-app_assoc. }
  destruct Hr3 as [b4 Hr3]. mstep Hr3. exists b4. unfold l. by rewrite word_round_trip.
Qed.
End byte_bus.
