(* ===== verification/Hd44780.v ===== *)
(** * A character display behind an i2c port expander

    The reference for the display driver: the display controller HD44780 as its
    data sheet has it, with its four upper data lines, RS, R/W, E and the
    backlight on the pins of a PCF8574.  None of this is code of the repository;
    [PcfLcd] uses it to say what the bytes of the driver do. *)

From Stdlib Require Import ZArith Lia.
From stdpp Require Import base list numbers.
From S2P Require Import Prelude.

(** ** The controller *)

(** [nib]: only four data lines are used; [half]: the upper half of a byte has
    come; [cg]: the address counter is in the memory of the characters' shapes;
    [moving]: the display shifts with each character; [offset]: by how much it is
    shifted. *)
Record panel := Panel {
  nib : bool;
  half : option Z;
  two_lines : bool;
  ddram : Z → Z;
  cg : bool;
  ac : Z;
  inc : bool;
  moving : bool;
  on : bool;
  offset : Z
}.
Definition set_half v p := Panel (nib p) v (two_lines p) (ddram p) (cg p) (ac p) (inc p) (moving p) (on p) (offset p).
Definition set_mode n t p := Panel n (half p) t (ddram p) (cg p) (ac p) (inc p) (moving p) (on p) (offset p).
Definition set_ddram v p := Panel (nib p) (half p) (two_lines p) v (cg p) (ac p) (inc p) (moving p) (on p) (offset p).
Definition set_ac c a p := Panel (nib p) (half p) (two_lines p) (ddram p) c a (inc p) (moving p) (on p) (offset p).
Definition set_entry i m p := Panel (nib p) (half p) (two_lines p) (ddram p) (cg p) (ac p) i m (on p) (offset p).
Definition set_on v p := Panel (nib p) (half p) (two_lines p) (ddram p) (cg p) (ac p) (inc p) (moving p) v (offset p).
Definition set_offset v p := Panel (nib p) (half p) (two_lines p) (ddram p) (cg p) (ac p) (inc p) (moving p) (on p) v.

Definition SPACE : Z := 32.
Definition upd (f : Z → Z) (a v : Z) : Z → Z := λ b, if b =? a then v else f b.

(** The address before or after: in two lines the first ends at 0x27 and the
    second goes from 0x40 to 0x67. *)
Definition next_address (p : panel) (up : bool) : Z :=
  if cg p then (if up then ac p + 1 else ac p - 1) mod 64
  else if two_lines p then
    if up then (if ac p =? 0x27 then 0x40 else if ac p =? 0x67 then 0 else (ac p + 1) mod 128)
    else (if ac p =? 0x40 then 0x27 else if ac p =? 0 then 0x67 else (ac p - 1) mod 128)
  else
    if up then (if ac p =? 0x4f then 0 else (ac p + 1) mod 128)
    else (if ac p =? 0 then 0x4f else (ac p - 1) mod 128).

(** An instruction is known by its highest bit that is set. *)
Definition instruction (b : Z) (p : panel) : panel :=
  if Z.testbit b 7 then set_ac false (b mod 128) p
  else if Z.testbit b 6 then set_ac true (b mod 64) p
  else if Z.testbit b 5 then set_mode (negb (Z.testbit b 4)) (Z.testbit b 3) p
  else if Z.testbit b 4 then
    if Z.testbit b 3 then set_offset (offset p + if Z.testbit b 2 then -1 else 1) p
    else set_ac (cg p) (next_address p (Z.testbit b 2)) p
  else if Z.testbit b 3 then set_on (Z.testbit b 2) p
  else if Z.testbit b 2 then set_entry (Z.testbit b 1) (Z.testbit b 0) p
  else if Z.testbit b 1 then set_offset 0 (set_ac false 0 p)
  else if Z.testbit b 0 then set_entry true (moving p) (set_offset 0 (set_ac false 0 (set_ddram (λ _, SPACE) p)))
  else p.
Definition character (b : Z) (p : panel) : panel :=
  let p' := set_ac (cg p) (next_address p (inc p)) (if cg p then p else set_ddram (upd (ddram p) (ac p) b) p) in
  if moving p then set_offset (offset p + if inc p then 1 else -1) p' else p'.
Definition execute (rs : bool) (b : Z) : panel → panel := if rs then character b else instruction b.

(** ** The port expander *)

Section expander.
(** The four lower data lines are not connected: what the controller reads there
    while it still expects all eight. *)
Variable float : Z.

(** E falls with a value on the upper data lines. *)
Definition strobe (rs : bool) (n : Z) (p : panel) : panel :=
  if nib p then
    match half p with
    | None => set_half (Some n) p
    | Some h => execute rs (16 * h + n) (set_half None p)
    end
  else execute rs (16 * n + float) p.

(** The pins and the controller; [None] after E has fallen while other pins
    changed, or in a read. *)
Definition feed (b : Z) (x : option (Z * panel)) : option (Z * panel) :=
  match x with
  | None => None
  | Some (pins, p) =>
      if Z.testbit pins 2 && negb (Z.testbit b 2) then
        if (Z.lxor pins b =? 4) && negb (Z.testbit b 1) then Some (b, strobe (Z.testbit b 0) (b / 16) p) else None
      else Some (b, p)
  end.
Definition feeds (l : list Z) (x : option (Z * panel)) : option (Z * panel) := foldl (λ x b, feed b x) x l.
End expander.

Definition backlight (pins : Z) : bool := Z.testbit pins 3.

(** ** What is seen *)

(** The first address of a row, from 1, of a display with [cols] columns: the
    third row goes on where the first ends, the fourth where the second does. *)
Definition row_address (cols row : Z) : Z :=
  if row =? 1 then 0 else if row =? 2 then 0x40 else if row =? 3 then cols else 0x40 + cols.
Definition text_at (f : Z → Z) (a n : Z) : list Z := map f (seqZ a n).
Definition row_text (p : panel) (cols row : Z) : list Z := text_at (ddram p) (row_address cols row) cols.

(** ** Lemmas *)

Lemma text_at_length f a n : 0 ≤ n → Z.of_nat (length (text_at f a n)) = n.
Proof. intros. unfold text_at. rewrite length_map, length_seqZ. lia. Qed.

(** A display that takes bytes in halves, writes to the right and stands still. *)
Record ready (p : panel) : Prop := Ready {
  re_nib : nib p = true;
  re_half : half p = None;
  re_two : two_lines p = true;
  re_cg : cg p = false;
  re_inc : inc p = true;
  re_moving : moving p = false;
  re_on : on p = true;
  re_offset : offset p = 0
}.

Lemma strobe_twice float rs rs' n m p : nib p = true → half p = None →
  strobe float rs' m (strobe float rs n p) = execute rs' (16 * n + m) p.
Proof. intros Hn Hh. unfold strobe. rewrite Hn, Hh. cbn [nib set_half half]. rewrite Hn. destruct p. cbn in *. by subst. Qed.

Lemma in_range (P : Z → bool) n : forallb P (seqZ 0 n) = true → ∀ i, 0 ≤ i < n → P i = true.
Proof. intros H i Hi. apply (proj1 (forallb_forall _ _) H). apply list_elem_of_In, elem_of_seqZ. lia. Qed.

Lemma half_execute rs b p : half (execute rs b p) = half p.
Proof. unfold execute, instruction, character. repeat case_match; by destruct p. Qed.

Lemma strobe_8bit float p n : 0 ≤ float < 16 → n = 2 ∨ n = 3 → nib p = false → half p = None →
  nib (strobe float false n p) = (n =? 2) ∧ half (strobe float false n p) = None.
Proof.
  intros Hf Hn Hp Hh. unfold strobe. rewrite Hp, half_execute, Hh. split; [|done]. unfold execute, instruction.
  assert (Hb : ∀ i, 0 ≤ i < 16 → (negb (Z.testbit (16 * 2 + i) 7 || Z.testbit (16 * 2 + i) 6 || Z.testbit (16 * 2 + i) 4) && Z.testbit (16 * 2 + i) 5
    && negb (Z.testbit (16 * 3 + i) 7 || Z.testbit (16 * 3 + i) 6) && Z.testbit (16 * 3 + i) 5 && Z.testbit (16 * 3 + i) 4) = true)
    by by apply in_range.
  specialize (Hb float Hf). rewrite !andb_true_iff, !negb_true_iff, !orb_false_iff in Hb.
  destruct Hb as [[[[[[H1 H2] H3] H4] [H5 H6]] H7] H8]. destruct Hn as [-> | ->]; [by rewrite H1, H2, H3, H4|by rewrite H5, H6, H7, H8].
Qed.

(** What the expander and the controller can be in the middle of. *)
Definition sane (p : panel) : Prop := match half p with Some h => nib p = true ∧ 0 ≤ h < 16 | None => True end.

(** From any state three strobes of the nibble 3 make the controller expect all
    eight lines. *)
Lemma strobe_sync float p : 0 ≤ float < 16 → sane p →
  let q := strobe float false 3 (strobe float false 3 (strobe float false 3 p)) in nib q = false ∧ half q = None.
Proof.
  intros Hf Hs q. subst q.
  assert (H8 : ∀ p, nib p = false → half p = None → nib (strobe float false 3 p) = false ∧ half (strobe float false 3 p) = None)
    by (intros; apply strobe_8bit; auto).
  assert (H4 : ∀ p, nib p = true → half p = None → nib (strobe float false 3 (strobe float false 3 p)) = false ∧
    half (strobe float false 3 (strobe float false 3 p)) = None).
  { intros r Hn Hh. rewrite strobe_twice by done. by rewrite half_execute. }
  destruct (nib p) eqn:Hn.
  - destruct (half p) as [h|] eqn:Hh.
    + set (r := strobe float false 3 p). assert (half r = None).
      { subst r. unfold strobe. rewrite Hn, Hh, half_execute. by destruct p. }
      destruct (nib r) eqn:Hr; [by apply H4|]. destruct (H8 r) as [? ?]; [done..|]. by apply H8.
    + destruct (H4 p) as [? ?]; [done..|]. by apply H8.
  - assert (Hh : half p = None). { unfold sane in Hs. destruct (half p); [|done]. destruct Hs. congruence. }
    destruct (H8 p) as [? ?]; [done..|]. destruct (H8 (strobe float false 3 p)) as [? ?]; [done..|]. by apply H8.
Qed.

(** Characters of a text from an address on. *)
Fixpoint place (f : Z → Z) (a : Z) (l : list Z) : Z → Z :=
  match l with [] => f | c :: l => place (upd f a c) (a + 1) l end.
Lemma place_before f a l b : b < a → place f a l b = f b.
Proof.
  revert f a. induction l as [|c l IH]; intros f a Hb; [done|]. cbn. rewrite IH by lia. unfold upd.
  by destruct (Z.eqb_spec b a); [lia|].
Qed.
Lemma place_in f a l b : a ≤ b < a + Z.of_nat (length l) → Some (place f a l b) = l !! Z.to_nat (b - a).
Proof.
  revert f a. induction l as [|c l IH]; intros f a Hb; cbn in Hb; [lia|]. cbn [place]. destruct (decide (b = a)) as [->|Hne].
  - rewrite place_before by lia. unfold upd. by rewrite Z.eqb_refl, Z.sub_diag.
  - rewrite IH by lia. replace (Z.to_nat (b - a)) with (S (Z.to_nat (b - (a + 1)))) by lia. done.
Qed.
Lemma place_after f a l b : a + Z.of_nat (length l) ≤ b → place f a l b = f b.
Proof.
  revert f a. induction l as [|c l IH]; intros f a Hb; [done|]. cbn in *. rewrite IH by lia. unfold upd.
  by destruct (Z.eqb_spec b a); [lia|].
Qed.

(** A text put over another from a position on. *)
Definition put (k : Z) (t old : list Z) : list Z := take (Z.to_nat k) old ++ t ++ drop (Z.to_nat k + length t) old.

Lemma text_at_ext f g a n : (∀ i, a ≤ i < a + n → f i = g i) → text_at f a n = text_at g a n.
Proof. intros H. unfold text_at. apply map_ext_in. intros i Hi%list_elem_of_In%elem_of_seqZ. apply H. lia. Qed.
Lemma text_at_app f a n m : 0 ≤ n → 0 ≤ m → text_at f a (n + m) = text_at f a n ++ text_at f (a + n) m.
Proof. intros. unfold text_at. rewrite seqZ_app, map_app by lia. done. Qed.
Lemma text_at_1 f a : text_at f a 1 = [f a].
Proof. done. Qed.
Lemma text_at_place_in f a t : text_at (place f a t) a (Z.of_nat (length t)) = t.
Proof.
  revert f a. induction t as [|c t IH]; intros f a; [done|]. cbn [length]. rewrite Nat2Z.inj_succ, <-Z.add_1_l, text_at_app by lia.
  cbn [place]. rewrite IH, text_at_1, place_before by lia. unfold upd. by rewrite Z.eqb_refl.
Qed.
Lemma text_at_place f a t b n : b ≤ a → a + Z.of_nat (length t) ≤ b + n →
  text_at (place f a t) b n = put (a - b) t (text_at f b n).
Proof.
  intros H1 H2. set (k := a - b). set (len := Z.of_nat (length t)) in *. set (m := n - k - len).
  replace n with (k + (len + m)) by (unfold m, k; lia). rewrite !text_at_app by (unfold m, k; lia). unfold put.
  replace (b + k) with a by (unfold k; lia).
  rewrite (text_at_ext (place f a t) f b k) by (intros; apply place_before; unfold k in *; lia).
  unfold len at 1. rewrite text_at_place_in.
  rewrite (text_at_ext (place f a t) f (a + len) m) by (intros; apply place_after; lia).
  assert (Hk : length (text_at f b k) = Z.to_nat k) by (pose proof (text_at_length f b k); unfold k in *; lia).
  assert (Hl : length (text_at f a len) = length t) by (pose proof (text_at_length f a len); unfold len in *; lia).
  rewrite take_app_length' by done. rewrite (app_assoc (text_at f b k) (text_at f a len)).
  rewrite drop_app_length'; [done|]. rewrite length_app. lia.
Qed.
Lemma text_at_other f a t b n : b + n ≤ a ∨ a + Z.of_nat (length t) ≤ b → text_at (place f a t) b n = text_at f b n.
Proof. intros H. apply text_at_ext. intros i Hi. destruct H; [apply place_before|apply place_after]; lia. Qed.
