(* ===== verification/PcfLcd.v ===== *)
(** * The driver of the character display

    The class I2CPcfLcd of lib-adav ([I2CPcfLcd.cpp], [DisplayDevice.hpp]), with
    which sysmgr and dispsrv write on a display of two or four rows, over any bus
    that keeps the interface [ByteBus].  The theorems say what is then seen on
    the display of [Hd44780].  The functions of the class that nothing calls
    ([go_to], [go_to_centre], the other [write_inst] with its helpers) are left
    out, as are the pauses. *)

From Stdlib Require Import ZArith Lia Ascii String.
From stdpp Require Import base list strings numbers.
From S2P Require Import Prelude CString RpcResult CxxStd I2cAccess Hd44780.

(** ** Data *)

Inductive DISPLAY_LINE :=
| DISPLAY_LINE_1 | DISPLAY_LINE_2 | DISPLAY_LINE_3 | DISPLAY_LINE_4 | DISPLAY_LINE_5 | DISPLAY_LINE_6 | DISPLAY_LINE_7
| DISPLAY_LINE_8 | DISPLAY_LINE_FULL | DISPLAY_LINE_UNKNOWN | DISPLAY_LINE_NONE.
Inductive TEXT_ALIGNMENT :=
| TEXT_ALIGNMENT_LEFT | TEXT_ALIGNMENT_RIGHT | TEXT_ALIGNMENT_CENTER | TEXT_ALIGNMENT_UNKNOWN | TEXT_ALIGNMENT_NONE.
Inductive ADLIB_DISPLAY_TYPE :=
| ADLIB_DISPLAY_TYPE_SSD1306_128x32 | ADLIB_DISPLAY_TYPE_SSD1306_128x64 | ADLIB_DISPLAY_TYPE_SSD1306_128x32_PI
| ADLIB_DISPLAY_TYPE_SSD1306_128x64_PI | ADLIB_DISPLAY_TYPE_1602_DUAL_PCF | ADLIB_DISPLAY_TYPE_1602_PCF
| ADLIB_DISPLAY_TYPE_2002_PCF | ADLIB_DISPLAY_TYPE_2004_PCF | ADLIB_DISPLAY_TYPE_1604_PCF | ADLIB_DISPLAY_TYPE_UNKNOWN
| ADLIB_DISPLAY_TYPE_NONE.
Definition display_types : list ADLIB_DISPLAY_TYPE :=
  [ADLIB_DISPLAY_TYPE_SSD1306_128x32; ADLIB_DISPLAY_TYPE_SSD1306_128x64; ADLIB_DISPLAY_TYPE_SSD1306_128x32_PI;
   ADLIB_DISPLAY_TYPE_SSD1306_128x64_PI; ADLIB_DISPLAY_TYPE_1602_DUAL_PCF; ADLIB_DISPLAY_TYPE_1602_PCF;
   ADLIB_DISPLAY_TYPE_2002_PCF; ADLIB_DISPLAY_TYPE_2004_PCF; ADLIB_DISPLAY_TYPE_1604_PCF; ADLIB_DISPLAY_TYPE_UNKNOWN;
   ADLIB_DISPLAY_TYPE_NONE].
Definition dispTbl : list string :=
  ["ssd1306_128x32"; "ssd1306_128x64"; "ssd1306_128x32_pi"; "ssd1306_128x64_pi"; "1602_dual_pcf"; "1602_pcf"; "2002_pcf";
   "2004_pcf"; "1604_pcf"; "unknown"; "none"; ""].

Definition LCD_LINE1 : Z := 0x80.
Definition LCD_LINE2 : Z := 0xC0.
Definition LCD_LINE3 : Z := 0x94.
Definition LCD_LINE4 : Z := 0xD4.
Definition LO_NIBBLE (b : Z) : Z := Z.land (Z.shiftl b 4) 0xF0.
Definition HI_NIBBLE (b : Z) : Z := Z.land b 0xF0.
Definition LCD_BL : Z := 0x08.
Definition LCD_EN : Z := 0x04.
Definition LCD_RS : Z := 0x01.

(** The object; [bus] is the part of I2CBusAccess. *)
Record I2CPcfLcd {B : Type} := MkLcd {
  BkLight : bool;
  DISPLAY_TYPE : Z;
  disp_type : ADLIB_DISPLAY_TYPE;
  io_ctrl_byte : Z;
  LCD_PCF_ADDRESS : Z;
  bus : B
}.
Arguments I2CPcfLcd : clear implicits.
Arguments MkLcd {B}.

Section driver.
Context {B : Type} `{!ByteBus B}.
Abbreviation LM := (M (I2CPcfLcd B)).
Definition set_BkLight v (l : I2CPcfLcd B) : I2CPcfLcd B := MkLcd v (DISPLAY_TYPE l) (disp_type l) (io_ctrl_byte l) (LCD_PCF_ADDRESS l) (bus l).
Definition set_io v (l : I2CPcfLcd B) : I2CPcfLcd B := MkLcd (BkLight l) (DISPLAY_TYPE l) (disp_type l) v (LCD_PCF_ADDRESS l) (bus l).
Definition set_ADDRESS v (l : I2CPcfLcd B) : I2CPcfLcd B := MkLcd (BkLight l) (DISPLAY_TYPE l) (disp_type l) (io_ctrl_byte l) v (bus l).
Definition set_bus v (l : I2CPcfLcd B) : I2CPcfLcd B := MkLcd (BkLight l) (DISPLAY_TYPE l) (disp_type l) (io_ctrl_byte l) (LCD_PCF_ADDRESS l) v.

(** ** Writing *)
Definition write_byte (addr data : Z) : LM RPC_SRV_RESULT := zoom bus set_bus (bus_write addr data).
(** [write_byte((uint32_t)LCD_PCF_ADDRESS, data);] *)
Definition send (data : Z) : LM unit := a ← gets LCD_PCF_ADDRESS; write_byte a data;; mret ().
(** One nibble with E high, then with E low. *)
Definition pulse (lcddata : Z) : LM unit :=
  send (Z.lor lcddata LCD_EN);; send (Z.land lcddata (Z.lnot LCD_EN)).

Definition write_inst (data cmdtype : Z) : LM unit :=
  bk ← gets BkLight;
  pulse (if negb bk then HI_NIBBLE data else Z.lor (HI_NIBBLE data) LCD_BL);;
  if negb (cmdtype =? 0) then
    bk ← gets BkLight;
    pulse (if negb bk then LO_NIBBLE data else Z.lor (LO_NIBBLE data) LCD_BL)
  else mret ().
Definition write_data (data : Z) : LM unit :=
  bk ← gets BkLight;
  pulse (if negb bk then Z.lor (HI_NIBBLE data) LCD_RS else Z.lor (Z.lor (HI_NIBBLE data) LCD_RS) LCD_BL);;
  bk ← gets BkLight;
  pulse (if negb bk then Z.lor (LO_NIBBLE data) LCD_RS else Z.lor (Z.lor (LO_NIBBLE data) LCD_RS) LCD_BL).

(** Row and column are [unsigned char]. *)
Definition LCD_goto (row column : Z) : LM unit :=
  let column := u8 column in
  if row =? 2 then write_inst (u8 (LCD_LINE2 + (column - 1))) 1
  else if row =? 3 then write_inst (u8 (LCD_LINE3 + (column - 1))) 1
  else if row =? 4 then write_inst (u8 (LCD_LINE4 + (column - 1))) 1
  else write_inst (u8 (LCD_LINE1 + (column - 1))) 1.

(** [i] is the counter that stops the loop. *)
Fixpoint print_loop (ptr : cstr) (i : Z) : LM unit :=
  match ptr with
  | [] => mret ()
  | c :: ptr =>
      write_data (code c);;
      n ← gets DISPLAY_TYPE;
      if i + 1 >? n then mret () else print_loop ptr (i + 1)
  end.
Definition print_lcd (ptr : cstr) : LM unit := print_loop ptr 1.

Definition Blank : cstr := str "                ".
Definition clear_display_internal (line : DISPLAY_LINE) : LM unit :=
  match line with
  | DISPLAY_LINE_1 => LCD_goto 1 1;; print_lcd Blank
  | DISPLAY_LINE_2 => LCD_goto 2 1;; print_lcd Blank
  | DISPLAY_LINE_3 => LCD_goto 3 1;; print_lcd Blank
  | DISPLAY_LINE_4 => LCD_goto 4 1;; print_lcd Blank
  | DISPLAY_LINE_FULL => write_inst 0x01 1
  | _ => mret ()
  end.

Definition print_center (line : DISPLAY_LINE) (string : cstr) : LM unit :=
  n ← gets DISPLAY_TYPE;
  let len := if strlen string >? n then n else strlen string in
  let indx := (n - len) ÷ 2 + 1 in
  clear_display_internal line;;
  match line with
  | DISPLAY_LINE_1 => LCD_goto 1 indx
  | DISPLAY_LINE_2 => LCD_goto 2 indx
  | DISPLAY_LINE_3 => LCD_goto 3 indx
  | DISPLAY_LINE_4 => LCD_goto 4 indx
  | _ => mret ()
  end;;
  print_lcd string.

(** ** The functions of DisplayDevice *)
Definition print_line (msg : cstr) (line : DISPLAY_LINE) (align : TEXT_ALIGNMENT) : LM RPC_SRV_RESULT :=
  n ← gets DISPLAY_TYPE;
  let len := if strlen msg >? n then n else strlen msg in
  let indx := n - len in
  let myline :=
    match line with DISPLAY_LINE_1 => 1 | DISPLAY_LINE_2 => 2 | DISPLAY_LINE_3 => 3 | DISPLAY_LINE_4 => 4 | _ => 1 end in
  match align with
  | TEXT_ALIGNMENT_LEFT => LCD_goto myline 1;; print_lcd msg
  | TEXT_ALIGNMENT_RIGHT => LCD_goto myline (indx + 1);; print_lcd msg
  | _ => print_center line msg
  end;;
  mret RPC_SRV_RESULT_SUCCESS.

Definition set_back_light (sts : bool) : LM RPC_SRV_RESULT :=
  let lcddata := if negb sts then HI_NIBBLE 0 else Z.lor (HI_NIBBLE 0) LCD_BL in
  modify (set_BkLight sts);;
  send lcddata;;
  mret RPC_SRV_RESULT_SUCCESS.
Definition get_back_light : LM (RPC_SRV_RESULT * bool) := b ← gets BkLight; mret (RPC_SRV_RESULT_SUCCESS, b).

Definition init_lcd : LM unit :=
  modify (set_io 0xFF);;
  send 0xFF;;
  write_inst 0x30 0;; write_inst 0x30 0;; write_inst 0x30 0;; write_inst 0x20 0;;
  write_inst 0x28 1;; write_inst 0x08 1;; write_inst 0x01 1;; write_inst 0x06 1;; write_inst 0x0C 1.
Definition init_display : LM RPC_SRV_RESULT := init_lcd;; mret RPC_SRV_RESULT_SUCCESS.
Definition clear_display : LM RPC_SRV_RESULT := clear_display_internal DISPLAY_LINE_FULL;; mret RPC_SRV_RESULT_SUCCESS.

(** [I2CPcfLcd::I2CPcfLcd] on a bus that has been opened. *)
Definition find_type (DevType : string) : ADLIB_DISPLAY_TYPE :=
  match string_to_enum dispTbl DevType 9 () with
  | Done i _ => if 9 <=? i then ADLIB_DISPLAY_TYPE_1602_PCF else default ADLIB_DISPLAY_TYPE_1602_PCF (display_types !! Z.to_nat i)
  | _ => ADLIB_DISPLAY_TYPE_1602_PCF
  end.
Definition columns (t : ADLIB_DISPLAY_TYPE) : Z :=
  match t with ADLIB_DISPLAY_TYPE_2002_PCF | ADLIB_DISPLAY_TYPE_2004_PCF => 20 | _ => 16 end.
Definition construct : LM unit :=
  modify (set_io 0xFF);;
  modify (set_ADDRESS (Z.shiftr 0x7E 1));;
  a ← gets LCD_PCF_ADDRESS;
  r ← write_byte a 0xFF;
  (if decide (r = RPC_SRV_RESULT_SUCCESS) then mret () else modify (set_ADDRESS (Z.shiftr 0x4E 1)));;
  modify (set_BkLight true);;
  modify (set_io 0xFF);;
  init_lcd;;
  LCD_goto 1 1.
Definition I2CPcfLcd_new (b : B) (DevType : string) : outcome (I2CPcfLcd B) unit :=
  let t := find_type DevType in construct (MkLcd true (columns t) t 0 0 b).
End driver.

(** ** What the display makes of the bytes *)

Section proofs.
Context {B : Type} `{!ByteBus B} (float : Z) (x0 : option (Z * panel)).
Abbreviation LM := (M (I2CPcfLcd B)).

(** The expander and the controller after all that the bus has sent to the
    driver's address, from [x0] on. *)
Definition screen (l : I2CPcfLcd B) : option (Z * panel) := feeds float (sent (LCD_PCF_ADDRESS l) (wire (bus l))) x0.

Record shows (l : I2CPcfLcd B) (pins : Z) (p : panel) : Prop := Shows {
  sh_answers : answers (bus l) (LCD_PCF_ADDRESS l);
  sh_address : 0 ≤ LCD_PCF_ADDRESS l < 128;
  sh_screen : screen l = Some (pins, p)
}.
(** The fields that the commands for writing leave alone. *)
Record same (l l' : I2CPcfLcd B) : Prop := Same {
  sa_light : BkLight l' = BkLight l;
  sa_type : DISPLAY_TYPE l' = DISPLAY_TYPE l;
  sa_address : LCD_PCF_ADDRESS l' = LCD_PCF_ADDRESS l
}.
Lemma same_refl l : same l l.
Proof. done. Qed.
Lemma same_trans l m n : same l m → same m n → same l n.
Proof. intros [] []. split; congruence. Qed.

Lemma send_run l pins p d pins' p' : shows l pins p → 0 ≤ d < 256 → feed float d (Some (pins, p)) = Some (pins', p') →
  ∃ l', send d l = Done () l' ∧ same l l' ∧ shows l' pins' p'.
Proof.
  intros [Ha Hr Hs] Hd Hf. destruct (bus_write_ok (bus l) (LCD_PCF_ADDRESS l) d Ha Hr Hd) as (b & Hw & Hwire & Hans & _).
  exists (set_bus b l). unfold send. msimpl. unfold write_byte.
  mstep (zoom_done bus set_bus _ _ _ _ Hw). split_and!; [done|done|]. split; [by apply Hans|done|].
  unfold screen in *. cbn. rewrite Hwire, sent_snoc, decide_True by done. unfold feeds in *. by rewrite foldl_app, Hs.
Qed.

Lemma pulse_run l pins p d rs n : shows l pins p → 0 ≤ d < 256 → Z.testbit d 2 = false → Z.testbit d 1 = false →
  Z.testbit d 0 = rs → d / 16 = n →
  ∃ l', pulse d l = Done () l' ∧ same l l' ∧ shows l' d (strobe float rs n p).
Proof.
  intros Hs Hd H2 H1 H0 Hn.
  assert (Hb : ∀ i, 0 ≤ i < 256 → (Z.testbit i 2 || (Z.testbit (Z.lor i LCD_EN) 2 && (Z.land i (Z.lnot LCD_EN) =? i) &&
    (Z.lxor (Z.lor i LCD_EN) i =? 4) && (0 <=? Z.lor i LCD_EN) && (Z.lor i LCD_EN <? 256))) = true) by by apply in_range.
  specialize (Hb d Hd). rewrite H2 in Hb. rewrite orb_false_l, !andb_true_iff in Hb. destruct Hb as [[[[He Hl] Hx] Hlo] Hhi].
  apply Z.eqb_eq in Hl. unfold pulse. rewrite Hl.
  destruct (send_run l pins p (Z.lor d LCD_EN) (Z.lor d LCD_EN) p) as (l1 & Hr1 & Hs1 & Hsh1); [done|lia|cbn [feed]; rewrite He; by destruct (Z.testbit pins 2)|].
  mstep Hr1.
  destruct (send_run l1 (Z.lor d LCD_EN) p d d (strobe float rs n p)) as (l2 & Hr2 & Hs2 & Hsh2); [done|done| |].
  - cbn [feed]. rewrite He, H2, Hx, H1, H0, Hn. done.
  - exists l2. split_and!; [done|by eapply same_trans|done].
Qed.

(** The pins between two commands. *)
Definition rest (pins : Z) (l : I2CPcfLcd B) : Prop := Z.testbit pins 2 = false ∧ Z.testbit pins 3 = BkLight l.

(** The bytes the nibbles of [data] are sent in. *)
Definition nibble (data : Z) (rs bk : bool) : Z := Z.lor (if rs then Z.lor data LCD_RS else data) (if bk then LCD_BL else 0).
Lemma nibble_facts data rs bk : 0 ≤ data < 256 →
  let h := nibble (HI_NIBBLE data) rs bk in let m := nibble (LO_NIBBLE data) rs bk in
  (0 ≤ h < 256 ∧ Z.testbit h 2 = false ∧ Z.testbit h 1 = false ∧ Z.testbit h 0 = rs ∧ h / 16 = data / 16 ∧ Z.testbit h 3 = bk) ∧
  (0 ≤ m < 256 ∧ Z.testbit m 2 = false ∧ Z.testbit m 1 = false ∧ Z.testbit m 0 = rs ∧ m / 16 = data mod 16 ∧ Z.testbit m 3 = bk).
Proof.
  intros Hd h m.
  set (ok := λ x d q : Z, (0 <=? x) && (x <? 256) && negb (Z.testbit x 2) && negb (Z.testbit x 1) && eqb (Z.testbit x 0) rs
    && (x / 16 =? q) && eqb (Z.testbit x 3) bk).
  assert (Hb : ∀ i, 0 ≤ i < 256 → ok (nibble (HI_NIBBLE i) rs bk) i (i / 16) && ok (nibble (LO_NIBBLE i) rs bk) i (i mod 16) = true)
    by (subst ok; destruct rs, bk; by apply in_range).
  specialize (Hb data Hd). unfold ok in Hb. fold h m in Hb.
  rewrite !andb_true_iff, !negb_true_iff, !eqb_true_iff, !Z.leb_le, !Z.ltb_lt, !Z.eqb_eq in Hb. naive_solver lia.
Qed.

Lemma nibble_run l pins p data rs hi : shows l pins p → 0 ≤ data < 256 →
  ∃ l' pins', pulse (nibble (if hi : bool then HI_NIBBLE data else LO_NIBBLE data) rs (BkLight l)) l = Done () l' ∧ same l l' ∧
    shows l' pins' (strobe float rs (if hi then data / 16 else data mod 16) p) ∧ rest pins' l'.
Proof.
  intros Hs Hd. destruct (nibble_facts data rs (BkLight l) Hd) as [Hh Hl].
  destruct hi; [destruct Hh as (? & ? & ? & ? & ? & ?)|destruct Hl as (? & ? & ? & ? & ? & ?)];
  (edestruct (pulse_run l) as (l' & Hr & Hsa & Hsh); [done..|]; exists l'; eexists; split_and!; [done|done|done|];
   split; [done|by rewrite (sa_light _ _ Hsa)]).
Qed.

Lemma nibble_inst x bk : (if negb bk then x else Z.lor x LCD_BL) = nibble x false bk.
Proof. unfold nibble. destruct bk; cbn [negb]; by rewrite ?Z.lor_0_r. Qed.
Lemma nibble_data x bk : (if negb bk then Z.lor x LCD_RS else Z.lor (Z.lor x LCD_RS) LCD_BL) = nibble x true bk.
Proof. unfold nibble. destruct bk; cbn [negb]; by rewrite ?Z.lor_0_r. Qed.

(** A command leaves the object as it is but for the bus, and the display in
    the state [q]. *)
Definition runs (c : LM unit) (l : I2CPcfLcd B) (q : panel) : Prop :=
  ∃ l' pins', c l = Done () l' ∧ same l l' ∧ shows l' pins' q ∧ rest pins' l'.
Lemma runs_seq c d l q r : runs c l q → (∀ l' pins', same l l' → shows l' pins' q → rest pins' l' → runs d l' r) → runs (c;; d) l r.
Proof.
  intros (l1 & pins1 & H1 & Hs1 & Hq1 & Hr1) H2. destruct (H2 l1 pins1) as (l2 & pins2 & ? & ? & ? & ?); [done..|].
  exists l2, pins2. split_and!; [by mstep H1|by eapply same_trans|done|done].
Qed.
Lemma runs_ret l pins p : shows l pins p → rest pins l → runs (mret ()) l p.
Proof. intros. exists l, pins. split_and!; [done|apply same_refl|done|done]. Qed.

Lemma half_inst_runs l pins p data : shows l pins p → 0 ≤ data < 256 → runs (write_inst data 0) l (strobe float false (data / 16) p).
Proof.
  intros Hs Hd. unfold write_inst. rewrite Z.eqb_refl. cbn [negb].
  destruct (nibble_run l pins p data false true Hs Hd) as (l' & pins' & Hr & Hsa & Hsh & Hre).
  exists l', pins'. split_and!; [|done..]. msimpl. rewrite nibble_inst. by mstep Hr.
Qed.
Lemma two_nibbles l pins p data rs (hi lo : bool → Z) : shows l pins p → 0 ≤ data < 256 → nib p = true → half p = None →
  (∀ bk, hi bk = nibble (HI_NIBBLE data) rs bk) → (∀ bk, lo bk = nibble (LO_NIBBLE data) rs bk) →
  runs (bk ← gets BkLight; pulse (hi bk);; bk ← gets BkLight; pulse (lo bk)) l (execute rs data p).
Proof.
  intros Hs Hd Hn Hh Hhi Hlo. destruct (nibble_run l pins p data rs true Hs Hd) as (l1 & pins1 & Hr1 & Hs1 & Hq1 & _).
  destruct (nibble_run l1 pins1 _ data rs false Hq1 Hd) as (l2 & pins2 & Hr2 & Hs2 & Hq2 & Hre2).
  exists l2, pins2. split_and!; [|by eapply same_trans| |done].
  - msimpl. rewrite Hhi. mstep Hr1. msimpl. by rewrite Hlo.
  - rewrite strobe_twice in Hq2 by done. by rewrite <-Z.div_mod in Hq2 by done.
Qed.
Lemma inst_runs l pins p data k : shows l pins p → 0 ≤ data < 256 → k ≠ 0 → nib p = true → half p = None →
  runs (write_inst data k) l (instruction data p).
Proof.
  intros Hs Hd Hk Hn Hh. unfold write_inst. rewrite (proj2 (Z.eqb_neq k 0)) by done. cbn [negb].
  eapply (two_nibbles l pins p data false); eauto using nibble_inst.
Qed.
Lemma data_runs l pins p data : shows l pins p → 0 ≤ data < 256 → nib p = true → half p = None →
  runs (write_data data) l (character data p).
Proof. intros Hs Hd Hn Hh. eapply (two_nibbles l pins p data true); eauto using nibble_data. Qed.

(** *** The cursor and the text *)

(** Rows that the driver addresses as the display has them: all of them with 20
    columns, the first two with 16. *)
Definition row_ok (cols row : Z) : Prop := (cols = 20 ∧ 1 ≤ row ≤ 4) ∨ (cols = 16 ∧ 1 ≤ row ≤ 2).
Lemma goto_runs l pins p cols row column : shows l pins p → ready p → row_ok cols row → 1 ≤ column ≤ cols + 1 →
  runs (LCD_goto row column) l (set_ac false (row_address cols row + column - 1) p).
Proof.
  intros Hs Hp Hrow Hc. assert (Hcol : u8 column = column) by (apply u8_small; destruct Hrow; lia).
  assert (Hi : ∀ a, 0 ≤ a < 128 → instruction (128 + a) p = set_ac false a p).
  { intros a Ha. unfold instruction. replace (Z.testbit (128 + a) 7) with true.
    - f_equal. replace (128 + a) with (a + 1 * 128) by lia. rewrite Z_mod_plus_full. by apply Z.mod_small.
    - symmetry. revert a Ha. by apply in_range. }
  assert (Hg : ∀ a b, a = 128 + b → 0 ≤ b < 128 → runs (write_inst (u8 a) 1) l (set_ac false b p)).
  { intros a b -> Hb. rewrite u8_small by lia. rewrite <-Hi by done. eapply inst_runs; eauto; try lia; apply Hp. }
  unfold LCD_goto. rewrite Hcol. unfold row_address.
  destruct (decide (row = 1)) as [->|]; [rewrite ?Z.eqb_refl; apply Hg; unfold LCD_LINE1; destruct Hrow; lia|].
  rewrite (proj2 (Z.eqb_neq row 1)) by done.
  destruct (decide (row = 2)) as [->|]; [rewrite ?Z.eqb_refl; apply Hg; unfold LCD_LINE2; destruct Hrow; lia|].
  rewrite (proj2 (Z.eqb_neq row 2)) by done. destruct Hrow as [[-> Hrow]|[-> Hrow]]; [|lia].
  destruct (decide (row = 3)) as [->|]; [rewrite ?Z.eqb_refl; apply Hg; unfold LCD_LINE3; lia|].
  rewrite (proj2 (Z.eqb_neq row 3)) by done. replace row with 4 by lia. rewrite ?Z.eqb_refl. apply Hg; unfold LCD_LINE4; lia.
Qed.

Lemma character_ready b p : ready p → (ac p ≠ 0x27 → ac p ≠ 0x67 → 0 ≤ ac p < 127 → ac (character b p) = ac p + 1) ∧
  ready (character b p) ∧ ddram (character b p) = upd (ddram p) (ac p) b.
Proof.
  intros [H1 H2 H3 H4 H5 H6 H7 H8]. unfold character. rewrite H4, H6. split_and!.
  - intros Ha Hb Hr. cbn. unfold next_address. rewrite H4, H3, H5. rewrite (proj2 (Z.eqb_neq _ 0x27)), (proj2 (Z.eqb_neq _ 0x67)) by done.
    apply Z.mod_small. lia.
  - by split.
  - done.
Qed.
Definition fits (a n : Z) : Prop := 0 ≤ a ∧ (a + n ≤ 0x28 ∨ 0x40 ≤ a ∧ a + n ≤ 0x68).
Definition shown_text (n : Z) (msg : cstr) : list Z := map code (take (Z.to_nat n) msg).
Lemma shown_length n msg : 0 ≤ n → Z.of_nat (length (shown_text n msg)) = Z.min n (strlen msg).
Proof. intros. unfold shown_text, strlen. rewrite length_map, length_take. lia. Qed.

Lemma print_loop_runs n ptr : ∀ i l pins p, shows l pins p → rest pins l → ready p → DISPLAY_TYPE l = n → 1 ≤ i ≤ n →
  ptr = [] ∨ fits (ac p) (Z.min (n - i + 1) (strlen ptr)) →
  ∃ q, runs (print_loop ptr i) l q ∧ ready q ∧ ddram q = place (ddram p) (ac p) (shown_text (n - i + 1) ptr).
Proof.
  induction ptr as [|c ptr IH]; intros i l pins p Hs Hre Hp Hn Hi Hf.
  { exists p. split_and!; [by eapply runs_ret|done|]. unfold shown_text. by rewrite take_nil. }
  destruct Hf as [|Hf]; [done|]. unfold strlen in Hf. cbn [length] in Hf.
  destruct (data_runs l pins p (code c) Hs (code_range c)) as (l1 & pins1 & Hr1 & Hs1 & Hq1 & Hre1); [apply Hp..|].
  destruct (character_ready (code c) p Hp) as (Hac & Hp1 & Hd1).
  assert (Hn1 : DISPLAY_TYPE l1 = n) by by rewrite (sa_type _ _ Hs1).
  assert (Hst : shown_text (n - i + 1) (c :: ptr) = code c :: shown_text (n - (i + 1) + 1) ptr).
  { unfold shown_text. replace (Z.to_nat (n - i + 1)) with (S (Z.to_nat (n - (i + 1) + 1))) by lia. done. }
  cbn [print_loop]. destruct (Z.gtb_spec (i + 1) n) as [Hgt|Hle].
  - exists (character (code c) p). split_and!; [|done|].
    + exists l1, pins1. split_and!; [|done..]. mstep Hr1. msimpl. rewrite Hn1. by destruct (Z.gtb_spec (i + 1) n); [|lia].
    + rewrite Hst, Hd1. unfold shown_text. replace (Z.to_nat (n - (i + 1) + 1)) with 0%nat by lia. done.
  - destruct (IH (i + 1) l1 pins1 (character (code c) p)) as (q & Hq & Hpq & Hdq); try done; [lia| |].
    { destruct ptr as [|c' ptr]; [by left|right]. unfold strlen, fits in *. cbn [length] in *. rewrite Hac; lia. }
    exists q. split_and!; [|done|].
    + destruct Hq as (l2 & pins2 & Hr2 & Hs2 & ? & ?). exists l2, pins2. split_and!; [|by eapply same_trans|done..].
      mstep Hr1. msimpl. rewrite Hn1. by destruct (Z.gtb_spec (i + 1) n); [lia|].
    + rewrite Hdq, Hst, Hd1. cbn [place]. destruct ptr as [|c' ptr]; [unfold shown_text; by rewrite take_nil|].
      rewrite Hac; [done|unfold strlen, fits in *; cbn [length] in *; lia..].
Qed.

(** A text on a row. *)
Lemma text_runs row column t l pins p : shows l pins p → rest pins l → ready p → row_ok (DISPLAY_TYPE l) row →
  1 ≤ column → column - 1 + Z.min (DISPLAY_TYPE l) (strlen t) ≤ DISPLAY_TYPE l →
  ∃ q, runs (LCD_goto row column;; print_lcd t) l q ∧ ready q ∧
    ddram q = place (ddram p) (row_address (DISPLAY_TYPE l) row + column - 1) (shown_text (DISPLAY_TYPE l) t).
Proof.
  intros Hs Hre Hp Hrow Hc Hlen. set (n := DISPLAY_TYPE l) in *. assert (0 ≤ strlen t) by (unfold strlen; lia).
  assert (0 < n) by (destruct Hrow; lia).
  destruct (goto_runs l pins p n row column) as (l1 & pins1 & Hr1 & Hs1 & Hq1 & Hre1); try done; [lia|].
  set (p1 := set_ac false (row_address n row + column - 1) p) in *.
  assert (Hp1 : ready p1) by (destruct Hp; by split).
  destruct (print_loop_runs n t 1 l1 pins1 p1) as (q & Hq & Hpq & Hdq); try done; [by rewrite (sa_type _ _ Hs1)|lia| |].
  { destruct t as [|c t]; [by left|right]. cbn. unfold fits, row_address. replace (n - 1 + 1) with n by lia.
    unfold strlen in *. cbn [length] in *. destruct (Z.eqb_spec row 1), (Z.eqb_spec row 2), (Z.eqb_spec row 3); destruct Hrow; lia. }
  exists q. split_and!; [|done|].
  - destruct Hq as (l2 & pins2 & Hr2 & Hs2 & ? & ?). exists l2, pins2. split_and!; [by mstep Hr1|by eapply same_trans|done..].
  - rewrite Hdq. cbn. by replace (n - 1 + 1) with n by lia.
Qed.

(** *** Starting, clearing, the backlight *)

Lemma high_run l pins p : shows l pins p → ∃ l', send 0xFF l = Done () l' ∧ same l l' ∧ shows l' 0xFF p.
Proof. intros Hs. apply (send_run l pins p); [done|done|]. cbn. by rewrite andb_false_r. Qed.

Lemma clear_runs l pins p : shows l pins p → ready p → ∃ q, runs (write_inst 1 1) l q ∧ ready q ∧ ddram q = (λ _, SPACE) ∧ ac q = 0.
Proof.
  intros Hs Hp. eexists. split; [by eapply inst_runs; [done| | |apply Hp..]|].
  destruct Hp. split_and!; [|done|done]. by split.
Qed.
Lemma init_runs l pins p : 0 ≤ float < 16 → shows l pins p → sane p →
  ∃ q, runs init_lcd l q ∧ ready q ∧ ddram q = (λ _, SPACE) ∧ ac q = 0.
Proof.
  intros Hf Hs Hp. set (l0 := set_io 0xFF l).
  destruct (high_run l0 pins p) as (l1 & Hr1 & Hs1 & Hq1); [by destruct Hs|].
  set (q3 := strobe float false 3 (strobe float false 3 (strobe float false 3 p))).
  destruct (strobe_sync float p Hf Hp) as [Hn3 Hh3]. fold q3 in Hn3, Hh3.
  set (r := strobe float false 2 q3). destruct (strobe_8bit float q3 2 Hf) as [Hnr Hhr]; [auto..|]. fold r in Hnr, Hhr.
  set (q := instruction 0x0C (instruction 0x06 (instruction 0x01 (instruction 0x08 (instruction 0x28 r))))).
  assert (Hrest : runs (write_inst 0x30 0;; write_inst 0x30 0;; write_inst 0x30 0;; write_inst 0x20 0;;
    write_inst 0x28 1;; write_inst 0x08 1;; write_inst 0x01 1;; write_inst 0x06 1;; write_inst 0x0C 1) l1 q).
  { do 3 (eapply runs_seq; [by eapply (half_inst_runs _ _ _ 0x30)|intros ? ? ? ? ?]).
    eapply runs_seq; [by eapply (half_inst_runs _ _ _ 0x20)|intros ? ? ? ? ?].
    do 4 (eapply runs_seq; [eapply inst_runs; [eassumption|done|done|exact Hnr || done|exact Hhr]|intros ? ? ? ? ?]).
    eapply inst_runs; [eassumption|done|done|done|exact Hhr]. }
  exists q. split_and!.
  - destruct Hrest as (l2 & pins2 & Hr2 & Hs2 & ? & ?). exists l2, pins2. split_and!; [|apply (same_trans _ l1); [destruct Hs1; by split|done]|done..].
    unfold init_lcd. msimpl. by mstep Hr1.
  - by split.
  - done.
  - done.
Qed.

Lemma light_run sts l pins p : shows l pins p → rest pins l → ∃ l' pins',
  set_back_light sts l = Done RPC_SRV_RESULT_SUCCESS l' ∧ shows l' pins' p ∧ rest pins' l' ∧ BkLight l' = sts ∧
  DISPLAY_TYPE l' = DISPLAY_TYPE l.
Proof.
  intros Hs [Hl _]. set (d := if negb sts then HI_NIBBLE 0 else Z.lor (HI_NIBBLE 0) LCD_BL).
  destruct (send_run (set_BkLight sts l) pins p d d p) as (l' & Hr & Hsa & Hq); [by destruct Hs|by destruct sts|cbn [feed]; by rewrite Hl|].
  exists l', d. unfold set_back_light. msimpl. split_and!; [by mstep Hr|done| |apply Hsa|apply Hsa].
  split; [by destruct sts|rewrite (sa_light _ _ Hsa); by destruct sts].
Qed.

(** *** Rows *)

Definition set_row (row : Z) (f : list Z → list Z) (rows : list (list Z)) : list (list Z) := alter f (Z.to_nat (row - 1)) rows.
Definition rows_of (n : Z) (p : panel) : list (list Z) := map (row_text p n) [1; 2; 3; 4].
Lemma rows_place n row k t p q : row_ok n row → 0 ≤ k → k + Z.of_nat (length t) ≤ n →
  ddram q = place (ddram p) (row_address n row + k) t → rows_of n q = set_row row (put k t) (rows_of n p).
Proof.
  intros Hrow Hk Ht Hd. unfold rows_of, row_text. rewrite Hd.
  assert (Hin : text_at (place (ddram p) (row_address n row + k) t) (row_address n row) n = put k t (text_at (ddram p) (row_address n row) n)).
  { rewrite text_at_place by lia. f_equal. lia. }
  assert (Hout : ∀ r, 1 ≤ r ≤ 4 → r ≠ row →
    text_at (place (ddram p) (row_address n row + k) t) (row_address n r) n = text_at (ddram p) (row_address n r) n).
  { intros r Hr Hne. apply text_at_other. unfold row_address.
    destruct (Z.eqb_spec row 1), (Z.eqb_spec row 2), (Z.eqb_spec row 3), (Z.eqb_spec r 1), (Z.eqb_spec r 2), (Z.eqb_spec r 3);
      destruct Hrow; lia. }
  cbn [map]. assert (Hr : row = 1 ∨ row = 2 ∨ row = 3 ∨ row = 4) by (destruct Hrow; lia).
  destruct Hr as [->|[->|[->| ->]]]; rewrite Hin, !Hout by lia; done.
Qed.
Lemma rows_blank n q : ddram q = (λ _, SPACE) → 0 ≤ n → rows_of n q = replicate 4 (replicate (Z.to_nat n) SPACE).
Proof.
  intros Hd Hn. assert (Ht : ∀ a, text_at (λ _, SPACE) a n = replicate (Z.to_nat n) SPACE).
  { intros a. symmetry. apply replicate_as_elem_of. split; [apply Nat2Z.inj; rewrite text_at_length; lia|].
    unfold text_at. intros c (? & -> & _)%list_elem_of_In%in_map_iff. done. }
  unfold rows_of, row_text. rewrite Hd. cbn [map]. by rewrite !Ht.
Qed.

(** ** The board: what the functions of DisplayDevice promise *)

Record board := Board { rows : list (list Z); light : bool }.
Inductive lcd_op := OpPrint (msg : cstr) (line : DISPLAY_LINE) (align : TEXT_ALIGNMENT) | OpClear | OpInit | OpLight (sts : bool) | OpGetLight.
Definition line_row (line : DISPLAY_LINE) : option Z :=
  match line with DISPLAY_LINE_1 => Some 1 | DISPLAY_LINE_2 => Some 2 | DISPLAY_LINE_3 => Some 3 | DISPLAY_LINE_4 => Some 4 | _ => None end.
Definition at_side (align : TEXT_ALIGNMENT) : bool := match align with TEXT_ALIGNMENT_LEFT | TEXT_ALIGNMENT_RIGHT => true | _ => false end.
(** A row after a text is printed on it; in the middle, sixteen characters are
    blanked first. *)
Definition printed (n : Z) (align : TEXT_ALIGNMENT) (t old : list Z) : list Z :=
  let len := Z.of_nat (length t) in
  match align with
  | TEXT_ALIGNMENT_LEFT => put 0 t old
  | TEXT_ALIGNMENT_RIGHT => put (n - len) t old
  | _ => put ((n - len) / 2) t (put 0 (replicate 16 SPACE) old)
  end.
Definition board_op (n : Z) (o : lcd_op) (b : board) : board :=
  let blank := replicate 4 (replicate (Z.to_nat n) SPACE) in
  match o with
  | OpPrint msg line align =>
      let t := shown_text n msg in
      match line_row line with
      | Some row => Board (set_row row (printed n align t) (rows b)) (light b)
      | None => if at_side align then Board (set_row 1 (printed n align t) (rows b)) (light b) else Board (set_row 1 (put 0 t) blank) (light b)
      end
  | OpClear | OpInit => Board blank (light b)
  | OpLight sts => Board (rows b) sts
  | OpGetLight => b
  end.
(** The lines the driver has an address for; the middle of a whole display is
    the start of its first row. *)
Definition good (n : Z) (o : lcd_op) : Prop :=
  match o with
  | OpPrint _ line align =>
      match line_row line with Some row => row_ok n row | None => at_side align = true ∨ line = DISPLAY_LINE_FULL end
  | _ => True
  end.

Definition do_op (o : lcd_op) : LM (RPC_SRV_RESULT * bool) :=
  match o with
  | OpPrint msg line align => r ← print_line msg line align; mret (r, true)
  | OpClear => r ← clear_display; mret (r, true)
  | OpInit => r ← init_display; mret (r, true)
  | OpLight sts => r ← set_back_light sts; mret (r, true)
  | OpGetLight => get_back_light
  end.
Definition board_answer (o : lcd_op) (b : board) : RPC_SRV_RESULT * bool :=
  (RPC_SRV_RESULT_SUCCESS, match o with OpGetLight => light b | _ => true end).

(** The display shows the board. *)
Record displays (n : Z) (l : I2CPcfLcd B) (b : board) : Prop := Displays {
  di_shows : ∃ pins p, shows l pins p ∧ rest pins l ∧ ready p ∧ rows b = rows_of n p;
  di_type : DISPLAY_TYPE l = n;
  di_light : light b = BkLight l
}.
Lemma displays_runs n l c q bd : displays n l bd → runs c l q → ready q →
  ∃ l', c l = Done () l' ∧ displays n l' (Board (rows_of n q) (light bd)).
Proof.
  intros [_ Ht Hl] (l' & pins' & Hr & Hs & Hq & Hre) Hq'. exists l'. split; [done|]. split; [by exists pins', q|..].
  - by rewrite (sa_type _ _ Hs).
  - cbn. by rewrite (sa_light _ _ Hs).
Qed.

(** A text on a row. *)
Lemma text_displays n l bd row column t : displays n l bd → row_ok n row → 1 ≤ column → column - 1 + Z.min n (strlen t) ≤ n →
  ∃ l', (LCD_goto row column;; print_lcd t) l = Done () l' ∧
    displays n l' (Board (set_row row (put (column - 1) (shown_text n t)) (rows bd)) (light bd)).
Proof.
  intros Hd Hrow Hc Ht. pose proof Hd as [(pins & p & Hs & Hre & Hp & Hrows) Hn Hl]. rewrite <-Hn in Hrow, Ht.
  destruct (text_runs row column t l pins p) as (q & Hq & Hpq & Hdq); [done..|]. rewrite Hn in *.
  destruct (displays_runs n l _ q bd Hd Hq Hpq) as (l' & Hr & Hd'). exists l'. split; [done|].
  erewrite (rows_place n row (column - 1) _ p q) in Hd'; [by rewrite Hrows|done|lia| |].
  - rewrite shown_length by (destruct Hrow; lia). lia.
  - rewrite Hdq. f_equal. lia.
Qed.

Definition width (n : Z) : Prop := n = 16 ∨ n = 20.
Lemma clear_displays n l bd : width n → displays n l bd → ∃ l' pins p,
  clear_display_internal DISPLAY_LINE_FULL l = Done () l' ∧ shows l' pins p ∧ rest pins l' ∧ ready p ∧ ddram p = (λ _, SPACE) ∧ ac p = 0 ∧
  displays n l' (Board (replicate 4 (replicate (Z.to_nat n) SPACE)) (light bd)).
Proof.
  intros Hw Hd. pose proof Hd as [(pins & p & Hs & Hre & Hp & Hrows) Hn Hl].
  destruct (clear_runs l pins p Hs Hp) as (q & (l' & pins' & Hr & Hsa & Hq & Hre') & Hpq & Hdq & Hac).
  exists l', pins', q. split_and!; try done. split; [|by rewrite (sa_type _ _ Hsa)|by cbn; rewrite (sa_light _ _ Hsa)].
  exists pins', q. split_and!; try done. cbn [rows]. symmetry. apply rows_blank; [done|destruct Hw; lia].
Qed.

Lemma center_displays n l bd msg line row : width n → displays n l bd → line_row line = Some row → row_ok n row →
  ∃ l', print_center line msg l = Done () l' ∧
    displays n l' (Board (set_row row (printed n TEXT_ALIGNMENT_CENTER (shown_text n msg)) (rows bd)) (light bd)).
Proof.
  intros Hw Hd Hline Hrow. unfold print_center. msimpl. rewrite (di_type _ _ _ Hd).
  set (len := if strlen msg >? n then n else strlen msg).
  assert (Hlen : len = Z.min n (strlen msg)) by (subst len; destruct (Z.gtb_spec (strlen msg) n); lia).
  assert (0 ≤ strlen msg) by (unfold strlen; lia). assert (0 ≤ len ≤ n) by (destruct Hw; lia).
  rewrite Z.quot_div_nonneg by lia. set (k := (n - len) / 2). assert (0 ≤ k ∧ 2 * k ≤ n - len) as [Hk Hk2].
  { unfold k. split; [apply Z.div_pos; lia|apply Z.mul_div_le; lia]. }
  destruct (text_displays n l bd row 1 Blank Hd Hrow) as (l1 & Hr1 & Hd1); [destruct Hw; lia|lia|].
  destruct (text_displays n l1 _ row (k + 1) msg Hd1 Hrow) as (l2 & Hr2 & Hd2); [destruct Hw; lia|lia|].
  exists l2. split.
  - assert (Hc : clear_display_internal line = (LCD_goto row 1;; print_lcd Blank)) by (destruct line; try done; by simplify_eq/=).
    rewrite Hc. mstep Hr1. destruct line; try done; cbn in Hline; injection Hline as <-; exact Hr2.
  - cbn [rows light] in Hd2. unfold printed. rewrite shown_length by lia. rewrite <-Hlen. fold k.
    assert (Hb : shown_text n Blank = replicate 16 SPACE) by by destruct Hw as [-> | ->].
    rewrite Hb in Hd2. unfold set_row in *. rewrite list_alter_alter_eq in Hd2. revert Hd2.
    replace (k + 1 - 1) with k by lia. done.
Qed.

Lemma full_displays n l bd msg : width n → displays n l bd →
  ∃ l', print_center DISPLAY_LINE_FULL msg l = Done () l' ∧
    displays n l' (Board (set_row 1 (put 0 (shown_text n msg)) (replicate 4 (replicate (Z.to_nat n) SPACE))) (light bd)).
Proof.
  intros Hw Hd. unfold print_center. msimpl.
  destruct (clear_displays n l bd Hw Hd) as (l1 & pins & p & Hr1 & Hs & Hre & Hp & Hdd & Hac & Hd1).
  pose proof (di_type _ _ _ Hd1) as Hn1.
  destruct (print_loop_runs n msg 1 l1 pins p) as (q & Hq & Hpq & Hdq); [done..|destruct Hw; lia| |].
  { right. rewrite Hac. unfold fits. destruct Hw; lia. }
  replace (n - 1 + 1) with n in Hdq by lia.
  destruct (displays_runs n l1 _ q _ Hd1 Hq Hpq) as (l2 & Hr2 & Hd2). exists l2. split; [mstep Hr1; msimpl; exact Hr2|].
  rewrite (rows_place n 1 0 (shown_text n msg) p q) in Hd2; [|destruct Hw; [right|left]; lia|done| |].
  - rewrite (rows_blank n p Hdd) in Hd2 by (destruct Hw; lia). done.
  - rewrite shown_length by (destruct Hw; lia). lia.
  - by rewrite Hdq, Hac.
Qed.

Definition myline (line : DISPLAY_LINE) : Z := default 1 (line_row line).
Lemma side_displays n l bd msg line align : width n → displays n l bd → at_side align = true → row_ok n (myline line) →
  ∃ l', print_line msg line align l = Done RPC_SRV_RESULT_SUCCESS l' ∧
    displays n l' (Board (set_row (myline line) (printed n align (shown_text n msg)) (rows bd)) (light bd)).
Proof.
  intros Hw Hd Ha Hrow. unfold print_line. msimpl. rewrite (di_type _ _ _ Hd).
  set (len := if strlen msg >? n then n else strlen msg).
  assert (Hlen : len = Z.min n (strlen msg)) by (subst len; destruct (Z.gtb_spec (strlen msg) n); lia).
  assert (0 ≤ strlen msg) by (unfold strlen; lia). assert (0 ≤ len ≤ n) by (destruct Hw; lia).
  replace (match line with DISPLAY_LINE_1 => 1 | DISPLAY_LINE_2 => 2 | DISPLAY_LINE_3 => 3 | DISPLAY_LINE_4 => 4 | _ => 1 end)
    with (myline line) by by destruct line.
  assert (Hlen' : Z.of_nat (length (shown_text n msg)) = len) by (rewrite shown_length by lia; lia).
  assert (Hside : ∀ col, 1 ≤ col → col - 1 + len ≤ n → ∃ l',
    ((LCD_goto (myline line) col;; print_lcd msg);; mret RPC_SRV_RESULT_SUCCESS) l = Done RPC_SRV_RESULT_SUCCESS l' ∧
    displays n l' (Board (set_row (myline line) (put (col - 1) (shown_text n msg)) (rows bd)) (light bd))).
  { intros col Hc Hm. destruct (text_displays n l bd (myline line) col msg Hd Hrow) as (l' & Hr & Hd'); [lia..|].
    exists l'. split; [by mstep Hr|done]. }
  unfold printed. rewrite Hlen'. destruct align; try done.
  - apply (Hside 1); lia.
  - destruct (Hside (n - len + 1)) as (l' & Hr & Hd'); [lia..|]. exists l'. split; [done|].
    by replace (n - len + 1 - 1) with (n - len) in Hd' by lia.
Qed.


Lemma print_displays n l bd msg line align : width n → good n (OpPrint msg line align) → displays n l bd →
  ∃ l', print_line msg line align l = Done RPC_SRV_RESULT_SUCCESS l' ∧ displays n l' (board_op n (OpPrint msg line align) bd).
Proof.
  intros Hw Hg Hd. destruct (at_side align) eqn:Ha.
  - assert (Hrow : row_ok n (myline line)).
    { unfold good, myline in *. destruct (line_row line); [done|]. cbn. destruct Hw; [right|left]; lia. }
    destruct (side_displays n l bd msg line align Hw Hd Ha Hrow) as (l' & Hr & Hd'). exists l'. split; [done|].
    unfold board_op, myline in *. rewrite Ha. by destruct (line_row line).
  - assert (Hc : ∃ l', print_center line msg l = Done () l' ∧ displays n l' (board_op n (OpPrint msg line align) bd)).
    { unfold good, board_op in *. rewrite Ha in *. destruct (line_row line) as [row|] eqn:Hline.
      - destruct (center_displays n l bd msg line row Hw Hd Hline Hg) as (l' & Hr & Hd'). exists l'. split; [done|]. by destruct align.
      - destruct Hg as [| ->]; [done|]. by apply full_displays. }
    destruct Hc as (l' & Hr & Hd'). exists l'. split; [|done]. unfold print_line. msimpl. destruct align; try done; by mstep Hr.
Qed.
Lemma op_displays n o l bd : 0 ≤ float < 16 → width n → good n o → displays n l bd →
  ∃ l', do_op o l = Done (board_answer o bd) l' ∧ displays n l' (board_op n o bd).
Proof.
  intros Hf Hw Hg Hd. pose proof Hd as [(pins & p & Hs & Hre & Hp & Hrows) Hn Hl]. destruct o as [msg line align| | |sts|]; cbn [do_op].
  - destruct (print_displays n l bd msg line align Hw Hg Hd) as (l' & Hr & Hd'). exists l'. split; [by mstep Hr|done].
  - destruct (clear_displays n l bd Hw Hd) as (l' & pins' & q & Hr & _ & _ & _ & _ & _ & Hd'). exists l'. split; [|done].
    unfold clear_display. rewrite (bind_done _ _ _ RPC_SRV_RESULT_SUCCESS l'); [done|]. by mstep Hr.
  - destruct (init_runs l pins p) as (q & Hq & Hpq & Hdq & _); [done..|by unfold sane; rewrite (re_half _ Hp)|].
    destruct (displays_runs n l _ q bd Hd Hq Hpq) as (l' & Hr & Hd'). exists l'. split.
    + unfold init_display. rewrite (bind_done _ _ _ RPC_SRV_RESULT_SUCCESS l'); [done|]. by mstep Hr.
    + by rewrite (rows_blank n q Hdq) in Hd' by (destruct Hw; lia).
  - destruct (light_run sts l pins p Hs Hre) as (l' & pins' & Hr & Hs' & Hre' & Hsts & Ht). exists l'. split; [by mstep Hr|].
    split; [by exists pins', p|congruence|done].
  - exists l. split; [|done]. unfold get_back_light. msimpl. unfold board_answer. by rewrite Hl.
Qed.

(** *** From the constructor on *)

(** The address at which the constructor finds the display. *)
Definition found_at (b : B) (a : Z) : Prop := (a = 0x3F ∧ answers b a) ∨ (a = 0x27 ∧ silent b 0x3F ∧ answers b a).

Lemma find_type_width ty : width (columns (find_type ty)).
Proof. unfold columns. destruct (find_type ty); (by left) || (by right). Qed.

(** The part of [construct] before the display is initialised. *)
Lemma probe_run b n t a pins p : found_at b a → feeds float (sent a (wire b)) x0 = Some (pins, p) → ∃ b' pins',
  construct (MkLcd true n t 0 0 b) = (init_lcd;; LCD_goto 1 1) (MkLcd true n t 0xFF a b') ∧
  shows (MkLcd true n t 0xFF a b') pins' p.
Proof.
  intros Ha Hx. unfold construct. msimpl.
  change (LCD_PCF_ADDRESS (set_ADDRESS (Z.shiftr 126 1) (set_io 255 (MkLcd true n t 0 0 b)))) with 0x3F.
  set (l1 := set_ADDRESS (Z.shiftr 126 1) (set_io 255 (MkLcd true n t 0 0 b))).
  destruct Ha as [[-> Ha]|(-> & Hs & Ha)].
  - destruct (bus_write_ok b 0x3F 0xFF Ha) as (b' & Hw & Hwire & Hans & _); [done..|].
    exists b', 0xFF. assert (H1 : write_byte 0x3F 0xFF l1 = Done RPC_SRV_RESULT_SUCCESS (set_bus b' l1)) by by apply zoom_done.
    mstep H1. rewrite decide_True by done. msimpl. split; [done|]. split; [by apply Hans|done|].
    unfold screen. cbn. rewrite Hwire, sent_snoc, decide_True by done. unfold feeds in *. rewrite foldl_app, Hx. cbn. by rewrite andb_false_r.
  - destruct (bus_write_silent b 0x3F 0xFF Hs) as (r & b' & Hw & Hr & Hwire & Hans & _); [done..|].
    exists b', pins. assert (H1 : write_byte 0x3F 0xFF l1 = Done r (set_bus b' l1)) by by apply zoom_done.
    mstep H1. rewrite decide_False by done. msimpl. split; [done|]. split; [by apply Hans|done|].
    unfold screen. cbn. by rewrite Hwire.
Qed.

Lemma new_displays b ty a pins p : 0 ≤ float < 16 → found_at b a → feeds float (sent a (wire b)) x0 = Some (pins, p) → sane p →
  let n := columns (find_type ty) in
  ∃ l, I2CPcfLcd_new b ty = Done () l ∧ displays n l (Board (replicate 4 (replicate (Z.to_nat n) SPACE)) true).
Proof.
  intros Hf Ha Hx Hp n. destruct (probe_run b n (find_type ty) a pins p Ha Hx) as (b' & pins' & Hc & Hs).
  destruct (init_runs _ _ _ Hf Hs Hp) as (q & (l1 & pins1 & Hr1 & Hs1 & Hq1 & Hre1) & Hpq & Hdq & _).
  pose proof (find_type_width ty) as Hw. fold n in Hw.
  destruct (goto_runs l1 pins1 q n 1 1 Hq1 Hpq) as (l2 & pins2 & Hr2 & Hs2 & Hq2 & Hre2); [destruct Hw; [right|left]; lia|destruct Hw; lia|].
  exists l2. split.
  - unfold I2CPcfLcd_new. fold n. rewrite Hc. by mstep Hr1.
  - split; [|by rewrite (sa_type _ _ Hs2), (sa_type _ _ Hs1)|by rewrite (sa_light _ _ Hs2), (sa_light _ _ Hs1)].
    eexists pins2, _. split_and!; [done|done|destruct Hpq; by split|]. symmetry. apply rows_blank; [done|destruct Hw; lia].
Qed.

Fixpoint do_ops (os : list lcd_op) : LM (list (RPC_SRV_RESULT * bool)) :=
  match os with [] => mret [] | o :: os => a ← do_op o; rs ← do_ops os; mret (a :: rs) end.
Fixpoint board_ops (n : Z) (os : list lcd_op) (b : board) : list (RPC_SRV_RESULT * bool) * board :=
  match os with
  | [] => ([], b)
  | o :: os => let '(rs, b') := board_ops n os (board_op n o b) in (board_answer o b :: rs, b')
  end.

(** C34: The display is a board.  Whatever the display was in the middle of, once
    the driver has found it, any calls of the functions of DisplayDevice succeed,
    answer what the board answers, and leave the display with the rows and the
    backlight of the board; with 16 columns this holds for the first two rows,
    with 20 for all four. *)
Theorem display_is_a_board b ty a pins p os : 0 ≤ float < 16 → found_at b a → feeds float (sent a (wire b)) x0 = Some (pins, p) → sane p →
  let n := columns (find_type ty) in let '(rs, bd) := board_ops n os (Board (replicate 4 (replicate (Z.to_nat n) SPACE)) true) in
  Forall (good n) os →
  ∃ l l' pins' p', I2CPcfLcd_new b ty = Done () l ∧ do_ops os l = Done rs l' ∧
    screen l' = Some (pins', p') ∧ ready p' ∧ map (row_text p' n) [1; 2; 3; 4] = rows bd ∧ backlight pins' = light bd.
Proof.
  intros Hf Ha Hx Hp n. destruct (board_ops n os _) as [rs bd] eqn:Hops. intros Hgood.
  destruct (new_displays b ty a pins p Hf Ha Hx Hp) as (l & Hnew & Hd). fold n in Hd. exists l.
  assert (Hall : ∃ l', do_ops os l = Done rs l' ∧ displays n l' bd).
  { clear Hnew. revert Hops Hd. generalize (Board (replicate 4 (replicate (Z.to_nat n) SPACE)) true). revert l rs bd.
    induction Hgood as [|o os Hg _ IH]; intros l rs bd b0 Hops Hd; cbn in Hops; [injection Hops as <- <-; by exists l|].
    destruct (board_ops n os (board_op n o b0)) as [rs' b'] eqn:Ho. injection Hops as <- <-.
    destruct (op_displays n o l b0 Hf (find_type_width ty) Hg Hd) as (l1 & Hr1 & Hd1).
    destruct (IH l1 rs' b' _ Ho Hd1) as (l2 & Hr2 & Hd2). exists l2. split; [|done]. cbn [do_ops]. mstep Hr1. by mstep Hr2. }
  destruct Hall as (l' & Hr & [(pins' & p' & [_ _ Hs] & [_ Hbl] & Hpr & Hrows) _ Hl]). exists l', pins', p'.
  split_and!; try done. unfold backlight. congruence.
Qed.
End proofs.

(** ** On a bus of the kernel *)

(** A device node whose devices all answer; the display is in the middle of a
    byte, shifted and full of letters. *)
Definition demo_kernel : Kernel :=
  MkKernel 32 (λ _, true) (λ _, (3, 0)) (λ _ _, true) (λ _ _ _, 0) (λ _ _ _, (0, 0)) (λ _ _ n, (n, []))
    (λ _ _ l, Z.of_nat (length l)) (λ _ _ _, (RPC_SRV_RESULT_SUCCESS, [])) (λ _ _ _ _, RPC_SRV_RESULT_SUCCESS).
#[local] Existing Instance demo_kernel.
Definition demo_bus : I2CBusAccess := I2CBusAccess_new 0 (str "/dev/i2c-0").
Definition demo_panel : panel := Panel true (Some 7) false (λ _, 65) true 12 false true false 3.
Definition demo_x0 : option (Z * panel) := Some (0, demo_panel).
Definition demo_rows (ty : string) (n : Z) (os : list lcd_op) : option (list string) :=
  match I2CPcfLcd_new demo_bus ty with
  | Done _ l =>
      match do_ops os l with
      | Done _ l' => (λ x, map (λ r, string_of_list_ascii (map char (row_text x.2 n r))) [1; 2; 3; 4]) <$> screen 5 demo_x0 l'
      | _ => None
      end
  | _ => None
  end.

Definition demo_ops : list lcd_op :=
  [OpPrint (str "hello") DISPLAY_LINE_1 TEXT_ALIGNMENT_CENTER; OpLight false; OpPrint (str "left") DISPLAY_LINE_2 TEXT_ALIGNMENT_LEFT;
   OpPrint (str "right") DISPLAY_LINE_2 TEXT_ALIGNMENT_RIGHT; OpGetLight].
Example demo_shows : demo_rows "1602_pcf" 16 demo_ops = Some ["     hello      "; "left       right"; "                "; "                "].
Proof. vm_compute. done. Qed.

(** On a display of four rows with 16 columns the third row does not begin at the
    address the driver takes. *)
Example line3_of_1604 : demo_rows "1604_pcf" 16 [OpPrint (str "0123456789abcdef") DISPLAY_LINE_3 TEXT_ALIGNMENT_LEFT] =
  Some ["                "; "                "; "    0123456789ab"; "                "].
Proof. vm_compute. done. Qed.

(** Only sixteen columns are blanked before a text is centred. *)
Example old_text_stays : demo_rows "2002_pcf" 20 [OpPrint (str "01234567890123456789") DISPLAY_LINE_1 TEXT_ALIGNMENT_CENTER;
    OpPrint (str "new") DISPLAY_LINE_1 TEXT_ALIGNMENT_CENTER] =
  Some ["        new     6789"; "                    "; "                    "; "                    "].
Proof. vm_compute. done. Qed.

Lemma demo_found : found_at demo_bus 0x3F.
Proof. left. split; [done|]. split; [done|]. by split. Qed.

Lemma display_is_a_board_witness : ∃ l l' pins' p', I2CPcfLcd_new demo_bus "1602_pcf" = Done () l ∧
  do_ops demo_ops l = Done [(RPC_SRV_RESULT_SUCCESS, true); (RPC_SRV_RESULT_SUCCESS, true); (RPC_SRV_RESULT_SUCCESS, true);
    (RPC_SRV_RESULT_SUCCESS, true); (RPC_SRV_RESULT_SUCCESS, false)] l' ∧
  screen 5 demo_x0 l' = Some (pins', p') ∧ ready p' ∧
  map (row_text p' 16) [1; 2; 3; 4] = rows (board_ops 16 demo_ops (Board (replicate 4 (replicate 16 SPACE)) true)).2 ∧ backlight pins' = false.
Proof.
  apply (display_is_a_board 5 demo_x0 demo_bus "1602_pcf" 0x3F 0 demo_panel demo_ops); [lia|exact demo_found|done|by vm_compute|].
  unfold demo_ops. repeat apply List.Forall_cons; try apply List.Forall_nil; try done; right; vm_compute; done.
Defined.
