(* ===== verification/EvntMgr.v ===== *)
(** * Events between the services

    The class ADEvntMgr of lib-adav ([ADEvntMgr.cpp], [ADEvntMgr.hpp]), which
    every service has, with the calls of ADJsonRpcMgr that reach it and the class
    ADEvntNotifier.  A service subscribes to the events of another; the other
    sends each event to all who have, on a thread of its own, and forgets those
    that do not listen any more; the receiver hands the events on to its own
    objects, on another thread.

    The subscriptions are objects on the heap, the list has their addresses.  An
    address is not used again after it is freed, so that a stale one is noticed. *)

From Stdlib Require Import ZArith Lia Ascii String.
From stdpp Require Import base list gmap strings.
From S2P Require Import Prelude CString RpcResult.

(** ** Data *)

Record EventEntry := MkEntry {
  cltToken : Z;
  portNum : Z;
  eventNum : Z;
  srvToken : Z;
  sock_descr : Z;
  sock_id : Z;
  ip : cstr;
  deleteFlag : bool
}.
#[export] Instance EventEntry_eq_dec : EqDecision EventEntry.
Proof. solve_decision. Defined.
Definition set_srvToken v e := MkEntry (cltToken e) (portNum e) (eventNum e) v (sock_descr e) (sock_id e) (ip e) (deleteFlag e).
Definition set_deleteFlag v e := MkEntry (cltToken e) (portNum e) (eventNum e) (srvToken e) (sock_descr e) (sock_id e) (ip e) v.

Record EventProcEntry := MkProc { p_eventNum : Z; p_eventArg : Z; p_cltToken : Z; p_eventArg2 : Z }.

(** The packet of the event calls, [RPCMGR_EVENT_PACKET]. *)
Record RPCMGR_EVENT_PACKET := MkPacket {
  k_cltToken : Z; k_portNum : Z; k_eventNum : Z; k_srvToken : Z; k_sock_descr : Z; k_sock_id : Z; k_ip : cstr;
  k_eventArg : Z; k_eventArg2 : Z
}.

(** The predicates on entries. *)
Definition RemoveEventEntry (srv_token : Z) (e : EventEntry) : bool := srv_token =? srvToken e.
Definition RemoveNonListenerEntry (e : EventEntry) : bool := deleteFlag e.
Definition FindEventEntry (srv_token : Z) (e : EventEntry) : bool := srv_token =? srvToken e.
Definition FindDuplicateEntry (my e : EventEntry) : bool :=
  if negb (cltToken my =? cltToken e) then false
  else if negb (portNum my =? portNum e) then false
  else if negb (eventNum my =? eventNum e) then false else true.

(** An attempt to send: whom it is for, and what was sent if there was a
    connection. *)
Record attempt := MkAttempt { a_ip : cstr; a_port : Z; a_sent : option (Z * Z * Z * Z) }.

(** The object, the semaphores of its two threads, the heap, what was sent and
    what its consumers were given. *)
Record ADEvntMgr := MkMgr {
  AckToken : Z;
  eventList : list Z;
  heap : gmap Z EventEntry;
  next : Z;
  notifyEvent : list EventProcEntry;
  processEvent : list EventProcEntry;
  notify_sema : Z;
  process_sema : Z;
  outbox : list attempt;
  inbox : list (Z * Z * Z * Z)
}.
Definition set_AckToken v m := MkMgr v (eventList m) (heap m) (next m) (notifyEvent m) (processEvent m) (notify_sema m) (process_sema m) (outbox m) (inbox m).
Definition set_eventList v m := MkMgr (AckToken m) v (heap m) (next m) (notifyEvent m) (processEvent m) (notify_sema m) (process_sema m) (outbox m) (inbox m).
Definition set_heap v m := MkMgr (AckToken m) (eventList m) v (next m) (notifyEvent m) (processEvent m) (notify_sema m) (process_sema m) (outbox m) (inbox m).
Definition set_next v m := MkMgr (AckToken m) (eventList m) (heap m) v (notifyEvent m) (processEvent m) (notify_sema m) (process_sema m) (outbox m) (inbox m).
Definition set_notifyEvent v m := MkMgr (AckToken m) (eventList m) (heap m) (next m) v (processEvent m) (notify_sema m) (process_sema m) (outbox m) (inbox m).
Definition set_processEvent v m := MkMgr (AckToken m) (eventList m) (heap m) (next m) (notifyEvent m) v (notify_sema m) (process_sema m) (outbox m) (inbox m).
Definition set_notify_sema v m := MkMgr (AckToken m) (eventList m) (heap m) (next m) (notifyEvent m) (processEvent m) v (process_sema m) (outbox m) (inbox m).
Definition set_process_sema v m := MkMgr (AckToken m) (eventList m) (heap m) (next m) (notifyEvent m) (processEvent m) (notify_sema m) v (outbox m) (inbox m).
Definition set_outbox v m := MkMgr (AckToken m) (eventList m) (heap m) (next m) (notifyEvent m) (processEvent m) (notify_sema m) (process_sema m) v (inbox m).
Definition set_inbox v m := MkMgr (AckToken m) (eventList m) (heap m) (next m) (notifyEvent m) (processEvent m) (notify_sema m) (process_sema m) (outbox m) v.

Definition ADEvntMgr_new : ADEvntMgr := MkMgr 0 [] ∅ 1 [] [] 0 0 [] [].
Abbreviation EM := (M ADEvntMgr).

(** ** The heap and the vector *)
Definition deref (p : Z) : EM EventEntry := h ← gets heap; of_opt (h !! p).
Definition store (p : Z) (e : EventEntry) : EM unit := deref p;; modify (λ m, set_heap (<[p := e]> (heap m)) m).
Definition new_entry (e : EventEntry) : EM Z :=
  p ← gets next; modify (λ m, set_next (p + 1) (set_heap (<[p := e]> (heap m)) m));; mret p.
Definition delete_entry (p : Z) : EM unit := deref p;; modify (λ m, set_heap (delete p (heap m)) m).

(** [find_if(…) == eventList.end()], and [erase(remove_if(…), …)] with a
    predicate that deletes what it finds. *)
Fixpoint find_loop (f : EventEntry → bool) (l : list Z) : EM bool :=
  match l with
  | [] => mret false
  | p :: l => e ← deref p; if f e then mret true else find_loop f l
  end.
Fixpoint remove_loop (f : EventEntry → bool) (l : list Z) : EM (list Z) :=
  match l with
  | [] => mret []
  | p :: l => e ← deref p; if f e then delete_entry p;; remove_loop f l else l' ← remove_loop f l; mret (p :: l')
  end.
Definition erase_if (f : EventEntry → bool) : EM unit :=
  l ← gets eventList; l' ← remove_loop f l; modify (set_eventList l').

(** ** Subscriptions *)
Definition register_event_subscription (pEvent : Z) : EM (Z * option Z) :=
  my ← deref pEvent;
  l ← gets eventList;
  dup ← find_loop (FindDuplicateEntry my) l;
  if negb dup then
    modify (λ m, set_AckToken (int32 (AckToken m + 1)) m);;
    t ← gets AckToken;
    store pEvent (set_srvToken t my);;
    modify (λ m, set_eventList (eventList m ++ [pEvent]) m);;
    mret (0, Some t)
  else mret (-1, None).
Definition unregister_event_subscription (srv_token : Z) : EM Z :=
  l ← gets eventList;
  found ← find_loop (FindEventEntry srv_token) l;
  if negb found then mret (-1) else erase_if (RemoveEventEntry srv_token);; mret 0.

(** ** Sending *)
Section net.
(** Whether a subscriber can be reached, after what was sent before. *)
Context (listens : list attempt → cstr → Z → bool).

(** The two halves of [send_event]: up to the connection, and after it. *)
Definition send_connect (pEvent : Z) : EM bool :=
  e ← deref pEvent;
  h ← gets outbox;
  if listens h (ip e) (portNum e) then mret true
  else modify (λ m, set_outbox (outbox m ++ [MkAttempt (ip e) (portNum e) None]) m);; mret false.
Definition send_call (pEvent event_num event_arg event_arg2 : Z) : EM unit :=
  e ← deref pEvent;
  modify (λ m, set_outbox (outbox m ++ [MkAttempt (ip e) (portNum e) (Some (cltToken e, event_num, event_arg, event_arg2))]) m).
Definition send_event (pEvent event_num event_arg event_arg2 : Z) : EM Z :=
  ok ← send_connect pEvent;
  if ok : bool then send_call pEvent event_num event_arg event_arg2;; mret 0 else mret (-1).

(** [eventList[i]] *)
Definition entry_at (i : nat) : EM Z := l ← gets eventList; of_opt (l !! i).
Definition mark (i : nat) : EM unit := p ← entry_at i; e ← deref p; store p (set_deleteFlag true e).
Definition wants (e : EventEntry) (entry : EventProcEntry) : bool := (eventNum e =? -1) || (eventNum e =? p_eventNum entry).
Definition notify_one (entry : EventProcEntry) (i : nat) : EM unit :=
  p ← entry_at i;
  e ← deref p;
  if wants e entry then
    r ← send_event p (p_eventNum entry) (p_eventArg entry) (p_eventArg2 entry);
    if r =? -1 then mark i else mret ()
  else mret ().
(** The loop looks at the size again each time; nothing in it makes the vector
    longer. *)
Fixpoint notify_loop (fuel : nat) (entry : EventProcEntry) (i : nat) : EM unit :=
  l ← gets eventList;
  if decide (i < length l)%nat then
    match fuel with O => out_of_fuel | S fuel => notify_one entry i;; notify_loop fuel entry (S i) end
  else mret ().
Definition notify_round (entry : EventProcEntry) : EM unit :=
  l ← gets eventList;
  notify_loop (length l) entry 0;;
  erase_if RemoveNonListenerEntry;;
  modify (λ m, set_notifyEvent (drop 1 (notifyEvent m)) m).
(** [monoshot_callback_function] on the two threads. *)
Fixpoint notify_queue (fuel : nat) : EM unit :=
  q ← gets notifyEvent;
  match q with
  | [] => mret ()
  | entry :: _ => match fuel with O => out_of_fuel | S fuel => notify_round entry;; notify_queue fuel end
  end.
Definition notify_callback : EM unit := q ← gets notifyEvent; notify_queue (length q).

(** [notify_subscribers] of the producer: one call for each attached consumer. *)
Context (consumers : nat).
Definition notify_subscribers (e : EventProcEntry) : EM unit :=
  modify (λ m, set_inbox (inbox m ++ replicate consumers (p_cltToken e, p_eventNum e, p_eventArg e, p_eventArg2 e)) m).
Fixpoint process_queue (fuel : nat) : EM unit :=
  q ← gets processEvent;
  match q with
  | [] => mret ()
  | entry :: _ =>
      match fuel with
      | O => out_of_fuel
      | S fuel => notify_subscribers entry;; modify (λ m, set_processEvent (drop 1 (processEvent m)) m);; process_queue fuel
      end
  end.
Definition process_callback : EM unit := q ← gets processEvent; process_queue (length q).

(** The threads: [sem_wait], then the callback. *)
Definition notify_thread : EM unit :=
  n ← gets notify_sema; if n =? 0 then blocked else modify (λ m, set_notify_sema (notify_sema m - 1) m);; notify_callback.
Definition process_thread : EM unit :=
  n ← gets process_sema; if n =? 0 then blocked else modify (λ m, set_process_sema (process_sema m - 1) m);; process_callback.

Definition notify_event (eventNum eventArg eventArg2 : Z) : EM Z :=
  modify (λ m, set_notifyEvent (notifyEvent m ++ [MkProc eventNum eventArg 0 eventArg2]) m);;
  modify (λ m, set_notify_sema (notify_sema m + 1) m);;
  mret 0.
Definition process_event (event_num event_arg clt_token event_arg2 : Z) : EM Z :=
  modify (λ m, set_processEvent (processEvent m ++ [MkProc event_num event_arg clt_token event_arg2]) m);;
  modify (λ m, set_process_sema (process_sema m + 1) m);;
  mret 0.

(** ** The calls of ADJsonRpcMgr *)

(** The result, and the token on success. *)
Definition process_event_subscribe (k : RPCMGR_EVENT_PACKET) : EM (RPC_SRV_RESULT * option Z) :=
  pEvent ← new_entry (MkEntry (k_cltToken k) (k_portNum k) (k_eventNum k) 0 (k_sock_descr k) (k_sock_id k) (k_ip k) false);
  '(res, t) ← register_event_subscription pEvent;
  if res =? 0 then mret (RPC_SRV_RESULT_SUCCESS, t)
  else if res =? -1 then delete_entry pEvent;; mret (RPC_SRV_RESULT_ITEM_DUPLICATE_FOUND, t)
  else delete_entry pEvent;; mret (RPC_SRV_RESULT_FAIL, t).
Definition process_event_unsubscribe (k : RPCMGR_EVENT_PACKET) : EM RPC_SRV_RESULT :=
  res ← unregister_event_subscription (k_srvToken k);
  mret (if res =? 0 then RPC_SRV_RESULT_SUCCESS else if res =? -1 then RPC_SRV_RESULT_ITEM_NOT_FOUND else RPC_SRV_RESULT_FAIL).
Definition process_event_notify (k : RPCMGR_EVENT_PACKET) : EM RPC_SRV_RESULT :=
  res ← notify_event (k_eventNum k) (k_eventArg k) (k_eventArg2 k);
  mret (if res =? 0 then RPC_SRV_RESULT_SUCCESS else RPC_SRV_RESULT_FAIL).
Definition process_event_process (k : RPCMGR_EVENT_PACKET) : EM RPC_SRV_RESULT :=
  process_event (k_eventNum k) (k_eventArg k) (k_cltToken k) (k_eventArg2 k);; mret RPC_SRV_RESULT_SUCCESS.

(** [ADEvntMgr::~ADEvntMgr], once the threads have stopped. *)
Fixpoint delete_loop (l : list Z) : EM unit := match l with [] => mret () | p :: l => delete_entry p;; delete_loop l end.
Definition ADEvntMgr_delete : EM unit := l ← gets eventList; delete_loop l.
End net.

(** ** The promise: a hub without pointers *)

Record hub := Hub {
  last_token : Z;
  subs : list EventEntry;
  to_send : list EventProcEntry;
  to_give : list EventProcEntry;
  send_wakes : Z;
  give_wakes : Z;
  mails : list attempt;
  given : list (Z * Z * Z * Z)
}.
Definition hub_new : hub := Hub 0 [] [] [] 0 0 [] [].

Inductive op :=
| OpSubscribe (k : RPCMGR_EVENT_PACKET) | OpUnsubscribe (k : RPCMGR_EVENT_PACKET) | OpNotify (k : RPCMGR_EVENT_PACKET)
| OpProcess (k : RPCMGR_EVENT_PACKET) | OpNotifyThread | OpProcessThread.
Inductive answer := AnsToken (r : RPC_SRV_RESULT) (t : option Z) | AnsResult (r : RPC_SRV_RESULT) | AnsThread.

Definition entry_of (k : RPCMGR_EVENT_PACKET) (t : Z) : EventEntry :=
  MkEntry (k_cltToken k) (k_portNum k) (k_eventNum k) t (k_sock_descr k) (k_sock_id k) (k_ip k) false.

Section hub.
Context (listens : list attempt → cstr → Z → bool) (consumers : nat).

(** Every subscriber that wants the event is tried once, in the order of the
    subscriptions; who cannot be reached is dropped. *)
Fixpoint deliver (entry : EventProcEntry) (l : list EventEntry) (h : list attempt) : list EventEntry * list attempt :=
  match l with
  | [] => ([], h)
  | e :: l =>
      if wants e entry then
        if listens h (ip e) (portNum e) then
          let '(l', h') := deliver entry l
            (h ++ [MkAttempt (ip e) (portNum e) (Some (cltToken e, p_eventNum entry, p_eventArg entry, p_eventArg2 entry))]) in (e :: l', h')
        else deliver entry l (h ++ [MkAttempt (ip e) (portNum e) None])
      else let '(l', h') := deliver entry l h in (e :: l', h')
  end.
Fixpoint deliver_all (q : list EventProcEntry) (l : list EventEntry) (h : list attempt) : list EventEntry * list attempt :=
  match q with [] => (l, h) | entry :: q => let '(l', h') := deliver entry l h in deliver_all q l' h' end.
Definition gift (e : EventProcEntry) : Z * Z * Z * Z := (p_cltToken e, p_eventNum e, p_eventArg e, p_eventArg2 e).

Definition hub_op (o : op) (b : hub) : answer * hub :=
  match o with
  | OpSubscribe k =>
      if existsb (FindDuplicateEntry (entry_of k 0)) (subs b) then (AnsToken RPC_SRV_RESULT_ITEM_DUPLICATE_FOUND None, b)
      else
        let t := int32 (last_token b + 1) in
        (AnsToken RPC_SRV_RESULT_SUCCESS (Some t),
         Hub t (subs b ++ [entry_of k t]) (to_send b) (to_give b) (send_wakes b) (give_wakes b) (mails b) (given b))
  | OpUnsubscribe k =>
      if existsb (FindEventEntry (k_srvToken k)) (subs b) then
        (AnsResult RPC_SRV_RESULT_SUCCESS,
         Hub (last_token b) (List.filter (λ e, negb (FindEventEntry (k_srvToken k) e)) (subs b)) (to_send b) (to_give b) (send_wakes b) (give_wakes b) (mails b) (given b))
      else (AnsResult RPC_SRV_RESULT_ITEM_NOT_FOUND, b)
  | OpNotify k =>
      (AnsResult RPC_SRV_RESULT_SUCCESS,
       Hub (last_token b) (subs b) (to_send b ++ [MkProc (k_eventNum k) (k_eventArg k) 0 (k_eventArg2 k)]) (to_give b) (send_wakes b + 1) (give_wakes b) (mails b) (given b))
  | OpProcess k =>
      (AnsResult RPC_SRV_RESULT_SUCCESS,
       Hub (last_token b) (subs b) (to_send b) (to_give b ++ [MkProc (k_eventNum k) (k_eventArg k) (k_cltToken k) (k_eventArg2 k)]) (send_wakes b) (give_wakes b + 1) (mails b) (given b))
  | OpNotifyThread =>
      if send_wakes b =? 0 then (AnsThread, b)
      else
        let '(l, h) := deliver_all (to_send b) (subs b) (mails b) in
        (AnsThread, Hub (last_token b) l [] (to_give b) (send_wakes b - 1) (give_wakes b) h (given b))
  | OpProcessThread =>
      if give_wakes b =? 0 then (AnsThread, b)
      else (AnsThread, Hub (last_token b) (subs b) (to_send b) [] (send_wakes b) (give_wakes b - 1) (mails b)
              (given b ++ concat (map (λ e, replicate consumers (gift e)) (to_give b))))
  end.
Fixpoint hub_ops (os : list op) (b : hub) : list answer * hub :=
  match os with
  | [] => ([], b)
  | o :: os => let '(a, b1) := hub_op o b in let '(l, b2) := hub_ops os b1 in (a :: l, b2)
  end.

(** The code: a thread that waits for its semaphore does nothing. *)
Definition unless_blocked (c : EM unit) : EM answer := λ m, match c m with Blocked => Done AnsThread m | _ => (c;; mret AnsThread) m end.
Definition do_op (o : op) : EM answer :=
  match o with
  | OpSubscribe k => '(r, t) ← process_event_subscribe k; mret (AnsToken r t)
  | OpUnsubscribe k => r ← process_event_unsubscribe k; mret (AnsResult r)
  | OpNotify k => r ← process_event_notify k; mret (AnsResult r)
  | OpProcess k => r ← process_event_process k; mret (AnsResult r)
  | OpNotifyThread => unless_blocked (notify_thread listens)
  | OpProcessThread => unless_blocked (process_thread consumers)
  end.
Fixpoint do_ops (os : list op) : EM (list answer) :=
  match os with [] => mret [] | o :: os => a ← do_op o; l ← do_ops os; mret (a :: l) end.

(** ** The code keeps the promise *)

(** The vector points to the entries, one address each, and to nothing else. *)
Record holds (h : gmap Z EventEntry) (l : list Z) (es : list EventEntry) : Prop := Holds {
  ho_nodup : NoDup l;
  ho_entries : Forall2 (λ p e, h !! p = Some e) l es;
  ho_only : ∀ p, p ∉ l → h !! p = None
}.

Lemma entries_same (h h' : gmap Z EventEntry) l es : Forall2 (λ p e, h !! p = Some e) l es → (∀ p, p ∈ l → h' !! p = h !! p) →
  Forall2 (λ p e, h' !! p = Some e) l es.
Proof.
  induction 1 as [|p e l es Hp _ IH]; intros Hs; constructor; [rewrite Hs; [done|by left]|apply IH; intros; apply Hs; by right].
Qed.
Lemma deref_run p e m : heap m !! p = Some e → deref p m = Done e m.
Proof. intros H. unfold deref. msimpl. by rewrite H. Qed.
Lemma find_loop_run f l es m : Forall2 (λ p e, heap m !! p = Some e) l es → find_loop f l m = Done (existsb f es) m.
Proof.
  induction 1 as [|p e l es Hp _ IH]; [done|]. cbn [find_loop existsb]. mstep (deref_run _ _ _ Hp). by destruct (f e).
Qed.

Lemma remove_loop_run f l es m : NoDup l → Forall2 (λ p e, heap m !! p = Some e) l es → ∃ l' h,
  remove_loop f l m = Done l' (set_heap h m) ∧ sublist l' l ∧
  Forall2 (λ p e, h !! p = Some e) l' (List.filter (λ e, negb (f e)) es) ∧
  (∀ p, p ∉ l → h !! p = heap m !! p) ∧ (∀ p, p ∈ l → p ∉ l' → h !! p = None) ∧ h ⊆ heap m.
Proof.
  intros Hnd Hf. revert m Hf. revert es. induction Hnd as [|p l Hp Hnd IH]; intros es m Hf.
  { inversion Hf; subst. exists [], (heap m). split_and!; [by destruct m|done|constructor|done| |done]. intros p Hp. by apply elem_of_nil in Hp. }
  inversion Hf as [|? e ? es' He Hes]; subst. cbn [remove_loop List.filter]. mstep (deref_run _ _ _ He). destruct (f e) eqn:Hfe; cbn [negb].
  - assert (Hdel : delete_entry p m = Done () (set_heap (delete p (heap m)) m)) by (unfold delete_entry; by mstep (deref_run _ _ _ He)).
    mstep Hdel. destruct (IH es' (set_heap (delete p (heap m)) m)) as (l' & h & Hr & Hs & Hf' & Hout & Hin & Hsub).
    { apply (entries_same _ _ _ _ Hes). intros q Hq. apply lookup_delete_ne. by intros ->. }
    exists l', h. cbn in Hr, Hout. split_and!; [done|by apply sublist_cons|done| | |etrans; [exact Hsub|apply delete_subseteq]].
    + intros q [Hq1 Hq2]%not_elem_of_cons. rewrite Hout by done. by apply lookup_delete_ne.
    + intros q [->|Hq]%elem_of_cons Hq'; [|by apply Hin]. rewrite Hout by done. apply lookup_delete_eq.
  - destruct (IH es' m Hes) as (l' & h & Hr & Hs & Hf' & Hout & Hin & Hsub). exists (p :: l'), h. split_and!.
    + by mstep Hr.
    + by apply sublist_skip.
    + constructor; [|done]. rewrite Hout; done.
    + intros q [Hq1 Hq2]%not_elem_of_cons. by apply Hout.
    + intros q Hq [Hq1 Hq2]%not_elem_of_cons. apply elem_of_cons in Hq as [->|Hq]; [done|]. by apply Hin.
    + done.
Qed.
Lemma erase_if_run f m es : holds (heap m) (eventList m) es → ∃ l h,
  erase_if f m = Done () (set_eventList l (set_heap h m)) ∧ sublist l (eventList m) ∧ holds h l (List.filter (λ e, negb (f e)) es) ∧ h ⊆ heap m.
Proof.
  intros [Hnd Hf Ho]. destruct (remove_loop_run f (eventList m) es m Hnd Hf) as (l & h & Hr & Hs & Hf' & Hout & Hin & Hsub).
  exists l, h. split_and!; [|done| |done].
  - unfold erase_if. msimpl. by mstep Hr.
  - split; [by eapply sublist_NoDup|done|]. intros p Hp. destruct (decide (p ∈ eventList m)) as [Hpe|Hpe]; [by apply Hin|].
    rewrite Hout by done. by apply Ho.
Qed.

(** *** A round of the sending thread *)
Definition try_one (entry : EventProcEntry) (e : EventEntry) (h : list attempt) : EventEntry * list attempt :=
  if wants e entry then
    if listens h (ip e) (portNum e) then
      (e, h ++ [MkAttempt (ip e) (portNum e) (Some (cltToken e, p_eventNum entry, p_eventArg entry, p_eventArg2 entry))])
    else (set_deleteFlag true e, h ++ [MkAttempt (ip e) (portNum e) None])
  else (e, h).
Fixpoint try_all (entry : EventProcEntry) (l : list EventEntry) (h : list attempt) : list EventEntry * list attempt :=
  match l with
  | [] => ([], h)
  | e :: l => let '(e', h1) := try_one entry e h in let '(l', h2) := try_all entry l h1 in (e' :: l', h2)
  end.

Lemma set_same m : set_outbox (outbox m) (set_heap (heap m) m) = m.
Proof. by destruct m. Qed.
Lemma notify_one_run entry i p e m : eventList m !! i = Some p → heap m !! p = Some e →
  notify_one listens entry i m =
    Done () (set_outbox (try_one entry e (outbox m)).2 (set_heap (<[p := (try_one entry e (outbox m)).1]> (heap m)) m)).
Proof.
  intros Hi Hp. unfold notify_one, entry_at. rewrite (bind_done _ _ m p m) by (msimpl; by rewrite Hi).
  mstep (deref_run _ _ _ Hp). unfold try_one. destruct (wants e entry); [|cbn; rewrite insert_id by done; by rewrite set_same].
  unfold send_event, send_connect. destruct (listens (outbox m) (ip e) (portNum e)) eqn:Hl.
  - rewrite (bind_done _ _ m 0 (set_outbox (outbox m ++ [MkAttempt (ip e) (portNum e) (Some (cltToken e, p_eventNum entry, p_eventArg entry, p_eventArg2 entry))]) m)).
    + cbn. rewrite insert_id by done. by destruct m.
    + rewrite (bind_done _ _ m true m) by (mstep (deref_run _ _ _ Hp); msimpl; by rewrite Hl). unfold send_call.
      rewrite (bind_done _ _ m () (set_outbox (outbox m ++ [MkAttempt (ip e) (portNum e) (Some (cltToken e, p_eventNum entry, p_eventArg entry, p_eventArg2 entry))]) m)); [done|].
      by mstep (deref_run _ _ _ Hp).
  - set (m1 := set_outbox (outbox m ++ [MkAttempt (ip e) (portNum e) None]) m).
    rewrite (bind_done _ _ m (-1) m1).
    + rewrite Z.eqb_refl. unfold mark, entry_at. rewrite (bind_done _ _ m1 p m1) by (unfold m1; msimpl; cbn; by rewrite Hi).
      mstep (deref_run p e m1 Hp). unfold store. mstep (deref_run p e m1 Hp). done.
    + rewrite (bind_done _ _ m false m1); [done|]. mstep (deref_run _ _ _ Hp). msimpl. by rewrite Hl.
Qed.

Lemma holds_update h l pre e e' es p : holds h l (pre ++ e :: es) → l !! length pre = Some p →
  h !! p = Some e ∧ holds (<[p := e']> h) l (pre ++ e' :: es).
Proof.
  intros [Hnd Hf Ho] Hp. assert (He : h !! p = Some e).
  { destruct (Forall2_lookup_l _ _ _ _ _ Hf Hp) as (e1 & He1 & Hh). rewrite lookup_app_r, Nat.sub_diag in He1 by done. cbn in He1. congruence. }
  split; [done|]. assert (Hlp : p ∈ l) by by eapply list_elem_of_lookup_2. split; [done| |].
  - apply Forall2_lookup. intros i. pose proof (proj1 (Forall2_lookup _ _ _) Hf i) as Hi.
    destruct (decide (i = length pre)) as [->|Hne].
    + rewrite Hp, lookup_app_r, Nat.sub_diag by done. constructor. apply lookup_insert_eq.
    + replace ((pre ++ e' :: es) !! i) with ((pre ++ e :: es) !! i).
      * inversion Hi as [q e1 Hq Hli Hei|]; constructor. rewrite lookup_insert_ne; [done|]. intros ->.
        apply Hne. symmetry in Hli. by apply (NoDup_lookup l i (length pre) q).
      * destruct (decide (i < length pre)%nat); [by rewrite !lookup_app_l|]. rewrite !lookup_app_r by lia.
        destruct (i - length pre)%nat eqn:Hd; [lia|done].
  - intros q Hq. rewrite lookup_insert_ne by by intros ->. by apply Ho.
Qed.
Lemma notify_loop_run entry es : ∀ pre i m, holds (heap m) (eventList m) (pre ++ es) → i = length pre → ∃ h,
  notify_loop listens (length es) entry i m = Done () (set_outbox (try_all entry es (outbox m)).2 (set_heap h m)) ∧
  holds h (eventList m) (pre ++ (try_all entry es (outbox m)).1).
Proof.
  induction es as [|e es IH]; intros pre i m Hh ->.
  { exists (heap m). pose proof (Forall2_length _ _ _ (ho_entries _ _ _ Hh)) as Hlen. rewrite app_nil_r in *. split; [|done].
    cbn [length notify_loop]. msimpl. rewrite decide_False by lia. cbn. by rewrite set_same. }
  pose proof (Forall2_length _ _ _ (ho_entries _ _ _ Hh)) as Hlen. rewrite length_app in Hlen. cbn [length] in *.
  destruct (lookup_lt_is_Some_2 (eventList m) (length pre)) as [p Hp]; [lia|].
  cbn [notify_loop try_all]. msimpl. rewrite decide_True by lia.
  destruct (holds_update _ _ _ _ (try_one entry e (outbox m)).1 _ _ Hh Hp) as [He Hh'].
  mstep (notify_one_run entry _ _ _ _ Hp He). destruct (try_one entry e (outbox m)) as [e' o1]. cbn [fst snd] in *.
  destruct (IH (pre ++ [e']) (S (length pre)) (set_outbox o1 (set_heap (<[p:=e']> (heap m)) m))) as (h & Hr & Hho).
  - by rewrite <-app_assoc.
  - rewrite length_app. cbn. lia.
  - cbn [outbox set_outbox] in *. destruct (try_all entry es o1) as [l' h2]. cbn [fst snd] in *. exists h.
    split; [by rewrite Hr|]. by rewrite <-app_assoc in Hho.
Qed.

Definition fresh_flags (es : list EventEntry) : Prop := Forall (λ e, deleteFlag e = false) es.
Lemma try_all_deliver entry es o : fresh_flags es →
  (List.filter (λ e, negb (RemoveNonListenerEntry e)) (try_all entry es o).1, (try_all entry es o).2) = deliver entry es o ∧
  fresh_flags (deliver entry es o).1.
Proof.
  intros Hf. revert o. induction Hf as [|e es He _ IH]; intros o; [by split; [|constructor]|]. cbn [try_all deliver]. unfold try_one.
  assert (Hn : negb (RemoveNonListenerEntry e) = true) by (unfold RemoveNonListenerEntry; by rewrite He).
  destruct (wants e entry); [destruct (listens o (ip e) (portNum e))|].
  - destruct (IH (o ++ [MkAttempt (ip e) (portNum e) (Some (cltToken e, p_eventNum entry, p_eventArg entry, p_eventArg2 entry))])) as [Hd Hfl].
    destruct (try_all entry es _) as [l' h2], (deliver entry es _) as [l1 h1]. cbn [fst snd List.filter] in *. injection Hd as <- <-. rewrite Hn.
    split; [done|by constructor].
  - destruct (IH (o ++ [MkAttempt (ip e) (portNum e) None])) as [Hd Hfl].
    destruct (try_all entry es _) as [l' h2], (deliver entry es _) as [l1 h1]. cbn [fst snd List.filter] in *. injection Hd as <- <-. done.
  - destruct (IH o) as [Hd Hfl].
    destruct (try_all entry es _) as [l' h2], (deliver entry es _) as [l1 h1]. cbn [fst snd List.filter] in *. injection Hd as <- <-. rewrite Hn.
    split; [done|by constructor].
Qed.
Lemma notify_round_run entry es m : holds (heap m) (eventList m) es → fresh_flags es → ∃ l h,
  notify_round listens entry m =
    Done () (set_notifyEvent (drop 1 (notifyEvent m)) (set_eventList l (set_heap h (set_outbox (deliver entry es (outbox m)).2 m)))) ∧
  sublist l (eventList m) ∧ holds h l (deliver entry es (outbox m)).1.
Proof.
  intros Hh Hfl. destruct (notify_loop_run entry es [] 0 m Hh eq_refl) as (h1 & Hloop & Hh1).
  rewrite <-(Forall2_length _ _ _ (ho_entries _ _ _ Hh)) in Hloop.
  set (m1 := set_outbox (try_all entry es (outbox m)).2 (set_heap h1 m)) in *.
  destruct (erase_if_run RemoveNonListenerEntry m1 _ Hh1) as (l & h & He & Hs & Hh2 & _).
  destruct (try_all_deliver entry es (outbox m) Hfl) as [Hd _].
  exists l, h. cbn [app] in Hh2. rewrite <-Hd. split_and!; [|done|done].
  unfold notify_round. msimpl. mstep Hloop. mstep He. done.
Qed.
Lemma notify_queue_run q : ∀ es m, notifyEvent m = q → holds (heap m) (eventList m) es → fresh_flags es → ∃ l h,
  notify_queue listens (length q) m =
    Done () (set_notifyEvent [] (set_eventList l (set_heap h (set_outbox (deliver_all q es (outbox m)).2 m)))) ∧
  sublist l (eventList m) ∧ holds h l (deliver_all q es (outbox m)).1 ∧ fresh_flags (deliver_all q es (outbox m)).1.
Proof.
  induction q as [|entry q IH]; intros es m Hq Hh Hfl.
  { exists (eventList m), (heap m). split_and!; [|done|done|done]. cbn [length notify_queue]. msimpl. rewrite Hq. cbn. by destruct m; cbn in *; subst. }
  destruct (notify_round_run entry es m Hh Hfl) as (l1 & h1 & Hr & Hs & Hh1).
  destruct (try_all_deliver entry es (outbox m) Hfl) as [_ Hfl1].
  cbn [length notify_queue deliver_all]. msimpl. rewrite Hq. mstep Hr. destruct (deliver entry es (outbox m)) as [es1 o1]. cbn [fst snd] in *.
  destruct (IH es1 (set_notifyEvent (drop 1 (notifyEvent m)) (set_eventList l1 (set_heap h1 (set_outbox o1 m))))) as (l & h & Hr' & Hs' & Hh' & Hfl');
    [cbn; by rewrite Hq|done|done|]. cbn [outbox eventList set_notifyEvent set_eventList set_heap set_outbox] in *.
  exists l, h. split_and!; [|by etrans|done|done]. rewrite Hr'. done.
Qed.
Lemma process_queue_run q : ∀ m, processEvent m = q →
  process_queue consumers (length q) m =
    Done () (set_processEvent [] (set_inbox (inbox m ++ concat (map (λ e, replicate consumers (gift e)) q)) m)).
Proof.
  induction q as [|e q IH]; intros m Hq; cbn [length process_queue map concat]; msimpl; rewrite Hq.
  { cbn. rewrite app_nil_r. by destruct m; cbn in *; subst. }
  unfold notify_subscribers. msimpl. rewrite IH by (cbn; by rewrite Hq). cbn. by rewrite <-app_assoc.
Qed.

(** *** What the object and the hub have in common *)
Record agrees (m : ADEvntMgr) (b : hub) : Prop := Agrees {
  ag_token : AckToken m = last_token b;
  ag_holds : holds (heap m) (eventList m) (subs b);
  ag_flags : fresh_flags (subs b);
  ag_next : ∀ p, next m ≤ p → heap m !! p = None;
  ag_send : notifyEvent m = to_send b;
  ag_give : processEvent m = to_give b;
  ag_wakes : notify_sema m = send_wakes b;
  ag_gives : process_sema m = give_wakes b;
  ag_out : outbox m = mails b;
  ag_in : inbox m = given b
}.

Lemma only_sublist h h' l l' es es' n : holds h l es → holds h' l' es' → sublist l' l →
  (∀ p, n ≤ p → h !! p = None) → ∀ p, n ≤ p → h' !! p = None.
Proof.
  intros Hh Hh' Hs Hn p Hp. destruct (h' !! p) as [e|] eqn:He; [|done]. destruct (decide (p ∈ l')) as [Hin|Hin].
  - apply (elem_of_sublist _ l) in Hin; [|done]. apply list_elem_of_lookup in Hin as [i Hi].
    destruct (Forall2_lookup_l _ _ _ _ _ (ho_entries _ _ _ Hh) Hi) as (e1 & _ & He1). rewrite Hn in He1; done.
  - rewrite (ho_only _ _ _ Hh') in He; done.
Qed.
Lemma holds_snoc h l es p e : h !! p = None → holds h l es → holds (<[p := e]> h) (l ++ [p]) (es ++ [e]).
Proof.
  intros Hp [Hnd Hf Ho]. assert (Hpl : p ∉ l).
  { intros [i Hi]%list_elem_of_lookup. destruct (Forall2_lookup_l _ _ _ _ _ Hf Hi) as (e1 & _ & He1). congruence. }
  split.
  - apply NoDup_app. split_and!; [done| |apply NoDup_singleton]. by intros q Hq ->%list_elem_of_singleton.
  - apply Forall2_app; [|constructor; [by rewrite lookup_insert_eq|done]]. apply (entries_same _ _ _ _ Hf). intros q Hq.
    apply lookup_insert_ne. by intros ->.
  - intros q Hq. rewrite lookup_insert_ne; [apply Ho|]; set_solver.
Qed.

Lemma new_entry_run e m : new_entry e m = Done (next m) (set_next (next m + 1) (set_heap (<[next m := e]> (heap m)) m)).
Proof. done. Qed.
Lemma delete_entry_run p e m : heap m !! p = Some e → delete_entry p m = Done () (set_heap (delete p (heap m)) m).
Proof. intros Hp. unfold delete_entry. by mstep (deref_run _ _ _ Hp). Qed.
Lemma store_run p e e' m : heap m !! p = Some e → store p e' m = Done () (set_heap (<[p := e']> (heap m)) m).
Proof. intros Hp. unfold store. by mstep (deref_run _ _ _ Hp). Qed.
Lemma register_run p e es m : heap m !! p = Some e → Forall2 (λ p e, heap m !! p = Some e) (eventList m) es →
  register_event_subscription p m =
    if existsb (FindDuplicateEntry e) es then Done (-1, None) m
    else let t := int32 (AckToken m + 1) in
         Done (0, Some t) (set_eventList (eventList m ++ [p]) (set_heap (<[p := set_srvToken t e]> (heap m)) (set_AckToken t m))).
Proof.
  intros Hp Hf. unfold register_event_subscription. mstep (deref_run _ _ _ Hp). msimpl.
  mstep (find_loop_run (FindDuplicateEntry e) _ _ _ Hf). destruct (existsb _ es); [done|]. cbn [negb]. msimpl.
  mstep (store_run p e (set_srvToken (int32 (AckToken m + 1)) e) (set_AckToken (int32 (AckToken m + 1)) m) Hp). done.
Qed.

Lemma subscribe_run k m b : agrees m b → ∃ m',
  do_op (OpSubscribe k) m = Done (hub_op (OpSubscribe k) b).1 m' ∧ agrees m' (hub_op (OpSubscribe k) b).2.
Proof.
  intros []. pose proof (ag_next0 (next m) ltac:(lia)) as Hfree.
  set (m1 := set_next (next m + 1) (set_heap (<[next m := entry_of k 0]> (heap m)) m)).
  assert (Hl : Forall2 (λ p e, heap m1 !! p = Some e) (eventList m1) (subs b)).
  { apply (entries_same (heap m)); [apply ag_holds0|]. intros p Hp. apply lookup_insert_ne. intros <-.
    apply list_elem_of_lookup in Hp as [i Hi]. destruct (Forall2_lookup_l _ _ _ _ _ (ho_entries _ _ _ ag_holds0) Hi) as (e1 & _ & He1). congruence. }
  assert (Hp : heap m1 !! next m = Some (entry_of k 0)) by apply lookup_insert_eq.
  pose proof (register_run _ _ _ _ Hp Hl) as Hreg. cbn [do_op hub_op]. destruct (existsb _ (subs b)).
  - exists (set_next (next m + 1) m). split.
    + rewrite (bind_done _ _ m (RPC_SRV_RESULT_ITEM_DUPLICATE_FOUND, None) (set_next (next m + 1) m)); [done|].
      unfold process_event_subscribe. mstep (new_entry_run (entry_of k 0) m). mstep Hreg. change (-1 =? 0) with false. rewrite Z.eqb_refl.
      mstep (delete_entry_run _ _ _ Hp). cbn. by rewrite delete_insert_id.
    + split; try done. cbn. intros p Hp'. apply ag_next0. lia.
  - cbv zeta in Hreg. set (t := int32 (AckToken m + 1)).
    set (m2 := set_eventList (eventList m ++ [next m]) (set_heap (<[next m := entry_of k t]> (heap m)) (set_next (next m + 1) (set_AckToken t m)))).
    exists m2. split.
    + rewrite (bind_done _ _ m (RPC_SRV_RESULT_SUCCESS, Some t) m2); [cbn; unfold t; by rewrite ag_token0|].
      unfold process_event_subscribe. mstep (new_entry_run (entry_of k 0) m). mstep Hreg. cbn -[int32]. by rewrite insert_insert_eq.
    + unfold m2, t. rewrite ag_token0. split; cbn -[int32]; try done.
      * by apply holds_snoc.
      * apply Forall_app. by split; [|constructor].
      * intros p Hp'. rewrite lookup_insert_ne by lia. apply ag_next0. lia.
Qed.
Lemma existsb_filter_flags f es : fresh_flags es → fresh_flags (List.filter f es).
Proof. intros H. apply Forall_forall. intros e [He _]%list_elem_of_In%filter_In. by apply (proj1 (Forall_forall _ _) H), list_elem_of_In. Qed.
Lemma unsubscribe_run k m b : agrees m b → ∃ m',
  do_op (OpUnsubscribe k) m = Done (hub_op (OpUnsubscribe k) b).1 m' ∧ agrees m' (hub_op (OpUnsubscribe k) b).2.
Proof.
  intros []. pose proof (find_loop_run (FindEventEntry (k_srvToken k)) _ _ m (ho_entries _ _ _ ag_holds0)) as Hfind.
  destruct (erase_if_run (RemoveEventEntry (k_srvToken k)) m _ ag_holds0) as (l & h & He & Hs & Hh & _).
  cbn [do_op hub_op]. unfold process_event_unsubscribe, unregister_event_subscription. destruct (existsb _ (subs b)).
  - exists (set_eventList l (set_heap h m)). split.
    + rewrite (bind_done _ _ m RPC_SRV_RESULT_SUCCESS (set_eventList l (set_heap h m))); [done|].
      rewrite (bind_done _ _ m 0 (set_eventList l (set_heap h m))); [done|]. msimpl. mstep Hfind. cbn [negb]. by mstep He.
    + split; cbn; try done.
      * by apply existsb_filter_flags.
      * by apply (only_sublist _ _ _ _ _ _ _ ag_holds0 Hh).
  - exists m. split; [|done]. rewrite (bind_done _ _ m RPC_SRV_RESULT_ITEM_NOT_FOUND m); [done|].
    rewrite (bind_done _ _ m (-1) m); [done|]. msimpl. by mstep Hfind.
Qed.
Lemma notify_thread_run m b : agrees m b → ∃ m',
  do_op OpNotifyThread m = Done (hub_op OpNotifyThread b).1 m' ∧ agrees m' (hub_op OpNotifyThread b).2.
Proof.
  intros []. cbn [do_op hub_op]. unfold unless_blocked. rewrite <-ag_wakes0. destruct (notify_sema m =? 0) eqn:Hz.
  { exists m. split; [|done]. unfold notify_thread. rewrite bind_gets. by rewrite Hz. }
  destruct (notify_queue_run (notifyEvent m) (subs b) (set_notify_sema (notify_sema m - 1) m) eq_refl ag_holds0 ag_flags0)
    as (l & h & Hq & Hs & Hh & Hfl).
  set (m' := set_notifyEvent [] _) in Hq. exists m'. assert (Ht : notify_thread listens m = Done () m').
  { unfold notify_thread. msimpl. rewrite Hz. msimpl. unfold notify_callback. by msimpl. }
  rewrite Ht, (bind_done _ _ _ _ _ Ht), <-ag_send0, <-ag_out0. unfold m'. cbn [outbox set_notify_sema eventList] in *.
  destruct (deliver_all (notifyEvent m) (subs b) (outbox m)) as [es o]. cbn [fst snd] in *. split; [done|]. split; cbn; try done.
  - by apply (only_sublist _ _ _ _ _ _ _ ag_holds0 Hh).
Qed.
Lemma process_thread_run m b : agrees m b → ∃ m',
  do_op OpProcessThread m = Done (hub_op OpProcessThread b).1 m' ∧ agrees m' (hub_op OpProcessThread b).2.
Proof.
  intros []. cbn [do_op hub_op]. unfold unless_blocked. rewrite <-ag_gives0. destruct (process_sema m =? 0) eqn:Hz.
  { exists m. split; [|done]. unfold process_thread. rewrite bind_gets. by rewrite Hz. }
  pose proof (process_queue_run (processEvent m) (set_process_sema (process_sema m - 1) m) eq_refl) as Hq.
  set (m' := set_processEvent [] _) in Hq. exists m'. assert (Ht : process_thread consumers m = Done () m').
  { unfold process_thread. msimpl. rewrite Hz. msimpl. unfold process_callback. by msimpl. }
  rewrite Ht, (bind_done _ _ _ _ _ Ht). split; [done|]. split; cbn; try done; by rewrite ?ag_gives0, ?ag_in0, ?ag_give0.
Qed.

Lemma op_run o m b : agrees m b → ∃ m', do_op o m = Done (hub_op o b).1 m' ∧ agrees m' (hub_op o b).2.
Proof.
  intros Ha. destruct o as [k|k|k|k| |]; [by apply subscribe_run|by apply unsubscribe_run| | |by apply notify_thread_run|by apply process_thread_run].
  all: eexists; split; [reflexivity|]; destruct Ha; split; cbn; try done; congruence.
Qed.
Lemma ops_run os : ∀ m b, agrees m b → ∃ m', do_ops os m = Done (hub_ops os b).1 m' ∧ agrees m' (hub_ops os b).2.
Proof.
  induction os as [|o os IH]; intros m b Ha; [by exists m|]. destruct (op_run o m b Ha) as (m1 & Hr & Ha1).
  cbn [do_ops hub_ops]. mstep Hr. destruct (hub_op o b) as [a b1]. cbn [fst snd] in *. destruct (IH m1 b1 Ha1) as (m2 & Hr2 & Ha2).
  mstep Hr2. destruct (hub_ops os b1) as [l b2]. by exists m2.
Qed.
Lemma agrees_new : agrees ADEvntMgr_new hub_new.
Proof. split; try done; [|constructor]. split; [constructor|constructor|done]. Qed.

(** *** The end *)
Lemma delete_loop_run l : ∀ es m, holds (heap m) l es → delete_loop l m = Done () (set_heap ∅ m).
Proof.
  induction l as [|p l IH]; intros es m [Hnd Hf Ho].
  { replace (∅ : gmap Z EventEntry) with (heap m); [by destruct m|]. apply map_empty. intros p. apply Ho. set_solver. }
  inversion Hf as [|? e ? es' He Hes]; subst. apply NoDup_cons in Hnd as [Hp Hnd]. cbn [delete_loop].
  mstep (delete_entry_run _ _ _ He). rewrite (IH es' (set_heap (delete p (heap m)) m)); [done|]. split; [done| |].
  - apply (entries_same _ _ _ _ Hes). intros q Hq. apply lookup_delete_ne. by intros ->.
  - intros q Hq. cbn. destruct (decide (p = q)) as [->|Hne]; [apply lookup_delete_eq|]. rewrite lookup_delete_ne by done. apply Ho. set_solver.
Qed.
End hub.

(** C35: The event manager is the hub.  Whatever is asked of the object, and
    however its two threads are scheduled between the calls, it answers as the
    hub does, tries the same subscribers in the same order with the same words,
    and gives its consumers the same events; no call touches an entry that is
    gone, the heap has the entries of the subscriptions and no others, and the
    end of the object frees them all. *)
Theorem evntmgr_refines_hub listens consumers os :
  let '(answers, b) := hub_ops listens consumers os hub_new in
  ∃ m, do_ops listens consumers os ADEvntMgr_new = Done answers m ∧
    AckToken m = last_token b ∧ outbox m = mails b ∧ inbox m = given b ∧
    notifyEvent m = to_send b ∧ processEvent m = to_give b ∧
    holds (heap m) (eventList m) (subs b) ∧
    ADEvntMgr_delete m = Done () (set_heap ∅ m).
Proof.
  destruct (ops_run listens consumers os _ _ agrees_new) as (m & Hr & []).
  destruct (hub_ops listens consumers os hub_new) as [answers b]. exists m. split_and!; try done.
  unfold ADEvntMgr_delete. msimpl. by apply (delete_loop_run _ (subs b)).
Qed.

(** ** Tokens *)
Definition key (e : EventEntry) : Z * Z * Z := (cltToken e, portNum e, eventNum e).
Lemma duplicate_key my e : FindDuplicateEntry my e = true ↔ key my = key e.
Proof.
  unfold FindDuplicateEntry, key. destruct (cltToken my =? cltToken e) eqn:H1, (portNum my =? portNum e) eqn:H2, (eventNum my =? eventNum e) eqn:H3;
    cbn; rewrite ?Z.eqb_eq, ?Z.eqb_neq in *; split; congruence.
Qed.
(** Tokens go up, and no two entries have the same key. *)
Record numbered (b : hub) : Prop := Numbered {
  nu_last : 0 ≤ last_token b;
  nu_range : Forall (λ e, 0 < srvToken e ≤ last_token b) (subs b);
  nu_tokens : NoDup (map srvToken (subs b));
  nu_keys : NoDup (map key (subs b))
}.
Lemma numbered_sublist b l : numbered b → sublist l (subs b) →
  Forall (λ e, 0 < srvToken e ≤ last_token b) l ∧ NoDup (map srvToken l) ∧ NoDup (map key l).
Proof.
  intros [_ Hr Ht Hk] Hs. split_and!.
  - apply Forall_forall. intros e He. apply (proj1 (Forall_forall _ _) Hr). by eapply elem_of_sublist.
  - apply (sublist_NoDup _ (map srvToken (subs b))); [done|]. by apply (fmap_sublist srvToken).
  - apply (sublist_NoDup _ (map key (subs b))); [done|]. by apply (fmap_sublist key).
Qed.
Lemma deliver_sublist listens entry l : ∀ h, sublist (deliver listens entry l h).1 l.
Proof.
  induction l as [|e l IH]; intros h; [constructor|]. cbn [deliver].
  destruct (wants e entry); [destruct (listens h (ip e) (portNum e))|].
  - specialize (IH (h ++ [MkAttempt (ip e) (portNum e) (Some (cltToken e, p_eventNum entry, p_eventArg entry, p_eventArg2 entry))])).
    destruct (deliver listens entry l _). by apply sublist_skip.
  - by apply sublist_cons.
  - specialize (IH h). destruct (deliver listens entry l _). by apply sublist_skip.
Qed.
Lemma deliver_all_sublist listens q : ∀ l h, sublist (deliver_all listens q l h).1 l.
Proof.
  induction q as [|entry q IH]; intros l h; [done|]. cbn [deliver_all]. pose proof (deliver_sublist listens entry l h) as Hd.
  destruct (deliver listens entry l h) as [l' h']. etrans; [apply IH|exact Hd].
Qed.
Lemma filter_sublist {A} (f : A → bool) l : sublist (List.filter f l) l.
Proof. induction l as [|a l IH]; [constructor|]. cbn. destruct (f a); [by apply sublist_skip|by apply sublist_cons]. Qed.

Lemma numbered_op listens consumers o b : numbered b → last_token b < INT_MAX →
  numbered (hub_op listens consumers o b).2 ∧ last_token b ≤ last_token (hub_op listens consumers o b).2 ≤ last_token b + 1.
Proof.
  intros Hn Hmax. pose proof (nu_last _ Hn) as H0. destruct o as [k|k|k|k| |]; cbn [hub_op].
  - destruct (existsb (FindDuplicateEntry (entry_of k 0)) (subs b)) eqn:Hd; cbn [snd]; [by split; [|lia]|].
    rewrite int32_small by (unfold INT_MAX in *; lia). cbn [last_token]. split; [|lia]. destruct Hn as [_ Hr Ht Hk]. split; cbn [last_token subs].
    + lia.
    + apply Forall_app. split; [|by repeat constructor; cbn; lia]. eapply Forall_impl; [exact Hr|]. cbn. lia.
    + rewrite map_app. apply NoDup_app. split_and!; [done| |apply NoDup_singleton].
      intros t Ht' ->%list_elem_of_singleton. apply list_elem_of_fmap in Ht' as (e & He & Hin).
      apply (proj1 (Forall_forall _ _) Hr) in Hin. cbn in He. lia.
    + rewrite map_app. apply NoDup_app. split_and!; [done| |apply NoDup_singleton].
      intros t Ht' ->%list_elem_of_singleton. apply list_elem_of_fmap in Ht' as (e & He & Hin).
      assert (existsb (FindDuplicateEntry (entry_of k 0)) (subs b) = true); [|congruence].
      apply existsb_exists. exists e. split; [by apply list_elem_of_In|]. by apply duplicate_key.
  - destruct (existsb (FindEventEntry (k_srvToken k)) (subs b)); cbn [snd last_token]; (split; [|lia]); [|done].
    destruct (numbered_sublist b _ Hn (filter_sublist (λ e, negb (FindEventEntry (k_srvToken k) e)) (subs b))) as (H1 & H2 & H3). by split.
  - cbn. split; [|lia]. by destruct Hn.
  - cbn. split; [|lia]. by destruct Hn.
  - destruct (send_wakes b =? 0); [by split; [|cbn; lia]|]. pose proof (deliver_all_sublist listens (to_send b) (subs b) (mails b)) as Hs.
    destruct (deliver_all listens (to_send b) (subs b) (mails b)) as [l h]. cbn [snd last_token]. split; [|lia].
    destruct (numbered_sublist b _ Hn Hs) as (H1 & H2 & H3). by split.
  - destruct (give_wakes b =? 0); cbn; (split; [|lia]); [done|]. by destruct Hn.
Qed.
Lemma numbered_ops listens consumers os : ∀ b, numbered b → last_token b + Z.of_nat (length os) ≤ INT_MAX → numbered (hub_ops listens consumers os b).2.
Proof.
  induction os as [|o os IH]; intros b Hn Hmax; [done|]. cbn [hub_ops length] in *.
  destruct (numbered_op listens consumers o b Hn) as [Hn1 Hl]; [lia|]. destruct (hub_op listens consumers o b) as [a b1]. cbn [snd] in *.
  specialize (IH b1 Hn1 ltac:(lia)). by destruct (hub_ops listens consumers os b1).
Qed.

(** A token names one subscription: an unsubscription that succeeds takes away
    that one and leaves the others as they were. *)
Theorem a_token_is_one_subscription listens consumers os k : Z.of_nat (length os) ≤ INT_MAX →
  let b := (hub_ops listens consumers os hub_new).2 in
  let '(a, b') := hub_op listens consumers (OpUnsubscribe k) b in
  a = AnsResult RPC_SRV_RESULT_SUCCESS → ∃ l1 e l2, subs b = l1 ++ e :: l2 ∧ srvToken e = k_srvToken k ∧ subs b' = l1 ++ l2.
Proof.
  intros Hlen b. pose proof (numbered_ops listens consumers os hub_new) as Hn. fold b in Hn.
  assert (Hb : numbered b) by (apply Hn; [split; cbn; [done|constructor|constructor|constructor]|done]). clear Hn.
  cbn [hub_op]. destruct (existsb (FindEventEntry (k_srvToken k)) (subs b)) eqn:Hx; [|done]. intros _. cbn [subs].
  apply existsb_exists in Hx as (e & He & Ht). apply list_elem_of_In, list_elem_of_split in He as (l1 & l2 & He).
  unfold FindEventEntry in Ht. apply Z.eqb_eq in Ht. exists l1, e, l2. split_and!; [done..|]. rewrite He.
  pose proof (nu_tokens _ Hb) as Hnd. rewrite He, map_app in Hnd. apply NoDup_app in Hnd as (_ & Hdis & Hnd). cbn in Hnd.
  apply NoDup_cons in Hnd as [Hni _]. rewrite List.filter_app. cbn [List.filter]. unfold FindEventEntry at 2. rewrite Ht, Z.eqb_refl. cbn [negb].
  f_equal; apply forallb_filter_id, forallb_forall; intros e' Hin%list_elem_of_In; apply Bool.negb_true_iff, Z.eqb_neq; intros Heq.
  - apply (Hdis (srvToken e')); [by apply list_elem_of_fmap_2|]. rewrite <-Heq. by left.
  - apply Hni. rewrite Heq. by apply list_elem_of_fmap_2.
Qed.

(** A test run: two subscribe, one of them is not there when an event is sent. *)
Definition demo_packet (port : Z) : RPCMGR_EVENT_PACKET := MkPacket 7 port (-1) 0 4 1 [] 0 0.
Definition demo_ops : list op :=
  [OpSubscribe (demo_packet 40001); OpSubscribe (demo_packet 40002); OpSubscribe (demo_packet 40001);
   OpNotify (MkPacket 0 0 3 0 0 0 [] 5 6); OpNotifyThread; OpUnsubscribe (MkPacket 0 0 0 1 0 0 [] 0 0); OpNotifyThread].
Definition demo_listens (h : list attempt) (ip : cstr) (port : Z) : bool := port =? 40001.
Example demo_answers : (hub_ops demo_listens 1 demo_ops hub_new).1 =
  [AnsToken RPC_SRV_RESULT_SUCCESS (Some 1); AnsToken RPC_SRV_RESULT_SUCCESS (Some 2);
   AnsToken RPC_SRV_RESULT_ITEM_DUPLICATE_FOUND None; AnsResult RPC_SRV_RESULT_SUCCESS; AnsThread;
   AnsResult RPC_SRV_RESULT_SUCCESS; AnsThread].
Proof. reflexivity. Qed.
Example demo_mails : mails (hub_ops demo_listens 1 demo_ops hub_new).2 =
  [MkAttempt [] 40001 (Some (7, 3, 5, 6)); MkAttempt [] 40002 None].
Proof. reflexivity. Qed.
Lemma a_token_is_one_subscription_witness : ∃ l1 e l2, subs (hub_ops demo_listens 1 (take 5 demo_ops) hub_new).2 = l1 ++ e :: l2 ∧ srvToken e = 1 ∧
  subs (hub_op demo_listens 1 (OpUnsubscribe (MkPacket 0 0 0 1 0 0 [] 0 0)) (hub_ops demo_listens 1 (take 5 demo_ops) hub_new).2).2 = l1 ++ l2.
Proof.
  assert (Hlen : Z.of_nat (length (take 5 demo_ops)) ≤ INT_MAX) by (vm_compute; congruence).
  generalize (a_token_is_one_subscription demo_listens 1 (take 5 demo_ops) (MkPacket 0 0 0 1 0 0 [] 0 0) Hlen). vm_compute.
  intros H. exact (H eq_refl).
Defined.

(** ** What the missing lock costs

    The calls run on the threads of the RPC, the sending on its own, and the
    list has no lock (a [TODO] of the source says so). *)

(** The subscription is cancelled while the sending thread opens the connection
    for it: the thread then reads the entry that was freed. *)
Theorem cancelled_while_sending listens k p a b c m es :
  holds (heap m) (eventList m) es → p ∈ eventList m →
  (∃ e, heap m !! p = Some e ∧ srvToken e = k_srvToken k ∧ listens (outbox m) (ip e) (portNum e) = true) →
  (send_connect listens p;; process_event_unsubscribe k;; send_call p a b c) m = Oops.
Proof.
  intros Hh Hin (e & He & Ht & Hl).
  rewrite (bind_done _ _ m true m) by (unfold send_connect; mstep (deref_run _ _ _ He); msimpl; by rewrite Hl).
  pose proof (find_loop_run (FindEventEntry (k_srvToken k)) _ _ m (ho_entries _ _ _ Hh)) as Hfind.
  destruct (erase_if_run (RemoveEventEntry (k_srvToken k)) m _ Hh) as (l & h & Her & Hs & Hh' & Hsub).
  assert (existsb (FindEventEntry (k_srvToken k)) es = true ∧ h !! p = None) as [Hx Hp].
  { apply list_elem_of_lookup in Hin as [i Hi]. destruct (Forall2_lookup_l _ _ _ _ _ (ho_entries _ _ _ Hh) Hi) as (e' & He' & Hpe).
    assert (e' = e) as -> by congruence. split.
    - apply existsb_exists. exists e. split; [by apply list_elem_of_In, list_elem_of_lookup; exists i|]. by apply Z.eqb_eq.
    - destruct (h !! p) as [e2|] eqn:Hp; [|done]. pose proof (lookup_weaken _ _ _ _ Hp Hsub) as Hp2. assert (e2 = e) as -> by congruence.
      destruct (decide (p ∈ l)) as [[j Hj]%list_elem_of_lookup|Hpl]; [|by rewrite (ho_only _ _ _ Hh') in Hp].
      destruct (Forall2_lookup_l _ _ _ _ _ (ho_entries _ _ _ Hh') Hj) as (e3 & He3 & Hp3). assert (e3 = e) as -> by congruence.
      apply list_elem_of_lookup_2, list_elem_of_In, filter_In in He3 as [_ Hf]. apply Bool.negb_true_iff, Z.eqb_neq in Hf. congruence. }
  rewrite (bind_done _ _ m RPC_SRV_RESULT_SUCCESS (set_eventList l (set_heap h m))).
  - unfold send_call. apply bind_oops. unfold deref. msimpl. cbn. by rewrite Hp.
  - unfold process_event_unsubscribe. rewrite (bind_done _ _ m 0 (set_eventList l (set_heap h m))); [done|].
    unfold unregister_event_subscription. msimpl. mstep Hfind. rewrite Hx. cbn [negb]. by mstep Her.
Qed.

(** Or an earlier subscription is cancelled while the thread finds out that this
    subscriber is not there: the index then belongs to the next one, which is
    dropped although it is reachable, and the one that is not there stays. *)
Definition marks_the_wrong_one : EM (list (Z * bool)) :=
  process_event_subscribe (demo_packet 40003);; process_event_subscribe (demo_packet 40002);; process_event_subscribe (demo_packet 40001);;
  p ← entry_at 1; ok ← send_connect demo_listens p;
  process_event_unsubscribe (MkPacket 0 0 0 1 0 0 [] 0 0);;
  (if ok : bool then mret () else mark 1);;
  erase_if RemoveNonListenerEntry;;
  l ← gets eventList; h ← gets heap;
  mret (omap (λ p, (λ e, (portNum e, deleteFlag e)) <$> h !! p) l).
Example the_reachable_one_is_dropped :
  match marks_the_wrong_one ADEvntMgr_new with Done l _ => l | _ => [] end = [(40002, false)].
Proof. vm_compute. reflexivity. Qed.
