(* ===== verification/Json.v ===== *)
(** * JSON values, and what the code relies on from json-c

    The library json-c is not part of the repository: its functions are the
    operations of the class [JsonC], and its laws are the documented behaviour
    that the JSON-RPC client and server of lib-adav rely on.  A JSON value is data;
    the NULL pointer is [JNull], as it is in json-c.  Reference counts are not
    modelled.  The second half of the file is a printer and a parser that keep
    the laws, so that what is proved under them is not vacuous. *)

From Stdlib Require Import ZArith Lia Ascii String.
From stdpp Require Import base list strings sets.
From S2P Require Import Prelude CString CxxStd Lang JsonGrammar.

Inductive json :=
| JNull
| JBool (b : bool)
| JInt (z : Z)
| JDouble (text : cstr)
| JString (s : cstr)
| JArray (l : list json)
| JObject (m : list (cstr * json)).

(** Induction through the lists. *)
Lemma json_ind' (P : json → Prop) :
  P JNull → (∀ b, P (JBool b)) → (∀ z, P (JInt z)) → (∀ t, P (JDouble t)) → (∀ s, P (JString s)) →
  (∀ l, Forall P l → P (JArray l)) → (∀ m, Forall (λ kv, P kv.2) m → P (JObject m)) → ∀ v, P v.
Proof.
  intros Hn Hb Hi Hd Hs Ha Ho. fix go 1. intros [ |b|z|t|s|l|m]; [done|apply Hb|apply Hi|apply Hd|apply Hs|apply Ha|apply Ho].
  - induction l as [|v l IH]; constructor; [apply go|exact IH].
  - induction m as [|[k v] m IH]; constructor; [apply go|exact IH].
Qed.

(** The first member with a name; [JNull] when there is none. *)
Fixpoint find_member (m : list (cstr * json)) (k : cstr) : json :=
  match m with [] => JNull | (k', v) :: m => if decide (k = k') then v else find_member m k end.

(** The values that the services exchange: numbers that an [int] holds and
    strings of printable characters, and no two members of an object with the
    same name. *)
Definition printable (s : cstr) : bool := forallb (λ c, (32 <=? code c) && (code c <=? 126)) s.
Definition is_int (z : Z) : bool := (-2147483648 <=? z) && (z <=? INT_MAX).
Fixpoint plain (v : json) : bool :=
  match v with
  | JNull | JBool _ => true
  | JInt z => is_int z
  | JDouble _ => false
  | JString s => printable s
  | JArray l => forallb plain l
  | JObject m => forallb (λ kv, printable kv.1 && plain kv.2) m && bool_decide (NoDup m.*1)
  end.
(** No closing brace inside a string. *)
Definition no_brace (s : cstr) : bool := forallb (λ c, negb (code c =? 125)) s.
Fixpoint tame (v : json) : bool :=
  match v with
  | JString s => no_brace s
  | JArray l => forallb tame l
  | JObject m => forallb (λ kv, no_brace kv.1 && tame kv.2) m
  | _ => true
  end.
(** A bound of the length of a printed value: eleven characters for a number,
    two for each character of a string, and blanks around everything. *)
Definition sum (l : list Z) : Z := foldr Z.add 0 l.
Fixpoint bulk (v : json) : Z :=
  match v with
  | JNull => 4
  | JBool _ => 5
  | JInt _ => 11
  | JDouble t => strlen t
  | JString s => 2 * strlen s + 2
  | JArray l => 4 + sum (map (λ v, bulk v + 2) l)
  | JObject m => 4 + sum (map (λ kv, 2 * strlen kv.1 + bulk kv.2 + 7) m)
  end.
(** How deep arrays and objects are nested. *)
Fixpoint nesting (v : json) : nat :=
  match v with
  | JArray l => S (list_max (map nesting l))
  | JObject m => S (list_max (map (λ kv, nesting kv.2) m))
  | _ => 0
  end.

(** Whether a text has no closing brace right before an opening one: [closed]
    tells whether the character before the text is a closing brace. *)
Fixpoint unsplit (closed : bool) (s : cstr) : bool :=
  match s with
  | [] => true
  | c :: s => negb (closed && (code c =? 123)) && unsplit (code c =? 125) s
  end.

(** ** The interface *)
Class JsonC := {
  json_object_object_add : json → cstr → json → json;
  json_object_object_get : json → cstr → json;
  json_object_get_string : json → option cstr;
  json_object_get_int : json → Z;
  json_object_to_json_string : json → cstr;
  (** [JNull] when the text is no JSON text. *)
  json_tokener_parse : cstr → json;
  object_add_fresh m k v : k ∉ m.*1 → json_object_object_add (JObject m) k v = JObject (m ++ [(k, v)]);
  object_get_member m k : NoDup m.*1 → json_object_object_get (JObject m) k = find_member m k;
  get_string_null : json_object_get_string JNull = None;
  get_string_string s : json_object_get_string (JString s) = Some s;
  get_string_int z : is_int z → json_object_get_string (JInt z) = Some (dec z);
  get_int_int z : is_int z → json_object_get_int (JInt z) = z;
  get_string_object m : is_Some (json_object_get_string (JObject m));
  parse_printed m : plain (JObject m) → json_tokener_parse (json_object_to_json_string (JObject m)) = JObject m;
  printed_brace m : ∃ t, json_object_to_json_string (JObject m) = char 123 :: t;
  printed_end m : ∃ t, json_object_to_json_string (JObject m) = t ++ [char 125];
  printed_json m n : plain (JObject m) → (nesting (JObject m) ≤ n)%nat → json_text checker_number n (json_object_to_json_string (JObject m));
  printed_ascii m : plain (JObject m) → Forall (λ c, 0 < code c < 128) (json_object_to_json_string (JObject m));
  printed_unsplit m : plain (JObject m) → tame (JObject m) → unsplit false (json_object_to_json_string (JObject m));
  printed_length m : plain (JObject m) → strlen (json_object_to_json_string (JObject m)) ≤ bulk (JObject m)
}.

(** [json_object_new_object], [json_object_new_string] and [json_object_new_int]. *)
Definition json_object_new_object : json := JObject [].
Definition json_object_new_string (s : cstr) : json := JString s.
Definition json_object_new_int (z : Z) : json := JInt z.

(** ** A printer *)
Definition escape_char (c : ascii) : cstr := if (code c =? 34) || (code c =? 92) then [char 92; c] else [c].
Definition escape_string (s : cstr) : cstr := concat (map escape_char s).
Definition print_string (s : cstr) : cstr := char 34 :: escape_string s ++ [char 34].
(** Texts with commas between them. *)
Fixpoint commas (l : list cstr) : cstr :=
  match l with [] => [] | [s] => s | s :: l => s ++ char 44 :: commas l end.
Definition print_member (print : json → cstr) (kv : cstr * json) : cstr := print_string kv.1 ++ char 58 :: print kv.2.
Fixpoint print (v : json) : cstr :=
  match v with
  | JNull => str "null"
  | JBool b => if b then str "true" else str "false"
  | JInt z => dec z
  | JDouble t => t
  | JString s => print_string s
  | JArray l => char 91 :: commas (map print l) ++ [char 93]
  | JObject m => char 123 :: commas (map (print_member print) m) ++ [char 125]
  end.

(** ** A parser *)
Fixpoint parse_string (s : cstr) : option (cstr * cstr) :=
  match s with
  | [] => None
  | c :: s =>
      if code c =? 34 then Some ([], s)
      else if code c =? 92 then match s with [] => None | c :: s => '(t, r) ← parse_string s; Some (c :: t, r) end
      else '(t, r) ← parse_string s; Some (c :: t, r)
  end.
(** What comes between two brackets, after the first: elements with commas
    between them and the closing bracket. *)
Fixpoint parse_items {A} (p : cstr → option (A * cstr)) (close : ascii) (fuel : nat) (s : cstr) : option (list A * cstr) :=
  match fuel with
  | O => None
  | S fuel =>
      '(a, r) ← p s;
      match r with
      | [] => None
      | c :: r => if decide (c = close) then Some ([a], r)
                  else if code c =? 44 then '(l, r) ← parse_items p close fuel r; Some (a :: l, r) else None
      end
  end.
Definition parse_seq {A} (p : cstr → option (A * cstr)) (close : ascii) (fuel : nat) (s : cstr) : option (list A * cstr) :=
  match s with
  | c :: r => if decide (c = close) then Some ([], r) else parse_items p close fuel s
  | [] => None
  end.
Definition parse_member (p : cstr → option (json * cstr)) (s : cstr) : option ((cstr * json) * cstr) :=
  match s with
  | c :: s => if code c =? 34 then
      '(k, r) ← parse_string s;
      match r with c :: r => if code c =? 58 then '(v, r) ← p r; Some ((k, v), r) else None | [] => None end
    else None
  | [] => None
  end.
Fixpoint strip (w s : cstr) : option cstr :=
  match w, s with [], s => Some s | a :: w, b :: s => if decide (a = b) then strip w s else None | _, [] => None end.
Definition parse_int (s : cstr) : json * cstr :=
  let '(neg, s) := sign s in let '(z, r) := digits 10 0 s in (JInt (if neg then - z else z), r).
Fixpoint parse_value (fuel : nat) (s : cstr) : option (json * cstr) :=
  match fuel, s with
  | S fuel, c :: r =>
      let k := code c in
      if k =? 34 then '(t, r) ← parse_string r; Some (JString t, r)
      else if k =? 91 then '(l, r) ← parse_seq (parse_value fuel) (char 93) fuel r; Some (JArray l, r)
      else if k =? 123 then '(m, r) ← parse_seq (parse_member (parse_value fuel)) (char 125) fuel r; Some (JObject m, r)
      else if k =? 110 then r ← strip (str "null") s; Some (JNull, r)
      else if k =? 116 then r ← strip (str "true") s; Some (JBool true, r)
      else if k =? 102 then r ← strip (str "false") s; Some (JBool false, r)
      else Some (parse_int s)
  | _, _ => None
  end.
Definition parse (s : cstr) : json :=
  match parse_value (S (length s)) s with Some (v, []) => v | _ => JNull end.

(** ** The parser reads what the printer writes *)
Lemma parse_string_escape s r : parse_string (escape_string s ++ char 34 :: r) = Some (s, r).
Proof.
  induction s as [|c s IH]; [done|]. unfold escape_string in *. cbn [map concat].
  assert (Hc : escape_char c = if (code c =? 34) || (code c =? 92) then [char 92; c] else [c]) by done. rewrite Hc.
  destruct ((code c =? 34) || (code c =? 92)) eqn:E; cbn [app parse_string].
  - change (code (char 92) =? 34) with false. change (code (char 92) =? 92) with true. cbv iota. by rewrite IH.
  - apply orb_false_iff in E as [-> ->]. by rewrite IH.
Qed.

(** What may follow a printed value. *)
Definition stops (r : cstr) : Prop := match r with [] => True | c :: _ => digit_in 10 c = None end.
Lemma digit_ascii c d : digit_in 10 c = Some d → 48 ≤ code c ≤ 57.
Proof.
  unfold digit_in, digit_of. assert (H := code_range c).
  destruct ((48 <=? code c) && (code c <=? 57)) eqn:E1; [intros _; apply andb_true_iff in E1 as [?%Z.leb_le ?%Z.leb_le]; lia|].
  destruct ((97 <=? code c) && (code c <=? 122)) eqn:E2; [|destruct ((65 <=? code c) && (code c <=? 90)) eqn:E3; [|done]].
  all: rewrite andb_true_iff, !Z.leb_le in *; destruct (Z.ltb_spec (code c - 87) 10), (Z.ltb_spec (code c - 55) 10); try done; lia.
Qed.
Lemma digits_app b acc s r n : digits b acc s = (n, []) → (match r with [] => True | c :: _ => digit_in b c = None end) →
  digits b acc (s ++ r) = (n, r).
Proof.
  revert acc. induction s as [|c s IH]; intros acc; cbn [app digits].
  - intros [= <-] Hr. destruct r as [|c r]; [done|]. cbn. by rewrite Hr.
  - destruct (digit_in b c); [apply IH|done].
Qed.
Lemma is_int_range z : is_int z ↔ -2147483648 ≤ z ≤ INT_MAX.
Proof. unfold is_int. rewrite andb_True, !Is_true_true, !Z.leb_le. done. Qed.
Lemma dec_head z : is_int z → ∃ c t, dec z = c :: t ∧ (code c = 45 ∨ 48 ≤ code c ≤ 57).
Proof.
  intros Hz%is_int_range. unfold dec, INT_MAX in *. destruct (Z.ltb_spec z 0); [by exists (char 45), (dec_digits 20 (- z) []); split; [|left]|].
  destruct (strtol_digits 32 z) as (c & t & -> & _ & _ & _ & [d Hd] & _); [done|lia|]. exists c, t. split; [done|]. right. by eapply digit_ascii.
Qed.
Lemma parse_int_dec z r : is_int z → stops r → parse_int (dec z ++ r) = (JInt z, r).
Proof.
  intros Hz%is_int_range Hr. unfold parse_int, dec, INT_MAX in *. destruct (Z.ltb_spec z 0).
  - destruct (strtol_digits 32 (- z)) as (c & t & E & _ & _ & _ & _ & Hd); [done|lia|]. rewrite E in *. cbn [app sign].
    change (code (char 45) =? 45) with true. cbv iota. change (c :: t ++ r) with ((c :: t) ++ r). rewrite (digits_app _ _ (c :: t) _ _ Hd Hr). f_equal. f_equal. lia.
  - destruct (strtol_digits 32 z) as (c & t & E & _ & H1 & H2 & _ & Hd); [done|lia|]. rewrite E in *. cbn [app sign].
    rewrite H1, H2. change (c :: t ++ r) with ((c :: t) ++ r). rewrite (digits_app _ _ (c :: t) _ _ Hd Hr). done.
Qed.

Lemma items_print {A} (pr : A → cstr) p close l : ∀ fuel r, (length l ≤ fuel)%nat → l ≠ [] → code close ≠ 44 → digit_in 10 close = None →
  Forall (λ a, ∀ r, stops r → p (pr a ++ r) = Some (a, r)) l →
  parse_items p close fuel (commas (map pr l) ++ close :: r) = Some (l, r).
Proof.
  induction l as [|a l IH]; intros fuel r Hf Hn Hc Hd Hp; [done|]. apply Forall_cons in Hp as [Ha Hl].
  cbn [length] in Hf. destruct fuel as [|fuel]; [lia|]. cbn [map commas parse_items]. destruct l as [|b l].
  - cbn [map]. rewrite Ha by done. cbn. by rewrite decide_True.
  - cbn [map]. rewrite <-app_assoc, Ha by done. cbn [mbind option_bind app].
    rewrite decide_False by (intros <-; done). change (code (char 44) =? 44) with true. cbv iota.
    change (pr b :: map pr l) with (map pr (b :: l)). by rewrite IH; [|lia| | | |].
Qed.
Lemma seq_print {A} (pr : A → cstr) p close l fuel r : (length l ≤ fuel)%nat → code close ≠ 44 → digit_in 10 close = None →
  Forall (λ a, (∃ c t, pr a = c :: t ∧ c ≠ close) ∧ ∀ r, stops r → p (pr a ++ r) = Some (a, r)) l →
  parse_seq p close fuel (commas (map pr l) ++ close :: r) = Some (l, r).
Proof.
  intros Hf Hc Hd Hl. unfold parse_seq. destruct l as [|a l]; [cbn; by rewrite decide_True|].
  assert (Hi := items_print pr p close (a :: l) fuel r Hf ltac:(done) Hc Hd). apply Forall_and in Hl as [Hh Hp]. specialize (Hi Hp).
  apply Forall_cons in Hh as [(c & t & E & Hcc) _]. revert Hi. cbn [map commas].
  destruct (map pr l); rewrite E; cbn [app]; by rewrite decide_False.
Qed.

Lemma commas_length l : Forall (λ s, s ≠ []) l → (length l ≤ length (commas l))%nat ∧ ∀ s, s ∈ l → (length s ≤ length (commas l))%nat.
Proof.
  induction l as [|s l IH]; intros Hl; [split; [done|set_solver]|]. apply Forall_cons in Hl as [Hs Hl]. destruct (IH Hl) as [IH1 IH2].
  assert (Hs' : (0 < length s)%nat) by (destruct s; [done|cbn; lia]). destruct l as [|s' l].
  - cbn [commas]. split; [cbn; lia|]. intros s'. rewrite list_elem_of_singleton. by intros ->.
  - change (commas (s :: s' :: l)) with (s ++ char 44 :: commas (s' :: l)). rewrite length_app. cbn [length] in *. split; [lia|].
    intros t [->|Ht]%elem_of_cons; [lia|]. specialize (IH2 t Ht). lia.
Qed.

Lemma print_head v : plain v → ∃ c t, print v = c :: t ∧ c ≠ char 93.
Proof.
  destruct v as [ |[]|z|t|s|l|m]; cbn [plain print]; intros H; try (eexists _, _; split; [done|vm_compute; congruence]); try done.
  destruct (dec_head z H) as (c & t & -> & Hc). exists c, t. split; [done|]. intros ->. revert Hc. vm_compute. naive_solver.
Qed.

Lemma parse_print v : plain v → ∀ fuel r, (length (print v) ≤ fuel)%nat → stops r → parse_value fuel (print v ++ r) = Some (v, r).
Proof.
  induction v as [ |b|z|t|s|l IH|m IH] using json_ind'; cbn [plain]; intros Hp fuel r Hf Hr; try done.
  - destruct fuel; [cbn in Hf; lia|]. done.
  - destruct b, fuel; cbn in Hf; try lia; done.
  - destruct (dec_head z Hp) as (c & t & E & Hc). cbn [print] in *. assert (Hi := parse_int_dec z r Hp Hr). rewrite E in *. cbn [app] in *.
    destruct fuel as [|fuel]; [cbn in Hf; lia|]. cbn [parse_value]. rewrite Hi.
    by rewrite !(proj2 (Z.eqb_neq (code c) _)) by lia.
  - destruct fuel as [|fuel]; [cbn in Hf; lia|]. cbn [print print_string app parse_value]. rewrite <-app_assoc. cbn [app].
    change (code (char 34) =? 34) with true. cbv iota. by rewrite parse_string_escape.
  - destruct fuel as [|fuel]; [cbn in Hf; lia|]. cbn [print app parse_value]. rewrite <-app_assoc. cbn [app].
    change (code (char 91) =? 34) with false. change (code (char 91) =? 91) with true. cbv iota.
    assert (Hne : Forall (λ s, s ≠ []) (map print l)).
    { apply Forall_fmap, Forall_forall. intros v Hv. destruct (print_head v) as (c & t & E & _); [|cbn; by rewrite E].
      apply forallb_True in Hp. rewrite Forall_forall in Hp. by apply Hp. }
    destruct (commas_length _ Hne) as [H1 H2]. rewrite length_map in H1. cbn [print length] in Hf. rewrite length_app in Hf. cbn [length] in Hf.
    rewrite (seq_print print); [done|lia|done|done|]. apply forallb_True in Hp. rewrite Forall_forall in *.
    intros v Hv. split; [apply print_head, Hp, Hv|]. intros r' Hr'. apply IH; [done|by apply Hp| |done].
    specialize (H2 (print v)). ospecialize (H2 _); [apply list_elem_of_fmap; eauto|]. lia.
  - destruct fuel as [|fuel]; [cbn in Hf; lia|]. cbn [print app parse_value]. rewrite <-app_assoc. cbn [app].
    change (code (char 123) =? 34) with false. change (code (char 123) =? 91) with false. change (code (char 123) =? 123) with true. cbv iota.
    assert (Hne : Forall (λ s, s ≠ []) (map (print_member print) m)) by (apply Forall_fmap, Forall_forall; done).
    destruct (commas_length _ Hne) as [H1 H2]. rewrite length_map in H1. cbn [print length] in Hf. rewrite length_app in Hf. cbn [length] in Hf.
    apply andb_True in Hp as [Hp _]. apply forallb_True in Hp. rewrite Forall_forall in Hp, IH.
    rewrite (seq_print (print_member print)); [done|lia|done|done|]. rewrite Forall_forall.
    intros [k v] Hv. split; [eexists _, _; split; [done|vm_compute; congruence]|]. intros r' Hr'.
    specialize (H2 (print_member print (k, v))). ospecialize (H2 _); [apply list_elem_of_fmap; eauto|].
    specialize (Hp _ Hv). apply andb_True in Hp as [_ Hp].
    unfold print_member in *. cbn [fst snd print_string app parse_member] in *. change (code (char 34) =? 34) with true. cbv iota.
    rewrite <-!app_assoc. cbn [app]. rewrite parse_string_escape. cbn [mbind option_bind]. change (code (char 58) =? 58) with true. cbv iota.
    rewrite (IH _ Hv Hp); [done| |done]. unfold print_string in H2. cbn [length] in H2. rewrite !length_app in H2. cbn [length] in H2. cbn [snd]. lia.
Qed.
Lemma parse_printed_value v : plain v → parse (print v) = v.
Proof.
  intros Hp. unfold parse. assert (H := parse_print v Hp (S (length (print v))) [] ltac:(lia) I).
  rewrite app_nil_r in H. by rewrite H.
Qed.

(** ** What is printed is JSON text *)
Lemma star_all L s : Forall (λ x, L x) s → star L (concat s).
Proof.
  induction 1 as [|x s Hx _ IH]; [constructor|]. destruct x as [|c x]; [done|]. by constructor.
Qed.
Lemma print_string_json s : printable s → json_string (print_string s).
Proof.
  intros Hs. unfold print_string. apply one_char; [lia|]. eexists. split; [done|]. apply in_cat; [|by apply one_char_end].
  unfold escape_string. apply star_all, Forall_fmap, Forall_forall. intros c Hc. cbn. unfold printable in Hs.
  apply forallb_True in Hs. rewrite Forall_forall in Hs. apply Hs, andb_True in Hc as [H1 H2]. apply Is_true_true, Z.leb_le in H1.
  unfold escape_char, string_char. destruct ((code c =? 34) || (code c =? 92)) eqn:E.
  - right. change [char 92; c] with ([char 92] ++ [c]). apply in_cat; [by apply one_char_end|]. left. exists c. split; [done|].
    unfold is_escaped, is_char. apply orb_true_iff in E as [-> | ->]; [done|by rewrite orb_true_r].
  - left. exists c. split; [done|]. unfold is_plain, is_char. apply orb_false_iff in E as [-> ->]. by rewrite (proj2 (Z.leb_le _ _) H1).
Qed.

Lemma dec_digits_shape fuel n acc : 0 < n < 10 ^ Z.of_nat (S fuel) → Forall (λ c, is_dec c = true) acc →
  ∃ d s, 1 ≤ d ≤ 9 ∧ dec_digits (S fuel) n acc = char (48 + d) :: s ∧ Forall (λ c, is_dec c = true) s.
Proof.
  revert n acc. induction fuel as [|fuel IH]; intros n acc Hn Ha.
  - cbn in Hn. exists n, acc. cbn [dec_digits]. rewrite (proj2 (Z.ltb_lt n 10)) by lia. split_and!; [lia|lia|done|done].
  - cbn [dec_digits]. destruct (Z.ltb_spec n 10); [exists n, acc; split_and!; [lia|lia|done|done]|].
    assert (Hd := Z.mod_pos_bound n 10 ltac:(lia)). apply IH.
    + replace (10 ^ Z.of_nat (S (S fuel))) with (10 * 10 ^ Z.of_nat (S fuel)) in Hn by (rewrite (Nat2Z.inj_succ (S fuel)), Z.pow_succ_r by lia; lia).
      split; [apply Z.div_str_pos; lia|]. apply Z.div_lt_upper_bound; lia.
    + constructor; [|done]. unfold is_dec. rewrite code_char by lia. apply andb_true_iff. rewrite !Z.leb_le. lia.
Qed.
Lemma decs_all s : Forall (λ c, is_dec c = true) s → decs s.
Proof.
  intros Hs. assert (H := star_all (one is_dec) (map (λ c, [c]) s)). unfold decs.
  assert (E : s = concat (map (λ c, [c]) s)) by (clear; induction s as [|c s IH]; [done|]; cbn; by rewrite <-IH). rewrite E. apply H.
  apply Forall_fmap. eapply Forall_impl; [exact Hs|]. intros c Hc. by exists c.
Qed.
Lemma unsigned_dec n : 0 ≤ n ≤ 2147483648 → unsigned_number (dec_digits 20 n []).
Proof.
  intros Hn. destruct (decide (n = 0)) as [->|Hn0].
  - left. change (dec_digits 20 0 []) with ([char 48] ++ []). apply in_cat; [by apply one_char_end|]. by left.
  - destruct (dec_digits_shape 19 n []) as (d & s & Hd & -> & Hs); [change (10 ^ Z.of_nat 20) with 100000000000000000000; lia|constructor|].
    right. change (char (48 + d) :: s) with ([char (48 + d)] ++ s). apply in_cat.
    + exists (char (48 + d)). split; [done|]. unfold is_dec19. rewrite code_char by lia. apply andb_true_iff. rewrite !Z.leb_le. lia.
    + unfold int_rest. rewrite <-(app_nil_r s). apply in_cat; [by apply decs_all|]. left. by left.
Qed.
Lemma dec_json z : is_int z → checker_number (dec z).
Proof.
  intros Hz%is_int_range. unfold dec, INT_MAX in *. unfold checker_number. destruct (Z.ltb_spec z 0).
  - change (char 45 :: dec_digits 20 (- z) []) with ([char 45] ++ dec_digits 20 (- z) []).
    apply in_cat; [right; by apply one_char_end|]. apply unsigned_dec. lia.
  - change (dec_digits 20 z []) with ([] ++ dec_digits 20 z []). apply in_cat; [by left|]. apply unsigned_dec. lia.
Qed.

Section printed.
Variable number : lang.
Lemma array_tail_json n l s : Forall (value number n) (s :: l) →
  ∃ t, commas (s :: l) ++ [char 93] = s ++ t ∧ arr_tail number n t.
Proof.
  revert s. induction l as [|s' l IH]; intros s Hl; apply Forall_cons in Hl as [Hs Hl].
  - exists [char 93]. split; [done|]. apply (arr_end number n []). constructor.
  - destruct (IH s' Hl) as (t & E & Ht). exists (char 44 :: commas (s' :: l) ++ [char 93]). split.
    + change (commas (s :: s' :: l)) with (s ++ char 44 :: commas (s' :: l)). by rewrite <-app_assoc.
    + rewrite E. apply (arr_next number n [] [] s' t); [constructor|constructor|by apply Forall_cons in Hl as [? _]|done].
Qed.
Lemma array_json n l : Forall (value number n) l → arr_body number n (commas l ++ [char 93]).
Proof.
  intros Hl. destruct l as [|s l]; [apply (arr_empty number n []); constructor|].
  destruct (array_tail_json n l s Hl) as (t & -> & Ht). apply Forall_cons in Hl as [Hs _].
  apply (arr_full number n [] s t); [constructor|done|done].
Qed.
(** A printed member of an object. *)
Definition member_text (n : nat) (s : cstr) : Prop := ∃ k v, s = k ++ char 58 :: v ∧ json_string k ∧ value number n v.
Lemma members_json n l s : Forall (member_text n) (s :: l) → members number n (commas (s :: l) ++ [char 125]).
Proof.
  revert s. induction l as [|s' l IH]; intros s Hl; apply Forall_cons in Hl as [(k & v & -> & Hk & Hv) Hl].
  - change (commas [k ++ char 58 :: v]) with (k ++ char 58 :: v). rewrite <-app_assoc. cbn [app].
    apply (member number n [] k [] [] v [char 125]); [constructor|done|constructor|constructor|done|].
    apply (obj_end number n []). constructor.
  - change (commas ((k ++ char 58 :: v) :: s' :: l)) with ((k ++ char 58 :: v) ++ char 44 :: commas (s' :: l)).
    rewrite <-!app_assoc. cbn [app]. rewrite <-?app_assoc. cbn [app].
    apply (member number n [] k [] [] v (char 44 :: commas (s' :: l) ++ [char 125])); [constructor|done|constructor|constructor|done|].
    apply (obj_next number n [] (commas (s' :: l) ++ [char 125])); [constructor|]. by apply IH.
Qed.
Lemma object_json n l : Forall (member_text n) l → obj_body number n (commas l ++ [char 125]).
Proof.
  intros Hl. destruct l as [|s l]; [apply (obj_empty number n []); constructor|]. apply obj_full. by apply members_json.
Qed.
End printed.

Lemma member_texts n m : Forall (λ kv, plain kv.2 → ∀ n, (nesting kv.2 ≤ n)%nat → value checker_number n (print kv.2)) m →
  plain (JObject m) → (nesting (JObject m) ≤ S n)%nat → Forall (member_text checker_number n) (map (print_member print) m).
Proof.
  cbn [plain nesting]. intros IH Hp Hn. apply andb_True in Hp as [Hp _].
  apply forallb_True in Hp. apply Forall_fmap, Forall_forall. intros [k v] Hv. rewrite Forall_forall in IH, Hp.
  specialize (Hp _ Hv). apply andb_True in Hp as [Hk Hpv]. exists (print_string k), (print v). split; [done|].
  split; [by apply print_string_json|]. apply (IH _ Hv Hpv).
  assert (H := proj1 (list_max_le (map (λ kv, nesting kv.2) m) n) ltac:(lia)). rewrite Forall_fmap in H. rewrite Forall_forall in H. by apply (H _ Hv).
Qed.
Lemma print_json v : plain v → ∀ n, (nesting v ≤ n)%nat → value checker_number n (print v).
Proof.
  induction v as [ |b|z|t|s|l IH|m IH] using json_ind'; intros Hp n Hn; try done.
  - apply value_null. do 4 (apply one_cons; split; [done|]). done.
  - destruct b; [apply value_true|apply value_false]; repeat (apply one_cons; split; [done|]); done.
  - by apply value_number, dec_json.
  - by apply value_string, print_string_json.
  - cbn [nesting print plain] in *. destruct n as [|n]; [lia|]. apply value_array, array_json. apply forallb_True in Hp.
    apply Forall_fmap, Forall_forall. intros v Hv. rewrite Forall_forall in IH, Hp. apply IH; [done|by apply Hp|].
    assert (H := proj1 (list_max_le (map nesting l) n) ltac:(lia)). rewrite Forall_fmap in H. rewrite Forall_forall in H. by apply (H v).
  - destruct n as [|n]; [cbn [nesting] in Hn; lia|]. apply value_object, object_json. by apply member_texts.
Qed.
Lemma print_object_text m n : plain (JObject m) → (nesting (JObject m) ≤ n)%nat → json_text checker_number n (print (JObject m)).
Proof.
  intros Hp Hn. destruct n as [|n]; [cbn [nesting] in Hn; lia|]. unfold json_text. cbn [print].
  change (json_text checker_number (S n) ([] ++ char 123 :: commas (map (print_member print) m) ++ [char 125])).
  apply in_cat; [constructor|]. rewrite <-(app_nil_r (char 123 :: _)). apply in_cat; [|constructor].
  right. apply one_cons. split; [done|]. apply object_json, member_texts; [|done|done].
  apply Forall_forall. intros kv _. apply print_json.
Qed.

(** ** What is printed is ASCII and does not look like two requests *)
Definition ascii_char (c : ascii) : Prop := 0 < code c < 128.
Lemma commas_all (P : ascii → Prop) l : P (char 44) → Forall (Forall P) l → Forall P (commas l).
Proof.
  intros Hc. induction 1 as [|s l Hs Hl IH]; [constructor|]. destruct l as [|s' l]; [done|].
  change (commas (s :: s' :: l)) with (s ++ char 44 :: commas (s' :: l)). apply Forall_app. split; [done|]. by constructor.
Qed.
Lemma print_string_ascii s : printable s → Forall ascii_char (print_string s).
Proof.
  intros Hs. unfold print_string. constructor; [by vm_compute|]. apply Forall_app. split; [|repeat constructor; by vm_compute].
  unfold escape_string. apply Forall_concat, Forall_fmap. unfold printable in Hs. apply forallb_True in Hs. eapply Forall_impl; [exact Hs|].
  intros c Hc. apply andb_True in Hc as [H1 H2]. apply Is_true_true, Z.leb_le in H1, H2. cbn. unfold escape_char, ascii_char.
  assert (Hcc : 0 < code c < 128) by lia. destruct (_ || _); repeat constructor; try lia. all: by vm_compute.
Qed.
Lemma dec_digits_ascii fuel n acc : 0 ≤ n → Forall ascii_char acc → Forall ascii_char (dec_digits fuel n acc).
Proof.
  revert n acc. induction fuel as [|fuel IH]; intros n acc Hn Ha; [done|]. cbn [dec_digits].
  assert (Hd : ∀ d, 0 ≤ d < 10 → ascii_char (char (48 + d))) by (intros d Hd; unfold ascii_char; rewrite code_char; lia).
  destruct (Z.ltb_spec n 10); [constructor; [apply Hd; lia|done]|].
  apply IH; [apply Z.div_pos; lia|]. constructor; [apply Hd, Z.mod_pos_bound; lia|done].
Qed.
Lemma print_ascii v : plain v → Forall ascii_char (print v).
Proof.
  induction v as [ |b|z|t|s|l IH|m IH] using json_ind'; cbn [plain print]; intros Hp; try done.
  - repeat constructor; by vm_compute.
  - destruct b; repeat constructor; by vm_compute.
  - unfold dec. destruct (Z.ltb_spec z 0); [constructor; [by vm_compute|]|]; apply dec_digits_ascii; (lia || constructor).
  - by apply print_string_ascii.
  - constructor; [by vm_compute|]. apply Forall_app. split; [|repeat constructor; by vm_compute].
    apply commas_all; [by vm_compute|]. apply forallb_True in Hp. apply Forall_fmap. rewrite Forall_forall in *. intros v Hv. by apply IH, Hp.
  - constructor; [by vm_compute|]. apply Forall_app. split; [|repeat constructor; by vm_compute].
    apply andb_True in Hp as [Hp _]. apply forallb_True in Hp. rewrite Forall_forall in IH, Hp.
    apply commas_all; [by vm_compute|]. apply Forall_fmap, Forall_forall. intros [k v] Hv. specialize (Hp _ Hv). apply andb_True in Hp as [Hk Hpv].
    unfold print_member. apply Forall_app. split; [by apply print_string_ascii|]. constructor; [by vm_compute|]. by apply (IH _ Hv).
Qed.
(** A text after another that begins with neither brace. *)
Lemma unsplit_then p a c b : unsplit p a → code c ≠ 123 → code c ≠ 125 → unsplit false b → unsplit p (a ++ c :: b).
Proof.
  intros Ha H1 H2 Hb. revert p Ha. induction a as [|x a IH]; intros p Ha; cbn [app unsplit] in *.
  - rewrite (proj2 (Z.eqb_neq _ _) H1), (proj2 (Z.eqb_neq _ _) H2), andb_false_r. done.
  - apply andb_True in Ha as [Hx Ha]. apply andb_True. split; [done|]. by apply IH.
Qed.
Lemma unsplit_close p a : unsplit p a → unsplit p (a ++ [char 125]).
Proof.
  revert p. induction a as [|x a IH]; intros p Ha; cbn [app unsplit] in *; [by destruct p|].
  apply andb_True in Ha as [Hx Ha]. apply andb_True. split; [done|]. by apply IH.
Qed.
Lemma unsplit_plain s : Forall (λ c, code c ≠ 125) s → unsplit false s.
Proof.
  induction 1 as [|c s Hc _ IH]; [done|]. cbn [unsplit andb negb]. by rewrite (proj2 (Z.eqb_neq _ _) Hc).
Qed.
Lemma unsplit_commas l : Forall (λ s, unsplit false s) l → unsplit false (commas l).
Proof.
  induction 1 as [|s l Hs Hl IH]; [done|]. destruct l as [|s' l]; [done|].
  change (commas (s :: s' :: l)) with (s ++ char 44 :: commas (s' :: l)). by apply unsplit_then; [| | |exact IH].
Qed.
Lemma print_string_unsplit s : no_brace s → Forall (λ c, code c ≠ 125) (print_string s).
Proof.
  intros Hs. unfold print_string. constructor; [done|]. apply Forall_app. split; [|by repeat constructor].
  unfold escape_string. apply Forall_concat, Forall_fmap. unfold no_brace in Hs. apply forallb_True in Hs. eapply Forall_impl; [exact Hs|].
  intros c Hc. apply negb_True in Hc. cbn. assert (code c ≠ 125) by (intros E; rewrite E in Hc; done).
  unfold escape_char. destruct (_ || _); by repeat constructor.
Qed.
Lemma dec_unsplit z : is_int z → Forall (λ c, code c ≠ 125) (dec z).
Proof.
  intros Hz%is_int_range. unfold dec, INT_MAX in *.
  assert (H : ∀ fuel n acc, 0 ≤ n → Forall (λ c, code c ≠ 125) acc → Forall (λ c, code c ≠ 125) (dec_digits fuel n acc)).
  { assert (Hd : ∀ d, 0 ≤ d < 10 → code (char (48 + d)) ≠ 125) by (intros d Hd; rewrite code_char; lia).
    induction fuel as [|fuel IH]; intros n acc Hn Ha; [done|]. cbn [dec_digits].
    destruct (Z.ltb_spec n 10); [constructor; [apply Hd; lia|done]|].
    apply IH; [apply Z.div_pos; lia|]. constructor; [apply Hd, Z.mod_pos_bound; lia|done]. }
  destruct (Z.ltb_spec z 0); [constructor; [by vm_compute|]|]; apply H; (lia || constructor).
Qed.
Lemma print_unsplit v : plain v → tame v → unsplit false (print v).
Proof.
  induction v as [ |[]|z|t|s|l IH|m IH] using json_ind'; cbn [plain tame print]; intros Hp Ht; try done.
  - by apply unsplit_plain, dec_unsplit.
  - by apply unsplit_plain, print_string_unsplit.
  - change (char 91 :: commas (map print l) ++ [char 93]) with ([char 91] ++ (commas (map print l) ++ [char 93])).
    cbn [app unsplit]. apply andb_True. split; [done|]. apply unsplit_then; [|done|done|done]. apply unsplit_commas, Forall_fmap.
    apply forallb_True in Hp, Ht. rewrite Forall_forall in *. intros v Hv. apply IH; [done|by apply Hp|by apply Ht].
  - cbn [unsplit]. apply andb_True. split; [done|]. apply unsplit_close, unsplit_commas, Forall_fmap. apply andb_True in Hp as [Hp _].
    apply forallb_True in Hp, Ht. rewrite Forall_forall in *. intros [k v] Hv. specialize (Hp _ Hv). specialize (Ht _ Hv).
    apply andb_True in Hp as [_ Hp]. apply andb_True in Ht as [Hk Ht]. cbn [fst snd] in *.
    change (unsplit false (print_string k ++ char 58 :: print v)). apply unsplit_then; [by apply unsplit_plain, print_string_unsplit|done|done|]. by apply (IH _ Hv).
Qed.

(** ** What is printed is not long *)
Lemma escape_length s : strlen (escape_string s) ≤ 2 * strlen s.
Proof.
  unfold escape_string, strlen. induction s as [|c s IH]; [done|]. cbn [map concat]. rewrite length_app. cbn [length].
  assert (length (escape_char c) ≤ 2)%nat by (unfold escape_char; destruct (_ || _); cbn; lia). lia.
Qed.
Lemma print_string_length s : strlen (print_string s) ≤ 2 * strlen s + 2.
Proof. assert (H := escape_length s). unfold print_string, strlen in *. cbn [length]. rewrite length_app. cbn [length]. lia. Qed.
Lemma dec_digits_length fuel n acc : 0 ≤ n → ∀ k : nat, n < 10 ^ Z.of_nat (S k) → (length (dec_digits fuel n acc) ≤ S k + length acc)%nat.
Proof.
  revert n acc. induction fuel as [|fuel IH]; intros n acc Hn k Hk; cbn [dec_digits]; [lia|]. destruct (Z.ltb_spec n 10); [cbn; lia|].
  destruct k as [|k]; [cbn in Hk; lia|].
  assert (Hl := IH (n / 10) (char (48 + n mod 10) :: acc) (Z.div_pos n 10 Hn ltac:(done)) k). ospecialize (Hl _).
  { apply Z.div_lt_upper_bound; [done|]. by rewrite (Nat2Z.inj_succ (S k)), Z.pow_succ_r in Hk by lia. }
  cbn [length] in Hl. lia.
Qed.
Lemma dec_length z : is_int z → strlen (dec z) ≤ 11.
Proof.
  intros Hz%is_int_range. unfold dec, strlen, INT_MAX in *. destruct (Z.ltb_spec z 0) as [Hneg|Hneg].
  - assert (H0 := dec_digits_length 20 (- z) [] ltac:(lia) 9). cbn [length] in *. change (10 ^ Z.of_nat 10) with 10000000000 in H0. lia.
  - assert (H0 := dec_digits_length 20 z [] ltac:(lia) 9). cbn [length] in *. change (10 ^ Z.of_nat 10) with 10000000000 in H0. lia.
Qed.
Lemma commas_bound l : strlen (commas l) ≤ sum (map (λ s, strlen s + 2) l).
Proof.
  induction l as [|s l IH]; [done|]. destruct l as [|s' l]; [cbn; lia|].
  change (commas (s :: s' :: l)) with (s ++ char 44 :: commas (s' :: l)). unfold strlen in *. rewrite length_app. cbn [length].
  cbn [map sum foldr] in *. lia.
Qed.
Lemma sum_le {A} (f g : A → Z) l : Forall (λ x, f x ≤ g x) l → sum (map f l) ≤ sum (map g l).
Proof. induction 1; cbn; [done|]. unfold sum in *. lia. Qed.
Lemma print_length v : plain v → strlen (print v) ≤ bulk v.
Proof.
  induction v as [ |[]|z|t|s|l IH|m IH] using json_ind'; cbn [plain]; intros Hp; try done.
  - by apply dec_length.
  - apply print_string_length.
  - cbn [print bulk]. assert (H := commas_bound (map print l)). rewrite map_map in H. apply forallb_True in Hp.
    assert (H' := sum_le (λ v, strlen (print v) + 2) (λ v, bulk v + 2) l). ospecialize (H' _).
    { rewrite Forall_forall in IH, Hp. apply Forall_forall. intros v Hv. specialize (IH v Hv (Hp v Hv)). lia. }
    unfold strlen in *. cbn [length]. rewrite length_app. cbn [length]. lia.
  - cbn [print bulk]. assert (H := commas_bound (map (print_member print) m)). rewrite map_map in H. apply andb_True in Hp as [Hp _]. apply forallb_True in Hp.
    assert (H' := sum_le (λ kv, strlen (print_member print kv) + 2) (λ kv, 2 * strlen kv.1 + bulk kv.2 + 7) m). ospecialize (H' _).
    { rewrite Forall_forall in IH, Hp. apply Forall_forall. intros [k v] Hv. specialize (Hp _ Hv). apply andb_True in Hp as [_ Hp].
      specialize (IH _ Hv Hp). cbn [fst snd] in *. assert (Hk := print_string_length k). unfold print_member, strlen in *. cbn [fst snd].
      rewrite length_app. cbn [length]. lia. }
    unfold strlen in *. cbn [length]. rewrite length_app. cbn [length]. lia.
Qed.

(** ** The printer and the parser keep the laws *)
Definition object_add (v : json) (k : cstr) (x : json) : json :=
  match v with JObject m => JObject (List.filter (λ kv, bool_decide (kv.1 ≠ k)) m ++ [(k, x)]) | _ => v end.
Definition object_get (v : json) (k : cstr) : json := match v with JObject m => find_member m k | _ => JNull end.
Definition get_string (v : json) : option cstr := match v with JNull => None | JString s => Some s | _ => Some (print v) end.
Definition get_int (v : json) : Z := match v with JInt z => z | _ => 0 end.

#[local] Program Instance simple_json : JsonC := {|
  json_object_object_add := object_add; json_object_object_get := object_get; json_object_get_string := get_string;
  json_object_get_int := get_int;
  json_object_to_json_string := print; json_tokener_parse := parse |}.
Next Obligation.
  intros m k v Hk. cbn. f_equal. f_equal. induction m as [|[k' v'] m IH]; [done|]. cbn in *.
  rewrite not_elem_of_cons in Hk. destruct Hk as [Hne Hk]. rewrite bool_decide_true by congruence. by rewrite IH.
Qed.
Next Obligation. done. Qed.
Next Obligation. done. Qed.
Next Obligation. done. Qed.
Next Obligation. done. Qed.
Next Obligation. done. Qed.
Next Obligation. intros m. by eexists. Qed.
Next Obligation. intros m Hp. by apply parse_printed_value. Qed.
Next Obligation. intros m. by eexists. Qed.
Next Obligation. intros m. cbn. exists (char 123 :: commas (map (print_member print) m)). done. Qed.
Next Obligation. intros m n. apply print_object_text. Qed.
Next Obligation. intros m Hp. by apply print_ascii in Hp. Qed.
Next Obligation. intros m Hp Ht. by apply print_unsplit. Qed.
Next Obligation. intros m Hp. by apply print_length. Qed.
