(* ===== verification/NetServer.v ===== *)
(** * The socket server of lib-adav: who is connected, and how requests are cut out of a stream

    The class ADNetServer ([ADNetServer.cpp]), without the system calls: [accept],
    [recv], [close] and [getpeername] are the arguments of the operations.  The
    chains are the queues that [AdavChain] proves them to be, and the semaphore of
    the sending thread is a count.  Memory does not run out. *)

From Stdlib Require Import ZArith Lia Ascii String.
From stdpp Require Import base list strings sets.
From S2P Require Import Prelude CString CxxStd Json.

Definition NUL : ascii := char 0.
Definition RBRACE : ascii := char 125.
Definition LBRACE : ascii := char 123.

(** A buffer read as a C string. *)
Fixpoint c_text (s : list ascii) : cstr :=
  match s with [] => [] | c :: s => if decide (c = NUL) then [] else c :: c_text s end.

Record net_data_obj := MkNet {
  n_ident : Z;
  sock_descriptor : Z;
  port : Z;
  ip : cstr;
  cltid : Z;
  data_buffer_len : Z;
  data_buffer : cstr
}.

(** [sent] is what the sending thread did: the socket, the text, and whether the
    connection was still there. *)
Record ADNetServer := MkServer {
  clientInfo_chain : list net_data_obj;
  client_ident : Z;
  request_chain : list net_data_obj;
  request_ident : Z;
  response_chain : list net_data_obj;
  response_sema : Z;
  sent : list (Z * cstr * bool)
}.
Definition set_clientInfo_chain v s := MkServer v (client_ident s) (request_chain s) (request_ident s) (response_chain s) (response_sema s) (sent s).
Definition set_client_ident v s := MkServer (clientInfo_chain s) v (request_chain s) (request_ident s) (response_chain s) (response_sema s) (sent s).
Definition set_request_chain v s := MkServer (clientInfo_chain s) (client_ident s) v (request_ident s) (response_chain s) (response_sema s) (sent s).
Definition set_request_ident v s := MkServer (clientInfo_chain s) (client_ident s) (request_chain s) v (response_chain s) (response_sema s) (sent s).
Definition set_response_chain v s := MkServer (clientInfo_chain s) (client_ident s) (request_chain s) (request_ident s) v (response_sema s) (sent s).
Definition set_response_sema v s := MkServer (clientInfo_chain s) (client_ident s) (request_chain s) (request_ident s) (response_chain s) v (sent s).
Definition set_sent v s := MkServer (clientInfo_chain s) (client_ident s) (request_chain s) (request_ident s) (response_chain s) (response_sema s) v.

Definition ADNetServer_new : ADNetServer := MkServer [] 0 [] 0 [] 0 [].
Definition AD_NET_SERVER_MAX_BUFFER_SIZE : Z := 65535.

Notation NM := (M ADNetServer).

(** ** Who is connected *)

(** [chain_generate_ident] of the two chains. *)
Definition gen_client_ident : NM Z := i ← gets client_ident; modify (set_client_ident (int32 (i + 1)));; mret (int32 (i + 1)).
Definition gen_request_ident : NM Z := i ← gets request_ident; modify (set_request_ident (int32 (i + 1)));; mret (int32 (i + 1)).

(** The address is copied into 512 bytes when it is shorter than 1023.  The
    fields of the entry that stay uninitialised, here zero, are never read. *)
Definition register_client_info (sock_descr clt_port : Z) (clt_ip : cstr) : NM Z :=
  ident ← gen_client_ident;
  ip ← (if (0 <? strlen clt_ip) && (strlen clt_ip <? 1023)
        then (if strlen clt_ip <? 512 then mret clt_ip else oops) else mret []);
  c ← gets clientInfo_chain;
  modify (set_clientInfo_chain (c ++ [MkNet ident sock_descr clt_port ip 0 0 []]));;
  mret 0.

Definition identify_chain_element (ident : Z) (o : net_data_obj) : bool := sock_descriptor o =? ident.
Fixpoint remove_first_with (ident : Z) (l : list net_data_obj) : list net_data_obj :=
  match l with [] => [] | o :: l => if identify_chain_element ident o then l else o :: remove_first_with ident l end.
Definition deregister_client_info (sock_descr : Z) : NM Z :=
  c ← gets clientInfo_chain; modify (set_clientInfo_chain (remove_first_with sock_descr c));; mret 0.

(** The address, port and identifier of a client; without an entry the
    address is empty and the other two are -1. *)
Definition client_of (c : list net_data_obj) (sock_descr : Z) : cstr * Z * Z :=
  match find (identify_chain_element sock_descr) c with
  | Some o => (ip o, port o, n_ident o)
  | None => ([], -1, -1)
  end.

(** [print_client_info] after [accept]: [getnameinfo] may fail, and then the
    connection is served without an entry. *)
Definition print_client_info (long_bits : Z) (info : option (cstr * cstr)) (sock_descr : Z) : NM unit :=
  match info with
  | Some (hbuf, sbuf) => register_client_info sock_descr (atoi long_bits sbuf) hbuf;; mret ()
  | None => mret ()
  end.

(** ** Receiving *)

(** A request of [len] bytes whose text is copied out of the buffer. *)
Definition put_request (sd : Z) (info : cstr * Z * Z) (len : Z) (text : cstr) : NM unit :=
  let '(cltip, cltport, clt) := info in
  ident ← gen_request_ident;
  c ← gets request_chain;
  modify (set_request_chain (c ++ [MkNet ident sd cltport cltip clt len text])).

(** The bytes that [strncpy] copies: [n] of the buffer from [last] on. *)
Definition piece (buf : list ascii) (last n : nat) : list ascii := take n (drop last buf).

(** The loop over [i]: [buf] is the data and the NUL behind it. *)
Fixpoint frame_loop (n i last : nat) (sd : Z) (info : cstr * Z * Z) (buf : list ascii) : NM nat :=
  match n with
  | O => mret last
  | S n =>
      if decide (buf !! i = Some RBRACE ∧ buf !! S i = Some LBRACE) then
        put_request sd info (Z.of_nat (i - last + 1)) (c_text (piece buf last (i - last + 1)));;
        frame_loop n (S i) (S i) sd info buf
      else frame_loop n (S i) last sd info buf
  end.

(** [json_receive_data_and_notify_consumer] before it notifies. *)
Definition receive_json (sd : Z) (data : list ascii) : NM unit :=
  c ← gets clientInfo_chain;
  let info := client_of c sd in
  last ← frame_loop (length data) 0 0 sd info (data ++ [NUL]);
  put_request sd info (Z.of_nat (length data - last)) (c_text (piece (data ++ [NUL]) last (length data - last + 1))).

(** [binary_receive_data_and_notify_consumer] before it notifies. *)
Definition receive_binary (sd : Z) (data : list ascii) : NM unit :=
  c ← gets clientInfo_chain; put_request sd (client_of c sd) (Z.of_nat (length data)) (c_text data).

(** What the listening thread does with the result of [recv]: the terminating NUL
    does not fit a full buffer. *)
Inductive recv_result := RecvData (data : list ascii) | RecvClosed | RecvError (would_block : bool).
Definition on_recv (sd : Z) (r : recv_result) : NM unit :=
  match r with
  | RecvData data => if Z.of_nat (length data) <? AD_NET_SERVER_MAX_BUFFER_SIZE then receive_json sd data else oops
  | RecvClosed => deregister_client_info sd;; mret ()
  | RecvError _ => mret ()
  end.

(** ** Sending *)
Definition schedule_response (sd : Z) (buf : cstr) : NM Z :=
  c ← gets response_chain;
  modify (set_response_chain (c ++ [MkNet 0 sd 0 [] 0 (strlen buf) buf]));;
  v ← gets response_sema; modify (set_response_sema (v + 1));; mret 0.

(** [monoshot_callback_function] after the semaphore. *)
Definition send_one (alive : Z → bool) : NM unit :=
  c ← gets response_chain;
  match c with
  | [] => mret ()
  | o :: c =>
      modify (set_response_chain c);;
      l ← gets sent; modify (set_sent (l ++ [(sock_descriptor o, data_buffer o, alive (sock_descriptor o))]))
  end.
Definition response_thread (alive : Z → bool) : NM unit :=
  v ← gets response_sema;
  if 0 <? v then modify (set_response_sema (v - 1));; send_one alive else blocked.

(** ** What the framing does *)

(** The reference: cut between a closing and an opening brace. [cur] is the piece
    that has begun. *)
Fixpoint cuts (cur s : list ascii) : list (list ascii) :=
  match s with
  | [] => [cur]
  | c :: s => if decide (c = RBRACE ∧ head s = Some LBRACE) then (cur ++ [c]) :: cuts [] s else cuts (cur ++ [c]) s
  end.

Lemma c_text_app_nul s t : NUL ∉ s → c_text (s ++ NUL :: t) = s.
Proof.
  induction s as [|c s IH]; intros Hs; cbn [app c_text]; [by rewrite decide_True|]. apply not_elem_of_cons in Hs as [Hc Hs].
  rewrite decide_False by congruence. f_equal. by apply IH.
Qed.
Lemma c_text_all s : NUL ∉ s → c_text s = s.
Proof.
  induction s as [|c s IH]; intros Hs; cbn [c_text]; [done|]. apply not_elem_of_cons in Hs as [Hc Hs].
  rewrite decide_False by congruence. f_equal. by apply IH.
Qed.
Lemma c_text_idemp_nul s : c_text (s ++ [NUL]) = c_text s.
Proof. induction s as [|c s IH]; cbn [app c_text]; [done|]. by destruct (decide (c = NUL)); [|f_equal]. Qed.
Lemma c_text_no_nul s : NUL ∉ c_text s.
Proof. induction s as [|c s IH]; cbn; [set_solver|]. case_decide; set_solver. Qed.

(** The request that [put_request] makes of a piece. *)
Definition numbered (i : Z) (n : nat) : Z := Nat.iter n (λ z, int32 (z + 1)) i.
Definition request_of (sd : Z) (info : cstr * Z * Z) (ident : Z) (p : list ascii) : net_data_obj :=
  let '(cltip, cltport, clt) := info in MkNet ident sd cltport cltip clt (Z.of_nat (length p)) (c_text p).
Fixpoint requests_of (sd : Z) (info : cstr * Z * Z) (ident : Z) (ps : list (list ascii)) : list net_data_obj :=
  match ps with [] => [] | p :: ps => request_of sd info (int32 (ident + 1)) p :: requests_of sd info (int32 (ident + 1)) ps end.
Definition put_pieces (sd : Z) (info : cstr * Z * Z) (ps : list (list ascii)) (s : ADNetServer) : ADNetServer :=
  set_request_ident (numbered (request_ident s) (length ps))
    (set_request_chain (request_chain s ++ requests_of sd info (request_ident s) ps) s).

Lemma put_request_run sd info len p s : len = Z.of_nat (length p) → put_request sd info len (c_text p) s = Done () (put_pieces sd info [p] s).
Proof. intros ->. destruct info as [[a b] c]. by destruct s. Qed.
Lemma put_pieces_cons sd info p ps s : put_pieces sd info ps (put_pieces sd info [p] s) = put_pieces sd info (p :: ps) s.
Proof.
  unfold put_pieces, numbered. destruct s. unfold set_request_ident, set_request_chain. cbn [length requests_of clientInfo_chain client_ident request_chain request_ident response_chain response_sema sent].
  f_equal; [by rewrite <-app_assoc|].
  change (Nat.iter (length ps) (λ z, int32 (z + 1)) ((λ z, int32 (z + 1)) request_ident0) = Nat.iter (S (length ps)) (λ z, int32 (z + 1)) request_ident0).
  by rewrite Nat.iter_swap.
Qed.

Lemma piece_snoc (buf : list ascii) last i c : (last ≤ i)%nat → buf !! i = Some c →
  piece buf last (S i - last) = piece buf last (i - last) ++ [c].
Proof.
  intros Hl Hc. unfold piece. replace (S i - last)%nat with (S (i - last)) by lia. apply take_S_r. rewrite lookup_drop.
  by replace (last + (i - last))%nat with i by lia.
Qed.

Lemma frame_loop_run sd info data n : ∀ i last s, (last ≤ i)%nat → (i + n = length data)%nat → ∃ last',
  (last' ≤ length data)%nat ∧
  (∃ ps, frame_loop n i last sd info (data ++ [NUL]) s = Done last' (put_pieces sd info ps s) ∧
    cuts (piece data last (i - last)) (drop i data) = ps ++ [drop last' data]).
Proof.
  induction n as [|n IH]; intros i last s Hl Hn.
  - exists last. split; [lia|]. exists []. split; [unfold put_pieces; by destruct s; cbn; rewrite app_nil_r|].
    rewrite (drop_ge data i) by lia. cbn [cuts app]. unfold piece. rewrite take_ge; [done|]. rewrite length_drop. lia.
  - destruct (lookup_lt_is_Some_2 data i ltac:(lia)) as [c Hc]. rewrite (drop_S data c i Hc). cbn [cuts frame_loop].
    assert (Hi : (data ++ [NUL]) !! i = Some c) by (rewrite lookup_app_l; [done|lia]).
    assert (Hh : (data ++ [NUL]) !! S i = Some LBRACE ↔ head (drop (S i) data) = Some LBRACE).
    { destruct (decide (S i < length data)%nat) as [Hlt|Hge].
      - rewrite lookup_app_l by done. destruct (lookup_lt_is_Some_2 data (S i) Hlt) as [d Hd]. by rewrite (drop_S data d (S i) Hd), Hd.
      - rewrite lookup_app_r, drop_ge by lia. replace (S i - length data)%nat with 0%nat by lia. cbn. split; [|done]. by intros [= E]. }
    assert (Hp : piece (data ++ [NUL]) last (i - last + 1) = piece data last (i - last) ++ [c]).
    { replace (i - last + 1)%nat with (S i - last)%nat by lia. rewrite (piece_snoc _ _ _ c) by done. f_equal. unfold piece.
      rewrite drop_app_le by lia. rewrite take_app_le; [done|]. rewrite length_drop. lia. }
    case_decide as Hd; [|].
    + destruct Hd as [Hd1 Hd2]. rewrite Hi in Hd1. injection Hd1 as ->. rewrite decide_True by tauto.
      assert (Hput := put_request_run sd info (Z.of_nat (i - last + 1)) (piece (data ++ [NUL]) last (i - last + 1)) s).
      ospecialize (Hput _); [rewrite Hp, length_app; unfold piece; rewrite length_take, length_drop; cbn [length]; lia|]. mstep Hput.
      destruct (IH (S i) (S i) (put_pieces sd info [piece (data ++ [NUL]) last (i - last + 1)] s)) as (last' & Hl' & ps & Hr & Hc'); [lia|lia|].
      exists last'. split; [done|]. exists ((piece data last (i - last) ++ [RBRACE]) :: ps). split.
      * rewrite Hr, put_pieces_cons, Hp. done.
      * replace (S i - S i)%nat with 0%nat in Hc' by lia. unfold piece in Hc' at 1. rewrite take_0 in Hc'. by rewrite Hc'.
    + rewrite decide_False by (rewrite <-Hh, <-(inj_iff Some c RBRACE), <-Hi; tauto).
      destruct (IH (S i) last s) as (last' & Hl' & ps & Hr & Hc'); [lia|lia|]. exists last'. split; [done|]. exists ps. split; [done|].
      by rewrite <-Hc', (piece_snoc _ _ _ c).
Qed.

Lemma cuts_not_nil cur s : cuts cur s ≠ [].
Proof. revert cur. induction s as [|c s IH]; intros cur; cbn; [done|]. by case_decide. Qed.
Lemma requests_of_app sd info ps qs : ∀ i,
  requests_of sd info i (ps ++ qs) = requests_of sd info i ps ++ requests_of sd info (numbered i (length ps)) qs.
Proof.
  induction ps as [|p ps IH]; intros i; [done|]. cbn [app requests_of length]. f_equal. rewrite IH. f_equal. f_equal.
  unfold numbered. by rewrite Nat.iter_succ_r.
Qed.
Lemma receive_json_run sd data s : receive_json sd data s = Done () (put_pieces sd (client_of (clientInfo_chain s) sd) (cuts [] data) s).
Proof.
  unfold receive_json. msimpl. set (info := client_of _ sd).
  destruct (frame_loop_run sd info data (length data) 0 0 s) as (last & Hl & ps & Hr & Hc); [lia|lia|]. mstep Hr.
  replace (0 - 0)%nat with 0%nat in Hc by lia. unfold piece in Hc. rewrite take_0, drop_0 in Hc. rewrite Hc.
  assert (Hp : piece (data ++ [NUL]) last (length data - last + 1) = drop last data ++ [NUL]).
  { unfold piece. rewrite drop_app_le by done. apply take_ge. rewrite length_app, length_drop. cbn. lia. }
  rewrite Hp, c_text_idemp_nul, (put_request_run _ _ _ (drop last data)) by (rewrite length_drop; done).
  f_equal. unfold put_pieces, set_request_ident, set_request_chain, numbered.
  cbn [clientInfo_chain client_ident request_chain request_ident response_chain response_sema sent].
  rewrite length_app, requests_of_app, <-app_assoc. f_equal. cbn [length]. by rewrite Nat.add_1_r.
Qed.

(** A text that is one request on the wire: it begins and ends with a
    brace and nothing inside it looks like the border of two. *)
Record one_request (t : cstr) : Prop := OneRequest {
  or_head : head t = Some LBRACE;
  or_last : last t = Some RBRACE;
  or_unsplit : unsplit false t;
  or_nul : NUL ∉ t
}.
Lemma brace_code (c : ascii) z : 0 ≤ z < 256 → c = char z ↔ code c = z.
Proof. intros Hz. split; [intros ->; by apply code_char|]. intros <-. by rewrite char_code. Qed.
Lemma unsplit_weaken p s : unsplit p s → unsplit false s.
Proof. destruct s as [|c s]; cbn [unsplit]; [done|]. intros H. apply andb_True in H as [_ H]. by apply andb_True. Qed.
Lemma cuts_request t cur r : last t = Some RBRACE → unsplit false t → head r = Some LBRACE →
  cuts cur (t ++ r) = (cur ++ t) :: cuts [] r.
Proof.
  intros Hl Hu Hr. revert cur Hl Hu. induction t as [|c t IH]; intros cur Hl Hu; [done|]. cbn [app cuts unsplit] in *.
  apply andb_True in Hu as [_ Hu]. destruct t as [|d t].
  - injection Hl as ->. by rewrite decide_True.
  - rewrite decide_False; [rewrite IH; [by rewrite <-app_assoc|done|by eapply unsplit_weaken]|].
    intros [Hc Hd]. cbn in Hd. injection Hd as Hd. apply (brace_code c 125) in Hc; [|done]. apply (brace_code d 123) in Hd; [|done].
    cbn [unsplit] in Hu. by rewrite Hc, Hd in Hu.
Qed.
Lemma cuts_whole t cur : unsplit false t → cuts cur t = [cur ++ t].
Proof.
  revert cur. induction t as [|c t IH]; intros cur Hu; cbn [cuts unsplit] in *; [by rewrite app_nil_r|].
  apply andb_True in Hu as [_ Hu]. rewrite decide_False; [rewrite IH; [by rewrite <-app_assoc|by eapply unsplit_weaken]|].
  intros [Hc Hd]. destruct t as [|d t]; [done|]. injection Hd as Hd. apply (brace_code c 125) in Hc; [|done]. apply (brace_code d 123) in Hd; [|done].
  cbn [unsplit] in Hu. by rewrite Hc, Hd in Hu.
Qed.
Lemma cuts_concat ts : Forall one_request ts → ts ≠ [] → cuts [] (concat ts) = ts.
Proof.
  induction 1 as [|t ts Ht Hts IH]; intros Hn; [done|]. destruct Ht as [H1 H2 H3 _]. destruct ts as [|t' ts].
  - cbn [concat]. rewrite app_nil_r. by apply (cuts_whole t []).
  - apply Forall_cons in Hts as [Ht' _]. assert (Hh : head (concat (t' :: ts)) = Some LBRACE).
    { destruct Ht' as [Hh _ _ _]. cbn. by destruct t'. }
    change (concat (t :: t' :: ts)) with (t ++ concat (t' :: ts)). rewrite cuts_request by done.
    by rewrite IH.
Qed.
Lemma requests_texts sd info ps i : data_buffer <$> requests_of sd info i ps = c_text <$> ps.
Proof. revert i. induction ps as [|p ps IH]; intros i; [done|]. destruct info as [[a b] c]. cbn. f_equal. apply IH. Qed.
Lemma requests_sockets sd info ps i : Forall (λ o, sock_descriptor o = sd) (requests_of sd info i ps).
Proof. revert i. induction ps as [|p ps IH]; intros i; constructor; [by destruct info as [[a b] c]|apply IH]. Qed.

(** C38: requests that arrive together are taken apart again: when the bytes of
    one [recv] are texts that each begin and end with a brace and have no two braces
    back to back inside, the chain gets exactly those texts, in their order, under
    the socket they came from. *)
Theorem requests_are_taken_apart sd ts s : ts ≠ [] → Forall one_request ts → Z.of_nat (length (concat ts)) < AD_NET_SERVER_MAX_BUFFER_SIZE →
  ∃ os, on_recv sd (RecvData (concat ts)) s = Done () (set_request_ident (numbered (request_ident s) (length ts)) (set_request_chain (request_chain s ++ os) s)) ∧
    data_buffer <$> os = ts ∧ Forall (λ o, sock_descriptor o = sd) os.
Proof.
  intros Hn Ht Hlen. cbn [on_recv]. rewrite (proj2 (Z.ltb_lt _ _) Hlen), receive_json_run, (cuts_concat ts Ht Hn).
  eexists. split; [unfold put_pieces; reflexivity|]. split; [|apply requests_sockets]. rewrite requests_texts.
  clear -Ht. induction Ht as [|t ts [_ _ _ Ht] _ IH]; [done|]. cbn. f_equal; [by apply c_text_all|exact IH].
Qed.

(** The client sends the NUL behind its text, and the server does not look for
    it: of two requests that one [recv] returns only the first is taken up, and the
    other is neither processed nor answered. *)
Theorem second_request_is_lost sd t1 t2 s : one_request t1 → one_request t2 → Z.of_nat (length t1 + length t2) + 2 < AD_NET_SERVER_MAX_BUFFER_SIZE →
  ∃ s', on_recv sd (RecvData (t1 ++ [NUL] ++ t2 ++ [NUL])) s = Done () s' ∧
    data_buffer <$> request_chain s' = (data_buffer <$> request_chain s) ++ [t1].
Proof.
  intros [H1 H2 H3 H4] [H5 H6 H7 H8] Hlen. cbn [on_recv].
  rewrite (proj2 (Z.ltb_lt _ _)), receive_json_run by (rewrite !length_app; cbn; lia). eexists. split; [done|].
  assert (Hu : unsplit false (t1 ++ [NUL] ++ t2 ++ [NUL])).
  { apply unsplit_then; [done|done|done|]. by apply unsplit_then. }
  rewrite (cuts_whole _ [] Hu). cbn [app put_pieces]. unfold put_pieces. cbn [request_chain set_request_ident set_request_chain requests_of].
  rewrite fmap_app. f_equal. destruct (client_of _ _) as [[a b] c]. cbn. f_equal. by apply c_text_app_nul.
Qed.

(** ** Examples *)
Definition q (s : string) : cstr := concat (map (λ c, if code c =? 39 then [char 34] else [c]) (str s)).
Definition ping (id : string) : cstr := q ("{ 'jsonrpc': '2.0', 'method': 'ping', 'id': " ++ id ++ " }").
Lemma one_request_ping : one_request (ping "1") ∧ one_request (ping "2").
Proof. split; (split; [reflexivity|reflexivity|vm_compute; exact I|apply (bool_decide_unpack _); vm_compute; exact I]). Qed.
Lemma requests_are_taken_apart_witness :
  ∃ os, on_recv 7 (RecvData (concat [ping "1"; ping "2"])) ADNetServer_new =
    Done () (set_request_ident 2 (set_request_chain ([] ++ os) ADNetServer_new)) ∧ data_buffer <$> os = [ping "1"; ping "2"] ∧
    Forall (λ o, sock_descriptor o = 7) os.
Proof.
  destruct one_request_ping as [H1 H2].
  exact (requests_are_taken_apart 7 [ping "1"; ping "2"] ADNetServer_new ltac:(discriminate) (Forall_cons_2 _ _ _ H1 (Forall_cons_2 _ _ _ H2 (Forall_nil_2 _))) ltac:(vm_compute; reflexivity)).
Defined.
Lemma second_request_is_lost_witness :
  ∃ s', on_recv 7 (RecvData (ping "1" ++ [NUL] ++ ping "2" ++ [NUL])) ADNetServer_new = Done () s' ∧
    data_buffer <$> request_chain s' = [ping "1"].
Proof.
  destruct one_request_ping as [H1 H2].
  exact (second_request_is_lost 7 (ping "1") (ping "2") ADNetServer_new H1 H2 ltac:(vm_compute; reflexivity)).
Defined.
