(* ===== verification/JsonRpc.v ===== *)
(** * The JSON-RPC server of lib-adav

    The class ADJsonRpcProxy ([ADJsonRpcProxy.cpp]), which takes requests up and
    answers them, and ADJsonRpcMapper ([ADJsonRpcMapper.cpp]), whose thread has
    them worked on.  Three threads share the objects of the requests: the listening
    thread of the socket server, the thread of the mapper, and the thread that
    sends results.  A schedule is a list of their turns; a turn of a thread whose
    semaphore is zero blocks.  The work itself is a parameter: [RpcMgr] has the
    work of the services. *)

From Stdlib Require Import ZArith Lia Ascii String.
From stdpp Require Import base list gmap strings sets.
From S2P Require Import Prelude CString CxxStd RpcResult Lang JsonGrammar JsonChecker JsonProofs Json NetServer.

(** ** Data *)
Inductive CMD_TASK_RESULT :=
| CMD_TASK_RESULT_FAIL | CMD_TASK_RESULT_SUCCESS | CMD_TASK_RESULT_INVALID_PARAM | CMD_TASK_RESULT_DEV_TIMEOUT
| CMD_TASK_RESULT_DEV_ERR | CMD_TASK_RESULT_MEM_FAIL | CMD_TASK_RESULT_IN_PROGRESS | CMD_TASK_RESULT_NOT_STARTED
| CMD_TASK_RESULT_ACTUAL_VALUE | CMD_TASK_RESULT_UNKNOWN.
Inductive CMD_TASK_ACC := CMD_TASK_ACCESS_SYNC | CMD_TASK_ACCESS_ASYNC | CMD_TASK_ACCESS_NONE.
Inductive RPC_SRV_ACT :=
| RPC_SRV_ACT_READ | RPC_SRV_ACT_WRITE | RPC_SRV_ACT_VERIFY | RPC_SRV_ACT_READONLY | RPC_SRV_ACT_WRITEONLY
| RPC_SRV_ACT_READ_AND_WRITE | RPC_SRV_ACT_RESET | RPC_SRV_ACT_UNKNOWN | RPC_SRV_ACT_NONE.
#[export] Instance RPC_SRV_ACT_eq_dec : EqDecision RPC_SRV_ACT.
Proof. solve_decision. Defined.

Inductive JSON_RPC_ERR_TYPE :=
| JSON_RPC_ERR_PARSE_ERROR | JSON_RPC_ERR_INVALID_REQ | JSON_RPC_ERR_METHOD_NOT_FOUND | JSON_RPC_ERR_INVALID_PARAMS | JSON_RPC_ERR_INTERNAL_ERROR
| JSON_RPC_ERR_UNKNOWN_ERROR.
Definition err_code (e : JSON_RPC_ERR_TYPE) : Z :=
  match e with
  | JSON_RPC_ERR_PARSE_ERROR => -32700 | JSON_RPC_ERR_INVALID_REQ => -32600 | JSON_RPC_ERR_METHOD_NOT_FOUND => -32601
  | JSON_RPC_ERR_INVALID_PARAMS => -32602 | JSON_RPC_ERR_INTERNAL_ERROR => -32603 | JSON_RPC_ERR_UNKNOWN_ERROR => -33000
  end.
Definition err_msg (e : JSON_RPC_ERR_TYPE) : cstr :=
  match e with
  | JSON_RPC_ERR_PARSE_ERROR => str "Parse error." | JSON_RPC_ERR_INVALID_REQ => str "Invalid Request."
  | JSON_RPC_ERR_METHOD_NOT_FOUND => str "Method not found." | JSON_RPC_ERR_INVALID_PARAMS => str "Invalid params."
  | JSON_RPC_ERR_INTERNAL_ERROR | JSON_RPC_ERR_UNKNOWN_ERROR => str "Internal error."
  end.
Definition JSON_RPC_VERSION : cstr := str "2.0".
Definition JSON_RPC_METHOD_NAME_MAX_LENGTH : Z := 256.
Definition JSON_RPC_METHOD_RESP_MAX_LENGTH : Z := 1100.

(** The request of the service: [P] is the type of its packets.  Nothing reads
    [devID] and [dataSize]. *)
Record RPC_SRV_REQ (P : Type) := MkSrvReq {
  action : RPC_SRV_ACT;
  cmd : Z;
  clientId : Z;
  reqIdent : Z;
  result : RPC_SRV_RESULT;
  dataRef : option P
}.
Arguments MkSrvReq {P} _ _ _ _ _ _.
Arguments action {P} _.
Arguments cmd {P} _.
Arguments clientId {P} _.
Arguments reqIdent {P} _.
Arguments result {P} _.
Arguments dataRef {P} _.

Record JsonDataCommObj (P : Type) := MkComm {
  req_id : Z;
  cmd_index : Z;
  mapper_result : CMD_TASK_RESULT;
  rpc_code : RPC_SRV_RESULT;
  socket_data : cstr;
  json_resp_obj : json;
  custom_result_string : cstr;
  pDataObj : option (RPC_SRV_REQ P);
  cltport : Z;
  clt_ip : cstr;
  sock_id : Z;
  sock_descr : Z
}.
Arguments MkComm {P} _ _ _ _ _ _ _ _ _ _ _ _.
Arguments req_id {P} _.
Arguments cmd_index {P} _.
Arguments mapper_result {P} _.
Arguments rpc_code {P} _.
Arguments socket_data {P} _.
Arguments json_resp_obj {P} _.
Arguments custom_result_string {P} _.
Arguments pDataObj {P} _.
Arguments cltport {P} _.
Arguments clt_ip {P} _.
Arguments sock_id {P} _.
Arguments sock_descr {P} _.

(** [pRpcMethod] is the index of the method; there is one mapper. *)
Record api_task_obj := MkTask {
  ident : Z;
  t_req_id : Z;
  pNetData : net_data_obj;
  method_index : Z;
  access : CMD_TASK_ACC;
  task_result : CMD_TASK_RESULT;
  t_rpc_code : RPC_SRV_RESULT;
  t_resp_obj : json;
  t_custom : cstr
}.

(** The state the threads share, with the state [W] of the service.  [taken] is
    what the listening thread has taken up so far, in order. *)
Record server (W : Type) := MkProxy {
  ServerSocket : ADNetServer;
  taken : list net_data_obj;
  rpc_call_list : list (cstr * Z);
  heap : gmap Z api_task_obj;
  next : Z;
  task_ident : Z;
  ReqRespChain : list Z;
  ReqChain : list Z;
  req_sema : Z;
  RespChain : list Z;
  resp_sema : Z;
  total_req_received : Z;
  total_res_sent : Z;
  world : W
}.
Arguments MkProxy {W} _ _ _ _ _ _ _ _ _ _ _ _ _ _.
Arguments ServerSocket {W} _.
Arguments taken {W} _.
Arguments rpc_call_list {W} _.
Arguments heap {W} _.
Arguments next {W} _.
Arguments task_ident {W} _.
Arguments ReqRespChain {W} _.
Arguments ReqChain {W} _.
Arguments req_sema {W} _.
Arguments RespChain {W} _.
Arguments resp_sema {W} _.
Arguments total_req_received {W} _.
Arguments total_res_sent {W} _.
Arguments world {W} _.

Section setters.
Context {W : Type}.
Implicit Type s : server W.
Definition set_socket v s : server W := MkProxy v (taken s) (rpc_call_list s) (heap s) (next s) (task_ident s) (ReqRespChain s) (ReqChain s) (req_sema s) (RespChain s) (resp_sema s) (total_req_received s) (total_res_sent s) (world s).
Definition set_taken v s : server W := MkProxy (ServerSocket s) v (rpc_call_list s) (heap s) (next s) (task_ident s) (ReqRespChain s) (ReqChain s) (req_sema s) (RespChain s) (resp_sema s) (total_req_received s) (total_res_sent s) (world s).
Definition set_rpc_call_list v s : server W := MkProxy (ServerSocket s) (taken s) v (heap s) (next s) (task_ident s) (ReqRespChain s) (ReqChain s) (req_sema s) (RespChain s) (resp_sema s) (total_req_received s) (total_res_sent s) (world s).
Definition set_heap v s : server W := MkProxy (ServerSocket s) (taken s) (rpc_call_list s) v (next s) (task_ident s) (ReqRespChain s) (ReqChain s) (req_sema s) (RespChain s) (resp_sema s) (total_req_received s) (total_res_sent s) (world s).
Definition set_next v s : server W := MkProxy (ServerSocket s) (taken s) (rpc_call_list s) (heap s) v (task_ident s) (ReqRespChain s) (ReqChain s) (req_sema s) (RespChain s) (resp_sema s) (total_req_received s) (total_res_sent s) (world s).
Definition set_task_ident v s : server W := MkProxy (ServerSocket s) (taken s) (rpc_call_list s) (heap s) (next s) v (ReqRespChain s) (ReqChain s) (req_sema s) (RespChain s) (resp_sema s) (total_req_received s) (total_res_sent s) (world s).
Definition set_ReqRespChain v s : server W := MkProxy (ServerSocket s) (taken s) (rpc_call_list s) (heap s) (next s) (task_ident s) v (ReqChain s) (req_sema s) (RespChain s) (resp_sema s) (total_req_received s) (total_res_sent s) (world s).
Definition set_ReqChain v s : server W := MkProxy (ServerSocket s) (taken s) (rpc_call_list s) (heap s) (next s) (task_ident s) (ReqRespChain s) v (req_sema s) (RespChain s) (resp_sema s) (total_req_received s) (total_res_sent s) (world s).
Definition set_req_sema v s : server W := MkProxy (ServerSocket s) (taken s) (rpc_call_list s) (heap s) (next s) (task_ident s) (ReqRespChain s) (ReqChain s) v (RespChain s) (resp_sema s) (total_req_received s) (total_res_sent s) (world s).
Definition set_RespChain v s : server W := MkProxy (ServerSocket s) (taken s) (rpc_call_list s) (heap s) (next s) (task_ident s) (ReqRespChain s) (ReqChain s) (req_sema s) v (resp_sema s) (total_req_received s) (total_res_sent s) (world s).
Definition set_resp_sema v s : server W := MkProxy (ServerSocket s) (taken s) (rpc_call_list s) (heap s) (next s) (task_ident s) (ReqRespChain s) (ReqChain s) (req_sema s) (RespChain s) v (total_req_received s) (total_res_sent s) (world s).
Definition set_received v s : server W := MkProxy (ServerSocket s) (taken s) (rpc_call_list s) (heap s) (next s) (task_ident s) (ReqRespChain s) (ReqChain s) (req_sema s) (RespChain s) (resp_sema s) v (total_res_sent s) (world s).
Definition set_res_sent v s : server W := MkProxy (ServerSocket s) (taken s) (rpc_call_list s) (heap s) (next s) (task_ident s) (ReqRespChain s) (ReqChain s) (req_sema s) (RespChain s) (resp_sema s) (total_req_received s) v (world s).
Definition set_world v s : server W := MkProxy (ServerSocket s) (taken s) (rpc_call_list s) (heap s) (next s) (task_ident s) (ReqRespChain s) (ReqChain s) (req_sema s) (RespChain s) (resp_sema s) (total_req_received s) (total_res_sent s) v.
End setters.

(** A text that [sprintf] writes into [n] bytes. *)
Definition fits {S} (n : Z) (s : cstr) : M S unit := if strlen s <? n then mret () else oops.

Section proxy.
Context `{JsonC} {W P : Type}.
Notation SM := (M (server W)).
Notation comm := (JsonDataCommObj P).
(** Whether [char] is signed, and how wide [long] is. *)
Variables (char_signed : bool) (long_bits : Z).
(** The mapper and the worker that are attached. *)
Variables process_json_to_binary process_work process_binary_to_json : comm → M W (Z * comm).

Definition on_socket {A} (c : NM A) : SM A := zoom ServerSocket set_socket c.

(** *** Reading a request *)
Definition json_syntax_error (s : cstr) : option Z :=
  match json_checker_function char_signed s None with Done r _ => Some r | _ => None end.

(** A member as text, in a buffer of [n] bytes. *)
Definition member_text_in {S} (n : Z) (new_obj : json) (key : cstr) : M S (option cstr) :=
  match json_object_get_string (json_object_object_get new_obj key) with
  | None => mret None
  | Some s => fits n s;; mret (Some s)
  end.
Definition check_jsonrpc_2_0 {S} (new_obj : json) : M S Z :=
  v ← member_text_in 256 new_obj (str "jsonrpc");
  mret (match v with Some s => if decide (s = JSON_RPC_VERSION) then 0 else -1 | None => -1 end).
Fixpoint is_this_method_registered (l : list (cstr * Z)) (m : cstr) : option Z :=
  match l with [] => None | (name, i) :: l => if decide (name = m) then Some i else is_this_method_registered l m end.
Definition get_jsonrpc_method (l : list (cstr * Z)) {S} (new_obj : json) : M S (option Z) :=
  v ← member_text_in JSON_RPC_METHOD_NAME_MAX_LENGTH new_obj (str "method");
  mret (match v with Some m => is_this_method_registered l m | None => None end).
Definition get_jsonrpc_acc {S} (new_obj : json) : M S CMD_TASK_ACC :=
  v ← member_text_in 256 new_obj (str "access");
  mret (match v with
        | Some s => if decide (s = str "sync") then CMD_TASK_ACCESS_SYNC
                    else if decide (s = str "async") then CMD_TASK_ACCESS_ASYNC else CMD_TASK_ACCESS_SYNC
        | None => CMD_TASK_ACCESS_SYNC
        end).
Definition get_jsonrpc_id {S} (new_obj : json) : M S (option Z) :=
  v ← member_text_in 256 new_obj (str "id"); mret (atoi long_bits <$> v).

(** *** Answers *)
Definition error_object (id : Z) (e : JSON_RPC_ERR_TYPE) : json :=
  let error_obj := json_object_object_add json_object_new_object (str "code") (json_object_new_int (err_code e)) in
  let error_obj := json_object_object_add error_obj (str "message") (json_object_new_string (err_msg e)) in
  let o := json_object_object_add json_object_new_object (str "jsonrpc") (json_object_new_string JSON_RPC_VERSION) in
  let o := json_object_object_add o (str "error") error_obj in
  json_object_object_add o (str "id")
    (match e with JSON_RPC_ERR_METHOD_NOT_FOUND | JSON_RPC_ERR_INVALID_PARAMS => json_object_new_int id | _ => JNull end).
Definition send_message (sock : Z) (o : json) : NM unit :=
  let message := json_object_to_json_string o in
  fits AD_NET_SERVER_MAX_BUFFER_SIZE message;; schedule_response sock message;; mret ().
(** The two objects a sender builds: the message, and the member of it that has an
    object of its own.  A [json_object_put] of the last reference to an object frees
    it with its members, [tree] in all; using one that is not [live] any more is a
    fault. *)
Inductive json_ref := intrnl_obj | member_obj.
#[export] Instance json_ref_eq_dec : EqDecision json_ref.
Proof. solve_decision. Defined.
Definition put_last (tree live : list json_ref) : NM (list json_ref) :=
  let among l r := existsb (λ x, bool_decide (x = r)) l in
  if forallb (among live) tree then mret (List.filter (λ r, negb (among tree r)) live) else oops.

(** [error_obj] belongs to [intrnl_obj] once it is added, and is put once more. *)
Definition json_send_error_response_string (id sock : Z) (e : JSON_RPC_ERR_TYPE) : NM unit :=
  send_message sock (error_object id e);;
  live ← put_last [intrnl_obj; member_obj] [intrnl_obj; member_obj];
  put_last [member_obj] live;; mret ().
Definition result_object (id : Z) (r : cstr) (resp : json) : json :=
  let o := json_object_object_add json_object_new_object (str "jsonrpc") (json_object_new_string JSON_RPC_VERSION) in
  let o := json_object_object_add o (str "result")
    (match resp with
     | JNull =>
         let t := json_object_object_add json_object_new_object (str "return") (json_object_new_string (str "fail")) in
         json_object_object_add t (str "errorType") (json_object_new_string r)
     | _ => resp
     end) in
  json_object_object_add o (str "id") (json_object_new_int id).
(** The object of the mapper is freed with the message; [tmp_obj], made when there
    is none, is put before the message that it belongs to. *)
Definition json_send_result_response_string (id sock : Z) (r : cstr) (resp : json) : NM unit :=
  send_message sock (result_object id r resp);;
  live ← (match resp with
          | JNull => put_last [member_obj] [intrnl_obj; member_obj]
          | _ => mret [intrnl_obj; member_obj]
          end);
  put_last [intrnl_obj; member_obj] live;; mret ().
Definition result_text (r : CMD_TASK_RESULT) (custom : cstr) : cstr :=
  match r with
  | CMD_TASK_RESULT_FAIL => str "Fail"
  | CMD_TASK_RESULT_SUCCESS => str "Success"
  | CMD_TASK_RESULT_INVALID_PARAM => str "ParamError"
  | CMD_TASK_RESULT_DEV_TIMEOUT => str "Timeout"
  | CMD_TASK_RESULT_DEV_ERR => str "DevError"
  | CMD_TASK_RESULT_MEM_FAIL => str "MemError"
  | CMD_TASK_RESULT_IN_PROGRESS => str "InProgress"
  | CMD_TASK_RESULT_ACTUAL_VALUE => custom
  | CMD_TASK_RESULT_NOT_STARTED | CMD_TASK_RESULT_UNKNOWN => str "Unknown"
  end.
Definition json_send_new_result (t : api_task_obj) : NM unit :=
  let result_string := result_text (task_result t) (t_custom t) in
  fits 512 result_string;;
  json_send_result_response_string (t_req_id t) (sock_descriptor (pNetData t)) result_string (t_resp_obj t).

(** *** The objects of the requests *)
Definition deref (p : Z) : SM api_task_obj := h ← gets heap; of_opt (h !! p).
Definition new_task (t : api_task_obj) : SM Z :=
  p ← gets next; h ← gets heap; modify (set_heap (<[p := t]> h));; modify (set_next (p + 1));; mret p.
Definition store (p : Z) (t : api_task_obj) : SM unit := deref p;; h ← gets heap; modify (set_heap (<[p := t]> h)).
Definition delete_task (p : Z) : SM unit := deref p;; h ← gets heap; modify (set_heap (delete p h)).
Definition generate_ident : SM Z := i ← gets task_ident; modify (set_task_ident (int32 (i + 1)));; mret (int32 (i + 1)).

(** *** Taking a request up *)
Definition rpc_call_notification (p : Z) : SM unit :=
  c ← gets ReqChain; modify (set_ReqChain (c ++ [p]));;
  v ← gets req_sema; modify (set_req_sema (v + 1)).

Definition refuse (o : net_data_obj) (id : Z) (e : JSON_RPC_ERR_TYPE) : SM Z :=
  on_socket (json_send_error_response_string id (sock_descriptor o) e);; mret (-1).

(** A request whose method is registered. *)
Definition accept_request (o : net_data_obj) (json_req_id index : Z) (new_obj : json) : SM Z :=
  ident ← generate_ident;
  acc ← get_jsonrpc_acc new_obj;
  p ← new_task (MkTask ident json_req_id o index acc CMD_TASK_RESULT_NOT_STARTED RPC_SRV_RESULT_NOT_STARTED JNull []);
  c ← gets ReqRespChain; modify (set_ReqRespChain (c ++ [p]));;
  rpc_call_notification p;;
  n ← gets total_req_received; modify (set_received (n + 1));;
  mret 0.
(** A request that is JSON. *)
Definition process_object (o : net_data_obj) (new_obj : json) : SM Z :=
  check_jsonrpc_2_0 new_obj;;
  id ← get_jsonrpc_id new_obj;
  match id with
  | None => refuse o 0 JSON_RPC_ERR_INVALID_REQ
  | Some json_req_id =>
      l ← gets rpc_call_list;
      m ← get_jsonrpc_method l new_obj;
      match m with
      | None => refuse o json_req_id JSON_RPC_ERR_METHOD_NOT_FOUND
      | Some index => accept_request o json_req_id index new_obj
      end
  end.
Definition json_process_request (o : net_data_obj) : SM Z :=
  let json_string := data_buffer o in
  if decide (head json_string = Some (char 91)) then refuse o 0 JSON_RPC_ERR_INVALID_REQ else
  r ← of_opt (json_syntax_error json_string);
  if negb (r =? 0) then refuse o 0 JSON_RPC_ERR_PARSE_ERROR else
  match json_tokener_parse json_string with
  | JNull => refuse o 0 JSON_RPC_ERR_PARSE_ERROR
  | new_obj => process_object o new_obj
  end.

(** One turn of the loop of [on_data_arrival]; [false] when the chain is empty. *)
Definition serve_one : SM bool :=
  c ← gets (λ s, request_chain (ServerSocket s));
  match c with
  | [] => mret false
  | o :: c =>
      on_socket (modify (set_request_chain c));;
      l ← gets taken; modify (set_taken (l ++ [o]));;
      json_process_request o;; mret true
  end.
Fixpoint on_data_arrival (fuel : nat) : SM unit :=
  match fuel with
  | O => out_of_fuel
  | S fuel => b ← serve_one; if b : bool then on_data_arrival fuel else mret ()
  end.

(** *** The thread of the mapper *)
Definition comm_of (t : api_task_obj) : comm :=
  let d := pNetData t in
  MkComm (t_req_id t) (method_index t) CMD_TASK_RESULT_UNKNOWN RPC_SRV_RESULT_NOT_STARTED (data_buffer d) (t_resp_obj t) (t_custom t) None
    (port d) (ip d) (cltid d) (sock_descriptor d).
(** What is done between the request and its result. *)
Definition do_request (D : comm) : M W comm :=
  '(r, D) ← process_json_to_binary D;
  if negb (r =? 0) then mret D
  else '(_, D) ← process_work D; '(_, D) ← process_binary_to_json D; mret D.
Definition result_into (t : api_task_obj) (D : comm) : api_task_obj :=
  MkTask (ident t) (t_req_id t) (pNetData t) (method_index t) (access t) (mapper_result D) (rpc_code D) (json_resp_obj D) (custom_result_string D).

Definition json_send_response (p : Z) : SM unit :=
  t ← deref p;
  c ← gets RespChain; modify (set_RespChain (c ++ [ident t]));;
  v ← gets resp_sema; modify (set_resp_sema (v + 1)).

(** [monoshot_callback_function] of the mapper. *)
Definition map_one : SM unit :=
  c ← gets ReqChain;
  match c with
  | [] => mret ()
  | p :: c =>
      modify (set_ReqChain c);;
      t ← deref p;
      D ← zoom world set_world (do_request (comm_of t));
      store p (result_into t D);;
      json_send_response p
  end.
Definition mapper_thread : SM unit :=
  v ← gets req_sema; if 0 <? v then modify (set_req_sema (v - 1));; map_one else blocked.

(** *** The thread that sends results *)
Fixpoint remove_by_ident (i : Z) (l : list Z) : SM (option Z * list Z) :=
  match l with
  | [] => mret (None, [])
  | p :: l => t ← deref p;
      if ident t =? i then mret (Some p, l) else '(r, l) ← remove_by_ident i l; mret (r, p :: l)
  end.
Definition json_process_rsponse : SM Z :=
  c ← gets RespChain;
  match c with
  | [] => mret (-1)
  | i :: c =>
      modify (set_RespChain c);;
      l ← gets ReqRespChain;
      '(r, l) ← remove_by_ident i l;
      modify (set_ReqRespChain l);;
      match r with
      | None => mret (-1)
      | Some p =>
          t ← deref p;
          on_socket (json_send_new_result t);;
          delete_task p;;
          n ← gets total_res_sent; modify (set_res_sent (n + 1));;
          mret 0
      end
  end.
Definition result_thread : SM unit :=
  v ← gets resp_sema; if 0 <? v then modify (set_resp_sema (v - 1));; json_process_rsponse;; mret () else blocked.

(** *** Turns of the threads *)
Inductive turn :=
| Accepted (sock : Z) (info : option (cstr * cstr))
| Received (sock : Z) (r : recv_result)
| Serve
| Map
| Respond
| Send (alive : Z → bool).
Definition do_turn (t : turn) : SM unit :=
  match t with
  | Accepted sock info => on_socket (print_client_info long_bits info sock)
  | Received sock r => on_socket (on_recv sock r)
  | Serve => serve_one;; mret ()
  | Map => mapper_thread
  | Respond => result_thread
  | Send alive => on_socket (response_thread alive)
  end.
Fixpoint run (ts : list turn) : SM unit := match ts with [] => mret () | t :: ts => do_turn t;; run ts end.

(** [attach_rpc_method]. *)
Definition attach_rpc_method (method_name : cstr) (method_indx : Z) : SM Z :=
  if JSON_RPC_METHOD_NAME_MAX_LENGTH <=? strlen method_name then mret (-1)
  else l ← gets rpc_call_list; modify (set_rpc_call_list (l ++ [(method_name, method_indx)]));; mret 0.
Definition proxy_new (w : W) : server W := MkProxy ADNetServer_new [] [] ∅ 1 0 [] [] 0 [] 0 0 0 w.

(** ** What a request deserves

    The reference the threads are compared with.  [examine] looks at a request
    alone: it is refused, or accepted as a task; [None] when one of its members does
    not fit the buffer it is copied to. *)
Inductive verdict := Refused (id : Z) (e : JSON_RPC_ERR_TYPE) | Granted (t : api_task_obj).
Definition text_in (n : Z) (new_obj : json) (key : cstr) : option (option cstr) :=
  match json_object_get_string (json_object_object_get new_obj key) with
  | None => Some None
  | Some s => if strlen s <? n then Some (Some s) else None
  end.
Definition acc_of (v : option cstr) : CMD_TASK_ACC :=
  match v with
  | Some s => if decide (s = str "sync") then CMD_TASK_ACCESS_SYNC
              else if decide (s = str "async") then CMD_TASK_ACCESS_ASYNC else CMD_TASK_ACCESS_SYNC
  | None => CMD_TASK_ACCESS_SYNC
  end.
Definition task_of (o : net_data_obj) (id index : Z) (acc : CMD_TASK_ACC) : api_task_obj :=
  MkTask 0 id o index acc CMD_TASK_RESULT_NOT_STARTED RPC_SRV_RESULT_NOT_STARTED JNull [].
Definition examine_object (l : list (cstr * Z)) (o : net_data_obj) (v : json) : option verdict :=
  text_in 256 v (str "jsonrpc");;
  id ← text_in 256 v (str "id");
  match id with
  | None => Some (Refused 0 JSON_RPC_ERR_INVALID_REQ)
  | Some i =>
      m ← text_in JSON_RPC_METHOD_NAME_MAX_LENGTH v (str "method");
      match m ≫= is_this_method_registered l with
      | None => Some (Refused (atoi long_bits i) JSON_RPC_ERR_METHOD_NOT_FOUND)
      | Some index => a ← text_in 256 v (str "access"); Some (Granted (task_of o (atoi long_bits i) index (acc_of a)))
      end
  end.
Definition examine (l : list (cstr * Z)) (o : net_data_obj) : option verdict :=
  let s := data_buffer o in
  if decide (head s = Some (char 91)) then Some (Refused 0 JSON_RPC_ERR_INVALID_REQ) else
  r ← json_syntax_error s;
  if negb (r =? 0) then Some (Refused 0 JSON_RPC_ERR_PARSE_ERROR) else
  match json_tokener_parse s with JNull => Some (Refused 0 JSON_RPC_ERR_PARSE_ERROR) | v => examine_object l o v end.

(** The answers that were handed to the sending thread, sent or not yet. *)
Definition scheduled {W'} (s : server W') : list (Z * cstr) :=
  (fst <$> sent (ServerSocket s)) ++ ((λ o, (sock_descriptor o, data_buffer o)) <$> response_chain (ServerSocket s)).
Definition refusal (o : net_data_obj) (id : Z) (e : JSON_RPC_ERR_TYPE) : Z * cstr :=
  (sock_descriptor o, json_object_to_json_string (error_object id e)).
(** A result has an object, for [json_send_result_response_string] to send. *)
Definition has_object (t : api_task_obj) : bool := match t_resp_obj t with JNull => false | _ => true end.
Definition reply (t : api_task_obj) : Z * cstr :=
  (sock_descriptor (pNetData t), json_object_to_json_string (result_object (t_req_id t) (result_text (task_result t) (t_custom t)) (t_resp_obj t))).
Fixpoint refused (l : list (cstr * Z)) (os : list net_data_obj) : list (Z * cstr) :=
  match os with
  | [] => []
  | o :: os => match examine l o with Some (Refused id e) => refusal o id e :: refused l os | _ => refused l os end
  end.
Fixpoint granted (l : list (cstr * Z)) (os : list net_data_obj) : list api_task_obj :=
  match os with
  | [] => []
  | o :: os => match examine l o with Some (Granted t) => t :: granted l os | _ => granted l os end
  end.
(** One task, and tasks one after the other, on the state of the service. *)
Definition perform (t : api_task_obj) : M W api_task_obj :=
  D ← do_request (comm_of t);
  let t := result_into t D in
  fits 512 (result_text (task_result t) (t_custom t));;
  fits AD_NET_SERVER_MAX_BUFFER_SIZE (reply t).2;; mret t.
Fixpoint perform_all (ts : list api_task_obj) : M W (list api_task_obj) :=
  match ts with [] => mret [] | t :: ts => t ← perform t; l ← perform_all ts; mret (t :: l) end.
End proxy.
