(* ===== verification/JsonRpcProofs.v ===== *)
(** * The threads of the JSON-RPC server answer like one

    Whatever the order of the turns of the threads, the requests that are granted
    are worked on one after the other in the order of their arrival, each answer goes
    to the socket its request came from with the identifier of the request, and
    nothing is answered twice; when the threads go on nothing is left unanswered.
    This ends with the first request that is refused and the first result without an
    object: both senders put an object of json-c that is freed already. *)

From Stdlib Require Import ZArith Lia Ascii String.
From stdpp Require Import base list gmap strings sets.
From S2P Require Import Prelude CString CxxStd RpcResult Lang JsonGrammar JsonChecker JsonProofs Json NetServer JsonRpc.

#[local] Arguments seqZ : simpl never.

(** ** Tasks in the store *)
Definition with_ident (i : Z) (t : api_task_obj) : api_task_obj :=
  MkTask i (t_req_id t) (pNetData t) (method_index t) (access t) (task_result t) (t_rpc_code t) (t_resp_obj t) (t_custom t).
(** The tasks [ts] are at the addresses [ps], numbered from [n + 1] on. *)
Inductive held (h : gmap Z api_task_obj) : Z → list Z → list api_task_obj → Prop :=
| held_nil n : held h n [] []
| held_cons n p t ps ts : h !! p = Some (with_ident (n + 1) t) → held h (n + 1) ps ts → held h n (p :: ps) (t :: ts).

Lemma held_length h n ps ts : held h n ps ts → length ps = length ts.
Proof. induction 1 as [|????? _ _ IH]; [done|]. cbn. by rewrite IH. Qed.
Lemma held_app h n ps1 ts1 ps2 ts2 : held h n ps1 ts1 → held h (n + Z.of_nat (length ts1)) ps2 ts2 → held h n (ps1 ++ ps2) (ts1 ++ ts2).
Proof.
  induction 1 as [n|n p t ps ts Hp _ IH]; cbn [app length]; intros H2; [change (Z.of_nat 0) with 0 in H2; by rewrite Z.add_0_r in H2|].
  constructor; [done|]. apply IH. by replace (n + 1 + Z.of_nat (length ts)) with (n + Z.of_nat (S (length ts))) by lia.
Qed.
Lemma held_split h n ps1 ps2 ts1 ts2 : length ps1 = length ts1 → held h n (ps1 ++ ps2) (ts1 ++ ts2) →
  held h n ps1 ts1 ∧ held h (n + Z.of_nat (length ts1)) ps2 ts2.
Proof.
  revert n ts1. induction ps1 as [|p ps1 IH]; intros n [|t ts1] Hl Hh; try done.
  - split; [constructor|]. cbn [length]. change (Z.of_nat 0) with 0. by rewrite Z.add_0_r.
  - cbn [app] in Hh. inversion Hh as [|????? Hp Hr]; subst. destruct (IH (n + 1) ts1) as [H1 H2]; [by injection Hl|done|].
    split; [by constructor|]. cbn [length]. by replace (n + Z.of_nat (S (length ts1))) with (n + 1 + Z.of_nat (length ts1)) by lia.
Qed.
Lemma held_same h h' n ps ts : held h n ps ts → (∀ p, p ∈ ps → h' !! p = h !! p) → held h' n ps ts.
Proof.
  induction 1 as [|n p t ps ts Hp _ IH]; intros Hs; constructor; [rewrite Hs; [done|by left]|]. apply IH. intros q Hq. apply Hs. by right.
Qed.
Lemma held_insert h n ps ts p t : p ∉ ps → held h n ps ts → held (<[p := t]> h) n ps ts.
Proof. intros Hp Hh. apply (held_same _ _ _ _ _ Hh). intros q Hq. apply lookup_insert_ne. by intros ->. Qed.
Lemma held_delete h n ps ts p : p ∉ ps → held h n ps ts → held (delete p h) n ps ts.
Proof. intros Hp Hh. apply (held_same _ _ _ _ _ Hh). intros q Hq. apply lookup_delete_ne. by intros ->. Qed.

Section proofs.
Context `{JsonC} {W P : Type}.
Variables (char_signed : bool) (long_bits : Z).
Variables pjb pw pbj : JsonDataCommObj P → M W (Z * JsonDataCommObj P).
Notation SM := (M (server W)).
Notation do_turn := (do_turn (P := P) char_signed long_bits pjb pw pbj).
Notation run := (run (P := P) char_signed long_bits pjb pw pbj).
Notation examine := (examine char_signed long_bits).
Notation granted := (granted char_signed long_bits).
Notation refused := (refused char_signed long_bits).
Notation perform := (perform (W := W) (P := P) pjb pw pbj).
Notation perform_all := (perform_all (W := W) (P := P) pjb pw pbj).
Variable l : list (cstr * Z).

(** ** The functions one by one *)
Lemma fits_done {S} n s (st : S) : strlen s <? n = true → fits n s st = Done () st.
Proof. intros Hs. unfold fits. by rewrite Hs. Qed.
Lemma fits_inv {S} n s (st st' : S) u : fits n s st = Done u st' → strlen s <? n = true ∧ st' = st.
Proof. unfold fits. destruct (strlen s <? n); [by intros [= _ ->]|done]. Qed.
Lemma member_text_run {S} n v k x (st : S) : text_in n v k = Some x → member_text_in n v k st = Done x st.
Proof.
  unfold text_in, member_text_in. destruct (json_object_get_string _) as [s|]; [|by intros [= <-]].
  destruct (strlen s <? n) eqn:E; [|done]. intros [= <-]. by mstep (fits_done n s st E).
Qed.

Definition answered (a : Z * cstr) (s : ADNetServer) : ADNetServer :=
  set_response_sema (response_sema s + 1) (set_response_chain (response_chain s ++ [MkNet 0 a.1 0 [] 0 (strlen a.2) a.2]) s).
Lemma send_message_run sock o s : strlen (json_object_to_json_string o) <? AD_NET_SERVER_MAX_BUFFER_SIZE = true →
  send_message sock o s = Done () (answered (sock, json_object_to_json_string o) s).
Proof. intros Hs. unfold send_message. mstep (fits_done AD_NET_SERVER_MAX_BUFFER_SIZE _ s Hs). by destruct s. Qed.

(** What happens to a request that is taken up. *)
Definition add_task (t : api_task_obj) (s : server W) : server W :=
  MkProxy (ServerSocket s) (taken s) (rpc_call_list s) (<[next s := with_ident (int32 (task_ident s + 1)) t]> (heap s)) (next s + 1)
    (int32 (task_ident s + 1)) (ReqRespChain s ++ [next s]) (ReqChain s ++ [next s]) (req_sema s + 1) (RespChain s) (resp_sema s)
    (total_req_received s + 1) (total_res_sent s) (world s).
Definition judged (v : verdict) (s : server W) : outcome (server W) Z :=
  match v with Refused _ _ => Oops | Granted t => Done 0 (add_task t s) end.
(** After the message is handed to the sending thread, its error object, freed with
    it, is put again. *)
Lemma send_error_faults id sock e N : json_send_error_response_string id sock e N = Oops.
Proof. unfold json_send_error_response_string, send_message, fits. by destruct (strlen _ <? _). Qed.
Lemma refuse_run o id e (s : server W) : refuse o id e s = Oops.
Proof.
  unfold refuse, on_socket, zoom, mbind at 1, M_bind at 1.
  by rewrite send_error_faults.
Qed.

Lemma accept_run o id index v a (s : server W) : text_in 256 v (str "access") = Some a →
  accept_request o id index v s = Done 0 (add_task (task_of o id index (acc_of a)) s).
Proof.
  intros Ha. unfold accept_request, generate_ident.
  assert (Hacc : ∀ s : server W, get_jsonrpc_acc v s = Done (acc_of a) s).
  { intros s'. unfold get_jsonrpc_acc. by mstep (member_text_run 256 v (str "access") a s' Ha). }
  rewrite (bind_done _ _ _ (int32 (task_ident s + 1)) (set_task_ident (int32 (task_ident s + 1)) s)) by done. cbv beta.
  mstep (Hacc (set_task_ident (int32 (task_ident s + 1)) s)). by destruct s.
Qed.
Lemma process_object_run o v x (s : server W) : rpc_call_list s = l →
  examine_object long_bits l o v = Some x → process_object long_bits o v s = judged x s.
Proof.
  intros Hl Hx. unfold examine_object in Hx. unfold process_object.
  destruct (text_in 256 v (str "jsonrpc")) as [ver|] eqn:E1; [cbn [mbind option_bind] in Hx|done].
  destruct (text_in 256 v (str "id")) as [i|] eqn:E2; [cbn [mbind option_bind] in Hx|done].
  assert (H1 : check_jsonrpc_2_0 v s = Done (match ver with Some s => if decide (s = JSON_RPC_VERSION) then 0 else -1 | None => -1 end) s).
  { unfold check_jsonrpc_2_0. by mstep (member_text_run 256 v (str "jsonrpc") ver s E1). }
  mstep H1. assert (H2 : get_jsonrpc_id long_bits v s = Done (atoi long_bits <$> i) s).
  { unfold get_jsonrpc_id. by mstep (member_text_run 256 v (str "id") i s E2). }
  mstep H2. destruct i as [i|]; [cbn [fmap option_fmap option_map]|injection Hx as <-; by apply refuse_run].
  destruct (text_in JSON_RPC_METHOD_NAME_MAX_LENGTH v (str "method")) as [m|] eqn:E3; [cbn [mbind option_bind] in Hx|done].
  msimpl. rewrite Hl. assert (H3 : get_jsonrpc_method l v s = Done (m ≫= is_this_method_registered l) s).
  { unfold get_jsonrpc_method. mstep (member_text_run _ v (str "method") m s E3). by destruct m. }
  mstep H3. destruct (m ≫= is_this_method_registered l) as [index|]; [|injection Hx as <-; by apply refuse_run].
  destruct (text_in 256 v (str "access")) as [a|] eqn:E4; [cbn [mbind option_bind] in Hx; injection Hx as <-|done].
  by apply accept_run.
Qed.
Lemma process_run o x (s : server W) : rpc_call_list s = l → examine l o = Some x →
  json_process_request char_signed long_bits o s = judged x s.
Proof.
  intros Hl Hx. unfold JsonRpc.examine in Hx. unfold json_process_request.
  destruct (decide _); [injection Hx as <-; by apply refuse_run|].
  destruct (json_syntax_error char_signed (data_buffer o)) as [r|]; [|done]. cbn [mbind option_bind] in Hx. msimpl.
  destruct (negb (r =? 0)); [injection Hx as <-; by apply refuse_run|].
  destruct (json_tokener_parse (data_buffer o)); [injection Hx as <-; by apply refuse_run|..]; by apply process_object_run.
Qed.

(** ** The invariant of the threads *)

(** A text that is refused or granted without a buffer being too small, and that,
    granted, can be worked on in every state of the service. *)
Definition good (text : cstr) : Prop := ∀ o, data_buffer o = text → ∃ x, examine l o = Some x ∧
  match x with Granted t => ∀ w, ∃ t' w', perform t w = Done t' w' | Refused _ _ => True end.
Definition sendable (t : api_task_obj) : Prop :=
  strlen (result_text (task_result t) (t_custom t)) <? 512 = true ∧ strlen (reply t).2 <? AD_NET_SERVER_MAX_BUFFER_SIZE = true.

(** Tasks that can be worked on. *)
Definition ready (G3 : list api_task_obj) : Prop := Forall (λ t, ∀ w, ∃ t' w', perform t w = Done t' w') G3.
(** [T1] are the tasks that were answered, [T2] those whose result waits for the
    third thread, and [G3] those that wait for the mapper. *)
Record inv (w0 : W) (n : Z) (s : server W) (G12 T1 T2 G3 : list api_task_obj) (ps2 ps3 : list Z) : Prop := Inv {
  iv_list : rpc_call_list s = l;
  iv_granted : granted l (taken s) = G12 ++ G3;
  iv_done : perform_all G12 w0 = Done (T1 ++ T2) (world s);
  iv_refused : refused l (taken s) = [];
  iv_scheduled : scheduled s = reply <$> T1;
  iv_objects : Forall (λ t, has_object t = true) T1;
  iv_chain : ReqRespChain s = ps2 ++ ps3;
  iv_reqs : ReqChain s = ps3;
  iv_req_sema : req_sema s = Z.of_nat (length ps3);
  iv_resps : RespChain s = seqZ (Z.of_nat (length T1) + 1) (Z.of_nat (length T2));
  iv_resp_sema : resp_sema s = Z.of_nat (length T2);
  iv_nodup : NoDup (ps2 ++ ps3);
  iv_next : ∀ p, p ∈ ps2 ++ ps3 → p < next s;
  iv_done_held : held (heap s) (Z.of_nat (length T1)) ps2 T2;
  iv_held : held (heap s) (Z.of_nat (length (T1 ++ T2))) ps3 G3;
  iv_only : ∀ p, p ∉ ps2 ++ ps3 → heap s !! p = None;
  iv_ident : task_ident s = Z.of_nat (length (G12 ++ G3));
  iv_sendable : Forall sendable T2;
  iv_ready : ready G3;
  iv_sema : response_sema (ServerSocket s) = Z.of_nat (length (response_chain (ServerSocket s)));
  iv_received : total_req_received s = Z.of_nat (length (G12 ++ G3));
  iv_sent : total_res_sent s = Z.of_nat (length T1);
  iv_good : Forall (λ o, good (data_buffer o)) (request_chain (ServerSocket s));
  iv_taken : Z.of_nat (length (taken s)) ≤ n
}.
Definition kept (w0 : W) (n : Z) (s : server W) : Prop := ∃ G12 T1 T2 G3 ps2 ps3, inv w0 n s G12 T1 T2 G3 ps2 ps3.

Lemma perform_all_length G : ∀ w T w', perform_all G w = Done T w' → length T = length G.
Proof.
  induction G as [|g G IH]; intros w T w'; cbn [JsonRpc.perform_all]; [by intros [= <- <-]|].
  unfold mbind, M_bind. destruct (perform g w) as [t w1| | | |]; [|done..].
  destruct (perform_all G w1) as [T1 w2| | | |] eqn:E; [|done..]. intros [= <- <-]. cbn. f_equal. by eapply IH.
Qed.
Lemma perform_all_snoc G g t w2 : ∀ w T w1, perform_all G w = Done T w1 → perform g w1 = Done t w2 → perform_all (G ++ [g]) w = Done (T ++ [t]) w2.
Proof.
  induction G as [|g' G IH]; intros w T w1; cbn [JsonRpc.perform_all app].
  - intros [= <- <-] Hg. by mstep Hg.
  - unfold mbind, M_bind. destruct (perform g' w) as [t' w'| | | |]; [|done..].
    destruct (perform_all G w') as [T1 w3| | | |] eqn:E; [|done..]. intros [= <- <-] Hg. by rewrite (IH _ _ _ E Hg).
Qed.
Lemma granted_length os : (length (granted l os) ≤ length os)%nat.
Proof. induction os as [|o os IH]; [done|]. cbn. destruct (examine l o) as [[]|]; cbn; lia. Qed.
Lemma granted_snoc os o : granted l (os ++ [o]) = granted l os ++ match examine l o with Some (Granted t) => [t] | _ => [] end.
Proof. induction os as [|o' os IH]; cbn; [by destruct (examine l o) as [[]|]|]. destruct (examine l o') as [[]|]; [done| |done]. cbn. by rewrite IH. Qed.
Lemma refused_snoc os o : refused l (os ++ [o]) = refused l os ++ match examine l o with Some (Refused id e) => [refusal o id e] | _ => [] end.
Proof. induction os as [|o' os IH]; cbn; [by destruct (examine l o) as [[]|]|]. destruct (examine l o') as [[]|]; [|done|done]. cbn. by rewrite IH. Qed.
Lemma scheduled_answered a (s : server W) : scheduled (set_socket (answered a (ServerSocket s)) s) = scheduled s ++ [a].
Proof. unfold scheduled, answered. cbn. rewrite fmap_app, app_assoc. by destruct a. Qed.

(** *** The turns *)
Lemma kept_socket w0 n s N : kept w0 n s → sent N = sent (ServerSocket s) → response_chain N = response_chain (ServerSocket s) →
  response_sema N = response_sema (ServerSocket s) → Forall (λ o, good (data_buffer o)) (request_chain N) → kept w0 n (set_socket N s).
Proof.
  intros (G12 & T1 & T2 & G3 & ps2 & ps3 & Hi) Hs Hc Hm Hg. exists G12, T1, T2, G3, ps2, ps3. destruct Hi.
  split; try done.
  - unfold scheduled in *. cbn. by rewrite Hs, Hc.
  - cbn. by rewrite Hm, Hc.
Qed.
(** The next request is one that is refused. *)
Definition next_refused (s : server W) : Prop :=
  ∃ o c id e, request_chain (ServerSocket s) = o :: c ∧ examine l o = Some (Refused id e).
Lemma serve_kept w0 n s : kept w0 n s → n + 1 ≤ INT_MAX →
  (serve_one char_signed long_bits s = Oops ∧ next_refused s) ∨
  ∃ b s', serve_one char_signed long_bits s = Done b s' ∧ kept w0 (n + 1) s' ∧
  ∀ o c, request_chain (ServerSocket s) = o :: c → request_chain (ServerSocket s') = c ∧ taken s' = taken s ++ [o].
Proof.
  intros (G12 & T1 & T2 & G3 & ps2 & ps3 & Hi) Hn. unfold serve_one. msimpl.
  destruct (request_chain (ServerSocket s)) as [|o c] eqn:Ec.
  { right. exists false, s. split; [done|]. split; [|done]. exists G12, T1, T2, G3, ps2, ps3. destruct Hi. split; try done; lia. }
  assert (Hz := zoom_done ServerSocket set_socket (modify (set_request_chain c)) s _ _ eq_refl). unfold on_socket. mstep Hz.
  set (s1 := set_socket _ s). msimpl. set (s2 := set_taken _ s1).
  destruct Hi as [Hl Hg Hd Hrf Hs Hob Hc Hr Hrs Hp Hps Hnd Hnx Hh2 Hh3 Ho Hid Hf Hrd Hse Hrc Hst Hgd Htk].
  rewrite Ec in Hgd. apply Forall_cons in Hgd as [Hgo Hgd]. destruct (Hgo o eq_refl) as (x & Hx & Hper).
  assert (Hrun := process_run o x s2 Hl Hx). destruct x as [id e|t]; cbn [judged] in Hrun.
  - left. split; [|by exists o, c, id, e]. unfold mbind, M_bind. by rewrite Hrun.
  - right. mstep Hrun. exists true, (add_task t s2). split; [done|]. split; [|by intros o' c' [= <- <-]].
    assert (Hlen : Z.of_nat (length (G12 ++ G3)) ≤ n).
    { rewrite <-Hg. assert (H' := granted_length (taken s)). lia. }
    assert (Hi32 : int32 (task_ident s + 1) = Z.of_nat (length (G12 ++ G3)) + 1) by (rewrite Hid; apply int32_small; lia).
    assert (Hfresh : next s ∉ ps2 ++ ps3) by (intros Hin%Hnx; lia).
    assert (Hlen3 := perform_all_length _ _ _ _ Hd).
    exists G12, T1, T2, (G3 ++ [t]), ps2, (ps3 ++ [next s]). unfold add_task. split; try done; cbn.
    + by rewrite granted_snoc, Hx, Hg, app_assoc.
    + by rewrite refused_snoc, Hx, app_nil_r.
    + by rewrite Hc, app_assoc.
    + by rewrite Hr.
    + rewrite Hrs, length_app. cbn. lia.
    + rewrite app_assoc. apply NoDup_app. split_and!; [done| |apply NoDup_singleton]. intros p Hp'. rewrite list_elem_of_singleton. by intros ->.
    + intros p. rewrite app_assoc, elem_of_app, list_elem_of_singleton. intros [Hin%Hnx | ->]; lia.
    + apply held_insert; [|done]. intros Hin. apply Hfresh, elem_of_app. by left.
    + apply held_app; [apply held_insert; [|done]; intros Hin; apply Hfresh, elem_of_app; by right|].
      constructor; [|constructor]. rewrite lookup_insert_eq, Hi32. f_equal. f_equal. rewrite (length_app G12), <-Hlen3. lia.
    + intros p. rewrite app_assoc, not_elem_of_app, list_elem_of_singleton. intros [Hp1 Hp2]. rewrite lookup_insert_ne by done. by apply Ho.
    + rewrite Hi32, app_assoc, (length_app (G12 ++ G3)). cbn. lia.
    + apply Forall_app. by split; [|constructor].
    + rewrite Hrc, app_assoc, (length_app (G12 ++ G3)). cbn. lia.
    + rewrite length_app. cbn. lia.
Qed.

Lemma perform_run t w t' w' : perform t w = Done t' w' →
  ∃ D, do_request pjb pw pbj (comm_of t) w = Done D w' ∧ t' = result_into t D ∧ sendable t'.
Proof.
  unfold JsonRpc.perform. unfold mbind at 1, M_bind. destruct (do_request pjb pw pbj (comm_of t) w) as [D w1| | | |]; [|done..].
  intros Hf. exists D. set (r := result_into t D) in *.
  unfold mbind at 1, M_bind in Hf. destruct (fits 512 (result_text (task_result r) (t_custom r)) w1) as [u w2| | | |] eqn:E1; [|done..]. apply fits_inv in E1 as [E1 ->].
  unfold mbind, M_bind in Hf. destruct (fits AD_NET_SERVER_MAX_BUFFER_SIZE (reply r).2 w1) as [u2 w2| | | |] eqn:E2; [|done..]. apply fits_inv in E2 as [E2 ->].
  injection Hf as <- <-. done.
Qed.
Lemma deref_task p t (s : server W) : heap s !! p = Some t → deref p s = Done t s.
Proof. intros Hp. unfold deref. msimpl. by rewrite Hp. Qed.

(** A turn of the mapper, and one of the thread that sends results. *)
Definition worked_on (p : Z) (ps : list Z) (t : api_task_obj) (w : W) (s : server W) : server W :=
  MkProxy (ServerSocket s) (taken s) (rpc_call_list s) (<[p := t]> (heap s)) (next s) (task_ident s) (ReqRespChain s) ps (req_sema s - 1)
    (RespChain s ++ [ident t]) (resp_sema s + 1) (total_req_received s) (total_res_sent s) w.
Lemma map_run p ps t D w (s : server W) : ReqChain s = p :: ps → 0 < req_sema s → heap s !! p = Some t →
  do_request pjb pw pbj (comm_of t) (world s) = Done D w → mapper_thread pjb pw pbj s = Done () (worked_on p ps (result_into t D) w s).
Proof.
  intros Hr Hrs Hp HD. unfold mapper_thread. msimpl. rewrite (proj2 (Z.ltb_lt 0 _)) by done. msimpl.
  unfold map_one. msimpl. cbn [ReqChain set_req_sema]. rewrite Hr. msimpl. set (s1 := set_ReqChain ps _).
  mstep (deref_task p t s1 Hp). assert (Hz := zoom_done world set_world (do_request pjb pw pbj (comm_of t)) s1 D w HD). mstep Hz.
  set (s2 := set_world w s1). set (tr := result_into t D).
  assert (Hst : store p tr s2 = Done () (set_heap (<[p := tr]> (heap s2)) s2)) by (unfold store; by mstep (deref_task p t s2 Hp)).
  mstep Hst. set (s3 := set_heap _ s2). assert (Hh : heap s3 !! p = Some tr) by apply lookup_insert_eq.
  unfold json_send_response. by mstep (deref_task p tr s3 Hh).
Qed.
Definition replied (p : Z) (ps ids : list Z) (t : api_task_obj) (s : server W) : server W :=
  MkProxy (answered (reply t) (ServerSocket s)) (taken s) (rpc_call_list s) (delete p (heap s)) (next s) (task_ident s) ps (ReqChain s) (req_sema s)
    ids (resp_sema s - 1) (total_req_received s) (total_res_sent s + 1) (world s).
Lemma respond_run p ps ids t (s : server W) : RespChain s = ident t :: ids → ReqRespChain s = p :: ps → heap s !! p = Some t → 0 < resp_sema s → sendable t →
  result_thread s = if has_object t then Done () (replied p ps ids t s) else Oops.
Proof.
  intros Hi Hc Hp Hs [Hf1 Hf2]. unfold result_thread. msimpl. rewrite (proj2 (Z.ltb_lt 0 _)) by done. msimpl.
  assert (Hrun : json_process_rsponse (set_resp_sema (resp_sema s - 1) s) = if has_object t then Done 0 (replied p ps ids t s) else Oops);
    [|unfold mbind, M_bind; rewrite Hrun; by destruct (has_object t)].
  unfold json_process_rsponse. msimpl. cbn [RespChain set_resp_sema]. rewrite Hi. msimpl. cbn [ReqRespChain set_RespChain set_resp_sema]. rewrite Hc.
  set (s1 := set_RespChain _ _). cbn [remove_by_ident].
  rewrite (bind_done _ _ s1 (Some p, ps) s1); [|mstep (deref_task p t s1 Hp); by rewrite Z.eqb_refl].
  cbv beta iota. msimpl. set (s2 := set_ReqRespChain _ s1). mstep (deref_task p t s2 Hp). unfold on_socket.
  assert (Hm : json_send_new_result t (ServerSocket s2) = if has_object t then Done () (answered (reply t) (ServerSocket s2)) else Oops).
  { unfold json_send_new_result. mstep (fits_done 512 (result_text (task_result t) (t_custom t)) (ServerSocket s2) Hf1).
    unfold json_send_result_response_string. mstep (send_message_run (sock_descriptor (pNetData t)) _ (ServerSocket s2) Hf2).
    unfold has_object, reply. by destruct (t_resp_obj t). }
  destruct (has_object t); [|unfold zoom, mbind, M_bind; by rewrite Hm].
  assert (Hz := zoom_done ServerSocket set_socket _ s2 _ _ Hm). mstep Hz. set (s3 := set_socket _ s2).
  assert (Hdel : delete_task p s3 = Done () (set_heap (delete p (heap s3)) s3)) by (unfold delete_task; by mstep (deref_task p t s3 Hp)).
  by mstep Hdel.
Qed.

Lemma map_kept w0 n s G12 T1 T2 t G3 ps2 p ps3 : inv w0 n s G12 T1 T2 (t :: G3) ps2 (p :: ps3) →
  ∃ s' t', mapper_thread pjb pw pbj s = Done () s' ∧ inv w0 n s' (G12 ++ [t]) T1 (T2 ++ [t']) G3 (ps2 ++ [p]) ps3 ∧
    ServerSocket s' = ServerSocket s ∧ taken s' = taken s.
Proof.
  intros Hi. destruct Hi as [Hl Hg Hd Hrf Hs Hob Hc Hr Hrs Hp Hps Hnd Hnx Hh2 Hh3 Ho Hid Hf Hrd Hse Hrc Hst Hgd Htk].
  apply Forall_cons in Hrd as [Ht Hrd]. destruct (Ht (world s)) as (t' & w' & Hrun). destruct (perform_run _ _ _ _ Hrun) as (D & HD & -> & Hsend).
  inversion Hh3 as [|????? Hhp Hh3']; subst. clear Hh3.
  assert (Hm := map_run p ps3 (with_ident (Z.of_nat (length (T1 ++ T2)) + 1) t) D w' s Hr ltac:(rewrite Hrs; cbn; lia) Hhp HD).
  eexists _, (result_into t D). split; [exact Hm|]. unfold worked_on. split; [|done].
  assert (Hnd' := Hnd). apply NoDup_app in Hnd' as (Hnd2 & Hdis & Hnd3). apply NoDup_cons in Hnd3 as [Hp3 Hnd3].
  assert (Hp2 : p ∉ ps2) by (intros Hin; apply (Hdis p Hin); by left).
  split; try done; cbn.
  - by rewrite <-app_assoc.
  - rewrite (app_assoc T1). by eapply perform_all_snoc.
  - by rewrite <-app_assoc.
  - cbn in Hrs. lia.
  - rewrite Hp, (length_app T2), Nat2Z.inj_add, seqZ_app by lia. f_equal. change (Z.of_nat (length [result_into t D])) with 1.
    unfold seqZ. cbn. rewrite (length_app T1). apply (f_equal (λ z, [z])). lia.
  - rewrite length_app. cbn. lia.
  - by rewrite <-app_assoc.
  - intros q. rewrite <-app_assoc. apply Hnx.
  - apply held_app; [by apply held_insert|]. constructor; [|constructor]. rewrite lookup_insert_eq. f_equal. unfold result_into, with_ident. cbn.
    f_equal. rewrite length_app. lia.
  - rewrite !length_app in *. cbn. apply held_insert; [done|]. by replace (Z.of_nat (length T1 + (length T2 + 1))) with (Z.of_nat (length T1 + length T2) + 1) by lia.
  - intros q. rewrite <-app_assoc. intros Hq. rewrite lookup_insert_ne; [by apply Ho|]. intros <-. apply Hq, elem_of_app. right. by left.
  - by rewrite <-app_assoc.
  - apply Forall_app. by split; [|constructor].
  - by rewrite <-app_assoc.
Qed.
(** The next result has no object. *)
Definition next_fails (s : server W) : Prop :=
  ∃ p ps t, RespChain s ≠ [] ∧ ReqRespChain s = p :: ps ∧ heap s !! p = Some t ∧ has_object t = false.
Lemma respond_kept w0 n s G12 T1 t T2 G3 p ps2 ps3 : inv w0 n s G12 T1 (t :: T2) G3 (p :: ps2) ps3 →
  if has_object t then ∃ s', result_thread s = Done () s' ∧ inv w0 n s' G12 (T1 ++ [t]) T2 G3 ps2 ps3 ∧
    request_chain (ServerSocket s') = request_chain (ServerSocket s) ∧ taken s' = taken s
  else result_thread s = Oops ∧ next_fails s.
Proof.
  intros Hi. destruct Hi as [Hl Hg Hd Hrf Hs Hob Hc Hr Hrs Hp Hps Hnd Hnx Hh2 Hh3 Ho Hid Hf Hrd Hse Hrc Hst Hgd Htk].
  inversion Hh2 as [|????? Hhp Hh2']; subst. apply Forall_cons in Hf as [[Hf1 Hf2] Hf]. apply NoDup_cons in Hnd as [Hpn Hnd].
  assert (Hseq : RespChain s = Z.of_nat (length T1) + 1 :: seqZ (Z.of_nat (length T1) + 1 + 1) (Z.of_nat (length T2))).
  { rewrite Hp. cbn [length]. rewrite Nat2Z.inj_succ, seqZ_cons by lia. f_equal. f_equal; lia. }
  assert (Hm := respond_run p (ps2 ++ ReqChain s) _ (with_ident (Z.of_nat (length T1) + 1) t) s Hseq Hc Hhp ltac:(rewrite Hps; cbn; lia) (conj Hf1 Hf2)).
  change (has_object (with_ident _ t)) with (has_object t) in Hm. destruct (has_object t) eqn:Eo.
  2: { split; [exact Hm|]. exists p, (ps2 ++ ReqChain s), (with_ident (Z.of_nat (length T1) + 1) t). split_and!; [by rewrite Hseq|exact Hc|exact Hhp|exact Eo]. }
  eexists. split; [exact Hm|]. unfold replied. split; [|done]. split; try done; cbn.
  - by rewrite <-app_assoc.
  - change (scheduled (set_socket (answered (reply t) (ServerSocket s)) s) = reply <$> T1 ++ [t]).
    by rewrite scheduled_answered, Hs, fmap_app.
  - apply Forall_app. by split; [|constructor].
  - rewrite length_app. cbn. f_equal. lia.
  - rewrite Hps; cbn; lia.
  - intros q Hq. apply Hnx. by right.
  - apply held_delete; [intros Hin; apply Hpn, elem_of_app; by left|]. rewrite length_app. cbn.
    by replace (Z.of_nat (length T1 + 1)) with (Z.of_nat (length T1) + 1) by lia.
  - rewrite <-app_assoc. apply held_delete; [intros Hin; apply Hpn, elem_of_app; by right|done].
  - intros q Hq. destruct (decide (q = p)) as [->|Hne]; [apply lookup_delete_eq|]. rewrite lookup_delete_ne by done. apply Ho. by intros [?|?]%elem_of_cons.
  - rewrite length_app. cbn. lia.
  - rewrite length_app. cbn. lia.
Qed.

Lemma send_kept w0 n s alive : kept w0 n s → ∃ s', do_turn (Send alive) s = (match response_chain (ServerSocket s) with [] => Blocked | _ :: _ => Done () s' end) ∧
  kept w0 n s' ∧ ReqRespChain s' = ReqRespChain s ∧ taken s' = taken s ∧ request_chain (ServerSocket s') = request_chain (ServerSocket s) ∧
  response_chain (ServerSocket s') = tail (response_chain (ServerSocket s)).
Proof.
  intros (G12 & T1 & T2 & G3 & ps2 & ps3 & Hi). assert (Hse := iv_sema _ _ _ _ _ _ _ _ _ Hi).
  cbn [JsonRpc.do_turn]. unfold on_socket, response_thread, zoom.
  rewrite bind_gets. rewrite Hse. destruct (response_chain (ServerSocket s)) as [|o c] eqn:Ec; cbn [length].
  { exists s. split_and!; [done|by exists G12, T1, T2, G3, ps2, ps3|done|done|done|by rewrite Ec]. }
  rewrite (proj2 (Z.ltb_lt 0 _)) by lia.
  rewrite bind_modify. unfold send_one. rewrite bind_gets. cbn [response_chain set_response_sema]. rewrite Ec. rewrite bind_modify, bind_gets.
  eexists. split; [done|]. split; [|done].
  exists G12, T1, T2, G3, ps2, ps3. destruct Hi as [Hl Hg Hd Hrf Hs Hob Hc Hr Hrs Hp Hps Hnd Hnx Hh2 Hh3 Ho Hid Hf Hrd _ Hrc Hst Hgd Htk]. split; try done.
  - unfold scheduled in *. cbn. rewrite Ec in Hs. rewrite fmap_app, <-app_assoc. exact Hs.
  - cbn. lia.
Qed.

(** What the turns bring in is well-formed. *)
Definition turn_ok (t : turn) : Prop :=
  match t with
  | Accepted _ (Some (hbuf, _)) => strlen hbuf < 512 ∨ 1023 ≤ strlen hbuf
  | Received _ (RecvData data) => Z.of_nat (length data) < AD_NET_SERVER_MAX_BUFFER_SIZE ∧ Forall (λ p, good (c_text p)) (cuts [] data)
  | _ => True
  end.
Lemma accepted_socket long_bits' info sock N : (match info with Some (h, _) => strlen h < 512 ∨ 1023 ≤ strlen h | None => True end) →
  ∃ N', print_client_info long_bits' info sock N = Done () N' ∧ sent N' = sent N ∧ response_chain N' = response_chain N ∧
    response_sema N' = response_sema N ∧ request_chain N' = request_chain N.
Proof.
  intros Hok. destruct info as [[h b]|]; [|by exists N]. unfold print_client_info, register_client_info, gen_client_ident.
  destruct (decide (strlen h < 512)) as [Hlt|Hge].
  - rewrite (proj2 (Z.ltb_lt (strlen h) 512) Hlt). destruct ((0 <? strlen h) && (strlen h <? 1023)); eexists; (split; [reflexivity|done]).
  - rewrite (proj2 (Z.ltb_ge (strlen h) 1023)) by lia. rewrite andb_false_r. eexists. split; [reflexivity|done].
Qed.
Lemma requests_good sock info i ps : Forall (λ p, good (c_text p)) ps → Forall (λ o, good (data_buffer o)) (requests_of sock info i ps).
Proof. intros Hg. revert i. induction Hg as [|p ps Hp _ IH]; intros i; constructor; [by destruct info as [[a b] c]|apply IH]. Qed.

Lemma kept_more w0 n m s : kept w0 n s → n ≤ m → kept w0 m s.
Proof. intros (G12 & T1 & T2 & G3 & ps2 & ps3 & []) Hm. exists G12, T1, T2, G3, ps2, ps3. split; try done. lia. Qed.
(** The turns that put an object again. *)
Definition stale_put (t : turn) (s : server W) : Prop :=
  match t with Serve => next_refused s | Respond => next_fails s | _ => False end.
Lemma turn_kept w0 n s t : kept w0 n s → turn_ok t → n + 1 ≤ INT_MAX →
  do_turn t s = Blocked ∨ (∃ s', do_turn t s = Done () s' ∧ kept w0 (n + 1) s') ∨ (do_turn t s = Oops ∧ stale_put t s).
Proof.
  intros Hk Hok Hn. assert (Hmore : ∀ s, kept w0 n s → kept w0 (n + 1) s) by (intros s' Hs'; eapply kept_more; [done|lia]).
  assert (Hgd : Forall (λ o, good (data_buffer o)) (request_chain (ServerSocket s))) by (destruct Hk as (? & ? & ? & ? & ? & ? & []); done).
  destruct t as [sock info|sock r| | | |alive].
  - right. left. destruct (accepted_socket long_bits info sock (ServerSocket s) Hok) as (N & HN & H1 & H2 & H3 & H4).
    exists (set_socket N s). split; [by apply zoom_done|]. apply Hmore, kept_socket; [done..|by rewrite H4].
  - right. left. cbn [JsonRpc.do_turn]. destruct r as [data| |b]; cbn [turn_ok] in Hok.
    + destruct Hok as [Hlen Hg]. eexists. split; [apply zoom_done; cbn [on_recv]; rewrite (proj2 (Z.ltb_lt _ _) Hlen); apply receive_json_run|].
      apply Hmore, kept_socket; try done. cbn. apply Forall_app. split; [done|]. by apply requests_good.
    + eexists. split; [by apply zoom_done|]. by apply Hmore, kept_socket.
    + eexists. split; [by apply zoom_done|]. by apply Hmore, kept_socket.
  - right. cbn [JsonRpc.do_turn stale_put]. destruct (serve_kept w0 n s Hk Hn) as [[Hs Hx]|(b & s' & Hs & Hk' & _)].
    + right. split; [|done]. unfold mbind, M_bind. by rewrite Hs.
    + left. exists s'. split; [|done]. by mstep Hs.
  - destruct Hk as (G12 & T1 & T2 & G3 & ps2 & ps3 & Hi). assert (Hh := held_length _ _ _ _ (iv_held _ _ _ _ _ _ _ _ _ Hi)).
    destruct ps3 as [|p ps3], G3 as [|t G3]; try done.
    + left. cbn [JsonRpc.do_turn]. unfold mapper_thread. msimpl. by rewrite (iv_req_sema _ _ _ _ _ _ _ _ _ Hi).
    + right. left. destruct (map_kept _ _ _ _ _ _ _ _ _ _ _ Hi) as (s' & t' & Hr & Hi' & _). exists s'. split; [done|]. apply Hmore. do 6 eexists. exact Hi'.
  - destruct Hk as (G12 & T1 & T2 & G3 & ps2 & ps3 & Hi). assert (Hh := held_length _ _ _ _ (iv_done_held _ _ _ _ _ _ _ _ _ Hi)).
    destruct ps2 as [|p ps2], T2 as [|t T2]; try done.
    + left. cbn [JsonRpc.do_turn]. unfold result_thread. msimpl. by rewrite (iv_resp_sema _ _ _ _ _ _ _ _ _ Hi).
    + right. assert (Hr := respond_kept _ _ _ _ _ _ _ _ _ _ _ Hi). destruct (has_object t); [|by right].
      destruct Hr as (s' & Hr & Hi' & _). left. exists s'. split; [done|]. apply Hmore. do 6 eexists. exact Hi'.
  - destruct (send_kept w0 n s alive Hk) as (s' & Hs & Hk' & _). destruct (response_chain (ServerSocket s)); [by left|]. right. left. exists s'. split; [done|]. by apply Hmore.
Qed.
(** A run stops at such a turn. *)
Definition stops_at_put (ts : list turn) (s : server W) : Prop :=
  run ts s = Oops ∧ ∃ ts1 t ts2 s1, ts = ts1 ++ t :: ts2 ∧ run ts1 s = Done () s1 ∧ stale_put t s1.
Lemma run_kept w0 ts : ∀ n s, kept w0 n s → Forall turn_ok ts → n + Z.of_nat (length ts) ≤ INT_MAX →
  run ts s = Blocked ∨ (∃ s', run ts s = Done () s' ∧ kept w0 (n + Z.of_nat (length ts)) s') ∨ stops_at_put ts s.
Proof.
  induction ts as [|t ts IH]; intros n s Hk Hok Hn; [right; left; exists s; split; [done|]; eapply kept_more; [done|cbn; lia]|].
  apply Forall_cons in Hok as [Ht Hok]. cbn [length] in Hn. unfold stops_at_put. cbn [JsonRpc.run].
  destruct (turn_kept w0 n s t Hk Ht) as [Hb|[(s1 & Hs1 & Hk1)|[Ho Hp]]]; [lia|left; unfold mbind, M_bind; by rewrite Hb|..].
  - mstep Hs1. destruct (IH (n + 1) s1 Hk1 Hok) as [Hb|[(s2 & Hs2 & Hk2)|(Ho & ts1 & u & ts2 & s2 & -> & Hr & Hp)]]; [lia|by left|..].
    + right. left. exists s2. split; [done|].
      by replace (n + Z.of_nat (length (t :: ts))) with (n + 1 + Z.of_nat (length ts)) by (cbn [length]; lia).
    + right. right. split; [done|]. exists (t :: ts1), u, ts2, s2. split; [done|]. split; [|done]. cbn [JsonRpc.run]. by mstep Hs1.
  - right. right. split; [unfold mbind, M_bind; by rewrite Ho|]. exists [], t, ts, s. done.
Qed.

Definition start (w0 : W) : server W := set_rpc_call_list l (proxy_new w0).
Lemma start_kept w0 : kept w0 0 (start w0).
Proof.
  exists [], [], [], [], [], []. split; try done; try constructor; [intros p Hp; by apply elem_of_nil in Hp].
Qed.

(** ** The threads go on *)
Lemma run_app ts us (s s' : server W) : run ts s = Done () s' → run (ts ++ us) s = run us s'.
Proof.
  revert s. induction ts as [|t ts IH]; intros s; cbn [JsonRpc.run app]; [by intros [= <-]|]. unfold mbind, M_bind.
  destruct (do_turn t s) as [[] s1| | | |]; [|done..]. apply IH.
Qed.
Lemma run_cons t ts (s s1 : server W) : do_turn t s = Done () s1 → run (t :: ts) s = run ts s1.
Proof. intros Ht. cbn [JsonRpc.run]. by mstep Ht. Qed.
Lemma refused_app os1 os2 : refused l (os1 ++ os2) = refused l os1 ++ refused l os2.
Proof. induction os1 as [|o os1 IH]; [done|]. cbn. rewrite IH. by destruct (examine l o) as [[]|]. Qed.
Lemma drain_requests w0 c : ∀ n s, kept w0 n s → request_chain (ServerSocket s) = c → refused l c = [] →
  n + Z.of_nat (length c) ≤ INT_MAX → ∃ s',
  run (replicate (length c) Serve) s = Done () s' ∧ kept w0 (n + Z.of_nat (length c)) s' ∧
  request_chain (ServerSocket s') = [] ∧ taken s' = taken s ++ c.
Proof.
  induction c as [|o c IH]; intros n s Hk Hc Hrf Hn.
  - exists s. cbn [length replicate]. change (Z.of_nat 0) with 0. by rewrite Z.add_0_r, app_nil_r.
  - cbn [length replicate] in *. destruct (serve_kept w0 n s Hk) as [[_ Hx]|(b & s1 & Hs & Hk1 & Hrest)]; [lia| |].
    { destruct Hx as (o' & c' & id & e & Hc' & Hx). rewrite Hc in Hc'. injection Hc' as <- <-. cbn [JsonRpc.refused] in Hrf. by rewrite Hx in Hrf. }
    destruct (Hrest o c Hc) as [Hc1 Ht1]. change (o :: c) with ([o] ++ c) in Hrf. rewrite refused_app in Hrf. apply app_eq_nil in Hrf as [_ Hrf].
    destruct (IH (n + 1) s1 Hk1 Hc1 Hrf) as (s2 & Hr & Hk2 & H1 & H2); [lia|]. exists s2.
    rewrite (run_cons Serve _ s s1) by (cbn [JsonRpc.do_turn]; by mstep Hs). split_and!; [done| |done|by rewrite H2, Ht1, <-app_assoc].
    by replace (n + Z.of_nat (S (length c))) with (n + 1 + Z.of_nat (length c)) by lia.
Qed.
Lemma drain_mapper w0 n G3 : ∀ s G12 T1 T2 ps2 ps3, inv w0 n s G12 T1 T2 G3 ps2 ps3 → ∃ s' G T ps,
  run (replicate (length G3) Map) s = Done () s' ∧ inv w0 n s' G T1 T [] ps [] ∧ ServerSocket s' = ServerSocket s ∧ taken s' = taken s.
Proof.
  induction G3 as [|t G3 IH]; intros s G12 T1 T2 ps2 ps3 Hi; assert (Hh := held_length _ _ _ _ (iv_held _ _ _ _ _ _ _ _ _ Hi)).
  - destruct ps3; [|done]. by exists s, G12, T2, ps2.
  - destruct ps3 as [|p ps3]; [done|]. destruct (map_kept _ _ _ _ _ _ _ _ _ _ _ Hi) as (s1 & t' & Hr & Hi1 & H1 & H2).
    destruct (IH _ _ _ _ _ _ Hi1) as (s2 & G & T & ps & Hr2 & Hi2 & H3 & H4). exists s2, G, T, ps.
    cbn [length replicate]. rewrite (run_cons Map _ s s1 Hr). by rewrite H3, H4.
Qed.
Lemma drain_results w0 n T2 : ∀ s G T1 ps2, inv w0 n s G T1 T2 [] ps2 [] → Forall (λ t, has_object t = true) T2 → ∃ s' T,
  run (replicate (length T2) Respond) s = Done () s' ∧ inv w0 n s' G T [] [] [] [] ∧
  request_chain (ServerSocket s') = request_chain (ServerSocket s) ∧ taken s' = taken s.
Proof.
  induction T2 as [|t T2 IH]; intros s G T1 ps2 Hi Hob; assert (Hh := held_length _ _ _ _ (iv_done_held _ _ _ _ _ _ _ _ _ Hi)).
  - destruct ps2; [|done]. by exists s, T1.
  - destruct ps2 as [|p ps2]; [done|]. apply Forall_cons in Hob as [Ht Hob].
    assert (Hr := respond_kept _ _ _ _ _ _ _ _ _ _ _ Hi). rewrite Ht in Hr. destruct Hr as (s1 & Hr & Hi1 & H1 & H2).
    destruct (IH _ _ _ _ Hi1 Hob) as (s2 & T & Hr2 & Hi2 & H3 & H4). exists s2, T.
    cbn [length replicate]. rewrite (run_cons Respond _ s s1 Hr). by rewrite H3, H4.
Qed.
Lemma drain_responses w0 n alive c : ∀ s, kept w0 n s → response_chain (ServerSocket s) = c → ∃ s',
  run (replicate (length c) (Send alive)) s = Done () s' ∧ kept w0 n s' ∧ ReqRespChain s' = ReqRespChain s ∧ taken s' = taken s ∧
  request_chain (ServerSocket s') = request_chain (ServerSocket s) ∧ response_chain (ServerSocket s') = [].
Proof.
  induction c as [|o c IH]; intros s Hk Hc; [by exists s|].
  destruct (send_kept w0 n s alive Hk) as (s1 & Hs & Hk1 & H1 & H2 & H3 & H4). rewrite Hc in Hs, H4. cbn in H4.
  destruct (IH s1 Hk1 H4) as (s2 & Hr & Hk2 & H5 & H6 & H7 & H8). exists s2. cbn [length replicate].
  rewrite (run_cons (Send alive) _ s s1 Hs). split_and!; [done|done|by rewrite H5|by rewrite H6|by rewrite H7|done].
Qed.

(** C36: let every text that arrives be one that the server can judge and, if it
    grants it, work on without a buffer being too small ([good]), and let the turns of
    the threads come in any order.  Then either a thread waits; or no pointer is used
    after its object is gone, every request was granted, the requests are worked on in
    the order of their arrival as if there were one thread, and what is handed to the
    sending thread is the answers, each once and in that order, every answer with the
    socket and the identifier of its own request; or the run stops where a request is
    refused, or a result without an object is sent: there, and nowhere else, an object
    of json-c is put that has been freed. *)
Theorem server_answers_in_order w0 ts : Forall turn_ok ts → Z.of_nat (length ts) ≤ INT_MAX →
  run ts (start w0) = Blocked ∨
  (∃ s' G1 G2 T1 T2, run ts (start w0) = Done () s' ∧ refused l (taken s') = [] ∧
    granted l (taken s') = G1 ++ G2 ∧ perform_all G1 w0 = Done (T1 ++ T2) (world s') ∧
    scheduled s' = reply <$> T1 ∧ (ReqRespChain s' = [] → T2 = [] ∧ G2 = [])) ∨
  stops_at_put ts (start w0).
Proof.
  intros Hok Hn. destruct (run_kept w0 ts 0 (start w0) (start_kept w0) Hok ltac:(lia)) as [Hb|[(s' & Hr & Hk)|Hp]]; [by left| |by right; right].
  right. left. destruct Hk as (G12 & T1 & T2 & G3 & ps2 & ps3 & Hi). exists s', G12, G3, T1, T2.
  destruct Hi as [Hl Hg Hd Hrf Hs Hob Hc _ _ _ _ _ _ Hh2 Hh3 _ _ _ _ _ _ _ _ _]. split_and!; [done..|].
  rewrite Hc. intros [-> ->]%app_eq_nil. apply held_length in Hh2, Hh3. by destruct T2, G3.
Qed.

(** C37: the server does not get stuck: from every state that the threads reach with
    texts that are [good], when none of the requests that arrived is refused and all
    their results have an object, turns of its own threads alone lead to a state where
    every request that arrived has been worked on and every answer was sent, in
    order. *)
Theorem nothing_is_left_unanswered w0 ts s : Forall turn_ok ts → run ts (start w0) = Done () s →
  let arrived := taken s ++ request_chain (ServerSocket s) in
  Z.of_nat (length ts + length (request_chain (ServerSocket s))) ≤ INT_MAX →
  refused l arrived = [] →
  (∀ T w, perform_all (granted l arrived) w0 = Done T w → Forall (λ t, has_object t = true) T) →
  ∀ alive, ∃ us s' T, Forall (λ u, u = Serve ∨ u = Map ∨ u = Respond ∨ u = Send alive) us ∧ run us s = Done () s' ∧
    taken s' = arrived ∧ request_chain (ServerSocket s') = [] ∧
    perform_all (granted l arrived) w0 = Done T (world s') ∧ fst <$> sent (ServerSocket s') = reply <$> T.
Proof.
  intros Hok Hrun arrived Hn Hrf Hob alive. unfold arrived in Hrf. rewrite refused_app in Hrf. apply app_eq_nil in Hrf as [_ Hrf].
  destruct (run_kept w0 ts 0 (start w0) (start_kept w0) Hok ltac:(lia)) as [Hb|[(s0 & Hr & Hk)|[Hp _]]]; [congruence| |congruence].
  rewrite Hrun in Hr. injection Hr as <-.
  destruct (drain_requests w0 _ _ s Hk eq_refl Hrf) as (s1 & Hr1 & (G12 & T1 & T2 & G3 & ps2 & ps3 & Hi1) & Hc1 & Ht1); [lia|].
  destruct (drain_mapper _ _ _ _ _ _ _ _ _ Hi1) as (s2 & G & T' & ps & Hr2 & Hi2 & H1 & H2).
  assert (HT' : Forall (λ t, has_object t = true) T').
  { assert (Hg2 := iv_granted _ _ _ _ _ _ _ _ _ Hi2). rewrite H2, Ht1, app_nil_r in Hg2.
    assert (Hall := Hob _ _ ltac:(unfold arrived; rewrite Hg2; exact (iv_done _ _ _ _ _ _ _ _ _ Hi2))). by apply Forall_app in Hall as [_ ?]. }
  destruct (drain_results _ _ _ _ _ _ _ Hi2 HT') as (s3 & T & Hr3 & Hi3 & H3 & H4).
  destruct (drain_responses w0 _ alive _ s3 ltac:(do 6 eexists; exact Hi3) eq_refl) as (s4 & Hr4 & Hk4 & H5 & H6 & H7 & H8).
  destruct Hk4 as (G12' & T1' & T2' & G3' & ps2' & ps3' & [Hl Hg Hd _ Hs _ Hc _ _ _ _ _ _ Hh2 Hh3 _ _ _ _ _ _ _ _ _]).
  rewrite H5, (iv_chain _ _ _ _ _ _ _ _ _ Hi3) in Hc. symmetry in Hc. apply app_eq_nil in Hc as [-> ->]. apply held_length in Hh2, Hh3.
  destruct T2', G3'; try done. rewrite !app_nil_r in *. rewrite H6, H4, H2, Ht1 in Hg. fold arrived in Hg.
  exists (replicate (length (request_chain (ServerSocket s))) Serve ++ replicate (length G3) Map ++ replicate (length T') Respond ++
    replicate (length (response_chain (ServerSocket s3))) (Send alive)), s4, T1'.
  split_and!.
  - rewrite !Forall_app. split_and!; apply Forall_replicate; tauto.
  - rewrite (run_app _ _ _ _ Hr1), (run_app _ _ _ _ Hr2), (run_app _ _ _ _ Hr3). exact Hr4.
  - by rewrite H6, H4, H2.
  - by rewrite H7, H3, H1.
  - by rewrite Hg.
  - unfold scheduled in Hs. rewrite H8 in Hs. cbn [fmap list_fmap] in Hs. rewrite app_nil_r in Hs. exact Hs.
Qed.
End proofs.

(** ** Examples

    A service that counts its calls, with one method; the two requests of one [recv]
    are calls of it.  A call of a method that is not there stops the server. *)
Definition count_decode (D : JsonDataCommObj unit) : M nat (Z * JsonDataCommObj unit) := mret (0, D).
Definition count_work (D : JsonDataCommObj unit) : M nat (Z * JsonDataCommObj unit) := n ← gets id; modify (λ _, S n);; mret (0, D).
Definition count_encode (D : JsonDataCommObj unit) : M nat (Z * JsonDataCommObj unit) :=
  mret (0, MkComm (req_id D) (cmd_index D) CMD_TASK_RESULT_SUCCESS (rpc_code D) (socket_data D)
    (JObject [(str "return", JString (str "pass"))]) (custom_result_string D) (pDataObj D) (cltport D) (clt_ip D) (sock_id D) (sock_descr D)).
Definition count_methods : list (cstr * Z) := [(str "ping", 0)].
Definition pong : cstr := q "{'jsonrpc':'2.0','method':'pong','id':2}".
Definition nosp (s : cstr) : cstr := List.filter (λ c, negb (code c =? 32)) s.
Definition count_turns : list turn :=
  [Accepted 7 (Some (str "10.0.0.2", str "5000")); Received 7 (RecvData (concat [nosp (ping "1"); nosp (ping "2")])); Serve; Map; Serve; Respond; Send (λ _, true); Map; Respond; Send (λ _, true)].

Lemma count_good t : t = nosp (ping "1") ∨ t = nosp (ping "2") →
  @good simple_json nat unit true 64 count_decode count_work count_encode count_methods t.
Proof.
  intros [-> | ->] o Ho; destruct o as [i sd p c k n b]; cbn [data_buffer] in Ho; subst b; eexists; (split; [vm_compute; reflexivity|]);
    cbv beta iota; intros w; eexists _, _; vm_compute; reflexivity.
Qed.
Lemma count_turns_ok : Forall (@turn_ok simple_json nat unit true 64 count_decode count_work count_encode count_methods) count_turns.
Proof.
  repeat apply Forall_cons_2; try exact I; [left; vm_compute; reflexivity| |constructor]. split; [vm_compute; reflexivity|].
  assert (E : cuts [] (concat [nosp (ping "1"); nosp (ping "2")]) = [nosp (ping "1"); nosp (ping "2")]) by (vm_compute; reflexivity). rewrite E.
  apply Forall_cons_2; [|apply Forall_cons_2; [|constructor]]; apply count_good; [left|right]; vm_compute; reflexivity.
Qed.
Lemma server_answers_in_order_witness : ∃ s' G1 G2 T1 T2,
  @run simple_json nat unit true 64 count_decode count_work count_encode count_turns (start count_methods 0%nat) = Done () s' ∧
  @granted simple_json true 64 count_methods (taken s') = G1 ++ G2 ∧
  @perform_all simple_json nat unit count_decode count_work count_encode G1 0%nat = Done (T1 ++ T2) (world s') ∧
  scheduled s' = @reply simple_json <$> T1 ∧ (ReqRespChain s' = [] → T2 = [] ∧ G2 = []) ∧ length T1 = 2%nat.
Proof.
  destruct (@server_answers_in_order simple_json nat unit true 64 count_decode count_work count_encode count_methods 0%nat count_turns
    count_turns_ok ltac:(vm_compute; discriminate)) as [Hb|[(s' & G1 & G2 & T1 & T2 & Hr & _ & Hg & Hd & Hs & He)|[Ho _]]];
    [vm_compute in Hb; discriminate| |vm_compute in Ho; discriminate].
  exists s', G1, G2, T1, T2. split_and!; [exact Hr|exact Hg|exact Hd|exact Hs|exact He|].
  apply (f_equal length) in Hs. rewrite length_fmap in Hs. rewrite <- Hs. vm_compute in Hr. injection Hr as <-. vm_compute. reflexivity.
Defined.
(** The server stops at a method that is not there. *)
Example pong_stops : @run simple_json nat unit true 64 count_decode count_work count_encode
  [Accepted 7 (Some (str "10.0.0.2", str "5000")); Received 7 (RecvData pong); Serve] (start count_methods 0%nat) = Oops.
Proof. vm_compute. reflexivity. Qed.
Lemma nothing_is_left_unanswered_witness : ∃ us s' T, Forall (λ u, u = Serve ∨ u = Map ∨ u = Respond ∨ u = Send (λ _, true)) us ∧
  ∃ s, @run simple_json nat unit true 64 count_decode count_work count_encode (take 3 count_turns) (start count_methods 0%nat) = Done () s ∧
    length (request_chain (ServerSocket s)) = 1%nat ∧
    @run simple_json nat unit true 64 count_decode count_work count_encode us s = Done () s' ∧
    fst <$> sent (ServerSocket s') = @reply simple_json <$> T.
Proof.
  destruct (@run simple_json nat unit true 64 count_decode count_work count_encode (take 3 count_turns) (start count_methods 0%nat)) as [[] s| | | |] eqn:E;
    [|vm_compute in E; discriminate..].
  assert (Hl : length (request_chain (ServerSocket s)) = 1%nat) by (vm_compute in E; injection E as <-; reflexivity).
  destruct (@nothing_is_left_unanswered simple_json nat unit true 64 count_decode count_work count_encode count_methods 0%nat (take 3 count_turns) s
    (Forall_take _ _ _ count_turns_ok) E ltac:(rewrite Hl; vm_compute; discriminate)
    ltac:(vm_compute in E; injection E as <-; vm_compute; reflexivity)
    ltac:(vm_compute in E; injection E as <-; intros T w HT; vm_compute in HT; injection HT as <- _; repeat constructor) (λ _, true))
    as (us & s' & T & Hus & Hr & _ & _ & _ & Hsent).
  exists us, s', T. split; [exact Hus|]. exists s. split; [reflexivity|]. split; [exact Hl|]. split; [exact Hr|exact Hsent].
Defined.
