(* ===== verification/RpcMgr.v ===== *)
(** * What every service answers

    The class ADJsonRpcMgr ([ADJsonRpcMgr.cpp], [ADJsonRpcMgr.hpp]), which a
    service hands to the JSON-RPC server as mapper and as worker: 24 calls that
    all services have, and the calls that the service attaches.  A call runs in
    three phases, which hand a packet on: reading the parameters, the work, and
    making the result; the helpers of the phases are the macros of [ADCommon.hpp] and
    the class ADCmnStringProcessor.  The members of a packet are [None] until
    they are written; reading one before is a fault.  Memory does not run out.  The
    tasks are those of [TaskWorker], the subscriptions those of [EvntMgr]. *)

From Stdlib Require Import ZArith Lia Ascii String.
From stdpp Require Import base list gmap strings sets.
From S2P Require Import Prelude CString CxxStd ChainHeap Chain AdavChain RpcResult TaskWorker EvntMgr Lang JsonGrammar Json NetServer JsonRpc.

(** ** Data *)

(** [EJSON_RPCGMGR_CMD]. *)
Definition EJSON_RPCGMGR_GET_TASK_STS : Z := 0.
Definition EJSON_RPCGMGR_GET_RPC_SRV_VERSION : Z := 1.
Definition EJSON_RPCGMGR_TRIGGER_DATASAVE : Z := 2.
Definition EJSON_RPCGMGR_GET_SETTINGS_STS : Z := 3.
Definition EJSON_RPCGMGR_SHUTDOWN_SERVICE : Z := 4.
Definition EJSON_RPCGMGR_RESET_TASK_STS : Z := 5.
Definition EJSON_RPCGMGR_GET_READY_STS : Z := 6.
Definition EJSON_RPCGMGR_GET_DEBUG_LOG : Z := 7.
Definition EJSON_RPCGMGR_SET_DEBUG_LOG : Z := 8.
Definition EJSON_RPCGMGR_TRIGGER_FACTORY_STORE : Z := 9.
Definition EJSON_RPCGMGR_TRIGGER_FACTORY_RESTORE : Z := 10.
Definition EJSON_RPCGMGR_EVENT_SUBSCRIBE : Z := 11.
Definition EJSON_RPCGMGR_EVENT_UNSUBSCRIBE : Z := 12.
Definition EJSON_RPCGMGR_EVENT_NOTIFY : Z := 13.
Definition EJSON_RPCGMGR_EVENT_PROCESS : Z := 14.
Definition EJSON_RPCGMGR_TRIGGER_RUN : Z := 15.
Definition EJSON_RPCMGR_GET_DEVOP_STATE : Z := 16.
Definition EJSON_RPCMGR_SET_DEVOP_STATE : Z := 17.
Definition EJSON_RPCMGR_GET_MW_BYTE : Z := 18.
Definition EJSON_RPCMGR_SET_MW_BYTE : Z := 19.
Definition EJSON_RPCMGR_GET_MW_WORD : Z := 20.
Definition EJSON_RPCMGR_SET_MW_WORD : Z := 21.
Definition EJSON_RPCMGR_GET_MW_DWORD : Z := 22.
Definition EJSON_RPCMGR_SET_MW_DWORD : Z := 23.
Definition EJSON_RPCGMGR_CMD_END : Z := 24.

(** The tables of the states. *)
Definition RPCMGR_RPC_READY_STS_ARGSTS_TBL : list string := ["notready"; "ready"; "busy"; "unknown"; "none"; ""].
Definition RPCMGR_RPC_DEBUG_LOG_ARGSTS_TBL : list string := ["disable"; "enable"; "unknown"; "none"; ""].
Definition RPCMGR_RPC_DEVOP_STATE_ARGSTS_TBL : list string :=
  ["idle"; "on"; "laststate"; "off"; "reboot"; "booting"; "rebooting"; "switchingoff"; "boot"; "idlenoexthw"; "unknown"; "none"; ""].
Definition EJSON_RPCGMGR_READY_STATE_NOT_READY : Z := 0.
Definition EJSON_RPCGMGR_READY_STATE_READY : Z := 1.
Definition EJSON_RPCGMGR_READY_STATE_UNKNOWN : Z := 3.
Definition EJSON_RPCGMGR_FLAG_STATE_DISABLE : Z := 0.
Definition EJSON_RPCGMGR_FLAG_STATE_ENABLE : Z := 1.
Definition EJSON_RPCGMGR_FLAG_STATE_UNKNOWN : Z := 2.
Definition EJSON_RPCGMGR_DEVOP_STATE_UNKNOWN : Z := 10.

(** The packets; [A] are those of the calls a service attaches. *)
Inductive packet (A : Type) :=
| RPCMGR_TASK_STS_PACKET (taskID : option Z) (task_sts : option cstr)
| RPCMGR_INTEGER_PACKET (value : option Z)
| RPCMGR_SETTINGS_STS_PACKET (status : option cstr)
| RPCMGR_READY_STS_PACKET (status : option Z)
| RPCMGR_DEBUG_LOG_PACKET (status : option Z)
| EVENT_PACKET (cltToken portNum eventNum srvToken sock_descr sock_id : option Z) (ip : option cstr) (eventArg eventArg2 : option Z)
| RPCMGR_DEVOP_STS_PACKET (status : option Z)
| RPCMGR_MIDDLEWARE_PACKET (addr byte word dword : option Z)
| SERVICE_PACKET (a : A).
Arguments RPCMGR_TASK_STS_PACKET {A} _ _.
Arguments RPCMGR_INTEGER_PACKET {A} _.
Arguments RPCMGR_SETTINGS_STS_PACKET {A} _.
Arguments RPCMGR_READY_STS_PACKET {A} _.
Arguments RPCMGR_DEBUG_LOG_PACKET {A} _.
Arguments EVENT_PACKET {A} _ _ _ _ _ _ _ _ _.
Arguments RPCMGR_DEVOP_STS_PACKET {A} _.
Arguments RPCMGR_MIDDLEWARE_PACKET {A} _ _ _ _.
Arguments SERVICE_PACKET {A} _.

(** What a member of a packet holds; a packet whose type is cast keeps the
    [int] at its beginning. *)
Definition task_id {A} (p : packet A) : option Z :=
  match p with RPCMGR_TASK_STS_PACKET v _ | RPCMGR_INTEGER_PACKET v | RPCMGR_READY_STS_PACKET v | RPCMGR_DEBUG_LOG_PACKET v | RPCMGR_DEVOP_STS_PACKET v => v | _ => None end.
Definition set_task_id {A} (v : Z) (p : packet A) : option (packet A) :=
  match p with
  | RPCMGR_TASK_STS_PACKET _ t => Some (RPCMGR_TASK_STS_PACKET (Some v) t)
  | RPCMGR_DEVOP_STS_PACKET _ => Some (RPCMGR_DEVOP_STS_PACKET (Some v))
  | _ => None
  end.

(** The object; [logmsg] are the flags of the attached calls, [X] is what the
    service keeps. *)
Record ADJsonRpcMgr (X : Type) := MkRpcMgr {
  svnVersion : Z;
  ServiceDebugFlag : bool;
  shutdown_support : bool;
  ServiceReadyFlag : Z;
  logmsg : list bool;
  EventMgr : ADEvntMgr;
  AsyncTaskWorker : worker;
  exit_forced : bool;
  service : X
}.
Arguments MkRpcMgr {X} _ _ _ _ _ _ _ _ _.
Arguments svnVersion {X} _.
Arguments ServiceDebugFlag {X} _.
Arguments shutdown_support {X} _.
Arguments ServiceReadyFlag {X} _.
Arguments logmsg {X} _.
Arguments EventMgr {X} _.
Arguments AsyncTaskWorker {X} _.
Arguments exit_forced {X} _.
Arguments service {X} _.
Section mgr_setters.
Context {X : Type}.
Implicit Type m : ADJsonRpcMgr X.
Definition set_debug v m := MkRpcMgr (svnVersion m) v (shutdown_support m) (ServiceReadyFlag m) (logmsg m) (EventMgr m) (AsyncTaskWorker m) (exit_forced m) (service m).
Definition set_shutdown_support v m := MkRpcMgr (svnVersion m) (ServiceDebugFlag m) v (ServiceReadyFlag m) (logmsg m) (EventMgr m) (AsyncTaskWorker m) (exit_forced m) (service m).
Definition set_ready v m := MkRpcMgr (svnVersion m) (ServiceDebugFlag m) (shutdown_support m) v (logmsg m) (EventMgr m) (AsyncTaskWorker m) (exit_forced m) (service m).
Definition set_logmsg v m := MkRpcMgr (svnVersion m) (ServiceDebugFlag m) (shutdown_support m) (ServiceReadyFlag m) v (EventMgr m) (AsyncTaskWorker m) (exit_forced m) (service m).
Definition set_EventMgr v m := MkRpcMgr (svnVersion m) (ServiceDebugFlag m) (shutdown_support m) (ServiceReadyFlag m) (logmsg m) v (AsyncTaskWorker m) (exit_forced m) (service m).
Definition set_worker v m := MkRpcMgr (svnVersion m) (ServiceDebugFlag m) (shutdown_support m) (ServiceReadyFlag m) (logmsg m) (EventMgr m) v (exit_forced m) (service m).
Definition set_exit v m := MkRpcMgr (svnVersion m) (ServiceDebugFlag m) (shutdown_support m) (ServiceReadyFlag m) (logmsg m) (EventMgr m) (AsyncTaskWorker m) v (service m).
Definition set_service (v : X) m := MkRpcMgr (svnVersion m) (ServiceDebugFlag m) (shutdown_support m) (ServiceReadyFlag m) (logmsg m) (EventMgr m) (AsyncTaskWorker m) (exit_forced m) v.
End mgr_setters.

(** A call that a service attaches, [ADJsonRpcMgrConsumer]: the virtual
    functions of the class. *)
Record ADJsonRpcMgrConsumer (X A : Type) := MkConsumer {
  strRpcName : cstr;
  rpc_index : Z;
  cmnrpchandler : bool;
  v_MapJsonToBinary : JsonDataCommObj (packet A) → Z → M (ADJsonRpcMgr X) (Z * JsonDataCommObj (packet A));
  v_MapBinaryToJson : JsonDataCommObj (packet A) → Z → M (ADJsonRpcMgr X) (Z * JsonDataCommObj (packet A));
  v_ProcessWork : JsonDataCommObj (packet A) → Z → M (ADJsonRpcMgr X) (Z * JsonDataCommObj (packet A));
  v_ProcessWorkAsync : Z → ptr → M (ADJsonRpcMgr X) RPC_SRV_RESULT
}.
Arguments MkConsumer {X A} _ _ _ _ _ _ _.
Arguments strRpcName {X A} _.
Arguments rpc_index {X A} _.
Arguments cmnrpchandler {X A} _.
Arguments v_MapJsonToBinary {X A} _ _ _.
Arguments v_MapBinaryToJson {X A} _ _ _.
Arguments v_ProcessWork {X A} _ _ _.
Arguments v_ProcessWorkAsync {X A} _ _ _.

(** The allocator of the tasks. *)
Class TaskMemory := MkTaskMemory {
  tm_rev : revision;
  tm_malloc_w : gmap loc chain_holder → option (loc * chain_holder);
  tm_malloc_i : gmap loc chain_holder → option (loc * chain_holder);
  tm_new_task : gmap loc cell → loc * WORK_CMD_TASK;
  tm_new_inprog : gmap loc WORK_CMD_TASK_IN_PROG → loc * WORK_CMD_TASK_IN_PROG;
  tm_new_data : gmap loc cell → loc
}.

Section mgr.
Context `{JsonC, TaskMemory} {X A : Type}.
Variable long_bits : Z.
(** The attached calls, [rpclist]. *)
Variable rpclist : list (ADJsonRpcMgrConsumer X A).
Notation RM := (M (ADJsonRpcMgr X)).
Notation comm := (JsonDataCommObj (packet A)).
Notation step := (RM (Z * comm)).

(** *** Members of the request *)
Definition set_mapper_result v (D : comm) : comm :=
  MkComm (req_id D) (cmd_index D) v (rpc_code D) (socket_data D) (json_resp_obj D) (custom_result_string D) (pDataObj D) (cltport D) (clt_ip D) (sock_id D) (sock_descr D).
Definition set_response r o (D : comm) : comm :=
  MkComm (req_id D) (cmd_index D) (mapper_result D) r (socket_data D) o (custom_result_string D) (pDataObj D) (cltport D) (clt_ip D) (sock_id D) (sock_descr D).
Definition set_custom v (D : comm) : comm :=
  MkComm (req_id D) (cmd_index D) (mapper_result D) (rpc_code D) (socket_data D) (json_resp_obj D) v (pDataObj D) (cltport D) (clt_ip D) (sock_id D) (sock_descr D).
Definition set_pDataObj v (D : comm) : comm :=
  MkComm (req_id D) (cmd_index D) (mapper_result D) (rpc_code D) (socket_data D) (json_resp_obj D) (custom_result_string D) v (cltport D) (clt_ip D) (sock_id D) (sock_descr D).
Definition req_of {S} (D : comm) : M S (RPC_SRV_REQ (packet A)) := of_opt (pDataObj D).
Definition packet_of {S} (D : comm) : M S (packet A) := q ← req_of D; of_opt (dataRef q).
Definition put_packet {S} (p : option (packet A)) (D : comm) : M S comm :=
  q ← req_of D; mret (set_pDataObj (Some (MkSrvReq (action q) (cmd q) (clientId q) (reqIdent q) (result q) p)) D).
Definition put_result {S} (r : RPC_SRV_RESULT) (D : comm) : M S comm :=
  q ← req_of D; mret (set_pDataObj (Some (MkSrvReq (action q) (cmd q) (clientId q) (reqIdent q) r (dataRef q))) D).

(** *** ADCmnStringProcessor *)
(** A parameter as text, in a buffer of 255 bytes. *)
Definition find_single_param {S} (json_string param_name : cstr) : M S (option cstr) :=
  match json_tokener_parse json_string with
  | JNull => mret None
  | new_obj =>
      let new_obj1 := json_object_object_get new_obj (str "params") in
      match json_object_get_string new_obj1 with
      | None => mret None
      | Some _ => member_text_in 255 new_obj1 param_name
      end
  end.
Definition prepare_req_object {S} (act : RPC_SRV_ACT) (c : Z) (D : comm) : M S comm :=
  q ← req_of D; mret (set_pDataObj (Some (MkSrvReq act c (clientId q) (reqIdent q) (result q) (dataRef q))) D).
Definition result_string {S} (r : RPC_SRV_RESULT) : M S cstr := t ← lift (convert_server_result_to_string r); mret (str t).
(** The three forms of [prepare_result_string]. *)
Definition return_object (r : cstr) : json := json_object_object_add json_object_new_object (str "return") (json_object_new_string r).
Definition prepare_result_string {S} (r : RPC_SRV_RESULT) (D : comm) : M S comm :=
  t ← result_string r; mret (set_response r (return_object t) D).
Definition prepare_result_string_s {S} (r : RPC_SRV_RESULT) (D : comm) (name : string) (v : cstr) : M S comm :=
  t ← result_string r; mret (set_response r (json_object_object_add (return_object t) (str name) (json_object_new_string v)) D).
Definition prepare_result_string_i {S} (r : RPC_SRV_RESULT) (D : comm) (name : string) (v : Z) : M S comm :=
  t ← result_string r; mret (set_response r (json_object_object_add (return_object t) (str name) (json_object_new_int v)) D).

(** *** The macros *)
Definition PREPARE_JSON_REQUEST {S} (p : packet A) (act : RPC_SRV_ACT) (c : Z) (D : comm) : M S comm :=
  D ← prepare_req_object act c D; put_packet (Some p) D.
(** A parameter that is missing ends the phase; what follows gets its text. *)
Definition param_missing {S} (D : comm) : M S (Z * comm) :=
  D ← put_packet None (set_mapper_result CMD_TASK_RESULT_INVALID_PARAM D); mret (-1, D).
Definition JSON_STRING {S} (name : string) (D : comm) (k : cstr → M S (Z * comm)) : M S (Z * comm) :=
  v ← find_single_param (socket_data D) (str name);
  match v with None => param_missing D | Some t => k t end.
Definition JSON_STRING_TO_INT {S} (name : string) (D : comm) (k : Z → M S (Z * comm)) : M S (Z * comm) :=
  JSON_STRING name D (λ t, k (atoi long_bits t)).
Definition JSON_STRING_TO_ULONG {S} (name : string) (old : option Z) (D : comm) (k : option Z → M S (Z * comm)) : M S (Z * comm) :=
  JSON_STRING name D (λ t, k (match sscanf_lu long_bits t with Some v => Some v | None => old end)).
Definition JSON_STRING_TO_ENUM {S} (name : string) (tbl : list string) (ENUM_MAX : Z) (D : comm) (k : Z → M S (Z * comm)) : M S (Z * comm) :=
  JSON_STRING name D (λ t,
    v ← lift (string_to_enum tbl (string_of_list_ascii t) ENUM_MAX);
    if ENUM_MAX <=? v then param_missing D else k v).
(** A parameter that may be missing, with -1 then. *)
Definition optional_int {S} (name : string) (D : comm) (k : Z → M S (Z * comm)) : M S (Z * comm) :=
  v ← find_single_param (socket_data D) (str name);
  match v with Some _ => JSON_STRING_TO_INT name D k | None => k (-1) end.
(** The packet is filled in and the phase ends well. *)
Definition filled {S} (p : packet A) (D : comm) : M S (Z * comm) := D ← put_packet (Some p) D; mret (0, D).

(** The packet is deleted and the phase ends well. *)
Definition responded {S} (D : comm) : M S (Z * comm) := D ← put_packet None D; mret (0, D).
Definition PREPARE_JSON_RESP {S} (D : comm) : M S (Z * comm) :=
  q ← req_of D; D ← prepare_result_string (result q) D; responded D.
Definition PREPARE_JSON_RESP_STRING {S} (name : string) (value : packet A → option cstr) (D : comm) : M S (Z * comm) :=
  q ← req_of D;
  D ← (if decide (result q = RPC_SRV_RESULT_SUCCESS) then
         p ← packet_of D; v ← of_opt (value p); fits JSON_RPC_METHOD_RESP_MAX_LENGTH v;;
         prepare_result_string_s (result q) (set_custom v D) name v
       else prepare_result_string (result q) D);
  responded D.
Definition PREPARE_JSON_RESP_ENUM {S} (name : string) (value : packet A → option Z) (tbl : list string) (ENUM_MAX : Z) (D : comm) : M S (Z * comm) :=
  q ← req_of D;
  D ← (if decide (result q = RPC_SRV_RESULT_SUCCESS) then
         p ← packet_of D; v ← of_opt (value p);
         let v := if (ENUM_MAX <? v) || (v <? 0) then ENUM_MAX else v in
         t ← of_opt (tbl !! Z.to_nat v);
         prepare_result_string_s (result q) (set_custom (str t) D) name (str t)
       else prepare_result_string (result q) D);
  responded D.
(** [PREPARE_JSON_RESP_INT]; [PREPARE_JSON_RESP_IN_PROG] is the same for the
    member [taskID]. *)
Definition PREPARE_JSON_RESP_INT {S} (name : string) (value : packet A → option Z) (D : comm) : M S (Z * comm) :=
  q ← req_of D;
  D ← (if decide (result q = RPC_SRV_RESULT_SUCCESS ∨ result q = RPC_SRV_RESULT_IN_PROG) then
         p ← packet_of D; v ← of_opt (value p);
         prepare_result_string_i (result q) (set_custom (dec (int32 v)) D) name (int32 v)
       else prepare_result_string (result q) D);
  responded D.
Definition PREPARE_JSON_RESP_IN_PROG {S} (name : string) (D : comm) : M S (Z * comm) := PREPARE_JSON_RESP_INT name task_id D.

(** ** Reading the parameters *)
Definition no_params {S} (p : packet A) (act : RPC_SRV_ACT) (c : Z) (D : comm) : M S (Z * comm) :=
  D ← PREPARE_JSON_REQUEST p act c D; mret (0, D).
Definition json_to_bin_get_task_sts (D : comm) : step :=
  D ← PREPARE_JSON_REQUEST (RPCMGR_TASK_STS_PACKET None None) RPC_SRV_ACT_READ EJSON_RPCGMGR_GET_TASK_STS D;
  JSON_STRING_TO_INT "taskId" D (λ v, filled (RPCMGR_TASK_STS_PACKET (Some v) None) D).
Definition json_to_bin_get_rpc_srv_version (D : comm) : step :=
  no_params (RPCMGR_INTEGER_PACKET None) RPC_SRV_ACT_READ EJSON_RPCGMGR_GET_RPC_SRV_VERSION D.
Definition json_to_bin_trigger_datasave (D : comm) : step :=
  no_params (RPCMGR_TASK_STS_PACKET None None) RPC_SRV_ACT_WRITE EJSON_RPCGMGR_TRIGGER_DATASAVE D.
Definition json_to_bin_get_settings_sts (D : comm) : step :=
  no_params (RPCMGR_SETTINGS_STS_PACKET None) RPC_SRV_ACT_READ EJSON_RPCGMGR_GET_SETTINGS_STS D.
Definition json_to_bin_shutdown_service (D : comm) : step :=
  no_params (RPCMGR_TASK_STS_PACKET None None) RPC_SRV_ACT_WRITE EJSON_RPCGMGR_SHUTDOWN_SERVICE D.
Definition json_to_bin_reset_task_sts (D : comm) : step :=
  no_params (RPCMGR_TASK_STS_PACKET None None) RPC_SRV_ACT_WRITE EJSON_RPCGMGR_RESET_TASK_STS D.
Definition json_to_bin_get_ready_sts (D : comm) : step :=
  no_params (RPCMGR_READY_STS_PACKET None) RPC_SRV_ACT_READ EJSON_RPCGMGR_GET_READY_STS D.
Definition json_to_bin_get_debug_logging (D : comm) : step :=
  no_params (RPCMGR_DEBUG_LOG_PACKET None) RPC_SRV_ACT_READ EJSON_RPCGMGR_GET_DEBUG_LOG D.
Definition json_to_bin_set_debug_logging (D : comm) : step :=
  D ← PREPARE_JSON_REQUEST (RPCMGR_DEBUG_LOG_PACKET None) RPC_SRV_ACT_WRITE EJSON_RPCGMGR_SET_DEBUG_LOG D;
  JSON_STRING_TO_ENUM "status" RPCMGR_RPC_DEBUG_LOG_ARGSTS_TBL EJSON_RPCGMGR_FLAG_STATE_UNKNOWN D (λ v, filled (RPCMGR_DEBUG_LOG_PACKET (Some v)) D).
Definition json_to_bin_trigger_factory_store (D : comm) : step :=
  no_params (RPCMGR_TASK_STS_PACKET None None) RPC_SRV_ACT_WRITE EJSON_RPCGMGR_TRIGGER_FACTORY_STORE D.
Definition json_to_bin_trigger_factory_restore (D : comm) : step :=
  no_params (RPCMGR_TASK_STS_PACKET None None) RPC_SRV_ACT_WRITE EJSON_RPCGMGR_TRIGGER_FACTORY_RESTORE D.
Definition json_to_bin_event_subscribe (D : comm) : step :=
  D ← PREPARE_JSON_REQUEST (EVENT_PACKET None None None None None None None None None) RPC_SRV_ACT_WRITE EJSON_RPCGMGR_EVENT_SUBSCRIBE D;
  JSON_STRING_TO_INT "cltToken" D (λ t, optional_int "port" D (λ p, optional_int "evntNum" D (λ e,
    filled (EVENT_PACKET (Some t) (Some p) (Some e) None (Some (sock_descr D)) (Some (sock_id D)) (Some (clt_ip D)) None None) D))).
Definition json_to_bin_event_unsubscribe (D : comm) : step :=
  D ← PREPARE_JSON_REQUEST (EVENT_PACKET None None None None None None None None None) RPC_SRV_ACT_WRITE EJSON_RPCGMGR_EVENT_UNSUBSCRIBE D;
  JSON_STRING_TO_INT "srvToken" D (λ t, filled (EVENT_PACKET None None None (Some t) None None None None None) D).
Definition json_to_bin_event_notify (D : comm) : step :=
  D ← PREPARE_JSON_REQUEST (EVENT_PACKET None None None None None None None None None) RPC_SRV_ACT_WRITE EJSON_RPCGMGR_EVENT_NOTIFY D;
  JSON_STRING_TO_INT "evntNum" D (λ e, optional_int "evntArg1" D (λ x, optional_int "evntArg2" D (λ y,
    filled (EVENT_PACKET None None (Some e) None None None None (Some x) (Some y)) D))).
Definition json_to_bin_event_process (D : comm) : step :=
  D ← PREPARE_JSON_REQUEST (EVENT_PACKET None None None None None None None None None) RPC_SRV_ACT_WRITE EJSON_RPCGMGR_EVENT_PROCESS D;
  JSON_STRING_TO_INT "cltToken" D (λ t, JSON_STRING_TO_INT "evntNum" D (λ e, optional_int "evntArg1" D (λ x, optional_int "evntArg2" D (λ y,
    filled (EVENT_PACKET (Some t) None (Some e) None None None None (Some x) (Some y)) D)))).
Definition json_to_bin_trigger_run (D : comm) : step :=
  no_params (RPCMGR_TASK_STS_PACKET None None) RPC_SRV_ACT_WRITE EJSON_RPCGMGR_TRIGGER_RUN D.
Definition json_to_bin_get_devop_state (D : comm) : step :=
  no_params (RPCMGR_DEVOP_STS_PACKET None) RPC_SRV_ACT_READ EJSON_RPCMGR_GET_DEVOP_STATE D.
Definition json_to_bin_set_devop_state (D : comm) : step :=
  D ← PREPARE_JSON_REQUEST (RPCMGR_DEVOP_STS_PACKET None) RPC_SRV_ACT_WRITE EJSON_RPCMGR_SET_DEVOP_STATE D;
  JSON_STRING_TO_ENUM "status" RPCMGR_RPC_DEVOP_STATE_ARGSTS_TBL EJSON_RPCGMGR_DEVOP_STATE_UNKNOWN D (λ v, filled (RPCMGR_DEVOP_STS_PACKET (Some v)) D).

(** The calls of the middleware: only the address, or the address and what is
    written, of which all three widths keep eight bits. *)
Definition mw_empty : packet A := RPCMGR_MIDDLEWARE_PACKET None None None None.
Definition json_to_bin_get_mw (c : Z) (D : comm) : step :=
  D ← PREPARE_JSON_REQUEST mw_empty RPC_SRV_ACT_READ c D;
  JSON_STRING_TO_ULONG "addr" None D (λ a, filled (RPCMGR_MIDDLEWARE_PACKET (u32 <$> a) None None None) D).
Definition json_to_bin_set_mw (c : Z) (mk : option Z → option Z → packet A) (D : comm) : step :=
  D ← PREPARE_JSON_REQUEST mw_empty RPC_SRV_ACT_WRITE c D;
  JSON_STRING_TO_ULONG "addr" None D (λ a, JSON_STRING_TO_ULONG "data" a D (λ d, filled (mk (u32 <$> a) (u8 <$> d)) D)).
Definition json_to_bin_get_mw_byte : comm → step := json_to_bin_get_mw EJSON_RPCMGR_GET_MW_BYTE.
Definition json_to_bin_get_mw_word : comm → step := json_to_bin_get_mw EJSON_RPCMGR_GET_MW_WORD.
Definition json_to_bin_get_mw_dword : comm → step := json_to_bin_get_mw EJSON_RPCMGR_GET_MW_DWORD.
Definition json_to_bin_set_mw_byte : comm → step :=
  json_to_bin_set_mw EJSON_RPCMGR_SET_MW_BYTE (λ a d, RPCMGR_MIDDLEWARE_PACKET a d None None).
Definition json_to_bin_set_mw_word : comm → step :=
  json_to_bin_set_mw EJSON_RPCMGR_SET_MW_WORD (λ a d, RPCMGR_MIDDLEWARE_PACKET a None d None).
Definition json_to_bin_set_mw_dword : comm → step :=
  json_to_bin_set_mw EJSON_RPCMGR_SET_MW_DWORD (λ a d, RPCMGR_MIDDLEWARE_PACKET a None None d).

(** ** The work *)
Definition on_worker {B} (c : M worker B) : RM B := zoom AsyncTaskWorker set_worker c.
Definition on_events {B} (c : M ADEvntMgr B) : RM B := zoom EventMgr set_EventMgr c.
(** The work ends with a result, and with the packet as it is. *)
Definition worked (r : RPC_SRV_RESULT) (D : comm) : step := D ← put_result r D; mret (0, D).
Definition worked_with (r : RPC_SRV_RESULT) (p : packet A) (D : comm) : step := packet_of D;; D ← put_packet (Some p) D; worked r D.

(** A new packet for the worker, and the task. *)
Definition push_command (c : Z) (done : WORK_CMD_AFTER_DONE) : RM (RPC_SRV_RESULT * Z) :=
  on_worker (
    pWorkData ← on_work (OBJECT_MEM_NEW (λ os, (tm_new_data os, OData)));
    '(r, id) ← push_task tm_rev tm_malloc_w tm_malloc_i tm_new_task tm_new_inprog c (Some pWorkData) done;
    if r =? 0 then mret (RPC_SRV_RESULT_IN_PROG, id)
    else on_work (OBJ_MEM_DELETE (Some pWorkData));; mret (RPC_SRV_RESULT_FAIL, id)).
Definition trigger (c : Z) (done : WORK_CMD_AFTER_DONE) (D : comm) : step :=
  p ← packet_of D;
  '(r, id) ← push_command c done;
  p ← of_opt (set_task_id id p);
  worked_with r p D.
Definition process_get_task_status (D : comm) : step :=
  p ← packet_of D;
  id ← of_opt (task_id p);
  taskSts ← on_worker (get_task_status tm_rev id);
  t ← of_opt (rpc_server_result_table !! result_code taskSts);
  worked_with RPC_SRV_RESULT_SUCCESS (RPCMGR_TASK_STS_PACKET (Some id) (Some (str t))) D.
Definition process_rpc_server_version (D : comm) : step :=
  q ← req_of D;
  if decide (action q = RPC_SRV_ACT_READ) then
    v ← gets svnVersion; worked_with RPC_SRV_RESULT_SUCCESS (RPCMGR_INTEGER_PACKET (Some v)) D
  else worked RPC_SRV_RESULT_ACTION_NOT_ALLOWED D.
Definition process_trigger_datasave : comm → step := trigger EJSON_RPCGMGR_TRIGGER_DATASAVE WORK_CMD_AFTER_DONE_PRESERVE.
Definition process_shutdown_service (D : comm) : step :=
  s ← gets shutdown_support;
  if negb s then worked RPC_SRV_RESULT_FEATURE_UNSUPPORTED D else
  q ← req_of D;
  if decide (action q = RPC_SRV_ACT_WRITE) then trigger EJSON_RPCGMGR_SHUTDOWN_SERVICE WORK_CMD_AFTER_DONE_DELETE D
  else worked RPC_SRV_RESULT_ACTION_NOT_ALLOWED D.
Definition process_reset_task_sts (D : comm) : step := r ← on_worker (reset_task_id_and_chain tm_rev); worked r D.
Definition process_get_ready_status (D : comm) : step :=
  v ← gets ServiceReadyFlag; worked_with RPC_SRV_RESULT_SUCCESS (RPCMGR_READY_STS_PACKET (Some v)) D.
Definition process_get_debug_logging (D : comm) : step :=
  b ← gets ServiceDebugFlag;
  worked_with RPC_SRV_RESULT_SUCCESS
    (RPCMGR_DEBUG_LOG_PACKET (Some (if b : bool then EJSON_RPCGMGR_FLAG_STATE_ENABLE else EJSON_RPCGMGR_FLAG_STATE_DISABLE))) D.
Definition setRpcDebugLogFlag (b : bool) : RM unit := l ← gets logmsg; modify (set_logmsg (map (λ _, b) l)).
Definition process_set_debug_logging (D : comm) : step :=
  p ← packet_of D;
  v ← of_opt (task_id p);
  if v =? EJSON_RPCGMGR_FLAG_STATE_DISABLE then modify (set_debug false);; setRpcDebugLogFlag false;; worked RPC_SRV_RESULT_SUCCESS D
  else if v =? EJSON_RPCGMGR_FLAG_STATE_ENABLE then modify (set_debug true);; setRpcDebugLogFlag true;; worked RPC_SRV_RESULT_SUCCESS D
  else worked RPC_SRV_RESULT_ARG_ERROR D.
Definition process_trigger_factory_store : comm → step := trigger EJSON_RPCGMGR_TRIGGER_FACTORY_STORE WORK_CMD_AFTER_DONE_PRESERVE.
Definition process_trigger_factory_restore : comm → step := trigger EJSON_RPCGMGR_TRIGGER_FACTORY_RESTORE WORK_CMD_AFTER_DONE_PRESERVE.
Definition process_trigger_run : comm → step := trigger EJSON_RPCGMGR_TRIGGER_RUN WORK_CMD_AFTER_DONE_PRESERVE.
(** The identifier of the task is written over the state that was asked for, and
    the worker gets a packet without it. *)
Definition process_set_devop_state : comm → step := trigger EJSON_RPCMGR_SET_DEVOP_STATE WORK_CMD_AFTER_DONE_PRESERVE.

(** The members that the event manager reads; those it does not read are 0. *)
Definition process_event_subscribe (D : comm) : step :=
  p ← packet_of D;
  match p with
  | EVENT_PACKET (Some t) (Some n) (Some e) _ (Some d) (Some i) (Some ip) x y =>
      '(r, tok) ← on_events (EvntMgr.process_event_subscribe (MkPacket t n e 0 d i ip 0 0));
      worked_with r (EVENT_PACKET (Some t) (Some n) (Some e) tok (Some d) (Some i) (Some ip) x y) D
  | _ => oops
  end.
Definition process_event_unsubscribe (D : comm) : step :=
  p ← packet_of D;
  match p with
  | EVENT_PACKET _ _ _ (Some t) _ _ _ _ _ => r ← on_events (EvntMgr.process_event_unsubscribe (MkPacket 0 0 0 t 0 0 [] 0 0)); worked r D
  | _ => oops
  end.
Definition process_event_notify (D : comm) : step :=
  p ← packet_of D;
  match p with
  | EVENT_PACKET _ _ (Some e) _ _ _ _ (Some x) (Some y) => r ← on_events (EvntMgr.process_event_notify (MkPacket 0 0 e 0 0 0 [] x y)); worked r D
  | _ => oops
  end.
Definition process_event_process (D : comm) : step :=
  p ← packet_of D;
  match p with
  | EVENT_PACKET (Some t) _ (Some e) _ _ _ _ (Some x) (Some y) => r ← on_events (EvntMgr.process_event_process (MkPacket t 0 e 0 0 0 [] x y)); worked r D
  | _ => oops
  end.

(** The calls that the service itself handles, if one of the attached objects
    says so. *)
Definition getCmnRpcHandler : option (ADJsonRpcMgrConsumer X A) := find cmnrpchandler rpclist.
Definition ProcessWorkCmnRpc (D : comm) : step :=
  match getCmnRpcHandler with None => mret (-1, D) | Some h => v_ProcessWork h D (cmd_index D) end.
Definition CmnRpcHandler (c : Z) (pWorkData : ptr) : RM RPC_SRV_RESULT :=
  match getCmnRpcHandler with None => mret RPC_SRV_RESULT_FEATURE_UNSUPPORTED | Some h => v_ProcessWorkAsync h c pWorkData end.

(** ** The results *)
Definition task_sts {B} (p : packet B) : option cstr := match p with RPCMGR_TASK_STS_PACKET _ t => t | RPCMGR_SETTINGS_STS_PACKET t => t | _ => None end.
Definition srv_token {B} (p : packet B) : option Z := match p with EVENT_PACKET _ _ _ t _ _ _ _ _ => t | _ => None end.
Definition mw_byte {B} (p : packet B) : option Z := match p with RPCMGR_MIDDLEWARE_PACKET _ b _ _ => b | _ => None end.
Definition mw_word {B} (p : packet B) : option Z := match p with RPCMGR_MIDDLEWARE_PACKET _ _ w _ => w | _ => None end.
Definition mw_dword {B} (p : packet B) : option Z := match p with RPCMGR_MIDDLEWARE_PACKET _ _ _ d => d | _ => None end.
Definition bin_to_json_get_task_sts : comm → step := PREPARE_JSON_RESP_STRING "taskStatus" task_sts.
Definition bin_to_json_get_rpc_srv_version : comm → step := PREPARE_JSON_RESP_INT "version" task_id.
Definition bin_to_json_trigger_datasave : comm → step := PREPARE_JSON_RESP_IN_PROG "taskId".
Definition bin_to_json_get_settings_sts : comm → step := PREPARE_JSON_RESP_STRING "status" task_sts.
Definition bin_to_json_shutdown_service : comm → step := PREPARE_JSON_RESP_IN_PROG "taskId".
Definition bin_to_json_reset_task_sts : comm → step := PREPARE_JSON_RESP.
Definition bin_to_json_get_ready_sts : comm → step :=
  PREPARE_JSON_RESP_ENUM "status" task_id RPCMGR_RPC_READY_STS_ARGSTS_TBL EJSON_RPCGMGR_READY_STATE_UNKNOWN.
Definition bin_to_json_get_debug_logging : comm → step :=
  PREPARE_JSON_RESP_ENUM "status" task_id RPCMGR_RPC_DEBUG_LOG_ARGSTS_TBL EJSON_RPCGMGR_FLAG_STATE_UNKNOWN.
Definition bin_to_json_set_debug_logging : comm → step := PREPARE_JSON_RESP.
Definition bin_to_json_trigger_factory_store : comm → step := PREPARE_JSON_RESP_IN_PROG "taskId".
Definition bin_to_json_trigger_factory_restore : comm → step := PREPARE_JSON_RESP_IN_PROG "taskId".
Definition bin_to_json_event_subscribe : comm → step := PREPARE_JSON_RESP_INT "srvToken" srv_token.
Definition bin_to_json_event_unsubscribe : comm → step := PREPARE_JSON_RESP.
Definition bin_to_json_event_notify : comm → step := PREPARE_JSON_RESP.
Definition bin_to_json_event_process : comm → step := PREPARE_JSON_RESP.
Definition bin_to_json_trigger_run : comm → step := PREPARE_JSON_RESP_IN_PROG "taskId".
Definition bin_to_json_get_devop_state : comm → step :=
  PREPARE_JSON_RESP_ENUM "status" task_id RPCMGR_RPC_DEVOP_STATE_ARGSTS_TBL EJSON_RPCGMGR_DEVOP_STATE_UNKNOWN.
Definition bin_to_json_set_devop_state : comm → step := PREPARE_JSON_RESP.
Definition bin_to_json_get_mw_byte : comm → step := PREPARE_JSON_RESP_INT "data" mw_byte.
Definition bin_to_json_get_mw_word : comm → step := PREPARE_JSON_RESP_INT "data" mw_word.
Definition bin_to_json_get_mw_dword : comm → step := PREPARE_JSON_RESP_INT "data" mw_dword.
Definition bin_to_json_set_mw : comm → step := PREPARE_JSON_RESP.

(** ** The phases *)

(** What the three switches have for a call: reading, work and result. *)
Definition phases (rpc : Z) : option ((comm → step) * (comm → step) * (comm → step)) :=
  match rpc with
  | 0 => Some (json_to_bin_get_task_sts, process_get_task_status, bin_to_json_get_task_sts)
  | 1 => Some (json_to_bin_get_rpc_srv_version, process_rpc_server_version, bin_to_json_get_rpc_srv_version)
  | 2 => Some (json_to_bin_trigger_datasave, process_trigger_datasave, bin_to_json_trigger_datasave)
  | 3 => Some (json_to_bin_get_settings_sts, ProcessWorkCmnRpc, bin_to_json_get_settings_sts)
  | 4 => Some (json_to_bin_shutdown_service, process_shutdown_service, bin_to_json_shutdown_service)
  | 5 => Some (json_to_bin_reset_task_sts, process_reset_task_sts, bin_to_json_reset_task_sts)
  | 6 => Some (json_to_bin_get_ready_sts, process_get_ready_status, bin_to_json_get_ready_sts)
  | 7 => Some (json_to_bin_get_debug_logging, process_get_debug_logging, bin_to_json_get_debug_logging)
  | 8 => Some (json_to_bin_set_debug_logging, process_set_debug_logging, bin_to_json_set_debug_logging)
  | 9 => Some (json_to_bin_trigger_factory_store, process_trigger_factory_store, bin_to_json_trigger_factory_store)
  | 10 => Some (json_to_bin_trigger_factory_restore, process_trigger_factory_restore, bin_to_json_trigger_factory_restore)
  | 11 => Some (json_to_bin_event_subscribe, process_event_subscribe, bin_to_json_event_subscribe)
  | 12 => Some (json_to_bin_event_unsubscribe, process_event_unsubscribe, bin_to_json_event_unsubscribe)
  | 13 => Some (json_to_bin_event_notify, process_event_notify, bin_to_json_event_notify)
  | 14 => Some (json_to_bin_event_process, process_event_process, bin_to_json_event_process)
  | 15 => Some (json_to_bin_trigger_run, process_trigger_run, bin_to_json_trigger_run)
  | 16 => Some (json_to_bin_get_devop_state, ProcessWorkCmnRpc, bin_to_json_get_devop_state)
  | 17 => Some (json_to_bin_set_devop_state, process_set_devop_state, bin_to_json_set_devop_state)
  | 18 => Some (json_to_bin_get_mw_byte, ProcessWorkCmnRpc, bin_to_json_get_mw_byte)
  | 19 => Some (json_to_bin_set_mw_byte, ProcessWorkCmnRpc, bin_to_json_set_mw)
  | 20 => Some (json_to_bin_get_mw_word, ProcessWorkCmnRpc, bin_to_json_get_mw_word)
  | 21 => Some (json_to_bin_set_mw_word, ProcessWorkCmnRpc, bin_to_json_set_mw)
  | 22 => Some (json_to_bin_get_mw_dword, ProcessWorkCmnRpc, bin_to_json_get_mw_dword)
  | 23 => Some (json_to_bin_set_mw_dword, ProcessWorkCmnRpc, bin_to_json_set_mw)
  | _ => None
  end.
Definition MyMapJsonToBinary (D : comm) : step := match phases (cmd_index D) with Some (f, _, _) => f D | None => mret (-1, D) end.
Definition MyProcessWork (D : comm) : step := match phases (cmd_index D) with Some (_, f, _) => f D | None => mret (-1, D) end.
Definition MyMapBinaryToJson (D : comm) : step := match phases (cmd_index D) with Some (_, _, f) => f D | None => mret (-1, D) end.

(** The attached object for a call. *)
Definition getRpcHandler (D : comm) : option (ADJsonRpcMgrConsumer X A) :=
  let i := cmd_index D - EJSON_RPCGMGR_CMD_END in
  if Z.of_nat (length rpclist) <=? i then None else if i <? 0 then None else rpclist !! Z.to_nat i.
Definition MapJsonToBinary (D : comm) : step :=
  match getRpcHandler D with None => mret (-1, D) | Some h => v_MapJsonToBinary h D (rpc_index h) end.
Definition MapBinaryToJson (D : comm) : step :=
  match getRpcHandler D with None => mret (-1, D) | Some h => v_MapBinaryToJson h D (rpc_index h) end.
Definition ProcessWork (D : comm) : step :=
  match getRpcHandler D with None => mret (-1, D) | Some h => v_ProcessWork h D (rpc_index h) end.

(** [action] and [cmd] of the new object are not initialised; every reading
    phase writes them before they are read. *)
Definition create_req_obj (D : comm) : comm :=
  set_pDataObj (Some (MkSrvReq RPC_SRV_ACT_NONE 0 (req_id D) 0 RPC_SRV_RESULT_NOT_STARTED None)) D.
Definition delete_req_obj (D : comm) : comm := set_pDataObj None D.
Definition process_json_to_binary (D : comm) : step :=
  let D := create_req_obj D in
  '(r, D) ← (if EJSON_RPCGMGR_CMD_END <=? cmd_index D then MapJsonToBinary D else MyMapJsonToBinary D);
  mret (r, if negb (r =? 0) then delete_req_obj D else D).
Definition process_work (D : comm) : step :=
  if EJSON_RPCGMGR_CMD_END <=? cmd_index D then ProcessWork D else MyProcessWork D.
Definition process_binary_to_json (D : comm) : step :=
  '(r, D) ← (if EJSON_RPCGMGR_CMD_END <=? cmd_index D then MapBinaryToJson D else MyMapBinaryToJson D);
  mret (r, delete_req_obj D).

(** ** On the worker's thread *)
Definition AsyncTaskWork (c : Z) (pWorkData : ptr) : RM RPC_SRV_RESULT :=
  let i := c - EJSON_RPCGMGR_CMD_END in
  if Z.of_nat (length rpclist) <=? i then mret RPC_SRV_RESULT_FAIL
  else if i <? 0 then mret RPC_SRV_RESULT_FAIL
  else match rpclist !! Z.to_nat i with None => mret RPC_SRV_RESULT_FAIL | Some h => v_ProcessWorkAsync h i pWorkData end.
Definition delete_work_data (pWorkData : ptr) : RM unit := on_worker (on_work (OBJ_MEM_DELETE pWorkData)).
Definition run_work (c : Z) (pWorkData : ptr) : RM RPC_SRV_RESULT :=
  if EJSON_RPCGMGR_CMD_END <=? c then AsyncTaskWork c pWorkData
  else if c =? EJSON_RPCGMGR_SHUTDOWN_SERVICE then modify (set_exit true);; delete_work_data pWorkData;; mret RPC_SRV_RESULT_SUCCESS
  else if (c =? EJSON_RPCGMGR_TRIGGER_DATASAVE) || (c =? EJSON_RPCGMGR_TRIGGER_FACTORY_STORE) || (c =? EJSON_RPCGMGR_TRIGGER_FACTORY_RESTORE) ||
          (c =? EJSON_RPCGMGR_TRIGGER_RUN) || (c =? EJSON_RPCMGR_SET_DEVOP_STATE) then
    r ← CmnRpcHandler c pWorkData; delete_work_data pWorkData;; mret r
  else mret RPC_SRV_RESULT_FAIL.
Definition PushAsyncTask (c : Z) (pWorkData : ptr) (done : WORK_CMD_AFTER_DONE) : RM (RPC_SRV_RESULT * Z) :=
  '(r, id) ← on_worker (push_task tm_rev tm_malloc_w tm_malloc_i tm_new_task tm_new_inprog (c + EJSON_RPCGMGR_CMD_END) pWorkData done);
  mret (if r =? 0 then RPC_SRV_RESULT_IN_PROG else RPC_SRV_RESULT_FAIL, id).

(** ** Starting *)
Definition common_methods : list (cstr * Z) :=
  zip (str <$> ["get_rpc_req_status"; "get_rpc_srv_version"; "trigger_settings_save"; "get_settings_status"; "trigger_shutdown";
                "reset_task_status"; "get_ready_status"; "get_debug_logging"; "set_debug_logging"; "trigger_factory_store";
                "trigger_factory_restore"; "subscribe_event"; "unsubscribe_event"; "notify_event"; "process_event"; "run_now";
                "get_devop_state"; "set_devop_state"; "read_byte"; "write_byte"; "read_word"; "write_word"; "read_dword"; "write_dword"])
      (seqZ 0 24).
Fixpoint attach_methods (l : list (cstr * Z)) : M (server (ADJsonRpcMgr X)) unit :=
  match l with [] => mret () | (name, i) :: l => attach_rpc_method name i;; attach_methods l end.
Fixpoint attach_consumers (i : Z) (l : list (ADJsonRpcMgrConsumer X A)) : M (server (ADJsonRpcMgr X)) unit :=
  match l with
  | [] => mret ()
  | h :: l => fits 1024 (strRpcName h);; attach_rpc_method (strRpcName h) i;; attach_consumers (i + 1) l
  end.
Definition Start : M (server (ADJsonRpcMgr X)) Z :=
  attach_methods common_methods;; attach_consumers EJSON_RPCGMGR_CMD_END rpclist;; mret 0.
Definition ADJsonRpcMgr_new (ver : Z) (debuglog : bool) (w : worker) (x : X) : ADJsonRpcMgr X :=
  MkRpcMgr ver debuglog true EJSON_RPCGMGR_READY_STATE_NOT_READY (map (λ _, debuglog) rpclist) ADEvntMgr_new w false x.
End mgr.
