(* ===== verification/RpcCalls.v ===== *)
(** * The calls of every service, as calls

    The reference for [RpcMgr]: a call with typed parameters, what it does to the
    components of the manager, and its result; and the proof that the three phases
    with their packet do that. *)

From Stdlib Require Import ZArith Lia Ascii String.
From stdpp Require Import base list gmap strings sets.
From S2P Require Import Prelude CString CxxStd ChainHeap Chain AdavChain RpcResult TaskWorker EvntMgr Lang JsonGrammar Json NetServer JsonRpc RpcMgr.

(** ** Reading a request *)
Section params.
Context `{JsonC}.
(** The text of a parameter. *)
Definition param (s : cstr) (name : string) : option cstr :=
  match json_tokener_parse s with
  | JNull => None
  | v => let p := json_object_object_get v (str "params") in _ ← json_object_get_string p; json_object_get_string (json_object_object_get p (str name))
  end.
Definition short (s : cstr) (name : string) : bool := match param s name with Some t => strlen t <? 255 | None => true end.
Lemma param_run {S} s name (st : S) : short s name = true → find_single_param s (str name) st = Done (param s name) st.
Proof.
  unfold short, find_single_param, param. destruct (json_tokener_parse s); [done|..]; cbv beta zeta iota;
    (destruct (json_object_get_string (json_object_object_get _ (str "params"))); [|done]); cbn [mbind option_bind]; unfold member_text_in, fits;
    (destruct (json_object_get_string _) as [t|]; [|done]); intros Ht; by rewrite Ht.
Qed.
End params.

(** The text of a result code. *)
Definition result_name (r : RPC_SRV_RESULT) : cstr := match convert_server_result_to_string r () with Done t _ => str t | _ => [] end.
Lemma result_string_run {S} r (st : S) : result_string r st = Done (result_name r) st.
Proof. by destruct r. Qed.

(** ** Calls *)
Inductive own_call :=
| GetTaskStatus (id : Z) | GetVersion | Trigger (c : Z) | Shutdown | ResetTasks | GetReady | GetDebug | SetDebug (b : bool)
| Subscribe (k : RPCMGR_EVENT_PACKET) | Unsubscribe (token : Z) | Notify (event x y : Z) | Process (token event x y : Z).
(** What comes with a result code. *)
Inductive value := NoValue | IntValue (name : string) (z : Z) | TextValue (name : string) (t : cstr).
Definition reply : Type := RPC_SRV_RESULT * value.
Definition members (v : value) : list (cstr * json) :=
  match v with NoValue => [] | IntValue name z => [(str name, JInt z)] | TextValue name t => [(str name, JString t)] end.
Definition reply_object (a : reply) : json := JObject ((str "return", JString (result_name a.1)) :: members a.2).

Definition ready_name (v : Z) : string :=
  if (EJSON_RPCGMGR_READY_STATE_UNKNOWN <? v) || (v <? 0) then "unknown" else nth (Z.to_nat v) RPCMGR_RPC_READY_STS_ARGSTS_TBL "".

(** The calls that the manager handles itself, and the names of the parameters. *)
Definition own (c : Z) : bool := (0 <=? c) && (c <=? 17) && negb (c =? EJSON_RPCGMGR_GET_SETTINGS_STS) && negb (c =? EJSON_RPCMGR_GET_DEVOP_STATE).
Definition param_names : list string := ["taskId"; "status"; "cltToken"; "port"; "evntNum"; "srvToken"; "evntArg1"; "evntArg2"; "addr"; "data"].

Section calls.
Context `{JsonC, TaskMemory} {X A : Type}.
Variable long_bits : Z.
Notation RM := (M (ADJsonRpcMgr X)).
Notation comm := (JsonDataCommObj (packet A)).

Definition int_param (s : cstr) (name : string) : option Z := atoi long_bits <$> param s name.
Definition decode (D : comm) : option own_call :=
  let s := socket_data D in
  let int := int_param s in
  let opt name := default (-1) (int name) in
  match cmd_index D with
  | 0 => GetTaskStatus <$> int "taskId"
  | 1 => Some GetVersion
  | 2 | 9 | 10 | 15 => Some (Trigger (cmd_index D))
  | 4 => Some Shutdown
  | 5 => Some ResetTasks
  | 6 => Some GetReady
  | 7 => Some GetDebug
  | 8 => t ← param s "status"; if decide (t = str "disable") then Some (SetDebug false) else if decide (t = str "enable") then Some (SetDebug true) else None
  | 11 => t ← int "cltToken"; Some (Subscribe (MkPacket t (opt "port") (opt "evntNum") 0 (sock_descr D) (sock_id D) (clt_ip D) 0 0))
  | 12 => Unsubscribe <$> int "srvToken"
  | 13 => e ← int "evntNum"; Some (Notify e (opt "evntArg1") (opt "evntArg2"))
  | 14 => t ← int "cltToken"; e ← int "evntNum"; Some (Process t e (opt "evntArg1") (opt "evntArg2"))
  | 17 => t ← param s "status"; if decide (t ∈ str <$> take 10 RPCMGR_RPC_DEVOP_STATE_ARGSTS_TBL) then Some (Trigger (cmd_index D)) else None
  | _ => None
  end.

(** What a call does, and its reply.  The call that sets the state of the
    operation is answered without the number of its task. *)
Definition push_reply (c : Z) (done : WORK_CMD_AFTER_DONE) : RM reply :=
  '(r, id) ← push_command c done;
  mret (r, if decide (r = RPC_SRV_RESULT_IN_PROG ∧ c ≠ EJSON_RPCMGR_SET_DEVOP_STATE) then IntValue "taskId" (int32 id) else NoValue).
Definition simple {S} (c : M S RPC_SRV_RESULT) : M S reply := r ← c; mret (r, NoValue).
Definition perform_call (c : own_call) : RM reply :=
  match c with
  | GetTaskStatus id => sts ← on_worker (get_task_status tm_rev id); mret (RPC_SRV_RESULT_SUCCESS, TextValue "taskStatus" (default [] (str <$> rpc_server_result_table !! result_code sts)))
  | GetVersion => v ← gets svnVersion; mret (RPC_SRV_RESULT_SUCCESS, IntValue "version" (int32 v))
  | Trigger c => push_reply c WORK_CMD_AFTER_DONE_PRESERVE
  | Shutdown => s ← gets shutdown_support; if s : bool then push_reply EJSON_RPCGMGR_SHUTDOWN_SERVICE WORK_CMD_AFTER_DONE_DELETE else mret (RPC_SRV_RESULT_FEATURE_UNSUPPORTED, NoValue)
  | ResetTasks => simple (on_worker (reset_task_id_and_chain tm_rev))
  | GetReady => v ← gets ServiceReadyFlag; mret (RPC_SRV_RESULT_SUCCESS, TextValue "status" (str (ready_name v)))
  | GetDebug => b ← gets ServiceDebugFlag; mret (RPC_SRV_RESULT_SUCCESS, TextValue "status" (str (if b : bool then "enable" else "disable")))
  | SetDebug b => simple (modify (λ m, set_logmsg (map (λ _, b) (logmsg m)) (set_debug b m));; mret RPC_SRV_RESULT_SUCCESS)
  | Subscribe k => '(r, t) ← on_events (EvntMgr.process_event_subscribe k); mret (r, match t with Some t => IntValue "srvToken" (int32 t) | None => NoValue end)
  | Unsubscribe t => simple (on_events (EvntMgr.process_event_unsubscribe (MkPacket 0 0 0 t 0 0 [] 0 0)))
  | Notify e x y => simple (on_events (EvntMgr.process_event_notify (MkPacket 0 0 e 0 0 0 [] x y)))
  | Process t e x y => simple (on_events (EvntMgr.process_event_process (MkPacket t 0 e 0 0 0 [] x y)))
  end.

(** The request object after the three phases. *)
Definition answered_with (D : comm) (a : reply) : comm :=
  set_pDataObj None (set_response a.1 (reply_object a)
    match a.2 with NoValue => D | IntValue _ z => set_custom (dec z) D | TextValue _ t => set_custom t D end).
Definition ill_formed (D : comm) : comm := set_pDataObj None (set_mapper_result CMD_TASK_RESULT_INVALID_PARAM D).

(** ** The phases do what the calls do *)
Lemma string_list x t : string_of_list_ascii t = x ↔ t = str x.
Proof. unfold str. split; [intros <-; by rewrite list_ascii_of_string_of_list_ascii|intros ->; by rewrite string_of_list_ascii_of_string]. Qed.
Lemma enum_run {S} tbl t max (st : S) : 0 ≤ max ≤ Z.of_nat (length tbl) →
  ∃ v, lift (string_to_enum tbl (string_of_list_ascii t) max) st = Done v st ∧ v ≤ max ∧ (v < max ↔ t ∈ str <$> take (Z.to_nat max) tbl) ∧
    (v < max → 0 ≤ v ∧ (str <$> tbl) !! Z.to_nat v = Some t).
Proof.
  intros Hm. destruct (enum_loop_run (Z.to_nat max) tbl (string_of_list_ascii t) 0 max) as (v & Hr & Hb & Hlt & Hall); [lia..|].
  exists v. unfold lift, string_to_enum. rewrite Hr. split_and!; [done|lia| |].
  - rewrite list_elem_of_fmap. split.
    + intros Hv. exists (string_of_list_ascii t). split; [by apply string_list|]. apply (list_elem_of_lookup_2 _ (Z.to_nat v)).
      rewrite lookup_take_lt by lia. by apply Hlt.
    + intros (x & -> & Hx). apply list_elem_of_lookup in Hx as [j Hj]. assert (j < Z.to_nat max)%nat.
      { apply lookup_lt_Some in Hj. rewrite length_take in Hj. lia. }
      rewrite lookup_take_lt in Hj by done. destruct (decide (v < max)); [done|]. exfalso. apply (Hall (Z.of_nat j)); [lia|].
      rewrite Nat2Z.id, Hj. f_equal. symmetry. by apply string_list.
  - intros Hv. split; [lia|]. rewrite list_lookup_fmap, Hlt by done. cbn. f_equal. symmetry. by apply string_list.
Qed.
Lemma subscribe_token k m r t m' : EvntMgr.process_event_subscribe k m = Done (r, t) m' →
  (r = RPC_SRV_RESULT_SUCCESS ∧ is_Some t) ∨ (r = RPC_SRV_RESULT_ITEM_DUPLICATE_FOUND ∧ t = None).
Proof.
  unfold EvntMgr.process_event_subscribe, mbind, M_bind. destruct (new_entry _ m) as [p m1| | | |]; [|done..].
  unfold register_event_subscription, mbind, M_bind. destruct (EvntMgr.deref p m1) as [e m2| | | |]; [|done..].
  unfold gets. destruct (find_loop _ _ m2) as [d m3| | | |]; [|done..]. destruct d; cbn [negb].
  - unfold mret, M_ret. cbn. destruct (delete_entry p m3) as [[] m4| | | |]; [|done..]. intros [= <- <- _]. by right.
  - unfold modify. destruct (EvntMgr.store p _ _) as [[] m4| | | |]; [|done..]. cbn. intros [= <- <- _]. left. split; [done|by eexists].
Qed.
Lemma push_results c done (w : ADJsonRpcMgr X) r id w' : push_command c done w = Done (r, id) w' →
  r = RPC_SRV_RESULT_IN_PROG ∨ r = RPC_SRV_RESULT_FAIL.
Proof.
  unfold push_command, on_worker, zoom, mbind, M_bind. destruct (on_work _ _) as [l s1| | | |]; [|done..].
  destruct (push_task _ _ _ _ _ _ _ _ s1) as [[z i] s2| | | |]; [|done..]. destruct (z =? 0); [intros [= <- _ _]; by left|].
  destruct (on_work _ s2) as [[] s3| | | |]; [|done..]. intros [= <- _ _]. by right.
Qed.
Lemma add_member r name v : str name ≠ str "return" →
  json_object_object_add (return_object (result_name r)) (str name) v = JObject [(str "return", JString (result_name r)); (str name, v)].
Proof.
  intros Hn. unfold return_object, json_object_new_object, json_object_new_string. rewrite object_add_fresh by apply not_elem_of_nil.
  rewrite object_add_fresh; [done|]. cbn. by rewrite list_elem_of_singleton.
Qed.

(** *** The phases in general *)
Variable rpclist : list (ADJsonRpcMgrConsumer X A).
Notation do_call := (do_request (process_json_to_binary long_bits rpclist) (process_work long_bits rpclist) (process_binary_to_json long_bits rpclist)).

(** The request object between the phases. *)
Definition at_work (D : comm) (a : RPC_SRV_ACT) (c : Z) (p : option (packet A)) (r : RPC_SRV_RESULT) : comm :=
  set_pDataObj (Some (MkSrvReq a c (req_id D) 0 r p)) D.
Lemma prepare_run {S} D p a c (st : S) : PREPARE_JSON_REQUEST p a c (create_req_obj D) st = Done (at_work D a c (Some p) RPC_SRV_RESULT_NOT_STARTED) st.
Proof. done. Qed.
Lemma json_string_run {S} name D a c p r k (st : S) : short (socket_data D) name = true →
  JSON_STRING name (at_work D a c p r) k st =
    match param (socket_data D) name with
    | Some t => k t st
    | None => Done (-1, at_work (set_mapper_result CMD_TASK_RESULT_INVALID_PARAM D) a c None r) st
    end.
Proof.
  intros Hs. unfold JSON_STRING. change (socket_data (at_work D a c p r)) with (socket_data D). mstep (param_run (socket_data D) name st Hs).
  by destruct (param (socket_data D) name).
Qed.
Lemma json_int_run {S} name D a c p r k (st : S) : short (socket_data D) name = true →
  JSON_STRING_TO_INT long_bits name (at_work D a c p r) k st =
    match int_param (socket_data D) name with
    | Some v => k v st
    | None => Done (-1, at_work (set_mapper_result CMD_TASK_RESULT_INVALID_PARAM D) a c None r) st
    end.
Proof. intros Hs. unfold JSON_STRING_TO_INT, int_param. rewrite json_string_run by done. by destruct (param (socket_data D) name). Qed.
Lemma optional_run {S} name D a c p r k (st : S) : short (socket_data D) name = true →
  optional_int long_bits name (at_work D a c p r) k st = k (default (-1) (int_param (socket_data D) name)) st.
Proof.
  intros Hs. unfold optional_int. change (socket_data (at_work D a c p r)) with (socket_data D). mstep (param_run (socket_data D) name st Hs).
  destruct (param (socket_data D) name) as [t|] eqn:E; [rewrite json_int_run by done|]; unfold int_param; by rewrite E.
Qed.
Lemma filled_run {S} D a c p r p' (st : S) : filled p' (at_work D a c p r) st = Done (0, at_work D a c (Some p') r) st.
Proof. done. Qed.

(** Results. *)
Definition answered (D : comm) (a : reply) (act : RPC_SRV_ACT) (c : Z) : Z * comm := (0, at_work (answered_with D a) act c None a.1).
Lemma plain_run {S} D a c p r (st : S) : (D ← prepare_result_string r (at_work D a c p r); responded D) st = Done (answered D (r, NoValue) a c) st.
Proof.
  unfold prepare_result_string. rewrite (bind_done _ _ st (set_response r (return_object (result_name r)) (at_work D a c p r)) st); [|by mstep (result_string_run r st)].
  unfold return_object, json_object_new_object, json_object_new_string. by rewrite object_add_fresh by apply not_elem_of_nil.
Qed.
Lemma resp_run {S} D a c p r (st : S) : PREPARE_JSON_RESP (at_work D a c p r) st = Done (answered D (r, NoValue) a c) st.
Proof.
  unfold PREPARE_JSON_RESP. rewrite (bind_done _ _ st (MkSrvReq a c (req_id D) 0 r p) st) by done. apply plain_run.
Qed.
Lemma resp_text_run {S} name value D a c p r v (st : S) : str name ≠ str "return" → (r = RPC_SRV_RESULT_SUCCESS → value p = Some v ∧ strlen v < JSON_RPC_METHOD_RESP_MAX_LENGTH) →
  PREPARE_JSON_RESP_STRING name value (at_work D a c (Some p) r) st =
    Done (answered D (r, if decide (r = RPC_SRV_RESULT_SUCCESS) then TextValue name v else NoValue) a c) st.
Proof.
  intros Hn Hv. unfold PREPARE_JSON_RESP_STRING. rewrite (bind_done _ _ st (MkSrvReq a c (req_id D) 0 r (Some p)) st) by done. cbv beta. cbn [result].
  destruct (decide (r = RPC_SRV_RESULT_SUCCESS)) as [->|Hr].
  - destruct (Hv eq_refl) as [Hp Hl]. rewrite (bind_done _ _ st (set_response RPC_SRV_RESULT_SUCCESS (reply_object (RPC_SRV_RESULT_SUCCESS, TextValue name v)) (set_custom v (at_work D a c (Some p) RPC_SRV_RESULT_SUCCESS))) st); [done|].
    rewrite (bind_done _ _ st p st) by done. cbv beta. rewrite Hp, bind_of_opt. unfold fits. rewrite (proj2 (Z.ltb_lt _ _) Hl), bind_ret.
    unfold prepare_result_string_s. mstep (result_string_run RPC_SRV_RESULT_SUCCESS st). by rewrite add_member.
  - apply plain_run.
Qed.
Lemma resp_enum_run {S} name value tbl max D a c p v t (st : S) : str name ≠ str "return" → value p = Some v →
  tbl !! Z.to_nat (if (max <? v) || (v <? 0) then max else v) = Some t →
  PREPARE_JSON_RESP_ENUM name value tbl max (at_work D a c (Some p) RPC_SRV_RESULT_SUCCESS) st =
    Done (answered D (RPC_SRV_RESULT_SUCCESS, TextValue name (str t)) a c) st.
Proof.
  intros Hn Hp Ht. unfold PREPARE_JSON_RESP_ENUM. rewrite (bind_done _ _ st (MkSrvReq a c (req_id D) 0 RPC_SRV_RESULT_SUCCESS (Some p)) st) by done. cbv beta. cbn [result].
  rewrite decide_True by done.
  rewrite (bind_done _ _ st (set_response RPC_SRV_RESULT_SUCCESS (reply_object (RPC_SRV_RESULT_SUCCESS, TextValue name (str t))) (set_custom (str t) (at_work D a c (Some p) RPC_SRV_RESULT_SUCCESS))) st); [done|].
  rewrite (bind_done _ _ st p st) by done. cbv beta. rewrite Hp, bind_of_opt, Ht, bind_of_opt.
  unfold prepare_result_string_s. mstep (result_string_run RPC_SRV_RESULT_SUCCESS st). by rewrite add_member.
Qed.
Definition has_value (r : RPC_SRV_RESULT) : bool := bool_decide (r = RPC_SRV_RESULT_SUCCESS ∨ r = RPC_SRV_RESULT_IN_PROG).
Lemma resp_int_run {S} name value D a c p r v (st : S) : str name ≠ str "return" → (has_value r = true → value p = Some v) →
  PREPARE_JSON_RESP_INT name value (at_work D a c (Some p) r) st =
    Done (answered D (r, if has_value r then IntValue name (int32 v) else NoValue) a c) st.
Proof.
  intros Hn Hv. unfold PREPARE_JSON_RESP_INT. rewrite (bind_done _ _ st (MkSrvReq a c (req_id D) 0 r (Some p)) st) by done. cbv beta. cbn [result].
  unfold has_value in *. destruct (decide (r = RPC_SRV_RESULT_SUCCESS ∨ r = RPC_SRV_RESULT_IN_PROG)) as [Hr|Hr].
  - rewrite bool_decide_eq_true_2 in * by done.
    rewrite (bind_done _ _ st (set_response r (reply_object (r, IntValue name (int32 v))) (set_custom (dec (int32 v)) (at_work D a c (Some p) r))) st); [done|].
    rewrite (bind_done _ _ st p st) by done. cbv beta. rewrite Hv, bind_of_opt by done.
    unfold prepare_result_string_i. mstep (result_string_run r st). by rewrite add_member.
  - rewrite bool_decide_eq_false_2 by done. apply plain_run.
Qed.

(** A call whose parameters are missing, and one that is worked on. *)
Lemma missing_run D w f g h a c : 0 ≤ cmd_index D < EJSON_RPCGMGR_CMD_END → phases long_bits rpclist (cmd_index D) = Some (f, g, h) →
  f (create_req_obj D) w = Done (-1, at_work (set_mapper_result CMD_TASK_RESULT_INVALID_PARAM D) a c None RPC_SRV_RESULT_NOT_STARTED) w →
  do_call D w = Done (ill_formed D) w.
Proof.
  intros Hi Hp Hf. unfold JsonRpc.do_request, process_json_to_binary, MyMapJsonToBinary. change (cmd_index (create_req_obj D)) with (cmd_index D).
  rewrite (proj2 (Z.leb_gt _ _)) by lia. rewrite Hp. rewrite (bind_done _ _ w (-1, ill_formed D) w); [done|]. by mstep Hf.
Qed.
Lemma phases_run {Y} D w f g h a c p (m : RM Y) pk res rep : 0 ≤ cmd_index D < EJSON_RPCGMGR_CMD_END → phases long_bits rpclist (cmd_index D) = Some (f, g, h) →
  f (create_req_obj D) w = Done (0, at_work D a c (Some p) RPC_SRV_RESULT_NOT_STARTED) w →
  g (at_work D a c (Some p) RPC_SRV_RESULT_NOT_STARTED) w = (x ← m; mret (0, at_work D a c (Some (pk x)) (res x))) w →
  (∀ x w', m w = Done x w' → h (at_work D a c (Some (pk x)) (res x)) w' = Done (answered D (rep x) a c) w') →
  do_call D w = (x ← m; mret (answered_with D (rep x))) w.
Proof.
  intros Hi Hp Hf Hg Hh. unfold JsonRpc.do_request, process_json_to_binary, MyMapJsonToBinary. change (cmd_index (create_req_obj D)) with (cmd_index D).
  rewrite (proj2 (Z.leb_gt _ _)) by lia. rewrite Hp. rewrite (bind_done _ _ w (0, at_work D a c (Some p) RPC_SRV_RESULT_NOT_STARTED) w); [|by mstep Hf].
  cbv beta iota. cbn [Z.eqb negb]. unfold process_work, MyProcessWork. change (cmd_index (at_work D a c (Some p) RPC_SRV_RESULT_NOT_STARTED)) with (cmd_index D).
  rewrite (proj2 (Z.leb_gt _ _)) by lia. rewrite Hp. unfold mbind, M_bind in *. rewrite Hg. destruct (m w) as [x w'| | | |] eqn:Em; [|done..]. unfold mret, M_ret.
  unfold process_binary_to_json, MyMapBinaryToJson. change (cmd_index (at_work D a c (Some (pk x)) (res x))) with (cmd_index D).
  rewrite (proj2 (Z.leb_gt _ _)) by lia. rewrite Hp. unfold mbind, M_bind. by rewrite (Hh x w' eq_refl).
Qed.

(** *** Each call *)
Definition outcome_of (D : comm) (o : option own_call) : RM comm :=
  match o with None => mret (ill_formed D) | Some c => a ← perform_call c; mret (answered_with D a) end.
Lemma bind_assoc {S B C E} (m : M S B) (k : B → M S C) (k' : C → M S E) s : ((m ≫= k) ≫= k') s = (m ≫= λ x, k x ≫= k') s.
Proof. unfold mbind, M_bind. by destruct (m s). Qed.
Lemma bind_cong {S B C} (m : M S B) (k k' : B → M S C) s : (∀ x s', m s = Done x s' → k x s' = k' x s') → (m ≫= k) s = (m ≫= k') s.
Proof. unfold mbind, M_bind. intros Hk. destruct (m s) as [x s'| | | |]; [by apply Hk|done..]. Qed.

Ltac read_params := repeat (first [rewrite json_int_run by done | rewrite optional_run by done | rewrite filled_run]; cbv beta).

Lemma trigger_run D (w : ADJsonRpcMgr X) a c p dn : is_Some (set_task_id 0 p) →
  trigger (cmd_index D) dn (at_work D a c (Some p) RPC_SRV_RESULT_NOT_STARTED) w =
    (x ← push_command (cmd_index D) dn; mret (0, at_work D a c (Some (default p (set_task_id x.2 p))) x.1)) w.
Proof.
  intros [p' Hp]. unfold trigger. rewrite (bind_done _ _ w p w) by done. cbv beta. apply bind_cong. intros [r id] w' _.
  destruct p; try done; reflexivity.
Qed.
(** The calls that start a task and tell its number. *)
Lemma task_call D (w : ADJsonRpcMgr X) f h a done0 : 0 ≤ cmd_index D < EJSON_RPCGMGR_CMD_END → cmd_index D ≠ EJSON_RPCMGR_SET_DEVOP_STATE →
  phases long_bits rpclist (cmd_index D) = Some (f, trigger (cmd_index D) done0, h) →
  f = no_params (RPCMGR_TASK_STS_PACKET None None) a (cmd_index D) → h = PREPARE_JSON_RESP_IN_PROG "taskId" →
  do_call D w = (x ← push_reply (cmd_index D) done0; mret (answered_with D x)) w.
Proof.
  intros Hi Hd Hp -> ->. unfold push_reply. rewrite bind_assoc.
  rewrite (phases_run D w _ _ _ a (cmd_index D) (RPCMGR_TASK_STS_PACKET None None) (push_command (cmd_index D) done0)
    (λ x, RPCMGR_TASK_STS_PACKET (Some x.2) None) (λ x, x.1)
    (λ x, (x.1, if decide (x.1 = RPC_SRV_RESULT_IN_PROG ∧ cmd_index D ≠ EJSON_RPCMGR_SET_DEVOP_STATE) then IntValue "taskId" (int32 x.2) else NoValue)) Hi Hp).
  - apply bind_cong. by intros [r id] w' _.
  - done.
  - by apply trigger_run.
  - intros [r id] w' Hpush. cbn [fst snd]. unfold PREPARE_JSON_RESP_IN_PROG. rewrite (resp_int_run "taskId" task_id D a _ _ r id); [|done|done].
    destruct (push_results _ _ _ _ _ _ Hpush) as [-> | ->]; [|done]. by rewrite decide_True.
Qed.

Ltac start_call Hi := intros Hi; unfold outcome_of, decode; rewrite Hi; cbv iota.
Ltac in_range Hi := rewrite Hi; unfold EJSON_RPCGMGR_CMD_END; lia.
Ltac no_param Hi f := apply (missing_run _ _ f _ _ RPC_SRV_ACT_READ 0); [in_range Hi|by rewrite Hi|].

Lemma run_get_task_sts D w : cmd_index D = 0 → short (socket_data D) "taskId" = true → do_call D w = outcome_of D (decode D) w.
Proof.
  start_call Hi. intros Hs. set (a := RPC_SRV_ACT_READ). destruct (int_param (socket_data D) "taskId") as [id|] eqn:E; cbn [fmap option_fmap option_map].
  - cbn [perform_call]. rewrite bind_assoc.
    rewrite (phases_run D w (json_to_bin_get_task_sts long_bits) process_get_task_status bin_to_json_get_task_sts a EJSON_RPCGMGR_GET_TASK_STS (RPCMGR_TASK_STS_PACKET (Some id) None)
      (on_worker (get_task_status tm_rev id))
      (λ sts, RPCMGR_TASK_STS_PACKET (Some id) (Some (default [] (str <$> rpc_server_result_table !! result_code sts))))
      (λ _, RPC_SRV_RESULT_SUCCESS) (λ sts, (RPC_SRV_RESULT_SUCCESS, TextValue "taskStatus" (default [] (str <$> rpc_server_result_table !! result_code sts))))).
    + by apply bind_cong.
    + in_range Hi.
    + by rewrite Hi.
    + unfold json_to_bin_get_task_sts. mstep (prepare_run D (RPCMGR_TASK_STS_PACKET None None) a EJSON_RPCGMGR_GET_TASK_STS w). by rewrite json_int_run, E.
    + unfold process_get_task_status. rewrite (bind_done _ _ w (RPCMGR_TASK_STS_PACKET (Some id) None) w) by done. cbv beta. cbn [task_id]. msimpl.
      apply bind_cong. intros sts w' _. by destruct sts.
    + intros sts w' _. unfold bin_to_json_get_task_sts. rewrite (resp_text_run "taskStatus" task_sts D a _ _ _ (default [] (str <$> rpc_server_result_table !! result_code sts))); [by rewrite decide_True|done|].
      intros _. split; [done|]. by destruct sts.
  - apply (missing_run D w (json_to_bin_get_task_sts long_bits) process_get_task_status bin_to_json_get_task_sts a EJSON_RPCGMGR_GET_TASK_STS); [in_range Hi|by rewrite Hi|].
    unfold json_to_bin_get_task_sts. mstep (prepare_run D (RPCMGR_TASK_STS_PACKET None None) a EJSON_RPCGMGR_GET_TASK_STS w). by rewrite json_int_run, E.
Qed.
Lemma run_get_version D w : cmd_index D = 1 → do_call D w = outcome_of D (decode D) w.
Proof.
  start_call Hi. cbn [perform_call]. rewrite bind_assoc.
  rewrite (phases_run D w json_to_bin_get_rpc_srv_version process_rpc_server_version bin_to_json_get_rpc_srv_version RPC_SRV_ACT_READ EJSON_RPCGMGR_GET_RPC_SRV_VERSION (RPCMGR_INTEGER_PACKET None)
    (gets svnVersion) (λ v, RPCMGR_INTEGER_PACKET (Some v)) (λ _, RPC_SRV_RESULT_SUCCESS) (λ v, (RPC_SRV_RESULT_SUCCESS, IntValue "version" (int32 v)))); try done; [in_range Hi|by rewrite Hi|].
  intros v w' _. unfold bin_to_json_get_rpc_srv_version. by rewrite (resp_int_run "version" task_id D _ _ _ _ v).
Qed.
Lemma run_shutdown D w : cmd_index D = 4 → do_call D w = outcome_of D (decode D) w.
Proof.
  start_call Hi. cbn [perform_call]. rewrite bind_assoc, bind_gets. destruct (shutdown_support w) eqn:Es.
  - unfold push_reply. rewrite bind_assoc.
    rewrite (phases_run D w json_to_bin_shutdown_service process_shutdown_service bin_to_json_shutdown_service RPC_SRV_ACT_WRITE (cmd_index D) (RPCMGR_TASK_STS_PACKET None None)
      (push_command (cmd_index D) WORK_CMD_AFTER_DONE_DELETE) (λ x, RPCMGR_TASK_STS_PACKET (Some x.2) None) (λ x, x.1)
      (λ x, (x.1, if decide (x.1 = RPC_SRV_RESULT_IN_PROG ∧ cmd_index D ≠ EJSON_RPCMGR_SET_DEVOP_STATE) then IntValue "taskId" (int32 x.2) else NoValue))).
    + rewrite Hi. apply bind_cong. by intros [r id] w' _.
    + in_range Hi.
    + by rewrite Hi.
    + by rewrite Hi.
    + unfold process_shutdown_service. rewrite bind_gets, Es. cbn [negb]. rewrite (bind_done _ _ w (MkSrvReq RPC_SRV_ACT_WRITE (cmd_index D) (req_id D) 0 RPC_SRV_RESULT_NOT_STARTED (Some (RPCMGR_TASK_STS_PACKET None None))) w) by done.
      cbv beta. cbn [action]. rewrite decide_True by done. replace EJSON_RPCGMGR_SHUTDOWN_SERVICE with (cmd_index D) by done. by apply trigger_run.
    + intros [r id] w' Hpush. cbn [fst snd]. unfold bin_to_json_shutdown_service, PREPARE_JSON_RESP_IN_PROG. rewrite (resp_int_run "taskId" task_id D _ _ _ r id); [|done|done].
      rewrite Hi. destruct (push_results _ _ _ _ _ _ Hpush) as [-> | ->]; done.
  - rewrite bind_ret.
    rewrite (phases_run D w json_to_bin_shutdown_service process_shutdown_service bin_to_json_shutdown_service RPC_SRV_ACT_WRITE (cmd_index D) (RPCMGR_TASK_STS_PACKET None None)
      (mret ()) (λ _, RPCMGR_TASK_STS_PACKET None None) (λ _, RPC_SRV_RESULT_FEATURE_UNSUPPORTED) (λ _, (RPC_SRV_RESULT_FEATURE_UNSUPPORTED, NoValue))); [done|in_range Hi|by rewrite Hi|by rewrite Hi| |].
    + unfold process_shutdown_service. by rewrite bind_gets, Es.
    + intros [] w' _. unfold bin_to_json_shutdown_service, PREPARE_JSON_RESP_IN_PROG. by rewrite (resp_int_run "taskId" task_id D _ _ _ _ 0).
Qed.
(** The calls that only tell how it went. *)
Lemma simple_call D (w : ADJsonRpcMgr X) f g a c p (m : RM RPC_SRV_RESULT) : 0 ≤ cmd_index D < EJSON_RPCGMGR_CMD_END →
  phases long_bits rpclist (cmd_index D) = Some (f, g, PREPARE_JSON_RESP) →
  f (create_req_obj D) w = Done (0, at_work D a c (Some p) RPC_SRV_RESULT_NOT_STARTED) w →
  g (at_work D a c (Some p) RPC_SRV_RESULT_NOT_STARTED) w = (r ← m; mret (0, at_work D a c (Some p) r)) w →
  do_call D w = (x ← simple m; mret (answered_with D x)) w.
Proof.
  intros Hi Hp Hf Hg. unfold simple. rewrite bind_assoc.
  rewrite (phases_run D w f g PREPARE_JSON_RESP a c p m (λ _, p) (λ r, r) (λ r, (r, NoValue)) Hi Hp Hf Hg); [by apply bind_cong|].
  intros r w' _. apply resp_run.
Qed.
Lemma run_trigger D w : cmd_index D ∈ [2; 9; 10; 15] → do_call D w = outcome_of D (Some (Trigger (cmd_index D))) w.
Proof.
  intros Hi. unfold outcome_of. cbn [perform_call]. rewrite !elem_of_cons in Hi.
  destruct Hi as [Hi|[Hi|[Hi|[Hi|Hi%elem_of_nil]]]]; try done;
    (eapply (task_call D w _ _ RPC_SRV_ACT_WRITE); [in_range Hi|rewrite Hi; by vm_compute|rewrite Hi; reflexivity|rewrite Hi; reflexivity|reflexivity]).
Qed.
Lemma run_reset D w : cmd_index D = 5 → do_call D w = outcome_of D (decode D) w.
Proof.
  start_call Hi. cbn [perform_call].
  by apply (simple_call D w json_to_bin_reset_task_sts process_reset_task_sts RPC_SRV_ACT_WRITE EJSON_RPCGMGR_RESET_TASK_STS (RPCMGR_TASK_STS_PACKET None None));
    [in_range Hi|rewrite Hi| |].
Qed.
Lemma run_get_ready D w : cmd_index D = 6 → do_call D w = outcome_of D (decode D) w.
Proof.
  start_call Hi. cbn [perform_call]. rewrite bind_assoc.
  rewrite (phases_run D w json_to_bin_get_ready_sts process_get_ready_status bin_to_json_get_ready_sts RPC_SRV_ACT_READ EJSON_RPCGMGR_GET_READY_STS (RPCMGR_READY_STS_PACKET None)
    (gets ServiceReadyFlag) (λ v, RPCMGR_READY_STS_PACKET (Some v)) (λ _, RPC_SRV_RESULT_SUCCESS) (λ v, (RPC_SRV_RESULT_SUCCESS, TextValue "status" (str (ready_name v))))); try done; [in_range Hi|by rewrite Hi|].
  intros v w' _. unfold bin_to_json_get_ready_sts. apply (resp_enum_run "status" task_id _ _ D _ _ _ v); [done|done|]. unfold ready_name.
  change EJSON_RPCGMGR_READY_STATE_UNKNOWN with 3. destruct (Z.ltb_spec 3 v), (Z.ltb_spec v 0); cbn [orb]; try done. assert (v = 0 ∨ v = 1 ∨ v = 2 ∨ v = 3) as Hv by lia. by destruct_or! Hv; subst.
Qed.
Lemma run_get_debug D w : cmd_index D = 7 → do_call D w = outcome_of D (decode D) w.
Proof.
  start_call Hi. cbn [perform_call]. rewrite bind_assoc.
  rewrite (phases_run D w json_to_bin_get_debug_logging process_get_debug_logging bin_to_json_get_debug_logging RPC_SRV_ACT_READ EJSON_RPCGMGR_GET_DEBUG_LOG (RPCMGR_DEBUG_LOG_PACKET None)
    (gets ServiceDebugFlag) (λ b, RPCMGR_DEBUG_LOG_PACKET (Some (if b : bool then 1 else 0))) (λ _, RPC_SRV_RESULT_SUCCESS)
    (λ b, (RPC_SRV_RESULT_SUCCESS, TextValue "status" (str (if b : bool then "enable" else "disable"))))); try done; [in_range Hi|by rewrite Hi|].
  intros b w' _. unfold bin_to_json_get_debug_logging. by apply (resp_enum_run "status" task_id _ _ D _ _ _ (if b then 1 else 0)); [|destruct b..].
Qed.
(** The numbers of the two texts. *)
Lemma enum_text_run {S} tbl t max D a c p r k (st : S) : 0 ≤ max ≤ Z.of_nat (length tbl) → short (socket_data D) "status" = true → param (socket_data D) "status" = Some t →
  ∃ v, JSON_STRING_TO_ENUM "status" tbl max (at_work D a c p r) k st =
    (if max <=? v then Done (-1, at_work (set_mapper_result CMD_TASK_RESULT_INVALID_PARAM D) a c None r) st else k v st) ∧
    v ≤ max ∧ (v < max ↔ t ∈ str <$> take (Z.to_nat max) tbl) ∧ (v < max → 0 ≤ v ∧ (str <$> tbl) !! Z.to_nat v = Some t).
Proof.
  intros Hm Hs Ht. destruct (enum_run tbl t max st Hm) as (v & Hr & Hv). exists v. split; [|done].
  unfold JSON_STRING_TO_ENUM. rewrite json_string_run, Ht by done. mstep Hr. by destruct (max <=? v).
Qed.
Lemma run_set_debug D w : cmd_index D = 8 → short (socket_data D) "status" = true → do_call D w = outcome_of D (decode D) w.
Proof.
  start_call Hi. intros Hs. destruct (param (socket_data D) "status") as [t|] eqn:E; cbn [mbind option_bind].
  - destruct (enum_text_run RPCMGR_RPC_DEBUG_LOG_ARGSTS_TBL t 2 D RPC_SRV_ACT_WRITE EJSON_RPCGMGR_SET_DEBUG_LOG (Some (RPCMGR_DEBUG_LOG_PACKET None)) RPC_SRV_RESULT_NOT_STARTED
      (λ v, filled (RPCMGR_DEBUG_LOG_PACKET (Some v)) (at_work D RPC_SRV_ACT_WRITE EJSON_RPCGMGR_SET_DEBUG_LOG (Some (RPCMGR_DEBUG_LOG_PACKET None)) RPC_SRV_RESULT_NOT_STARTED)) w) as (v & Hf & Hv & Hin & Hval); [cbn; lia|done|done|].
    assert (Hf' : json_to_bin_set_debug_logging (create_req_obj D) w = if 2 <=? v then Done (-1, at_work (set_mapper_result CMD_TASK_RESULT_INVALID_PARAM D) RPC_SRV_ACT_WRITE EJSON_RPCGMGR_SET_DEBUG_LOG None RPC_SRV_RESULT_NOT_STARTED) w
      else Done (0, at_work D RPC_SRV_ACT_WRITE EJSON_RPCGMGR_SET_DEBUG_LOG (Some (RPCMGR_DEBUG_LOG_PACKET (Some v))) RPC_SRV_RESULT_NOT_STARTED) w).
    { unfold json_to_bin_set_debug_logging. mstep (prepare_run D (RPCMGR_DEBUG_LOG_PACKET None) RPC_SRV_ACT_WRITE EJSON_RPCGMGR_SET_DEBUG_LOG w). exact Hf. }
    assert (Hset : ∀ b : bool, v = (if b then 1 else 0) → do_call D w = (a ← perform_call (SetDebug b); mret (answered_with D a)) w).
    { intros b Hb. apply (simple_call D w json_to_bin_set_debug_logging process_set_debug_logging RPC_SRV_ACT_WRITE EJSON_RPCGMGR_SET_DEBUG_LOG (RPCMGR_DEBUG_LOG_PACKET (Some v))
        (modify (λ m, set_logmsg (map (λ _, b) (logmsg m)) (set_debug b m));; mret RPC_SRV_RESULT_SUCCESS)); [in_range Hi|by rewrite Hi|rewrite Hf'; subst v; by destruct b|subst v; by destruct b]. }
    destruct (decide (v < 2)) as [Hlt|Hge].
    + destruct (Hval Hlt) as [Hv0 Hl]. assert (v = 0 ∨ v = 1) as [-> | ->] by lia; cbn in Hl; injection Hl as <-; cbn -[perform_call]; [by apply (Hset false)|by apply (Hset true)].
    + rewrite !decide_False; [|intros ->; apply Hge, Hin; set_solver..].
      apply (missing_run D w json_to_bin_set_debug_logging process_set_debug_logging bin_to_json_set_debug_logging RPC_SRV_ACT_WRITE EJSON_RPCGMGR_SET_DEBUG_LOG); [in_range Hi|by rewrite Hi|].
      rewrite Hf'. by rewrite (proj2 (Z.leb_le 2 v)) by lia.
  - apply (missing_run D w json_to_bin_set_debug_logging process_set_debug_logging bin_to_json_set_debug_logging RPC_SRV_ACT_WRITE EJSON_RPCGMGR_SET_DEBUG_LOG); [in_range Hi|by rewrite Hi|].
    unfold json_to_bin_set_debug_logging. mstep (prepare_run D (RPCMGR_DEBUG_LOG_PACKET None) RPC_SRV_ACT_WRITE EJSON_RPCGMGR_SET_DEBUG_LOG w).
    unfold JSON_STRING_TO_ENUM. by rewrite json_string_run, E.
Qed.

(** The calls about events: what they read is in the packet, and the work hands
    it to the event manager. *)
Notation no_event := (EVENT_PACKET None None None None None None None None None).
Ltac reads :=
  match goal with |- context [PREPARE_JSON_REQUEST ?p ?a ?c (create_req_obj ?D)] => match goal with |- _ ?w = _ => mstep (prepare_run D p a c w) end end.
Lemma run_unsubscribe D w : cmd_index D = 12 → short (socket_data D) "srvToken" = true → do_call D w = outcome_of D (decode D) w.
Proof.
  start_call Hi. intros Hs. destruct (int_param (socket_data D) "srvToken") as [t|] eqn:E; cbn [fmap option_fmap option_map].
  - apply (simple_call D w (json_to_bin_event_unsubscribe long_bits) process_event_unsubscribe RPC_SRV_ACT_WRITE EJSON_RPCGMGR_EVENT_UNSUBSCRIBE
      (EVENT_PACKET None None None (Some t) None None None None None) (on_events (EvntMgr.process_event_unsubscribe (MkPacket 0 0 0 t 0 0 [] 0 0)))); [in_range Hi|by rewrite Hi| |done].
    unfold json_to_bin_event_unsubscribe; reads. by rewrite json_int_run, E.
  - apply (missing_run D w (json_to_bin_event_unsubscribe long_bits) process_event_unsubscribe bin_to_json_event_unsubscribe RPC_SRV_ACT_WRITE EJSON_RPCGMGR_EVENT_UNSUBSCRIBE); [in_range Hi|by rewrite Hi|].
    unfold json_to_bin_event_unsubscribe; reads. by rewrite json_int_run, E.
Qed.
Lemma run_notify D w : cmd_index D = 13 → short (socket_data D) "evntNum" = true → short (socket_data D) "evntArg1" = true → short (socket_data D) "evntArg2" = true →
  do_call D w = outcome_of D (decode D) w.
Proof.
  start_call Hi. intros Hs Hx Hy. destruct (int_param (socket_data D) "evntNum") as [e|] eqn:E; cbn [mbind option_bind].
  - apply (simple_call D w (json_to_bin_event_notify long_bits) process_event_notify RPC_SRV_ACT_WRITE EJSON_RPCGMGR_EVENT_NOTIFY
      (EVENT_PACKET None None (Some e) None None None None (Some (default (-1) (int_param (socket_data D) "evntArg1"))) (Some (default (-1) (int_param (socket_data D) "evntArg2"))))
      (on_events (EvntMgr.process_event_notify (MkPacket 0 0 e 0 0 0 [] (default (-1) (int_param (socket_data D) "evntArg1")) (default (-1) (int_param (socket_data D) "evntArg2")))))); [in_range Hi|by rewrite Hi| |done].
    unfold json_to_bin_event_notify; reads. rewrite json_int_run, E by done. by rewrite !optional_run.
  - apply (missing_run D w (json_to_bin_event_notify long_bits) process_event_notify bin_to_json_event_notify RPC_SRV_ACT_WRITE EJSON_RPCGMGR_EVENT_NOTIFY); [in_range Hi|by rewrite Hi|].
    unfold json_to_bin_event_notify; reads. by rewrite json_int_run, E.
Qed.
Lemma run_process D w : cmd_index D = 14 → short (socket_data D) "cltToken" = true → short (socket_data D) "evntNum" = true → short (socket_data D) "evntArg1" = true →
  short (socket_data D) "evntArg2" = true → do_call D w = outcome_of D (decode D) w.
Proof.
  start_call Hi. intros Ht Hs Hx Hy. destruct (int_param (socket_data D) "cltToken") as [t|] eqn:Et; [destruct (int_param (socket_data D) "evntNum") as [e|] eqn:E|]; cbn [mbind option_bind].
  - apply (simple_call D w (json_to_bin_event_process long_bits) process_event_process RPC_SRV_ACT_WRITE EJSON_RPCGMGR_EVENT_PROCESS
      (EVENT_PACKET (Some t) None (Some e) None None None None (Some (default (-1) (int_param (socket_data D) "evntArg1"))) (Some (default (-1) (int_param (socket_data D) "evntArg2"))))
      (on_events (EvntMgr.process_event_process (MkPacket t 0 e 0 0 0 [] (default (-1) (int_param (socket_data D) "evntArg1")) (default (-1) (int_param (socket_data D) "evntArg2")))))); [in_range Hi|by rewrite Hi| |done].
    unfold json_to_bin_event_process; reads. rewrite json_int_run, Et by done. rewrite json_int_run, E by done. by rewrite !optional_run.
  - apply (missing_run D w (json_to_bin_event_process long_bits) process_event_process bin_to_json_event_process RPC_SRV_ACT_WRITE EJSON_RPCGMGR_EVENT_PROCESS); [in_range Hi|by rewrite Hi|].
    unfold json_to_bin_event_process; reads. rewrite json_int_run, Et by done. by rewrite json_int_run, E.
  - apply (missing_run D w (json_to_bin_event_process long_bits) process_event_process bin_to_json_event_process RPC_SRV_ACT_WRITE EJSON_RPCGMGR_EVENT_PROCESS); [in_range Hi|by rewrite Hi|].
    unfold json_to_bin_event_process; reads. by rewrite json_int_run, Et.
Qed.
Lemma run_subscribe D w : cmd_index D = 11 → short (socket_data D) "cltToken" = true → short (socket_data D) "port" = true → short (socket_data D) "evntNum" = true →
  do_call D w = outcome_of D (decode D) w.
Proof.
  start_call Hi. intros Ht Hp He. destruct (int_param (socket_data D) "cltToken") as [t|] eqn:Et; cbn [mbind option_bind].
  - set (p := default (-1) (int_param (socket_data D) "port")). set (e := default (-1) (int_param (socket_data D) "evntNum")). cbn [perform_call]. rewrite bind_assoc.
    rewrite (phases_run D w (json_to_bin_event_subscribe long_bits) process_event_subscribe bin_to_json_event_subscribe RPC_SRV_ACT_WRITE EJSON_RPCGMGR_EVENT_SUBSCRIBE
      (EVENT_PACKET (Some t) (Some p) (Some e) None (Some (sock_descr D)) (Some (sock_id D)) (Some (clt_ip D)) None None)
      (on_events (EvntMgr.process_event_subscribe (MkPacket t p e 0 (sock_descr D) (sock_id D) (clt_ip D) 0 0)))
      (λ x, EVENT_PACKET (Some t) (Some p) (Some e) x.2 (Some (sock_descr D)) (Some (sock_id D)) (Some (clt_ip D)) None None) (λ x, x.1)
      (λ x, (x.1, match x.2 with Some t => IntValue "srvToken" (int32 t) | None => NoValue end))).
    + apply bind_cong. by intros [r tok] w' _.
    + in_range Hi.
    + by rewrite Hi.
    + unfold json_to_bin_event_subscribe; reads. rewrite json_int_run, Et by done. by rewrite !optional_run.
    + unfold process_event_subscribe. rewrite (bind_done _ _ w (EVENT_PACKET (Some t) (Some p) (Some e) None (Some (sock_descr D)) (Some (sock_id D)) (Some (clt_ip D)) None None) w) by done.
      apply bind_cong. by intros [r tok] w' _.
    + intros [r tok] w' Hrun. cbn [fst snd]. unfold bin_to_json_event_subscribe.
      unfold on_events, zoom in Hrun. destruct (EvntMgr.process_event_subscribe _ _) as [[r' tok'] s| | | |] eqn:Es; [|done..]. injection Hrun as -> -> _.
      rewrite (resp_int_run "srvToken" srv_token D _ _ _ r (default 0 tok)); [by destruct (subscribe_token _ _ _ _ _ Es) as [[-> [? ->]]|[-> ->]]|done|].
      by destruct (subscribe_token _ _ _ _ _ Es) as [[-> [? ->]]|[-> ->]].
  - apply (missing_run D w (json_to_bin_event_subscribe long_bits) process_event_subscribe bin_to_json_event_subscribe RPC_SRV_ACT_WRITE EJSON_RPCGMGR_EVENT_SUBSCRIBE); [in_range Hi|by rewrite Hi|].
    unfold json_to_bin_event_subscribe; reads. by rewrite json_int_run, Et.
Qed.
Lemma run_set_devop D w : cmd_index D = 17 → short (socket_data D) "status" = true → do_call D w = outcome_of D (decode D) w.
Proof.
  start_call Hi. intros Hs. destruct (param (socket_data D) "status") as [t|] eqn:E; cbn [mbind option_bind].
  - destruct (enum_text_run RPCMGR_RPC_DEVOP_STATE_ARGSTS_TBL t 10 D RPC_SRV_ACT_WRITE EJSON_RPCMGR_SET_DEVOP_STATE (Some (RPCMGR_DEVOP_STS_PACKET None)) RPC_SRV_RESULT_NOT_STARTED
      (λ v, filled (RPCMGR_DEVOP_STS_PACKET (Some v)) (at_work D RPC_SRV_ACT_WRITE EJSON_RPCMGR_SET_DEVOP_STATE (Some (RPCMGR_DEVOP_STS_PACKET None)) RPC_SRV_RESULT_NOT_STARTED)) w) as (v & Hf & Hv & Hin & Hval); [cbn; lia|done|done|].
    assert (Hf' : json_to_bin_set_devop_state (create_req_obj D) w = if 10 <=? v then Done (-1, at_work (set_mapper_result CMD_TASK_RESULT_INVALID_PARAM D) RPC_SRV_ACT_WRITE EJSON_RPCMGR_SET_DEVOP_STATE None RPC_SRV_RESULT_NOT_STARTED) w
      else Done (0, at_work D RPC_SRV_ACT_WRITE EJSON_RPCMGR_SET_DEVOP_STATE (Some (RPCMGR_DEVOP_STS_PACKET (Some v))) RPC_SRV_RESULT_NOT_STARTED) w).
    { unfold json_to_bin_set_devop_state; reads. exact Hf. }
    change (Z.to_nat 10) with 10%nat in Hin. destruct (Z.leb_spec 10 v).
    + rewrite decide_False by (intros Ht%Hin; lia).
      by apply (missing_run D w json_to_bin_set_devop_state process_set_devop_state bin_to_json_set_devop_state RPC_SRV_ACT_WRITE EJSON_RPCMGR_SET_DEVOP_STATE); [in_range Hi|rewrite Hi|].
    + rewrite decide_True by (apply Hin; lia). cbn [perform_call]. unfold push_reply. rewrite bind_assoc.
      rewrite (phases_run D w json_to_bin_set_devop_state process_set_devop_state bin_to_json_set_devop_state RPC_SRV_ACT_WRITE EJSON_RPCMGR_SET_DEVOP_STATE (RPCMGR_DEVOP_STS_PACKET (Some v))
        (push_command 17 WORK_CMD_AFTER_DONE_PRESERVE) (λ x, RPCMGR_DEVOP_STS_PACKET (Some x.2)) (λ x, x.1) (λ x, (x.1, NoValue))).
      * apply bind_cong. intros [r id] w' _. rewrite decide_False; [done|]. by intros [_ []].
      * in_range Hi.
      * by rewrite Hi.
      * done.
      * unfold process_set_devop_state. change EJSON_RPCMGR_SET_DEVOP_STATE with 17. rewrite <- Hi. by apply trigger_run.
      * intros [r id] w' _. apply resp_run.
  - apply (missing_run D w json_to_bin_set_devop_state process_set_devop_state bin_to_json_set_devop_state RPC_SRV_ACT_WRITE EJSON_RPCMGR_SET_DEVOP_STATE); [in_range Hi|by rewrite Hi|].
    unfold json_to_bin_set_devop_state; reads. unfold JSON_STRING_TO_ENUM. by rewrite json_string_run, E.
Qed.

Ltac param_name := unfold param_names; repeat (first [apply list_elem_of_here | apply list_elem_of_further]).
(** C40: the three phases of a call, with their packet and their request object,
    do what the call stands for: it runs the operation of the tasks, the events or
    the flags that it names, exactly once when its parameters are well formed and
    not at all otherwise, and the reply object has that operation's result and value; for
    all sixteen calls that the manager answers itself, and every text
    of a request whose parameters are shorter than 255 bytes. *)
Theorem manager_serves_calls D w : own (cmd_index D) = true → forallb (short (socket_data D)) param_names = true →
  do_call D w = outcome_of D (decode D) w.
Proof.
  intros Ho Hall. rewrite forallb_forall in Hall.
  assert (Hs : ∀ x, x ∈ param_names → short (socket_data D) x = true) by (intros x Hx; apply Hall; by apply list_elem_of_In).
  clear Hall. unfold own in Ho.
  assert (Ht : cmd_index D ∈ [2; 9; 10; 15] → do_call D w = outcome_of D (decode D) w).
  { intros Hd. rewrite run_trigger by done. unfold decode. rewrite !elem_of_cons in Hd. by destruct Hd as [->|[->|[->|[->|[]%elem_of_nil]]]]. }
  destruct (decide (cmd_index D ∈ [2; 9; 10; 15])) as [Hd|Hd]; [by apply Ht|]. clear Ht.
  assert (cmd_index D = 0 ∨ cmd_index D = 1 ∨ cmd_index D = 4 ∨ cmd_index D = 5 ∨ cmd_index D = 6 ∨ cmd_index D = 7 ∨ cmd_index D = 8 ∨
    cmd_index D = 11 ∨ cmd_index D = 12 ∨ cmd_index D = 13 ∨ cmd_index D = 14 ∨ cmd_index D = 17) as Hi.
  { rewrite !andb_true_iff, !negb_true_iff, !Z.leb_le, !Z.eqb_neq in Ho. unfold EJSON_RPCGMGR_GET_SETTINGS_STS, EJSON_RPCMGR_GET_DEVOP_STATE in Ho.
    rewrite !elem_of_cons in Hd. clear -Ho Hd. lia. }
  destruct Hi as [Hi|[Hi|[Hi|[Hi|[Hi|[Hi|[Hi|[Hi|[Hi|[Hi|[Hi|Hi]]]]]]]]]]].
  - apply run_get_task_sts; [exact Hi|apply Hs; param_name].
  - apply run_get_version; exact Hi.
  - apply run_shutdown; exact Hi.
  - apply run_reset; exact Hi.
  - apply run_get_ready; exact Hi.
  - apply run_get_debug; exact Hi.
  - apply run_set_debug; [exact Hi|apply Hs; param_name].
  - apply run_subscribe; [exact Hi|apply Hs; param_name..].
  - apply run_unsubscribe; [exact Hi|apply Hs; param_name].
  - apply run_notify; [exact Hi|apply Hs; param_name..].
  - apply run_process; [exact Hi|apply Hs; param_name..].
  - apply run_set_devop; [exact Hi|apply Hs; param_name].
Qed.
End calls.

(** ** Starting a service *)
Section starting.
Context {X A : Type}.
Definition short_name (name : cstr) : bool := strlen name <? JSON_RPC_METHOD_NAME_MAX_LENGTH.
(** The calls of a service, in the order of their indices. *)
Definition methods (rpclist : list (ADJsonRpcMgrConsumer X A)) : list (cstr * Z) :=
  common_methods ++ imap (λ i h, (strRpcName h, EJSON_RPCGMGR_CMD_END + Z.of_nat i)) rpclist.
Definition with_methods (l : list (cstr * Z)) (s : server (ADJsonRpcMgr X)) : server (ADJsonRpcMgr X) := set_rpc_call_list (rpc_call_list s ++ l) s.
Lemma with_methods_app l l' s : with_methods l' (with_methods l s) = with_methods (l ++ l') s.
Proof. unfold with_methods, set_rpc_call_list. cbn. by rewrite app_assoc. Qed.
Lemma with_methods_nil s : with_methods [] s = s.
Proof. unfold with_methods. destruct s. cbn. by rewrite app_nil_r. Qed.
Lemma attach_rpc_run name i s : short_name name = true → attach_rpc_method name i s = Done 0 (with_methods [(name, i)] s).
Proof. unfold short_name, attach_rpc_method. rewrite Z.ltb_lt. intros Hn. by rewrite (proj2 (Z.leb_gt _ _)) by lia. Qed.
Lemma attach_methods_run l : ∀ s, forallb (λ x, short_name x.1) l = true → attach_methods l s = Done () (with_methods l s).
Proof.
  induction l as [|[name i] l IH]; intros s Hl; [by rewrite with_methods_nil|]. cbn [forallb] in Hl. apply andb_true_iff in Hl as [Hn Hl].
  cbn [attach_methods]. mstep (attach_rpc_run name i s Hn). by rewrite IH, with_methods_app.
Qed.
Lemma attach_consumers_run l : ∀ n s, forallb (λ h, short_name (strRpcName h)) l = true →
  attach_consumers n l s = Done () (with_methods (imap (λ i (h : ADJsonRpcMgrConsumer X A), (strRpcName h, n + Z.of_nat i)) l) s).
Proof.
  induction l as [|h l IH]; intros n s Hl; [by rewrite with_methods_nil|]. cbn [forallb] in Hl. apply andb_true_iff in Hl as [Hn Hl].
  cbn [attach_consumers]. unfold fits. rewrite (proj2 (Z.ltb_lt (strlen (strRpcName h)) 1024)) by (apply Z.ltb_lt in Hn; unfold JSON_RPC_METHOD_NAME_MAX_LENGTH in Hn; lia).
  rewrite bind_ret. mstep (attach_rpc_run (strRpcName h) n s Hn). rewrite IH, with_methods_app by done. f_equal. f_equal.
  rewrite imap_cons. cbn. f_equal; [f_equal; lia|]. apply imap_ext. intros i x _. cbn. f_equal. lia.
Qed.
Lemma start_service_run (rpclist : list (ADJsonRpcMgrConsumer X A)) s : forallb (λ h, short_name (strRpcName h)) rpclist = true →
  Start rpclist s = Done 0 (with_methods (methods rpclist) s).
Proof.
  intros Hl. unfold Start. assert (H1 := attach_methods_run common_methods s ltac:(by vm_compute)). mstep H1.
  assert (H2 := attach_consumers_run rpclist EJSON_RPCGMGR_CMD_END (with_methods common_methods s) Hl). mstep H2. by rewrite with_methods_app.
Qed.
End starting.

(** ** An example

    A client subscribes to the event 3. *)
Definition fresh_memory : TaskMemory := {|
  tm_rev := AdavOld;
  tm_malloc_w h := Some (fresh (dom h), Holder None None None);
  tm_malloc_i h := Some (fresh (dom h), Holder None None None);
  tm_new_task os := (fresh (dom os), Task 0 0 0 RPC_SRV_RESULT_NONE WORK_CMD_AFTER_DONE_NONE None);
  tm_new_inprog os := (fresh (dom os), InProg 0 0 0 RPC_SRV_RESULT_NONE EmptyString);
  tm_new_data os := fresh (dom os)
|}.
Definition no_chain {A} : ADGenericChain A := AD (Chain 1%positive 0 0 0 true {[ 1%positive := Holder None None None ]} ∅) 0 0 None 0.
Definition a_manager : ADJsonRpcMgr unit := ADJsonRpcMgr_new ([] : list (ADJsonRpcMgrConsumer unit unit)) 7 false (Worker no_chain no_chain true 0 []) tt.
Definition a_request : JsonDataCommObj (packet unit) :=
  MkComm 4 EJSON_RPCGMGR_EVENT_SUBSCRIBE CMD_TASK_RESULT_UNKNOWN RPC_SRV_RESULT_NOT_STARTED
    (q "{'jsonrpc':'2.0','method':'subscribe_event','params':{'cltToken':'5','evntNum':'3'},'id':'1'}") JNull [] None 5000 (str "10.0.0.2") 12 7.
Lemma manager_serves_calls_witness :
  ∃ D, D = answered_with a_request (RPC_SRV_RESULT_SUCCESS, IntValue "srvToken" 1) ∧
  ∃ w, @do_request (ADJsonRpcMgr unit) (packet unit) (@process_json_to_binary simple_json fresh_memory unit unit 64 [])
    (@process_work simple_json fresh_memory unit unit 64 []) (@process_binary_to_json simple_json fresh_memory unit unit 64 []) a_request a_manager = Done D w.
Proof.
  eexists. split; [reflexivity|].
  pose proof (@manager_serves_calls simple_json fresh_memory unit unit 64 [] a_request a_manager) as Hc.
  rewrite Hc; [|reflexivity|vm_compute; reflexivity]. eexists. vm_compute. reflexivity.
Defined.
