(* ===== verification/RpcClient.v ===== *)
(** * The client of the JSON-RPC services

    The classes ADNetClient ([ADNetClient.cpp]) and ADJsonRpcClient
    ([ADJsonRpcClient.cpp]): every call writes a request with its parameters,
    sends it with the NUL behind it, waits for what comes back, and looks up the
    result and the values in it.  The socket is a class of operations on the state [W]
    of the world at its other end; the descriptor has no other use, and the time
    that a call took is not modelled.  Overloaded functions have the letters of
    their parameters behind their names (text, int, unsigned long), and [_end]
    where the buffer is the last parameter.  The functions that get a command object
    have the members they use as parameters.  What a call writes through its
    pointers is a list, in the order of the parameters, up to the first that the
    answer does not have; the sizes of the buffers for texts are parameters. *)

From Stdlib Require Import ZArith Lia Ascii String.
From stdpp Require Import base list strings sets.
From S2P Require Import Prelude CString CxxStd RpcResult Lang JsonGrammar JsonChecker JsonProofs Json NetServer JsonRpc.

(** ** Data *)

(** The two ends of a socket: [recv] answers -1 ([None]), or at most as many bytes
    as it is asked for. *)
Class Socket (W : Type) := {
  sock_open : cstr → Z → M W bool;
  sock_send : list ascii → M W Z;
  sock_recv : Z → M W (option (list ascii));
  sock_close : M W unit
}.

(** Floating-point numbers are only read and printed. *)
Class Doubles := { double : Type; print_double : double → cstr; atof : cstr → double; to_float : double → double }.

(** [connected] and [ClientSocket]; [send_buffer] is the text that was copied to it. *)
Record ADJsonRpcClient (W : Type) := MkClient {
  c_req_id : Z;
  connected : bool;
  sock_connected : bool;
  sock_ip : cstr;
  sock_port : Z;
  send_buffer : cstr;
  recv_buffer : list ascii;
  peer : W
}.
Arguments MkClient {W} _ _ _ _ _ _ _ _.
Arguments c_req_id {W} _.
Arguments connected {W} _.
Arguments sock_connected {W} _.
Arguments sock_ip {W} _.
Arguments sock_port {W} _.
Arguments send_buffer {W} _.
Arguments recv_buffer {W} _.
Arguments peer {W} _.
Section client_setters.
Context {W : Type}.
Implicit Type c : ADJsonRpcClient W.
Definition set_req_id v c := MkClient v (connected c) (sock_connected c) (sock_ip c) (sock_port c) (send_buffer c) (recv_buffer c) (peer c).
Definition set_connected v c := MkClient (c_req_id c) v (sock_connected c) (sock_ip c) (sock_port c) (send_buffer c) (recv_buffer c) (peer c).
Definition set_sock v c := MkClient (c_req_id c) (connected c) v (sock_ip c) (sock_port c) (send_buffer c) (recv_buffer c) (peer c).
Definition set_addr ip port c := MkClient (c_req_id c) (connected c) (sock_connected c) ip port (send_buffer c) (recv_buffer c) (peer c).
Definition set_send_buffer v c := MkClient (c_req_id c) (connected c) (sock_connected c) (sock_ip c) (sock_port c) v (recv_buffer c) (peer c).
Definition set_recv_buffer v c := MkClient (c_req_id c) (connected c) (sock_connected c) (sock_ip c) (sock_port c) (send_buffer c) v (peer c).
Definition set_peer v c : ADJsonRpcClient W := MkClient (c_req_id c) (connected c) (sock_connected c) (sock_ip c) (sock_port c) (send_buffer c) (recv_buffer c) v.
End client_setters.

Definition MAX_RECV_BUFFER_SIZE : Z := 1400.
Definition MAX_SEND_BUFFER_SIZE : Z := 1400.

Section client.
Context `{JsonC, Doubles} {W} `{Socket W}.
Variable long_bits : Z.
Notation CM := (M (ADJsonRpcClient W)).

Definition ADJsonRpcClient_new (w : W) : ADJsonRpcClient W := MkClient 0 false false [] (-1) [] (replicate (Z.to_nat MAX_RECV_BUFFER_SIZE) NUL) w.

(** ** The socket *)
Definition on_peer {A} (m : M W A) : CM A := zoom peer set_peer m.
Definition sock_connect : CM Z :=
  b ← gets sock_connected;
  if b : bool then mret (-1) else
  port ← gets sock_port; ip ← gets sock_ip;
  if port <? 1 then mret (-1) else if decide (ip = []) then mret (-1) else
  ok ← on_peer (sock_open ip port);
  if ok : bool then modify (set_sock true);; mret 0 else mret (-1).
Definition sock_connect_to (ip_addr : cstr) (port_num : Z) : CM Z :=
  b ← gets sock_connected;
  if b : bool then mret (-1) else if port_num <? 1 then mret (-1) else if decide (ip_addr = []) then mret (-1) else
  modify (set_addr ip_addr port_num);; sock_connect.
Definition sock_disconnect : CM Z :=
  b ← gets sock_connected; (if b : bool then on_peer sock_close else mret ());; modify (set_sock false);; mret 0.
Definition send_data (send_buf : cstr) : CM Z :=
  len ← on_peer (sock_send (send_buf ++ [NUL]));
  mret (if len =? strlen send_buf + 1 then 0 else -1).

(** The rounds of the loop of [receive_data_blocking]. *)
Fixpoint recv_loop (n : nat) (buf_total_size : Z) : CM (option (list ascii)) :=
  match n with
  | O => mret None
  | S n => data ← on_peer (sock_recv buf_total_size); match data with Some d => mret (Some d) | None => recv_loop n buf_total_size end
  end.
(** What was received is at the beginning of the buffer, with a NUL behind it that
    a full buffer has no place for. *)
Definition received (d : list ascii) : CM unit :=
  if Z.of_nat (length d) <? MAX_RECV_BUFFER_SIZE then
    b ← gets recv_buffer; modify (set_recv_buffer (d ++ NUL :: drop (S (length d)) b))
  else oops.
Definition receive_data_blocking (timeout_ms : Z) : CM Z :=
  b ← gets sock_connected;
  if negb b then mret (-1) else
  data ← recv_loop (Z.to_nat (timeout_ms + 1)) MAX_RECV_BUFFER_SIZE;
  match data with None => mret (-1) | Some d => received d;; mret (Z.of_nat (length d)) end.

Definition rpc_server_connect (ip_addr : cstr) (port_num : Z) : CM Z :=
  b ← gets connected;
  if b : bool then mret (-1) else
  r ← sock_connect_to ip_addr port_num;
  if r =? 0 then modify (set_connected true);; mret 0 else mret (-1).
Definition rpc_server_disconnect : CM Z :=
  b ← gets connected; (if b : bool then sock_disconnect;; mret () else mret ());; modify (set_connected false);; mret 0.
Definition get_ip_addr : CM cstr := gets sock_ip.
Definition ADJsonRpcClient_delete : CM unit := sock_disconnect;; mret ().

(** ** How requests are made *)
Definition int64 (z : Z) : Z := (z + 2 ^ 63) mod 2 ^ 64 - 2 ^ 63.
Inductive param_value := VInt (z : Z) | VText (s : cstr) | VDouble (d : double) | VULong (z : Z).
Definition new_value (v : param_value) : json :=
  match v with
  | VInt z => json_object_new_int z
  | VText s => json_object_new_string s
  | VDouble d => JDouble (print_double d)
  | VULong z => JInt (int64 z)
  end.
Definition request_head (method : cstr) : json :=
  let o := json_object_object_add json_object_new_object (str "jsonrpc") (json_object_new_string JSON_RPC_VERSION) in
  json_object_object_add o (str "method") (json_object_new_string method).
Definition request_params (l : list (cstr * param_value)) : json :=
  foldl (λ o x, json_object_object_add o x.1 (new_value x.2)) json_object_new_object l.
(** The text is copied to the buffer of the object. *)
Definition put_request_text (main_object : json) : CM Z :=
  let s := json_object_to_json_string main_object in
  fits MAX_SEND_BUFFER_SIZE s;; modify (set_send_buffer s);; mret 0.
Definition prepare_json_request (method : cstr) (ID : Z) : CM Z :=
  put_request_text (json_object_object_add (request_head method) (str "id") (json_object_new_int ID)).
Definition prepare_json_request_with (method : cstr) (ID : Z) (l : list (cstr * param_value)) : CM Z :=
  let o := json_object_object_add (request_head method) (str "params") (request_params l) in
  put_request_text (json_object_object_add o (str "id") (json_object_new_int ID)).

(** ** How answers are read *)
Inductive out := OInt (name : cstr) | OJsonInt (name : cstr) | OText (name : cstr) (size : Z) | ODouble (name : cstr) | OFloat (name : cstr).
Inductive got := GInt (z : Z) | GText (s : cstr) | GDouble (d : double).
Definition answer : Type := RPC_SRV_RESULT * list got.
(** The text of the result and the values; [None] is -1. *)
Definition answer_found : Type := option (cstr * list got).
Definition out_name (o : out) : cstr := match o with OInt n | OJsonInt n | OText n _ | ODouble n | OFloat n => n end.
Definition take_out {S} (o : out) (v : json) (t : cstr) : M S got :=
  match o with
  | OInt _ => mret (GInt (atoi long_bits t))
  | OJsonInt _ => mret (GInt (json_object_get_int v))
  | OText _ size => fits size t;; mret (GText t)
  | ODouble _ => mret (GDouble (atof t))
  | OFloat _ => mret (GDouble (to_float (atof t)))
  end.
Fixpoint find_outs {S} (new_obj1 : json) (l : list out) : M S (list got) :=
  match l with
  | [] => mret []
  | o :: l =>
      let v := json_object_object_get new_obj1 (out_name o) in
      match json_object_get_string v with
      | None => mret []
      | Some t => g ← take_out o v t; gs ← find_outs new_obj1 l; mret (g :: gs)
      end
  end.
Definition find_json_result_with {S} (json_string : cstr) (l : list out) : M S answer_found :=
  match json_tokener_parse json_string with
  | JNull => mret None
  | new_obj =>
      let new_obj1 := json_object_object_get new_obj (str "result") in
      match json_object_get_string new_obj1 with
      | None => mret None
      | Some _ =>
          r ← member_text_in 255 new_obj1 (str "return");
          match r with None => mret None | Some t => gs ← find_outs new_obj1 l; mret (Some (t, gs)) end
      end
  end.
Definition find_json_result (json_string : cstr) : CM answer_found := find_json_result_with json_string [].

(** ** How a call goes *)
Definition next_req_id : CM Z := i ← gets c_req_id; modify (set_req_id (int32 (i + 1)));; mret i.
Definition call (timeout_ms : Z) (prepare : Z → CM Z) (find : cstr → CM answer_found) : CM answer :=
  id ← next_req_id;
  prepare id;;
  s ← gets send_buffer; send_data s;;
  receive_data_blocking timeout_ms;;
  b ← gets recv_buffer;
  r ← find (c_text b);
  match r with
  | None => mret (RPC_SRV_RESULT_UNKNOWN, [])
  | Some (t, gs) => c ← lift (convert_string_to_server_result (string_of_list_ascii t)); mret (c, gs)
  end.
(** A call with a text that is there before the answer is read. *)
Definition with_text (init : cstr) (m : CM answer) : CM (RPC_SRV_RESULT * cstr) :=
  '(r, gs) ← m; mret (r, match gs with GText t :: _ => t | _ => init end).
Definition send_raw_data_and_receive_resp (tx_buffer : cstr) : CM cstr :=
  b ← gets recv_buffer; modify (set_recv_buffer (<[0%nat := NUL]> b));;
  send_data tx_buffer;;
  receive_data_blocking 4000;;
  b ← gets recv_buffer; modify (set_recv_buffer (<[Z.to_nat (MAX_RECV_BUFFER_SIZE - 1) := NUL]> b));;
  b ← gets recv_buffer; mret (c_text b).

(** ** Requests *)
Definition prepare_json_request_s (method : cstr) (ID : Z) (name value : cstr) : CM Z :=
  prepare_json_request_with method ID [(name, VText value)].
Definition prepare_json_request_i (method : cstr) (ID : Z) (name : cstr) (value : Z) : CM Z :=
  prepare_json_request_with method ID [(name, VInt value)].
Definition prepare_json_request_ii_end (method : cstr) (ID : Z) (name1 : cstr) (value1 : Z) (name2 : cstr) (value2 : Z) : CM Z :=
  prepare_json_request_with method ID [(name1, VInt value1); (name2, VInt value2)].
Definition prepare_json_request_iii_end (method : cstr) (ID : Z) (name1 : cstr) (value1 : Z) (name2 : cstr) (value2 : Z) (name3 : cstr) (value3 : Z)
    : CM Z :=
  prepare_json_request_with method ID [(name1, VInt value1); (name2, VInt value2); (name3, VInt value3)].
Definition prepare_json_request_is_end (method : cstr) (ID : Z) (name1 : cstr) (value1 : Z) (name2 value2 : cstr) : CM Z :=
  prepare_json_request_with method ID [(name1, VInt value1); (name2, VText value2)].
Definition prepare_json_request_i_end (method : cstr) (ID : Z) (name : cstr) (value : Z) : CM Z :=
  prepare_json_request_with method ID [(name, VInt value)].
Definition prepare_json_request_ii (method : cstr) (ID : Z) (name1 : cstr) (value1 : Z) (name2 : cstr) (value2 : Z) : CM Z :=
  prepare_json_request_with method ID [(name1, VInt value1); (name2, VInt value2)].
Definition prepare_json_request_is (method : cstr) (ID : Z) (name1 : cstr) (value1 : Z) (name2 value2 : cstr) : CM Z :=
  prepare_json_request_with method ID [(name1, VInt value1); (name2, VText value2)].
Definition prepare_json_request_ss (method : cstr) (ID : Z) (name1 value1 name2 value2 : cstr) : CM Z :=
  prepare_json_request_with method ID [(name1, VText value1); (name2, VText value2)].
Definition prepare_json_request_si (method : cstr) (ID : Z) (name1 value1 name2 : cstr) (value2 : Z) : CM Z :=
  prepare_json_request_with method ID [(name1, VText value1); (name2, VInt value2)].
Definition prepare_json_request_sss (method : cstr) (ID : Z) (name1 value1 name2 value2 name3 value3 : cstr) : CM Z :=
  prepare_json_request_with method ID [(name1, VText value1); (name2, VText value2); (name3, VText value3)].
Definition prepare_json_request_ssss (method : cstr) (ID : Z) (name1 value1 name2 value2 name3 value3 name4 value4 : cstr) : CM Z :=
  prepare_json_request_with method ID [(name1, VText value1); (name2, VText value2); (name3, VText value3); (name4, VText value4)].
Definition prepare_json_request_sssssssss (method : cstr) (ID : Z)
    (name1 value1 name2 value2 name3 value3 name4 value4 name5 value5 name6 value6 name7 value7 name8 value8 name9 value9 : cstr) : CM Z :=
  prepare_json_request_with method ID [(name1, VText value1); (name2, VText value2); (name3, VText value3); (name4, VText value4);
    (name5, VText value5); (name6, VText value6); (name7, VText value7); (name8, VText value8); (name9, VText value9)].
Definition prepare_json_request_siii (method : cstr) (ID : Z) (name1 value1 name2 : cstr) (value2 : Z) (name3 : cstr) (value3 : Z) (name4 : cstr)
    (value4 : Z) : CM Z :=
  prepare_json_request_with method ID [(name1, VText value1); (name2, VInt value2); (name3, VInt value3); (name4, VInt value4)].
Definition prepare_json_request_ssiii (method : cstr) (ID : Z) (name1 value1 name2 value2 name3 : cstr) (value3 : Z) (name4 : cstr) (value4 : Z)
    (name5 : cstr) (value5 : Z) : CM Z :=
  prepare_json_request_with method ID [(name1, VText value1); (name2, VText value2); (name3, VInt value3); (name4, VInt value4);
    (name5, VInt value5)].
Definition prepare_json_request_uuu (method : cstr) (ID : Z) (name1 : cstr) (value1 : Z) (name2 : cstr) (value2 : Z) (name3 : cstr) (value3 : Z)
    : CM Z :=
  prepare_json_request_with method ID [(name1, VULong value1); (name2, VULong value2); (name3, VULong value3)].
Definition prepare_json_request_sssss (method : cstr) (ID : Z) (name1 value1 name2 value2 name3 value3 name4 value4 name5 value5 : cstr) : CM Z :=
  prepare_json_request_with method ID [(name1, VText value1); (name2, VText value2); (name3, VText value3); (name4, VText value4);
    (name5, VText value5)].
Definition prepare_json_request_three_int_two_string (method : cstr) (ID : Z) (name1 : cstr) (value1 : Z) (name2 : cstr) (value2 : Z) (name3 : cstr)
    (value3 : Z) (name4 value4 name5 value5 : cstr) : CM Z :=
  prepare_json_request_with method ID [(name1, VInt value1); (name2, VInt value2); (name3, VInt value3); (name4, VText value4);
    (name5, VText value5)].
Definition prepare_json_request_four_int (method : cstr) (ID : Z) (name1 : cstr) (value1 : Z) (name2 : cstr) (value2 : Z) (name3 : cstr) (value3 : Z)
    (name4 : cstr) (value4 : Z) : CM Z :=
  prepare_json_request_with method ID [(name1, VInt value1); (name2, VInt value2); (name3, VInt value3); (name4, VInt value4)].
Definition prepare_json_request_four_int_two_string (method : cstr) (ID : Z) (name1 : cstr) (value1 : Z) (name2 : cstr) (value2 : Z) (name3 : cstr)
    (value3 : Z) (name4 : cstr) (value4 : Z) (name5 value5 name6 value6 : cstr) : CM Z :=
  prepare_json_request_with method ID [(name1, VInt value1); (name2, VInt value2); (name3, VInt value3); (name4, VInt value4); (name5, VText value5);
    (name6, VText value6)].
Definition prepare_json_request_two_int_two_string (method : cstr) (ID : Z) (name1 : cstr) (value1 : Z) (name2 : cstr) (value2 : Z)
    (name3 value3 name4 value4 : cstr) : CM Z :=
  prepare_json_request_with method ID [(name1, VInt value1); (name2, VInt value2); (name3, VText value3); (name4, VText value4)].
Definition prepare_json_request_two_int_one_double_one_string (method : cstr) (ID : Z) (name1 : cstr) (value1 : Z) (name2 : cstr) (value2 : double)
    (name3 value3 name4 : cstr) (value4 : Z) : CM Z :=
  prepare_json_request_with method ID [(name1, VInt value1); (name2, VDouble value2); (name3, VText value3); (name4, VInt value4)].
Definition prepare_json_request_seven_int_param (method : cstr) (ID : Z) (name1 : cstr) (value1 : Z) (name2 : cstr) (value2 : Z) (name3 : cstr)
    (value3 : Z) (name4 : cstr) (value4 : Z) (name5 : cstr) (value5 : Z) (name6 : cstr) (value6 : Z) (name7 : cstr) (value7 : Z) : CM Z :=
  prepare_json_request_with method ID [(name1, VInt value1); (name2, VInt value2); (name3, VInt value3); (name4, VInt value4); (name5, VInt value5);
    (name6, VInt value6); (name7, VInt value7)].
Definition prepare_json_request_single_int_nine_double_param (method : cstr) (ID : Z) (name1 : cstr) (value1 : Z) (name2 : cstr) (value2 : double)
    (name3 : cstr) (value3 : double) (name4 : cstr) (value4 : double) (name5 : cstr) (value5 : double) (name6 : cstr) (value6 : double) (name7 : cstr)
    (value7 : double) (name8 : cstr) (value8 : double) (name9 : cstr) (value9 : double) (name10 : cstr) (value10 : double) : CM Z :=
  prepare_json_request_with method ID [(name1, VInt value1); (name2, VDouble value2); (name3, VDouble value3); (name4, VDouble value4);
    (name5, VDouble value5); (name6, VDouble value6); (name7, VDouble value7); (name8, VDouble value8); (name9, VDouble value9);
    (name10, VDouble value10)].
Definition prepare_json_request_three_double (method : cstr) (ID : Z) (name1 : cstr) (value1 : double) (name2 : cstr) (value2 : double) (name3 : cstr)
    (value3 : double) : CM Z :=
  prepare_json_request_with method ID [(name1, VDouble value1); (name2, VDouble value2); (name3, VDouble value3)].
Definition prepare_json_request_three_string_nine_double_param (method : cstr) (ID : Z) (name1 value1 name2 value2 name3 value3 name4 : cstr)
    (value4 : double) (name5 : cstr) (value5 : double) (name6 : cstr) (value6 : double) (name7 : cstr) (value7 : double) (name8 : cstr)
    (value8 : double) (name9 : cstr) (value9 : double) (name10 : cstr) (value10 : double) (name11 : cstr) (value11 : double) (name12 : cstr)
    (value12 : double) : CM Z :=
  prepare_json_request_with method ID [(name1, VText value1); (name2, VText value2); (name3, VText value3); (name4, VDouble value4);
    (name5, VDouble value5); (name6, VDouble value6); (name7, VDouble value7); (name8, VDouble value8); (name9, VDouble value9);
    (name10, VDouble value10); (name11, VDouble value11); (name12, VDouble value12)].
Definition prepare_json_request_one_string_three_int (method : cstr) (ID : Z) (name1 value1 name2 : cstr) (value2 : Z) (name3 : cstr) (value3 : Z)
    (name4 : cstr) (value4 : Z) : CM Z :=
  prepare_json_request_with method ID [(name1, VText value1); (name2, VInt value2); (name3, VInt value3); (name4, VInt value4)].

(** ** Results *)
Definition find_json_result_and_single_string_param (json_string : cstr) (param_name : cstr) (size_param_value : Z) : CM answer_found :=
  find_json_result_with json_string [OText param_name size_param_value].
Definition find_json_result_and_single_string_param_int (json_string : cstr) (param_name : cstr) : CM answer_found :=
  find_json_result_with json_string [OJsonInt param_name].
Definition find_json_result_and_four_int_param (json_string : cstr) (para1 para2 para3 para4 : cstr) : CM answer_found :=
  find_json_result_with json_string [OInt para1; OInt para2; OInt para3; OInt para4].
Definition find_json_result_and_three_int_param (json_string : cstr) : CM answer_found :=
  find_json_result_with json_string [OInt (str "blk_red"); OInt (str "blk_green"); OInt (str "blk_blue")].
Definition find_json_result_and_three_string_nine_double_param (json_string : cstr) (size_para1val size_para2val size_para3val : Z)
    : CM answer_found :=
  find_json_result_with json_string [OText (str "timestamp") size_para1val; OText (str "proddata") size_para2val;
    OText (str "processVer") size_para3val; ODouble (str "red_X"); ODouble (str "red_Y"); ODouble (str "red_Z"); ODouble (str "green_X");
    ODouble (str "green_Y"); ODouble (str "green_Z"); ODouble (str "blue_X"); ODouble (str "blue_Y"); ODouble (str "blue_Z")].
Definition find_json_result_and_three_double_delta_param (json_string : cstr) (para1 para2 para3 : cstr) : CM answer_found :=
  find_json_result_with json_string [ODouble para1; ODouble para2; ODouble para3].
Definition find_json_result_and_three_double_param (json_string : cstr) : CM answer_found :=
  find_json_result_with json_string [ODouble (str "X"); ODouble (str "Y"); ODouble (str "Z")].
Definition find_json_result_and_nine_double_param (json_string : cstr) : CM answer_found :=
  find_json_result_with json_string [ODouble (str "red_X"); ODouble (str "red_Y"); ODouble (str "red_Z"); ODouble (str "green_X");
    ODouble (str "green_Y"); ODouble (str "green_Z"); ODouble (str "blue_X"); ODouble (str "blue_Y"); ODouble (str "blue_Z")].
Definition find_json_result_and_seven_int_param (json_string : cstr) (para1 para2 para3 para4 para5 para6 para7 : cstr) : CM answer_found :=
  find_json_result_with json_string [OInt para1; OInt para2; OInt para3; OInt para4; OInt para5; OInt para6; OInt para7].
Definition find_json_result_and_two_int_param (json_string : cstr) (para1 para2 : cstr) : CM answer_found :=
  find_json_result_with json_string [OInt para1; OInt para2].
Definition find_json_result_and_six_int_param (json_string : cstr) : CM answer_found :=
  find_json_result_with json_string [OInt (str "red_0"); OInt (str "green_0"); OInt (str "blue_0"); OInt (str "red_1"); OInt (str "green_1");
    OInt (str "blue_1")].
Definition find_json_result_and_two_string_eight_int_param (json_string : cstr) (size_para1val size_para2val : Z) : CM answer_found :=
  find_json_result_with json_string [OText (str "cs_resp0") size_para1val; OText (str "cs_resp1") size_para2val; OInt (str "red_0");
    OInt (str "green_0"); OInt (str "blue_0"); OInt (str "white_0"); OInt (str "red_1"); OInt (str "green_1"); OInt (str "blue_1");
    OInt (str "white_1")].
Definition find_json_result_and_two_int_two_string_param (json_string : cstr) (size_para3val size_para4val : Z) : CM answer_found :=
  find_json_result_with json_string [OInt (str "gain"); OInt (str "prescale"); OText (str "period") size_para3val;
    OText (str "pulses") size_para4val].
Definition find_json_result_and_four_int_one_string_param (json_string : cstr) (para1 para2 para3 para4 para5 : cstr) (size_para5val : Z)
    : CM answer_found :=
  find_json_result_with json_string [OInt para1; OInt para2; OInt para3; OInt para4; OText para5 size_para5val].
Definition find_json_result_and_four_int_two_string_param (json_string : cstr) (para1 para2 para3 para4 para5 : cstr) (size_para5val : Z)
    (para6 : cstr) (size_para6val : Z) : CM answer_found :=
  find_json_result_with json_string [OInt para1; OInt para2; OInt para3; OInt para4; OText para5 size_para5val; OText para6 size_para6val].
Definition find_json_result_and_two_string_param (json_string : cstr) (para1 : cstr) (size_para1val : Z) (para2 : cstr) (size_para2val : Z)
    : CM answer_found :=
  find_json_result_with json_string [OText para1 size_para1val; OText para2 size_para2val].
Definition find_json_result_and_two_int_three_double_one_string_param (json_string : cstr) (size_para3val : Z) : CM answer_found :=
  find_json_result_with json_string [OInt (str "colortemp"); ODouble (str "locusOffset"); OText (str "gammaFactor") size_para3val;
    OInt (str "brightness"); ODouble (str "target_x"); ODouble (str "target_y")].
Definition find_json_result_and_two_int_two_double_one_string_param (json_string : cstr) (para1 para2 para3 para4 : cstr) : CM answer_found :=
  find_json_result_with json_string [OInt para1; OInt para2; ODouble para3; ODouble para4].
Definition find_json_result_and_two_int_two_float_one_string_param (json_string : cstr) (para1 para2 para3 para4 : cstr) : CM answer_found :=
  find_json_result_with json_string [OInt para1; OInt para2; OFloat para3; OFloat para4].
Definition find_json_result_one_string_three_int_param (json_string : cstr) (para1 : cstr) (size_para1val : Z) (para2 para3 para4 : cstr)
    : CM answer_found :=
  find_json_result_with json_string [OText para1 size_para1val; OInt para2; OInt para3; OInt para4].
Definition find_json_result_one_string_one_int_param (json_string : cstr) (para1 : cstr) (size_para1val : Z) (para2 : cstr) : CM answer_found :=
  find_json_result_with json_string [OText para1 size_para1val; OInt para2].
Definition find_json_result_and_five_string_param_statusErrorInfo (json_string : cstr)
    (size_para1val size_para2val size_para3val size_para4val size_para5val : Z) : CM answer_found :=
  find_json_result_with json_string [OText (str "colorOutOfTolerance") size_para1val; OText (str "colorNotReachable") size_para2val;
    OText (str "brightnessNotReachable") size_para3val; OText (str "spectralCalibMissing") size_para4val; OText (str "sensorState") size_para5val].
Definition find_json_result_and_four_string_param (json_string : cstr) (para1 : cstr) (size_para1val : Z) (para2 : cstr) (size_para2val : Z)
    (para3 : cstr) (size_para3val : Z) (para4 : cstr) (size_para4val : Z) : CM answer_found :=
  find_json_result_with json_string [OText para1 size_para1val; OText para2 size_para2val; OText para3 size_para3val; OText para4 size_para4val].
Definition find_json_result_and_three_string_param (json_string : cstr) (para1 : cstr) (size_para1val : Z) (para2 : cstr) (size_para2val : Z)
    (para3 : cstr) (size_para3val : Z) : CM answer_found :=
  find_json_result_with json_string [OText para1 size_para1val; OText para2 size_para2val; OText para3 size_para3val].
Definition find_json_result_and_six_int_one_string_param (json_string : cstr) (para1 para2 para3 para4 para5 para6 : cstr) : CM answer_found :=
  find_json_result_with json_string [OInt para1; OInt para2; OInt para3; OInt para4; OInt para5; OInt para6].

(** ** Calls *)
Definition set_integer_type (method_name method_param_name : cstr) (method_param_value : Z) : CM answer :=
  call 4000 (λ id, prepare_json_request_i method_name id method_param_name method_param_value) find_json_result.
Definition set_integer_type_s (method_name method_param_name method_param_value : cstr) : CM answer :=
  call 4000 (λ id, prepare_json_request_s method_name id method_param_name method_param_value) find_json_result.
Definition get_integer_type (method_name param_name : cstr) (size_param_value : Z) : CM (RPC_SRV_RESULT * cstr) :=
  with_text (str "NotFound") (call 4000 (λ id, prepare_json_request method_name id) (λ s, find_json_result_and_single_string_param s param_name
    size_param_value)).
Definition set_integer_type_with_addr_para (method_name addr_para_name : cstr) (addr_para_value : Z) (method_param_name : cstr)
    (method_param_value : Z) : CM answer :=
  call 4000 (λ id, prepare_json_request_ii_end method_name id addr_para_name addr_para_value method_param_name method_param_value) find_json_result.
Definition get_integer_type_with_addr_para (method_name addr_para_name : cstr) (addr_para_value : Z) (resp_param_name : cstr) (size_result_string : Z)
    : CM (RPC_SRV_RESULT * cstr) :=
  with_text (str "unknown") (call 4000 (λ id, prepare_json_request_i_end method_name id addr_para_name addr_para_value)
    (λ s, find_json_result_and_single_string_param s resp_param_name size_result_string)).
Definition set_three_int_type (method_name int1Nm : cstr) (int1Vl : Z) (int2Nm : cstr) (int2Vl : Z) (int3Nm : cstr) (int3Vl : Z) : CM answer :=
  call 4000 (λ id, prepare_json_request_iii_end method_name id int1Nm int1Vl int2Nm int2Vl int3Nm int3Vl) find_json_result.
Definition set_three_int_get_one_int (method_name int1Nm : cstr) (int1Vl : Z) (int2Nm : cstr) (int2Vl : Z) (int3Nm : cstr) (int3Vl : Z)
    (int4Nm : cstr) : CM answer :=
  call 4000 (λ id, prepare_json_request_iii_end method_name id int1Nm int1Vl int2Nm int2Vl int3Nm int3Vl)
    (λ s, find_json_result_and_single_string_param_int s int4Nm).
Definition set_enum_type_with_addr_para (method_name addr_para_name : cstr) (addr_para_value : Z) (method_param_name method_param_value : cstr)
    : CM answer :=
  call 4000 (λ id, prepare_json_request_is_end method_name id addr_para_name addr_para_value method_param_name method_param_value) find_json_result.
Definition get_enum_type_with_addr_para (method_name addr_para_name : cstr) (addr_para_value : Z) (resp_param_name : cstr) (size_result_string : Z)
    : CM (RPC_SRV_RESULT * cstr) :=
  with_text (str "unknown") (call 4000 (λ id, prepare_json_request_i_end method_name id addr_para_name addr_para_value)
    (λ s, find_json_result_and_single_string_param s resp_param_name size_result_string)).
Definition get_string_type_with_string_para (method_name str_para_name str_para_value : cstr) (res_para_name : option cstr) (size_result_string : Z)
    : CM (RPC_SRV_RESULT * cstr) :=
  with_text (str "unknown") (call 4000 (λ id, prepare_json_request_s method_name id str_para_name str_para_value)
    (λ s, find_json_result_and_single_string_param s (default str_para_name res_para_name) size_result_string)).
Definition get_int_type_with_string_para (method_name str_para_name : cstr) (str_para_value : Z) (res_para_name : option cstr)
    (size_result_string : Z) : CM (RPC_SRV_RESULT * cstr) :=
  with_text (str "unknown") (call 4000 (λ id, prepare_json_request_i method_name id str_para_name str_para_value)
    (λ s, find_json_result_and_single_string_param s (default str_para_name res_para_name) size_result_string)).
Definition get_string_type_with_string_para_with_addr_para (method_name addr_para_name : cstr) (addr_para_value : Z)
    (str_para_name str_para_value : cstr) (res_para_name : option cstr) (size_result_string : Z) : CM (RPC_SRV_RESULT * cstr) :=
  with_text (str "unknown") (call 4000 (λ id, prepare_json_request_is method_name id addr_para_name addr_para_value str_para_name str_para_value)
    (λ s, find_json_result_and_single_string_param s (default str_para_name res_para_name) size_result_string)).
Definition set_double_string_type (method_name first_param_name first_param_value second_param_name second_param_value : cstr) : CM answer :=
  call 4000 (λ id, prepare_json_request_ss method_name id first_param_name first_param_value second_param_name second_param_value) find_json_result.
Definition set_tripple_string_type
    (method_name first_param_name first_param_value second_param_name second_param_value third_param_name third_param_value : cstr) : CM answer :=
  call 4000 (λ id, prepare_json_request_sss method_name id first_param_name first_param_value second_param_name second_param_value third_param_name
    third_param_value) find_json_result.
Definition set_four_string_type (method_name para1 para1val para2 para2val para3 para3val para4 para4val : cstr) : CM answer :=
  call 4000 (λ id, prepare_json_request_ssss method_name id para1 para1val para2 para2val para3 para3val para4 para4val) find_json_result.
Definition set_three_string_type (method_name para1 para1val para2 para2val para3 para3val : cstr) : CM answer :=
  call 4000 (λ id, prepare_json_request_sss method_name id para1 para1val para2 para2val para3 para3val) find_json_result.
Definition set_tripple_string_get_single_string_type
    (method_name first_param_name first_param_value second_param_name second_param_value third_param_name third_param_value fourth_param_name : cstr)
    (size_fourth_param_value : Z) : CM answer :=
  call 4000 (λ id, prepare_json_request_sss method_name id first_param_name first_param_value second_param_name second_param_value third_param_name
    third_param_value) (λ s, find_json_result_and_single_string_param s fourth_param_name size_fourth_param_value).
Definition set_single_string_triple_int_type (method_name first_param_name first_param_value second_param_name : cstr) (second_param_value : Z)
    (third_param_name : cstr) (third_param_value : Z) (fourth_param_name : cstr) (fourth_param_value : Z) : CM answer :=
  call 4000 (λ id, prepare_json_request_siii method_name id first_param_name first_param_value second_param_name second_param_value third_param_name
    third_param_value fourth_param_name fourth_param_value) find_json_result.
Definition set_single_string_single_int_type (method_name first_param_name first_param_value second_param_name : cstr) (second_param_value : Z)
    : CM answer :=
  call 4000 (λ id, prepare_json_request_si method_name id first_param_name first_param_value second_param_name second_param_value) find_json_result.
Definition set_double_string_triple_int_type
    (method_name first_param_name first_param_value second_param_name second_param_value third_param_name : cstr) (third_param_value : Z)
    (fourth_param_name : cstr) (fourth_param_value : Z) (fifth_param_name : cstr) (fifth_param_value : Z) : CM answer :=
  call 4000 (λ id, prepare_json_request_ssiii method_name id first_param_name first_param_value second_param_name second_param_value third_param_name
    third_param_value fourth_param_name fourth_param_value fifth_param_name fifth_param_value) find_json_result.
Definition set_four_int_type (method_name first_name : cstr) (first_value : Z) (second_name : cstr) (second_value : Z) (third_name : cstr)
    (third_value : Z) (fourth_name : cstr) (fourth_value : Z) : CM answer :=
  call 4000 (λ id, prepare_json_request_four_int method_name id first_name first_value second_name second_value third_name third_value fourth_name
    fourth_value) find_json_result.
Definition get_four_int_type (method_name para1 para2 para3 para4 : cstr) : CM answer :=
  call 4000 (λ id, prepare_json_request method_name id) (λ s, find_json_result_and_four_int_param s para1 para2 para3 para4).
Definition get_five_string_type_status_error_info (get_rpc_name : cstr)
    (size_first_arg_param_value size_second_arg_param_value size_third_arg_param_value size_fourth_arg_param_value size_fifth_arg_param_value : Z)
    : CM answer :=
  call 8000 (λ id, prepare_json_request get_rpc_name id) (λ s, find_json_result_and_five_string_param_statusErrorInfo s size_first_arg_param_value
    size_second_arg_param_value size_third_arg_param_value size_fourth_arg_param_value size_fifth_arg_param_value).
Definition set_four_int_two_string_type (method_name first_name : cstr) (first_value : Z) (second_name : cstr) (second_value : Z) (third_name : cstr)
    (third_value : Z) (fourth_name : cstr) (fourth_value : Z) (fifth_name fifth_value sixth_name sixth_value : cstr) : CM answer :=
  call 4000 (λ id, prepare_json_request_four_int_two_string method_name id first_name first_value second_name second_value third_name third_value
    fourth_name fourth_value fifth_name fifth_value sixth_name sixth_value) find_json_result.
Definition set_single_string_with_string_para (method_name para1 para1val para2 para2val : cstr) : CM answer :=
  call 4000 (λ id, prepare_json_request_ss method_name id para1 para1val para2 para2val) find_json_result.
Definition set_single_string_with_five_string_para (method_name para1 para1val para2 para2val para3 para3val para4 para4val para5 para5val : cstr)
    : CM answer :=
  call 4000 (λ id, prepare_json_request_sssss method_name id para1 para1val para2 para2val para3 para3val para4 para4val para5 para5val)
    find_json_result.
Definition set_single_string_with_nine_string_para
    (method_name para1 para1val para2 para2val para3 para3val para4 para4val para5 para5val para6 para6val para7 para7val para8 para8val para9 para9val : cstr)
    : CM answer :=
  call 4000 (λ id, prepare_json_request_sssssssss method_name id para1 para1val para2 para2val para3 para3val para4 para4val para5 para5val para6
    para6val para7 para7val para8 para8val para9 para9val) find_json_result.
Definition get_four_int_one_string_with_string_para (method_name para6 para6val para1 para2 para3 para4 para5 : cstr) (size_para5val : Z)
    : CM answer :=
  call 4000 (λ id, prepare_json_request_s method_name id para6 para6val) (λ s, find_json_result_and_four_int_one_string_param s para1 para2 para3
    para4 para5 size_para5val).
Definition get_four_int_two_string_with_string_para (method_name para7 para7val para1 para2 para3 para4 para5 : cstr) (size_para5val : Z)
    (para6 : cstr) (size_para6val : Z) : CM answer :=
  call 4000 (λ id, prepare_json_request_s method_name id para7 para7val) (λ s, find_json_result_and_four_int_two_string_param s para1 para2 para3
    para4 para5 size_para5val para6 size_para6val).
Definition get_single_string_with_string_para (method_name para1 para1val para2 : cstr) (size_para2val : Z) : CM answer :=
  call 4000 (λ id, prepare_json_request_s method_name id para1 para1val) (λ s, find_json_result_and_single_string_param s para2 size_para2val).
Definition get_two_string_with_string_para (method_name para1 : cstr) (size_para1val : Z) (para2 : cstr) (size_para2val : Z) : CM answer :=
  call 4000 (λ id, prepare_json_request method_name id) (λ s, find_json_result_and_two_string_param s para1 size_para1val para2 size_para2val).
Definition get_three_string_with_string_para (method_name para1 : cstr) (size_para1val : Z) (para2 : cstr) (size_para2val : Z) (para3 : cstr)
    (size_para3val : Z) : CM answer :=
  call 4000 (λ id, prepare_json_request method_name id) (λ s, find_json_result_and_three_string_param s para1 size_para1val para2 size_para2val para3
    size_para3val).
Definition get_two_int_three_double_one_string_type (method_name : cstr) (size_para3val : Z) : CM answer :=
  call 4000 (λ id, prepare_json_request method_name id) (λ s, find_json_result_and_two_int_three_double_one_string_param s size_para3val).
Definition get_two_int_two_float_one_string_with_string_para (method_name para1 para1val para2 para3 para4 para5 : cstr) : CM answer :=
  call 4000 (λ id, prepare_json_request_s method_name id para1 para1val) (λ s, find_json_result_and_two_int_two_double_one_string_param s para2 para3
    para4 para5).
Definition get_two_int_two_float_one_string_with_string_para_2 (method_name para1 para1val para2 para3 para4 para5 : cstr) : CM answer :=
  call 4000 (λ id, prepare_json_request_s method_name id para1 para1val) (λ s, find_json_result_and_two_int_two_float_one_string_param s para2 para3
    para4 para5).
Definition get_three_int_type_with_integer_para (get_rpc_name first_arg_param_name : cstr) (first_arg_param_int_value : Z) : CM answer :=
  call 8000 (λ id, prepare_json_request_i get_rpc_name id first_arg_param_name first_arg_param_int_value) (λ s, find_json_result_and_three_int_param
    s).
Definition get_two_string_eight_int_type_with_three_int_two_string_para (get_rpc_name first_arg_param_name : cstr) (first_arg_param_int_value : Z)
    (second_arg_param_name : cstr) (second_arg_param_int_value : Z) (third_arg_param_name : cstr) (third_arg_param_int_value : Z)
    (fourth_arg_param_name fourth_arg_param_value fifth_arg_param_name fifth_arg_param_value : cstr)
    (size_first_arg_param_value size_second_arg_param_value : Z) : CM answer :=
  call 8000 (λ id, prepare_json_request_three_int_two_string get_rpc_name id first_arg_param_name first_arg_param_int_value second_arg_param_name
    second_arg_param_int_value third_arg_param_name third_arg_param_int_value fourth_arg_param_name fourth_arg_param_value fifth_arg_param_name
    fifth_arg_param_value) (λ s, find_json_result_and_two_string_eight_int_param s size_first_arg_param_value size_second_arg_param_value).
Definition get_two_int_type_max_min_brightness (get_rpc_name : cstr) : CM answer :=
  call 8000 (λ id, prepare_json_request get_rpc_name id) (λ s, find_json_result_and_two_int_param s (str "max_brightness") (str "min_brightness")).
Definition get_six_int_type (get_rpc_name : cstr) : CM answer :=
  call 8000 (λ id, prepare_json_request get_rpc_name id) (λ s, find_json_result_and_six_int_param s).
Definition get_seven_int_type_native_params (get_rpc_name : cstr) : CM answer :=
  call 8000 (λ id, prepare_json_request get_rpc_name id) (λ s, find_json_result_and_seven_int_param s (str "backlight") (str "rOffset")
    (str "gOffset") (str "bOffset") (str "rGain") (str "gGain") (str "bGain")).
Definition get_three_double_type (get_rpc_name first_arg_param_name second_arg_param_name third_arg_param_name : cstr) : CM answer :=
  call 8000 (λ id, prepare_json_request get_rpc_name id) (λ s, find_json_result_and_three_double_delta_param s first_arg_param_name
    second_arg_param_name third_arg_param_name).
Definition get_three_double_type_with_string_para (get_rpc_name first_arg_param_name first_arg_param_value : cstr) : CM answer :=
  call 8000 (λ id, prepare_json_request_s get_rpc_name id first_arg_param_name first_arg_param_value) (λ s, find_json_result_and_three_double_param
    s).
Definition get_nine_double_type (get_rpc_name : cstr) : CM answer :=
  call 8000 (λ id, prepare_json_request get_rpc_name id) (λ s, find_json_result_and_nine_double_param s).
Definition get_three_string_nine_double_type (get_rpc_name : cstr)
    (size_first_arg_param_value size_second_arg_param_value size_third_arg_param_value : Z) : CM answer :=
  call 8000 (λ id, prepare_json_request get_rpc_name id) (λ s, find_json_result_and_three_string_nine_double_param s size_first_arg_param_value
    size_second_arg_param_value size_third_arg_param_value).
Definition set_three_string_nine_double_type
    (set_rpc_name first_arg_param_name first_arg_param_value second_arg_param_name second_arg_param_value third_arg_param_name third_arg_param_value fourth_arg_param_name : cstr)
    (fourth_arg_param_double_value : double) (fifth_arg_param_name : cstr) (fifth_arg_param_double_value : double) (sixth_arg_param_name : cstr)
    (sixth_arg_param_double_value : double) (seventh_arg_param_name : cstr) (seventh_arg_param_double_value : double) (eighth_arg_param_name : cstr)
    (eighth_arg_param_double_value : double) (ninth_arg_param_name : cstr) (ninth_arg_param_double_value : double) (tenth_arg_param_name : cstr)
    (tenth_arg_param_double_value : double) (eleventh_arg_param_name : cstr) (eleventh_arg_param_double_value : double)
    (twelfth_arg_param_name : cstr) (twelfth_arg_param_double_value : double) : CM answer :=
  call 8000 (λ id, prepare_json_request_three_string_nine_double_param set_rpc_name id first_arg_param_name first_arg_param_value
    second_arg_param_name second_arg_param_value third_arg_param_name third_arg_param_value fourth_arg_param_name fourth_arg_param_double_value
    fifth_arg_param_name fifth_arg_param_double_value sixth_arg_param_name sixth_arg_param_double_value seventh_arg_param_name
    seventh_arg_param_double_value eighth_arg_param_name eighth_arg_param_double_value ninth_arg_param_name ninth_arg_param_double_value
    tenth_arg_param_name tenth_arg_param_double_value eleventh_arg_param_name eleventh_arg_param_double_value twelfth_arg_param_name
    twelfth_arg_param_double_value) find_json_result.
Definition set_seven_int_type (set_rpc_name first_arg_param_name : cstr) (first_arg_param_int_value : Z) (second_arg_param_name : cstr)
    (second_arg_param_int_value : Z) (third_arg_param_name : cstr) (third_arg_param_int_value : Z) (fourth_arg_param_name : cstr)
    (fourth_arg_param_int_value : Z) (fifth_arg_param_name : cstr) (fifth_arg_param_int_value : Z) (sixth_arg_param_name : cstr)
    (sixth_arg_param_int_value : Z) (seventh_arg_param_name : cstr) (seventh_arg_param_int_value : Z) : CM answer :=
  call 8000 (λ id, prepare_json_request_seven_int_param set_rpc_name id first_arg_param_name first_arg_param_int_value second_arg_param_name
    second_arg_param_int_value third_arg_param_name third_arg_param_int_value fourth_arg_param_name fourth_arg_param_int_value fifth_arg_param_name
    fifth_arg_param_int_value sixth_arg_param_name sixth_arg_param_int_value seventh_arg_param_name seventh_arg_param_int_value) find_json_result.
Definition set_single_int_nine_double_type (set_rpc_name first_arg_param_name : cstr) (first_arg_param_int_value : Z) (second_arg_param_name : cstr)
    (second_arg_param_double_value : double) (third_arg_param_name : cstr) (third_arg_param_double_value : double) (fourth_arg_param_name : cstr)
    (fourth_arg_param_double_value : double) (fifth_arg_param_name : cstr) (fifth_arg_param_double_value : double) (sixth_arg_param_name : cstr)
    (sixth_arg_param_double_value : double) (seventh_arg_param_name : cstr) (seventh_arg_param_double_value : double) (eighth_arg_param_name : cstr)
    (eighth_arg_param_double_value : double) (ninth_arg_param_name : cstr) (ninth_arg_param_double_value : double) (tenth_arg_param_name : cstr)
    (tenth_arg_param_double_value : double) : CM answer :=
  call 8000 (λ id, prepare_json_request_single_int_nine_double_param set_rpc_name id first_arg_param_name first_arg_param_int_value
    second_arg_param_name second_arg_param_double_value third_arg_param_name third_arg_param_double_value fourth_arg_param_name
    fourth_arg_param_double_value fifth_arg_param_name fifth_arg_param_double_value sixth_arg_param_name sixth_arg_param_double_value
    seventh_arg_param_name seventh_arg_param_double_value eighth_arg_param_name eighth_arg_param_double_value ninth_arg_param_name
    ninth_arg_param_double_value tenth_arg_param_name tenth_arg_param_double_value) find_json_result.
Definition set_two_int_two_string_type (method_name first_name : cstr) (first_value : Z) (second_name : cstr) (second_value : Z)
    (third_name third_value fourth_name fourth_value : cstr) : CM answer :=
  call 4000 (λ id, prepare_json_request_two_int_two_string method_name id first_name first_value second_name second_value third_name third_value
    fourth_name fourth_value) find_json_result.
Definition set_three_double_type (method_name first_name : cstr) (first_value : double) (second_name : cstr) (second_value : double)
    (third_name : cstr) (third_value : double) : CM answer :=
  call 4000 (λ id, prepare_json_request_three_double method_name id first_name first_value second_name second_value third_name third_value)
    find_json_result.
Definition set_two_int_one_double_one_string_type (method_name first_name : cstr) (first_value : Z) (second_name : cstr) (second_value : double)
    (third_name third_value fourth_name : cstr) (fourth_value : Z) : CM answer :=
  call 4000 (λ id, prepare_json_request_two_int_one_double_one_string method_name id first_name first_value second_name second_value third_name
    third_value fourth_name fourth_value) find_json_result.
Definition get_two_int_two_string_type (method_name : cstr) (size_para3val size_para4val : Z) : CM answer :=
  call 4000 (λ id, prepare_json_request method_name id) (λ s, find_json_result_and_two_int_two_string_param s size_para3val size_para4val).
Definition get_two_string_eight_int_type_with_integer_para (get_rpc_name first_arg_param_name : cstr)
    (first_arg_param_int_value size_first_arg_param_value size_second_arg_param_value : Z) : CM answer :=
  call 80000 (λ id, prepare_json_request_i get_rpc_name id first_arg_param_name first_arg_param_int_value)
    (λ s, find_json_result_and_two_string_eight_int_param s size_first_arg_param_value size_second_arg_param_value).
Definition get_three_string_with_one_string_para (method_name para1 para1val para2 : cstr) (size_para2val : Z) (para3 : cstr) (size_para3val : Z)
    (para4 : cstr) (size_para4val : Z) : CM answer :=
  call 4000 (λ id, prepare_json_request_s method_name id para1 para1val) (λ s, find_json_result_and_three_string_param s para2 size_para2val para3
    size_para3val para4 size_para4val).
Definition get_three_string_type (method_name para1 : cstr) (size_para1val : Z) (para2 : cstr) (size_para2val : Z) (para3 : cstr) (size_para3val : Z)
    : CM answer :=
  call 4000 (λ id, prepare_json_request method_name id) (λ s, find_json_result_and_three_string_param s para1 size_para1val para2 size_para2val para3
    size_para3val).
Definition get_four_string_type (method_name para1 : cstr) (size_para1val : Z) (para2 : cstr) (size_para2val : Z) (para3 : cstr) (size_para3val : Z)
    (para4 : cstr) (size_para4val : Z) : CM answer :=
  call 4000 (λ id, prepare_json_request method_name id) (λ s, find_json_result_and_four_string_param s para1 size_para1val para2 size_para2val para3
    size_para3val para4 size_para4val).
Definition set_one_string_three_int_type (method_name strname strval int1name : cstr) (int1val : Z) (int2name : cstr) (int2val : Z) (int3name : cstr)
    (int3val : Z) : CM answer :=
  call 4000 (λ id, prepare_json_request_one_string_three_int method_name id strname strval int1name int1val int2name int2val int3name int3val)
    find_json_result.
Definition get_one_string_three_int_type (method_name para1 : cstr) (size_para1val : Z) (para2 para3 para4 : cstr) : CM answer :=
  call 4000 (λ id, prepare_json_request method_name id) (λ s, find_json_result_one_string_three_int_param s para1 size_para1val para2 para3 para4).
Definition get_one_string_one_int_type (method_name para1 : cstr) (size_para1val : Z) (para2 : cstr) : CM answer :=
  call 4000 (λ id, prepare_json_request method_name id) (λ s, find_json_result_one_string_one_int_param s para1 size_para1val para2).
Definition set_double_string_get_single_string_type
    (method_name first_param_name first_param_value second_param_name second_param_value third_para_name : cstr) (size_third_para_val : Z)
    : CM answer :=
  call 4000 (λ id, prepare_json_request_ss method_name id first_param_name first_param_value second_param_name second_param_value)
    (λ s, find_json_result_and_single_string_param s third_para_name size_third_para_val).
Definition set_single_string_type (method_name method_param_name method_param_value : cstr) : CM answer :=
  call 4000 (λ id, prepare_json_request_s method_name id method_param_name method_param_value) find_json_result.
Definition set_single_string_get_single_string_type (method_name method_param_name method_param_value ret_para_name : cstr) (size_ret_para_val : Z)
    : CM answer :=
  call 4000 (λ id, prepare_json_request_s method_name id method_param_name method_param_value) (λ s, find_json_result_and_single_string_param s
    ret_para_name size_ret_para_val).
Definition set_single_string_get_single_string_type_with_addr_para (method_name addr_para_name : cstr) (addr_para_value : Z)
    (method_param_name method_param_value ret_para_name : cstr) (size_ret_para_val : Z) : CM answer :=
  call 4000 (λ id, prepare_json_request_is method_name id addr_para_name addr_para_value method_param_name method_param_value)
    (λ s, find_json_result_and_single_string_param s ret_para_name size_ret_para_val).
Definition set_action_noarg_type (method_name : cstr) : CM answer :=
  call 4000 (λ id, prepare_json_request method_name id) find_json_result.
Definition set_action_noarg_get_single_string_type (method_name ret_para_name : cstr) (size_ret_para_val : Z) : CM answer :=
  call 4000 (λ id, prepare_json_request method_name id) (λ s, find_json_result_and_single_string_param s ret_para_name size_ret_para_val).
Definition get_string_type (method_name param_name : cstr) (size_param_value : Z) : CM (RPC_SRV_RESULT * cstr) :=
  with_text (str "NotFound") (call 4000 (λ id, prepare_json_request method_name id) (λ s, find_json_result_and_single_string_param s param_name
    size_param_value)).
Definition set_three_ulong_type (method_name first_name : cstr) (first_value : Z) (second_name : cstr) (second_value : Z) (third_name : cstr)
    (third_value : Z) : CM answer :=
  call 4000 (λ id, prepare_json_request_uuu method_name id first_name first_value second_name second_value third_name third_value) find_json_result.
Definition get_six_int_one_string_with_string_para (method_name para1 para1val para2 para3 para4 para5 para6 para7 : cstr) : CM answer :=
  call 4000 (λ id, prepare_json_request_s method_name id para1 para1val) (λ s, find_json_result_and_six_int_one_string_param s para2 para3 para4 para5
    para6 para7).

(** Three numbers that come as text; [None] keeps what was in the variable. *)
Definition get_three_ulong_type (method_name first_name second_name third_name : cstr) : CM (RPC_SRV_RESULT * list (option Z)) :=
  '(r, gs) ← get_three_string_type method_name first_name 255 second_name 255 third_name 255;
  if decide (r = RPC_SRV_RESULT_SUCCESS) then
    match gs with
    | [GText a; GText b; GText c] => mret (r, [sscanf_lu long_bits a; sscanf_lu long_bits b; sscanf_lu long_bits c])
    | _ => oops
    end
  else mret (r, [Some 0; Some 0; Some 0]).
End client.
