(* ===== verification/I2cSrv.v ===== *)
(** * The service i2csrv

    The service that lets other machines use an i2c bus
    ([src/sources/services/i2csrv]): CmnRpc, which answers the calls of the
    middleware with the bus, Pcf8574Rpc, which only keeps the values of emulated
    expanders, and [main].  The kernel below the bus is the class of
    [I2cAccess]; the timer, the notifier of events and the options are not
    modelled, what the options set are parameters. *)

From Stdlib Require Import ZArith Lia Ascii String.
From stdpp Require Import base list gmap strings sets.
From S2P Require Import Prelude CString CxxStd RpcResult AdavChain TaskWorker EvntMgr Lang JsonGrammar I2cAccess Json NetServer JsonRpc RpcMgr RpcCalls.

Definition EJSON_I2CSRV_RPC_PCF8574_GET : Z := 0.
Definition EJSON_I2CSRV_RPC_PCF8574_SET : Z := 1.

Record I2CSRV_PCF8574_ACCESS_PACKET := MkPcf { devaddr : option Z; data : option Z }.

(** Nothing reads [pcf8574cache_prev]; there is one bus, [pDevAccess]. *)
Record I2CSRV_CMN_DATA_CACHE := MkCache { pDevAccess : I2CBusAccess; pcf8574cache : list Z }.
Definition set_bus v c := MkCache v (pcf8574cache c).
Definition set_pcf v c := MkCache (pDevAccess c) v.
Definition I2CSRV_CMN_DATA_CACHE_new (b : I2CBusAccess) : I2CSRV_CMN_DATA_CACHE := MkCache b (replicate 256 0).

Section i2csrv.
Context `{JsonC, TaskMemory} {kernel : Kernel}.
Variable long_bits : Z.
Variable emulation : bool.
Notation RM := (M (ADJsonRpcMgr I2CSRV_CMN_DATA_CACHE)).
Notation packet := (packet I2CSRV_PCF8574_ACCESS_PACKET).
Notation comm := (JsonDataCommObj packet).
Notation step := (RM (Z * comm)).

Definition on_cache {B} (c : M I2CSRV_CMN_DATA_CACHE B) : RM B := zoom service set_service c.
Definition on_bus {B} (c : M I2CBusAccess B) : RM B := on_cache (zoom pDevAccess set_bus c).

(** ** CmnRpc *)

(** The three widths that are read, and the three that are written.  What was read
    is stored in the packet when the bus has written it. *)
Definition process_get_mw (read : Z → M I2CBusAccess (RPC_SRV_RESULT * option Z)) (mk : Z → option Z → packet) (D : comm) : step :=
  p ← packet_of D;
  match p with
  | RPCMGR_MIDDLEWARE_PACKET (Some addr) _ _ _ =>
      '(r, v) ← on_bus (read addr);
      worked_with r (match v with Some _ => mk addr v | None => p end) D
  | _ => oops
  end.
Definition process_set_mw (write : Z → Z → M I2CBusAccess RPC_SRV_RESULT) (value : packet → option Z) (D : comm) : step :=
  p ← packet_of D;
  match p with
  | RPCMGR_MIDDLEWARE_PACKET (Some addr) _ _ _ => v ← of_opt (value p); r ← on_bus (write addr v); worked r D
  | _ => oops
  end.
Definition process_get_mw_byte : comm → step := process_get_mw I2cAccess.read_byte (λ a v, RPCMGR_MIDDLEWARE_PACKET (Some a) v None None).
Definition process_set_mw_byte : comm → step := process_set_mw I2cAccess.write_byte mw_byte.
Definition process_get_mw_word : comm → step := process_get_mw I2cAccess.read_word (λ a v, RPCMGR_MIDDLEWARE_PACKET (Some a) None v None).
Definition process_set_mw_word : comm → step := process_set_mw I2cAccess.write_word mw_word.
Definition process_get_mw_dword : comm → step := process_get_mw I2cAccess.read_dword (λ a v, RPCMGR_MIDDLEWARE_PACKET (Some a) None None v).
Definition process_set_mw_dword : comm → step := process_set_mw I2cAccess.write_dword mw_dword.
Definition CmnRpc_ProcessWork (D : comm) (index : Z) : step :=
  match index with
  | 18 => process_get_mw_byte D
  | 19 => process_set_mw_byte D
  | 20 => process_get_mw_word D
  | 21 => process_set_mw_word D
  | 22 => process_get_mw_dword D
  | 23 => process_set_mw_dword D
  | _ => mret (0, D)
  end.
Definition CmnRpc_ProcessWorkAsync (index : Z) (pWorkData : ChainHeap.ptr) : RM RPC_SRV_RESULT := mret RPC_SRV_RESULT_SUCCESS.
Definition CmnRpc (rpcName : cstr) (myIndex : Z) : ADJsonRpcMgrConsumer I2CSRV_CMN_DATA_CACHE I2CSRV_PCF8574_ACCESS_PACKET :=
  MkConsumer rpcName myIndex true (λ D _, mret (0, D)) (λ D _, mret (0, D)) CmnRpc_ProcessWork CmnRpc_ProcessWorkAsync.

(** ** Pcf8574Rpc *)
Definition pcf_data (p : packet) : option Z := match p with SERVICE_PACKET a => data a | _ => None end.
Definition json_to_bin_pcf_get (D : comm) : step :=
  D ← PREPARE_JSON_REQUEST (SERVICE_PACKET (MkPcf None None)) RPC_SRV_ACT_READ EJSON_I2CSRV_RPC_PCF8574_GET D;
  JSON_STRING_TO_INT long_bits "devaddr" D (λ a, filled (SERVICE_PACKET (MkPcf (Some (u8 a)) None)) D).
Definition bin_to_json_pcf_get : comm → step := PREPARE_JSON_RESP_INT "data" pcf_data.
Definition json_to_bin_pcf_set (D : comm) : step :=
  D ← PREPARE_JSON_REQUEST (SERVICE_PACKET (MkPcf None None)) RPC_SRV_ACT_WRITE EJSON_I2CSRV_RPC_PCF8574_SET D;
  JSON_STRING_TO_INT long_bits "devaddr" D (λ a, JSON_STRING_TO_INT long_bits "data" D (λ v,
    filled (SERVICE_PACKET (MkPcf (Some (u8 a)) (Some (u8 v)))) D)).
Definition bin_to_json_pcf_set : comm → step := PREPARE_JSON_RESP.
(** The address that both start with. *)
Definition with_devaddr (D : comm) (k : I2CSRV_PCF8574_ACCESS_PACKET → Z → step) : step :=
  p ← packet_of D;
  match p with
  | SERVICE_PACKET q => a ← of_opt (devaddr q); if a <? 2 then worked RPC_SRV_RESULT_ARG_ERROR D else k q a
  | _ => oops
  end.
Definition process_pcf_get (D : comm) : step :=
  with_devaddr D (λ q a,
    if emulation then
      c ← gets (λ m, pcf8574cache (service m)); v ← of_opt (c !! Z.to_nat a);
      worked_with RPC_SRV_RESULT_SUCCESS (SERVICE_PACKET (MkPcf (Some a) (Some v))) D
    else worked RPC_SRV_RESULT_FAIL D).
Definition process_pcf_set (D : comm) : step :=
  with_devaddr D (λ q a,
    if emulation then
      v ← of_opt (data q); c ← gets (λ m, pcf8574cache (service m));
      (if Z.of_nat (length c) <=? a then oops else on_cache (modify (set_pcf (<[Z.to_nat a := v]> c))));;
      worked RPC_SRV_RESULT_SUCCESS D
    else worked RPC_SRV_RESULT_FAIL D).
Definition Pcf8574Rpc_MapJsonToBinary (D : comm) (index : Z) : step :=
  match index with 0 => json_to_bin_pcf_get D | 1 => json_to_bin_pcf_set D | _ => mret (-1, D) end.
Definition Pcf8574Rpc_MapBinaryToJson (D : comm) (index : Z) : step :=
  match index with 0 => bin_to_json_pcf_get D | 1 => bin_to_json_pcf_set D | _ => mret (-1, D) end.
Definition Pcf8574Rpc_ProcessWork (D : comm) (index : Z) : step :=
  match index with 0 => process_pcf_get D | 1 => process_pcf_set D | _ => mret (0, D) end.
Definition Pcf8574Rpc_ProcessWorkAsync (index : Z) (pWorkData : ChainHeap.ptr) : RM RPC_SRV_RESULT := mret RPC_SRV_RESULT_FAIL.
Definition Pcf8574Rpc (rpcName : cstr) (myIndex : Z) : ADJsonRpcMgrConsumer I2CSRV_CMN_DATA_CACHE I2CSRV_PCF8574_ACCESS_PACKET :=
  MkConsumer rpcName myIndex false Pcf8574Rpc_MapJsonToBinary Pcf8574Rpc_MapBinaryToJson Pcf8574Rpc_ProcessWork Pcf8574Rpc_ProcessWorkAsync.

(** ** main *)
Definition rpclist : list (ADJsonRpcMgrConsumer I2CSRV_CMN_DATA_CACHE I2CSRV_PCF8574_ACCESS_PACKET) :=
  [Pcf8574Rpc (str "pcf8574_get") EJSON_I2CSRV_RPC_PCF8574_GET; Pcf8574Rpc (str "pcf8574_set") EJSON_I2CSRV_RPC_PCF8574_SET; CmnRpc (str "cmnrpc") 0].
(** Until the service waits for its end; [version] is from a generated file, and
    [garbage] is what uninitialised members hold. *)
Definition main (version garbage : Z) (dev_node : cstr) (dbglog : bool) (w : worker) : outcome (server (ADJsonRpcMgr I2CSRV_CMN_DATA_CACHE)) Z :=
  (Start rpclist;; zoom world set_world (modify (set_ready EJSON_RPCGMGR_READY_STATE_READY));; mret 0)
    (proxy_new (ADJsonRpcMgr_new rpclist version dbglog w (I2CSRV_CMN_DATA_CACHE_new (I2CBusAccess_new garbage dev_node)))).

(** The service starts with its calls attached, ready, and with the bus as it was
    opened. *)
Definition started (version garbage : Z) (dev_node : cstr) (dbglog : bool) (w : worker) : server (ADJsonRpcMgr I2CSRV_CMN_DATA_CACHE) :=
  with_methods (methods rpclist) (proxy_new (set_ready EJSON_RPCGMGR_READY_STATE_READY
    (ADJsonRpcMgr_new rpclist version dbglog w (I2CSRV_CMN_DATA_CACHE_new (I2CBusAccess_new garbage dev_node))))).
Lemma main_run version garbage dev_node dbglog w : main version garbage dev_node dbglog w = Done 0 (started version garbage dev_node dbglog w).
Proof. unfold main. by mstep (start_service_run rpclist (proxy_new (ADJsonRpcMgr_new rpclist version dbglog w (I2CSRV_CMN_DATA_CACHE_new (I2CBusAccess_new garbage dev_node)))) eq_refl). Qed.
End i2csrv.
