(* ===== verification/RpcWire.v ===== *)
(** * A call over the wire

    The client of [RpcClient] connected to the server of [JsonRpc]: what the
    client sends arrives in one piece, the server's threads take their turns one
    after the other, and what they send is there for the client to receive.
    The file shows that a call then is the work of the service on the parameters
    of the call, and returns the result and the values of its reply. *)

From Stdlib Require Import ZArith Lia Ascii String.
From stdpp Require Import base list gmap strings sets.
From S2P Require Import Prelude CString CxxStd RpcResult Lang JsonGrammar JsonChecker JsonMachine JsonProofs Json NetServer JsonRpc JsonRpcProofs RpcMgr RpcCalls RpcClient.

(** ** The two ends *)

(** The server, and what it has sent to this client and the client has not
    received. *)
Record remote (W : Type) := MkRemote { far : server W; inbox : list ascii }.
Arguments MkRemote {W} _ _.
Arguments far {W} _.
Arguments inbox {W} _.
Definition set_far {W} v (r : remote W) : remote W := MkRemote v (inbox r).
Definition set_inbox {W} v (r : remote W) : remote W := MkRemote (far r) v.

Section wire.
Context `{JsonC, Doubles} {W P : Type}.
(** The two machines: their [char] and [long], the socket and the name of
    the client as the server sees them, and the service. *)
Variables (char_signed : bool) (far_bits near_bits : Z).
Variable sd : Z.
Variable info : option (cstr * cstr).
Variables pjb pw pbj : JsonDataCommObj P → M W (Z * JsonDataCommObj P).
Notation run := (run (P := P) char_signed far_bits pjb pw pbj).
Notation examine := (examine char_signed far_bits).

Definition arrived (l : list (Z * cstr * bool)) : list ascii :=
  concat (omap (λ x, if decide (x.1.1 = sd ∧ x.2 = true) then Some x.1.2 else None) l).
(** The turns that a request takes. *)
Definition turns (data : list ascii) : list turn := [Received sd (RecvData data); Serve; Map; Respond; Send (λ _, true)].
Definition remote_send (data : list ascii) : M (remote W) Z :=
  s ← gets far;
  zoom far set_far (run (turns data));;
  s' ← gets far; b ← gets inbox;
  modify (set_inbox (b ++ arrived (drop (length (sent (ServerSocket s))) (sent (ServerSocket s')))));;
  mret (Z.of_nat (length data)).
Definition remote_recv (size : Z) : M (remote W) (option (list ascii)) :=
  b ← gets inbox;
  match b with [] => blocked | _ => modify (set_inbox (drop (Z.to_nat size) b));; mret (Some (take (Z.to_nat size) b)) end.
#[local] Instance remote_socket : Socket (remote W) := {|
  sock_open _ _ := zoom far set_far (run [Accepted sd info]);; mret true;
  sock_send := remote_send;
  sock_recv := remote_recv;
  sock_close := zoom far set_far (run [Received sd RecvClosed])
|}.

(** ** A round of the server *)
Record idle (s : server W) : Prop := Idle {
  id_requests : request_chain (ServerSocket s) = [];
  id_responses : response_chain (ServerSocket s) = [];
  id_response_sema : response_sema (ServerSocket s) = 0;
  id_tasks : ReqRespChain s = [];
  id_req : ReqChain s = [];
  id_req_sema : req_sema s = 0;
  id_resp : RespChain s = [];
  id_resp_sema : resp_sema s = 0
}.
(** The object that a text becomes. *)
Definition taken_up (s : server W) (text : cstr) : net_data_obj :=
  request_of sd (client_of (clientInfo_chain (ServerSocket s)) sd) (int32 (request_ident (ServerSocket s) + 1)) (text ++ [NUL]).
Lemma taken_up_text s text : NUL ∉ text → data_buffer (taken_up s text) = text ∧ sock_descriptor (taken_up s text) = sd.
Proof.
  intros Hn. unfold taken_up, request_of. destruct (client_of _ _) as [[a b] c]. split; [|done]. cbn. by apply c_text_app_nul.
Qed.
Lemma receive_run s text : idle s → NUL ∉ text → unsplit false text → strlen text < 65534 →
  ∃ N, do_turn (P := P) char_signed far_bits pjb pw pbj (Received sd (RecvData (text ++ [NUL]))) s = Done () (set_socket N s) ∧
    request_chain N = [taken_up s text] ∧ response_chain N = [] ∧ response_sema N = 0 ∧ sent N = sent (ServerSocket s).
Proof.
  intros Hi Hn Hu Hl. unfold do_turn, on_socket. cbn [on_recv]. unfold strlen, AD_NET_SERVER_MAX_BUFFER_SIZE in *.
  rewrite (proj2 (Z.ltb_lt _ _)) by (rewrite length_app; cbn; lia).
  assert (Hr := receive_json_run sd (text ++ [NUL]) (ServerSocket s)). rewrite (cuts_whole _ []) in Hr by (apply unsplit_then; done). cbn [app] in Hr.
  eexists. split; [exact (zoom_done ServerSocket set_socket _ s _ _ Hr)|]. unfold put_pieces. cbn. rewrite (id_requests s Hi), (id_responses s Hi), (id_response_sema s Hi). done.
Qed.
Lemma round_run s text t t' w : idle s → NUL ∉ text → unsplit false text → strlen text < 65534 →
  examine (rpc_call_list s) (taken_up s text) = Some (Granted t) → perform pjb pw pbj t (world s) = Done t' w → has_object t' = true →
  ∃ s', run (turns (text ++ [NUL])) s = Done () s' ∧ idle s' ∧ world s' = w ∧ rpc_call_list s' = rpc_call_list s ∧
    sent (ServerSocket s') = sent (ServerSocket s) ++ [(sock_descriptor (pNetData t), (JsonRpc.reply t').2, true)].
Proof.
  intros Hi Hn Hu Hl Hx Hw Hob. destruct (receive_run s text Hi Hn Hu Hl) as (N & Hrecv & HN1 & HN2 & HN3 & HN4). set (s1 := set_socket N s) in *.
  destruct (perform_run pjb pw pbj _ _ _ _ Hw) as (D & HD & -> & Hf). set (p := next s). set (i := int32 (task_ident s + 1)).
  set (t1 := with_ident i t). set (tr := result_into t1 D).
  set (s2 := MkProxy (set_request_chain [] N) (taken s ++ [taken_up s text]) (rpc_call_list s) (<[p := t1]> (heap s)) (p + 1) i [p] [p] 1 [] 0 (total_req_received s + 1) (total_res_sent s) (world s)).
  assert (Hserve : do_turn (P := P) char_signed far_bits pjb pw pbj Serve s1 = Done () s2).
  { cbn [JsonRpc.do_turn]. enough (serve_one char_signed far_bits s1 = Done true s2) as Hs2 by (unfold mbind, M_bind; by rewrite Hs2).
    unfold serve_one. msimpl. change (ServerSocket s1) with N. rewrite HN1. unfold on_socket.
    rewrite (bind_done _ _ s1 () (set_socket (set_request_chain [] N) s1)) by done. msimpl.
    assert (Hp := process_run char_signed far_bits (rpc_call_list s) (taken_up s text) (Granted t) (set_taken (taken s ++ [taken_up s text]) (set_socket (set_request_chain [] N) s1)) eq_refl Hx).
    mstep Hp. unfold s2, judged, add_task. cbn. by rewrite (id_tasks s Hi), (id_req s Hi), (id_req_sema s Hi), (id_resp s Hi), (id_resp_sema s Hi). }
  assert (Hmap := map_run pjb pw pbj p [] t1 D w s2 eq_refl eq_refl (lookup_insert_eq _ _ _) HD). set (s3 := worked_on p [] tr w s2) in *.
  assert (Hres := respond_run p [] [] tr s3 eq_refl eq_refl (lookup_insert_eq _ _ _) eq_refl Hf).
  change (has_object tr) with (has_object (result_into t D)) in Hres. rewrite Hob in Hres. set (s4 := replied p [] [] tr s3) in *.
  set (N' := set_sent (sent N ++ [(sock_descriptor (pNetData t), (JsonRpc.reply tr).2, true)]) (set_response_chain [] (set_response_sema 0 (set_request_chain [] N)))).
  assert (Hsend : do_turn (P := P) char_signed far_bits pjb pw pbj (Send (λ _, true)) s4 = Done () (set_socket N' s4)).
  { apply zoom_done. unfold response_thread. msimpl. unfold s4, replied, s3, worked_on, s2. unfold JsonRpcProofs.answered. cbn [ServerSocket response_sema set_request_chain set_response_sema set_response_chain]. rewrite HN3.
    change (0 <? 0 + 1) with true. cbv iota. msimpl. unfold send_one. msimpl. cbn [response_chain set_response_sema set_response_chain set_request_chain]. rewrite HN2. done. }
  exists (set_socket N' s4). unfold turns.
  rewrite (run_cons char_signed far_bits pjb pw pbj _ _ _ _ Hrecv), (run_cons char_signed far_bits pjb pw pbj _ _ _ _ Hserve),
    (run_cons char_signed far_bits pjb pw pbj Map _ _ s3 Hmap), (run_cons char_signed far_bits pjb pw pbj Respond _ _ s4 Hres), (run_cons char_signed far_bits pjb pw pbj _ _ _ _ Hsend).
  split_and!; [done| |done|done|by rewrite <-HN4]. done.
Qed.

(** ** The request of a client *)
Definition request_members (l : list (cstr * param_value)) : list (cstr * json) := prod_map id new_value <$> l.
Definition request_object (method : cstr) (ID : Z) (l : list (cstr * param_value)) : list (cstr * json) :=
  [(str "jsonrpc", JString JSON_RPC_VERSION); (str "method", JString method); (str "params", JObject (request_members l)); (str "id", JInt ID)].
Definition request_text (method : cstr) (ID : Z) (l : list (cstr * param_value)) : cstr := json_object_to_json_string (JObject (request_object method ID l)).
Lemma request_params_eq l : NoDup l.*1 → request_params l = JObject (request_members l).
Proof.
  enough (∀ l2 l1, NoDup (l1 ++ l2).*1 →
    foldl (λ o x, json_object_object_add o x.1 (new_value x.2)) (JObject (request_members l1)) l2 = JObject (request_members (l1 ++ l2))) as H' by exact (H' l []).
  clear l. induction l2 as [|[k v] l2 IH]; intros l1 Hl; [by rewrite app_nil_r|]. cbn [foldl fst snd].
  rewrite object_add_fresh.
  - replace (request_members l1 ++ [(k, new_value v)]) with (request_members (l1 ++ [(k, v)])) by (unfold request_members; by rewrite fmap_app).
    rewrite IH; by rewrite <-app_assoc.
  - rewrite fmap_app in Hl. apply NoDup_app in Hl as (_ & Hd & _). unfold request_members. rewrite <-list_fmap_compose.
    intros Hk. apply (Hd k); [|by left]. apply list_elem_of_fmap in Hk as ([k' v'] & -> & Hin). apply list_elem_of_fmap. by exists (k', v').
Qed.

(** A request whose text arrives as it was written: plain and tame, and short
    enough for the buffer of the client. *)
Definition sound (m : list (cstr * json)) : bool := plain (JObject m) && tame (JObject m) && (bulk (JObject m) <? MAX_SEND_BUFFER_SIZE).
Record requestable (method : cstr) (ID : Z) (l : list (cstr * param_value)) : Prop := Requestable {
  rq_names : NoDup l.*1;
  rq_sound : sound (request_object method ID l) = true
}.
Lemma sound_inv m : sound m = true → plain (JObject m) ∧ tame (JObject m) ∧ bulk (JObject m) < MAX_SEND_BUFFER_SIZE.
Proof. unfold sound. rewrite !andb_true_iff, Z.ltb_lt. intros [[H1 H2] H3]. by rewrite H1, H2. Qed.
Lemma wire_prepare_run {U} m id l (c : ADJsonRpcClient U) : requestable m id l →
  prepare_json_request_with m id l c = Done 0 (set_send_buffer (request_text m id l) c).
Proof.
  intros [Hn Hs]. apply sound_inv in Hs as (Hp & _ & Hb). unfold prepare_json_request_with, request_head. rewrite request_params_eq by done.
  unfold json_object_new_object, json_object_new_string, json_object_new_int. rewrite !object_add_fresh by (refine (bool_decide_unpack _ _); by vm_compute).
  unfold put_request_text. assert (Hl := printed_length _ Hp).
  mstep (fits_done MAX_SEND_BUFFER_SIZE (request_text m id l) c ltac:(apply Z.ltb_lt; unfold request_text; lia)). done.
Qed.
Lemma new_value_nesting v : nesting (new_value v) = 0%nat.
Proof. by destruct v. Qed.
Lemma printed_text m : plain (JObject m) → NUL ∉ json_object_to_json_string (JObject m).
Proof. intros Hp Hin. apply printed_ascii in Hp. rewrite Forall_forall in Hp. specialize (Hp _ Hin). destruct Hp as [Hp _]. by vm_compute in Hp. Qed.
Lemma printed_checked m : plain (JObject m) → (nesting (JObject m) ≤ 19)%nat → json_syntax_error char_signed (json_object_to_json_string (JObject m)) = Some 0.
Proof.
  intros Hp Hn. unfold json_syntax_error. rewrite checker_run, seen_ascii by by apply printed_ascii.
  by rewrite (proj2 (accepts_json _)) by by apply printed_json.
Qed.
Lemma object_plain m : NoDup m.*1 → Forall (λ kv, printable kv.1 ∧ plain kv.2) m → plain (JObject m).
Proof.
  intros Hn Hm. cbn [plain]. apply andb_True. split; [|by apply bool_decide_pack]. apply forallb_True. eapply Forall_impl; [exact Hm|].
  intros kv [H1 H2]. by apply andb_True.
Qed.
Lemma plain_object m : plain (JObject m) → NoDup m.*1 ∧ Forall (λ kv, plain kv.2) m.
Proof.
  cbn [plain]. intros [Hm Hn%bool_decide_unpack]%andb_True. split; [done|]. apply forallb_True in Hm. eapply Forall_impl; [exact Hm|].
  intros kv Hkv. by apply andb_True in Hkv as [_ Hkv].
Qed.
Lemma request_nesting method ID l : (nesting (JObject (request_object method ID l)) ≤ 19)%nat.
Proof.
  assert (Hl : nesting (JObject (request_members l)) = 1%nat).
  { change (nesting (JObject (request_members l))) with (S (list_max (map (λ kv, nesting kv.2) (request_members l)))). f_equal.
    induction l as [|[k v] l IH]; [done|]. cbn. rewrite new_value_nesting. exact IH. }
  change (nesting (JObject (request_object method ID l))) with (S (list_max [0%nat; 0%nat; nesting (JObject (request_members l)); 0%nat])). rewrite Hl. cbn. lia.
Qed.
Lemma examine_request s method ID l index : requestable method ID l → is_int ID → 32 ≤ far_bits → is_this_method_registered (rpc_call_list s) method = Some index →
  strlen method < JSON_RPC_METHOD_NAME_MAX_LENGTH →
  let o := taken_up s (request_text method ID l) in
  examine (rpc_call_list s) o = Some (Granted (task_of o ID index CMD_TASK_ACCESS_SYNC)).
Proof.
  intros [_ Hs] Hid Hbits Hm Hl o. apply sound_inv in Hs as (Hp & _ & _). unfold JsonRpc.examine.
  assert (Hd : data_buffer o = request_text method ID l) by (apply taken_up_text, printed_text, Hp). rewrite Hd.
  rewrite decide_False.
  2:{ unfold request_text. destruct (printed_brace (request_object method ID l)) as [t ->]. by vm_compute. }
  unfold request_text. rewrite printed_checked by (done || apply request_nesting).
  cbn [mbind option_bind negb Z.eqb]. rewrite parse_printed by done. unfold examine_object, text_in.
  destruct (plain_object _ Hp) as [Hnd _].
  rewrite !object_get_member by done.
  change (find_member (request_object method ID l) (str "jsonrpc")) with (JString JSON_RPC_VERSION).
  change (find_member (request_object method ID l) (str "id")) with (JInt ID).
  change (find_member (request_object method ID l) (str "method")) with (JString method).
  change (find_member (request_object method ID l) (str "access")) with JNull.
  rewrite !get_string_string, get_string_int, get_string_null by done. change (strlen JSON_RPC_VERSION <? 256) with true.
  assert (Hil := dec_length ID Hid). rewrite (proj2 (Z.ltb_lt (strlen (dec ID)) 256)), (proj2 (Z.ltb_lt _ _) Hl) by lia. cbn [mbind option_bind].
  rewrite Hm. cbn [mbind option_bind]. rewrite atoi_dec; [done|done|by apply is_int_range].
Qed.

(** ** The answer at the client *)
Definition result_members (ID : Z) (v : json) : list (cstr * json) :=
  [(str "jsonrpc", JString JSON_RPC_VERSION); (str "result", v); (str "id", JInt ID)].
Lemma reply_text t a : t_resp_obj t = reply_object a → (JsonRpc.reply t).2 = json_object_to_json_string (JObject (result_members (t_req_id t) (reply_object a))).
Proof.
  intros Ha. unfold JsonRpc.reply. cbn [snd]. f_equal. unfold result_object, json_object_new_object, json_object_new_string, json_object_new_int. rewrite Ha.
  unfold reply_object. by rewrite !object_add_fresh by (refine (bool_decide_unpack _ _); by vm_compute).
Qed.
Lemma result_name_fits r : strlen (result_name r) <? 255 = true.
Proof. destruct r; vm_compute; reflexivity. Qed.
(** The result that the client makes of a text: the one code that the table is
    not searched for is read as the code before it. *)
Definition heard (r : RPC_SRV_RESULT) : RPC_SRV_RESULT := if decide (r = RPC_SRV_RESULT_NONE) then RPC_SRV_RESULT_UNKNOWN else r.
Lemma converted {S} r (st : S) : lift (convert_string_to_server_result (string_of_list_ascii (result_name r))) st = Done (heard r) st.
Proof. destruct r; vm_compute; reflexivity. Qed.
Lemma find_reply {S} ID a outs gs (st : S) : plain (JObject (result_members ID (reply_object a))) → find_outs near_bits (reply_object a) outs st = Done gs st →
  find_json_result_with near_bits (json_object_to_json_string (JObject (result_members ID (reply_object a)))) outs st = Done (Some (result_name a.1, gs)) st.
Proof.
  intros Hp Hf. unfold find_json_result_with. rewrite parse_printed by done.
  destruct (plain_object _ Hp) as [Hn Hall]. rewrite (object_get_member _ _ Hn).
  change (find_member (result_members ID (reply_object a)) (str "result")) with (reply_object a).
  assert (Hr : plain (reply_object a)) by (rewrite Forall_forall in Hall; apply (Hall (str "result", reply_object a)); right; by left).
  destruct (plain_object _ Hr) as [Hn' _].
  destruct (get_string_object ((str "return", JString (result_name a.1)) :: RpcCalls.members a.2)) as [u Hu]. fold (reply_object a) in Hu. rewrite Hu.
  unfold member_text_in. unfold reply_object at 1. rewrite (object_get_member _ _ Hn').
  change (find_member ((str "return", JString (result_name a.1)) :: RpcCalls.members a.2) (str "return")) with (JString (result_name a.1)).
  rewrite get_string_string, bind_assoc. mstep (fits_done 255 _ st (result_name_fits a.1)). rewrite bind_ret. fold (reply_object a). by mstep Hf.
Qed.

(** ** A call *)
(** A client that is connected to an idle server and has read everything. *)
Record linked (c : ADJsonRpcClient (remote W)) : Prop := Linked {
  lk_sock : sock_connected c = true;
  lk_inbox : inbox (peer c) = [];
  lk_idle : idle (far (peer c));
  lk_id : is_int (c_req_id c)
}.
Lemma int32_is_int z : is_int (int32 z).
Proof. apply is_int_range, int32_range. Qed.
Lemma remote_send_run text t t' w (r : remote W) : idle (far r) → inbox r = [] → NUL ∉ text → unsplit false text → strlen text < 65534 →
  examine (rpc_call_list (far r)) (taken_up (far r) text) = Some (Granted t) → sock_descriptor (pNetData t) = sd → perform pjb pw pbj t (world (far r)) = Done t' w → has_object t' = true →
  ∃ s', remote_send (text ++ [NUL]) r = Done (strlen text + 1) (MkRemote s' (JsonRpc.reply t').2) ∧ idle s' ∧ world s' = w ∧ rpc_call_list s' = rpc_call_list (far r).
Proof.
  intros Hi Hb Hn Hu Hl Hx Hsd Hw Hob. destruct (round_run (far r) text t t' w Hi Hn Hu Hl Hx Hw Hob) as (s' & Hrun & Hi' & Hw' & Hc & Hs).
  exists s'. split; [|done]. unfold remote_send. msimpl. assert (Hz := zoom_done far set_far _ r _ _ Hrun). mstep Hz. msimpl. cbn [far set_far inbox]. rewrite Hb, Hs, drop_app_length.
  unfold arrived. cbn. rewrite decide_True by done. cbn. rewrite app_nil_r. f_equal. unfold strlen. rewrite length_app. cbn. lia.
Qed.
(** What a call leaves behind. *)
Definition after_call (c c' : ADJsonRpcClient (remote W)) (w : W) : Prop :=
  linked c' ∧ world (far (peer c')) = w ∧ rpc_call_list (far (peer c')) = rpc_call_list (far (peer c)) ∧ c_req_id c' = int32 (c_req_id c + 1) ∧ connected c' = connected c.
(** The object of the request of a call at the server. *)
Definition request_task (c : ADJsonRpcClient (remote W)) (method : cstr) (l : list (cstr * param_value)) (index : Z) : api_task_obj :=
  task_of (taken_up (far (peer c)) (request_text method (c_req_id c) l)) (c_req_id c) index CMD_TASK_ACCESS_SYNC.
Lemma perform_of t D w w' : do_request pjb pw pbj (comm_of t) w = Done D w' → strlen (result_text (mapper_result D) (custom_result_string D)) <? 512 = true →
  strlen (JsonRpc.reply (result_into t D)).2 <? AD_NET_SERVER_MAX_BUFFER_SIZE = true → perform pjb pw pbj t w = Done (result_into t D) w'.
Proof.
  intros HD H5 H6. unfold JsonRpc.perform. mstep HD. rewrite (bind_done _ _ w' () w') by exact (fits_done 512 _ w' H5).
  by rewrite (bind_done _ _ w' () w') by exact (fits_done AD_NET_SERVER_MAX_BUFFER_SIZE _ w' H6).
Qed.
(** What a call needs of the request object [D] that the service leaves: its answer [a], in
    an object that the buffers hold. *)
Record answers (D : JsonDataCommObj P) (a : RpcCalls.reply) : Prop := Answers {
  an_reply : json_resp_obj D = reply_object a;
  an_text : strlen (result_text (mapper_result D) (custom_result_string D)) <? 512 = true;
  an_plain : plain (reply_object a);
  an_bulk : bulk (reply_object a) < 1300
}.
Lemma result_members_fit ID v : is_int ID → plain v → bulk v < 1300 →
  plain (JObject (result_members ID v)) ∧ bulk (JObject (result_members ID v)) < MAX_RECV_BUFFER_SIZE.
Proof.
  intros Hi Hp Hb. split.
  - apply object_plain.
    + change (NoDup [str "jsonrpc"; str "result"; str "id"]). refine (bool_decide_unpack _ _). by vm_compute.
    + repeat constructor; [exact Hp|exact Hi].
  - unfold MAX_RECV_BUFFER_SIZE. cbn [bulk result_members map fst snd sum foldr].
    change (strlen JSON_RPC_VERSION) with 3. change (strlen (str "jsonrpc")) with 7. change (strlen (str "result")) with 6. change (strlen (str "id")) with 2. lia.
Qed.
Lemma wire_call_run timeout method l outs index D w a gs c : linked c → 0 ≤ timeout → 32 ≤ far_bits → requestable method (c_req_id c) l →
  is_this_method_registered (rpc_call_list (far (peer c))) method = Some index → strlen method < JSON_RPC_METHOD_NAME_MAX_LENGTH →
  do_request pjb pw pbj (comm_of (request_task c method l index)) (world (far (peer c))) = Done D w → answers D a →
  (∀ c : ADJsonRpcClient (remote W), find_outs near_bits (reply_object a) outs c = Done gs c) →
  ∃ c', call timeout (λ id, prepare_json_request_with method id l) (λ s, find_json_result_with near_bits s outs) c = Done (heard a.1, gs) c' ∧ after_call c c' w.
Proof.
  intros [Hk Hb Hi Hid] Ht Hbits Hq Hm Hl HD [Ha H512 Hap Hab] Hf. destruct (result_members_fit _ (reply_object a) Hid Hap Hab) as [Hp Hlen].
  set (t' := result_into (request_task c method l index) D). change (t_resp_obj t' = reply_object a) in Ha. assert (Hreq : t_req_id t' = c_req_id c) by reflexivity.
  assert (Hw : perform pjb pw pbj (request_task c method l index) (world (far (peer c))) = Done t' w).
  { apply perform_of; [exact HD|exact H512|]. apply Z.ltb_lt. fold t'. rewrite (reply_text t' a Ha), Hreq. assert (Hpl := printed_length _ Hp).
    unfold MAX_RECV_BUFFER_SIZE, AD_NET_SERVER_MAX_BUFFER_SIZE in *. lia. }
  unfold call. set (c1 := set_req_id (int32 (c_req_id c + 1)) c).
  rewrite (bind_done _ _ c (c_req_id c) c1) by done.
  rewrite (bind_done _ _ c1 0 (set_send_buffer (request_text method (c_req_id c) l) c1)) by by apply wire_prepare_run.
  set (text := request_text method (c_req_id c) l) in *. set (c2 := set_send_buffer text c1). msimpl. change (send_buffer c2) with text.
  assert (Hs := rq_sound _ _ _ Hq). apply sound_inv in Hs as (Hqp & Hqt & Hqb). assert (Hql := printed_length _ Hqp).
  destruct (remote_send_run text (request_task c method l index) t' w (peer c) Hi Hb) as (s' & Hsend & Hi' & Hw' & Hc');
    [exact (printed_text _ Hqp)|exact (printed_unsplit _ Hqp Hqt)|unfold text, request_text, MAX_SEND_BUFFER_SIZE in *; lia|exact (examine_request _ _ _ _ _ Hq Hid Hbits Hm Hl)|exact (proj2 (taken_up_text _ _ (printed_text _ Hqp)))|exact Hw|unfold has_object; by rewrite Ha|].
  rewrite (reply_text t' a Ha), Hreq in Hsend. set (d := json_object_to_json_string _) in Hsend.
  unfold send_data, on_peer. assert (Hz := zoom_done peer set_peer _ c2 _ _ Hsend). rewrite bind_assoc. mstep Hz. set (c3 := set_peer (MkRemote s' d) c2). msimpl.
  assert (Hd0 : ∃ x t, d = x :: t) by (destruct (printed_brace (result_members (c_req_id c) (reply_object a))) as [t Hd]; by eexists _, t).
  assert (Hdl : strlen d < MAX_RECV_BUFFER_SIZE) by (assert (H' := printed_length _ Hp); unfold d; lia).
  set (c4 := set_recv_buffer (d ++ NUL :: drop (S (length d)) (recv_buffer c)) (set_peer (MkRemote s' []) c3)).
  assert (Hrecv : receive_data_blocking timeout c3 = Done (Z.of_nat (length d)) c4).
  { unfold receive_data_blocking. msimpl. change (sock_connected c3) with (sock_connected c). rewrite Hk. cbn [negb].
    destruct (Z.to_nat (timeout + 1)) as [|n] eqn:En; [lia|]. cbn [recv_loop].
    assert (Hr : on_peer (sock_recv MAX_RECV_BUFFER_SIZE) c3 = Done (Some d) (set_peer (MkRemote s' []) c3)).
    { apply zoom_done. cbn [sock_recv remote_socket]. unfold remote_recv. msimpl. destruct Hd0 as (x & t & Hd). cbn [inbox set_peer peer c3]. rewrite Hd. rewrite <- Hd. unfold strlen in Hdl.
      msimpl. rewrite drop_ge, take_ge by lia. done. }
    rewrite bind_assoc. mstep Hr. msimpl. unfold received. unfold strlen in Hdl. rewrite (proj2 (Z.ltb_lt _ _) Hdl). done. }
  mstep Hrecv. msimpl. change (recv_buffer c4) with (d ++ NUL :: drop (S (length d)) (recv_buffer c)). rewrite c_text_app_nul by by apply printed_text.
  rewrite (bind_done _ _ c4 (Some (result_name a.1, gs)) c4) by (apply find_reply; [exact Hp|apply Hf]). cbv beta iota. mstep (converted a.1 c4). msimpl.
  exists c4. split; [reflexivity|]. split; [split; [exact Hk|reflexivity|exact Hi'|apply int32_is_int]|]. split_and!; [exact Hw'|exact Hc'|reflexivity|reflexivity].
Qed.

(** ** Connecting *)
Lemma accepted_run s s' : run [Accepted sd info] s = Done () s' → idle s → idle s' ∧ world s' = world s ∧ rpc_call_list s' = rpc_call_list s.
Proof.
  intros Hrun [H1 H2 H3 H4 H5 H6 H7 H8]. assert (Hok : match info with Some (h, _) => strlen h < 512 ∨ 1023 ≤ strlen h | None => True end).
  { destruct info as [[h t]|]; [|done]. destruct (decide (strlen h < 512 ∨ 1023 ≤ strlen h)) as [|Hbad]; [done|]. exfalso. revert Hrun.
    cbn [JsonRpc.run JsonRpc.do_turn]. unfold on_socket, print_client_info, register_client_info, zoom, mbind, M_bind, gen_client_ident.
    destruct (Z.ltb_spec 0 (strlen h)), (Z.ltb_spec (strlen h) 1023), (Z.ltb_spec (strlen h) 512); try lia. done. }
  destruct (accepted_socket far_bits info sd (ServerSocket s) Hok) as (N & HN & HN1 & HN2 & HN3 & HN4).
  rewrite (run_cons char_signed far_bits pjb pw pbj (Accepted sd info) [] s (set_socket N s) (zoom_done ServerSocket set_socket _ s _ _ HN)) in Hrun.
  injection Hrun as <-. split; [|done]. split; cbn; congruence.
Qed.
Lemma wire_connect_run ip port_num s c : rpc_server_connect ip port_num (ADJsonRpcClient_new (MkRemote s [])) = Done 0 c → idle s →
  linked c ∧ world (far (peer c)) = world s ∧ rpc_call_list (far (peer c)) = rpc_call_list s.
Proof.
  intros Hc Hi. revert Hc. unfold rpc_server_connect, sock_connect_to, sock_connect, on_peer, zoom, gets, modify, mbind, M_bind, mret, M_ret, sock_open, remote_socket.
  cbn [connected ADJsonRpcClient_new sock_connected]. destruct (port_num <? 1) eqn:Ep; [done|]. destruct (decide (ip = [])) as [|Hip]; [done|].
  cbv beta iota. cbn [sock_port sock_ip set_addr sock_connected peer far ADJsonRpcClient_new]. cbv beta iota. rewrite Ep, decide_False by done. unfold mbind, M_bind, zoom. cbn [peer far set_addr ADJsonRpcClient_new].
  destruct (run [Accepted sd info] s) as [[] s'| | | |] eqn:Hrun; try done. destruct (accepted_run s s' Hrun Hi) as (Hi' & Hw & Hl).
  intros Hc. cbn in Hc. injection Hc as <-. split; [|done]. by split.
Qed.
End wire.
