(* ===== verification/I2cRemote.v ===== *)
(** * A bus of another machine

    The object I2CBusAccess of a machine whose device is the name of a service
    i2csrv ([I2cAccess], connected to the network), with the client [RpcClient], the
    wire [RpcWire], the server [JsonRpc] with the manager [RpcMgr], and the service
    [I2cSrv], down to the bus of the other machine.  The file shows that the reads
    and writes of bytes, words and double words of the one are those of the other, but
    for what the service cuts off, and that the reads and writes of arrays never
    get there: [write_array] and [read_array] do not look at the kind of the connection
    and use the descriptor of the object, which over the network is never set. *)

From Stdlib Require Import ZArith Lia Ascii String.
From stdpp Require Import base list gmap strings sets.
From S2P Require Import Prelude CString CxxStd RpcResult AdavChain TaskWorker EvntMgr Lang JsonGrammar JsonProofs Json NetServer JsonRpc JsonRpcProofs RpcMgr RpcCalls RpcClient I2cAccess I2cSrv RpcWire.

(** ** Accesses *)
Inductive width := Byte | Word | Dword.
Definition bytes (w : width) : nat := match w with Byte => 1 | Word => 2 | Dword => 4 end.
Inductive bus_op := Read (w : width) (addr : Z) | Write (w : width) (addr value : Z).
Definition bus_access {K : Kernel} (op : bus_op) : M I2CBusAccess (RPC_SRV_RESULT * option Z) :=
  match op with
  | Read Byte a => I2cAccess.read_byte a
  | Read Word a => I2cAccess.read_word a
  | Read Dword a => I2cAccess.read_dword a
  | Write Byte a d => r ← I2cAccess.write_byte a d; mret (r, None)
  | Write Word a d => r ← I2cAccess.write_word a d; mret (r, None)
  | Write Dword a d => r ← I2cAccess.write_dword a d; mret (r, None)
  end.
Fixpoint bus_accesses {K : Kernel} (ops : list bus_op) : M I2CBusAccess (list (RPC_SRV_RESULT * option Z)) :=
  match ops with [] => mret [] | op :: ops => x ← bus_access op; xs ← bus_accesses ops; mret (x :: xs) end.

(** All the accesses of the object: one of a width, or one of an array. *)
Inductive access := Single (op : bus_op) | WriteArray (addr : Z) (data : list Z) | ReadArray (addr len : Z).
Inductive result := SingleResult (x : RPC_SRV_RESULT * option Z) | ArrayResult (x : RPC_SRV_RESULT * option (list Z)).
Definition object_access {K : Kernel} (a : access) : M I2CBusAccess result :=
  match a with
  | Single op => x ← bus_access op; mret (SingleResult x)
  | WriteArray addr data => r ← I2cAccess.write_array addr data; mret (ArrayResult (r, None))
  | ReadArray addr len => x ← I2cAccess.read_array addr len; mret (ArrayResult x)
  end.
Fixpoint object_accesses {K : Kernel} (l : list access) : M I2CBusAccess (list result) :=
  match l with [] => mret [] | a :: l => x ← object_access a; xs ← object_accesses l; mret (x :: xs) end.
Definition singles : list access → list bus_op := omap (λ a, match a with Single op => Some op | _ => None end).
Definition single_results : list result → list (RPC_SRV_RESULT * option Z) :=
  omap (λ r, match r with SingleResult x => Some x | _ => None end).

(** What the service makes of an access: of a value that is written eight bits are
    left, whatever its width. *)
Definition cut (op : bus_op) : bus_op := match op with Read w a => Read w a | Write w a d => Write w a (u8 d) end.

(** ** The bus of the service *)
(** A bus that is a device node, of a kernel whose [read] gives bytes, as many as
    it was asked for. *)
Definition device (b : I2CBusAccess) : Prop := DevOpened b = RPC_SRV_RESULT_SUCCESS ∧ ConnType b = Some ADLIB_DEV_CONN_TYPE_DEVNODE.
Definition reads_bytes (K : Kernel) : Prop :=
  ∀ fd h len buff, read_fd fd h len = (len, buff) → Z.of_nat (length buff) = len ∧ Forall (λ x, 0 ≤ x < 256) buff.

Section device_bus.
Context {K : Kernel}.
Hypothesis reads : reads_bytes K.

Lemma bytes_word_range buff : Forall (λ x, 0 ≤ x < 256) buff → 0 ≤ bytes_word buff < 2 ^ (8 * Z.of_nat (length buff)).
Proof.
  unfold bytes_word. induction buff as [|x buff IH] using rev_ind; intros Hb; [done|]. apply Forall_app in Hb as [Hb Hx]. apply Forall_cons in Hx as [Hx _].
  specialize (IH Hb). rewrite foldl_snoc, length_app. cbn [length]. set (v := foldl _ 0 buff) in *. set (n := 8 * Z.of_nat (length buff)) in *.
  replace (8 * Z.of_nat (length buff + 1)) with (n + 8) by (unfold n; lia). rewrite Z.shiftl_mul_pow2 by lia. change (2 ^ 8) with 256.
  assert (E : Z.lor (v * 256) x = v * 256 + x).
  { assert (H0 := Z.add_lor_land (v * 256) x). enough (Z.land (v * 256) x = 0) by lia.
    apply Z.bits_inj'. intros i Hi. rewrite Z.land_spec, Z.bits_0. change 256 with (2 ^ 8). destruct (Z.ltb_spec i 8).
    - by rewrite Z.mul_pow2_bits_low.
    - assert (Hz : Z.testbit x i = false); [|by rewrite Hz, andb_false_r]. destruct (decide (x = 0)) as [->|]; [apply Z.bits_0|].
      apply Z.bits_above_log2; [lia|]. assert (Z.log2 x < 8) by (apply Z.log2_lt_pow2; lia). lia. }
  rewrite E, Z.pow_add_r by lia. change (2 ^ 8) with 256. lia.
Qed.

(** An access of a device node ends with a result that has a value when it was read,
    and looks at the address only through its lowest eight bits. *)
Definition well_answered (op : bus_op) (x : RPC_SRV_RESULT * option Z) : Prop :=
  x.1 ∈ [RPC_SRV_RESULT_SUCCESS; RPC_SRV_RESULT_BUS_ERROR; RPC_SRV_RESULT_FILE_READ_ERR; RPC_SRV_RESULT_FILE_WRITE_ERR] ∧
  match op, x.2 with
  | Read w _, Some v => x.1 = RPC_SRV_RESULT_SUCCESS ∧ 0 ≤ v < 2 ^ (8 * Z.of_nat (bytes w))
  | Read _ _, None => x.1 ≠ RPC_SRV_RESULT_SUCCESS
  | Write _ _ _, v => v = None
  end.
Lemma with_slave_run {A} fail a (m : M I2CBusAccess A) b : ∃ l, with_slave fail a m b =
  (if decide (ioctl_slave (fd b) (ios b) (u8 a) < 0) then mret (fail RPC_SRV_RESULT_BUS_ERROR) else m) (set_ios l b).
Proof.
  set (r := ioctl_slave (fd b) (ios b) (u8 a)). exists (ios b ++ [IoSlave (u8 a) r]).
  assert (Hs : SetSlaveAddr (u8 a) b = Done (if r <? 0 then RPC_SRV_RESULT_BUS_ERROR else RPC_SRV_RESULT_SUCCESS) (set_ios (ios b ++ [IoSlave (u8 a) r]) b)) by done.
  unfold with_slave. mstep Hs. destruct (Z.ltb_spec r 0), (decide (r < 0)); try lia; reflexivity.
Qed.
Lemma device_access op b : device b → ∃ x l, bus_access op b = Done x (set_ios l b) ∧ well_answered op x.
Proof.
  intros [Ho Hc]. destruct op as [w a|w a d].
  - assert (Hwide : ∀ n m, ∃ x l, read_wide n m a b = Done x (set_ios l b) ∧ x.1 ∈ [RPC_SRV_RESULT_SUCCESS; RPC_SRV_RESULT_BUS_ERROR; RPC_SRV_RESULT_FILE_READ_ERR; RPC_SRV_RESULT_FILE_WRITE_ERR] ∧
      match x.2 with Some v => x.1 = RPC_SRV_RESULT_SUCCESS ∧ 0 ≤ v < 2 ^ (8 * Z.of_nat n) | None => x.1 ≠ RPC_SRV_RESULT_SUCCESS end).
    { intros n m. unfold read_wide. rewrite opened_dev by done. destruct (with_slave_run no_data a (
        buff ← i2c_read (Z.of_nat n);
        mret match buff with None => no_data RPC_SRV_RESULT_FILE_READ_ERR | Some buff => (RPC_SRV_RESULT_SUCCESS, Some (bytes_word buff)) end) b) as [l ->].
      case_decide; [eexists _, l; split; [done|]; cbn; split; [set_solver|discriminate]|].
      destruct (read_fd (fd b) l (Z.of_nat n)) as [k buff] eqn:Er.
      assert (Hi : i2c_read (Z.of_nat n) (set_ios l b) = Done (if k =? Z.of_nat n then Some buff else None) (set_ios (l ++ [IoRead (Z.of_nat n) k]) b)).
      { unfold i2c_read, log. msimpl. unfold Datatypes.id. cbn [fd ios set_ios]. by rewrite Er. }
      mstep Hi. destruct (Z.eqb_spec k (Z.of_nat n)) as [->|]; (eexists _, _; split; [done|]; split; [cbn; set_solver|]); [|cbn; discriminate].
      destruct (reads _ _ _ _ Er) as [Hl Hb]. split; [done|]. apply bytes_word_range in Hb. by rewrite Hl in Hb. }
    destruct w; cbn [bus_access]; [|apply (Hwide 2%nat "read_word")|apply (Hwide 4%nat "read_dword")].
    unfold I2cAccess.read_byte. rewrite opened_dev by done.
    destruct (with_slave_run no_data a (smret ← i2c_smbus_read_byte;
       mret (if smret <? 0 then no_data RPC_SRV_RESULT_FILE_READ_ERR else (RPC_SRV_RESULT_SUCCESS, Some (u8 smret)))) b) as [l ->].
    case_decide; [eexists _, l; split; [done|]; split; [cbn; set_solver|cbn; discriminate]|].
    unfold i2c_smbus_read_byte, i2c_smbus_access, log. msimpl. eexists _, _. split; [done|]. set (z := if _ : bool then -1 else _).
    destruct (z <? 0); (split; [cbn; set_solver|]); cbn; [discriminate|]. split; [done|]. apply u8_range.
  - assert (Hwrite : ∀ m : M I2CBusAccess RPC_SRV_RESULT, (∀ l, ∃ r l', m (set_ios l b) = Done r (set_ios l' b) ∧ r ∈ [RPC_SRV_RESULT_SUCCESS; RPC_SRV_RESULT_FILE_WRITE_ERR]) →
      ∃ r l, with_slave Datatypes.id a m b = Done r (set_ios l b) ∧ r ∈ [RPC_SRV_RESULT_SUCCESS; RPC_SRV_RESULT_BUS_ERROR; RPC_SRV_RESULT_FILE_READ_ERR; RPC_SRV_RESULT_FILE_WRITE_ERR]).
    { intros m Hm. destruct (with_slave_run Datatypes.id a m b) as [l ->]. case_decide; [eexists _, l; split; [done|set_solver]|].
      destruct (Hm l) as (r & l' & -> & Hr). eexists _, _. split; [done|]. set_solver. }
    assert (Hwide : ∀ n m, ∃ r l, write_wide n m a d b = Done r (set_ios l b) ∧ r ∈ [RPC_SRV_RESULT_SUCCESS; RPC_SRV_RESULT_BUS_ERROR; RPC_SRV_RESULT_FILE_READ_ERR; RPC_SRV_RESULT_FILE_WRITE_ERR]).
    { intros n m. unfold write_wide. rewrite opened_dev by done. apply Hwrite. intros l. unfold i2c_write, log. msimpl. eexists _, _. split; [done|]. destruct (_ =? _); set_solver. }
    enough (∃ r l, (match w with Byte => I2cAccess.write_byte a d | Word => I2cAccess.write_word a d | Dword => I2cAccess.write_dword a d end) b = Done r (set_ios l b) ∧
      r ∈ [RPC_SRV_RESULT_SUCCESS; RPC_SRV_RESULT_BUS_ERROR; RPC_SRV_RESULT_FILE_READ_ERR; RPC_SRV_RESULT_FILE_WRITE_ERR]) as (r & l & Hr & Hin).
    { exists (r, None), l. split; [destruct w; cbn [bus_access]; by mstep Hr|done]. }
    destruct w; [|apply Hwide|apply Hwide]. unfold I2cAccess.write_byte. rewrite opened_dev by done. apply Hwrite. intros l.
    unfold i2c_smbus_write_byte, i2c_smbus_access, log. msimpl. eexists _, _. split; [done|]. destruct (negb _); set_solver.
Qed.
End device_bus.

(** ** Numbers on the wire *)
Lemma sscanf_dec long_bits z : 32 ≤ long_bits → is_int z → ∃ v, sscanf_lu long_bits (dec z) = Some v ∧ u32 v = u32 z.
Proof.
  intros Hl Hz%is_int_range. unfold sscanf_lu, dec, INT_MAX in *.
  assert (Hp : 2 ^ 32 ≤ 2 ^ long_bits) by (apply Z.pow_le_mono_r; lia). change (2 ^ 32) with 4294967296 in Hp.
  destruct (strtol_digits 32 (Z.abs z)) as (c & s & E & H1 & H2 & H3 & [d Hd] & Ed); [done|lia|]. destruct (Z.ltb_spec z 0).
  - replace (- z) with (Z.abs z) by lia. rewrite E. cbn [skip_spaces]. change (is_space (char 45)) with false. cbv iota. cbn [sign].
    change (code (char 45) =? 45) with true. cbv iota. rewrite Hd, Ed. cbn [fst]. rewrite (proj2 (Z.leb_gt _ _)) by lia. eexists. split; [done|].
    replace (- Z.abs z) with z by lia. unfold u32. replace (2 ^ long_bits) with (4294967296 * 2 ^ (long_bits - 32)).
    + rewrite Z.rem_mul_r by lia. rewrite (Z.mul_comm 4294967296 (_ mod _)), Z.mod_add by lia. by rewrite Z.mod_mod.
    + change 4294967296 with (2 ^ 32). rewrite <-Z.pow_add_r by lia. f_equal. lia.
  - rewrite Z.abs_eq in E, Ed by done. rewrite E. cbn [skip_spaces]. rewrite H1. cbn [sign]. rewrite H2, H3, Hd, Ed. cbn [fst].
    rewrite (proj2 (Z.leb_gt _ _)) by lia. by eexists.
Qed.
Lemma u32_int32 z : u32 (int32 z) = u32 z.
Proof.
  unfold u32, int32. rewrite Zminus_mod, Z.mod_mod, <-Zminus_mod by done. f_equal. lia.
Qed.
Lemma u8_u32 z : u8 (u32 z) = u8 z.
Proof. unfold u8, u32. change 4294967296 with (256 * 16777216). rewrite Z.rem_mul_r by done. rewrite (Z.mul_comm 256 (_ mod _)), Z.mod_add by done. by rewrite Z.mod_mod. Qed.
Lemma wire_address long_bits a : 32 ≤ long_bits → ∃ v, sscanf_lu long_bits (dec (int32 a)) = Some v ∧ u8 v = u8 a.
Proof.
  intros Hl. destruct (sscanf_dec long_bits (int32 a) Hl (int32_is_int a)) as (v & Hv & E). exists v. split; [done|].
  by rewrite <-(u8_u32 v), E, u32_int32, u8_u32.
Qed.

(** ** An access as a call *)
Definition op_method (op : bus_op) : cstr :=
  str match op with Read Byte _ => "read_byte" | Write Byte _ _ => "write_byte" | Read Word _ => "read_word" | Write Word _ _ => "write_word"
      | Read Dword _ => "read_dword" | Write Dword _ _ => "write_dword" end.
Definition op_index (op : bus_op) : Z :=
  match op with Read Byte _ => 18 | Write Byte _ _ => 19 | Read Word _ => 20 | Write Word _ _ => 21 | Read Dword _ => 22 | Write Dword _ _ => 23 end.
Section op_calls.
Context `{JsonC, Doubles}.
Definition op_params (op : bus_op) : list (cstr * param_value) :=
  match op with
  | Read _ a => [(str "addr", VInt (int32 a))]
  | Write _ a d => [(str "addr", VInt (int32 a)); (str "data", VInt (int32 d))]
  end.
Definition op_outs (op : bus_op) : list out := match op with Read _ _ => [OText (str "data") 64] | Write _ _ _ => [] end.
Definition op_reply (x : RPC_SRV_RESULT * option Z) : RpcCalls.reply := (x.1, match x.2 with Some v => IntValue "data" (int32 v) | None => NoValue end).
Definition op_got (x : RPC_SRV_RESULT * option Z) : list got := match x.2 with Some v => [GText (dec (int32 v))] | None => [] end.

Lemma op_requestable op ID : is_int ID → requestable (op_method op) ID (op_params op).
Proof.
  intros Hid. split; [destruct op; refine (bool_decide_unpack _ _); by vm_compute|]. unfold sound. rewrite !andb_true_iff. split_and!.
  - apply Is_true_true. apply object_plain; [refine (bool_decide_unpack _ _); by destruct op; vm_compute|].
    assert (Hp : plain (JObject (request_members (op_params op)))).
    { apply object_plain; [refine (bool_decide_unpack _ _); by destruct op; vm_compute|].
      destruct op; repeat (constructor; [split; [by vm_compute|apply int32_is_int]|]); constructor. }
    constructor; [split; by vm_compute|]. constructor; [split; [by vm_compute|by destruct op as [[]|[]]; vm_compute]|].
    constructor; [split; [by vm_compute|exact Hp]|]. constructor; [split; [by vm_compute|exact Hid]|constructor].
  - by destruct op as [[]|[]]; vm_compute.
  - by destruct op as [[]|[]]; vm_compute.
Qed.
Lemma request_param method ID l name : requestable method ID l →
  param (request_text method ID l) name = json_object_get_string (find_member (request_members l) (str name)).
Proof.
  intros [_ Hs]. apply sound_inv in Hs as (Hp & _ & _). assert (Hl : plain (JObject (request_members l))).
  { destruct (plain_object _ Hp) as [_ Hall]. rewrite Forall_forall in Hall. apply (Hall (str "params", JObject (request_members l))). right. right. by left. }
  unfold param, request_text. rewrite parse_printed by done.
  rewrite object_get_member by by apply plain_object. change (find_member (request_object method ID l) (str "params")) with (JObject (request_members l)).
  destruct (get_string_object (request_members l)) as [t Ht]. cbn [mbind option_bind]. rewrite Ht. cbn [mbind option_bind].
  rewrite object_get_member by by apply plain_object. done.
Qed.
End op_calls.

(** ** The service does the access *)
Section served.
Context `{JsonC, TaskMemory, Doubles} {K : Kernel}.
Variables (far_bits : Z) (emulation : bool).
Hypothesis reads : reads_bytes K.
Hypothesis far_long : 32 ≤ far_bits.
Notation srv := (ADJsonRpcMgr I2CSRV_CMN_DATA_CACHE).
Notation list_ := (I2cSrv.rpclist far_bits emulation).
Notation do_call := (do_request (process_json_to_binary far_bits list_) (process_work far_bits list_) (process_binary_to_json far_bits list_)).
Notation comm := (JsonDataCommObj (packet I2CSRV_PCF8574_ACCESS_PACKET)).

Definition bus_of (s : srv) : I2CBusAccess := pDevAccess (service s).
Definition put_bus (b : I2CBusAccess) (s : srv) : srv := set_service (set_bus b (service s)) s.
Lemma on_bus_run {A} (m : M I2CBusAccess A) s x b : m (bus_of s) = Done x b → on_bus m s = Done x (put_bus b s).
Proof. intros Hm. unfold on_bus, on_cache. exact (zoom_done service set_service _ s x _ (zoom_done pDevAccess set_bus m (service s) x b Hm)). Qed.
(** The address of a device counts with its lowest eight bits. *)
Lemma device_read_address w a a' b : device b → u8 a = u8 a' → bus_access (Read w a) b = bus_access (Read w a') b.
Proof.
  intros [Ho Hc] Ha. destruct w; cbn [bus_access]; unfold I2cAccess.read_byte, read_word, read_dword, read_wide; rewrite !opened_dev by done; unfold with_slave; by rewrite Ha.
Qed.
Lemma device_write_address w a a' d b : device b → u8 a = u8 a' → bus_access (Write w a d) b = bus_access (Write w a' d) b.
Proof.
  intros [Ho Hc] Ha. destruct w; cbn [bus_access]; unfold mbind, M_bind, I2cAccess.write_byte, write_word, write_dword, write_wide; rewrite !opened_dev by done; unfold with_slave; by rewrite Ha.
Qed.

Lemma ulong_run {S} name (D : comm) a c p r old k t (st : S) : param (socket_data D) name = Some t → strlen t < 255 →
  JSON_STRING_TO_ULONG far_bits name old (at_work D a c p r) k st = k (match sscanf_lu far_bits t with Some v => Some v | None => old end) st.
Proof.
  intros Hp Ht. unfold JSON_STRING_TO_ULONG. rewrite json_string_run by (unfold short; rewrite Hp; by apply Z.ltb_lt). by rewrite Hp.
Qed.
Lemma mw_read_run c read mk value t v (D : comm) s x b : cmd_index D = c → 0 ≤ c < EJSON_RPCGMGR_CMD_END →
  phases far_bits list_ c = Some (json_to_bin_get_mw far_bits c, ProcessWorkCmnRpc list_, PREPARE_JSON_RESP_INT "data" value) →
  (∀ D', CmnRpc_ProcessWork D' c = process_get_mw read mk D') → (∀ y, value (mk (u32 v) y) = y) →
  param (socket_data D) "addr" = Some t → strlen t < 255 → sscanf_lu far_bits t = Some v →
  read (u32 v) (bus_of s) = Done x b → (has_value x.1 = true → is_Some x.2) →
  do_call D s = Done (answered_with D (x.1, if has_value x.1 then IntValue "data" (int32 (default 0 x.2)) else NoValue)) (put_bus b s).
Proof.
  intros Hi Hc Hph Hg Hmk Hp Ht Hv Hx Hval. set (p0 := RPCMGR_MIDDLEWARE_PACKET (Some (u32 v)) None None None : packet I2CSRV_PCF8574_ACCESS_PACKET).
  rewrite (phases_run far_bits list_ D s _ _ _ RPC_SRV_ACT_READ c p0 (on_bus (read (u32 v))) (λ x, match x.2 with Some _ => mk (u32 v) x.2 | None => p0 end) (λ x, x.1)
    (λ x, (x.1, if has_value x.1 then IntValue "data" (int32 (default 0 x.2)) else NoValue)) ltac:(by rewrite Hi) ltac:(by rewrite Hi)).
  - by mstep (on_bus_run _ _ _ _ Hx).
  - unfold json_to_bin_get_mw. rewrite (bind_done _ _ s (at_work D RPC_SRV_ACT_READ c (Some mw_empty) RPC_SRV_RESULT_NOT_STARTED) s) by done.
    rewrite (ulong_run "addr" D _ _ _ _ None _ t s Hp Ht), Hv. done.
  - change (ProcessWorkCmnRpc list_ ?D' s) with (CmnRpc_ProcessWork D' (cmd_index D) s). rewrite Hi, Hg. unfold process_get_mw.
    rewrite (bind_done _ _ s p0 s) by done. cbv beta iota zeta. apply bind_cong. by intros [r y] s' _.
  - intros y s' Hrun. rewrite (on_bus_run _ _ _ _ Hx) in Hrun. injection Hrun as <- _.
    apply resp_int_run; [done|]. intros Hh. destruct (Hval Hh) as [y Hy]. rewrite Hy. by rewrite Hmk.
Qed.
Lemma reply_of_read w a x : well_answered (Read w a) x →
  (x.1, if has_value x.1 then IntValue "data" (int32 (default 0 x.2)) else NoValue) = op_reply x.
Proof.
  destruct x as [r v]. intros [Hr Hv]. unfold op_reply, has_value. cbn [fst snd] in *. destruct v as [v|]; cbn [default].
  - destruct Hv as [-> _]. done.
  - rewrite bool_decide_eq_false_2; [done|]. set_solver.
Qed.
Lemma served_read w a ID (D : comm) s x b : cmd_index D = op_index (Read w a) → socket_data D = request_text (op_method (Read w a)) ID (op_params (Read w a)) →
  is_int ID → device (bus_of s) → bus_access (Read w a) (bus_of s) = Done x b → do_call D s = Done (answered_with D (op_reply x)) (put_bus b s).
Proof.
  intros Hi Hd Hid Hb Hx. destruct (wire_address far_bits a far_long) as (v & Hv & Hva). set (z := u32 v).
  assert (Hz : u8 a = u8 z) by (unfold z; by rewrite u8_u32).
  rewrite (device_read_address w a z _ Hb Hz) in Hx. assert (Hwell : well_answered (Read w z) x).
  { destruct (device_access reads (Read w z) (bus_of s) Hb) as (x' & l & Hx' & Hw). rewrite Hx in Hx'. injection Hx' as -> _. exact Hw. }
  assert (Hparam : param (socket_data D) "addr" = Some (dec (int32 a))).
  { rewrite Hd, request_param by by apply op_requestable. exact (get_string_int _ (int32_is_int a)). }
  assert (Hlen : strlen (dec (int32 a)) < 255) by (assert (Hl := dec_length _ (int32_is_int a)); lia).
  assert (Hval : has_value x.1 = true → is_Some x.2).
  { intros Hh. destruct x as [r [y|]]; [by eexists|]. destruct Hwell as [Hr Hn]. unfold has_value in Hh. cbn [fst snd] in *. rewrite bool_decide_eq_true in Hh. set_solver. }
  rewrite <-(reply_of_read w z x Hwell).
  destruct w; eapply mw_read_run; try done; try reflexivity; exact Hi.
Qed.
Lemma mw_write_run c write mk value t v u d (D : comm) s r b : cmd_index D = c → 0 ≤ c < EJSON_RPCGMGR_CMD_END →
  phases far_bits list_ c = Some (json_to_bin_set_mw far_bits c mk, ProcessWorkCmnRpc list_, PREPARE_JSON_RESP) →
  (∀ D', CmnRpc_ProcessWork D' c = process_set_mw write value D') →
  (∀ a d, ∃ x y z, mk (Some a) (Some d) = RPCMGR_MIDDLEWARE_PACKET (Some a) x y z ∧ value (mk (Some a) (Some d)) = Some d) →
  param (socket_data D) "addr" = Some t → strlen t < 255 → sscanf_lu far_bits t = Some v →
  param (socket_data D) "data" = Some u → strlen u < 255 → sscanf_lu far_bits u = Some d →
  write (u32 v) (u8 d) (bus_of s) = Done r b → do_call D s = Done (answered_with D (r, NoValue)) (put_bus b s).
Proof.
  intros Hi Hc Hph Hg Hmk Hp Ht Hv Hp' Hu Hd Hx.
  rewrite (simple_call far_bits list_ D s _ _ RPC_SRV_ACT_WRITE c (mk (Some (u32 v)) (Some (u8 d))) (on_bus (write (u32 v) (u8 d))) ltac:(by rewrite Hi) ltac:(by rewrite Hi)).
  - unfold simple. rewrite bind_assoc. by mstep (on_bus_run _ _ _ _ Hx).
  - unfold json_to_bin_set_mw. rewrite (bind_done _ _ s (at_work D RPC_SRV_ACT_WRITE c (Some mw_empty) RPC_SRV_RESULT_NOT_STARTED) s) by done.
    rewrite (ulong_run "addr" D _ _ _ _ None _ t s Hp Ht), Hv. rewrite (ulong_run "data" D _ _ _ _ _ _ u s Hp' Hu), Hd. done.
  - change (ProcessWorkCmnRpc list_ ?D' s) with (CmnRpc_ProcessWork D' (cmd_index D) s). rewrite Hi, Hg. unfold process_set_mw.
    destruct (Hmk (u32 v) (u8 d)) as (x & y & z & Hm & Hvalue).
    rewrite (bind_done _ _ s (mk (Some (u32 v)) (Some (u8 d))) s) by done. cbv beta. rewrite Hvalue. rewrite Hm. by rewrite bind_of_opt.
Qed.
Definition bus_write (w : width) (a d : Z) : M I2CBusAccess RPC_SRV_RESULT :=
  match w with Byte => I2cAccess.write_byte a d | Word => I2cAccess.write_word a d | Dword => I2cAccess.write_dword a d end.
Lemma write_access w a d b x b' : bus_access (Write w a d) b = Done x b' → bus_write w a d b = Done x.1 b' ∧ x.2 = None.
Proof.
  intros Hx. assert (E : (r ← bus_write w a d; mret (r, None)) b = Done x b') by (rewrite <-Hx; by destruct w). revert E.
  unfold mbind, M_bind. destruct (bus_write w a d b) as [r b1| | | |]; [|done..]. by intros [= <- <-].
Qed.
Lemma served_write w a d ID (D : comm) s x b : cmd_index D = op_index (Write w a d) → socket_data D = request_text (op_method (Write w a d)) ID (op_params (Write w a d)) →
  is_int ID → device (bus_of s) → bus_access (Write w a (u8 d)) (bus_of s) = Done x b → do_call D s = Done (answered_with D (op_reply x)) (put_bus b s).
Proof.
  intros Hi Hd Hid Hb Hx. destruct (wire_address far_bits a far_long) as (v & Hv & Hva). destruct (wire_address far_bits d far_long) as (e & He & Hed).
  rewrite (device_write_address w a (u32 v) _ _ Hb) in Hx by (by rewrite u8_u32). rewrite <-Hed in Hx. apply write_access in Hx as [Hx Hn].
  replace (op_reply x) with ((x.1, NoValue) : RpcCalls.reply) by (unfold op_reply; by rewrite Hn).
  assert (Hparam : ∀ name t, find_member (request_members (op_params (Write w a d))) (str name) = JInt (int32 t) → param (socket_data D) name = Some (dec (int32 t))).
  { intros name t Hf. rewrite Hd, request_param by by apply op_requestable. rewrite Hf. apply get_string_int, int32_is_int. }
  assert (Hlen : ∀ t, strlen (dec (int32 t)) < 255) by (intros t; assert (Hl := dec_length _ (int32_is_int t)); lia).
  assert (Ha := Hparam "addr" a eq_refl). assert (Hv' := Hparam "data" d eq_refl). assert (Hla := Hlen a). assert (Hld := Hlen d).
  destruct w; [eapply (mw_write_run 19 (I2cAccess.write_byte) _ mw_byte)|eapply (mw_write_run 21 (I2cAccess.write_word) _ mw_word)|eapply (mw_write_run 23 (I2cAccess.write_dword) _ mw_dword)];
    first [eassumption|reflexivity|done|intros; by eexists _, _, _].
Qed.
Lemma served op ID (D : comm) s x b : cmd_index D = op_index op → socket_data D = request_text (op_method op) ID (op_params op) → is_int ID →
  device (bus_of s) → bus_access (cut op) (bus_of s) = Done x b → do_call D s = Done (answered_with D (op_reply x)) (put_bus b s).
Proof. destruct op; [apply served_read|apply served_write]. Qed.
End served.

(** ** The client hears the answer *)
Section heard_answers.
Context `{JsonC, Doubles}.
Lemma result_name_small r : printable (result_name r) ∧ strlen (result_name r) ≤ 100.
Proof. destruct r; split; vm_compute; done. Qed.
Lemma return_object_small n (z : option Z) : printable n → strlen n ≤ 100 →
  let o := JObject ((str "return", JString n) :: match z with Some z => [(str "data", JInt (int32 z))] | None => [] end) in plain o ∧ bulk o < 1300.
Proof.
  intros Hn Hl o. split.
  - apply object_plain; [refine (bool_decide_unpack _ _); by destruct z; vm_compute|].
    destruct z; repeat (constructor; [split; [by vm_compute|done || apply int32_is_int]|]); constructor.
  - destruct z; cbn [bulk o map fst snd sum foldr]; change (strlen (str "return")) with 6; change (strlen (str "data")) with 4; lia.
Qed.
Lemma op_reply_object x : reply_object (op_reply x) = JObject ((str "return", JString (result_name x.1)) :: match x.2 with Some z => [(str "data", JInt (int32 z))] | None => [] end).
Proof. by destruct x as [r []]. Qed.
Lemma op_reply_small x : plain (reply_object (op_reply x)) ∧ bulk (reply_object (op_reply x)) < 1300.
Proof. rewrite op_reply_object. destruct (result_name_small x.1) as [Hp Hl]. by apply return_object_small. Qed.
Lemma op_answers {A} (D : JsonDataCommObj (packet A)) x : mapper_result D = CMD_TASK_RESULT_UNKNOWN → answers (answered_with D (op_reply x)) (op_reply x).
Proof.
  intros HD. destruct (op_reply_small x) as [Hp Hb]. split; [reflexivity| |exact Hp|exact Hb].
  replace (mapper_result (answered_with D (op_reply x))) with CMD_TASK_RESULT_UNKNOWN by (by destruct x as [r []]). done.
Qed.
Lemma op_outs_found {S} near_bits op x (st : S) : well_answered op x → find_outs near_bits (reply_object (op_reply x)) (op_outs op) st = Done (op_got x) st.
Proof.
  intros [_ Hw]. destruct op as [w a|w a d]; cbn [op_outs]; [|unfold op_got; by rewrite Hw]. rewrite op_reply_object. cbn [find_outs out_name].
  destruct (result_name_small x.1) as [Hn Hl]. destruct (return_object_small _ x.2 Hn Hl) as [Hp _]. rewrite object_get_member by by apply plain_object.
  unfold op_got. destruct x.2 as [v|].
  - change (find_member _ (str "data")) with (JInt (int32 v)). rewrite get_string_int by apply int32_is_int. cbn [take_out].
    assert (Hd := dec_length _ (int32_is_int v)). rewrite bind_assoc, (bind_done _ _ st () st); [done|]. apply fits_done, Z.ltb_lt. lia.
  - change (find_member _ (str "data")) with JNull. by rewrite get_string_null.
Qed.
End heard_answers.

(** ** The bus over the network *)
Section over_the_network.
Context `{JsonC, TaskMemory, Doubles} {K : Kernel}.
(** The machine of the client, but for what it asks the service; the machine of the
    service; and the socket as the service knows it. *)
Variable near : Kernel.
Variables (char_signed emulation : bool) (far_bits sd : Z) (info : option (cstr * cstr)).
Notation srv := (ADJsonRpcMgr I2CSRV_CMN_DATA_CACHE).
Notation list_ := (@I2cSrv.rpclist _ K far_bits emulation).
#[local] Instance service_socket : Socket (remote srv) :=
  remote_socket char_signed far_bits sd info (process_json_to_binary far_bits list_) (process_work far_bits list_) (process_binary_to_json far_bits list_).
Notation client := (ADJsonRpcClient (remote srv)).
Notation near_bits := (@k_long_bits near).

(** The two calls of the client that I2CBusAccess makes. *)
Definition ask (method : cstr) (addr : Z) : M client (RPC_SRV_RESULT * cstr) :=
  get_integer_type_with_addr_para near_bits method (str "addr") addr (str "data") 64.
Definition tell (method : cstr) (addr value : Z) : M client answer :=
  set_integer_type_with_addr_para near_bits method (str "addr") addr (str "data") value.

(** The client after the calls of a bus object, from the connected client [c0]. *)
Variable c0 : client.
Definition replay_one (c : client) (e : io) : client :=
  match e with
  | RpcGet m a _ => match ask m a c with Done _ c' => c' | _ => c end
  | RpcSet m a d _ => match tell m a d c with Done _ c' => c' | _ => c end
  | _ => c
  end.
Definition replay (h : list io) : client := foldl replay_one c0 h.
(** The client's machine with the service at the other end. *)
Definition remote_kernel : Kernel := {|
  k_long_bits := near_bits; stat_mode_chr := @stat_mode_chr near; open_dev := @open_dev near; net_connect := @net_connect near;
  ioctl_slave := @ioctl_slave near; ioctl_smbus := @ioctl_smbus near; read_fd := @read_fd near; write_fd := @write_fd near;
  rpc_get h m a := match ask m a (replay h) with Done x _ => x | _ => (RPC_SRV_RESULT_UNKNOWN, []) end;
  rpc_set h m a d := match tell m a d (replay h) with Done x _ => x.1 | _ => RPC_SRV_RESULT_UNKNOWN end
|}.

Hypothesis reads : reads_bytes K.
Hypothesis far_long : 32 ≤ far_bits.
Hypothesis near_long : 32 ≤ near_bits.

(** The bus of the service, and what stays true of the two ends. *)
Definition far_bus (c : client) : I2CBusAccess := bus_of (world (far (peer c))).
Record ready_client (c : client) : Prop := ReadyClient {
  rc_linked : linked c;
  rc_calls : rpc_call_list (far (peer c)) = methods list_;
  rc_device : device (far_bus c)
}.
Lemma op_call op c : ready_client c → ∃ x b c',
  call 4000 (λ id, prepare_json_request_with (op_method op) id (op_params op)) (λ s, find_json_result_with near_bits s (op_outs op)) c = Done (x.1, op_got x) c' ∧
  @bus_access K (cut op) (far_bus c) = Done x b ∧ well_answered op x ∧ far_bus c' = b ∧ ready_client c'.
Proof.
  intros [Hl Hc Hd]. destruct (device_access reads (cut op) (far_bus c) Hd) as (x & l & Hx & Hw). set (b := set_ios l (far_bus c)) in *.
  assert (Hw' : well_answered op x) by (by destruct op).
  assert (Hs := served far_bits emulation reads far_long op (c_req_id c) (comm_of (request_task sd c (op_method op) (op_params op) (op_index op))) (world (far (peer c))) x b).
  assert (Hi := lk_id _ Hl). assert (Hsound := rq_sound _ _ _ (op_requestable op _ Hi)). apply sound_inv in Hsound as (Hp & _ & _).
  specialize (Hs eq_refl (proj1 (taken_up_text sd _ _ (printed_text _ Hp))) Hi Hd Hx).
  assert (Ha := op_answers (comm_of (P := packet I2CSRV_PCF8574_ACCESS_PACKET) (request_task sd c (op_method op) (op_params op) (op_index op))) x eq_refl).
  destruct (wire_call_run char_signed far_bits near_bits sd info _ _ _ 4000 (op_method op) (op_params op) (op_outs op) (op_index op) _ _ (op_reply x) (op_got x) c Hl ltac:(done) far_long
    (op_requestable op _ Hi) ltac:(rewrite Hc; by destruct op as [[]|[]]) ltac:(by destruct op as [[]|[]]) Hs Ha (λ c, op_outs_found near_bits op x c Hw')) as (c' & Hrun & Hl' & Hw1 & Hc1 & _).
  exists x, b, c'. assert (Hh : heard (op_reply x).1 = x.1).
  { unfold heard. cbn [op_reply fst]. destruct Hw as [Hin _]. rewrite decide_False; [done|]. intros E. rewrite E in Hin. set_solver. }
  rewrite Hh in Hrun. split; [exact Hrun|]. split; [exact Hx|]. split; [exact Hw'|].
  assert (Hb : far_bus c' = b) by (unfold far_bus; rewrite Hw1; reflexivity). split; [exact Hb|].
  split; [exact Hl'|rewrite Hc1; exact Hc|]. rewrite Hb. exact Hd.
Qed.

Definition networked (b : I2CBusAccess) : Prop := DevOpened b = RPC_SRV_RESULT_SUCCESS ∧ ConnType b = Some ADLIB_DEV_CONN_TYPE_NETWORK.
Lemma opened_net {A} fail (dev net : M I2CBusAccess A) b : networked b → opened fail dev net b = net b.
Proof.
  intros [Ho Hc]. unfold opened. rewrite bind_gets. cbn [Datatypes.id]. rewrite bool_decide_eq_true_2 by done. cbn [negb].
  rewrite decide_False by (rewrite Hc; discriminate). by rewrite decide_True.
Qed.
Lemma ask_run w a c x c' : call 4000 (λ id, prepare_json_request_with (op_method (Read w a)) id (op_params (Read w a))) (λ s, find_json_result_with near_bits s (op_outs (Read w a))) c =
    Done (x.1, op_got x) c' →
  ask (op_method (Read w a)) (int32 a) c = Done (x.1, match x.2 with Some v => dec (int32 v) | None => str "unknown" end) c'.
Proof.
  intros Hc. unfold ask, get_integer_type_with_addr_para, with_text. rewrite (bind_done _ _ c (x.1, op_got x) c') by exact Hc. by destruct x as [r []].
Qed.
Lemma tell_run w a d c x c' : call 4000 (λ id, prepare_json_request_with (op_method (Write w a d)) id (op_params (Write w a d))) (λ s, find_json_result_with near_bits s (op_outs (Write w a d))) c =
    Done (x.1, op_got x) c' →
  tell (op_method (Write w a d)) (int32 a) (int32 d) c = Done (x.1, op_got x) c'.
Proof. intros Hc. exact Hc. Qed.
Lemma replay_snoc h e : replay (h ++ [e]) = replay_one (replay h) e.
Proof. unfold replay. by rewrite foldl_snoc. Qed.
Lemma cut_back k v : k = 8 ∨ k = 16 ∨ k = 32 → 0 ≤ v < 2 ^ k → int32 v mod 2 ^ k = v.
Proof.
  intros Hk Hv. assert (2 ^ k ≤ 2 ^ 32) by (apply Z.pow_le_mono_r; lia). change (2 ^ 32) with 4294967296 in *. assert (Hu := u32_int32 v). rewrite (u32_small v) in Hu by lia.
  destruct Hk as [Hk|[Hk|Hk]]; subst k; [change (2 ^ 8) with 256 in *|change (2 ^ 16) with 65536 in *|exact Hu]; rewrite int32_small by (unfold INT_MAX; lia); by apply Z.mod_small.
Qed.
Lemma net_get_run w a b x c' : ask (op_method (Read w a)) (int32 a) (replay (ios b)) = Done (x.1, match x.2 with Some v => dec (int32 v) | None => str "unknown" end) c' →
  well_answered (Read w a) x → ∃ b', @net_get remote_kernel (match w with Byte => "read_byte" | Word => "read_word" | Dword => "read_dword" end) a (8 * Z.of_nat (bytes w)) b = Done x b' ∧
    networked b' = networked b ∧ replay (ios b') = c'.
Proof.
  intros Hask Hw. set (m := match w with Byte => "read_byte" | Word => "read_word" | Dword => "read_dword" end). assert (Hm : op_method (Read w a) = str m) by (by destruct w). rewrite Hm in Hask.
  set (e := RpcGet (str m) (int32 a) x.1). exists (set_ios (ios b ++ [e]) b). split_and!; [|done|].
  - unfold net_get, log. msimpl. unfold Datatypes.id. cbn [rpc_get remote_kernel]. rewrite Hask. msimpl. f_equal. destruct x as [r [v|]], Hw as [_ Hv]; cbn [fst snd] in *.
    + destruct Hv as [-> Hv]. rewrite decide_True by done. cbn [k_long_bits remote_kernel]. rewrite atoi_dec; [|exact near_long|apply is_int_range, int32_is_int].
      rewrite cut_back; [done|destruct w; cbn; lia|exact Hv].
    + by rewrite decide_False.
  - cbn [ios set_ios]. rewrite replay_snoc. cbn [replay_one e]. by rewrite Hask.
Qed.
Lemma net_set_run w a d b x c' : tell (op_method (Write w a d)) (int32 a) (int32 d) (replay (ios b)) = Done (x.1, op_got x) c' →
  ∃ b', @net_set remote_kernel (match w with Byte => "write_byte" | Word => "write_word" | Dword => "write_dword" end) a d b = Done x.1 b' ∧ networked b' = networked b ∧ replay (ios b') = c'.
Proof.
  intros Htell. set (m := match w with Byte => "write_byte" | Word => "write_word" | Dword => "write_dword" end). assert (Hm : op_method (Write w a d) = str m) by (by destruct w). rewrite Hm in Htell.
  set (e := RpcSet (str m) (int32 a) (int32 d) x.1). exists (set_ios (ios b ++ [e]) b). split_and!; [|done|].
  - unfold net_set, log. msimpl. unfold Datatypes.id. cbn [rpc_set remote_kernel]. by rewrite Htell.
  - cbn [ios set_ios]. rewrite replay_snoc. cbn [replay_one e]. by rewrite Htell.
Qed.
Lemma remote_access op b : networked b → ready_client (replay (ios b)) → ∃ x b1 b',
  @bus_access remote_kernel op b = Done x b' ∧ @bus_access K (cut op) (far_bus (replay (ios b))) = Done x b1 ∧
  networked b' ∧ ready_client (replay (ios b')) ∧ far_bus (replay (ios b')) = b1.
Proof.
  intros Hn Hr. destruct (op_call op _ Hr) as (x & b1 & c' & Hc & Hx & Hw & Hf & Hr'). exists x, b1.
  destruct op as [w a|w a d].
  - destruct (net_get_run w a b x c' (ask_run w a _ _ _ Hc) Hw) as (b' & Hb & Hn' & Hc'). exists b'. rewrite Hc', Hn'. split_and!; [|exact Hx|exact Hn|exact Hr'|exact Hf].
    destruct w; cbn [bus_access]; unfold I2cAccess.read_byte, read_word, read_dword, read_wide; rewrite opened_net by exact Hn; exact Hb.
  - destruct (net_set_run w a d b x c' (tell_run w a d _ _ _ Hc)) as (b' & Hb & Hn' & Hc'). exists b'. rewrite Hc', Hn'. split_and!; [|exact Hx|exact Hn|exact Hr'|exact Hf].
    assert (E : x = (x.1, None)) by (destruct x as [r v], Hw as [_ Hv]; cbn in *; by rewrite Hv). rewrite E.
    destruct w; cbn [bus_access]; unfold mbind, M_bind, I2cAccess.write_byte, write_word, write_dword, write_wide; rewrite opened_net by exact Hn; by rewrite Hb.
Qed.
(** An array is written or read on the client's own machine, at the descriptor that
    the memory held.  Should it be the one of the connection, the [ioctl] of a socket
    fails, and nothing is written to it. *)
Definition at_home (e : io) : Prop := match e with IoSlave _ _ | IoWrite _ _ | IoRead _ _ => True | _ => False end.
Lemma replay_home h l : Forall at_home l → replay (h ++ l) = replay h.
Proof.
  intros Hl. unfold replay. rewrite foldl_app. generalize (foldl replay_one c0 h). induction Hl as [|e l He _ IH]; intros c; [done|].
  cbn [foldl]. rewrite IH. by destruct e.
Qed.
Definition home {A} (c : M I2CBusAccess A) : Prop := ∀ b, ∃ x l, c b = Done x (set_ios (ios b ++ l) b) ∧ Forall at_home l.
Lemma home_ret {A} (x : A) : home (mret x).
Proof. intros b. exists x, []. rewrite app_nil_r. by destruct b. Qed.
Lemma home_bind {A B} (c : M I2CBusAccess A) (k : A → M I2CBusAccess B) : home c → (∀ x, home (k x)) → home (c ≫= k).
Proof.
  intros Hc Hk b. destruct (Hc b) as (x & l & Hx & Hl). destruct (Hk x (set_ios (ios b ++ l) b)) as (y & l' & Hy & Hl').
  exists y, (l ++ l'). split; [|by apply Forall_app]. mstep Hx. rewrite Hy. cbn [ios set_ios]. by rewrite app_assoc.
Qed.
Lemma home_gets {A} (f : I2CBusAccess → A) : home (gets f).
Proof. intros b. exists (f b), []. rewrite app_nil_r. by destruct b. Qed.
Lemma home_log e : at_home e → home (log e).
Proof. intros He b. exists (), [e]. by split; [|constructor]. Qed.
Lemma home_slave {K' : Kernel} {A} fail a (c : M I2CBusAccess A) : home c → home (with_slave fail a c).
Proof.
  intros Hc. unfold with_slave, SetSlaveAddr. apply home_bind; [|intros r; case_decide; [done|apply home_ret]].
  apply home_bind; [apply home_gets|]. intros b. apply home_bind; [by apply home_log|intros; apply home_ret].
Qed.
Lemma home_opened {A} fail (c : M I2CBusAccess A) : home c → home (if_opened fail c).
Proof. intros Hc. unfold if_opened. apply home_bind; [apply home_gets|]. intros b. destruct (negb _); [apply home_ret|done]. Qed.
Lemma array_access a b : singles [a] = [] → ∃ x l, @object_access remote_kernel a b = Done (ArrayResult x) (set_ios (ios b ++ l) b) ∧ Forall at_home l.
Proof.
  destruct a as [op|addr data|addr len]; intros Ha; [done| |].
  - assert (Hw : home (@write_array remote_kernel addr data)).
    { apply home_opened, home_slave, home_bind; [apply home_gets|]. intros s. apply home_bind; [by apply home_log|intros; apply home_ret]. }
    destruct (Hw b) as (r & l & Hr & Hl). exists (r, None), l. split; [cbn [object_access]; by mstep Hr|done].
  - assert (Hw : home (@read_array remote_kernel addr len)).
    { apply home_opened, home_slave, home_bind; [|intros; apply home_ret]. apply home_bind; [apply home_gets|]. intros s. destruct (read_fd _ _ _).
      apply home_bind; [by apply home_log|intros; apply home_ret]. }
    destruct (Hw b) as (r & l & Hr & Hl). exists r, l. split; [cbn [object_access]; by mstep Hr|done].
Qed.
Lemma remote_accesses l : ∀ b, networked b → ready_client (replay (ios b)) → ∃ xs b1 b',
  @object_accesses remote_kernel l b = Done xs b' ∧
  @bus_accesses K (cut <$> singles l) (far_bus (replay (ios b))) = Done (single_results xs) b1 ∧ far_bus (replay (ios b')) = b1.
Proof.
  induction l as [|a l IH]; intros b Hn Hr; [by eexists [], _, b|]. destruct a as [op|addr data|addr len].
  1: { destruct (remote_access op b Hn Hr) as (x & b1 & b' & Hx & Hx1 & Hn' & Hr' & Hf). destruct (IH b' Hn' Hr') as (xs & b2 & b2' & Hxs & Hxs1 & Hf').
    exists (SingleResult x :: xs), b2, b2'. cbn [object_accesses object_access]. split_and!; [|rewrite <-Hf in Hx1|exact Hf'].
    - erewrite bind_done by (by mstep Hx). by mstep Hxs.
    - change (singles (Single op :: l)) with (op :: singles l). cbn [fmap list_fmap bus_accesses]. mstep Hx1. by mstep Hxs1. }
  1: destruct (array_access (WriteArray addr data) b eq_refl) as (x & h & Hx & Hh).
  2: destruct (array_access (ReadArray addr len) b eq_refl) as (x & h & Hx & Hh).
  all: assert (Hrep := replay_home (ios b) h Hh).
  all: destruct (IH (set_ios (ios b ++ h) b)) as (xs & b2 & b2' & Hxs & Hxs1 & Hf'); [done|by cbn [ios set_ios]; rewrite Hrep|].
  all: cbn [ios set_ios] in Hxs1; rewrite Hrep in Hxs1; exists (ArrayResult x :: xs), b2, b2'; (split; [|split; [exact Hxs1|exact Hf']]).
  all: cbn [object_accesses]; rewrite (bind_done _ _ _ _ _ Hx); by mstep Hxs.
Qed.


(** *** The theorem *)
(** C39: the bus of another machine is the bus, but for arrays: when the service has
    started on a bus that is a device node, the client has connected to it, and the
    object I2CBusAccess was made over the network, then of any sequence of accesses to
    that object the reads and writes of bytes, words and double words give the
    results and the values that they give, without the others, on the bus of the
    service, where of every value that is written eight bits are left, and leave that bus in the
    same state; nothing gets stuck on the way through the client, the socket, the
    threads of the server and the phases of a call.  The reads and writes of arrays
    in between return, but the service does not hear of them: the code hands them
    to the descriptor of the object, which nothing has set. *)
Theorem remote_bus_is_the_bus version garbage dev_node dbglog w s ip port_num name l :
  @I2cSrv.main _ K far_bits emulation version garbage dev_node dbglog w = Done 0 s →
  rpc_server_connect ip port_num (ADJsonRpcClient_new (MkRemote s [])) = Done 0 c0 →
  device (@I2CBusAccess_new K garbage dev_node) → networked (@I2CBusAccess_new remote_kernel garbage name) →
  ∃ xs b' bus', @object_accesses remote_kernel l (@I2CBusAccess_new remote_kernel garbage name) = Done xs b' ∧
    @bus_accesses K (cut <$> singles l) (@I2CBusAccess_new K garbage dev_node) = Done (single_results xs) bus' ∧ far_bus (replay (ios b')) = bus'.
Proof.
  intros Hm Hc Hd Hn. rewrite main_run in Hm. injection Hm as <-. set (b := @I2CBusAccess_new remote_kernel garbage name) in *.
  destruct (wire_connect_run char_signed far_bits sd info _ _ _ ip port_num _ c0 Hc) as (Hl & Hw & Hcalls); [by split|].
  assert (Hb : far_bus c0 = @I2CBusAccess_new K garbage dev_node) by (unfold far_bus; rewrite Hw; reflexivity).
  assert (Hi : ios b = []).
  { unfold b, I2CBusAccess_new. repeat first [case_decide | case_match]; reflexivity. }
  destruct (remote_accesses l b Hn) as (xs & bus' & b' & E1 & E2 & E3).
  - rewrite Hi. change (replay []) with c0. split; [exact Hl|rewrite Hcalls; reflexivity|]. rewrite Hb. exact Hd.
  - rewrite Hi in E2. change (replay []) with c0 in E2. rewrite Hb in E2. by exists xs, b', bus'.
Qed.
End over_the_network.

(** ** An example

    A byte and a word are written to the expander 32 of the other machine, of whose word
    one byte is left, and a byte and a double word are read; the array in between goes to
    the descriptor 0 of the own machine, which is what the memory held. *)
#[local] Instance no_doubles : Doubles := {| double := unit; print_double _ := str "0"; atof _ := tt; to_float d := d |}.
Definition far_machine : Kernel := {|
  k_long_bits := 32; stat_mode_chr _ := true; open_dev _ := (3, 0); net_connect _ _ := false;
  ioctl_slave _ _ _ := 0; ioctl_smbus _ _ x := match x with SmbusRead => (0, 0x42) | SmbusWrite _ => (0, 0) end;
  read_fd _ _ len := if len <? 0 then (0, []) else (len, replicate (Z.to_nat len) 0xfe); write_fd _ _ data := Z.of_nat (length data);
  rpc_get _ _ _ := (RPC_SRV_RESULT_FAIL, []); rpc_set _ _ _ _ := RPC_SRV_RESULT_FAIL
|}.
Definition near_machine : Kernel := {|
  k_long_bits := 64; stat_mode_chr _ := false; open_dev _ := (-1, 2); net_connect _ _ := true;
  ioctl_slave _ _ _ := -1; ioctl_smbus _ _ _ := (-1, 0); read_fd _ _ _ := (-1, []); write_fd _ _ _ := -1;
  rpc_get _ _ _ := (RPC_SRV_RESULT_FAIL, []); rpc_set _ _ _ _ := RPC_SRV_RESULT_FAIL
|}.
Definition a_service : server (ADJsonRpcMgr I2CSRV_CMN_DATA_CACHE) :=
  @started simple_json far_machine 32 false 7 0 (str "/dev/i2c-1") false (Worker no_chain no_chain true 0 []).
Definition a_client : ADJsonRpcClient (remote (ADJsonRpcMgr I2CSRV_CMN_DATA_CACHE)) :=
  match @rpc_server_connect _ (@service_socket simple_json fresh_memory far_machine false false 32 7 (Some (str "10.0.0.3", str "4711"))) (str "10.0.0.2") 5000
    (ADJsonRpcClient_new (MkRemote a_service [])) with Done _ c => c | _ => ADJsonRpcClient_new (MkRemote a_service []) end.
Definition a_remote_kernel : Kernel :=
  @remote_kernel simple_json fresh_memory no_doubles far_machine near_machine false false 32 7 (Some (str "10.0.0.3", str "4711")) a_client.
Definition some_accesses : list access :=
  [Single (Write Byte 32 0x55); Single (Write Word 32 0x1234); WriteArray 32 [1; 2]; Single (Read Byte 32); Single (Read Dword 32)].
Lemma far_machine_reads : reads_bytes far_machine.
Proof.
  intros fd h len buff. cbn. destruct (Z.ltb_spec len 0); intros E; injection E; intros; subst; [lia|]. rewrite length_replicate. split; [lia|]. by apply Forall_replicate.
Qed.
Lemma remote_bus_is_the_bus_witness : ∃ xs b' bus',
  @object_accesses a_remote_kernel some_accesses (@I2CBusAccess_new a_remote_kernel 0 (str "5000:10.0.0.2")) =
    Done xs b' ∧
  single_results xs = [(RPC_SRV_RESULT_SUCCESS, None); (RPC_SRV_RESULT_SUCCESS, None); (RPC_SRV_RESULT_SUCCESS, Some 0x42); (RPC_SRV_RESULT_SUCCESS, Some 0xfefefefe)] ∧
  ios bus' = [IoSlave 32 0; IoSmbus (SmbusWrite 0x55) 0; IoSlave 32 0; IoWrite [0; 0x34] 2; IoSlave 32 0; IoSmbus SmbusRead 0; IoSlave 32 0; IoRead 4 4] ∧
  @far_bus (@replay simple_json fresh_memory no_doubles far_machine near_machine false false 32 7 (Some (str "10.0.0.3", str "4711")) a_client (ios b')) = bus'.
Proof.
  destruct (@remote_bus_is_the_bus simple_json fresh_memory no_doubles far_machine near_machine false false 32 7 (Some (str "10.0.0.3", str "4711")) a_client
    far_machine_reads ltac:(lia) ltac:(cbn; lia) 7 0 (str "/dev/i2c-1") false (Worker no_chain no_chain true 0 []) a_service (str "10.0.0.2") 5000 (str "5000:10.0.0.2") some_accesses)
    as (xs & b' & bus' & H1 & H2 & H3).
  - apply main_run.
  - vm_compute. reflexivity.
  - vm_compute. split; reflexivity.
  - vm_compute. split; reflexivity.
  - exists xs, b', bus'. split; [exact H1|]. remember (single_results xs) as rs eqn:Hrs. clear Hrs. vm_compute in H2. injection H2 as <- <-. split_and!; [reflexivity..|exact H3].
Defined.
